(* ===== verification/_CoqProject ===== *)
-Q . S2P
Prelude.v
Utils.v
Cstring.v
Cbuf.v
Scanf.v
Bspatch.v
Bsdiff.v
HashTable.v
Edify.v
Retouch.v
Mtdutils.v
MtdScan.v
Imgpatch.v
Imgdiff.v
ImgdiffFacts.v
ImgdiffRoundtrip.v
Run.v
Posix.v
PosixFacts.v
Numerals.v
Stdio.v
Views.v
TextLines.v
Streams.v
DirUtil.v
DirUtilFacts.v
DirTrees.v
DirPerms.v
Bootloader.v
BootloaderFacts.v
BootloaderMtd.v
BmlOverMtd.v
BmlFacts.v
Recovery.v
RecoveryArgs.v
CacheFiles.v
RecoveryFacts.v
BootCycle.v
Mounts.v
Calls.v
Roots.v
Formats.v
RootsFacts.v
FormatFacts.v
CacheRoots.v
World.v
Verifier.v
Zip.v
ZipFacts.v
ZipRoundtrip.v
ZipExtract.v
ZipTree.v
ZipTreeFacts.v
VerifiedZip.v
Install.v
InstallFacts.v
InstallRuns.v
Updater.v
UpdaterFacts.v
Dedupe.v
DedupeFacts.v
DedupeFormat.v
DedupeRestore.v
DedupeStore.v
DedupeRoundtrip.v
NandroidMd5.v
NandroidMd5Facts.v
Nandroid.v
NandroidFacts.v
Mmcutils.v
MmcFacts.v
MmcCopy.v
Applypatch.v
ApplypatchSafety.v
ApplypatchFacts.v
