(* ===== verification/Prelude.v ===== *)
(** * A verification of the Android recovery's update machinery

    The repository is a ClockworkMod-based Android recovery: the program that
    runs from its own partition, checks update packages and applies them.  This
    library models the parts that carry the update logic, as executable
    functions, and proves what makes them correct.  It also keeps the proofs of
    the places where the code does not do what it means to.

    ** The program and the files

    - Recovery starts with a message from the bootloader and ends by clearing it.
      [Bootloader] is [bootloader.c]; [BootloaderFacts] and [BootloaderMtd] are
      its proofs on block devices and on flash.  [Recovery] is the part of
      [recovery.c] that gets and keeps the arguments and finishes ([get_args],
      [finish_recovery] and the log files); [RecoveryArgs], [RecoveryFacts],
      [CacheFiles] and [BootCycle] are its proofs, up to the machine of boots and
      power losses.
    - Volumes: [Mounts] is [mounts.c]; [Roots] is [roots.c]; [Formats] is
      [format_volume], [format_device] and [format_unknown_device] with the
      dispatch of [flashutils.c].  [RootsFacts] and [FormatFacts] prove what they
      promise, [CacheRoots] that [roots.c] is what [Recovery] needs.
    - Installing: [Install] is [install.c] with the variables of [firmware.c];
      [InstallFacts] proves what may run, [InstallRuns] what a signed package
      does.
    - An update package is a signed Zip file.  [Verifier] is [verifier.c]
      ([verify_file], [load_keys]); [Zip], [ZipFacts], [ZipRoundtrip] and
      [ZipExtract] are [minzip/Zip.c] with the accessors of [minzip/Bits.h];
      [HashTable] is [minzip/Hash.c], which indexes the entries.  [VerifiedZip]
      joins the two: what is signed is what is parsed.  [ZipTree] and
      [ZipTreeFacts] are the extraction of whole directories.
    - The package's script is written in edify: [Edify] is [edify/expr.c] with
      the actions of [edify/parser.y] that build the expression tree.  [Updater] is [updater/install.c], the functions
      scripts call, and the end of [updater.c]'s [main]; [UpdaterFacts] are its
      proofs, the pipe to [Install] among them.  [DirUtil], [DirUtilFacts],
      [DirTrees] and [DirPerms] are [minzip/DirUtil.c].
    - Its workhorse is applypatch: [Applypatch] is [applypatch/applypatch.c] and
      [applypatch/freecache.c], [Bspatch] is [bspatch.c], [Imgpatch] is
      [imgpatch.c], [Utils] is [utils.c] with the integer encodings of the patch
      formats, [Bsdiff] is the patch generator [bsdiff.c] (its main loop, over
      any suffix array), [Imgdiff] is the one for images, [imgdiff.c], with its
      proofs in [ImgdiffFacts] and [ImgdiffRoundtrip]; [Retouch] is
      [minelf/Retouch.c].  [ApplypatchSafety] and [ApplypatchFacts] hold the
      proofs about applypatch.
    - Raw flash: [Mtdutils] is [mtdutils/mtdutils.c], [MtdScan] its reading of
      /proc/mtd; [Mmcutils] is [mmcutils/mmcutils.c], with its proofs in
      [MmcFacts] (the partition table) and [MmcCopy] (contents);
      [BmlOverMtd] is [mtdutils/bml_over_mtd.c], which dumps and flashes
      partitions whose bad blocks are replaced, with its proofs in [BmlFacts].
    - Backups: [Nandroid] is [nandroid.c], which backs up and restores a device by
      running commands, and [NandroidFacts] proves what its runs mean.
      [NandroidMd5] is [nandroid_md5.c], the checksums of a backup, with its proofs
      in [NandroidMd5Facts].  [Dedupe] is [dedupe/dedupe.c], the program that
      stores equal files once; [DedupeFacts] proves its garbage collection,
      [DedupeFormat], [DedupeStore], [DedupeRestore] and [DedupeRoundtrip] that
      what was stored is restored.
    - The C library and the kernel: [Cstring], [Cbuf], [Scanf] and [Numerals]
      (strings, [strtok], [sscanf], numbers as text); [Run] (programs on a disk
      with calls that may fail and a log of every disk they go through); [Posix],
      [PosixFacts] (trees of files, links, path resolution) and [Stdio] (streams);
      [Views], [TextLines] and [Streams] (rules for programs that only look, for
      runs in which every write is done, for files of lines and for streams that
      are written from the start); [World] (a flat disk, for applypatch); [Calls]
      (programs that run external commands, and the histories of their runs).

    ** How code becomes definitions

    One definition per C function, with the function's name; a loop is a fixpoint
    of its own.  Machine integers are [Z], cut to their width by [wrap] and
    [swrap] wherever the code's arithmetic can leave it; the machine is the
    32-bit one the recovery runs on.  A buffer is a list of bytes, and an access
    outside of it is [None].  The result type [outcome] tells apart a return
    ([Done]), an error exit ([Fail]), undefined behaviour ([Undef]) and a loop
    that used up its fuel ([Diverge]).  Fuel is a bound on the iterations
    computed from the input where there is one (bytes left, table size, entries,
    depth of a tree); the theorems prove it is enough, or have a hypothesis that
    says how much is.

    Effects go through the monad [W] of [Run]: a disk, other devices, a stream of
    answers that says which calls fail or fall short, and the log.  A theorem for
    all streams is one for every behaviour of the system; one about the log is
    about power losses at any moment; one that needs every call to work asks for
    a [calm] world.  [Calls] describes mounting and formatting as trees of
    commands, so that theorems quantify over their answers.  Edify's functions
    are in a monad of their own, with NULL and the error message, whose cookie in
    [Updater] holds the world, the mounts and what was written to the pipe.

    What is not under [src/] is a parameter: libbz2 ([BzLib], [BzSpec]), zlib
    ([ZLib], [Inflater] and their specifications), mincrypt ([Mincrypt]), SHA-1,
    SHA-256, MD5 ([Md5], [Md5Spec]), safe_iop ([SafeIop]), the MTD driver
    ([MtdDriver], [MtdHealthy]), the fstab parser ([FsMgr]), vold's codes, the order of directories ([DirOrder]),
    [malloc], and the programs recovery starts.  Each specification class has an
    instance, so no theorem rests on one that nothing satisfies.

    ** What is proved

    The conditions are in the comment of each theorem; where the code has a flaw
    outside of them, the comment names the theorem that shows it.

    - Restarting: once [get_args] has written the message to an eMMC partition,
      every boot that can read it runs recovery with the same arguments until
      [finish_recovery] has cleared it, wherever power is lost: such boots refine
      the machine in [recovery.c]'s opening comment.  [roots.c] implements the
      interface this rests on, over any kernel whose mounts keep to their
      directories.
    - Installing: with the signature check on, at most one program is started,
      and its archive was signed by a key of the device or confirmed by the user;
      a signed package runs its update binary, and the result is its exit status
      if it asks for no firmware update.
    - Safety of patching: at every moment of [applypatch] on files with BSDIFF40
      patches, whatever the system calls do, the disk has the source, a full copy
      of it or the finished target, and 0 is returned only for the right target;
      from such a disk an undisturbed run completes; the cache cleaner never
      deletes the copy, nor a file that /proc shows to be open; a write to an eMMC
      partition that reports success left the data there.
    - Patches: bsdiff and bspatch are inverse for every pair of files, imgdiff
      and imgpatch for images of gzip members; bspatch and imgpatch compute what
      the patch formats say; the integer encodings read back what they wrote.
    - Packages: [verify_file] accepts exactly the signed files; keys files are
      read back; [parseZipArchive] is safe on any bytes and reads back every
      archive laid out as the format says; lookups find exactly the entries;
      entries and directories are extracted as what they hold; the record that
      was signed is the one minzip parses.
    - Scripts: a script of builtins and operators is evaluated to an end, and
      failures are explained; wrong numbers of
      arguments are refused; what scripts print is what recovery shows; property
      files are read as their assignments.
    - Volumes: the table of mounts is read back, and its array is left only by a
      scan of more than 32 volumes; 0 from
      [ensure_path_mounted] and [ensure_path_unmounted] means what [roots.h] says;
      formatting spares /data/media; directories are made, removed and given
      permissions exactly as asked.
    - The hash table: invariant of every reachable table, lookup, removal,
      clearing, termination of probing.
    - Flash: restoring and backing up are inverse on chips whose bad blocks are
      marked and on eMMC partitions, and dumping and flashing through a table of
      replaced blocks are; partition tables and the bootloader's message
      are read back, and reading the tables of an eMMC ends on any contents.
    - Backups: a backup that reports success is complete, and its checksums were
      made last; nothing is restored before they were checked, and no partition
      is wiped for an archive that is not there; the check succeeds exactly for files
      that have the MD5 they had; what dedupe stored is restored, and its garbage
      collection removes exactly what no manifest names.
    - Retouching stays inside the object and applies the offset asked for.
    - Flaws, each as a theorem: overrun guards that wrap, buffers and tables
      overrun, a signature pointer before its buffer, a saved source that is lost
      when a partition patch is resumed, failures reported as success, messages
      taken for commands, a log that is overwritten with nothing, loops without
      end.

    ** Not modelled

    User interface, input, drawing and sound ([ui.c], [minui], [input], the menus
    of [recovery.c] and [extendedcommands.c]); the adb daemon and sideloading; [maybe_install_firmware_update];
    imgdiff's mode for Zip files and the command lines of the tools; the
    automata generated from the [edify] grammar; SELinux labels; tools for other boards.  The
    manifest lists every part with the reason.  Floating-point progress reports
    are passed on as text, and log messages are left out. *)
From Stdlib Require Export ZArith Lia.
From stdpp Require Export base numbers strings gmap option.
From stdpp Require Export list.
#[global] Open Scope Z_scope.
#[global] Unset Printing Use Implicit Types.

(** ** Notation for the C operators the sources use *)
Declare Scope c_scope.
Delimit Scope c_scope with C.
Notation "x '.&' y" := (Z.land x y) (at level 40, left associativity) : c_scope.
Notation "x '.|' y" := (Z.lor x y) (at level 50, left associativity) : c_scope.
Notation "x '.^' y" := (Z.lxor x y) (at level 50, left associativity) : c_scope.
Notation "x '<<<' n" := (Z.shiftl x n) (at level 38, left associativity) : c_scope.
Notation "x '>>>' n" := (Z.shiftr x n) (at level 38, left associativity) : c_scope.
#[global] Open Scope c_scope.

Create HintDb recovery discriminated.
#[global] Hint Constants Opaque : recovery.

(** ** Machine integers *)

(** [wrap w z]: the value of [z] in an unsigned [w]-bit type. *)
Definition wrap (w z : Z) : Z := z mod 2 ^ w.

(** [swrap w z]: the value of [z] in a two's-complement [w]-bit type. *)
Definition swrap (w z : Z) : Z :=
  let u := wrap w z in if u <? 2 ^ (w - 1) then u else u - 2 ^ w.

Definition in_s (w z : Z) : Prop := - 2 ^ (w - 1) <= z < 2 ^ (w - 1).
Definition in_u (w z : Z) : Prop := 0 <= z < 2 ^ w.

Lemma wrap_small w z : in_u w z -> wrap w z = z.
Proof. intros; apply Z.mod_small; assumption. Qed.

Lemma wrap_range w z : 0 <= w -> in_u w (wrap w z).
Proof. intros; apply Z.mod_pos_bound, Z.pow_pos_nonneg; lia. Qed.

Lemma pow2_half w : 0 < w -> 2 ^ w = 2 * 2 ^ (w - 1).
Proof. intros. rewrite <- Z.pow_succ_r by lia. f_equal; lia. Qed.

Lemma swrap_range w z : 0 < w -> in_s w (swrap w z).
Proof.
  intros Hw. unfold swrap, in_s.
  pose proof (wrap_range w z ltac:(lia)) as Hr. unfold in_u in Hr.
  rewrite (pow2_half w) in * by lia.
  destruct (Z.ltb_spec (wrap w z) (2 ^ (w - 1))); lia.
Qed.

Lemma swrap_small w z : 0 < w -> in_s w z -> swrap w z = z.
Proof.
  intros Hw Hz. unfold swrap, wrap, in_s in *.
  pose proof (pow2_half w Hw). pose proof (Z.pow_pos_nonneg 2 (w - 1) ltac:(lia) ltac:(lia)).
  destruct (Z_lt_ge_dec z 0) as [Hn | Hn].
  - replace (z mod 2 ^ w) with (z + 2 ^ w).
    + destruct (Z.ltb_spec (z + 2 ^ w) (2 ^ (w - 1))); lia.
    + rewrite <- (Z.mod_small (z + 2 ^ w) (2 ^ w)) by lia.
      replace (z + 2 ^ w) with (z + 1 * 2 ^ w) by lia. now rewrite Z.mod_add by lia.
  - rewrite Z.mod_small by lia. destruct (Z.ltb_spec z (2 ^ (w - 1))); lia.
Qed.

(** The low bits of a two's-complement value are those of the integer. *)
Lemma swrap_mod w z : 0 < w -> swrap w z mod 2 ^ w = z mod 2 ^ w.
Proof.
  intros Hw. unfold swrap, wrap. pose proof (Z.pow_pos_nonneg 2 w ltac:(lia) ltac:(lia)).
  destruct (_ <? _).
  - now rewrite Z.mod_mod by lia.
  - replace (z mod 2 ^ w - 2 ^ w) with (z mod 2 ^ w + (-1) * 2 ^ w) by lia.
    now rewrite Z.mod_add, Z.mod_mod by lia.
Qed.

#[export] Hint Resolve wrap_range swrap_range wrap_small swrap_small : recovery.

(** ** Bytes and byte buffers *)

Definition is_byte (z : Z) : Prop := 0 <= z < 256.

#[export] Instance is_byte_dec z : Decision (is_byte z).
Proof. unfold is_byte. apply _. Defined.

Definition bytes (l : list Z) : Prop := Forall is_byte l.

#[export] Instance bytes_dec l : Decision (bytes l).
Proof. unfold bytes. apply _. Defined.

(** [None] is an access outside the object: undefined behaviour in C. *)
Definition buf_get (b : list Z) (i : Z) : option Z :=
  if 0 <=? i then b !! Z.to_nat i else None.

Definition buf_set (b : list Z) (i v : Z) : option (list Z) :=
  if (0 <=? i) && (i <? Z.of_nat (length b)) then Some (<[Z.to_nat i := v]> b) else None.

Definition buf_slice (b : list Z) (off len : Z) : option (list Z) :=
  if (0 <=? off) && (0 <=? len) && (off + len <=? Z.of_nat (length b))
  then Some (take (Z.to_nat len) (drop (Z.to_nat off) b)) else None.

(** [memcpy(b + off, src, |src|)]. *)
Definition buf_blit (b : list Z) (off : Z) (src : list Z) : option (list Z) :=
  if (0 <=? off) && (off + Z.of_nat (length src) <=? Z.of_nat (length b))
  then Some (take (Z.to_nat off) b ++ src ++ drop (Z.to_nat off + length src) b) else None.

Notation "'zlen' l" := (Z.of_nat (length l)) (at level 10, l at level 9, only parsing).

Lemma buf_get_some b i : 0 <= i < zlen b -> exists v, buf_get b i = Some v.
Proof.
  intros H. unfold buf_get. rewrite (proj2 (Z.leb_le 0 i)) by lia.
  apply lookup_lt_is_Some_2. lia.
Qed.

Lemma buf_get_inv b i v : buf_get b i = Some v -> 0 <= i < zlen b /\ b !! Z.to_nat i = Some v.
Proof.
  unfold buf_get. destruct (Z.leb_spec 0 i); [|discriminate]. intros Hl. split; [|done].
  apply lookup_lt_Some in Hl. lia.
Qed.

Lemma buf_get_drop (l : list Z) i k : 0 <= i -> 0 <= k -> buf_get l (i + k) = drop (Z.to_nat i) l !! Z.to_nat k.
Proof.
  intros Hi Hk. unfold buf_get. rewrite (proj2 (Z.leb_le 0 (i + k))), lookup_drop by lia. f_equal. lia.
Qed.

Lemma buf_set_some b i v : 0 <= i < zlen b -> buf_set b i v = Some (<[Z.to_nat i := v]> b).
Proof.
  intros H. unfold buf_set. now rewrite (proj2 (Z.leb_le 0 i)), (proj2 (Z.ltb_lt i _)) by lia.
Qed.

Lemma buf_slice_some b off len :
  0 <= off -> 0 <= len -> off + len <= zlen b ->
  buf_slice b off len = Some (take (Z.to_nat len) (drop (Z.to_nat off) b)).
Proof. intros. unfold buf_slice. now rewrite !(proj2 (Z.leb_le _ _)) by lia. Qed.

Lemma buf_slice_inv b off len s :
  buf_slice b off len = Some s -> 0 <= off /\ 0 <= len /\ off + len <= zlen b /\ zlen s = len.
Proof.
  unfold buf_slice. destruct (_ && _) eqn:E; [|discriminate]. intros [= <-].
  rewrite !andb_true_iff, !Z.leb_le in E. rewrite length_take, length_drop. lia.
Qed.

Lemma buf_blit_length b off src b' : buf_blit b off src = Some b' -> length b' = length b.
Proof.
  unfold buf_blit. destruct (_ && _) eqn:E; [|discriminate]. intros [= <-].
  rewrite andb_true_iff, !Z.leb_le in E.
  rewrite !length_app, length_take, length_drop. lia.
Qed.

Lemma buf_blit_some b off src :
  0 <= off -> off + zlen src <= zlen b ->
  buf_blit b off src = Some (take (Z.to_nat off) b ++ src ++ drop (Z.to_nat off + length src) b).
Proof. intros. unfold buf_blit. now rewrite !(proj2 (Z.leb_le _ _)) by lia. Qed.

Lemma buf_slice_mid (a b c : list Z) off n :
  off = zlen a -> n = zlen b -> buf_slice (a ++ b ++ c) off n = Some b.
Proof.
  intros -> ->. rewrite buf_slice_some by (rewrite ?length_app; lia).
  rewrite !Nat2Z.id, drop_app_length, take_app_length. done.
Qed.

Lemma bytes_app l k : bytes (l ++ k) <-> bytes l /\ bytes k.
Proof. apply Forall_app. Qed.

Lemma bytes_take n l : bytes l -> bytes (take n l).
Proof. apply Forall_take. Qed.

Lemma bytes_drop n l : bytes l -> bytes (drop n l).
Proof. apply Forall_drop. Qed.

#[export] Hint Resolve bytes_take bytes_drop : recovery.

(** The bytes in front of the first that fails the test, and the rest: how the
    sources' pointers move over a string. *)
Fixpoint skip_while (f : Z -> bool) (s : list Z) : list Z * list Z :=
  match s with
  | [] => ([], [])
  | c :: s' => if f c then let '(a, b) := skip_while f s' in (c :: a, b) else ([], s)
  end.

Lemma skip_while_spec f s a b :
  skip_while f s = (a, b) -> s = a ++ b /\ Forall (fun c => f c = true) a /\ (forall x, head b = Some x -> f x = false).
Proof.
  revert a b. induction s as [|c s IH]; intros a b H; cbn in H; [injection H as <- <-; by split_and!|].
  destruct (f c) eqn:E.
  - destruct (skip_while f s) as [a' b'] eqn:Es. injection H as <- <-.
    destruct (IH a' b' eq_refl) as (-> & HF & Hh). split_and!; [done|by constructor|done].
  - injection H as <- <-. split_and!; [done|constructor|]. by intros x [= <-].
Qed.

(** Elements of a list are told apart by keys that do not repeat. *)
Lemma NoDup_fmap_unique {A B} (f : A -> B) l x y :
  NoDup (f <$> l) -> x ∈ l -> y ∈ l -> f x = f y -> x = y.
Proof.
  induction l as [|a l IH]; csimpl; intros Hnd Hx Hy E; [by apply not_elem_of_nil in Hx|].
  apply NoDup_cons in Hnd as [Hni Hnd].
  apply elem_of_cons in Hx as [->|Hx]; apply elem_of_cons in Hy as [->|Hy]; auto;
    exfalso; apply Hni, list_elem_of_fmap; eauto.
Qed.

(** ** Little-endian encodings *)

Fixpoint le_decode (l : list Z) : Z :=
  match l with [] => 0 | b :: l' => b + 256 * le_decode l' end.

Fixpoint le_encode (n : nat) (z : Z) : list Z :=
  match n with O => [] | S n' => z mod 256 :: le_encode n' (z / 256) end.

Lemma le_encode_length n z : length (le_encode n z) = n.
Proof. revert z; induction n; intros; simpl; auto. Qed.

Lemma le_encode_bytes n z : bytes (le_encode n z).
Proof.
  revert z; induction n as [|n IH]; intros z; simpl; constructor; [|apply IH].
  unfold is_byte. apply Z.mod_pos_bound; lia.
Qed.

Lemma le_decode_range l : bytes l -> 0 <= le_decode l < 256 ^ zlen l.
Proof.
  induction 1 as [|b l Hb Hl IH]; simpl; [lia|].
  rewrite Nat2Z.inj_succ, Z.pow_succ_r by lia. unfold is_byte in Hb. nia.
Qed.

Lemma le_decode_encode n z : le_decode (le_encode n z) = z mod 256 ^ Z.of_nat n.
Proof.
  revert z; induction n as [|n IH]; intros z.
  - simpl. now rewrite Z.mod_1_r.
  - cbn [le_encode le_decode]. rewrite IH, Nat2Z.inj_succ, Z.pow_succ_r by lia.
    rewrite Z.rem_mul_r; [reflexivity | lia |]. apply Z.pow_pos_nonneg; lia.
Qed.

Lemma le_encode_decode l : bytes l -> le_encode (length l) (le_decode l) = l.
Proof.
  induction 1 as [|b l Hb Hl IH]; cbn [length le_encode le_decode]; [done|].
  unfold is_byte in Hb. rewrite (Z.mul_comm 256), Z_mod_plus_full, Z.mod_small by lia.
  rewrite Z.div_add, Z.div_small, Z.add_0_l by lia. now rewrite IH.
Qed.

#[export] Hint Resolve le_encode_bytes : recovery.

(** [a | (b << n)] is an addition when [a] fits below bit [n]. *)
Lemma lor_shiftl_add a b n : 0 <= n -> 0 <= a < 2 ^ n -> a .| (b <<< n) = a + b * 2 ^ n.
Proof.
  intros Hn Ha. rewrite <- (Z.shiftl_mul_pow2 b n Hn).
  assert (a .& (b <<< n) = 0) as Hz.
  { apply Z.bits_inj'; intros k Hk. rewrite Z.land_spec, Z.bits_0, Z.shiftl_spec by lia.
    destruct (Z_lt_ge_dec k n) as [Hlt | Hge].
    - rewrite (Z.testbit_neg_r b (k - n)) by lia. apply andb_false_r.
    - rewrite <- (Z.mod_small a (2 ^ n)) by lia.
      now rewrite Z.mod_pow2_bits_high by lia. }
  now rewrite <- Z.lxor_lor, Z.add_nocarry_lxor by assumption.
Qed.

Lemma land_ff z : z .& 255 = z mod 256.
Proof. change 255 with (Z.ones 8). now rewrite Z.land_ones by lia. Qed.

(** Return values of zlib. *)
Definition Z_OK : Z := 0.
Definition Z_STREAM_END : Z := 1.

(** ** Outcomes of C code *)

(** What running a C function can do: return a value, return an error code,
    reach undefined behaviour (an access outside an object), or still be
    running when the fuel of the model is used up. *)
Inductive outcome (A : Type) : Type :=
  | Done (a : A)
  | Fail (code : Z)
  | Undef
  | Diverge.
Arguments Done {A} a.
Arguments Fail {A} code.
Arguments Undef {A}.
Arguments Diverge {A}.

#[export] Instance outcome_ret : MRet outcome := @Done.
#[export] Instance outcome_bind : MBind outcome := fun A B f m =>
  match m with Done a => f a | Fail c => Fail c | Undef => Undef | Diverge => Diverge end.

(** A memory access inside an outcome computation. *)
Definition access {A} (o : option A) : outcome A :=
  match o with Some a => Done a | None => Undef end.

Lemma access_done {A} (o : option A) a : access o = Done a -> o = Some a.
Proof. destruct o; simpl; congruence. Qed.

Lemma outcome_bind_done {A B} (m : outcome A) (f : A -> outcome B) b :
  (m ≫= f) = Done b -> exists a, m = Done a /\ f a = Done b.
Proof. destruct m; try discriminate. eauto. Qed.

(** ** Tactics *)

(** Proves a decidable closed goal by evaluation. *)
Ltac by_decide := apply (bool_decide_unpack _); vm_compute; exact I.

(** Case analysis on the boolean tests of the model. *)
Ltac case_bools :=
  repeat match goal with
    | |- context [if ?b then _ else _] => destruct b eqn:?
    end.

Ltac bool_to_prop :=
  repeat match goal with
    | H : (_ && _) = true |- _ => apply andb_true_iff in H as [? ?]
    | H : (_ || _) = false |- _ => apply orb_false_iff in H as [? ?]
    | H : (_ && _) = false |- _ => apply andb_false_iff in H
    | H : (_ || _) = true |- _ => apply orb_true_iff in H
    | H : negb _ = true |- _ => apply negb_true_iff in H
    | H : negb _ = false |- _ => apply negb_false_iff in H
    | H : (_ <=? _) = true |- _ => apply Z.leb_le in H
    | H : (_ <=? _) = false |- _ => apply Z.leb_gt in H
    | H : (_ <? _) = true |- _ => apply Z.ltb_lt in H
    | H : (_ <? _) = false |- _ => apply Z.ltb_ge in H
    | H : (_ =? _) = true |- _ => apply Z.eqb_eq in H
    | H : (_ =? _) = false |- _ => apply Z.eqb_neq in H
    end.
