(* ===== verification/Utils.v ===== *)
(** * Fixed-width integers in patch files

    The little-endian readers and writers of [applypatch/utils.c] and the
    sign-magnitude integers of the BSDIFF40 format ([offtout] of
    [applypatch/bsdiff.c], [offtin] of [applypatch/bspatch.c]).  A [FILE*]
    being written is the list of bytes written so far; a buffer read through a
    pointer is a list of bytes and an offset into it, and a read outside it is
    [None]. *)
From S2P Require Import Prelude.

(** ** [applypatch/utils.c] *)

Definition Write4 (value : Z) (f : list Z) : list Z :=
  f ++ [value .& 255; (value >>> 8) .& 255; (value >>> 16) .& 255; (value >>> 24) .& 255].

Definition Write8 (value : Z) (f : list Z) : list Z :=
  f ++ [value .& 255; (value >>> 8) .& 255; (value >>> 16) .& 255; (value >>> 24) .& 255;
        (value >>> 32) .& 255; (value >>> 40) .& 255; (value >>> 48) .& 255;
        (value >>> 56) .& 255].

Definition Read2 (pv : list Z) (off : Z) : option Z :=
  p1 ← buf_get pv (off + 1); p0 ← buf_get pv off;
  Some (swrap 32 ((p1 <<< 8) .| p0)).

Definition Read4 (pv : list Z) (off : Z) : option Z :=
  p3 ← buf_get pv (off + 3); p2 ← buf_get pv (off + 2);
  p1 ← buf_get pv (off + 1); p0 ← buf_get pv off;
  Some (swrap 32 ((p3 <<< 24) .| (p2 <<< 16) .| (p1 <<< 8) .| p0)).

Definition Read8 (pv : list Z) (off : Z) : option Z :=
  p7 ← buf_get pv (off + 7); p6 ← buf_get pv (off + 6);
  p5 ← buf_get pv (off + 5); p4 ← buf_get pv (off + 4);
  p3 ← buf_get pv (off + 3); p2 ← buf_get pv (off + 2);
  p1 ← buf_get pv (off + 1); p0 ← buf_get pv off;
  Some (swrap 64 ((p7 <<< 56) .| (p6 <<< 48) .| (p5 <<< 40) .| (p4 <<< 32) .|
                  (p3 <<< 24) .| (p2 <<< 16) .| (p1 <<< 8) .| p0)).

(** ** The integers of the BSDIFF40 format *)

(** [offtout(x, buf)]: the magnitude in little-endian order, the sign in the
    top bit of the last byte. *)
Definition offtout (x : Z) : list Z :=
  let y := if x <? 0 then - x else x in
  let b0 := Z.rem y 256 in let y := Z.quot (y - b0) 256 in
  let b1 := Z.rem y 256 in let y := Z.quot (y - b1) 256 in
  let b2 := Z.rem y 256 in let y := Z.quot (y - b2) 256 in
  let b3 := Z.rem y 256 in let y := Z.quot (y - b3) 256 in
  let b4 := Z.rem y 256 in let y := Z.quot (y - b4) 256 in
  let b5 := Z.rem y 256 in let y := Z.quot (y - b5) 256 in
  let b6 := Z.rem y 256 in let y := Z.quot (y - b6) 256 in
  let b7 := Z.rem y 256 in
  [b0; b1; b2; b3; b4; b5; b6; if x <? 0 then b7 .| 128 else b7].

(** One [y=y*256; y+=buf[k];] of [offtin], in an [off_t] of [w] bits. *)
Definition offtin_step (w y b : Z) : Z := swrap w (swrap w (y * 256) + b).

(** [offtin(buf + off)] where [off_t] has [w] bits (32 on the device, 64 on
    the host that builds patches). *)
Definition offtin (w : Z) (buf : list Z) (off : Z) : option Z :=
  b7 ← buf_get buf (off + 7); b6 ← buf_get buf (off + 6);
  b5 ← buf_get buf (off + 5); b4 ← buf_get buf (off + 4);
  b3 ← buf_get buf (off + 3); b2 ← buf_get buf (off + 2);
  b1 ← buf_get buf (off + 1); b0 ← buf_get buf off;
  let y := b7 .& 127 in
  let y := offtin_step w y b6 in
  let y := offtin_step w y b5 in
  let y := offtin_step w y b4 in
  let y := offtin_step w y b3 in
  let y := offtin_step w y b2 in
  let y := offtin_step w y b1 in
  let y := offtin_step w y b0 in
  Some (if b7 .& 128 =? 0 then y else swrap w (- y)).

(** ** Reading at an offset inside a concatenation *)

Lemma buf_get_app_r (f k : list Z) i : 0 <= i -> buf_get (f ++ k) (zlen f + i) = buf_get k i.
Proof.
  intros Hi. unfold buf_get. rewrite !(proj2 (Z.leb_le 0 _)) by lia.
  rewrite lookup_app_r by lia. f_equal. lia.
Qed.

Lemma buf_get_app_l (f k : list Z) i : i < zlen f -> buf_get (f ++ k) i = buf_get f i.
Proof.
  intros Hi. unfold buf_get. destruct (Z.leb_spec 0 i); [|done].
  rewrite lookup_app_l by lia. done.
Qed.

Lemma buf_get_app_here (f k : list Z) : buf_get (f ++ k) (zlen f) = buf_get k 0.
Proof. rewrite <- (buf_get_app_r f k 0) by lia. f_equal; lia. Qed.

(** Turns the big-endian-looking [or] chains into sums. *)
Lemma or_bytes hi lo n : 0 <= n -> 0 <= lo < 2 ^ n -> (hi <<< n) .| lo = hi * 2 ^ n + lo.
Proof. intros. rewrite Z.lor_comm, lor_shiftl_add by lia. lia. Qed.

Lemma Write4_le v f : Write4 v f = f ++ le_encode 4 v.
Proof.
  unfold Write4. cbn [le_encode]. rewrite !land_ff, !Z.shiftr_div_pow2 by lia.
  now rewrite !Z.div_div by lia.
Qed.

Lemma Write8_le v f : Write8 v f = f ++ le_encode 8 v.
Proof.
  unfold Write8. cbn [le_encode]. rewrite !land_ff, !Z.shiftr_div_pow2 by lia.
  now rewrite !Z.div_div by lia.
Qed.

Lemma or4_sum a b c d : is_byte a -> is_byte b -> is_byte c -> is_byte d ->
  (d <<< 24) .| (c <<< 16) .| (b <<< 8) .| a = le_decode [a; b; c; d].
Proof.
  unfold is_byte; intros. cbn [le_decode].
  rewrite <- !Z.lor_assoc. rewrite (or_bytes b a 8) by lia.
  rewrite (or_bytes c) by lia. rewrite (or_bytes d) by lia. lia.
Qed.

Lemma or8_sum a b c d e f g h :
  is_byte a -> is_byte b -> is_byte c -> is_byte d ->
  is_byte e -> is_byte f -> is_byte g -> is_byte h ->
  (h <<< 56) .| (g <<< 48) .| (f <<< 40) .| (e <<< 32) .|
  (d <<< 24) .| (c <<< 16) .| (b <<< 8) .| a
  = le_decode [a; b; c; d; e; f; g; h].
Proof.
  unfold is_byte; intros. cbn [le_decode].
  rewrite <- !Z.lor_assoc. rewrite (or_bytes b a 8) by lia.
  rewrite (or_bytes c) by lia. rewrite (or_bytes d) by lia. rewrite (or_bytes e) by lia.
  rewrite (or_bytes f) by lia. rewrite (or_bytes g) by lia. rewrite (or_bytes h) by lia. lia.
Qed.

Ltac read_at_end :=
  repeat first [ rewrite buf_get_app_r by lia | rewrite buf_get_app_here ];
  cbn [mbind option_bind].

Lemma mod256_byte z : is_byte (z mod 256).
Proof. apply Z.mod_pos_bound; lia. Qed.
#[export] Hint Resolve mod256_byte : recovery.

(** Reading back the four bytes that [le_encode] puts at some offset. *)
Lemma Read4_le (f k : list Z) z :
  Read4 (f ++ le_encode 4 z ++ k) (zlen f) = Some (swrap 32 z).
Proof.
  unfold Read4. cbn [le_encode app]. read_at_end. unfold buf_get; simpl.
  rewrite or4_sum by auto with recovery.
  change (Some (swrap 32 (le_decode (le_encode 4 z))) = Some (swrap 32 z)).
  rewrite le_decode_encode. unfold swrap, wrap. do 2 f_equal.
  change (256 ^ Z.of_nat 4) with (2 ^ 32). now rewrite Z.mod_mod by lia.
Qed.

Lemma Read8_le (f k : list Z) z :
  Read8 (f ++ le_encode 8 z ++ k) (zlen f) = Some (swrap 64 z).
Proof.
  unfold Read8. cbn [le_encode app]. read_at_end. unfold buf_get; simpl.
  rewrite or8_sum by auto with recovery.
  change (Some (swrap 64 (le_decode (le_encode 8 z))) = Some (swrap 64 z)).
  rewrite le_decode_encode. unfold swrap, wrap. do 2 f_equal.
  change (256 ^ Z.of_nat 8) with (2 ^ 64). now rewrite Z.mod_mod by lia.
Qed.

(** ** [offtin] against [offtout] *)

Lemma offtin_step_exact w y b :
  0 < w -> 0 <= y -> 0 <= b -> y * 256 + b < 2 ^ (w - 1) -> offtin_step w y b = y * 256 + b.
Proof.
  intros Hw Hy Hb Hlt. unfold offtin_step.
  rewrite (swrap_small w (y * 256)) by (unfold in_s; lia).
  apply swrap_small; unfold in_s; lia.
Qed.

Lemma rem_quot_step y : 0 <= y -> Z.rem y 256 = y mod 256 /\ Z.quot (y - y mod 256) 256 = y / 256.
Proof.
  intros Hy. rewrite Z.rem_mod_nonneg by lia. split; [done|].
  pose proof (Z.mod_pos_bound y 256 ltac:(lia)). pose proof (Z.div_mod y 256 ltac:(lia)).
  rewrite Z.quot_div_nonneg by lia.
  symmetry. apply Z.div_unique with 0; lia.
Qed.

(** The bytes of [offtout]: the little-endian magnitude with the sign bit set
    on top. *)
Lemma offtout_shape x :
  Z.abs x < 2 ^ 63 ->
  exists b0 b1 b2 b3 b4 b5 b6 b7,
    le_encode 8 (Z.abs x) = [b0; b1; b2; b3; b4; b5; b6; b7] /\ 0 <= b7 < 128 /\
    offtout x = [b0; b1; b2; b3; b4; b5; b6; if x <? 0 then b7 .| 128 else b7].
Proof.
  intros Hx. cbn [le_encode]. repeat eexists;
    [ apply Z.mod_pos_bound; lia
    | rewrite !Z.div_div, Z.mod_small by (lia || (split; [apply Z.div_pos | apply Z.div_lt_upper_bound]; lia));
      apply Z.div_lt_upper_bound; lia
    | ].
  unfold offtout.
  replace (if x <? 0 then - x else x) with (Z.abs x) by (destruct (Z.ltb_spec x 0); lia).
  cbv zeta.
  repeat match goal with
    | |- context [Z.rem ?y 256] =>
        lazymatch y with
        | context [Z.rem _ _] => fail
        | _ => let H1 := fresh in let H2 := fresh in
            destruct (rem_quot_step y) as [H1 H2];
              [repeat apply Z.div_pos; lia | rewrite ?H1, ?H2; clear H1 H2]
        end
    end.
  reflexivity.
Qed.

Lemma land_127_or b : 0 <= b < 128 -> (b .| 128) .& 127 = b /\ (b .| 128) .& 128 = 128 /\
  b .& 127 = b /\ b .& 128 = 0.
Proof.
  intros Hb.
  assert (Forall (fun b => (b .| 128) .& 127 = b /\ (b .| 128) .& 128 = 128 /\
    b .& 127 = b /\ b .& 128 = 0) (seqZ 0 128)) as Hall by (vm_compute; repeat constructor).
  rewrite Forall_forall in Hall. apply Hall, elem_of_seqZ. lia.
Qed.

Lemma offtout_length x : Z.abs x < 2 ^ 63 -> length (offtout x) = 8%nat.
Proof. reflexivity. Qed.

(** Every partial sum of [offtin] is below the final magnitude, so nothing
    wraps as long as the magnitude fits the type. *)
Lemma offtin_magnitude w b0 b1 b2 b3 b4 b5 b6 b7 :
  8 <= w -> bytes [b0; b1; b2; b3; b4; b5; b6] -> 0 <= b7 < 128 ->
  le_decode [b0; b1; b2; b3; b4; b5; b6; b7] < 2 ^ (w - 1) ->
  offtin_step w (offtin_step w (offtin_step w (offtin_step w (offtin_step w (offtin_step w
    (offtin_step w b7 b6) b5) b4) b3) b2) b1) b0 = le_decode [b0; b1; b2; b3; b4; b5; b6; b7].
Proof.
  intros Hw Hb H7 Hlt. unfold bytes in Hb. rewrite !Forall_cons_iff in Hb. unfold is_byte in Hb.
  cbn [le_decode] in *.
  rewrite (offtin_step_exact w b7 b6) by lia.
  do 6 (rewrite (offtin_step_exact w (_ * 256 + _)) by lia). lia.
Qed.

Lemma offtin_offtout_at w x f k :
  8 <= w <= 64 -> Z.abs x < 2 ^ (w - 1) ->
  offtin w (f ++ offtout x ++ k) (zlen f) = Some x.
Proof.
  intros Hw Hx.
  assert (2 ^ (w - 1) <= 2 ^ 63) by (apply Z.pow_le_mono_r; lia).
  destruct (offtout_shape x ltac:(lia)) as (b0&b1&b2&b3&b4&b5&b6&b7&Henc&H7&->).
  pose proof (le_encode_bytes 8 (Z.abs x)) as Hbs. rewrite Henc in Hbs.
  pose proof (le_decode_encode 8 (Z.abs x)) as Hdec. rewrite Henc in Hdec.
  change (256 ^ Z.of_nat 8) with (2 ^ 64) in Hdec. rewrite Z.mod_small in Hdec by lia.
  unfold offtin. read_at_end. cbn [app].
  destruct (land_127_or b7 H7) as (E1 & E2 & E3 & E4).
  unfold buf_get; simpl.
  destruct (Z.ltb_spec x 0); rewrite ?E1, ?E2, ?E3, ?E4; simpl;
    (rewrite offtin_magnitude; [|lia|exact (bytes_take 7 _ Hbs)|lia|lia]);
    rewrite Hdec; f_equal; [|lia].
  rewrite swrap_small; unfold in_s; lia.
Qed.

(** [Write4]/[Write8] of [applypatch/utils.c] put an [int] or a
    [long long] into a patch file so that [Read4]/[Read8] at that offset give
    the value back, whatever surrounds it. *)
Theorem Read_Write_roundtrip (v4 v8 : Z) (f k : list Z) :
  in_s 32 v4 -> in_s 64 v8 ->
  Read4 (Write4 v4 f ++ k) (zlen f) = Some v4 /\ Read8 (Write8 v8 f ++ k) (zlen f) = Some v8.
Proof.
  intros H4 H8. rewrite Write4_le, Write8_le, <- !app_assoc, Read4_le, Read8_le.
  now rewrite !swrap_small by (lia || assumption).
Qed.

Lemma Read_Write_roundtrip_witness :
  Read4 (Write4 (-2) [7] ++ [9]) 1 = Some (-2) /\
  Read8 (Write8 (2 ^ 40) [7] ++ [9]) 1 = Some (2 ^ 40).
Proof. apply (Read_Write_roundtrip (-2) (2 ^ 40) [7] [9]); unfold in_s; lia. Defined.

(** The sign-magnitude integers of a BSDIFF40 patch: [offtin] reads back
    what [offtout] wrote, in an [off_t] of any width from 8 to 64 bits in
    which the magnitude fits, at any offset of the patch. *)
Theorem offtin_offtout_roundtrip (w x : Z) (f k : list Z) :
  8 <= w <= 64 -> Z.abs x < 2 ^ (w - 1) ->
  offtin w (f ++ offtout x ++ k) (zlen f) = Some x.
Proof. apply offtin_offtout_at. Qed.

Lemma offtin_offtout_roundtrip_witness :
  offtin 32 ([66; 83] ++ offtout (-70000) ++ [1]) 2 = Some (-70000).
Proof. apply (offtin_offtout_roundtrip 32 (-70000) [66; 83] [1]); lia. Defined.
