(* ===== verification/Cstring.v ===== *)
(** * C strings: the library functions the sources use

    Strings are Rocq strings (a C string ends where the Rocq string ends).
    Decimal conversion as [strtol] does it, substring search, prefix tests and
    [strtok] on one delimiter. *)
From S2P Require Import Prelude.
From Stdlib Require Import Ascii.
Open Scope string_scope.
Open Scope Z_scope.

(** [strstr(haystack, needle) != NULL]. *)
Definition strstr (haystack needle : string) : bool :=
  match String.index 0 needle haystack with Some _ => true | None => false end.

(** [strncmp(s, prefix, strlen(prefix)) == 0]. *)
Fixpoint has_prefix (prefix s : string) : bool :=
  match prefix, s with
  | EmptyString, _ => true
  | String a prefix, String b s => Ascii.eqb a b && has_prefix prefix s
  | String _ _, EmptyString => false
  end.

Lemma append_assoc (s t u : string) : ((s ++ t) ++ u = s ++ (t ++ u))%string.
Proof. induction s as [|c s IH]; [done|]. change (String c ((s ++ t) ++ u) = String c (s ++ (t ++ u)))%string. by rewrite IH. Qed.

Lemma append_cons (c : ascii) (s t : string) : (String c s ++ t = String c (s ++ t))%string.
Proof. done. Qed.

Lemma append_nil (t : string) : ("" ++ t = t)%string.
Proof. done. Qed.

Lemma append_length (s t : string) : String.length (s ++ t) = (String.length s + String.length t)%nat.
Proof. induction s as [|c s IH]; [done|]. rewrite append_cons. cbn [String.length]. by rewrite IH. Qed.

(** Right-nested concatenations with their known characters in front. *)
Ltac str_norm := rewrite ?append_assoc, ?append_cons, ?append_nil.

(** ** [strtok(s, d)] for a single delimiter *)

(** Skips the delimiters at the front. *)
Fixpoint skip_delims (d : ascii) (s : string) : string :=
  match s with
  | String c s' => if Ascii.eqb c d then skip_delims d s' else s
  | EmptyString => s
  end.

(** Splits at the first delimiter, which is dropped. *)
Fixpoint split_at_delim (d : ascii) (s : string) : string * string :=
  match s with
  | String c s' =>
      if Ascii.eqb c d then (EmptyString, s')
      else let '(t, rest) := split_at_delim d s' in (String c t, rest)
  | EmptyString => (EmptyString, EmptyString)
  end.

(** The next token, [None] for NULL, and what later calls continue with. *)
Definition strtok (d : ascii) (s : string) : option string * string :=
  match skip_delims d s with
  | EmptyString => (None, EmptyString)
  | s => let '(t, rest) := split_at_delim d s in (Some t, rest)
  end.

(** How often a character occurs. *)
Fixpoint count_char (d : ascii) (s : string) : Z :=
  match s with
  | String c s' => (if Ascii.eqb c d then 1 else 0) + count_char d s'
  | EmptyString => 0
  end.

(** [strchr(s, d)] as an index. *)
Fixpoint strchr (d : ascii) (s : string) : option nat :=
  match s with
  | String c s' => if Ascii.eqb c d then Some O else S <$> strchr d s'
  | EmptyString => None
  end.

(** ** [strtol(s, &end, 10)] with a 32-bit [long] *)

Definition isspace (c : ascii) : bool :=
  let n := Z.of_N (N_of_ascii c) in (n =? 32) || ((9 <=? n) && (n <=? 13)).

Definition digit_value (c : ascii) : option Z :=
  let n := Z.of_N (N_of_ascii c) in if (48 <=? n) && (n <=? 57) then Some (n - 48) else None.

Fixpoint skip_spaces (s : string) : string :=
  match s with
  | String c s' => if isspace c then skip_spaces s' else s
  | EmptyString => s
  end.

(** The digits: (value, whether there was one, the rest). *)
Fixpoint read_digits (s : string) (acc : Z) (any : bool) : Z * bool * string :=
  match s with
  | String c s' =>
      match digit_value c with
      | Some d => read_digits s' (acc * 10 + d) true
      | None => (acc, any, s)
      end
  | EmptyString => (acc, any, s)
  end.

Definition clamp_long (z : Z) : Z := Z.max (- 2 ^ 31) (Z.min z (2 ^ 31 - 1)).

(** (value, [*end]); without digits nothing is consumed and the value is 0. *)
Definition strtol (s : string) : Z * string :=
  let t := skip_spaces s in
  let '(neg, t) := match t with
    | String "-" t' => (true, t') | String "+" t' => (false, t') | _ => (false, t) end in
  let '(v, any, rest) := read_digits t 0 false in
  if any then (clamp_long (if neg then - v else v), rest) else (0, s).

(** ** Decimal numerals *)

(** The characters '0' to '9'. *)
Definition digit_char (d : Z) : ascii := ascii_of_N (Z.to_N (48 + d)).

Fixpoint digits_string (ds : list Z) : string :=
  match ds with [] => "" | d :: ds => String (digit_char d) (digits_string ds) end.

Definition numeral (neg : bool) (ds : list Z) : string :=
  if neg then String "-" (digits_string ds) else digits_string ds.

Definition digits_value (acc : Z) (ds : list Z) : Z := fold_left (fun v d => v * 10 + d) ds acc.

Definition numeral_value (neg : bool) (ds : list Z) : Z :=
  clamp_long (if neg then - digits_value 0 ds else digits_value 0 ds).

Lemma digit_char_facts d :
  0 <= d < 10 -> digit_value (digit_char d) = Some d /\ isspace (digit_char d) = false /\
    digit_char d ≠ "-"%char /\ digit_char d ≠ "+"%char.
Proof.
  intros Hd.
  assert (Forall (fun d => digit_value (digit_char d) = Some d /\ isspace (digit_char d) = false /\
    digit_char d ≠ "-"%char /\ digit_char d ≠ "+"%char) (seqZ 0 10)) as Hall.
  { apply (bool_decide_unpack _). vm_compute. exact I. }
  rewrite Forall_forall in Hall. apply Hall, elem_of_seqZ. lia.
Qed.

Lemma read_digits_string ds acc any :
  Forall (fun d => 0 <= d < 10) ds ->
  read_digits (digits_string ds) acc any = (digits_value acc ds, any || negb (bool_decide (ds = [])), "").
Proof.
  intros H. revert acc any. induction H as [|d ds Hd Hds IH]; intros acc any; cbn.
  - by rewrite orb_false_r.
  - destruct (digit_char_facts d Hd) as [-> _]. rewrite IH. by destruct any.
Qed.

Lemma strtol_numeral neg ds :
  ds ≠ [] -> Forall (fun d => 0 <= d < 10) ds ->
  strtol (numeral neg ds) = (numeral_value neg ds, "").
Proof.
  intros Hne Hds. unfold strtol, numeral. destruct neg; cbn [skip_spaces].
  - change (isspace "-") with false. cbv beta iota. rewrite read_digits_string by done.
    by destruct ds.
  - pose proof (read_digits_string ds 0 false Hds) as Hr.
    destruct ds as [|d ds]; [done|]. apply Forall_cons in Hds as [Hd _].
    destruct (digit_char_facts d Hd) as (_ & Hsp & Hm & Hp). cbn [digits_string] in *.
    cbn [skip_spaces]. rewrite Hsp.
    assert (match digit_char d with "-"%char => (true, digits_string ds)
      | "+"%char => (false, digits_string ds) | _ => (false, String (digit_char d) (digits_string ds)) end
      = (false, String (digit_char d) (digits_string ds))) as ->.
    { destruct (digit_char d) as [[] [] [] [] [] [] [] []]; try done; by exfalso. }
    rewrite Hr. done.
Qed.
