(* ===== verification/Cbuf.v ===== *)
(** * Strings in buffers

    The C library's functions that change a string in place: a buffer is its
    bytes, the string in it ends at the first zero.  [None] is an access
    outside of the buffer. *)
From S2P Require Import Prelude.

(** The string a buffer holds. *)
Fixpoint cstr (b : list Z) : list Z :=
  match b with
  | [] => []
  | c :: b => if c =? 0 then [] else c :: cstr b
  end.

(** [strlcpy(dst, src, size)]; [src] is given without its terminator. *)
Definition strlcpy (dst src : list Z) (size : Z) : option (list Z) :=
  if size =? 0 then Some dst else buf_blit dst 0 (take (Z.to_nat (size - 1)) src ++ [0]).

(** [strlcat(dst, src, size)]. *)
Definition strlcat (dst src : list Z) (size : Z) : option (list Z) :=
  let dlen := zlen (cstr (take (Z.to_nat size) dst)) in
  if dlen =? size then Some dst
  else buf_blit dst dlen (take (Z.to_nat (size - dlen - 1)) src ++ [0]).

Definition is_one_of (d : list Z) (c : Z) : bool := existsb (Z.eqb c) d.

(** [strtok(s, d)] from where the last call stopped: the token or [None] for
    NULL, the bytes it moves over as it leaves them, and where the next call
    starts. *)
Definition strtok_r (d s : list Z) : option (option (list Z) * list Z * list Z) :=
  let '(skipped, s) := skip_while (is_one_of d) s in
  match s with
  | [] => None
  | c :: _ =>
      if c =? 0 then Some (None, skipped, s)
      else
        let '(token, s) := skip_while (fun c => negb (is_one_of d c) && negb (c =? 0)) s in
        match s with
        | [] => None
        | c :: s' =>
            if c =? 0 then Some (Some token, skipped ++ token, s)
            else Some (Some token, skipped ++ token ++ [0], s')
        end
  end.

(** ** The tokens of a string *)

(** The pieces between delimiters, and those that are not empty. *)
Fixpoint fields (d s : list Z) : list (list Z) :=
  match s with
  | [] => [[]]
  | c :: s =>
      if is_one_of d c then [] :: fields d s
      else match fields d s with
        | [] => [[c]]
        | p :: ps => (c :: p) :: ps
        end
  end.

Definition tokens (d s : list Z) : list (list Z) := filter (fun p => p <> []) (fields d s).

Lemma fields_ne d s : exists p ps, fields d s = p :: ps.
Proof.
  induction s as [|c s (p & ps & E)]; [by exists [], []|]. cbn. rewrite E. destruct (is_one_of d c); eauto.
Qed.

Lemma fields_delim d s c t :
  is_one_of d c = true -> Forall (fun x => is_one_of d x = false) s -> fields d (s ++ c :: t) = s :: fields d t.
Proof.
  intros Hc Hs. induction Hs as [|x s Hx Hs IH]; cbn; [by rewrite Hc|]. by rewrite Hx, IH.
Qed.

Lemma fields_last d s : Forall (fun x => is_one_of d x = false) s -> fields d s = [s].
Proof. induction 1 as [|x s Hx Hs IH]; cbn; [done|]. by rewrite Hx, IH. Qed.

Lemma tokens_skip d s t : Forall (fun x => is_one_of d x = true) s -> tokens d (s ++ t) = tokens d t.
Proof.
  induction 1 as [|x s Hx Hs IH]; [done|]. unfold tokens in *. cbn. rewrite Hx. rewrite filter_cons_False by auto. apply IH.
Qed.

Lemma tokens_delim d s c t :
  is_one_of d c = true -> Forall (fun x => is_one_of d x = false) s -> s <> [] ->
  tokens d (s ++ c :: t) = s :: tokens d t.
Proof. intros Hc Hs Hn. unfold tokens. rewrite fields_delim by done. by rewrite filter_cons_True. Qed.

Lemma tokens_last d s : Forall (fun x => is_one_of d x = false) s -> s <> [] -> tokens d s = [s].
Proof. intros Hs Hn. unfold tokens. rewrite fields_last by done. by rewrite filter_cons_True. Qed.

(** ** [strtok] finds them *)

Lemma skip_while_app f s t :
  Forall (fun c => f c = true) s -> (forall c, head t = Some c -> f c = false) -> skip_while f (s ++ t) = (s, t).
Proof.
  intros Hs Ht. induction Hs as [|c s Hc Hs IH]; cbn.
  - destruct t as [|c u]; [done|]. cbn. by rewrite (Ht c).
  - by rewrite Hc, IH.
Qed.

Definition nul_free (s : list Z) : Prop := Forall (fun c => c <> 0) s.

Lemma nul_free_app s t : nul_free (s ++ t) <-> nul_free s /\ nul_free t.
Proof. apply Forall_app. Qed.

Section Strtok.
  Context (d : list Z) (Hd : is_one_of d 0 = false).

(** One call on a string [s] that ends inside its buffer: no token and the end
    of the string, or the first token and the rest with the others. *)
Lemma strtok_r_spec s g : nul_free s ->
  (exists passed, strtok_r d (s ++ 0 :: g) = Some (None, passed, 0 :: g) /\
     tokens d s = [] /\ length passed = length s) \/
  (exists tok passed rest, strtok_r d (s ++ 0 :: g) = Some (Some tok, passed, rest ++ 0 :: g) /\
     tokens d s = tok :: tokens d rest /\ length passed = (length s - length rest)%nat /\
     (length rest < length s)%nat /\ nul_free rest).
Proof using Hd.
  intros Hs. destruct (skip_while (is_one_of d) s) as [a b] eqn:Ea. apply skip_while_spec in Ea as (-> & Ha & Hb).
  apply nul_free_app in Hs as [_ Hnb]. unfold strtok_r.
  rewrite <- app_assoc, (skip_while_app _ a); [|done|].
  2: { destruct b as [|x b]; cbn; intros c [= <-]; [done|]. by apply Hb. }
  destruct b as [|x b].
  { left. exists a. cbn. rewrite app_nil_r. split_and!; [done| |done].
    rewrite <- (app_nil_r a). by rewrite tokens_skip. }
  right. pose proof (Hb _ eq_refl) as Hx. apply Forall_cons in Hnb as [Hx0 Hnb]. cbn [app].
  rewrite (proj2 (Z.eqb_neq x 0)) by done.
  destruct (skip_while (fun c => negb (is_one_of d c)) b) as [t r] eqn:Et. apply skip_while_spec in Et as (-> & Ht & Hr).
  apply nul_free_app in Hnb as [Hnt Hnr].
  assert (Forall (fun c => is_one_of d c = false) (x :: t)) as Htok.
  { constructor; [done|]. eapply Forall_impl; [exact Ht|]. intros c. apply negb_true_iff. }
  assert (skip_while (fun c => negb (is_one_of d c) && negb (c =? 0)) ((x :: t) ++ (r ++ 0 :: g)) = (x :: t, r ++ 0 :: g)) as E.
  { apply skip_while_app.
    - apply Forall_forall. intros c Hc. rewrite Forall_forall in Htok. rewrite (Htok c Hc). cbn.
      apply negb_true_iff, Z.eqb_neq. apply elem_of_cons in Hc as [->|Hc]; [done|].
      unfold nul_free in Hnt. rewrite Forall_forall in Hnt. by apply Hnt.
    - destruct r as [|c r]; cbn; intros c' [= <-]; [by rewrite andb_false_r|].
      by rewrite (Hr c). }
  replace (x :: (t ++ r) ++ 0 :: g) with ((x :: t) ++ (r ++ 0 :: g)) by (cbn; by rewrite <- app_assoc).
  rewrite E. destruct r as [|c r]; cbn [app].
  - cbn. exists (x :: t), (a ++ x :: t), []. rewrite !app_nil_r. split_and!.
    + done.
    + rewrite tokens_skip by done. rewrite tokens_last by done. done.
    + cbn. by rewrite Nat.sub_0_r.
    + rewrite length_app. cbn. lia.
    + constructor.
  - apply Forall_cons in Hnr as [Hc0 Hnr]. rewrite (proj2 (Z.eqb_neq c 0)) by done.
    exists (x :: t), (a ++ (x :: t) ++ [0]), r. split_and!.
    + done.
    + rewrite tokens_skip by done. change (x :: t ++ c :: r) with ((x :: t) ++ c :: r). rewrite tokens_delim; [done| |done|done].
      pose proof (Hr c eq_refl) as Hc. by apply negb_false_iff in Hc.
    + rewrite !length_app. cbn. rewrite !length_app. cbn. lia.
    + rewrite length_app. cbn. rewrite length_app. cbn. lia.
    + done.
Qed.

End Strtok.

(** ** Building a string up *)

(** The buffer [b] of [size] bytes after the string [t] was put into it: cut to
    [size - 1] bytes, terminated, and the bytes behind as they were. *)
Definition render (size : Z) (b t : list Z) : list Z :=
  let t := take (Z.to_nat (size - 1)) t in t ++ 0 :: drop (S (length t)) b.

Lemma cstr_app s g : nul_free s -> cstr (s ++ 0 :: g) = s.
Proof. induction 1 as [|c s Hc Hs IH]; [done|]. cbn. rewrite (proj2 (Z.eqb_neq c 0)) by done. by rewrite IH. Qed.

Lemma nul_free_take n s : nul_free s -> nul_free (take n s).
Proof. apply Forall_take. Qed.

Lemma strlcpy_render size b t : 0 < size -> zlen b = size -> strlcpy b t size = Some (render size b t).
Proof.
  intros Hs Hb. unfold strlcpy, render. rewrite (proj2 (Z.eqb_neq _ _)) by lia.
  assert (length (take (Z.to_nat (size - 1)) t) <= Z.to_nat (size - 1))%nat as Hl by (rewrite length_take; lia).
  revert Hl. generalize (take (Z.to_nat (size - 1)) t). intros t' Hl.
  rewrite buf_blit_some; [|lia|rewrite length_app; cbn; lia].
  cbn [Z.to_nat take app]. rewrite <- app_assoc, length_app. cbn. by rewrite Nat.add_1_r.
Qed.

Lemma length_render size b t : 0 < size -> zlen b = size -> length (render size b t) = length b.
Proof.
  intros Hs Hb. unfold render. rewrite length_app. cbn. rewrite length_drop, length_take. lia.
Qed.

Lemma strlcat_render size b t u : 0 < size -> zlen b = size -> nul_free t ->
  strlcat (render size b t) u size = Some (render size b (t ++ u)).
Proof.
  intros Hs Hb Ht. unfold strlcat. pose proof (length_render size b t Hs Hb) as Hl.
  rewrite take_ge by lia. unfold render. rewrite take_app.
  assert (length (take (Z.to_nat (size - 1)) t) <= Z.to_nat (size - 1))%nat as Hl' by (rewrite length_take; lia).
  replace (Z.to_nat (size - 1) - length t)%nat with (Z.to_nat (size - 1) - length (take (Z.to_nat (size - 1)) t))%nat
    by (rewrite length_take; lia).
  apply (nul_free_take (Z.to_nat (size - 1))) in Ht. revert Ht Hl'. generalize (take (Z.to_nat (size - 1)) t). intros t' Ht Hl'.
  rewrite cstr_app by done. rewrite (proj2 (Z.eqb_neq _ _)) by lia.
  replace (Z.to_nat (size - zlen t' - 1)) with (Z.to_nat (size - 1) - length t')%nat by lia.
  assert (length (take (Z.to_nat (size - 1) - length t') u) <= Z.to_nat (size - 1) - length t')%nat as Hu by (rewrite length_take; lia).
  revert Hu. generalize (take (Z.to_nat (size - 1) - length t') u). intros u' Hu.
  rewrite buf_blit_some; [|lia|rewrite !length_app; cbn [length]; rewrite length_drop; lia].
  rewrite Nat2Z.id, take_app_length, !length_app, drop_app_ge by lia. cbn [length].
  replace (length t' + (length u' + 1) - length t')%nat with (S (length u')) by lia. cbn [drop].
  rewrite drop_drop, <- !app_assoc. cbn. by rewrite ?Nat.add_succ_r.
Qed.

(** The string that is there afterwards. *)
Lemma cstr_render size b t : nul_free t -> cstr (render size b t) = take (Z.to_nat (size - 1)) t.
Proof. intros Ht. unfold render. apply cstr_app. by apply nul_free_take. Qed.
