(* ===== verification/Scanf.v ===== *)
(** * The conversions of [sscanf] and [fscanf]

    What the format strings of the sources use: white space, ordinary
    characters, [%d], [%i], [%u], [%x].  A conversion gives its value and the
    rest of the input, or [None] for a matching failure. *)
From S2P Require Import Prelude Cstring.
From Stdlib Require Import Ascii.
Open Scope string_scope.
Open Scope Z_scope.

(** Ordinary characters of the format. *)
Fixpoint scan_literal (lit s : string) : option string :=
  match lit, s with
  | EmptyString, _ => Some s
  | String c lit, String c' s => if Ascii.eqb c c' then scan_literal lit s else None
  | String _ _, EmptyString => None
  end.

Definition scan_sign (s : string) : bool * string :=
  match s with
  | String "-" s' => (true, s') | String "+" s' => (false, s') | _ => (false, s)
  end.

(** [%d] into an [int]. *)
Definition scan_d (s : string) : option (Z * string) :=
  let '(neg, t) := scan_sign (skip_spaces s) in
  let '(v, any, rest) := read_digits t 0 false in
  if any : bool then Some (swrap 32 (if neg then - v else v), rest) else None.

Definition hex_value (c : ascii) : option Z :=
  let n := Z.of_N (N_of_ascii c) in
  if (48 <=? n) && (n <=? 57) then Some (n - 48)
  else if (97 <=? n) && (n <=? 102) then Some (n - 97 + 10)
  else if (65 <=? n) && (n <=? 70) then Some (n - 65 + 10)
  else None.

Fixpoint read_hex (s : string) (acc : Z) (any : bool) : Z * bool * string :=
  match s with
  | String c s' =>
      match hex_value c with Some d => read_hex s' (acc * 16 + d) true | None => (acc, any, s) end
  | EmptyString => (acc, any, s)
  end.

(** [0x] counts as a prefix when a digit follows it. *)
Definition skip_0x (s : string) : string :=
  match s with
  | String z (String x (String c s')) =>
      if Ascii.eqb z "0" && (Ascii.eqb x "x" || Ascii.eqb x "X") && bool_decide (is_Some (hex_value c))
      then String c s' else s
  | _ => s
  end.

(** [%x] into an [unsigned]. *)
Definition scan_x (s : string) : option (Z * string) :=
  let '(neg, t) := scan_sign (skip_spaces s) in
  let '(v, any, rest) := read_hex (skip_0x t) 0 false in
  if any : bool then Some (wrap 32 (if neg then - v else v), rest) else None.

(** Octal digits, for [%i] of a numeral that starts with 0. *)
Fixpoint read_octal (s : string) (acc : Z) : Z * string :=
  match s with
  | String c s' =>
      match digit_value c with
      | Some d => if d <? 8 then read_octal s' (acc * 8 + d) else (acc, s)
      | None => (acc, s)
      end
  | EmptyString => (acc, s)
  end.

(** [%u] into an [unsigned]. *)
Definition scan_u (s : string) : option (Z * string) :=
  let '(neg, t) := scan_sign (skip_spaces s) in
  let '(v, any, rest) := read_digits t 0 false in
  if any : bool then Some (wrap 32 (if neg then - v else v), rest) else None.

(** [%i] into an [int]: hexadecimal after [0x], octal after [0], else decimal. *)
Definition scan_i (s : string) : option (Z * string) :=
  let '(neg, t) := scan_sign (skip_spaces s) in
  let signed v := swrap 32 (if neg : bool then - v else v) in
  if negb (bool_decide (skip_0x t = t)) then
    let '(v, _, rest) := read_hex (skip_0x t) 0 false in Some (signed v, rest)
  else match t with
  | String "0" t' => let '(v, rest) := read_octal t' 0 in Some (signed v, rest)
  | _ =>
      let '(v, any, rest) := read_digits t 0 false in
      if any : bool then Some (signed v, rest) else None
  end.

Definition newline : ascii := ascii_of_nat 10.

(** ** Hexadecimal numerals *)

#[local] Arguments String.append !s1 s2 / : simpl nomatch.

Definition hex_char (d : Z) : ascii := ascii_of_N (Z.to_N (if d <? 10 then 48 + d else 87 + d)).

Fixpoint hex_string (ds : list Z) : string :=
  match ds with [] => "" | d :: ds => String (hex_char d) (hex_string ds) end.

Definition hex_digits_value (acc : Z) (ds : list Z) : Z := fold_left (fun v d => v * 16 + d) ds acc.

Lemma hex_char_facts d :
  0 <= d < 16 -> hex_value (hex_char d) = Some d /\ isspace (hex_char d) = false /\
    Ascii.eqb (hex_char d) "x" = false /\ Ascii.eqb (hex_char d) "X" = false /\
    scan_sign (String (hex_char d) "") = (false, String (hex_char d) "") /\
    Ascii.eqb (hex_char d) newline = false.
Proof.
  intros Hd.
  assert (Forall (fun d => hex_value (hex_char d) = Some d /\ isspace (hex_char d) = false /\
    Ascii.eqb (hex_char d) "x" = false /\ Ascii.eqb (hex_char d) "X" = false /\
    scan_sign (String (hex_char d) "") = (false, String (hex_char d) "") /\
    Ascii.eqb (hex_char d) newline = false) (seqZ 0 16)) as Hall.
  { apply (bool_decide_unpack _). vm_compute. exact I. }
  rewrite Forall_forall in Hall. apply Hall, elem_of_seqZ. lia.
Qed.

(** A sign is seen by its character alone. *)
Lemma scan_sign_cons c s :
  scan_sign (String c "") = (false, String c "") -> scan_sign (String c s) = (false, String c s).
Proof. destruct c as [[] [] [] [] [] [] [] []]; cbn; congruence. Qed.

Lemma digit_scan d : 0 <= d < 10 -> scan_sign (String (digit_char d) "") = (false, String (digit_char d) "")
  /\ Ascii.eqb (digit_char d) newline = false.
Proof.
  intros Hd.
  assert (Forall (fun d => scan_sign (String (digit_char d) "") = (false, String (digit_char d) "") /\
    Ascii.eqb (digit_char d) newline = false) (seqZ 0 10)) as Hall.
  { apply (bool_decide_unpack _). vm_compute. exact I. }
  rewrite Forall_forall in Hall. apply Hall, elem_of_seqZ. lia.
Qed.

Lemma read_digits_stop ds acc any c s :
  Forall (fun d => 0 <= d < 10) ds -> digit_value c = None ->
  read_digits (digits_string ds ++ String c s) acc any =
    (digits_value acc ds, any || negb (bool_decide (ds = [])), String c s).
Proof.
  intros H Hc. revert acc any. induction H as [|d ds Hd Hds IH]; intros acc any;
    cbn [digits_string String.append read_digits digits_value fold_left].
  - by rewrite Hc, orb_false_r.
  - destruct (digit_char_facts d Hd) as [-> _]. rewrite IH. by destruct any.
Qed.

Lemma read_hex_stop ds acc any c s :
  Forall (fun d => 0 <= d < 16) ds -> hex_value c = None ->
  read_hex (hex_string ds ++ String c s) acc any =
    (hex_digits_value acc ds, any || negb (bool_decide (ds = [])), String c s).
Proof.
  intros H Hc. revert acc any. induction H as [|d ds Hd Hds IH]; intros acc any;
    cbn [hex_string String.append read_hex hex_digits_value fold_left].
  - by rewrite Hc, orb_false_r.
  - destruct (hex_char_facts d Hd) as [-> _]. rewrite IH. by destruct any.
Qed.

Lemma digits_value_nonneg ds acc : 0 <= acc -> Forall (fun d => 0 <= d < 10) ds -> 0 <= digits_value acc ds.
Proof.
  intros Ha H. revert acc Ha. induction H as [|d ds Hd _ IH]; intros acc Ha; cbn; [done|].
  apply IH. lia.
Qed.

Lemma scan_d_digits ds c s :
  ds ≠ [] -> Forall (fun d => 0 <= d < 10) ds -> digits_value 0 ds < 2 ^ 31 -> digit_value c = None ->
  scan_d (digits_string ds ++ String c s) = Some (digits_value 0 ds, String c s).
Proof.
  intros Hne Hds Hv Hc. pose proof (read_digits_stop ds 0 false c s Hds Hc) as Hr.
  pose proof (digits_value_nonneg ds 0 ltac:(lia) Hds).
  destruct ds as [|d ds]; [done|]. pose proof (Forall_inv Hds) as Hd.
  destruct (digit_char_facts d Hd) as (_ & Hsp & _). destruct (digit_scan d Hd) as [Hsg _].
  unfold scan_d. cbn [digits_string String.append skip_spaces] in *. rewrite Hsp.
  rewrite scan_sign_cons by done. rewrite Hr. cbn [orb negb bool_decide].
  rewrite bool_decide_eq_false_2 by done. cbn [negb]. by rewrite swrap_small by (unfold in_s; lia).
Qed.

Lemma skip_0x_hex d ds c s :
  Forall (fun d => 0 <= d < 16) ds -> Ascii.eqb c "x" = false -> Ascii.eqb c "X" = false ->
  skip_0x (String (hex_char d) (hex_string ds ++ String c s)) = String (hex_char d) (hex_string ds ++ String c s).
Proof.
  intros Hds Hx HX. unfold skip_0x. destruct Hds as [|d2 ds Hd2 Hds]; cbn [hex_string String.append].
  - rewrite Hx, HX. destruct s; [done|]. by rewrite andb_false_r.
  - destruct (hex_char_facts d2 Hd2) as (_ & _ & -> & -> & _). cbn [orb].
    rewrite andb_false_r. by destruct (hex_string ds ++ String c s).
Qed.

Lemma scan_x_hex ds c s :
  ds ≠ [] -> Forall (fun d => 0 <= d < 16) ds -> in_u 32 (hex_digits_value 0 ds) ->
  hex_value c = None -> Ascii.eqb c "x" = false -> Ascii.eqb c "X" = false ->
  scan_x (hex_string ds ++ String c s) = Some (hex_digits_value 0 ds, String c s) /\
  scan_x (String " " (hex_string ds ++ String c s)) = Some (hex_digits_value 0 ds, String c s) /\
  skip_spaces (hex_string ds ++ String c s) = hex_string ds ++ String c s.
Proof.
  intros Hne Hds Hv Hc Hx HX. pose proof (read_hex_stop ds 0 false c s Hds Hc) as Hr.
  destruct ds as [|d ds]; [done|]. pose proof Hds as [Hd Hds']%Forall_cons.
  destruct (hex_char_facts d Hd) as (_ & Hsp & _ & _ & Hsg & _). unfold scan_x.
  cbn [hex_string String.append] in *. cbn [skip_spaces]. change (isspace " ") with true. rewrite Hsp.
  rewrite scan_sign_cons by done. rewrite skip_0x_hex, Hr by done.
  rewrite bool_decide_eq_false_2 by done. cbn [negb orb]. by rewrite wrap_small.
Qed.

(** A signed decimal numeral and its value in an [unsigned]. *)
Lemma scan_u_numeral neg ds c s :
  ds ≠ [] -> Forall (fun d => 0 <= d < 10) ds -> digit_value c = None ->
  scan_u (skip_spaces (numeral neg ds ++ String c s)) =
    Some (wrap 32 (if neg then - digits_value 0 ds else digits_value 0 ds), String c s).
Proof.
  intros Hne Hds Hc. pose proof (read_digits_stop ds 0 false c s Hds Hc) as Hr.
  destruct ds as [|d ds]; [done|]. pose proof (Forall_inv Hds) as Hd.
  destruct (digit_char_facts d Hd) as (_ & Hsp & _). destruct (digit_scan d Hd) as [Hsg _].
  unfold scan_u, numeral. destruct neg.
  - cbn [String.append skip_spaces]. change (isspace "-") with false. cbn [skip_spaces scan_sign].
    change (isspace "-") with false. cbn [scan_sign]. rewrite Hr.
    rewrite bool_decide_eq_false_2 by done. done.
  - cbn [digits_string String.append skip_spaces] in *. rewrite Hsp. cbn [skip_spaces]. rewrite Hsp.
    rewrite scan_sign_cons by done. rewrite Hr.
    rewrite bool_decide_eq_false_2 by done. done.
Qed.

(** ** The rest is never longer than the input *)

Lemma skip_spaces_le s : (String.length (skip_spaces s) <= String.length s)%nat.
Proof. induction s as [|c s IH]; cbn; [done|]. destruct (isspace c); cbn; lia. Qed.

Lemma scan_literal_le lit : forall s s', scan_literal lit s = Some s' -> (String.length s' <= String.length s)%nat.
Proof.
  induction lit as [|c lit IH]; intros s s'; cbn; [by intros [= ->]|].
  destruct s as [|c' s]; [done|]. destruct (Ascii.eqb c c'); [|done]. intros H. apply IH in H. cbn. lia.
Qed.

Lemma read_digits_le s : forall acc any v b s',
  read_digits s acc any = (v, b, s') -> (String.length s' <= String.length s)%nat.
Proof.
  induction s as [|c s IH]; intros acc any v b s'; cbn; [by intros [= _ _ <-]|].
  destruct (digit_value c); [intros H; apply IH in H; lia|]. intros [= _ _ <-]. done.
Qed.

Lemma read_hex_le s : forall acc any v b s',
  read_hex s acc any = (v, b, s') -> (String.length s' <= String.length s)%nat.
Proof.
  induction s as [|c s IH]; intros acc any v b s'; cbn; [by intros [= _ _ <-]|].
  destruct (hex_value c); [intros H; apply IH in H; lia|]. intros [= _ _ <-]. done.
Qed.

Lemma read_octal_le s : forall acc v s', read_octal s acc = (v, s') -> (String.length s' <= String.length s)%nat.
Proof.
  induction s as [|c s IH]; intros acc v s'; cbn; [by intros [= _ <-]|].
  destruct (digit_value c); [destruct (_ <? _); [intros H; apply IH in H; lia|]|];
    intros [= _ <-]; done.
Qed.

Lemma scan_sign_le s n s' : scan_sign s = (n, s') -> (String.length s' <= String.length s)%nat.
Proof.
  destruct s as [|c s]; [by intros [= _ <-]|].
  destruct c as [[] [] [] [] [] [] [] []]; intros [= _ <-]; cbn; lia.
Qed.

Lemma skip_0x_le s : (String.length (skip_0x s) <= String.length s)%nat.
Proof.
  destruct s as [|a [|b [|c s]]]; try done. cbn. destruct (_ && _); cbn; lia.
Qed.

Lemma scan_d_le s v s' : scan_d s = Some (v, s') -> (String.length s' <= String.length s)%nat.
Proof.
  unfold scan_d. pose proof (skip_spaces_le s). destruct (scan_sign _) as [neg t] eqn:E1.
  apply scan_sign_le in E1. destruct (read_digits t _ _) as [[w any] r] eqn:E2. apply read_digits_le in E2.
  destruct any; [|done]. intros [= _ <-]. lia.
Qed.

Lemma scan_u_le s v s' : scan_u s = Some (v, s') -> (String.length s' <= String.length s)%nat.
Proof.
  unfold scan_u. pose proof (skip_spaces_le s). destruct (scan_sign _) as [neg t] eqn:E1.
  apply scan_sign_le in E1. destruct (read_digits t _ _) as [[w any] r] eqn:E2. apply read_digits_le in E2.
  destruct any; [|done]. intros [= _ <-]. lia.
Qed.

Lemma scan_x_le s v s' : scan_x s = Some (v, s') -> (String.length s' <= String.length s)%nat.
Proof.
  unfold scan_x. pose proof (skip_spaces_le s). destruct (scan_sign _) as [neg t] eqn:E1.
  apply scan_sign_le in E1. pose proof (skip_0x_le t).
  destruct (read_hex _ _ _) as [[w any] r] eqn:E2. apply read_hex_le in E2.
  destruct any; [|done]. intros [= _ <-]. lia.
Qed.

Lemma scan_i_le s v s' : scan_i s = Some (v, s') -> (String.length s' <= String.length s)%nat.
Proof.
  unfold scan_i. pose proof (skip_spaces_le s). destruct (scan_sign _) as [neg t] eqn:E1.
  apply scan_sign_le in E1. pose proof (skip_0x_le t). destruct (negb _).
  { destruct (read_hex _ _ _) as [[w any] r] eqn:E2. apply read_hex_le in E2. intros [= _ <-]. lia. }
  assert (forall v, (let '(w, any, rest) := read_digits t 0 false in
    if any : bool then Some (swrap 32 (if neg then - w else w), rest) else None) = Some (v, s') ->
    (String.length s' <= String.length s)%nat) as Hdec.
  { intros v'. destruct (read_digits t _ _) as [[w any] r] eqn:E2. apply read_digits_le in E2.
    destruct any; [|done]. intros [= _ <-]. lia. }
  destruct t as [|c t]; [by apply Hdec|].
  destruct c as [[] [] [] [] [] [] [] []]; try by apply Hdec.
  destruct (read_octal t 0) as [w r] eqn:E2. apply read_octal_le in E2. intros [= _ <-]. cbn in *. lia.
Qed.
