(* ===== verification/Bspatch.v ===== *)
(** * Applying BSDIFF40 patches ([applypatch/bspatch.c])

    libbz2 is not part of the repository: it is the class [BzLib], and what
    the code relies on is the class [BzSpec].  [FillBuffer] and the main loop
    of [ApplyBSDiffPatchMem] take fuel; [Diverge] is a run that is still going
    on when the fuel is used up.  The device is a 32-bit ARM: [off_t],
    [ssize_t], [size_t] and [int] have 32 bits. *)
From S2P Require Import Prelude Utils.

(** ** libbz2 *)

Definition BZ_OK : Z := 0.
Definition BZ_STREAM_END : Z := 4.

Class BzLib := {
  bz_stream : Type;
  (** the input between [next_in] and [next_in + avail_in] to (error code, stream) *)
  BZ2_bzDecompressInit : list Z -> Z * bz_stream;
  (** a stream and [avail_out] to (error code, bytes written at [next_out], stream) *)
  BZ2_bzDecompress : bz_stream -> Z -> Z * list Z * bz_stream;
  (** what [BZ2_bzWriteOpen], a sequence of [BZ2_bzWrite] and
      [BZ2_bzWriteClose] append to the file for the bytes written *)
  bz_compress : list Z -> list Z
}.

(** [bz_yields s out]: the stream still has exactly the bytes [out] to
    deliver.  A call with room in the output buffer delivers at least one of
    them, and never more than fit. *)
Class BzSpec (B : BzLib) := {
  bz_yields : bz_stream -> list Z -> Prop;
  bz_progress s out n : bz_yields s out -> 0 < n -> out ≠ [] ->
    exists err k s', BZ2_bzDecompress s n = (err, take k out, s') /\
      (err = BZ_OK \/ err = BZ_STREAM_END) /\ (0 < k)%nat /\ Z.of_nat k <= n /\
      (k <= length out)%nat /\ bz_yields s' (drop k out);
  bz_fits s n err out s' : BZ2_bzDecompress s n = (err, out, s') -> zlen out <= Z.max 0 n;
  bz_bytes s n err out s' : BZ2_bzDecompress s n = (err, out, s') -> bytes out;
  bz_roundtrip content trailing :
    bytes content -> bz_yields (BZ2_bzDecompressInit (bz_compress content ++ trailing)).2 content
}.

(** ** The code *)

Section Bspatch.
  Context {B : BzLib}.

  (** Whether [malloc(n)] succeeds. *)
  Context (malloc_ok : Z -> bool).

(** The [while (stream->avail_out > 0)] loop. *)
Fixpoint fill_loop (fuel : nat) (avail_out : Z) (stream : bz_stream)
  : outcome (list Z * bz_stream) :=
  if avail_out <=? 0 then Done ([], stream)
  else match fuel with
  | O => Diverge
  | S fuel =>
      let '(bzerr, out, stream) := BZ2_bzDecompress stream avail_out in
      if negb (bzerr =? BZ_OK) && negb (bzerr =? BZ_STREAM_END) then Fail (-1)
      else '(rest, stream) ← fill_loop fuel (avail_out - zlen out) stream;
           Done (out ++ rest, stream)
  end.

(** [FillBuffer(buffer, size, stream)]: the bytes put into [buffer]. *)
Definition FillBuffer (fuel : nat) (size : Z) (stream : bz_stream)
  : outcome (list Z * bz_stream) :=
  fill_loop fuel (wrap 32 size) stream.

(** A caller that turns any error of [m] into its own [return code]. *)
Definition or_return {A} (code : Z) (m : outcome A) : outcome A :=
  match m with Fail _ => Fail code | _ => m end.

(** "Add old data to diff string": the bytes [new_data[newpos..newpos+ctrl[0])]
    after the loop, from the diff bytes that [FillBuffer] put there. *)
Fixpoint add_old (old_data : list Z) (old_size oldpos i : Z) (diff : list Z)
  : option (list Z) :=
  match diff with
  | [] => Some []
  | d :: diff =>
      let p := swrap 32 (oldpos + i) in
      v ← (if (0 <=? p) && (p <? old_size)
           then o ← buf_get old_data p; Some (wrap 8 (d + o)) else Some d);
      rest ← add_old old_data old_size oldpos (i + 1) diff;
      Some (v :: rest)
  end.

(** The state of the main loop; [bs_new] is [new_data[0..newpos)], the part of
    the output buffer written so far. *)
Record bs_state := mk_bs {
  bs_new : list Z;
  bs_oldpos : Z;
  bs_cstream : bz_stream;
  bs_dstream : bz_stream;
  bs_estream : bz_stream
}.

(** One iteration of [while (newpos < *new_size)].  A write past the
    [malloc]ed block is [Undef]. *)
Definition bspatch_step (fuel : nat) (old_data : list Z) (old_size new_size : Z)
    (st : bs_state) : outcome bs_state :=
  let newpos := zlen (bs_new st) in
  '(buf, cstream) ← or_return 1 (FillBuffer fuel 24 (bs_cstream st));
  ctrl0 ← access (offtin 32 buf 0);
  ctrl1 ← access (offtin 32 buf 8);
  ctrl2 ← access (offtin 32 buf 16);
  if (ctrl0 <? 0) || (ctrl1 <? 0) then Fail 1 else
  if new_size <? swrap 32 (newpos + ctrl0) then Fail 1 else
  if new_size <? newpos + ctrl0 then Undef else
  '(diff, dstream) ← or_return 1 (FillBuffer fuel ctrl0 (bs_dstream st));
  seg ← access (add_old old_data old_size (bs_oldpos st) 0 diff);
  let newpos := newpos + ctrl0 in
  let oldpos := swrap 32 (bs_oldpos st + ctrl0) in
  if new_size <? swrap 32 (newpos + ctrl1) then Fail 1 else
  if new_size <? newpos + ctrl1 then Undef else
  '(extra, estream) ← or_return 1 (FillBuffer fuel ctrl1 (bs_estream st));
  Done (mk_bs (bs_new st ++ seg ++ extra) (swrap 32 (oldpos + ctrl2))
              cstream dstream estream).

Fixpoint bspatch_loop (n fuel : nat) (old_data : list Z) (old_size new_size : Z)
    (st : bs_state) : outcome bs_state :=
  if zlen (bs_new st) <? new_size then
    match n with
    | O => Diverge
    | S n => st ← bspatch_step fuel old_data old_size new_size st;
             bspatch_loop n fuel old_data old_size new_size st
    end
  else Done st.

(** The bytes of "BSDIFF40". *)
Definition bsdiff_magic : list Z := [66; 83; 68; 73; 70; 70; 52; 48].

(** [ApplyBSDiffPatchMem]: the contents of [*new_data] on success.  [old_data]
    is the memory the pointer leads to, [old_size] the size the caller claims
    for it; [patch] is [patch->data[0..patch->size)]. *)
Definition ApplyBSDiffPatchMem (fuel : nat) (old_data : list Z) (old_size : Z)
    (patch : list Z) (patch_offset : Z) : outcome (list Z) :=
  magic ← access (buf_slice patch patch_offset 8);
  if negb (bool_decide (magic = bsdiff_magic)) then Fail 1 else
  ctrl_len ← access (offtin 32 patch (patch_offset + 8));
  data_len ← access (offtin 32 patch (patch_offset + 16));
  new_size ← access (offtin 32 patch (patch_offset + 24));
  if (ctrl_len <? 0) || (data_len <? 0) || (new_size <? 0) then Fail 1 else
  cin ← access (buf_slice patch (patch_offset + 32) ctrl_len);
  din ← access (buf_slice patch (patch_offset + 32 + ctrl_len) data_len);
  ein ← access (buf_slice patch (patch_offset + 32 + ctrl_len + data_len)
                  (wrap 32 (zlen patch - (patch_offset + 32 + ctrl_len + data_len))));
  if negb (malloc_ok new_size) then Fail 1 else
  st ← bspatch_loop fuel fuel old_data old_size new_size
         (mk_bs [] 0 (BZ2_bzDecompressInit cin).2 (BZ2_bzDecompressInit din).2
                (BZ2_bzDecompressInit ein).2);
  Done (bs_new st).

(** [ApplyBSDiffPatch]: [sink] appends to the output and returns how many
    bytes it took; [ctx] is the SHA context as the bytes it was given. *)
Definition ApplyBSDiffPatch (fuel : nat) (old_data : list Z) (old_size : Z)
    (patch : list Z) (patch_offset : Z) {T : Type} (sink : list Z -> T -> Z * T)
    (token : T) (ctx : option (list Z)) : outcome (Z * T * option (list Z)) :=
  match ApplyBSDiffPatchMem fuel old_data old_size patch patch_offset with
  | Fail _ => Done (-1, token, ctx)
  | Undef => Undef
  | Diverge => Diverge
  | Done new_data =>
      let '(written, token) := sink new_data token in
      if written <? zlen new_data then Done (1, token, ctx)
      else Done (0, token, (fun c => c ++ new_data) <$> ctx)
  end.

End Bspatch.

(** Runs the sequencing of [outcome] computations. *)
Ltac orun := cbn [access or_return mbind outcome_bind].

(** ** What the three blocks of a patch mean *)

(** [script old p cs diff extra out]: with the read position of the old file
    at [p], the control triples [cs], the diff bytes and the extra bytes
    describe the output [out] - "add x bytes from oldfile to x bytes from the
    diff block; copy y bytes from the extra block; seek forwards in oldfile by
    z bytes" - and no position leaves a 32-bit [off_t]. *)
Inductive script (old : list Z) : Z -> list (Z * Z * Z) -> list Z -> list Z -> list Z -> Prop :=
  | script_nil p : script old p [] [] [] []
  | script_cons p x y z cs d ext seg diff extra out :
      zlen d = x -> zlen ext = y -> in_s 32 (p + x) -> in_s 32 (p + x + z) ->
      Z.abs z < 2 ^ 31 ->
      add_old old (zlen old) p 0 d = Some seg ->
      script old (p + x + z) cs diff extra out ->
      script old p ((x, y, z) :: cs) (d ++ diff) (ext ++ extra) (seg ++ ext ++ out).

Definition encode_ctrl (c : Z * Z * Z) : list Z :=
  let '(x, y, z) := c in offtout x ++ offtout y ++ offtout z.

Definition encode_ctrls (cs : list (Z * Z * Z)) : list Z := cs ≫= encode_ctrl.

Lemma add_old_length old sz p i d seg : add_old old sz p i d = Some seg -> length seg = length d.
Proof.
  revert i seg; induction d as [|x d IH]; intros i seg; cbn [add_old]; [by intros [= <-]|].
  intros H. apply bind_Some in H as (v & _ & H). apply bind_Some in H as (r & Hr & [= <-]).
  simpl. f_equal. eauto.
Qed.

(** Differences taken against old bytes in range add up to the new bytes. *)
Lemma add_old_exact old p i seg :
  0 <= p + i -> p + i + zlen seg <= zlen old -> zlen old < 2 ^ 31 -> bytes seg ->
  add_old old (zlen old) p i
    (zip_with (fun n o => wrap 8 (n - o)) seg (drop (Z.to_nat (p + i)) old)) = Some seg.
Proof.
  revert i. induction seg as [|n seg IH]; intros i Hp Hle Hold Hb; [done|].
  cbn [length] in Hle. inversion Hb as [|? ? Hn Hseg]; subst.
  destruct (drop (Z.to_nat (p + i)) old) as [|o rest] eqn:E.
  { apply (f_equal length) in E. rewrite length_drop in E. simpl in E. lia. }
  cbn [zip_with add_old]. rewrite swrap_small by (unfold in_s; lia).
  rewrite (proj2 (Z.leb_le 0 _)), (proj2 (Z.ltb_lt _ _)) by lia. cbn [andb].
  assert (old !! Z.to_nat (p + i) = Some o) as Ho.
  { rewrite <- (Nat.add_0_r (Z.to_nat (p + i))), <- lookup_drop, E. done. }
  unfold buf_get. rewrite (proj2 (Z.leb_le 0 _)), Ho by lia. cbn [mbind option_bind].
  replace rest with (drop (Z.to_nat (p + (i + 1))) old).
  2: { replace (Z.to_nat (p + (i + 1))) with (Z.to_nat (p + i) + 1)%nat by lia.
       rewrite <- drop_drop, E. done. }
  rewrite IH by (try assumption; lia). cbn. do 2 f_equal.
  unfold wrap. rewrite Z.add_mod_idemp_l by lia.
  replace (n - o + o) with n by lia. apply Z.mod_small. exact Hn.
Qed.

Section BspatchFacts.
  Context {B : BzLib} {BS : BzSpec B}.

Lemma fill_loop_done fuel n s out :
  bz_yields s out -> 0 <= n <= zlen out -> n <= Z.of_nat fuel ->
  exists s', fill_loop fuel n s = Done (take (Z.to_nat n) out, s') /\
             bz_yields s' (drop (Z.to_nat n) out).
Proof.
  revert n s out. induction fuel as [|fuel IH]; intros n s out Hy Hn Hf; simpl.
  - rewrite (proj2 (Z.leb_le n 0)) by lia. replace (Z.to_nat n) with O by lia. eauto.
  - destruct (Z.leb_spec n 0) as [Hle | Hgt].
    { replace (Z.to_nat n) with O by lia. eauto. }
    destruct (bz_progress s out n Hy Hgt) as (err & k & s' & -> & Herr & Hk & Hkn & Hkl & Hy').
    { intros ->. simpl in Hn. lia. }
    replace (negb (err =? BZ_OK) && negb (err =? BZ_STREAM_END)) with false
      by (destruct Herr as [-> | ->]; reflexivity).
    rewrite length_take_le by lia.
    destruct (IH (n - Z.of_nat k) s' (drop k out) Hy') as (s'' & -> & Hy'').
    { rewrite length_drop. lia. }
    { lia. }
    cbn. exists s''. rewrite drop_drop in Hy''.
    replace (k + Z.to_nat (n - Z.of_nat k))%nat with (Z.to_nat n) in Hy'' by lia.
    split; [|done]. do 2 f_equal.
    rewrite <- (take_drop k out) at 3. rewrite take_app, length_take_le by lia.
    rewrite take_take. f_equal; f_equal; lia.
Qed.

Lemma FillBuffer_done fuel n s out rest :
  bz_yields s (out ++ rest) -> zlen out = n -> n < 2 ^ 31 -> n <= Z.of_nat fuel ->
  exists s', FillBuffer fuel n s = Done (out, s') /\ bz_yields s' rest.
Proof.
  intros Hy Hn Hlt Hf. unfold FillBuffer. rewrite wrap_small by (unfold in_u; lia).
  destruct (fill_loop_done fuel n s _ Hy) as (s' & -> & Hy'); [rewrite length_app; lia | lia |].
  exists s'. subst n. rewrite Nat2Z.id in *. rewrite take_app_length, drop_app_length in *. auto.
Qed.

Lemma offtin_encode_ctrl x y z :
  Z.abs x < 2 ^ 31 -> Z.abs y < 2 ^ 31 -> Z.abs z < 2 ^ 31 ->
  offtin 32 (encode_ctrl (x, y, z)) 0 = Some x /\
  offtin 32 (encode_ctrl (x, y, z)) 8 = Some y /\
  offtin 32 (encode_ctrl (x, y, z)) 16 = Some z.
Proof.
  intros Hx Hy Hz. unfold encode_ctrl. split; [|split].
  - apply (offtin_offtout_at 32 x [] (offtout y ++ offtout z)); lia.
  - apply (offtin_offtout_at 32 y (offtout x) (offtout z)); lia.
  - pose proof (offtin_offtout_at 32 z (offtout x ++ offtout y) []) as H.
    rewrite app_nil_r, <- app_assoc in H. apply H; lia.
Qed.

Lemma encode_ctrl_length c : length (encode_ctrl c) = 24%nat.
Proof. destruct c as [[x y] z]. reflexivity. Qed.

(** One iteration consumes one triple. *)
Lemma bspatch_step_script fuel old new_size st p x y z cs d ext seg diff extra cr dr er :
  bs_oldpos st = p -> zlen d = x -> zlen ext = y -> in_s 32 (p + x) -> in_s 32 (p + x + z) ->
  Z.abs z < 2 ^ 31 -> add_old old (zlen old) p 0 d = Some seg ->
  bz_yields (bs_cstream st) (encode_ctrls ((x, y, z) :: cs) ++ cr) ->
  bz_yields (bs_dstream st) ((d ++ diff) ++ dr) ->
  bz_yields (bs_estream st) ((ext ++ extra) ++ er) ->
  zlen (bs_new st) + x + y <= new_size -> new_size < 2 ^ 31 ->
  24 <= Z.of_nat fuel -> new_size <= Z.of_nat fuel ->
  exists c' d' e',
    bspatch_step fuel old (zlen old) new_size st
      = Done (mk_bs (bs_new st ++ seg ++ ext) (p + x + z) c' d' e') /\
    bz_yields c' (encode_ctrls cs ++ cr) /\ bz_yields d' (diff ++ dr) /\ bz_yields e' (extra ++ er).
Proof.
  intros Hp Hx Hy Hpx Hpxz Hz Hseg Hc Hd He Hle Hns Hf1 Hf2.
  unfold encode_ctrls in Hc. cbn [mbind list_bind] in Hc.
  rewrite <- app_assoc in Hc, Hd, He. unfold bspatch_step.
  destruct (FillBuffer_done fuel 24 _ _ _ Hc) as (c' & -> & Hc');
    [now rewrite encode_ctrl_length | lia | lia |]. orun.
  destruct (offtin_encode_ctrl x y z) as (-> & -> & ->); [lia..|]. orun.
  rewrite (proj2 (Z.ltb_ge x 0)), (proj2 (Z.ltb_ge y 0)) by lia. cbn [orb].
  rewrite (swrap_small 32 (_ + x)) by (unfold in_s; lia).
  rewrite (proj2 (Z.ltb_ge new_size (_ + x))) by lia.
  destruct (FillBuffer_done fuel x _ _ _ Hd) as (d' & -> & Hd'); [lia..|].
  orun. rewrite Hp, Hseg. orun.
  rewrite (swrap_small 32 (_ + y)) by (unfold in_s; lia).
  rewrite (proj2 (Z.ltb_ge new_size (_ + y))) by lia.
  destruct (FillBuffer_done fuel y _ _ _ He) as (e' & -> & He'); [lia..|].
  orun. rewrite (swrap_small 32 (p + x)) by (lia || assumption).
  rewrite (swrap_small 32 (p + x + z)) by (lia || assumption).
  exists c', d', e'. auto.
Qed.

Lemma script_out_zero old p cs diff extra out :
  script old p cs diff extra out -> zlen out = 0 -> out = [].
Proof. intros _. destruct out; simpl; [done | lia]. Qed.

(** The main loop runs a script to its end. *)
Lemma bspatch_loop_script old p cs diff extra out :
  script old p cs diff extra out ->
  forall n fuel new_size st cr dr er,
  bs_oldpos st = p ->
  bz_yields (bs_cstream st) (encode_ctrls cs ++ cr) ->
  bz_yields (bs_dstream st) (diff ++ dr) ->
  bz_yields (bs_estream st) (extra ++ er) ->
  zlen (bs_new st) + zlen out = new_size -> new_size < 2 ^ 31 ->
  24 <= Z.of_nat fuel -> new_size <= Z.of_nat fuel -> (length cs <= n)%nat ->
  exists st', bspatch_loop n fuel old (zlen old) new_size st = Done st' /\
              bs_new st' = bs_new st ++ out.
Proof.
  induction 1 as [p | p x y z cs d ext seg diff extra out Hx Hy Hpx Hpxz Hz Hseg Hs IH];
    intros n fuel new_size st cr dr er Hp Hc Hd He Hns Hlt Hf1 Hf2 Hn.
  - exists st. simpl in Hns. rewrite app_nil_r.
    destruct n; simpl; rewrite (proj2 (Z.ltb_ge _ _)) by lia; auto.
  - destruct (Z.ltb_spec (zlen (bs_new st)) new_size) as [Hl | Hge].
    2: { exists st. rewrite (nil_length_inv (seg ++ ext ++ out)) by lia. rewrite app_nil_r.
         destruct n; simpl; rewrite (proj2 (Z.ltb_ge _ _)) by lia; auto. }
    destruct n as [|n]; [simpl in Hn; lia|]. simpl.
    rewrite (proj2 (Z.ltb_lt _ _)) by lia.
    pose proof (add_old_length _ _ _ _ _ _ Hseg) as Hlen. rewrite !length_app in Hns.
    destruct (bspatch_step_script fuel old new_size st p x y z cs d ext seg diff extra cr dr er)
      as (c' & d' & e' & -> & Hc' & Hd' & He'); try assumption; try lia.
    orun.
    destruct (IH n fuel new_size (mk_bs (bs_new st ++ seg ++ ext) (p + x + z) c' d' e') cr dr er)
      as (st' & -> & Hst'); cbn [bs_oldpos bs_cstream bs_dstream bs_estream bs_new];
      try assumption; try reflexivity; try (rewrite !length_app; lia); [simpl in Hn; lia|].
    exists st'. split; [done|]. rewrite Hst'. cbn. now rewrite <- !app_assoc.
Qed.

Lemma fill_loop_length fuel n s out s' :
  0 <= n -> fill_loop fuel n s = Done (out, s') -> zlen out = n.
Proof.
  revert n s out s'. induction fuel as [|fuel IH]; intros n s out s' Hn; simpl;
    destruct (Z.leb_spec n 0); try discriminate; try (intros [= <- <-]; simpl; lia).
  destruct (BZ2_bzDecompress s n) as [[err o] s1] eqn:E. destruct (_ && _); [discriminate|].
  intros H1. apply outcome_bind_done in H1 as ([r s2] & Hr & [= <- <-]).
  apply bz_fits in E. apply IH in Hr; [|lia]. rewrite length_app. lia.
Qed.

Lemma FillBuffer_length fuel n s out s' :
  0 <= n < 2 ^ 31 -> FillBuffer fuel n s = Done (out, s') -> zlen out = n.
Proof.
  intros Hn. unfold FillBuffer. rewrite wrap_small by (unfold in_u; lia).
  apply fill_loop_length. lia.
Qed.

Lemma fill_loop_bytes fuel n s out s' : fill_loop fuel n s = Done (out, s') -> bytes out.
Proof.
  revert n s out s'. induction fuel as [|fuel IH]; intros n s out s'; simpl;
    destruct (Z.leb_spec n 0); try discriminate; try (intros [= <- <-]; constructor).
  destruct (BZ2_bzDecompress s n) as [[err o] s1] eqn:E. destruct (_ && _); [discriminate|].
  intros H1. apply outcome_bind_done in H1 as ([r s2] & Hr & [= <- <-]).
  apply bytes_app. eauto using bz_bytes.
Qed.

Lemma FillBuffer_bytes fuel n s out s' : FillBuffer fuel n s = Done (out, s') -> bytes out.
Proof. apply fill_loop_bytes. Qed.

Lemma or_return_done {A} code (m : outcome A) a : or_return code m = Done a -> m = Done a.
Proof. destruct m; simpl; congruence. Qed.

Lemma offtin_range w b off v : 8 <= w -> bytes b -> offtin w b off = Some v -> in_s w v.
Proof.
  intros Hw Hb. unfold offtin. intros H.
  repeat (apply bind_Some in H as (? & ? & H)). cbv zeta in H. injection H as <-.
  case_bools; [|apply swrap_range; lia].
  unfold offtin_step. apply swrap_range. lia.
Qed.

(** Each iteration writes exactly the bytes the triple announces, and stays
    inside the output buffer. *)
Lemma bspatch_step_fits fuel old old_size new_size st st' :
  bspatch_step fuel old old_size new_size st = Done st' ->
  zlen (bs_new st) <= zlen (bs_new st') <= new_size.
Proof.
  unfold bspatch_step. intros H. cbv zeta in H.
  apply outcome_bind_done in H as ([buf c] & Hbuf & H).
  apply outcome_bind_done in H as (x & Hx & H). apply outcome_bind_done in H as (y & Hy & H).
  apply outcome_bind_done in H as (z & Hz & H).
  destruct ((x <? 0) || (y <? 0)) eqn:E1; [discriminate|].
  destruct (new_size <? swrap 32 _) eqn:E2; [discriminate|].
  destruct (new_size <? _ + x) eqn:E3; [discriminate|].
  apply outcome_bind_done in H as ([diff d] & Hd & H). apply outcome_bind_done in H as (seg & Hs & H).
  destruct (new_size <? swrap 32 (_ + x + y)) eqn:E4; [discriminate|].
  destruct (new_size <? _ + x + y) eqn:E5; [discriminate|].
  apply outcome_bind_done in H as ([extra e] & He & [= <-]). cbn [bs_new].
  apply or_return_done in Hd, He, Hbuf. bool_to_prop.
  assert (bytes buf) as Hbytes by eauto using FillBuffer_bytes.
  assert (in_s 32 x /\ in_s 32 y) as [Hxr Hyr].
  { apply access_done in Hx, Hy. split; eapply offtin_range; eauto; lia. }
  unfold in_s in *.
  apply FillBuffer_length in Hd, He; [|lia..].
  apply access_done, add_old_length in Hs. rewrite !length_app. lia.
Qed.

Lemma bspatch_loop_fits n fuel old old_size new_size st st' :
  zlen (bs_new st) <= new_size ->
  bspatch_loop n fuel old old_size new_size st = Done st' -> zlen (bs_new st') = new_size.
Proof.
  revert st. induction n as [|n IH]; intros st Hle; simpl;
    destruct (Z.ltb_spec (zlen (bs_new st)) new_size); try discriminate;
    try (intros [= <-]; lia).
  intros H1. apply outcome_bind_done in H1 as (st1 & Hst1 & H1).
  apply bspatch_step_fits in Hst1. apply IH in H1; lia.
Qed.

(** The file layout of the comment in [ApplyBSDiffPatchMem]. *)
Definition patch_file (c d e : list Z) (new_size : Z) : list Z :=
  bsdiff_magic ++ offtout (zlen c) ++ offtout (zlen d) ++ offtout new_size ++ c ++ d ++ e.

Lemma patch_file_length c d e n :
  zlen (patch_file c d e n) = 32 + zlen c + zlen d + zlen e.
Proof. unfold patch_file. rewrite !length_app. simpl length. lia. Qed.

Lemma patch_file_header pre c d e n :
  let patch := pre ++ patch_file c d e n in
  zlen c < 2 ^ 31 -> zlen d < 2 ^ 31 -> 0 <= n < 2 ^ 31 ->
  buf_slice patch (zlen pre) 8 = Some bsdiff_magic /\
  offtin 32 patch (zlen pre + 8) = Some (zlen c) /\
  offtin 32 patch (zlen pre + 16) = Some (zlen d) /\
  offtin 32 patch (zlen pre + 24) = Some n.
Proof.
  intros patch Hc Hd Hn. unfold patch, patch_file. split; [|split; [|split]].
  - now apply buf_slice_mid.
  - rewrite app_assoc. replace (zlen pre + 8) with (zlen (pre ++ bsdiff_magic))
      by (rewrite length_app; simpl length; lia).
    apply offtin_offtout_at; lia.
  - rewrite (app_assoc pre), (app_assoc (pre ++ _)).
    replace (zlen pre + 16) with (zlen ((pre ++ bsdiff_magic) ++ offtout (zlen c)))
      by (rewrite !length_app; simpl length; lia).
    apply offtin_offtout_at; lia.
  - rewrite (app_assoc pre), (app_assoc (pre ++ _)), (app_assoc ((pre ++ _) ++ _)).
    replace (zlen pre + 24) with
      (zlen (((pre ++ bsdiff_magic) ++ offtout (zlen c)) ++ offtout (zlen d)))
      by (rewrite !length_app; simpl length; lia).
    apply offtin_offtout_at; lia.
Qed.

Lemma patch_file_blocks pre c d e n :
  let patch := pre ++ patch_file c d e n in zlen patch < 2 ^ 31 ->
  buf_slice patch (zlen pre + 32) (zlen c) = Some c /\
  buf_slice patch (zlen pre + 32 + zlen c) (zlen d) = Some d /\
  buf_slice patch (zlen pre + 32 + zlen c + zlen d)
    (wrap 32 (zlen patch - (zlen pre + 32 + zlen c + zlen d))) = Some e.
Proof.
  intros patch Hlt.
  set (h := pre ++ bsdiff_magic ++ offtout (zlen c) ++ offtout (zlen d) ++ offtout n).
  assert (zlen h = zlen pre + 32) as Hh by (unfold h; rewrite !length_app; simpl length; lia).
  assert (patch = h ++ c ++ d ++ e) as Hp by (unfold patch, patch_file, h; now rewrite <- !app_assoc).
  assert (zlen patch = zlen h + zlen c + zlen d + zlen e) as Hlen
    by (rewrite Hp, !length_app; lia).
  rewrite Hlen, wrap_small by (unfold in_u; lia). rewrite <- Hh, Hp. split; [|split].
  - now apply buf_slice_mid.
  - rewrite app_assoc. apply buf_slice_mid; [rewrite length_app; lia | done].
  - pose proof (buf_slice_mid ((h ++ c) ++ d) e []) as Hm.
    rewrite app_nil_r, <- !app_assoc in Hm. apply Hm; rewrite ?length_app; lia.
Qed.

(** Bytes of the old data beyond the claimed size are not read. *)
Lemma add_old_tail old rest p d : forall i, add_old (old ++ rest) (zlen old) p i d = add_old old (zlen old) p i d.
Proof.
  induction d as [|x d IH]; intros i; [done|]. cbn [add_old]. rewrite IH.
  destruct (Z.leb_spec 0 (swrap 32 (p + i))), (Z.ltb_spec (swrap 32 (p + i)) (zlen old)); try done.
  cbn [andb]. unfold buf_get. rewrite (proj2 (Z.leb_le _ _)) by done. by rewrite lookup_app_l by lia.
Qed.

Lemma ApplyBSDiffPatchMem_tail malloc_ok fuel old rest patch off :
  ApplyBSDiffPatchMem malloc_ok fuel (old ++ rest) (zlen old) patch off =
  ApplyBSDiffPatchMem malloc_ok fuel old (zlen old) patch off.
Proof.
  assert (forall n f ns st, bspatch_loop n f (old ++ rest) (zlen old) ns st = bspatch_loop n f old (zlen old) ns st) as Hl.
  { intros n f ns. assert (forall st, bspatch_step f (old ++ rest) (zlen old) ns st = bspatch_step f old (zlen old) ns st) as Hs.
    { intros st. unfold bspatch_step. destruct (or_return 1 (FillBuffer f 24 (bs_cstream st))) as [[buf cs]| | |]; orun; [|done..].
      destruct (access (offtin 32 buf 0)) as [c0| | |]; orun; [|done..].
      destruct (access (offtin 32 buf 8)) as [c1| | |]; orun; [|done..].
      destruct (access (offtin 32 buf 16)) as [c2| | |]; orun; [|done..].
      destruct (_ || _); [done|]. destruct (ns <? _); [done|]. destruct (ns <? _); [done|].
      destruct (or_return 1 (FillBuffer f c0 (bs_dstream st))) as [[diff ds]| | |]; orun; [|done..]. by rewrite add_old_tail. }
    induction n as [|n IH]; intros st; cbn [bspatch_loop]; [done|]. destruct (_ <? _); [|done]. rewrite Hs.
    destruct (bspatch_step f old (zlen old) ns st); orun; auto. }
  unfold ApplyBSDiffPatchMem. destruct (access (buf_slice patch off 8)); orun; [|done..].
  destruct (negb _); [done|]. repeat (match goal with |- context [access ?x] => destruct (access x) end; orun; [|done..]).
  destruct (_ || _); [done|]. repeat (match goal with |- context [access ?x] => destruct (access x) end; orun; [|done..]).
  destruct (negb _); [done|]. by rewrite Hl.
Qed.

(** Patches laid out as documented produce the output their script describes,
    also when more follows in the file. *)
Lemma ApplyBSDiffPatchMem_script_post malloc_ok fuel old cs diff extra out pre post :
  let patch := patch_file (bz_compress (encode_ctrls cs)) (bz_compress diff)
                          (bz_compress extra) (zlen out) in
  script old 0 cs diff extra out -> bytes (encode_ctrls cs) -> bytes diff -> bytes extra ->
  zlen pre + zlen patch + zlen post < 2 ^ 31 -> zlen out < 2 ^ 31 -> malloc_ok (zlen out) = true ->
  24 <= Z.of_nat fuel -> zlen out <= Z.of_nat fuel -> (length cs <= fuel)%nat ->
  ApplyBSDiffPatchMem malloc_ok fuel old (zlen old) (pre ++ patch ++ post) (zlen pre) = Done out.
Proof.
  intros patch Hs Hbc Hbd Hbe Hlen Hout Hm Hf1 Hf2 Hf3. unfold ApplyBSDiffPatchMem.
  assert (patch ++ post = patch_file (bz_compress (encode_ctrls cs)) (bz_compress diff) (bz_compress extra ++ post) (zlen out)) as Ep
    by (unfold patch, patch_file; by rewrite <- !app_assoc).
  pose proof (patch_file_length (bz_compress (encode_ctrls cs)) (bz_compress diff)
    (bz_compress extra) (zlen out)) as Hpl. fold patch in Hpl.
  destruct (patch_file_header pre (bz_compress (encode_ctrls cs)) (bz_compress diff)
    (bz_compress extra ++ post) (zlen out)) as (E4 & E5 & E6 & E7); [lia..|].
  destruct (patch_file_blocks pre (bz_compress (encode_ctrls cs)) (bz_compress diff)
    (bz_compress extra ++ post) (zlen out)) as (E1 & E2 & E3); [rewrite <- Ep, !length_app; lia|].
  rewrite <- Ep in E1, E2, E3, E4, E5, E6, E7. rewrite E4, E5, E6, E7. orun.
  rewrite bool_decide_eq_true_2 by done. cbn [negb].
  rewrite !(proj2 (Z.ltb_ge _ 0)) by lia. cbn [orb]. rewrite E1, E2, E3, Hm. orun. cbn [negb].
  pose proof (bz_roundtrip _ [] Hbc) as Hc. pose proof (bz_roundtrip _ [] Hbd) as Hd.
  pose proof (bz_roundtrip _ post Hbe) as He. rewrite app_nil_r in Hc, Hd.
  destruct (bspatch_loop_script _ _ _ _ _ _ Hs fuel fuel (zlen out)
    (mk_bs [] 0 (BZ2_bzDecompressInit (bz_compress (encode_ctrls cs))).2
       (BZ2_bzDecompressInit (bz_compress diff)).2
       (BZ2_bzDecompressInit (bz_compress extra ++ post)).2) [] [] [])
    as (st' & -> & Hst'); cbn; rewrite ?app_nil_r; try assumption; try lia; try reflexivity.
  now rewrite Hst'.
Qed.

Lemma ApplyBSDiffPatchMem_script malloc_ok fuel old cs diff extra out pre :
  let patch := patch_file (bz_compress (encode_ctrls cs)) (bz_compress diff)
                          (bz_compress extra) (zlen out) in
  script old 0 cs diff extra out -> bytes (encode_ctrls cs) -> bytes diff -> bytes extra ->
  zlen pre + zlen patch < 2 ^ 31 -> zlen out < 2 ^ 31 -> malloc_ok (zlen out) = true ->
  24 <= Z.of_nat fuel -> zlen out <= Z.of_nat fuel -> (length cs <= fuel)%nat ->
  ApplyBSDiffPatchMem malloc_ok fuel old (zlen old) (pre ++ patch) (zlen pre) = Done out.
Proof.
  intros patch Hs Hbc Hbd Hbe Hlen Hout Hm Hf1 Hf2 Hf3.
  pose proof (ApplyBSDiffPatchMem_script_post malloc_ok fuel old cs diff extra out pre []) as H.
  cbv zeta in H. rewrite app_nil_r in H. apply H; auto. cbn [length]. fold patch. lia.
Qed.

End BspatchFacts.

(** ** A concrete codec

    Each byte is framed as [1; b] and the stream ends with 0: it satisfies
    [BzSpec], and it does at the end of its input what libbz2 documents -
    [BZ_OK] without output when the input is cut short, [BZ_SEQUENCE_ERROR]
    (-1) after the end of the stream. *)

Fixpoint unframe (l : list Z) : list Z * bool :=
  match l with
  | 0 :: _ => ([], true)
  | _ :: b :: l => let '(out, fin) := unframe l in (b :: out, fin)
  | _ => ([], false)
  end.

Definition frame (content : list Z) : list Z := (content ≫= fun b => [1; b]) ++ [0].

#[export] Instance framed_bz : BzLib := {|
  bz_stream := list Z * bool;
  BZ2_bzDecompressInit l := (BZ_OK, unframe l);
  BZ2_bzDecompress s n :=
    match s with
    | ([], true) => (-1, [], s)
    | (out, fin) => (BZ_OK, wrap 8 <$> take (Z.to_nat n) out, (drop (Z.to_nat n) out, fin))
    end;
  bz_compress := frame
|}.

Lemma unframe_frame content trailing : (unframe (frame content ++ trailing)).1 = content.
Proof.
  unfold frame. induction content as [|b content IH]; [done|].
  cbn [mbind list_bind app unframe]. cbn [mbind list_bind] in IH.
  destruct (unframe _); cbn in *. by rewrite IH.
Qed.

Lemma wrap8_bytes l : bytes l -> wrap 8 <$> l = l.
Proof. induction 1 as [|b l Hb]; csimpl; [done|]. rewrite wrap_small by exact Hb. by f_equal. Qed.

Lemma framed_out (s : @bz_stream framed_bz) n err out s' :
  BZ2_bzDecompress s n = (err, out, s') -> exists l, out = wrap 8 <$> take (Z.to_nat n) l.
Proof.
  destruct s as [[|b l] []]; cbn; intros [= <- <- <-];
    [exists [] | exists [] | exists (b :: l) | exists (b :: l)]; rewrite ?take_nil; done.
Qed.

#[export] Instance framed_bz_spec : BzSpec framed_bz.
Proof.
  refine {| bz_yields := fun (s : @bz_stream framed_bz) out => s.1 = out /\ bytes out |}.
  - intros [out0 fin] out n [<- Hb] Hn Hne. cbn [fst] in *.
    exists BZ_OK, (Z.to_nat n `min` length out0)%nat, (drop (Z.to_nat n) out0, fin).
    assert (take (Z.to_nat n) out0 = take (Z.to_nat n `min` length out0) out0) as Ht
      by (rewrite <- take_take, (take_ge out0 (length out0)); done).
    assert (drop (Z.to_nat n) out0 = drop (Z.to_nat n `min` length out0) out0) as Hd.
    { destruct (Nat.min_spec (Z.to_nat n) (length out0)) as [[? ->] | [? ->]]; [done|].
      rewrite !drop_ge; done. }
    rewrite <- Ht, <- Hd. destruct out0 as [|b out0]; [done|].
    repeat split; cbn [fst]; auto with recovery; try (cbn [length]; lia).
    cbn. do 2 f_equal. apply wrap8_bytes. auto with recovery.
  - intros s n err out s' (l & ->)%framed_out. rewrite length_fmap, length_take. lia.
  - intros s n err out s' (l & ->)%framed_out. apply Forall_fmap, Forall_true.
    intros x. apply (wrap_range 8). lia.
  - intros content trailing Hb. split; [apply unframe_frame | exact Hb].
Defined.

(** ** Properties *)



(** Whatever the patch says, when [ApplyBSDiffPatchMem] succeeds it has
    filled the [malloc]ed output exactly: the result has the size of the
    header, and every intermediate write ended inside the buffer. *)
Theorem ApplyBSDiffPatchMem_fills_exactly {B : BzLib} {BS : BzSpec B}
    malloc_ok fuel old old_size patch patch_offset out :
  ApplyBSDiffPatchMem malloc_ok fuel old old_size patch patch_offset = Done out ->
  0 <= zlen out /\ offtin 32 patch (patch_offset + 24) = Some (zlen out).
Proof.
  unfold ApplyBSDiffPatchMem. intros H.
  apply outcome_bind_done in H as (magic & _ & H). destruct (negb _); [discriminate|].
  do 2 (apply outcome_bind_done in H as (? & _ & H)).
  apply outcome_bind_done in H as (new_size & Hn & H). apply access_done in Hn.
  destruct (_ || _) eqn:E; [discriminate|]. bool_to_prop.
  do 3 (apply outcome_bind_done in H as (? & _ & H)). destruct (negb _); [discriminate|].
  apply outcome_bind_done in H as (st & Hl & [= <-]).
  apply bspatch_loop_fits in Hl; [|cbn; lia]. rewrite Hn. split; [lia | by f_equal].
Qed.

Lemma ApplyBSDiffPatchMem_fills_exactly_witness :
  (0 <= 3) /\
  offtin 32 (patch_file (frame (encode_ctrls [(2, 1, 0)])) (frame [1; 255]) (frame [9]) 3) (0 + 24)
    = Some 3.
Proof.
  apply (ApplyBSDiffPatchMem_fills_exactly (fun _ => true) 24 [10; 20] 2
    (patch_file (frame (encode_ctrls [(2, 1, 0)])) (frame [1; 255]) (frame [9]) 3) 0 [11; 19; 9]).
  vm_compute. reflexivity.
Defined.

(** [FillBuffer] fills the whole buffer from a stream that has the bytes,
    but does not return when the decompressor keeps answering [BZ_OK] without
    output, as libbz2 does at the end of a truncated block: no fuel is enough. *)
Theorem FillBuffer_total_or_stalls {B : BzLib} {BS : BzSpec B} :
  (forall fuel s out rest, bz_yields s (out ++ rest) -> zlen out < 2 ^ 31 ->
     zlen out <= Z.of_nat fuel ->
     exists s', FillBuffer fuel (zlen out) s = Done (out, s') /\ bz_yields s' rest) /\
  (forall fuel size s, 0 < size < 2 ^ 31 -> BZ2_bzDecompress s size = (BZ_OK, [], s) ->
     FillBuffer fuel size s = Diverge).
Proof.
  split.
  - intros fuel s out rest Hy Hlt Hf. eauto using FillBuffer_done.
  - intros fuel size s Hs Hstall. unfold FillBuffer. rewrite wrap_small by (unfold in_u; lia).
    induction fuel as [|fuel IH]; simpl; rewrite (proj2 (Z.leb_gt size 0)) by lia; [done|].
    rewrite Hstall. cbn. rewrite Z.sub_0_r, IH. done.
Qed.

Lemma FillBuffer_total_or_stalls_witness :
  FillBuffer (B := framed_bz) 3 3 ([4; 5; 6], true) = Done ([4; 5; 6], ([], true)) /\
  FillBuffer (B := framed_bz) 1000 3 ([], false) = Diverge.
Proof.
  destruct (FillBuffer_total_or_stalls (B := framed_bz)) as [Hok Hstall]. split.
  - destruct (Hok 3%nat ([4; 5; 6], true) [4; 5; 6] []) as (s & _ & _);
      [split; [done | by_decide] | simpl; lia | simpl; lia |]. reflexivity.
  - apply Hstall; [lia | reflexivity].
Defined.

(** The guard against overrunning the output is computed in a 32-bit
    [off_t], where it wraps: a control triple whose length is close to 2^31
    passes [newpos + ctrl[0] > *new_size] and the diff bytes are written past
    the end of the [malloc]ed buffer. *)
Theorem bspatch_overrun_guard_wraps :
  exists patch, offtin 32 patch 24 = Some 2 /\
    ApplyBSDiffPatchMem (B := framed_bz) (fun _ => true) 100 [] 0 patch 0 = Undef.
Proof.
  exists (patch_file (frame (encode_ctrls [(1, 0, 0); (2 ^ 31 - 1, 0, 0)]))
                     (frame [1; 2]) (frame []) 2).
  vm_compute. split; reflexivity.
Qed.
