(* ===== verification/Bsdiff.v ===== *)
(** * Computing BSDIFF40 patches ([applypatch/bsdiff.c])

    The matching loop of [bsdiff] with the binary search over the suffix array
    [I], as the code has them; every array read is checked ([None] is a read
    outside the array).  The suffix array itself is an argument, as it is in
    the code, where the caller passes [I] from one call to the next; what
    [qsufsort] has to deliver for the patch to be right is only that the
    entries are positions of [old]. *)
From S2P Require Import Prelude Utils Bspatch.

Section Bsdiff.
  Context {B : BzLib}.
  Context (II old new : list Z).

(** [matchlen(old, oldsize, new, newsize)] on what the pointers lead to. *)
Fixpoint matchlen (o n : list Z) : Z :=
  match o, n with
  | a :: o, b :: n => if a =? b then 1 + matchlen o n else 0
  | _, _ => 0
  end.

(** [memcmp(o, n, MIN(|o|, |n|))], up to its sign. *)
Fixpoint memcmp_min (o n : list Z) : Z :=
  match o, n with
  | a :: o, b :: n => if a =? b then memcmp_min o n else a - b
  | _, _ => 0
  end.

(** [old + I[k]]. *)
Definition suffix (k : Z) : option (Z * list Z) :=
  i ← buf_get II k;
  if (0 <=? i) && (i <=? zlen old) then Some (i, drop (Z.to_nat i) old) else None.

(** [search(I, old, oldsize, n, |n|, st, en, &pos)]: (length, pos). *)
Fixpoint search (fuel : nat) (n : list Z) (st en : Z) : option (Z * Z) :=
  if en - st <? 2 then
    '(ist, ost) ← suffix st; '(ien, oen) ← suffix en;
    let x := matchlen ost n in
    let y := matchlen oen n in
    if y <? x then Some (x, ist) else Some (y, ien)
  else match fuel with
  | O => None
  | S fuel =>
      let x := st + (en - st) / 2 in
      '(_, ox) ← suffix x;
      if memcmp_min ox n <? 0 then search fuel n x en else search fuel n st x
  end.

(** [(k+lastoffset<oldsize) && (old[k+lastoffset] == new[k])]. *)
Definition old_agrees (lastoffset k : Z) : option bool :=
  if k + lastoffset <? zlen old
  then o ← buf_get old (k + lastoffset); n ← buf_get new k; Some (o =? n)
  else Some false.

(** [if(a) n += d;]. *)
Definition count_if (a : bool) (d n : Z) : Z := if a then n + d else n.

(** [for(;scsc<scan+len;scsc++) if(...) oldscore++;], [cnt] iterations. *)
Fixpoint score_loop (cnt : nat) (lastoffset scsc oldscore : Z) : option Z :=
  match cnt with
  | O => Some oldscore
  | S cnt =>
      a ← old_agrees lastoffset scsc;
      score_loop cnt lastoffset (scsc + 1) (count_if a 1 oldscore)
  end.

(** [for(scsc=scan+=len;scan<newsize;scan++) { ... }]: the values of scan,
    len, pos and oldscore when it ends, by [break] or at [newsize].  [cnt]
    bounds the iterations by [newsize - scan]. *)
Fixpoint scan_loop (cnt : nat) (lastoffset scan scsc oldscore len pos : Z)
  : option (Z * Z * Z * Z) :=
  if scan <? zlen new then
    match cnt with
    | O => None
    | S cnt =>
        '(len, pos) ← search (length II) (drop (Z.to_nat scan) new) 0 (zlen old);
        oldscore ← score_loop (Z.to_nat (scan + len - scsc)) lastoffset scsc oldscore;
        let scsc := Z.max scsc (scan + len) in
        if ((len =? oldscore) && negb (len =? 0)) || (oldscore + 8 <? len)
        then Some (scan, len, pos, oldscore)
        else
          a ← old_agrees lastoffset scan;
          scan_loop cnt lastoffset (scan + 1) scsc (count_if a (-1) oldscore) len pos
    end
  else Some (scan, len, pos, oldscore).

(** The forward extension: [lenf]. *)
Fixpoint lenf_loop (cnt : nat) (lastscan lastpos scan i s Sf lenf : Z) : option Z :=
  if (lastscan + i <? scan) && (lastpos + i <? zlen old) then
    match cnt with
    | O => None
    | S cnt =>
        o ← buf_get old (lastpos + i); n ← buf_get new (lastscan + i);
        let s := if o =? n then s + 1 else s in
        let i := i + 1 in
        if Sf * 2 - lenf <? s * 2 - i
        then lenf_loop cnt lastscan lastpos scan i s s i
        else lenf_loop cnt lastscan lastpos scan i s Sf lenf
    end
  else Some lenf.

(** The backward extension: [lenb]. *)
Fixpoint lenb_loop (cnt : nat) (lastscan scan pos i s Sb lenb : Z) : option Z :=
  if (lastscan + i <=? scan) && (i <=? pos) then
    match cnt with
    | O => None
    | S cnt =>
        o ← buf_get old (pos - i); n ← buf_get new (scan - i);
        let s := if o =? n then s + 1 else s in
        if Sb * 2 - lenb <? s * 2 - i
        then lenb_loop cnt lastscan scan pos (i + 1) s s i
        else lenb_loop cnt lastscan scan pos (i + 1) s Sb lenb
    end
  else Some lenb.

(** Where to cut when the two extensions overlap: [lens]. [fo], [fn], [bo] and
    [bn] are the start indices of the four reads. *)
Fixpoint overlap_loop (cnt : nat) (fn fo bn bo i s Ss lens : Z) : option Z :=
  match cnt with
  | O => Some lens
  | S cnt =>
      n1 ← buf_get new (fn + i); o1 ← buf_get old (fo + i);
      let s := if n1 =? o1 then s + 1 else s in
      n2 ← buf_get new (bn + i); o2 ← buf_get old (bo + i);
      let s := if n2 =? o2 then s - 1 else s in
      if Ss <? s
      then overlap_loop cnt fn fo bn bo (i + 1) s s (i + 1)
      else overlap_loop cnt fn fo bn bo (i + 1) s Ss lens
  end.

(** The variables that live across iterations of [while(scan<newsize)]. *)
Record bd_state := mk_bd {
  bd_scan : Z; bd_len : Z; bd_pos : Z;
  bd_lastscan : Z; bd_lastpos : Z; bd_lastoffset : Z;
  bd_ctrl : list (Z * Z * Z); bd_db : list Z; bd_eb : list Z
}.

(** The choice of [lenf] and [lenb] for the region ending at [scan]. *)
Definition extents (lastscan lastpos scan pos : Z) : option (Z * Z) :=
  lenf ← lenf_loop (Z.to_nat (scan - lastscan)) lastscan lastpos scan 0 0 0 0;
  lenb ← (if scan <? zlen new
          then lenb_loop (Z.to_nat (scan - lastscan)) lastscan scan pos 1 0 0 0
          else Some 0);
  if scan - lenb <? lastscan + lenf then
    let overlap := (lastscan + lenf) - (scan - lenb) in
    lens ← overlap_loop (Z.to_nat overlap) (lastscan + lenf - overlap) (lastpos + lenf - overlap)
             (scan - lenb) (pos - lenb) 0 0 0 0;
    Some (lenf + lens - overlap, lenb - lens)
  else Some (lenf, lenb).

(** The body of [if((len!=oldscore) || (scan==newsize))]: one control triple
    with its diff and extra bytes. *)
Definition emit (st : bd_state) (scan len pos : Z) : option bd_state :=
  let lastscan := bd_lastscan st in let lastpos := bd_lastpos st in
  '(lenf, lenb) ← extents lastscan lastpos scan pos;
  ns ← buf_slice new lastscan lenf; os ← buf_slice old lastpos lenf;
  ex ← buf_slice new (lastscan + lenf) ((scan - lenb) - (lastscan + lenf));
  Some (mk_bd scan len pos (scan - lenb) (pos - lenb) (pos - scan)
    (bd_ctrl st ++ [(lenf, (scan - lenb) - (lastscan + lenf), (pos - lenb) - (lastpos + lenf))])
    (bd_db st ++ zip_with (fun n o => wrap 8 (n - o)) ns os)
    (bd_eb st ++ ex)).

(** One iteration of [while(scan<newsize)]. *)
Definition bsdiff_step (st : bd_state) : option bd_state :=
  let start := bd_scan st + bd_len st in
  '(scan, len, pos, oldscore) ←
    scan_loop (Z.to_nat (zlen new - start)) (bd_lastoffset st) start start 0
      (bd_len st) (bd_pos st);
  if negb (len =? oldscore) || (scan =? zlen new) then emit st scan len pos
  else Some (mk_bd scan len pos (bd_lastscan st) (bd_lastpos st) (bd_lastoffset st)
               (bd_ctrl st) (bd_db st) (bd_eb st)).

Fixpoint bsdiff_loop (fuel : nat) (st : bd_state) : option bd_state :=
  if bd_scan st <? zlen new then
    match fuel with O => None | S fuel => st ← bsdiff_step st; bsdiff_loop fuel st end
  else Some st.

Definition bsdiff_init : bd_state := mk_bd 0 0 0 0 0 0 [] [] [].

(** [bsdiff(old, oldsize, &I, new, newsize, patch_filename)]: the contents of
    the patch file.  The loop runs at most [newsize + 1] times. *)
Definition bsdiff : option (list Z) :=
  st ← bsdiff_loop (S (length new)) bsdiff_init;
  Some (patch_file (bz_compress (encode_ctrls (bd_ctrl st))) (bz_compress (bd_db st))
          (bz_compress (bd_eb st)) (zlen new)).

End Bsdiff.

(** ** Suffix arrays *)

(** Lexicographic order; a proper prefix comes first. *)
Fixpoint lex_lt (a b : list Z) : Prop :=
  match a, b with
  | _, [] => False
  | [], _ :: _ => True
  | x :: a, y :: b => x < y \/ (x = y /\ lex_lt a b)
  end.

(** What [qsufsort] computes: all the positions of [old], its end included,
    in the order of the suffixes that start there. *)
Record suffix_array (II old : list Z) : Prop := {
  sa_perm : II ≡ₚ seqZ 0 (zlen old + 1);
  sa_sorted k1 k2 i1 i2 : (k1 < k2)%nat -> II !! k1 = Some i1 -> II !! k2 = Some i2 ->
    lex_lt (drop (Z.to_nat i1) old) (drop (Z.to_nat i2) old)
}.

(** The first byte of a suffix, -1 for the empty one. *)
Definition first_byte (l : list Z) : Z := match l with [] => -1 | a :: _ => a end.

Lemma lex_lt_first a b : bytes b -> lex_lt a b -> first_byte a <= first_byte b.
Proof. intros [|? ? [? ?]]; destruct a; simpl; intuition lia. Qed.

Lemma matchlen_bounds o n : 0 <= matchlen o n <= zlen n /\ matchlen o n <= zlen o.
Proof.
  revert n; induction o as [|a o IH]; intros [|b n]; simpl length; cbn [matchlen]; try lia.
  specialize (IH n). destruct (a =? b); lia.
Qed.

Lemma matchlen_first o b n : first_byte o = b -> 0 <= b -> 0 < matchlen o (b :: n).
Proof.
  destruct o as [|a o]; simpl; [lia|]. intros -> _. rewrite Z.eqb_refl.
  pose proof (matchlen_bounds o n). lia.
Qed.

Lemma memcmp_min_first o b n :
  bytes o -> is_byte b -> o ≠ [] ->
  (memcmp_min o (b :: n) < 0 -> first_byte o <= b) /\ (0 <= memcmp_min o (b :: n) -> b <= first_byte o).
Proof.
  intros Ho Hb. destruct o as [|a o]; [done|]. intros _. cbn [memcmp_min first_byte].
  destruct (Z.eqb_spec a b); lia.
Qed.

Section Search.
  Context (II old : list Z).
  Context (SA : suffix_array II old) (Hold : bytes old).

Lemma sa_length : zlen II = zlen old + 1.
Proof. destruct SA as [Hp _]. rewrite Hp, length_seqZ. lia. Qed.

Lemma sa_range i : i ∈ II -> 0 <= i <= zlen old.
Proof. destruct SA as [Hp _]. rewrite Hp, elem_of_seqZ. lia. Qed.

Lemma suffix_some k :
  0 <= k <= zlen old -> exists i, II !! Z.to_nat k = Some i /\ 0 <= i <= zlen old /\
    suffix II old k = Some (i, drop (Z.to_nat i) old).
Proof.
  intros Hk. pose proof sa_length.
  destruct (lookup_lt_is_Some_2 II (Z.to_nat k)) as [i Hi]; [lia|]. exists i.
  assert (0 <= i <= zlen old) as Hr by (apply sa_range, list_elem_of_lookup; eauto).
  split; [done|]. split; [done|]. unfold suffix, buf_get.
  rewrite (proj2 (Z.leb_le 0 k)), Hi by lia. cbn.
  now rewrite !(proj2 (Z.leb_le _ _)) by lia.
Qed.

(** The first byte of the suffix of rank [k]. *)
Definition rank_byte (k : Z) : Z :=
  match II !! Z.to_nat k with Some i => first_byte (drop (Z.to_nat i) old) | None => -1 end.

Lemma rank_byte_mono j k : 0 <= j <= k -> k <= zlen old -> rank_byte j <= rank_byte k.
Proof.
  intros Hjk Hk. destruct (suffix_some j) as (i1 & E1 & _); [lia|].
  destruct (suffix_some k) as (i2 & E2 & _); [lia|]. unfold rank_byte. rewrite E1, E2.
  destruct (Z.eq_dec j k) as [-> | Hne]; [replace i2 with i1 by congruence; lia|].
  apply lex_lt_first; [apply bytes_drop, Hold|].
  eapply (sa_sorted _ _ SA (Z.to_nat j) (Z.to_nat k)); eauto. lia.
Qed.

Lemma rank_nonempty k i :
  0 < k <= zlen old -> II !! Z.to_nat k = Some i -> drop (Z.to_nat i) old ≠ [].
Proof.
  intros Hk Hi He. destruct (suffix_some 0) as (i0 & E0 & _); [lia|].
  pose proof (sa_sorted _ _ SA (Z.to_nat 0) (Z.to_nat k) i0 i ltac:(lia) E0 Hi) as Hl.
  rewrite He in Hl. destruct (drop (Z.to_nat i0) old); done.
Qed.

(** [search] stays inside the arrays, terminates, and returns a match of at
    least one byte as long as some suffix in the range starts with that byte. *)
Lemma search_some fuel n st en :
  0 <= st <= en -> en <= zlen old -> en - st <= Z.of_nat fuel ->
  exists len pos, search II old fuel n st en = Some (len, pos) /\
    0 <= len <= zlen n /\ 0 <= pos /\ pos + len <= zlen old /\
    (forall b n', n = b :: n' -> is_byte b ->
       (exists k, st <= k <= en /\ rank_byte k = b) -> 0 < len).
Proof.
  revert st en. induction fuel as [|fuel IH]; intros st en Hst Hen Hf; cbn [search].
  all: destruct (Z.ltb_spec (en - st) 2) as [Hlt | Hge]; try lia.
  1,2: destruct (suffix_some st) as (i1 & E1 & R1 & ->); [lia|];
    destruct (suffix_some en) as (i2 & E2 & R2 & ->); [lia|]; cbn;
    pose proof (matchlen_bounds (drop (Z.to_nat i1) old) n);
    pose proof (matchlen_bounds (drop (Z.to_nat i2) old) n); rewrite !length_drop in *;
    assert (forall b n', n = b :: n' -> is_byte b -> (exists k, st <= k <= en /\ rank_byte k = b) ->
      0 < matchlen (drop (Z.to_nat i1) old) n \/ 0 < matchlen (drop (Z.to_nat i2) old) n)
      by (intros b n' -> [? ?] (k & Hk & Hb); unfold rank_byte in Hb;
          destruct (Z.eq_dec k st) as [-> | ];
          [left; rewrite E1 in Hb | right; replace k with en in Hb by lia; rewrite E2 in Hb];
          apply matchlen_first; auto; lia);
    destruct (Z.ltb_spec (matchlen (drop (Z.to_nat i2) old) n) (matchlen (drop (Z.to_nat i1) old) n));
    (do 2 eexists; repeat split; [lia..|]);
    intros b n' Hn Hb Hk; destruct (H1 b n' Hn Hb Hk); lia.
  pose proof (Z.div_le_upper_bound (en - st) 2 (en - st - 1) ltac:(lia) ltac:(lia)).
  pose proof (Z.div_le_lower_bound (en - st) 2 1 ltac:(lia) ltac:(lia)).
  set (x := st + (en - st) / 2) in *.
  destruct (suffix_some x) as (i & E & R & ->); [lia|]. cbn.
  pose proof (rank_nonempty x i ltac:(lia) E) as Hne.
  assert (rank_byte x = first_byte (drop (Z.to_nat i) old)) as Hrx
    by (unfold rank_byte; now rewrite E).
  destruct (Z.ltb_spec (memcmp_min (drop (Z.to_nat i) old) n) 0) as [Hm | Hm].
  - destruct (IH x en) as (len & pos & -> & Hl & Hp & Hpl & Hpos); [lia..|].
    exists len, pos. repeat split; try lia. intros b n' -> Hb (k & Hk & Hkb).
    eapply Hpos; eauto.
    destruct (memcmp_min_first _ b n' (bytes_drop _ _ Hold) Hb Hne) as [H1 _]. specialize (H1 Hm).
    destruct (Z_lt_ge_dec k x); [|exists k; split; [lia | done]].
    exists x. split; [lia|]. pose proof (rank_byte_mono k x). lia.
  - destruct (IH st x) as (len & pos & -> & Hl & Hp & Hpl & Hpos); [lia..|].
    exists len, pos. repeat split; try lia. intros b n' -> Hb (k & Hk & Hkb).
    eapply Hpos; eauto.
    destruct (memcmp_min_first _ b n' (bytes_drop _ _ Hold) Hb Hne) as [_ H1]. specialize (H1 Hm).
    destruct (Z_lt_ge_dec x k); [|exists k; split; [lia | done]].
    exists x. split; [lia|]. pose proof (rank_byte_mono x k). lia.
Qed.

(** Every byte of [old] is the first byte of some suffix. *)
Lemma rank_of_byte i b :
  0 <= i < zlen old -> buf_get old i = Some b ->
  exists k, 0 <= k <= zlen old /\ rank_byte k = b.
Proof.
  intros Hi [_ Hb]%buf_get_inv.
  assert (i ∈ II) as Hin by (destruct SA as [Hp _]; rewrite Hp; apply elem_of_seqZ; lia).
  apply list_elem_of_lookup in Hin as [k Hk]. exists (Z.of_nat k).
  pose proof (lookup_lt_Some _ _ _ Hk). pose proof sa_length.
  split; [lia|]. unfold rank_byte. rewrite Nat2Z.id, Hk.
  destruct (drop (Z.to_nat i) old) as [|c l] eqn:E.
  - apply (f_equal length) in E. rewrite length_drop in E. simpl in E. lia.
  - rewrite <- (Nat.add_0_r (Z.to_nat i)), <- lookup_drop, E in Hb. simpl in Hb. simpl. congruence.
Qed.

End Search.

(** ** The loops stay inside the arrays and return what the patch needs *)

Section Loops.
  Context (II old new : list Z).

(** [old_agrees] as a total function, for positions whose reads are in range. *)
Definition agrees (lastoffset k : Z) : bool := default false (old_agrees old new lastoffset k).

Lemma old_agrees_some lo k :
  0 <= k < zlen new -> 0 <= k + lo -> old_agrees old new lo k = Some (agrees lo k).
Proof.
  intros Hk Hlo. unfold agrees, old_agrees. destruct (Z.ltb_spec (k + lo) (zlen old)); [|done].
  destruct (buf_get_some old (k + lo)) as [o ->]; [lia|].
  destruct (buf_get_some new k) as [n ->]; [lia|]. done.
Qed.

(** The number of agreeing positions among the [cnt] that start at [a]. *)
Fixpoint agreeing (lo a : Z) (cnt : nat) : Z :=
  match cnt with O => 0 | S cnt => count_if (agrees lo a) 1 (agreeing lo (a + 1) cnt) end.

Lemma agreeing_nonneg lo a cnt : 0 <= agreeing lo a cnt.
Proof. revert a; induction cnt as [|c IH]; intros a; simpl; [lia|].
  specialize (IH (a + 1)). unfold count_if. destruct (agrees lo a); lia. Qed.

Lemma agreeing_app lo a c1 c2 :
  agreeing lo a (c1 + c2) = agreeing lo a c1 + agreeing lo (a + Z.of_nat c1) c2.
Proof.
  revert a; induction c1 as [|c1 IH]; intros a; simpl; [now rewrite Z.add_0_r|].
  rewrite IH. replace (a + 1 + Z.of_nat c1) with (a + Z.of_nat (S c1)) by lia.
  unfold count_if. destruct (agrees lo a); lia.
Qed.

Lemma score_loop_some cnt lo scsc os :
  0 <= scsc -> 0 <= scsc + lo -> scsc + Z.of_nat cnt <= zlen new ->
  score_loop old new cnt lo scsc os = Some (os + agreeing lo scsc cnt).
Proof.
  revert scsc os; induction cnt as [|cnt IH]; intros scsc os H0 Hlo Hn; cbn [score_loop agreeing].
  - f_equal; lia.
  - rewrite old_agrees_some by lia. cbn. rewrite IH by lia. f_equal.
    unfold count_if. destruct (agrees lo scsc); lia.
Qed.

(** Between iterations, [oldscore] counts the agreeing positions in
    [scan, scsc); [scsc] lags behind [scan] by at most one position, which
    does not agree. *)
Definition score_inv (lo scan scsc os : Z) : Prop :=
  (scan <= scsc /\ os = agreeing lo scan (Z.to_nat (scsc - scan))) \/
  (scsc = scan - 1 /\ os = 0 /\ agrees lo scsc = false).

Lemma score_inv_count lo scan scsc os e :
  score_inv lo scan scsc os -> scan <= e -> 
  os + agreeing lo scsc (Z.to_nat (e - scsc))
  = agreeing lo scan (Z.to_nat (Z.max scsc e - scan)).
Proof.
  intros [[Hle ->] | (-> & -> & Ha)] He.
  - destruct (Z_le_gt_dec scsc e).
    + rewrite Z.max_r by lia.
      replace (Z.to_nat (e - scan)) with (Z.to_nat (scsc - scan) + Z.to_nat (e - scsc))%nat by lia.
      rewrite agreeing_app. do 2 f_equal. lia.
    + rewrite Z.max_l by lia. replace (Z.to_nat (e - scsc)) with O by lia. simpl. lia.
  - rewrite Z.max_r by lia. replace (Z.to_nat (e - (scan - 1))) with (S (Z.to_nat (e - scan))) by lia.
    cbn [agreeing]. rewrite Ha. unfold count_if.
    replace (scan - 1 + 1) with scan by lia. lia.
Qed.

Lemma score_inv_next lo scan scsc :
  scan <= scsc -> (agrees lo scan = true -> scan < scsc) ->
  score_inv lo (scan + 1) scsc
    (count_if (agrees lo scan) (-1) (agreeing lo scan (Z.to_nat (scsc - scan)))).
Proof.
  intros Hle Ha. destruct (Z.eq_dec scan scsc) as [-> | Hne].
  - right. replace (Z.to_nat (scsc - scsc)) with O by lia. simpl.
    destruct (agrees lo scsc); [specialize (Ha eq_refl); lia|]. repeat split; lia.
  - left. split; [lia|]. replace (Z.to_nat (scsc - scan)) with (S (Z.to_nat (scsc - (scan + 1)))) by lia.
    cbn [agreeing]. unfold count_if. destruct (agrees lo scan); lia.
Qed.

Context (SA : suffix_array II old) (Hold : bytes old) (Hnew : bytes new).

(** A position that agrees with [old] makes [search] find something. *)
Lemma search_at scan :
  0 <= scan < zlen new ->
  exists len pos, search II old (length II) (drop (Z.to_nat scan) new) 0 (zlen old) = Some (len, pos) /\
    0 <= len /\ scan + len <= zlen new /\ 0 <= pos /\ pos + len <= zlen old /\
    (forall lo, agrees lo scan = true -> 0 <= scan + lo -> 0 < len).
Proof.
  intros Hs. pose proof (sa_length II old SA).
  destruct (search_some II old SA Hold (length II) (drop (Z.to_nat scan) new) 0 (zlen old))
    as (len & pos & E & Hl & Hp & Hpl & Hf); [lia..|].
  exists len, pos. rewrite length_drop in Hl. repeat split; try lia; [done|].
  intros lo Ha Hlo. unfold agrees, old_agrees in Ha.
  destruct (Z.ltb_spec (scan + lo) (zlen old)); [|discriminate].
  destruct (buf_get old (scan + lo)) as [o|] eqn:Eo; [|discriminate].
  destruct (buf_get new scan) as [n|] eqn:En; [|discriminate]. cbn in Ha.
  apply Z.eqb_eq in Ha as ->. apply buf_get_inv in En as [_ En].
  eapply (Hf n (drop (S (Z.to_nat scan)) new)).
  - by apply drop_S.
  - eapply Forall_lookup_1; [exact Hnew | exact En].
  - apply (rank_of_byte II old SA (scan + lo) n); [lia | exact Eo].
Qed.

Lemma scan_loop_some cnt lo scan scsc os len pos :
  0 <= scan <= zlen new -> 0 <= scsc <= zlen new -> 0 <= scan + lo -> 0 <= scsc + lo ->
  zlen new - scan <= Z.of_nat cnt -> score_inv lo scan scsc os -> 0 <= pos <= zlen old ->
  exists scan' len' pos' os',
    scan_loop II old new cnt lo scan scsc os len pos = Some (scan', len', pos', os') /\
    scan <= scan' <= zlen new /\ 0 <= pos' <= zlen old /\
    (scan' < zlen new -> 0 < len' /\ scan' + len' <= zlen new).
Proof.
  revert scan scsc os len pos.
  induction cnt as [|cnt IH]; intros scan scsc os len pos Hs Hsc Hlo Hlo2 Hc Hinv Hpos;
    cbn [scan_loop]; destruct (Z.ltb_spec scan (zlen new)) as [Hlt|Hge];
    try lia; try (do 4 eexists; repeat split; lia).
  destruct (search_at scan) as (len1 & pos1 & -> & Hl & Hl2 & Hp & Hpl & Hf); [lia|]. cbn.
  rewrite score_loop_some by lia. cbn.
  rewrite (score_inv_count lo scan scsc os (scan + len1)) by (auto; lia).
  set (scsc1 := Z.max scsc (scan + len1)) in *.
  pose proof (agreeing_nonneg lo scan (Z.to_nat (scsc1 - scan))) as Hnn.
  set (os1 := agreeing lo scan (Z.to_nat (scsc1 - scan))) in *.
  destruct (_ || _) eqn:Eb.
  - do 4 eexists. split; [done|]. repeat split; lia.
  - rewrite old_agrees_some by lia. cbn.
    edestruct (IH (scan + 1) scsc1 (count_if (agrees lo scan) (-1) os1) len1 pos1)
      as (s' & l' & p' & o' & -> & H1 & H2 & H3); try lia.
    { apply score_inv_next; [lia|]. intros Ha. specialize (Hf lo Ha ltac:(lia)). lia. }
    do 4 eexists. split; [done|]. repeat split; try lia; apply H3; lia.
Qed.

Lemma lenf_loop_some cnt ls lp scan i s Sf lenf :
  0 <= ls -> 0 <= lp <= zlen old -> ls <= scan <= zlen new -> 0 <= i ->
  scan - (ls + i) <= Z.of_nat cnt ->
  0 <= lenf -> ls + lenf <= scan -> lp + lenf <= zlen old ->
  exists f, lenf_loop old new cnt ls lp scan i s Sf lenf = Some f /\
    0 <= f /\ ls + f <= scan /\ lp + f <= zlen old.
Proof.
  revert i s Sf lenf. induction cnt as [|cnt IH]; intros i s Sf lenf H1 H2 H3 H4 H5 H6 H7 H8;
    cbn [lenf_loop]; destruct (_ && _) eqn:E; bool_to_prop; try lia; eauto.
  destruct (buf_get_some old (lp + i)) as [o ->]; [lia|].
  destruct (buf_get_some new (ls + i)) as [n ->]; [lia|]. cbn.
  case_bools; apply IH; lia.
Qed.

Lemma lenb_loop_some cnt ls scan pos i s Sb lenb :
  0 <= ls <= scan -> scan < zlen new -> 0 <= pos <= zlen old -> 1 <= i ->
  scan - (ls + i) < Z.of_nat cnt ->
  0 <= lenb -> ls + lenb <= scan -> lenb <= pos ->
  exists b, lenb_loop old new cnt ls scan pos i s Sb lenb = Some b /\
    0 <= b /\ ls + b <= scan /\ b <= pos.
Proof.
  revert i s Sb lenb. induction cnt as [|cnt IH]; intros i s Sb lenb H1 H2 H3 H4 H5 H6 H7 H8;
    cbn [lenb_loop]; destruct (_ && _) eqn:E; bool_to_prop; try lia; eauto.
  destruct (buf_get_some old (pos - i)) as [o ->]; [lia|].
  destruct (buf_get_some new (scan - i)) as [n ->]; [lia|]. cbn.
  case_bools; apply IH; lia.
Qed.

Lemma overlap_loop_some cnt fn fo bn bo i s Ss lens :
  0 <= fn -> 0 <= fo -> 0 <= bn -> 0 <= bo -> 0 <= i ->
  fn + i + Z.of_nat cnt <= zlen new -> fo + i + Z.of_nat cnt <= zlen old ->
  bn + i + Z.of_nat cnt <= zlen new -> bo + i + Z.of_nat cnt <= zlen old ->
  0 <= lens <= i ->
  exists l, overlap_loop old new cnt fn fo bn bo i s Ss lens = Some l /\ 0 <= l <= i + Z.of_nat cnt.
Proof.
  revert i s Ss lens. induction cnt as [|cnt IH]; intros; cbn [overlap_loop]; [eexists; split; [done|lia]|].
  destruct (buf_get_some new (fn + i)) as [? ->]; [lia|].
  destruct (buf_get_some old (fo + i)) as [? ->]; [lia|]. cbn.
  destruct (buf_get_some new (bn + i)) as [? ->]; [lia|]. cbn.
  destruct (buf_get_some old (bo + i)) as [? ->]; [lia|]. cbn.
  case_bools; edestruct IH as (l & -> & Hl); try lia; eexists; (split; [done | lia]).
Qed.

(** The two extents fit: the diffed part lies in both files, the extra part
    has a length, and the new read position of [old] is a position of [old]. *)
Lemma extents_some ls lp scan pos :
  0 <= ls <= scan -> scan <= zlen new -> 0 <= lp <= zlen old -> 0 <= pos <= zlen old ->
  exists f b, extents old new ls lp scan pos = Some (f, b) /\
    0 <= f /\ 0 <= b /\ ls + f <= scan - b /\ lp + f <= zlen old /\ b <= pos /\
    (scan = zlen new -> b = 0).
Proof.
  intros Hls Hs Hlp Hp. unfold extents.
  destruct (lenf_loop_some (Z.to_nat (scan - ls)) ls lp scan 0 0 0 0) as (f & -> & F1 & F2 & F3);
    [lia..|]. cbn.
  assert (exists b, (if scan <? zlen new
          then lenb_loop old new (Z.to_nat (scan - ls)) ls scan pos 1 0 0 0 else Some 0) = Some b /\
    0 <= b /\ ls + b <= scan /\ b <= pos /\ (scan = zlen new -> b = 0)) as (b & -> & B1 & B2 & B3 & B4).
  { destruct (Z.ltb_spec scan (zlen new)); [|exists 0; repeat split; lia].
    destruct (lenb_loop_some (Z.to_nat (scan - ls)) ls scan pos 1 0 0 0) as (b & -> & ?); [lia..|].
    exists b. repeat split; lia. }
  cbn. destruct (Z.ltb_spec (scan - b) (ls + f)).
  - destruct (overlap_loop_some (Z.to_nat (ls + f - (scan - b))) (ls + f - (ls + f - (scan - b)))
      (lp + f - (ls + f - (scan - b))) (scan - b) (pos - b) 0 0 0 0) as (l & -> & L); [lia..|].
    cbn. do 2 eexists. repeat split; lia.
  - do 2 eexists. repeat split; lia.
Qed.

End Loops.

(** ** The emitted script *)

(** The read position of [old] after a list of triples. *)
Fixpoint seek_end (p : Z) (cs : list (Z * Z * Z)) : Z :=
  match cs with [] => p | (x, _, z) :: cs => seek_end (p + x + z) cs end.

Lemma seek_end_app p cs1 cs2 : seek_end p (cs1 ++ cs2) = seek_end (seek_end p cs1) cs2.
Proof. revert p; induction cs1 as [|[[x y] z] cs1 IH]; intros p; simpl; auto. Qed.

Lemma script_app old p cs1 d1 e1 o1 cs2 d2 e2 o2 :
  script old p cs1 d1 e1 o1 -> script old (seek_end p cs1) cs2 d2 e2 o2 ->
  script old p (cs1 ++ cs2) (d1 ++ d2) (e1 ++ e2) (o1 ++ o2).
Proof.
  induction 1 as [p | p x y z cs d ext seg diff extra out]; intros Hs2; simpl in *; [done|].
  rewrite <- !app_assoc. constructor; auto.
Qed.

Lemma offtout_bytes x : Z.abs x < 2 ^ 63 -> bytes (offtout x).
Proof.
  intros Hx. destruct (offtout_shape x Hx) as (b0&b1&b2&b3&b4&b5&b6&b7&He&H7&->).
  pose proof (le_encode_bytes 8 (Z.abs x)) as Hb. rewrite He in Hb.
  unfold bytes in *. rewrite !Forall_cons_iff in *. destruct (x <? 0); [|tauto].
  assert (is_byte (b7 .| 128)); [|tauto].
  change 128 with (1 <<< 7). rewrite lor_shiftl_add by lia. unfold is_byte. lia.
Qed.

Lemma encode_ctrls_bytes old p cs diff extra out :
  script old p cs diff extra out -> zlen out < 2 ^ 31 -> bytes (encode_ctrls cs).
Proof.
  induction 1 as [|p x y z cs d ext seg diff extra out Hx Hy Hpx Hpxz Hz Hs Hsc IH]; intros Hl;
    [constructor|].
  apply add_old_length in Hs. rewrite !length_app in Hl.
  change (bytes ((offtout x ++ offtout y ++ offtout z) ++ encode_ctrls cs)). rewrite !bytes_app.
  repeat split; try (apply offtout_bytes; lia). apply IH. lia.
Qed.

Section Emission.
  Context (II old new : list Z).
  Context (SA : suffix_array II old) (Hold : bytes old) (Hnew : bytes new).
  Context (Hso : zlen old < 2 ^ 31) (Hsn : zlen new < 2 ^ 31).

(** The triples emitted so far describe the prefix of [new] up to [lastscan]. *)
Record emitted (st : bd_state) : Prop := {
  em_lastscan : 0 <= bd_lastscan st <= zlen new;
  em_lastpos : 0 <= bd_lastpos st <= zlen old;
  em_script : script old 0 (bd_ctrl st) (bd_db st) (bd_eb st)
                (take (Z.to_nat (bd_lastscan st)) new);
  em_seek : seek_end 0 (bd_ctrl st) = bd_lastpos st;
  em_db : bytes (bd_db st);
  em_eb : bytes (bd_eb st)
}.

(** One triple: the diff against [old] at [lp], then the extra bytes. *)
Lemma script_one lp seg ex z :
  0 <= lp -> lp + zlen seg <= zlen old -> bytes seg -> in_s 32 (lp + zlen seg + z) ->
  Z.abs z < 2 ^ 31 ->
  script old lp [(zlen seg, zlen ex, z)]
    (zip_with (fun n o => wrap 8 (n - o)) seg (drop (Z.to_nat lp) old)) ex (seg ++ ex).
Proof.
  intros H0 Hle Hb Hz Hz2. set (d := zip_with _ seg _).
  assert (zlen d = zlen seg) as Hd by (unfold d; rewrite length_zip_with, length_drop; lia).
  pose proof (script_cons old lp (zlen seg) (zlen ex) z [] d ex seg [] [] []) as Hc.
  rewrite !app_nil_r in Hc. apply Hc; auto; [unfold in_s; lia | | constructor].
  pose proof (add_old_exact old lp 0 seg) as Ha. rewrite Z.add_0_r in Ha. apply Ha; auto; lia.
Qed.

Lemma take_three (l : list Z) a b c :
  0 <= a -> 0 <= b -> a + b <= c ->
  take (Z.to_nat c) l = take (Z.to_nat a) l ++ take (Z.to_nat b) (drop (Z.to_nat a) l) ++
    take (Z.to_nat (c - (a + b))) (drop (Z.to_nat (a + b)) l).
Proof.
  intros. rewrite app_assoc, take_take_drop.
  replace (Z.to_nat (a + b)) with (Z.to_nat a + Z.to_nat b)%nat by lia.
  rewrite take_take_drop. f_equal. lia.
Qed.

Lemma zip_wrap_bytes (l k : list Z) : bytes (zip_with (fun n o => wrap 8 (n - o)) l k).
Proof.
  revert k; induction l as [|a l IH]; intros [|b k]; simpl; constructor; [|apply IH].
  apply (wrap_range 8). lia.
Qed.

Lemma emit_some st scan len pos :
  emitted st -> bd_lastscan st <= scan <= zlen new -> 0 <= pos <= zlen old ->
  exists st', emit old new st scan len pos = Some st' /\ emitted st' /\
    bd_scan st' = scan /\ bd_len st' = len /\ bd_pos st' = pos /\ bd_lastoffset st' = pos - scan /\
    bd_lastscan st' <= scan /\ (scan = zlen new -> bd_lastscan st' = zlen new) /\
    length (bd_ctrl st') = S (length (bd_ctrl st)).
Proof.
  intros [E1 E2 E3 E4 E5 E6] Hs Hp. unfold emit.
  destruct (extents_some old new (bd_lastscan st) (bd_lastpos st) scan pos)
    as (f & b & -> & F1 & F2 & F3 & F4 & F5 & F6); [lia..|].
  cbn. rewrite (buf_slice_some new) by lia. cbn. rewrite (buf_slice_some old) by lia. cbn.
  rewrite (buf_slice_some new) by lia. cbn.
  set (ls := bd_lastscan st) in *. set (lp := bd_lastpos st) in *.
  set (seg := take (Z.to_nat f) (drop (Z.to_nat ls) new)).
  set (ex := take (Z.to_nat (scan - b - (ls + f))) (drop (Z.to_nat (ls + f)) new)).
  assert (zlen seg = f) as Hseg by (unfold seg; rewrite length_take, length_drop; lia).
  assert (zlen ex = scan - b - (ls + f)) as Hex by (unfold ex; rewrite length_take, length_drop; lia).
  rewrite (zip_with_take_r' _ (Z.to_nat f) seg) by lia.
  eexists. split; [done|]. split; [|cbn; rewrite length_app; simpl; repeat split; lia].
  split; cbn; try lia.
  - rewrite (take_three new ls f (scan - b)) by lia. fold seg ex.
    apply script_app; [done|]. rewrite E4, <- Hex, <- Hseg.
    apply script_one; [lia | lia | unfold seg; auto with recovery | unfold in_s; lia | lia].
  - rewrite seek_end_app, E4. simpl. lia.
  - apply bytes_app. split; [done | apply zip_wrap_bytes].
  - apply bytes_app. split; [done|]. unfold ex. auto with recovery.
Qed.

(** The invariant of [while(scan<newsize)]. *)
Record bd_inv (st : bd_state) : Prop := {
  inv_emitted : emitted st;
  inv_scan : bd_lastscan st <= bd_scan st <= zlen new;
  inv_pos : 0 <= bd_pos st <= zlen old;
  inv_offset : 0 <= bd_scan st + bd_lastoffset st;
  inv_len : bd_scan st < zlen new -> 0 <= bd_len st /\ bd_scan st + bd_len st <= zlen new;
  inv_end : bd_scan st = zlen new -> bd_lastscan st = zlen new
}.

Lemma bsdiff_step_some st :
  bd_inv st -> bd_scan st < zlen new ->
  exists st', bsdiff_step II old new st = Some st' /\ bd_inv st' /\
    (length (bd_ctrl st') <= S (length (bd_ctrl st)))%nat /\
    (bd_scan st' < zlen new -> bd_scan st + bd_len st < bd_scan st' + bd_len st').
Proof.
  intros [Hem Hsc Hpos Hoff Hlen _] Hlt. destruct (Hlen Hlt) as [Hl1 Hl2].
  pose proof (em_lastscan _ Hem). unfold bsdiff_step.
  set (start := bd_scan st + bd_len st) in *.
  destruct (scan_loop_some II old new SA Hold Hnew (Z.to_nat (zlen new - start)) (bd_lastoffset st)
    start start 0 (bd_len st) (bd_pos st)) as (scan & len & pos & os & -> & S1 & S2 & S3); try lia.
  { left. split; [lia|]. now replace (Z.to_nat (start - start)) with O by lia. }
  cbn. destruct (_ || _) eqn:E.
  - destruct (emit_some st scan len pos) as (st' & -> & H1 & H2 & H3 & H4 & H5 & H6 & H7 & H8);
      [done | lia | lia |].
    exists st'. split; [done|]. split; [|split; lia].
    split; rewrite ?H2, ?H3, ?H4, ?H5; try done; lia.
  - eexists. split; [done|]. split; [|cbn; split; lia].
    split; cbn; try done; try lia. by destruct Hem.
Qed.

Lemma bsdiff_loop_some fuel st :
  bd_inv st -> (bd_scan st < zlen new -> zlen new - (bd_scan st + bd_len st) < Z.of_nat fuel) ->
  exists st', bsdiff_loop II old new fuel st = Some st' /\ bd_inv st' /\
    bd_scan st' = zlen new /\ (length (bd_ctrl st') <= length (bd_ctrl st) + fuel)%nat.
Proof.
  revert st; induction fuel as [|fuel IH]; intros st Hinv Hf; cbn [bsdiff_loop];
    pose proof (inv_scan _ Hinv);
    (destruct (Z.ltb_spec (bd_scan st) (zlen new)) as [Hlt|Hge];
      [|exists st; split; [done|]; split; [done|]; split; lia]).
  - pose proof (inv_len _ Hinv Hlt). lia.
  - destruct (bsdiff_step_some st Hinv Hlt) as (st1 & -> & Hinv1 & Hc & Hm). cbn.
    destruct (IH st1 Hinv1) as (st' & -> & Hinv' & Hs & Hc'); [lia|].
    exists st'. split; [done|]. split; [done|]. split; lia.
Qed.

Lemma bsdiff_init_inv : bd_inv bsdiff_init.
Proof. split; cbn; try lia. split; cbn; try lia; constructor. Qed.

End Emission.

(** The patch that [bsdiff] makes gives the new file back wherever it is embedded
    and whatever follows the old file in memory. *)
Lemma bsdiff_embedded {B : BzLib} {BS : BzSpec B} malloc_ok fuel (II old new : list Z) :
  suffix_array II old -> bytes old -> bytes new ->
  zlen old < 2 ^ 31 -> zlen new < 2 ^ 31 -> malloc_ok (zlen new) = true ->
  zlen new + 24 <= Z.of_nat fuel ->
  exists patch, bsdiff II old new = Some patch /\
    forall pre post rest, zlen pre + zlen patch + zlen post < 2 ^ 31 ->
     ApplyBSDiffPatchMem malloc_ok fuel (old ++ rest) (zlen old) (pre ++ patch ++ post) (zlen pre) = Done new.
Proof.
  intros SA Ho Hn Hlo Hln Hm Hf. unfold bsdiff.
  destruct (bsdiff_loop_some II old new SA Ho Hn Hlo (S (length new)) bsdiff_init
    (bsdiff_init_inv old new)) as (st & -> & Hinv & Hs & Hc); [cbn; lia|].
  cbn [mbind option_bind]. eexists. split; [done|]. intros pre post rest Hp.
  destruct Hinv as [[_ _ Hsc _ Hdb Heb] _ _ _ _ Hend].
  rewrite (Hend Hs), Nat2Z.id, take_ge in Hsc by lia. rewrite ApplyBSDiffPatchMem_tail.
  apply ApplyBSDiffPatchMem_script_post; auto; try lia; [eauto using encode_ctrls_bytes|].
  cbn in Hc. lia.
Qed.

(** ** Properties *)

(** [C6] Diff then patch is the identity: for any two files below 2 GiB, any
    suffix array of the old one and any codec that behaves as libbz2
    documents, [bsdiff] terminates without reading outside its arrays, and
    [ApplyBSDiffPatchMem] applied to the patch it writes - embedded at any
    offset of a patch file that stays below 2 GiB - returns the new file. *)
Theorem bsdiff_bspatch_roundtrip {B : BzLib} {BS : BzSpec B} malloc_ok fuel
    (II old new pre : list Z) :
  suffix_array II old -> bytes old -> bytes new ->
  zlen old < 2 ^ 31 -> zlen new < 2 ^ 31 -> malloc_ok (zlen new) = true ->
  zlen new + 24 <= Z.of_nat fuel ->
  exists patch, bsdiff II old new = Some patch /\
    (zlen pre + zlen patch < 2 ^ 31 ->
     ApplyBSDiffPatchMem malloc_ok fuel old (zlen old) (pre ++ patch) (zlen pre) = Done new).
Proof.
  intros SA Ho Hn Hlo Hln Hm Hf. destruct (bsdiff_embedded malloc_ok fuel II old new) as (patch & E & H); auto.
  exists patch. split; [done|]. intros Hp. specialize (H pre [] []). rewrite !app_nil_r in H. apply H. cbn. lia.
Qed.

Lemma bsdiff_bspatch_roundtrip_witness :
  exists patch, bsdiff (B := framed_bz) [2; 1; 0] [7; 5] [5; 7; 7] = Some patch /\
    (zlen [0] + zlen patch < 2 ^ 31 ->
     ApplyBSDiffPatchMem (B := framed_bz) (fun _ => true) 27 [7; 5] 2 ([0] ++ patch) 1
       = Done [5; 7; 7]).
Proof.
  apply (bsdiff_bspatch_roundtrip (B := framed_bz) (fun _ => true) 27 [2; 1; 0] [7; 5] [5; 7; 7] [0]);
    try done; try by_decide.
  split.
  - vm_compute. apply (Permutation_rev [2; 1; 0]).
  - intros k1 k2 i1 i2 Hlt H1 H2.
    destruct k1 as [|[|[|?]]], k2 as [|[|[|?]]]; simpl in *; try lia; simplify_eq; simpl; lia.
Defined.
