(* ===== verification/HashTable.v ===== *)
(** * The open-addressing hash table of minzip ([minzip/Hash.c], [Hash.h])

    A table of [tableSize] slots, a power of two; a lookup starts at
    [itemHash & (tableSize-1)] and probes linearly with wrap-around until it
    meets the item or a NULL slot.  Items are opaque pointers compared by
    [cmpFunc]; [calloc_ok] says whether an allocation of that many slots
    succeeds.  The [int] fields are modelled as integers: they stay below 2^31
    for tables of at most 2^28 slots.  [assert] is the
    debug build's; the asserted facts are proved. *)
From S2P Require Import Prelude.

(** ** Sizes *)

Definition LOAD_NUMER : Z := 5.
Definition LOAD_DENOM : Z := 8.

Definition mzHashSize (size : Z) : Z := wrap 32 (wrap 32 (size * LOAD_DENOM) / LOAD_NUMER + 1).

(** [val |= val >> n]. *)
Definition smear (n val : Z) : Z := val .| (val >>> n).

Definition roundUpPower2 (val : Z) : Z :=
  let val := wrap 32 (val - 1) in
  let val := smear 1 val in
  let val := smear 2 val in
  let val := smear 4 val in
  let val := smear 8 val in
  let val := smear 16 val in
  wrap 32 (val + 1).

(** ** The table *)

Section HashTable.
  Context {item : Type} `{EqDecision item}.

(** An entry by its [data] field: NULL, [HASH_TOMBSTONE], or an item with the
    hash it was added under. *)
Inductive HashEntry :=
  | NULL
  | HASH_TOMBSTONE
  | Live (hashValue : Z) (data : item).

Record HashTable := mkHashTable {
  tableSize : Z;
  numEntries : Z;
  numDeadEntries : Z;
  pEntries : list HashEntry
}.

  Context (cmpFunc : item -> item -> Z).
  Context (calloc_ok : Z -> bool).

(** [mzHashTableCreate(initialSize, freeFunc)]. *)
Definition mzHashTableCreate (initialSize : Z) : option HashTable :=
  let tableSize := roundUpPower2 initialSize in
  if calloc_ok tableSize
  then Some (mkHashTable tableSize 0 0 (replicate (Z.to_nat tableSize) NULL))
  else None.

(** The items handed to [freeFunc], in order, and the cleared table. *)
Definition mzHashTableClear (t : HashTable) : list item * HashTable :=
  (omap (fun e => match e with Live _ x => Some x | _ => None end) (pEntries t),
   mkHashTable (tableSize t) 0 0
     ((fun e => match e with HASH_TOMBSTONE => NULL | NULL => NULL | Live _ _ => NULL end)
        <$> pEntries t)).

Definition is_null (e : HashEntry) : bool := match e with NULL => true | _ => false end.
Definition is_tomb (e : HashEntry) : bool := match e with HASH_TOMBSTONE => true | _ => false end.

Definition countTombStones (t : HashTable) : Z :=
  zlen (filter (fun e => is_tomb e = true) (pEntries t)).

(** [while (pNewEntries[newIdx].data != NULL) newIdx = (newIdx + 1) & (newSize-1);] *)
Fixpoint resize_probe (fuel : nat) (entries : list HashEntry) (newSize newIdx : Z) : outcome Z :=
  match entries !! Z.to_nat newIdx with
  | None => Undef
  | Some NULL => Done newIdx
  | Some _ =>
      match fuel with
      | O => Diverge
      | S fuel => resize_probe fuel entries newSize ((newIdx + 1) .& (newSize - 1))
      end
  end.

(** The body of [resizeHash]'s loop, for one old entry.  The hash goes through
    an [int]. *)
Definition resize_move (newSize : Z) (entries : list HashEntry) (e : HashEntry)
  : outcome (list HashEntry) :=
  match e with
  | Live h data =>
      let hashValue := swrap 32 h in
      newIdx ← resize_probe (Z.to_nat newSize) entries newSize (hashValue .& (newSize - 1));
      Done (<[Z.to_nat newIdx := Live (wrap 32 hashValue) data]> entries)
  | _ => Done entries
  end.

Fixpoint resize_loop (newSize : Z) (old entries : list HashEntry) : outcome (list HashEntry) :=
  match old with
  | [] => Done entries
  | e :: old => entries ← resize_move newSize entries e; resize_loop newSize old entries
  end.

(** [resizeHash]; [Fail 0] is [return false]. *)
Definition resizeHash (t : HashTable) (newSize : Z) : outcome HashTable :=
  if negb (calloc_ok newSize) then Fail 0 else
  entries ← resize_loop newSize (pEntries t) (replicate (Z.to_nat newSize) NULL);
  Done (mkHashTable newSize (numEntries t) 0 entries).

(** The probe loop of [mzHashTableLookup], [mzHashTableRemove] and
    [countProbes]: the index it stops at and how often it stepped.  When the
    only entry of a one-entry table does not match, the code breaks out with
    the pointer past the array and reads there: [Undef]. *)
Fixpoint probe (fuel : nat) (t : HashTable) (hit : HashEntry -> bool) (i count : Z)
  : outcome (Z * Z) :=
  match pEntries t !! Z.to_nat i with
  | None => Undef
  | Some e =>
      if is_null e || hit e then Done (i, count)
      else match fuel with
      | O => Diverge
      | S fuel =>
          if i + 1 =? tableSize t
          then if tableSize t =? 1 then Undef else probe fuel t hit 0 (count + 1)
          else probe fuel t hit (i + 1) (count + 1)
      end
  end.

(** The match test of [mzHashTableLookup]. *)
Definition lookup_hit (itemHash : Z) (it : item) (e : HashEntry) : bool :=
  match e with Live h x => (h =? itemHash) && (cmpFunc x it =? 0) | _ => false end.

(** The match test of [mzHashTableRemove]: pointer equality. *)
Definition remove_hit (it : item) (e : HashEntry) : bool :=
  match e with Live _ x => bool_decide (x = it) | _ => false end.

Definition entry_item (e : HashEntry) : option item :=
  match e with Live _ x => Some x | _ => None end.

(** [mzHashTableLookup]; [abort()] on a failed resize is [Fail 134]. *)
Definition mzHashTableLookup (t : HashTable) (itemHash : Z) (it : item) (doAdd : bool)
  : outcome (HashTable * option item) :=
  '(i, _) ← probe (Z.to_nat (tableSize t)) t (lookup_hit itemHash it)
              (itemHash .& (tableSize t - 1)) 0;
  e ← access (pEntries t !! Z.to_nat i);
  if is_null e then
    if doAdd then
      let t := mkHashTable (tableSize t) (numEntries t + 1) (numDeadEntries t)
                 (<[Z.to_nat i := Live itemHash it]> (pEntries t)) in
      if tableSize t * LOAD_NUMER <? (numEntries t + numDeadEntries t) * LOAD_DENOM
      then match resizeHash t (tableSize t * 2) with
           | Done t => Done (t, Some it)
           | Fail _ => Fail 134
           | Undef => Undef
           | Diverge => Diverge
           end
      else Done (t, Some it)
    else Done (t, None)
  else Done (t, entry_item e).

(** [mzHashTableRemove]. *)
Definition mzHashTableRemove (t : HashTable) (itemHash : Z) (it : item)
  : outcome (HashTable * bool) :=
  '(i, _) ← probe (Z.to_nat (tableSize t)) t (remove_hit it) (itemHash .& (tableSize t - 1)) 0;
  e ← access (pEntries t !! Z.to_nat i);
  if is_null e then Done (t, false)
  else Done (mkHashTable (tableSize t) (numEntries t - 1) (numDeadEntries t + 1)
               (<[Z.to_nat i := HASH_TOMBSTONE]> (pEntries t)), true).

(** [mzHashForeach]; [func] may change the state [A] its argument leads to. *)
Fixpoint foreach_loop {A} (func : item -> A -> Z * A) (es : list HashEntry) (arg : A) : Z * A :=
  match es with
  | [] => (0, arg)
  | Live _ x :: es =>
      let '(val, arg) := func x arg in
      if val =? 0 then foreach_loop func es arg else (val, arg)
  | _ :: es => foreach_loop func es arg
  end.

Definition mzHashForeach {A} (t : HashTable) (func : item -> A -> Z * A) (arg : A) : Z * A :=
  foreach_loop func (pEntries t) arg.

(** [countProbes]. *)
Definition countProbes (t : HashTable) (itemHash : Z) (it : item) : outcome Z :=
  '(i, count) ← probe (Z.to_nat (tableSize t)) t (lookup_hit itemHash it)
                  (itemHash .& (tableSize t - 1)) 0;
  e ← access (pEntries t !! Z.to_nat i);
  if is_null e then Done (-1) else Done count.

(** [mzHashIterNext]: the first index from [i] on that holds an item, or the
    table size. *)
Fixpoint iter_next (es : list HashEntry) (i : Z) : Z :=
  match es with
  | [] => i
  | Live _ _ :: _ => i
  | _ :: es => iter_next es (i + 1)
  end.

Definition mzHashIterNext (t : HashTable) (idx : Z) : Z :=
  iter_next (drop (Z.to_nat (idx + 1)) (pEntries t)) (idx + 1).

Definition mzHashIterBegin (t : HashTable) : Z := mzHashIterNext t (-1).
Definition mzHashIterDone (t : HashTable) (idx : Z) : bool := tableSize t <=? idx.

End HashTable.

Arguments HashEntry : clear implicits.
Arguments HashTable : clear implicits.

(** ** Rounding up *)

(** [a] has the bits of [x] smeared down over [n] positions. *)
Definition smeared (n x a : Z) : Prop :=
  0 <= a /\ forall i, 0 <= i ->
    Z.testbit a i = true <-> exists j, 0 <= j < n /\ Z.testbit x (i + j) = true.

Lemma smear_step n x a : 0 < n -> smeared n x a -> smeared (2 * n) x (smear n a).
Proof.
  intros Hn [Ha H]. split.
  { apply Z.lor_nonneg. split; [done|]. now apply Z.shiftr_nonneg. }
  intros i Hi. unfold smear. rewrite Z.lor_spec, Z.shiftr_spec, orb_true_iff, !H by lia.
  split.
  - intros [(j & Hj & Hb) | (j & Hj & Hb)]; [exists j | exists (n + j)];
      (split; [lia|]); rewrite <- Hb; f_equal; lia.
  - intros (j & Hj & Hb). destruct (Z_lt_ge_dec j n); [left; exists j | right; exists (j - n)];
      (split; [lia|]); rewrite <- Hb; f_equal; lia.
Qed.

Lemma smeared_all x a : 0 < x < 2 ^ 32 -> smeared 32 x a -> a = 2 ^ (Z.log2 x + 1) - 1.
Proof.
  intros Hx [Ha H]. assert (0 <= Z.log2 x < 32) as Hl
    by (split; [apply Z.log2_nonneg | apply Z.log2_lt_pow2; lia]).
  rewrite Z.sub_1_r, <- Z.ones_equiv. apply Z.bits_inj'. intros i Hi.
  rewrite Z.testbit_ones_nonneg by lia. apply eq_bool_prop_intro.
  rewrite !Is_true_true, H, Z.ltb_lt by lia. split.
  - intros (j & Hj & Hb). destruct (Z_lt_ge_dec (Z.log2 x) (i + j)); [|lia].
    rewrite Z.bits_above_log2 in Hb by lia. discriminate.
  - intros Hlt. exists (Z.log2 x - i). split; [lia|].
    replace (i + (Z.log2 x - i)) with (Z.log2 x) by lia. apply Z.bit_log2. lia.
Qed.

Lemma roundUpPower2_log2 v : 1 <= v <= 2 ^ 31 -> roundUpPower2 v = 2 ^ Z.log2_up v.
Proof.
  intros Hv. unfold roundUpPower2. rewrite (wrap_small 32 (v - 1)) by (unfold in_u; lia).
  destruct (Z.eq_dec v 1) as [-> | Hne]; [reflexivity|].
  assert (smeared 1 (v - 1) (v - 1)) as H.
  { split; [lia|]. intros i Hi. split.
    - intros Hb. exists 0. split; [lia|]. now rewrite Z.add_0_r.
    - intros (j & Hj & Hb). replace (i + j) with i in Hb by lia. done. }
  do 5 (apply smear_step in H; [|lia]).
  apply smeared_all in H; [|lia]. cbv zeta.
  change (2 * (2 * (2 * (2 * 1)))) with 16 in H. change (2 * (2 * (2 * 1))) with 8 in H.
  change (2 * (2 * 1)) with 4 in H. change (2 * 1) with 2 in H. rewrite H.
  replace (2 ^ (Z.log2 (v - 1) + 1) - 1 + 1) with (2 ^ Z.log2_up v).
  - apply wrap_small. split; [lia|]. apply Z.pow_lt_mono_r; try lia.
    assert (Z.log2_up v <= 31) by (apply Z.log2_up_le_pow2; lia). lia.
  - rewrite Z.log2_up_eqn by lia. replace (v - 1) with (Z.pred v) by lia. unfold Z.succ. lia.
Qed.

(** ** The abstract contents *)

Section HashTableFacts.
  Context {item : Type} `{EqDecision item}.
  Context (cmpFunc : item -> item -> Z) (calloc_ok : Z -> bool).
  Implicit Types (es : list (HashEntry item)) (t : HashTable item).

(** What the table holds: each item with the hash it was added under. *)
Definition contents es : list (Z * item) :=
  omap (fun e => match e with Live h x => Some (h, x) | _ => None end) es.

Definition nulls es : Z := zlen (filter (fun e => is_null e = true) es).
Definition tombs es : Z := zlen (filter (fun e => is_tomb e = true) es).

Lemma slots_sum es : zlen es = nulls es + tombs es + zlen (contents es).
Proof.
  unfold nulls, tombs, contents. induction es as [|e es IH]; [done|].
  rewrite !filter_cons. cbn [omap list_omap]. destruct e; simpl; lia.
Qed.

Lemma slot_split es i e e' :
  es !! i = Some e -> exists l k, es = l ++ e :: k /\ <[i := e']> es = l ++ e' :: k.
Proof.
  intros H. exists (take i es), (drop (S i) es). split; [symmetry; by apply take_drop_middle|].
  apply insert_take_drop. by eapply lookup_lt_Some.
Qed.

Lemma contents_app es ks : contents (es ++ ks) = contents es ++ contents ks.
Proof. apply omap_app. Qed.

(** Filling a NULL slot adds one item; burying an item leaves a tombstone. *)
Lemma add_slot es i h x :
  es !! i = Some NULL ->
  contents (<[i := Live h x]> es) ≡ₚ (h, x) :: contents es /\
  nulls (<[i := Live h x]> es) = nulls es - 1 /\ tombs (<[i := Live h x]> es) = tombs es.
Proof.
  intros (l & k & -> & ->)%(fun H => slot_split _ _ _ (Live h x) H).
  unfold nulls, tombs. rewrite !contents_app, !filter_app, !filter_cons, !length_app. simpl.
  split; [symmetry; apply Permutation_middle | lia].
Qed.

Lemma bury_slot es i h x :
  es !! i = Some (Live h x) ->
  contents es ≡ₚ (h, x) :: contents (<[i := HASH_TOMBSTONE]> es) /\
  nulls (<[i := HASH_TOMBSTONE]> es) = nulls es /\
  tombs (<[i := HASH_TOMBSTONE]> es) = tombs es + 1.
Proof.
  intros (l & k & -> & ->)%(fun H => slot_split _ _ _ HASH_TOMBSTONE H).
  unfold nulls, tombs. rewrite !contents_app, !filter_app, !filter_cons, !length_app. simpl.
  split; [symmetry; apply Permutation_middle | lia].
Qed.

Lemma contents_lookup es h x :
  (h, x) ∈ contents es <-> exists i, es !! i = Some (Live h x).
Proof.
  unfold contents. rewrite list_elem_of_omap. split.
  - intros (e & He & Hx). destruct e; simplify_eq. by apply list_elem_of_lookup in He.
  - intros [i Hi]. exists (Live h x). split; [|done]. apply list_elem_of_lookup. eauto.
Qed.

Lemma null_exists es : 0 < nulls es -> exists i, (i < length es)%nat /\ es !! i = Some NULL.
Proof.
  unfold nulls. intros H. destruct (filter (fun e => is_null e = true) es) as [|e l] eqn:E;
    [simpl in H; lia|].
  assert (e ∈ filter (fun e => is_null e = true) es) as He by (rewrite E; left).
  apply list_elem_of_filter in He as [Hn He]. apply list_elem_of_lookup in He as [i Hi].
  exists i. split; [by eapply lookup_lt_Some|]. destruct e; done.
Qed.

(** ** Probing *)

(** The slot [d] steps after the home position of [start]. *)
Definition slot_at es (j : Z) : option (HashEntry item) := es !! Z.to_nat (j mod zlen es).

Lemma mask_mod h k : 0 <= k -> h .& (2 ^ k - 1) = h mod 2 ^ k.
Proof. intros. rewrite Z.sub_1_r, <- Z.ones_equiv. by apply Z.land_ones. Qed.

(** The walk every probe loop does: the first slot from [i] on that is NULL or
    a hit. *)
Fixpoint walk (fuel : nat) es (hit : HashEntry item -> bool) (i : Z) (count : Z) : outcome (Z * Z) :=
  match es !! Z.to_nat i with
  | None => Undef
  | Some e =>
      if is_null e || hit e then Done (i, count)
      else match fuel with
           | O => Diverge
           | S fuel => walk fuel es hit ((i + 1) mod zlen es) (count + 1)
           end
  end.

Lemma walk_stops fuel es hit i count d0 e0 :
  0 <= i -> 0 <= d0 <= Z.of_nat fuel -> slot_at es (i + d0) = Some e0 ->
  is_null e0 || hit e0 = true ->
  exists d e, 0 <= d <= d0 /\ walk fuel es hit (i mod zlen es) count = Done ((i + d) mod zlen es, count + d) /\
    slot_at es (i + d) = Some e /\ is_null e || hit e = true /\
    (forall c, 0 <= c < d -> exists e', slot_at es (i + c) = Some e' /\ is_null e' || hit e' = false).
Proof.
  revert i count d0. induction fuel as [|fuel IH]; intros i count d0 Hi Hd He Hs; cbn [walk];
    (destruct (Z.eq_dec (zlen es) 0) as [Hz|Hz];
      [ unfold slot_at in He; rewrite (nil_length_inv es) in He by lia; discriminate |]);
    assert (0 <= i mod zlen es < zlen es) as Hr by (apply Z.mod_pos_bound; lia);
    destruct (lookup_lt_is_Some_2 es (Z.to_nat (i mod zlen es))) as [e1 E1]; try lia; rewrite E1.
  all: destruct (is_null e1 || hit e1) eqn:Es;
    [ exists 0, e1; rewrite !Z.add_0_r; split; [lia|]; split; [done|]; split; [exact E1|];
      split; [done|]; intros c Hc; lia |].
  - exfalso. replace d0 with 0 in He by lia. unfold slot_at in He. rewrite Z.add_0_r in He. congruence.
  - assert (d0 ≠ 0) as Hne
      by (intros ->; unfold slot_at in He; rewrite Z.add_0_r in He; congruence).
    rewrite Z.add_mod_idemp_l by lia.
    destruct (IH (i + 1) (count + 1) (d0 - 1)) as (d & e & Hd1 & -> & Hse & Hst & Hbefore); try lia.
    { rewrite <- He. f_equal. lia. }
    { done. }
    exists (1 + d), e. rewrite !Z.add_assoc. split; [lia|]. split; [done|]. split; [done|].
    split; [done|]. intros c Hc. destruct (Z.eq_dec c 0) as [->|]; [exists e1; by rewrite Z.add_0_r|].
    destruct (Hbefore (c - 1)) as (e' & He' & Hs'); [lia|]. exists e'. split; [|done].
    rewrite <- He'. f_equal. lia.
Qed.

(** ** The invariant *)

(** No NULL slot lies between an item and the home position of its hash, so
    probing for it does not stop early. *)
Definition chain_ok es : Prop :=
  forall j h x, es !! j = Some (Live h x) ->
    exists d, 0 <= d < zlen es /\ Z.of_nat j = (h + d) mod zlen es /\
      forall c, 0 <= c < d -> exists e, slot_at es (h + c) = Some e /\ is_null e = false.

Record table_inv t : Prop := {
  ti_size : exists k, 0 <= k /\ tableSize t = 2 ^ k;
  ti_len : zlen (pEntries t) = tableSize t;
  ti_live : numEntries t = zlen (contents (pEntries t));
  ti_dead : numDeadEntries t = tombs (pEntries t);
  ti_load : (numEntries t + numDeadEntries t) * LOAD_DENOM <= tableSize t * LOAD_NUMER;
  ti_chain : chain_ok (pEntries t);
  ti_hash h x : (h, x) ∈ contents (pEntries t) -> in_u 32 h
}.

Lemma inv_nulls t : table_inv t -> 0 < nulls (pEntries t).
Proof.
  intros [(k & Hk & Hs) Hl He Hd Hload _ _]. pose proof (slots_sum (pEntries t)).
  unfold LOAD_DENOM, LOAD_NUMER in *. pose proof (Z.pow_pos_nonneg 2 k ltac:(lia) Hk). lia.
Qed.

(** From any start there is a NULL slot within one turn around the table. *)
Lemma null_ahead es i :
  0 < nulls es -> 0 <= i -> exists d, 0 <= d < zlen es /\ slot_at es (i + d) = Some NULL.
Proof.
  intros Hn Hi. destruct (null_exists es Hn) as (j & Hj & Ej).
  exists ((Z.of_nat j - i) mod zlen es). assert (0 < zlen es) by lia.
  split; [apply Z.mod_pos_bound; lia|]. unfold slot_at.
  rewrite Z.add_mod_idemp_r by lia. replace (i + (Z.of_nat j - i)) with (Z.of_nat j) by lia.
  rewrite Z.mod_small, Nat2Z.id by lia. done.
Qed.

Lemma mask_home h s : (exists k, 0 <= k /\ s = 2 ^ k) -> h .& (s - 1) = h mod s.
Proof. intros (k & Hk & ->). by apply mask_mod. Qed.

Lemma probe_walk fuel t hit i count :
  zlen (pEntries t) = tableSize t -> 0 <= i < tableSize t ->
  (tableSize t = 1 -> pEntries t !! 0%nat = Some NULL) ->
  probe fuel t hit i count = walk fuel (pEntries t) hit i count.
Proof.
  intros Hl Hi H1. revert i count Hi.
  induction fuel as [|fuel IH]; intros i count Hi; cbn [probe walk]; [done|].
  destruct (pEntries t !! Z.to_nat i) as [e|] eqn:E; [|done].
  destruct (is_null e || hit e) eqn:Es; [done|]. rewrite Hl.
  destruct (Z.eqb_spec (i + 1) (tableSize t)) as [Hw|Hw].
  - destruct (Z.eqb_spec (tableSize t) 1) as [Ht|Ht].
    + replace (Z.to_nat i) with 0%nat in E by lia. rewrite (H1 Ht) in E. injection E as <-. done.
    + rewrite Hw, Z.mod_same by lia. apply IH. lia.
  - rewrite Z.mod_small by lia. apply IH. lia.
Qed.

Lemma inv_one_null t : table_inv t -> tableSize t = 1 -> pEntries t !! 0%nat = Some NULL.
Proof.
  intros Hinv H1. pose proof (inv_nulls t Hinv) as Hn. destruct Hinv as [_ Hl _ _ _ _ _].
  apply null_exists in Hn as (j & Hj & Ej). by replace j with 0%nat in Ej by lia.
Qed.

(** A probe on a table with the invariant stops within one turn. *)
Lemma probe_done t hit h :
  table_inv t -> in_u 32 h ->
  exists d e, 0 <= d < tableSize t /\
    probe (Z.to_nat (tableSize t)) t hit (h .& (tableSize t - 1)) 0
      = Done ((h + d) mod tableSize t, d) /\
    slot_at (pEntries t) (h + d) = Some e /\ is_null e || hit e = true /\
    (forall c, 0 <= c < d ->
       exists e', slot_at (pEntries t) (h + c) = Some e' /\ is_null e' || hit e' = false).
Proof.
  intros Hinv [Hh _]. pose proof (inv_nulls t Hinv) as Hn.
  rewrite (mask_home h _ (ti_size _ Hinv)). pose proof (ti_len _ Hinv) as Hl.
  destruct (null_ahead _ h Hn Hh) as (d0 & Hd0 & E0).
  rewrite probe_walk; [| done | apply Z.mod_pos_bound; lia | by apply inv_one_null].
  rewrite <- Hl.
  destruct (walk_stops (Z.to_nat (zlen (pEntries t))) (pEntries t) hit h 0 d0 NULL)
    as (d & e & Hd & Hw & He & Hs & Hb); try done; [lia|].
  exists d, e. split; [lia|]. split; [done|]. auto.
Qed.

Lemma slot_at_idx es j :
  0 < zlen es -> slot_at es j = es !! Z.to_nat (j mod zlen es).
Proof. done. Qed.

(** Slots that only turn from NULL into something keep the chains. *)
Lemma chain_ok_insert es i e :
  chain_ok es -> (i < length es)%nat -> is_null e = false ->
  (forall h x, e = Live h x ->
    exists d, 0 <= d < zlen es /\ Z.of_nat i = (h + d) mod zlen es /\
      forall c, 0 <= c < d -> exists e', slot_at es (h + c) = Some e' /\ is_null e' = false) ->
  chain_ok (<[i := e]> es).
Proof.
  intros Hc Hi Hn Hnew.
  assert (forall j e', slot_at es j = Some e' -> is_null e' = false ->
    exists e'', slot_at (<[i := e]> es) j = Some e'' /\ is_null e'' = false) as Hkeep.
  { intros j e' He' Hn'. unfold slot_at in *. rewrite length_insert.
    destruct (decide (Z.to_nat (j mod zlen es) = i)) as [Heq|Hne].
    - rewrite Heq, list_lookup_insert_eq by done. eauto.
    - rewrite list_lookup_insert_ne by done. eauto. }
  intros j h x Hj. rewrite length_insert.
  assert (exists d, 0 <= d < zlen es /\ Z.of_nat j = (h + d) mod zlen es /\
      forall c, 0 <= c < d -> exists e', slot_at es (h + c) = Some e' /\ is_null e' = false)
    as (d & Hd & Hjd & Hbefore).
  { destruct (decide (j = i)) as [->|Hne].
    - rewrite list_lookup_insert_eq in Hj by done. injection Hj as ->. by apply (Hnew h x).
    - rewrite list_lookup_insert_ne in Hj by done. by apply (Hc j h x). }
  exists d. split; [done|]. split; [done|]. intros c Hcd.
  destruct (Hbefore c Hcd) as (e' & He' & Hn'). by apply (Hkeep _ e').
Qed.

(** ** Resizing *)

Lemma resize_probe_walk fuel es k i count :
  0 <= k -> zlen es = 2 ^ k ->
  resize_probe fuel es (2 ^ k) i =
    match walk fuel es (fun _ => false) i count with
    | Done (j, _) => Done j | Fail c => Fail c | Undef => Undef | Diverge => Diverge end.
Proof.
  intros Hk Hl. revert i count. induction fuel as [|fuel IH]; intros i count; cbn [resize_probe walk];
    destruct (es !! Z.to_nat i) as [e|]; [|done| |done]; destruct e; cbn; try done;
    rewrite mask_mod, Hl by done; apply IH.
Qed.

Lemma resize_move_ok k es h x :
  0 <= k <= 32 -> zlen es = 2 ^ k -> 0 < nulls es -> chain_ok es -> in_u 32 h ->
  exists es', resize_move (2 ^ k) es (Live h x) = Done es' /\ zlen es' = 2 ^ k /\
    nulls es' = nulls es - 1 /\ tombs es' = tombs es /\ chain_ok es' /\
    contents es' ≡ₚ (h, x) :: contents es.
Proof.
  intros Hk Hl Hn Hc Hh. unfold resize_move.
  assert (swrap 32 h .& (2 ^ k - 1) = h mod 2 ^ k) as ->.
  { rewrite mask_mod by lia.
    assert (exists q, 2 ^ 32 = 2 ^ k * q) as (q & Hq)
      by (exists (2 ^ (32 - k)); rewrite <- Z.pow_add_r by lia; f_equal; lia).
    pose proof (Z.pow_pos_nonneg 2 k ltac:(lia) ltac:(lia)).
    unfold swrap, wrap. destruct Hh as [H0 H1]. rewrite (Z.mod_small h) by lia.
    destruct (_ <? _); [done|]. rewrite Hq.
    replace (h - 2 ^ k * q) with (h + - q * 2 ^ k) by lia. by rewrite Z.mod_add by lia. }
  assert (wrap 32 (swrap 32 h) = h) as ->
    by (unfold wrap; rewrite swrap_mod by lia; by apply wrap_small).
  destruct (null_ahead es h Hn (proj1 Hh)) as (d0 & Hd0 & E0).
  rewrite (resize_probe_walk _ _ _ _ 0) by (done || lia). rewrite <- Hl.
  destruct (walk_stops (Z.to_nat (zlen es)) es (fun _ => false) h 0 d0 NULL)
    as (d & e & Hd & -> & He & Hs & Hb); try done; [apply Hh | lia |].
  destruct e; [|discriminate..]. cbn. unfold slot_at in He.
  destruct (add_slot es _ h x He) as (P1 & P2 & P3).
  assert (0 <= (h + d) mod zlen es < zlen es) by (apply Z.mod_pos_bound; lia).
  eexists. split; [done|]. rewrite length_insert. split; [done|]. split; [done|].
  split; [done|]. split; [|done].
  apply chain_ok_insert; [done | lia | done |]. intros h' x' [= <- <-].
  exists d. split; [lia|]. split; [lia|]. intros c Hcd.
  destruct (Hb c Hcd) as (e' & He' & Hn'). exists e'. split; [done|].
  by rewrite orb_false_r in Hn'.
Qed.

Lemma resize_loop_ok k old es :
  0 <= k <= 32 -> zlen es = 2 ^ k -> zlen (contents old) < nulls es -> chain_ok es ->
  (forall h x, (h, x) ∈ contents old -> in_u 32 h) ->
  exists es', resize_loop (2 ^ k) old es = Done es' /\ zlen es' = 2 ^ k /\ tombs es' = tombs es /\
    chain_ok es' /\ contents es' ≡ₚ contents old ++ contents es.
Proof.
  intros Hk. revert es. induction old as [|e old IH]; intros es Hl Hn Hc Hh; cbn [resize_loop].
  { eexists. split; [done|]. auto. }
  destruct e as [| |h x]; cbn [resize_move mbind outcome_bind];
    [apply IH; auto | apply IH; auto |].
  change (zlen (contents (Live h x :: old))) with (Z.of_nat (S (length (contents old)))) in Hn.
  destruct (resize_move_ok k es h x) as (es1 & E & L1 & N1 & T1 & C1 & P1); try done; [lia| |].
  { apply (Hh h x). left. }
  cbn [resize_move] in E. rewrite E. cbn [mbind outcome_bind].
  destruct (IH es1) as (es' & E' & L' & T' & C' & P'); try done; [lia| |].
  { intros h' x' Hin. apply (Hh h' x'). by right. }
  exists es'. split; [done|]. split; [done|]. split; [congruence|]. split; [done|].
  rewrite P', P1. symmetry. apply Permutation_middle.
Qed.

Lemma contents_replicate n : contents (replicate n NULL) = [].
Proof. induction n; simpl; auto. Qed.

Lemma tombs_replicate n : tombs (replicate n NULL) = 0.
Proof. unfold tombs. induction n as [|n IH]; [done|]. cbn [replicate]. by rewrite filter_cons_False. Qed.

Lemma chain_ok_replicate n : chain_ok (replicate n NULL).
Proof. intros j h x Hj. apply lookup_replicate in Hj as [? _]. done. Qed.

Lemma resizeHash_ok t k :
  0 <= k <= 32 -> calloc_ok (2 ^ k) = true ->
  zlen (contents (pEntries t)) < 2 ^ k ->
  (forall h x, (h, x) ∈ contents (pEntries t) -> in_u 32 h) ->
  exists es', resizeHash calloc_ok t (2 ^ k) = Done (mkHashTable (2 ^ k) (numEntries t) 0 es') /\
    zlen es' = 2 ^ k /\ tombs es' = 0 /\ chain_ok es' /\ contents es' ≡ₚ contents (pEntries t).
Proof.
  intros Hk Hcal Hn Hh. unfold resizeHash. rewrite Hcal. cbn [negb].
  pose proof (Z.pow_pos_nonneg 2 k ltac:(lia) ltac:(lia)).
  set (es0 := replicate (Z.to_nat (2 ^ k)) NULL).
  assert (zlen es0 = 2 ^ k) as Hl by (unfold es0; rewrite length_replicate; lia).
  destruct (resize_loop_ok k (pEntries t) es0) as (es' & -> & L & T & C & P); try done.
  - pose proof (slots_sum es0) as Hs. unfold es0 in *. rewrite contents_replicate, tombs_replicate in Hs.
    simpl in Hs. lia.
  - apply chain_ok_replicate.
  - cbn. exists es'. split; [done|]. split; [done|]. rewrite T.
    unfold es0 in *. rewrite tombs_replicate. rewrite contents_replicate, app_nil_r in P. auto.
Qed.

(** ** The operations *)

(** When the probe stops at a NULL slot, no entry of that hash is a hit. *)
Lemma probe_miss t hit h d y :
  table_inv t -> slot_at (pEntries t) (h + d) = Some NULL -> 0 <= d ->
  (forall c, 0 <= c < d ->
     exists e', slot_at (pEntries t) (h + c) = Some e' /\ is_null e' || hit e' = false) ->
  (h, y) ∈ contents (pEntries t) -> hit (Live h y) = false.
Proof.
  intros Hinv Hn Hd Hb Hin. apply contents_lookup in Hin as [j Hj].
  destruct (ti_chain _ Hinv j h y Hj) as (d' & Hd' & Hjd & Hc).
  assert (slot_at (pEntries t) (h + d') = Some (Live h y)) as Hs
    by (unfold slot_at; by rewrite <- Hjd, Nat2Z.id).
  destruct (Z.lt_trichotomy d' d) as [Hlt | [-> | Hgt]].
  - destruct (Hb d') as (e' & He' & Hh); [lia|]. rewrite Hs in He'. injection He' as <-. done.
  - congruence.
  - destruct (Hc d) as (e' & He' & Hnn); [lia|]. rewrite Hn in He'. injection He' as <-. done.
Qed.

Lemma create_ok n :
  1 <= n <= 2 ^ 31 -> calloc_ok (roundUpPower2 n) = true ->
  exists t : HashTable item, mzHashTableCreate calloc_ok n = Some t /\ table_inv t /\
    contents (pEntries t) = [] /\ n <= tableSize t < 2 * n.
Proof.
  intros Hn Hc. unfold mzHashTableCreate. rewrite Hc. rewrite (roundUpPower2_log2 n Hn).
  pose proof (Z.log2_up_nonneg n). pose proof (Z.pow_pos_nonneg 2 (Z.log2_up n) ltac:(lia) ltac:(lia)).
  eexists. split; [done|]. cbn [pEntries tableSize]. rewrite contents_replicate. split.
  - split; cbn; rewrite ?contents_replicate, ?tombs_replicate, ?length_replicate; cbn;
      unfold LOAD_NUMER, LOAD_DENOM; try lia; eauto using chain_ok_replicate.
    intros h x Hin. by apply not_elem_of_nil in Hin.
  - split; [done|]. destruct (Z.eq_dec n 1) as [-> | Hne]; [cbn; lia|].
    pose proof (Z.log2_up_spec n ltac:(lia)) as [Hlo Hhi].
    pose proof (Z.log2_up_pos n ltac:(lia)).
    assert (2 ^ Z.log2_up n = 2 * 2 ^ Z.pred (Z.log2_up n))
      by (rewrite <- Z.pow_succ_r by lia; f_equal; lia). lia.
Qed.

(** Adding at the NULL slot where the probe stopped, before any resize. *)
Lemma insert_facts t h it d :
  table_inv t -> in_u 32 h -> 0 <= d < tableSize t ->
  slot_at (pEntries t) (h + d) = Some NULL ->
  (forall c, 0 <= c < d ->
     exists e', slot_at (pEntries t) (h + c) = Some e' /\ is_null e' = false) ->
  let es := <[Z.to_nat ((h + d) mod tableSize t) := Live h it]> (pEntries t) in
  zlen es = tableSize t /\ chain_ok es /\ contents es ≡ₚ (h, it) :: contents (pEntries t) /\
  tombs es = tombs (pEntries t) /\ (forall h' x, (h', x) ∈ contents es -> in_u 32 h').
Proof.
  intros Hinv Hh Hd Hs Hb es. unfold es. rewrite <- (ti_len _ Hinv) in *. unfold slot_at in Hs.
  destruct (add_slot _ _ h it Hs) as (P & N & T). rewrite length_insert.
  assert (0 <= (h + d) mod zlen (pEntries t) < zlen (pEntries t)) by (apply Z.mod_pos_bound; lia).
  split; [done|]. split; [|split; [done|split; [done|]]].
  - apply chain_ok_insert; [apply (ti_chain _ Hinv) | lia | done |]. intros h' x' [= <- <-].
    exists d. split; [lia|]. split; [lia|]. done.
  - intros h' x Hin. rewrite P in Hin. apply elem_of_cons in Hin as [[= -> ->]|Hin]; [done|].
    by apply (ti_hash _ Hinv h' x).
Qed.

Lemma lookup_ok t h it doAdd :
  table_inv t -> in_u 32 h -> tableSize t <= 2 ^ 28 -> (forall n, calloc_ok n = true) ->
  exists t' r, mzHashTableLookup cmpFunc calloc_ok t h it doAdd = Done (t', r) /\ table_inv t' /\
    ((exists y, r = Some y /\ t' = t /\ (h, y) ∈ contents (pEntries t) /\ cmpFunc y it = 0) \/
     ((forall y, (h, y) ∈ contents (pEntries t) -> cmpFunc y it ≠ 0) /\
      if doAdd then r = Some it /\ contents (pEntries t') ≡ₚ (h, it) :: contents (pEntries t)
      else r = None /\ t' = t)).
Proof.
  intros Hinv Hh Hsz Hcal. unfold mzHashTableLookup.
  destruct (probe_done t (lookup_hit cmpFunc h it) h Hinv Hh) as (d & e & Hd & -> & He & Hs & Hb).
  cbn. assert (pEntries t !! Z.to_nat ((h + d) mod tableSize t) = Some e) as He'
    by (rewrite <- He, <- (ti_len _ Hinv); done).
  rewrite He'. cbn. destruct (is_null e) eqn:En; cycle 1.
  { destruct e as [| |h' y]; cbn in Hs; try done. bool_to_prop. subst h'.
    do 2 eexists. split; [done|]. split; [done|]. left. exists y. cbn.
    split; [done|]. split; [done|]. split; [|done]. apply contents_lookup. eauto. }
  destruct e; try done.
  assert (forall y, (h, y) ∈ contents (pEntries t) -> cmpFunc y it ≠ 0) as Hmiss.
  { intros y Hy. pose proof (probe_miss t _ h d y Hinv He ltac:(lia) Hb Hy) as Hf. cbn in Hf.
    rewrite Z.eqb_refl in Hf. cbn in Hf. by apply Z.eqb_neq in Hf. }
  destruct doAdd; cycle 1.
  { do 2 eexists. split; [done|]. split; [done|]. right. auto. }
  destruct (insert_facts t h it d Hinv Hh Hd He) as (L & C & P & T & HU).
  { intros c Hc. destruct (Hb c Hc) as (e' & He1 & Hn). exists e'.
    apply orb_false_iff in Hn as [? _]. done. }
  set (es := <[_ := Live h it]> (pEntries t)) in *. cbn.
  pose proof (Permutation_length P) as Hlen. cbn [length] in Hlen.
  destruct Hinv as [(k & Hk & Hsize) Hl He1 Hdd Hload _ _].
  destruct (Z.ltb_spec (tableSize t * LOAD_NUMER) ((numEntries t + 1 + numDeadEntries t) * LOAD_DENOM)).
  - assert (tableSize t * 2 = 2 ^ (k + 1)) as Hdbl by (rewrite Z.pow_add_r, Hsize; lia).
    rewrite Hdbl. unfold LOAD_NUMER, LOAD_DENOM in *.
    assert (k <= 28) by (apply (Z.pow_le_mono_r_iff 2); lia).
    pose proof (Z.pow_pos_nonneg 2 k ltac:(lia) Hk).
    destruct (resizeHash_ok (mkHashTable (tableSize t) (numEntries t + 1) (numDeadEntries t) es) (k + 1))
      as (es' & -> & L' & T' & C' & P'); cbn [pEntries numEntries]; try done; try lia.
    { pose proof (slots_sum (pEntries t)). unfold nulls, tombs in *. lia. }
    do 2 eexists. split; [done|]. cbn [pEntries] in P'. split; [|right; split; [done|]; split; [done|]; cbn; by rewrite P'].
    pose proof (Permutation_length P'). pose proof (slots_sum (pEntries t)). unfold nulls, tombs in *.
    split; cbn [pEntries numEntries numDeadEntries tableSize]; unfold tombs, LOAD_NUMER, LOAD_DENOM;
      try done; try lia; [exists (k + 1); split; [lia|done]|].
    intros h' x Hin. rewrite P' in Hin. by apply (HU h' x).
  - do 2 eexists. split; [done|]. split; [|right; auto].
    split; cbn [pEntries numEntries numDeadEntries tableSize]; eauto; lia.
Qed.

(** While the load stays below the limit nothing is resized. *)
Lemma lookup_keeps_size t h it doAdd t' r :
  mzHashTableLookup cmpFunc calloc_ok t h it doAdd = Done (t', r) ->
  (numEntries t + 1 + numDeadEntries t) * LOAD_DENOM <= tableSize t * LOAD_NUMER ->
  tableSize t' = tableSize t /\ numDeadEntries t' = numDeadEntries t.
Proof.
  unfold mzHashTableLookup. intros H Hl. destruct (probe _ _ _ _ _) as [[i c]| | |]; try done. cbn in H.
  destruct (pEntries t !! Z.to_nat i) as [e|]; [|done]. cbn in H.
  destruct (is_null e); [|by injection H as <- _]. destruct doAdd; [|by injection H as <- _].
  destruct (Z.ltb_spec (tableSize t * LOAD_NUMER) ((numEntries t + 1 + numDeadEntries t) * LOAD_DENOM)); [lia|].
  by injection H as <- _.
Qed.

Lemma remove_ok t h it :
  table_inv t -> in_u 32 h ->
  (forall h', (h', it) ∈ contents (pEntries t) -> h' = h) ->
  exists t' b, mzHashTableRemove t h it = Done (t', b) /\ table_inv t' /\
    if b then contents (pEntries t) ≡ₚ (h, it) :: contents (pEntries t')
    else t' = t /\ forall h', (h', it) ∉ contents (pEntries t).
Proof.
  intros Hinv Hh Huniq. unfold mzHashTableRemove.
  destruct (probe_done t (remove_hit it) h Hinv Hh) as (d & e & Hd & -> & He & Hs & Hb).
  cbn. assert (pEntries t !! Z.to_nat ((h + d) mod tableSize t) = Some e) as He'
    by (rewrite <- He, <- (ti_len _ Hinv); done).
  rewrite He'. cbn. destruct (is_null e) eqn:En.
  { destruct e; try done. do 2 eexists. split; [done|]. split; [done|]. cbn. split; [done|].
    intros h' Hin. pose proof (Huniq h' Hin) as ->.
    pose proof (probe_miss t _ h d it Hinv He ltac:(lia) Hb Hin) as Hf. cbn in Hf.
    by apply bool_decide_eq_false in Hf. }
  destruct e as [| |h' y]; try done. cbn in Hs. apply bool_decide_eq_true in Hs as ->.
  assert (h' = h) as -> by (apply Huniq, contents_lookup; eauto).
  destruct (bury_slot _ _ h it He') as (P & N & T).
  do 2 eexists. split; [done|]. cbn. split; [|done].
  pose proof (Permutation_length P) as Hlen. cbn [length] in Hlen.
  destruct Hinv as [Hk Hl He1 Hdd Hload Hc HU]. unfold LOAD_NUMER, LOAD_DENOM in *.
  split; cbn [pEntries numEntries numDeadEntries tableSize]; unfold LOAD_NUMER, LOAD_DENOM;
    try rewrite length_insert; try done; try lia.
  - apply chain_ok_insert; [done | by eapply lookup_lt_Some | done |]. intros ? ? [=].
  - intros h' x Hin. apply (HU h' x). rewrite P. by right.
Qed.

Lemma contents_nulls {B} (es : list B) (f : B -> HashEntry item) :
  (forall e, f e = NULL) -> contents (f <$> es) = [] /\ tombs (f <$> es) = 0 /\
    (forall j h x, (f <$> es) !! j ≠ Some (Live h x)).
Proof.
  intros Hf. induction es as [|e es (IH1 & IH2 & IH3)]; csimpl; [split; [done|]; split; [done|]; by intros []|].
  rewrite Hf. split; [done|]. unfold tombs in *. rewrite filter_cons_False by done.
  split; [done|]. intros [|j] h x; cbn; [done|]. apply IH3.
Qed.

Lemma clear_ok t :
  table_inv t ->
  table_inv (mzHashTableClear t).2 /\ contents (pEntries (mzHashTableClear t).2) = [] /\
  (mzHashTableClear t).1 = (contents (pEntries t)).*2.
Proof.
  intros [Hk Hl He Hd Hload _ _]. cbn [mzHashTableClear fst snd].
  destruct (contents_nulls (pEntries t)
    (fun e => match e with HASH_TOMBSTONE => NULL | NULL => NULL | Live _ _ => NULL end))
    as (H1 & H2 & H3); [by intros [] |].
  split; [|split; [done|]].
  - unfold LOAD_NUMER, LOAD_DENOM in *.
    split; cbn [pEntries numEntries numDeadEntries tableSize]; rewrite ?H1, ?H2, ?length_fmap;
      unfold LOAD_NUMER, LOAD_DENOM; try done; try lia.
    + intros j h x Hj. by apply H3 in Hj.
    + intros h x Hin. by apply not_elem_of_nil in Hin.
  - unfold contents. clear. induction (pEntries t) as [|[] es IH]; csimpl; [done|done|done|].
    by f_equal.
Qed.

(** ** Everything a client can do

    [hash] gives the hash an item is always added and removed under.  A table is
    made with at most 2^30 slots, so that its size is an [int], and holds an item
    more while it has at most 2^28. *)

Context (hash : item -> Z).

Inductive reachable : HashTable item -> Prop :=
  | reach_create n t :
      1 <= n <= 2 ^ 30 -> mzHashTableCreate calloc_ok n = Some t -> reachable t
  | reach_lookup t it doAdd t' r :
      reachable t -> tableSize t <= 2 ^ 28 ->
      mzHashTableLookup cmpFunc calloc_ok t (hash it) it doAdd = Done (t', r) -> reachable t'
  | reach_remove t it t' b :
      reachable t -> mzHashTableRemove t (hash it) it = Done (t', b) -> reachable t'
  | reach_clear t : reachable t -> reachable (mzHashTableClear t).2.

(** Items sit under their own hash. *)
Definition well_hashed es : Prop := forall h x, (h, x) ∈ contents es -> h = hash x.

Lemma reachable_inv t :
  (forall it, in_u 32 (hash it)) -> (forall n, calloc_ok n = true) ->
  reachable t -> table_inv t /\ well_hashed (pEntries t).
Proof.
  intros Hh Hcal. induction 1 as [n t Hn Hc | t it doAdd t' r _ [Hi Hw] Hs Hl | t it t' b _ [Hi Hw] Hr | t _ [Hi Hw]].
  - destruct (create_ok n ltac:(lia) (Hcal _)) as (t1 & Hc1 & Hi & He & _).
    rewrite Hc in Hc1. injection Hc1 as <-. split; [done|].
    intros h x Hin. rewrite He in Hin. by apply not_elem_of_nil in Hin.
  - destruct (lookup_ok t (hash it) it doAdd Hi (Hh it) Hs Hcal) as (t1 & r1 & E & Hi1 & Hspec).
    rewrite Hl in E. injection E as <- <-. split; [done|].
    destruct Hspec as [(y & _ & -> & _) | [_ Hadd]]; [done|].
    destruct doAdd; [destruct Hadd as [_ HP] | by destruct Hadd as [_ ->]].
    intros h x Hin. rewrite HP in Hin. apply elem_of_cons in Hin as [[= -> ->] | Hin]; auto.
  - destruct (remove_ok t (hash it) it Hi (Hh it)) as (t1 & b1 & E & Hi1 & Hspec); [intros h'; apply Hw|].
    rewrite Hr in E. injection E as <- <-. split; [done|].
    destruct b; [|by destruct Hspec as [-> _]].
    intros h x Hin. apply Hw. rewrite Hspec. by right.
  - destruct (clear_ok t Hi) as (Hi1 & He & _). split; [done|].
    intros h x Hin. rewrite He in Hin. by apply not_elem_of_nil in Hin.
Qed.

End HashTableFacts.

(** ** Properties *)

(** [roundUpPower2]'s bit smearing gives the least power of two that is
    not below the argument, for every argument up to 2^31. *)
Theorem roundUpPower2_least (v : Z) :
  1 <= v <= 2 ^ 31 ->
  (exists k, 0 <= k /\ roundUpPower2 v = 2 ^ k) /\ v <= roundUpPower2 v /\
  forall j, 0 <= j -> v <= 2 ^ j -> roundUpPower2 v <= 2 ^ j.
Proof.
  intros Hv. rewrite roundUpPower2_log2 by done. pose proof (Z.log2_up_nonneg v). split; [eauto|].
  split.
  - destruct (Z.eq_dec v 1) as [-> | ]; [done|]. apply Z.log2_up_spec. lia.
  - intros j Hj Hle. apply Z.pow_le_mono_r; [lia|]. apply Z.log2_up_le_pow2; lia.
Qed.

Lemma roundUpPower2_least_witness :
  (exists k, 0 <= k /\ roundUpPower2 100 = 2 ^ k) /\ 100 <= roundUpPower2 100 /\
  forall j, 0 <= j -> 100 <= 2 ^ j -> roundUpPower2 100 <= 2 ^ j.
Proof. apply (roundUpPower2_least 100). lia. Defined.

(** [C36] Every table a client can build with [mzHashTableCreate], [Lookup]
    (with and without adding), [Remove] and [Clear] is sound: the counters
    match the slots, the load factor leaves a NULL slot, no item is cut off
    from its home slot - so the probe loop of the next operation, whatever
    hash it starts from, halts within one turn around the table. *)
Theorem reachable_probes_halt {item : Type} `{EqDecision item}
    (cmpFunc : item -> item -> Z) calloc_ok (hash : item -> Z) t :
  (forall it, in_u 32 (hash it)) -> (forall n, calloc_ok n = true) ->
  reachable cmpFunc calloc_ok hash t ->
  numEntries t = zlen (contents (pEntries t)) /\ numDeadEntries t = countTombStones t /\
  numEntries t < tableSize t /\
  forall hit h, in_u 32 h -> exists i d,
    probe (Z.to_nat (tableSize t)) t hit (h .& (tableSize t - 1)) 0 = Done (i, d) /\
    0 <= d < tableSize t.
Proof.
  intros Hh Hc Hr. destruct (reachable_inv _ _ _ t Hh Hc Hr) as [Hi _].
  pose proof (inv_nulls t Hi). pose proof (slots_sum (pEntries t)).
  pose proof (ti_len _ Hi). pose proof (ti_live _ Hi). pose proof (ti_dead _ Hi).
  split; [done|]. split; [done|]. split; [unfold tombs in *; lia|].
  intros hit h Hu. destruct (probe_done t hit h Hi Hu) as (d & e & Hd & -> & _). eauto.
Qed.

(** [C20] [mzHashTableLookup] on such a table: it returns an item stored under
    that hash that compares equal, when there is one, and changes nothing;
    otherwise it reports NULL, or with [doAdd] adds exactly the new item -
    growing the table if needed - and keeps the table sound. *)
Theorem mzHashTableLookup_correct {item : Type} `{EqDecision item}
    (cmpFunc : item -> item -> Z) calloc_ok t h it doAdd :
  table_inv t -> in_u 32 h -> tableSize t <= 2 ^ 28 -> (forall n, calloc_ok n = true) ->
  exists t' r, mzHashTableLookup cmpFunc calloc_ok t h it doAdd = Done (t', r) /\ table_inv t' /\
    ((exists y, r = Some y /\ t' = t /\ (h, y) ∈ contents (pEntries t) /\ cmpFunc y it = 0) \/
     ((forall y, (h, y) ∈ contents (pEntries t) -> cmpFunc y it ≠ 0) /\
      if doAdd then r = Some it /\ contents (pEntries t') ≡ₚ (h, it) :: contents (pEntries t)
      else r = None /\ t' = t)).
Proof. apply lookup_ok. Qed.

(** [mzHashTableRemove] takes exactly the given item out of the table,
    leaving a tombstone that keeps all other items findable, and reports
    whether it was there. *)
Theorem mzHashTableRemove_correct {item : Type} `{EqDecision item} (t : HashTable item) h it :
  table_inv t -> in_u 32 h -> (forall h', (h', it) ∈ contents (pEntries t) -> h' = h) ->
  exists t' b, mzHashTableRemove t h it = Done (t', b) /\ table_inv t' /\
    if b then contents (pEntries t) ≡ₚ (h, it) :: contents (pEntries t')
    else t' = t /\ forall h', (h', it) ∉ contents (pEntries t).
Proof. apply remove_ok. Qed.

(** [mzHashTableClear] hands every stored item to the free function
    exactly once and leaves a sound, empty table of the same size. *)
Theorem mzHashTableClear_frees_all {item : Type} `{EqDecision item} (t : HashTable item) :
  table_inv t ->
  table_inv (mzHashTableClear t).2 /\ contents (pEntries (mzHashTableClear t).2) = [] /\
  tableSize (mzHashTableClear t).2 = tableSize t /\
  (mzHashTableClear t).1 = (contents (pEntries t)).*2.
Proof. intros Hi. destruct (clear_ok t Hi) as (H1 & H2 & H3). auto. Qed.

(** A table of numbers under their own value, used by the witnesses. *)
Definition demo_table : HashTable Z :=
  mkHashTable 8 2 1 [NULL; Live 9 9; Live 1 1; HASH_TOMBSTONE; NULL; NULL; NULL; NULL].

Lemma demo_table_inv : table_inv demo_table.
Proof.
  split; try done.
  - by exists 3.
  - intros j h x Hj. destruct j as [|[|[|[|[|[|[|[|j]]]]]]]]; cbn in Hj; simplify_eq.
    + exists 0. split; [cbn; lia|]. split; [done|]. intros c Hc. lia.
    + exists 1. split; [cbn; lia|]. split; [done|]. intros c Hc.
      replace c with 0 by lia. by exists (Live 9 9).
  - intros h x Hin. cbn in Hin. rewrite !elem_of_cons, elem_of_nil in Hin.
    unfold in_u. destruct Hin as [[= -> ->] | [[= -> ->] | []]]; lia.
Qed.

Lemma reachable_probes_halt_witness :
  let t := mkHashTable 2 0 0 [NULL; NULL] : HashTable Z in
  numEntries t = zlen (contents (pEntries t)) /\ numDeadEntries t = countTombStones t /\
  numEntries t < tableSize t /\
  forall hit h, in_u 32 h -> exists i d,
    probe (Z.to_nat (tableSize t)) t hit (h .& (tableSize t - 1)) 0 = Done (i, d) /\
    0 <= d < tableSize t.
Proof.
  apply (reachable_probes_halt Z.sub (fun _ => true) (fun z => wrap 32 z)
           (mkHashTable 2 0 0 [NULL; NULL])); [intros; by apply (wrap_range 32) | done |].
  apply (reach_create _ _ _ 2); [lia | reflexivity].
Defined.

Lemma mzHashTableLookup_correct_witness :
  exists t' r, mzHashTableLookup Z.sub (fun _ => true) demo_table 17 17 true = Done (t', r) /\
    table_inv t' /\
    ((exists y, r = Some y /\ t' = demo_table /\ (17, y) ∈ contents (pEntries demo_table) /\ y - 17 = 0) \/
     ((forall y, (17, y) ∈ contents (pEntries demo_table) -> y - 17 ≠ 0) /\
      (r = Some 17 /\ contents (pEntries t') ≡ₚ (17, 17) :: contents (pEntries demo_table)))).
Proof.
  apply (mzHashTableLookup_correct Z.sub (fun _ => true) demo_table 17 17 true);
    [apply demo_table_inv | unfold in_u; lia | cbn; lia | done].
Defined.

Lemma mzHashTableRemove_correct_witness :
  exists t' b, mzHashTableRemove demo_table 1 1 = Done (t', b) /\ table_inv t' /\
    if b then contents (pEntries demo_table) ≡ₚ (1, 1) :: contents (pEntries t')
    else t' = demo_table /\ forall h', (h', 1) ∉ contents (pEntries demo_table).
Proof.
  apply (mzHashTableRemove_correct demo_table 1 1); [apply demo_table_inv | unfold in_u; lia |].
  intros h' Hin. cbn in Hin. rewrite !elem_of_cons, elem_of_nil in Hin.
  by destruct Hin as [Heq | [Heq | []]]; simplify_eq.
Defined.

Lemma mzHashTableClear_frees_all_witness :
  table_inv (mzHashTableClear demo_table).2 /\
  contents (pEntries (mzHashTableClear demo_table).2) = [] /\
  tableSize (mzHashTableClear demo_table).2 = 8 /\ (mzHashTableClear demo_table).1 = [9; 1].
Proof. apply (mzHashTableClear_frees_all demo_table). apply demo_table_inv. Defined.
