(* ===== verification/Edify.v ===== *)
(** * The edify expression language ([edify/expr.c], [edify/expr.h])

    An expression is a C function with argument expressions; evaluating it
    calls the function, which evaluates the arguments it wants.  A function
    sees of each argument how to evaluate it and where it starts and ends in
    the script, and that is what [arg] holds.  NULL is [None]; reading an
    [argv] element that does not exist is [Undef].  [cookie] is the
    application's own state; [stdout] and [sleep] leave a trace. *)
From S2P Require Import Prelude Cstring.
From stdpp Require Import pretty sorting.
From Stdlib Require Import Ascii.
Open Scope string_scope.
Open Scope Z_scope.

Section Edify.
  Context {Cookie : Type}.

Inductive Value :=
  | VAL_STRING (data : string)
  | VAL_BLOB (data : list Z)
  (** a blob of size -1 without data *)
  | VAL_NULL_BLOB.

Inductive effect := EStdout (s : string) | ESleep (seconds : Z).

Record State := mkState {
  cookie : Cookie;
  script : string;
  errmsg : option string;
  effects : list effect
}.

(** A computation on the state that returns a pointer or NULL. *)
Definition M (A : Type) : Type := State -> outcome (option A * State).

Record arg := mkArg { a_eval : M Value; a_start : Z; a_end : Z }.

Definition Function : Type := string -> list arg -> M Value.

#[warnings="-register-all"]
Inductive Expr := mkExpr (fn : Function) (name : string) (argv : list Expr) (start end_ : Z).

Definition set_errmsg (msg : string) (st : State) : State :=
  mkState (cookie st) (script st) (Some msg) (effects st).

Definition emit_effect (e : effect) (st : State) : State :=
  mkState (cookie st) (script st) (errmsg st) (effects st ++ [e]).

(** [return NULL], [return v], and "if it is NULL return NULL, else go on". *)
Definition ret_null {A} : M A := fun st => Done (None, st).
Definition ret {A} (a : A) : M A := fun st => Done (Some a, st).
Definition bind {A B} (m : M A) (k : A -> M B) : M B := fun st =>
  match m st with
  | Done (Some a, st) => k a st
  | Done (None, st) => Done (None, st)
  | Fail c => Fail c
  | Undef => Undef
  | Diverge => Diverge
  end.

(** [argv[i]]. *)
Definition argv_at {A} (argv : list arg) (i : nat) (k : arg -> M A) : M A :=
  match argv !! i with Some a => k a | None => fun _ => Undef end.

Definition BooleanString (s : string) : bool := negb (bool_decide (s = "")).

(** [ErrorAbort] formats into a 4096-byte buffer. *)
Definition ErrorAbort {A} (msg : string) : M A := fun st =>
  Done (None, set_errmsg (String.substring 0 4095 msg) st).

Definition EvaluateValue (a : arg) : M Value := a_eval a.

Definition Evaluate (a : arg) : M string :=
  bind (a_eval a) (fun v =>
    match v with
    | VAL_STRING s => ret s
    | VAL_BLOB _ | VAL_NULL_BLOB => ErrorAbort "expecting string, got value type 2"
    end).

Definition StringValue (s : string) : M Value := ret (VAL_STRING s).

(** [state->errmsg = strdup(msg); return NULL;] *)
Definition fail_with {A} (msg : string) : M A := fun st => Done (None, set_errmsg msg st).

(** ** Convenience methods for functions *)

Fixpoint ReadVarArgs (argv : list arg) : M (list string) :=
  match argv with
  | [] => ret []
  | a :: argv => bind (Evaluate a) (fun s => bind (ReadVarArgs argv) (fun l => ret (s :: l)))
  end.

Fixpoint ReadValueVarArgs (argv : list arg) : M (list Value) :=
  match argv with
  | [] => ret []
  | a :: argv => bind (EvaluateValue a) (fun v => bind (ReadValueVarArgs argv) (fun l => ret (v :: l)))
  end.

(** [ReadArgs(state, argv, count, ...)]: the first [count] arguments. *)
Fixpoint ReadArgs (argv : list arg) (count : nat) : M (list string) :=
  match count, argv with
  | O, _ => ret []
  | S _, [] => fun _ => Undef
  | S count, a :: argv =>
      bind (Evaluate a) (fun s => bind (ReadArgs argv count) (fun l => ret (s :: l)))
  end.

Fixpoint ReadValueArgs (argv : list arg) (count : nat) : M (list Value) :=
  match count, argv with
  | O, _ => ret []
  | S _, [] => fun _ => Undef
  | S count, a :: argv =>
      bind (EvaluateValue a) (fun v => bind (ReadValueArgs argv count) (fun l => ret (v :: l)))
  end.

(** ** The functions *)

Definition ConcatFn : Function := fun name argv =>
  match argv with
  | [] => StringValue ""
  | _ => bind (ReadVarArgs argv) (fun strings => StringValue (String.concat "" strings))
  end.

Definition IfElseFn : Function := fun name argv =>
  if negb (length argv =? 2)%nat && negb (length argv =? 3)%nat
  then fail_with "ifelse expects 2 or 3 arguments"
  else argv_at argv 0 (fun a0 => bind (Evaluate a0) (fun cond =>
    if BooleanString cond then argv_at argv 1 EvaluateValue
    else if (length argv =? 3)%nat then argv_at argv 2 EvaluateValue
    else StringValue cond)).

(** The message is NULL both without an argument and when it evaluates to NULL. *)
Definition AbortFn : Function := fun name argv st =>
  match argv with
  | [] => Done (None, set_errmsg "called abort()" st)
  | a :: _ =>
      match Evaluate a st with
      | Done (Some msg, st) => Done (None, set_errmsg msg st)
      | Done (None, st) => Done (None, set_errmsg "called abort()" st)
      | Fail c => Fail c
      | Undef => Undef
      | Diverge => Diverge
      end
  end.

(** [state->script + start .. + end], for the message of a failed assert. *)
Definition script_slice (s : string) (b e : Z) : option string :=
  if (0 <=? b) && (b <=? e) && (e <=? Z.of_nat (String.length s))
  then Some (String.substring (Z.to_nat b) (Z.to_nat (e - b)) s) else None.

Fixpoint AssertFn (name : string) (argv : list arg) : M Value :=
  match argv with
  | [] => StringValue ""
  | a :: argv =>
      bind (Evaluate a) (fun v =>
        if BooleanString v then AssertFn name argv
        else fun st =>
          match script_slice (script st) (a_start a) (a_end a) with
          | Some src => Done (None, set_errmsg ("assert failed: " ++ src) st)
          | None => Undef
          end)
  end.

Fixpoint StdoutFn (name : string) (argv : list arg) : M Value :=
  match argv with
  | [] => StringValue ""
  | a :: argv =>
      bind (Evaluate a) (fun v => fun st => StdoutFn name argv (emit_effect (EStdout v) st))
  end.

Definition LogicalAndFn : Function := fun name argv =>
  argv_at argv 0 (fun a0 => bind (Evaluate a0) (fun left =>
    if BooleanString left then argv_at argv 1 EvaluateValue else StringValue left)).

Definition LogicalOrFn : Function := fun name argv =>
  argv_at argv 0 (fun a0 => bind (Evaluate a0) (fun left =>
    if BooleanString left then StringValue left else argv_at argv 1 EvaluateValue)).

Definition LogicalNotFn : Function := fun name argv =>
  argv_at argv 0 (fun a0 => bind (Evaluate a0) (fun val =>
    StringValue (if BooleanString val then "" else "t"))).

Definition SubstringFn : Function := fun name argv =>
  argv_at argv 0 (fun a0 => bind (Evaluate a0) (fun needle =>
  argv_at argv 1 (fun a1 => bind (Evaluate a1) (fun haystack =>
    StringValue (if strstr haystack needle then "t" else ""))))).

Definition EqualityFn : Function := fun name argv =>
  argv_at argv 0 (fun a0 => bind (Evaluate a0) (fun left =>
  argv_at argv 1 (fun a1 => bind (Evaluate a1) (fun right =>
    StringValue (if bool_decide (left = right) then "t" else ""))))).

Definition InequalityFn : Function := fun name argv =>
  argv_at argv 0 (fun a0 => bind (Evaluate a0) (fun left =>
  argv_at argv 1 (fun a1 => bind (Evaluate a1) (fun right =>
    StringValue (if bool_decide (left = right) then "" else "t"))))).

Definition SequenceFn : Function := fun name argv =>
  argv_at argv 0 (fun a0 => bind (EvaluateValue a0) (fun _ => argv_at argv 1 EvaluateValue)).

(** [strtol] and the test "is not an int". *)
Definition parse_long (s : string) : option Z :=
  let '(v, rest) := strtol s in
  if bool_decide (s = "") || negb (bool_decide (rest = "")) then None else Some v.

Definition LessThanIntFn : Function := fun name argv =>
  if negb (length argv =? 2)%nat then fail_with "less_than_int expects 2 arguments"
  else bind (ReadArgs argv 2) (fun args =>
    match args with
    | [left_; right_] =>
        let result := match parse_long left_ with
          | None => false
          | Some l_int =>
              match parse_long right_ with None => false | Some r_int => l_int <? r_int end
          end in
        StringValue (if result then "t" else "")
    | _ => fun _ => Undef
    end).

Definition GreaterThanIntFn : Function := fun name argv =>
  if negb (length argv =? 2)%nat then fail_with "greater_than_int expects 2 arguments"
  else argv_at argv 1 (fun a1 => argv_at argv 0 (fun a0 => LessThanIntFn name [a1; a0])).

Definition SleepFn : Function := fun name argv =>
  argv_at argv 0 (fun a0 => bind (Evaluate a0) (fun val => fun st =>
    StringValue val (emit_effect (ESleep (swrap 32 (strtol val).1)) st))).

Definition Literal : Function := fun name argv => StringValue name.

(** [expr->fn(expr->name, state, expr->argc, expr->argv)]: what a function
    sees of an argument expression. *)
Fixpoint expr_arg (e : Expr) : arg :=
  match e with
  | mkExpr fn name argv start end_ => mkArg (fn name (map expr_arg argv)) start end_
  end.

(** [Build(fn, loc, count, ...)]. *)
Definition Build (fn : Function) (loc : Z * Z) (args : list Expr) : Expr :=
  mkExpr fn "(operator)" args loc.1 loc.2.

(** ** The function table *)

Record fn_registry := mkReg {
  fn_entries : Z;
  fn_size : Z;
  fn_table : list (string * Function)
}.

Definition empty_registry : fn_registry := mkReg 0 0 [].

(** The write goes to [fn_table[fn_entries]], which must be below [fn_size]. *)
Definition RegisterFunction (name : string) (fn : Function) (r : fn_registry)
  : option fn_registry :=
  let size := if fn_size r <=? fn_entries r then fn_size r * 2 + 1 else fn_size r in
  if fn_entries r <? size
  then Some (mkReg (fn_entries r + 1) size (fn_table r ++ [(name, fn)]))
  else None.

(** [fn_entry_compare(a, b) <= 0]: [strcmp] on the names. *)
Definition fn_entry_le (a b : string * Function) : Prop := String.le a.1 b.1.

#[export] Instance fn_entry_le_dec : RelDecision fn_entry_le.
Proof. unfold fn_entry_le. intros a b. apply _. Defined.

(** [qsort(fn_table, fn_entries, ...)]. *)
Definition FinishRegistration (r : fn_registry) : fn_registry :=
  mkReg (fn_entries r) (fn_size r) (merge_sort fn_entry_le (fn_table r)).

(** [bsearch(&key, fn_table, ...)] on the elements from [lo] up to [hi]. *)
Fixpoint bsearch (fuel : nat) (key : string) (table : list (string * Function)) (lo hi : nat)
  : option (string * Function) :=
  match fuel with
  | O => None
  | S fuel =>
      if (hi <=? lo)%nat then None
      else
        let mid := ((lo + hi) / 2)%nat in
        match table !! mid with
        | None => None
        | Some nf =>
            match String.compare key nf.1 with
            | Eq => Some nf
            | Lt => bsearch fuel key table lo mid
            | Gt => bsearch fuel key table (S mid) hi
            end
        end
  end.

Definition FindFunction (name : string) (r : fn_registry) : option Function :=
  snd <$> bsearch (S (length (fn_table r))) name (fn_table r) 0 (Z.to_nat (fn_entries r)).

Definition builtins : list (string * Function) :=
  [("ifelse", IfElseFn); ("abort", AbortFn); ("assert", AssertFn); ("concat", ConcatFn);
   ("is_substring", SubstringFn); ("stdout", StdoutFn); ("sleep", SleepFn);
   ("less_than_int", LessThanIntFn); ("greater_than_int", GreaterThanIntFn)].

Fixpoint register_all (l : list (string * Function)) (r : fn_registry) : option fn_registry :=
  match l with
  | [] => Some r
  | (name, fn) :: l => r ← RegisterFunction name fn r; register_all l r
  end.

Definition RegisterBuiltins (r : fn_registry) : option fn_registry := register_all builtins r.

(** ** The actions of the grammar *)

Inductive operator := OpSequence | OpConcat | OpEqual | OpDiffer | OpAnd | OpOr.

Definition operator_fn (op : operator) : Function :=
  match op with
  | OpSequence => SequenceFn | OpConcat => ConcatFn | OpEqual => EqualityFn
  | OpDiffer => InequalityFn | OpAnd => LogicalAndFn | OpOr => LogicalOrFn
  end.

(** What the rules of [expr] have recognized; [loc] is where it is in the script.
    "expr ;" is the expression in front of it. *)
#[warnings="-register-all"]
Inductive syntax :=
  | SString (s : string) (loc : Z * Z)
  | SParens (e : syntax) (loc : Z * Z)
  | SBinary (op : operator) (e1 e2 : syntax) (loc : Z * Z)
  | SNot (e : syntax) (loc : Z * Z)
  | SIf (e1 e2 : syntax) (loc : Z * Z)
  | SIfElse (e1 e2 e3 : syntax) (loc : Z * Z)
  | SCall (name : string) (args : list syntax) (loc : Z * Z).

(** [$$->start=@$.start; $$->end=@$.end]. *)
Definition relocate (e : Expr) (loc : Z * Z) : Expr :=
  match e with mkExpr fn name argv _ _ => mkExpr fn name argv loc.1 loc.2 end.

(** The expression the actions build, [None] when a function is not known. *)
Fixpoint build_expr (r : fn_registry) (s : syntax) : option Expr :=
  match s with
  | SString str loc => Some (mkExpr Literal str [] loc.1 loc.2)
  | SParens e loc => e ← build_expr r e; Some (relocate e loc)
  | SBinary op e1 e2 loc => e1 ← build_expr r e1; e2 ← build_expr r e2; Some (Build (operator_fn op) loc [e1; e2])
  | SNot e loc => e ← build_expr r e; Some (Build LogicalNotFn loc [e])
  | SIf e1 e2 loc => e1 ← build_expr r e1; e2 ← build_expr r e2; Some (Build IfElseFn loc [e1; e2])
  | SIfElse e1 e2 e3 loc =>
      e1 ← build_expr r e1; e2 ← build_expr r e2; e3 ← build_expr r e3; Some (Build IfElseFn loc [e1; e2; e3])
  | SCall name args loc =>
      argv ← (fix build_list (args : list syntax) : option (list Expr) :=
        match args with
        | [] => Some []
        | a :: args => e ← build_expr r a; es ← build_list args; Some (e :: es)
        end) args;
      fn ← FindFunction name r;
      Some (mkExpr fn name argv loc.1 loc.2)
  end.

End Edify.

Arguments State : clear implicits.
Arguments Function : clear implicits.
Arguments Expr : clear implicits.
Arguments arg : clear implicits.
Arguments M : clear implicits.
Arguments fn_registry : clear implicits.
Arguments operator_fn {_} _.
Arguments build_expr {_} _ _.

(** ** What every function promises to the evaluator *)

Section Evaluation.
  Context {Cookie : Type}.
  Implicit Types (st : State Cookie) (a : arg Cookie).

(** On a script of [len] characters the computation returns, leaves the script
    alone, only adds effects, and when it returns NULL there is an error
    message. *)
Definition behaves {A} (len : nat) (m : M Cookie A) : Prop :=
  forall st, String.length (script st) = len ->
    exists r st', m st = Done (r, st') /\ script st' = script st /\
      effects st `prefix_of` effects st' /\ (r = None -> is_Some (errmsg st')).

Definition arg_ok (len : nat) a : Prop :=
  behaves len (a_eval a) /\ 0 <= a_start a <= a_end a /\ a_end a <= Z.of_nat len.

(** [FnSpec n fn]: called with at least [n] arguments that behave, [fn]
    behaves. *)
Class FnSpec (n : nat) (fn : Function Cookie) : Prop :=
  fn_spec len name argv :
    (n <= length argv)%nat -> Forall (arg_ok len) argv -> behaves len (fn name argv).

Lemma behaves_ret {A} len (x : A) : behaves len (ret x).
Proof. intros st Hl. exists (Some x), st. by repeat split. Qed.

Lemma behaves_bind {A B} len (m : M Cookie A) (k : A -> M Cookie B) :
  behaves len m -> (forall x, behaves len (k x)) -> behaves len (bind m k).
Proof.
  intros Hm Hk st Hl. destruct (Hm st Hl) as (r & st1 & E & Hs & He & Hn). unfold bind. rewrite E.
  destruct r as [x|]; [|exists None, st1; auto].
  destruct (Hk x st1) as (r & st2 & -> & Hs2 & He2 & Hn2); [congruence|].
  exists r, st2. split; [done|]. split; [congruence|]. split; [by etrans|done].
Qed.

Lemma behaves_errmsg {A} len msg : behaves (A := A) len (fun st => Done (None, set_errmsg msg st)).
Proof. intros st Hl. exists None, (set_errmsg msg st). repeat split; auto. Qed.

Lemma behaves_effect {A} len e (m : M Cookie A) :
  behaves len m -> behaves len (fun st => m (emit_effect e st)).
Proof.
  intros Hm st Hl. destruct (Hm (emit_effect e st) Hl) as (r & st' & E & Hs & He & Hn).
  exists r, st'. split; [done|]. split; [done|]. split; [|done].
  etrans; [|exact He]. cbn. by apply prefix_app_r.
Qed.

Lemma behaves_evaluate len a : arg_ok len a -> behaves len (Evaluate a).
Proof.
  intros [Ha _]. apply behaves_bind; [done|]. intros [s|b|]; [apply behaves_ret|apply behaves_errmsg..].
Qed.

Lemma behaves_argv {A} len argv i (k : arg Cookie -> M Cookie A) :
  (i < length argv)%nat -> Forall (arg_ok len) argv ->
  (forall a, arg_ok len a -> behaves len (k a)) -> behaves len (argv_at argv i k).
Proof.
  intros Hi Hall Hk. unfold argv_at. destruct (lookup_lt_is_Some_2 argv i Hi) as [a E]. rewrite E.
  apply Hk. by eapply Forall_lookup_1.
Qed.

Lemma behaves_readvar len argv : Forall (arg_ok len) argv -> behaves len (ReadVarArgs argv).
Proof.
  induction 1; cbn [ReadVarArgs]; [apply behaves_ret|].
  apply behaves_bind; [by apply behaves_evaluate|]. intros s.
  apply behaves_bind; [done|]. intros ?. apply behaves_ret.
Qed.

Lemma behaves_read len argv n :
  (n <= length argv)%nat -> Forall (arg_ok len) argv -> behaves len (ReadArgs argv n).
Proof.
  intros Hn Hall. revert n Hn. induction Hall; intros [|n] Hn; cbn [ReadArgs length] in *;
    [apply behaves_ret|lia|apply behaves_ret|].
  apply behaves_bind; [by apply behaves_evaluate|]. intros s.
  apply behaves_bind; [apply IHHall; lia|]. intros ?. apply behaves_ret.
Qed.

End Evaluation.

#[export] Hint Resolve behaves_ret behaves_bind behaves_errmsg behaves_effect behaves_evaluate
  behaves_argv behaves_readvar behaves_read : recovery.

(** Discharges the promise of a function by following its code. *)
Ltac behave :=
  repeat first
    [ apply behaves_ret | apply behaves_errmsg | apply behaves_evaluate; assumption
    | match goal with H : arg_ok _ ?a |- behaves _ (a_eval ?a) => exact (proj1 H) end
    | match goal with H : arg_ok _ ?a |- behaves _ (EvaluateValue ?a) => exact (proj1 H) end
    | apply behaves_argv; [lia | assumption | intros]
    | apply behaves_bind; [|intros]
    | match goal with |- behaves _ (if ?b then _ else _) => destruct b eqn:? end ].

Section Builtins.
  Context {Cookie : Type}.

#[export] Instance Literal_spec : FnSpec (Cookie := Cookie) 0 Literal.
Proof. intros len name argv _ _. apply behaves_ret. Qed.

#[export] Instance ConcatFn_spec : FnSpec (Cookie := Cookie) 0 ConcatFn.
Proof.
  intros len name argv _ H. unfold ConcatFn. destruct argv; [apply behaves_ret|].
  apply behaves_bind; [by apply behaves_readvar|]. intros. apply behaves_ret.
Qed.

#[export] Instance IfElseFn_spec : FnSpec (Cookie := Cookie) 0 IfElseFn.
Proof.
  intros len name argv _ H. unfold IfElseFn.
  destruct (negb _ && negb _) eqn:E; [apply behaves_errmsg|].
  apply andb_false_iff in E.
  rewrite !negb_false_iff, !Nat.eqb_eq in E.
  behave. apply Nat.eqb_eq in Heqb0. behave.
Qed.

#[export] Instance AbortFn_spec : FnSpec (Cookie := Cookie) 0 AbortFn.
Proof.
  intros len name argv _ H. unfold AbortFn. destruct H as [|a argv Ha _].
  - apply (behaves_errmsg len "called abort()").
  - intros st Hl. destruct (behaves_evaluate len a Ha st Hl) as (r & st1 & -> & Hs & He & _).
    destruct r as [msg|]; do 2 eexists; (split; [done|]); repeat split; auto; by eexists.
Qed.

#[export] Instance AssertFn_spec : FnSpec (Cookie := Cookie) 0 AssertFn.
Proof.
  intros len name argv _ H. induction H as [|a argv Ha _ IH]; [apply behaves_ret|]. cbn [AssertFn].
  apply behaves_bind; [by apply behaves_evaluate|]. intros v.
  destruct (BooleanString v); [done|]. intros st Hl. destruct Ha as (_ & Hb & He).
  unfold script_slice. rewrite Hl, !(proj2 (Z.leb_le _ _)) by lia. cbn.
  by apply (behaves_errmsg len).
Qed.

#[export] Instance StdoutFn_spec : FnSpec (Cookie := Cookie) 0 StdoutFn.
Proof.
  intros len name argv _ H. induction H as [|a argv Ha _ IH]; [apply behaves_ret|]. cbn [StdoutFn].
  apply behaves_bind; [by apply behaves_evaluate|]. intros v. by apply behaves_effect.
Qed.

#[export] Instance SleepFn_spec : FnSpec (Cookie := Cookie) 1 SleepFn.
Proof.
  intros len name argv Hn H. unfold SleepFn. behave.
  apply (behaves_effect len _ (StringValue _)), behaves_ret.
Qed.

#[export] Instance LogicalAndFn_spec : FnSpec (Cookie := Cookie) 2 LogicalAndFn.
Proof. intros len name argv Hn H. unfold LogicalAndFn. behave. Qed.

#[export] Instance LogicalOrFn_spec : FnSpec (Cookie := Cookie) 2 LogicalOrFn.
Proof. intros len name argv Hn H. unfold LogicalOrFn. behave. Qed.

#[export] Instance LogicalNotFn_spec : FnSpec (Cookie := Cookie) 1 LogicalNotFn.
Proof. intros len name argv Hn H. unfold LogicalNotFn. behave. Qed.

#[export] Instance SubstringFn_spec : FnSpec (Cookie := Cookie) 2 SubstringFn.
Proof. intros len name argv Hn H. unfold SubstringFn. behave. Qed.

#[export] Instance EqualityFn_spec : FnSpec (Cookie := Cookie) 2 EqualityFn.
Proof. intros len name argv Hn H. unfold EqualityFn. behave. Qed.

#[export] Instance InequalityFn_spec : FnSpec (Cookie := Cookie) 2 InequalityFn.
Proof. intros len name argv Hn H. unfold InequalityFn. behave. Qed.

#[export] Instance SequenceFn_spec : FnSpec (Cookie := Cookie) 2 SequenceFn.
Proof. intros len name argv Hn H. unfold SequenceFn. behave. Qed.

End Builtins.

Section Expressions.
  Context {Cookie : Type}.

#[export] Instance LessThanIntFn_spec : FnSpec (Cookie := Cookie) 0 LessThanIntFn.
Proof.
  intros len name argv _ H. unfold LessThanIntFn.
  destruct (length argv =? 2)%nat eqn:E; cbn [negb]; [|apply behaves_errmsg].
  apply Nat.eqb_eq in E. destruct argv as [|a [|b [|? ?]]]; try discriminate.
  rewrite !Forall_cons in H. destruct H as (Ha & Hb & _).
  intros st Hl. unfold ReadArgs. cbn.
  destruct (behaves_evaluate len a Ha st Hl) as ([l|] & st1 & E1 & Hs1 & He1 & Hn1);
    unfold bind at 1 2; rewrite E1; [|exists None, st1; auto].
  destruct (behaves_evaluate len b Hb st1) as ([r|] & st2 & E2 & Hs2 & He2 & Hn2); [congruence| |];
    unfold bind at 1 2; rewrite E2; cbn;
    [eexists (Some _), st2 | exists None, st2]; repeat split; auto; try congruence; by etrans.
Qed.

#[export] Instance GreaterThanIntFn_spec : FnSpec (Cookie := Cookie) 0 GreaterThanIntFn.
Proof.
  intros len name argv _ H. unfold GreaterThanIntFn.
  destruct (length argv =? 2)%nat eqn:E; cbn [negb]; [|apply behaves_errmsg].
  apply Nat.eqb_eq in E. apply behaves_argv; [lia | done |]. intros a1 H1.
  apply behaves_argv; [lia | done |]. intros a0 H0.
  apply (fn_spec (n := 0)); [cbn; lia|]. constructor; [done|]. constructor; [done|]. constructor.
Qed.

(** An expression whose functions keep their promises on the arguments they have,
    with locations inside a script of [len] characters. *)
#[warnings="-register-all"]
Inductive wf_expr (len : nat) : Expr Cookie -> Prop :=
  | wf_mkExpr n fn name argv start end_ :
      FnSpec n fn -> (n <= length argv)%nat -> 0 <= start <= end_ -> end_ <= Z.of_nat len ->
      Forall (wf_expr len) argv -> wf_expr len (mkExpr fn name argv start end_).

Lemma Expr_nested_ind (P : Expr Cookie -> Prop) :
  (forall fn name argv start end_, Forall P argv -> P (mkExpr fn name argv start end_)) ->
  forall e, P e.
Proof.
  intros H. fix IH 1. intros [fn name argv start end_]. apply H.
  induction argv as [|a argv IHl]; constructor; [apply IH | exact IHl].
Qed.

Lemma wf_arg_ok len e : wf_expr len e -> arg_ok len (expr_arg e).
Proof.
  induction e as [fn name argv start end_ IH] using Expr_nested_ind. intros Hwf.
  inversion Hwf as [n ? ? ? ? ? Hfn Hn Hs He Hall]; subst.
  split; [|split; assumption]. cbn [expr_arg a_eval].
  apply (fn_spec (n := n)); [by rewrite length_map|]. clear Hn Hwf.
  induction IH as [|e argv Hp _ IHl]; cbn [map]; [constructor|].
  apply Forall_cons in Hall as [He' Hall]. constructor; auto.
Qed.

(** ** The function table *)

Lemma RegisterFunction_some name fn (r : fn_registry Cookie) :
  fn_entries r <= fn_size r -> fn_entries r = zlen (fn_table r) ->
  exists r', RegisterFunction name fn r = Some r' /\ fn_table r' = (fn_table r ++ [(name, fn)])%list /\
    fn_entries r' <= fn_size r' /\ fn_entries r' = zlen (fn_table r').
Proof.
  intros Hle Hlen. unfold RegisterFunction.
  destruct (Z.leb_spec (fn_size r) (fn_entries r));
    rewrite (proj2 (Z.ltb_lt _ _)) by lia; eexists; (split; [done|]); cbn;
    rewrite length_app; cbn; repeat split; lia.
Qed.

Lemma register_all_some l (r : fn_registry Cookie) :
  fn_entries r <= fn_size r -> fn_entries r = zlen (fn_table r) ->
  exists r', register_all l r = Some r' /\ fn_table r' = (fn_table r ++ l)%list /\
    fn_entries r' <= fn_size r' /\ fn_entries r' = zlen (fn_table r').
Proof.
  revert r. induction l as [|[name fn] l IH]; intros r Hle Hlen; cbn [register_all].
  - exists r. by rewrite app_nil_r.
  - destruct (RegisterFunction_some name fn r Hle Hlen) as (r1 & -> & Ht & Hle1 & Hlen1). cbn.
    destruct (IH r1 Hle1 Hlen1) as (r' & -> & Ht' & ?). exists r'. split; [done|].
    split; [by rewrite Ht', Ht, <- app_assoc | done].
Qed.

Lemma compare_le_lt (a b : string) : String.compare a b = Lt -> String.le b a -> False.
Proof.
  unfold String.le, String.leb. intros H. rewrite String.compare_antisym, H. done.
Qed.

(** [bsearch] over a sorted table with distinct names finds the entry. *)
Lemma bsearch_complete fuel key (t : list (string * Function Cookie)) lo hi i nf :
  StronglySorted fn_entry_le t -> (hi <= length t)%nat -> (hi - lo < fuel)%nat ->
  (lo <= i < hi)%nat -> t !! i = Some nf -> nf.1 = key ->
  exists nf', bsearch fuel key t lo hi = Some nf' /\ nf'.1 = key /\ nf' ∈ t.
Proof.
  intros Hs. revert lo hi. induction fuel as [|fuel IH]; intros lo hi Hh Hf Hi Hn Hk; [lia|].
  cbn [bsearch]. rewrite (proj2 (Nat.leb_gt hi lo)) by lia.
  pose proof (Nat.div_le_lower_bound (lo + hi) 2 lo ltac:(lia) ltac:(lia)).
  pose proof (Nat.Div0.div_lt_upper_bound (lo + hi) 2 hi ltac:(lia)).
  set (mid := ((lo + hi) / 2)%nat) in *.
  destruct (lookup_lt_is_Some_2 t mid) as [m Hm]; [lia|]. rewrite Hm.
  assert (forall p q x y, (p < q)%nat -> t !! p = Some x -> t !! q = Some y -> String.le x.1 y.1) as Hord.
  { intros p q x y Hpq Hx Hy. rewrite <- (take_drop_middle t p x Hx) in Hs.
    apply StronglySorted_app_1_r in Hs. apply StronglySorted_cons in Hs as [Hall _].
    rewrite Forall_forall in Hall. apply (Hall y).
    apply list_elem_of_lookup. exists (q - S p)%nat. rewrite lookup_drop.
    by replace (S p + (q - S p))%nat with q by lia. }
  destruct (String.compare key m.1) eqn:Ec.
  - exists m. split; [done|]. apply String.compare_eq_iff in Ec. split; [done|].
    apply list_elem_of_lookup; eauto.
  - apply IH; try done; try lia. destruct (decide (i < mid)%nat); [lia|]. exfalso.
    apply (compare_le_lt key m.1 Ec). rewrite <- Hk.
    destruct (decide (i = mid)) as [->|]; [replace nf with m by congruence; reflexivity|].
    apply (Hord mid i); [lia|done|done].
  - apply IH; try done; try lia. destruct (decide (mid < i)%nat); [lia|]. exfalso.
    apply (compare_le_lt m.1 key); [by rewrite String.compare_antisym, Ec|]. rewrite <- Hk.
    destruct (decide (i = mid)) as [->|]; [replace nf with m by congruence; reflexivity|].
    apply (Hord i mid); [lia|done|done].
Qed.

Lemma bsearch_sound fuel key (t : list (string * Function Cookie)) lo hi nf :
  bsearch fuel key t lo hi = Some nf -> nf.1 = key /\ nf ∈ t.
Proof.
  revert lo hi. induction fuel as [|fuel IH]; intros lo hi; cbn [bsearch]; [done|].
  destruct (hi <=? lo)%nat; [done|]. destruct (t !! _) as [m|] eqn:Hm; [|done].
  destruct (String.compare key m.1) eqn:Ec; [|by apply IH..].
  intros [= <-]. apply String.compare_eq_iff in Ec. split; [done|].
  apply list_elem_of_lookup; eauto.
Qed.

#[export] Instance fn_entry_le_total : Total (fn_entry_le (Cookie := Cookie)).
Proof. intros a b. unfold fn_entry_le. apply String.le_total. Qed.

#[export] Instance fn_entry_le_trans : Transitive (fn_entry_le (Cookie := Cookie)).
Proof. intros a b c. unfold fn_entry_le. apply String.le_po. Qed.

Lemma unique_entry (l : list (string * Function Cookie)) n f g :
  NoDup l.*1 -> (n, f) ∈ l -> (n, g) ∈ l -> f = g.
Proof. intros Hnd Hf Hg. by pose proof (NoDup_fmap_unique fst l _ _ Hnd Hf Hg eq_refl) as [= ->]. Qed.

End Expressions.

Lemma parse_long_numeral neg ds :
  ds ≠ [] -> Forall (fun d => 0 <= d < 10) ds ->
  parse_long (numeral neg ds) = Some (numeral_value neg ds).
Proof.
  intros Hne Hds. unfold parse_long. rewrite strtol_numeral by done.
  rewrite bool_decide_eq_false_2; [done|]. destruct neg; [done|]. by destruct ds.
Qed.

(** ** Properties *)

(** The function table: after registering any list of functions under
    distinct names - the realloc'd table never overflows - and sorting it,
    [FindFunction] returns exactly the function registered under a name and
    NULL for every other name. *)
Theorem FindFunction_correct {Cookie : Type} (l : list (string * Function Cookie)) :
  NoDup l.*1 ->
  exists r, register_all l empty_registry = Some r /\
    (forall n f, (n, f) ∈ l -> FindFunction n (FinishRegistration r) = Some f) /\
    (forall n, n ∉ l.*1 -> FindFunction n (FinishRegistration r) = None).
Proof.
  intros Hnd. destruct (register_all_some l (@empty_registry Cookie)) as (r & Hr & Ht & _ & Hlen); [done..|].
  exists r. split; [done|]. cbn in Ht. unfold FindFunction, FinishRegistration. cbn [fn_table fn_entries].
  rewrite Hlen, Ht, Nat2Z.id. set (t := merge_sort fn_entry_le l).
  assert (t ≡ₚ l) as HP by apply merge_sort_Permutation.
  assert (StronglySorted fn_entry_le t) as Hs by (apply StronglySorted_merge_sort; apply _).
  split.
  - intros n f Hin. pose proof Hin as Hin2. rewrite <- HP in Hin2.
    apply list_elem_of_lookup in Hin2 as [i Hi]. pose proof (lookup_lt_Some _ _ _ Hi).
    destruct (bsearch_complete (S (length t)) n t 0 (length l) i (n, f)) as ([n' g] & -> & Hk & Hg);
      try done; try (rewrite <- HP; lia). cbn in Hk. subst n'. cbn. f_equal.
    rewrite HP in Hg. by apply (unique_entry l n).
  - intros n Hni. destruct (bsearch _ n t 0 (length l)) as [[n' g]|] eqn:E; [|done].
    apply bsearch_sound in E as [Hk Hg]. cbn in Hk. subst n'. rewrite HP in Hg.
    exfalso. apply Hni. apply list_elem_of_fmap. by exists (n, g).
Qed.

(** ** Scripts of the builtin functions *)

Definition builtin_registry {Cookie : Type} : fn_registry Cookie :=
  FinishRegistration (default empty_registry (RegisterBuiltins empty_registry)).

(** How many arguments a function looks at without having counted them. *)
Definition needed (name : string) : nat :=
  if String.eqb name "sleep" then 1 else if String.eqb name "is_substring" then 2 else 0.

Definition inside (len : nat) (loc : Z * Z) : bool := (0 <=? loc.1) && (loc.1 <=? loc.2) && (loc.2 <=? Z.of_nat len).

(** The locations are in a script of [len] characters, and [sleep] and
    [is_substring] have the arguments they need. *)
Fixpoint well_called (len : nat) (s : syntax) : bool :=
  match s with
  | SString _ loc => inside len loc
  | SParens e loc | SNot e loc => well_called len e && inside len loc
  | SBinary _ e1 e2 loc | SIf e1 e2 loc => well_called len e1 && well_called len e2 && inside len loc
  | SIfElse e1 e2 e3 loc => well_called len e1 && well_called len e2 && well_called len e3 && inside len loc
  | SCall name args loc => forallb (well_called len) args && (needed name <=? length args)%nat && inside len loc
  end.

Section Scripts.
  Context {Cookie : Type}.

Lemma inside_spec len loc : inside len loc = true -> 0 <= loc.1 <= loc.2 /\ loc.2 <= Z.of_nat len.
Proof. unfold inside. intros H. bool_to_prop. lia. Qed.

Lemma operator_spec op : FnSpec (Cookie := Cookie) 2 (operator_fn op).
Proof. destruct op; try apply _. intros len name argv _ H. apply (fn_spec (n := 0)); [lia|done]. Qed.

Lemma builtin_spec name fn : FindFunction name (builtin_registry (Cookie := Cookie)) = Some fn -> FnSpec (needed name) fn.
Proof.
  destruct (FindFunction_correct (builtins (Cookie := Cookie))) as (r & Hr & Hin & Hout); [by_decide|].
  unfold builtin_registry, RegisterBuiltins. rewrite Hr. cbn [default from_option]. unfold id. intros Hf.
  destruct (decide (name ∈ (builtins (Cookie := Cookie)).*1)) as [Hn|Hn]; [|by rewrite (Hout _ Hn) in Hf].
  apply list_elem_of_fmap in Hn as ([n f] & -> & Hn). cbn [fst] in *. rewrite (Hin _ _ Hn) in Hf. injection Hf as ->.
  unfold builtins in Hn.
  repeat (apply elem_of_cons in Hn as [E|Hn]; [injection E as -> ->; change (needed _) with 0%nat || change (needed _) with 1%nat || change (needed _) with 2%nat; apply _|]).
  by apply not_elem_of_nil in Hn.
Qed.

Lemma relocate_wf len (e : Expr Cookie) loc : wf_expr len e -> inside len loc = true -> wf_expr len (relocate e loc).
Proof.
  intros He Hl%inside_spec. destruct He as [n fn name argv st en Hfn Hn _ _ Hall]. cbn [relocate].
  by apply (wf_mkExpr _ n); [..|lia|lia|].
Qed.

Lemma build_wf len n fn loc (es : list (Expr Cookie)) : FnSpec n fn -> (n <= length es)%nat -> inside len loc = true ->
  Forall (wf_expr len) es -> wf_expr len (Build fn loc es).
Proof. intros Hfn Hn Hl%inside_spec Hes. by apply (wf_mkExpr _ n); [..|lia|lia|]. Qed.

(** What the grammar builds of such a script keeps the promise. *)
Fixpoint build_expr_wf len (s : syntax) : forall e, build_expr (builtin_registry (Cookie := Cookie)) s = Some e ->
  well_called len s = true -> wf_expr len e.
Proof.
  destruct s as [str loc|s loc|op s1 s2 loc|s loc|s1 s2 loc|s1 s2 s3 loc|name args loc]; cbn [build_expr well_called]; intros e E H.
  - injection E as <-. apply inside_spec in H. apply (wf_mkExpr _ 0); [apply _|cbn; lia|lia|lia|done].
  - destruct (build_expr _ s) as [x|] eqn:E1; [|done]. injection E as <-. apply andb_true_iff in H as [H1 H2].
    apply relocate_wf; [by apply (build_expr_wf len s)|done].
  - destruct (build_expr _ s1) as [x1|] eqn:E1; [|done]. destruct (build_expr _ s2) as [x2|] eqn:E2; [|done]. injection E as <-.
    rewrite !andb_true_iff in H. destruct H as [[H1 H2] H3].
    apply (build_wf len 2); [apply operator_spec|cbn; lia|done|]. constructor; [by apply (build_expr_wf len s1)|]. constructor; [by apply (build_expr_wf len s2)|done].
  - destruct (build_expr _ s) as [x|] eqn:E1; [|done]. injection E as <-. apply andb_true_iff in H as [H1 H2].
    apply (build_wf len 1); [apply _|cbn; lia|done|]. constructor; [by apply (build_expr_wf len s)|done].
  - destruct (build_expr _ s1) as [x1|] eqn:E1; [|done]. destruct (build_expr _ s2) as [x2|] eqn:E2; [|done]. injection E as <-.
    rewrite !andb_true_iff in H. destruct H as [[H1 H2] H3].
    apply (build_wf len 0); [apply _|cbn; lia|done|]. constructor; [by apply (build_expr_wf len s1)|]. constructor; [by apply (build_expr_wf len s2)|done].
  - destruct (build_expr _ s1) as [x1|] eqn:E1; [|done]. destruct (build_expr _ s2) as [x2|] eqn:E2; [|done].
    destruct (build_expr _ s3) as [x3|] eqn:E3; [|done]. injection E as <-. rewrite !andb_true_iff in H. destruct H as [[[H1 H2] H3] H4].
    apply (build_wf len 0); [apply _|cbn; lia|done|]. constructor; [by apply (build_expr_wf len s1)|].
    constructor; [by apply (build_expr_wf len s2)|]. constructor; [by apply (build_expr_wf len s3)|done].
  - rewrite !andb_true_iff in H. destruct H as [[H1 H2] H3]. apply Nat.leb_le in H2. apply inside_spec in H3.
    assert (forall argv, (fix build_list (args : list syntax) : option (list (Expr Cookie)) :=
      match args with
      | [] => Some []
      | a :: args => e ← build_expr builtin_registry a; es ← build_list args; Some (e :: es)
      end) args = Some argv -> length argv = length args /\ Forall (wf_expr len) argv) as Hargs.
    { clear E H2. induction args as [|a args IH]; intros argv Ea; [by injection Ea as <-|].
      cbn [forallb] in H1. apply andb_true_iff in H1 as [Ha H1].
      destruct (build_expr _ a) as [x|] eqn:Ex; [|done]. cbn [mbind option_bind] in Ea.
      apply bind_Some in Ea as (es & Es & Ea). injection Ea as <-. destruct (IH H1 es Es) as [Hl Hes]. split; [cbn; by rewrite Hl|]. constructor; [by apply (build_expr_wf len a)|done]. }
    apply bind_Some in E as (argv & Ea & E). destruct (Hargs argv Ea) as [Hl Hall]. clear Ea. destruct (FindFunction name _) as [fn|] eqn:Ef; [|done]. injection E as <-.
    apply (wf_mkExpr _ (needed name)); [by apply builtin_spec|lia|lia|lia|done].
Qed.

End Scripts.

(** [C31] A script of the builtin functions and operators, built into an expression
    by the actions of the grammar with the functions [RegisterBuiltins] has
    registered, in which every [sleep] has an argument and every [is_substring]
    two and whose locations are in the script: evaluating it returns without
    touching memory it must not, leaves the script unchanged and keeps what was
    printed before, and when it returns NULL it has left an error message.
    ([sleep] and [is_substring] with less read past the end of their arguments.) *)
Theorem evaluation_total_and_explained {Cookie : Type} (s : syntax) (e : Expr Cookie) st :
  build_expr builtin_registry s = Some e -> well_called (String.length (script st)) s = true ->
  exists r st', EvaluateValue (expr_arg e) st = Done (r, st') /\ script st' = script st /\
    effects st `prefix_of` effects st' /\ (r = None -> is_Some (errmsg st')).
Proof. intros Hb Hs. by apply (proj1 (wf_arg_ok _ e (build_expr_wf _ s e Hb Hs))). Qed.

Definition demo_lit (s : string) : Expr unit := mkExpr Literal s [] 0 1.
(** sleep("1"); !x; if a == b then abort() else assert(concat(a, ""), b) endif *)
Definition demo_syntax : syntax :=
  let lit s := SString s (0, 1) in
  SBinary OpSequence (SCall "sleep" [lit "1"] (0, 3))
    (SBinary OpSequence (SNot (lit "x") (0, 3))
      (SIfElse (SBinary OpEqual (lit "a") (lit "b") (2, 5)) (SCall "abort" [] (2, 6))
        (SParens (SCall "assert" [SCall "concat" [lit "a"; lit ""] (3, 4); SCall "is_substring" [lit "b"; lit "a"] (4, 7)] (3, 8)) (3, 9)) (2, 9)) (0, 9)) (0, 9).

Lemma evaluation_total_and_explained_witness :
  exists e r st', build_expr (Cookie := unit) builtin_registry demo_syntax = Some e /\
    EvaluateValue (expr_arg e) (mkState tt "0123456789" None []) = Done (r, st') /\
    script st' = "0123456789" /\ [] `prefix_of` effects st' /\ (r = None -> is_Some (errmsg st')).
Proof.
  assert (option_map (fun _ => tt) (build_expr (Cookie := unit) builtin_registry demo_syntax) = Some tt) as Hb by (vm_compute; reflexivity).
  destruct (build_expr (Cookie := unit) builtin_registry demo_syntax) as [e|] eqn:E; [|discriminate Hb].
  exists e. destruct (evaluation_total_and_explained demo_syntax e (mkState tt "0123456789" None []) E) as (r & st' & H); [vm_compute; reflexivity|].
  exists r, st'. split; [reflexivity|exact H].
Defined.

(** What it says in the end. *)
Example demo_syntax_runs :
  option_map (fun e => EvaluateValue (expr_arg e) (mkState tt "0123456789" None [])) (build_expr (Cookie := unit) builtin_registry demo_syntax) =
    Some (Done (None, mkState tt "0123456789" (Some "assert failed: 456") [ESleep 1])).
Proof. vm_compute. reflexivity. Qed.

Lemma FindFunction_correct_witness :
  exists r, RegisterBuiltins (Cookie := unit) empty_registry = Some r /\
    (forall n f, (n, f) ∈ builtins (Cookie := unit) -> FindFunction n (FinishRegistration r) = Some f) /\
    (forall n, n ∉ (builtins (Cookie := unit)).*1 -> FindFunction n (FinishRegistration r) = None).
Proof. apply (FindFunction_correct (Cookie := unit) builtins). by_decide. Defined.

(** The comparison builtins on decimal numerals of any length and sign,
    leading zeros included: [less_than_int] answers "t" exactly when the first
    number is below the second - both clamped to a 32-bit [long] - and
    [greater_than_int] the other way round. *)
Theorem compare_ints_correct {Cookie : Type} name (a b : arg Cookie) st st1 st2 n1 d1 n2 d2 :
  d1 ≠ [] -> d2 ≠ [] -> Forall (fun d => 0 <= d < 10) d1 -> Forall (fun d => 0 <= d < 10) d2 ->
  Evaluate a st = Done (Some (numeral n1 d1), st1) ->
  Evaluate b st1 = Done (Some (numeral n2 d2), st2) ->
  LessThanIntFn name [a; b] st =
    Done (Some (VAL_STRING (if numeral_value n1 d1 <? numeral_value n2 d2 then "t" else "")), st2) /\
  GreaterThanIntFn name [b; a] st =
    Done (Some (VAL_STRING (if numeral_value n1 d1 <? numeral_value n2 d2 then "t" else "")), st2).
Proof.
  intros N1 N2 F1 F2 E1 E2.
  assert (LessThanIntFn name [a; b] st = Done (Some (VAL_STRING
    (if numeral_value n1 d1 <? numeral_value n2 d2 then "t" else "")), st2)) as H; [|by split].
  unfold LessThanIntFn, ReadArgs. cbn. unfold bind. rewrite E1, E2. cbn.
  by rewrite !parse_long_numeral by done.
Qed.

Lemma compare_ints_correct_witness :
  let st := mkState tt "" None [] in
  LessThanIntFn "f" [expr_arg (demo_lit "-7"); expr_arg (demo_lit "012")] st
    = Done (Some (VAL_STRING "t"), st) /\
  GreaterThanIntFn "f" [expr_arg (demo_lit "012"); expr_arg (demo_lit "-7")] st
    = Done (Some (VAL_STRING "t"), st).
Proof.
  apply (compare_ints_correct "f" (expr_arg (demo_lit "-7")) (expr_arg (demo_lit "012"))
    (mkState tt "" None []) (mkState tt "" None []) (mkState tt "" None []) true [7] false [0; 1; 2]);
    try done; repeat constructor; lia.
Defined.

(** Short circuits: when the left operand of [&&] is false, or that of
    [||] true, the right operand is not evaluated at all - the result is the
    left value and the state is the one the left operand left; [ifelse]
    evaluates exactly the branch the condition selects. *)
Theorem short_circuit {Cookie : Type} name (a b c : arg Cookie) st st1 s :
  Evaluate a st = Done (Some s, st1) ->
  LogicalAndFn name [a; b] st =
    (if BooleanString s then EvaluateValue b st1 else Done (Some (VAL_STRING s), st1)) /\
  LogicalOrFn name [a; b] st =
    (if BooleanString s then Done (Some (VAL_STRING s), st1) else EvaluateValue b st1) /\
  IfElseFn name [a; b; c] st =
    (if BooleanString s then EvaluateValue b st1 else EvaluateValue c st1) /\
  IfElseFn name [a; b] st =
    (if BooleanString s then EvaluateValue b st1 else Done (Some (VAL_STRING s), st1)).
Proof.
  intros H. unfold LogicalAndFn, LogicalOrFn, IfElseFn, argv_at. cbn. unfold bind. rewrite H.
  by destruct (BooleanString s).
Qed.

Lemma short_circuit_witness :
  let st := mkState tt "" None [] in let crash := mkArg (fun _ => Undef) 0 0 in
  LogicalAndFn "&&" [expr_arg (demo_lit ""); crash] st = Done (Some (VAL_STRING ""), st) /\
  LogicalOrFn "||" [expr_arg (demo_lit ""); crash] st = Undef /\
  IfElseFn "ifelse" [expr_arg (demo_lit ""); crash; crash] st = Undef /\
  IfElseFn "ifelse" [expr_arg (demo_lit ""); crash] st = Done (Some (VAL_STRING ""), st).
Proof.
  apply (short_circuit "f" (expr_arg (demo_lit "")) (mkArg (fun _ => Undef) 0 0)
           (mkArg (fun _ => Undef) 0 0) (mkState tt "" None []) (mkState tt "" None []) "").
  reflexivity.
Defined.

(** [concat] and [assert] over any list of arguments that evaluate to
    strings: [concat] returns the concatenation in order; [assert] returns the
    empty string when all are non-empty. *)
Theorem concat_assert_values {Cookie : Type} name (args : list (arg Cookie)) (ss : list string) st :
  Forall2 (fun a s => forall st, Evaluate a st = Done (Some s, st)) args ss ->
  ConcatFn name args st = Done (Some (VAL_STRING (String.concat "" ss)), st) /\
  (Forall (fun s => s ≠ "") ss -> AssertFn name args st = Done (Some (VAL_STRING ""), st)).
Proof.
  intros H. split.
  - assert (ReadVarArgs args st = Done (Some ss, st)) as Hr.
    { induction H as [|a s args ss Ha _ IH]; [done|]. cbn. unfold bind. by rewrite Ha, IH. }
    unfold ConcatFn. destruct H as [|a s args ss Ha H]; [done|]. unfold bind. by rewrite Hr.
  - induction H as [|a s args ss Ha _ IH]; [done|]. intros [Hs Hss]%Forall_cons.
    cbn. unfold bind. rewrite Ha. unfold BooleanString.
    rewrite bool_decide_eq_false_2 by done. by apply IH.
Qed.

Lemma concat_assert_values_witness :
  let st := mkState tt "" None [] in
  ConcatFn "concat" [expr_arg (demo_lit "ab"); expr_arg (demo_lit "c")] st
    = Done (Some (VAL_STRING "abc"), st) /\
  (Forall (fun s => s ≠ "") ["ab"; "c"] ->
   AssertFn "concat" [expr_arg (demo_lit "ab"); expr_arg (demo_lit "c")] st
    = Done (Some (VAL_STRING ""), st)).
Proof.
  apply (concat_assert_values "concat" [expr_arg (demo_lit "ab"); expr_arg (demo_lit "c")] ["ab"; "c"]
    (mkState tt "" None [])). by repeat constructor.
Defined.

(** Unlike the other builtins, [is_substring] and [sleep] do not look at
    [argc]: a script that calls them with too few arguments makes them read
    past [argv]. *)
Theorem missing_arguments_undefined {Cookie : Type} (st : State Cookie) (a : arg Cookie) s st1 :
  Evaluate a st = Done (Some s, st1) ->
  ("is_substring", SubstringFn) ∈ builtins (Cookie := Cookie) /\
  ("sleep", SleepFn) ∈ builtins (Cookie := Cookie) /\
  SubstringFn "is_substring" [a] st = Undef /\ SleepFn "sleep" [] st = Undef.
Proof.
  intros H. split; [apply list_elem_of_lookup; by exists 4%nat|].
  split; [apply list_elem_of_lookup; by exists 6%nat|]. split; [|done].
  unfold SubstringFn, argv_at. cbn. unfold bind. by rewrite H.
Qed.

Lemma missing_arguments_undefined_witness :
  let st := mkState tt "" None [] in
  ("is_substring", SubstringFn) ∈ builtins (Cookie := unit) /\
  ("sleep", SleepFn) ∈ builtins (Cookie := unit) /\
  SubstringFn "is_substring" [expr_arg (demo_lit "x")] st = Undef /\ SleepFn "sleep" [] st = Undef.
Proof.
  apply (missing_arguments_undefined (mkState tt "" None []) (expr_arg (demo_lit "x")) "x"
           (mkState tt "" None [])). reflexivity.
Defined.
