(* ===== verification/Retouch.v ===== *)
(** * Undoing library retouching ([minelf/Retouch.c])

    A retouched shared library ends with a blob of encoded relocation entries,
    a [retouch_info_t] (12 bytes: "RETOUCH " and the blob size) and a
    [prelink_info_t] (8 bytes: an address and "PRE ").  The object is a list of
    bytes patched in place; every access through [binary_object] is checked.
    [retouch_offset] is taken to be non-NULL: its final value is returned. *)
From S2P Require Import Prelude Utils.

Definition RETOUCH_DATA_ERROR : Z := 0.
Definition RETOUCH_DATA_MATCHED : Z := 1.
Definition RETOUCH_DATA_MISMATCHED : Z := 2.
Definition RETOUCH_DATA_NOTAPPLICABLE : Z := 3.

(** [sizeof(prelink_info_t)] and [sizeof(retouch_info_t)], both packed. *)
Definition prelink_size : Z := 8.
Definition retouch_size : Z := 12.

(** The decoder state, [offs_prev] and [cont_prev]. *)
Record compression_state := mkCS { offs_prev : Z; cont_prev : Z }.

Definition init_compression_state : compression_state := mkCS 0 0.

(** [decode_bytes(encoded_bytes, encoded_size, &offset, &contents)]. *)
Definition decode_bytes (input : list Z) (encoded_size : Z) (cs : compression_state)
  : option (Z * Z) :=
  if encoded_size =? 2 then
    b0 ← buf_get input 0; b1 ← buf_get input 1;
    let tmp := ((b0 .& 31) <<< 8) .| b1 in
    let tmp := if tmp .& 0x1000 =? 0 then tmp else swrap 32 (0xffffe000 .| tmp) in
    Some (swrap 32 (offs_prev cs + (((b0 .& 0x60) >>> 5) + 1) * 4), wrap 32 (cont_prev cs + tmp))
  else if encoded_size =? 3 then
    b0 ← buf_get input 0; b1 ← buf_get input 1; b2 ← buf_get input 2;
    let tmp := ((b0 .& 15) <<< 16) .| (b1 <<< 8) .| b2 in
    let tmp := if tmp .& 0x80000 =? 0 then tmp else swrap 32 (0xfff00000 .| tmp) in
    Some (swrap 32 (offs_prev cs + (((b0 .& 0x30) >>> 4) + 1) * 4), wrap 32 (cont_prev cs + tmp))
  else
    b0 ← buf_get input 0; b1 ← buf_get input 1; b2 ← buf_get input 2; b3 ← buf_get input 3;
    b4 ← buf_get input 4; b5 ← buf_get input 5; b6 ← buf_get input 6; b7 ← buf_get input 7;
    let off := swrap 32 ((b0 <<< 24) .| (b1 <<< 16) .| (b2 <<< 8) .| b3) in
    Some (if off =? 0x3fffffff then -1 else off,
          wrap 32 ((b4 <<< 24) .| (b5 <<< 16) .| (b6 <<< 8) .| b7)).

(** How many bytes an entry has, from its first byte. *)
Definition input_size (b0 : Z) : Z :=
  if negb (b0 .& 0x80 =? 0) then 2 else if negb (b0 .& 0x40 =? 0) then 3 else 8.

(** [decode_in_memory(encoded_bytes, &offset, &contents)]:
    (offset, contents, new pointer, new decoder state). *)
Definition decode_in_memory (binary : list Z) (b_ptr : Z) (cs : compression_state)
  : option (Z * Z * Z * compression_state) :=
  b0 ← buf_get binary b_ptr;
  input ← buf_slice binary b_ptr (input_size b0);
  '(offset, contents) ← decode_bytes input (input_size b0) cs;
  Some (offset, contents, b_ptr + input_size b0, mkCS offset contents).

(** [*(uint32_t* )(binary_object + off)] on a little-endian machine. *)
Definition load32 (binary : list Z) (off : Z) : option Z :=
  bs ← buf_slice binary off 4; Some (le_decode bs).

Definition store32 (binary : list Z) (off v : Z) : option (list Z) :=
  buf_blit binary off (le_encode 4 (wrap 32 v)).

(** The variables of the loop over the entries. *)
Record retouch_loop := mkRL {
  rl_binary : list Z;
  rl_ptr : Z;
  rl_cs : compression_state;
  rl_candidate : Z;
  rl_set : bool;
  rl_mismatch : bool
}.

(** One iteration of [while (b_ptr < (uint8_t* )r_info)]; [inr] is the error
    return on a bad entry offset, with the object as it is then. *)
Definition retouch_step (b_offs p_offs : Z) (desired : option Z) (s : retouch_loop)
  : outcome (retouch_loop + list Z) :=
  '(entry_offset, original, b_ptr, cs) ←
    access (decode_in_memory (rl_binary s) (rl_ptr s) (rl_cs s));
  if (entry_offset <? -1) || (b_offs <=? entry_offset) then Done (inr (rl_binary s)) else
  let addr := if entry_offset =? -1 then p_offs else entry_offset in
  binary ← access (match desired with
                   | Some target => store32 (rl_binary s) addr (original + target)
                   | None => Some (rl_binary s)
                   end);
  value ← access (load32 binary addr);
  let this := swrap 32 (value - original) in
  if rl_set s
  then Done (inl (mkRL binary b_ptr cs (rl_candidate s) true
                    (rl_mismatch s || negb (rl_candidate s =? this))))
  else Done (inl (mkRL binary b_ptr cs this true (rl_mismatch s))).

Fixpoint retouch_loop_run (fuel : nat) (r_offs b_offs p_offs : Z) (desired : option Z)
    (s : retouch_loop) : outcome (retouch_loop + list Z) :=
  if rl_ptr s <? r_offs then
    match fuel with
    | O => Diverge
    | S fuel =>
        r ← retouch_step b_offs p_offs desired s;
        match r with
        | inl s => retouch_loop_run fuel r_offs b_offs p_offs desired s
        | inr binary => Done (inr binary)
        end
    end
  else Done (inl s).

(** The bytes of "PRE " and "RETOUCH ". *)
Definition pre_tag : list Z := [80; 82; 69; 32].
Definition retouch_tag : list Z := [82; 69; 84; 79; 85; 67; 72; 32].

(** [retouch_mask_data]: (return value, the object afterwards, [*retouch_offset]). *)
Definition retouch_mask_data (fuel : nat) (binary : list Z) (desired : option Z)
  : outcome (Z * list Z * Z) :=
  let target := default 0 desired in
  let p_offs := zlen binary - prelink_size in
  let r_offs := p_offs - retouch_size in
  let not_retouched :=
    match desired with None => RETOUCH_DATA_NOTAPPLICABLE | Some _ => RETOUCH_DATA_MATCHED end in
  if r_offs <? 0 then Done (not_retouched, binary, target) else
  ptag ← access (buf_slice binary (p_offs + 4) 4);
  rtag ← access (buf_slice binary r_offs 8);
  if negb (bool_decide (ptag = pre_tag)) || negb (bool_decide (rtag = retouch_tag))
  then Done (not_retouched, binary, target) else
  blob_size ← access (load32 binary (r_offs + 8));
  let b_offs := swrap 32 (r_offs - blob_size) in
  if b_offs <? 0 then Done (RETOUCH_DATA_ERROR, binary, target) else
  r ← retouch_loop_run fuel r_offs b_offs p_offs desired
        (mkRL binary b_offs init_compression_state target false false);
  match r with
  | inr binary => Done (RETOUCH_DATA_ERROR, binary, target)
  | inl s =>
      if r_offs <? rl_ptr s then Done (RETOUCH_DATA_ERROR, rl_binary s, target)
      else if rl_mismatch s then Done (RETOUCH_DATA_MISMATCHED, rl_binary s, target)
      else Done (RETOUCH_DATA_MATCHED, rl_binary s, rl_candidate s)
  end.


(** ** Every access is inside the object *)

Lemma input_size_cases b : input_size b = 2 \/ input_size b = 3 \/ input_size b = 8.
Proof. unfold input_size. case_bools; auto. Qed.

Lemma decode_bytes_some input cs n :
  n = 2 \/ n = 3 \/ n = 8 -> zlen input = n ->
  exists off con, decode_bytes input n cs = Some (off, con) /\ in_u 32 con.
Proof.
  intros Hn Hl. unfold decode_bytes.
  destruct Hn as [-> | [-> | ->]]; cbn [Z.eqb Pos.eqb];
    repeat (match goal with |- context [buf_get input ?i] =>
      let v := fresh "v" in destruct (buf_get_some input i) as [v ->]; [lia|]; cbn [mbind option_bind] end);
    do 2 eexists; (split; [reflexivity|]); apply wrap_range; lia.
Qed.

Lemma decode_in_memory_some binary ptr cs :
  0 <= ptr -> ptr + 8 <= zlen binary ->
  exists off con ptr' cs', decode_in_memory binary ptr cs = Some (off, con, ptr', cs') /\
    ptr + 2 <= ptr' <= ptr + 8 /\ in_u 32 con.
Proof.
  intros H0 H8. unfold decode_in_memory. destruct (buf_get_some binary ptr) as [b0 ->]; [lia|].
  cbn [mbind option_bind]. pose proof (input_size_cases b0) as Hc.
  rewrite buf_slice_some by lia. cbn [mbind option_bind].
  edestruct (decode_bytes_some (take (Z.to_nat (input_size b0)) (drop (Z.to_nat ptr) binary)) cs
    (input_size b0) Hc) as (off & con & -> & Hcon); [rewrite length_take, length_drop; lia|].
  cbn [mbind option_bind]. do 4 eexists. split; [reflexivity|]. split; [lia|done].
Qed.

Lemma store32_some binary off v :
  0 <= off -> off + 4 <= zlen binary -> exists b', store32 binary off v = Some b' /\
    length b' = length binary /\ load32 b' off = Some (wrap 32 v).
Proof.
  intros H0 H4. unfold store32, load32. set (src := le_encode 4 (wrap 32 v)).
  assert (length src = 4%nat) as Hs by apply le_encode_length.
  destruct (buf_blit binary off src) as [b'|] eqn:E.
  2: { rewrite buf_blit_some in E by lia. discriminate. }
  exists b'. split; [done|]. pose proof (buf_blit_length _ _ _ _ E) as Hl. split; [done|].
  rewrite buf_blit_some in E by lia. apply (inj Some) in E. rewrite <- E.
  rewrite buf_slice_mid by (rewrite ?length_take; lia). cbn [mbind option_bind].
  unfold src. rewrite le_decode_encode. unfold wrap.
  change (256 ^ Z.of_nat 4) with (2 ^ 32). by rewrite Z.mod_mod by lia.
Qed.

Lemma load32_some binary off :
  0 <= off -> off + 4 <= zlen binary -> exists v, load32 binary off = Some v.
Proof. intros. unfold load32. rewrite buf_slice_some by lia. cbn. eauto. Qed.

(** A write of [original + target] is read back as a shift of [target]. *)
Lemma shift_readback original target :
  in_s 32 target -> swrap 32 (wrap 32 (original + target) - original) = target.
Proof.
  intros Ht. rewrite <- (swrap_small 32 target) at 2 by (lia || done).
  unfold swrap. replace (wrap 32 (wrap 32 (original + target) - original)) with (wrap 32 target); [done|].
  unfold wrap. rewrite Zminus_mod_idemp_l. f_equal. lia.
Qed.

(** ** The loop *)

(** What holds at the head of the loop: the object keeps its size, an applied
    offset is the only one seen, and without one nothing is written. *)
Definition loop_inv (binary : list Z) (desired : option Z) (s : retouch_loop) : Prop :=
  length (rl_binary s) = length binary /\ 0 <= rl_ptr s /\
  match desired with
  | Some t => rl_candidate s = t /\ rl_mismatch s = false
  | None => rl_binary s = binary
  end.

Definition desired_ok (desired : option Z) : Prop :=
  match desired with Some t => in_s 32 t | None => True end.

Lemma retouch_step_inv binary b_offs p_offs r_offs desired s :
  desired_ok desired -> p_offs = zlen binary - 8 -> r_offs = p_offs - 12 ->
  0 <= b_offs -> b_offs <= r_offs -> rl_ptr s < r_offs -> loop_inv binary desired s ->
  (exists s', retouch_step b_offs p_offs desired s = Done (inl s') /\
     loop_inv binary desired s' /\ rl_ptr s + 2 <= rl_ptr s') \/
  (exists b, retouch_step b_offs p_offs desired s = Done (inr b) /\ length b = length binary /\
     (desired = None -> b = binary)).
Proof.
  intros Hd -> -> Hb Hbr Hptr (Hlen & Hp0 & Hinv). unfold retouch_step.
  destruct (decode_in_memory_some (rl_binary s) (rl_ptr s) (rl_cs s)) as
    (off & con & ptr & cs & -> & Hptr' & Hcon); [lia..|].
  cbn [access mbind outcome_bind].
  destruct ((off <? -1) || (b_offs <=? off)) eqn:E.
  { right. exists (rl_binary s). split_and!; auto. intros ->. done. }
  bool_to_prop. left.
  set (addr := if off =? -1 then _ else _).
  assert (0 <= addr /\ addr + 4 <= zlen (rl_binary s)) as [Ha0 Ha4]
    by (subst addr; destruct (Z.eqb_spec off (-1)); lia).
  destruct desired as [t|]; cbn [access mbind outcome_bind].
  - destruct (store32_some (rl_binary s) addr (con + t) Ha0 Ha4) as (b' & -> & Hl' & Hld).
    cbn [access mbind outcome_bind]. rewrite Hld. cbn [access mbind outcome_bind].
    rewrite shift_readback by done. destruct Hinv as [-> ->].
    destruct (rl_set s); rewrite ?Z.eqb_refl; eexists; (split; [reflexivity|]);
      (split; [|cbn; lia]); unfold loop_inv; cbn; split_and!; auto; lia.
  - destruct (load32_some (rl_binary s) addr Ha0 Ha4) as [v ->]. cbn [access mbind outcome_bind].
    destruct (rl_set s); eexists; (split; [reflexivity|]);
      (split; [|cbn; lia]); unfold loop_inv; cbn; split_and!; auto; lia.
Qed.

Lemma retouch_loop_inv binary b_offs p_offs r_offs desired fuel s :
  desired_ok desired -> p_offs = zlen binary - 8 -> r_offs = p_offs - 12 ->
  0 <= b_offs -> (rl_ptr s < r_offs -> b_offs <= r_offs) -> r_offs - rl_ptr s < Z.of_nat fuel ->
  loop_inv binary desired s ->
  (exists s', retouch_loop_run fuel r_offs b_offs p_offs desired s = Done (inl s') /\
     loop_inv binary desired s') \/
  (exists b, retouch_loop_run fuel r_offs b_offs p_offs desired s = Done (inr b) /\
     length b = length binary /\ (desired = None -> b = binary)).
Proof.
  intros Hd Hp Hr Hb. revert s. induction fuel as [|fuel IH]; intros s Hbr Hf Hinv;
    cbn [retouch_loop_run]; destruct (Z.ltb_spec (rl_ptr s) r_offs); eauto; [lia|].
  destruct (retouch_step_inv binary b_offs p_offs r_offs desired s) as
    [(s' & -> & Hs' & Hadv) | (b & -> & Hl & Hn)]; auto; cbn [mbind outcome_bind]; [|eauto].
  apply IH; [auto|lia|done].
Qed.

(** Whatever the object says, its size never changes. *)
Lemma retouch_step_length b_offs p_offs desired s r :
  retouch_step b_offs p_offs desired s = Done r ->
  length (match r with inl s' => rl_binary s' | inr b => b end) = length (rl_binary s).
Proof.
  unfold retouch_step. intros H. apply outcome_bind_done in H as ([[[off con] ptr] cs] & _ & H).
  destruct (_ || _); [by injection H as <-|]. cbv zeta in H.
  apply outcome_bind_done in H as (b & Hb & H). apply outcome_bind_done in H as (v & _ & H).
  assert (length b = length (rl_binary s)) as Hl.
  { apply access_done in Hb. destruct desired; [|by injection Hb as <-]. by eapply buf_blit_length. }
  destruct (rl_set s); injection H as <-; done.
Qed.

Lemma retouch_loop_length fuel r_offs b_offs p_offs desired : forall s r,
  retouch_loop_run fuel r_offs b_offs p_offs desired s = Done r ->
  length (match r with inl s' => rl_binary s' | inr b => b end) = length (rl_binary s).
Proof.
  induction fuel as [|fuel IH]; intros s r; cbn [retouch_loop_run];
    (destruct (rl_ptr s <? r_offs); [|by intros [= <-]]); [done|].
  intros H. apply outcome_bind_done in H as (r1 & H1 & H). apply retouch_step_length in H1.
  destruct r1 as [s1|b1]; [|by injection H as <-]. apply IH in H. congruence.
Qed.

Lemma retouch_mask_data_length fuel binary desired st b o :
  retouch_mask_data fuel binary desired = Done (st, b, o) -> length b = length binary.
Proof.
  unfold retouch_mask_data. cbv zeta. intros H.
  destruct (_ <? 0); [congruence|].
  do 2 (apply outcome_bind_done in H as (? & _ & H)). destruct (_ || _); [congruence|].
  apply outcome_bind_done in H as (? & _ & H). destruct (_ <? 0); [congruence|].
  apply outcome_bind_done in H as (r & Hr & H). apply retouch_loop_length in Hr. cbn in Hr.
  destruct r as [s'|b']; repeat case_match; congruence.
Qed.

(** The call returns, for enough fuel: one iteration per byte. *)
Lemma retouch_mask_data_returns (binary : list Z) (desired : option Z) (fuel : nat)
    (Hlen : zlen binary < 2 ^ 31) (Hd : desired_ok desired) (Hf : (length binary <= fuel)%nat) :
  exists status binary' offset,
    retouch_mask_data fuel binary desired = Done (status, binary', offset) /\
    length binary' = length binary /\
    match desired with
    | Some t => offset = t /\ status <> RETOUCH_DATA_MISMATCHED
    | None => binary' = binary
    end.
Proof.
  unfold retouch_mask_data. cbn zeta. unfold prelink_size, retouch_size.
  set (nr := match desired with None => _ | Some _ => _ end).
  assert (forall st, (desired = None \/ st <> RETOUCH_DATA_MISMATCHED) ->
    exists status binary' offset,
      Done (st, binary, default 0 desired) = Done (status, binary', offset) /\
      length binary' = length binary /\
      match desired with
      | Some t => offset = t /\ status <> RETOUCH_DATA_MISMATCHED
      | None => binary' = binary end) as Hsame.
  { intros st Hst. do 3 eexists. split_and!; [done..|]. destruct desired; [|done].
    destruct Hst; [done|]. by split. }
  assert (desired = None \/ nr <> RETOUCH_DATA_MISMATCHED) as Hnr by (destruct desired; auto).
  destruct (Z.ltb_spec (zlen binary - 8 - 12) 0); [by apply Hsame|].
  rewrite !buf_slice_some by lia. cbn [access mbind outcome_bind].
  destruct (_ || _); [by apply Hsame|].
  destruct (load32_some binary (zlen binary - 8 - 12 + 8)) as [blob ->]; [lia..|].
  cbn [access mbind outcome_bind].
  set (b_offs := swrap 32 _). destruct (Z.ltb_spec b_offs 0); [apply Hsame; auto|].
  set (s0 := mkRL _ _ _ _ _ _).
  destruct (retouch_loop_inv binary b_offs (zlen binary - 8) (zlen binary - 8 - 12) desired
    fuel s0) as [(s & -> & Hlb & Hp0 & Hinv) | (b & -> & Hlb & Hn)];
    [done..|subst s0; cbn; lia|subst s0; cbn; lia| | |].
  - subst s0. unfold loop_inv; cbn. split_and!; auto. by destruct desired.
  - cbn [mbind outcome_bind]. destruct desired as [t|].
    + destruct Hinv as [<- ->]. case_bools; do 3 eexists; (split; [done|]); by split_and!.
    + case_bools; do 3 eexists; (split; [done|]); by split_and!.
  - cbn [mbind outcome_bind]. do 3 eexists. split; [done|]. split; [done|].
    destruct desired; [by split|auto].
Qed.

(** [C39] [retouch_mask_data] on an object of any contents that fits an
    [int32_t] returns, without an access outside the object and within one
    iteration per byte; the object keeps its size and is not touched when no
    offset is asked for; and when an offset is asked for it is the one
    reported, never a mismatch. *)
Theorem retouch_mask_data_safe (binary : list Z) (desired : option Z)
    (Hlen : zlen binary < 2 ^ 31) (Hd : desired_ok desired) :
  exists status binary' offset,
    retouch_mask_data (length binary) binary desired = Done (status, binary', offset) /\
    length binary' = length binary /\
    match desired with
    | Some t => offset = t /\ status <> RETOUCH_DATA_MISMATCHED
    | None => binary' = binary
    end.
Proof. by apply retouch_mask_data_returns. Qed.

(** An object of one word, retouched by 0x10: the entry at 0 (two bytes:
    offset -4 + 4) is not possible first, so it has the eight-byte form. *)
Definition sample_object : list Z :=
  [0x34; 0x12; 0; 0] ++ [0; 0; 0; 0; 0; 0; 0x12; 0x34] ++ retouch_tag ++ [8; 0; 0; 0] ++
  [0; 0; 0; 0] ++ pre_tag.

Example sample_object_patched :
  retouch_mask_data 32 sample_object (Some 0x10) =
    Done (RETOUCH_DATA_MATCHED, 0x44 :: drop 1 sample_object, 0x10) /\
  retouch_mask_data 32 (0x44 :: drop 1 sample_object) None =
    Done (RETOUCH_DATA_MATCHED, 0x44 :: drop 1 sample_object, 0x10).
Proof. split; vm_compute; reflexivity. Qed.

Lemma retouch_mask_data_safe_witness :
  exists status binary' offset,
    retouch_mask_data (length sample_object) sample_object (Some 0x10) =
      Done (status, binary', offset) /\
    length binary' = length sample_object /\ (offset = 0x10 /\ status <> RETOUCH_DATA_MISMATCHED).
Proof. apply (retouch_mask_data_safe sample_object (Some 0x10)); cbn; unfold in_s; lia. Defined.
