(* ===== verification/Mtdutils.v ===== *)
(** * Raw flash partitions ([mtdutils/mtdutils.c])

    The chip is behind the kernel's MTD driver, an interface [MtdDriver] here:
    a state and the ioctls, reads and writes the code issues on it.  A file
    descriptor is its position, kept in the contexts; seeking inside the device
    succeeds.  Sizes and offsets are those of a partition below 2 GiB, so that
    [int] and a 32-bit [off_t] hold them. *)
From S2P Require Import Prelude.

(** ** The driver *)

Class MtdDriver := {
  dev : Type;
  (** whether [open("/dev/mtd/mtd<n>")] succeeds *)
  dev_open : dev -> Z -> bool;
  (** [ioctl(fd, MEMGETBADBLOCK, &pos)], and whether an error of it is EOPNOTSUPP *)
  dev_getbadblock : dev -> Z -> Z;
  dev_opnotsupp : dev -> bool;
  (** [ioctl(fd, MEMERASE, {start, length})] *)
  dev_erase : dev -> Z -> Z -> Z * dev;
  (** [write] at a position: the return value *)
  dev_write : dev -> Z -> list Z -> Z * dev;
  (** [read] of a number of bytes at a position: the return value and the bytes *)
  dev_read : dev -> Z -> Z -> Z * list Z * dev;
  (** [ioctl(fd, ECCGETSTATS, &stats)]: the count of uncorrectable errors *)
  dev_ecc : dev -> option Z
}.

Record MtdPartition := mkPartition {
  device_index : Z;
  p_size : Z;
  erase_size : Z;
  p_name : string
}.

Record MtdReadContext := mkRC {
  rc_partition : MtdPartition;
  rc_buffer : list Z;
  rc_consumed : Z;
  rc_pos : Z
}.

Record MtdWriteContext := mkWC {
  wc_partition : MtdPartition;
  wc_buffer : list Z;
  wc_stored : Z;
  wc_pos : Z;
  wc_bad_block_offsets : list Z;
  wc_bad_block_alloc : Z
}.

Section Mtd.
  Context {D : MtdDriver}.
  (** Whether [malloc(n)] succeeds. *)
  Context (malloc_ok : Z -> bool).

(** ** Reading *)

(** [mtd_read_partition]; the fresh buffer's contents are not defined and are
    never read before a block is loaded into it. *)
Definition mtd_read_partition (d : dev) (p : MtdPartition) : option MtdReadContext :=
  if negb (malloc_ok (erase_size p)) then None
  else if negb (dev_open d (device_index p)) then None
  else Some (mkRC p (replicate (Z.to_nat (erase_size p)) 0) (erase_size p) 0).

Definition mtd_read_skip_to (ctx : MtdReadContext) (offset : Z) : MtdReadContext :=
  mkRC (rc_partition ctx) (rc_buffer ctx) (rc_consumed ctx) offset.

(** The [while] of [read_block]: the block or [None] for the error return, the
    position of the descriptor and the device. *)
Fixpoint read_block_loop (fuel : nat) (p : MtdPartition) (before pos fdpos : Z) (d : dev)
  : outcome (option (list Z) * Z * dev) :=
  if pos + erase_size p <=? swrap 32 (p_size p) then
    match fuel with
    | O => Diverge
    | S fuel =>
        let '(n, data, d) := dev_read d pos (erase_size p) in
        let fdpos := pos + Z.max 0 n in
        if negb (n =? erase_size p)
        then read_block_loop fuel p before (pos + erase_size p) fdpos d
        else match dev_ecc d with
        | None => Done (None, fdpos, d)
        | Some after =>
            if negb (after =? before)
            then read_block_loop fuel p after (pos + erase_size p) fdpos d
            else if negb (dev_getbadblock d pos =? 0)
            then read_block_loop fuel p before (pos + erase_size p) fdpos d
            else Done (Some data, fdpos, d)
        end
    end
  else Done (None, fdpos, d).

Definition read_block (fuel : nat) (p : MtdPartition) (fdpos : Z) (d : dev)
  : outcome (option (list Z) * Z * dev) :=
  match dev_ecc d with
  | None => Done (None, fdpos, d)
  | Some before => read_block_loop fuel p before fdpos fdpos d
  end.

(** "Read complete blocks directly into the user's buffer": [acc] is what is in
    it so far, [false] the error return. *)
Fixpoint read_direct (fuel : nat) (ctx : MtdReadContext) (len : Z) (acc : list Z) (d : dev)
  : outcome (bool * MtdReadContext * list Z * dev) :=
  let es := erase_size (rc_partition ctx) in
  if (rc_consumed ctx =? es) && (es <=? len - zlen acc) then
    match fuel with
    | O => Diverge
    | S fuel =>
        '(r, fdpos, d) ← read_block fuel (rc_partition ctx) (rc_pos ctx) d;
        let ctx := mkRC (rc_partition ctx) (rc_buffer ctx) (rc_consumed ctx) fdpos in
        match r with
        | None => Done (false, ctx, acc, d)
        | Some block => read_direct fuel ctx len (acc ++ block) d
        end
    end
  else Done (true, ctx, acc, d).

(** [mtd_read_data]: [None] is -1, [Some data] that many bytes in the user's
    buffer. *)
Fixpoint mtd_read_loop (fuel : nat) (ctx : MtdReadContext) (len : Z) (acc : list Z) (d : dev)
  : outcome (option (list Z) * MtdReadContext * dev) :=
  let es := erase_size (rc_partition ctx) in
  if zlen acc <? len then
    match fuel with
    | O => Diverge
    | S fuel =>
        '(ctx, acc) ←
          (if rc_consumed ctx <? es then
             let copy := Z.min (len - zlen acc) (es - rc_consumed ctx) in
             part ← access (buf_slice (rc_buffer ctx) (rc_consumed ctx) copy);
             Done (mkRC (rc_partition ctx) (rc_buffer ctx) (rc_consumed ctx + copy) (rc_pos ctx),
                   acc ++ part)
           else Done (ctx, acc));
        '(ok, ctx, acc, d) ← read_direct fuel ctx len acc d;
        if negb ok then Done (None, ctx, d)
        else if len <=? zlen acc then Done (Some acc, ctx, d)
        else if (rc_consumed ctx =? es) && (zlen acc <? len) then
          '(r, fdpos, d) ← read_block fuel (rc_partition ctx) (rc_pos ctx) d;
          match r with
          | None => Done (None, mkRC (rc_partition ctx) (rc_buffer ctx) (rc_consumed ctx) fdpos, d)
          | Some block => mtd_read_loop fuel (mkRC (rc_partition ctx) block 0 fdpos) len acc d
          end
        else mtd_read_loop fuel ctx len acc d
    end
  else Done (Some acc, ctx, d).

Definition mtd_read_data (fuel : nat) (ctx : MtdReadContext) (len : Z) (d : dev) :=
  mtd_read_loop fuel ctx len [] d.

(** ** Writing *)

Definition mtd_write_partition (d : dev) (p : MtdPartition) : option MtdWriteContext :=
  if negb (malloc_ok (erase_size p)) then None
  else if negb (dev_open d (device_index p)) then None
  else Some (mkWC p (replicate (Z.to_nat (erase_size p)) 0) 0 0 [] 0).

(** The list is [bad_block_offsets[0 .. bad_block_count]]. *)
Definition add_bad_block_offset (ctx : MtdWriteContext) (pos : Z) : option MtdWriteContext :=
  let count := zlen (wc_bad_block_offsets ctx) in
  let alloc := if wc_bad_block_alloc ctx <? count + 1
               then wc_bad_block_alloc ctx * 2 + 1 else wc_bad_block_alloc ctx in
  if count <? alloc
  then Some (mkWC (wc_partition ctx) (wc_buffer ctx) (wc_stored ctx) (wc_pos ctx)
               (wc_bad_block_offsets ctx ++ [pos]) alloc)
  else None.

Definition wc_seek (ctx : MtdWriteContext) (pos : Z) : MtdWriteContext :=
  mkWC (wc_partition ctx) (wc_buffer ctx) (wc_stored ctx) pos
    (wc_bad_block_offsets ctx) (wc_bad_block_alloc ctx).

Definition wc_store (ctx : MtdWriteContext) (buffer : list Z) (stored : Z) : MtdWriteContext :=
  mkWC (wc_partition ctx) buffer stored (wc_pos ctx)
    (wc_bad_block_offsets ctx) (wc_bad_block_alloc ctx).

(** [for (retry = 0; retry < 2; ++retry)]: erase, write, read back, compare. *)
Fixpoint write_retries (n : nat) (es pos fdpos : Z) (data : list Z) (d : dev) : bool * Z * dev :=
  match n with
  | O => (false, fdpos, d)
  | S n =>
      let '(r, d) := dev_erase d pos es in
      if r <? 0 then write_retries n es pos fdpos data d
      else
        let '(_, d) := dev_write d pos data in
        let '(got, verify, d) := dev_read d pos es in
        let fdpos := pos + Z.max 0 got in
        if negb (got =? es) then write_retries n es pos fdpos data d
        else if negb (bool_decide (verify = data)) then write_retries n es pos fdpos data d
        else (true, fdpos, d)
  end.

(** The [while] of [write_block]; [true] is the success return. *)
Fixpoint write_block_loop (fuel : nat) (ctx : MtdWriteContext) (pos : Z) (data : list Z) (d : dev)
  : outcome (bool * MtdWriteContext * dev) :=
  let es := erase_size (wc_partition ctx) in
  if pos + es <=? swrap 32 (p_size (wc_partition ctx)) then
    match fuel with
    | O => Diverge
    | S fuel =>
        let ret := dev_getbadblock d pos in
        if negb (ret =? 0) && negb ((ret =? -1) && dev_opnotsupp d) then
          ctx ← access (add_bad_block_offset ctx pos);
          write_block_loop fuel ctx (pos + es) data d
        else
          let '(ok, fdpos, d) := write_retries 2 es pos (wc_pos ctx) data d in
          let ctx := wc_seek ctx fdpos in
          if ok then Done (true, ctx, d)
          else
            ctx ← access (add_bad_block_offset ctx pos);
            write_block_loop fuel ctx (pos + es) data (dev_erase d pos es).2
    end
  else Done (false, ctx, d).

Definition write_block (fuel : nat) (ctx : MtdWriteContext) (data : list Z) (d : dev)
  : outcome (bool * MtdWriteContext * dev) :=
  if negb (malloc_ok (erase_size (wc_partition ctx))) then Done (false, ctx, d)
  else write_block_loop fuel ctx (wc_pos ctx) data d.

(** "Write complete blocks directly from the user's buffer". *)
Fixpoint write_direct (fuel : nat) (ctx : MtdWriteContext) (data : list Z) (wrote : Z) (d : dev)
  : outcome (bool * MtdWriteContext * Z * dev) :=
  let es := erase_size (wc_partition ctx) in
  if (wc_stored ctx =? 0) && (es <=? zlen data - wrote) then
    match fuel with
    | O => Diverge
    | S fuel =>
        block ← access (buf_slice data wrote es);
        '(ok, ctx, d) ← write_block fuel ctx block d;
        if ok : bool then write_direct fuel ctx data (wrote + es) d
        else Done (false, ctx, wrote, d)
    end
  else Done (true, ctx, wrote, d).

(** [mtd_write_data(ctx, data, len)]: the return value, -1 on an error. *)
Fixpoint mtd_write_loop (fuel : nat) (ctx : MtdWriteContext) (data : list Z) (wrote : Z) (d : dev)
  : outcome (Z * MtdWriteContext * dev) :=
  let es := erase_size (wc_partition ctx) in
  if wrote <? zlen data then
    match fuel with
    | O => Diverge
    | S fuel =>
        '(ctx, wrote) ←
          (if (0 <? wc_stored ctx) || (zlen data - wrote <? es) then
             let copy := Z.min (zlen data - wrote) (es - wc_stored ctx) in
             part ← access (buf_slice data wrote copy);
             buffer ← access (buf_blit (wc_buffer ctx) (wc_stored ctx) part);
             Done (wc_store ctx buffer (wc_stored ctx + copy), wrote + copy)
           else Done (ctx, wrote));
        '(ok, ctx, d) ←
          (if wc_stored ctx =? es then
             '(ok, ctx, d) ← write_block fuel ctx (wc_buffer ctx) d;
             if ok : bool then Done (true, wc_store ctx (wc_buffer ctx) 0, d)
             else Done (false, ctx, d)
           else Done (true, ctx, d));
        if negb ok then Done (-1, ctx, d)
        else
          '(ok, ctx, wrote, d) ← write_direct fuel ctx data wrote d;
          if negb ok then Done (-1, ctx, d) else mtd_write_loop fuel ctx data wrote d
    end
  else Done (wrote, ctx, d).

Definition mtd_write_data (fuel : nat) (ctx : MtdWriteContext) (data : list Z) (d : dev) :=
  mtd_write_loop fuel ctx data 0 d.

(** "Erase the specified number of blocks"; failures are only printed. *)
Fixpoint erase_loop (blocks : nat) (es pos : Z) (d : dev) : Z * dev :=
  match blocks with
  | O => (pos, d)
  | S blocks =>
      if 0 <? dev_getbadblock d pos then erase_loop blocks es (pos + es) d
      else erase_loop blocks es (pos + es) (dev_erase d pos es).2
  end.

(** [mtd_erase_blocks]: the return value, -1 on an error. *)
Definition mtd_erase_blocks (fuel : nat) (ctx : MtdWriteContext) (blocks : Z) (d : dev)
  : outcome (Z * MtdWriteContext * dev) :=
  let es := erase_size (wc_partition ctx) in
  '(ok, ctx, d) ←
    (if 0 <? wc_stored ctx then
       buffer ← access (buf_blit (wc_buffer ctx) (wc_stored ctx)
                          (replicate (Z.to_nat (es - wc_stored ctx)) 0));
       let ctx := wc_store ctx buffer (wc_stored ctx) in
       '(ok, ctx, d) ← write_block fuel ctx buffer d;
       if ok : bool then Done (true, wc_store ctx (wc_buffer ctx) 0, d) else Done (false, ctx, d)
     else Done (true, ctx, d));
  if negb ok then Done (-1, ctx, d) else
  let pos := wc_pos ctx in
  let total := swrap 32 (wrap 32 (p_size (wc_partition ctx) - pos) / es) in
  let blocks := if blocks <? 0 then total else blocks in
  if total <? blocks then Done (-1, ctx, d)
  else let '(pos, d) := erase_loop (Z.to_nat blocks) es pos d in Done (pos, ctx, d).

(** [mtd_write_close]; [close] of the descriptor succeeds. *)
Definition mtd_write_close (fuel : nat) (ctx : MtdWriteContext) (d : dev) : outcome (Z * dev) :=
  '(r, _, d) ← mtd_erase_blocks fuel ctx 0 d;
  Done (if r =? -1 then -1 else 0, d).

(** [mtd_find_write_start]. *)
Fixpoint find_write_start (bad : list Z) (es pos : Z) : Z :=
  match bad with
  | [] => pos
  | b :: bad =>
      if b =? pos then find_write_start bad es (pos + es)
      else if pos <? b then pos
      else find_write_start bad es pos
  end.

Definition mtd_find_write_start (ctx : MtdWriteContext) (pos : Z) : Z :=
  find_write_start (wc_bad_block_offsets ctx) (erase_size (wc_partition ctx)) pos.

(** ** Partition images *)

(** stdio's [BUFSIZ] in bionic, and [BLOCK_SIZE]. *)
Definition BUFSIZ : nat := 1024.
Definition BLOCK_SIZE : Z := 2048.

(** [while (success && (read = fread(buffer, 1, BUFSIZ, f)) > 0)] over what is
    left of the file. *)
Fixpoint restore_loop (n : nat) (fuel : nat) (ctx : MtdWriteContext) (file : list Z) (d : dev)
  : outcome (bool * MtdWriteContext * dev) :=
  match file, n with
  | [], _ => Done (true, ctx, d)
  | _, O => Diverge
  | _, S n =>
      let buffer := take BUFSIZ file in
      '(wrote, ctx, d) ← mtd_write_data fuel ctx buffer d;
      if wrote =? zlen buffer then restore_loop n fuel ctx (drop BUFSIZ file) d
      else Done (false, ctx, d)
  end.

(** [cmd_mtd_restore_raw_partition] once the partition is found; [file] is
    [None] if it cannot be opened.  The results of [mtd_erase_blocks] and
    [mtd_write_close] are printed, not returned. *)
Definition cmd_mtd_restore_raw_partition (fuel : nat) (partition : option MtdPartition)
    (file : option (list Z)) (d : dev) : outcome (Z * dev) :=
  match file, partition with
  | None, _ | _, None => Done (-1, d)
  | Some file, Some mtd =>
      match mtd_write_partition d mtd with
      | None => Done (-1, d)
      | Some ctx =>
          '(success, ctx, d) ← restore_loop fuel fuel ctx file d;
          if negb success then Done (-1, d)
          else
            '(_, ctx, d) ← mtd_erase_blocks fuel ctx (-1) d;
            '(_, d) ← mtd_write_close fuel ctx d;
            Done (0, d)
      end
  end.

(** The loop of [cmd_mtd_backup_raw_partition]; [out_write n len] is what
    [write] of [len] bytes after the first [n] returns. *)
Fixpoint backup_loop (n : nat) (fuel : nat) (out_write : Z -> Z -> Z) (ctx : MtdReadContext)
    (out : list Z) (d : dev) : outcome (option (list Z) * dev) :=
  match n with
  | O => Diverge
  | S n =>
      '(r, ctx, d) ← mtd_read_data fuel ctx BLOCK_SIZE d;
      match r with
      | Some (b :: buf) =>
          let buf := b :: buf in
          if negb (out_write (zlen out) (zlen buf) =? zlen buf) then Done (None, d)
          else backup_loop n fuel out_write ctx (out ++ buf) d
      | _ => Done (Some out, d)
      end
  end.

(** [cmd_mtd_backup_raw_partition] once the partition and its info are found
    and the output file is open: the return value and the file ([None] when it
    is unlinked). *)
Definition cmd_mtd_backup_raw_partition (fuel : nat) (partition : option MtdPartition)
    (out_write : Z -> Z -> Z) (close_ok : bool) (d : dev) : outcome (Z * option (list Z) * dev) :=
  match partition with
  | None => Done (-1, None, d)
  | Some partition =>
      match mtd_read_partition d partition with
      | None => Done (-1, None, d)
      | Some in_ =>
          '(r, d) ← backup_loop fuel fuel out_write in_ [] d;
          match r with
          | None => Done (-1, None, d)
          | Some out => if negb close_ok then Done (-1, None, d) else Done (0, Some out, d)
          end
      end
  end.

(** [cmd_mtd_erase_raw_partition] once the partition is found: [erased] is a
    [size_t], tested against zero. *)
Definition cmd_mtd_erase_raw_partition (fuel : nat) (partition : option MtdPartition) (d : dev)
  : outcome (Z * dev) :=
  match partition with
  | None => Done (-1, d)
  | Some p =>
      match mtd_write_partition d p with
      | None => Done (-1, d)
      | Some out =>
          '(erased, _, d) ← mtd_erase_blocks fuel out (-1) d;
          if wrap 32 erased =? 0 then Done (-1, d) else Done (0, d)
      end
  end.

End Mtd.

(** ** A healthy chip

    What the driver documents of a chip whose only defects are blocks marked
    bad: a good block erases to all ones, an erased block takes what is written
    and reads return it without new uncorrectable errors.  [bad] tells which
    blocks are marked; of reading those only that a read that fails outright
    does not count as an uncorrectable error. *)
Class MtdHealthy (D : MtdDriver) (es : Z) (bad : Z -> bool) := {
  content : dev -> Z -> list Z;
  healthy : dev -> Prop;
  dev_open_ok d n : healthy d -> dev_open d n = true;
  dev_bad d pos : healthy d -> (dev_getbadblock d pos =? 0) = negb (bad pos);
  dev_supp d : healthy d -> dev_opnotsupp d = false;
  dev_content_length d pos : healthy d -> bad pos = false -> zlen (content d pos) = es;
  dev_ecc_ok d : healthy d -> is_Some (dev_ecc d);
  dev_erase_ok d pos : healthy d ->
    exists r d', dev_erase d pos es = (r, d') /\ healthy d' /\
      (bad pos = false -> 0 <= r /\ content d' pos = replicate (Z.to_nat es) 255) /\
      (forall q, q ≠ pos -> content d' q = content d q);
  dev_write_ok d pos data : healthy d -> bad pos = false ->
    content d pos = replicate (Z.to_nat es) 255 -> zlen data = es ->
    exists d', dev_write d pos data = (es, d') /\ healthy d' /\ content d' pos = data /\
      (forall q, q ≠ pos -> content d' q = content d q);
  dev_read_ok d pos : healthy d ->
    exists n data d', dev_read d pos es = (n, data, d') /\ healthy d' /\
      (forall q, content d' q = content d q) /\
      (n ≠ es -> dev_ecc d' = dev_ecc d) /\
      (bad pos = false -> n = es /\ data = content d pos /\ dev_ecc d' = dev_ecc d)
}.

Section Healthy.
  Context {D : MtdDriver} {es : Z} {bad : Z -> bool} {HD : MtdHealthy D es bad}.
  Context (malloc_ok : Z -> bool) (Hmalloc : forall n, malloc_ok n = true).
  Context (p : MtdPartition) (Hes : erase_size p = es) (Hes0 : 0 < es)
    (Hsize : 0 <= p_size p < 2 ^ 31).

(** [next_good pos q]: [q] is the first good block at or after [pos]. *)
Inductive next_good : Z -> Z -> Prop :=
  | ng_here pos : pos + es <= p_size p -> bad pos = false -> next_good pos pos
  | ng_skip pos q : pos + es <= p_size p -> bad pos = true -> next_good (pos + es) q ->
      next_good pos q.

(** [good_run pos qs]: [qs] are all the good blocks from [pos] on. *)
Inductive good_run : Z -> list Z -> Prop :=
  | gr_nil pos : (forall q, ~ next_good pos q) -> good_run pos []
  | gr_cons pos q qs : next_good pos q -> good_run (q + es) qs -> good_run pos (q :: qs).

(** How many blocks there are from [pos] on: an upper bound of any scan. *)
Definition blocks_left (pos : Z) : Z := (p_size p - pos) / es.

Lemma next_good_le pos q : next_good pos q -> pos <= q /\ q + es <= p_size p /\ bad q = false.
Proof. induction 1; intuition lia. Qed.

Lemma blocks_left_step pos : blocks_left (pos + es) = blocks_left pos - 1.
Proof.
  unfold blocks_left. replace (p_size p - (pos + es)) with ((p_size p - pos) + (-1) * es) by lia.
  rewrite Z.div_add by lia. lia.
Qed.

Lemma blocks_left_pos pos : pos + es <= p_size p -> 1 <= blocks_left pos.
Proof. intros. unfold blocks_left. apply Z.div_le_lower_bound; lia. Qed.

Lemma blocks_left_mono pos q : pos <= q -> blocks_left q <= blocks_left pos.
Proof. intros. unfold blocks_left. apply Z.div_le_mono; lia. Qed.

Lemma good_run_sorted pos qs : good_run pos qs -> Forall (fun q => pos <= q) qs /\ NoDup qs.
Proof.
  induction 1 as [pos Hno|pos q qs Hn Hr [IH1 IH2]]; [repeat constructor|].
  pose proof (next_good_le _ _ Hn). split; constructor; [lia| |  |done].
  - eapply Forall_impl; [exact IH1|]. cbn. lia.
  - intros Hin. rewrite Forall_forall in IH1. apply IH1 in Hin. lia.
Qed.

Lemma good_run_good pos qs : good_run pos qs -> Forall (fun q => bad q = false) qs.
Proof.
  induction 1 as [|pos q qs Hn _ IH]; constructor; auto. apply next_good_le in Hn. tauto.
Qed.

(** *** Reading one block *)

Lemma swrap_size : swrap 32 (p_size p) = p_size p.
Proof. apply swrap_small; unfold in_s; lia. Qed.

Definition same_content (d d' : dev) : Prop := forall q, content d' q = content d q.

Lemma read_block_loop_good pos q d before fdpos fuel :
  next_good pos q -> healthy d -> dev_ecc d = Some before ->
  blocks_left pos <= Z.of_nat fuel ->
  exists d', read_block_loop fuel p before pos fdpos d = Done (Some (content d q), q + es, d') /\
    healthy d' /\ same_content d d'.
Proof.
  intros Hn. revert d before fdpos fuel.
  induction Hn as [pos Hp Hb|pos q Hp Hb Hn IH]; intros d before fdpos fuel Hd He Hf;
    (destruct fuel as [|fuel]; [pose proof (blocks_left_pos pos Hp); lia|]);
    cbn [read_block_loop]; rewrite Hes, swrap_size, (proj2 (Z.leb_le _ _)) by done;
    destruct (dev_read_ok d pos Hd) as (n & data & d1 & -> & Hd1 & Hsame & Hfail & Hgood).
  - destruct (Hgood Hb) as (-> & -> & He1). rewrite Z.eqb_refl. cbn [negb]. rewrite He1, He.
    rewrite Z.eqb_refl, dev_bad, Hb by done. cbn [negb]. exists d1.
    by rewrite Z.max_r by lia.
  - pose proof (blocks_left_step pos).
    assert (forall b f, dev_ecc d1 = Some b ->
      exists d', read_block_loop fuel p b (pos + es) f d1 = Done (Some (content d q), q + es, d') /\
        healthy d' /\ same_content d d') as Hgo.
    { intros b f Hb1. destruct (IH d1 b f fuel Hd1 Hb1) as (d' & -> & Hd' & Hs'); [lia|].
      exists d'. rewrite (Hsame q). split_and!; [done..|]. intros r. by rewrite Hs', Hsame. }
    destruct (dev_ecc_ok d1 Hd1) as [after Ha]. rewrite Ha, dev_bad, Hb by done. cbn [negb].
    destruct (negb (n =? es)) eqn:En; [|destruct (negb (after =? before)) eqn:E; [by apply Hgo|]].
    + apply Hgo. bool_to_prop. by rewrite Hfail.
    + apply Hgo. bool_to_prop. congruence.
Qed.

Lemma read_block_good pos q d fuel :
  next_good pos q -> healthy d -> blocks_left pos <= Z.of_nat fuel ->
  exists d', read_block fuel p pos d = Done (Some (content d q), q + es, d') /\
    healthy d' /\ same_content d d'.
Proof.
  intros Hn Hd Hf. unfold read_block. destruct (dev_ecc_ok d Hd) as [b E]. rewrite E.
  by apply read_block_loop_good.
Qed.

(** *** Writing one block *)

Lemma add_bad_block_ok ctx pos :
  zlen (wc_bad_block_offsets ctx) <= wc_bad_block_alloc ctx ->
  exists ctx', add_bad_block_offset ctx pos = Some ctx' /\
    wc_partition ctx' = wc_partition ctx /\ wc_buffer ctx' = wc_buffer ctx /\
    wc_stored ctx' = wc_stored ctx /\ wc_pos ctx' = wc_pos ctx /\
    zlen (wc_bad_block_offsets ctx') <= wc_bad_block_alloc ctx'.
Proof.
  intros H. unfold add_bad_block_offset.
  assert (zlen (wc_bad_block_offsets ctx) <
    (if wc_bad_block_alloc ctx <? zlen (wc_bad_block_offsets ctx) + 1
     then wc_bad_block_alloc ctx * 2 + 1 else wc_bad_block_alloc ctx)) as Hlt
    by (destruct (Z.ltb_spec (wc_bad_block_alloc ctx) (zlen (wc_bad_block_offsets ctx) + 1)); lia).
  rewrite (proj2 (Z.ltb_lt _ _) Hlt). eexists. split; [reflexivity|]. cbn.
  rewrite length_app. cbn. split_and!; auto. lia.
Qed.

(** [d'] is [d] with the block at [q] replaced. *)
Definition block_written (q : Z) (data : list Z) (d d' : dev) : Prop :=
  content d' q = data /\ forall r, r ≠ q -> content d' r = content d r.

Lemma write_retries_good n pos fdpos data d :
  healthy d -> bad pos = false -> zlen data = es ->
  exists d', write_retries (S n) es pos fdpos data d = (true, pos + es, d') /\
    healthy d' /\ block_written pos data d d'.
Proof.
  intros Hd Hb Hl. cbn [write_retries].
  destruct (dev_erase_ok d pos Hd) as (r & d1 & -> & Hd1 & Her & Ho1). destruct (Her Hb) as [Hr Hc1].
  rewrite (proj2 (Z.ltb_ge _ _) Hr).
  destruct (dev_write_ok d1 pos data Hd1 Hb Hc1 Hl) as (d2 & -> & Hd2 & Hc2 & Ho2).
  destruct (dev_read_ok d2 pos Hd2) as (m & v & d3 & -> & Hd3 & Hs3 & _ & Hg3).
  destruct (Hg3 Hb) as (-> & -> & _). rewrite Z.eqb_refl, Hc2, bool_decide_eq_true_2 by done.
  cbn [negb]. exists d3. rewrite Z.max_r by lia. split; [done|]. split; [done|].
  split; [by rewrite Hs3|]. intros r' Hr'. by rewrite Hs3, Ho2, Ho1.
Qed.

Lemma write_block_loop_good pos q data d ctx fuel :
  next_good pos q -> healthy d -> zlen data = es -> wc_partition ctx = p ->
  zlen (wc_bad_block_offsets ctx) <= wc_bad_block_alloc ctx ->
  blocks_left pos <= Z.of_nat fuel ->
  exists ctx' d', write_block_loop fuel ctx pos data d = Done (true, ctx', d') /\
    wc_partition ctx' = p /\ wc_buffer ctx' = wc_buffer ctx /\ wc_stored ctx' = wc_stored ctx /\
    wc_pos ctx' = q + es /\ zlen (wc_bad_block_offsets ctx') <= wc_bad_block_alloc ctx' /\
    healthy d' /\ block_written q data d d'.
Proof.
  intros Hn. revert ctx fuel.
  induction Hn as [pos Hp Hb|pos q Hp Hb Hn IH]; intros ctx fuel Hd Hl Hpart Halloc Hf;
    (destruct fuel as [|fuel]; [pose proof (blocks_left_pos pos Hp); lia|]);
    cbn [write_block_loop]; rewrite Hpart, Hes, swrap_size, (proj2 (Z.leb_le _ _)) by done;
    rewrite dev_bad, Hb, dev_supp by done; cbn [negb andb]; rewrite ?andb_false_r; cbn [negb].
  - destruct (write_retries_good 1 pos (wc_pos ctx) data d Hd Hb Hl) as (d' & -> & Hd' & Hw).
    exists (wc_seek ctx (pos + es)), d'. cbn. by split_and!.
  - destruct (add_bad_block_ok ctx pos Halloc) as (c & -> & Ep & Eb & Es & _ & Ha).
    cbn [access mbind outcome_bind]. pose proof (blocks_left_step pos).
    destruct (IH c fuel) as (ctx' & d' & E & H1 & H2 & H3 & H4 & H5 & H6 & H7);
      [done..|congruence|done|lia|].
    exists ctx', d'. split_and!; auto; congruence.
Qed.

Lemma write_block_good ctx q data d fuel :
  next_good (wc_pos ctx) q -> healthy d -> zlen data = es -> wc_partition ctx = p ->
  zlen (wc_bad_block_offsets ctx) <= wc_bad_block_alloc ctx ->
  blocks_left (wc_pos ctx) <= Z.of_nat fuel ->
  exists ctx' d', write_block malloc_ok fuel ctx data d = Done (true, ctx', d') /\
    wc_partition ctx' = p /\ wc_buffer ctx' = wc_buffer ctx /\ wc_stored ctx' = wc_stored ctx /\
    wc_pos ctx' = q + es /\ zlen (wc_bad_block_offsets ctx') <= wc_bad_block_alloc ctx' /\
    healthy d' /\ block_written q data d d'.
Proof. intros. unfold write_block. rewrite Hmalloc. by apply write_block_loop_good. Qed.

(** *** Writing a stream *)

(** The good blocks [done] hold the stream [s], and the ones in [rest] are the
    next to be written. *)
Definition written (done rest : list Z) (ctx : MtdWriteContext) (d : dev) (s : list Z) : Prop :=
  wc_partition ctx = p /\ zlen (wc_buffer ctx) = es /\
  zlen (wc_bad_block_offsets ctx) <= wc_bad_block_alloc ctx /\
  healthy d /\ 0 <= wc_pos ctx <= p_size p /\ good_run (wc_pos ctx) rest /\ NoDup (done ++ rest) /\
  Forall (fun q => bad q = false /\ q < wc_pos ctx) done /\ concat (content d <$> done) = s.

Lemma written_length done rest ctx d s : written done rest ctx d s -> zlen s = es * zlen done.
Proof.
  intros (_ & _ & _ & Hd & _ & _ & _ & Hg & <-).
  induction Hg as [|q done [Hq _] Hg IH]; [cbn; lia|]. cbn. rewrite length_app, Nat2Z.inj_add, IH.
  rewrite dev_content_length by done. lia.
Qed.

Lemma fmap_content_other q data d d' (qs : list Z) :
  block_written q data d d' -> q ∉ qs -> content d' <$> qs = content d <$> qs.
Proof.
  intros [_ Ho] Hq. apply list_fmap_ext. intros i r Hr. apply Ho. intros ->.
  apply Hq. by eapply list_elem_of_lookup_2.
Qed.

Lemma written_block done q rest ctx d s data fuel :
  written done (q :: rest) ctx d s -> zlen data = es -> blocks_left 0 <= Z.of_nat fuel ->
  exists ctx' d', write_block malloc_ok fuel ctx data d = Done (true, ctx', d') /\
    written (done ++ [q]) rest ctx' d' (s ++ data) /\
    wc_buffer ctx' = wc_buffer ctx /\ wc_stored ctx' = wc_stored ctx.
Proof.
  intros (Hp & Hb & Ha & Hd & Hpos & Hr & Hnd & Hg & <-) Hl Hf. inversion Hr as [|? ? ? Hn Hr']; subst.
  pose proof (blocks_left_mono 0 (wc_pos ctx) (proj1 Hpos)).
  destruct (write_block_good ctx q data d fuel) as (c & d' & E & H1 & H2 & H3 & H4 & H5 & H6 & H7);
    [done..|lia|].
  exists c, d'. split; [done|]. split; [|by split]. pose proof (next_good_le _ _ Hn).
  unfold written. rewrite H2, H4, <- (assoc_L (++)). cbn [app].
  split_and!; auto; [lia|lia| |].
  - apply Forall_app. split; [|repeat constructor; [tauto|lia]].
    eapply Forall_impl; [exact Hg|]. cbn. intuition lia.
  - rewrite fmap_app, concat_app. cbn. rewrite app_nil_r. f_equal; [|apply H7].
    f_equal. eapply fmap_content_other; [done|]. rewrite NoDup_app in Hnd.
    destruct Hnd as (_ & Hx & _). intros Hin. by apply (Hx q Hin), list_elem_of_here.
Qed.

Lemma take_slice (data : list Z) (wrote n : Z) :
  0 <= wrote -> 0 <= n -> 
  take (Z.to_nat wrote) data ++ take (Z.to_nat n) (drop (Z.to_nat wrote) data)
  = take (Z.to_nat (wrote + n)) data.
Proof. intros. rewrite take_take_drop. f_equal. lia. Qed.

Lemma blocks_left_nonneg : 0 <= blocks_left 0.
Proof. unfold blocks_left. apply Z.div_pos; lia. Qed.

Lemma write_direct_good s0 data fuel : forall done rest ctx d wrote,
  written done rest ctx d (s0 ++ take (Z.to_nat wrote) data) -> wc_stored ctx = 0 ->
  0 <= wrote <= zlen data -> zlen (s0 ++ data) <= es * zlen (done ++ rest) ->
  (zlen data - wrote) + blocks_left 0 <= Z.of_nat fuel ->
  exists done' rest' ctx' d' wrote',
    write_direct malloc_ok fuel ctx data wrote d = Done (true, ctx', wrote', d') /\
    written done' rest' ctx' d' (s0 ++ take (Z.to_nat wrote') data) /\ wc_stored ctx' = 0 /\
    wrote <= wrote' <= zlen data /\ zlen data - wrote' < es /\ done' ++ rest' = done ++ rest.
Proof.
  induction fuel as [|fuel IH]; intros done rest ctx d wrote Hw Hst Hwr Hcap Hf.
  all: pose proof blocks_left_nonneg.
  all: cbn [write_direct].
  all: assert (erase_size (wc_partition ctx) = es) as -> by (destruct Hw as [-> _]; done).
  all: rewrite Hst; cbn [Z.eqb andb]; destruct (Z.leb_spec es (zlen data - wrote)).
  { lia. }
  { do 5 eexists. split; [reflexivity|]. split_and!; eauto; lia. }
  2: { do 5 eexists. split; [reflexivity|]. split_and!; eauto; lia. }
  rewrite buf_slice_some by lia. cbn [access mbind outcome_bind].
  pose proof (written_length _ _ _ _ _ Hw) as Hlen.
  rewrite !length_app, length_take in *. destruct rest as [|q rest].
  { exfalso. cbn [length] in Hcap. rewrite Nat.add_0_r in Hcap. lia. }
  destruct (written_block done q rest ctx d _ (take (Z.to_nat es) (drop (Z.to_nat wrote) data)) fuel Hw)
    as (c & d' & -> & Hw' & _ & Hs'); [rewrite length_take, length_drop; lia|lia|].
  cbn [access mbind outcome_bind]. rewrite <- app_assoc, take_slice in Hw' by lia.
  destruct (IH (done ++ [q]) rest c d' (wrote + es) Hw') as (done' & rest' & c2 & d2 & w2 & H1 & H2);
    [congruence|lia|rewrite !length_app in *; cbn in *; lia|lia|].
  exists done', rest', c2, d2, w2. split; [done|]. rewrite <- (assoc_L (++)) in H2. cbn [app] in H2.
  split_and!; try apply H2. lia.
Qed.

(** The stream so far is what is on the chip and the pending bytes of the
    buffer. *)
Definition streamed (qs : list Z) (ctx : MtdWriteContext) (d : dev) (stream : list Z) : Prop :=
  exists done rest s, written done rest ctx d s /\ done ++ rest = qs /\ 0 <= wc_stored ctx < es /\
    s ++ take (Z.to_nat (wc_stored ctx)) (wc_buffer ctx) = stream.

(** The coalescing copy: the new pending bytes follow the old ones. *)
Lemma take_blit (buffer part b' : list Z) stored :
  buf_blit buffer stored part = Some b' -> 
  take (Z.to_nat (stored + zlen part)) b' = take (Z.to_nat stored) buffer ++ part.
Proof.
  unfold buf_blit. destruct (_ && _) eqn:E; [|discriminate]. intros Hb. apply (inj Some) in Hb.
  bool_to_prop. rewrite <- Hb, app_assoc. apply take_app_length'.
  rewrite length_app, length_take. lia.
Qed.

Lemma written_store done rest ctx d s buffer stored :
  written done rest ctx d s -> zlen buffer = es -> written done rest (wc_store ctx buffer stored) d s.
Proof. intros (?&?&?&?) ?. by unfold written, wc_store. Qed.

(** One pass of the loop: afterwards less than a block is pending and the
    stream has grown by what was consumed. *)
Lemma mtd_write_pass s0 data fuel done rest ctx d s wrote :
  written done rest ctx d s -> 0 <= wc_stored ctx < es ->
  s ++ take (Z.to_nat (wc_stored ctx)) (wc_buffer ctx) = s0 ++ take (Z.to_nat wrote) data ->
  0 <= wrote < zlen data -> zlen (s0 ++ data) <= es * zlen (done ++ rest) ->
  (zlen data - wrote) + blocks_left 0 < Z.of_nat (S fuel) ->
  exists done' rest' ctx' d' s' wrote',
    mtd_write_loop malloc_ok (S fuel) ctx data wrote d
      = mtd_write_loop malloc_ok fuel ctx' data wrote' d' /\
    written done' rest' ctx' d' s' /\ done' ++ rest' = done ++ rest /\ 0 <= wc_stored ctx' < es /\
    s' ++ take (Z.to_nat (wc_stored ctx')) (wc_buffer ctx') = s0 ++ take (Z.to_nat wrote') data /\
    wrote < wrote' <= zlen data.
Proof.
  intros Hw Hst Hs Hwr Hcap Hf. cbn [mtd_write_loop]. rewrite (proj2 (Z.ltb_lt _ _)) by lia.
  assert (erase_size (wc_partition ctx) = es) as Ees by (destruct Hw as [-> _]; done).
  assert (zlen (wc_buffer ctx) = es) as Hbl by apply Hw.
  pose proof (written_length _ _ _ _ _ Hw) as Hlen. rewrite Ees.
  destruct ((0 <? wc_stored ctx) || (zlen data - wrote <? es)) eqn:Eco; cycle 1.
  - bool_to_prop. assert (wc_stored ctx = 0) as E0 by lia.
    rewrite E0 in Hs. cbn [Z.to_nat take] in Hs. rewrite app_nil_r in Hs. subst s.
    cbn [mbind outcome_bind]. rewrite E0, (proj2 (Z.eqb_neq 0 es)) by lia.
    cbn [mbind outcome_bind negb].
    destruct (write_direct_good s0 data fuel done rest ctx d wrote) as
      (done' & rest' & c & d' & w' & -> & Hw' & Hst' & Hwr' & Hrem & Hqs); [done..|lia|done|lia|].
    cbn [mbind outcome_bind negb]. exists done', rest', c, d', (s0 ++ take (Z.to_nat w') data), w'.
    rewrite Hst'. cbn [Z.to_nat take]. rewrite app_nil_r. split_and!; auto; lia.
  - set (copy := Z.min (zlen data - wrote) (es - wc_stored ctx)).
    assert (0 < copy) by lia.
    rewrite buf_slice_some by lia. cbn [access mbind outcome_bind].
    set (part := take _ _). assert (zlen part = copy) as Hpl
      by (subst part; rewrite length_take, length_drop; lia).
    destruct (buf_blit (wc_buffer ctx) (wc_stored ctx) part) as [b'|] eqn:Eb.
    2: { rewrite buf_blit_some in Eb by lia. done. }
    pose proof (buf_blit_length _ _ _ _ Eb) as Hbl'. pose proof (take_blit _ _ _ _ Eb) as Htk.
    rewrite Hpl in Htk. cbn [access mbind outcome_bind wc_stored wc_store wc_partition].
    assert (s ++ take (Z.to_nat (wc_stored ctx + copy)) b' = s0 ++ take (Z.to_nat (wrote + copy)) data)
      as Hs' by (rewrite Htk, app_assoc, Hs, <- app_assoc; subst part; by rewrite take_slice by lia).
    destruct (Z.eqb_spec (wc_stored ctx + copy) es) as [Efull|Epart].
    + rewrite Efull, take_ge in Hs' by lia.
      assert (zlen (s0 ++ take (Z.to_nat (wrote + copy)) data) = es * zlen done + es) as Hl2
        by (rewrite <- Hs', length_app; lia).
      rewrite !length_app, length_take in *. destruct rest as [|q rest];
        [exfalso; cbn [length] in Hcap; rewrite Nat.add_0_r in Hcap; lia|].
      destruct (written_block done q rest (wc_store ctx b' (wc_stored ctx + copy)) d s b' fuel) as
        (c & d' & E & Hw' & Hb2 & Hst2); [by apply written_store; [|lia]|lia|lia|].
      cbn [wc_buffer wc_store] in *. rewrite E. cbn [access mbind outcome_bind negb]. rewrite Hs' in Hw'.
      destruct (write_direct_good s0 data fuel (done ++ [q]) rest (wc_store c (wc_buffer c) 0) d'
        (wrote + copy)) as (done' & rest' & c' & d2 & w' & -> & Hw2 & Hst' & Hwr' & Hrem & Hqs);
        [apply written_store; [done|rewrite Hb2; lia]|done|lia|rewrite !length_app; cbn [length] in *; lia|lia|].
      cbn [mbind outcome_bind negb]. exists done', rest', c', d2, (s0 ++ take (Z.to_nat w') data), w'.
      rewrite Hst'. cbn [Z.to_nat take]. rewrite app_nil_r, <- (assoc_L (++)) in *. cbn [app] in Hqs.
      split_and!; auto; lia.
    + cbn [mbind outcome_bind negb]. destruct fuel as [|fuel]; [exfalso|].
      { pose proof blocks_left_nonneg. lia. }
      assert (write_direct malloc_ok (S fuel) (wc_store ctx b' (wc_stored ctx + copy)) data
        (wrote + copy) d = Done (true, wc_store ctx b' (wc_stored ctx + copy), wrote + copy, d)) as ->.
      { cbn [write_direct]. cbn [wc_stored wc_store]. by rewrite (proj2 (Z.eqb_neq _ 0)) by lia. }
      cbn [mbind outcome_bind negb].
      exists done, rest, (wc_store ctx b' (wc_stored ctx + copy)), d, s, (wrote + copy).
      cbn [wc_stored wc_buffer wc_store]. split_and!; auto; try lia. apply written_store; [done|lia].
Qed.

Lemma mtd_write_loop_good s0 data fuel : forall done rest ctx d s wrote,
  written done rest ctx d s -> 0 <= wc_stored ctx < es ->
  s ++ take (Z.to_nat (wc_stored ctx)) (wc_buffer ctx) = s0 ++ take (Z.to_nat wrote) data ->
  0 <= wrote <= zlen data -> zlen (s0 ++ data) <= es * zlen (done ++ rest) ->
  (zlen data - wrote) + blocks_left 0 < Z.of_nat fuel ->
  exists ctx' d', mtd_write_loop malloc_ok fuel ctx data wrote d = Done (zlen data, ctx', d') /\
    streamed (done ++ rest) ctx' d' (s0 ++ data).
Proof.
  induction fuel as [|fuel IH]; intros done rest ctx d s wrote Hw Hst Hs Hwr Hcap Hf.
  { pose proof blocks_left_nonneg. lia. }
  destruct (Z.eq_dec wrote (zlen data)) as [->|].
  - cbn [mtd_write_loop]. rewrite Z.ltb_irrefl. exists ctx, d. split; [done|].
    exists done, rest, s. rewrite Nat2Z.id, firstn_all in Hs. split_and!; try done; lia.
  - destruct (mtd_write_pass s0 data fuel done rest ctx d s wrote) as
      (done' & rest' & c & d' & s' & w' & -> & Hw' & Hqs & Hst' & Hs' & Hwr'); [done..|lia|done|lia|].
    rewrite <- Hqs. eapply IH; eauto; [lia|by rewrite Hqs|lia].
Qed.

Lemma mtd_write_data_good qs stream data ctx d fuel :
  streamed qs ctx d stream -> zlen (stream ++ data) <= es * zlen qs ->
  zlen data + blocks_left 0 < Z.of_nat fuel ->
  exists ctx' d', mtd_write_data malloc_ok fuel ctx data d = Done (zlen data, ctx', d') /\
    streamed qs ctx' d' (stream ++ data).
Proof.
  intros (done & rest & s & Hw & <- & Hst & Hs) Hcap Hf.
  eapply mtd_write_loop_good; eauto; try lia. rewrite Hs. by rewrite app_nil_r.
Qed.

(** *** Finishing a write *)

(** The chip holds [stream], padded to a block boundary, in the first blocks of
    [qs]. *)
Definition holds (qs : list Z) (d : dev) (stream : list Z) : Prop :=
  healthy d /\ exists done rest pad, done ++ rest = qs /\
    concat (content d <$> done) = stream ++ pad /\ (pad = [] \/ zlen pad < es).

Lemma erase_loop_good n pos d :
  healthy d -> exists d', erase_loop n es pos d = (pos + Z.of_nat n * es, d') /\ healthy d' /\
    forall q, q < pos -> content d' q = content d q.
Proof.
  revert pos d. induction n as [|n IH]; intros pos d Hd; cbn [erase_loop].
  { exists d. rewrite Z.add_0_r. auto. }
  destruct (dev_erase_ok d pos Hd) as (r & d1 & E1 & Hd1 & _ & Ho1).
  destruct (0 <? _).
  - destruct (IH (pos + es) d Hd) as (d' & -> & Hd' & Ho). exists d'.
    split; [f_equal; lia|]. split; [done|]. intros q Hq. apply Ho. lia.
  - rewrite E1. cbn [snd]. destruct (IH (pos + es) d1 Hd1) as (d' & -> & Hd' & Ho). exists d'.
    split; [f_equal; lia|]. split; [done|]. intros q Hq. rewrite Ho, Ho1 by lia. done.
Qed.

Lemma erase_after_written done rest ctx d s n :
  written done rest ctx d s -> exists d', erase_loop n es (wc_pos ctx) d =
    (wc_pos ctx + Z.of_nat n * es, d') /\ written done rest ctx d' s.
Proof.
  intros (H1 & H2 & H3 & Hd & H5 & H6 & H7 & Hg & <-).
  destruct (erase_loop_good n (wc_pos ctx) d Hd) as (d' & E & Hd' & Ho).
  exists d'. split; [done|]. unfold written. split_and!; auto; try lia. f_equal.
  apply list_fmap_ext. intros i q Hq. apply Ho.
  rewrite Forall_forall in Hg. apply Hg. by eapply list_elem_of_lookup_2.
Qed.

(** [mtd_erase_blocks] with nothing pending, for -1 (all) or 0 blocks. *)
Lemma erase_blocks_idle done rest ctx d s blocks fuel :
  written done rest ctx d s -> wc_stored ctx = 0 -> blocks = -1 \/ blocks = 0 ->
  exists r d', mtd_erase_blocks malloc_ok fuel ctx blocks d = Done (r, ctx, d') /\ 0 <= r /\
    written done rest ctx d' s.
Proof.
  intros Hw Hst Hbl. unfold mtd_erase_blocks. rewrite Hst, Z.ltb_irrefl.
  assert (wc_partition ctx = p) as Ep by apply Hw. assert (0 <= wc_pos ctx <= p_size p) as Hpos by apply Hw.
  cbn [mbind outcome_bind negb]. rewrite Ep, Hes.
  set (total := swrap 32 _).
  assert (0 <= total).
  { subst total. rewrite wrap_small by (unfold in_u; lia).
    rewrite swrap_small; [apply Z.div_pos; lia|lia|]. unfold in_s.
    split; [pose proof (Z.div_pos (p_size p - wc_pos ctx) es); lia|].
    apply Z.div_lt_upper_bound; nia. }
  assert ((if blocks <? 0 then total else blocks) <= total) by (destruct Hbl as [-> | ->]; cbn; lia).
  rewrite (proj2 (Z.ltb_ge _ _)) by done.
  destruct (erase_after_written done rest ctx d s
    (Z.to_nat (if blocks <? 0 then total else blocks)) Hw) as (d' & -> & Hw').
  do 2 eexists. split; [reflexivity|]. split; [nia|done].
Qed.


(** [mtd_erase_blocks] writes the pending bytes, padded with zeros. *)
Lemma mtd_erase_blocks_good qs stream ctx d blocks fuel :
  streamed qs ctx d stream -> zlen stream <= es * zlen qs -> blocks = -1 \/ blocks = 0 ->
  blocks_left 0 <= Z.of_nat fuel ->
  exists r ctx' d' pad, mtd_erase_blocks malloc_ok fuel ctx blocks d = Done (r, ctx', d') /\
    0 <= r /\ wc_stored ctx' = 0 /\ (pad = [] \/ zlen pad < es) /\
    exists done rest, done ++ rest = qs /\ written done rest ctx' d' (stream ++ pad).
Proof.
  intros (done & rest & s & Hw & <- & Hst & Hs) Hcap Hbl Hf.
  destruct (Z.eq_dec (wc_stored ctx) 0) as [E0|Hne].
  { rewrite E0 in Hs. cbn [Z.to_nat take] in Hs. rewrite app_nil_r in Hs. subst s.
    destruct (erase_blocks_idle done rest ctx d stream blocks fuel Hw E0 Hbl) as (r & d' & -> & Hr & Hw').
    exists r, ctx, d', []. rewrite app_nil_r. split_and!; eauto. }
  set (zeros := replicate (Z.to_nat (es - wc_stored ctx)) 0).
  assert (zlen zeros = es - wc_stored ctx) as Hz by (subst zeros; rewrite length_replicate; lia).
  assert (zlen (wc_buffer ctx) = es) as Hbuf by apply Hw.
  assert (erase_size (wc_partition ctx) = es) as Ees by (destruct Hw as [-> _]; done).
  destruct (buf_blit (wc_buffer ctx) (wc_stored ctx) zeros) as [b|] eqn:Eb.
  2: { rewrite buf_blit_some in Eb by lia. done. }
  pose proof (buf_blit_length _ _ _ _ Eb) as Hb. pose proof (take_blit _ _ _ _ Eb) as Htk.
  rewrite Hz, take_ge in Htk by lia.
  pose proof (written_length _ _ _ _ _ Hw) as Hlen.
  destruct rest as [|q rest].
  { exfalso. rewrite app_nil_r, <- Hs, length_app, length_take, <- Hlen in Hcap. lia. }
  destruct (written_block done q rest (wc_store ctx b (wc_stored ctx)) d s b fuel) as
    (c & d1 & E & Hw1 & Hb1 & _); [apply written_store; [done|lia]|lia|done|].
  cbn [wc_store wc_buffer] in Hb1. rewrite Htk, app_assoc, Hs in Hw1.
  destruct (erase_blocks_idle (done ++ [q]) rest (wc_store c (wc_buffer c) 0) d1 (stream ++ zeros)
    blocks fuel) as (r & d2 & E2 & Hr & Hw2);
    [apply written_store; [done|rewrite Hb1; lia]|done|done|].
  exists r, (wc_store c (wc_buffer c) 0), d2, zeros. split.
  - unfold mtd_erase_blocks at 1. rewrite Ees, (proj2 (Z.ltb_lt 0 (wc_stored ctx))) by lia.
    fold zeros. rewrite Eb. cbn [access mbind outcome_bind]. rewrite E.
    cbn [access mbind outcome_bind negb]. unfold mtd_erase_blocks in E2.
    cbn [wc_stored wc_store Z.ltb Z.compare mbind outcome_bind negb] in E2.
    cbn [wc_partition wc_pos wc_store]. cbn [wc_partition wc_pos wc_store] in E2.
    assert (erase_size (wc_partition c) = es) as Ec by (destruct Hw1 as [-> _]; done).
    rewrite Ec in E2. exact E2.
  - split_and!; auto; [right; lia|]. exists (done ++ [q]), rest. by rewrite <- (assoc_L (++)).
Qed.

Lemma mtd_finish_good qs stream ctx d fuel :
  streamed qs ctx d stream -> zlen stream <= es * zlen qs -> blocks_left 0 <= Z.of_nat fuel ->
  exists r ctx' d' d'', mtd_erase_blocks malloc_ok fuel ctx (-1) d = Done (r, ctx', d') /\ 0 <= r /\
    mtd_write_close malloc_ok fuel ctx' d' = Done (0, d'') /\ holds qs d'' stream.
Proof.
  intros Hs Hcap Hf.
  destruct (mtd_erase_blocks_good qs stream ctx d (-1) fuel) as
    (r & c & d1 & pad & E & Hr & Hst & Hpad & done & rest & Hqs & Hw); auto.
  destruct (erase_blocks_idle done rest c d1 (stream ++ pad) 0 fuel) as (r2 & d2 & E2 & Hr2 & Hw2); auto.
  exists r, c, d1, d2. split_and!; auto.
  - unfold mtd_write_close. rewrite E2. cbn [mbind outcome_bind].
    by rewrite (proj2 (Z.eqb_neq r2 (-1))) by lia.
  - destruct Hw2 as (_ & _ & _ & Hd & _ & _ & _ & _ & Hc). split; [done|].
    exists done, rest, pad. by split_and!.
Qed.

(** *** Reading the stream back *)

Definition reading (rest : list Z) (ctx : MtdReadContext) (d : dev) (s : list Z) : Prop :=
  rc_partition ctx = p /\ zlen (rc_buffer ctx) = es /\ 0 <= rc_consumed ctx <= es /\
  healthy d /\ 0 <= rc_pos ctx /\ good_run (rc_pos ctx) rest /\ Forall (fun q => bad q = false) rest /\
  s = drop (Z.to_nat (rc_consumed ctx)) (rc_buffer ctx) ++ concat (content d <$> rest).

Lemma reading_block q rest ctx d s fuel :
  reading (q :: rest) ctx d s -> rc_consumed ctx = es -> blocks_left 0 <= Z.of_nat fuel ->
  exists d', read_block fuel (rc_partition ctx) (rc_pos ctx) d = Done (Some (content d q), q + es, d') /\
    zlen (content d q) = es /\ s = content d q ++ concat (content d' <$> rest) /\
    (forall b c, zlen b = es -> 0 <= c <= es ->
       reading rest (mkRC p b c (q + es)) d' (drop (Z.to_nat c) b ++ concat (content d' <$> rest))).
Proof.
  intros (-> & Hb & Hc & Hd & Hpos & Hr & Hg & ->) Ec Hf. inversion Hr as [|? ? ? Hn Hr']; subst.
  apply Forall_cons in Hg as [Hq Hg].
  pose proof (blocks_left_mono 0 (rc_pos ctx) Hpos).
  destruct (read_block_good (rc_pos ctx) q d fuel) as (d' & E & Hd' & Hs); [done..|lia|].
  exists d'. split; [done|]. split; [by apply dev_content_length|].
  assert (content d' <$> rest = content d <$> rest) as Hsame
    by (apply list_fmap_ext; intros; apply Hs).
  rewrite Hsame, Ec, drop_ge by lia. split; [done|]. intros b c Hb' Hc'.
  pose proof (next_good_le _ _ Hn). unfold reading. cbn. rewrite Hsame. split_and!; auto; lia.
Qed.

Lemma reading_consumed rest ctx d s : reading rest ctx d s -> rc_consumed ctx = es ->
  s = concat (content d <$> rest).
Proof. intros (_ & Hb & _ & _ & _ & _ & _ & ->) Ec. by rewrite Ec, drop_ge by lia. Qed.

Lemma read_direct_good len fuel : forall rest ctx d s acc,
  reading rest ctx d s -> rc_consumed ctx = es -> zlen acc <= len -> len - zlen acc <= zlen s ->
  (len - zlen acc) + blocks_left 0 <= Z.of_nat fuel ->
  exists rest' ctx' d' n, read_direct fuel ctx len acc d = Done (true, ctx', acc ++ take n s, d') /\
    reading rest' ctx' d' (drop n s) /\ rc_consumed ctx' = es /\ (n <= length s)%nat /\
    zlen acc + Z.of_nat n <= len < zlen acc + Z.of_nat n + es.
Proof.
  induction fuel as [|fuel IH]; intros rest ctx d s acc Hrd Hc Hacc Hlen Hf.
  all: pose proof blocks_left_nonneg; cbn [read_direct].
  all: assert (erase_size (rc_partition ctx) = es) as -> by (destruct Hrd as [-> _]; done).
  all: rewrite Hc, Z.eqb_refl; cbn [andb]; destruct (Z.leb_spec es (len - zlen acc)).
  { lia. }
  { exists rest, ctx, d, 0%nat. cbn [take drop]. rewrite app_nil_r. split_and!; auto; lia. }
  2: { exists rest, ctx, d, 0%nat. cbn [take drop]. rewrite app_nil_r. split_and!; auto; lia. }
  destruct rest as [|q rest].
  { pose proof (reading_consumed _ _ _ _ Hrd Hc) as ->. cbn in Hlen. lia. }
  destruct (reading_block q rest ctx d s fuel Hrd Hc) as (d' & -> & Hl & Hs & Hgo); [lia|].
  cbn [mbind outcome_bind]. assert (rc_partition ctx = p) as Ep by apply Hrd.
  assert (zlen (rc_buffer ctx) = es) as Hb by apply Hrd.
  specialize (Hgo (rc_buffer ctx) es Hb ltac:(lia)). rewrite drop_ge in Hgo by lia. cbn [app] in Hgo.
  rewrite Hs, length_app in Hlen.
  destruct (IH rest (mkRC (rc_partition ctx) (rc_buffer ctx) es (q + es)) d'
    (concat (content d' <$> rest)) (acc ++ content d q)) as
    (rest' & c & d2 & n & E & Hrd' & Hc' & Hn & Hb2);
    [by rewrite Ep|done|rewrite length_app; lia..|].
  exists rest', c, d2, (Z.to_nat es + n)%nat. rewrite length_app in Hb2. rewrite Hs, length_app.
  rewrite take_app, drop_app, take_ge, drop_ge by lia.
  replace (Z.to_nat es + n - length (content d q))%nat with n by lia. cbn [app].
  rewrite app_assoc. split_and!; auto; lia.
Qed.

(** The first step of a pass: what is left of the buffer goes first. *)
Lemma reading_buffered rest ctx d s n :
  reading rest ctx d s -> 0 <= n <= es - rc_consumed ctx ->
  buf_slice (rc_buffer ctx) (rc_consumed ctx) n = Some (take (Z.to_nat n) s) /\
  reading rest (mkRC (rc_partition ctx) (rc_buffer ctx) (rc_consumed ctx + n) (rc_pos ctx)) d
    (drop (Z.to_nat n) s) /\ n <= zlen s.
Proof.
  intros (Hp & Hb & Hc & Hd & Hpos & Hr & Hg & ->) Hn. split_and!.
  - rewrite buf_slice_some by lia. rewrite take_app_le by (rewrite length_drop; lia). done.
  - unfold reading. cbn. split_and!; auto; try lia.
    rewrite drop_app_le, drop_drop by (rewrite length_drop; lia). do 2 f_equal. lia.
  - rewrite length_app, length_drop. lia.
Qed.

Lemma mtd_read_loop_good len fuel : forall rest ctx d s acc,
  reading rest ctx d s -> zlen acc <= len -> len - zlen acc <= zlen s ->
  2 * (len - zlen acc) + (if rc_consumed ctx <? es then 0 else 1) + blocks_left 0 < Z.of_nat fuel ->
  exists rest' ctx' d', mtd_read_loop fuel ctx len acc d =
    Done (Some (acc ++ take (Z.to_nat (len - zlen acc)) s), ctx', d') /\
    reading rest' ctx' d' (drop (Z.to_nat (len - zlen acc)) s).
Proof.
  induction fuel as [|fuel IH]; intros rest ctx d s acc Hrd Hacc Hlen Hf.
  { pose proof blocks_left_nonneg. destruct (_ <? _); lia. }
  cbn [mtd_read_loop].
  assert (erase_size (rc_partition ctx) = es) as -> by (destruct Hrd as [-> _]; done).
  destruct (Z.ltb_spec (zlen acc) len).
  2: { replace (len - zlen acc) with 0 by lia. cbn [Z.to_nat take drop]. rewrite app_nil_r. eauto. }
  set (n := if rc_consumed ctx <? es then Z.min (len - zlen acc) (es - rc_consumed ctx) else 0).
  assert (0 <= rc_consumed ctx <= es) as Hcr by apply Hrd.
  assert (0 <= n <= es - rc_consumed ctx /\ n <= len - zlen acc) as [Hn1 Hn2]
    by (subst n; destruct (Z.ltb_spec (rc_consumed ctx) es); lia).
  destruct (reading_buffered rest ctx d s n Hrd Hn1) as (Eslice & Hrd1 & Hns).
  set (ctx1 := mkRC _ _ (rc_consumed ctx + n) _) in Hrd1.
  assert ((if rc_consumed ctx <? es then
      part ← access (buf_slice (rc_buffer ctx) (rc_consumed ctx)
        (Z.min (len - zlen acc) (es - rc_consumed ctx)));
      Done (mkRC (rc_partition ctx) (rc_buffer ctx)
        (rc_consumed ctx + Z.min (len - zlen acc) (es - rc_consumed ctx)) (rc_pos ctx), acc ++ part)
      else Done (ctx, acc)) = Done (ctx1, acc ++ take (Z.to_nat n) s)) as ->.
  { subst n ctx1. destruct (Z.ltb_spec (rc_consumed ctx) es).
    - by rewrite Eslice.
    - rewrite Z.add_0_r. cbn [Z.to_nat take]. rewrite app_nil_r. by destruct ctx. }
  cbn [mbind outcome_bind]. pose proof blocks_left_nonneg.
  assert (zlen (acc ++ take (Z.to_nat n) s) = zlen acc + n) as Hl1
    by (rewrite length_app, length_take; lia).
  destruct (Z.eq_dec (rc_consumed ctx + n) es) as [Efull|Hpart].
  - destruct (read_direct_good len fuel rest ctx1 d (drop (Z.to_nat n) s) (acc ++ take (Z.to_nat n) s))
      as (rest2 & ctx2 & d2 & m & -> & Hrd2 & Hc2 & Hm & Hb2);
      [done|done|lia|rewrite length_drop; lia|destruct (_ <? _); lia|].
    rewrite Hl1 in Hb2. rewrite length_drop in Hm. rewrite drop_drop in Hrd2.
    cbn [mbind outcome_bind negb]. rewrite <- app_assoc, take_take_drop.
    set (k := (Z.to_nat n + m)%nat) in *. assert (Z.of_nat k = n + Z.of_nat m) as Hk by lia.
    assert (zlen (acc ++ take k s) = zlen acc + Z.of_nat k) as Hl2
      by (rewrite length_app, length_take; lia).
    rewrite Hc2, Z.eqb_refl, Hl2. cbn [andb].
    destruct (Z.leb_spec len (zlen acc + Z.of_nat k)).
    { replace (Z.to_nat (len - zlen acc)) with k by lia. eauto. }
    rewrite (proj2 (Z.ltb_lt _ _)) by lia. destruct rest2 as [|q rest2].
    { pose proof (reading_consumed _ _ _ _ Hrd2 Hc2) as Hnil. cbn in Hnil.
      apply (f_equal length) in Hnil. rewrite length_drop in Hnil. cbn in Hnil. lia. }
    destruct (reading_block q rest2 ctx2 d2 _ fuel Hrd2 Hc2) as (d3 & -> & Hlq & Hs2 & Hgo);
      [destruct (rc_consumed ctx <? es); lia|].
    cbn [mbind outcome_bind]. assert (rc_partition ctx2 = p) as -> by apply Hrd2.
    specialize (Hgo (content d2 q) 0 Hlq ltac:(lia)). cbn [Z.to_nat] in Hgo; rewrite drop_0 in Hgo.
    rewrite <- Hs2 in Hgo.
    destruct (IH rest2 (mkRC p (content d2 q) 0 (q + es)) d3 (drop k s) (acc ++ take k s))
      as (rest3 & ctx3 & d4 & -> & Hrd3); rewrite ?Hl2, ?length_drop; auto; try lia.
    { cbn [rc_consumed]. rewrite (proj2 (Z.ltb_lt _ _)) by lia. subst n.
      destruct (Z.ltb_spec (rc_consumed ctx) es); lia. }
    rewrite Hl2, drop_drop in Hrd3. rewrite <- app_assoc, take_take_drop.
    replace (k + Z.to_nat (len - (zlen acc + Z.of_nat k)))%nat with (Z.to_nat (len - zlen acc)) in * by lia.
    eauto.
  - assert (n = len - zlen acc) as En by (subst n; destruct (Z.ltb_spec (rc_consumed ctx) es); lia).
    assert (read_direct fuel ctx1 len (acc ++ take (Z.to_nat n) s) d
      = Done (true, ctx1, acc ++ take (Z.to_nat n) s, d)) as ->.
    { destruct fuel; [destruct (_ <? _); lia|]. cbn [read_direct]. cbn [rc_consumed ctx1 rc_partition].
      subst ctx1. cbn [rc_consumed rc_partition].
      assert (erase_size (rc_partition ctx) = es) as -> by (destruct Hrd as [-> _]; done).
      by rewrite (proj2 (Z.eqb_neq _ _)) by done. }
    cbn [mbind outcome_bind negb]. rewrite (proj2 (Z.leb_le _ _)) by lia. rewrite <- En. eauto.
Qed.

(** *** The end of the partition *)

Lemma read_block_loop_none pos d before fdpos fuel :
  (forall q, ~ next_good pos q) -> healthy d -> dev_ecc d = Some before ->
  blocks_left pos < Z.of_nat fuel ->
  exists fdpos' d', read_block_loop fuel p before pos fdpos d = Done (None, fdpos', d') /\ healthy d'.
Proof.
  revert pos d before fdpos. induction fuel as [|fuel IH]; intros pos d before fdpos Hno Hd He Hf;
    cbn [read_block_loop]; rewrite Hes, swrap_size; destruct (Z.leb_spec (pos + es) (p_size p)) as [Hp|];
    [pose proof (blocks_left_pos pos Hp); lia|by eauto| |by eauto].
  assert (bad pos = true) as Hb.
  { apply not_false_iff_true. intros Hb. apply (Hno pos). by constructor. }
  destruct (dev_read_ok d pos Hd) as (n & data & d1 & -> & Hd1 & Hsame & Hfail & _).
  pose proof (blocks_left_step pos).
  assert (forall b f, dev_ecc d1 = Some b -> exists fdpos' d',
    read_block_loop fuel p b (pos + es) f d1 = Done (None, fdpos', d') /\ healthy d') as Hgo.
  { intros b f Hb1. apply IH; auto; [|lia]. intros q Hq. apply (Hno q). by apply ng_skip. }
  destruct (dev_ecc_ok d1 Hd1) as [after Ha]. rewrite Ha, dev_bad, Hb by done. cbn [negb].
  destruct (negb (n =? es)) eqn:En; [|destruct (negb (after =? before)) eqn:E; [by apply Hgo|]].
  - apply Hgo. bool_to_prop. by rewrite Hfail.
  - apply Hgo. bool_to_prop. congruence.
Qed.

(** At the end of the good blocks [mtd_read_data] fails. *)
Lemma mtd_read_end ctx d len fuel :
  reading [] ctx d [] -> 0 < len -> blocks_left 0 + 2 < Z.of_nat fuel ->
  exists ctx' d', mtd_read_data fuel ctx len d = Done (None, ctx', d').
Proof.
  intros (Hp & Hb & Hc & Hd & Hpos & Hr & _ & Hs) Hlen Hf.
  assert (forall q, ~ next_good (rc_pos ctx) q) as Hno by (by inversion Hr). symmetry in Hs. apply app_nil in Hs as [Hs _].
  assert (rc_consumed ctx = es) as Ec.
  { apply (f_equal length) in Hs. rewrite length_drop in Hs. cbn in Hs. lia. }
  destruct fuel as [|[|fuel]]; [pose proof blocks_left_nonneg; lia..|].
  pose proof (blocks_left_mono 0 (rc_pos ctx) Hpos).
  assert (forall f, blocks_left 0 < Z.of_nat f -> exists fdpos' d',
    read_block f p (rc_pos ctx) d = Done (None, fdpos', d') /\ healthy d') as Hno'.
  { intros f Hf'. unfold read_block. destruct (dev_ecc_ok d Hd) as [b E]. rewrite E.
    apply read_block_loop_none; auto. lia. }
  unfold mtd_read_data. cbn [mtd_read_loop length Z.of_nat]. rewrite (proj2 (Z.ltb_lt _ _)) by lia.
  rewrite Hp, Hes, Ec, Z.ltb_irrefl. cbn [mbind outcome_bind].
  cbn [read_direct]. rewrite Ec, Hp, Hes, Z.eqb_refl, Z.sub_0_r. cbn [andb].
  destruct (es <=? len).
  - destruct (Hno' fuel) as (f & d' & -> & _); [lia|]. cbn. eauto.
  - cbn [mbind outcome_bind negb length Z.of_nat]. rewrite (proj2 (Z.leb_gt _ _)) by lia.
    rewrite Ec, Z.eqb_refl, (proj2 (Z.ltb_lt _ _)), Hp by lia. cbn [andb].
    destruct (Hno' (S fuel)) as (f & d' & -> & _); [lia|]. cbn. eauto.
Qed.

(** *** Images *)

Lemma restore_loop_good qs n : forall file stream ctx d fuel,
  streamed qs ctx d stream -> zlen (stream ++ file) <= es * zlen qs ->
  (length file <= n)%nat -> Z.of_nat BUFSIZ + blocks_left 0 < Z.of_nat fuel ->
  exists ctx' d', restore_loop malloc_ok n fuel ctx file d = Done (true, ctx', d') /\
    streamed qs ctx' d' (stream ++ file).
Proof.
  induction n as [|n IH]; intros file stream ctx d fuel Hs Hcap Hn Hf;
    (destruct file as [|b file]; [rewrite app_nil_r; cbn; eauto|]); [cbn in Hn; lia|].
  cbn [restore_loop]. set (f := b :: file) in *.
  assert (zlen (take BUFSIZ f) <= Z.of_nat BUFSIZ) by (rewrite length_take; lia).
  destruct (mtd_write_data_good qs stream (take BUFSIZ f) ctx d fuel Hs) as (c & d' & -> & Hs');
    [|lia|]. { rewrite length_app, length_take in *. lia. }
  cbn [mbind outcome_bind]. rewrite Z.eqb_refl.
  destruct (IH (drop BUFSIZ f) (stream ++ take BUFSIZ f) c d' fuel Hs') as (c2 & d2 & -> & Hs2); auto.
  - by rewrite <- app_assoc, take_drop.
  - rewrite length_drop. unfold BUFSIZ in *. subst f. cbn [length] in *. lia.
  - rewrite <- app_assoc, take_drop in Hs2. eauto.
Qed.

Lemma streamed_start qs d ctx :
  healthy d -> good_run 0 qs -> mtd_write_partition malloc_ok d p = Some ctx -> streamed qs ctx d [].
Proof.
  intros Hd Hq. unfold mtd_write_partition. rewrite Hmalloc, dev_open_ok by done.
  cbn [negb]. intros [= <-]. exists [], qs, []. cbn. split_and!; auto; try lia.
  unfold written. cbn. rewrite length_replicate. split_and!; auto; try lia.
  by apply (good_run_sorted 0).
Qed.

Lemma reading_start qs d :
  healthy d -> good_run 0 qs -> exists ctx, mtd_read_partition malloc_ok d p = Some ctx /\
    reading qs ctx d (concat (content d <$> qs)).
Proof.
  intros Hd Hq. unfold mtd_read_partition. rewrite Hmalloc, dev_open_ok by done. cbn [negb].
  eexists. split; [done|]. unfold reading. cbn. rewrite length_replicate, Hes.
  rewrite drop_ge by (rewrite length_replicate; lia). split_and!; auto; try lia.
  by eapply good_run_good.
Qed.

Lemma contents_length qs d :
  healthy d -> good_run 0 qs -> zlen (concat (content d <$> qs)) = es * zlen qs.
Proof.
  intros Hd Hq%good_run_good. induction Hq as [|q qs Hg _ IH]; [cbn; lia|]. cbn.
  rewrite length_app, Nat2Z.inj_add, IH, dev_content_length by done. lia.
Qed.

Lemma backup_loop_good k : forall rest ctx d s out n fuel,
  reading rest ctx d s -> zlen s = BLOCK_SIZE * Z.of_nat k -> (k < n)%nat ->
  2 * BLOCK_SIZE + blocks_left 0 + 2 < Z.of_nat fuel ->
  exists d', backup_loop n fuel (fun _ len => len) ctx out d = Done (Some (out ++ s), d').
Proof.
  induction k as [|k IH]; intros rest ctx d s out n fuel Hrd Hl Hn Hf;
    (destruct n as [|n]; [lia|]); cbn [backup_loop]; unfold BLOCK_SIZE in *.
  - destruct s; [|cbn in Hl; lia].
    assert (rest = []) as ->.
    { pose proof Hrd as (_ & _ & _ & Hd & _ & _ & Hg & Hs). destruct Hg as [|q rest Hq Hg]; [done|].
      apply (f_equal length) in Hs. cbn in Hs. rewrite !length_app in Hs.
      pose proof (dev_content_length d q Hd Hq). lia. }
    destruct (mtd_read_end ctx d 2048 fuel Hrd) as (c & d' & ->); [lia..|].
    cbn. rewrite app_nil_r. eauto.
  - destruct (mtd_read_loop_good 2048 fuel rest ctx d s []) as (rest' & c & d' & E & Hrd');
      [done|cbn; lia|cbn; lia|cbn [length]; destruct (_ <? _); lia|].
    cbn [length Z.of_nat] in *. rewrite Z.sub_0_r in *. unfold mtd_read_data. rewrite E.
    cbn [mbind outcome_bind app].
    destruct (take (Z.to_nat 2048) s) as [|b buf] eqn:Et.
    { apply (f_equal length) in Et. rewrite length_take in Et. cbn in Et. lia. }
    rewrite Z.eqb_refl. cbn [negb]. rewrite <- Et.
    destruct (IH rest' c d' (drop (Z.to_nat 2048) s) (out ++ take (Z.to_nat 2048) s) n fuel Hrd')
      as (d2 & ->); [rewrite length_drop; lia|lia|lia|].
    rewrite <- app_assoc, take_drop. eauto.
Qed.

Lemma good_run_capacity pos qs : good_run pos qs -> pos <= p_size p -> es * zlen qs <= p_size p - pos.
Proof.
  induction 1 as [|pos q qs Hn _ IH]; intros Hp; cbn [length]; [lia|].
  apply next_good_le in Hn. specialize (IH ltac:(lia)). lia.
Qed.

Lemma blocks_left_size : blocks_left 0 <= p_size p.
Proof. unfold blocks_left. rewrite Z.sub_0_r. apply Z.div_le_upper_bound; nia. Qed.

(** [good_blocks n pos] are the good ones of the [n] blocks from [pos] on. *)
Fixpoint good_blocks (n : nat) (pos : Z) : list Z :=
  match n with
  | O => []
  | S n => if bad pos then good_blocks n (pos + es) else pos :: good_blocks n (pos + es)
  end.

Lemma good_run_blocks n pos :
  pos + Z.of_nat n * es <= p_size p < pos + Z.of_nat n * es + es -> good_run pos (good_blocks n pos).
Proof.
  revert pos. induction n as [|n IH]; intros pos Hn; cbn [good_blocks].
  { constructor. intros q Hq. destruct Hq; lia. }
  specialize (IH (pos + es) ltac:(lia)). destruct (bad pos) eqn:Hb.
  - inversion IH as [? Hno|? q qs Hg Hr]; subst; [|by econstructor; [apply ng_skip; [lia|done|]|]].
    constructor. intros q Hq. inversion Hq; subst; [congruence|]. by eapply Hno.
  - econstructor; [|exact IH]. constructor; [lia|done].
Qed.

Lemma restore_good qs file d fuel :
  good_run 0 qs -> healthy d -> zlen file <= es * zlen qs ->
  zlen file + p_size p + Z.of_nat BUFSIZ < Z.of_nat fuel ->
  exists d', cmd_mtd_restore_raw_partition malloc_ok fuel (Some p) (Some file) d = Done (0, d') /\
    holds qs d' file.
Proof.
  intros Hq Hd Hcap Hf. unfold cmd_mtd_restore_raw_partition.
  destruct (mtd_write_partition malloc_ok d p) as [ctx|] eqn:Ew.
  2: { unfold mtd_write_partition in Ew. by rewrite Hmalloc, dev_open_ok in Ew. }
  pose proof (streamed_start qs d ctx Hd Hq Ew) as Hs. pose proof blocks_left_size.
  destruct (restore_loop_good qs fuel file [] ctx d fuel Hs) as (c & d1 & -> & Hs1); [done|lia|lia|].
  cbn [mbind outcome_bind negb app] in *.
  destruct (mtd_finish_good qs file c d1 fuel Hs1) as (r & c2 & d2 & d3 & -> & Hr & E & Hh); [done|lia|].
  cbn [mbind outcome_bind]. rewrite E. cbn [mbind outcome_bind]. eauto.
Qed.

Lemma backup_good qs d fuel :
  good_run 0 qs -> healthy d -> es mod BLOCK_SIZE = 0 ->
  p_size p + 2 * BLOCK_SIZE + 3 <= Z.of_nat fuel ->
  exists d', cmd_mtd_backup_raw_partition malloc_ok fuel (Some p) (fun _ len => len) true d
    = Done (0, Some (concat (content d <$> qs)), d').
Proof.
  intros Hq Hd Hmod Hf. unfold cmd_mtd_backup_raw_partition, BLOCK_SIZE in *.
  destruct (reading_start qs d Hd Hq) as (ctx & -> & Hrd).
  pose proof (contents_length qs d Hd Hq) as Hl. pose proof blocks_left_size.
  pose proof (good_run_capacity 0 qs Hq). apply Z.div_exact in Hmod; [|lia].
  destruct (backup_loop_good (Z.to_nat (es / 2048 * zlen qs)) qs ctx d (concat (content d <$> qs)) []
    fuel fuel Hrd) as (d' & ->); unfold BLOCK_SIZE; [nia|nia|lia|].
  cbn. eauto.
Qed.
End Healthy.

(** ** A chip *)

(** A chip with the blocks in [bad] marked: what is not written yet is erased. *)
Definition nand_content (es : Z) (d : gmap Z (list Z)) (pos : Z) : list Z :=
  default (replicate (Z.to_nat es) 255) (d !! pos).

Definition nand_driver (es : Z) (bad : Z -> bool) : MtdDriver := {|
  dev := gmap Z (list Z);
  dev_open _ _ := true;
  dev_getbadblock _ pos := if bad pos then 1 else 0;
  dev_opnotsupp _ := false;
  dev_erase d pos _ := if bad pos then (-1, d) else (0, <[pos := replicate (Z.to_nat es) 255]> d);
  dev_write d pos data := if bad pos then (-1, d) else (zlen data, <[pos := data]> d);
  dev_read d pos n := if bad pos then (-1, [], d) else (es, nand_content es d pos, d);
  dev_ecc _ := Some 0
|}.

#[export] Instance nand_healthy (es : Z) (bad : Z -> bool) (Hes : 0 < es) :
  MtdHealthy (nand_driver es bad) es bad.
Proof.
  refine {| content := nand_content es : @dev (nand_driver es bad) -> _;
            healthy := fun d : @dev (nand_driver es bad) =>
              map_Forall (fun _ data => zlen data = es) (d : gmap Z (list Z)) |}; cbn.
  - done.
  - intros d pos _. by destruct (bad pos).
  - done.
  - intros d pos Hd _. unfold nand_content. destruct (d !! pos) as [l|] eqn:E; cbn.
    + by apply (Hd pos).
    + rewrite length_replicate. lia.
  - eauto.
  - intros d pos Hd. destruct (bad pos); [exists (-1), d; by split_and!|].
    exists 0, (<[pos := replicate (Z.to_nat es) 255]> d). split_and!; try done.
    + apply map_Forall_insert_2; [|done]. rewrite length_replicate. lia.
    + intros _. unfold nand_content. by rewrite lookup_insert_eq.
    + intros q Hq. unfold nand_content. by rewrite lookup_insert_ne.
  - intros d pos data Hd Hb _ Hl. rewrite Hb. exists (<[pos := data]> d). rewrite Hl.
    split_and!; try done.
    + by apply map_Forall_insert_2.
    + unfold nand_content. by rewrite lookup_insert_eq.
    + intros q Hq. unfold nand_content. by rewrite lookup_insert_ne.
  - intros d pos Hd. destruct (bad pos); do 3 eexists; (split; [reflexivity|]); by split_and!.
Defined.

(** [C21] Restoring an image onto a chip and backing the partition up again: on
    a chip whose only defects are blocks marked bad, for any image that fits
    the good blocks, [cmd_mtd_restore_raw_partition] returns 0, and
    [cmd_mtd_backup_raw_partition] then terminates with a file that starts with
    the image, block for block from the good blocks in order.  The fuel covers
    one step per byte of the image and of the partition. *)
Theorem restore_backup_roundtrip {D : MtdDriver} {es : Z} {bad : Z -> bool} {HD : MtdHealthy D es bad}
    (malloc_ok : Z -> bool) (p : MtdPartition) (file : list Z) (d : dev) (n fuel : nat)
    (Hmalloc : forall n, malloc_ok n = true) (Hes : erase_size p = es) (Hes0 : 0 < es)
    (Hmod : es mod BLOCK_SIZE = 0) (Hsize : 0 <= p_size p < 2 ^ 31)
    (Hn : Z.of_nat n = p_size p / es) (Hd : healthy d)
    (Hfits : zlen file <= es * zlen (good_blocks (es := es) (bad := bad) n 0))
    (Hfuel : zlen file + p_size p + 2 * BLOCK_SIZE + 3 <= Z.of_nat fuel) :
  exists d' d'' rest,
    cmd_mtd_restore_raw_partition malloc_ok fuel (Some p) (Some file) d = Done (0, d') /\
    cmd_mtd_backup_raw_partition malloc_ok fuel (Some p) (fun _ len => len) true d'
      = Done (0, Some (file ++ rest), d'').
Proof.
  assert (good_run (es := es) (bad := bad) p 0 (good_blocks (es := es) (bad := bad) n 0)) as Hq.
  { apply good_run_blocks; auto. rewrite Hn. pose proof (Z.mul_div_le (p_size p) es Hes0).
    pose proof (Z.mul_succ_div_gt (p_size p) es Hes0). lia. }
  destruct (restore_good malloc_ok Hmalloc p Hes Hes0 Hsize _ file d fuel Hq Hd Hfits) as (d' & E & Hh).
  { unfold BLOCK_SIZE, BUFSIZ in *. lia. }
  destruct Hh as (Hd' & done & rest & pad & Hqs & Hc & _).
  destruct (backup_good malloc_ok Hmalloc p Hes Hes0 Hsize _ d' fuel Hq Hd' Hmod) as (d'' & E2).
  { unfold BLOCK_SIZE in *. lia. }
  exists d', d'', (pad ++ concat (content d' <$> rest)). split; [done|].
  rewrite E2, <- Hqs, fmap_app, concat_app, Hc. by rewrite <- app_assoc.
Qed.

(** A partition of three blocks, the middle one bad. *)
Definition demo_partition : MtdPartition := mkPartition 0 6144 2048 "boot".

Lemma restore_backup_roundtrip_witness :
  let D := nand_driver 2048 (fun pos => pos =? 2048) in
  exists d' d'' rest,
    cmd_mtd_restore_raw_partition (D := D) (fun _ => true) (Z.to_nat 12000) (Some demo_partition)
      (Some [1; 2; 3]) ∅ = Done (0, d') /\
    cmd_mtd_backup_raw_partition (D := D) (fun _ => true) (Z.to_nat 12000) (Some demo_partition)
      (fun _ len => len) true d' = Done (0, Some ([1; 2; 3] ++ rest), d'').
Proof.
  apply (restore_backup_roundtrip (HD := nand_healthy 2048 (fun pos => pos =? 2048) ltac:(lia))
    (fun _ => true) demo_partition [1; 2; 3] (∅ : gmap Z (list Z)) 3 (Z.to_nat 12000));
    (done || reflexivity || (cbn; lia)).
Defined.

(** A chip whose first block does not take data, without being marked bad. *)
Definition worn_driver : MtdDriver := {|
  dev := gmap Z (list Z);
  dev_open _ _ := true;
  dev_getbadblock _ _ := 0;
  dev_opnotsupp _ := false;
  dev_erase d pos _ := if pos =? 0 then (0, d) else (0, <[pos := replicate 4 255]> d);
  dev_write d pos data := if pos =? 0 then (-1, d) else (zlen data, <[pos := data]> d);
  dev_read d pos n := (4, nand_content 4 d pos, d);
  dev_ecc _ := Some 0
|}.

(** The writer remembers the blocks it could not write only for the
    duration of the write: a block that fails verification is skipped when the
    data is written but not when it is read back, so the read returns the
    failed block's contents instead of the data, and both report success. *)
Theorem worn_block_breaks_roundtrip :
  let D := worn_driver in let p := mkPartition 0 12 4 "boot" in
  (ctx ← access (mtd_write_partition (D := D) (fun _ => true) ∅ p);
   '(wrote, ctx, d) ← mtd_write_data (D := D) (fun _ => true) 20 ctx [1; 2; 3; 4] ∅;
   rc ← access (mtd_read_partition (D := D) (fun _ => true) d p);
   '(r, _, _) ← mtd_read_data (D := D) 20 rc 4 d;
   Done (wrote, wc_bad_block_offsets ctx, r))
  = Done (4, [0], Some [255; 255; 255; 255]).
Proof. vm_compute. reflexivity. Qed.

(** Failures that are not returned: restoring an image onto a partition
    with no usable block returns 0 although nothing was written, because the
    results of the final flush and close are only printed; and erasing a
    partition returns 0 whatever the driver answers to every erase. *)
Theorem raw_commands_hide_failures :
  (let D := nand_driver 4 (fun _ => true) in
   cmd_mtd_restore_raw_partition (D := D) (fun _ => true) 20 (Some (mkPartition 0 12 4 "boot"))
     (Some [1; 2; 3]) ∅ = Done (0, ∅)) /\
  (forall (D : MtdDriver) malloc_ok fuel p (d : dev) ctx,
     mtd_write_partition malloc_ok d p = Some ctx -> 0 < erase_size p <= p_size p ->
     p_size p < 2 ^ 31 ->
     exists d', cmd_mtd_erase_raw_partition malloc_ok fuel (Some p) d = Done (0, d')).
Proof.
  split; [reflexivity|]. intros D malloc_ok fuel p d ctx Hw Hes Hsize.
  unfold cmd_mtd_erase_raw_partition. rewrite Hw. unfold mtd_write_partition in Hw.
  repeat case_match; try discriminate. injection Hw as <-.
  unfold mtd_erase_blocks. cbn [wc_stored wc_pos wc_partition Z.ltb Z.compare mbind outcome_bind negb].
  rewrite Z.sub_0_r, wrap_small by (unfold in_u; lia).
  set (total := p_size p / erase_size p).
  assert (1 <= total <= p_size p) as Ht
    by (subst total; split; [apply Z.div_le_lower_bound|apply Z.div_le_upper_bound]; nia).
  assert (total * erase_size p <= p_size p)
    by (subst total; rewrite Z.mul_comm; apply Z.mul_div_le; lia).
  rewrite swrap_small by (unfold in_s; lia). rewrite Z.ltb_irrefl.
  assert (forall n pos d0, exists d', erase_loop n (erase_size p) pos d0
    = (pos + Z.of_nat n * erase_size p, d')) as Hloop.
  { induction n as [|n IH]; intros pos d0; cbn [erase_loop].
    - exists d0. f_equal. lia.
    - case_bools; edestruct (IH (pos + erase_size p)) as [d' ->]; exists d'; f_equal; lia. }
  destruct (Hloop (Z.to_nat total) 0 d) as [d' ->]. cbn [mbind outcome_bind].
  rewrite Z2Nat.id, wrap_small by (unfold in_u; nia). rewrite (proj2 (Z.eqb_neq _ 0)) by nia. eauto.
Qed.
