(* ===== verification/MtdScan.v ===== *)
(** * The partition table ([mtdutils/mtdutils.c], the part that reads /proc/mtd)

    [mtd_scan_partitions] parses the text of /proc/mtd with [sscanf] into the
    32 slots of [g_mtd_state]; [mtd_find_partition_by_name] searches them.  An
    empty slot has [device_index] -1 and no name.  A slot outside the array is
    [Undef]. *)
From S2P Require Import Prelude Cstring Scanf Mtdutils.
From Stdlib Require Import Ascii.
Open Scope string_scope.
Open Scope Z_scope.

(** ** [sscanf] *)

Definition quote : ascii := ascii_of_nat 34.

(** A scanset for anything but a quote: up to [n] characters other than a quote, at least one. *)
Fixpoint scan_name_chars (n : nat) (s : string) : string * string :=
  match n, s with
  | S n, String c s' =>
      if Ascii.eqb c quote then (EmptyString, s)
      else let '(t, rest) := scan_name_chars n s' in (String c t, rest)
  | _, _ => (EmptyString, s)
  end.

Definition scan_name (n : nat) (s : string) : option string :=
  match scan_name_chars n s with (EmptyString, _) => None | (t, _) => Some t end.

(** The four conversions of one line, [None] when fewer than four match. *)
Definition sscanf_mtd (bufp : string) : option (Z * Z * Z * string) :=
  s ← scan_literal "mtd" bufp;
  '(mtdnum, s) ← scan_d s;
  s ← scan_literal ":" s;
  '(mtdsize, s) ← scan_x (skip_spaces s);
  '(mtderasesize, s) ← scan_x (skip_spaces s);
  s ← scan_literal (String quote "") (skip_spaces s);
  mtdname ← scan_name 63 s;
  Some (mtdnum, mtdsize, mtderasesize, mtdname).

(** ** The table *)

(** [partition_count] is -1 before a scan and after a failed one. *)
Record MtdState := mkMtdState {
  partitions : list (option MtdPartition);
  partition_count : Z
}.

(** "Eat the line." *)
Fixpoint eat_line (s : string) : string :=
  match s with
  | String c s' => if Ascii.eqb c newline then s' else eat_line s'
  | EmptyString => s
  end.

Definition scan_line (bufp : string) (st : MtdState) : option MtdState :=
  match sscanf_mtd bufp with
  | None => Some st
  | Some (mtdnum, mtdsize, mtderasesize, mtdname) =>
      if (0 <=? mtdnum) && (mtdnum <? zlen (partitions st))
      then Some (mkMtdState
             (<[Z.to_nat mtdnum := Some (mkPartition mtdnum mtdsize mtderasesize mtdname)]> (partitions st))
             (partition_count st + 1))
      else None
  end.

(** The loop runs once per line; [fuel] bounds the number of lines. *)
Fixpoint scan_lines (fuel : nat) (bufp : string) (st : MtdState) : outcome MtdState :=
  match bufp with
  | EmptyString => Done st
  | _ =>
      match fuel with
      | O => Diverge
      | S fuel => st ← access (scan_line bufp st); scan_lines fuel (eat_line bufp) st
      end
  end.

(** [mtd_scan_partitions] on the contents of /proc/mtd, [None] when it cannot
    be read; a single [read] takes at most 2047 bytes of it. *)
Definition mtd_scan_partitions (proc_mtd : option string) : outcome (Z * MtdState) :=
  let empty := replicate 32 None in
  match proc_mtd with
  | None => Done (-1, mkMtdState empty (-1))
  | Some text =>
      let buf := String.substring 0 2047 text in
      st ← scan_lines (String.length buf) buf (mkMtdState empty 0);
      Done (partition_count st, st)
  end.

Fixpoint find_by_name (name : string) (l : list (option MtdPartition)) : option MtdPartition :=
  match l with
  | [] => None
  | Some p :: l => if bool_decide (p_name p = name) then Some p else find_by_name name l
  | None :: l => find_by_name name l
  end.

Definition mtd_find_partition_by_name (name : string) (st : MtdState) : option MtdPartition :=
  find_by_name name (partitions st).

(** [sprintf(device, "/dev/block/mtdblock%d", ...)] of
    [cmd_mtd_get_partition_device]: the index that is printed, or -1. *)
Definition cmd_mtd_get_partition_device (proc_mtd : option string) (partition : string)
  : outcome (option Z) :=
  '(_, st) ← mtd_scan_partitions proc_mtd;
  Done (device_index <$> mtd_find_partition_by_name partition st).

(** ** What the kernel prints *)

(** One line of /proc/mtd, by its digits. *)
Record mtd_line := mkLine {
  l_num : list Z;
  l_size : list Z;
  l_erasesize : list Z;
  l_name : string
}.

(** [mtd<num>: <size> <erasesize> "<name>"] and a newline. *)
Definition line_text (l : mtd_line) : string :=
  "mtd" ++ digits_string (l_num l) ++ ": " ++ hex_string (l_size l) ++ " " ++
  hex_string (l_erasesize l) ++ " " ++ String quote (l_name l ++ String quote (String newline "")).

Definition line_partition (l : mtd_line) : MtdPartition :=
  mkPartition (digits_value 0 (l_num l)) (hex_digits_value 0 (l_size l))
    (hex_digits_value 0 (l_erasesize l)) (l_name l).

Definition header_line : string := "dev:    size   erasesize  name" ++ String newline "".

Definition proc_text (ls : list mtd_line) : string := header_line ++ String.concat "" (line_text <$> ls).

(** ** Parsing what the kernel prints *)

#[local] Arguments String.append !s1 s2 / : simpl nomatch.

Definition not_in (c : ascii) (s : string) : Prop := strchr c s = None.

#[export] Instance not_in_dec c s : Decision (not_in c s).
Proof. unfold not_in. apply _. Defined.

Record wf_line (l : mtd_line) : Prop := {
  wf_num : l_num l ≠ [] /\ Forall (fun d => 0 <= d < 10) (l_num l) /\ digits_value 0 (l_num l) < 32;
  wf_size : l_size l ≠ [] /\ Forall (fun d => 0 <= d < 16) (l_size l) /\
    in_u 32 (hex_digits_value 0 (l_size l));
  wf_erasesize : l_erasesize l ≠ [] /\ Forall (fun d => 0 <= d < 16) (l_erasesize l) /\
    in_u 32 (hex_digits_value 0 (l_erasesize l));
  wf_name : l_name l ≠ "" /\ (String.length (l_name l) <= 63)%nat /\ not_in quote (l_name l) /\
    not_in newline (l_name l)
}.

Lemma scan_name_chars_quote n name s :
  (String.length name <= n)%nat -> not_in quote name ->
  scan_name_chars n (name ++ String quote s) = (name, String quote s).
Proof.
  revert n. induction name as [|c name IH]; intros n Hl Hq.
  - destruct n; [done|]. cbn [String.append scan_name_chars]. by rewrite Ascii.eqb_refl.
  - destruct n as [|n]; [cbn in Hl; lia|]. unfold not_in in *. cbn [strchr] in Hq.
    cbn [String.append scan_name_chars]. destruct (Ascii.eqb c quote); [done|].
    rewrite IH; [done|cbn in Hl; lia|]. by destruct (strchr quote name).
Qed.

Lemma eat_line_app s t : not_in newline s -> eat_line (s ++ String newline t) = t.
Proof.
  unfold not_in. induction s as [|c s IH]; cbn [strchr String.append eat_line].
  - intros _. by rewrite Ascii.eqb_refl.
  - destruct (Ascii.eqb c newline); [done|]. intros H. apply IH. by destruct (strchr newline s).
Qed.

Lemma not_in_app c s t : not_in c s -> not_in c t -> not_in c (s ++ t).
Proof.
  unfold not_in. induction s as [|a s IH]; cbn [strchr String.append]; [done|].
  destruct (Ascii.eqb a c); [done|]. intros Hs Ht. rewrite IH; auto. by destruct (strchr c s).
Qed.

Lemma not_in_digits ds : Forall (fun d => 0 <= d < 10) ds -> not_in newline (digits_string ds).
Proof.
  unfold not_in. induction 1 as [|d ds Hd _ IH]; cbn [digits_string strchr]; [done|].
  destruct (digit_scan d Hd) as [_ ->]. by rewrite IH.
Qed.

Lemma not_in_hex ds : Forall (fun d => 0 <= d < 16) ds -> not_in newline (hex_string ds).
Proof.
  unfold not_in. induction 1 as [|d ds Hd _ IH]; cbn [hex_string strchr]; [done|].
  destruct (hex_char_facts d Hd) as (_ & _ & _ & _ & _ & ->). by rewrite IH.
Qed.

(** The line without its newline. *)
Definition line_body (l : mtd_line) : string :=
  "mtd" ++ digits_string (l_num l) ++ ": " ++ hex_string (l_size l) ++ " " ++
  hex_string (l_erasesize l) ++ " " ++ String quote (l_name l ++ String quote "").

Lemma line_text_body l t : line_text l ++ t = line_body l ++ String newline t.
Proof.
  unfold line_text, line_body. by repeat (progress str_norm).
Qed.

Lemma line_body_no_newline l : wf_line l -> not_in newline (line_body l).
Proof.
  intros [(_ & Hn & _) (_ & Hs & _) (_ & He & _) (_ & _ & _ & Hnm)]. unfold line_body.
  repeat (apply not_in_app; auto using not_in_digits, not_in_hex; try done).
  change (String quote (l_name l ++ String quote "")) with (String quote "" ++ l_name l ++ String quote "").
  repeat (apply not_in_app; auto; try done).
Qed.

Lemma sscanf_line l t :
  wf_line l -> sscanf_mtd (line_text l ++ t) =
    Some (digits_value 0 (l_num l), hex_digits_value 0 (l_size l),
          hex_digits_value 0 (l_erasesize l), l_name l).
Proof.
  intros [(Hn1 & Hn2 & Hn3) (Hs1 & Hs2 & Hs3) (He1 & He2 & He3) (Hm1 & Hm2 & Hm3 & _)].
  rewrite line_text_body. unfold line_body, sscanf_mtd. repeat (progress str_norm).
  change (scan_literal "mtd" ("mtd" ++ ?x)) with (Some x).
  cbn [scan_literal Ascii.eqb Bool.eqb mbind option_bind].
  rewrite scan_d_digits by (done || lia). cbn [mbind option_bind scan_literal].
  edestruct (scan_x_hex (l_size l) " ") as (H1 & H2 & H3); [done..|].
  cbn [skip_spaces]. change (isspace " ") with true. cbv iota. rewrite H3, H1.
  cbn [mbind option_bind skip_spaces]. change (isspace " ") with true. cbv iota.
  edestruct (scan_x_hex (l_erasesize l) " ") as (H4 & H5 & H6); [done..|].
  rewrite H6, H4. cbn [mbind option_bind skip_spaces]. change (isspace " ") with true.
  change (isspace quote) with false. cbv iota. cbn [scan_literal]. rewrite Ascii.eqb_refl.
  cbn [mbind option_bind]. unfold scan_name. rewrite scan_name_chars_quote by done.
  by destruct (l_name l).
Qed.

Lemma scan_lines_step fuel c s st :
  scan_lines (S fuel) (String c s) st =
    (st ← access (scan_line (String c s) st); scan_lines fuel (eat_line (String c s)) st).
Proof. done. Qed.

(** Storing the lines one after another. *)
Definition store_lines (ls : list mtd_line) (st : MtdState) : MtdState :=
  fold_left (fun st l => mkMtdState
    (<[Z.to_nat (device_index (line_partition l)) := Some (line_partition l)]> (partitions st))
    (partition_count st + 1)) ls st.

Lemma scan_lines_store ls fuel st :
  Forall wf_line ls -> length (partitions st) = 32%nat ->
  (String.length (String.concat "" (line_text <$> ls)) <= fuel)%nat ->
  scan_lines fuel (String.concat "" (line_text <$> ls)) st = Done (store_lines ls st).
Proof.
  intros H. revert fuel st. induction H as [|l ls Hl Hls IH]; intros fuel st Hst Hf.
  { by destruct fuel. }
  assert (String.concat "" (line_text <$> l :: ls) = line_text l ++ String.concat "" (line_text <$> ls)) as E.
  { cbn [fmap list_fmap]. destruct ls; cbn [fmap list_fmap String.concat]; [|done].
    symmetry. induction (line_text l) as [|c s IHs]; [done|]. rewrite append_cons. by rewrite IHs. }
  rewrite E in *. pose proof (sscanf_line l (String.concat "" (line_text <$> ls)) Hl) as Hsc.
  pose proof (eat_line_app (line_body l) (String.concat "" (line_text <$> ls)) (line_body_no_newline l Hl)) as Heat.
  rewrite <- line_text_body in Heat.
  assert (String.length (String.concat "" (line_text <$> ls)) <
    String.length (line_text l ++ String.concat "" (line_text <$> ls)))%nat as Hlt.
  { assert (forall a b, String.length (a ++ b) = (String.length a + String.length b)%nat) as Hal.
    { induction a as [|c a IHa]; intros b; [done|]. rewrite append_cons. cbn. by rewrite IHa. }
    rewrite Hal. unfold line_text. cbn. lia. }
  assert (exists c s, line_text l ++ String.concat "" (line_text <$> ls) = String c s) as (c & s & Ec).
  { unfold line_text. str_norm. eauto. }
  destruct fuel as [|fuel]; [lia|]. rewrite Ec in *. cbn [scan_lines]. unfold scan_line.
  rewrite Hsc, Heat. destruct Hl as [(_ & Hn & Hv) _ _ _].
  pose proof (digits_value_nonneg (l_num l) 0 ltac:(lia) Hn).
  rewrite Hst, (proj2 (Z.leb_le _ _)), (proj2 (Z.ltb_lt _ _)) by lia. cbn [andb access mbind outcome_bind].
  rewrite IH; [done|cbn; by rewrite length_insert|]. cbn [String.length] in *. lia.
Qed.

Lemma store_lines_spec ls st :
  Forall wf_line ls -> NoDup (device_index ∘ line_partition <$> ls) -> length (partitions st) = 32%nat ->
  partition_count (store_lines ls st) = partition_count st + zlen ls /\
  length (partitions (store_lines ls st)) = 32%nat /\
  forall i, partitions (store_lines ls st) !! i =
    match find (fun l => (Z.to_nat (device_index (line_partition l)) =? i)%nat) ls with
    | Some l => Some (Some (line_partition l))
    | None => partitions st !! i
    end.
Proof.
  intros H. revert st. induction H as [|l ls Hl Hls IH]; intros st Hnd Hst.
  { cbn. split; [lia|]. by split. }
  apply NoDup_cons in Hnd as [Hni Hnd]. cbn [store_lines fold_left]. fold (store_lines ls).
  destruct (IH (mkMtdState (<[Z.to_nat (device_index (line_partition l)) := Some (line_partition l)]>
    (partitions st)) (partition_count st + 1)) Hnd) as (H1 & H2 & H3).
  { cbn. by rewrite length_insert. }
  cbn [partitions partition_count] in *. unfold store_lines in *. rewrite H1.
  split; [cbn [length]; lia|]. split; [done|]. intros i. rewrite H3. cbn [find].
  assert (forall l, wf_line l -> 0 <= device_index (line_partition l) < 32) as Hrange.
  { intros l' [(_ & Hn & Hv) _ _ _]. cbn. split; [|done]. by apply digits_value_nonneg. }
  destruct (Nat.eqb_spec (Z.to_nat (device_index (line_partition l))) i) as [<-|Hne].
  - assert (find (fun l0 => (Z.to_nat (device_index (line_partition l0)) =?
      Z.to_nat (device_index (line_partition l)))%nat) ls = None) as ->.
    { destruct (find _ ls) as [l'|] eqn:Ef; [exfalso|done]. apply find_some in Ef as [Hin He].
      apply Nat.eqb_eq in He. apply list_elem_of_In in Hin.
      rewrite Forall_forall in Hls. pose proof (Hrange _ (Hls _ Hin)). pose proof (Hrange _ Hl).
      apply Hni, list_elem_of_fmap. exists l'. split; [cbn in *; lia|done]. }
    rewrite list_lookup_insert_eq; [done|]. rewrite Hst. pose proof (Hrange _ Hl). lia.
  - destruct (find _ ls); [done|]. by rewrite list_lookup_insert_ne.
Qed.

Lemma find_by_name_some name l p :
  (exists i, l !! i = Some (Some p)) -> p_name p = name ->
  (forall i q, l !! i = Some (Some q) -> p_name q = name -> q = p) -> find_by_name name l = Some p.
Proof.
  induction l as [|x l IH]; intros [i Hi] Hp Hu; [done|]. cbn [find_by_name].
  destruct x as [q|].
  - case_bool_decide as Hq; [f_equal; by apply (Hu 0%nat)|]. apply IH; auto.
    + destruct i as [|i]; [cbn in Hi; simplify_eq|]. by exists i.
    + intros j r Hr. by apply (Hu (S j)).
  - apply IH; auto; [destruct i; [done|by exists i]|]. intros j r Hr. by apply (Hu (S j)).
Qed.

Lemma find_by_name_none name l :
  (forall i q, l !! i = Some (Some q) -> p_name q ≠ name) -> find_by_name name l = None.
Proof.
  induction l as [|x l IH]; intros H; [done|]. cbn [find_by_name].
  assert (find_by_name name l = None) as -> by (apply IH; intros j q; apply (H (S j))).
  destruct x as [q|]; [|done]. rewrite bool_decide_eq_false_2; [done|]. by apply (H 0%nat).
Qed.

Lemma substring_all s n : (String.length s <= n)%nat -> String.substring 0 n s = s.
Proof.
  revert n. induction s as [|c s IH]; intros [|n] Hn; cbn in *; try done; [lia|]. rewrite IH; [done|lia].
Qed.

(** Every line is in the slot of its number. *)
Lemma stored_slot ls st l :
  Forall wf_line ls -> NoDup (device_index ∘ line_partition <$> ls) -> length (partitions st) = 32%nat ->
  l ∈ ls -> exists i, partitions (store_lines ls st) !! i = Some (Some (line_partition l)).
Proof.
  intros Hwf Hidx Hst Hin. destruct (store_lines_spec ls st Hwf Hidx Hst) as (_ & _ & H3).
  exists (Z.to_nat (device_index (line_partition l))). rewrite H3.
  destruct (find _ ls) as [l'|] eqn:Ef.
  - apply find_some in Ef as [Hin' He]. apply list_elem_of_In in Hin'. apply Nat.eqb_eq in He.
    assert (l' = l) as ->; [|done]. eapply (NoDup_fmap_unique _ ls l' l Hidx); [done..|].
    rewrite Forall_forall in Hwf. destruct (Hwf _ Hin) as [(_ & Hn & _) _ _ _].
    destruct (Hwf _ Hin') as [(_ & Hn' & _) _ _ _].
    pose proof (digits_value_nonneg (l_num l) 0 ltac:(lia) Hn).
    pose proof (digits_value_nonneg (l_num l') 0 ltac:(lia) Hn'). cbn in *. lia.
  - apply list_elem_of_In in Hin. pose proof (find_none _ _ Ef l Hin) as Hn.
    cbv beta in Hn. by rewrite Nat.eqb_refl in Hn.
Qed.

(** Scanning what the kernel prints: for a table of partitions with
    distinct numbers below 32 and distinct names without quotes, printed in
    less than 2048 bytes, [mtd_scan_partitions] returns their number and
    [mtd_find_partition_by_name] finds exactly the partition of each name, with
    its number, size and erase size. *)
Theorem mtd_scan_find_correct (ls : list mtd_line)
    (Hwf : Forall wf_line ls)
    (Hidx : NoDup (device_index ∘ line_partition <$> ls)) (Hnames : NoDup (l_name <$> ls))
    (Hlen : (String.length (proc_text ls) <= 2047)%nat) :
  exists st, mtd_scan_partitions (Some (proc_text ls)) = Done (zlen ls, st) /\
    forall name, mtd_find_partition_by_name name st =
      line_partition <$> find (fun l => bool_decide (l_name l = name)) ls.
Proof.
  unfold mtd_scan_partitions. rewrite substring_all by done. unfold proc_text, header_line in *.
  rewrite append_assoc in *. set (text := String.concat "" (line_text <$> ls)) in *.
  set (st0 := mkMtdState (replicate 32 None) 0).
  assert (String.length (("dev:    size   erasesize  name" ++ String newline "" ++ text)) =
    S (S (29 + String.length text)))%nat as El by done.
  rewrite El. rewrite append_cons, scan_lines_step.
  change (scan_line _ st0) with (Some st0). cbn [access mbind outcome_bind].
  change (eat_line _) with text.
  rewrite (scan_lines_store ls) by (done || (fold text; lia)). cbn [mbind outcome_bind].
  destruct (store_lines_spec ls st0 Hwf Hidx eq_refl) as (H1 & H2 & H3).
  eexists. split; [by rewrite H1|]. intros name. unfold mtd_find_partition_by_name.
  assert (forall i q, partitions (store_lines ls st0) !! i = Some (Some q) ->
    exists l, l ∈ ls /\ q = line_partition l) as Hback.
  { intros i q. rewrite H3. destruct (find _ ls) as [l|] eqn:Ef.
    - intros [= <-]. apply find_some in Ef as [Hin _]. exists l. by rewrite list_elem_of_In.
    - intros Hr. apply lookup_replicate in Hr as [? _]. done. }
  destruct (find (fun l => bool_decide (l_name l = name)) ls) as [l|] eqn:Ef;
    cbn [fmap option_fmap option_map].
  - apply find_some in Ef as [Hin He]. apply list_elem_of_In in Hin. apply bool_decide_eq_true in He.
    apply find_by_name_some; [|done|].
    + by apply stored_slot.
    + intros i q Hq Hqn. apply Hback in Hq as (l' & Hin' & ->). f_equal.
      eapply (NoDup_fmap_unique l_name); eauto. cbn in Hqn. congruence.
  - apply find_by_name_none. intros i q Hq Hqn. apply Hback in Hq as (l & Hin & ->).
    apply list_elem_of_In in Hin. pose proof (find_none _ _ Ef l Hin) as Hn.
    apply bool_decide_eq_false in Hn. by apply Hn.
Qed.

Definition demo_lines : list mtd_line :=
  [mkLine [0] [0;0;0;8;0;0;0;0] [0;0;0;2;0;0;0;0] "boot";
   mkLine [1;2] [0;4;0;0;0;0;0;0] [0;0;0;2;0;0;0;0] "system"].

Lemma mtd_scan_find_correct_witness :
  exists st, mtd_scan_partitions (Some (proc_text demo_lines)) = Done (2, st) /\
    forall name, mtd_find_partition_by_name name st =
      line_partition <$> find (fun l => bool_decide (l_name l = name)) demo_lines.
Proof.
  apply (mtd_scan_find_correct demo_lines).
  - repeat constructor; try done; cbn; unfold in_u, not_in, hex_digits_value, digits_value; cbn; lia.
  - by_decide.
  - by_decide.
  - apply Nat.leb_le. vm_compute. reflexivity.
Defined.
