(* ===== verification/Imgpatch.v ===== *)
(** * Applying IMGDIFF2 patches ([applypatch/imgpatch.c])

    A patch is a sequence of chunks: raw bytes, a bsdiff patch against a piece
    of the source, or a bsdiff patch against an inflated piece of it whose
    result is deflated again.  zlib is the interface [ZLib]; what the code
    relies on of it is [ZSpec].  [sink] takes bytes and a token and returns how
    many it took; the SHA context is the bytes it was given. *)
From S2P Require Import Prelude Utils Bspatch.

Definition CHUNK_NORMAL : Z := 0.
Definition CHUNK_DEFLATE : Z := 2.
Definition CHUNK_RAW : Z := 3.

Class ZLib := {
  (** [inflateInit2(&strm, -15)] *)
  inflateInit2 : Z;
  (** one [inflate(&strm, Z_SYNC_FLUSH)] of the whole input into [avail_out]
      bytes: the return value and the output *)
  inflate : list Z -> Z -> Z * list Z;
  z_stream : Type;
  (** [deflateInit2(&strm, level, method, windowBits, memLevel, strategy)] for
      an input *)
  deflateInit2 : Z -> Z -> Z -> Z -> Z -> list Z -> z_stream;
  (** [deflate(&strm, Z_FINISH)] with [avail_out] bytes of room *)
  deflate : z_stream -> Z -> Z * list Z * z_stream
}.

(** [z_yields s out]: the stream has exactly [out] left to deliver.  A call
    with room delivers at least a byte and asks to be called again, or delivers
    all of it and says so. *)
Class ZSpec (Zl : ZLib) := {
  z_yields : z_stream -> list Z -> Prop;
  z_finish s out n : z_yields s out -> 0 < n ->
    exists ret k s', deflate s n = (ret, take k out, s') /\ (k <= length out)%nat /\
      (ret = Z_STREAM_END /\ k = length out \/
       ret = Z_OK /\ (0 < k)%nat /\ z_yields s' (drop k out))
}.

Section Imgpatch.
  Context {B : BzLib} {Zl : ZLib}.
  Context (malloc_ok : Z -> bool).
  Context {T : Type} (sink : list Z -> T -> Z * T).

(** [do ... while (ret != Z_STREAM_END)]; [inr] is the error return. *)
Fixpoint deflate_loop (fuel : nat) (strm : z_stream) (temp_size : Z) (token : T) (ctx : list Z)
  : outcome (T * list Z + T * list Z) :=
  match fuel with
  | O => Diverge
  | S fuel =>
      let '(ret, temp_data, strm) := deflate strm temp_size in
      let '(written, token) := sink temp_data token in
      if negb (written =? zlen temp_data) then Done (inr (token, ctx))
      else
        let ctx := ctx ++ temp_data in
        if ret =? Z_STREAM_END then Done (inl (token, ctx))
        else deflate_loop fuel strm temp_size token ctx
  end.

(** The [CHUNK_NORMAL] branch: the result of [ApplyBSDiffPatch] is dropped. *)
Definition normal_chunk (fuel : nat) (old_data patch : list Z) (pos : Z) (token : T) (ctx : list Z)
  : outcome (Z * T * list Z + T * list Z) :=
  if zlen patch <? pos + 24 then Done (inr (token, ctx)) else
  src_start ← access (Read8 patch pos);
  src_len ← access (Read8 patch (pos + 8));
  patch_offset ← access (Read8 patch (pos + 16));
  '(_, token, ctx) ← ApplyBSDiffPatch malloc_ok fuel (drop (Z.to_nat (wrap 32 src_start)) old_data)
     (swrap 32 src_len) patch (swrap 32 patch_offset) sink token (Some ctx);
  Done (inl (pos + 24, token, default [] ctx)).

Definition raw_chunk (patch : list Z) (pos : Z) (token : T) (ctx : list Z)
  : outcome (Z * T * list Z + T * list Z) :=
  if zlen patch <? pos + 4 then Done (inr (token, ctx)) else
  data_len ← access (Read4 patch pos);
  let pos := pos + 4 in
  if zlen patch <? pos + data_len then Done (inr (token, ctx)) else
  data ← access (buf_slice patch pos data_len);
  let ctx := ctx ++ data in
  let '(written, token) := sink data token in
  if negb (written =? data_len) then Done (inr (token, ctx))
  else Done (inl (pos + data_len, token, ctx)).

Definition deflate_chunk (fuel : nat) (old_data patch : list Z) (bonus_data : option (list Z))
    (i pos : Z) (token : T) (ctx : list Z) : outcome (Z * T * list Z + T * list Z) :=
  if zlen patch <? pos + 60 then Done (inr (token, ctx)) else
  src_start ← access (Read8 patch pos);
  src_len ← access (Read8 patch (pos + 8));
  patch_offset ← access (Read8 patch (pos + 16));
  expanded_len ← access (Read8 patch (pos + 24));
  level ← access (Read4 patch (pos + 40));
  method ← access (Read4 patch (pos + 44));
  windowBits ← access (Read4 patch (pos + 48));
  memLevel ← access (Read4 patch (pos + 52));
  strategy ← access (Read4 patch (pos + 56));
  let expanded_len := wrap 32 expanded_len in
  let bonus := if i =? 1 then default [] bonus_data else [] in
  if negb (malloc_ok expanded_len) then Done (inr (token, ctx)) else
  if negb (inflateInit2 =? Z_OK) then Done (inr (token, ctx)) else
  input ← access (buf_slice old_data (wrap 32 src_start) (wrap 32 src_len));
  let '(ret, expanded) := inflate input expanded_len in
  if negb (ret =? Z_STREAM_END) then Done (inr (token, ctx)) else
  if negb (expanded_len - zlen expanded =? zlen bonus) then Done (inr (token, ctx)) else
  let expanded_source := expanded ++ bonus in
  match ApplyBSDiffPatchMem malloc_ok fuel expanded_source (swrap 32 expanded_len) patch
          (swrap 32 patch_offset) with
  | Fail _ => Done (inr (token, ctx))
  | Undef => Undef
  | Diverge => Diverge
  | Done uncompressed_target_data =>
      let temp_size := if swrap 32 expanded_len <? 32768 then 32768 else swrap 32 expanded_len in
      if (swrap 32 expanded_len <? 32768) && negb (malloc_ok 32768) then Undef else
      let strm := deflateInit2 level method windowBits memLevel strategy uncompressed_target_data in
      r ← deflate_loop fuel strm temp_size token ctx;
      match r with
      | inl (token, ctx) => Done (inl (pos + 60, token, ctx))
      | inr e => Done (inr e)
      end
  end.

(** One iteration of the loop over the chunks: the next position or the error
    return, with the token and the SHA context. *)
Definition chunk_step (fuel : nat) (old_data patch : list Z) (bonus_data : option (list Z))
    (i pos : Z) (token : T) (ctx : list Z) : outcome (Z * T * list Z + T * list Z) :=
  if zlen patch <? pos + 4 then Done (inr (token, ctx)) else
  type ← access (Read4 patch pos);
  let pos := pos + 4 in
  if type =? CHUNK_NORMAL then normal_chunk fuel old_data patch pos token ctx
  else if type =? CHUNK_RAW then raw_chunk patch pos token ctx
  else if type =? CHUNK_DEFLATE then deflate_chunk fuel old_data patch bonus_data i pos token ctx
  else Done (inr (token, ctx)).

Fixpoint chunk_loop (n : nat) (fuel : nat) (old_data patch : list Z) (bonus_data : option (list Z))
    (i pos : Z) (token : T) (ctx : list Z) : outcome (Z * T * list Z) :=
  match n with
  | O => Done (0, token, ctx)
  | S n =>
      r ← chunk_step fuel old_data patch bonus_data i pos token ctx;
      match r with
      | inl (pos, token, ctx) => chunk_loop n fuel old_data patch bonus_data (i + 1) pos token ctx
      | inr (token, ctx) => Done (-1, token, ctx)
      end
  end.

(** "IMGDIFF2". *)
Definition imgdiff_magic : list Z := [73; 77; 71; 68; 73; 70; 70; 50].

(** [ApplyImagePatch]: the return value, the token and the SHA context. *)
Definition ApplyImagePatch (fuel : nat) (old_data patch : list Z) (token : T) (ctx : list Z)
    (bonus_data : option (list Z)) : outcome (Z * T * list Z) :=
  if zlen patch <? 12 then Done (-1, token, ctx) else
  magic ← access (buf_slice patch 0 8);
  if negb (bool_decide (magic = imgdiff_magic)) then Done (-1, token, ctx) else
  num_chunks ← access (Read4 patch 8);
  chunk_loop (Z.to_nat num_chunks) fuel old_data patch bonus_data 0 12 token ctx.

End Imgpatch.

(** ** The format *)

Inductive chunk :=
  | CNormal (src_start src_len patch_offset : Z)
  | CRaw (data : list Z)
  | CDeflate (src_start src_len patch_offset expanded_len target_len : Z)
      (level method windowBits memLevel strategy : Z).

Definition encode_chunk (c : chunk) : list Z :=
  match c with
  | CNormal src_start src_len patch_offset =>
      le_encode 4 CHUNK_NORMAL ++ le_encode 8 src_start ++ le_encode 8 src_len ++
      le_encode 8 patch_offset
  | CRaw data => le_encode 4 CHUNK_RAW ++ le_encode 4 (zlen data) ++ data
  | CDeflate src_start src_len patch_offset expanded_len target_len
      level method windowBits memLevel strategy =>
      le_encode 4 CHUNK_DEFLATE ++ le_encode 8 src_start ++ le_encode 8 src_len ++
      le_encode 8 patch_offset ++ le_encode 8 expanded_len ++ le_encode 8 target_len ++
      le_encode 4 level ++ le_encode 4 method ++ le_encode 4 windowBits ++
      le_encode 4 memLevel ++ le_encode 4 strategy
  end.

Definition image_patch (cs : list chunk) (patches : list Z) : list Z :=
  imgdiff_magic ++ le_encode 4 (zlen cs) ++ concat (encode_chunk <$> cs) ++ patches.

Section Format.
  Context {B : BzLib} {Zl : ZLib} {Zs : ZSpec Zl}.
  Context (malloc_ok : Z -> bool) (Hmalloc : forall n, malloc_ok n = true).
  Context (fuel : nat) (old_data patch : list Z) (bonus_data : option (list Z)).

(** [chunk_makes i c out]: chunk number [i] describes the bytes [out]. *)
Definition chunk_makes (i : Z) (c : chunk) (out : list Z) : Prop :=
  match c with
  | CNormal src_start src_len patch_offset =>
      in_u 31 src_start /\ in_u 31 src_len /\ in_u 31 patch_offset /\
      ApplyBSDiffPatchMem malloc_ok fuel (drop (Z.to_nat src_start) old_data) src_len patch
        patch_offset = Done out
  | CRaw data => out = data
  | CDeflate src_start src_len patch_offset expanded_len target_len
      level method windowBits memLevel strategy =>
      in_u 31 src_start /\ in_u 31 src_len /\ in_u 31 patch_offset /\ in_u 31 expanded_len /\
      in_s 32 level /\ in_s 32 method /\ in_s 32 windowBits /\ in_s 32 memLevel /\ in_s 32 strategy /\
      exists input expanded target,
        buf_slice old_data src_start src_len = Some input /\
        inflate input expanded_len = (Z_STREAM_END, expanded) /\
        expanded_len = zlen expanded + zlen (if i =? 1 then default [] bonus_data else []) /\
        ApplyBSDiffPatchMem malloc_ok fuel (expanded ++ if i =? 1 then default [] bonus_data else [])
          expanded_len patch patch_offset = Done target /\
        z_yields (deflateInit2 level method windowBits memLevel strategy target) out
  end.

Inductive chunks_make : Z -> list chunk -> list Z -> Prop :=
  | cm_nil i : chunks_make i [] []
  | cm_cons i c cs out outs : chunk_makes i c out -> chunks_make (i + 1) cs outs ->
      chunks_make i (c :: cs) (out ++ outs).
End Format.

(** What a sink promises: up to [cap] bytes it takes everything it is given, at
    the end of what it has. *)
Class SinkSpec {T : Type} (sink : list Z -> T -> Z * T) (view : T -> list Z) (cap : Z) : Prop :=
  sink_takes t d : zlen (view t) + zlen d <= cap ->
    exists t', sink d t = (zlen d, t') /\ view t' = view t ++ d.

(** ** Reading the headers *)

Lemma Read8_prefix p l off z k :
  l = p ++ le_encode 8 z ++ k -> off = zlen p -> Read8 l off = Some (swrap 64 z).
Proof. intros -> ->. apply Read8_le. Qed.

Lemma Read4_prefix p l off z k :
  l = p ++ le_encode 4 z ++ k -> off = zlen p -> Read4 l off = Some (swrap 32 z).
Proof. intros -> ->. apply Read4_le. Qed.

Lemma offset_small z : in_u 31 z -> wrap 32 (swrap 64 z) = z /\ swrap 32 (swrap 64 z) = z /\ swrap 32 z = z.
Proof.
  unfold in_u. intros H. rewrite (swrap_small 64) by (unfold in_s; lia).
  rewrite wrap_small, swrap_small by (unfold in_u, in_s; lia). done.
Qed.

Lemma word_small z : in_s 32 z -> swrap 32 z = z.
Proof. intros. by apply swrap_small. Qed.

(** Reads the first pending field of the patch that [Hp] describes; [p] is what
    comes before it. *)
Ltac read_field Hp p :=
  lazymatch goal with
  | |- context [access (?read ?l ?off) ≫= _] =>
      lazymatch read with
      | Read4 => erewrite (Read4_prefix p l off)
      | Read8 => erewrite (Read8_prefix p l off)
      end
  end; [|by rewrite Hp, <- ?app_assoc|rewrite ?length_app, ?le_encode_length; lia];
  cbn [access mbind outcome_bind].

Section Apply.
  Context {B : BzLib} {Zl : ZLib} {Zs : ZSpec Zl}.
  Context (malloc_ok : Z -> bool) (Hmalloc : forall n, malloc_ok n = true)
    (Hinit : inflateInit2 = Z_OK).
  Context {T : Type} (sink : list Z -> T -> Z * T) (view : T -> list Z) (cap : Z)
    {Hsink : SinkSpec sink view cap}.
  Context (old_data patch : list Z) (bonus_data : option (list Z)) (fuel : nat)
    (Hsize : zlen patch < 2 ^ 31).

Lemma deflate_loop_yields f : forall strm out n token ctx,
  z_yields strm out -> 0 < n -> zlen (view token) + zlen out <= cap -> (length out < f)%nat ->
  exists token', deflate_loop sink f strm n token ctx = Done (inl (token', ctx ++ out)) /\
    view token' = view token ++ out.
Proof.
  induction f as [|f IH]; intros strm out n token ctx Hy Hn Hcap Hf; [lia|]. cbn [deflate_loop].
  destruct (z_finish strm out n Hy Hn) as (ret & k & s' & -> & Hk & Hret).
  destruct (sink_takes token (take k out)) as (t' & -> & Hv); [rewrite length_take; lia|].
  rewrite Z.eqb_refl. cbn [negb]. destruct Hret as [[-> ->] | (-> & Hk0 & Hy')].
  - rewrite firstn_all in *. rewrite Z.eqb_refl. eauto.
  - change (Z_OK =? Z_STREAM_END) with false. cbv iota.
    destruct (IH s' (drop k out) n t' (ctx ++ take k out) Hy' Hn) as (t2 & -> & Hv2).
    + rewrite Hv, length_app, length_take, length_drop. lia.
    + rewrite length_drop. lia.
    + exists t2. rewrite Hv2, Hv, <- !app_assoc, take_drop. done.
Qed.

Section OneChunk.
  Context (pre post : list Z) (i : Z) (out : list Z) (token : T) (ctx : list Z)
    (Hcap : zlen (view token) + zlen out <= cap) (Hf : (length out < fuel)%nat).

Lemma normal_step ss sl po :
  patch = pre ++ encode_chunk (CNormal ss sl po) ++ post ->
  chunk_makes malloc_ok fuel old_data patch bonus_data i (CNormal ss sl po) out ->
  exists token', chunk_step malloc_ok sink fuel old_data patch bonus_data i (zlen pre) token ctx
    = Done (inl (zlen pre + zlen (encode_chunk (CNormal ss sl po)), token', ctx ++ out)) /\
    view token' = view token ++ out.
Proof.
  cbn [encode_chunk chunk_makes]. intros Hp Hm. unfold chunk_step.
  destruct Hm as (Hss & Hsl & Hpo & Hm). assert (zlen patch = zlen pre + 28 + zlen post) as Hl
    by (rewrite Hp, !length_app, !le_encode_length; lia).
  rewrite (proj2 (Z.ltb_ge _ _)) by lia. read_field Hp pre.
  change (swrap 32 CHUNK_NORMAL =? CHUNK_NORMAL) with true. cbv iota. unfold normal_chunk.
  rewrite (proj2 (Z.ltb_ge _ _)) by lia.
  read_field Hp (pre ++ le_encode 4 CHUNK_NORMAL).
  read_field Hp (pre ++ le_encode 4 CHUNK_NORMAL ++ le_encode 8 ss).
  read_field Hp (pre ++ le_encode 4 CHUNK_NORMAL ++ le_encode 8 ss ++ le_encode 8 sl).
  destruct (offset_small ss Hss) as (-> & _ & _). destruct (offset_small sl Hsl) as (_ & -> & _).
  destruct (offset_small po Hpo) as (_ & -> & _). unfold ApplyBSDiffPatch. rewrite Hm.
  destruct (sink_takes token out Hcap) as (t' & -> & Hv). rewrite Z.ltb_irrefl.
  cbn [mbind outcome_bind fmap option_fmap option_map default]. exists t'. split; [|done].
  rewrite !length_app, !le_encode_length. do 4 f_equal. lia.
Qed.

Lemma raw_step data :
  patch = pre ++ encode_chunk (CRaw data) ++ post ->
  chunk_makes malloc_ok fuel old_data patch bonus_data i (CRaw data) out ->
  exists token', chunk_step malloc_ok sink fuel old_data patch bonus_data i (zlen pre) token ctx
    = Done (inl (zlen pre + zlen (encode_chunk (CRaw data)), token', ctx ++ out)) /\
    view token' = view token ++ out.
Proof.
  cbn [encode_chunk chunk_makes]. intros Hp Hm. unfold chunk_step.
  subst out. assert (zlen patch = zlen pre + 8 + zlen data + zlen post) as Hl
    by (rewrite Hp, !length_app, !le_encode_length; lia).
  rewrite (proj2 (Z.ltb_ge _ _)) by lia. read_field Hp pre.
  change (swrap 32 CHUNK_RAW =? CHUNK_NORMAL) with false.
  change (swrap 32 CHUNK_RAW =? CHUNK_RAW) with true. cbv iota. unfold raw_chunk.
  rewrite (proj2 (Z.ltb_ge _ _)) by lia.
  read_field Hp (pre ++ le_encode 4 CHUNK_RAW). rewrite word_small by (unfold in_s; lia).
  rewrite (proj2 (Z.ltb_ge _ _)) by lia.
  assert (buf_slice patch (zlen pre + 4 + 4) (zlen data) = Some data) as ->.
  { rewrite Hp. rewrite <- !app_assoc, (app_assoc (le_encode 4 _)), (app_assoc pre).
    apply buf_slice_mid; [rewrite !length_app, !le_encode_length; lia|done]. }
  cbn [access mbind outcome_bind]. destruct (sink_takes token data Hcap) as (t' & -> & Hv).
  rewrite Z.eqb_refl. cbn [negb]. exists t'. split; [|done].
  rewrite !length_app, !le_encode_length. do 4 f_equal. lia.
Qed.

Lemma deflate_step ss sl po el tl lv me wb ml sg :
  patch = pre ++ encode_chunk (CDeflate ss sl po el tl lv me wb ml sg) ++ post ->
  chunk_makes malloc_ok fuel old_data patch bonus_data i (CDeflate ss sl po el tl lv me wb ml sg) out ->
  exists token', chunk_step malloc_ok sink fuel old_data patch bonus_data i (zlen pre) token ctx
    = Done (inl (zlen pre + zlen (encode_chunk (CDeflate ss sl po el tl lv me wb ml sg)), token', ctx ++ out)) /\
    view token' = view token ++ out.
Proof.
  cbn [encode_chunk chunk_makes]. intros Hp Hm. unfold chunk_step.
  destruct Hm as (Hss & Hsl & Hpo & Hel & Hlv & Hme & Hwb & Hml & Hsg & input & expanded & target &
    Hin & Hinf & Hlen & Hbs & Hy).
  assert (zlen patch = zlen pre + 64 + zlen post) as Hl
    by (rewrite Hp, !length_app, !le_encode_length; lia).
  rewrite (proj2 (Z.ltb_ge _ _)) by lia. read_field Hp pre.
  change (swrap 32 CHUNK_DEFLATE =? CHUNK_NORMAL) with false.
  change (swrap 32 CHUNK_DEFLATE =? CHUNK_RAW) with false.
  change (swrap 32 CHUNK_DEFLATE =? CHUNK_DEFLATE) with true. cbv iota. unfold deflate_chunk.
  rewrite (proj2 (Z.ltb_ge _ _)) by lia.
  set (p1 := pre ++ le_encode 4 CHUNK_DEFLATE). set (p2 := p1 ++ le_encode 8 ss ++ le_encode 8 sl).
  set (p3 := p2 ++ le_encode 8 po ++ le_encode 8 el ++ le_encode 8 tl).
  set (p4 := p3 ++ le_encode 4 lv ++ le_encode 4 me).
  assert (patch = p1 ++ le_encode 8 ss ++ le_encode 8 sl ++ le_encode 8 po ++ le_encode 8 el ++
    le_encode 8 tl ++ le_encode 4 lv ++ le_encode 4 me ++ le_encode 4 wb ++ le_encode 4 ml ++
    le_encode 4 sg ++ post) as Hp1 by (rewrite Hp; subst p1; by rewrite <- ?app_assoc).
  assert (zlen p1 = zlen pre + 4) as L1 by (subst p1; rewrite length_app, le_encode_length; lia).
  assert (zlen p2 = zlen pre + 20) as L2 by (subst p2; rewrite !length_app, !le_encode_length; lia).
  assert (zlen p3 = zlen pre + 44) as L3 by (subst p3; rewrite !length_app, !le_encode_length; lia).
  assert (zlen p4 = zlen pre + 52) as L4 by (subst p4; rewrite !length_app, !le_encode_length; lia).
  assert (patch = p2 ++ le_encode 8 po ++ le_encode 8 el ++ le_encode 8 tl ++ le_encode 4 lv ++
    le_encode 4 me ++ le_encode 4 wb ++ le_encode 4 ml ++ le_encode 4 sg ++ post) as Hp2
    by (rewrite Hp1; subst p2; by rewrite <- ?app_assoc).
  assert (patch = p3 ++ le_encode 4 lv ++ le_encode 4 me ++ le_encode 4 wb ++ le_encode 4 ml ++
    le_encode 4 sg ++ post) as Hp3 by (rewrite Hp2; subst p3; by rewrite <- ?app_assoc).
  assert (patch = p4 ++ le_encode 4 wb ++ le_encode 4 ml ++ le_encode 4 sg ++ post) as Hp4
    by (rewrite Hp3; subst p4; by rewrite <- ?app_assoc).
  read_field Hp1 p1. read_field Hp1 (p1 ++ le_encode 8 ss). read_field Hp2 p2.
  read_field Hp2 (p2 ++ le_encode 8 po). read_field Hp3 p3. read_field Hp3 (p3 ++ le_encode 4 lv).
  read_field Hp4 p4. read_field Hp4 (p4 ++ le_encode 4 wb).
  read_field Hp4 (p4 ++ le_encode 4 wb ++ le_encode 4 ml).
  destruct (offset_small ss Hss) as (-> & _ & _). destruct (offset_small sl Hsl) as (-> & _ & _).
  destruct (offset_small po Hpo) as (_ & -> & _). destruct (offset_small el Hel) as (-> & _ & ->).
  rewrite !word_small by done. rewrite Hmalloc, Hinit, Hin. cbn [access mbind outcome_bind negb].
  change (negb (Z_OK =? Z_OK)) with false. cbv iota. rewrite Hinf.
  change (negb (Z_STREAM_END =? Z_STREAM_END)) with false. cbv iota.
  rewrite (proj2 (Z.eqb_eq _ _)) by lia. cbn [negb]. rewrite Hbs, Hmalloc, andb_false_r.
  destruct (deflate_loop_yields fuel (deflateInit2 lv me wb ml sg target) out
    (if el <? 32768 then 32768 else el) token ctx Hy) as (t' & -> & Hv);
    [destruct (Z.ltb_spec el 32768); lia|done|done|].
  cbn [mbind outcome_bind]. exists t'. split; [|done].
  rewrite !length_app, !le_encode_length. do 4 f_equal. lia.
Qed.

End OneChunk.

(** A chunk that makes [out] appends [out] to the sink and to the hash. *)
Lemma chunk_step_makes pre c post i out token ctx :
  patch = pre ++ encode_chunk c ++ post ->
  chunk_makes malloc_ok fuel old_data patch bonus_data i c out ->
  zlen (view token) + zlen out <= cap -> (length out < fuel)%nat ->
  exists token', chunk_step malloc_ok sink fuel old_data patch bonus_data i (zlen pre) token ctx
    = Done (inl (zlen pre + zlen (encode_chunk c), token', ctx ++ out)) /\
    view token' = view token ++ out.
Proof.
  intros Hp Hm Hcap Hf. destruct c; eauto using normal_step, raw_step, deflate_step.
Qed.

Lemma chunk_loop_makes cs : forall i pre post outs token ctx,
  patch = pre ++ concat (encode_chunk <$> cs) ++ post ->
  chunks_make malloc_ok fuel old_data patch bonus_data i cs outs ->
  zlen (view token) + zlen outs <= cap -> (length outs < fuel)%nat ->
  exists token', chunk_loop malloc_ok sink (length cs) fuel old_data patch bonus_data i (zlen pre)
      token ctx = Done (0, token', ctx ++ outs) /\ view token' = view token ++ outs.
Proof.
  induction cs as [|c cs IH]; intros i pre post outs token ctx Hp Hm Hcap Hf.
  { inversion Hm; subst. exists token. by rewrite !app_nil_r. }
  inversion Hm as [|? ? ? out outs' Hc Hcs]; subst outs. cbn [length chunk_loop].
  rewrite length_app in *. cbn [fmap list_fmap concat] in Hp. rewrite <- app_assoc in Hp.
  destruct (chunk_step_makes pre c (concat (encode_chunk <$> cs) ++ post) i out token ctx Hp Hc)
    as (t' & -> & Hv); [lia|lia|]. cbn [mbind outcome_bind].
  destruct (IH (i + 1) (pre ++ encode_chunk c) post outs' t' (ctx ++ out)) as (t2 & E & Hv2);
    [by rewrite Hp, <- !app_assoc|done|rewrite Hv, length_app; lia|lia|].
  rewrite length_app, Nat2Z.inj_add in E. rewrite E. exists t2. by rewrite Hv2, Hv, <- !app_assoc.
Qed.
End Apply.

(** ** The memory sink ([applypatch.c]) *)

(** The buffer is what has been written to it: [pos] is its length. *)
Record MemorySinkInfo := mkMsi { msi_buffer : list Z; msi_size : Z }.

Definition MemorySink (data : list Z) (msi : MemorySinkInfo) : Z * MemorySinkInfo :=
  if msi_size msi - zlen (msi_buffer msi) <? zlen data then (-1, msi)
  else (zlen data, mkMsi (msi_buffer msi ++ data) (msi_size msi)).

Lemma MemorySink_takes size data msi :
  msi_size msi = size -> zlen (msi_buffer msi) + zlen data <= size ->
  MemorySink data msi = (zlen data, mkMsi (msi_buffer msi ++ data) size).
Proof. intros <- H. unfold MemorySink. by rewrite (proj2 (Z.ltb_ge _ _)) by lia. Qed.

(** ** zlib without compression *)

(** Streams are stored: inflating and deflating copy. *)
#[export] Instance stored_zlib : ZLib := {|
  inflateInit2 := Z_OK;
  inflate input n := if zlen input <=? n then (Z_STREAM_END, input) else (Z_OK, take (Z.to_nat n) input);
  z_stream := list Z;
  deflateInit2 _ _ _ _ _ input := input;
  deflate s n := if zlen s <=? n then (Z_STREAM_END, s, []) else (Z_OK, take (Z.to_nat n) s, drop (Z.to_nat n) s)
|}.

#[export] Instance stored_zlib_spec : ZSpec stored_zlib.
Proof.
  refine {| z_yields := fun (s : @z_stream stored_zlib) out => s = out |}.
  intros s out n -> Hn. cbn. destruct (Z.leb_spec (zlen out) n).
  - exists Z_STREAM_END, (length out), []. rewrite firstn_all. auto.
  - exists Z_OK, (Z.to_nat n), (drop (Z.to_nat n) out). split; [done|]. split; [lia|]. right. split_and!; auto. lia.
Defined.

(** The chunks of a patch in the layout of the format, one after the other. *)
Lemma ApplyImagePatch_makes {B : BzLib} {Zl : ZLib} {Zs : ZSpec Zl} {T : Type}
    (malloc_ok : Z -> bool) (sink : list Z -> T -> Z * T) (view : T -> list Z) (cap : Z)
    {Hsink : SinkSpec sink view cap}
    (old_data patches : list Z) (bonus_data : option (list Z)) (cs : list chunk) (outs : list Z)
    (fuel : nat) (token : T) (ctx : list Z)
    (Hmalloc : forall n, malloc_ok n = true) (Hinit : inflateInit2 = Z_OK)
    (Hsize : zlen (image_patch cs patches) < 2 ^ 31) (Hn : zlen cs < 2 ^ 31)
    (Hmake : chunks_make malloc_ok fuel old_data (image_patch cs patches) bonus_data 0 cs outs)
    (Hroom : zlen (view token) + zlen outs <= cap) (Hfuel : (length outs < fuel)%nat) :
  exists token', ApplyImagePatch malloc_ok sink fuel old_data (image_patch cs patches) token ctx bonus_data
      = Done (0, token', ctx ++ outs) /\ view token' = view token ++ outs.
Proof.
  unfold ApplyImagePatch. set (patch := image_patch cs patches) in *.
  assert (patch = (imgdiff_magic ++ le_encode 4 (zlen cs)) ++ concat (encode_chunk <$> cs) ++ patches)
    as Hp by (subst patch; unfold image_patch; by rewrite <- !app_assoc).
  assert (12 <= zlen patch) by (rewrite Hp, !length_app, le_encode_length; cbn; lia).
  rewrite (proj2 (Z.ltb_ge _ _)) by lia.
  assert (buf_slice patch 0 8 = Some imgdiff_magic) as ->
    by (rewrite Hp, <- app_assoc; apply (buf_slice_mid []); done).
  cbn [access mbind outcome_bind]. rewrite bool_decide_eq_true_2 by done. cbn [negb].
  rewrite (Read4_prefix imgdiff_magic patch 8 (zlen cs) (concat (encode_chunk <$> cs) ++ patches))
    by (done || by rewrite Hp, <- app_assoc).
  cbn [access mbind outcome_bind]. rewrite word_small by (unfold in_s; lia). rewrite Nat2Z.id.
  change 12 with (zlen (imgdiff_magic ++ le_encode 4 (zlen cs))).
  eapply chunk_loop_makes; eauto.
Qed.

(** ** Properties *)

(** [C30] A patch laid out as the IMGDIFF2 format says, each of whose chunks
    describes some bytes, makes [ApplyImagePatch] return 0 after handing
    exactly the concatenation of these bytes to the sink and to the hash - for
    any codecs that keep their promises and any sink with room for the output.
    One step of fuel per output byte is enough. *)
Theorem ApplyImagePatch_correct {B : BzLib} {Zl : ZLib} {Zs : ZSpec Zl} {T : Type}
    (malloc_ok : Z -> bool) (sink : list Z -> T -> Z * T) (view : T -> list Z) (cap : Z)
    {Hsink : SinkSpec sink view cap}
    (old_data patches : list Z) (bonus_data : option (list Z)) (cs : list chunk) (outs : list Z)
    (fuel : nat) (token : T) (ctx : list Z)
    (Hmalloc : forall n, malloc_ok n = true) (Hinit : inflateInit2 = Z_OK)
    (Hsize : zlen (image_patch cs patches) < 2 ^ 31) (Hn : zlen cs < 2 ^ 31)
    (Hmake : chunks_make malloc_ok fuel old_data (image_patch cs patches) bonus_data 0 cs outs)
    (Hroom : zlen (view token) + zlen outs <= cap) (Hfuel : (length outs < fuel)%nat) :
  exists token', ApplyImagePatch malloc_ok sink fuel old_data (image_patch cs patches) token ctx bonus_data
      = Done (0, token', ctx ++ outs) /\ view token' = view token ++ outs.
Proof. by eapply ApplyImagePatch_makes. Qed.

#[export] Instance app_sink_spec : SinkSpec (fun d t => (zlen d, t ++ d)) (fun t => t) (2 ^ 31).
Proof. intros t d _. eauto. Qed.

(** A raw chunk, a chunk patched from the source and a chunk that is inflated,
    extended by bonus data, patched and deflated. *)
Definition demo_bspatch : list Z :=
  patch_file (frame (encode_ctrls [(2, 1, -1)])) (frame [1; 255]) (frame [9]) 3.
Definition demo_chunks : list chunk :=
  [CRaw [7; 8]; CDeflate 1 1 114 2 3 9 8 (-15) 8 0; CNormal 0 2 114].

Lemma ApplyImagePatch_correct_witness :
  exists token', ApplyImagePatch (B := framed_bz) (fun _ => true) (fun d t => (zlen d, t ++ d)) 40
      [10; 20] (image_patch demo_chunks demo_bspatch) [] [] (Some [30])
      = Done (0, token', [] ++ [7; 8] ++ [21; 29; 9] ++ [11; 19; 9] ++ []) /\
    token' = [] ++ [7; 8] ++ [21; 29; 9] ++ [11; 19; 9] ++ [].
Proof.
  apply (ApplyImagePatch_correct (B := framed_bz) (fun _ => true) (fun d t => (zlen d, t ++ d))
    (fun t => t) (2 ^ 31) [10; 20] demo_bspatch (Some [30]) demo_chunks
    ([7; 8] ++ [21; 29; 9] ++ [11; 19; 9] ++ []) 40 [] []); try done; [|cbn; lia..].
  apply cm_cons; [done|]. apply cm_cons; [|apply cm_cons; [|apply cm_nil]]; cbn [chunk_makes].
  - split_and!; try (unfold in_u, in_s; lia). exists [20], [20], [21; 29; 9].
    split_and!; vm_compute; reflexivity.
  - split_and!; try (unfold in_u, in_s; lia). vm_compute. reflexivity.
Defined.

(** What [ApplyImagePatch] does not check.  A normal chunk whose bsdiff
    patch is rejected contributes nothing and the patch is still reported as
    applied (the caller's SHA-1 test is what catches it); when [deflate] keeps
    failing without output - the result of [deflateInit2] is ignored - the
    output loop never ends; and a raw chunk with a negative length passes the
    size test and is copied. *)
Theorem ApplyImagePatch_unchecked {B : BzLib} {Zl : ZLib} {T : Type} (malloc_ok : Z -> bool)
    (sink : list Z -> T -> Z * T) (fuel : nat) (token : T) (ctx : list Z) (bonus : option (list Z)) :
  (forall old ss sl po patches code,
     in_u 31 ss -> in_u 31 sl -> in_u 31 po ->
     let patch := image_patch [CNormal ss sl po] patches in
     ApplyBSDiffPatchMem malloc_ok fuel (drop (Z.to_nat ss) old) sl patch po = Fail code ->
     ApplyImagePatch malloc_ok sink fuel old patch token ctx bonus = Done (0, token, ctx)) /\
  (forall strm n err, deflate strm n = (err, [], strm) -> err ≠ Z_STREAM_END ->
     sink [] token = (0, token) -> deflate_loop sink fuel strm n token ctx = Diverge) /\
  (forall old, ApplyImagePatch malloc_ok sink fuel old
     (imgdiff_magic ++ le_encode 4 1 ++ le_encode 4 CHUNK_RAW ++ le_encode 4 (-1)) token ctx bonus = Undef).
Proof.
  split_and!.
  - intros old ss sl po patches code Hss Hsl Hpo patch Hfail.
    assert (patch = (imgdiff_magic ++ le_encode 4 1) ++ le_encode 4 CHUNK_NORMAL ++ le_encode 8 ss ++
      le_encode 8 sl ++ le_encode 8 po ++ patches) as Hp
      by (subst patch; unfold image_patch; cbn [fmap list_fmap concat encode_chunk length];
          by rewrite app_nil_r, <- !app_assoc).
    set (pre := imgdiff_magic ++ le_encode 4 1) in *. assert (zlen pre = 12) as Hl12 by done.
    assert (zlen patch = 40 + zlen patches) as Hl by (rewrite Hp, !length_app, !le_encode_length; lia).
    unfold ApplyImagePatch. rewrite (proj2 (Z.ltb_ge _ _)) by lia.
    assert (buf_slice patch 0 8 = Some imgdiff_magic) as ->
      by (rewrite Hp; subst pre; rewrite <- app_assoc; apply (buf_slice_mid []); done).
    cbn [access mbind outcome_bind]. rewrite bool_decide_eq_true_2 by done. cbn [negb].
    rewrite (Read4_prefix imgdiff_magic patch 8 1 (le_encode 4 CHUNK_NORMAL ++ le_encode 8 ss ++
      le_encode 8 sl ++ le_encode 8 po ++ patches))
      by (done || by rewrite Hp; subst pre; rewrite <- app_assoc).
    cbn [access mbind outcome_bind]. change (Z.to_nat (swrap 32 1)) with 1%nat. cbn [chunk_loop].
    unfold chunk_step. rewrite (proj2 (Z.ltb_ge _ _)) by lia. read_field Hp pre.
    change (swrap 32 CHUNK_NORMAL =? CHUNK_NORMAL) with true. cbv iota. unfold normal_chunk.
    rewrite (proj2 (Z.ltb_ge _ _)) by lia. read_field Hp (pre ++ le_encode 4 CHUNK_NORMAL).
    read_field Hp (pre ++ le_encode 4 CHUNK_NORMAL ++ le_encode 8 ss).
    read_field Hp (pre ++ le_encode 4 CHUNK_NORMAL ++ le_encode 8 ss ++ le_encode 8 sl).
    destruct (offset_small ss Hss) as (-> & _ & _). destruct (offset_small sl Hsl) as (_ & -> & _).
    destruct (offset_small po Hpo) as (_ & -> & _). unfold ApplyBSDiffPatch. by rewrite Hfail.
  - intros strm n err Hd Herr Hs. revert ctx. induction fuel as [|f IH]; intros ctx; [done|].
    cbn [deflate_loop]. rewrite Hd, Hs. cbn [length Z.of_nat Z.eqb negb].
    rewrite (proj2 (Z.eqb_neq _ _) Herr), app_nil_r. apply IH.
  - intros old. vm_compute. reflexivity.
Qed.
