(* ===== verification/Imgdiff.v ===== *)
(** * Making IMGDIFF2 patches ([applypatch/imgdiff.c])

    The host tool that writes the patches [imgpatch.c] applies, for images:
    both images are cut into normal chunks and deflated ones, corresponding chunks
    are compared with [bsdiff], and the patch file is written.  Files are their
    contents; what is printed is left out. *)
From S2P Require Import Prelude.
From S2P Require Import Utils.
From S2P Require Import Bspatch.
From S2P Require Import Bsdiff.
From S2P Require Import Imgpatch.

(** Inflating a piece at a time. *)
Class ZInflate := {
  z_istream : Type;
  (** [inflateInit2(&strm, -15)] with the input set *)
  inflate_open : list Z -> z_istream;
  (** [inflate(&strm, Z_NO_FLUSH)] with [avail_out] bytes of room: the return
      value, the output, [avail_in] and the stream *)
  inflate_more : z_istream -> Z -> Z * list Z * Z * z_istream
}.

Definition GZIP_HEADER_LEN : Z := 10.
Definition GZIP_FOOTER_LEN : Z := 8.
Definition BUFFER_SIZE : Z := 32768.
Definition Z_DEFLATED : Z := 8.
Definition Z_DEFAULT_STRATEGY : Z := 0.

(** [ImageChunk]: a normal chunk's data is the image from [start] on; the other
    fields are those of deflated chunks, [data] being what was inflated and the
    compressed data the image from [start] on. *)
Record deflate_params := mkParams { level : Z; method : Z; windowBits : Z; memLevel : Z; strategy : Z }.

Inductive ImageChunk :=
  | Normal (start len : Z)
  | Deflate (start deflate_len : Z) (data : list Z) (params : option deflate_params).

Section Imgdiff.
  Context {B : BzLib} {Zl : ZLib} {ZI : ZInflate}.
  (** [qsufsort]; whether the temporary file of a patch can be written and read. *)
  Context (suffix_sort : list Z -> list Z) (temp_ok : Z -> bool).

(** ** Reading an image *)

(** The file with the four zero bytes behind it. *)
Definition padded (img : list Z) : list Z := img ++ [0; 0; 0; 0].

(** [p[0] == 0x1f && p[1] == 0x8b && p[2] == 0x08 && p[3] == 0x00]. *)
Definition magic_at (img : list Z) (pos : Z) : bool :=
  bool_decide (buf_slice (padded img) pos 4 = Some [31; 139; 8; 0]).

(** The [do] loop: the inflated data and [avail_in]. *)
Fixpoint inflate_loop (fuel : nat) (strm : z_istream) (data : list Z) (allocated : Z) : outcome (list Z * Z) :=
  match fuel with
  | O => Diverge
  | S fuel =>
      let '(ret, out, avail_in, strm) := inflate_more strm (allocated - zlen data) in
      let data := data ++ out in
      let allocated := if allocated - zlen data =? 0 then 2 * allocated else allocated in
      if ret =? Z_STREAM_END then Done (data, avail_in) else inflate_loop fuel strm data allocated
  end.

(** The length of the normal chunk at [pos]: up to the next gzip header. *)
Fixpoint plain_len (room : nat) (img : list Z) (pos len : Z) : Z :=
  match room with
  | O => len
  | S room => if magic_at img (pos + len) then len else plain_len room img pos (len + 1)
  end.

(** The loop over the image from [pos] on; [None] is the return value NULL. *)
Fixpoint read_image (n fuel : nat) (img : list Z) (pos : Z) : outcome (option (list ImageChunk)) :=
  if zlen img <=? pos then Done (Some [])
  else match n with
  | O => Diverge
  | S n =>
      if (4 <=? zlen img - pos) && magic_at img pos then
        let start := pos + GZIP_HEADER_LEN in
        if zlen img <? start then Undef else
        '(data, avail_in) ← inflate_loop fuel (inflate_open (drop (Z.to_nat start) img)) [] 32768;
        let deflate_len := zlen img - avail_in - start in
        let foot := start + deflate_len in
        footer_size ← access (Read4 (padded img) (foot + GZIP_FOOTER_LEN - 4));
        if negb (footer_size =? zlen data) then Done None
        else
          rest ← read_image n fuel img (foot + GZIP_FOOTER_LEN);
          Done (option_map (fun l => Normal pos GZIP_HEADER_LEN :: Deflate start deflate_len data None ::
                                     Normal foot GZIP_FOOTER_LEN :: l) rest)
      else
        let len := plain_len (Z.to_nat (zlen img - pos)) img pos 0 in
        rest ← read_image n fuel img (pos + len);
        Done (option_map (fun l => Normal pos len :: l) rest)
  end.

Definition ReadImage (fuel : nat) (img : list Z) : outcome (option (list ImageChunk)) := read_image (S (length img)) fuel img 0.

(** ** Chunks *)

(** [first]: where the run of normal chunks began whose last one is at [start]. *)
Fixpoint merge_from (run : option (Z * Z * Z)) (chunks : list ImageChunk) : list ImageChunk :=
  match run, chunks with
  | None, [] => []
  | Some (first, start, len), [] => [Normal first (len + (start - first))]
  | None, Normal s n :: rest => merge_from (Some (s, s, n)) rest
  | Some (first, start, len), Normal s n :: rest =>
      if s =? start + len then merge_from (Some (first, s, n)) rest
      else Normal first (len + (start - first)) :: merge_from (Some (s, s, n)) rest
  | None, d :: rest => d :: merge_from None rest
  | Some (first, start, len), d :: rest => Normal first (len + (start - first)) :: d :: merge_from None rest
  end.

Definition MergeAdjacentNormalChunks : list ImageChunk -> list ImageChunk := merge_from None.

Definition ChangeDeflateChunkToNormal (ch : ImageChunk) : ImageChunk :=
  match ch with Deflate start deflate_len _ _ => Normal start deflate_len | _ => ch end.

(** The loop of [TryReconstruction]: how much was compared, [None] for a mismatch. *)
Fixpoint try_loop (fuel : nat) (strm : z_stream) (img : list Z) (deflate_data p : Z) : outcome (option Z) :=
  match fuel with
  | O => Diverge
  | S fuel =>
      let '(ret, out, strm) := deflate strm BUFFER_SIZE in
      have ← access (buf_slice (padded img) (deflate_data + p) (zlen out));
      if negb (bool_decide (out = have)) then Done None
      else
        let p := p + zlen out in
        if ret =? Z_STREAM_END then Done (Some p) else try_loop fuel strm img deflate_data p
  end.

Definition TryReconstruction (fuel : nat) (img : list Z) (start deflate_len : Z) (data : list Z) (q : deflate_params)
    : outcome bool :=
  p ← try_loop fuel (deflateInit2 (level q) (method q) (windowBits q) (memLevel q) (strategy q) data) img start 0;
  Done (bool_decide (p = Some deflate_len)).

Definition params_for (lv : Z) : deflate_params := mkParams lv Z_DEFLATED (-15) 8 Z_DEFAULT_STRATEGY.

(** The parameters that reproduce the chunk, if one of the two levels does. *)
Definition ReconstructDeflateChunk (fuel : nat) (img : list Z) (start deflate_len : Z) (data : list Z)
    : outcome (option deflate_params) :=
  ok ← TryReconstruction fuel img start deflate_len data (params_for 6);
  if ok : bool then Done (Some (params_for 6)) else
  ok ← TryReconstruction fuel img start deflate_len data (params_for 9);
  if ok : bool then Done (Some (params_for 9)) else Done None.

(** Whether the data is the same, the compressed data of deflated chunks. *)
Definition AreChunksEqual (tgt src : list Z) (a b : ImageChunk) : outcome bool :=
  match a, b with
  | Normal s n, Normal s' n' =>
      if n =? n' then
        x ← access (buf_slice (padded tgt) s n); y ← access (buf_slice (padded src) s' n'); Done (bool_decide (x = y))
      else Done false
  | Deflate s n _ _, Deflate s' n' _ _ =>
      if n =? n' then
        x ← access (buf_slice (padded tgt) s n); y ← access (buf_slice (padded src) s' n'); Done (bool_decide (x = y))
      else Done false
  | _, _ => Done false
  end.

(** Deflated chunks that cannot be reproduced, or that are the same in both
    images, become normal ones in both lists. *)
Fixpoint reconstruct_chunks (fuel : nat) (tgt src : list Z) (tgt_chunks src_chunks : list ImageChunk)
    : outcome (list ImageChunk * list ImageChunk) :=
  match tgt_chunks, src_chunks with
  | t :: tgt_chunks, s :: src_chunks =>
      '(t, s) ← match t with
        | Normal _ _ => Done (t, s)
        | Deflate start deflate_len data _ =>
            q ← ReconstructDeflateChunk fuel tgt start deflate_len data;
            match q with
            | None => Done (ChangeDeflateChunkToNormal t, ChangeDeflateChunkToNormal s)
            | Some q =>
                same ← AreChunksEqual tgt src t s;
                if same : bool then Done (ChangeDeflateChunkToNormal t, ChangeDeflateChunkToNormal s)
                else Done (Deflate start deflate_len data (Some q), s)
            end
        end;
      '(ts, ss) ← reconstruct_chunks fuel tgt src tgt_chunks src_chunks;
      Done (t :: ts, s :: ss)
  | _, _ => Done ([], [])
  end.

(** ** Patches *)

(** A target chunk with the fields of its header and its patch; the data itself
    for a raw chunk. *)
Inductive patched :=
  | PRaw (data : list Z)
  | PNormal (source_start source_len : Z) (patch : list Z)
  | PDeflate (source_start source_len source_uncompressed_len len : Z) (params : deflate_params) (patch : list Z).

(** [src->data] and [src->len]. *)
Definition chunk_data (img : list Z) (c : ImageChunk) : outcome (list Z) :=
  match c with Normal s n => access (buf_slice (padded img) s n) | Deflate _ _ data _ => Done data end.

(** [data]: the source chunk's data, which may have been extended. *)
Definition MakePatch (i : Z) (src_chunk : ImageChunk) (data tgt : list Z) (tgt_chunk : ImageChunk) : outcome patched :=
  match tgt_chunk with
  | Normal s n =>
      t ← access (buf_slice (padded tgt) s n);
      if n <=? 160 then Done (PRaw t)
      else
        patch ← access (bsdiff (suffix_sort data) data t);
        if negb (temp_ok i) then Undef
        else if n <=? zlen patch then Done (PRaw t)
        else Done (PNormal (match src_chunk with Normal s _ => s | Deflate s _ _ _ => s end) (zlen data) patch)
  | Deflate s n t q =>
      patch ← access (bsdiff (suffix_sort data) data t);
      if negb (temp_ok i) then Undef
      else match src_chunk, q with
      | Deflate source_start deflate_len _ _, Some q =>
          Done (PDeflate source_start deflate_len (zlen data) (zlen t) q patch)
      | _, _ => Undef
      end
  end.

(** The data of source chunk [i] with the bonus data. *)
Definition source_data (i : Z) (src : list Z) (bonus_data : option (list Z)) (c : ImageChunk) : outcome (list Z) :=
  data ← chunk_data src c;
  match bonus_data with
  | Some bonus => if i =? 1 then match c with Deflate _ _ _ _ => Done (data ++ bonus) | Normal _ _ => Undef end else Done data
  | None => Done data
  end.

Fixpoint make_patches (i : Z) (tgt src : list Z) (bonus_data : option (list Z)) (tgt_chunks src_chunks : list ImageChunk)
    : outcome (list patched) :=
  match tgt_chunks, src_chunks with
  | t :: tgt_chunks, s :: src_chunks =>
      data ← source_data i src bonus_data s;
      p ← MakePatch i s data tgt t;
      rest ← make_patches (i + 1) tgt src bonus_data tgt_chunks src_chunks;
      Done (p :: rest)
  | _, _ => Done []
  end.

(** ** The patch file *)

Definition header_size (p : patched) : Z :=
  4 + match p with PNormal _ _ _ => 8 * 3 | PDeflate _ _ _ _ _ _ => 8 * 5 + 4 * 5 | PRaw data => 4 + zlen data end.

Definition total_header_size (ps : list patched) : Z := foldl (fun n p => n + header_size p) 12 ps.

(** The headers, with the offset of the next patch. *)
Fixpoint write_headers (ps : list patched) (offset : Z) (f : list Z) : list Z :=
  match ps with
  | [] => f
  | PRaw data :: ps => write_headers ps offset (Write4 (zlen data) (Write4 CHUNK_RAW f) ++ data)
  | PNormal ss sl patch :: ps =>
      write_headers ps (offset + zlen patch) (Write8 offset (Write8 sl (Write8 ss (Write4 CHUNK_NORMAL f))))
  | PDeflate ss sl ul len q patch :: ps =>
      let f := Write8 len (Write8 ul (Write8 offset (Write8 sl (Write8 ss (Write4 CHUNK_DEFLATE f))))) in
      write_headers ps (offset + zlen patch)
        (Write4 (strategy q) (Write4 (memLevel q) (Write4 (windowBits q) (Write4 (method q) (Write4 (level q) f)))))
  end.

Definition patch_data (p : patched) : list Z := match p with PRaw _ => [] | PNormal _ _ d => d | PDeflate _ _ _ _ _ d => d end.

Definition write_patch (ps : list patched) : list Z :=
  write_headers ps (total_header_size ps) (Write4 (zlen ps) imgdiff_magic) ++ concat (patch_data <$> ps).

Definition same_types (a b : list ImageChunk) : bool :=
  bool_decide (length a = length b) &&
  forallb (fun x => match x with (Normal _ _, Normal _ _) | (Deflate _ _ _ _, Deflate _ _ _ _) => true | _ => false end) (zip a b).

(** [main] for images, without -z: [inl] the exit code, [inr] the patch file. *)
Definition imgdiff (fuel : nat) (src tgt : list Z) (bonus_data : option (list Z)) : outcome (Z + list Z) :=
  src_chunks ← ReadImage fuel src;
  match src_chunks with
  | None => Done (inl 1)
  | Some src_chunks =>
      tgt_chunks ← ReadImage fuel tgt;
      match tgt_chunks with
      | None => Done (inl 1)
      | Some tgt_chunks =>
          let tgt_chunks := MergeAdjacentNormalChunks tgt_chunks in
          let src_chunks := MergeAdjacentNormalChunks src_chunks in
          if negb (same_types src_chunks tgt_chunks) then Done (inl 1)
          else
            '(tgt_chunks, src_chunks) ← reconstruct_chunks fuel tgt src tgt_chunks src_chunks;
            let tgt_chunks := MergeAdjacentNormalChunks tgt_chunks in
            let src_chunks := MergeAdjacentNormalChunks src_chunks in
            if negb (bool_decide (length src_chunks = length tgt_chunks)) then Done (inl 1)
            else
              ps ← make_patches 0 tgt src bonus_data tgt_chunks src_chunks;
              Done (inr (write_patch ps))
      end
  end.

End Imgdiff.
