(* ===== verification/ImgdiffFacts.v ===== *)
(** * Image patches give the target back ([imgdiff.c], [imgpatch.c])

    What [imgdiff] does with images that consist of gzip members and other data:
    the chunks it finds, what merging keeps, what its patches describe. *)
From S2P Require Import Prelude.
From S2P Require Import Utils.
From S2P Require Import Bspatch.
From S2P Require Import Bsdiff.
From S2P Require Import Imgpatch.
From S2P Require Import Imgdiff.

(** What the code relies on of zlib: [deflates c u] says that [c] is a complete
    raw deflate stream of [u]; [i_left s u a]: the stream has [u] left to deliver
    and then [a] bytes of input that are not part of it. *)
Class ZStream {Zl : ZLib} (Zs : ZSpec Zl) (ZI : ZInflate) := {
  deflates : list Z -> list Z -> Prop;
  i_left : z_istream -> list Z -> Z -> Prop;
  i_open c u rest : deflates c u -> i_left (inflate_open (c ++ rest)) u (zlen rest);
  i_more s u a n : i_left s u a -> 0 < n ->
    exists ret k avail s', inflate_more s n = (ret, take k u, avail, s') /\ (k <= length u)%nat /\ Z.of_nat k <= n /\
      (ret = Z_STREAM_END /\ k = length u /\ avail = a \/ ret = Z_OK /\ (0 < k)%nat /\ i_left s' (drop k u) a);
  inflate_whole c u n : deflates c u -> zlen u <= n -> inflate c n = (Z_STREAM_END, u);
  (** what [deflate] makes of [u] with the default parameters and a level *)
  deflated : Z -> list Z -> list Z;
  z_deflated lv u : lv = 6 \/ lv = 9 -> z_yields (deflateInit2 lv Z_DEFLATED (-15) 8 Z_DEFAULT_STRATEGY u) (deflated lv u)
}.

(** ** Images *)

(** A gzip member: header, compressed data, what it inflates to, footer, and the
    other data behind it. *)
Record gz := mkGz { g_head : list Z; g_deflate : list Z; g_data : list Z; g_foot : list Z; g_tail : list Z }.

Definition gz_bytes (g : gz) : list Z := g_head g ++ g_deflate g ++ g_foot g ++ g_tail g.
Definition gzs_bytes (ms : list gz) : list Z := concat (gz_bytes <$> ms).

(** No gzip header begins in [p], which [rest] follows. *)
Definition no_magic (p rest : list Z) : Prop := forall k, 0 <= k < zlen p -> magic_at (p ++ rest) k = false.

Section Images.
  Context {Zl : ZLib} {Zs : ZSpec Zl} {ZI : ZInflate} {ZS : ZStream Zs ZI}.

Record wf_gz (g : gz) : Prop := {
  gz_head_len : length (g_head g) = 10%nat;
  gz_magic : take 4 (g_head g) = [31; 139; 8; 0];
  gz_deflates : deflates (g_deflate g) (g_data g);
  gz_foot : exists crc, length crc = 4%nat /\ g_foot g = crc ++ le_encode 4 (zlen (g_data g));
  gz_size : zlen (g_data g) < 2 ^ 31;
  gz_data_bytes : bytes (g_data g)
}.

Fixpoint wf_gzs (ms : list gz) : Prop :=
  match ms with
  | [] => True
  | g :: ms => wf_gz g /\ no_magic (g_tail g) (gzs_bytes ms) /\ wf_gzs ms
  end.

Definition wf_image (lead : list Z) (ms : list gz) : Prop := no_magic lead (gzs_bytes ms) /\ wf_gzs ms.

Definition image (lead : list Z) (ms : list gz) : list Z := lead ++ gzs_bytes ms.

(** The chunks of it. *)
Definition plain_chunks (pos : Z) (p : list Z) : list ImageChunk :=
  match p with [] => [] | _ => [Normal pos (zlen p)] end.

Fixpoint gz_chunks (pos : Z) (ms : list gz) : list ImageChunk :=
  match ms with
  | [] => []
  | g :: ms =>
      let d := pos + 10 in
      let f := d + zlen (g_deflate g) in
      Normal pos 10 :: Deflate d (zlen (g_deflate g)) (g_data g) None :: Normal f 8 ::
      plain_chunks (f + 8) (g_tail g) ++ gz_chunks (f + 8 + zlen (g_tail g)) ms
  end.

(** ** Reading *)

Lemma magic_at_app pre x k : 0 <= k -> magic_at (pre ++ x) (zlen pre + k) = magic_at x k.
Proof.
  intros Hk. unfold magic_at, padded. rewrite <- app_assoc. f_equal. apply bool_decide_ext.
  unfold buf_slice. rewrite length_app. rewrite !(proj2 (Z.leb_le 0 _)) by lia. cbn [andb].
  replace (zlen pre + k + 4 <=? Z.of_nat (length pre + length (x ++ [0; 0; 0; 0]))) with (k + 4 <=? zlen (x ++ [0; 0; 0; 0]))
    by (destruct (Z.leb_spec (k + 4) (zlen (x ++ [0; 0; 0; 0]))), (Z.leb_spec (zlen pre + k + 4) (Z.of_nat (length pre + length (x ++ [0; 0; 0; 0])))); lia).
  destruct (_ <=? _); [|done]. replace (Z.to_nat (zlen pre + k)) with (length pre + Z.to_nat k)%nat by lia.
  by rewrite <- drop_drop, drop_app_length.
Qed.

Lemma magic_head g x : wf_gz g -> magic_at (gz_bytes g ++ x) 0 = true.
Proof.
  intros [Hl Hm _ _ _ _]. unfold magic_at, padded, gz_bytes. apply bool_decide_eq_true. rewrite <- !app_assoc.
  rewrite <- (take_drop 4 (g_head g)), Hm, <- app_assoc. by apply (buf_slice_mid [] [31; 139; 8; 0]).
Qed.

(** What can follow data without a gzip header in it. *)
Definition ends (rest : list Z) : Prop := rest = [] \/ magic_at rest 0 = true.

Lemma plain_len_spec pre p rest room : no_magic p rest -> ends rest -> forall k,
  0 <= k <= zlen p -> Z.of_nat room = zlen p + zlen rest - k ->
  plain_len room (pre ++ p ++ rest) (zlen pre) k = zlen p.
Proof.
  intros Hp Hr. induction room as [|room IH]; intros k Hk Hroom; cbn [plain_len]; [lia|].
  rewrite magic_at_app by lia. destruct (Z.eq_dec k (zlen p)) as [->|Hne].
  - destruct Hr as [->|Hr]; [cbn in Hroom; lia|]. replace (zlen p) with (zlen p + 0) at 1 by lia.
    by rewrite magic_at_app, Hr by lia.
  - rewrite Hp by lia. apply IH; lia.
Qed.

Lemma gzs_end ms : wf_gzs ms -> ends (gzs_bytes ms).
Proof. destruct ms as [|g ms]; [by left|]. intros (Hg & _ & _). right. by apply magic_head. Qed.

Lemma inflate_loop_spec fuel : forall s u a data allocated, i_left s u a -> (length u < fuel)%nat ->
  0 < allocated - zlen data -> inflate_loop fuel s data allocated = Done (data ++ u, a).
Proof.
  induction fuel as [|fuel IH]; intros s u a data allocated Hs Hf Ha; [lia|]. cbn [inflate_loop].
  destruct (i_more s u a _ Hs Ha) as (ret & k & avail & s' & -> & Hk & Hkn & [(-> & -> & ->)|(-> & Hk0 & Hs')]).
  - cbv zeta. rewrite Z.eqb_refl, firstn_all. done.
  - cbv zeta. change (Z_OK =? Z_STREAM_END) with false. cbv iota. rewrite (IH s' (drop k u) a); [|done|rewrite length_drop; lia|].
    + by rewrite <- app_assoc, take_drop.
    + rewrite length_app, length_take. destruct (Z.eqb_spec (allocated - Z.of_nat (length data + Nat.min k (length u))) 0); lia.
Qed.

Lemma read_foot pre g x : wf_gz g ->
  Read4 (padded (pre ++ gz_bytes g ++ x)) (zlen pre + 10 + zlen (g_deflate g) + 8 - 4) = Some (zlen (g_data g)).
Proof.
  intros [Hl _ _ (crc & Hcrc & Hf) Hs _]. unfold padded, gz_bytes. rewrite Hf.
  rewrite (Read4_prefix (pre ++ g_head g ++ g_deflate g ++ crc) _ _ (zlen (g_data g)) (g_tail g ++ x ++ [0; 0; 0; 0])).
  - rewrite swrap_small by (unfold in_s; lia). done.
  - by rewrite <- !app_assoc.
  - rewrite !length_app, Hl, Hcrc. lia.
Qed.

Lemma read_image_step_gz n fuel pre g x : wf_gz g -> (length (g_data g) < fuel)%nat ->
  read_image (S n) fuel (pre ++ gz_bytes g ++ x) (zlen pre) =
    (rest ← read_image n fuel (pre ++ gz_bytes g ++ x) (zlen pre + 10 + zlen (g_deflate g) + 8);
     Done (option_map (fun l => Normal (zlen pre) 10 :: Deflate (zlen pre + 10) (zlen (g_deflate g)) (g_data g) None ::
                                Normal (zlen pre + 10 + zlen (g_deflate g)) 8 :: l) rest)).
Proof.
  intros Hg Hf. pose proof Hg as [Hl _ Hd (crc & Hcrc & Hfoot) _ _].
  assert (length (g_foot g) = 8%nat) as Hl8 by (rewrite Hfoot, length_app, Hcrc, le_encode_length; lia).
  assert (zlen (pre ++ gz_bytes g ++ x) = zlen pre + 18 + zlen (g_deflate g) + zlen (g_tail g) + zlen x) as Hlen
    by (unfold gz_bytes; rewrite !length_app, Hl, Hl8; lia).
  cbn [read_image]. rewrite (proj2 (Z.leb_gt _ _)) by lia. rewrite (proj2 (Z.leb_le 4 _)) by lia.
  replace (zlen pre) with (zlen pre + 0) at 1 by lia. rewrite magic_at_app by lia. rewrite magic_head by done. cbn [andb].
  cbv zeta. unfold GZIP_HEADER_LEN, GZIP_FOOTER_LEN. rewrite (proj2 (Z.ltb_ge _ _)) by lia.
  assert (drop (Z.to_nat (zlen pre + 10)) (pre ++ gz_bytes g ++ x) = g_deflate g ++ g_foot g ++ g_tail g ++ x) as ->.
  { replace (Z.to_nat (zlen pre + 10)) with (length (pre ++ g_head g)) by (rewrite length_app; lia).
    unfold gz_bytes. rewrite <- !app_assoc, (app_assoc pre), drop_app_length. done. }
  rewrite (inflate_loop_spec fuel _ (g_data g) (zlen (g_foot g ++ g_tail g ++ x))); [|by apply i_open|done|cbn; lia].
  cbn [mbind outcome_bind app].
  replace (zlen (pre ++ gz_bytes g ++ x) - zlen (g_foot g ++ g_tail g ++ x) - (zlen pre + 10)) with (zlen (g_deflate g))
    by (rewrite Hlen, !length_app, Hl8; lia).
  rewrite read_foot by done. cbn [access mbind outcome_bind]. by rewrite Z.eqb_refl.
Qed.

Lemma read_image_step_plain n fuel pre p rest : p <> [] -> no_magic p rest -> ends rest ->
  read_image (S n) fuel (pre ++ p ++ rest) (zlen pre) =
    (l ← read_image n fuel (pre ++ p ++ rest) (zlen pre + zlen p); Done (option_map (fun l => Normal (zlen pre) (zlen p) :: l) l)).
Proof.
  intros Hne Hp Hr. assert (0 < zlen p) by (destruct p; [done|cbn; lia]).
  cbn [read_image]. rewrite (proj2 (Z.leb_gt _ _)) by (rewrite !length_app; lia).
  assert (magic_at (pre ++ p ++ rest) (zlen pre) = false) as Hm.
  { replace (zlen pre) with (zlen pre + 0) by lia. rewrite magic_at_app by lia. apply Hp. lia. }
  rewrite Hm, andb_false_r. cbv zeta. rewrite (plain_len_spec pre p rest _ Hp Hr); [done|lia|].
  rewrite !length_app. lia.
Qed.

(** Behind [pre], data without a gzip header and the members. *)
Lemma read_image_plain n fuel pre p rest chunks :
  no_magic p rest -> ends rest ->
  read_image n fuel (pre ++ p ++ rest) (zlen pre + zlen p) = Done (Some chunks) ->
  read_image (S n) fuel (pre ++ p ++ rest) (zlen pre + zlen p) = Done (Some chunks) ->
  read_image (S n) fuel (pre ++ p ++ rest) (zlen pre) = Done (Some (plain_chunks (zlen pre) p ++ chunks)).
Proof.
  intros Hp Hr Hn Hsn. destruct p as [|c p]; [cbn [length] in *; rewrite Z.add_0_r in Hsn; done|].
  rewrite read_image_step_plain by done. by rewrite Hn.
Qed.

Lemma read_image_gzs ms : forall n fuel pre, wf_gzs ms -> Forall (fun g => length (g_data g) < fuel)%nat ms ->
  (2 * length ms <= n)%nat ->
  read_image n fuel (pre ++ gzs_bytes ms) (zlen pre) = Done (Some (gz_chunks (zlen pre) ms)).
Proof.
  induction ms as [|g ms IH]; intros n fuel pre Hwf Hf Hn.
  - change (gzs_bytes []) with (@nil Z). rewrite app_nil_r. destruct n; cbn [read_image]; by rewrite (proj2 (Z.leb_le _ _)).
  - destruct Hwf as (Hg & Htail & Hms). apply Forall_cons in Hf as [Hfg Hf]. cbn [length] in Hn.
    destruct n as [|[|n]]; [lia..|]. change (gzs_bytes (g :: ms)) with (gz_bytes g ++ gzs_bytes ms).
    rewrite read_image_step_gz by done.
    set (pre' := pre ++ g_head g ++ g_deflate g ++ g_foot g).
    pose proof Hg as [Hl _ _ (crc & Hcrc & Hfoot) _ _].
    assert (length (g_foot g) = 8%nat) as Hl8 by (rewrite Hfoot, length_app, Hcrc, le_encode_length; lia).
    assert (zlen pre' = zlen pre + 10 + zlen (g_deflate g) + 8) as Hp' by (unfold pre'; rewrite !length_app, Hl, Hl8; lia).
    assert (pre ++ gz_bytes g ++ gzs_bytes ms = pre' ++ g_tail g ++ gzs_bytes ms) as E
      by (unfold pre', gz_bytes; by rewrite <- !app_assoc).
    rewrite E, <- Hp'.
    assert (forall m, (2 * length ms <= m)%nat -> read_image m fuel (pre' ++ g_tail g ++ gzs_bytes ms) (zlen pre' + zlen (g_tail g)) =
      Done (Some (gz_chunks (zlen pre' + zlen (g_tail g)) ms))) as Hrest.
    { intros m Hm. rewrite app_assoc. replace (zlen pre' + zlen (g_tail g)) with (zlen (pre' ++ g_tail g)) by (rewrite length_app; lia).
      by apply IH. }
    rewrite (read_image_plain n fuel pre' (g_tail g) (gzs_bytes ms) _ Htail (gzs_end _ Hms) (Hrest n ltac:(lia)) (Hrest (S n) ltac:(lia))).
    cbn [mbind outcome_bind option_map gz_chunks]. cbv zeta. by rewrite Hp'.
Qed.

Lemma gz_chunks_short ms : wf_gzs ms -> (18 * length ms <= length (gzs_bytes ms))%nat.
Proof.
  induction ms as [|g ms IH]; [done|]. intros (Hg & _ & Hms). change (gzs_bytes (g :: ms)) with (gz_bytes g ++ gzs_bytes ms).
  pose proof Hg as [Hl _ _ (crc & Hcrc & Hfoot) _ _]. unfold gz_bytes. rewrite !length_app, Hl, Hfoot, length_app, Hcrc, le_encode_length.
  specialize (IH Hms). cbn [length]. lia.
Qed.

Lemma ReadImage_spec fuel lead ms : wf_image lead ms -> Forall (fun g => length (g_data g) < fuel)%nat ms ->
  ReadImage fuel (image lead ms) = Done (Some (plain_chunks 0 lead ++ gz_chunks (zlen lead) ms)).
Proof.
  intros [Hlead Hms] Hf. unfold ReadImage, image. pose proof (gz_chunks_short ms Hms) as Hs.
  apply (read_image_plain _ fuel [] lead (gzs_bytes ms)); [done|by apply gzs_end|..];
    change (zlen (@nil Z) + zlen lead) with (zlen lead); apply read_image_gzs; auto; rewrite length_app; lia.
Qed.

End Images.

(** ** Lists of chunks *)

Definition c_start (c : ImageChunk) : Z := match c with Normal s _ => s | Deflate s _ _ _ => s end.
Definition c_len (c : ImageChunk) : Z := match c with Normal _ n => n | Deflate _ n _ _ => n end.
Definition is_deflate (c : ImageChunk) : bool := match c with Deflate _ _ _ _ => true | Normal _ _ => false end.

(** The chunks follow each other from [pos] to [e]. *)
Fixpoint cover (pos : Z) (l : list ImageChunk) (e : Z) : Prop :=
  match l with
  | [] => pos = e
  | c :: l => c_start c = pos /\ 0 <= c_len c /\ cover (pos + c_len c) l e
  end.

Lemma cover_app pos l k e : cover pos l e -> forall e', cover e k e' -> cover pos (l ++ k) e'.
Proof.
  revert pos. induction l as [|c l IH]; intros pos; [by intros ->|]. intros (Hc & Hn & Hl) e' Hk. cbn. eauto.
Qed.

Lemma cover_le pos l e : cover pos l e -> pos <= e.
Proof. revert pos. induction l as [|c l IH]; intros pos; [by intros ->|]. intros (_ & Hn & Hl). specialize (IH _ Hl). lia. Qed.

(** One normal chunk for each run of them. *)
Fixpoint squash (prev : bool) (l : list bool) : list bool :=
  match l with
  | [] => []
  | true :: l => true :: squash false l
  | false :: l => if prev then squash true l else false :: squash true l
  end.

(** Merging keeps what is covered and the deflated chunks, and leaves no two
    normal chunks next to each other. *)
Lemma merge_from_spec l : forall run pos e, cover pos l e ->
  match run with Some (first, s, n) => s + n = pos /\ first <= s /\ 0 <= n | None => True end ->
  let first := match run with Some (first, _, _) => first | None => pos end in
  let head := match run with Some _ => [false] | None => [] end in
  cover first (merge_from run l) e /\
  is_deflate <$> merge_from run l = head ++ squash (bool_decide (run <> None)) (is_deflate <$> l) /\
  (forall c, c ∈ merge_from run l -> is_deflate c = true -> c ∈ l).
Proof.
  induction l as [|c l IH]; intros run pos e Hc Hrun; cbv zeta.
  - cbn in Hc. subst e. destruct run as [[[f s] n]|]; cbn; [|by split_and!; [..|intros c Hx%elem_of_nil]].
    destruct Hrun as (H1 & H2 & H3). split_and!; [done|lia|lia|done|]. intros c Hx%list_elem_of_singleton. by subst.
  - destruct Hc as (Hs & Hn & Hl). destruct c as [s' n'|s' n' u q]; cbn [c_start c_len] in *; subst s'.
    + destruct run as [[[f s] n]|]; cbn [merge_from].
      * destruct Hrun as (H1 & H2 & H3). rewrite (proj2 (Z.eqb_eq _ _)) by lia.
        destruct (IH (Some (f, pos, n')) _ _ Hl) as (G1 & G2 & G3); [lia|]. split_and!; [done|exact G2|].
        intros c Hc Hd. apply list_elem_of_further. eauto.
      * destruct (IH (Some (pos, pos, n')) _ _ Hl) as (G1 & G2 & G3); [lia|]. split_and!; [done| |].
        { exact G2. }
        intros c Hc Hd. apply list_elem_of_further. eauto.
    + destruct (IH None _ _ Hl I) as (G1 & G2 & G3).
      destruct run as [[[f s] n]|]; cbn [merge_from].
      * destruct Hrun as (H1 & H2 & H3). split; [|split].
        { cbn [cover c_start c_len]. split_and!; try lia. by replace (f + (n + (s - f)) + n') with (pos + n') by lia. }
        { cbn [fmap list_fmap is_deflate app squash]. do 2 f_equal. exact G2. }
        intros c Hc Hd. apply elem_of_cons in Hc as [->|Hc]; [done|]. apply elem_of_cons in Hc as [->|Hc]; [left|].
        apply list_elem_of_further. eauto.
      * split; [done|split].
        { cbn [fmap list_fmap is_deflate app squash]. f_equal. exact G2. }
        intros c Hc Hd. apply elem_of_cons in Hc as [->|Hc]; [left|]. apply list_elem_of_further. eauto.
Qed.

Lemma merge_spec l e : cover 0 l e ->
  cover 0 (MergeAdjacentNormalChunks l) e /\
  is_deflate <$> MergeAdjacentNormalChunks l = squash false (is_deflate <$> l) /\
  (forall c, c ∈ MergeAdjacentNormalChunks l -> is_deflate c = true -> c ∈ l).
Proof. intros H. apply (merge_from_spec l None 0 e H I). Qed.

Lemma buf_slice_padded img s n x : buf_slice img s n = Some x -> buf_slice (padded img) s n = Some x.
Proof.
  intros H. pose proof (buf_slice_inv _ _ _ _ H) as (H1 & H2 & H3 & _). rewrite buf_slice_some in H by done. injection H as <-.
  unfold padded. rewrite buf_slice_some by (rewrite ?length_app; lia). f_equal. rewrite drop_app_le by lia. by rewrite take_app_le by (rewrite length_drop; lia).
Qed.

Section Chunks.
  Context {Zl : ZLib} {Zs : ZSpec Zl} {ZI : ZInflate} {ZS : ZStream Zs ZI}.

(** What is known of a deflated chunk of [img]; [lim] bounds the inflated data. *)
Definition chunk_ok (lim : Z) (img : list Z) (c : ImageChunk) : Prop :=
  match c with
  | Normal _ _ => True
  | Deflate s n u _ => exists comp, buf_slice img s n = Some comp /\ deflates comp u /\ bytes u /\ zlen u <= lim
  end.

Lemma gz_chunks_cover ms : wf_gzs ms -> forall pos, cover pos (gz_chunks pos ms) (pos + zlen (gzs_bytes ms)).
Proof.
  induction ms as [|g ms IH]; intros Hwf pos; [cbn; lia|]. destruct Hwf as (Hg & _ & Hms).
  pose proof Hg as [Hl _ _ (crc & Hcrc & Hfoot) _ _].
  assert (length (g_foot g) = 8%nat) as Hl8 by (rewrite Hfoot, length_app, Hcrc, le_encode_length; lia).
  change (gzs_bytes (g :: ms)) with (gz_bytes g ++ gzs_bytes ms). cbn [gz_chunks]. cbv zeta. cbn [cover c_start c_len].
  split_and!; try lia. eapply cover_app.
  - instantiate (1 := pos + 10 + zlen (g_deflate g) + 8 + zlen (g_tail g)). destruct (g_tail g) as [|c l]; cbn; lia.
  - replace (pos + zlen (gz_bytes g ++ gzs_bytes ms)) with (pos + 10 + zlen (g_deflate g) + 8 + zlen (g_tail g) + zlen (gzs_bytes ms))
      by (unfold gz_bytes; rewrite !length_app, Hl, Hl8; lia). by apply IH.
Qed.

Lemma gz_chunks_ok lim ms : wf_gzs ms -> Forall (fun g => zlen (g_data g) <= lim) ms -> forall pre,
  Forall (chunk_ok lim (pre ++ gzs_bytes ms)) (gz_chunks (zlen pre) ms).
Proof.
  induction ms as [|g ms IH]; intros Hwf Hlim pre; [constructor|]. destruct Hwf as (Hg & _ & Hms).
  apply Forall_cons in Hlim as [Hlg Hlim].
  pose proof Hg as [Hl _ Hd (crc & Hcrc & Hfoot) Hs Hb].
  assert (length (g_foot g) = 8%nat) as Hl8 by (rewrite Hfoot, length_app, Hcrc, le_encode_length; lia).
  change (gzs_bytes (g :: ms)) with (gz_bytes g ++ gzs_bytes ms). cbn [gz_chunks]. cbv zeta.
  constructor; [done|]. constructor.
  { exists (g_deflate g). split_and!; try done. unfold gz_bytes. rewrite <- !app_assoc, (app_assoc pre).
    apply buf_slice_mid; [rewrite length_app; lia|done]. }
  constructor; [done|]. apply Forall_app. split; [by destruct (g_tail g); repeat constructor|].
  specialize (IH Hms Hlim (pre ++ gz_bytes g)). rewrite <- app_assoc in IH.
  replace (zlen pre + 10 + zlen (g_deflate g) + 8 + zlen (g_tail g)) with (zlen (pre ++ gz_bytes g)); [done|].
  unfold gz_bytes. rewrite !length_app, Hl, Hl8. lia.
Qed.

(** The kinds of the chunks after merging: they are those of the members. *)
Fixpoint members_shape (n : nat) : list bool := match n with O => [] | S n => true :: false :: members_shape n end.

Lemma squash_gz_chunks ms : forall pos, squash true (is_deflate <$> gz_chunks pos ms) = members_shape (length ms).
Proof.
  induction ms as [|g ms IH]; intros pos; [done|]. cbn [gz_chunks]. cbv zeta. cbn [fmap list_fmap is_deflate squash length members_shape].
  do 2 f_equal. rewrite <- (IH (pos + 10 + zlen (g_deflate g) + 8 + zlen (g_tail g))). by destruct (g_tail g).
Qed.

Lemma read_chunks_spec lim lead ms : wf_image lead ms -> ms <> [] \/ lead <> [] -> Forall (fun g => zlen (g_data g) <= lim) ms ->
  let l := MergeAdjacentNormalChunks (plain_chunks 0 lead ++ gz_chunks (zlen lead) ms) in
  cover 0 l (zlen (image lead ms)) /\ is_deflate <$> l = false :: members_shape (length ms) /\
  Forall (chunk_ok lim (image lead ms)) l /\
  (forall c, c ∈ l -> is_deflate c = true -> c ∈ gz_chunks (zlen lead) ms).
Proof.
  intros [_ Hms] Hne Hlim. cbv zeta.
  assert (cover 0 (plain_chunks 0 lead ++ gz_chunks (zlen lead) ms) (zlen (image lead ms))) as Hc.
  { eapply cover_app; [|unfold image; rewrite length_app, Nat2Z.inj_add; by apply gz_chunks_cover]. destruct lead; cbn; lia. }
  destruct (merge_spec _ _ Hc) as (G1 & G2 & G3).
  assert (forall c, c ∈ MergeAdjacentNormalChunks (plain_chunks 0 lead ++ gz_chunks (zlen lead) ms) ->
    is_deflate c = true -> c ∈ gz_chunks (zlen lead) ms) as Hin.
  { intros c Hx Hd. specialize (G3 c Hx Hd). apply elem_of_app in G3 as [G3|]; [|done].
    destruct lead as [|x lead]; [by apply elem_of_nil in G3|]. apply list_elem_of_singleton in G3. by subst. }
  split_and!; [done| | |done].
  - rewrite G2, fmap_app. destruct lead as [|x lead].
    + destruct ms as [|g ms]; [by destruct Hne|]. cbn [plain_chunks fmap list_fmap app]. change (length (g :: ms)) with (S (length ms)).
      change (S (length ms)) with (length (g :: ms)). rewrite <- (squash_gz_chunks (g :: ms) (zlen (@nil Z))). reflexivity.
    + cbn [plain_chunks fmap list_fmap is_deflate app squash]. f_equal. apply squash_gz_chunks.
  - apply Forall_forall. intros c Hx. destruct (is_deflate c) eqn:Hd; [|by destruct c].
    specialize (Hin c Hx Hd). pose proof (gz_chunks_ok lim ms Hms Hlim lead) as Hok. rewrite Forall_forall in Hok. by apply Hok.
Qed.

(** The deflated chunks come from the members, with a footer behind them. *)
Lemma gz_chunks_member ms : wf_gzs ms -> forall pos c, c ∈ gz_chunks pos ms -> is_deflate c = true ->
  exists g s, g ∈ ms /\ c = Deflate s (zlen (g_deflate g)) (g_data g) None /\
    s + zlen (g_deflate g) + 8 <= pos + zlen (gzs_bytes ms).
Proof.
  induction ms as [|g ms IH]; intros Hwf pos c Hc Hd; [by apply elem_of_nil in Hc|]. destruct Hwf as (Hg & _ & Hms).
  pose proof Hg as [Hl _ _ (crc & Hcrc & Hfoot) _ _].
  assert (length (g_foot g) = 8%nat) as Hl8 by (rewrite Hfoot, length_app, Hcrc, le_encode_length; lia).
  assert (zlen (gzs_bytes (g :: ms)) = 18 + zlen (g_deflate g) + zlen (g_tail g) + zlen (gzs_bytes ms)) as Hlen
    by (change (gzs_bytes (g :: ms)) with (gz_bytes g ++ gzs_bytes ms); unfold gz_bytes; rewrite !length_app, Hl, Hl8; lia).
  cbn [gz_chunks] in Hc. cbv zeta in Hc. apply elem_of_cons in Hc as [->|Hc]; [done|].
  apply elem_of_cons in Hc as [->|Hc]; [exists g, (pos + 10); split_and!; [left|done|lia]|].
  apply elem_of_cons in Hc as [->|Hc]; [done|]. apply elem_of_app in Hc as [Hc|Hc].
  - destruct (g_tail g); [by apply elem_of_nil in Hc|]. apply list_elem_of_singleton in Hc. by subst.
  - destruct (IH Hms _ _ Hc Hd) as (g' & s & Hin & -> & Hle). exists g', s. split_and!; [by right|done|lia].
Qed.

End Chunks.

(** ** Reproducing the compressed data *)

Section Reconstruct.
  Context {Zl : ZLib} {Zs : ZSpec Zl} {ZI : ZInflate} {ZS : ZStream Zs ZI} (fuel : nat).

Lemma try_loop_spec f : forall strm out img d p, z_yields strm out -> (length out < f)%nat ->
  0 <= d + p -> d + p + zlen out <= zlen (padded img) ->
  exists r, try_loop f strm img d p = Done r /\
    forall x, r = Some x -> x = p + zlen out /\ buf_slice (padded img) (d + p) (zlen out) = Some out.
Proof.
  induction f as [|f IH]; intros strm out img d p Hy Hf Hd Hl; [lia|]. cbn [try_loop].
  destruct (z_finish strm out BUFFER_SIZE Hy ltac:(reflexivity)) as (ret & k & s' & -> & Hk & Hret).
  rewrite buf_slice_some by (rewrite ?length_take; lia). cbn [access mbind outcome_bind].
  case_bool_decide as He; cbn [negb]; [|eexists; split; [done|]; by intros].
  cbv zeta. rewrite length_take in He. rewrite length_take.
  destruct Hret as [[-> ->]|(-> & Hk0 & Hy')].
  - rewrite Z.eqb_refl. eexists. split; [done|]. intros x [= <-]. rewrite Nat.min_id in *. split; [done|].
    rewrite buf_slice_some by lia. rewrite firstn_all in He. by rewrite He at 2.
  - change (Z_OK =? Z_STREAM_END) with false. cbv iota. rewrite Nat.min_l in * by lia.
    destruct (IH s' (drop k out) img d (p + Z.of_nat k) Hy') as (r & -> & Hr); [rewrite ?length_drop; lia..|].
    exists r. split; [done|]. intros x Hx. destruct (Hr x Hx) as [-> Hs]. rewrite length_drop in *. split; [lia|].
    rewrite buf_slice_some in Hs |- * by lia. injection Hs as Hs. f_equal.
    rewrite Nat2Z.id in *. replace (Z.to_nat (Z.of_nat (length out - k))) with (length out - k)%nat in Hs by lia.
    replace (Z.to_nat (d + (p + Z.of_nat k))) with (Z.to_nat (d + p) + k)%nat in Hs by lia. rewrite <- drop_drop in Hs.
    set (l := drop (Z.to_nat (d + p)) (padded img)) in *.
    rewrite <- (take_drop k (take (length out) l)), take_take, Nat.min_l by lia.
    rewrite <- He, skipn_firstn_comm, Hs. apply take_drop.
Qed.

(** The compressed data is what [deflate] makes of the data with parameters
    [q]. *)
Definition target_ok (lim : Z) (tgt : list Z) (c : ImageChunk) : Prop :=
  match c with
  | Normal _ _ => True
  | Deflate s n u q => exists lv, (lv = 6 \/ lv = 9) /\ q = Some (params_for lv) /\
      buf_slice tgt s n = Some (deflated lv u) /\ bytes u /\ zlen u <= lim
  end.

(** Compressing the chunk again does not take more than the image has left. *)
Definition recompressed_fits (tgt : list Z) (c : ImageChunk) : Prop :=
  match c with
  | Normal _ _ => True
  | Deflate s _ u _ => forall lv, lv = 6 \/ lv = 9 ->
      s + zlen (deflated lv u) <= zlen tgt + 4 /\ (length (deflated lv u) < fuel)%nat
  end.

Lemma TryReconstruction_spec tgt s n u lv comp : lv = 6 \/ lv = 9 ->
  buf_slice tgt s n = Some comp -> s + zlen (deflated lv u) <= zlen tgt + 4 -> (length (deflated lv u) < fuel)%nat ->
  exists b, TryReconstruction fuel tgt s n u (params_for lv) = Done b /\ (b = true -> comp = deflated lv u).
Proof.
  intros Hlv Hs Hfit Hf. unfold TryReconstruction. pose proof (buf_slice_inv _ _ _ _ Hs) as (H1 & H2 & H3 & H4).
  destruct (try_loop_spec fuel _ (deflated lv u) tgt s 0 (z_deflated lv u Hlv)) as (r & E & Hr);
    [done|lia|unfold padded; rewrite length_app; cbn [length]; lia|].
  unfold params_for. cbn [level method windowBits memLevel strategy]. rewrite E. cbn [mbind outcome_bind].
  eexists. split; [done|]. rewrite bool_decide_eq_true. intros ->. destruct (Hr n eq_refl) as [Hn Hx].
  rewrite Z.add_0_r in Hx. apply buf_slice_padded in Hs. replace n with (zlen (deflated lv u)) in Hs by lia. congruence.
Qed.

Lemma Reconstruct_spec lim tgt s n u q0 : chunk_ok lim tgt (Deflate s n u q0) -> recompressed_fits tgt (Deflate s n u q0) ->
  exists r, ReconstructDeflateChunk fuel tgt s n u = Done r /\
    forall q, r = Some q -> target_ok lim tgt (Deflate s n u (Some q)).
Proof.
  intros (comp & Hs & Hd & Hb & Hl) Hfit. unfold ReconstructDeflateChunk.
  destruct (Hfit 6 ltac:(by left)) as [F1 F2], (Hfit 9 ltac:(by right)) as [F3 F4].
  destruct (TryReconstruction_spec tgt s n u 6 comp ltac:(by left) Hs F1 F2) as (b & -> & Hb6). cbn [mbind outcome_bind].
  destruct b.
  { eexists. split; [done|]. intros q [= <-]. exists 6. rewrite <- (Hb6 eq_refl). split_and!; auto. }
  destruct (TryReconstruction_spec tgt s n u 9 comp ltac:(by right) Hs F3 F4) as (b & -> & Hb9). cbn [mbind outcome_bind].
  destruct b; [|eexists; split; [done|]; by intros].
  eexists. split; [done|]. intros q [= <-]. exists 9. rewrite <- (Hb9 eq_refl). split_and!; auto.
Qed.

Lemma AreChunksEqual_some lim lim' tgt src t s : chunk_ok lim tgt t -> chunk_ok lim' src s -> is_deflate t = true ->
  exists b, AreChunksEqual tgt src t s = Done b.
Proof.
  destruct t as [|ts tn tu tq]; [done|]. destruct s as [ss sn|ss sn su sq]; [by eexists|].
  intros (tc & Ht & _) (sc & Hs & _) _. cbn [AreChunksEqual]. destruct (tn =? sn); [|by eexists].
  rewrite (buf_slice_padded _ _ _ _ Ht), (buf_slice_padded _ _ _ _ Hs). by eexists.
Qed.

(** One pair of chunks. *)
Definition keeps_place (c c' : ImageChunk) : Prop :=
  c_start c' = c_start c /\ c_len c' = c_len c /\ (is_deflate c = false -> is_deflate c' = false).

Lemma cover_keeps l l' : Forall2 keeps_place l l' -> forall p e, cover p l e -> cover p l' e.
Proof.
  induction 1 as [|c c' l l' (H1 & H2 & _) _ IH]; intros p e; [done|]. cbn. rewrite H1, H2. intros (? & ? & ?). auto.
Qed.

Lemma reconstruct_chunks_spec lim lim' tgt src ts : forall ss,
  is_deflate <$> ts = is_deflate <$> ss -> Forall (chunk_ok lim tgt) ts -> Forall (chunk_ok lim' src) ss ->
  Forall (recompressed_fits tgt) ts ->
  exists ts' ss', reconstruct_chunks fuel tgt src ts ss = Done (ts', ss') /\
    is_deflate <$> ts' = is_deflate <$> ss' /\ Forall2 keeps_place ts ts' /\ Forall2 keeps_place ss ss' /\
    Forall (target_ok lim tgt) ts' /\ Forall (chunk_ok lim' src) ss'.
Proof.
  induction ts as [|t ts IH]; intros ss Hty Ht Hs Hf.
  { exists [], []. destruct ss; [|done]. split_and!; done || constructor. }
  destruct ss as [|s ss]; [done|]. cbn in Hty. injection Hty as Hty1 Hty2.
  apply Forall_cons in Ht as [Ht Hts], Hs as [Hs Hss], Hf as [Hf Hfs].
  destruct (IH ss Hty2 Hts Hss Hfs) as (ts' & ss' & E & G1 & G2 & G3 & G4 & G5).
  assert (forall t' s', is_deflate t' = is_deflate s' -> keeps_place t t' -> keeps_place s s' -> target_ok lim tgt t' -> chunk_ok lim' src s' ->
    exists ts1 ss1, ('(ts0, ss0) ← reconstruct_chunks fuel tgt src ts ss; Done (t' :: ts0, s' :: ss0)) = Done (ts1, ss1) /\
      is_deflate <$> ts1 = is_deflate <$> ss1 /\ Forall2 keeps_place (t :: ts) ts1 /\ Forall2 keeps_place (s :: ss) ss1 /\
      Forall (target_ok lim tgt) ts1 /\ Forall (chunk_ok lim' src) ss1) as Hfin.
  { intros t' s' H1 H2 H3 H4 H5. exists (t' :: ts'), (s' :: ss'). rewrite E. cbn [mbind outcome_bind].
    split_and!; [done|cbn; by rewrite H1, G1|by constructor..]. }
  cbn [reconstruct_chunks]. destruct t as [st n|st n u q0].
  { cbn [mbind outcome_bind]. by apply (Hfin (Normal st n) s). }
  assert (exists t1 s1, (q ← ReconstructDeflateChunk fuel tgt st n u;
      match q with
      | None => Done (ChangeDeflateChunkToNormal (Deflate st n u q0), ChangeDeflateChunkToNormal s)
      | Some q => same ← AreChunksEqual tgt src (Deflate st n u q0) s;
          if same : bool then Done (ChangeDeflateChunkToNormal (Deflate st n u q0), ChangeDeflateChunkToNormal s)
          else Done (Deflate st n u (Some q), s)
      end) = Done (t1, s1) /\ is_deflate t1 = is_deflate s1 /\ keeps_place (Deflate st n u q0) t1 /\ keeps_place s s1 /\
      target_ok lim tgt t1 /\ chunk_ok lim' src s1) as (t1 & s1 & -> & K1 & K2 & K3 & K4 & K5).
  2: { cbn [mbind outcome_bind]. by apply Hfin. }
  destruct (Reconstruct_spec lim tgt st n u q0 Ht Hf) as (r & -> & Hr). cbn [mbind outcome_bind].
  assert (is_deflate (ChangeDeflateChunkToNormal s) = false /\ keeps_place s (ChangeDeflateChunkToNormal s) /\
    chunk_ok lim' src (ChangeDeflateChunkToNormal s)) as (C1 & C2 & C3) by (destruct s; by split_and!).
  destruct r as [q|].
  - destruct (AreChunksEqual_some lim lim' tgt src (Deflate st n u q0) s Ht Hs eq_refl) as [b ->]. cbn [mbind outcome_bind]. destruct b.
    + eexists _, _. split; [done|]. split_and!; done || by rewrite C1.
    + eexists _, _. split; [done|]. split_and!; try done. by apply Hr.
  - eexists _, _. split; [done|]. split_and!; done || by rewrite C1.
Qed.

End Reconstruct.

(** ** The file *)

Definition as_chunk (offset : Z) (p : patched) : chunk :=
  match p with
  | PRaw d => CRaw d
  | PNormal ss sl _ => CNormal ss sl offset
  | PDeflate ss sl ul len q _ => CDeflate ss sl offset ul len (level q) (method q) (windowBits q) (memLevel q) (strategy q)
  end.

Fixpoint as_chunks (offset : Z) (ps : list patched) : list chunk :=
  match ps with [] => [] | p :: ps => as_chunk offset p :: as_chunks (offset + zlen (patch_data p)) ps end.

Lemma write_headers_spec ps : forall offset f,
  write_headers ps offset f = f ++ concat (encode_chunk <$> as_chunks offset ps).
Proof.
  induction ps as [|p ps IH]; intros offset f; [by rewrite app_nil_r|].
  destruct p; cbn [write_headers as_chunks as_chunk patch_data fmap list_fmap concat encode_chunk]; cbv zeta;
    rewrite IH, ?Write4_le, ?Write8_le; [rewrite Z.add_0_r|..]; by rewrite <- ?app_assoc.
Qed.

Lemma header_size_spec p offset : header_size p = zlen (encode_chunk (as_chunk offset p)).
Proof. unfold header_size. destruct p; cbn [as_chunk encode_chunk]; rewrite ?length_app, ?le_encode_length; lia. Qed.

Lemma total_header_spec ps : forall offset n, foldl (fun n p => n + header_size p) n ps = n + zlen (concat (encode_chunk <$> as_chunks offset ps)).
Proof.
  induction ps as [|p ps IH]; intros offset n; [cbn; lia|]. cbn [foldl as_chunks fmap list_fmap concat].
  rewrite (IH (offset + zlen (patch_data p))), (header_size_spec p offset), length_app. lia.
Qed.

Lemma length_as_chunks ps : forall offset, length (as_chunks offset ps) = length ps.
Proof. induction ps as [|p ps IH]; intros offset; [done|]. cbn. by rewrite IH. Qed.

Lemma write_patch_spec ps :
  write_patch ps = image_patch (as_chunks (total_header_size ps) ps) (concat (patch_data <$> ps)).
Proof. unfold write_patch, image_patch. rewrite write_headers_spec, Write4_le, length_as_chunks. by rewrite <- !app_assoc. Qed.

(** ** Patches *)

Section Patches.
  Context {B : BzLib} {BS : BzSpec B} {Zl : ZLib} {Zs : ZSpec Zl} {ZI : ZInflate} {ZS : ZStream Zs ZI}.
  Context (malloc_ok : Z -> bool) (Hmalloc : forall n, malloc_ok n = true).
  Context (suffix_sort : list Z -> list Z) (temp_ok : Z -> bool) (Htemp : forall i, temp_ok i = true).
  Context (Hsort : forall d, bytes d -> suffix_array (suffix_sort d) d).
  Context (fuel : nat) (src tgt : list Z) (bonus : option (list Z)).
  Context (Hsrc : bytes src) (Htgt : bytes tgt) (Hbonus : bytes (default [] bonus)).
  Context (Lsrc : zlen src < 2 ^ 31) (Ltgt : zlen tgt < 2 ^ 31) (Hfuel : zlen tgt + 24 <= Z.of_nat fuel).
  (** Bounds of the inflated data of the source and of the target. *)
  Context (lim_s lim_t : Z) (Hlims : lim_s + zlen (default [] bonus) < 2 ^ 31) (Hlimt : lim_t < 2 ^ 31)
    (Hlimf : lim_t + 24 <= Z.of_nat fuel).

Abbreviation apply_patch := (ApplyBSDiffPatchMem malloc_ok fuel).
Definition bonus_at (i : Z) : list Z := if i =? 1 then default [] bonus else [].

(** The patch describes [out] wherever it is in the file. *)
Definition describes (old : list Z) (size : Z) (patch out : list Z) : Prop :=
  forall pre post, zlen pre + zlen patch + zlen post < 2 ^ 31 -> apply_patch old size (pre ++ patch ++ post) (zlen pre) = Done out.

Definition good_patched (i : Z) (p : patched) (out : list Z) : Prop :=
  match p with
  | PRaw d => out = d
  | PNormal ss sl patch => in_u 31 ss /\ in_u 31 sl /\ describes (drop (Z.to_nat ss) src) sl patch out
  | PDeflate ss sl ul len q patch =>
      in_u 31 ss /\ in_u 31 sl /\ in_u 31 ul /\ (exists lv, (lv = 6 \/ lv = 9) /\ q = params_for lv) /\
      exists input expanded target,
        buf_slice src ss sl = Some input /\ inflate input ul = (Z_STREAM_END, expanded) /\
        ul = zlen expanded + zlen (bonus_at i) /\
        describes (expanded ++ bonus_at i) ul patch target /\
        z_yields (deflateInit2 (level q) (method q) (windowBits q) (memLevel q) (strategy q) target) out
  end.

Lemma bytes_slice l s n x : bytes l -> buf_slice l s n = Some x -> bytes x.
Proof.
  intros Hl H. pose proof (buf_slice_inv _ _ _ _ H) as (H1 & H2 & H3 & _). rewrite buf_slice_some in H by done.
  injection H as <-. by apply Forall_take, Forall_drop.
Qed.

Lemma slice_rest l s n x : buf_slice l s n = Some x -> exists rest, drop (Z.to_nat s) l = x ++ rest.
Proof.
  intros H. pose proof (buf_slice_inv _ _ _ _ H) as (H1 & H2 & H3 & _). rewrite buf_slice_some in H by done.
  injection H as <-. exists (drop (Z.to_nat n) (drop (Z.to_nat s) l)). by rewrite take_drop.
Qed.

(** A chunk and its source: what each needs. *)
Record pairing (i : Z) (t s : ImageChunk) (out : list Z) : Prop := {
  pair_kind : is_deflate t = is_deflate s;
  pair_out : buf_slice tgt (c_start t) (c_len t) = Some out;
  pair_src : exists data, buf_slice src (c_start s) (c_len s) = Some data;
  pair_tgt_ok : target_ok lim_t tgt t;
  pair_src_ok : chunk_ok lim_s src s;
  pair_bonus : i = 1 -> bonus <> None -> is_deflate s = true
}.

Lemma source_data_normal i s n data : (i = 1 -> bonus <> None -> False) -> buf_slice src s n = Some data ->
  source_data i src bonus (Normal s n) = Done data.
Proof.
  intros Hb Hs. unfold source_data. cbn [chunk_data]. rewrite (buf_slice_padded _ _ _ _ Hs). cbn [access mbind outcome_bind].
  destruct bonus; [|done]. destruct (Z.eqb_spec i 1); [|done]. by destruct Hb.
Qed.

Lemma source_data_deflate i s n u q : source_data i src bonus (Deflate s n u q) = Done (u ++ bonus_at i).
Proof.
  unfold source_data, bonus_at. cbn [chunk_data mbind outcome_bind]. destruct bonus; [|by destruct (i =? 1); rewrite app_nil_r].
  destruct (i =? 1); [done|by rewrite app_nil_r].
Qed.

Lemma MakePatch_normal i ts tn ss sn out : pairing i (Normal ts tn) (Normal ss sn) out ->
  exists p, (data ← source_data i src bonus (Normal ss sn); MakePatch suffix_sort temp_ok i (Normal ss sn) data tgt (Normal ts tn)) = Done p /\
    good_patched i p out.
Proof using All.
  intros [_ Hout (data & Hdata) _ _ Hb]. cbn [c_start c_len] in *.
  rewrite (source_data_normal i ss sn data); [|by intros; discriminate Hb|done]. cbn [mbind outcome_bind MakePatch].
  rewrite (buf_slice_padded _ _ _ _ Hout). cbn [access mbind outcome_bind]. destruct (tn <=? 160); [by eexists|].
  pose proof (buf_slice_inv _ _ _ _ Hdata) as (S1 & S2 & S3 & S4). pose proof (buf_slice_inv _ _ _ _ Hout) as (T1 & T2 & T3 & T4).
  pose proof (bytes_slice _ _ _ _ Hsrc Hdata) as Bd. pose proof (bytes_slice _ _ _ _ Htgt Hout) as Bo.
  destruct (bsdiff_embedded malloc_ok fuel (suffix_sort data) data out) as (patch & -> & Hp); auto; [lia..|].
  cbn [access mbind outcome_bind]. rewrite Htemp. cbn [negb]. destruct (tn <=? zlen patch); [by eexists|]. eexists. split; [done|].
  cbn [good_patched]. unfold in_u. split_and!; try lia.
  destruct (slice_rest _ _ _ _ Hdata) as [rest ->]. intros pre post Hl. by apply Hp.
Qed.

Lemma MakePatch_deflate i ts tn tu tq ss sn su sq out : pairing i (Deflate ts tn tu tq) (Deflate ss sn su sq) out ->
  exists p, (data ← source_data i src bonus (Deflate ss sn su sq);
             MakePatch suffix_sort temp_ok i (Deflate ss sn su sq) data tgt (Deflate ts tn tu tq)) = Done p /\ good_patched i p out.
Proof using All.
  intros [_ Hout _ (lv & Hlv & -> & Hs & Bu & Lu) (comp & Hc & Hdef & Bs & Ls) _]. cbn [c_start c_len] in *.
  rewrite source_data_deflate. cbn [mbind outcome_bind MakePatch].
  assert (bytes (bonus_at i)) as Bb by (unfold bonus_at; destruct (i =? 1); [done|constructor]).
  assert (zlen (bonus_at i) <= zlen (default [] bonus)) as Hbl by (unfold bonus_at; destruct (i =? 1); cbn; lia).
  pose proof (buf_slice_inv _ _ _ _ Hc) as (S1 & S2 & S3 & _).
  destruct (bsdiff_embedded malloc_ok fuel (suffix_sort (su ++ bonus_at i)) (su ++ bonus_at i) tu) as (patch & -> & Hp); auto.
  { apply Hsort. by apply Forall_app. }
  { by apply Forall_app. }
  { rewrite length_app. lia. }
  { lia. }
  { lia. }
  cbn [access mbind outcome_bind]. rewrite Htemp. cbn [negb]. eexists. split; [done|]. cbn [good_patched].
  rewrite length_app. unfold in_u. split_and!; try lia; [by exists lv|].
  exists comp, su, tu. split_and!; [done|apply inflate_whole; [done|lia]|lia| |].
  - intros pre post Hl. specialize (Hp pre post [] Hl). rewrite app_nil_r, length_app in Hp. done.
  - rewrite Hs in Hout. injection Hout as <-. by apply z_deflated.
Qed.

(** The chunks one after the other. *)
Inductive good_patches : Z -> list patched -> list Z -> Prop :=
  | gp_nil i : good_patches i [] []
  | gp_cons i p ps out outs : good_patched i p out -> good_patches (i + 1) ps outs -> good_patches i (p :: ps) (out ++ outs).

Inductive pairings : Z -> list ImageChunk -> list ImageChunk -> list Z -> Prop :=
  | pr_nil i : pairings i [] [] []
  | pr_cons i t s ts ss out outs : pairing i t s out -> pairings (i + 1) ts ss outs -> pairings i (t :: ts) (s :: ss) (out ++ outs).

Lemma make_patches_good i ts ss outs : pairings i ts ss outs ->
  exists ps, make_patches suffix_sort temp_ok i tgt src bonus ts ss = Done ps /\ good_patches i ps outs.
Proof using All.
  induction 1 as [i|i t s ts ss out outs Hp _ (ps & IH & Hg)]; [exists []; split; [done|constructor]|].
  assert (exists p, (data ← source_data i src bonus s; MakePatch suffix_sort temp_ok i s data tgt t) = Done p /\ good_patched i p out)
    as (p & E & Hgp).
  { pose proof (pair_kind _ _ _ _ Hp) as Hk. destruct t, s; try discriminate Hk; [by apply MakePatch_normal|by apply MakePatch_deflate]. }
  exists (p :: ps). split; [|by constructor]. cbn [make_patches].
  destruct (source_data i src bonus s) as [data| | |]; try discriminate E. cbn [mbind outcome_bind] in E |- *.
  rewrite E. cbn [mbind outcome_bind]. by rewrite IH.
Qed.

(** Where the patches are in the file. *)
Lemma good_chunks_make file i ps outs : good_patches i ps outs -> forall pre,
  file = pre ++ concat (patch_data <$> ps) -> zlen file < 2 ^ 31 ->
  chunks_make malloc_ok fuel src file bonus i (as_chunks (zlen pre) ps) outs.
Proof.
  induction 1 as [i|i p ps out outs Hp _ IH]; intros pre Hfile Hl; [constructor|]. cbn [as_chunks fmap list_fmap concat] in *.
  constructor.
  - assert (in_u 31 (zlen pre)) as Hpre by (unfold in_u; rewrite Hfile, length_app in Hl; lia).
    assert (zlen pre + zlen (patch_data p) + zlen (concat (patch_data <$> ps)) < 2 ^ 31) as Hlen
      by (rewrite Hfile, !length_app in Hl; lia).
    destruct p as [d|ss sl patch|ss sl ul len q patch]; cbn [as_chunk chunk_makes good_patched patch_data] in *; [done| |].
    + destruct Hp as (H1 & H2 & H3). split_and!; try done. rewrite Hfile. by apply H3.
    + destruct Hp as (H1 & H2 & H3 & (lv & Hlv & ->) & input & expanded & target & G1 & G2 & G3 & G4 & G5).
      unfold params_for in *. cbn [level method windowBits memLevel strategy] in *.
      split_and!; try done; try (unfold in_s, Z_DEFLATED, Z_DEFAULT_STRATEGY; destruct Hlv; lia).
      exists input, expanded, target. unfold bonus_at in *. split_and!; try done. rewrite Hfile. by apply G4.
  - replace (zlen pre + zlen (patch_data p)) with (zlen (pre ++ patch_data p)) by (rewrite length_app; lia).
    apply IH; [by rewrite <- app_assoc|done].
Qed.

(** Lists that cover the images and agree in kind. *)
Lemma pairings_of ts : forall i ss pos pos', is_deflate <$> ts = is_deflate <$> ss -> 0 <= pos -> 0 <= pos' ->
  cover pos ts (zlen tgt) -> cover pos' ss (zlen src) -> Forall (target_ok lim_t tgt) ts -> Forall (chunk_ok lim_s src) ss ->
  (forall k b, i + Z.of_nat k = 1 -> (is_deflate <$> ss) !! k = Some b -> b = true) ->
  pairings i ts ss (drop (Z.to_nat pos) tgt).
Proof.
  induction ts as [|t ts IH]; intros i ss pos pos' Hk Hp Hp' Ht Hs Hto Hso Hb; (destruct ss as [|s ss]; [try done|try done]).
  - cbn in Ht. subst pos. rewrite drop_ge by lia. constructor.
  - destruct Ht as (T1 & T2 & T3), Hs as (S1 & S2 & S3). cbn in Hk. injection Hk as Hk1 Hk2.
    apply Forall_cons in Hto as [Hto Htos], Hso as [Hso Hsos].
    pose proof (cover_le _ _ _ T3). pose proof (cover_le _ _ _ S3).
    replace (drop (Z.to_nat pos) tgt) with (take (Z.to_nat (c_len t)) (drop (Z.to_nat pos) tgt) ++ drop (Z.to_nat (pos + c_len t)) tgt).
    2: { replace (Z.to_nat (pos + c_len t)) with (Z.to_nat pos + Z.to_nat (c_len t))%nat by lia. by rewrite <- drop_drop, take_drop. }
    constructor.
    + split; [done| | |done|done|].
      * rewrite T1, buf_slice_some by lia. done.
      * rewrite S1, buf_slice_some by lia. by eexists.
      * intros -> _. by apply (Hb O).
    + apply (IH _ ss _ (pos' + c_len s)); try done; try lia. intros k b Hkb. apply (Hb (S k)). lia.
Qed.

End Patches.
