(* ===== verification/ImgdiffRoundtrip.v ===== *)
(** * Image patches give the target back ([imgdiff.c], [imgpatch.c]): the theorem

    [imgdiff] followed by [ApplyImagePatch], with the conditions under which it
    is the identity, a pair of images to try it on, and inputs on which [imgdiff]
    goes wrong. *)
From S2P Require Import Prelude.
From S2P Require Import Utils.
From S2P Require Import Bspatch.
From S2P Require Import Bsdiff.
From S2P Require Import Imgpatch.
From S2P Require Import Imgdiff.
From S2P Require Import ImgdiffFacts.
From stdpp Require Import sorting.
Open Scope Z_scope.

Lemma same_types_kinds a b : is_deflate <$> a = is_deflate <$> b -> same_types a b = true.
Proof.
  intros H. unfold same_types. apply andb_true_iff. split.
  - apply bool_decide_eq_true. apply (f_equal length) in H. by rewrite !length_fmap in H.
  - revert b H. induction a as [|x a IH]; intros [|y b]; try done. cbn. intros [= Hx Hr]. rewrite IH by done.
    by destruct x, y.
Qed.

Lemma squash_second l b : squash true l !! 0%nat = Some b -> b = true.
Proof. induction l as [|[] l IH]; cbn; [done|by intros [= <-]|done]. Qed.

Section Roundtrip.
  Context {B : BzLib} {BS : BzSpec B} {Zl : ZLib} {Zs : ZSpec Zl} {ZI : ZInflate} {ZS : ZStream Zs ZI}.
  Context (malloc_ok : Z -> bool) (Hmalloc : forall n, malloc_ok n = true) (Hinit : inflateInit2 = Z_OK).
  Context (suffix_sort : list Z -> list Z) (temp_ok : Z -> bool) (Htemp : forall i, temp_ok i = true).
  Context (Hsort : forall d, bytes d -> suffix_array (suffix_sort d) d).

(** Two images with the same number of gzip members. *)
Record diffable (fuel : nat) (bonus : option (list Z)) (lead lead' : list Z) (ms ms' : list gz) : Prop := {
  df_src : wf_image lead ms;
  df_tgt : wf_image lead' ms';
  df_members : length ms = length ms';
  df_src_ne : ms <> [] \/ lead <> [];
  df_tgt_ne : ms' <> [] \/ lead' <> [];
  df_src_bytes : bytes (image lead ms);
  df_tgt_bytes : bytes (image lead' ms');
  df_bonus_bytes : bytes (default [] bonus);
  df_src_size : zlen (image lead ms) < 2 ^ 31;
  df_tgt_size : zlen (image lead' ms') < 2 ^ 31;
  df_fuel : zlen (image lead' ms') + 24 <= Z.of_nat fuel;
  df_src_data : Forall (fun g => zlen (g_data g) + zlen (default [] bonus) < 2 ^ 31 /\ (length (g_data g) < fuel)%nat) ms;
  df_tgt_data : Forall (fun g => zlen (g_data g) < 2 ^ 31 /\ zlen (g_data g) + 24 <= Z.of_nat fuel) ms';
  (** compressing the data again gives at most 12 bytes more *)
  df_recompressed : Forall (fun g => forall lv, lv = 6 \/ lv = 9 ->
    zlen (deflated lv (g_data g)) <= zlen (g_deflate g) + 12 /\ (length (deflated lv (g_data g)) < fuel)%nat) ms'
}.

Lemma imgdiff_patches fuel bonus lead lead' ms ms' : diffable fuel bonus lead lead' ms ms' ->
  exists ps, imgdiff suffix_sort temp_ok fuel (image lead ms) (image lead' ms') bonus = Done (inr (write_patch ps)) /\
    good_patches malloc_ok fuel (image lead ms) bonus 0 ps (image lead' ms').
Proof using All.
  intros [H1 H2 H3 H4 H5 H6 H7 H8 H9 H10 H11 H12 H13 H14].
  set (lim_s := 2 ^ 31 - 1 - zlen (default [] bonus)). set (lim_t := Z.min (2 ^ 31 - 1) (Z.of_nat fuel - 24)).
  unfold imgdiff. rewrite (ReadImage_spec fuel lead ms); [|done|eapply Forall_impl; [exact H12|]; by intros g [_ ?]].
  cbn [mbind outcome_bind]. rewrite (ReadImage_spec fuel lead' ms'); [|done|eapply Forall_impl; [exact H13|]; cbn; intros g [_ ?]; lia].
  cbn [mbind outcome_bind]. cbv zeta.
  destruct (read_chunks_spec lim_s lead ms H1 H4) as (S1 & S2 & S3 & _);
    [eapply Forall_impl; [exact H12|]; cbn beta; intros g [? _]; unfold lim_s; lia|].
  destruct (read_chunks_spec lim_t lead' ms' H2 H5) as (T1 & T2 & T3 & T4);
    [eapply Forall_impl; [exact H13|]; cbn beta; intros g [? ?]; unfold lim_t; lia|].
  set (ss := MergeAdjacentNormalChunks (plain_chunks 0 lead ++ gz_chunks (zlen lead) ms)) in *.
  set (ts := MergeAdjacentNormalChunks (plain_chunks 0 lead' ++ gz_chunks (zlen lead') ms')) in *.
  rewrite same_types_kinds by (by rewrite S2, T2, H3). cbn [negb].
  destruct (reconstruct_chunks_spec fuel lim_t lim_s (image lead' ms') (image lead ms) ts ss) as (ts' & ss' & -> & K1 & K2 & K3 & K4 & K5);
    [by rewrite S2, T2, H3|done|done| |].
  { apply Forall_forall. intros c Hc. destruct (is_deflate c) eqn:Hd; [|by destruct c].
    destruct (gz_chunks_member ms' (proj2 H2) _ _ (T4 c Hc Hd) Hd) as (g & s & Hg & -> & Hle). intros lv Hlv.
    rewrite Forall_forall in H14. destruct (H14 g Hg lv Hlv) as [F1 F2]. split; [|done].
    unfold image. rewrite length_app. lia. }
  cbn [mbind outcome_bind]. pose proof (cover_keeps _ _ K2 _ _ T1) as C1. pose proof (cover_keeps _ _ K3 _ _ S1) as C2.
  destruct (merge_spec _ _ C1) as (M1 & M2 & M3), (merge_spec _ _ C2) as (N1 & N2 & N3).
  assert (length (MergeAdjacentNormalChunks ss') = length (MergeAdjacentNormalChunks ts')) as Hlen.
  { rewrite <- (length_fmap is_deflate (MergeAdjacentNormalChunks ss')), N2, <- K1, <- M2, length_fmap. done. }
  rewrite bool_decide_true by done. cbn [negb].
  assert (exists l, is_deflate <$> ss' = false :: l) as [l Hl].
  { destruct ss as [|s0 ss0]; [done|]. cbn in S2. injection S2 as S2 _.
    inversion K3 as [|? c' ? ss0' (_ & _ & Hc0) _]; subst. exists (is_deflate <$> ss0'). cbn. by rewrite Hc0. }
  destruct (make_patches_good malloc_ok Hmalloc suffix_sort temp_ok Htemp Hsort fuel (image lead ms) (image lead' ms') bonus
    H6 H7 H8 H9 H10 H11 lim_s lim_t ltac:(unfold lim_s; lia) ltac:(unfold lim_t; lia) ltac:(unfold lim_t; lia) 0
    (MergeAdjacentNormalChunks ts') (MergeAdjacentNormalChunks ss') (image lead' ms')) as (ps & E & Hg).
  - apply (pairings_of fuel (image lead ms) (image lead' ms') bonus lim_s lim_t _ 0 _ 0 0); try done.
    + by rewrite M2, N2, K1.
    + apply Forall_forall. intros c Hc. destruct (is_deflate c) eqn:Hd; [|by destruct c]. rewrite Forall_forall in K4. auto.
    + apply Forall_forall. intros c Hc. destruct (is_deflate c) eqn:Hd; [|by destruct c]. rewrite Forall_forall in K5. auto.
    + rewrite N2, Hl. intros k b Hk. destruct k as [|[|k]]; [lia| |lia]. apply squash_second.
  - exists ps. rewrite E. by split.
Qed.


End Roundtrip.

(** ** A suffix sort *)

Fixpoint lex_leb (a b : list Z) : bool :=
  match a, b with
  | [], _ => true
  | _ :: _, [] => false
  | x :: a, y :: b => (x <? y) || ((x =? y) && lex_leb a b)
  end.

Lemma lex_leb_total a b : lex_leb a b = true \/ lex_leb b a = true.
Proof.
  revert b. induction a as [|x a IH]; intros [|y b]; cbn; auto.
  destruct (Z.ltb_spec x y), (Z.ltb_spec y x), (Z.eqb_spec x y), (Z.eqb_spec y x); cbn; auto; lia.
Qed.

Lemma lex_leb_trans a b c : lex_leb a b = true -> lex_leb b c = true -> lex_leb a c = true.
Proof.
  revert b c. induction a as [|x a IH]; intros [|y b] [|z c]; cbn; try done.
  rewrite !orb_true_iff, !andb_true_iff, !Z.ltb_lt, !Z.eqb_eq.
  intros [H1|[-> H1]] [H2|[-> H2]]; try (left; lia). right. eauto.
Qed.

Lemma lex_leb_lt a b : lex_leb a b = true -> a <> b -> lex_lt a b.
Proof.
  revert b. induction a as [|x a IH]; intros [|y b]; cbn; try done.
  rewrite orb_true_iff, andb_true_iff, Z.ltb_lt, Z.eqb_eq. intros [H|[-> H]] Hne; [by left|right].
  split; [done|]. apply IH; [done|]. congruence.
Qed.

Definition suffix_le (d : list Z) (i j : Z) : Prop := lex_leb (drop (Z.to_nat i) d) (drop (Z.to_nat j) d) = true.
#[export] Instance suffix_le_dec d i j : Decision (suffix_le d i j).
Proof. unfold suffix_le. apply _. Defined.
#[export] Instance suffix_le_total d : Total (suffix_le d).
Proof. intros i j. apply lex_leb_total. Qed.
#[export] Instance suffix_le_trans d : Transitive (suffix_le d).
Proof. intros i j k. apply lex_leb_trans. Qed.

Definition sort_suffixes (d : list Z) : list Z := merge_sort (suffix_le d) (seqZ 0 (zlen d + 1)).

Lemma StronglySorted_lookup {A} (R : A -> A -> Prop) l : StronglySorted R l -> forall i j x y,
  (i < j)%nat -> l !! i = Some x -> l !! j = Some y -> R x y.
Proof.
  induction 1 as [|a l _ IH Ha]; intros i j x y Hij Hx Hy; [done|]. destruct j as [|j]; [lia|]. destruct i as [|i]; cbn in *.
  - injection Hx as ->. rewrite Forall_forall in Ha. apply Ha. by eapply list_elem_of_lookup_2.
  - apply (IH i j); [lia|done|done].
Qed.

Lemma sort_suffixes_spec d : suffix_array (sort_suffixes d) d.
Proof.
  assert (sort_suffixes d ≡ₚ seqZ 0 (zlen d + 1)) as Hp by apply merge_sort_Permutation. split; [done|].
  intros k1 k2 i1 i2 Hk H1 H2. assert (NoDup (sort_suffixes d)) as Hnd by (rewrite Hp; apply NoDup_seqZ).
  assert (i1 ∈ seqZ 0 (zlen d + 1) /\ i2 ∈ seqZ 0 (zlen d + 1)) as [G1 G2].
  { split; rewrite <- Hp; by eapply list_elem_of_lookup_2. }
  apply elem_of_seqZ in G1, G2. assert (i1 <> i2) as Hne by (intros ->; assert (k1 = k2) by (by eapply NoDup_lookup); lia).
  apply lex_leb_lt.
  - by eapply (StronglySorted_lookup (suffix_le d) (sort_suffixes d)); [apply StronglySorted_merge_sort; apply _|..].
  - intros E. apply (f_equal length) in E. rewrite !length_drop in E. lia.
Qed.

(** ** A codec

    A stream is its length, less than 128, and the data; 128 may be added to the
    length, which the encoder never does. *)
Definition frame_zlib (u : list Z) : list Z := zlen u :: u.

#[export] Instance framed_zlib : ZLib := {|
  inflateInit2 := Z_OK;
  inflate input n :=
    match input with
    | k :: rest => if (k mod 128 <=? n) && (k mod 128 <=? zlen rest) then (Z_STREAM_END, take (Z.to_nat (k mod 128)) rest) else (-3, [])
    | [] => (-3, [])
    end;
  z_stream := list Z;
  deflateInit2 _ _ _ _ _ u := frame_zlib u;
  deflate s n := if zlen s <=? n then (Z_STREAM_END, s, []) else (Z_OK, take (Z.to_nat n) s, drop (Z.to_nat n) s)
|}.

#[export] Instance framed_zlib_spec : ZSpec framed_zlib.
Proof.
  refine {| z_yields := fun (s : @z_stream framed_zlib) out => s = out |}.
  intros s out n -> Hn. cbn. destruct (Z.leb_spec (zlen out) n).
  - exists Z_STREAM_END, (length out), []. rewrite firstn_all. auto.
  - exists Z_OK, (Z.to_nat n), (drop (Z.to_nat n) out). split; [done|]. split; [lia|]. right. split_and!; auto. lia.
Defined.

#[export] Instance framed_inflate : ZInflate := {|
  z_istream := list Z * Z;
  inflate_open input := match input with k :: rest => (take (Z.to_nat (k mod 128)) rest, zlen rest - k mod 128) | [] => ([], 0) end;
  inflate_more s n := if zlen s.1 <=? n then (Z_STREAM_END, s.1, s.2, ([], s.2))
                      else (Z_OK, take (Z.to_nat n) s.1, -1, (drop (Z.to_nat n) s.1, s.2))
|}.

Lemma frame_length c u : zlen u < 128 -> c = frame_zlib u \/ c = (zlen u + 128) :: u ->
  exists k, c = k :: u /\ k mod 128 = zlen u.
Proof.
  intros Hu [->| ->]; eexists; (split; [done|]); [by rewrite Z.mod_small by lia|].
  rewrite <- (Z.mod_small (zlen u) 128) at 2 by lia. rewrite <- (Z.mod_add (zlen u) 1 128) by lia. f_equal.
Qed.

#[export] Instance framed_stream : ZStream framed_zlib_spec framed_inflate.
Proof.
  refine {| deflates := fun c u => zlen u < 128 /\ (c = frame_zlib u \/ c = (zlen u + 128) :: u);
            i_left := fun (s : @z_istream framed_inflate) u a => s = (u, a);
            deflated := fun _ u => frame_zlib u |}.
  - intros c u rest [Hu Hc]. destruct (frame_length c u Hu Hc) as (k & -> & Hk).
    cbn [app inflate_open framed_inflate]. rewrite Hk, Nat2Z.id, take_app_length, length_app. f_equal. lia.
  - intros s u a n -> Hn. cbn. destruct (Z.leb_spec (zlen u) n).
    + exists Z_STREAM_END, (length u), a, ([], a). rewrite firstn_all. split_and!; auto; lia.
    + exists Z_OK, (Z.to_nat n), (-1), (drop (Z.to_nat n) u, a). split; [done|]. split; [lia|]. split; [lia|]. right. split_and!; auto. lia.
  - intros c u n [Hu Hc] Hn. destruct (frame_length c u Hu Hc) as (k & -> & Hk).
    cbn [inflate framed_zlib]. rewrite Hk, !(proj2 (Z.leb_le _ _)), Nat2Z.id, firstn_all by lia. done.
  - done.
Defined.

(** ** Two images *)

Lemma no_magic_check p rest : forallb (fun k => negb (magic_at (p ++ rest) k)) (seqZ 0 (zlen p)) = true -> no_magic p rest.
Proof.
  rewrite List.forallb_forall. intros H k Hk. apply negb_true_iff, H, list_elem_of_In, elem_of_seqZ. lia.
Qed.

Definition gzip_head : list Z := [31; 139; 8; 0; 0; 0; 0; 0; 0; 3].
Definition member (c u tail : list Z) : gz := mkGz gzip_head c u ([1; 2; 3; 4] ++ le_encode 4 (zlen u)) tail.

Lemma wf_member c u tail : deflates c u -> bytes u -> wf_gz (member c u tail).
Proof.
  intros Hc Hu. split; try done; [by exists [1; 2; 3; 4]|]. cbn. destruct Hc. lia.
Qed.

(** A kernel and a ramdisk; the new ramdisk was not made by this encoder. *)
Definition old_lead : list Z := replicate 200 65.
Definition new_lead : list Z := replicate 199 65 ++ [66].
Definition old_members : list gz := [member (frame_zlib [10; 20]) [10; 20] [5]; member (frame_zlib [7; 7]) [7; 7] []].
Definition new_members : list gz := [member (frame_zlib [10; 21; 30]) [10; 21; 30] [6]; member (130 :: [7; 8]) [7; 8] []].

Ltac no_magic_tac := apply no_magic_check; vm_compute; reflexivity.

Lemma old_wf : wf_image old_lead old_members.
Proof.
  split; [no_magic_tac|]. unfold old_members. cbn [wf_gzs].
  split_and!; [apply wf_member; [split; [by vm_compute|by left]|by_decide]|no_magic_tac
              |apply wf_member; [split; [by vm_compute|by left]|by_decide]|no_magic_tac|done].
Qed.

Lemma new_wf : wf_image new_lead new_members.
Proof.
  split; [no_magic_tac|]. unfold new_members. cbn [wf_gzs].
  split_and!; [apply wf_member; [split; [by vm_compute|by left]|by_decide]|no_magic_tac
              |apply wf_member; [split; [by vm_compute|by right]|by_decide]|no_magic_tac|done].
Qed.

Lemma sample_diffable : diffable 300 (Some [9]) old_lead new_lead old_members new_members.
Proof.
  split.
  - apply old_wf.
  - apply new_wf.
  - done.
  - by left.
  - by left.
  - by_decide.
  - by_decide.
  - by_decide.
  - by vm_compute.
  - by vm_compute.
  - by vm_compute.
  - repeat constructor; by_decide.
  - repeat constructor; by_decide.
  - repeat constructor; vm_compute; lia || (intros; by vm_compute).
Qed.


(** The patch of the two sample images: the codec here does not compress, so the
    leading bytes travel raw; the kernel is patched inflated; the ramdisk, which
    no deflate level rebuilds, became a part of the last normal chunk. *)
Example sample_patch :
  match imgdiff (B := framed_bz) (Zl := framed_zlib) (ZI := framed_inflate) sort_suffixes (fun _ => true) 300
          (image old_lead old_members) (image new_lead new_members) (Some [9]) with
  | Done (inr patch) =>
      match ApplyImagePatch (B := framed_bz) (Zl := framed_zlib) (fun _ => true) (fun d t => (zlen d, t ++ d)) 300
              (image old_lead old_members) patch [] [] (Some [9]) with
      | Done (0, out, _) => bool_decide (out = image new_lead new_members) && bool_decide (take 16 patch = imgdiff_magic ++ le_encode 4 3 ++ le_encode 4 CHUNK_RAW) &&
                          bool_decide (take 4 (drop 230 patch) = le_encode 4 CHUNK_DEFLATE)
      | _ => false
      end
  | _ => false
  end = true.
Proof. vm_compute. reflexivity. Qed.

(** ** Where it goes wrong *)

(** An image that ends in 1f 8b 08: the zero bytes behind it complete a gzip
    header, but there are not four bytes left to take it for one, so the scan for
    the next header stops where it begins, for ever. *)
Theorem ReadImage_hangs {ZI : ZInflate} fuel pre n : read_image n fuel (pre ++ [31; 139; 8]) (zlen pre) = Diverge.
Proof.
  assert (magic_at (pre ++ [31; 139; 8]) (zlen pre) = true) as Hm.
  { replace (zlen pre) with (zlen pre + 0) by lia. rewrite magic_at_app by lia. by vm_compute. }
  induction n as [|n IH]; cbn [read_image]; rewrite (proj2 (Z.leb_gt _ _)) by (rewrite length_app; cbn; lia); [done|].
  replace (4 <=? zlen (pre ++ [31; 139; 8]) - zlen pre) with false by (symmetry; apply Z.leb_gt; rewrite length_app; cbn; lia).
  cbn [andb]. cbv zeta. replace (Z.to_nat (zlen (pre ++ [31; 139; 8]) - zlen pre)) with 3%nat by (rewrite length_app; cbn; lia).
  cbn [plain_len]. rewrite Z.add_0_r, Hm. by rewrite Z.add_0_r, IH.
Qed.
