(* ===== verification/Run.v ===== *)
(** * Programs that act on a disk

    A program takes a disk, the state of the other devices and an oracle, and
    leaves them changed.  Every call that can fail or fall short asks the
    oracle, a stream of answers, so a theorem about any oracle is one about any
    behaviour of the system; a negative answer is the call's failure.  Every
    change of the disk appends the new disk to a log: what is in the log is
    what a reboot at some moment can find. *)
From S2P Require Import Prelude.

Section Run.
  (** What a disk holds, and the state of devices that are not on it. *)
  Context {Disk Dev : Type}.

Record world := mkWorld {
  w_fs : Disk;
  w_dev : Dev;
  w_answers : nat -> Z;
  w_asked : nat;
  w_log : list Disk
}.

(** A program: its outcome and the world it leaves, also when it does not
    return normally. *)
Definition W (A : Type) : Type := world -> outcome A * world.

Definition wret {A} (a : A) : W A := fun w => (Done a, w).
Definition wbind {A B} (m : W A) (k : A -> W B) : W B := fun w =>
  match m w with
  | (Done a, w) => k a w
  | (Fail c, w) => (Fail c, w)
  | (Undef, w) => (Undef, w)
  | (Diverge, w) => (Diverge, w)
  end.

(** A computation without effects. *)
Definition wlift {A} (o : outcome A) : W A := fun w => (o, w).

Definition ask : W Z := fun w =>
  (Done (w_answers w (w_asked w)),
   mkWorld (w_fs w) (w_dev w) (w_answers w) (S (w_asked w)) (w_log w)).

Definition get_fs : W Disk := fun w => (Done (w_fs w), w).

(** A change of the disk. *)
Definition set_fs (fs : Disk) : W unit := fun w =>
  (Done tt, mkWorld fs (w_dev w) (w_answers w) (w_asked w) (w_log w ++ [fs])).

Definition get_dev : W Dev := fun w => (Done (w_dev w), w).
Definition set_dev (d : Dev) : W unit := fun w =>
  (Done tt, mkWorld (w_fs w) d (w_answers w) (w_asked w) (w_log w)).

End Run.
Arguments world : clear implicits.
Arguments W : clear implicits.

Notation "'let!' x := m 'in' k" := (wbind m (fun x => k))
  (at level 10, x pattern, m at level 100, k at level 200).

Section Reasoning.
  Context {Disk Dev : Type}.
  Abbreviation W := (W Disk Dev).
  Abbreviation world := (world Disk Dev).

(** ** Reasoning about programs

    [triple I pre m post]: from a disk in [pre], every disk that [m] goes
    through satisfies [I], and if [m] returns, its result and the disk satisfy
    [post]. *)
Definition triple {A} (I : Disk -> Prop) (pre : Disk -> Prop) (m : W A) (post : A -> Disk -> Prop)
  : Prop :=
  forall w, pre (w_fs w) ->
    (exists l, w_log (m w).2 = w_log w ++ l /\ Forall I l) /\
    (forall a, (m w).1 = Done a -> post a (w_fs (m w).2)).

Context {I : Disk -> Prop}.

Lemma triple_ret {A} (a : A) (pre : Disk -> Prop) (post : A -> Disk -> Prop) :
  (forall fs, pre fs -> post a fs) -> triple I pre (wret a) post.
Proof.
  intros H w Hw. split; [exists []; by rewrite app_nil_r|]. cbn. intros a' [= <-]. auto.
Qed.

Lemma triple_bind {A B} pre (m : W A) mid (k : A -> W B) post :
  triple I pre m mid -> (forall a, triple I (mid a) (k a) post) -> triple I pre (wbind m k) post.
Proof.
  intros Hm Hk w Hw. destruct (Hm w Hw) as [(l & Hl & HI) Hmid]. unfold wbind.
  destruct (m w) as [r w1]. cbn [fst snd] in *.
  destruct r as [a|c| |]; try (split; [by exists l|]; cbn; discriminate).
  destruct (Hk a w1) as [(l2 & Hl2 & HI2) Hpost]; [auto|]. split; [|done].
  exists (l ++ l2). rewrite Hl2, Hl, app_assoc. split; [done|]. by apply Forall_app.
Qed.

Lemma triple_weaken {A} (pre pre' : Disk -> Prop) (m : W A) (post post' : A -> Disk -> Prop) :
  triple I pre' m post' -> (forall fs, pre fs -> pre' fs) ->
  (forall a fs, post' a fs -> post a fs) -> triple I pre m post.
Proof. intros Hm H1 H2 w Hw. destruct (Hm w (H1 _ Hw)) as [Hl Hp]. split; [done|]. auto. Qed.

(** A call that leaves the disk alone. *)
Definition readonly {A} (m : W A) : Prop :=
  forall w, w_fs (m w).2 = w_fs w /\ w_log (m w).2 = w_log w.

Lemma triple_readonly {A} pre (m : W A) : readonly m -> triple I pre m (fun _ => pre).
Proof.
  intros Hm w Hw. destruct (Hm w) as [Hf Hl]. split.
  - exists []. rewrite app_nil_r. by split.
  - intros a _. by rewrite Hf.
Qed.

Lemma readonly_ret {A} (a : A) : readonly (wret a).
Proof. by intros w. Qed.

Lemma readonly_ask : readonly ask.
Proof. by intros w. Qed.

Lemma readonly_get_fs : readonly get_fs.
Proof. by intros w. Qed.

Lemma readonly_lift {A} (o : outcome A) : readonly (wlift o).
Proof. by intros w. Qed.

Lemma readonly_bind {A B} (m : W A) (k : A -> W B) :
  readonly m -> (forall a, readonly (k a)) -> readonly (wbind m k).
Proof.
  intros Hm Hk w. unfold wbind. destruct (Hm w) as [H1 H2]. destruct (m w) as [r w1].
  cbn [fst snd] in *. destruct r as [a|c| |]; auto. destruct (Hk a w1) as [H3 H4]. by rewrite H3, H4.
Qed.

(** A change of the disk that keeps the invariant. *)
Lemma triple_set_fs (pre : Disk -> Prop) (fs' : Disk) (post : unit -> Disk -> Prop) :
  (forall fs, pre fs -> I fs' /\ post tt fs') -> triple I pre (set_fs fs') post.
Proof.
  intros H w Hw. destruct (H _ Hw) as [HI HP]. split; [exists [fs']; cbn; by split; [|repeat constructor]|].
  cbn. by intros [] _.
Qed.

(** ** Partial and total correctness of one run

    [post m w Q]: if [m] returns from [w], its result and world satisfy [Q]. *)
Definition post {A} (m : W A) (w : world) (Q : A -> world -> Prop) : Prop :=
  forall a w', m w = (Done a, w') -> Q a w'.

Lemma post_bind {A B} (m : W A) (k : A -> W B) w Q :
  post m w (fun a w' => post (k a) w' Q) -> post (wbind m k) w Q.
Proof.
  intros H b w'. unfold wbind. destruct (m w) as [o w1] eqn:E.
  destruct o as [a|c| |]; try discriminate. by apply (H a).
Qed.

Lemma post_ret {A} (a : A) w (Q : A -> world -> Prop) : Q a w -> post (wret a) w Q.
Proof. by intros H a' w' [= <- <-]. Qed.

Lemma post_lift {A} (o : outcome A) w (Q : A -> world -> Prop) :
  (forall a, o = Done a -> Q a w) -> post (wlift o) w Q.
Proof. intros H a w'. unfold wlift. intros [= -> <-]. by apply H. Qed.

Lemma post_ask w (Q : Z -> world -> Prop) :
  (forall a w', w_fs w' = w_fs w -> Q a w') -> post ask w Q.
Proof. by intros H a w' [= <- <-]; apply H. Qed.

(** A run in which no call fails. *)
Definition calm (w : world) : Prop := forall n, 0 <= w_answers w n.

Lemma calm_same (w w' : world) : w_answers w' = w_answers w -> calm w -> calm w'.
Proof. unfold calm. by intros ->. Qed.

(** A run in which every call gets somewhere: no [write] returns 0 either. *)
Definition eager (w : world) : Prop := forall n, 0 < w_answers w n.

Lemma eager_same (w w' : world) : w_answers w' = w_answers w -> eager w -> eager w'.
Proof. unfold eager. by intros ->. Qed.

Lemma eager_calm (w : world) : eager w -> calm w.
Proof. intros H n. specialize (H n). lia. Qed.

(** [m] returns [a] and leaves the disk alone, in a calm run. *)
Definition returns {A} (m : W A) (w : world) (a : A) : Prop :=
  exists w', m w = (Done a, w') /\ w_fs w' = w_fs w /\ calm w'.

Lemma returns_bind {A B} (m : W A) (k : A -> W B) w a b :
  returns m w a -> (forall w', w_fs w' = w_fs w -> calm w' -> returns (k a) w' b) ->
  returns (wbind m k) w b.
Proof.
  intros (w1 & E & Hf & Hc) Hk. destruct (Hk w1 Hf Hc) as (w2 & E2 & Hf2 & Hc2).
  exists w2. unfold wbind. rewrite E. split_and!; [done|congruence|done].
Qed.

Lemma returns_ret {A} (a : A) w : calm w -> returns (wret a) w a.
Proof. intros H. by exists w. Qed.

Lemma returns_lift {A} (o : outcome A) a w : calm w -> o = Done a -> returns (wlift o) w a.
Proof. intros H ->. by exists w. Qed.

Lemma returns_ask w : calm w -> exists a, 0 <= a /\ returns ask w a.
Proof. intros H. eexists. split; [apply (H (w_asked w))|]. by eexists. Qed.

End Reasoning.

Section Total.
  Context {Disk Dev : Type}.
  Abbreviation W := (W Disk Dev).
  Abbreviation world := (world Disk Dev).

(** ** Total correctness with a crash invariant

    [wp I m w Q]: started in [w], [m] returns, every disk it goes through
    satisfies [I], and its result and the world it leaves satisfy [Q]. *)
Definition wp {A} (I : Disk -> Prop) (m : W A) (w : world) (Q : A -> world -> Prop) : Prop :=
  exists a w' l, m w = (Done a, w') /\ w_log w' = w_log w ++ l /\ Forall I l /\ Q a w'.

(** The world after one question, and after a change of the disk. *)
Definition asked (w : world) : world :=
  mkWorld (w_fs w) (w_dev w) (w_answers w) (S (w_asked w)) (w_log w).
Definition changed (fs : Disk) (w : world) : world :=
  mkWorld fs (w_dev w) (w_answers w) (w_asked w) (w_log w ++ [fs]).

Lemma wp_bind {A B} I (m : W A) (k : A -> W B) w Q :
  wp I m w (fun a w' => wp I (k a) w' Q) -> wp I (wbind m k) w Q.
Proof.
  intros (a & w1 & l1 & E1 & L1 & F1 & b & w2 & l2 & E2 & L2 & F2 & H).
  exists b, w2, (l1 ++ l2). unfold wbind. rewrite E1. split_and!; [done| |by apply Forall_app|done].
  by rewrite L2, L1, app_assoc.
Qed.

Lemma wp_mono {A} (I J : Disk -> Prop) (m : W A) w (Q R : A -> world -> Prop) :
  wp I m w Q -> (forall fs, I fs -> J fs) -> (forall a w', Q a w' -> R a w') -> wp J m w R.
Proof.
  intros (a & w' & l & E & L & F & H) HI HQ. exists a, w', l. split_and!; [done|done| |auto].
  by eapply Forall_impl.
Qed.

Lemma wp_ret {A} I (a : A) w (Q : A -> world -> Prop) : Q a w -> wp I (wret a) w Q.
Proof. intros H. exists a, w, []. by rewrite app_nil_r. Qed.

Lemma wp_lift {A} I (o : outcome A) a w (Q : A -> world -> Prop) : o = Done a -> Q a w -> wp I (wlift o) w Q.
Proof. intros -> H. exists a, w, []. by rewrite app_nil_r. Qed.

Lemma wp_ask I w (Q : Z -> world -> Prop) : Q (w_answers w (w_asked w)) (asked w) -> wp I ask w Q.
Proof. intros H. eexists _, _, []. rewrite app_nil_r. by split_and!. Qed.

Lemma wp_get_fs I w (Q : Disk -> world -> Prop) : Q (w_fs w) w -> wp I get_fs w Q.
Proof. intros H. exists (w_fs w), w, []. by rewrite app_nil_r. Qed.

Lemma wp_set_fs (I : Disk -> Prop) fs w (Q : unit -> world -> Prop) :
  I fs -> Q tt (changed fs w) -> wp I (set_fs fs) w Q.
Proof. intros HI H. exists tt, (changed fs w), [fs]. by split_and!; [| |constructor|]. Qed.

(** A run is one run. *)
Lemma wp_and {A} (I J : Disk -> Prop) (m : W A) w (Q R : A -> world -> Prop) :
  wp I m w Q -> wp J m w R -> wp I m w (fun a w' => Q a w' /\ R a w').
Proof.
  intros (a & w' & l & E & L & F & H) (a' & w2 & l' & E' & _ & _ & H'). rewrite E in E'. injection E' as <- <-.
  by exists a, w', l.
Qed.

Lemma wp_post {A} I (m : W A) w (Q : A -> world -> Prop) : wp I m w Q -> post m w Q.
Proof. by intros (a & w' & l & E & _ & _ & H) b w2; rewrite E; intros [= <- <-]. Qed.

End Total.

#[export] Hint Resolve readonly_ret readonly_ask readonly_get_fs readonly_lift readonly_bind : recovery.

(** Runs the program up to the next test of it. *)
Ltac wp_step :=
  match goal with
  | |- wp _ (wbind _ _) _ _ => apply wp_bind
  | |- wp _ ask _ _ => apply wp_ask
  | |- wp _ get_fs _ _ => apply wp_get_fs
  | |- wp _ (wret _) _ _ => apply wp_ret
  | |- wp _ (let _ := _ in _) _ _ => cbv zeta
  | |- wp _ (if ?b then _ else _) _ _ => destruct b eqn:?
  end.
