(* ===== verification/Posix.v ===== *)
(** * Directories, files and symbolic links

    The tree of a file system, the way the kernel resolves paths in it, and the
    calls the sources make on it.  A path is a C string as its bytes; a node is
    kept under the names on the way to it from the root, which is where relative
    paths start too.  A call that fails for a reason outside the tree reports
    EIO; the time of a node is [None] when no [utime] set it. *)
From S2P Require Import Prelude.
From S2P Require Import Run.
Export Run.
From Stdlib Require Import Ascii.

(** Names are countable as lists are. *)
#[export] Remove Hints finite.finite_countable : typeclass_instances.

Abbreviation name := (list Z).
Abbreviation path := (list name).

(** A string constant of the source as its bytes. *)
Fixpoint str (s : string) : list Z :=
  match s with
  | EmptyString => []
  | String c s => Z.of_N (N_of_ascii c) :: str s
  end.

Definition SLASH : Z := 47.
Definition DOT : name := [46].
Definition DOTDOT : name := [46; 46].

Inductive kind : Type :=
  | KFile (data : list Z)
  | KBlock (data : list Z)
  | KDir
  | KLink (target : list Z).

Record inode := mkInode { i_kind : kind; i_mode : Z; i_uid : Z; i_gid : Z; i_time : option Z }.

Abbreviation tree := (gmap path inode).

#[export] Instance kind_eq_dec : EqDecision kind.
Proof. solve_decision. Defined.
#[export] Instance inode_eq_dec : EqDecision inode.
Proof. solve_decision. Defined.

Definition ENOENT : Z := 2.
Definition EIO : Z := 5.
Definition EEXIST : Z := 17.
Definition ENOTDIR : Z := 20.
Definition EISDIR : Z := 21.
Definition ENAMETOOLONG : Z := 36.
Definition ENOTEMPTY : Z := 39.
Definition ELOOP : Z := 40.
Definition EBUSY : Z := 16.
Definition EINVAL : Z := 22.
Definition PATH_MAX : Z := 4096.

(** ** Paths *)

(** The pieces between the slashes. *)
Fixpoint pieces (s : list Z) : list name :=
  match s with
  | [] => [[]]
  | c :: s =>
      if c =? SLASH then [] :: pieces s
      else match pieces s with
        | [] => [[c]]
        | p :: ps => (c :: p) :: ps
        end
  end.

Definition nonempty (p : name) : bool := match p with [] => false | _ => true end.

(** The names to walk through; a slash at the end asks for a directory, as a
    last name [.] does. *)
Definition components (s : list Z) : list name :=
  filter (fun p => nonempty p = true) (pieces s) ++
  (if last (pieces s) is Some [] then [DOT] else []).

Inductive resolved : Type :=
  | Found (p : path)
  | Absent (dir : path) (c : name)
  | Err (errno : Z).

Definition is_dir (i : inode) : bool := match i_kind i with KDir => true | _ => false end.
Definition is_link (i : inode) : bool := match i_kind i with KLink _ => true | _ => false end.

(** [walk links follow fs cwd todo]: the names [todo] from the directory [cwd];
    [links] links may be followed, the last name is followed if [follow]. *)
Fixpoint walk (links : nat) (follow : bool) (fs : tree) : path -> list name -> resolved :=
  fix go (cwd : path) (todo : list name) : resolved :=
    match todo with
    | [] => Found cwd
    | c :: rest =>
        match fs !! cwd with
        | None => Err ENOENT
        | Some i =>
            if negb (is_dir i) then Err ENOTDIR
            else if bool_decide (c = DOT) then go cwd rest
            else if bool_decide (c = DOTDOT) then go (take (length cwd - 1) cwd) rest
            else match fs !! (cwd ++ [c]) with
            | None => match rest with [] => Absent cwd c | _ => Err ENOENT end
            | Some i =>
                match i_kind i with
                | KLink target =>
                    match rest, follow with
                    | [], false => Found (cwd ++ [c])
                    | _, _ =>
                        match links, target with
                        | O, _ => Err ELOOP
                        | _, [] => Err ENOENT
                        | S links, x :: _ =>
                            walk links follow fs (if x =? SLASH then [] else cwd)
                              (components target ++ rest)
                        end
                    end
                | _ => go (cwd ++ [c]) rest
                end
            end
        end
    end.

(** The kernel's lookup of a path. *)
Definition resolve (follow : bool) (fs : tree) (s : list Z) : resolved :=
  if PATH_MAX <=? zlen s then Err ENAMETOOLONG
  else match s with [] => Err ENOENT | _ => walk 40 follow fs [] (components s) end.

(** The names in a directory. *)
Definition children (fs : tree) (p : path) : list name :=
  omap (fun q => match last q with
                 | Some c => if bool_decide (q = p ++ [c]) then Some c else None
                 | None => None
                 end) (elements (dom fs)).

(** The order in which [readdir] lists them is the file system's. *)
Class DirOrder := {
  dir_order : list name -> list name;
  dir_order_perm l : dir_order l ≡ₚ l
}.

(** ** Calls *)

Section Calls.
  Context {Dev : Type}.
  Abbreviation W := (W tree Dev).

(** Runs [f] unless the call fails for a reason outside the tree. *)
Definition syscall {A} (fault : A) (f : tree -> W A) : W A :=
  let! a := ask in
  let! fs := get_fs in
  if a <? 0 then wret fault else f fs.

(** [stat] and [lstat]: [inl] the node, [inr] errno. *)
Definition sys_stat_at (follow : bool) (s : list Z) : W (inode + Z) :=
  syscall (inr EIO) (fun fs =>
    wret match resolve follow fs s with
         | Found p => match fs !! p with Some i => inl i | None => inr ENOENT end
         | Absent _ _ => inr ENOENT
         | Err e => inr e
         end).

Definition sys_stat : list Z -> W (inode + Z) := sys_stat_at true.
Definition sys_lstat : list Z -> W (inode + Z) := sys_stat_at false.

(** The calls below return 0 or errno. *)

(** A new node under a name that is not there. *)
Definition sys_make (s : list Z) (i : inode) : W Z :=
  syscall EIO (fun fs =>
    match resolve false fs s with
    | Absent dir c => let! _ := set_fs (<[dir ++ [c] := i]> fs) in wret 0
    | Found _ => wret EEXIST
    | Err e => wret e
    end).

Definition new_inode (k : kind) (mode : Z) : inode := mkInode k mode 0 0 None.

Definition sys_mkdir (s : list Z) (mode : Z) : W Z := sys_make s (new_inode KDir mode).
Definition sys_symlink (target s : list Z) : W Z := sys_make s (new_inode (KLink target) 511).

(** A change of the node a path leads to. *)
Definition sys_change (s : list Z) (g : inode -> inode) : W Z :=
  syscall EIO (fun fs =>
    match resolve true fs s with
    | Found p => match fs !! p with
        | Some i => let! _ := set_fs (<[p := g i]> fs) in wret 0
        | None => wret ENOENT
        end
    | Absent _ _ => wret ENOENT
    | Err e => wret e
    end).

Definition with_mode (mode : Z) (i : inode) : inode :=
  mkInode (i_kind i) mode (i_uid i) (i_gid i) (i_time i).
Definition with_owner (uid gid : Z) (i : inode) : inode :=
  mkInode (i_kind i) (i_mode i) uid gid (i_time i).
Definition with_time (t : Z) (i : inode) : inode :=
  mkInode (i_kind i) (i_mode i) (i_uid i) (i_gid i) (Some t).

Definition sys_chmod (s : list Z) (mode : Z) : W Z := sys_change s (with_mode mode).
Definition sys_chown (s : list Z) (uid gid : Z) : W Z := sys_change s (with_owner uid gid).
Definition sys_utime (s : list Z) (t : Z) : W Z := sys_change s (with_time t).

(** [creat]: [inl] the file the descriptor is open on, [inr] errno.  A device
    node is outside of what the sources use it for. *)
Definition sys_creat (s : list Z) (mode : Z) : W (path + Z) :=
  syscall (inr EIO) (fun fs =>
    match resolve true fs s with
    | Found p => match fs !! p with
        | Some i => match i_kind i with
            | KFile _ =>
                let! _ := set_fs (<[p := mkInode (KFile []) (i_mode i) (i_uid i) (i_gid i) None]> fs) in
                wret (inl p)
            | KBlock _ => wlift Undef
            | _ => wret (inr EISDIR)
            end
        | None => wret (inr ENOENT)
        end
    | Absent dir c =>
        let! _ := set_fs (<[dir ++ [c] := new_inode (KFile []) mode]> fs) in wret (inl (dir ++ [c]))
    | Err e => wret (inr e)
    end).

(** [write] at the end of an open file: the return value. *)
Definition sys_write (p : path) (data : list Z) : W Z :=
  let! a := ask in
  if a <=? 0 then wret a
  else
    let n := Z.min a (zlen data) in
    let! fs := get_fs in
    match fs !! p with
    | Some (mkInode (KFile old) mode uid gid _) =>
        let! _ := set_fs (<[p := mkInode (KFile (old ++ take (Z.to_nat n) data)) mode uid gid None]> fs) in
        wret n
    | _ => wret n
    end.

Definition sys_unlink (s : list Z) : W Z :=
  syscall EIO (fun fs =>
    match resolve false fs s with
    | Found p => match fs !! p with
        | Some i => if is_dir i then wret EISDIR else let! _ := set_fs (delete p fs) in wret 0
        | None => wret ENOENT
        end
    | Absent _ _ => wret ENOENT
    | Err e => wret e
    end).

Definition sys_rmdir (s : list Z) : W Z :=
  syscall EIO (fun fs =>
    match resolve false fs s with
    | Found p => match fs !! p with
        | Some i =>
            if negb (is_dir i) then wret ENOTDIR
            else match p, children fs p with
            | [], _ => wret EBUSY
            | _, _ :: _ => wret ENOTEMPTY
            | _, [] => let! _ := set_fs (delete p fs) in wret 0
            end
        | None => wret ENOENT
        end
    | Absent _ _ => wret ENOENT
    | Err e => wret e
    end).

(** [opendir] and what [readdir] will list, or errno. *)
Definition sys_opendir `{DirOrder} (s : list Z) : W (list name + Z) :=
  syscall (inr EIO) (fun fs =>
    wret match resolve true fs s with
         | Found p => match fs !! p with
             | Some i => if is_dir i then inl (DOT :: DOTDOT :: dir_order (children fs p)) else inr ENOTDIR
             | None => inr ENOENT
             end
         | Absent _ _ => inr ENOENT
         | Err e => inr e
         end).

(** [readlink] into a buffer of [n] bytes: what it puts there, or errno. *)
Definition sys_readlink (s : list Z) (n : Z) : W (list Z + Z) :=
  syscall (inr EIO) (fun fs =>
    wret match resolve false fs s with
         | Found p => match fs !! p with
             | Some (mkInode (KLink target) _ _ _ _) => inl (take (Z.to_nat n) target)
             | Some _ => inr EINVAL
             | None => inr ENOENT
             end
         | Absent _ _ => inr ENOENT
         | Err e => inr e
         end).

(** [rename] of what is not a directory; the sources rename no directory. *)
Definition sys_rename (s t : list Z) : W Z :=
  syscall EIO (fun fs =>
    match resolve false fs s with
    | Found p => match fs !! p with
        | Some i =>
            if is_dir i then wlift Undef
            else match resolve false fs t with
            | Absent dir c => let! _ := set_fs (<[dir ++ [c] := i]> (delete p fs)) in wret 0
            | Found q => match fs !! q with
                | Some j => if is_dir j then wret EISDIR else let! _ := set_fs (<[q := i]> (delete p fs)) in wret 0
                | None => wret ENOENT
                end
            | Err e => wret e
            end
        | None => wret ENOENT
        end
    | Absent _ _ => wret ENOENT
    | Err e => wret e
    end).

End Calls.
