(* ===== verification/PosixFacts.v ===== *)
(** * Facts about paths and trees

    How paths are cut into names, where a walk through a tree ends, and rules
    for the calls. *)
From S2P Require Import Prelude.
From S2P Require Import Posix.

(** ** Names of a path *)

(** The pieces that are not empty. *)
Definition names (s : list Z) : list name := filter (fun p => nonempty p = true) (pieces s).

(** A name that is neither special nor a path. *)
Definition good (c : name) : Prop := c <> [] /\ c <> DOT /\ c <> DOTDOT /\ SLASH ∉ c.

#[export] Instance good_dec c : Decision (good c).
Proof. unfold good. apply _. Defined.

Lemma pieces_ne s : exists p ps, pieces s = p :: ps.
Proof.
  destruct s as [|c s]; [by eexists _, _|]. cbn [pieces]. destruct (c =? SLASH); [by eexists _, _|].
  destruct (pieces s); by eexists _, _.
Qed.

Lemma pieces_app s t : pieces (s ++ SLASH :: t) = pieces s ++ pieces t.
Proof.
  induction s as [|c s IH]; [done|]. cbn [pieces app]. destruct (c =? SLASH); [by rewrite IH|].
  rewrite IH. destruct (pieces_ne s) as (p & ps & ->). done.
Qed.

Lemma pieces_name c : SLASH ∉ c -> pieces c = [c].
Proof.
  induction c as [|x c IH]; intros Hc; [done|]. cbn [pieces].
  rewrite (proj2 (Z.eqb_neq x SLASH)) by (intros ->; apply Hc; left). rewrite IH; [done|]. by intros H; apply Hc; right.
Qed.

Lemma names_app s t : names (s ++ SLASH :: t) = names s ++ names t.
Proof. unfold names. by rewrite pieces_app, filter_app. Qed.

Lemma names_slash t : names (SLASH :: t) = names t.
Proof. apply (names_app [] t). Qed.

Lemma names_slashes s sl : Forall (fun x => x = SLASH) sl -> names (s ++ sl) = names s.
Proof.
  intros H. revert s. induction H as [|x sl -> H IH]; intros s; [by rewrite app_nil_r|].
  rewrite names_app. pose proof (IH []) as E. cbn [app] in E. rewrite E. by rewrite app_nil_r.
Qed.

Lemma components_name c : good c -> components c = [c].
Proof.
  intros (Hne & _ & _ & Hs). unfold components. rewrite pieces_name by done. destruct c as [|x c]; [done|].
  done.
Qed.

Lemma names_name c : c <> [] -> SLASH ∉ c -> names c = [c].
Proof. intros Hne Hs. unfold names. rewrite pieces_name by done. by destruct c. Qed.

Lemma names_level seen sl c :
  (seen = [] \/ sl <> []) -> Forall (fun x => x = SLASH) sl -> c <> [] -> SLASH ∉ c ->
  names (seen ++ sl ++ c) = names seen ++ [c].
Proof.
  intros Hor Hsl Hne Hs. destruct sl as [|x sl _] using rev_ind.
  - destruct Hor as [->|[]]; [|done]. by apply names_name.
  - apply Forall_app in Hsl as [Hsl Hx]. inversion Hx; subst.
    rewrite <- app_assoc. cbn [app]. rewrite app_assoc, names_app, (names_name c) by done. by rewrite names_slashes.
Qed.

(** The names of a path that ends in a good one. *)
Lemma components_snoc s c : good c -> components (s ++ SLASH :: c) = names s ++ [c].
Proof.
  intros Hg. pose proof Hg as (Hne & _ & _ & Hs). unfold components. rewrite pieces_app, (pieces_name c) by done.
  rewrite last_snoc, filter_app. destruct c as [|x c]; [done|]. by rewrite app_nil_r.
Qed.

Lemma components_level seen sl c :
  (seen = [] \/ sl <> []) -> Forall (fun x => x = SLASH) sl -> good c ->
  components (seen ++ sl ++ c) = names seen ++ [c].
Proof.
  intros Hor Hsl Hc. destruct sl as [|x sl'] using rev_ind.
  - destruct Hor as [->|[]]; [|done]. by apply components_name.
  - apply Forall_app in Hsl as [Hsl Hx]. inversion Hx; subst.
    rewrite <- app_assoc. cbn [app]. rewrite app_assoc, components_snoc by done. by rewrite names_slashes.
Qed.

(** A slash at the end asks for a directory. *)
Lemma components_slash s c sl :
  components s = c -> last (pieces s) <> Some [] -> sl <> [] -> Forall (fun x => x = SLASH) sl ->
  components (s ++ sl) = c ++ [DOT].
Proof.
  intros <- Hlast Hne Hsl. unfold components at 2.
  replace (match last (pieces s) with Some [] => [DOT] | _ => [] end) with (@nil name)
    by (destruct (last (pieces s)) as [[|]|]; done).
  rewrite app_nil_r. destruct sl as [|x sl _] using rev_ind; [done|].
  apply Forall_app in Hsl as [Hsl Hx]. inversion Hx; subst. rewrite app_assoc. unfold components.
  rewrite pieces_app. cbn [pieces]. rewrite last_snoc. f_equal. rewrite filter_app. cbn. rewrite app_nil_r.
  by apply (names_slashes s).
Qed.

Lemma components_slashes sl : sl <> [] -> Forall (fun x => x = SLASH) sl -> components sl = [DOT].
Proof.
  intros Hne Hsl. destruct sl as [|x sl _] using rev_ind; [done|].
  apply Forall_app in Hsl as [Hsl Hx]. inversion Hx; subst. unfold components.
  rewrite pieces_app. cbn [pieces]. rewrite last_snoc, filter_app.
  pose proof (names_slashes [] sl Hsl) as E. unfold names in E. cbn [app] in E. by rewrite E.
Qed.

(** ** Walks *)

Definition isdir (fs : tree) (p : path) : Prop := exists i, fs !! p = Some i /\ is_dir i = true.

#[export] Instance isdir_dec fs p : Decision (isdir fs p).
Proof.
  destruct (fs !! p) as [i|] eqn:E; [destruct (is_dir i) eqn:D|].
  - left. by exists i.
  - right. intros (j & E' & D'). congruence.
  - right. intros (j & E' & D'). congruence.
Defined.

Lemma walk_eq links follow fs cwd todo :
  walk links follow fs cwd todo =
  match todo with
  | [] => Found cwd
  | c :: rest =>
      match fs !! cwd with
      | None => Err ENOENT
      | Some i =>
          if negb (is_dir i) then Err ENOTDIR
          else if bool_decide (c = DOT) then walk links follow fs cwd rest
          else if bool_decide (c = DOTDOT) then walk links follow fs (take (length cwd - 1) cwd) rest
          else match fs !! (cwd ++ [c]) with
          | None => match rest with [] => Absent cwd c | _ => Err ENOENT end
          | Some i =>
              match i_kind i with
              | KLink target =>
                  match rest, follow with
                  | [], false => Found (cwd ++ [c])
                  | _, _ =>
                      match links, target with
                      | O, _ => Err ELOOP
                      | _, [] => Err ENOENT
                      | S links, x :: _ =>
                          walk links follow fs (if x =? SLASH then [] else cwd) (components target ++ rest)
                      end
                  end
              | _ => walk links follow fs (cwd ++ [c]) rest
              end
          end
      end
  end.
Proof. destruct links, todo; reflexivity. Qed.

(** Induction on a walk: fewer names left, or fewer links. *)
Lemma walk_induction (P : nat -> path -> list name -> Prop) :
  (forall links cwd todo,
     (forall cwd' todo', (length todo' < length todo)%nat -> P links cwd' todo') ->
     (forall links' cwd' todo', (links' < links)%nat -> P links' cwd' todo') -> P links cwd todo) ->
  forall links cwd todo, P links cwd todo.
Proof.
  intros H links. induction links as [links IHl] using lt_wf_ind. intros cwd todo.
  remember (length todo) as n eqn:En. revert cwd todo En.
  induction n as [n IHn] using lt_wf_ind. intros cwd todo ->. apply H; [|eauto].
  intros cwd' todo' Hlt. by eapply IHn.
Qed.

(** A walk that arrives arrives in a larger tree too. *)
Lemma walk_mono (follow : bool) (fs fs' : tree) (p : path) : fs ⊆ fs' ->
  forall (links : nat) (cwd : path) (todo : list name), walk links follow fs cwd todo = Found p -> walk links follow fs' cwd todo = Found p.
Proof.
  intros Hsub. apply (walk_induction (fun links cwd todo => _ -> _)). intros links cwd todo IH1 IH2 H.
  rewrite walk_eq in H |- *. destruct todo as [|c rest]; [done|].
  destruct (fs !! cwd) as [i|] eqn:E; [|done]. rewrite (lookup_weaken _ _ _ _ E Hsub).
  destruct (is_dir i); cbn [negb] in *; [|done].
  case_bool_decide; [apply IH1; [cbn; lia|done]|].
  case_bool_decide; [apply IH1; [cbn; lia|done]|].
  destruct (fs !! (cwd ++ [c])) as [j|] eqn:Ej; [|by destruct rest].
  rewrite (lookup_weaken _ _ _ _ Ej Hsub). destruct (i_kind j); [apply IH1; [cbn; lia|done]..|].
  destruct rest as [|r rest], follow; try done;
    (destruct links as [|links]; [done|]; destruct target as [|x t]; [done|]; apply IH2; [lia|done]).
Qed.

(** A walk through directories that are there. *)
Lemma walk_dirs links follow fs todo : forall cwd rest,
  Forall good todo -> (forall k, (k <= length todo)%nat -> isdir fs (cwd ++ take k todo)) ->
  walk links follow fs cwd (todo ++ rest) = walk links follow fs (cwd ++ todo) rest.
Proof.
  induction todo as [|c todo IH]; intros cwd rest Hg Hd; [by rewrite app_nil_r|].
  apply Forall_cons in Hg as [(_ & H1 & H2 & _) Hg].
  destruct (Hd 0%nat) as (i & Ei & Di); [lia|]. cbn [take] in Ei. rewrite app_nil_r in Ei.
  destruct (Hd 1%nat) as (j & Ej & Dj); [cbn; lia|]. cbn [take] in Ej. rewrite take_0 in Ej.
  rewrite walk_eq. cbn [app]. rewrite Ei, Di. cbn [negb]. rewrite !bool_decide_false by done.
  rewrite Ej. unfold is_dir in Dj. destruct (i_kind j); try done.
  rewrite (IH (cwd ++ [c])); [by rewrite <- app_assoc|done|].
  intros k Hk. rewrite <- app_assoc. apply (Hd (S k)). cbn. lia.
Qed.

(** The last name, in a directory that is there. *)
Lemma walk_last links follow fs cwd c :
  good c -> isdir fs cwd ->
  walk links follow fs cwd [c] =
  match fs !! (cwd ++ [c]) with
  | None => Absent cwd c
  | Some i => if is_link i && follow then walk links follow fs cwd [c] else Found (cwd ++ [c])
  end.
Proof.
  intros (_ & H1 & H2 & _) (i & Ei & Di). destruct (fs !! (cwd ++ [c])) as [j|] eqn:Ej.
  - destruct (is_link j && follow) eqn:E; [done|]. rewrite walk_eq, Ei, Di. cbn [negb].
    rewrite !bool_decide_false, Ej by done. unfold is_link in E. rewrite walk_eq.
    destruct (i_kind j); [done..|]. by destruct follow.
  - rewrite walk_eq, Ei, Di. cbn [negb]. by rewrite !bool_decide_false, Ej.
Qed.

(** What is missing is a name in a directory that is there. *)
Lemma walk_absent follow fs d c : forall links cwd todo,
  walk links follow fs cwd todo = Absent d c -> isdir fs d /\ fs !! (d ++ [c]) = None /\ c <> DOT /\ c <> DOTDOT.
Proof.
  apply (walk_induction (fun links cwd todo => _ -> _)). intros links cwd todo IH1 IH2 H.
  rewrite walk_eq in H. destruct todo as [|c' rest]; [done|].
  destruct (fs !! cwd) as [i|] eqn:E; [|done]. destruct (is_dir i) eqn:Di; cbn [negb] in *; [|done].
  case_bool_decide; [apply IH1 in H; [done|cbn; lia]|].
  case_bool_decide; [apply IH1 in H; [done|cbn; lia]|].
  destruct (fs !! (cwd ++ [c'])) as [j|] eqn:Ej.
  - destruct (i_kind j); [apply IH1 in H; [done|cbn; lia]..|].
    destruct rest as [|r rest], follow; try done;
      (destruct links as [|links]; [done|]; destruct target as [|x t]; [done|]; apply IH2 in H; [done|lia]).
  - destruct rest; [|done]. injection H as -> ->. split_and!; try done. by exists i.
Qed.

(** A node made where one was missing is found there, by a call that follows links too. *)
Lemma walk_created (fs : tree) d c i : is_link i = false -> forall links cwd todo,
  walk links false fs cwd todo = Absent d c ->
  walk links true (<[d ++ [c] := i]> fs) cwd todo = Found (d ++ [c]).
Proof.
  intros Hi. apply (walk_induction (fun links cwd todo => _ -> _)). intros links cwd todo IH1 IH2 H.
  pose proof (walk_absent _ _ _ _ _ _ _ H) as (_ & Hnone & _).
  assert (forall q j, fs !! q = Some j -> <[d ++ [c] := i]> fs !! q = Some j) as Hkeep.
  { intros q j Hq. rewrite lookup_insert_ne; [done|]. by intros <-; rewrite Hnone in Hq. }
  rewrite walk_eq in H. rewrite walk_eq. destruct todo as [|c' rest]; [done|].
  destruct (fs !! cwd) as [j|] eqn:E; [|done]. rewrite (Hkeep _ _ E).
  destruct (is_dir j) eqn:Di; cbn [negb] in *; [|done].
  case_bool_decide; [apply IH1; [cbn; lia|done]|].
  case_bool_decide; [apply IH1; [cbn; lia|done]|].
  destruct (fs !! (cwd ++ [c'])) as [k|] eqn:Ek.
  - rewrite (Hkeep _ _ Ek). destruct (i_kind k); [apply IH1; [cbn; lia|done]..|].
    destruct rest as [|r rest]; [done|].
    destruct links as [|links]; [done|]. destruct target as [|x t]; [done|]. apply IH2; [lia|done].
  - destruct rest; [|done]. injection H as -> ->. rewrite lookup_insert_eq. rewrite walk_eq.
    unfold is_link in Hi. by destruct (i_kind i).
Qed.

(** Asking for a directory that is one. *)
Lemma walk_dot (fs : tree) p : isdir fs p -> forall links cwd todo,
  walk links true fs cwd todo = Found p -> walk links true fs cwd (todo ++ [DOT]) = Found p.
Proof.
  intros (i & Ei & Di). apply (walk_induction (fun links cwd todo => _ -> _)). intros links cwd todo IH1 IH2 H.
  rewrite walk_eq in H. rewrite walk_eq. destruct todo as [|c rest]; cbn [app].
  - injection H as ->. rewrite Ei, Di. cbn [negb]. rewrite bool_decide_true by done. by rewrite walk_eq.
  - destruct (fs !! cwd) as [j|] eqn:E; [|done]. destruct (is_dir j); cbn [negb] in *; [|done].
    case_bool_decide; [apply IH1; [cbn; lia|done]|].
    case_bool_decide; [apply IH1; [cbn; lia|done]|].
    destruct (fs !! (cwd ++ [c])) as [k|]; [|by destruct rest].
    destruct (i_kind k); [apply IH1; [cbn; lia|done]..|].
    assert (match links, target with
            | O, _ => Err ELOOP
            | _, [] => Err ENOENT
            | S links, x :: _ => walk links true fs (if x =? SLASH then [] else cwd) (components target ++ rest)
            end = Found p) as H' by (by destruct rest).
    destruct links as [|links]; [done|]. destruct target as [|x t]; [done|].
    destruct (rest ++ [DOT]) eqn:Er; [by destruct rest|]. rewrite <- Er, app_assoc. apply IH2; [lia|done].
Qed.

(** A walk that meets a missing name on the way. *)
Lemma walk_missing links follow fs cwd c rest :
  good c -> isdir fs cwd -> fs !! (cwd ++ [c]) = None -> rest <> [] ->
  walk links follow fs cwd (c :: rest) = Err ENOENT.
Proof.
  intros (_ & H1 & H2 & _) (i & Ei & Di) Hn Hr. rewrite walk_eq, Ei, Di. cbn [negb].
  rewrite !bool_decide_false, Hn by done. by destruct rest.
Qed.

(** A walk does not depend on what is in files. *)
Lemma walk_leaf (follow : bool) (fs : tree) (p : path) (i j : inode) :
  fs !! p = Some i -> is_dir i = false -> is_link i = false -> is_dir j = false -> is_link j = false ->
  forall links cwd todo, walk links follow (<[p := j]> fs) cwd todo = walk links follow fs cwd todo.
Proof.
  intros Hp Di Li Dj Lj. apply walk_induction. intros links cwd todo IH1 IH2.
  rewrite (walk_eq _ _ fs), walk_eq. destruct todo as [|c rest]; [done|].
  destruct (decide (p = cwd)) as [->|Hne].
  { rewrite lookup_insert_eq, Hp, Di, Dj. done. }
  rewrite lookup_insert_ne by done. destruct (fs !! cwd) as [d|]; [|done].
  destruct (negb _); [done|]. case_bool_decide; [apply IH1; cbn; lia|]. case_bool_decide; [apply IH1; cbn; lia|].
  destruct (decide (p = cwd ++ [c])) as [->|Hne2].
  - rewrite lookup_insert_eq, Hp. unfold is_link in Li, Lj.
    destruct (i_kind i), (i_kind j); try done; apply IH1; cbn; lia.
  - rewrite lookup_insert_ne by done. destruct (fs !! (cwd ++ [c])) as [e|]; [|done].
    destruct (i_kind e); [apply IH1; cbn; lia..|].
    destruct rest as [|r rest], follow; try done;
      (destruct links as [|links]; [done|]; destruct target as [|x t]; [done|]; apply IH2; lia).
Qed.

Lemma resolve_leaf (follow : bool) (fs : tree) (p : path) (i j : inode) s :
  fs !! p = Some i -> is_dir i = false -> is_link i = false -> is_dir j = false -> is_link j = false ->
  resolve follow (<[p := j]> fs) s = resolve follow fs s.
Proof. intros. unfold resolve. destruct (_ <=? _); [done|]. destruct s; [done|]. by eapply walk_leaf. Qed.

(** Without links on the way a walk leads where its names say, or nowhere. *)
Lemma walk_no_links links follow fs todo : forall cwd,
  Forall good todo ->
  (forall k i, fs !! (cwd ++ take (S k) todo) = Some i -> is_link i = false) ->
  walk links follow fs cwd todo = Found (cwd ++ todo) \/
  (exists d c, walk links follow fs cwd todo = Absent d c /\ d ++ [c] = cwd ++ todo) \/
  (exists e, walk links follow fs cwd todo = Err e).
Proof.
  induction todo as [|c todo IH]; intros cwd Hg Hl; [left; by rewrite walk_eq, app_nil_r|].
  apply Forall_cons in Hg as [(_ & H1 & H2 & _) Hg]. rewrite walk_eq.
  destruct (fs !! cwd) as [d|]; [|by right; right; eexists].
  destruct (negb _); [by right; right; eexists|]. rewrite !bool_decide_false by done.
  destruct (fs !! (cwd ++ [c])) as [i|] eqn:Ei.
  - specialize (Hl 0%nat i) as Hi. cbn [take] in Hi. rewrite take_0 in Hi. specialize (Hi Ei). unfold is_link in Hi.
    destruct (IH (cwd ++ [c])) as [E|[(d' & c' & E & Ed)|(e & E)]].
    + done.
    + intros k j Hj. apply (Hl (S k) j). by rewrite <- app_assoc in Hj.
    + left. rewrite <- app_assoc in E. by destruct (i_kind i).
    + right; left. exists d', c'. rewrite <- app_assoc in Ed. by destruct (i_kind i).
    + right; right. exists e. by destruct (i_kind i).
  - destruct todo as [|x todo]; [|by right; right; eexists]. right; left. by exists cwd, c.
Qed.

Lemma resolve_no_links follow fs s p :
  components s = p -> Forall good p -> (forall k i, fs !! take (S k) p = Some i -> is_link i = false) ->
  resolve follow fs s = Found p \/ (exists d c, resolve follow fs s = Absent d c /\ d ++ [c] = p) \/
  (exists e, resolve follow fs s = Err e).
Proof.
  intros Hc Hg Hl. unfold resolve. destruct (_ <=? _); [by right; right; eexists|].
  destruct s as [|x s]; [by right; right; eexists|]. rewrite Hc. by apply (walk_no_links _ _ _ p []).
Qed.

(** Errors are errors. *)
Lemma walk_err (follow : bool) (fs : tree) (e : Z) : forall (links : nat) (cwd : path) (todo : list name),
  walk links follow fs cwd todo = Err e -> 0 < e.
Proof.
  apply (walk_induction (fun links cwd todo => _ -> _)). intros links cwd todo IH1 IH2 H.
  rewrite walk_eq in H. destruct todo as [|c' rest]; [done|].
  destruct (fs !! cwd) as [i|]; [|by injection H as <-].
  destruct (is_dir i); cbn [negb] in *; [|by injection H as <-].
  case_bool_decide; [apply IH1 in H; [done|cbn; lia]|].
  case_bool_decide; [apply IH1 in H; [done|cbn; lia]|].
  destruct (fs !! (cwd ++ [c'])) as [j|].
  - destruct (i_kind j); [apply IH1 in H; [done|cbn; lia]..|].
    destruct rest as [|r rest], follow; try done;
      (destruct links as [|links]; [by injection H as <-|]; destruct target as [|x t]; [by injection H as <-|];
       apply IH2 in H; [done|lia]).
  - destruct rest; [done|]. by injection H as <-.
Qed.

Lemma resolve_err (follow : bool) (fs : tree) (s : list Z) (e : Z) : resolve follow fs s = Err e -> 0 < e.
Proof.
  unfold resolve. destruct (_ <=? _); [by intros [= <-]|]. destruct s; [by intros [= <-]|]. apply walk_err.
Qed.

(** ** Calls *)

Section Rules.
  Context {Dev : Type}.
  Abbreviation W := (W tree Dev).
  Abbreviation world := (world tree Dev).

(** A call fails for a reason of its own only in a run that is not calm. *)
Lemma wp_syscall {A : Type} (I : tree -> Prop) (fault : A) (f : tree -> W A) (w : world) (Q : A -> world -> Prop) :
  (~ calm w -> Q fault (asked w)) -> wp I (f (w_fs w)) (asked w) Q -> wp I (syscall fault f) w Q.
Proof.
  intros H1 H2. unfold syscall. repeat wp_step; [|done]. apply H1. intros Hc. bool_to_prop.
  specialize (Hc (w_asked w)). lia.
Qed.

(** A path that leads to a directory. *)
Definition reaches (fs : tree) (s : list Z) : Prop :=
  exists p, resolve true fs s = Found p /\ isdir fs p.

Lemma resolve_mono (follow : bool) (fs fs' : tree) (s : list Z) (p : path) :
  fs ⊆ fs' -> resolve follow fs s = Found p -> resolve follow fs' s = Found p.
Proof.
  intros Hsub. unfold resolve. destruct (_ <=? _); [done|]. destruct s; [done|]. by apply walk_mono.
Qed.

Lemma isdir_mono (fs fs' : tree) (p : path) : fs ⊆ fs' -> isdir fs p -> isdir fs' p.
Proof. intros Hsub (i & Ei & Di). exists i. split; [by eapply lookup_weaken|done]. Qed.

Lemma reaches_mono (fs fs' : tree) s : fs ⊆ fs' -> reaches fs s -> reaches fs' s.
Proof. intros Hsub (p & Hp & Hd). exists p. split; [by eapply resolve_mono|by eapply isdir_mono]. Qed.

Lemma resolve_created (fs : tree) s d c i :
  is_link i = false -> resolve false fs s = Absent d c ->
  resolve true (<[d ++ [c] := i]> fs) s = Found (d ++ [c]).
Proof.
  intros Hi. unfold resolve. destruct (_ <=? _); [done|]. destruct s; [done|]. by apply walk_created.
Qed.

(** Every directory on the way to [p], and [p], are there. *)
Definition dirs_to (fs : tree) (p : path) : Prop := forall k, (k <= length p)%nat -> isdir fs (take k p).

Lemma dirs_to_snoc (fs : tree) (p : path) (c : name) : dirs_to fs p -> isdir fs (p ++ [c]) -> dirs_to fs (p ++ [c]).
Proof.
  intros Hp Hc k Hk. rewrite length_app in Hk. cbn [length] in Hk.
  destruct (decide (k <= length p)%nat); [rewrite take_app_le by lia; auto|].
  rewrite take_ge; [done|]. rewrite length_app. cbn. lia.
Qed.

Lemma dirs_to_mono (fs fs' : tree) (p : path) : fs ⊆ fs' -> dirs_to fs p -> dirs_to fs' p.
Proof. intros Hsub Hp k Hk. eapply isdir_mono; eauto. Qed.

Lemma dirs_to_self (fs : tree) (p : path) : dirs_to fs p -> isdir fs p.
Proof. intros Hp. specialize (Hp (length p) (le_n _)). by rewrite firstn_all in Hp. Qed.

(** Where a plain path leads, when the directories on the way are there. *)
Lemma resolve_plain (follow : bool) (fs : tree) (s : list Z) (p : path) (c : name) :
  zlen s < PATH_MAX -> components s = p ++ [c] -> Forall good (p ++ [c]) -> dirs_to fs p ->
  resolve follow fs s =
  match fs !! (p ++ [c]) with
  | None => Absent p c
  | Some i => if is_link i && follow then resolve follow fs s else Found (p ++ [c])
  end.
Proof.
  intros Hlen Hc Hg Hp. unfold resolve. rewrite (proj2 (Z.leb_gt _ _)) by done.
  destruct s as [|x s]; [rewrite <- Hc in Hg; apply Forall_inv in Hg as (_ & [] & _); done|].
  rewrite Hc. apply Forall_app in Hg as [Hg1 Hg2].
  apply Forall_inv in Hg2. rewrite walk_dirs by done. cbn [app]. by apply walk_last, dirs_to_self.
Qed.

(** ** Trees as the calls keep them *)

(** The root is a directory, and every node is under a good name in a directory. *)
Record wf (fs : tree) : Prop := {
  wf_root : isdir fs [];
  wf_parent p c : is_Some (fs !! (p ++ [c])) -> isdir fs p /\ good c
}.

Lemma elem_of_children (fs : tree) (p : path) (c : name) : c ∈ children fs p <-> is_Some (fs !! (p ++ [c])).
Proof.
  unfold children. rewrite list_elem_of_omap. rewrite <- elem_of_dom. split.
  - intros (q & Hq & H). apply elem_of_elements in Hq. destruct (last q) as [c'|]; [|done].
    case_bool_decide as E; [|done]. injection H as ->. by subst q.
  - intros H. exists (p ++ [c]). split; [by apply elem_of_elements|]. rewrite last_snoc. by rewrite bool_decide_true.
Qed.

Lemma children_nodup (fs : tree) (p : path) : NoDup (children fs p).
Proof.
  unfold children. pose proof (NoDup_elements (dom fs)) as H. induction H as [|q l Hq _ IH]; [constructor|].
  cbn [omap list_omap]. destruct (last q) as [c|] eqn:E; [|done]. case_bool_decide as Eq; [|done].
  constructor; [|done]. rewrite list_elem_of_omap. intros (q' & Hin & H'). destruct (last q') as [c'|]; [|done].
  case_bool_decide as Eq'; [|done]. injection H' as ->. by subst.
Qed.

Lemma wf_below (fs : tree) (p : path) : wf fs -> forall rel, is_Some (fs !! (p ++ rel)) -> is_Some (fs !! p).
Proof.
  intros Hwf rel. induction rel as [|c rel IH] using rev_ind; [by rewrite app_nil_r|].
  rewrite app_assoc. intros H. apply (wf_parent _ Hwf) in H as [(i & Hi & _) _]. apply IH. by exists i.
Qed.

(** A directory with no names in it has nothing below it. *)
Lemma wf_no_children (fs : tree) (p : path) : wf fs -> children fs p = [] ->
  forall r, p `prefix_of` r -> r <> p -> fs !! r = None.
Proof.
  intros Hwf Hch r [rel ->] Hne. destruct rel as [|c rel]; [by rewrite app_nil_r in Hne|].
  destruct (fs !! (p ++ c :: rel)) as [i|] eqn:E; [|done]. exfalso.
  assert (c ∈ children fs p) as Hin; [|by rewrite Hch in Hin; inversion Hin].
  apply elem_of_children. apply (wf_below _ _ Hwf rel). rewrite <- app_assoc. by exists i.
Qed.

(** A file has nothing below it. *)
Lemma wf_leaf (fs : tree) (p : path) (i : inode) : wf fs -> fs !! p = Some i -> is_dir i = false -> children fs p = [].
Proof.
  intros Hwf Hi Hd. destruct (children fs p) as [|c l] eqn:E; [done|]. exfalso.
  assert (c ∈ children fs p) as Hin by (rewrite E; left). apply elem_of_children in Hin.
  apply (wf_parent _ Hwf) in Hin as [(j & Hj & Dj) _]. congruence.
Qed.

(** Removing a node with nothing below it. *)
Lemma wf_delete (fs : tree) (p : path) : wf fs -> p <> [] -> children fs p = [] -> wf (delete p fs).
Proof.
  intros Hwf Hne Hch. constructor.
  - destruct (wf_root _ Hwf) as (i & Hi & Di). exists i. by rewrite lookup_delete_ne.
  - intros q c H. destruct (decide (p = q ++ [c])) as [->|Hpc]; [rewrite lookup_delete_eq in H; by inversion H|].
    rewrite lookup_delete_ne in H by done. destruct (wf_parent _ Hwf _ _ H) as [(i & Hi & Di) Hg]. split; [|done].
    exists i. split; [|done]. rewrite lookup_delete_ne; [done|]. intros ->.
    assert (c ∈ children fs q) as Hin by (by apply elem_of_children). rewrite Hch in Hin. inversion Hin.
Qed.

(** Slashes at the end of a path to a directory change nothing. *)
Lemma reaches_slashes (fs : tree) s sl :
  s <> [] -> last (pieces s) <> Some [] -> Forall (fun x => x = SLASH) sl -> zlen (s ++ sl) < PATH_MAX ->
  reaches fs s -> reaches fs (s ++ sl).
Proof.
  intros Hne Hlast Hsl Hlen (p & Hp & Hd). destruct (decide (sl = [])) as [->|Hsl0]; [rewrite app_nil_r; by exists p|].
  exists p. split; [|done]. unfold resolve in *. rewrite length_app in Hlen.
  rewrite (proj2 (Z.leb_gt _ _)) in Hp by lia. rewrite (proj2 (Z.leb_gt _ _)) by (rewrite length_app; lia).
  destruct s as [|x s]; [done|]. cbn [app]. change (x :: s ++ sl) with ((x :: s) ++ sl).
  rewrite (components_slash _ _ sl eq_refl) by done. by apply walk_dot.
Qed.

End Rules.
