(* ===== verification/Numerals.v ===== *)
(** * Numbers as text

    What [printf] makes of numbers and how [strtol] reads them again. *)
From stdpp Require Import pretty.
From Stdlib Require Import Ascii.
From S2P Require Import Prelude.
From S2P Require Import Cstring.
From S2P Require Import Posix.
Local Open Scope string_scope.
Local Open Scope Z_scope.
Local Open Scope list_scope.

(** The text of some bytes. *)
Definition text (s : list Z) : string := String.string_of_list_ascii ((fun c => Ascii.ascii_of_N (Z.to_N c)) <$> s).

Definition atoi (s : list Z) : Z := swrap 32 (strtol (text s)).1.

(** ** Decimal numbers *)

Lemma pretty_digit d : (d < 10)%N -> digit_value (pretty_N_char d) = Some (Z.of_N d).
Proof.
  intros Hd. assert (d = 0 \/ d = 1 \/ d = 2 \/ d = 3 \/ d = 4 \/ d = 5 \/ d = 6 \/ d = 7 \/ d = 8 \/ d = 9)%N as H by lia.
  by repeat destruct H as [-> | H]; [..|subst d].
Qed.

Lemma read_pretty_go x : forall s any, (0 < x)%N -> read_digits (pretty_N_go x s) 0 any = read_digits s (Z.of_N x) true.
Proof.
  induction (N.lt_wf_0 x) as [x _ IH]. intros s any Hx. rewrite pretty_N_go_step by done.
  pose proof (N.div_mod x 10 ltac:(done)) as Hdm. pose proof (N.mod_lt x 10 ltac:(done)) as Hm.
  assert (forall acc any', read_digits (String (pretty_N_char (x mod 10)) s) acc any' =
    read_digits s (acc * 10 + Z.of_N (x mod 10)) true) as Hd by (intros acc any'; cbn [read_digits]; by rewrite pretty_digit).
  destruct (decide (x / 10 = 0)%N) as [E|E].
  - rewrite E, pretty_N_go_0, Hd. f_equal. rewrite E in Hdm. lia.
  - rewrite IH by (apply N.neq_0_lt_0 in E; try done; apply N.div_lt; lia). rewrite Hd. f_equal. lia.
Qed.

Lemma pretty_go_first x : forall s, (0 < x)%N -> exists d s', (d < 10)%N /\ pretty_N_go x s = String (pretty_N_char d) s'.
Proof.
  induction (N.lt_wf_0 x) as [x _ IH]. intros s Hx. rewrite pretty_N_go_step by done.
  destruct (decide (x / 10 = 0)%N) as [E|E].
  - rewrite E, pretty_N_go_0. eexists _, _. split; [|reflexivity]. by apply N.mod_lt.
  - apply IH; [apply N.div_lt; lia|]. by apply N.neq_0_lt_0.
Qed.

Lemma digit_not_sign d : (d < 10)%N ->
  isspace (pretty_N_char d) = false /\ pretty_N_char d <> "-"%char /\ pretty_N_char d <> "+"%char.
Proof.
  intros Hd. assert (d = 0 \/ d = 1 \/ d = 2 \/ d = 3 \/ d = 4 \/ d = 5 \/ d = 6 \/ d = 7 \/ d = 8 \/ d = 9)%N as H by lia.
  by repeat destruct H as [-> | H]; [..|subst d].
Qed.

(** A printed natural number: a digit first, and its value. *)
Lemma pretty_N_read (n : N) : exists d s, (d < 10)%N /\ pretty n = String (pretty_N_char d) s /\
  forall any, read_digits (pretty n) 0 any = (Z.of_N n, true, ""%string).
Proof.
  unfold pretty, pretty_N. destruct (decide (n = 0)%N) as [->|Hn]; [by exists 0%N, ""%string|].
  destruct (pretty_go_first n "") as (d & s & Hd & E); [lia|]. exists d, s. split_and!; [done|done|].
  intros any. by rewrite read_pretty_go by lia.
Qed.

Lemma strtol_unsigned c s : isspace c = false -> c <> "-"%char -> c <> "+"%char ->
  strtol (String c s) = let '(v, any, rest) := read_digits (String c s) 0 false in
    if any : bool then (clamp_long v, rest) else (0, String c s).
Proof.
  intros Hs Hm Hp. unfold strtol. cbn [skip_spaces]. rewrite Hs.
  destruct c as [[] [] [] [] [] [] [] []]; try reflexivity; congruence.
Qed.

Lemma strtol_minus s : strtol (String "-" s) = let '(v, any, rest) := read_digits s 0 false in
  if any : bool then (clamp_long (- v), rest) else (0, String "-" s).
Proof. reflexivity. Qed.

Lemma strtol_pretty (z : Z) : - 2 ^ 31 <= z < 2 ^ 31 -> strtol (pretty z) = (z, ""%string).
Proof.
  intros Hz. destruct z as [|p|p]; [done| |].
  - change (pretty (Z.pos p)) with (pretty (N.pos p)).
    destruct (pretty_N_read (N.pos p)) as (d & s & Hd & E & Hr). destruct (digit_not_sign d Hd) as (Hs & Hm & Hp).
    rewrite E, strtol_unsigned, <- E, Hr by done. unfold clamp_long. f_equal. lia.
  - change (pretty (Z.neg p)) with (String "-" (pretty (N.pos p))).
    destruct (pretty_N_read (N.pos p)) as (d & s & Hd & E & Hr). rewrite strtol_minus, Hr. unfold clamp_long. f_equal. lia.
Qed.

Lemma text_str s : text (str s) = s.
Proof.
  unfold text. induction s as [|c s IH]; [done|]. cbn. f_equal; [|exact IH].
  destruct c as [[] [] [] [] [] [] [] []]; reflexivity.
Qed.

Definition numeral_byte (c : Z) : Prop := 48 <= c <= 57.

Lemma pretty_go_bytes k : forall x s, (x < 10 ^ N.of_nat k)%N -> Forall numeral_byte (str s) ->
  Forall numeral_byte (str (pretty_N_go x s)) /\ (length (str (pretty_N_go x s)) <= k + length (str s))%nat.
Proof.
  induction k as [|k IH]; intros x s Hx Hs.
  - assert (x = 0)%N as -> by (change (10 ^ N.of_nat 0)%N with 1%N in Hx; lia). rewrite pretty_N_go_0. split; [done|lia].
  - destruct (decide (x = 0)%N) as [->|H0]; [rewrite pretty_N_go_0; split; [done|lia]|]. rewrite pretty_N_go_step by lia.
    destruct (IH (x `div` 10)%N (String (pretty_N_char (x `mod` 10)) s)) as [HF HL].
    + rewrite Nat2N.inj_succ, N.pow_succ_r' in Hx. apply N.Div0.div_lt_upper_bound. lia.
    + cbn [str]. apply Forall_cons. split; [|done]. pose proof (N.mod_lt x 10 ltac:(done)) as Hm.
      set (d := (x `mod` 10)%N) in *.
      assert (d = 0 \/ d = 1 \/ d = 2 \/ d = 3 \/ d = 4 \/ d = 5 \/ d = 6 \/ d = 7 \/ d = 8 \/ d = 9)%N as H by lia.
      unfold numeral_byte. repeat destruct H as [-> | H]; [..|rewrite H]; by vm_compute.
    + split; [exact HF|]. cbn [str length] in HL. lia.
Qed.

Lemma pretty_N_bytes (n : N) : (n < 10 ^ 10)%N -> Forall numeral_byte (str (pretty n)) /\ (length (str (pretty n)) <= 10)%nat.
Proof.
  intros Hn. unfold pretty, pretty_N. destruct (decide (n = 0)%N); [split; [|cbn; lia]; repeat constructor; by vm_compute|].
  destruct (pretty_go_bytes 10 n ""%string) as [HF HL]; [exact Hn|constructor|]. split; [exact HF|rewrite Nat.add_0_r in HL; exact HL].
Qed.

(** ** Bytes in hexadecimal *)

(** "%02x" of a byte. *)
Definition nibble (d : Z) : Z := if d <? 10 then 48 + d else 87 + d.
Definition hex_byte (b : Z) : list Z := [nibble ((b >>> 4) .& 15); nibble (b .& 15)].

Definition is_hex (c : Z) : Prop := 48 <= c <= 57 \/ 97 <= c <= 102.

Lemma land_bound m n : 0 <= n -> 0 <= m .& n <= n.
Proof.
  intros Hn. apply Z.ldiff_le; [done|]. apply Z.bits_inj'. intros k Hk. rewrite Z.ldiff_spec, Z.bits_0, Z.land_spec.
  by destruct (Z.testbit n k), (Z.testbit m k).
Qed.

Lemma nibble_hex n : 0 <= n < 16 -> is_hex (nibble n).
Proof. intros Hn. unfold is_hex, nibble. destruct (n <? 10) eqn:E; bool_to_prop; lia. Qed.

Lemma hex_length l : length (concat (hex_byte <$> l)) = (2 * length l)%nat.
Proof.
  induction l as [|b l IH]; [done|]. rewrite fmap_cons. cbn [concat]. rewrite length_app, IH. cbn [length]. change (length (hex_byte b)) with 2%nat. lia.
Qed.

Lemma hex_digits l : Forall (fun b => 0 <= b < 256) l -> Forall is_hex (concat (hex_byte <$> l)).
Proof.
  induction 1 as [|b l Hb Hl' IH]; [constructor|]. rewrite fmap_cons. cbn [concat]. apply Forall_app. split; [|exact IH].
  pose proof (land_bound (b >>> 4) 15 ltac:(lia)). pose proof (land_bound b 15 ltac:(lia)).
  unfold hex_byte. apply Forall_cons_2; [apply nibble_hex; lia|]. apply Forall_cons_2; [apply nibble_hex; lia|constructor].
Qed.

Lemma nibble_inj a b : 0 <= a < 16 -> 0 <= b < 16 -> nibble a = nibble b -> a = b.
Proof. intros Ha Hb. unfold nibble. destruct (a <? 10) eqn:E1, (b <? 10) eqn:E2; bool_to_prop; lia. Qed.

Lemma hex_byte_inj a b : 0 <= a < 256 -> 0 <= b < 256 -> hex_byte a = hex_byte b -> a = b.
Proof.
  intros Ha Hb E. unfold hex_byte in E. injection E as E1 E2.
  assert (forall x, x .& 15 = x mod 16) as L by (intros x; change 15 with (Z.ones 4); by rewrite Z.land_ones).
  assert (forall x, 0 <= x < 256 -> (x >>> 4) .& 15 = x / 16) as R.
  { intros x Hx. rewrite L, Z.shiftr_div_pow2 by lia. change (2 ^ 4) with 16. apply Z.mod_small. Z.div_mod_to_equations; lia. }
  rewrite !R in E1 by lia. rewrite !L in E2. apply nibble_inj in E1; [|Z.div_mod_to_equations; lia..]. apply nibble_inj in E2; [|apply Z.mod_pos_bound; lia..].
  Z.div_mod_to_equations; lia.
Qed.

Lemma hex_inj l : forall l', Forall (fun b => 0 <= b < 256) l -> Forall (fun b => 0 <= b < 256) l' ->
  concat (hex_byte <$> l) = concat (hex_byte <$> l') -> l = l'.
Proof.
  induction l as [|a l IH]; intros [|b l'] H1 H2 E; try done. rewrite !fmap_cons in E. cbn [concat] in E.
  apply Forall_cons in H1 as [Ha H1]. apply Forall_cons in H2 as [Hb H2].
  apply app_inj_1 in E as [E1 E2]; [|done]. f_equal; [by apply hex_byte_inj|by apply IH].
Qed.
