(* ===== verification/Stdio.v ===== *)
(** * Buffered streams

    The streams of the C library on a tree of files: what is read comes from the
    file at the time of the call, what is written waits in the stream until the
    library passes it on, in as many [write]s as the system makes of it.  A read
    that fails delivers what came before the failure. *)
From S2P Require Import Prelude.
From S2P Require Import Posix.

Definition EOF : Z := -1.

(** The bytes of a file or a device. *)
Definition node_data (i : inode) : option (list Z) :=
  match i_kind i with KFile d | KBlock d => Some d | _ => None end.

Record rfile := mkR { r_node : path; r_pos : Z }.

(** [w_pos] is [None] for a stream that appends. *)
Record wfile := mkF { w_node : path; w_pos : option Z; w_buf : list Z; w_error : bool }.

(** [old] with [data] at [pos]; a gap reads as zeros. *)
Definition overwrite (pos : Z) (data old : list Z) : list Z :=
  take (Z.to_nat pos) (old ++ replicate (Z.to_nat (pos - zlen old)) 0) ++ data ++
  drop (Z.to_nat pos + length data) old.

(** What a [write] of [data] makes of a node, and how many bytes it takes; a
    device has no room behind its end. *)
Definition store_at (pos : option Z) (data : list Z) (i : inode) : option (Z * inode) :=
  match i_kind i with
  | KFile old =>
      Some (zlen data, mkInode (KFile (overwrite (default (zlen old) pos) data old)) (i_mode i) (i_uid i) (i_gid i) None)
  | KBlock old =>
      let pos := default (zlen old) pos in
      let n := Z.min (zlen data) (zlen old - pos) in
      if n <=? 0 then None
      else Some (n, mkInode (KBlock (overwrite pos (take (Z.to_nat n) data) old)) (i_mode i) (i_uid i) (i_gid i) (i_time i))
  | _ => None
  end.

(** The next line, of at most [n] bytes with its newline. *)
Fixpoint line_of (n : nat) (s : list Z) : list Z :=
  match n, s with
  | S n, c :: s => if c =? 10 then [c] else c :: line_of n s
  | _, _ => []
  end.

Section Stdio.
  Context {Dev : Type}.
  Abbreviation W := (W tree Dev).

(** ** Reading *)

(** [fopen(s, "r")]: [inr] errno. *)
Definition fopen_r (s : list Z) : W (rfile + Z) :=
  syscall (inr EIO) (fun fs =>
    wret match resolve true fs s with
         | Found p => match fs !! p with Some _ => inl (mkR p 0) | None => inr ENOENT end
         | Absent _ _ => inr ENOENT
         | Err e => inr e
         end).

(** What is left to read. *)
Definition unread (fs : tree) (f : rfile) : list Z :=
  match fs !! r_node f with
  | Some i => drop (Z.to_nat (r_pos f)) (default [] (node_data i))
  | None => []
  end.

(** Takes [want] from the stream, up to a read error. *)
Definition take_input (want : list Z -> list Z) (f : rfile) : W (list Z * rfile) :=
  let! a := ask in
  let! fs := get_fs in
  let all := want (unread fs f) in
  let got := if a <? 0 then take (Z.to_nat (- a - 1)) all else all in
  wret (got, mkR (r_node f) (r_pos f + zlen got)).

(** [fread]: the bytes that were read. *)
Definition fread (n : Z) (f : rfile) : W (list Z * rfile) := take_input (take (Z.to_nat n)) f.

(** [fgets(buf, n, f)]: [None] for NULL. *)
Definition fgets (n : Z) (f : rfile) : W (option (list Z) * rfile) :=
  let! (line, f) := take_input (line_of (Z.to_nat (n - 1))) f in
  wret (match line with [] => None | _ => Some line end, f).

(** ** Writing *)

(** [fopen(s, "w")], [fopen(s, "a")] and [fopen(s, "r+")]. *)
Definition fopen_w (s : list Z) : W (wfile + Z) :=
  let! r := sys_creat s 438 in
  wret match r with inl p => inl (mkF p (Some 0) [] false) | inr e => inr e end.

Definition fopen_update (create append : bool) (s : list Z) : W (wfile + Z) :=
  syscall (inr EIO) (fun fs =>
    match resolve true fs s with
    | Found p => match fs !! p with
        | Some i => if is_dir i then wret (inr EISDIR)
                    else wret (inl (mkF p (if append then None else Some 0) [] false))
        | None => wret (inr ENOENT)
        end
    | Absent dir c =>
        if create : bool then
          let! _ := set_fs (<[dir ++ [c] := new_inode (KFile []) 438]> fs) in
          wret (inl (mkF (dir ++ [c]) (if append then None else Some 0) [] false))
        else wret (inr ENOENT)
    | Err e => wret (inr e)
    end).

Definition fopen_a : list Z -> W (wfile + Z) := fopen_update true true.
Definition fopen_rplus : list Z -> W (wfile + Z) := fopen_update false false.

(** [fseek(f, pos, SEEK_SET)] before anything is written. *)
Definition fseek_w (pos : Z) (f : wfile) : wfile := mkF (w_node f) (Some pos) (w_buf f) (w_error f).

(** One [write]: how many bytes it took, not positive when it failed. *)
Definition write_chunk (f : wfile) (data : list Z) : W Z :=
  let! a := ask in
  if a <=? 0 then wret (-1)
  else
    let data := take (Z.to_nat a) data in
    let! fs := get_fs in
    match fs !! w_node f with
    | None => wret (zlen data)
    | Some i =>
        match store_at (w_pos f) data i with
        | None => wret (-1)
        | Some (n, i) => let! _ := set_fs (<[w_node f := i]> fs) in wret n
        end
    end.

(** Passes [data] on to the file. *)
Fixpoint push (fuel : nat) (f : wfile) (data : list Z) : W (bool * wfile) :=
  match data with
  | [] => wret (true, f)
  | _ =>
      match fuel with
      | O => wlift Diverge
      | S fuel =>
          let! n := write_chunk f data in
          if n <=? 0 then wret (false, mkF (w_node f) (w_pos f) [] true)
          else push fuel (mkF (w_node f) ((fun pos => pos + n) <$> w_pos f) [] (w_error f)) (drop (Z.to_nat n) data)
      end
  end.

(** [fwrite] and [fputs]: whether all of [data] was taken.  How much of it the
    library passes on at once is up to its buffer. *)
Definition fwrite (data : list Z) (f : wfile) : W (bool * wfile) :=
  let! a := ask in
  if a <? 0 then wret (false, mkF (w_node f) (w_pos f) (w_buf f) true)
  else
    let all := w_buf f ++ data in
    let now := take (Z.to_nat a) all in
    let! (ok, f) := push (length now) f now in
    if ok : bool then wret (true, mkF (w_node f) (w_pos f) (drop (Z.to_nat a) all) (w_error f))
    else wret (false, f).

Definition fflush (f : wfile) : W (bool * wfile) := push (length (w_buf f)) f (w_buf f).

(** [fclose]: 0 or [EOF]. *)
Definition fclose (f : wfile) : W Z :=
  let! (ok, _) := fflush f in
  let! a := ask in
  wret (if ok && (0 <=? a) then 0 else EOF).

End Stdio.
