(* ===== verification/Views.v ===== *)
(** * Runs that can be followed step by step

    [views]: what a program that leaves the disk alone returns; [makes]: what a
    program returns and makes of the disk in a run in which every write is done at
    once. *)
From S2P Require Import Prelude.
From S2P Require Import Posix.
From S2P Require Import PosixFacts.
From S2P Require Import Stdio.
Local Open Scope Z_scope.
Local Open Scope list_scope.

(** ** Trees without times *)

Definition bare (i : inode) : inode := mkInode (i_kind i) (i_mode i) (i_uid i) (i_gid i) None.

Lemma walk_bare (follow : bool) (fs : tree) : forall links cwd todo, walk links follow (bare <$> fs) cwd todo = walk links follow fs cwd todo.
Proof.
  apply walk_induction. intros links cwd todo IH1 IH2. rewrite walk_eq, (walk_eq links follow fs). destruct todo as [|c rest]; [done|].
  rewrite !lookup_fmap. destruct (fs !! cwd) as [i|]; [|done]. cbn [fmap option_fmap option_map]. change (is_dir (bare i)) with (is_dir i).
  destruct (is_dir i); cbn [negb]; [|done]. rewrite !IH1 by (cbn; lia).
  destruct (fs !! (cwd ++ [c])) as [j|]; [|done]. cbn [fmap option_fmap option_map]. change (i_kind (bare j)) with (i_kind j).
  destruct links as [|links]; [done|]. destruct (i_kind j) as [| | |[|x t]]; try done. by rewrite IH2 by lia.
Qed.

Lemma resolve_bare (follow : bool) (fs : tree) s : resolve follow (bare <$> fs) s = resolve follow fs s.
Proof. unfold resolve. destruct (_ <=? _); [done|]. destruct s; [done|]. apply walk_bare. Qed.

Lemma isdir_bare (fs : tree) p : isdir (bare <$> fs) p <-> isdir fs p.
Proof.
  unfold isdir. setoid_rewrite lookup_fmap. split.
  - intros (i & Hi & Di). apply fmap_Some in Hi as (j & Hj & ->). by exists j.
  - intros (i & Hi & Di). exists (bare i). by rewrite Hi.
Qed.

Lemma dirs_bare (fs : tree) p : dirs_to (bare <$> fs) p <-> dirs_to fs p.
Proof. unfold dirs_to. by setoid_rewrite isdir_bare. Qed.

Lemma bare_lookup (fs : tree) p i : (bare <$> fs) !! p = Some i -> exists j, fs !! p = Some j /\ i = bare j.
Proof. rewrite lookup_fmap. intros H. by apply fmap_Some in H as (j & Hj & ->); exists j. Qed.

Lemma bare_None (fs : tree) p : (bare <$> fs) !! p = None <-> fs !! p = None.
Proof. rewrite lookup_fmap. apply fmap_None. Qed.

Lemma unread_bare (fs : tree) f : unread (bare <$> fs) f = unread fs f.
Proof. unfold unread. rewrite lookup_fmap. by destruct (fs !! r_node f). Qed.

(** ** Programs that look but do not touch *)

Section Looking.
  Context {Dev : Type}.
  Abbreviation W := (W tree Dev).
  Abbreviation world := (world tree Dev).

(** A world further on, with the same disk. *)
Definition still (w w' : world) : Prop := w_fs w' = w_fs w /\ w_answers w' = w_answers w.

(** [m] returns what is in [P] and changes the disk at no moment. *)
Definition views {A} (m : W A) (w : world) (P : A -> Prop) : Prop := wp (fun _ => False) m w (fun r w' => P r /\ still w w').
Definition looks {A} (m : W A) (w : world) (a : A) : Prop := views m w (fun r => r = a).

Lemma still_trans w w1 w2 : still w w1 -> still w1 w2 -> still w w2.
Proof. intros [? ?] [? ?]. split; congruence. Qed.

Lemma looks_ret {A} (a : A) w : looks (wret a) w a.
Proof. by apply wp_ret. Qed.

Lemma looks_lift {A} (o : outcome A) a w : o = Done a -> looks (wlift o) w a.
Proof. intros E. by apply (wp_lift _ _ a). Qed.

Lemma views_lift {A} (o : outcome A) a w (P : A -> Prop) : o = Done a -> P a -> views (wlift o) w P.
Proof. intros -> H. apply wp_lift with a; [done|]. by split. Qed.

Lemma views_bind {A B} (m : W A) (k : A -> W B) w P Q :
  views m w P -> (forall a w', P a -> still w w' -> views (k a) w' Q) -> views (wbind m k) w Q.
Proof.
  intros Hm Hk. apply wp_bind. eapply wp_mono; [exact Hm|done|]. intros a w1 [Ha H1].
  eapply wp_mono; [by apply Hk|done|]. intros r w2 [Hr H2]. split; [done|]. by eapply still_trans.
Qed.

Lemma views_ret {A} (a : A) w (P : A -> Prop) : P a -> views (wret a) w P.
Proof. intros H. by apply wp_ret. Qed.

Lemma looks_bind {A B} (m : W A) (k : A -> W B) w a b :
  looks m w a -> (forall w', still w w' -> looks (k a) w' b) -> looks (wbind m k) w b.
Proof. intros Hm Hk. eapply views_bind; [exact Hm|]. intros a' w' -> H. by apply Hk. Qed.

(** It can stand in front of a program that does more. *)
Lemma wp_views {A B} (I : tree -> Prop) (m : W A) (k : A -> W B) w P Q :
  views m w P -> (forall a w', P a -> still w w' -> wp I (k a) w' Q) -> wp I (wbind m k) w Q.
Proof.
  intros Hm Hk. apply wp_bind. eapply wp_mono; [exact Hm|by intros fs []|]. intros r w1 [Hr H1]. by apply Hk.
Qed.

Lemma looks_syscall {A} (fault a : A) (f : tree -> W A) w :
  calm w -> (forall w', still w w' -> looks (f (w_fs w)) w' a) -> looks (syscall fault f) w a.
Proof.
  intros Hc Hf. apply wp_syscall; [by intros []|]. eapply wp_mono; [by apply (Hf (asked w))|done|]. by intros r w' [-> H].
Qed.

Lemma calm_still w w' : still w w' -> calm w -> calm w'.
Proof. intros [_ E]. by apply calm_same. Qed.

Lemma looks_lstat s w p i : calm w -> resolve false (w_fs w) s = Found p -> w_fs w !! p = Some i -> looks (sys_lstat s) w (inl i).
Proof. intros Hc Hr Hi. apply looks_syscall; [done|]. intros w' _. rewrite Hr, Hi. apply looks_ret. Qed.

Lemma looks_fopen s w p i : calm w -> resolve true (w_fs w) s = Found p -> w_fs w !! p = Some i -> looks (fopen_r s) w (inl (mkR p 0)).
Proof. intros Hc Hr Hi. apply looks_syscall; [done|]. intros w' _. rewrite Hr, Hi. apply looks_ret. Qed.

Lemma looks_opendir {DO : DirOrder} s w p : calm w -> resolve true (w_fs w) s = Found p -> isdir (w_fs w) p ->
  looks (sys_opendir s) w (inl (DOT :: DOTDOT :: dir_order (children (w_fs w) p))).
Proof. intros Hc Hr (i & Hi & Di). apply looks_syscall; [done|]. intros w' _. rewrite Hr, Hi, Di. apply looks_ret. Qed.

(** [fgets] takes the next line. *)
Lemma looks_fgets n (f : rfile) w : calm w ->
  looks (fgets n f) w (let l := line_of (Z.to_nat (n - 1)) (unread (w_fs w) f) in
    (match l with [] => None | _ => Some l end, mkR (r_node f) (r_pos f + zlen l))).
Proof.
  intros Hc. unfold looks, views, fgets, take_input. repeat wp_step. cbv zeta. rewrite (proj2 (Z.ltb_ge _ 0)) by apply Hc. repeat wp_step.
  by split.
Qed.

(** ** Calls in a run in which every write is done at once *)

Definition roomy (w : world) : Prop := forall n, 4096 <= w_answers w n.

Lemma roomy_calm w : roomy w -> calm w.
Proof. intros H n. specialize (H n). lia. Qed.

Lemma roomy_same w w' : w_answers w' = w_answers w -> roomy w -> roomy w'.
Proof. unfold roomy. by intros ->. Qed.

(** [m] returns what is in [P] and makes [fs] of the disk. *)
Definition makes {A} (m : W A) (w : world) (P : A -> tree -> Prop) : Prop :=
  wp (fun _ => True) m w (fun a w' => P a (w_fs w') /\ w_answers w' = w_answers w).

Lemma makes_bind {A B} (m : W A) (k : A -> W B) w P Q :
  makes m w P -> (forall a w', P a (w_fs w') -> w_answers w' = w_answers w -> makes (k a) w' Q) -> makes (wbind m k) w Q.
Proof.
  intros Hm Hk. apply wp_bind. eapply wp_mono; [exact Hm|done|]. intros a w1 [Ha H1].
  eapply wp_mono; [by apply Hk|done|]. intros b w2 [Hb H2]. split; [done|congruence].
Qed.

Lemma makes_mono {A} (m : W A) w (P Q : A -> tree -> Prop) : makes m w P -> (forall a fs, P a fs -> Q a fs) -> makes m w Q.
Proof. intros Hm H. eapply wp_mono; [exact Hm|done|]. intros a w' [Ha E]. split; [by apply H|done]. Qed.

Lemma makes_ret {A} (a : A) w (P : A -> tree -> Prop) : P a (w_fs w) -> makes (wret a) w P.
Proof. intros H. by apply wp_ret. Qed.

Lemma makes_lift {A} (o : outcome A) a w : o = Done a -> makes (wlift o) w (fun r fs => r = a /\ fs = w_fs w).
Proof. intros E. by apply (wp_lift _ _ a). Qed.

Lemma makes_views {A} (m : W A) w P : views m w P -> makes m w (fun a fs => P a /\ fs = w_fs w).
Proof. intros H. eapply wp_mono; [exact H|by intros fs []|]. intros a w' [Ha [E1 E2]]. done. Qed.

Lemma makes_assoc {A B C} (m : W A) (f : A -> W B) (g : B -> W C) w Q :
  makes (wbind (wbind m f) g) w Q -> makes (wbind m (fun a => wbind (f a) g)) w Q.
Proof. unfold makes, wp, wbind. by destruct (m w) as [[a| | |] w1]. Qed.

End Looking.
