(* ===== verification/TextLines.v ===== *)
(** * Text files line by line

    Files of lines that [fgets] reads one at a time into a buffer of [PATH_MAX]
    bytes. *)
From S2P Require Import Prelude.
From S2P Require Import Posix.
From S2P Require Import Stdio.
From S2P Require Import Views.
Local Open Scope Z_scope.
Local Open Scope list_scope.

(** A line as [fgets] returns it: it ends with the newline and fits. *)
Definition line_ok (l : list Z) : Prop := Forall (fun c => c <> 10) l /\ zlen l < PATH_MAX - 1.

Definition lines_text (ls : list (list Z)) : list Z := concat ((fun l => l ++ [10]) <$> ls).

Lemma lines_text_app ls ls' : lines_text (ls ++ ls') = lines_text ls ++ lines_text ls'.
Proof. unfold lines_text. by rewrite fmap_app, concat_app. Qed.

Lemma line_of_text n l rest : Forall (fun c => c <> 10) l -> (length l < n)%nat -> line_of n (l ++ 10 :: rest) = l ++ [10].
Proof.
  revert n. induction l as [|c l IH]; intros n Hl Hn; (destruct n as [|n]; [cbn in Hn; lia|]); cbn [app line_of]; [done|].
  apply Forall_cons in Hl as [Hc Hl]. rewrite (proj2 (Z.eqb_neq c 10)) by done. f_equal. apply IH; [done|cbn in Hn; lia].
Qed.

(** A stream in front of some lines. *)
Definition in_front (fs : tree) (f : rfile) (ls : list (list Z)) : Prop :=
  0 <= r_pos f /\ unread fs f = lines_text ls /\ Forall line_ok ls.

Lemma in_front_bare (fs : tree) f ls : in_front (bare <$> fs) f ls <-> in_front fs f ls.
Proof. unfold in_front. by rewrite unread_bare. Qed.

Section Reading.
  Context {Dev : Type}.
  Abbreviation world := (world tree Dev).

Lemma next_line (w : world) (f : rfile) l ls : calm w -> in_front (w_fs w) f (l :: ls) ->
  exists f', looks (fgets PATH_MAX f) w (Some (l ++ [10]), f') /\ in_front (w_fs w) f' ls /\ r_node f' = r_node f.
Proof.
  intros Hc (Hp & Hu & Hl). apply Forall_cons in Hl as [[Hnl Hlen] Hls].
  exists (mkR (r_node f) (r_pos f + zlen (l ++ [10]))). split; [|split].
  - pose proof (looks_fgets PATH_MAX f w Hc) as H. rewrite Hu in H. unfold lines_text in H. rewrite fmap_cons in H. cbn [concat] in H.
    rewrite <- app_assoc in H. cbn [app] in H.
    rewrite line_of_text in H by (done || unfold PATH_MAX in *; lia). destruct (l ++ [10]) as [|c l'] eqn:E; [by destruct l|]. exact H.
  - split_and!; [cbn; lia| |done]. unfold unread in *. cbn [r_node r_pos].
    destruct (w_fs w !! r_node f) as [i|]; [|by destruct l].
    rewrite Z2Nat.inj_add by lia. rewrite <- drop_drop, Hu. unfold lines_text. rewrite fmap_cons. cbn [concat].
    rewrite Nat2Z.id. by rewrite drop_app_length.
  - done.
Qed.

Lemma no_line (w : world) (f : rfile) : calm w -> in_front (w_fs w) f [] -> exists f', looks (fgets PATH_MAX f) w (None, f').
Proof. intros Hc (_ & Hu & _). eexists. pose proof (looks_fgets PATH_MAX f w Hc) as H. rewrite Hu in H. exact H. Qed.

End Reading.
