(* ===== verification/Streams.v ===== *)
(** * Streams that are written from the start

    What a stream that was opened for writing has made of its file or device so
    far, and what is still in its buffer. *)
From S2P Require Import Prelude.
From S2P Require Import Posix.
From S2P Require Import PosixFacts.
From S2P Require Import Stdio.
From S2P Require Import Views.
Local Open Scope Z_scope.
Local Open Scope list_scope.

(** [data] where [old] was. *)
Definition over (old data : list Z) : list Z := data ++ drop (length data) old.

Lemma over_nil data : over [] data = data.
Proof. unfold over. by rewrite drop_nil, app_nil_r. Qed.

Lemma overwrite_over (old done data : list Z) : overwrite (zlen done) data (over old done) = over old (done ++ data).
Proof.
  unfold overwrite, over. rewrite Nat2Z.id, length_app, !length_app.
  replace (Z.to_nat (zlen done - Z.of_nat (length done + length (drop (length done) old)))) with 0%nat by lia. cbn [replicate].
  rewrite app_nil_r, take_app_length, <- drop_drop, drop_app_length, drop_drop, <- app_assoc. do 3 f_equal.
Qed.

Section Stream.
  Context {Dev : Type} (node : path) (mk : list Z -> kind) (old : list Z).
  Abbreviation world := (world tree Dev).

(** There is room for [t]: in a file always, on a device up to its end. *)
Definition room (t : list Z) : Prop := mk = KFile \/ mk = KBlock /\ (length t <= length old)%nat.

(** What was written to the stream so far, on the disk or in its buffer. *)
Definition holds (m : wfile) (t : list Z) (F : tree) : Prop :=
  w_node m = node /\ exists i d, F !! node = Some i /\ i_kind i = mk (over old d) /\ w_pos m = Some (zlen d) /\ d ++ w_buf m = t.

Lemma holds_same m t F F' : F' !! node = F !! node -> holds m t F -> holds m t F'.
Proof. intros E (Hm & i & d & Hi & H). split; [done|]. exists i, d. by rewrite E. Qed.

(** Other contents of the same kind. *)
Definition rewritten (F F' : tree) : Prop := exists i j d, F !! node = Some i /\ i_kind j = mk d /\ F' = <[node := bare j]> F.

Lemma store_at_over i d data : room (d ++ data) -> data <> [] -> i_kind i = mk (over old d) ->
  exists j, store_at (Some (zlen d)) data i = Some (zlen data, j) /\ i_kind j = mk (over old (d ++ data)).
Proof.
  intros Hr Hne Hk. assert (1 <= length data)%nat by (destruct data; [done|cbn; lia]). unfold store_at. rewrite Hk.
  destruct Hr as [-> | [-> Hle]]; cbn [default from_option id].
  - eexists. split; [done|]. cbn [i_kind]. by rewrite overwrite_over.
  - rewrite length_app in Hle. assert (length (over old d) = length old) as El by (unfold over; rewrite length_app, length_drop; lia).
    rewrite El, Z.min_l by lia. rewrite (proj2 (Z.leb_gt (zlen data) 0)) by lia. eexists. split; [done|]. cbn [i_kind].
    by rewrite Nat2Z.id, (take_ge data), overwrite_over by lia.
Qed.

Lemma push_spec n : forall data (m : wfile) i d (w : world), roomy w -> (length data <= n)%nat -> room (d ++ data) -> w_node m = node ->
  (bare <$> w_fs w) !! node = Some i -> i_kind i = mk (over old d) -> w_pos m = Some (zlen d) ->
  makes (push n m data) w (fun r fs => exists m' j, r = (true, m') /\ w_node m' = node /\ w_pos m' = Some (zlen (d ++ data)) /\
    i_kind j = mk (over old (d ++ data)) /\ bare <$> fs = <[node := bare j]> (bare <$> w_fs w)).
Proof.
  induction n as [|n IH]; intros data m i d w Hw Hn Hr Hm Hi Hk Hp.
  all: assert (data = [] -> makes (wret (true, m)) w (fun r fs => exists m' j, r = (true, m') /\ w_node m' = node /\ w_pos m' = Some (zlen (d ++ data)) /\
    i_kind j = mk (over old (d ++ data)) /\ bare <$> fs = <[node := bare j]> (bare <$> w_fs w))) as Hnil.
  1, 3: intros ->; apply makes_ret; exists m, i; rewrite app_nil_r; split_and!; [done|done|done|done|];
    symmetry; apply insert_id; rewrite Hi; apply bare_lookup in Hi as (j & _ & ->); done.
  { destruct data; [by apply Hnil|cbn in Hn; lia]. }
  destruct data as [|x data]; [by apply Hnil|]. clear Hnil.
  cbn [push]. set (all := x :: data) in *. pose proof Hi as Hi'. apply bare_lookup in Hi' as (j & Hj & ->).
  change (i_kind (bare j)) with (i_kind j) in Hk. pose proof (Hw (w_asked w)) as Hroom.
  set (a := w_answers w (w_asked w)) in *. set (chunk := take (Z.to_nat a) all).
  assert (1 <= zlen chunk) as Hch by (unfold chunk, all; rewrite length_take; cbn [length]; lia).
  assert (all = chunk ++ drop (length chunk) all) as Eall.
  { unfold chunk. rewrite length_take. destruct (decide (Z.to_nat a <= length all)%nat).
    - rewrite Nat.min_l by lia. by rewrite take_drop.
    - rewrite Nat.min_r by lia. by rewrite take_ge, drop_ge, app_nil_r by lia. }
  assert (room (d ++ chunk)) as Hrc.
  { destruct Hr as [?|[? Hl]]; [by left|right]. split; [done|]. rewrite Eall in Hl. rewrite !length_app in *. lia. }
  destruct (store_at_over j d chunk Hrc) as (j' & Est & Kj); [by intros E; rewrite E in Hch; cbn in Hch; lia|done|].
  eapply (makes_bind _ _ _ (fun r fs => r = zlen chunk /\ bare <$> fs = <[node := bare j']> (bare <$> w_fs w))).
  { unfold write_chunk, makes. do 2 wp_step. fold a. rewrite (proj2 (Z.leb_gt a 0)) by lia. cbv zeta. repeat wp_step.
    cbn [w_fs asked]. rewrite Hm, Hj, Hp. fold chunk. rewrite Est.
    apply wp_bind, wp_set_fs; [done|]. apply wp_ret. split; [|done]. split; [done|]. cbn. by rewrite fmap_insert. }
  intros r w1 [-> E1] Ha1. rewrite (proj2 (Z.leb_gt (zlen chunk) 0)) by lia. rewrite Nat2Z.id.
  eapply makes_mono; [apply (IH _ _ (bare j') (d ++ chunk))|].
  - by eapply roomy_same.
  - rewrite length_drop. lia.
  - by rewrite <- app_assoc, <- Eall.
  - done.
  - by rewrite E1, lookup_insert_eq.
  - done.
  - cbn [w_pos]. rewrite Hp. cbn. f_equal. rewrite length_app. lia.
  - cbn beta. intros r fs (m' & j2 & -> & H1 & H2 & H3 & H4). exists m', j2. rewrite <- app_assoc, <- Eall in H2, H3.
    split_and!; [done..|]. by rewrite H4, E1, insert_insert_eq.
Qed.

(** [fwrite] appends. *)
Lemma fwrite_spec data (m : wfile) t (w : world) : roomy w -> room (t ++ data) -> holds m t (bare <$> w_fs w) ->
  makes (fwrite data m) w (fun r fs => r.1 = true /\ holds r.2 (t ++ data) (bare <$> fs) /\ rewritten (bare <$> w_fs w) (bare <$> fs)).
Proof.
  intros Hw Hr (Hm & i & d & Hi & Hk & Hp & <-). unfold fwrite. pose proof (Hw (w_asked w)) as Hroom. set (a := w_answers w (w_asked w)) in *.
  eapply (makes_bind _ _ _ (fun r fs => r = a /\ fs = w_fs w)); [by apply wp_ask|]. intros r w1 [-> E1] Ha1.
  rewrite (proj2 (Z.ltb_ge a 0)) by lia. cbv zeta. set (all := w_buf m ++ data). rewrite <- app_assoc in Hr.
  eapply makes_bind; [eapply (push_spec _ _ m i d); [by eapply roomy_same|done| |done|by rewrite E1|done|done]|].
  { destruct Hr as [?|[? Hl]]; [by left|right]. split; [done|]. rewrite !length_app in *. rewrite length_take. unfold all. rewrite length_app. lia. }
  intros r w2 (m' & j & -> & H1 & H2 & H3 & H4) Ha2. cbn beta iota. rewrite E1 in H4. apply makes_ret. cbn [fst snd]. split_and!; [done| |].
  - split; [done|]. exists (bare j), (d ++ take (Z.to_nat a) all). split_and!; [by rewrite H4, lookup_insert_eq|done|done|].
    cbn [w_buf]. rewrite <- !app_assoc. f_equal. unfold all. by rewrite take_drop.
  - by exists i, j, (over old (d ++ take (Z.to_nat a) all)).
Qed.

(** What is written is on the disk when the stream is closed. *)
Lemma fclose_spec (m : wfile) t (w : world) : roomy w -> room t -> holds m t (bare <$> w_fs w) ->
  makes (fclose m) w (fun _ fs => exists j, i_kind j = mk (over old t) /\ bare <$> fs = <[node := bare j]> (bare <$> w_fs w)).
Proof.
  intros Hw Hr (Hm & i & d & Hi & Hk & Hp & <-). unfold fclose, fflush.
  eapply makes_bind; [eapply (push_spec _ _ m i d); [done|done|done|done|done|done|done]|].
  intros r w1 (m' & j & -> & _ & _ & H3 & H4) Ha1. cbn beta iota.
  eapply (makes_bind _ _ _ (fun _ fs => fs = w_fs w1)); [by apply wp_ask|]. intros a w2 E2 _. apply makes_ret. exists j. by rewrite E2.
Qed.

End Stream.
