(* ===== verification/DirUtil.v ===== *)
(** * Directory utilities ([minzip/DirUtil.c])

    Creating, removing and setting the permissions of whole directory trees.
    Security labels ([selabel_lookup], [setfscreatecon]) are left out: they
    change neither the tree nor the return values. *)
From S2P Require Import Prelude.
From S2P Require Import Posix.

Inductive DirStatus := DMISSING | DDIR | DILLEGAL.

(** [snprintf(dn, sizeof(dn), "%s/%s", path, name)] into [PATH_MAX] bytes. *)
Definition dn (s : list Z) (c : name) : list Z :=
  take (Z.to_nat (PATH_MAX - 1)) (s ++ SLASH :: c).

(** [c = cpath + pathLen - 1; while (c != cpath && *c != '/') c--;] from index
    [i]: the path up to the slash, [None] when [c] reaches [cpath]. *)
Fixpoint strip_file_name (i : nat) (s : list Z) : option (list Z) :=
  match i with
  | O => None
  | S i' => if bool_decide (s !! i = Some SLASH) then Some (take (S i) s) else strip_file_name i' s
  end.

Section DirUtil.
  Context {Dev : Type} `{DirOrder}.
  Abbreviation W := (W tree Dev).
  (** Whether [malloc(n)] succeeds. *)
  Context (malloc_ok : Z -> bool).

Definition getPathDirStatus (s : list Z) : W DirStatus :=
  let! st := sys_stat s in
  wret match st with
       | inl i => if is_dir i then DDIR else DILLEGAL
       | inr errno => if negb (errno =? ENOENT) then DILLEGAL else DMISSING
       end.

(** The loop that makes each level: [seen] is the path up to [p], [todo] the rest. *)
Fixpoint make_levels (fuel : nat) (seen todo : list Z) (mode : Z) (timestamp : option Z) : W Z :=
  match fuel with
  | O => wlift Diverge
  | S fuel =>
      let '(slashes, todo) := skip_while (fun c => c =? SLASH) todo in
      match todo with
      | [] => wret 0
      | _ =>
          let '(c, todo) := skip_while (fun c => negb (c =? SLASH)) todo in
          (* the component ends at a slash *)
          let! _ := wlift (access (head todo)) in
          let cpath := seen ++ slashes ++ c in
          let! ds := getPathDirStatus cpath in
          match ds with
          | DILLEGAL => wret (-1)
          | DMISSING =>
              let! err := sys_mkdir cpath mode in
              if negb (err =? 0) then wret (-1)
              else
                let! failed := match timestamp with
                  | Some t => let! r := sys_utime cpath t in wret (negb (r =? 0))
                  | None => wret false
                  end in
                if failed : bool then wret (-1) else make_levels fuel cpath todo mode timestamp
          | DDIR => make_levels fuel cpath todo mode timestamp
          end
      end
  end.

Definition dirCreateHierarchy (s : list Z) (mode : Z) (timestamp : option Z) (stripFileName : bool) : W Z :=
  match s with
  | [] => wret (-1)
  | _ =>
      if negb (malloc_ok (zlen s + 2)) then wret (-1)
      else match (if stripFileName then strip_file_name (length s - 1) s else Some (s ++ [SLASH])) with
      | None => wret (-1)
      | Some cpath =>
          let! ds := getPathDirStatus cpath in
          match ds with
          | DDIR => wret 0
          | DILLEGAL => wret (-1)
          | DMISSING => make_levels (S (length cpath)) [] cpath mode timestamp
          end
      end
  end.

(** The [readdir] loop of [dirUnlinkHierarchy]: [fail] and [errno] after it. *)
Fixpoint unlink_entries (unlink : list Z -> W Z) (s : list Z) (entries : list name) : W (bool * Z) :=
  let! a := ask in
  if a <? 0 then wret (false, EIO)
  else match entries with
  | [] => wret (false, 0)
  | c :: entries =>
      if bool_decide (c = DOTDOT) || bool_decide (c = DOT) then unlink_entries unlink s entries
      else
        let! r := unlink (dn s c) in
        if r <? 0 then wret (true, EIO) else unlink_entries unlink s entries
  end.

Fixpoint dirUnlinkHierarchy (fuel : nat) (s : list Z) : W Z :=
  match fuel with
  | O => wlift Diverge
  | S fuel =>
      let! st := sys_lstat s in
      match st with
      | inr _ => wret (-1)
      | inl i =>
          if negb (is_dir i) then let! r := sys_unlink s in wret (if r =? 0 then 0 else -1)
          else
            let! dir := sys_opendir s in
            match dir with
            | inr _ => wret (-1)
            | inl entries =>
                let! (fail, errno) := unlink_entries (dirUnlinkHierarchy fuel) s entries in
                if fail || (errno <? 0) then wret (-1)
                else
                  let! closed := ask in
                  if closed <? 0 then wret (-1)
                  else let! r := sys_rmdir s in wret (if r =? 0 then 0 else -1)
            end
      end
  end.

(** The [readdir] loop of [dirSetHierarchyPermissions]: [errno] after it.  What a
    failed call left in [errno] is not 0, and -1 stands for it. *)
Fixpoint set_entries (set : list Z -> W Z) (s : list Z) (entries : list name) : W Z :=
  let! a := ask in
  if a <? 0 then wret EIO
  else match entries with
  | [] => wret 0
  | c :: entries =>
      if bool_decide (c = DOTDOT) || bool_decide (c = DOT) then set_entries set s entries
      else
        let! r := set (dn s c) in
        if r =? 0 then set_entries set s entries else wret (-1)
  end.

Fixpoint dirSetHierarchyPermissions (fuel : nat) (uid gid dirMode fileMode : Z) (s : list Z) : W Z :=
  match fuel with
  | O => wlift Diverge
  | S fuel =>
      let! st := sys_lstat s in
      match st with
      | inr _ => wret (-1)
      | inl i =>
          if is_link i then wret 0
          else
            let! r := sys_chown s uid gid in
            if negb (r =? 0) then wret (-1)
            else
              let! r := sys_chmod s (if is_dir i then dirMode else fileMode) in
              if negb (r =? 0) then wret (-1)
              else if is_dir i then
                let! dir := sys_opendir s in
                match dir with
                | inr _ => wret (-1)
                | inl entries =>
                    let! errno := set_entries (dirSetHierarchyPermissions fuel uid gid dirMode fileMode) s entries in
                    if negb (errno =? 0) then wret (-1)
                    else let! closed := ask in wret (if closed <? 0 then -1 else 0)
                end
              else wret 0
      end
  end.

End DirUtil.
