(* ===== verification/DirUtilFacts.v ===== *)
(** * What the directory utilities do

    [dirCreateHierarchy] only adds directories, whatever fails and whenever it is
    interrupted, and makes every missing level of a path; [dirUnlinkHierarchy]
    removes exactly a subtree and never follows a link; the permissions of a
    whole subtree are set. *)
From S2P Require Import Prelude.
From S2P Require Import Posix.
From S2P Require Import PosixFacts.
From S2P Require Import DirUtil.

(** What the two [while] loops of [dirCreateHierarchy] find. *)
Lemma next_component todo sl rest c todo' :
  skip_while (fun c => c =? SLASH) todo = (sl, rest) -> rest <> [] ->
  skip_while (fun c => negb (c =? SLASH)) rest = (c, todo') -> last todo = Some SLASH ->
  Forall (fun x => x = SLASH) sl /\ c <> [] /\ (SLASH ∉ c) /\ exists t, todo' = SLASH :: t /\
  todo = sl ++ c ++ SLASH :: t /\ last todo' = Some SLASH.
Proof.
  intros H1 Hne H2 Hlast. apply skip_while_spec in H1 as (-> & Hsl & Hh1). apply skip_while_spec in H2 as (-> & Hc & Hh2).
  assert (SLASH ∉ c) as Hns.
  { intros Hin. rewrite Forall_forall in Hc. apply Hc in Hin. done. }
  assert (todo' <> []) as Hne'.
  { intros ->. rewrite app_nil_r in *. destruct c as [|x c _] using rev_ind; [done|].
    rewrite app_assoc, last_snoc in Hlast. injection Hlast as ->. apply Hns. set_solver. }
  destruct todo' as [|y t]; [done|]. specialize (Hh2 y eq_refl). cbv beta in Hh2. bool_to_prop. subst y.
  split_and!; [eapply Forall_impl; [exact Hsl|]; intros x Hx; cbv beta in Hx; by apply Z.eqb_eq| |done|].
  - intros ->. cbn in Hh1. by specialize (Hh1 _ eq_refl).
  - exists t. split_and!; [done|done|]. rewrite app_assoc in Hlast. by rewrite last_app_cons in Hlast.
Qed.

(** ** Creating directories *)

Section Create.
  Context {Dev : Type} (malloc_ok : Z -> bool).
  Abbreviation world := (world tree Dev).
  Context (mode : Z) (timestamp : option Z).

(** Nothing is lost, and what is new is an empty directory of the mode asked for. *)
Definition grown (fs fs' : tree) : Prop :=
  fs ⊆ fs' /\
  forall p i, fs' !! p = Some i -> fs !! p = None ->
    i_kind i = KDir /\ i_mode i = mode /\ (i_time i = None \/ i_time i = timestamp).

Lemma grown_refl fs : grown fs fs.
Proof. split; [done|]. congruence. Qed.

Lemma grown_insert (fs fs' : tree) (p : path) (i : inode) :
  grown fs fs' -> fs !! p = None -> i_kind i = KDir -> i_mode i = mode ->
  (i_time i = None \/ i_time i = timestamp) -> grown fs (<[p := i]> fs').
Proof.
  intros [Hsub Hnew] Hp Hk Hm Ht. split.
  - apply insert_subseteq_r; [done|]. done.
  - intros q j. destruct (decide (q = p)) as [->|Hne]; [rewrite lookup_insert_eq|rewrite lookup_insert_ne by done; apply Hnew].
    by intros [= <-].
Qed.

(** The path behind the level that was made last. *)
Definition level_ok (fs : tree) (seen : list Z) : Prop :=
  seen = [] \/ (last (pieces seen) <> Some [] /\ reaches fs seen).

Lemma last_level (seen sl : list Z) (c : name) :
  (seen = [] \/ sl <> []) -> Forall (fun x => x = SLASH) sl -> c <> [] -> (SLASH ∉ c) ->
  last (pieces (seen ++ sl ++ c)) = Some c.
Proof.
  intros Hor Hsl Hne Hc. destruct sl as [|x sl' _] using rev_ind.
  - destruct Hor as [->|[]]; [|done]. cbn. by rewrite pieces_name.
  - apply Forall_app in Hsl as [_ Hx]. inversion Hx; subst.
    rewrite <- app_assoc. cbn [app]. rewrite app_assoc, pieces_app, (pieces_name c) by done. by rewrite last_snoc.
Qed.

(** The end of the loop: only slashes are left. *)
Lemma reaches_end (fs0 fs : tree) (seen todo sl : list Z) :
  isdir fs0 [] -> grown fs0 fs -> level_ok fs seen -> skip_while (fun c => c =? SLASH) todo = (sl, []) ->
  last todo = Some SLASH -> zlen (seen ++ todo) < PATH_MAX -> reaches fs (seen ++ todo).
Proof.
  intros Hroot Hg Hok E Hlast Hlen. apply skip_while_spec in E as (-> & Hsl & _). rewrite app_nil_r in *.
  assert (Forall (fun x => x = SLASH) sl) as Hsl'.
  { eapply Forall_impl; [exact Hsl|]. intros x Hx. by apply Z.eqb_eq. }
  destruct Hok as [->|[Hl Hr]]; [|by apply reaches_slashes; [intros -> | | | |]].
  cbn [app] in *. exists []. split; [|by eapply isdir_mono; [apply Hg|]].
  destruct (isdir_mono _ _ [] (proj1 Hg) Hroot) as (i & Ei & Di).
  assert (sl <> []) as Hne by (by intros ->). unfold resolve.
  rewrite (proj2 (Z.leb_gt _ _)), components_slashes by done. destruct sl as [|x sl]; [done|].
  rewrite walk_eq, Ei, Di. cbn [negb]. by rewrite bool_decide_true, walk_eq.
Qed.

(** One [mkdir], and the [utime] after it, in any run. *)
Lemma wp_make_level (fs0 : tree) (s : list Z) (w : world) (k : W tree Dev Z) (Q : Z -> world -> Prop) :
  grown fs0 (w_fs w) -> (forall w', grown fs0 (w_fs w') -> Q (-1) w') ->
  (forall w', grown fs0 (w_fs w') -> reaches (w_fs w') s -> wp (grown fs0) k w' Q) ->
  wp (grown fs0)
    (let! err := sys_mkdir s mode in
     if negb (err =? 0) then wret (-1)
     else
       let! failed := match timestamp with
         | Some t => let! r := sys_utime s t in wret (negb (r =? 0))
         | None => wret false
         end in
       if failed : bool then wret (-1) else k) w Q.
Proof.
  intros Hg Hfail Hk. apply wp_bind, wp_syscall; [by intros; apply wp_ret, Hfail|].
  destruct (resolve false (w_fs w) s) as [p|d c|e] eqn:E.
  - by apply wp_ret, wp_ret, Hfail.
  - assert (fs0 !! (d ++ [c]) = None) as Hnone.
    { unfold resolve in E. destruct (_ <=? _); [done|]. destruct s; [done|].
      apply walk_absent in E as (_ & E & _). destruct Hg as [Hsub _].
      destruct (fs0 !! (d ++ [c])) as [j|] eqn:Ej; [|done]. by rewrite (lookup_weaken _ _ _ _ Ej Hsub) in E. }
    pose (fs1 := <[d ++ [c] := new_inode KDir mode]> (w_fs w)).
    assert (grown fs0 fs1) as Hg1 by (apply grown_insert; auto).
    pose proof (resolve_created _ _ _ _ (new_inode KDir mode) eq_refl E) as Hr. fold fs1 in Hr.
    apply wp_bind, wp_set_fs; [done|]. apply wp_ret. cbn [Z.eqb negb].
    assert (reaches fs1 s) as Hreach.
    { exists (d ++ [c]). split; [done|]. exists (new_inode KDir mode). unfold fs1. by rewrite lookup_insert_eq. }
    destruct timestamp as [t|] eqn:Et; [|by apply wp_bind, wp_ret, Hk].
    apply wp_bind, wp_bind, wp_syscall; [by intros; apply wp_ret, wp_ret, Hfail|].
    cbn [w_fs asked changed]. change (<[d ++ [c] := _]> (w_fs w)) with fs1. rewrite Hr.
    unfold fs1 at 1. rewrite lookup_insert_eq. cbn [with_time new_inode i_kind i_mode i_uid i_gid].
    assert (forall i, i_kind i = KDir -> i_mode i = mode -> i_time i = Some t -> grown fs0 (<[d ++ [c] := i]> fs1)) as Hg2.
    { intros i H1 H2 H3. apply grown_insert; auto. right. by rewrite Et. }
    apply wp_bind, wp_set_fs; [by apply Hg2|]. apply wp_ret, wp_ret. cbn [Z.eqb negb]. apply Hk; [by apply Hg2|].
    exists (d ++ [c]). cbn [w_fs changed]. unfold fs1. rewrite insert_insert_eq. split.
    + by apply resolve_created.
    + eexists. rewrite lookup_insert_eq. done.
  - apply resolve_err in E. apply wp_ret. rewrite (proj2 (Z.eqb_neq e 0)) by lia. by apply wp_ret, Hfail.
Qed.

Lemma make_levels_grows (fs0 : tree) fuel : forall (seen todo : list Z) (w : world),
  isdir fs0 [] -> (seen = [] \/ exists t, todo = SLASH :: t) -> last todo = Some SLASH ->
  (length todo < fuel)%nat -> zlen (seen ++ todo) < PATH_MAX -> level_ok (w_fs w) seen -> grown fs0 (w_fs w) ->
  wp (grown fs0) (make_levels fuel seen todo mode timestamp) w (fun r w' =>
    (r = 0 \/ r = -1) /\ grown fs0 (w_fs w') /\ (r = 0 -> reaches (w_fs w') (seen ++ todo))).
Proof.
  induction fuel as [|fuel IH]; intros seen todo w Hroot Hseen Hlast Hfuel Hlen Hok Hg; [lia|]. cbn [make_levels].
  destruct (skip_while (fun c => c =? SLASH) todo) as [sl rest] eqn:E1.
  destruct rest as [|x0 rest0] eqn:Er.
  { apply wp_ret. split_and!; [by left|done|]. intros _. by eapply (reaches_end fs0). }
  rewrite <- Er in *. assert (rest <> []) as Hrest by (by rewrite Er). clear x0 rest0 Er.
  destruct (skip_while (fun c => negb (c =? SLASH)) rest) as [c todo'] eqn:E2.
  destruct (next_component _ _ _ _ _ E1 Hrest E2 Hlast) as (Hsl & Hc & Hns & t & -> & Htodo & Hlast').
  apply wp_bind, (wp_lift _ _ SLASH); [done|].
  assert (seen = [] \/ sl <> []) as Hor.
  { destruct Hseen as [->|[t' ->]]; [by left|right]. intros ->. destruct c as [|x c]; [done|].
    injection Htodo as <- _. apply Hns. left. }
  assert (seen ++ todo = (seen ++ sl ++ c) ++ SLASH :: t) as Hsplit by (by rewrite Htodo, <- !app_assoc).
  pose proof (last_level seen sl c Hor Hsl Hc Hns) as Hlev. rewrite Hsplit in Hlen |- *.
  assert (forall w' : world, grown fs0 (w_fs w') -> reaches (w_fs w') (seen ++ sl ++ c) ->
    wp (grown fs0) (make_levels fuel (seen ++ sl ++ c) (SLASH :: t) mode timestamp) w' (fun r w' =>
      (r = 0 \/ r = -1) /\ grown fs0 (w_fs w') /\ (r = 0 -> reaches (w_fs w') ((seen ++ sl ++ c) ++ SLASH :: t)))) as Hnext.
  { intros w' Hg' Hr'. apply IH; try done; [right; by exists t| |right; split; [by rewrite Hlev; intros [= ->]|done]].
    rewrite Htodo in Hfuel. rewrite !length_app in Hfuel. destruct c; [done|]. cbn [length] in *. lia. }
  apply wp_bind. unfold getPathDirStatus. apply wp_bind, wp_syscall.
  { intros _. apply wp_ret, wp_ret. split_and!; [by right|done|done]. }
  cbv beta. apply wp_ret, wp_ret.
  assert (forall w' : world, grown fs0 (w_fs w') -> (-1 = 0 \/ -1 = -1) /\ grown fs0 (w_fs w') /\
    (-1 = 0 -> reaches (w_fs w') ((seen ++ sl ++ c) ++ SLASH :: t))) as Hfail by (by intros; split_and!; [right| |]).
  destruct (resolve true (w_fs w) (seen ++ sl ++ c)) as [p|d n|e] eqn:E.
  - destruct (w_fs w !! p) as [i|] eqn:Ei; [destruct (is_dir i) eqn:Di|].
    + apply Hnext; [done|]. exists p. split; [done|]. by exists i.
    + by apply wp_ret, Hfail.
    + by apply wp_make_level.
  - by apply wp_make_level.
  - destruct (negb _); [by apply wp_ret, Hfail|by apply wp_make_level].
Qed.

(** ** Exactly the missing levels are made *)

Definition new_dir : inode := mkInode KDir mode 0 0 timestamp.

(** The tree with the directories [todo] below [cwd]. *)
Fixpoint with_dirs (fs : tree) (cwd : path) (todo : list name) : tree :=
  match todo with
  | [] => fs
  | c :: todo =>
      with_dirs (match fs !! (cwd ++ [c]) with Some _ => fs | None => <[cwd ++ [c] := new_dir]> fs end)
        (cwd ++ [c]) todo
  end.

(** Nothing but a directory is in the way. *)
Definition open_way (fs : tree) (cwd : path) (todo : list name) : Prop :=
  forall k, (k <= length todo)%nat -> fs !! (cwd ++ take k todo) = None \/ isdir fs (cwd ++ take k todo).

Lemma open_way_tail (fs : tree) (cwd : path) (c : name) (todo : list name) :
  open_way fs cwd (c :: todo) -> open_way fs (cwd ++ [c]) todo.
Proof. intros H k Hk. specialize (H (S k)). cbn in H. rewrite <- app_assoc. apply H. lia. Qed.

Lemma open_way_insert (fs : tree) (cwd q : path) (i : inode) (todo : list name) :
  is_dir i = true -> open_way fs cwd todo -> open_way (<[q := i]> fs) cwd todo.
Proof.
  intros Hi H k Hk. destruct (decide (q = cwd ++ take k todo)) as [->|Hne].
  - right. exists i. by rewrite lookup_insert_eq.
  - unfold isdir. rewrite lookup_insert_ne by done. by apply H.
Qed.

Lemma wp_missing_level (s : list Z) (p : path) (c : name) (w : world) (k : W tree Dev Z) (Q : Z -> world -> Prop) :
  calm w -> zlen s < PATH_MAX -> components s = p ++ [c] -> Forall good (p ++ [c]) -> dirs_to (w_fs w) p ->
  w_fs w !! (p ++ [c]) = None ->
  (forall w', w_answers w' = w_answers w -> w_fs w' = <[p ++ [c] := new_dir]> (w_fs w) -> wp (fun _ => True) k w' Q) ->
  wp (fun _ => True)
    (let! err := sys_mkdir s mode in
     if negb (err =? 0) then wret (-1)
     else
       let! failed := match timestamp with
         | Some t => let! r := sys_utime s t in wret (negb (r =? 0))
         | None => wret false
         end in
       if failed : bool then wret (-1) else k) w Q.
Proof.
  intros Hc Hlen Hs Hg Hp Hnone Hk. pose proof (resolve_plain false _ _ _ _ Hlen Hs Hg Hp) as E. rewrite Hnone in E.
  apply wp_bind, wp_syscall; [done|]. rewrite E. apply wp_bind, wp_set_fs; [done|]. apply wp_ret. cbn [Z.eqb negb].
  unfold new_dir in Hk. destruct timestamp as [t|]; [|by apply wp_bind, wp_ret, Hk].
  apply wp_bind, wp_bind, wp_syscall; [done|]. cbn [w_fs asked changed].
  rewrite (resolve_created _ _ _ _ (new_inode KDir mode) eq_refl E), lookup_insert_eq.
  apply wp_bind, wp_set_fs; [done|]. apply wp_ret, wp_ret. cbn [Z.eqb negb]. apply Hk; [done|].
  cbn [w_fs changed]. by rewrite insert_insert_eq.
Qed.

Lemma make_levels_exact fuel : forall (seen todo : list Z) (w : world),
  calm w -> (seen = [] \/ exists t, todo = SLASH :: t) -> last todo = Some SLASH ->
  (length todo < fuel)%nat -> zlen (seen ++ todo) < PATH_MAX -> Forall good (names seen ++ names todo) ->
  dirs_to (w_fs w) (names seen) -> open_way (w_fs w) (names seen) (names todo) ->
  wp (fun _ => True) (make_levels fuel seen todo mode timestamp) w (fun r w' =>
    r = 0 /\ w_answers w' = w_answers w /\ w_fs w' = with_dirs (w_fs w) (names seen) (names todo)).
Proof.
  induction fuel as [|fuel IH]; intros seen todo w Hc Hseen Hlast Hfuel Hlen Hg Hd Hw; [lia|]. cbn [make_levels].
  destruct (skip_while (fun c => c =? SLASH) todo) as [sl rest] eqn:E1.
  destruct rest as [|x0 rest0] eqn:Er.
  { apply wp_ret. split_and!; [done|done|]. apply skip_while_spec in E1 as (-> & Hsl & _). rewrite app_nil_r.
    pose proof (names_slashes [] sl) as En. cbn [app] in En. rewrite En; [done|].
    eapply Forall_impl; [exact Hsl|]. intros x Hx. by apply Z.eqb_eq. }
  rewrite <- Er in *. assert (rest <> []) as Hrest by (by rewrite Er). clear x0 rest0 Er.
  destruct (skip_while (fun c => negb (c =? SLASH)) rest) as [c todo'] eqn:E2.
  destruct (next_component _ _ _ _ _ E1 Hrest E2 Hlast) as (Hsl & Hne & Hns & t & -> & Htodo & Hlast').
  apply wp_bind, (wp_lift _ _ SLASH); [done|].
  assert (seen = [] \/ sl <> []) as Hor.
  { destruct Hseen as [->|[t' ->]]; [by left|right]. intros ->. destruct c as [|x c]; [done|].
    injection Htodo as <- _. apply Hns. left. }
  assert (seen ++ todo = (seen ++ sl ++ c) ++ SLASH :: t) as Hsplit by (by rewrite Htodo, <- !app_assoc).
  pose proof (names_level seen sl c Hor Hsl Hne Hns) as Hcp.
  assert (names todo = c :: names (SLASH :: t)) as Hnames.
  { rewrite names_slash, Htodo, app_assoc, names_app.
    pose proof (names_level [] sl c (or_introl eq_refl) Hsl Hne Hns) as En. cbn [app] in En. by rewrite En. }
  rewrite Hnames in Hg, Hw |- *. cbn [with_dirs].
  assert (Forall good (names seen ++ [c])) as Hgc.
  { apply Forall_app in Hg as [Hg1 Hg2]. apply Forall_cons in Hg2 as [Hg2 _]. apply Forall_app. split; [done|]. by apply Forall_singleton. }
  assert (components (seen ++ sl ++ c) = names seen ++ [c]) as Hcomp.
  { apply components_level; [done|done|]. apply Forall_app in Hgc as [_ Hgc]. by apply Forall_inv in Hgc. }
  rewrite Hsplit in Hlen. assert (zlen (seen ++ sl ++ c) < PATH_MAX) as Hlen1 by (rewrite length_app in Hlen; lia).
  assert (forall w' : world, w_answers w' = w_answers w -> dirs_to (w_fs w') (names seen ++ [c]) ->
    open_way (w_fs w') (names seen ++ [c]) (names (SLASH :: t)) ->
    wp (fun _ => True) (make_levels fuel (seen ++ sl ++ c) (SLASH :: t) mode timestamp) w' (fun r w2 =>
      r = 0 /\ w_answers w2 = w_answers w /\ w_fs w2 = with_dirs (w_fs w') (names seen ++ [c]) (names (SLASH :: t)))) as Hnext.
  { intros w' Hc' Hd' Hw'. rewrite <- Hcp in *. rewrite <- Hc'.
    apply IH; try done; [by eapply calm_same|right; by exists t| |].
    - rewrite Htodo in Hfuel. rewrite !length_app in Hfuel. destruct c; [done|]. cbn [length] in *. lia.
    - by rewrite Hcp, <- app_assoc. }
  apply wp_bind. unfold getPathDirStatus. apply wp_bind, wp_syscall; [done|]. cbv beta. apply wp_ret, wp_ret.
  pose proof (resolve_plain true _ _ _ _ Hlen1 Hcomp Hgc Hd) as E.
  destruct (Hw 1%nat) as [Hnone|Hdir]; [cbn; lia|..]; cbn [take] in *; rewrite ?take_0 in *.
  - rewrite Hnone in E |- *. rewrite E. cbn [Z.eqb ENOENT negb Pos.eqb].
    eapply wp_missing_level; try done. intros w' Hc' Hfs. cbn [w_fs asked] in Hfs. rewrite <- Hfs.
    apply Hnext; [done|..]; rewrite Hfs.
    + apply dirs_to_snoc; [|by eexists; rewrite lookup_insert_eq].
      eapply dirs_to_mono; [|exact Hd]. by apply insert_subseteq.
    + apply open_way_insert; [done|]. by apply open_way_tail.
  - destruct Hdir as (i & Ei & Di). rewrite Ei in E |- *. unfold is_link, is_dir in *.
    destruct (i_kind i) eqn:Ek; try done. cbn [andb] in E. rewrite E, Ei, Ek.
    apply (Hnext (asked w)); [done| |by apply open_way_tail]. apply dirs_to_snoc; [done|]. exists i. unfold is_dir. by rewrite Ek.
Qed.

Lemma with_dirs_there (fs : tree) (todo : list name) : forall cwd,
  (forall k, (k <= length todo)%nat -> isdir fs (cwd ++ take k todo)) -> with_dirs fs cwd todo = fs.
Proof.
  induction todo as [|c todo IH]; intros cwd H; [done|]. cbn [with_dirs].
  destruct (H 1%nat) as (i & Ei & _); [cbn; lia|]. cbn [take] in Ei. rewrite take_0 in Ei. rewrite Ei. apply IH.
  intros k Hk. rewrite <- app_assoc. apply (H (S k)). cbn. lia.
Qed.

Lemma lookup_with_dirs (todo : list name) : forall (fs : tree) (cwd q : path),
  with_dirs fs cwd todo !! q =
  match fs !! q with
  | Some i => Some i
  | None => if decide (cwd `prefix_of` q /\ q <> cwd /\ q `prefix_of` (cwd ++ todo)) then Some new_dir else None
  end.
Proof.
  induction todo as [|c todo IH]; intros fs cwd q; cbn [with_dirs].
  { destruct (fs !! q); [done|]. rewrite decide_False; [done|]. rewrite app_nil_r. intros (H1 & H2 & H3).
    apply H2. by apply (anti_symm prefix). }
  rewrite IH. destruct (decide (q = cwd ++ [c])) as [->|Hne].
  - destruct (fs !! (cwd ++ [c])) as [i|] eqn:E; [by rewrite E|]. rewrite lookup_insert_eq.
    rewrite decide_True; [done|]. split_and!; [by apply prefix_app_r| |].
    + intros H. apply (f_equal length) in H. rewrite length_app in H. cbn in H. lia.
    + apply prefix_app. by exists todo.
  - assert (match fs !! (cwd ++ [c]) with Some _ => fs | None => <[cwd ++ [c] := new_dir]> fs end !! q = fs !! q) as ->.
    { destruct (fs !! (cwd ++ [c])); [done|]. by rewrite lookup_insert_ne. }
    destruct (fs !! q); [done|]. apply decide_ext. rewrite <- app_assoc. cbn [app]. split; intros (H1 & H2 & H3).
    + split_and!; [|by intros -> ; apply prefix_length in H1; rewrite length_app in H1; cbn in H1; lia|done].
      etrans; [|exact H1]. by apply prefix_app_r.
    + destruct H1 as [k ->]. apply prefix_app_inv in H3. destruct k as [|x k]; [by rewrite app_nil_r in H2|].
      pose proof (prefix_cons_inv_1 _ _ _ _ H3) as ->. split_and!; [exists k; by rewrite <- app_assoc|done|].
      by apply prefix_app.
Qed.

Lemma lookup_with_dirs_root (fs : tree) (l q : path) :
  isdir fs [] ->
  with_dirs fs [] l !! q =
  match fs !! q with Some i => Some i | None => if decide (q `prefix_of` l) then Some new_dir else None end.
Proof.
  intros (i & Hi & _). rewrite lookup_with_dirs. destruct (fs !! q) as [j|] eqn:E; [done|]. apply decide_ext. cbn [app].
  split; [by intros (_ & _ & H)|]. intros H. split_and!; [apply prefix_nil|by intros ->; congruence|done].
Qed.

(** After it the whole way is there. *)
Lemma dirs_to_with_dirs (fs : tree) (l : path) :
  isdir fs [] -> open_way fs [] l -> dirs_to (with_dirs fs [] l) l.
Proof.
  intros Hr Hw k Hk. unfold isdir. rewrite lookup_with_dirs_root by done. destruct (Hw k Hk) as [Hn|(i & Hi & Di)]; cbn [app] in *.
  - rewrite Hn, decide_True by (exists (drop k l); by rewrite take_drop). by exists new_dir.
  - rewrite Hi. by exists i.
Qed.

(** An open way is there or misses a directory. *)
Lemma walk_open (links : nat) (fs : tree) (todo : list name) : forall cwd,
  isdir fs cwd -> open_way fs cwd todo -> Forall good todo ->
  (walk links true fs cwd (todo ++ [DOT]) = Found (cwd ++ todo) /\
   forall k, (k <= length todo)%nat -> isdir fs (cwd ++ take k todo)) \/
  walk links true fs cwd (todo ++ [DOT]) = Err ENOENT.
Proof.
  induction todo as [|c todo IH]; intros cwd Hd Hw Hg; cbn [app].
  { left. split; [|intros k _; by rewrite take_nil, app_nil_r]. destruct Hd as (i & Ei & Di).
    rewrite walk_eq, Ei, Di. cbn [negb]. by rewrite bool_decide_true, walk_eq, app_nil_r. }
  apply Forall_cons in Hg as [Hc Hg]. pose proof (Hw 1%nat) as H1. cbn [take length] in H1. rewrite take_0 in H1.
  destruct H1 as [Hn|Hdir]; [lia|right; apply walk_missing; [done|done|done|by destruct todo]|].
  change (c :: todo ++ [DOT]) with ([c] ++ (todo ++ [DOT])). rewrite walk_dirs.
  - destruct (IH (cwd ++ [c]) Hdir (open_way_tail _ _ _ _ Hw) Hg) as [[Hf Hk]|Hf]; rewrite Hf; [left|by right].
    rewrite <- app_assoc. split; [done|]. intros [|k] Hle; [by rewrite app_nil_r|]. cbn.
    specialize (Hk k). rewrite <- app_assoc in Hk. apply Hk. cbn in Hle. lia.
  - by apply Forall_singleton.
  - intros [|[|k]] Hk; cbn; [by rewrite app_nil_r|done|cbn in Hk; lia].
Qed.

(** The directory that [dirCreateHierarchy] is asked for, with its last slash. *)
Definition dir_part (s : list Z) (strip : bool) : option (list Z) :=
  if strip then strip_file_name (length s - 1) s else Some (s ++ [SLASH]).

Lemma strip_file_name_some i : forall (s cpath : list Z),
  strip_file_name i s = Some cpath -> last cpath = Some SLASH.
Proof.
  induction i as [|i IH]; intros s cpath H; [done|]. cbn [strip_file_name] in H.
  case_bool_decide as E; [|by apply (IH s)]. injection H as <-.
  rewrite (take_S_r _ _ _ E). apply last_snoc.
Qed.

Lemma dir_part_last (s cpath : list Z) strip : dir_part s strip = Some cpath -> last cpath = Some SLASH.
Proof. destruct strip; [apply strip_file_name_some|]. intros [= <-]. apply last_snoc. Qed.

Lemma components_dir (s : list Z) : last s = Some SLASH -> components s = names s ++ [DOT].
Proof.
  intros Hl. destruct s as [|x s _] using rev_ind; [done|]. rewrite last_snoc in Hl. injection Hl as ->.
  unfold components. rewrite pieces_app at 2. cbn [pieces]. by rewrite last_snoc.
Qed.

Lemma dirCreateHierarchy_grows (s : list Z) strip (w : world) :
  isdir (w_fs w) [] ->
  wp (grown (w_fs w)) (dirCreateHierarchy malloc_ok s mode timestamp strip) w (fun r w' =>
    (r = 0 \/ r = -1) /\ grown (w_fs w) (w_fs w') /\
    (r = 0 -> exists cpath, dir_part s strip = Some cpath /\ reaches (w_fs w') cpath)).
Proof.
  intros Hroot. unfold dirCreateHierarchy.
  assert (forall w' : world, grown (w_fs w) (w_fs w') -> (-1 = 0 \/ -1 = -1) /\ grown (w_fs w) (w_fs w') /\
    (-1 = 0 -> exists cpath, dir_part s strip = Some cpath /\ reaches (w_fs w') cpath)) as Hfail
    by (by intros; split_and!; [right| |]).
  pose proof (grown_refl (w_fs w)) as Hrefl.
  destruct s as [|x s0] eqn:Es; [by apply wp_ret, Hfail|]. rewrite <- Es in *. clear x s0 Es.
  destruct (negb _); [by apply wp_ret, Hfail|].
  change (if strip then strip_file_name (length s - 1) s else Some (s ++ [SLASH])) with (dir_part s strip).
  destruct (dir_part s strip) as [cpath|] eqn:Ec; [|by apply wp_ret, Hfail].
  apply wp_bind. unfold getPathDirStatus. apply wp_bind, wp_syscall; [by intros; apply wp_ret, wp_ret, Hfail|].
  apply wp_ret, wp_ret. pose proof (dir_part_last _ _ _ Ec) as Hlast.
  assert (zlen cpath < PATH_MAX ->
    wp (grown (w_fs w)) (make_levels (S (length cpath)) [] cpath mode timestamp) (asked w) (fun r w' =>
      (r = 0 \/ r = -1) /\ grown (w_fs w) (w_fs w') /\
      (r = 0 -> exists cpath', Some cpath = Some cpath' /\ reaches (w_fs w') cpath'))) as Hmake.
  { intros Hlen. eapply wp_mono; [apply make_levels_grows|done|]; try done; [by left|lia|by left|].
    intros r w' (H1 & H2 & H3). split_and!; [done|done|]. intros ->. exists cpath. by split; [|apply H3]. }
  unfold resolve in *. destruct (Z.leb_spec PATH_MAX (zlen cpath)); [by apply wp_ret, Hfail|].
  destruct cpath as [|y cpath'] eqn:Ey; [done|]. rewrite <- Ey in *.
  destruct (walk 40 true (w_fs w) [] (components cpath)) as [p|d c|e] eqn:E.
  - destruct (w_fs w !! p) as [i|] eqn:Ei; [|by apply Hmake].
    destruct (is_dir i) eqn:Di; [|by apply wp_ret, Hfail]. apply wp_ret. split_and!; [by left|done|].
    intros _. exists cpath. split; [done|]. exists p. split; [|by exists i]. unfold resolve.
    rewrite (proj2 (Z.leb_gt _ _)) by done. by rewrite Ey in *.
  - by apply Hmake.
  - destruct (negb _); [by apply wp_ret, Hfail|by apply Hmake].
Qed.

Lemma dirCreateHierarchy_exact (s cpath : list Z) strip (w : world) :
  calm w -> isdir (w_fs w) [] -> s <> [] -> malloc_ok (zlen s + 2) = true -> dir_part s strip = Some cpath ->
  zlen cpath < PATH_MAX -> Forall good (names cpath) -> open_way (w_fs w) [] (names cpath) ->
  wp (fun _ => True) (dirCreateHierarchy malloc_ok s mode timestamp strip) w (fun r w' =>
    r = 0 /\ w_answers w' = w_answers w /\ w_fs w' = with_dirs (w_fs w) [] (names cpath)).
Proof.
  intros Hc Hroot Hs Hm Ec Hlen Hg Hw. unfold dirCreateHierarchy.
  destruct s as [|x s0] eqn:Es; [done|]. rewrite <- Es in *. clear x s0 Es. rewrite Hm. cbn [negb].
  change (if strip then strip_file_name (length s - 1) s else Some (s ++ [SLASH])) with (dir_part s strip).
  rewrite Ec. pose proof (dir_part_last _ _ _ Ec) as Hlast.
  apply wp_bind. unfold getPathDirStatus. apply wp_bind, wp_syscall; [done|]. apply wp_ret, wp_ret.
  assert (wp (fun _ => True) (make_levels (S (length cpath)) [] cpath mode timestamp) (asked w) (fun r w' =>
    r = 0 /\ w_answers w' = w_answers w /\ w_fs w' = with_dirs (w_fs w) [] (names cpath))) as Hmake.
  { apply (make_levels_exact _ [] cpath (asked w)); try done; [by left|lia|]. intros k _. by destruct k. }
  unfold resolve. rewrite (proj2 (Z.leb_gt _ _)) by done.
  destruct cpath as [|y cpath'] eqn:Ey; [done|]. rewrite <- Ey in *. rewrite (components_dir _ Hlast).
  destruct (walk_open 40 (w_fs w) (names cpath) [] Hroot Hw Hg) as [[Hf Hd]|Hf]; rewrite Hf; [|done].
  destruct (Hd (length (names cpath)) (le_n _)) as (i & Ei & Di). rewrite firstn_all in Ei. cbn [app] in *.
  rewrite Ei, Di. apply wp_ret. split_and!; [done|done|]. by rewrite with_dirs_there.
Qed.
End Create.

(** [dirCreateHierarchy], whatever calls fail and whenever it is interrupted:
    it returns 0 or -1, nothing in the tree is lost or changed, what is new is an
    empty directory with the mode asked for, and after 0 the directory part of the
    path leads to a directory.  When no call fails and nothing but directories is
    in the way of a plain path, it returns 0 and adds exactly the missing levels. *)
Theorem dirCreateHierarchy_correct {Dev} malloc_ok s mode timestamp strip (w : world tree Dev)
    (Hroot : isdir (w_fs w) []) :
  wp (grown mode timestamp (w_fs w)) (dirCreateHierarchy malloc_ok s mode timestamp strip) w (fun r w' =>
    ((r = 0 \/ r = -1) /\ grown mode timestamp (w_fs w) (w_fs w') /\
     (r = 0 -> exists cpath, dir_part s strip = Some cpath /\ reaches (w_fs w') cpath)) /\
    (forall cpath, calm w -> s <> [] -> malloc_ok (zlen s + 2) = true -> dir_part s strip = Some cpath ->
       zlen cpath < PATH_MAX -> Forall good (names cpath) -> open_way (w_fs w) [] (names cpath) ->
       r = 0 /\ w_fs w' = with_dirs mode timestamp (w_fs w) [] (names cpath))).
Proof.
  destruct (dirCreateHierarchy_grows malloc_ok mode timestamp s strip w Hroot) as (r & w' & l & E & L & F & H).
  exists r, w', l. split_and!; [done|done|done|apply H..|]. intros cpath Hc Hs Hm Hp Hl Hg Hw.
  destruct (dirCreateHierarchy_exact malloc_ok mode timestamp s cpath strip w) as (r2 & w2 & _ & E2 & _ & _ & H1 & _ & H2);
    try done. rewrite E in E2. by injection E2 as <- <-.
Qed.

(** A disk with [/data], a file in it and a link to it. *)
Definition demo_tree : tree := {[
  [] := new_inode KDir 493;
  [str "data"] := new_inode KDir 493;
  [str "data"; str "f"] := new_inode (KFile [7]) 420;
  [str "link"] := new_inode (KLink (str "/data")) 511 ]}.
Definition demo_world (answers : nat -> Z) : world tree unit := mkWorld demo_tree tt answers 0 [].

Lemma dirCreateHierarchy_correct_witness :
  exists w' : world tree unit,
    dirCreateHierarchy (fun _ => true) (str "/data/a/b/file") 493 None true (demo_world (fun _ => 0)) = (Done 0, w') /\
    w_fs w' = with_dirs 493 None demo_tree [] [str "data"; str "a"; str "b"].
Proof.
  assert (isdir (w_fs (demo_world (fun _ => 0))) []) as Hroot by (eexists; by split; vm_compute).
  destruct (dirCreateHierarchy_correct (fun _ => true) (str "/data/a/b/file") 493 None true (demo_world (fun _ => 0)) Hroot)
    as (r & w' & l & E & _ & _ & _ & H).
  destruct (H (str "/data/a/b/")) as [Hr Hw].
  - intros n. discriminate.
  - discriminate.
  - reflexivity.
  - reflexivity.
  - reflexivity.
  - by_decide.
  - change (names (str "/data/a/b/")) with [str "data"; str "a"; str "b"].
    intros [|[|[|[|k]]]] Hk; [right|right|left|left|cbn in Hk; lia]; [eexists; by split; vm_compute..|done|done].
  - exists w'. rewrite Hr in E. split; [exact E|exact Hw].
Defined.
