(* ===== verification/DirTrees.v ===== *)
(** * Whole subtrees: removing them and setting their permissions

    [dirUnlinkHierarchy] and [dirSetHierarchyPermissions] of [minzip/DirUtil.c],
    for any order of the directory listings and whatever calls fail. *)
From S2P Require Import Prelude.
From S2P Require Import Posix.
From S2P Require Import PosixFacts.
From S2P Require Import DirUtil.

(** ** Removing a subtree *)

(** Nodes at or below [q] may be gone; nothing else differs. *)
Definition pruned (q : path) (fs fs' : tree) : Prop :=
  forall r, fs' !! r = fs !! r \/ (q `prefix_of` r /\ fs' !! r = None).

(** The tree without the subtree at [q]. *)
Definition without (q : path) (fs : tree) : tree := filter (fun x => ~ q `prefix_of` x.1) fs.

Lemma lookup_without (q r : path) (fs : tree) :
  without q fs !! r = if decide (q `prefix_of` r) then None else fs !! r.
Proof.
  unfold without. destruct (decide (q `prefix_of` r)) as [H|H].
  - apply map_lookup_filter_None. right. intros x _ Hn. by apply Hn.
  - destruct (fs !! r) as [i|] eqn:E.
    + by apply map_lookup_filter_Some.
    + apply map_lookup_filter_None. by left.
Qed.

Lemma pruned_refl q fs : pruned q fs fs.
Proof. intros r. by left. Qed.

Lemma pruned_child (q : path) (c : name) (fs fs1 fs2 : tree) :
  pruned q fs fs1 -> pruned (q ++ [c]) fs1 fs2 -> pruned q fs fs2.
Proof.
  intros H1 H2 r. destruct (H2 r) as [->|[Hp ->]]; [apply H1|]. right. split; [|done].
  etrans; [|exact Hp]. by apply prefix_app_r.
Qed.

Lemma pruned_sub (q r : path) (fs fs' : tree) : pruned q fs fs' -> is_Some (fs' !! r) -> fs !! r = fs' !! r.
Proof. intros H [i Hi]. destruct (H r) as [E|[_ E]]; congruence. Qed.

Lemma pruned_above (q r : path) (fs fs' : tree) : pruned q fs fs' -> (~ q `prefix_of` r) -> fs' !! r = fs !! r.
Proof. intros H Hn. by destruct (H r) as [E|[Hp _]]. Qed.

(** What is on the way to the subtree stays. *)
Lemma pruned_dirs (p : path) (c : name) (fs fs' : tree) :
  pruned (p ++ [c]) fs fs' -> dirs_to fs p -> dirs_to fs' p.
Proof.
  intros H Hd k Hk. destruct (Hd k Hk) as (i & Hi & Di). exists i. split; [|done].
  rewrite (pruned_above _ _ _ _ H); [done|]. intros Hp. apply prefix_length in Hp.
  rewrite length_app, length_take in Hp. cbn in Hp. lia.
Qed.

(** Deleting the last node of a subtree leaves the tree without it. *)
Lemma delete_without (q : path) (fs fs' : tree) :
  pruned q fs fs' -> (forall r, q `prefix_of` r -> r <> q -> fs' !! r = None) -> delete q fs' = without q fs.
Proof.
  intros H Hnone. apply map_eq. intros r. rewrite lookup_without. destruct (decide (q = r)) as [<-|Hne].
  - rewrite lookup_delete_eq. by rewrite decide_True.
  - rewrite lookup_delete_ne by done. destruct (decide (q `prefix_of` r)) as [Hp|Hp].
    + by apply Hnone.
    + by apply (pruned_above q).
Qed.

Lemma pruned_delete (q : path) (fs fs' : tree) : pruned q fs fs' -> pruned q fs (delete q fs').
Proof.
  intros H r. destruct (decide (q = r)) as [<-|Hne]; [right; by rewrite lookup_delete_eq|].
  rewrite lookup_delete_ne by done. apply H.
Qed.

(** The length of a path below another one. *)
Definition rel_len (rel : path) : Z := foldr (fun c n => zlen c + 1 + n) 0 rel.

Lemma rel_len_nonneg rel : 0 <= rel_len rel.
Proof. unfold rel_len. induction rel as [|c rel IH]; cbn [foldr]; lia. Qed.

(** Every path below [q] is short enough and the subtree not deeper than [fuel]. *)
Definition fits (fuel : nat) (s : list Z) (q : path) (fs : tree) : Prop :=
  forall rel, is_Some (fs !! (q ++ rel)) -> zlen s + rel_len rel < PATH_MAX /\ (length rel < fuel)%nat.

(** A plain path to [p ++ [c]]. *)
Record leads (fs : tree) (s : list Z) (p : path) (c : name) : Prop := {
  leads_len : zlen s < PATH_MAX;
  leads_comp : components s = p ++ [c];
  leads_good : Forall good (p ++ [c]);
  leads_dirs : dirs_to fs p
}.

Lemma leads_names fs s p c : leads fs s p c -> names s = p ++ [c].
Proof.
  intros [_ H Hg _]. unfold components in H. fold (names s) in H.
  destruct (last (pieces s)) as [[|x l]|]; [|by rewrite app_nil_r in H..].
  apply app_inj_tail in H as [_ <-]. apply Forall_app in Hg as [_ Hg]. apply Forall_inv in Hg as (_ & [] & _). done.
Qed.

(** The path of an entry of the directory. *)
Lemma leads_child (fs : tree) (s : list Z) (p : path) (c c' : name) fuel :
  leads fs s p c -> isdir fs (p ++ [c]) -> good c' -> fits fuel s (p ++ [c]) fs ->
  is_Some (fs !! ((p ++ [c]) ++ [c'])) ->
  leads fs (dn s c') (p ++ [c]) c' /\ zlen (dn s c') = zlen s + zlen c' + 1.
Proof.
  intros Hl Hd Hg Hf Hs. destruct (Hf [c'] Hs) as [Hlen _]. unfold rel_len in Hlen. cbn [foldr] in Hlen.
  assert (dn s c' = s ++ SLASH :: c') as E.
  { unfold dn. apply take_ge. rewrite length_app. cbn [length]. unfold PATH_MAX in *. lia. }
  rewrite E. split; [|rewrite length_app; cbn [length]; lia]. constructor.
  - rewrite length_app. cbn [length]. lia.
  - rewrite components_snoc by done. by rewrite (leads_names _ _ _ _ Hl).
  - apply Forall_app. split; [apply Hl|by apply Forall_singleton].
  - apply dirs_to_snoc; [apply Hl|done].
Qed.

Lemma resolve_leads (follow : bool) (fs : tree) (s : list Z) (p : path) (c : name) :
  leads fs s p c ->
  resolve follow fs s =
  match fs !! (p ++ [c]) with
  | None => Absent p c
  | Some i => if is_link i && follow then resolve follow fs s else Found (p ++ [c])
  end.
Proof. intros []. by apply resolve_plain. Qed.

Lemma leads_pruned (fs fs' : tree) (s : list Z) (p : path) (c : name) :
  pruned (p ++ [c]) fs fs' -> leads fs s p c -> leads fs' s p c.
Proof. intros H []. constructor; try done. by eapply pruned_dirs. Qed.

Section Unlink.
  Context {Dev : Type} {O : DirOrder}.
  Abbreviation world := (world tree Dev).

Definition unlinked (q : path) (fs fs' : tree) : Prop := pruned q fs fs' /\ wf fs'.

(** What a call on the path of a node does. *)
Definition unlinks (q : path) (fs : tree) (calm_before : Prop) (r : Z) (w' : world) : Prop :=
  (r = 0 \/ r = -1) /\ unlinked q fs (w_fs w') /\ (calm_before -> calm w' /\ r = 0) /\
  (r = 0 -> w_fs w' = without q fs).

Lemma snoc_not_prefix (q : path) (c : name) : ~ (q ++ [c]) `prefix_of` q.
Proof. intros H. apply prefix_length in H. rewrite length_app in H. cbn in H. lia. Qed.

Lemma snoc_prefix_snoc (q : path) (c c' : name) : (q ++ [c]) `prefix_of` (q ++ [c']) -> c = c'.
Proof. intros H. apply prefix_app_inv in H. by apply prefix_cons_inv_1 in H. Qed.

Lemma fits_child (fuel : nat) (s : list Z) (q : path) (c : name) (fs : tree) :
  fits (S fuel) s q fs -> zlen (dn s c) = zlen s + zlen c + 1 -> fits fuel (dn s c) (q ++ [c]) fs.
Proof.
  intros Hf Hlen rel Hs. rewrite <- app_assoc in Hs. destruct (Hf _ Hs) as [H1 H2].
  unfold rel_len in *. cbn [app foldr length] in *. split; lia.
Qed.

Lemma fits_pruned (fuel : nat) (s : list Z) (q r : path) (fs fs' : tree) :
  pruned r fs fs' -> fits fuel s q fs -> fits fuel s q fs'.
Proof. intros H Hf rel Hs. apply Hf. by rewrite (pruned_sub _ _ _ _ H Hs). Qed.

Lemma unlink_entries_spec (fuel : nat) (rec : list Z -> W tree Dev Z) (s : list Z) (p : path) (c : name) (fs0 : tree) :
  (forall s' c' (w : world), leads (w_fs w) s' (p ++ [c]) c' -> wf (w_fs w) ->
     fits fuel s' ((p ++ [c]) ++ [c']) (w_fs w) -> is_Some (w_fs w !! ((p ++ [c]) ++ [c'])) ->
     wp (unlinked ((p ++ [c]) ++ [c']) (w_fs w)) (rec s') w (unlinks ((p ++ [c]) ++ [c']) (w_fs w) (calm w))) ->
  forall es (w : world), NoDup es ->
    (forall c', c' ∈ es -> c' = DOT \/ c' = DOTDOT \/ is_Some (w_fs w !! ((p ++ [c]) ++ [c']))) ->
    leads (w_fs w) s p c -> isdir (w_fs w) (p ++ [c]) -> unlinked (p ++ [c]) fs0 (w_fs w) ->
    fits (S fuel) s (p ++ [c]) (w_fs w) ->
    wp (unlinked (p ++ [c]) fs0) (unlink_entries rec s es) w (fun '(fail, errno) w' =>
      0 <= errno /\ unlinked (p ++ [c]) fs0 (w_fs w') /\ isdir (w_fs w') (p ++ [c]) /\ leads (w_fs w') s p c /\
      (calm w -> calm w' /\ fail = false /\
        ((forall c', is_Some (w_fs w !! ((p ++ [c]) ++ [c'])) -> c' ∈ es) -> children (w_fs w') (p ++ [c]) = []))).
Proof.
  intros Hrec es. remember (p ++ [c]) as q eqn:Eq.
  induction es as [|c' es IH]; intros w Hnd Hes Hl Hd Hu Hf; cbn [unlink_entries]; apply wp_bind, wp_ask;
    destruct (_ <? 0) eqn:Ha.
  1,3: apply wp_ret; split_and!; [done..|]; intros Hc; bool_to_prop; specialize (Hc (w_asked w)); lia.
  - apply wp_ret. split_and!; [done..|]. intros Hc. split_and!; [done|done|]. intros Hnone.
    destruct (children (w_fs (asked w)) q) as [|c' l] eqn:E; [done|].
    assert (c' ∈ children (w_fs w) q) as Hin by (change (w_fs w) with (w_fs (asked w)); rewrite E; left).
    apply elem_of_children, Hnone in Hin. inversion Hin.
  - apply NoDup_cons in Hnd as [Hnin Hnd]. destruct (_ || _) eqn:Edot.
    + eapply wp_mono; [apply IH|done|]; try done; [intros c'' Hin; apply Hes; by right|].
      intros [fail errno] w' (H1 & H2 & H3 & H4 & H5). split_and!; try done. intros Hc.
      destruct (H5 Hc) as (H6 & H7 & H8). split_and!; try done. intros Hall. apply H8. intros c'' Hs.
      specialize (Hall _ Hs). apply elem_of_cons in Hall as [->|]; [|done]. exfalso.
      apply (wf_parent _ (proj2 Hu)) in Hs as [_ (_ & Hn1 & Hn2 & _)]. apply orb_true_iff in Edot.
      by destruct Edot as [E|E]; apply bool_decide_eq_true in E.
    + destruct (Hes c') as [->|[->|Hs]]; [left|done|done|].
      destruct (wf_parent _ (proj2 Hu) _ _ Hs) as [_ Hgood].
      assert (leads (w_fs w) (dn s c') q c' /\ zlen (dn s c') = zlen s + zlen c' + 1) as [Hlc Hlen].
      { rewrite Eq in *. by eapply leads_child. }
      apply wp_bind. eapply wp_mono; [apply (Hrec _ c' (asked w)); [done|apply Hu|by apply fits_child|done]| |].
      { intros fs' [Hp Hw]. split; [|done]. eapply pruned_child; [apply Hu|done]. }
      intros r w2 (Hr & [Hp2 Hw2] & Hcalm & Hgone). cbn [w_fs asked] in *.
      assert (unlinked q fs0 (w_fs w2)) as Hu2 by (split; [eapply pruned_child; [apply Hu|done]|done]).
      assert (isdir (w_fs w2) q) as Hd2.
      { destruct Hd as (i & Hi & Di). exists i. split; [|done]. rewrite (pruned_above _ _ _ _ Hp2); [done|].
        apply snoc_not_prefix. }
      assert (leads (w_fs w2) s p c) as Hl2.
      { eapply leads_pruned; [|exact Hl]. rewrite <- Eq. by eapply pruned_child; [apply pruned_refl|]. }
      destruct Hr as [->| ->].
      * specialize (Hgone eq_refl). assert (forall c'', c'' <> c' -> w_fs w2 !! (q ++ [c'']) = w_fs w !! (q ++ [c''])) as Hother.
        { intros c'' Hne. apply (pruned_above _ _ _ _ Hp2). intros Hpre. by apply snoc_prefix_snoc in Hpre. }
        eapply wp_mono; [apply IH|done|]; try done.
        -- intros c'' Hin. rewrite Hother; [apply Hes; by right|]. by intros ->.
        -- by eapply fits_pruned.
        -- intros [fail errno] w' (H1 & H2 & H3 & H4 & H5). split_and!; try done. intros Hc.
           destruct (H5 (proj1 (Hcalm Hc))) as (H6 & H7 & H8). split_and!; try done. intros Hall. apply H8.
           intros c'' Hs''. destruct (decide (c'' = c')) as [->|Hne].
           ++ rewrite Hgone, lookup_without, decide_True in Hs'' by done. by inversion Hs''.
           ++ rewrite Hother in Hs'' by done. apply Hall, elem_of_cons in Hs'' as [|]; done.
      * apply wp_ret. split_and!; try done. intros Hc. by destruct (Hcalm Hc).
Qed.

(** A listing names each entry once. *)
Lemma listing_nodup (fs : tree) (q : path) : wf fs -> NoDup (DOT :: DOTDOT :: dir_order (children fs q)).
Proof.
  intros Hwf.
  assert (forall c', c' ∈ dir_order (children fs q) -> c' <> DOT /\ c' <> DOTDOT) as Hnd.
  { intros c' Hc'. rewrite dir_order_perm in Hc'. apply elem_of_children, (wf_parent _ Hwf) in Hc' as [_ (_ & ? & ? & _)]. done. }
  apply NoDup_cons. split; [|apply NoDup_cons; split].
  - rewrite elem_of_cons. intros [H|H]; [done|]. by apply Hnd in H as [].
  - intros H. by apply Hnd in H as [].
  - rewrite dir_order_perm. apply children_nodup.
Qed.

(** The [rmdir] at the end. *)
Lemma wp_rmdir (fs0 : tree) (s : list Z) (p : path) (c : name) (w : world) (Q : Z -> world -> Prop) :
  leads (w_fs w) s p c -> isdir (w_fs w) (p ++ [c]) -> unlinked (p ++ [c]) fs0 (w_fs w) ->
  (forall w', w_fs w' = w_fs w -> w_answers w' = w_answers w -> (calm w -> children (w_fs w) (p ++ [c]) <> []) -> Q (-1) w') ->
  (forall w', unlinked (p ++ [c]) fs0 (w_fs w') -> w_fs w' = without (p ++ [c]) fs0 ->
     w_answers w' = w_answers w -> Q 0 w') ->
  wp (unlinked (p ++ [c]) fs0) (let! r := sys_rmdir s in wret (if r =? 0 then 0 else -1)) w Q.
Proof.
  intros Hl (i & Ei & Di) [Hp Hw] Hfail Hok. apply wp_bind, wp_syscall.
  { intros Hn. apply wp_ret. by apply Hfail. }
  rewrite (resolve_leads _ _ _ _ _ Hl), Ei, andb_false_r, Ei, Di. cbn [negb].
  destruct (p ++ [c]) as [|x q] eqn:Eq; [by destruct p|]. rewrite <- Eq in *.
  destruct (children (w_fs w) (p ++ [c])) as [|c' l] eqn:Ec; [|by apply wp_ret, wp_ret, Hfail].
  pose proof (delete_without _ _ _ Hp (wf_no_children _ _ Hw Ec)) as Hdel.
  assert (unlinked (p ++ [c]) fs0 (delete (p ++ [c]) (w_fs w))) as Hu.
  { split; [by apply pruned_delete|]. apply wf_delete; [done|by rewrite Eq|done]. }
  apply wp_bind, wp_set_fs; [done|]. apply wp_ret, wp_ret. by apply Hok.
Qed.

Lemma unlink_file (s : list Z) (p : path) (c : name) (i : inode) (w : world) :
  leads (w_fs w) s p c -> wf (w_fs w) -> w_fs w !! (p ++ [c]) = Some i -> is_dir i = false ->
  wp (unlinked (p ++ [c]) (w_fs w)) (let! r := sys_unlink s in wret (if r =? 0 then 0 else -1)) w
    (unlinks (p ++ [c]) (w_fs w) (calm w)).
Proof.
  intros Hl Hw Ei Di. pose proof (wf_leaf _ _ _ Hw Ei Di) as Hch.
  apply wp_bind, wp_syscall.
  { intros Hn. apply wp_ret. split_and!; [by right|by split; [apply pruned_refl|]|done|done]. }
  rewrite (resolve_leads _ _ _ _ _ Hl), Ei, andb_false_r, Ei, Di.
  assert (unlinked (p ++ [c]) (w_fs w) (delete (p ++ [c]) (w_fs w))) as Hu.
  { split; [apply pruned_delete, pruned_refl|]. apply wf_delete; [done|by destruct p|done]. }
  apply wp_bind, wp_set_fs; [done|]. apply wp_ret, wp_ret. split_and!; [by left|done|done|]. intros _.
  apply delete_without; [apply pruned_refl|]. by apply wf_no_children.
Qed.

Lemma dirUnlinkHierarchy_spec fuel : forall (s : list Z) (p : path) (c : name) (w : world),
  leads (w_fs w) s p c -> wf (w_fs w) -> fits fuel s (p ++ [c]) (w_fs w) -> is_Some (w_fs w !! (p ++ [c])) ->
  wp (unlinked (p ++ [c]) (w_fs w)) (dirUnlinkHierarchy fuel s) w (unlinks (p ++ [c]) (w_fs w) (calm w)).
Proof.
  induction fuel as [|fuel IH]; intros s p c w Hl Hw Hf [i Ei].
  { destruct (Hf []) as [_ H0]; [rewrite app_nil_r; by exists i|]. cbn in H0. lia. }
  assert (unlinked (p ++ [c]) (w_fs w) (w_fs w)) as Hrefl by (split; [apply pruned_refl|done]).
  assert (forall w' : world, unlinked (p ++ [c]) (w_fs w) (w_fs w') -> ~ calm w -> unlinks (p ++ [c]) (w_fs w) (calm w) (-1) w')
    as Hfail by (intros w' H Hn; split_and!; [by right|done|done|done]).
  cbn [dirUnlinkHierarchy]. apply wp_bind, wp_syscall; [by intros Hn; apply wp_ret, Hfail|]. apply wp_ret.
  rewrite (resolve_leads _ _ _ _ _ Hl), Ei, andb_false_r, Ei. destruct (is_dir i) eqn:Di; cbn [negb].
  2: { by apply (unlink_file s p c i (asked w)). }
  apply wp_bind, wp_syscall; [by intros Hn; apply wp_ret, Hfail|]. apply wp_ret. cbn [w_fs asked].
  rewrite (resolve_leads _ _ _ _ _ Hl), Ei. assert (is_link i = false) as ->.
  { unfold is_dir, is_link in *. by destruct (i_kind i). }
  cbn [andb]. rewrite Ei, Di.
  assert (forall c', c' ∈ dir_order (children (w_fs w) (p ++ [c])) <-> is_Some (w_fs w !! ((p ++ [c]) ++ [c']))) as Hin.
  { intros c'. rewrite dir_order_perm. apply elem_of_children. }
  apply wp_bind. eapply wp_mono; [apply (unlink_entries_spec fuel _ s p c (w_fs w)) with (w := asked (asked w))|done|]; try done.
  - intros s' c' w' H1 H2 H3 H4. by apply IH.
  - by apply listing_nodup.
  - intros c' Hc'. rewrite !elem_of_cons in Hc'. destruct Hc' as [->|[->|Hc']]; [by left|by right; left|].
    right; right. by apply Hin.
  - by exists i.
  - intros [fail errno] w2 (He & Hu & Hd2 & Hl2 & Hc2). cbn [w_fs asked] in *.
    rewrite (proj2 (Z.ltb_ge errno 0)), orb_false_r by done.
    assert (calm w -> calm w2 /\ fail = false /\ children (w_fs w2) (p ++ [c]) = []) as Hc3.
    { intros Hc. destruct (Hc2 Hc) as (H1 & H2 & H3). split_and!; [done|done|]. apply H3. intros c' Hc'.
      rewrite !elem_of_cons. right; right. by apply Hin. }
    destruct fail; [apply wp_ret, Hfail; [done|]; intros Hc; by destruct (Hc3 Hc) as (_ & ? & _)|].
    apply wp_bind, wp_ask. destruct (_ <? 0) eqn:Ha.
    { apply wp_ret, Hfail; [done|]. intros Hc. destruct (Hc3 Hc) as (H & _). bool_to_prop. specialize (H (w_asked w2)). lia. }
    apply wp_rmdir; [done|done|done| |].
    + intros w3 Hfs _ Hch. apply Hfail; [by rewrite Hfs|]. intros Hc. destruct (Hc3 Hc) as (H1 & _ & H2). by apply Hch.
    + intros w3 Hu3 Hfs Ha3. split_and!; [by left|done| |done]. intros Hc. split; [|done].
      destruct (Hc3 Hc) as (H & _). unfold calm. rewrite Ha3. apply H.
Qed.
End Unlink.

(** [dirUnlinkHierarchy] on a plain path to a node of a well-formed tree whose
    paths stay below PATH_MAX, in any order of the listings: it terminates with 0
    or -1; whatever calls fail and whenever it is interrupted, only nodes at or
    below that node are gone (links are removed, never followed) and the tree is
    well formed; after 0 exactly the subtree is gone; and when no call fails it
    returns 0. *)
Theorem dirUnlinkHierarchy_correct {Dev} {O : DirOrder} fuel s p c (w : world tree Dev)
    (Hpath : leads (w_fs w) s p c) (Hwf : wf (w_fs w)) (Hfits : fits fuel s (p ++ [c]) (w_fs w))
    (Hthere : is_Some (w_fs w !! (p ++ [c]))) :
  wp (fun fs' => pruned (p ++ [c]) (w_fs w) fs' /\ wf fs') (dirUnlinkHierarchy fuel s) w (fun r w' =>
    (r = 0 \/ r = -1) /\ pruned (p ++ [c]) (w_fs w) (w_fs w') /\ wf (w_fs w') /\
    (calm w -> r = 0) /\ (r = 0 -> w_fs w' = without (p ++ [c]) (w_fs w))).
Proof.
  eapply wp_mono; [by apply dirUnlinkHierarchy_spec|done|].
  intros r w' (H1 & [H2 H3] & H4 & H5). split_and!; try done. intros Hc. by apply H4.
Qed.

(** ** Concrete trees *)

Definition wf_node (fs : tree) (q : path) : bool :=
  match last q with
  | None => true
  | Some c => bool_decide (isdir fs (take (length q - 1) q)) && bool_decide (good c)
  end.

Lemma wf_check (fs : tree) :
  bool_decide (isdir fs []) && forallb (wf_node fs) (elements (dom fs)) = true -> wf fs.
Proof.
  intros H. apply andb_true_iff in H as [H1 H2]. apply bool_decide_eq_true in H1. constructor; [done|].
  intros p c Hs. rewrite forallb_forall in H2. specialize (H2 (p ++ [c])). unfold wf_node in H2.
  rewrite last_snoc, length_app in H2. cbn [length] in H2. replace (length p + 1 - 1)%nat with (length p) in H2 by lia.
  rewrite take_app_length in H2.
  rewrite <- elem_of_dom, <- elem_of_elements, list_elem_of_In in Hs. apply H2, andb_true_iff in Hs as [Ha Hb].
  by apply bool_decide_eq_true in Ha, Hb.
Qed.

Definition fits_node (fuel : nat) (s : list Z) (q r : path) : bool :=
  negb (bool_decide (q `prefix_of` r)) ||
  ((zlen s + rel_len (drop (length q) r) <? PATH_MAX) && (length (drop (length q) r) <? fuel)%nat).

Lemma fits_check (fuel : nat) (s : list Z) (q : path) (fs : tree) :
  forallb (fits_node fuel s q) (elements (dom fs)) = true -> fits fuel s q fs.
Proof.
  intros H rel Hs. rewrite forallb_forall in H. specialize (H (q ++ rel)). unfold fits_node in H.
  rewrite <- elem_of_dom, <- elem_of_elements, list_elem_of_In in Hs. apply H in Hs.
  rewrite drop_app_length, bool_decide_true in Hs by (by apply prefix_app_r). cbn [negb orb] in Hs.
  apply andb_true_iff in Hs as [H1 H2]. bool_to_prop. apply Nat.ltb_lt in H2. done.
Qed.

(** Listings in the order of the tree. *)
Definition tree_order : DirOrder := {| dir_order := fun l => l; dir_order_perm := fun l => Permutation_refl l |}.

(** A disk with [/data], a directory and a file in it, and a link in it that
    leads out of it. *)
Definition data_tree : tree := {[
  [] := new_inode KDir 493;
  [str "system"] := new_inode KDir 493;
  [str "system"; str "lib"] := new_inode (KFile [1; 2]) 420;
  [str "data"] := new_inode KDir 493;
  [str "data"; str "app"] := new_inode KDir 493;
  [str "data"; str "app"; str "f"] := new_inode (KFile [7]) 420;
  [str "data"; str "link"] := new_inode (KLink (str "/system")) 511 ]}.
Definition data_world (answers : nat -> Z) : world tree unit := mkWorld data_tree tt answers 0 [].

Lemma data_leads : leads data_tree (str "/data") [] (str "data").
Proof.
  constructor; [reflexivity|reflexivity|by_decide|]. intros k Hk. cbn in Hk. assert (k = 0)%nat as -> by lia.
  eexists. by split; vm_compute.
Qed.

Lemma data_wf : wf data_tree.
Proof. apply wf_check. by vm_compute. Qed.

Lemma dirUnlinkHierarchy_correct_witness :
  exists w', @dirUnlinkHierarchy unit tree_order 4 (str "/data") (data_world (fun _ => 0)) = (Done 0, w') /\
    w_fs w' = without [str "data"] data_tree /\ w_fs w' !! [str "system"; str "lib"] = data_tree !! [str "system"; str "lib"].
Proof.
  destruct (@dirUnlinkHierarchy_correct unit tree_order 4 (str "/data") [] (str "data") (data_world (fun _ => 0)))
    as (r & w' & l & E & _ & _ & H1 & H2 & H3 & H4 & H5).
  - exact data_leads.
  - exact data_wf.
  - apply fits_check. by vm_compute.
  - eexists. by vm_compute.
  - rewrite H4 in E, H5 by (intros n; discriminate). exists w'. specialize (H5 eq_refl). cbn [app] in H5.
    split_and!; [exact E|exact H5|]. rewrite H5, lookup_without. by rewrite decide_False by (by intros [x Hx]; inversion Hx).
Defined.

(** ** Paths as long as the buffer *)

Section Long.
  Context {Dev : Type} {O : DirOrder}.
  Abbreviation world := (world tree Dev).

Lemma diverges_bind {A B} (m : W tree Dev A) (k : A -> W tree Dev B) (w : world) a :
  returns m w a -> (forall w', w_fs w' = w_fs w -> calm w' -> (k a w').1 = Diverge) -> (wbind m k w).1 = Diverge.
Proof. intros (w' & E & Hf & Hc) Hk. unfold wbind. rewrite E. by apply Hk. Qed.

Lemma diverges_first {A B} (m : W tree Dev A) (k : A -> W tree Dev B) (w : world) :
  (m w).1 = Diverge -> (wbind m k w).1 = Diverge.
Proof. intros H. unfold wbind. destruct (m w) as [[]]; by cbn in *. Qed.

Lemma returns_syscall {A : Type} (fault : A) (f : tree -> W tree Dev A) (a : A) (w : world) :
  calm w -> (forall w', f (w_fs w) w' = (Done a, w')) -> returns (syscall fault f) w a.
Proof.
  intros Hc Hf. unfold returns, syscall, wbind, ask, get_fs. cbn [fst snd w_fs].
  rewrite (proj2 (Z.ltb_ge _ _) (Hc (w_asked w))), Hf. by eexists.
Qed.

Lemma unlink_skips (rec : list Z -> W tree Dev Z) (s : list Z) (c : name) (es : list name) (w : world) :
  c = DOTDOT \/ c = DOT -> calm w ->
  (forall w', w_fs w' = w_fs w -> calm w' -> (unlink_entries rec s es w').1 = Diverge) ->
  (unlink_entries rec s (c :: es) w).1 = Diverge.
Proof.
  intros Hd Hc Hk. cbn [unlink_entries]. destruct (returns_ask _ Hc) as (a & Ha & Hask).
  apply (diverges_bind _ _ _ _ Hask). intros w' Hf' Hc'. rewrite (proj2 (Z.ltb_ge _ _) Ha).
  replace (_ || _) with true; [by apply Hk|]. by destruct Hd as [->| ->].
Qed.

Lemma long_dn (s : list Z) (c : name) :
  zlen s = PATH_MAX - 2 -> dn s c = s ++ [SLASH] /\ dn (s ++ [SLASH]) c = s ++ [SLASH].
Proof.
  intros Hlen. unfold dn. replace (s ++ SLASH :: c) with ((s ++ [SLASH]) ++ c) by (by rewrite <- app_assoc).
  assert (Z.to_nat (PATH_MAX - 1) = length (s ++ [SLASH])) as -> by (rewrite length_app; cbn; unfold PATH_MAX in *; lia).
  split; by rewrite take_app_length.
Qed.

Lemma long_loop (fs : tree) (s : list Z) (q : path) (i : inode) (c : name) fuel : forall (s' : list Z) (w : world),
  (forall follow, resolve follow fs s = Found q) -> (forall follow, resolve follow fs (s ++ [SLASH]) = Found q) ->
  fs !! q = Some i -> is_dir i = true -> wf fs -> is_Some (fs !! (q ++ [c])) -> zlen s = PATH_MAX - 2 ->
  (s' = s \/ s' = s ++ [SLASH]) -> w_fs w = fs -> calm w -> (dirUnlinkHierarchy fuel s' w).1 = Diverge.
Proof.
  induction fuel as [|fuel IH]; intros s' w Hr1 Hr2 Hi Di Hwf Hs Hlen Hs' Hfs Hc; [done|]. cbn [dirUnlinkHierarchy].
  assert (forall follow, resolve follow fs s' = Found q) as Hr by (by destruct Hs' as [->| ->]).
  apply (diverges_bind _ _ _ (inl i)).
  { apply returns_syscall; [done|]. intros w'. by rewrite Hfs, Hr, Hi. }
  intros w1 Hf1 Hc1. rewrite Di. cbn [negb].
  apply (diverges_bind _ _ _ (inl (DOT :: DOTDOT :: dir_order (children fs q)))).
  { apply returns_syscall; [done|]. intros w'. rewrite Hf1, Hfs, Hr, Hi. by rewrite Di. }
  intros w2 Hf2 Hc2. apply diverges_first.
  assert (exists c1 es, dir_order (children fs q) = c1 :: es /\ good c1) as (c1 & es & Ees & Hg).
  { destruct (dir_order (children fs q)) as [|c1 es] eqn:E.
    - exfalso. assert (c ∈ dir_order (children fs q)) as Hin by (rewrite dir_order_perm; by apply elem_of_children).
      rewrite E in Hin. inversion Hin.
    - exists c1, es. split; [done|]. assert (c1 ∈ dir_order (children fs q)) as Hin by (rewrite E; left).
      rewrite dir_order_perm in Hin. apply elem_of_children in Hin. by apply (wf_parent _ Hwf) in Hin as []. }
  rewrite Ees. apply unlink_skips; [by right|done|]. intros w3 Hf3 Hc3.
  apply unlink_skips; [by left|done|]. intros w4 Hf4 Hc4. cbn [unlink_entries].
  destruct (returns_ask _ Hc4) as (a & Ha & Hask). apply (diverges_bind _ _ _ _ Hask). intros w5 Hf5 Hc5.
  rewrite (proj2 (Z.ltb_ge _ _) Ha).
  destruct Hg as (_ & Hg1 & Hg2 & _). rewrite !bool_decide_false by done. cbn [orb]. apply diverges_first.
  assert (dn s' c1 = s ++ [SLASH]) as -> by (destruct (long_dn s c1 Hlen), Hs' as [->| ->]; done).
  apply IH; try done; [by right|congruence].
Qed.
End Long.

(** A directory that is not empty, under a path of PATH_MAX - 2 bytes: the
    paths of its entries are cut to the path of the directory itself, so
    [dirUnlinkHierarchy] calls itself on the directory for ever. *)
Theorem dirUnlinkHierarchy_long_path {Dev} {O : DirOrder} fuel s p c c' (w : world tree Dev)
    (Hcalm : calm w) (Hpath : leads (w_fs w) s p c) (Hwf : wf (w_fs w)) (Hlen : zlen s = PATH_MAX - 2)
    (Hchild : is_Some (w_fs w !! ((p ++ [c]) ++ [c']))) :
  (dirUnlinkHierarchy fuel s w).1 = Diverge.
Proof.
  destruct (wf_parent _ Hwf _ _ Hchild) as [(i & Hi & Di) _].
  assert (is_link i = false) as Hln by (unfold is_dir, is_link in *; by destruct (i_kind i)).
  apply (long_loop (w_fs w) s (p ++ [c]) i c'); try done; [| |by left]; intros follow.
  - by rewrite (resolve_leads _ _ _ _ _ Hpath), Hi, Hln.
  - destruct Hpath as [_ Hcomp Hg Hd]. unfold resolve. rewrite length_app. cbn [length].
    rewrite (proj2 (Z.leb_gt _ _)) by (unfold PATH_MAX in *; lia). destruct (s ++ [SLASH]) as [|x l] eqn:E; [by destruct s|].
    rewrite <- E. rewrite (components_slash _ (p ++ [c]) [SLASH]); [|done| |done|by apply Forall_singleton].
    + rewrite (walk_dirs _ _ _ (p ++ [c])); [|done|by apply dirs_to_snoc; [|exists i]]. cbn [app].
      rewrite walk_eq, Hi, Di. cbn [negb]. by rewrite bool_decide_true, walk_eq.
    + intros Hl. unfold components in Hcomp. rewrite Hl in Hcomp. apply app_inj_tail in Hcomp as [_ <-].
      apply Forall_app in Hg as [_ Hg]. by apply Forall_inv in Hg as (_ & [] & _).
Qed.

Definition long_data : list Z := replicate 4090 SLASH ++ str "data".

Lemma dirUnlinkHierarchy_long_path_witness :
  zlen long_data = PATH_MAX - 2 /\
  (@dirUnlinkHierarchy unit tree_order 100 long_data (data_world (fun _ => 0))).1 = Diverge.
Proof.
  split; [reflexivity|].
  apply (dirUnlinkHierarchy_long_path 100 long_data [] (str "data") (str "app")).
  - intros n. discriminate.
  - constructor; [reflexivity|vm_compute; reflexivity|by_decide|apply data_leads].
  - exact data_wf.
  - reflexivity.
  - eexists. by vm_compute.
Defined.
