(* ===== verification/DirPerms.v ===== *)
(** * Setting the permissions of a subtree

    [dirSetHierarchyPermissions] of [minzip/DirUtil.c]. *)
From S2P Require Import Prelude.
From S2P Require Import Posix.
From S2P Require Import PosixFacts.
From S2P Require Import DirUtil.
From S2P Require Import DirTrees.

Section Permissions.
  Context {Dev : Type} {O : DirOrder}.
  Abbreviation world := (world tree Dev).
  Context (uid gid dirMode fileMode : Z).

(** The node a file or a directory becomes; links are left alone. *)
Definition permitted (i : inode) : inode :=
  if is_link i then i
  else mkInode (i_kind i) (if is_dir i then dirMode else fileMode) uid gid (i_time i).

(** Every node at or below [q] has its permissions. *)
Definition permit (q : path) (fs : tree) : tree :=
  map_imap (fun r i => Some (if decide (q `prefix_of` r) then permitted i else i)) fs.

Lemma lookup_permit (q r : path) (fs : tree) :
  permit q fs !! r = if decide (q `prefix_of` r) then permitted <$> fs !! r else fs !! r.
Proof. unfold permit. rewrite map_lookup_imap. destruct (fs !! r); cbn; by destruct (decide _). Qed.

(** Files, directories and links are where they were, with what they hold. *)
Definition same_nodes (fs fs' : tree) : Prop := forall r, i_kind <$> fs' !! r = i_kind <$> fs !! r.

(** Permissions at or below [q] may differ, nothing else. *)
Definition retuned (q : path) (fs fs' : tree) : Prop :=
  same_nodes fs fs' /\ forall r, (~ q `prefix_of` r) -> fs' !! r = fs !! r.

Lemma retuned_refl q fs : retuned q fs fs.
Proof. by split. Qed.

Lemma retuned_child (q : path) (c : name) (fs fs1 fs2 : tree) :
  retuned q fs fs1 -> retuned (q ++ [c]) fs1 fs2 -> retuned q fs fs2.
Proof.
  intros [H1 H2] [H3 H4]. split; [intros r; by rewrite H3|]. intros r Hr. rewrite H4; [by apply H2|].
  intros Hp. apply Hr. etrans; [|exact Hp]. by apply prefix_app_r.
Qed.

Lemma retuned_insert (q : path) (fs fs' : tree) (i j : inode) :
  retuned q fs fs' -> fs' !! q = Some i -> i_kind j = i_kind i -> retuned q fs (<[q := j]> fs').
Proof.
  intros [H1 H2] Hi Hk. split; intros r.
  - rewrite <- H1. destruct (decide (q = r)) as [<-|Hne]; [rewrite lookup_insert_eq, Hi; cbn; by rewrite Hk|].
    by rewrite lookup_insert_ne.
  - intros Hr. rewrite lookup_insert_ne; [by apply H2|]. by intros ->.
Qed.

Section Same.
  Context (fs fs' : tree) (H : same_nodes fs fs').

Lemma same_some r : is_Some (fs' !! r) <-> is_Some (fs !! r).
Proof using H.
  specialize (H r). destruct (fs' !! r), (fs !! r); cbn in H; try discriminate H; split; intros [x Hx]; try discriminate Hx; by eexists.
Qed.

Lemma same_isdir r : isdir fs r -> isdir fs' r.
Proof using H.
  intros (i & Hi & Di). specialize (H r). rewrite Hi in H. destruct (fs' !! r) as [j|] eqn:E; [|discriminate].
  exists j. split; [done|]. cbn in H. injection H as H. unfold is_dir in *. by rewrite H.
Qed.

Lemma same_leads s p c : leads fs s p c -> leads fs' s p c.
Proof using H. intros []. constructor; try done. intros k Hk. by apply same_isdir, leads_dirs. Qed.

Lemma same_wf : wf fs -> wf fs'.
Proof using H.
  intros [H1 H2]. constructor; [by apply same_isdir|]. intros p c Hs. apply same_some, H2 in Hs as [Hd Hg].
  by split; [apply same_isdir|].
Qed.

Lemma same_fits fuel s q : fits fuel s q fs -> fits fuel s q fs'.
Proof using H. intros Hf rel Hs. apply Hf. by apply same_some. Qed.

Lemma same_node r (i : inode) : fs !! r = Some i -> exists j, fs' !! r = Some j /\ i_kind j = i_kind i.
Proof using H.
  intros Hi. specialize (H r). rewrite Hi in H. destruct (fs' !! r) as [j|]; [|discriminate]. exists j.
  cbn in H. injection H as H. done.
Qed.
End Same.

(** After the directory itself and its entries other than [es]. *)
Definition half_done (q : path) (es : list name) (fs fs' : tree) : Prop :=
  forall r, fs' !! r = if decide (q `prefix_of` r /\ ~ Exists (fun c => (q ++ [c]) `prefix_of` r) es)
                       then permitted <$> fs !! r else fs !! r.

Definition sets (q : path) (fs : tree) (calm_before : Prop) (r : Z) (w' : world) : Prop :=
  (r = 0 \/ r = -1) /\ retuned q fs (w_fs w') /\ (calm_before -> calm w' /\ r = 0) /\
  (r = 0 -> w_fs w' = permit q fs).

(** One entry more is done. *)
Lemma half_done_child (q : path) (c : name) (es : list name) (fs fs1 : tree) :
  (c ∉ es) -> half_done q (c :: es) fs fs1 -> half_done q es fs (permit (q ++ [c]) fs1).
Proof.
  intros Hnin H r. rewrite lookup_permit, H. destruct (decide ((q ++ [c]) `prefix_of` r)) as [Hp|Hp].
  - rewrite decide_False by (intros [_ Hn]; apply Hn; by left). rewrite decide_True; [done|].
    split; [etrans; [|exact Hp]; by apply prefix_app_r|]. rewrite Exists_exists. intros (c' & Hin & Hp').
    assert (c = c') as ->; [|done]. destruct Hp as [k ->]. rewrite <- app_assoc in Hp'. apply prefix_app_inv in Hp'.
    by apply prefix_cons_inv_1 in Hp'.
  - destruct (decide (q `prefix_of` r /\ ~ Exists (fun c => (q ++ [c]) `prefix_of` r) es)) as [[H1 H2]|Hn].
    + rewrite decide_True; [done|]. split; [done|]. intros HE. apply Exists_cons in HE as [|]; done.
    + rewrite decide_False; [done|]. intros [H1 H2]. apply Hn. split; [done|]. intros HE. apply H2. by right.
Qed.

Lemma half_done_nil (q : path) (fs fs' : tree) : half_done q [] fs fs' -> fs' = permit q fs.
Proof.
  intros H. apply map_eq. intros r. rewrite H, lookup_permit.
  destruct (decide (q `prefix_of` r)) as [Hp|Hp]; [rewrite decide_True; [done|]|by rewrite decide_False by tauto].
  split; [done|]. intros HE. inversion HE.
Qed.

(** The names [.] and [..] stand for no entry. *)
Lemma half_done_skip (q : path) (c : name) (es : list name) (fs fs' : tree) :
  (forall rel, fs !! ((q ++ [c]) ++ rel) = None) -> half_done q (c :: es) fs fs' -> half_done q es fs fs'.
Proof.
  intros Hn H r. rewrite H. destruct (decide ((q ++ [c]) `prefix_of` r)) as [[k ->]|Hp].
  - rewrite Hn. by repeat destruct (decide _).
  - apply decide_ext. split; intros [H1 H2]; (split; [done|]); intros HE; apply H2; [by right|].
    by apply Exists_cons in HE as [|].
Qed.

Lemma set_entries_spec (fuel : nat) (rec : list Z -> W tree Dev Z) (s : list Z) (p : path) (c : name) (fs0 : tree) :
  wf fs0 -> leads fs0 s p c -> isdir fs0 (p ++ [c]) -> fits (S fuel) s (p ++ [c]) fs0 ->
  (forall s' c' (w : world), leads (w_fs w) s' (p ++ [c]) c' -> wf (w_fs w) ->
     fits fuel s' ((p ++ [c]) ++ [c']) (w_fs w) -> is_Some (w_fs w !! ((p ++ [c]) ++ [c'])) ->
     wp (retuned ((p ++ [c]) ++ [c']) (w_fs w)) (rec s') w (sets ((p ++ [c]) ++ [c']) (w_fs w) (calm w))) ->
  forall es (w : world), NoDup es ->
    (forall c', c' ∈ es -> c' = DOT \/ c' = DOTDOT \/ is_Some (fs0 !! ((p ++ [c]) ++ [c']))) ->
    retuned (p ++ [c]) fs0 (w_fs w) -> half_done (p ++ [c]) es fs0 (w_fs w) ->
    wp (retuned (p ++ [c]) fs0) (set_entries rec s es) w (fun errno w' =>
      retuned (p ++ [c]) fs0 (w_fs w') /\ (calm w -> calm w' /\ errno = 0) /\
      (errno = 0 -> w_fs w' = permit (p ++ [c]) fs0)).
Proof.
  intros Hwf Hl Hd Hf Hrec es. remember (p ++ [c]) as q eqn:Eq.
  induction es as [|c' es IH]; intros w Hnd Hes Hu Hh; cbn [set_entries]; apply wp_bind, wp_ask;
    destruct (_ <? 0) eqn:Ha.
  1,3: apply wp_ret; split_and!; [done| |done]; intros Hc; bool_to_prop; specialize (Hc (w_asked w)); lia.
  - apply wp_ret. split_and!; [done|done|]. intros _. by apply half_done_nil.
  - apply NoDup_cons in Hnd as [Hnin Hnd]. destruct (_ || _) eqn:Edot.
    + apply (IH (asked w)); try done; [intros c'' Hin; apply Hes; by right|]. cbn [w_fs asked].
      eapply half_done_skip; [|exact Hh]. intros rel. destruct (fs0 !! ((q ++ [c']) ++ rel)) as [i|] eqn:E; [|done]. exfalso.
      assert (is_Some (fs0 !! (q ++ [c']))) as Hs by (apply (wf_below _ _ Hwf rel); by exists i).
      apply (wf_parent _ Hwf) in Hs as [_ (_ & Hn1 & Hn2 & _)]. apply orb_true_iff in Edot.
      by destruct Edot as [E'|E']; apply bool_decide_eq_true in E'.
    + destruct (Hes c') as [->|[->|Hs]]; [left|done|done|].
      destruct (wf_parent _ Hwf _ _ Hs) as [_ Hgood].
      assert (leads fs0 (dn s c') q c' /\ zlen (dn s c') = zlen s + zlen c' + 1) as [Hlc Hlen].
      { rewrite Eq in *. by eapply leads_child. }
      pose proof (proj1 Hu) as Hsame.
      apply wp_bind. eapply wp_mono; [apply (Hrec _ c' (asked w))| |].
      * by apply (same_leads fs0).
      * by apply (same_wf fs0).
      * apply (same_fits fs0); [done|]. by apply fits_child.
      * by apply (same_some fs0).
      * intros fs' Hr. by eapply retuned_child.
      * intros r w2 (Hr & Hp2 & Hcalm & Hset). cbn [w_fs asked] in *.
        assert (retuned q fs0 (w_fs w2)) as Hu2 by (by eapply retuned_child).
        destruct Hr as [->| ->].
        -- cbn [Z.eqb]. eapply wp_mono; [apply IH|done|]; try done.
           ++ intros c'' Hin. apply Hes. by right.
           ++ rewrite Hset by done. by apply half_done_child.
           ++ intros errno w' (H1 & H2 & H3). split_and!; [done| |done]. intros Hc. by apply H2, Hcalm.
        -- apply wp_ret. split_and!; [done| |done]. intros Hc. by destruct (Hcalm Hc).
Qed.

(** A [chown] or [chmod] of the node of a plain path that is not a link. *)
Lemma wp_change (fs0 : tree) (g : inode -> inode) (s : list Z) (p : path) (c : name) (i : inode) (w : world)
    (Q : Z -> world -> Prop) :
  leads (w_fs w) s p c -> retuned (p ++ [c]) fs0 (w_fs w) -> w_fs w !! (p ++ [c]) = Some i -> is_link i = false ->
  i_kind (g i) = i_kind i -> (~ calm w -> Q EIO (asked w)) ->
  (forall w', w_answers w' = w_answers w -> w_fs w' = <[p ++ [c] := g i]> (w_fs w) -> Q 0 w') ->
  wp (retuned (p ++ [c]) fs0) (sys_change s g) w Q.
Proof.
  intros Hl Hu Hi Hln Hk Hfail Hok. apply wp_syscall; [done|].
  rewrite (resolve_leads _ _ _ _ _ Hl), Hi, Hln. cbn [andb]. rewrite Hi.
  apply wp_bind, wp_set_fs; [by eapply retuned_insert|]. by apply wp_ret, Hok.
Qed.

Lemma permit_leaf (q : path) (fs : tree) (i : inode) :
  wf fs -> fs !! q = Some i -> children fs q = [] -> permit q fs = <[q := permitted i]> fs.
Proof.
  intros Hwf Hi Hch. apply map_eq. intros r. rewrite lookup_permit. destruct (decide (r = q)) as [->|Hne].
  - by rewrite lookup_insert_eq, decide_True, Hi.
  - rewrite lookup_insert_ne by done. destruct (decide _) as [Hp|]; [|done].
    by rewrite (wf_no_children _ _ Hwf Hch r).
Qed.

Lemma half_done_start (q : path) (es : list name) (fs : tree) (i : inode) :
  wf fs -> fs !! q = Some i -> (forall c, is_Some (fs !! (q ++ [c])) -> c ∈ es) ->
  half_done q es fs (<[q := permitted i]> fs).
Proof.
  intros Hwf Hi Hes r. destruct (decide (r = q)) as [->|Hne].
  - rewrite lookup_insert_eq, Hi, decide_True; [done|]. split; [done|]. rewrite Exists_exists. intros (c & _ & Hp).
    by apply snoc_not_prefix in Hp.
  - rewrite lookup_insert_ne by done. destruct (decide _) as [[[rel ->] Hn]|]; [|done].
    destruct rel as [|c rel]; [by rewrite app_nil_r in Hne|]. destruct (fs !! (q ++ c :: rel)) as [j|] eqn:E; [|done].
    exfalso. apply Hn. rewrite Exists_exists. exists c. split; [|exists rel; by rewrite <- app_assoc].
    apply Hes, (wf_below _ _ Hwf rel). rewrite <- app_assoc. by exists j.
Qed.

Lemma children_dom (fs fs' : tree) (q : path) : dom fs = dom fs' -> children fs q = children fs' q.
Proof. unfold children. by intros ->. Qed.

Lemma dirSetHierarchyPermissions_spec fuel : forall (s : list Z) (p : path) (c : name) (w : world),
  leads (w_fs w) s p c -> wf (w_fs w) -> fits fuel s (p ++ [c]) (w_fs w) -> is_Some (w_fs w !! (p ++ [c])) ->
  wp (retuned (p ++ [c]) (w_fs w)) (dirSetHierarchyPermissions fuel uid gid dirMode fileMode s) w
    (sets (p ++ [c]) (w_fs w) (calm w)).
Proof.
  induction fuel as [|fuel IH]; intros s p c w Hl Hw Hf [i Ei].
  { destruct (Hf []) as [_ H0]; [rewrite app_nil_r; by exists i|]. cbn in H0. lia. }
  pose proof (retuned_refl (p ++ [c]) (w_fs w)) as Hrefl.
  assert (forall w' : world, retuned (p ++ [c]) (w_fs w) (w_fs w') -> ~ calm w -> sets (p ++ [c]) (w_fs w) (calm w) (-1) w')
    as Hfail by (intros w' H Hn; split_and!; [by right|done|done|done]).
  cbn [dirSetHierarchyPermissions]. apply wp_bind, wp_syscall; [by intros Hn; apply wp_ret, Hfail|]. apply wp_ret.
  rewrite (resolve_leads _ _ _ _ _ Hl), Ei, andb_false_r, Ei. destruct (is_link i) eqn:Hln.
  { apply wp_ret. split_and!; [by left|done|done|]. intros _. rewrite (permit_leaf _ _ i); [|done|done|].
    - unfold permitted. rewrite Hln. by rewrite insert_id.
    - apply (wf_leaf _ _ i); [done|done|]. unfold is_dir, is_link in *. by destruct (i_kind i). }
  apply wp_bind. apply (wp_change (w_fs w) (with_owner uid gid) s p c i); try done.
  { intros Hn. by apply wp_ret, Hfail. }
  intros w1 Ha1 Hf1. cbn [w_answers w_fs asked] in Ha1, Hf1.
  assert (retuned (p ++ [c]) (w_fs w) (w_fs w1)) as Hu1 by (rewrite Hf1; by eapply retuned_insert).
  cbn [Z.eqb negb]. apply wp_bind.
  apply (wp_change (w_fs w) _ s p c (with_owner uid gid i)); try done;
    [by eapply (same_leads (w_fs w)); [apply Hu1|]|by rewrite Hf1, lookup_insert_eq| |].
  { intros Hn. apply wp_ret, Hfail; [done|]. unfold calm in *. by rewrite Ha1 in Hn. }
  intros w2 Ha2 Hf2.
  assert (w_fs w2 = <[p ++ [c] := permitted i]> (w_fs w)) as Hfs.
  { rewrite Hf2, Hf1, insert_insert_eq. unfold permitted. by rewrite Hln. }
  assert (retuned (p ++ [c]) (w_fs w) (w_fs w2)) as Hu2.
  { rewrite Hfs. eapply retuned_insert; [done|done|]. unfold permitted. by rewrite Hln. }
  assert (calm w -> calm w2) as Hc2 by (unfold calm; by rewrite Ha2, Ha1).
  cbn [Z.eqb negb]. destruct (is_dir i) eqn:Di.
  2: { apply wp_ret. split_and!; [by left|done|by intros Hc; split; [apply Hc2|]|]. intros _.
       rewrite Hfs. rewrite (permit_leaf _ _ i); [done|done|done|]. by apply (wf_leaf _ _ i). }
  apply wp_bind, wp_syscall; [intros Hn; apply wp_ret, Hfail; [done|]; intros Hc; by apply Hn, Hc2|]. apply wp_ret.
  pose proof (same_leads _ _ (proj1 Hu2) _ _ _ Hl) as Hl2.
  rewrite (resolve_leads _ _ _ _ _ Hl2), Hfs, lookup_insert_eq.
  assert (is_link (permitted i) = false /\ is_dir (permitted i) = true) as [Hp1 Hp2].
  { unfold permitted. rewrite Hln. split; [exact Hln|exact Di]. }
  rewrite Hp1. cbn [andb]. rewrite lookup_insert_eq, Hp2.
  rewrite (children_dom _ (w_fs w)) by (apply dom_insert_lookup_L; by exists i).
  apply wp_bind. eapply wp_mono; [apply (set_entries_spec fuel _ s p c (w_fs w)) with (w := asked w2)|done|]; try done.
  - by exists i.
  - intros s' c' w' H1 H2 H3 H4. by apply IH.
  - by apply listing_nodup.
  - intros c' Hc'. rewrite !elem_of_cons, dir_order_perm in Hc'. destruct Hc' as [->|[->|Hc']]; [by left|by right; left|].
    right; right. by apply elem_of_children.
  - cbn [w_fs asked]. rewrite Hfs. apply half_done_start; [done|done|]. intros c' Hc'.
    rewrite !elem_of_cons, dir_order_perm. right; right. by apply elem_of_children.
  - intros errno w3 (Hu3 & Hc3 & Hs3). change (calm (asked w2)) with (calm w2) in Hc3.
    destruct (Z.eqb_spec errno 0) as [->|Hne]; cbn [negb].
    + apply wp_bind, wp_ask, wp_ret. split_and!; [destruct (_ <? 0); auto|done| |by intros _; apply Hs3].
      intros Hc. apply Hc2, Hc3 in Hc as [Hc _]. split; [done|]. by rewrite (proj2 (Z.ltb_ge _ _) (Hc _)).
    + apply wp_ret, Hfail; [done|]. intros Hc. by apply Hc2, Hc3 in Hc as [_ ?].
Qed.

End Permissions.

(** [dirSetHierarchyPermissions] on a plain path to a node of a well-formed
    tree whose paths stay below PATH_MAX: it terminates with 0 or -1; whatever
    calls fail and whenever it is interrupted, no file, directory or link is lost
    or altered but for owner and mode, and nothing outside the subtree changes;
    after 0 every file and directory of the subtree has the owner and the mode
    asked for and links are as they were; and when no call fails it returns 0. *)
Theorem dirSetHierarchyPermissions_correct {Dev} {O : DirOrder} fuel uid gid dirMode fileMode s p c (w : world tree Dev)
    (Hpath : leads (w_fs w) s p c) (Hwf : wf (w_fs w)) (Hfits : fits fuel s (p ++ [c]) (w_fs w))
    (Hthere : is_Some (w_fs w !! (p ++ [c]))) :
  wp (retuned (p ++ [c]) (w_fs w)) (dirSetHierarchyPermissions fuel uid gid dirMode fileMode s) w (fun r w' =>
    (r = 0 \/ r = -1) /\ retuned (p ++ [c]) (w_fs w) (w_fs w') /\ (calm w -> r = 0) /\
    (r = 0 -> w_fs w' = permit uid gid dirMode fileMode (p ++ [c]) (w_fs w))).
Proof.
  eapply wp_mono; [by apply dirSetHierarchyPermissions_spec|done|].
  intros r w' (H1 & H2 & H3 & H4). split_and!; try done. intros Hc. by apply H3.
Qed.

Lemma dirSetHierarchyPermissions_correct_witness :
  exists w', @dirSetHierarchyPermissions unit tree_order 4 1000 1001 448 384 (str "/data") (data_world (fun _ => 0)) = (Done 0, w') /\
    w_fs w' !! [str "data"; str "app"; str "f"] = Some (mkInode (KFile [7]) 384 1000 1001 None) /\
    w_fs w' !! [str "data"; str "link"] = data_tree !! [str "data"; str "link"].
Proof.
  destruct (@dirSetHierarchyPermissions_correct unit tree_order 4 1000 1001 448 384 (str "/data") [] (str "data") (data_world (fun _ => 0)))
    as (r & w' & l & E & _ & _ & H1 & H2 & H3 & H4).
  - exact data_leads.
  - exact data_wf.
  - apply fits_check. by vm_compute.
  - eexists. by vm_compute.
  - rewrite H3 in E, H4 by (intros n; discriminate). exists w'. specialize (H4 eq_refl). cbn [app] in H4.
    split_and!; [exact E| |]; rewrite H4, lookup_permit; by vm_compute.
Defined.
