(* ===== verification/Bootloader.v ===== *)
(** * Talking to the bootloader ([bootloader.c])

    The message in the misc partition that tells the bootloader what to boot
    and recovery what to do, on a block device or on raw flash, and the image of
    a radio or hboot update on the cache partition. *)
From S2P Require Import Prelude.
From S2P Require Import Posix.
From S2P Require Import Stdio.
From S2P Require Import Mtdutils.
From S2P Require Import MtdScan.

(** A line of /etc/recovery.fstab ([Volume] in [common.h], a [struct fstab_rec]):
    [None] is a null pointer, [voldmanaged] a flag of it. *)
Record Volume := mkVolume {
  mount_point : string;
  fs_type : string;
  blk_device : string;
  fs_options : option string;
  fs_type2 : option string;
  fs_options2 : option string;
  blk_device2 : option string;
  vol_length : Z;
  voldmanaged : bool;
  vol_label : option string
}.

(** A line without the optional fields. *)
Definition simple_volume (mp fs dev : string) : Volume := mkVolume mp fs dev None None None None 0 false None.

(** What the rest of recovery uses of [roots.c]. *)
Class Roots (Dev : Type) := {
  volume_for_path : string -> option Volume;
  ensure_path_mounted : list Z -> W tree Dev Z;
  ensure_path_unmounted : list Z -> W tree Dev Z;
  format_volume : list Z -> W tree Dev Z
}.

(** [ioctl(fd, MEMGETINFO, &mtd_info)]: size, erase size and write size. *)
Class MtdInfo (D : MtdDriver) := dev_getinfo : dev -> Z -> option (Z * Z * Z).

Record bootloader_message := mkMessage {
  command : list Z;
  status : list Z;
  recovery : list Z
}.

(** Its layout: char command[32], status[32], recovery[1024]. *)
Definition message_bytes (m : bootloader_message) : list Z := command m ++ status m ++ recovery m.
Definition message_of (b : list Z) : bootloader_message :=
  mkMessage (take 32 b) (take 32 (drop 32 b)) (take 1024 (drop 64 b)).
Definition sizeof_message : Z := 1088.

Definition wf_message (m : bootloader_message) : Prop :=
  length (command m) = 32%nat /\ length (status m) = 32%nat /\ length (recovery m) = 1024%nat.

(** [memset(&boot, 0, sizeof(boot))]. *)
Definition zero_message : bootloader_message :=
  mkMessage (replicate 32 0) (replicate 32 0) (replicate 1024 0).

Definition MISC_PAGES : Z := 3.
Definition MISC_COMMAND_PAGE : Z := 1.

Section Bootloader.
  Context {D : MtdDriver} {I : MtdInfo D} {R : Roots dev}.
  Abbreviation W := (W tree dev).
  (** BOARD_RECOVERY_BLDRMSG_OFFSET, 0 when the board does not define it;
      whether [malloc(n)] succeeds; the contents of /proc/mtd; the fuel of the
      loops over flash blocks. *)
  Context (bldrmsg_offset : Z) (malloc_ok : Z -> bool) (proc_mtd : option string) (fuel : nat).

(** ** Misc partitions on block devices *)

Fixpoint wait_tries (tries : nat) (fn : list Z) : W unit :=
  match tries with
  | O => wret tt
  | S tries =>
      let! st := sys_stat fn in
      match st with inl _ => wret tt | inr _ => wait_tries tries fn end
  end.

Definition wait_for_device (fn : list Z) : W unit := wait_tries 10 fn.

(** [None] is the return value -1. *)
Definition get_bootloader_message_block (v : Volume) : W (option bootloader_message) :=
  let! _ := wait_for_device (str (blk_device v)) in
  let! f := fopen_r (str (blk_device v)) in
  match f with
  | inr _ => wret None
  | inl f =>
      let! (temp, _) := fread sizeof_message (mkR (r_node f) bldrmsg_offset) in
      if negb (zlen temp =? sizeof_message) then wret None
      else
        let! a := ask in
        if a <? 0 then wret None else wret (Some (message_of temp))
  end.

Definition set_bootloader_message_block (in_ : bootloader_message) (v : Volume) : W Z :=
  let! _ := wait_for_device (str (blk_device v)) in
  let! f := fopen_rplus (str (blk_device v)) in
  match f with
  | inr _ => wret (-1)
  | inl f =>
      let! (ok, f) := fwrite (message_bytes in_) (fseek_w bldrmsg_offset f) in
      if negb ok then wret (-1)
      else
        let! r := fclose f in
        if negb (r =? 0) then wret (-1) else wret 0
  end.

(** ** Misc partitions on MTD *)

(** [mtd_partition_info(part, NULL, NULL, &write_size)]. *)
Definition mtd_partition_info (d : dev) (p : MtdPartition) : option (Z * Z * Z) :=
  if dev_open d (device_index p) then dev_getinfo d (device_index p) else None.

(** The part both functions share: the partition, its write size and the pages. *)
Definition read_misc_pages (v : Volume) : W (option (MtdPartition * Z * list Z)) :=
  let! (_, st) := wlift (mtd_scan_partitions proc_mtd) in
  let! d := get_dev in
  match mtd_find_partition_by_name (blk_device v) st with
  | None => wret None
  | Some part =>
      match mtd_partition_info d part with
      | None => wret None
      | Some (_, _, write_size) =>
          match mtd_read_partition malloc_ok d part with
          | None => wret None
          | Some read =>
              let size := write_size * MISC_PAGES in
              let! (r, _, d) := wlift (mtd_read_data fuel read size d) in
              let! _ := set_dev d in
              match r with
              | None => wret None
              | Some data => if negb (zlen data =? size) then wret None else wret (Some (part, write_size, data))
              end
          end
      end
  end.

Definition get_bootloader_message_mtd (v : Volume) : W (option bootloader_message) :=
  let! pages := read_misc_pages v in
  match pages with
  | None => wret None
  | Some (_, write_size, data) =>
      let! out := wlift (access (buf_slice data (write_size * MISC_COMMAND_PAGE) sizeof_message)) in
      wret (Some (message_of out))
  end.

Definition set_bootloader_message_mtd (in_ : bootloader_message) (v : Volume) : W Z :=
  let! pages := read_misc_pages v in
  match pages with
  | None => wret (-1)
  | Some (part, write_size, data) =>
      let! data := wlift (access (buf_blit data (write_size * MISC_COMMAND_PAGE) (message_bytes in_))) in
      let! d := get_dev in
      match mtd_write_partition malloc_ok d part with
      | None => wret (-1)
      | Some write =>
          let! (r, write, d) := wlift (mtd_write_data malloc_ok fuel write data d) in
          let! _ := set_dev d in
          let! (c, d) := wlift (mtd_write_close malloc_ok fuel write d) in
          let! _ := set_dev d in
          if negb (r =? zlen data) then wret (-1)
          else if negb (c =? 0) then wret (-1) else wret 0
      end
  end.

(** ** Either *)

Definition get_bootloader_message : W (option bootloader_message) :=
  match volume_for_path "/misc" with
  | None => wret None
  | Some v =>
      if bool_decide (fs_type v = "mtd"%string) then get_bootloader_message_mtd v
      else if bool_decide (fs_type v = "emmc"%string) then get_bootloader_message_block v
      else wret None
  end.

Definition set_bootloader_message (in_ : bootloader_message) : W Z :=
  match volume_for_path "/misc" with
  | None => wret (-1)
  | Some v =>
      if bool_decide (fs_type v = "mtd"%string) then set_bootloader_message_mtd in_ v
      else if bool_decide (fs_type v = "emmc"%string) then set_bootloader_message_block in_ v
      else wret (-1)
  end.

End Bootloader.
