(* ===== verification/BootloaderFacts.v ===== *)
(** * The message on a block device

    A device that is being written holds, at every moment, a prefix of the new
    message over the old one; a message that was set is the one that is got. *)
From S2P Require Import Prelude.
From S2P Require Import Posix.
From S2P Require Import PosixFacts.
From S2P Require Import Stdio.
From S2P Require Import Mtdutils.
From S2P Require Import Bootloader.

(** ** Overwriting *)

Lemma overwrite_length pos data old :
  0 <= pos -> pos + zlen data <= zlen old -> length (overwrite pos data old) = length old.
Proof.
  intros H0 H. unfold overwrite. rewrite !length_app, length_take, length_app, length_replicate, length_drop. lia.
Qed.

Lemma overwrite_nil pos old : 0 <= pos <= zlen old -> overwrite pos [] old = old.
Proof.
  intros H. unfold overwrite. cbn. rewrite take_app_le, Nat.add_0_r by lia. apply take_drop.
Qed.

(** Inside of the old bytes. *)
Lemma overwrite_inside pos data old :
  0 <= pos -> pos + zlen data <= zlen old ->
  overwrite pos data old = take (Z.to_nat pos) old ++ data ++ drop (Z.to_nat pos + length data) old.
Proof. intros H0 H. unfold overwrite. by rewrite take_app_le by lia. Qed.

Lemma overwrite_more pos a b old :
  0 <= pos -> pos + zlen (a ++ b) <= zlen old ->
  overwrite (pos + zlen a) b (overwrite pos a old) = overwrite pos (a ++ b) old.
Proof.
  intros H0 H. rewrite length_app in H. pose proof (overwrite_length pos a old).
  rewrite (overwrite_inside (pos + _)) by lia. rewrite !(overwrite_inside pos) by (rewrite ?length_app; lia).
  assert (length (take (Z.to_nat pos) old) = Z.to_nat pos) as Hl by (rewrite length_take; lia).
  replace (Z.to_nat (pos + zlen a)) with (length (take (Z.to_nat pos) old ++ a))
    by (rewrite length_app, Hl; lia).
  rewrite !(app_assoc (take (Z.to_nat pos) old) a). rewrite take_app_length, drop_app_add, drop_drop, length_app.
  rewrite <- !app_assoc, Nat.add_assoc. done.
Qed.

(** What is read where it was written. *)
Lemma overwrite_read pos data old :
  0 <= pos -> pos + zlen data <= zlen old ->
  take (length data) (drop (Z.to_nat pos) (overwrite pos data old)) = data.
Proof.
  intros H0 H. rewrite overwrite_inside by lia. rewrite drop_app_length' by (rewrite length_take; lia).
  apply take_app_length.
Qed.

(** Writing what is there changes nothing, however far it gets. *)
Lemma overwrite_same pos data old k :
  0 <= pos -> pos + zlen data <= zlen old -> take (length data) (drop (Z.to_nat pos) old) = data ->
  overwrite pos (take k data) old = old.
Proof.
  intros H0 H E. rewrite overwrite_inside by (rewrite ?length_take; lia).
  transitivity (take (Z.to_nat pos) old ++ drop (Z.to_nat pos) old); [|apply take_drop]. f_equal.
  rewrite <- E at 1. rewrite take_take, length_take, <- drop_drop.
  rewrite Nat.min_comm at 1. rewrite (Nat.min_comm k). apply take_drop.
Qed.

Lemma message_bytes_length m : wf_message m -> zlen (message_bytes m) = sizeof_message.
Proof. intros (H1 & H2 & H3). unfold message_bytes. rewrite !length_app, H1, H2, H3. done. Qed.

Lemma message_of_bytes m : wf_message m -> message_of (message_bytes m) = m.
Proof.
  intros (H1 & H2 & H3). destruct m as [c s r]. cbn in *. unfold message_of, message_bytes. cbn [command status recovery].
  rewrite take_app_length' by done. rewrite drop_app_length' by done. rewrite take_app_length' by done.
  f_equal. rewrite app_assoc, drop_app_length' by (rewrite length_app; lia). by apply take_ge; lia.
Qed.

Lemma message_bytes_of b : zlen b = sizeof_message -> message_bytes (message_of b) = b.
Proof.
  intros H. unfold sizeof_message in H. unfold message_of, message_bytes. cbn [command status recovery].
  rewrite (take_ge (drop 64 b)) by (rewrite length_drop; lia).
  replace (drop 64 b) with (drop 32 (drop 32 b)) by (by rewrite drop_drop). by rewrite !take_drop.
Qed.

Lemma wf_message_of b : zlen b = sizeof_message -> wf_message (message_of b).
Proof.
  intros H. unfold sizeof_message in H. unfold wf_message, message_of. cbn [command status recovery].
  rewrite !length_take, !length_drop. lia.
Qed.

Section Misc.
  Context {D : MtdDriver} {R : Roots dev}.
  Abbreviation W := (W tree dev).
  Abbreviation world := (world tree dev).
  Context (o : Z) (v : Volume).
  (** Where the device's node is and its attributes. *)
  Context (p : path) (mode uid gid : Z) (time : option Z).

Definition device (data : list Z) : inode := mkInode (KBlock data) mode uid gid time.

(** The tree has the device, holding [old], where the volume says. *)
Definition has_misc (old : list Z) (fs : tree) : Prop :=
  resolve true fs (str (blk_device v)) = Found p /\ fs !! p = Some (device old).

(** [fs] while [new] is written over the device [old]: the first [k] bytes are
    there. *)
Definition torn (new old : list Z) (fs0 : tree) (k : nat) : tree :=
  <[p := device (overwrite o (take k new) old)]> fs0.

Definition tearing (new old : list Z) (fs0 fs : tree) : Prop :=
  exists k, (k <= length new)%nat /\ fs = torn new old fs0 k.

Lemma torn_0 new old fs0 : 0 <= o <= zlen old -> fs0 !! p = Some (device old) -> torn new old fs0 0 = fs0.
Proof. intros Ho Hp. unfold torn. rewrite take_0, overwrite_nil by done. by apply insert_id. Qed.

(** A call that asks nothing of the tree but the device's place. *)
Lemma wp_wait (I : tree -> Prop) n fn (w : world) :
  wp I (wait_tries n fn) w (fun _ w' => w_fs w' = w_fs w /\ w_answers w' = w_answers w).
Proof.
  revert w. induction n as [|n IH]; intros w; cbn [wait_tries]; [by wp_step|].
  wp_step. unfold sys_stat, sys_stat_at. apply wp_syscall.
  - intros _. cbn beta iota. eapply wp_mono; [apply (IH (asked w))|done|]. by intros a w' [H1 H2].
  - apply wp_ret. destruct (match resolve true _ _ with Found _ => _ | _ => _ end); [by wp_step|].
    eapply wp_mono; [apply (IH (asked w))|done|]. by intros a w' [H1 H2].
Qed.

Section Write.
  Context (new old : list Z) (fs0 : tree).
  Context (Ho : 0 <= o) (Hroom : o + zlen new <= zlen old).
  Abbreviation I := (tearing new old fs0).

Lemma torn_step k n : (k + n <= length new)%nat ->
  overwrite (o + Z.of_nat k) (take n (drop k new)) (overwrite o (take k new) old) = overwrite o (take (k + n) new) old.
Proof using Ho Hroom.
  intros Hk. replace (take (k + n) new) with (take k new ++ take n (drop k new)) by (by rewrite take_take_drop).
  rewrite <- overwrite_more; [|lia|rewrite length_app, !length_take, length_drop; lia].
  by rewrite length_take, Nat.min_l by lia.
Qed.

Lemma store_torn k n : (0 < n)%nat -> (k + n <= length new)%nat ->
  store_at (Some (o + Z.of_nat k)) (take n (drop k new)) (device (overwrite o (take k new) old)) =
  Some (Z.of_nat n, device (overwrite o (take (k + n) new) old)).
Proof using Ho Hroom.
  intros Hn Hk. unfold store_at. cbn [i_kind i_mode i_uid i_gid i_time device default]. cbv zeta.
  rewrite overwrite_length by (rewrite ?length_take; lia).
  unfold id. rewrite length_take, length_drop, Z.min_l, (Nat.min_l n) by lia.
  rewrite (proj2 (Z.leb_gt _ _)) by lia. rewrite Nat2Z.id, take_take, Nat.min_id. by rewrite torn_step by lia.
Qed.

(** One [write] of the bytes [k .. k + n) of the message. *)
Lemma wp_chunk k n b e (w : world) : (0 < n)%nat -> (k + n <= length new)%nat -> w_fs w = torn new old fs0 k ->
  wp I (write_chunk (mkF p (Some (o + Z.of_nat k)) b e) (take n (drop k new))) w
    (fun r w' => w_answers w' = w_answers w /\
       (r = -1 /\ w_fs w' = torn new old fs0 k /\ ~ eager w \/
        exists m, r = Z.of_nat m /\ (0 < m <= n)%nat /\ w_fs w' = torn new old fs0 (k + m))).
Proof using Ho Hroom.
  intros Hn Hk Hw. unfold write_chunk. cbn [w_node w_pos]. do 3 wp_step.
  { wp_step. split; [done|]. left. split_and!; [done|done|]. intros He. bool_to_prop. specialize (He (w_asked w)). lia. }
  bool_to_prop. cbv zeta. do 2 wp_step. cbn [w_fs asked]. rewrite Hw. unfold torn at 1. rewrite lookup_insert_eq, take_take.
  rewrite store_torn by lia. wp_step. apply wp_set_fs.
  { eexists. split; [|unfold torn; by rewrite insert_insert_eq]. lia. }
  wp_step. split; [done|]. right. eexists. split; [done|]. split; [lia|]. unfold torn. cbn. by rewrite insert_insert_eq.
Qed.

(** Pushing them. *)
Lemma wp_push fuel : forall k n b (w : world), (n <= fuel)%nat -> (k + n <= length new)%nat ->
  w_fs w = torn new old fs0 k ->
  wp I (push fuel (mkF p (Some (o + Z.of_nat k)) b false) (take n (drop k new))) w
    (fun r w' => w_answers w' = w_answers w /\ I (w_fs w') /\
       (r.1 = true -> w_fs w' = torn new old fs0 (k + n) /\
          exists b', r.2 = mkF p (Some (o + Z.of_nat (k + n))) b' false) /\
       (eager w -> r.1 = true)).
Proof using Ho Hroom.
  induction fuel as [|fuel IH]; intros k n b w Hf Hk Hw.
  { destruct n; [|lia]. cbn. apply wp_ret. rewrite Nat.add_0_r. split_and!; eauto. exists k. split; [lia|done]. }
  destruct (take n (drop k new)) as [|x l] eqn:El.
  { assert (n = 0%nat) as ->. { apply (f_equal length) in El. rewrite length_take, length_drop in El. cbn in El. lia. }
    apply wp_ret. rewrite Nat.add_0_r. split_and!; eauto. exists k. split; [lia|done]. }
  assert (0 < n)%nat as Hn by (destruct n; [done|lia]).
  cbn [push]. rewrite <- El. clear x l El. wp_step. eapply wp_mono; [by apply wp_chunk|done|].
  intros r w1 (Ha & [(-> & Hw1 & He)|(m & -> & Hm & Hw1)]); cbn [w_node w_pos w_error].
  - apply wp_ret. cbn. split_and!; [done|exists k; split; [lia|done]|done|done].
  - rewrite (proj2 (Z.leb_gt _ 0)), Nat2Z.id by lia. cbn [fmap option_fmap option_map].
    replace (o + Z.of_nat k + Z.of_nat m) with (o + Z.of_nat (k + m)) by lia.
    replace (drop m (take n (drop k new))) with (take (n - m) (drop (k + m) new))
      by (by rewrite skipn_firstn_comm, drop_drop).
    eapply wp_mono; [apply (IH (k + m)%nat (n - m)%nat)|done|]; [lia|lia|done|].
    intros r w2 (Ha2 & HI & Hr & He). replace (k + m + (n - m))%nat with (k + n)%nat in Hr by lia.
    split_and!; [congruence|done|done|]. intros Hew. apply He. by eapply eager_same.
Qed.

(** The whole message through a stream. *)
Lemma wp_write_all (w : world) : w_fs w = torn new old fs0 0 ->
  wp I (let! (ok, f) := fwrite new (mkF p (Some o) [] false) in
        if negb ok then wret (-1)
        else let! r := fclose f in if negb (r =? 0) then wret (-1) else wret 0) w
    (fun r w' => w_answers w' = w_answers w /\ I (w_fs w') /\
       (r = 0 -> w_fs w' = torn new old fs0 (length new)) /\ (eager w -> r = 0)).
Proof using Ho Hroom.
  intros Hw. assert (I (w_fs w)) as HI by (exists 0%nat; split; [lia|done]).
  wp_step. unfold fwrite. do 3 wp_step.
  { apply wp_ret. cbn. apply wp_ret. split_and!; [done|done|done|].
    intros He. bool_to_prop. specialize (He (w_asked w)). lia. }
  bool_to_prop. set (a := w_answers w (w_asked w)) in *. cbv zeta. cbn [w_buf app]. wp_step.
  assert (take (Z.to_nat a) new = take (length (take (Z.to_nat a) new)) (drop 0 new)) as E.
  { cbn [drop]. rewrite length_take. destruct (decide (Z.to_nat a <= length new)%nat); [by rewrite Nat.min_l by lia|].
    rewrite Nat.min_r, take_ge by lia. by rewrite take_ge. }
  rewrite E at 2. replace (Some o) with (Some (o + Z.of_nat 0)) by (f_equal; lia).
  eapply wp_mono; [apply (wp_push _ 0); [done|rewrite length_take; lia|done]|done|].
  cbn [w_fs w_answers asked]. intros [ok f] w1 (Ha & HI1 & Hok & He). cbn [fst snd] in *. destruct ok; cbn.
  2: { apply wp_ret. cbn. apply wp_ret. split_and!; [done|done|done|]. intros Hew. exfalso. by apply He in Hew. }
  destruct (Hok eq_refl) as (Hw1 & b' & ->). clear Hok. apply wp_ret. cbn [negb w_node w_pos w_error].
  wp_step. unfold fclose, fflush. wp_step. cbn [w_buf].
  set (n := length (take (Z.to_nat a) new)) in *. assert (n <= length new)%nat as Hn by (unfold n; rewrite length_take; lia).
  assert (drop (Z.to_nat a) new = take (length new - n) (drop n new)) as E2.
  { rewrite take_ge by (rewrite length_drop; lia). unfold n. rewrite length_take.
    destruct (decide (Z.to_nat a <= length new)%nat); [by rewrite Nat.min_l by lia|].
    rewrite Nat.min_r, drop_ge by lia. by rewrite drop_ge. }
  rewrite E2. cbn [Nat.add] in *.
  eapply wp_mono; [apply wp_push; [rewrite length_take, length_drop; lia|lia|done]|done|].
  intros [ok f] w2 (Ha2 & HI2 & Hok & He2). cbn [fst snd] in *.
  do 3 wp_step. assert (w_answers w2 = w_answers w) as Hans by congruence.
  assert (eager w -> ok = true /\ 0 <= w_answers w2 (w_asked w2)) as Hall.
  { intros Hew. split; [apply He2; by eapply eager_same|]. rewrite Hans. specialize (Hew (w_asked w2)). lia. }
  destruct (ok && _) eqn:Eok; cbn; apply wp_ret; split_and!; try done.
  - intros _. apply andb_true_iff in Eok as [-> _]. destruct (Hok eq_refl) as [Hw2 _]. cbn [w_fs asked]. rewrite Hw2. f_equal. lia.
  - intros Hew. destruct (Hall Hew) as [-> H0]. rewrite (proj2 (Z.leb_le _ _) H0) in Eok. done.
Qed.

End Write.

(** ** Setting and getting the message *)

Lemma wp_set_block m old (w : world) :
  wf_message m -> has_misc old (w_fs w) -> 0 <= o -> o + sizeof_message <= zlen old ->
  wp (tearing (message_bytes m) old (w_fs w)) (set_bootloader_message_block o m v) w
    (fun r w' => w_answers w' = w_answers w /\ tearing (message_bytes m) old (w_fs w) (w_fs w') /\
       (r = 0 -> w_fs w' = <[p := device (overwrite o (message_bytes m) old)]> (w_fs w)) /\ (eager w -> r = 0)).
Proof.
  intros Hm [Hres Hp] Ho Hroom. pose proof (message_bytes_length m Hm) as Hl.
  set (fs0 := w_fs w) in *. assert (tearing (message_bytes m) old fs0 fs0) as HI.
  { exists 0%nat. split; [lia|]. rewrite torn_0; [done|lia|done]. }
  unfold set_bootloader_message_block. wp_step. eapply wp_mono; [apply wp_wait|done|].
  intros _ w1 [Hf1 Ha1]. wp_step. unfold fopen_rplus, fopen_update. apply wp_syscall.
  { intros Hc. apply wp_ret. split_and!; [done|cbn [w_fs asked]; by rewrite Hf1|done|].
    intros He. exfalso. apply Hc. apply eager_calm. by eapply eager_same. }
  rewrite Hf1. fold fs0. rewrite Hres, Hp. cbn [is_dir device i_kind]. apply wp_ret. unfold fseek_w. cbn [w_node w_buf w_error].
  eapply wp_mono; [apply (wp_write_all (message_bytes m) old fs0); [done|lia|]|done|].
  { cbn [w_fs asked]. rewrite torn_0; [done|lia|done]. }
  cbn [w_answers asked]. intros r w2 (Ha2 & HI2 & Hr & He). split_and!; [congruence|done| |].
  - intros Hr0. rewrite Hr by done. unfold torn. by rewrite take_ge by done.
  - intros Hew. apply He. intros n. cbn. rewrite Ha1. apply Hew.
Qed.

Lemma wp_get_block (I : tree -> Prop) old (w : world) :
  has_misc old (w_fs w) -> 0 <= o -> o + sizeof_message <= zlen old ->
  wp I (get_bootloader_message_block o v) w
    (fun r w' => w_answers w' = w_answers w /\ w_fs w' = w_fs w /\
       (r = None /\ ~ calm w \/ r = Some (message_of (take (Z.to_nat sizeof_message) (drop (Z.to_nat o) old))))).
Proof.
  intros [Hres Hp] Ho Hroom. set (fs0 := w_fs w) in *.
  unfold get_bootloader_message_block. wp_step. eapply wp_mono; [apply wp_wait|done|].
  intros _ w1 [Hf1 Ha1]. wp_step. unfold fopen_r. apply wp_syscall.
  { intros Hc. apply wp_ret. split_and!; [done|done|]. left. split; [done|]. intros H. apply Hc. by eapply calm_same. }
  rewrite Hf1. fold fs0. rewrite Hres, Hp. apply wp_ret. cbn beta iota. cbn [r_node].
  wp_step. unfold fread, take_input. do 4 wp_step. cbv zeta. apply wp_ret.
  assert (unread (w_fs (asked (asked w1))) (mkR p o) = drop (Z.to_nat o) old) as ->.
  { unfold unread. cbn [w_fs asked r_node r_pos]. rewrite Hf1. fold fs0. by rewrite Hp. }
  set (all := take (Z.to_nat sizeof_message) (drop (Z.to_nat o) old)).
  assert (zlen all = sizeof_message) as Hall by (unfold all, sizeof_message in *; rewrite length_take, length_drop; lia).
  cbn [w_answers w_asked asked]. rewrite Ha1.
  assert (~ calm w \/ 0 <= w_answers w (S (w_asked w1))) as Hcalm.
  { destruct (decide (0 <= w_answers w (S (w_asked w1)))) as [?|Hn]; [by right|]. left. intros Hc. by apply Hn, Hc. }
  assert (~ calm w \/ 0 <= w_answers w (S (S (w_asked w1)))) as Hcalm2.
  { destruct (decide (0 <= w_answers w (S (S (w_asked w1))))) as [?|Hn]; [by right|]. left. intros Hc. by apply Hn, Hc. }
  set (got := if _ <? 0 then _ else _).
  assert (got = all \/ ~ calm w) as Hgot.
  { unfold got. destruct Hcalm as [?|Hc]; [by right|]. left. by rewrite (proj2 (Z.ltb_ge _ _) Hc). }
  destruct (Z.eqb_spec (zlen got) sizeof_message) as [Hg|Hg]; cbn [negb].
  - assert (got = all) as ->.
    { unfold got in *. destruct (_ <? 0); [|done]. rewrite length_take in Hg. apply take_ge. lia. }
    do 2 wp_step. cbn [w_answers w_asked asked]. rewrite Ha1. wp_step; apply wp_ret; cbn [w_answers w_fs asked].
    + bool_to_prop. destruct Hcalm2 as [?|?]; [|lia]. split_and!; [done|by rewrite Hf1|]. by left.
    + split_and!; [done|by rewrite Hf1|]. by right.
  - apply wp_ret. cbn [w_answers w_fs asked]. split_and!; [done|by rewrite Hf1|]. left. split; [done|].
    destruct Hgot as [->|?]; [|done]. done.
Qed.

End Misc.
