(* ===== verification/BootloaderMtd.v ===== *)
(** * The message on raw flash

    [set_bootloader_message_mtd] rewrites the first three pages of the misc
    partition with the message in the second: on a chip whose bad blocks are
    marked the message is read back and the rest of the pages is kept.  The
    message is larger than two pages of 512 bytes. *)
From S2P Require Import Prelude.
From S2P Require Import Posix.
From S2P Require Import Mtdutils.
From S2P Require Import MtdScan.
From S2P Require Import Bootloader.
From S2P Require Import BootloaderFacts.

(** ** Reading leaves the flash alone *)

Section Reads.
  Context {D : MtdDriver} {es : Z} {bad : Z -> bool} {HD : MtdHealthy D es bad}.
  Context (p : MtdPartition) (Hes : erase_size p = es).

Definition kept (d d' : dev) : Prop := healthy d' /\ same_content d d'.

Lemma kept_trans d d' d'' : kept d d' -> kept d' d'' -> kept d d''.
Proof. intros [_ H1] [H2 H3]. split; [done|]. intros q. by rewrite H3. Qed.

Lemma read_block_loop_kept n : forall before pos fdpos d r f d', healthy d ->
  read_block_loop n p before pos fdpos d = Done (r, f, d') -> kept d d'.
Proof using Hes.
  induction n as [|n IH]; intros before pos fdpos d r f d' Hd E; cbn [read_block_loop] in E; destruct (_ <=? _); try discriminate;
    try by (injection E as <- <- <-).
  rewrite Hes in E. destruct (dev_read_ok d pos Hd) as (k & data & d1 & Er & Hd1 & Hc1 & _). rewrite Er in E.
  assert (kept d d1) as Hk by done.
  destruct (negb _); [by eapply kept_trans; [exact Hk|]; eapply IH|].
  destruct (dev_ecc d1) as [after|]; [|by injection E as <- <- <-].
  destruct (negb _); [by eapply kept_trans; [exact Hk|]; eapply IH|].
  destruct (negb _); [by eapply kept_trans; [exact Hk|]; eapply IH|]. by injection E as <- <- <-.
Qed.

Lemma read_block_kept n fdpos d r f d' : healthy d -> read_block n p fdpos d = Done (r, f, d') -> kept d d'.
Proof using Hes.
  intros Hd. unfold read_block. destruct (dev_ecc d); [by apply read_block_loop_kept|]. by intros [= <- <- <-].
Qed.

Lemma read_direct_kept n : forall ctx len acc d ok ctx' acc' d', rc_partition ctx = p -> healthy d ->
  read_direct n ctx len acc d = Done (ok, ctx', acc', d') -> kept d d' /\ rc_partition ctx' = p.
Proof using Hes.
  induction n as [|n IH]; intros ctx len acc d ok ctx' acc' d' Hp Hd E; cbn [read_direct] in E; destruct (_ && _); try discriminate;
    try by (injection E as <- <- <- <-).
  apply outcome_bind_done in E as ([[r f] d1] & Er & E). rewrite Hp in Er. pose proof (read_block_kept _ _ _ _ _ _ Hd Er) as Hk.
  destruct r as [block|]; [|by injection E as <- <- <- <-]. apply IH in E as [Hk' Hp']; [|done|apply Hk].
  split; [by eapply kept_trans|done].
Qed.

Lemma mtd_read_loop_kept n : forall ctx len acc d r ctx' d', rc_partition ctx = p -> healthy d ->
  mtd_read_loop n ctx len acc d = Done (r, ctx', d') -> kept d d'.
Proof using Hes.
  induction n as [|n IH]; intros ctx len acc d r ctx' d' Hp Hd E; cbn [mtd_read_loop] in E; destruct (_ <? len); try discriminate;
    try by (injection E as <- <- <-).
  apply outcome_bind_done in E as ([ctx1 acc1] & E1 & E).
  assert (rc_partition ctx1 = p) as Hp1.
  { destruct (rc_consumed ctx <? _); [|by injection E1 as <- <-].
    apply outcome_bind_done in E1 as (part & _ & E1). by injection E1 as <- <-. }
  apply outcome_bind_done in E as ([[[ok ctx2] acc2] d2] & E2 & E).
  destruct (read_direct_kept _ _ _ _ _ _ _ _ _ Hp1 Hd E2) as [Hk2 Hp2]. pose proof (proj1 Hk2) as Hd2.
  destruct (negb ok); [by injection E as <- <- <-|]. destruct (len <=? _); [by injection E as <- <- <-|].
  destruct (_ && _); [|by eapply kept_trans; [exact Hk2|]; eapply IH].
  apply outcome_bind_done in E as ([[b f] d3] & E3 & E). rewrite Hp2 in E3.
  pose proof (read_block_kept _ _ _ _ _ _ Hd2 E3) as Hk3. pose proof (kept_trans _ _ _ Hk2 Hk3) as Hk.
  destruct b as [block|]; [|by injection E as <- <- <-].
  eapply kept_trans; [exact Hk|]. eapply IH; [..|exact E]; [done|apply Hk].
Qed.

End Reads.

Section Misc.
  Context {D : MtdDriver} {MI : MtdInfo D} {es : Z} {bad : Z -> bool} {HD : MtdHealthy D es bad}.
  Abbreviation world := (world tree dev).
  Context (malloc_ok : Z -> bool) (proc_mtd : option string) (fuel : nat).
  Context (Hmalloc : forall n, malloc_ok n = true).
  (** The misc volume is the partition [part] with the good blocks [qs]. *)
  Context (v : Volume) (part : MtdPartition) (n : Z) (st : MtdState) (qs : list Z) (ws : Z).
  Context (Hscan : mtd_scan_partitions proc_mtd = Done (n, st))
    (Hpart : mtd_find_partition_by_name (blk_device v) st = Some part).
  Context (Hes : erase_size part = es) (Hes0 : 0 < es) (Hsize : 0 <= p_size part < 2 ^ 31).
  Context (Hqs : good_run (es := es) (bad := bad) part 0 qs) (Hroom : ws * MISC_PAGES <= es * zlen qs) (Hws : 0 < ws).
  Context (Hfuel : 6 * ws + p_size part + 2 < Z.of_nat fuel).
  (** What MEMGETINFO reports. *)
  Context (Hinfo : forall d : dev, healthy d -> exists a b, dev_getinfo d (device_index part) = Some (a, b, ws)).

(** The bytes of the good blocks. *)
Definition flash_bytes (d : dev) : list Z := concat (content d <$> qs).

Lemma flash_length d : healthy d -> zlen (flash_bytes d) = es * zlen qs.
Proof using Hqs Hes0 Hsize. intros Hd. by eapply (contents_length part). Qed.

(** Reading the pages does not change them. *)
Lemma read_misc_pages_good (w : world) : healthy (w_dev w) ->
  exists w', read_misc_pages malloc_ok proc_mtd fuel v w =
      (Done (Some (part, ws, take (Z.to_nat (ws * MISC_PAGES)) (flash_bytes (w_dev w)))), w') /\
    healthy (w_dev w') /\ flash_bytes (w_dev w') = flash_bytes (w_dev w).
Proof using All.
  intros Hd. unfold read_misc_pages, wbind, wlift. rewrite Hscan. cbn [get_dev]. rewrite Hpart.
  unfold mtd_partition_info. rewrite dev_open_ok by done. destruct (Hinfo _ Hd) as (a & b & ->).
  destruct (reading_start malloc_ok Hmalloc part Hes Hes0 Hsize qs (w_dev w) Hd Hqs) as (ctx & -> & Hrd).
  pose proof (flash_length _ Hd) as Hl. unfold MISC_PAGES in *.
  pose proof (blocks_left_size part Hes0 Hsize) as Hbl.
  destruct (mtd_read_loop_good part Hes Hes0 Hsize (ws * 3) fuel qs ctx (w_dev w) (flash_bytes (w_dev w)) [] Hrd)
    as (rest' & ctx' & d' & E & _); [cbn; lia|cbn; lia|cbn [length]; destruct (_ <? es); lia|].
  unfold mtd_read_data. cbn [length app] in E. rewrite Z.sub_0_r in E. rewrite E.
  rewrite length_take, Nat.min_l by lia. rewrite Z2Nat.id, Z.eqb_refl by lia. cbn [negb].
  destruct (mtd_read_loop_kept part Hes _ _ _ _ _ _ _ _ (proj1 Hrd) Hd E) as [Hd' Hc].
  eexists. split; [reflexivity|]. cbn. split; [done|]. unfold flash_bytes. f_equal. apply list_fmap_ext. intros i q _. apply Hc.
Qed.

(** A message that is set on flash is the one that is got, and the pages
    around it are kept: on a chip whose bad blocks are marked, with pages of at
    least 544 bytes, setting the message returns 0, getting it returns the
    message, and the three pages read as before with the message over the
    second. *)
Theorem bootloader_message_mtd_roundtrip m (w : world) (Hm : wf_message m) (Hd : healthy (w_dev w)) (Hpage : 544 <= ws) :
  exists pages w1 w2 w3,
    read_misc_pages malloc_ok proc_mtd fuel v w = (Done (Some (part, ws, pages)), w1) /\
    set_bootloader_message_mtd malloc_ok proc_mtd fuel m v w = (Done 0, w2) /\
    get_bootloader_message_mtd malloc_ok proc_mtd fuel v w2 = (Done (Some m), w3) /\
    read_misc_pages malloc_ok proc_mtd fuel v w2 = (Done (Some (part, ws,
      (take (Z.to_nat ws) pages ++ message_bytes m ++ drop (Z.to_nat ws + Z.to_nat sizeof_message) pages)%list)), w3).
Proof using All.
  pose proof (message_bytes_length m Hm) as Hml. unfold sizeof_message in *.
  destruct (read_misc_pages_good w Hd) as (w1 & E1 & Hd1 & Ef1). pose proof (flash_length _ Hd) as Hl.
  pose proof (blocks_left_size part Hes0 Hsize) as Hbl. unfold MISC_PAGES in *.
  set (pages := take (Z.to_nat (ws * 3)) (flash_bytes (w_dev w))) in *.
  assert (zlen pages = ws * 3) as Hpl by (unfold pages; rewrite length_take; lia).
  set (data := (take (Z.to_nat ws) pages ++ message_bytes m ++ drop (Z.to_nat ws + Z.to_nat 1088) pages)%list).
  assert (buf_blit pages (ws * MISC_COMMAND_PAGE) (message_bytes m) = Some data) as Eb.
  { unfold MISC_COMMAND_PAGE. rewrite Z.mul_1_r, buf_blit_some by lia. unfold data. do 4 f_equal. lia. }
  pose proof (buf_blit_length _ _ _ _ Eb) as Hdl.
  destruct (mtd_write_partition malloc_ok (w_dev w1) part) as [write|] eqn:Ew.
  2: { unfold mtd_write_partition in Ew. by rewrite Hmalloc, dev_open_ok in Ew. }
  pose proof (streamed_start malloc_ok Hmalloc part Hes Hes0 Hsize qs _ _ Hd1 Hqs Ew) as Hs.
  destruct (mtd_write_data_good malloc_ok Hmalloc part Hes Hes0 Hsize qs [] data write (w_dev w1) fuel Hs) as (ctx & d2 & E2 & Hs2).
  { cbn [app]. lia. } { lia. }
  cbn [app] in Hs2.
  destruct (mtd_erase_blocks_good malloc_ok Hmalloc part Hes Hes0 Hsize qs data ctx d2 0 fuel Hs2) as
    (r & ctx' & d3 & pad & E3 & Hr & _ & _ & done & rest & Hqs' & Hw3); [lia|by right|lia|].
  set (w2 := mkWorld (w_fs w1) d3 (w_answers w1) (w_asked w1) (w_log w1)).
  assert (set_bootloader_message_mtd malloc_ok proc_mtd fuel m v w = (Done 0, w2)) as Eset.
  { unfold set_bootloader_message_mtd, wbind, wlift. rewrite E1, Eb. cbn [access get_dev]. rewrite Ew, E2. cbn [set_dev w_dev].
    unfold mtd_write_close. rewrite E3. cbn [mbind outcome_bind]. rewrite Z.eqb_refl, (proj2 (Z.eqb_neq r (-1))) by lia. done. }
  assert (healthy (w_dev w2)) as Hd2 by apply Hw3.
  assert (take (Z.to_nat (ws * 3)) (flash_bytes d3) = data) as Efl.
  { unfold flash_bytes. rewrite <- Hqs', fmap_app, concat_app.
    assert (concat (content d3 <$> done) = (data ++ pad)%list) as -> by apply Hw3.
    rewrite <- app_assoc. apply take_app_length'. lia. }
  destruct (read_misc_pages_good w2 Hd2) as (w3 & E4 & _). cbn [w2 w_dev] in E4. unfold MISC_PAGES in E4. rewrite Efl in E4.
  exists pages, w1, w2, w3. split_and!; [done|done| |done].
  unfold get_bootloader_message_mtd, wbind, wlift. rewrite E4. unfold MISC_COMMAND_PAGE. rewrite Z.mul_1_r. unfold data.
  rewrite buf_slice_mid; [|rewrite length_take; lia|unfold sizeof_message; lia]. cbn [access]. by rewrite message_of_bytes.
Qed.

(** With pages of less than 544 bytes, as on chips with 512-byte pages, the
    message does not fit between the start of the second page and the end of
    the buffer: getting it reads and setting it writes outside of the array. *)
Theorem misc_small_pages_undefined m (w : world) (Hm : wf_message m) (Hd : healthy (w_dev w)) (Hpage : ws < 544) :
  (get_bootloader_message_mtd malloc_ok proc_mtd fuel v w).1 = Undef /\
  (set_bootloader_message_mtd malloc_ok proc_mtd fuel m v w).1 = Undef.
Proof using All.
  pose proof (message_bytes_length m Hm) as Hml. unfold sizeof_message in *.
  destruct (read_misc_pages_good w Hd) as (w1 & E1 & _). pose proof (flash_length _ Hd) as Hl. unfold MISC_PAGES in *.
  unfold get_bootloader_message_mtd, set_bootloader_message_mtd, wbind, wlift. rewrite E1.
  unfold MISC_COMMAND_PAGE, buf_slice, buf_blit. rewrite length_take, Hml. unfold sizeof_message.
  rewrite !(proj2 (Z.leb_gt _ (Z.of_nat _))) by lia. by rewrite !andb_false_r.
Qed.

End Misc.

(** ** A chip with a bad block *)

Definition misc_bad (pos : Z) : bool := pos =? 2048.
Definition misc_driver : MtdDriver := nand_driver 2048 misc_bad.
Definition misc_line : mtd_line := mkLine [0] [2; 0; 0; 0] [8; 0; 0] "misc".
Definition misc_partition : MtdPartition := mkPartition 0 8192 2048 "misc".
Definition misc_volume : Volume := simple_volume "/misc" "mtd" "misc".
Definition misc_info (ws : Z) : MtdInfo misc_driver := fun _ _ => Some (8192, 2048, ws).
Definition misc_state : MtdState := mkMtdState (Some misc_partition :: replicate 31 None) 1.
Definition misc_world : world tree (dev (MtdDriver := misc_driver)) := mkWorld ∅ (∅ : gmap Z (list Z)) (fun _ => 0) 0 [].

Lemma misc_scan : mtd_scan_partitions (Some (proc_text [misc_line])) = Done (1, misc_state).
Proof. vm_compute. reflexivity. Qed.

Lemma misc_good_run : good_run (es := 2048) (bad := misc_bad) misc_partition 0 [0; 4096; 6144].
Proof. apply (good_run_blocks (bad := misc_bad) misc_partition (es := 2048) ltac:(lia) 4 0). cbn. lia. Qed.

Lemma misc_healthy : healthy (MtdHealthy := nand_healthy 2048 misc_bad ltac:(lia)) (w_dev misc_world).
Proof. apply map_Forall_empty. Qed.

Lemma bootloader_message_mtd_roundtrip_witness :
  let fuel := Z.to_nat 30000 in
  exists pages w1 w2 w3,
    read_misc_pages (I := misc_info 2048) (fun _ => true) (Some (proc_text [misc_line])) fuel misc_volume misc_world
      = (Done (Some (misc_partition, 2048, pages)), w1) /\
    set_bootloader_message_mtd (I := misc_info 2048) (fun _ => true) (Some (proc_text [misc_line])) fuel zero_message misc_volume misc_world
      = (Done 0, w2) /\
    get_bootloader_message_mtd (I := misc_info 2048) (fun _ => true) (Some (proc_text [misc_line])) fuel misc_volume w2
      = (Done (Some zero_message), w3) /\
    read_misc_pages (I := misc_info 2048) (fun _ => true) (Some (proc_text [misc_line])) fuel misc_volume w2
      = (Done (Some (misc_partition, 2048,
          (take (Z.to_nat 2048) pages ++ message_bytes zero_message ++ drop (Z.to_nat 2048 + Z.to_nat sizeof_message) pages)%list)), w3).
Proof.
  intros fuel.
  apply (bootloader_message_mtd_roundtrip (MI := misc_info 2048) (HD := nand_healthy 2048 misc_bad ltac:(lia)) (fun _ => true)
    (Some (proc_text [misc_line])) fuel ltac:(done) misc_volume misc_partition 1 misc_state [0; 4096; 6144] 2048 misc_scan eq_refl eq_refl
    ltac:(lia) ltac:(cbn; lia) misc_good_run ltac:(unfold MISC_PAGES; cbn; lia) ltac:(lia)
    ltac:(unfold fuel; rewrite Z2Nat.id by lia; cbn; lia) ltac:(intros d _; by eexists _, _));
    [by split_and!|apply misc_healthy|lia].
Defined.

Lemma misc_small_pages_undefined_witness :
  let fuel := Z.to_nat 30000 in
  (get_bootloader_message_mtd (I := misc_info 512) (fun _ => true) (Some (proc_text [misc_line])) fuel misc_volume misc_world).1 = Undef /\
  (set_bootloader_message_mtd (I := misc_info 512) (fun _ => true) (Some (proc_text [misc_line])) fuel zero_message misc_volume misc_world).1 = Undef.
Proof.
  intros fuel.
  apply (misc_small_pages_undefined (MI := misc_info 512) (HD := nand_healthy 2048 misc_bad ltac:(lia)) (fun _ => true)
    (Some (proc_text [misc_line])) fuel ltac:(done) misc_volume misc_partition 1 misc_state [0; 4096; 6144] 512 misc_scan eq_refl eq_refl
    ltac:(lia) ltac:(cbn; lia) misc_good_run ltac:(unfold MISC_PAGES; cbn; lia) ltac:(lia)
    ltac:(unfold fuel; rewrite Z2Nat.id by lia; cbn; lia) ltac:(intros d _; by eexists _, _));
    [by split_and!|apply misc_healthy|lia].
Defined.
