(* ===== verification/BmlOverMtd.v ===== *)
(** * Images of partitions with replaced blocks ([mtdutils/bml_over_mtd.c])

    Samsung's block management layer keeps a table in a reservoir partition that
    says which of its blocks stand in for bad blocks of other partitions.  The
    program reads the table and dumps or flashes a partition through it.  The
    partition and the reservoir are different; what is printed is left out. *)
From S2P Require Import Prelude.
From S2P Require Import Cstring.
From S2P Require Import Mtdutils.
From S2P Require Import MtdScan.
From S2P Require Import Bootloader.
Local Open Scope Z_scope.
Local Open Scope list_scope.

Definition EXIT_CODE_BAD_BLOCKS : Z := 15.
(** No entry. *)
Definition UNMAPPED : Z := 65535.

(** [((unsigned short* ) &buf[0x1000])[k]]. *)
Definition mapping_at (buf : list Z) (k : Z) : outcome Z :=
  lo ← access (buf_get buf (4096 + 2 * k));
  hi ← access (buf_get buf (4096 + 2 * k + 1));
  Done (wrap 16 (lo + 256 * hi)).

(** The mark at the start of a block with a table. *)
Definition has_mark (buf : list Z) : bool := bool_decide (take 4 buf = [85; 80; 67; 72]).

(** [start + n - 1], in [int]. *)
Definition last_block (start n : Z) : outcome Z :=
  if (- 2 ^ 31 <? start + n) && (start + n <? 2 ^ 31) then Done (start + n - 1) else Undef.

(** One entry: [None] when it is out of the reservoir, else the new mapping. *)
Definition map_entry (rawSrcBlk rawDstBlk srcPartStartBlock reservoirPartStartBlock erase numSrcBlocks currOffset : Z)
    (pMapping : list Z) : outcome (option (list Z)) :=
  let resAbsoluteStartAddress := wrap 32 (reservoirPartStartBlock * erase) in
  reservoirLastBlock ← last_block reservoirPartStartBlock numSrcBlocks;
  if (rawDstBlk <? reservoirPartStartBlock) || (wrap 32 (resAbsoluteStartAddress + currOffset) <=? wrap 32 (rawDstBlk * erase)) then Done None
  else
    srcLastBlock ← last_block srcPartStartBlock numSrcBlocks;
    if (srcPartStartBlock <=? rawSrcBlk) && (rawSrcBlk <=? srcLastBlock) then
      let relSrcBlk := wrap 16 (rawSrcBlk - srcPartStartBlock) in
      let relDstBlk := wrap 16 (rawDstBlk - reservoirPartStartBlock) in
      pMapping ← access (buf_set pMapping relSrcBlk relDstBlk);
      Done (Some pMapping)
    else Done (Some pMapping).

(** The loop over the entries, from [mappings + k]: whether the table was read to
    its end, and the mapping. *)
Fixpoint read_entries (n : nat) (k : Z) (buf : list Z) (srcStart resStart erase numSrcBlocks currOffset : Z) (pMapping : list Z)
  : outcome (bool * list Z) :=
  match n with
  | O => Diverge
  | S n =>
      if k <? 100 then
        rawSrcBlk ← mapping_at buf k;
        if rawSrcBlk =? UNMAPPED then Done (true, pMapping)
        else
          rawDstBlk ← mapping_at buf (k + 1);
          r ← map_entry rawSrcBlk rawDstBlk srcStart resStart erase numSrcBlocks currOffset pMapping;
          match r with
          | None => Done (false, pMapping)
          | Some pMapping => read_entries n (k + 2) buf srcStart resStart erase numSrcBlocks currOffset pMapping
          end
      else Done (true, pMapping)
  end.

Section Contexts.
  Context {D : MtdDriver}.
  Context (malloc_ok : Z -> bool).

(** Whether there is a context.  When the device cannot be opened, the buffer is
    freed through the context that was freed before it. *)
Definition bml_over_mtd_read_partition (d : dev) (p : MtdPartition) : outcome bool :=
  if negb (malloc_ok 16) then Done false
  else if negb (malloc_ok (erase_size p)) then Done false
  else if negb (dev_open d (device_index p)) then Undef
  else Done true.

Definition bml_over_mtd_write_partition (d : dev) (p : MtdPartition) : bool :=
  malloc_ok 28 && malloc_ok (erase_size p) && dev_open d (device_index p).

(** [read] at [pos] until [need] bytes are in [acc]; [None] for the error. *)
Fixpoint read_fully (n : nat) (pos need : Z) (acc : list Z) (d : dev) : outcome (option (list Z) * dev) :=
  if zlen acc <? need then
    match n with
    | O => Diverge
    | S n =>
        let '(len, data, d) := dev_read d (pos + zlen acc) (need - zlen acc) in
        if len <=? 0 then Done (None, d) else read_fully n pos need (acc ++ take (Z.to_nat len) data) d
    end
  else Done (Some acc, d).

(** The return value: the size, or -1.  [lseek] fails past the range of [off_t]. *)
Definition bml_over_mtd_write_block (pos es : Z) (data : list Z) (d : dev) : Z * dev :=
  if 2 ^ 31 <=? pos then (-1, d)
  else
  let ret := dev_getbadblock d pos in
  if negb (ret =? 0) && negb ((ret =? -1) && dev_opnotsupp d) then (-1, d)
  else let '(ok, _, d) := write_retries 2 es pos pos data d in (if ok : bool then es else -1, d).

(** The number of bad blocks among [n] from [pos] on. *)
Fixpoint count_bad (n : nat) (pos es : Z) (d : dev) : Z :=
  match n with
  | O => 0
  | S n => (if dev_getbadblock d pos =? 0 then 0 else 1) + count_bad n (pos + es) es d
  end.

Definition scan_partition (d : dev) (p : MtdPartition) : outcome Z :=
  ok ← bml_over_mtd_read_partition d p;
  if negb ok then Done (-1)
  else if erase_size p =? 0 then Undef
  else if count_bad (Z.to_nat (p_size p / erase_size p)) 0 (erase_size p) d =? 0 then Done 0 else Done (-1).

End Contexts.

Section Bml.
  Context {DS : MtdDriver} {DR : MtdDriver} {MS : MtdInfo DS} {MR : MtdInfo DR}.
  Context (malloc_ok : Z -> bool).
  Abbreviation source := (@dev DS).
  Abbreviation reservoir := (@dev DR).

(** ** The table *)

Definition CreateEmptyBlockMapping (ds : source) (pSrcPart : MtdPartition) : outcome (option (list Z)) :=
  match mtd_partition_info ds pSrcPart with
  | None => Done None
  | Some (srcTotal, srcErase, _) =>
      if srcErase =? 0 then Undef
      else
        let numSrcBlocks := swrap 32 (srcTotal / srcErase) in
        if malloc_ok (numSrcBlocks * 2) then Done (Some (replicate (Z.to_nat numSrcBlocks) UNMAPPED)) else Done None
  end.

(** The search for the table, from the end of the reservoir: [None] when a block
    cannot be read, else whether a table was found and read to its end.  Outside
    of the device the ioctl fails. *)
Fixpoint find_table (n : nat) (srcStart resStart erase numSrcBlocks currOffset : Z) (pMapping : list Z) (dr : reservoir)
  : outcome (option (bool * list Z) * reservoir) :=
  if 0 <? currOffset then
    match n with
    | O => Diverge
    | S n =>
        let currOffset := swrap 32 (currOffset - erase) in
        if (currOffset <? 0) || negb (dev_getbadblock dr currOffset =? 0) then
          find_table n srcStart resStart erase numSrcBlocks currOffset pMapping dr
        else
          let '(readBytes, buf, dr) := dev_read dr currOffset erase in
          if negb (readBytes =? erase) then Done (None, dr)
          else if (8192 <=? readBytes) && has_mark buf then
            m0 ← mapping_at buf 0;
            m1 ← mapping_at buf 1;
            if (m0 =? 0) && (m1 =? UNMAPPED) then
              r ← read_entries 50 2 buf srcStart resStart erase numSrcBlocks currOffset pMapping;
              Done (Some r, dr)
            else find_table n srcStart resStart erase numSrcBlocks currOffset pMapping dr
          else find_table n srcStart resStart erase numSrcBlocks currOffset pMapping dr
    end
  else Done (Some (false, pMapping), dr).

(** "Consistency and validity check" of the blocks from [b] on. *)
Fixpoint mapping_valid (n : nat) (b erase : Z) (pMapping : list Z) (pReservoirPart : MtdPartition) (ds : source) (dr : reservoir) : outcome bool :=
  match n with
  | O => Done true
  | S n =>
      m ← access (buf_get pMapping b);
      here ← (if dev_getbadblock ds (wrap 32 (b * erase)) =? 0 then Done (m =? UNMAPPED)
              else if m =? UNMAPPED then Done false
              else
                ok ← bml_over_mtd_read_partition malloc_ok dr pReservoirPart;
                if ok : bool then Done (dev_getbadblock dr (wrap 32 (m * erase)) =? 0) else Undef);
      rest ← mapping_valid n (b + 1) erase pMapping pReservoirPart ds dr;
      Done (here && rest)
  end.

Definition CreateBlockMapping (pSrcPart : MtdPartition) (srcStart : Z) (pReservoirPart : MtdPartition) (resStart : Z)
    (ds : source) (dr : reservoir) : outcome (option (list Z) * reservoir) :=
  match mtd_partition_info ds pSrcPart with
  | None => Done (None, dr)
  | Some (srcTotal, srcErase, srcWrite) =>
      if srcErase =? 0 then Undef
      else
        let numSrcBlocks := swrap 32 (srcTotal / srcErase) in
        if negb (malloc_ok (numSrcBlocks * 2)) then Done (None, dr)
        else
          match mtd_partition_info dr pReservoirPart with
          | None => Done (None, dr)
          | Some (total, erase, write) =>
              if negb (erase =? srcErase) || negb (write =? srcWrite) then Done (None, dr)
              else
                ok ← bml_over_mtd_read_partition malloc_ok dr pReservoirPart;
                if negb ok then Done (None, dr)
                else if (total <? erase) || (2 ^ 31 - 1 <? total) then Done (None, dr)
                else if erase_size pReservoirPart <? erase then Undef
                else
                  '(r, dr) ← find_table (Z.to_nat (total / erase + 1)) srcStart resStart erase numSrcBlocks total
                    (replicate (Z.to_nat numSrcBlocks) UNMAPPED) dr;
                  match r with
                  | None => Done (None, dr)
                  | Some (foundMappingTable, pMapping) =>
                      if negb foundMappingTable then Done (None, dr)
                      else
                        ok ← bml_over_mtd_read_partition malloc_ok ds pSrcPart;
                        if negb ok then Done (None, dr)
                        else
                          mappingValid ← mapping_valid (Z.to_nat numSrcBlocks) 0 erase pMapping pReservoirPart ds dr;
                          Done (if mappingValid : bool then Some pMapping else None, dr)
                  end
          end
  end.

(** ** Dumping *)

Context (out_write in_read : Z -> Z -> Z) (fstat_ok close_ok : bool).

(** A block of the partition, from where the mapping says it is. *)
Definition read_mapped (es b : Z) (blockMapping : list Z) (ds : source) (dr : reservoir)
  : outcome (option (list Z) * source * reservoir) :=
  m ← access (buf_get blockMapping b);
  if m =? UNMAPPED then '(r, ds) ← read_fully (Z.to_nat es) (wrap 32 (b * es)) es [] ds; Done (r, ds, dr)
  else '(r, dr) ← read_fully (Z.to_nat es) (wrap 32 (m * es)) es [] dr; Done (r, ds, dr).

(** [write] until all of [buf] is in the file; [total] bytes were written before. *)
Fixpoint write_fully (n : nat) (total : Z) (buf : list Z) : outcome bool :=
  match buf with
  | [] => Done true
  | _ =>
      match n with
      | O => Diverge
      | S n =>
          let len := out_write total (zlen buf) in
          if len <=? 0 then Done false else write_fully n (total + Z.min len (zlen buf)) (drop (Z.to_nat len) buf)
      end
  end.

(** The blocks from [b] on; [None] for the error. *)
Fixpoint dump_blocks (n : nat) (b es : Z) (blockMapping out : list Z) (ds : source) (dr : reservoir)
  : outcome (option (list Z) * source * reservoir) :=
  match n with
  | O => Done (Some out, ds, dr)
  | S n =>
      '(r, ds, dr) ← read_mapped es b blockMapping ds dr;
      match r with
      | None => Done (None, ds, dr)
      | Some buf =>
          ok ← write_fully (Z.to_nat es) (zlen out) buf;
          if ok : bool then dump_blocks n (b + 1) es blockMapping (out ++ buf) ds dr else Done (None, ds, dr)
      end
  end.

(** The return value and the file, [None] when it is not complete; [out_ok] is
    whether it could be opened. *)
Definition dump_bml_partition (pSrcPart pReservoirPart : MtdPartition) (blockMapping : list Z) (out_ok : bool) (ds : source) (dr : reservoir)
  : outcome (Z * option (list Z) * source * reservoir) :=
  if negb out_ok then Done (-1, None, ds, dr)
  else
    ok ← bml_over_mtd_read_partition malloc_ok ds pSrcPart;
    if negb ok then Done (-1, None, ds, dr)
    else
      ok ← bml_over_mtd_read_partition malloc_ok dr pReservoirPart;
      if negb ok then Done (-1, None, ds, dr)
      else if erase_size pSrcPart =? 0 then Undef
      else
        '(r, ds, dr) ← dump_blocks (Z.to_nat (swrap 32 (p_size pSrcPart / erase_size pSrcPart))) 0 (erase_size pSrcPart) blockMapping [] ds dr;
        match r with
        | None => Done (-1, None, ds, dr)
        | Some out => if close_ok then Done (0, Some out, ds, dr) else Done (-1, None, ds, dr)
        end.

(** ** Flashing *)

(** [read] from the file at [pos] until [need] bytes are in [acc] or it ends. *)
Fixpoint read_file (n : nat) (file : list Z) (pos need : Z) (acc : list Z) : outcome (option (list Z)) :=
  if zlen acc <? need then
    match n with
    | O => Diverge
    | S n =>
        let len := in_read (pos + zlen acc) (need - zlen acc) in
        if len <? 0 then Done None
        else
          match take (Z.to_nat (Z.min len (need - zlen acc))) (drop (Z.to_nat (pos + zlen acc)) file) with
          | [] => Done (Some acc)
          | part => read_file n file pos need (acc ++ part)
          end
    end
  else Done (Some acc).

Definition write_mapped (es b : Z) (blockMapping buffer : list Z) (ds : source) (dr : reservoir) : outcome (Z * source * reservoir) :=
  m ← access (buf_get blockMapping b);
  if m =? UNMAPPED then let '(len, ds) := bml_over_mtd_write_block (wrap 32 (b * es)) es buffer ds in Done (len, ds, dr)
  else let '(len, dr) := bml_over_mtd_write_block (wrap 32 (m * es)) es buffer dr in Done (len, ds, dr).

(** The blocks from [b] on, where [pos] bytes of the file were read. *)
Fixpoint flash_blocks (n : nat) (b pos es : Z) (blockMapping file : list Z) (ds : source) (dr : reservoir) : outcome (bool * source * reservoir) :=
  match n with
  | O => Done (true, ds, dr)
  | S n =>
      r ← read_file (S (Z.to_nat es)) file pos es [];
      match r with
      | None => Done (false, ds, dr)
      | Some part =>
          let buffer := part ++ replicate (Z.to_nat (es - zlen part)) 255 in
          '(len, ds, dr) ← write_mapped es b blockMapping buffer ds dr;
          if len <=? 0 then Done (false, ds, dr) else flash_blocks n (b + 1) (pos + zlen part) es blockMapping file ds dr
      end
  end.

(** [file] is [None] if it cannot be opened. *)
Definition flash_bml_partition (pSrcPart pReservoirPart : MtdPartition) (blockMapping : list Z) (file : option (list Z)) (ds : source) (dr : reservoir)
  : outcome (Z * source * reservoir) :=
  match file with
  | None => Done (-1, ds, dr)
  | Some file =>
      if negb (bml_over_mtd_write_partition malloc_ok ds pSrcPart) then Done (-1, ds, dr)
      else if negb (bml_over_mtd_write_partition malloc_ok dr pReservoirPart) then Done (-1, ds, dr)
      else if negb fstat_ok then Done (-1, ds, dr)
      else if p_size pSrcPart <? zlen file then Done (-1, ds, dr)
      else if erase_size pSrcPart =? 0 then Undef
      else
        let es := erase_size pSrcPart in
        '(ok, ds, dr) ← flash_blocks (Z.to_nat (swrap 32 ((zlen file + es - 1) / es))) 0 0 es blockMapping file ds dr;
        Done (if ok && close_ok then 0 else -1, ds, dr)
  end.

(** ** The program *)

(** The files it is given by name: what is in them to be flashed, and whether
    they can be opened to be dumped to. *)
Context (proc_mtd : option string) (file_named : string -> option (list Z)) (out_named : string -> bool).

(** The exit status, the dumped file and the partitions. *)
Definition bml_main (argv : list string) (ds : source) (dr : reservoir) : outcome (Z * option (list Z) * source * reservoir) :=
  let argc := zlen argv in
  let scan := bool_decide (argv !! 1%nat = Some "scan"%string) in
  if negb (argc =? 7) && (negb (argc =? 3) || negb scan) && (negb (argc =? 6) || negb scan) then Done (1, None, ds, dr)
  else
    '(_, st) ← mtd_scan_partitions proc_mtd;
    let arg k := default ""%string (argv !! k) in
    match mtd_find_partition_by_name (arg 2%nat) st with
    | None => Done (1, None, ds, dr)
    | Some pSrcPart =>
        scanResult ← scan_partition malloc_ok ds pSrcPart;
        let scanned := if scanResult =? 0 then 0 else EXIT_CODE_BAD_BLOCKS in
        if (argc =? 3) && scan then Done (scanned, None, ds, dr)
        else
          match mtd_find_partition_by_name (arg 4%nat) st with
          | None => Done (1, None, ds, dr)
          | Some pReservoirPart =>
              '(pMapping, dr) ← CreateBlockMapping pSrcPart (swrap 32 (strtol (arg 3%nat)).1) pReservoirPart (swrap 32 (strtol (arg 5%nat)).1) ds dr;
              pMapping ← (if bool_decide (pMapping = None) && (scanResult =? 0) then CreateEmptyBlockMapping ds pSrcPart else Done pMapping);
              let retVal := if (argc =? 6) && scan then scanned else 0 in
              match pMapping with
              | None => Done (1, None, ds, dr)
              | Some pMapping =>
                  if String.eqb (arg 1%nat) "dump" then dump_bml_partition pSrcPart pReservoirPart pMapping (out_named (arg 6%nat)) ds dr
                  else if String.eqb (arg 1%nat) "flash" then
                    '(r, ds, dr) ← flash_bml_partition pSrcPart pReservoirPart pMapping (file_named (arg 6%nat)) ds dr;
                    Done (r, None, ds, dr)
                  else Done (retVal, None, ds, dr)
              end
          end
    end.

End Bml.
