(* ===== verification/BmlFacts.v ===== *)
(** * Images go through replaced blocks and back

    Proofs about [bml_over_mtd.c] on chips whose bad blocks are marked. *)
From S2P Require Import Prelude.
From S2P Require Import Cstring.
From S2P Require Import Mtdutils.
From S2P Require Import MtdScan.
From S2P Require Import Bootloader.
From S2P Require Import BmlOverMtd.
Local Open Scope Z_scope.
Local Open Scope list_scope.

(** ** One chip *)

Section Chip.
  Context {D : MtdDriver} {es : Z} {bad : Z -> bool} {HD : MtdHealthy D es bad} (Hes : 0 < es).

Lemma read_fully_good pos d : healthy d -> bad pos = false ->
  exists d', read_fully (Z.to_nat es) pos es [] d = Done (Some (content d pos), d') /\ healthy d' /\ same_content d d'.
Proof.
  intros Hd Hb. destruct (Z.to_nat es) as [|n] eqn:En; [lia|]. cbn [read_fully length Z.of_nat].
  change (Z.of_nat 0) with 0. rewrite (proj2 (Z.ltb_lt 0 es)) by lia. rewrite Z.add_0_r, Z.sub_0_r.
  destruct (dev_read_ok d pos Hd) as (m & data & d' & -> & Hd' & Hs & _ & Hg). destruct (Hg Hb) as (-> & -> & _).
  rewrite (proj2 (Z.leb_gt es 0)) by lia. pose proof (dev_content_length d pos Hd Hb) as Hl. cbn [app]. rewrite take_ge by lia. exists d'.
  split; [|done]. destruct n; cbn [read_fully]; by rewrite Hl, Z.ltb_irrefl.
Qed.

Lemma bml_write_block_good pos data d : healthy d -> bad pos = false -> pos < 2 ^ 31 -> zlen data = es ->
  exists d', bml_over_mtd_write_block pos es data d = (es, d') /\ healthy d' /\ block_written pos data d d'.
Proof.
  intros Hd Hb Hp Hl. unfold bml_over_mtd_write_block. rewrite (proj2 (Z.leb_gt _ pos)) by done.
  assert ((dev_getbadblock d pos =? 0) = true) as -> by (rewrite dev_bad by done; by rewrite Hb). cbn [negb andb].
  destruct (write_retries_good Hes 1 pos pos data d Hd Hb Hl) as (d' & -> & Hd' & Hw). by exists d'.
Qed.

End Chip.

(** ** The file *)

Section File.
  Context (out_write in_read : Z -> Z -> Z).
  Context (Hout : forall t n, 0 < n -> 0 < out_write t n) (Hin : forall p n, 0 < n -> 0 < in_read p n).

Lemma read_file_good file pos need : 0 <= pos -> forall n acc, (acc = take (length acc) (drop (Z.to_nat pos) file)) -> zlen acc <= need ->
  need - zlen acc < Z.of_nat n ->
  read_file in_read n file pos need acc = Done (Some (take (Z.to_nat need) (drop (Z.to_nat pos) file))).
Proof.
  intros Hpos n. set (rest := drop (Z.to_nat pos) file). induction n as [|n IH]; intros acc Ha Hl Hn.
  { lia. }
  cbn [read_file]. destruct (zlen acc <? need) eqn:E; bool_to_prop.
  - pose proof (Hin (pos + zlen acc) (need - zlen acc) ltac:(lia)) as Hr. rewrite (proj2 (Z.ltb_ge _ 0)) by lia.
    set (len := Z.to_nat (Z.min (in_read (pos + zlen acc) (need - zlen acc)) (need - zlen acc))).
    assert (drop (Z.to_nat (pos + zlen acc)) file = drop (length acc) rest) as -> by (unfold rest; rewrite drop_drop; f_equal; lia).
    destruct (take len (drop (length acc) rest)) as [|x part] eqn:Et.
    + do 2 f_equal. assert (drop (length acc) rest = []) as Ed.
      { apply (f_equal length) in Et. rewrite length_take in Et. cbn in Et. destruct (drop (length acc) rest); [done|]. cbn [length] in Et. lia. }
      apply (f_equal length) in Ed. rewrite length_drop in Ed. cbn in Ed. rewrite Ha. rewrite !take_ge by lia. done.
    + rewrite <- Et. apply IH.
      * rewrite Ha at 1. rewrite length_app, length_take. rewrite <- take_take_drop. f_equal.
        destruct (decide (len <= length (drop (length acc) rest))%nat); [by rewrite Nat.min_l by done|]. rewrite Nat.min_r by lia. by rewrite !take_ge by lia.
      * rewrite length_app, length_take. lia.
      * assert (1 <= length (take len (drop (length acc) rest)))%nat by (rewrite Et; cbn; lia). rewrite length_app. lia.
  - assert (zlen acc = need) as <- by lia. by rewrite Nat2Z.id, <- Ha.
Qed.

Lemma write_fully_good n : forall total buf, (length buf <= n)%nat -> write_fully out_write n total buf = Done true.
Proof.
  induction n as [|n IH]; intros total [|x buf] Hl; try done; [cbn in Hl; lia|]. cbn [write_fully].
  pose proof (Hout total (zlen (x :: buf)) ltac:(cbn [length]; lia)) as Hr. rewrite (proj2 (Z.leb_gt _ 0)) by lia.
  apply IH. rewrite length_drop. cbn [length] in *. lia.
Qed.

End File.

(** ** The table as a function of the contents of the reservoir *)

Section Table.
  Context {DR : MtdDriver} {es : Z} {badr : Z -> bool} {HR : MtdHealthy DR es badr} (Hes : 0 < es).
  Context (srcStart resStart numSrcBlocks : Z).

(** Where the table is, whether it could be read, and the mapping. *)
Fixpoint scan_table (n : nat) (cur : Z) (map : list Z) (c : Z -> list Z) : outcome (option (Z * bool * list Z)) :=
  if 0 <? cur then
    match n with
    | O => Diverge
    | S n =>
        let cur := swrap 32 (cur - es) in
        if (cur <? 0) || badr cur then scan_table n cur map c
        else if (8192 <=? es) && has_mark (c cur) then
          m0 ← mapping_at (c cur) 0;
          m1 ← mapping_at (c cur) 1;
          if (m0 =? 0) && (m1 =? UNMAPPED) then
            r ← read_entries 50 2 (c cur) srcStart resStart es numSrcBlocks cur map;
            Done (Some (cur, r.1, r.2))
          else scan_table n cur map c
        else scan_table n cur map c
    end
  else Done None.

Definition table_result (map : list Z) (r : option (Z * bool * list Z)) : bool * list Z :=
  match r with Some (_, found, map) => (found, map) | None => (false, map) end.

Lemma find_table_scan n : forall cur map dr, healthy dr -> exists dr', healthy dr' /\ same_content dr dr' /\
  find_table n srcStart resStart es numSrcBlocks cur map dr = (r ← scan_table n cur map (content dr); Done (Some (table_result map r), dr')).
Proof.
  induction n as [|n IH]; intros cur map dr Hd; cbn [find_table scan_table].
  { exists dr. destruct (0 <? cur); by split_and!. }
  destruct (0 <? cur); [|by exists dr]. cbv zeta. set (c := swrap 32 (cur - es)). rewrite dev_bad, negb_involutive by done.
  destruct ((c <? 0) || badr c) eqn:Ec; [by apply IH|]. apply orb_false_iff in Ec as [_ Hb].
  destruct (dev_read_ok dr c Hd) as (k & data & d1 & -> & Hd1 & Hs1 & _ & Hg). destruct (Hg Hb) as (-> & -> & _). rewrite Z.eqb_refl. cbn [negb].
  assert (forall x, exists dr', healthy dr' /\ same_content dr dr' /\ find_table n srcStart resStart es numSrcBlocks x map d1 =
    (r ← scan_table n x map (content dr); Done (Some (table_result map r), dr'))) as Hrec.
  { intros x. destruct (IH x map d1 Hd1) as (dr' & Hd' & Hs' & ->). exists dr'. split; [done|]. split; [intros q; by rewrite Hs', Hs1|].
    f_equal. assert (forall n x, scan_table n x map (content d1) = scan_table n x map (content dr)) as ->; [|done].
    clear -Hs1. induction n as [|n IH]; intros x; cbn [scan_table]; [done|]. destruct (0 <? x); [|done]. rewrite !Hs1, !IH. done. }
  destruct ((8192 <=? es) && has_mark (content dr c)); [|by apply Hrec].
  destruct (mapping_at (content dr c) 0) as [m0| | |]; [|exists dr; by split_and!..]. cbn [mbind outcome_bind].
  destruct (mapping_at (content dr c) 1) as [m1| | |]; [|exists dr; by split_and!..]. cbn [mbind outcome_bind].
  destruct ((m0 =? 0) && (m1 =? UNMAPPED)); [|by apply Hrec].
  exists d1. split; [done|]. split; [done|]. destruct (read_entries _ _ _ _ _ _ _ _ _) as [[f m]| | |]; done.
Qed.

(** Nothing in front of the table is looked at. *)
Lemma scan_table_stable n c c' : forall cur map T f m, scan_table n cur map c = Done (Some (T, f, m)) ->
  (forall q, T <= q -> badr q = false -> c' q = c q) -> 0 <= cur < 2 ^ 31 -> es < 2 ^ 31 ->
  scan_table n cur map c' = Done (Some (T, f, m)) /\ 0 <= T < cur.
Proof.
  induction n as [|n IH]; intros cur map T f m E Hc Hcur Hes31; cbn [scan_table] in *.
  { destruct (0 <? cur); done. }
  destruct (0 <? cur) eqn:E0; [|done]. bool_to_prop. cbv zeta in *.
  assert (swrap 32 (cur - es) = cur - es) as Ew by (apply swrap_small; [lia|unfold in_s; lia]). rewrite Ew in *.
  destruct (Z.ltb_spec (cur - es) 0) as [Hn|Hn]; cbn [orb] in *.
  { exfalso. destruct n; cbn [scan_table] in E; rewrite (proj2 (Z.ltb_ge 0 (cur - es))) in E by lia; done. }
  destruct (badr (cur - es)) eqn:Hb.
  { destruct (IH _ _ _ _ _ E Hc) as [? ?]; [lia|done|]. split; [done|lia]. }
  assert (T <= cur - es) as HT.
  { destruct ((8192 <=? es) && _); [|by destruct (IH _ _ _ _ _ E Hc) as [_ ?]; lia].
    destruct (mapping_at (c (cur - es)) 0) as [m0| | |]; [|done..]. cbn [mbind outcome_bind] in E.
    destruct (mapping_at (c (cur - es)) 1) as [m1| | |]; [|done..]. cbn [mbind outcome_bind] in E.
    destruct ((m0 =? 0) && _); [|by destruct (IH _ _ _ _ _ E Hc) as [_ ?]; lia].
    destruct (read_entries _ _ _ _ _ _ _ _ _) as [r| | |]; [|done..]. cbn in E. injection E as <- _ _. lia. }
  rewrite (Hc _ HT Hb).
  destruct ((8192 <=? es) && _); [|destruct (IH _ _ _ _ _ E Hc) as [-> ?]; [lia|done|]; split; [done|lia]].
  destruct (mapping_at (c (cur - es)) 0) as [m0| | |]; [|done..]. cbn [mbind outcome_bind] in *.
  destruct (mapping_at (c (cur - es)) 1) as [m1| | |]; [|done..]. cbn [mbind outcome_bind] in *.
  destruct ((m0 =? 0) && _); [|destruct (IH _ _ _ _ _ E Hc) as [-> ?]; [lia|done|]; split; [done|lia]].
  destruct (read_entries _ _ _ _ _ _ _ _ _) as [r| | |]; [|done..]. cbn in *. injection E as <- <- <-. split; [done|lia].
Qed.

(** What is found was read from a block. *)
Lemma scan_table_reads n c : forall cur map T f m, scan_table n cur map c = Done (Some (T, f, m)) ->
  exists buf, read_entries 50 2 buf srcStart resStart es numSrcBlocks T map = Done (f, m).
Proof.
  induction n as [|n IH]; intros cur map T f m E; cbn [scan_table] in E; destruct (0 <? cur); try done. cbv zeta in E.
  destruct ((_ <? 0) || _); [by apply (IH _ _ _ _ _ E)|]. destruct ((8192 <=? es) && _); [|by apply (IH _ _ _ _ _ E)].
  destruct (mapping_at _ 0) as [m0| | |]; [|done..]. cbn [mbind outcome_bind] in E.
  destruct (mapping_at _ 1) as [m1| | |]; [|done..]. cbn [mbind outcome_bind] in E.
  destruct ((m0 =? 0) && _); [|by apply (IH _ _ _ _ _ E)].
  destruct (read_entries _ _ _ _ _ _ _ _ _) as [[f' m']| | |] eqn:Er; [|done..]. cbn in E. injection E as <- <- <-. by eexists.
Qed.

End Table.

(** ** The two partitions through the mapping *)

Section Both.
  Context {DS DR : MtdDriver} {MS : MtdInfo DS} {MR : MtdInfo DR} {es : Z} {bads badr : Z -> bool}.
  Context {HS : MtdHealthy DS es bads} {HR : MtdHealthy DR es badr} (Hes : 0 < es).
  Context (malloc_ok : Z -> bool) (Hmalloc : forall n, malloc_ok n = true).
  Context (N total : Z) (HN : 0 <= N) (Hsize : N * es < 2 ^ 31) (Htotal : total < 2 ^ 31).

(** Where the replacement [m] starts. *)
Definition replacement (m : Z) : Z := wrap 32 (m * es).

(** What the program makes sure of: good blocks are not replaced, bad ones are by a
    good block in front of the table. *)
Definition entry_ok (T b m : Z) : Prop :=
  if m =? UNMAPPED then bads (b * es) = false else badr (replacement m) = false /\ replacement m < T.

Record mapping_ok (T : Z) (map : list Z) : Prop := {
  map_length : zlen map = N;
  map_entries : forall b m, buf_get map b = Some m -> entry_ok T b m
}.

(** No block stands in for two. *)
Definition apart (map : list Z) : Prop := forall b b' m m', buf_get map b = Some m -> buf_get map b' = Some m' ->
  m ≠ UNMAPPED -> m' ≠ UNMAPPED -> replacement m = replacement m' -> b = b'.

(** The contents of block [b]. *)
Definition block_of (map : list Z) (ds : @dev DS) (dr : @dev DR) (b : Z) : list Z :=
  match buf_get map b with
  | Some m => if m =? UNMAPPED then content ds (b * es) else content dr (replacement m)
  | None => []
  end.

Lemma source_at b map m : zlen map = N -> buf_get map b = Some m -> wrap 32 (b * es) = b * es /\ b * es < 2 ^ 31.
Proof. intros Hl E. apply buf_get_inv in E as [? _]. assert (0 <= b * es < 2 ^ 31) by nia. split; [|lia]. apply wrap_small. unfold in_u. lia. Qed.

Lemma block_length T map ds dr b : mapping_ok T map -> healthy ds -> healthy dr -> 0 <= b < N -> zlen (block_of map ds dr b) = es.
Proof.
  intros [Hl Hm] Hs Hr Hb. destruct (buf_get_some map b ltac:(lia)) as [m E]. pose proof (Hm _ _ E) as He.
  unfold block_of, entry_ok in *. rewrite E. destruct (m =? UNMAPPED); [by apply dev_content_length|]. destruct He. by apply dev_content_length.
Qed.

Lemma read_mapped_good T map ds dr b : mapping_ok T map -> healthy ds -> healthy dr -> 0 <= b < N ->
  exists ds' dr', read_mapped es b map ds dr = Done (Some (block_of map ds dr b), ds', dr') /\
    healthy ds' /\ healthy dr' /\ same_content ds ds' /\ same_content dr dr'.
Proof.
  intros [Hl Hm] Hs Hr Hb. destruct (buf_get_some map b ltac:(lia)) as [m E]. pose proof (Hm _ _ E) as He.
  destruct (source_at _ _ _ Hl E) as [Ew _]. unfold read_mapped, block_of, entry_ok in *. rewrite E, Ew. cbn [access mbind outcome_bind].
  destruct (m =? UNMAPPED).
  - destruct (read_fully_good Hes (b * es) ds Hs He) as (ds' & -> & ? & ?). by exists ds', dr.
  - destruct He as [He _]. destruct (read_fully_good Hes (replacement m) dr Hr He) as (dr' & E' & ? & ?). unfold replacement in E' at 1. rewrite E'. by exists ds, dr'.
Qed.

Lemma write_mapped_good T map ds dr b data : mapping_ok T map -> apart map -> T <= total -> healthy ds -> healthy dr -> 0 <= b < N -> zlen data = es ->
  exists ds' dr', write_mapped es b map data ds dr = Done (es, ds', dr') /\ healthy ds' /\ healthy dr' /\
    (forall c, block_of map ds' dr' c = if c =? b then data else block_of map ds dr c) /\
    (forall q, T <= q -> content dr' q = content dr q).
Proof.
  intros [Hl Hm] Ha HT Hs Hr Hb Hd. destruct (buf_get_some map b ltac:(lia)) as [m E]. pose proof (Hm _ _ E) as He.
  destruct (source_at _ _ _ Hl E) as [Ew ?]. unfold write_mapped, block_of, entry_ok in *. rewrite E, Ew. cbn [access mbind outcome_bind].
  destruct (m =? UNMAPPED) eqn:Em.
  - destruct (bml_write_block_good Hes (b * es) data ds Hs He ltac:(done) Hd) as (ds' & -> & ? & Hw & Hw'). exists ds', dr. split_and!; try done.
    intros c. destruct (Z.eqb_spec c b) as [->|Hc]; [by rewrite E, Em|]. destruct (buf_get map c) as [m'|]; [|done].
    destruct (m' =? UNMAPPED); [|done]. apply Hw'. nia.
  - destruct He as [He Hq]. destruct (bml_write_block_good Hes (replacement m) data dr Hr He ltac:(lia) Hd) as (dr' & E' & ? & Hw & Hw').
    unfold replacement in E' at 1. rewrite E'. exists ds, dr'. split_and!; try done; [|intros q Hq'; apply Hw'; lia].
    intros c. destruct (Z.eqb_spec c b) as [->|Hc]; [by rewrite E, Em|]. destruct (buf_get map c) as [m'|] eqn:E2; [|done].
    destruct (m' =? UNMAPPED) eqn:Em'; [done|]. apply Hw'. intros ?. apply Hc. bool_to_prop. by eapply Ha.
Qed.

(** The partition as it is dumped, from block [b] on. *)
Definition image (map : list Z) (ds : @dev DS) (dr : @dev DR) (b : Z) (n : nat) : list Z := concat (block_of map ds dr <$> seqZ b (Z.of_nat n)).

Lemma block_of_same map ds ds' dr dr' b : same_content ds ds' -> same_content dr dr' -> block_of map ds' dr' b = block_of map ds dr b.
Proof. intros H1 H2. unfold block_of. by rewrite H1; destruct (buf_get map b) as [m|]; [rewrite (H2 (replacement m))|]. Qed.

Lemma image_same map ds ds' dr dr' b n : (forall c, b <= c < b + Z.of_nat n -> block_of map ds' dr' c = block_of map ds dr c) ->
  image map ds' dr' b n = image map ds dr b n.
Proof. intros H. unfold image. f_equal. apply list_fmap_ext. intros i c Hc. apply lookup_seqZ in Hc as [-> Hi]. apply H. lia. Qed.

Lemma image_cons map ds dr b n : image map ds dr b (S n) = block_of map ds dr b ++ image map ds dr (b + 1) n.
Proof. unfold image. rewrite Nat2Z.inj_succ, seqZ_cons by lia. by rewrite Z.pred_succ. Qed.

Lemma dump_blocks_good T map out_write : (forall t n, 0 < n -> 0 < out_write t n) -> mapping_ok T map -> forall n b out ds dr, healthy ds -> healthy dr ->
  0 <= b -> b + Z.of_nat n <= N ->
  exists ds' dr', dump_blocks out_write n b es map out ds dr = Done (Some (out ++ image map ds dr b n), ds', dr') /\
    healthy ds' /\ healthy dr' /\ same_content ds ds' /\ same_content dr dr'.
Proof.
  intros Hout Hm n. induction n as [|n IH]; intros b out ds dr Hs Hr Hb HbN; cbn [dump_blocks].
  { exists ds, dr. unfold image. cbn. by rewrite app_nil_r. }
  destruct (read_mapped_good T map ds dr b Hm Hs Hr ltac:(lia)) as (ds1 & dr1 & -> & Hs1 & Hr1 & Hc1 & Hc2). cbn [mbind outcome_bind].
  pose proof (block_length T map ds dr b Hm Hs Hr ltac:(lia)). rewrite write_fully_good by (done || lia). cbn [mbind outcome_bind].
  destruct (IH (b + 1) (out ++ block_of map ds dr b) ds1 dr1 Hs1 Hr1 ltac:(lia) ltac:(lia)) as (ds2 & dr2 & -> & Hs2 & Hr2 & Hc3 & Hc4).
  exists ds2, dr2. split_and!; [|done..| |]; [|intros q; by rewrite Hc3, Hc1|intros q; by rewrite Hc4, Hc2].
  rewrite image_cons, <- app_assoc. do 6 f_equal. apply image_same. intros c _. by apply block_of_same.
Qed.

(** Block [b] of a file, filled up. *)
Definition pad_block (file : list Z) (b : Z) : list Z :=
  let part := take (Z.to_nat es) (drop (Z.to_nat (b * es)) file) in part ++ replicate (Z.to_nat (es - zlen part)) 255.

Lemma pad_block_length file b : zlen (pad_block file b) = es.
Proof. unfold pad_block. rewrite length_app, length_replicate. pose proof (length_take (drop (Z.to_nat (b * es)) file) (Z.to_nat es)). lia. Qed.

Lemma flash_blocks_good T map in_read file : (forall p n, 0 < n -> 0 < in_read p n) -> mapping_ok T map -> apart map -> T <= total ->
  forall n b pos ds dr, healthy ds -> healthy dr -> 0 <= b -> b + Z.of_nat n <= N -> pos = Z.min (b * es) (zlen file) ->
  exists ds' dr', flash_blocks in_read n b pos es map file ds dr = Done (true, ds', dr') /\ healthy ds' /\ healthy dr' /\
    (forall c, block_of map ds' dr' c = if (b <=? c) && (c <? b + Z.of_nat n) then pad_block file c else block_of map ds dr c) /\
    (forall q, T <= q -> content dr' q = content dr q).
Proof.
  intros Hin Hm Ha HT n. induction n as [|n IH]; intros b pos ds dr Hs Hr Hb HbN Hpos; cbn [flash_blocks].
  { exists ds, dr. split_and!; try done. intros c. destruct (Z.leb_spec b c), (Z.ltb_spec c (b + Z.of_nat 0)); try done; lia. }
  assert (drop (Z.to_nat pos) file = drop (Z.to_nat (b * es)) file) as Ed.
  { rewrite Hpos. destruct (decide (b * es <= zlen file)); [f_equal; lia|]. rewrite !drop_ge by nia. done. }
  rewrite read_file_good by (done || cbn; nia || by rewrite take_0). cbn [mbind outcome_bind]. rewrite Ed.
  change (take (Z.to_nat es) (drop (Z.to_nat (b * es)) file) ++ _) with (pad_block file b).
  destruct (write_mapped_good T map ds dr b (pad_block file b) Hm Ha HT Hs Hr ltac:(lia) (pad_block_length file b)) as (ds1 & dr1 & -> & Hs1 & Hr1 & Hb1 & Hq1).
  cbn [mbind outcome_bind]. rewrite (proj2 (Z.leb_gt es 0)) by done.
  destruct (IH (b + 1) (pos + zlen (take (Z.to_nat es) (drop (Z.to_nat (b * es)) file))) ds1 dr1 Hs1 Hr1 ltac:(lia) ltac:(lia))
    as (ds2 & dr2 & -> & Hs2 & Hr2 & Hb2 & Hq2).
  { rewrite length_take, length_drop. nia. }
  exists ds2, dr2. split_and!; try done; [|intros q Hq; by rewrite Hq2, Hq1].
  intros c. rewrite Hb2, Hb1.
  destruct (Z.leb_spec (b + 1) c), (Z.ltb_spec c (b + 1 + Z.of_nat n)), (Z.leb_spec b c), (Z.ltb_spec c (b + Z.of_nat (S n))), (Z.eqb_spec c b); cbn; subst; done || lia.
Qed.

(** ** The mapping the program accepts *)

Lemma read_entries_inv resStart srcStart T buf : 0 <= resStart -> resStart * es + total <= 2 ^ 32 -> 0 <= T < total -> forall n k map f map',
  read_entries n k buf srcStart resStart es N T map = Done (f, map') ->
  Forall (fun m => m = UNMAPPED \/ replacement m < T \/ total <= replacement m) map ->
  zlen map' = zlen map /\ Forall (fun m => m = UNMAPPED \/ replacement m < T \/ total <= replacement m) map'.
Proof.
  intros Hr Hres HT n. induction n as [|n IH]; intros k map f map' E Hf; cbn [read_entries] in E; [done|].
  destruct (k <? 100); [|by injection E as <- <-].
  destruct (mapping_at buf k) as [src| | |]; [|done..]. cbn [mbind outcome_bind] in E. destruct (src =? UNMAPPED); [by injection E as <- <-|].
  destruct (mapping_at buf (k + 1)) as [dst| | |] eqn:Edst; [|done..]. cbn [mbind outcome_bind] in E.
  assert (0 <= dst < 2 ^ 16) as Hdst.
  { unfold mapping_at in Edst. destruct (access (buf_get buf (4096 + 2 * (k + 1)))) as [lo| | |]; [|done..]. cbn [mbind outcome_bind] in Edst.
    destruct (access (buf_get buf (4096 + 2 * (k + 1) + 1))) as [hi| | |]; [|done..]. cbn [mbind outcome_bind] in Edst. injection Edst as <-. by apply wrap_range. }
  unfold map_entry in E. rewrite (wrap_small 32 (resStart * es)) in E by (unfold in_u; nia). rewrite (wrap_small 32 (resStart * es + T)) in E by (unfold in_u; nia).
  destruct (last_block resStart N) as [?| | |]; [|done..]. cbn [mbind outcome_bind] in E.
  destruct (Z.ltb_spec dst resStart), (Z.leb_spec (resStart * es + T) (wrap 32 (dst * es))); cbn [orb mbind outcome_bind] in E; try by injection E as <- <-.
  destruct (last_block srcStart N) as [last| | |]; [|done..]. cbn [mbind outcome_bind] in E.
  destruct ((srcStart <=? src) && _); [|by apply (IH _ _ _ _ E)].
  unfold buf_set in E. destruct ((0 <=? _) && _); [|done]. cbn [access mbind outcome_bind] in E. apply IH in E.
  - by rewrite length_insert in E.
  - apply Forall_insert; [done|]. right. rewrite (wrap_small 16) by (unfold in_u; lia). unfold replacement, wrap in *.
    rewrite Z.mul_sub_distr_r. pose proof (Z.mod_pos_bound (dst * es) (2 ^ 32) ltac:(lia)).
    rewrite Zminus_mod. destruct (decide (resStart * es <= (dst * es) mod 2 ^ 32)).
    + left. rewrite (Z.mod_small (resStart * es)) by nia. rewrite Z.mod_small by nia. lia.
    + right. rewrite (Z.mod_small (resStart * es)) by nia. rewrite <- (Z.mod_unique _ (2 ^ 32) (-1) ((dst * es) mod 2 ^ 32 - resStart * es + 2 ^ 32)) by nia. nia.
Qed.

Context (ps pr : MtdPartition) (write : Z).
Context (Hes_s : erase_size ps = es) (Hes_r : erase_size pr = es) (Hsize_s : p_size ps = N * es) (Htotal_es : es <= total).
Context (Hinfo_s : forall d : @dev DS, healthy d -> mtd_partition_info d ps = Some (N * es, es, write)).
Context (Hinfo_r : forall d : @dev DR, healthy d -> mtd_partition_info d pr = Some (total, es, write)).
Context (Hend : forall q, total <= q -> badr q = true).

Lemma read_partition_good {D : MtdDriver} {bad} {HD : MtdHealthy D es bad} (d : @dev D) p : healthy d -> bml_over_mtd_read_partition malloc_ok d p = Done true.
Proof. intros Hd. unfold bml_over_mtd_read_partition. by rewrite !Hmalloc, dev_open_ok. Qed.

Lemma mapping_valid_same map (ds ds' : @dev DS) (dr dr' : @dev DR) : healthy ds -> healthy ds' -> healthy dr -> healthy dr' -> forall n b,
  mapping_valid malloc_ok n b es map pr ds dr = mapping_valid malloc_ok n b es map pr ds' dr'.
Proof.
  intros Hs Hs' Hr Hr' n. induction n as [|n IH]; intros b; cbn [mapping_valid]; [done|]. rewrite IH, !dev_bad by done.
  rewrite !read_partition_good by done. cbn [mbind outcome_bind]. destruct (buf_get map b) as [m|]; [|done]. cbn [access mbind outcome_bind]. by rewrite !dev_bad.
Qed.

Lemma mapping_valid_inv map (ds : @dev DS) (dr : @dev DR) : healthy ds -> healthy dr -> zlen map = N -> forall n b, mapping_valid malloc_ok n b es map pr ds dr = Done true ->
  0 <= b -> b + Z.of_nat n = N -> forall c m, b <= c -> buf_get map c = Some m ->
  if m =? UNMAPPED then bads (c * es) = false else badr (replacement m) = false.
Proof.
  intros Hs Hr Hl n. induction n as [|n IH]; intros b E Hb Hn c m Hc Em; cbn [mapping_valid] in E.
  { apply buf_get_inv in Em. lia. }
  destruct (buf_get_some map b ltac:(lia)) as [m' Em']. rewrite Em' in E. cbn [access mbind outcome_bind] in E. rewrite !dev_bad, read_partition_good in E by done.
  destruct (source_at _ _ _ Hl Em') as [Ew _]. rewrite Ew in E. cbn [mbind outcome_bind] in E.
  assert (mapping_valid malloc_ok n (b + 1) es map pr ds dr = Done true /\
    if m' =? UNMAPPED then bads (b * es) = false else badr (replacement m') = false) as [Hrest Hhere].
  { unfold replacement. destruct (bads (b * es)), (m' =? UNMAPPED), (badr (wrap 32 (m' * es))); cbn [negb mbind outcome_bind] in E;
      destruct (mapping_valid malloc_ok n (b + 1) es map pr ds dr) as [[]| | |]; cbn in E; done. }
  destruct (decide (c = b)) as [->|Hne]; [by simplify_eq|]. apply (IH _ Hrest); lia || done.
Qed.

Lemma CreateBlockMapping_run srcStart resStart (ds : @dev DS) (dr : @dev DR) : healthy ds -> healthy dr -> exists dr', healthy dr' /\ same_content dr dr' /\
  CreateBlockMapping malloc_ok ps srcStart pr resStart ds dr =
    (r ← scan_table (es := es) (badr := badr) srcStart resStart N (Z.to_nat (total / es + 1)) total (replicate (Z.to_nat N) UNMAPPED) (content dr);
     let '(found, map) := table_result (replicate (Z.to_nat N) UNMAPPED) r in
     if found then
       ok ← mapping_valid malloc_ok (Z.to_nat N) 0 es map pr ds dr;
       Done (if ok : bool then Some map else None, dr')
     else Done (None, dr')).
Proof.
  intros Hs Hr. unfold CreateBlockMapping. rewrite Hinfo_s, Hinfo_r by done. rewrite (proj2 (Z.eqb_neq es 0)) by lia.
  rewrite Z.div_mul by lia. rewrite (swrap_small 32 N) by (try unfold in_s; nia). rewrite Hmalloc, !Z.eqb_refl, Hes_r. cbn [negb orb].
  rewrite (read_partition_good dr) by done. cbn [mbind outcome_bind negb].
  rewrite (proj2 (Z.ltb_ge total es)), (proj2 (Z.ltb_ge (2 ^ 31 - 1) total)), Z.ltb_irrefl by lia. cbn [orb].
  destruct (find_table_scan srcStart resStart N (Z.to_nat (total / es + 1)) total (replicate (Z.to_nat N) UNMAPPED) dr Hr) as (dr' & Hr' & Hc & ->).
  exists dr'. split; [done|]. split; [done|]. destruct (scan_table _ _ _ _ _ _ _) as [r| | |]; [|done..]. cbn [mbind outcome_bind].
  destruct (table_result _ r) as [[] map]; cbn [negb]; [|done]. rewrite (read_partition_good ds) by done. cbn [mbind outcome_bind negb].
  by rewrite (mapping_valid_same map ds ds dr' dr).
Qed.

(** An accepted mapping is usable, and it is accepted again as long as the table
    and what is behind it are not written to. *)
Lemma CreateBlockMapping_accepts srcStart resStart (ds : @dev DS) (dr : @dev DR) map dr1 : healthy ds -> healthy dr -> 0 <= resStart -> resStart * es + total <= 2 ^ 32 ->
  CreateBlockMapping malloc_ok ps srcStart pr resStart ds dr = Done (Some map, dr1) ->
  exists T, T <= total /\ mapping_ok T map /\ forall (ds' : @dev DS) (dr' : @dev DR), healthy ds' -> healthy dr' -> (forall q, T <= q -> content dr' q = content dr q) ->
    exists dr2, CreateBlockMapping malloc_ok ps srcStart pr resStart ds' dr' = Done (Some map, dr2) /\ healthy dr2 /\ same_content dr' dr2.
Proof.
  intros Hs Hr Hres Hres' E. destruct (CreateBlockMapping_run srcStart resStart ds dr Hs Hr) as (dr' & _ & _ & Erun). rewrite Erun in E. clear Erun.
  destruct (scan_table _ _ _ _ _ _ (content dr)) as [r| | |] eqn:Escan; [|done..]. cbn [mbind outcome_bind] in E.
  destruct r as [[[T f] m]|]; [|done]. cbn [table_result] in E. destruct f; [|done].
  destruct (mapping_valid _ _ _ _ _ _ _ _) as [ok| | |] eqn:Eval; [|done..]. destruct ok; [|done]. cbn in E. injection E as -> _.
  destruct (scan_table_stable (es := es) Hes srcStart resStart N _ (content dr) (content dr) _ _ _ _ _ Escan) as [_ HT]; [done|lia..|].
  destruct (scan_table_reads srcStart resStart N _ (content dr) _ _ _ _ _ Escan) as (buf & Eread).
  destruct (read_entries_inv resStart srcStart T buf Hres Hres' HT _ _ _ _ _ Eread) as [Hl Hall].
  { apply Forall_replicate. by left. }
  rewrite length_replicate in Hl. exists T. split; [lia|]. split.
  - constructor; [lia|]. intros b m Em. pose proof (mapping_valid_inv map ds dr Hs Hr ltac:(lia) _ _ Eval ltac:(lia) ltac:(lia) b m) as Hv.
    pose proof (buf_get_inv _ _ _ Em) as [Hb Hlk]. specialize (Hv ltac:(lia) Em). unfold entry_ok. destruct (m =? UNMAPPED) eqn:Eu; [done|]. split; [done|].
    bool_to_prop. rewrite Forall_lookup in Hall. destruct (Hall _ _ Hlk) as [?|[?|Hge]]; [done..|]. by rewrite (Hend _ Hge) in Hv.
  - intros ds' dr2 Hs' Hr' Hc. destruct (CreateBlockMapping_run srcStart resStart ds' dr2 Hs' Hr') as (dr3 & Hr3 & Hc3 & ->).
    destruct (scan_table_stable (es := es) Hes srcStart resStart N _ (content dr) (content dr2) _ _ _ _ _ Escan) as [-> _]; [by intros; apply Hc|lia..|].
    cbn [mbind outcome_bind table_result]. rewrite (mapping_valid_same map ds' ds dr2 dr), Eval by done. by exists dr3.
Qed.

(** ** The program *)

Lemma image_app map ds dr b n m : image map ds dr b (n + m) = image map ds dr b n ++ image map ds dr (b + Z.of_nat n) m.
Proof. unfold image. by rewrite Nat2Z.inj_add, seqZ_app, fmap_app, concat_app by lia. Qed.

Lemma image_length T map ds dr n : mapping_ok T map -> healthy ds -> healthy dr -> forall b, 0 <= b -> b + Z.of_nat n <= N ->
  zlen (image map ds dr b n) = Z.of_nat n * es.
Proof.
  intros Hm Hs Hr. induction n as [|n IH]; intros b Hb HbN; [done|]. rewrite image_cons, length_app, Nat2Z.inj_add, IH by lia.
  rewrite (block_length T) by (done || lia). lia.
Qed.

Lemma pad_blocks file n : concat (pad_block file <$> seqZ 0 (Z.of_nat n)) =
  take (Z.to_nat (Z.of_nat n * es)) file ++ replicate (Z.to_nat (Z.of_nat n * es - zlen file)) 255.
Proof.
  induction n as [|n IH]; [change (Z.of_nat 0) with 0; by replace (Z.to_nat (0 * es - zlen file)) with 0%nat by lia|].
  rewrite seqZ_S, fmap_app, concat_app, IH, Nat2Z.inj_succ. cbn [fmap list_fmap concat]. rewrite app_nil_r, Z.add_0_l. unfold pad_block.
  destruct (decide (Z.of_nat n * es <= zlen file)) as [Hle|Hgt].
  - replace (Z.to_nat (Z.of_nat n * es - zlen file)) with 0%nat by lia. cbn [replicate]. rewrite app_nil_r, app_assoc, take_take_drop. f_equal.
    + f_equal. nia.
    + f_equal. rewrite length_take, length_drop. nia.
  - rewrite (drop_ge file) by nia. rewrite take_nil. cbn [app length]. rewrite !take_ge by nia. rewrite <- app_assoc, <- replicate_add. do 2 f_equal.
    change (Z.of_nat 0) with 0. nia.
Qed.

Lemma image_flashed T map ds dr ds' dr' file (k : nat) : mapping_ok T map -> healthy ds -> healthy dr -> zlen file <= Z.of_nat k * es -> Z.of_nat k <= N ->
  (forall c, block_of map ds' dr' c = if (0 <=? c) && (c <? 0 + Z.of_nat k) then pad_block file c else block_of map ds dr c) ->
  image map ds' dr' 0 (Z.to_nat N) =
    file ++ replicate (Z.to_nat (Z.of_nat k * es - zlen file)) 255 ++ drop (Z.to_nat (Z.of_nat k * es)) (image map ds dr 0 (Z.to_nat N)).
Proof.
  intros Hm Hs Hr Hf Hk Hb. replace (Z.to_nat N) with (k + (Z.to_nat N - k))%nat by lia. rewrite !image_app, Z.add_0_l.
  rewrite drop_app_length' by (pose proof (image_length T map ds dr k Hm Hs Hr 0 ltac:(lia) ltac:(lia)); lia). rewrite app_assoc. f_equal.
  - trans (concat (pad_block file <$> seqZ 0 (Z.of_nat k))); [|rewrite pad_blocks, take_ge by lia; done].
    unfold image. f_equal. apply list_fmap_ext. intros i c Hc. apply lookup_seqZ in Hc as [-> Hi]. rewrite Hb.
    by rewrite (proj2 (Z.leb_le 0 _)), (proj2 (Z.ltb_lt _ (0 + Z.of_nat k))) by lia.
  - apply image_same. intros c Hc. rewrite Hb, (proj2 (Z.ltb_ge c _)) by lia. by rewrite andb_false_r.
Qed.

Context (out_write in_read : Z -> Z -> Z) (Hout : forall t n, 0 < n -> 0 < out_write t n) (Hin : forall p n, 0 < n -> 0 < in_read p n).

Lemma dump_good T map (ds : @dev DS) (dr : @dev DR) : mapping_ok T map -> healthy ds -> healthy dr -> exists ds' dr',
  dump_bml_partition malloc_ok out_write true ps pr map true ds dr = Done (0, Some (image map ds dr 0 (Z.to_nat N)), ds', dr') /\
  healthy ds' /\ healthy dr' /\ same_content ds ds' /\ same_content dr dr'.
Proof.
  intros Hm Hs Hr. unfold dump_bml_partition. rewrite (read_partition_good ds), (read_partition_good dr) by done. cbn [negb mbind outcome_bind].
  rewrite Hes_s, Hsize_s, (proj2 (Z.eqb_neq es 0)), Z.div_mul, swrap_small by (try unfold in_s; nia).
  destruct (dump_blocks_good T map out_write Hout Hm (Z.to_nat N) 0 [] ds dr Hs Hr ltac:(lia) ltac:(lia)) as (ds' & dr' & -> & Hrest).
  by exists ds', dr'.
Qed.

Lemma flash_good T map file (ds : @dev DS) (dr : @dev DR) : mapping_ok T map -> apart map -> T <= total -> healthy ds -> healthy dr -> zlen file <= N * es -> exists ds' dr',
  flash_bml_partition malloc_ok in_read true true ps pr map (Some file) ds dr = Done (0, ds', dr') /\ healthy ds' /\ healthy dr' /\
  image map ds' dr' 0 (Z.to_nat N) =
    file ++ replicate (Z.to_nat ((- zlen file) mod es)) 255 ++ drop (Z.to_nat (zlen file + (- zlen file) mod es)) (image map ds dr 0 (Z.to_nat N)) /\
  (forall q, T <= q -> content dr' q = content dr q).
Proof.
  intros Hm Ha HT Hs Hr Hf. unfold flash_bml_partition, bml_over_mtd_write_partition. rewrite !Hmalloc, (dev_open_ok ds), (dev_open_ok dr) by done. cbn [negb andb].
  rewrite Hes_s, Hsize_s, (proj2 (Z.ltb_ge _ (zlen file))), (proj2 (Z.eqb_neq es 0)) by lia. cbv zeta.
  set (k := (zlen file + es - 1) / es).
  assert (k * es = zlen file + (- zlen file) mod es) as Ek.
  { unfold k. rewrite (Z.mod_eq (- zlen file)) by lia. assert ((zlen file + es - 1) / es = - ((- zlen file) / es)) as ->; [|lia].
    symmetry. apply Z.div_unique with ((es - 1) - (- zlen file) mod es); [pose proof (Z.mod_pos_bound (- zlen file) es); lia|].
    rewrite (Z.mod_eq (- zlen file)) by lia. lia. }
  pose proof (Z.mod_pos_bound (- zlen file) es Hes). assert (0 <= k <= N) as Hk by nia.
  rewrite swrap_small by (try unfold in_s; nia).
  destruct (flash_blocks_good T map in_read file Hin Hm Ha HT (Z.to_nat k) 0 0 ds dr Hs Hr ltac:(lia) ltac:(lia) ltac:(lia)) as (ds' & dr' & -> & Hs' & Hr' & Hb & Hq).
  exists ds', dr'. split_and!; try done. rewrite (image_flashed T map ds dr ds' dr' file (Z.to_nat k) Hm Hs Hr) by (done || lia).
  rewrite Z2Nat.id, Ek by lia. do 3 f_equal. lia.
Qed.

Lemma scan_partition_good (d : @dev DS) : healthy d -> exists r, scan_partition malloc_ok d ps = Done r.
Proof.
  intros Hd. unfold scan_partition. rewrite read_partition_good by done. cbn [mbind outcome_bind negb]. rewrite Hes_s, (proj2 (Z.eqb_neq es 0)) by lia.
  destruct (count_bad _ _ _ _ =? 0); by eexists.
Qed.

Context (proc_mtd : option string) (file_named : string -> option (list Z)) (out_named : string -> bool) (num : Z) (st : MtdState).
Context (program srcName srcStart resName resStart filename : string).
Context (Hscan : mtd_scan_partitions proc_mtd = Done (num, st)).
Context (Hfind_s : mtd_find_partition_by_name srcName st = Some ps) (Hfind_r : mtd_find_partition_by_name resName st = Some pr).
Abbreviation run command := (bml_main malloc_ok out_write in_read true true proc_mtd file_named out_named
  [program; command; srcName; srcStart; resName; resStart; filename]).

Lemma run_start command (ds : @dev DS) (dr : @dev DR) map dr1 : healthy ds ->
  CreateBlockMapping malloc_ok ps (swrap 32 (strtol srcStart).1) pr (swrap 32 (strtol resStart).1) ds dr = Done (Some map, dr1) ->
  run command ds dr =
    if String.eqb command "dump" then dump_bml_partition malloc_ok out_write true ps pr map (out_named filename) ds dr1
    else if String.eqb command "flash" then
      '(r, ds, dr) ← flash_bml_partition malloc_ok in_read true true ps pr map (file_named filename) ds dr1; Done (r, None, ds, dr)
    else Done (0, None, ds, dr1).
Proof.
  intros Hs E. unfold bml_main. cbn [length Z.of_nat Pos.of_succ_nat Pos.succ Z.eqb Pos.eqb negb andb]. rewrite Hscan. cbn [mbind outcome_bind lookup list_lookup default from_option id].
  rewrite Hfind_s. destruct (scan_partition_good ds Hs) as [r ->]. cbn [mbind outcome_bind]. rewrite Hfind_r, E. cbn [mbind outcome_bind].
  by rewrite (bool_decide_false (Some map = None)) by done.
Qed.

(** [C23] A partition with replaced blocks is dumped, flashed and dumped again: when
    the program accepts the table in the reservoir and no block of it stands in for
    two, the second dump is the flashed file, filled up with 0xFF to the end of its
    last block, and behind it the rest of the first dump.  In particular bad blocks
    are never written to, and the blocks written to do not change the mapping the
    next run reads from the same partition. *)
Theorem bml_flash_dump_roundtrip (ds : @dev DS) (dr : @dev DR) file map dr1 (Hs : healthy ds) (Hr : healthy dr)
    (Hstart : 0 <= swrap 32 (strtol resStart).1) (Hrange : swrap 32 (strtol resStart).1 * es + total <= 2 ^ 32)
    (Hmap : CreateBlockMapping malloc_ok ps (swrap 32 (strtol srcStart).1) pr (swrap 32 (strtol resStart).1) ds dr = Done (Some map, dr1))
    (Hapart : apart map) (Hfile : file_named filename = Some file) (Hopen : out_named filename = true) (Hfit : zlen file <= N * es) :
  exists old ds0 dr0 ds1 dr1 ds2 dr2,
    run "dump" ds dr = Done (0, Some old, ds0, dr0) /\ zlen old = N * es /\
    run "flash" ds0 dr0 = Done (0, None, ds1, dr1) /\
    run "dump" ds1 dr1 = Done (0, Some (file ++ replicate (Z.to_nat ((- zlen file) mod es)) 255 ++ drop (Z.to_nat (zlen file + (- zlen file) mod es)) old), ds2, dr2).
Proof using All.
  destruct (CreateBlockMapping_accepts _ _ ds dr map dr1 Hs Hr Hstart Hrange Hmap) as (T & HT & Hm & Hagain).
  destruct (Hagain ds dr Hs Hr ltac:(done)) as (dra & Ea & Hra & Hca).
  destruct (dump_good T map ds dra Hm Hs Hra) as (ds0 & dr0 & Ed & Hs0 & Hr0 & Hc0 & Hc0').
  destruct (Hagain ds0 dr0 Hs0 Hr0 ltac:(intros q _; by rewrite Hc0', Hca)) as (drb & Eb & Hrb & Hcb).
  destruct (flash_good T map file ds0 drb Hm Hapart HT Hs0 Hrb Hfit) as (ds1 & dr2 & Ef & Hs1 & Hr2 & Himg & Hq).
  destruct (Hagain ds1 dr2 Hs1 Hr2 ltac:(intros q Hle; by rewrite Hq, Hcb, Hc0', Hca)) as (drc & Ec & Hrc & Hcc).
  destruct (dump_good T map ds1 drc Hm Hs1 Hrc) as (ds3 & dr3 & Ed' & _).
  exists (image map ds dra 0 (Z.to_nat N)), ds0, dr0, ds1, dr2, ds3, dr3. split_and!.
  - rewrite (run_start _ _ _ _ _ Hs Ea), Hopen. exact Ed.
  - rewrite (image_length T) by (done || lia). lia.
  - rewrite (run_start _ _ _ _ _ Hs0 Eb), Hfile. cbn [String.eqb Ascii.eqb Bool.eqb]. by rewrite Ef.
  - rewrite (run_start _ _ _ _ _ Hs1 Ec), Hopen. cbn [String.eqb Ascii.eqb Bool.eqb]. rewrite Ed'. do 4 f_equal.
    rewrite (image_same map ds1 ds1 dr2 drc) by (intros c _; by apply block_of_same). rewrite Himg. do 4 f_equal.
    apply image_same. intros c _. apply block_of_same; [done|]. intros q. by rewrite Hcb, Hc0'.
Qed.

End Both.

(** ** Chips *)

Definition bml_driver (total : Z) (bad : Z -> bool) : MtdDriver := nand_driver 8192 (fun q => bad q || (total <=? q)).
Definition bml_info (total : Z) (bad : Z -> bool) : MtdInfo (bml_driver total bad) := fun _ _ => Some (total, 8192, 2048).
Definition bml_proc : option string := Some (proc_text [mkLine [0] [4; 0; 0; 0] [2; 0; 0; 0] "boot"; mkLine [1] [6; 0; 0; 0] [2; 0; 0; 0] "reservoir"]).
Definition boot_part : MtdPartition := mkPartition 0 16384 8192 "boot".
Definition reservoir_part : MtdPartition := mkPartition 1 24576 8192 "reservoir".
Definition bml_state : MtdState := mkMtdState (Some boot_part :: Some reservoir_part :: replicate 30 None) 2.

Lemma bml_scan : mtd_scan_partitions bml_proc = Done (2, bml_state).
Proof. vm_compute. reflexivity. Qed.

(** A block with a table: source and replacement, by turns. *)
Definition table_block (entries : list Z) : list Z :=
  let bytes := concat ((fun m => [m mod 256; m / 256]) <$> [0; 65535] ++ entries) in
  [85; 80; 67; 72] ++ replicate 4092 0 ++ bytes ++ replicate (Z.to_nat (4096 - zlen bytes)) 255.

Definition table_at_end (entries : list Z) : gmap Z (list Z) := {[16384 := table_block entries]}.

(** The second block of the partition is bad, and the second of the reservoir
    stands in for it. *)
Definition second_bad (q : Z) : bool := q =? 8192.
Definition no_bad (q : Z) : bool := false.
Abbreviation bml_boot := (bml_driver 16384 second_bad).
Abbreviation bml_reservoir := (bml_driver 24576 no_bad).

Lemma bml_flash_dump_roundtrip_witness :
  let run command := bml_main (DS := bml_boot) (DR := bml_reservoir) (MS := bml_info 16384 second_bad) (MR := bml_info 24576 no_bad)
    (fun _ => true) (fun _ n => n) (fun _ n => n) true true bml_proc (fun _ => Some [7; 8; 9]) (fun _ => true)
    ["bml_over_mtd"; command; "boot"; "72"; "reservoir"; "2004"; "file.bin"]%string in
  exists old ds0 dr0 ds1 dr1 ds2 dr2,
    run "dump"%string (∅ : gmap Z (list Z)) (table_at_end [73; 2005]) = Done (0, Some old, ds0, dr0) /\ zlen old = 2 * 8192 /\
    run "flash"%string ds0 dr0 = Done (0, None, ds1, dr1) /\
    run "dump"%string ds1 dr1 = Done (0, Some ([7; 8; 9] ++ replicate (Z.to_nat ((- zlen [7; 8; 9]) mod 8192)) 255 ++
      drop (Z.to_nat (zlen [7; 8; 9] + (- zlen [7; 8; 9]) mod 8192)) old), ds2, dr2).
Proof.
  apply (bml_flash_dump_roundtrip (MS := bml_info 16384 second_bad) (MR := bml_info 24576 no_bad)
    (HS := nand_healthy 8192 _ ltac:(lia)) (HR := nand_healthy 8192 _ ltac:(lia)) ltac:(lia) (fun _ => true) ltac:(done) 2 24576 ltac:(lia) ltac:(lia) ltac:(lia)
    boot_part reservoir_part 2048 eq_refl eq_refl eq_refl ltac:(lia) ltac:(done) ltac:(done) ltac:(intros q Hq; cbn; by apply Z.leb_le)
    (fun _ n => n) (fun _ n => n) ltac:(lia) ltac:(lia) bml_proc (fun _ => Some [7; 8; 9]) (fun _ => true) 2 bml_state
    "bml_over_mtd" "boot" "72" "reservoir" "2004" "file.bin" bml_scan ltac:(by vm_compute) ltac:(by vm_compute)
    (∅ : gmap Z (list Z)) (table_at_end [73; 2005]) [7; 8; 9] [UNMAPPED; 1] (table_at_end [73; 2005])); try done.
  - apply map_Forall_singleton. vm_compute. reflexivity.
  - intros b b' m m' Hb Hb' Hm Hm' _. apply buf_get_inv in Hb as [? Hb], Hb' as [? Hb']. cbn [length] in *.
    assert (forall c k, [UNMAPPED; 1] !! Z.to_nat c = Some k -> 0 <= c < 2 -> k ≠ UNMAPPED -> c = 1) as Hc; [|by rewrite (Hc b m), (Hc b' m')].
    intros c k Hk Hc Hn. destruct (decide (c = 0)) as [->|]; [by injection Hk as <-|lia].
Defined.

(** A table in which one block stands in for two is accepted: the second block of
    the file overwrites the first, and the program reports success. *)
Definition both_bad (q : Z) : bool := true.
Definition two_blocks : list Z := replicate (Z.to_nat 8192) 1 ++ replicate (Z.to_nat 8192) 2.

Definition flash_then_dump (entries : list Z) : outcome (Z * Z * option (list Z)) :=
  let run command := bml_main (DS := bml_driver 16384 both_bad) (DR := bml_reservoir) (MS := bml_info 16384 both_bad) (MR := bml_info 24576 no_bad)
    (fun _ => true) (fun _ n => n) (fun _ n => n) true true bml_proc (fun _ => Some two_blocks) (fun _ => true)
    ["bml_over_mtd"; command; "boot"; "72"; "reservoir"; "2004"; "file.bin"]%string in
  '(r, _, ds, dr) ← run "flash"%string (∅ : gmap Z (list Z)) (table_at_end entries);
  '(r', out, _, _) ← run "dump"%string ds dr;
  Done (r, r', out).

Lemma shared_replacement_accepted :
  flash_then_dump [72; 2004; 73; 2005] = Done (0, 0, Some two_blocks) /\
  flash_then_dump [72; 2004; 73; 2004] = Done (0, 0, Some (replicate (Z.to_nat 16384) 2)).
Proof. split; vm_compute; reflexivity. Qed.
