(* ===== verification/Recovery.v ===== *)
(** * The recovery program's arguments and logs ([recovery.c])

    Where recovery's arguments come from, how they are kept so that a restart
    finds them again, and what is done before the main system is booted.  The
    messages the program logs are left out; strings are their bytes. *)
From S2P Require Import Prelude.
From S2P Require Import Cbuf.
From S2P Require Import Posix.
From S2P Require Import Stdio.
From S2P Require Import DirUtil.
From S2P Require Import Mtdutils.
From S2P Require Import Bootloader.

Abbreviation arg := (list Z).

Definition LAST_LOG_FILE : list Z := str "/cache/recovery/last_log".
Definition COMMAND_FILE : list Z := str "/cache/recovery/command".
Definition INTENT_FILE : list Z := str "/cache/recovery/intent".
Definition LOG_FILE : list Z := str "/cache/recovery/log".
Definition LAST_INSTALL_FILE : list Z := str "/cache/recovery/last_install".
Definition TEMPORARY_LOG_FILE : list Z := str "/tmp/recovery.log".
Definition TEMPORARY_INSTALL_FILE : list Z := str "/tmp/last_install".
Definition IGNORE_FILE : list Z := str "/tmp/.ignorebootmessage".

Definition MAX_ARG_LENGTH : Z := 4096.
Definition MAX_ARGS : nat := 100.
Definition NEWLINE : Z := 10.
Definition CR : Z := 13.

(** ** Arguments in the message *)

(** The loop that fills [argv] up to [MAX_ARGS] with [strtok(NULL, "\n")]: [n]
    is how often the loop may still run, [before] the part of the buffer that
    was scanned.  The arguments and the whole buffer afterwards. *)
Fixpoint strtok_args (n : nat) (before s : list Z) : option (list arg * list Z) :=
  match n with
  | O => Some ([], before ++ s)
  | S n =>
      '(arg, passed, rest) ← strtok_r [NEWLINE] s;
      match arg with
      | None => Some ([], before ++ passed ++ rest)
      | Some a => '(l, buf) ← strtok_args n (before ++ passed) rest; Some (a :: l, buf)
      end
  end.

(** The block that looks for arguments in [boot.recovery]; [None] for the
    arguments when the first line is not "recovery". *)
Definition boot_message_args (buf : list Z) : option (option (arg * list arg) * list Z) :=
  buf ← buf_set buf 1023 0;
  '(arg, passed, rest) ← strtok_r [NEWLINE] buf;
  match arg with
  | Some a =>
      if bool_decide (a = str "recovery") then
        '(l, buf) ← strtok_args (MAX_ARGS - 1) passed rest; Some (Some (a, l), buf)
      else Some (None, passed ++ rest)
  | None => Some (None, passed ++ rest)
  end.

(** The two [strlcat]s for each argument. *)
Fixpoint strlcat_args (buf : list Z) (args : list arg) : option (list Z) :=
  match args with
  | [] => Some buf
  | a :: args =>
      buf ← strlcat buf a 1024;
      buf ← strlcat buf [NEWLINE] 1024;
      strlcat_args buf args
  end.

(** "boot-recovery" and the arguments into the message. *)
Definition boot_message_for (boot : bootloader_message) (args : list arg) : option bootloader_message :=
  cmd ← strlcpy (command boot) (str "boot-recovery") 32;
  rec ← strlcpy (recovery boot) (str "recovery" ++ [NEWLINE]) 1024;
  rec ← strlcat_args rec args;
  Some (mkMessage cmd (status boot) rec).

Section Recovery.
  Context {D : MtdDriver} {MI : MtdInfo D} {R : Roots dev} `{DirOrder}.
  Abbreviation W := (W tree dev).
  Context (bldrmsg_offset : Z) (malloc_ok : Z -> bool) (proc_mtd : option string) (fuel : nat).

Abbreviation get_bootloader_message := (get_bootloader_message bldrmsg_offset malloc_ok proc_mtd fuel).
Abbreviation set_bootloader_message := (set_bootloader_message bldrmsg_offset malloc_ok proc_mtd fuel).

(** ** Files *)

(** [fopen_path(path, "r")]. *)
Definition fopen_path_r (s : list Z) : W (option rfile) :=
  let! m := ensure_path_mounted s in
  if negb (m =? 0) then wret None
  else let! f := fopen_r s in wret match f with inl f => Some f | inr _ => None end.

(** [fopen_path(path, append ? "a" : "w")]. *)
Definition fopen_path_w (append : bool) (s : list Z) : W (option wfile) :=
  let! m := ensure_path_mounted s in
  if negb (m =? 0) then wret None
  else
    let! _ := dirCreateHierarchy malloc_ok s 511 None true in
    let! f := if append then fopen_a s else fopen_w s in
    wret match f with inl f => Some f | inr _ => None end.

(** On a stream that was written; one that was read has nothing to flush. *)
Definition check_and_fclose (f : wfile) : W unit :=
  let! (_, f) := fflush f in
  let! _ := fclose f in
  wret tt.

(** ** [get_args] *)

(** The loop over the lines of the command file: [n] is how many arguments there
    is room for. *)
Fixpoint command_lines (lines n : nat) (fp : rfile) : W (list arg) :=
  match n with
  | O => wret []
  | S n =>
      match lines with
      | O => wlift Diverge
      | S lines =>
          let! (buf, fp) := fgets MAX_ARG_LENGTH fp in
          match buf with
          | None => wret []
          | Some buf =>
              let! (token, _, _) := wlift (access (strtok_r [CR; NEWLINE] (buf ++ [0]))) in
              match token with
              | Some t => let! l := command_lines lines n fp in wret (t :: l)
              | None => command_lines lines (S n) fp
              end
          end
      end
  end.

(** Arguments from the boot message: [argv] and [boot.recovery] after it. *)
Definition args_from_boot (argv : arg * list arg) (rec : list Z) : W ((arg * list arg) * list Z) :=
  let! st := sys_stat IGNORE_FILE in
  match st with
  | inl _ => wret (argv, rec)
  | inr _ =>
      let! (found, rec) := wlift (access (boot_message_args rec)) in
      wret (default argv found, rec)
  end.

(** Arguments from the command file. *)
Definition args_from_command_file (argv : arg * list arg) : W (arg * list arg) :=
  let! fp := fopen_path_r COMMAND_FILE in
  match fp with
  | None => wret argv
  | Some fp =>
      let! fs := get_fs in
      let! l := command_lines (S (length (unread fs fp))) (MAX_ARGS - 1) fp in
      wret (argv.1, l)
  end.

(** [argv] is the program's name and its arguments. *)
Definition get_args (argv : arg * list arg) : W (arg * list arg) :=
  let! boot := get_bootloader_message in
  let boot := default zero_message boot in
  let! (argv, rec) := match argv.2 with [] => args_from_boot argv (recovery boot) | _ => wret (argv, recovery boot) end in
  let! argv := match argv.2 with [] => args_from_command_file argv | _ => wret argv end in
  let! boot := wlift (access (boot_message_for (mkMessage (command boot) (status boot) rec) argv.2)) in
  let! _ := set_bootloader_message boot in
  wret argv.

Definition set_sdcard_update_bootloader_message : W unit :=
  let! boot := wlift (access (boot_message_for zero_message [])) in
  let! _ := set_bootloader_message boot in
  wret tt.

(** ** Logs *)

(** [while (fgets(buf, sizeof(buf), tmplog)) fputs(buf, log);] *)
Fixpoint copy_lines (lines : nat) (tmplog : rfile) (log : wfile) : W (rfile * wfile) :=
  match lines with
  | O => wlift Diverge
  | S lines =>
      let! (buf, tmplog) := fgets 4096 tmplog in
      match buf with
      | None => wret (tmplog, log)
      | Some buf => let! (_, log) := fwrite (cstr (buf ++ [0])) log in copy_lines lines tmplog log
      end
  end.

(** [tmplog_offset] is how much of the log was copied before, and the result. *)
Definition copy_log_file (source destination : list Z) (append : bool) (tmplog_offset : Z) : W Z :=
  let! log := fopen_path_w append destination in
  match log with
  | None => wret tmplog_offset
  | Some log =>
      let! tmplog := fopen_r source in
      let! (log, tmplog_offset) := match tmplog with
        | inr _ => wret (log, tmplog_offset)
        | inl f =>
            let f := if append then mkR (r_node f) tmplog_offset else f in
            let! fs := get_fs in
            let! (f, log) := copy_lines (S (length (unread fs f))) f log in
            wret (log, if append then r_pos f else tmplog_offset)
        end in
      let! _ := check_and_fclose log in
      wret tmplog_offset
  end.

Definition copy_logs (tmplog_offset : Z) : W Z :=
  let! tmplog_offset := copy_log_file TEMPORARY_LOG_FILE LOG_FILE true tmplog_offset in
  let! tmplog_offset := copy_log_file TEMPORARY_LOG_FILE LAST_LOG_FILE false tmplog_offset in
  let! tmplog_offset := copy_log_file TEMPORARY_INSTALL_FILE LAST_INSTALL_FILE false tmplog_offset in
  let! _ := sys_chmod LOG_FILE 384 in
  let! _ := sys_chown LOG_FILE 1000 1000 in
  let! _ := sys_chmod LAST_LOG_FILE 416 in
  let! _ := sys_chmod LAST_INSTALL_FILE 420 in
  wret tmplog_offset.

(** ** [finish_recovery] *)

Definition finish_recovery (send_intent : option arg) (tmplog_offset : Z) : W Z :=
  let! _ := match send_intent with
    | None => wret tt
    | Some intent =>
        let! fp := fopen_path_w false INTENT_FILE in
        match fp with
        | None => wret tt
        | Some fp => let! (_, fp) := fwrite intent fp in check_and_fclose fp
        end
    end in
  let! tmplog_offset := copy_logs tmplog_offset in
  let! _ := set_bootloader_message zero_message in
  let! m := ensure_path_mounted COMMAND_FILE in
  let! _ := if negb (m =? 0) then wret 0 else sys_unlink COMMAND_FILE in
  wret tmplog_offset.

End Recovery.
