(* ===== verification/RecoveryArgs.v ===== *)
(** * Arguments in the boot message

    What [get_args] reads out of a message and writes into it, and that the
    second is inverse to the first as long as the arguments fit. *)
From S2P Require Import Prelude.
From S2P Require Import Cbuf.
From S2P Require Import Posix.
From S2P Require Import Bootloader.
From S2P Require Import BootloaderFacts.
From S2P Require Import Recovery.

(** What can be a line of the message. *)
Definition good_arg (a : arg) : Prop := a <> [] /\ nul_free a /\ NEWLINE ∉ a.

#[export] Instance good_arg_dec a : Decision (good_arg a).
Proof. unfold good_arg, nul_free. apply _. Defined.

Definition args_text (args : list arg) : list Z := concat ((fun a => a ++ [NEWLINE]) <$> args).
Definition message_text (args : list arg) : list Z := (str "recovery" ++ [NEWLINE]) ++ args_text args.

(** The message [get_args] leaves for [args]: a boot into recovery, and the
    arguments one per line. *)
Record keeps_args (args : list arg) (m : bootloader_message) : Prop := {
  keeps_wf : wf_message m;
  keeps_command : exists g, command m = str "boot-recovery" ++ 0 :: g;
  keeps_recovery : exists g, recovery m = message_text args ++ 0 :: g;
  keeps_last : last (recovery m) = Some 0
}.

Lemma nul_free_args args : Forall good_arg args -> nul_free (args_text args).
Proof.
  induction 1 as [|a args (_ & Ha & _) Hs IH]; [constructor|]. unfold args_text. cbn.
  rewrite <- app_assoc. apply nul_free_app. split; [done|]. by constructor.
Qed.

Lemma nul_free_text args : Forall good_arg args -> nul_free (message_text args).
Proof. intros H. unfold message_text. apply nul_free_app. split; [by repeat constructor|]. by apply nul_free_args. Qed.

Lemma newline_is c : is_one_of [NEWLINE] c = false <-> c <> NEWLINE.
Proof. unfold is_one_of. cbn. rewrite orb_false_r. apply Z.eqb_neq. Qed.

Lemma tokens_line a t : good_arg a -> tokens [NEWLINE] (a ++ NEWLINE :: t) = a :: tokens [NEWLINE] t.
Proof.
  intros (Hn & _ & Ha). apply tokens_delim; [done| |done].
  apply Forall_forall. intros c Hc. apply newline_is. by intros ->.
Qed.

Lemma tokens_args args : Forall good_arg args -> tokens [NEWLINE] (args_text args) = args.
Proof.
  induction 1 as [|a args Ha Hs IH]; [done|]. unfold args_text in *. rewrite fmap_cons. cbn [concat].
  rewrite <- app_assoc. cbn [app]. by rewrite tokens_line, IH.
Qed.

(** Tokens are such lines. *)
Lemma fields_clean d s : Forall (Forall (fun c => is_one_of d c = false)) (fields d s).
Proof.
  induction s as [|c s IH]; cbn; [by repeat constructor|].
  destruct (is_one_of d c) eqn:E; [by constructor|].
  destruct (fields d s) as [|f fs]; [by repeat constructor|]. apply Forall_cons in IH as [H1 H2]. by repeat constructor.
Qed.

Lemma fields_sub (P : Z -> Prop) d s : Forall P s -> Forall (Forall P) (fields d s).
Proof.
  induction 1 as [|c s Hc Hs IH]; cbn; [by repeat constructor|].
  destruct (is_one_of d c) eqn:E; [by constructor|].
  destruct (fields d s) as [|f fs]; [by repeat constructor|]. apply Forall_cons in IH as [H1 H2]. by repeat constructor.
Qed.

Lemma good_tokens d s : is_one_of d NEWLINE = true -> nul_free s -> Forall good_arg (tokens d s).
Proof.
  intros Hd Hs. apply Forall_forall. intros a Ha. unfold tokens in Ha. apply list_elem_of_filter in Ha as [Hn Ha].
  pose proof (fields_clean d s) as Hc. pose proof (fields_sub _ d s Hs) as Hf.
  rewrite Forall_forall in Hc, Hf. split_and!; [done|by apply Hf|].
  intros Hin. specialize (Hc a Ha). rewrite Forall_forall in Hc. specialize (Hc _ Hin). congruence.
Qed.

(** ** Reading *)

Lemma strtok_args_spec n : forall before s g, nul_free s ->
  exists x, strtok_args n before (s ++ 0 :: g) = Some (take n (tokens [NEWLINE] s), before ++ x ++ 0 :: g) /\
    length x = length s.
Proof.
  induction n as [|n IH]; intros before s g Hs; cbn [strtok_args take]; [by exists s|].
  destruct (strtok_r_spec [NEWLINE] eq_refl s g Hs) as [(passed & -> & -> & Hl)|(tok & passed & rest & -> & -> & Hl & Hr & Hn)].
  - cbn. by exists passed.
  - cbn. destruct (IH (before ++ passed) rest g Hn) as (x & -> & Hx). cbn.
    exists (passed ++ x). rewrite <- !app_assoc. split; [done|]. rewrite length_app. lia.
Qed.

(** Every buffer that has a zero is a string and what is behind it. *)
Lemma cstr_split b : 0 ∈ b -> exists g, b = cstr b ++ 0 :: g /\ nul_free (cstr b).
Proof.
  induction b as [|c b IH]; intros H; [by apply not_elem_of_nil in H|]. cbn.
  destruct (Z.eqb_spec c 0) as [->|Hc]; [by exists b; split; [|constructor]|].
  apply elem_of_cons in H as [?|H]; [congruence|]. destruct (IH H) as (g & Hg & Hn).
  exists g. split; [cbn; by rewrite <- Hg|by constructor].
Qed.

(** The buffer with its last byte cleared. *)
Definition terminated (b : list Z) : list Z := <[1023%nat := 0]> b.

Lemma terminated_split b : length b = 1024%nat ->
  exists g, terminated b = cstr (terminated b) ++ 0 :: g /\ nul_free (cstr (terminated b)) /\
    last (0 :: g) = Some 0 /\ length (terminated b) = 1024%nat.
Proof.
  intros Hb. assert (terminated b !! 1023%nat = Some 0) as Hl by (apply list_lookup_insert_eq; lia).
  assert (length (terminated b) = 1024%nat) as Hlen by (unfold terminated; by rewrite length_insert).
  destruct (cstr_split (terminated b)) as (g & Hg & Hn); [by eapply list_elem_of_lookup_2|].
  exists g. split_and!; [done|done| |done].
  assert (last (terminated b) = Some 0) as H. { rewrite last_lookup, Hlen. done. }
  rewrite Hg, last_app in H. destruct (last (0 :: g)) eqn:E; [done|]. by apply last_None in E.
Qed.

(** What the block of [get_args] finds, for any message. *)
Lemma boot_message_args_spec rec : length rec = 1024%nat ->
  exists rec', length rec' = 1024%nat /\ last rec' = Some 0 /\
    (forall t, cstr (terminated rec) = t -> exists g x, terminated rec = t ++ 0 :: g /\ rec' = x ++ 0 :: g /\ length x = length t) /\
    boot_message_args rec = Some (match tokens [NEWLINE] (cstr (terminated rec)) with
      | a :: l => if bool_decide (a = str "recovery") then Some (a, take (MAX_ARGS - 1) l) else None
      | [] => None
      end, rec').
Proof.
  intros Hb. destruct (terminated_split rec Hb) as (g & Hg & Hn & Hlast & Hlen).
  assert (forall x, length x = length (cstr (terminated rec)) -> length (x ++ 0 :: g) = 1024%nat /\ last (x ++ 0 :: g) = Some 0) as Hx.
  { intros x Hx. split; [rewrite <- Hlen, Hg, !length_app; lia|]. rewrite last_app. by rewrite Hlast. }
  unfold boot_message_args. rewrite buf_set_some by lia. cbn [mbind option_bind]. fold (terminated rec).
  change (Z.to_nat 1023) with 1023%nat. fold (terminated rec).
  set (s := cstr (terminated rec)) in *.
  destruct (strtok_r_spec [NEWLINE] eq_refl s g Hn) as [(passed & E & Ht & Hl)|(tok & passed & rest & E & Ht & Hl & Hr & Hnr)].
  - exists (passed ++ 0 :: g). destruct (Hx passed Hl) as [H1 H2]. split_and!; [done|done| |].
    + intros t <-. by exists g, passed.
    + rewrite Hg, E, Ht. done.
  - destruct (strtok_args_spec (MAX_ARGS - 1) passed rest g Hnr) as (x & Ex & Hlx).
    assert (forall y, length y = length rest -> length (passed ++ y) = length s) as Hp by (intros y Hy; rewrite length_app; lia).
    destruct (bool_decide (tok = str "recovery")) eqn:Eb.
    + exists ((passed ++ x) ++ 0 :: g). destruct (Hx (passed ++ x)) as [H1 H2]; [by apply Hp|].
      split_and!; [done|done| |].
      * intros t <-. exists g, (passed ++ x). split_and!; [done|done|by apply Hp].
      * rewrite Hg, E, Ht. cbn [mbind option_bind]. rewrite Eb, Ex. cbn [mbind option_bind]. by rewrite <- app_assoc.
    + exists ((passed ++ rest) ++ 0 :: g). destruct (Hx (passed ++ rest)) as [H1 H2]; [by apply Hp|].
      split_and!; [done|done| |].
      * intros t <-. exists g, (passed ++ rest). split_and!; [done|done|by apply Hp].
      * rewrite Hg, E, Ht. cbn [mbind option_bind]. rewrite Eb. by rewrite <- app_assoc.
Qed.

(** ** Writing *)

Lemma strlcat_args_render b args : zlen b = 1024 -> Forall good_arg args -> forall t, nul_free t ->
  strlcat_args (render 1024 b t) args = Some (render 1024 b (t ++ args_text args)).
Proof.
  intros Hb. induction 1 as [|a args Ha Hs IH]; intros t Ht; cbn [strlcat_args].
  { unfold args_text. cbn. by rewrite app_nil_r. }
  pose proof Ha as (_ & Hna & _).
  rewrite strlcat_render by done. cbn [mbind option_bind]. rewrite strlcat_render; [|done|done|by apply nul_free_app].
  cbn [mbind option_bind]. rewrite IH.
  - unfold args_text. rewrite fmap_cons. cbn [concat]. by rewrite <- !app_assoc.
  - apply nul_free_app. split; [by apply nul_free_app|]. by repeat constructor.
Qed.

(** The message for [args], whatever was in the old one. *)
Definition message_for (boot : bootloader_message) (args : list arg) : bootloader_message :=
  mkMessage (render 32 (command boot) (str "boot-recovery")) (status boot)
    (render 1024 (recovery boot) (message_text args)).

Lemma boot_message_for_spec boot args : wf_message boot -> Forall good_arg args ->
  boot_message_for boot args = Some (message_for boot args).
Proof.
  intros (H1 & H2 & H3) Ha. unfold boot_message_for.
  rewrite strlcpy_render by lia. cbn [mbind option_bind]. rewrite strlcpy_render by lia. cbn [mbind option_bind].
  rewrite strlcat_args_render; [done|lia|done|by repeat constructor].
Qed.

Lemma wf_message_for boot args : wf_message boot -> wf_message (message_for boot args).
Proof.
  intros (H1 & H2 & H3). unfold wf_message, message_for. cbn [command status recovery].
  by rewrite !length_render by lia.
Qed.

(** It keeps them when they fit. *)
Lemma message_for_keeps boot args :
  wf_message boot -> last (recovery boot) = Some 0 -> (length (message_text args) <= 1023)%nat ->
  keeps_args args (message_for boot args).
Proof.
  intros Hwf Hl Hfit. pose proof (wf_message_for boot args Hwf) as Hwf'. destruct Hwf as (H1 & H2 & H3).
  assert (recovery (message_for boot args) = message_text args ++ 0 :: drop (S (length (message_text args))) (recovery boot)) as E.
  { unfold message_for, render. cbn [recovery]. change (Z.to_nat (1024 - 1)) with 1023%nat. by rewrite take_ge by lia. }
  split; [done|unfold message_for, render; cbn [command]; by eexists|by eexists|].
  rewrite E, last_app. destruct (decide (length (message_text args) = 1023%nat)) as [Heq|Hne].
  - rewrite drop_ge by lia. done.
  - assert (drop (S (length (message_text args))) (recovery boot) <> []) as Hd.
    { intros Hd. apply (f_equal length) in Hd. rewrite length_drop in Hd. rewrite H3 in Hd. cbn [length] in Hd. lia. }
    assert (last (drop (S (length (message_text args))) (recovery boot)) = Some 0) as Hld.
    { rewrite last_lookup, lookup_drop, length_drop. rewrite last_lookup in Hl. rewrite <- Hl. f_equal. lia. }
    destruct (drop _ _) as [|x l] eqn:Ed; [done|]. cbn [last]. cbn in Hld. by rewrite Hld.
Qed.

(** A message that keeps [args] gives them back, and writing them again leaves
    it as it is. *)
Lemma keeps_args_again args m :
  keeps_args args m -> Forall good_arg args -> (length args < MAX_ARGS)%nat ->
  exists rec', boot_message_args (recovery m) = Some (Some (str "recovery", args), rec') /\
    boot_message_for (mkMessage (command m) (status m) rec') args = Some m.
Proof.
  intros [(H1 & H2 & H3) (gc & Hc) (g & Hr) Hl] Ha Hn.
  assert (terminated (recovery m) = recovery m) as Ht.
  { unfold terminated. apply list_insert_id. rewrite last_lookup, H3 in Hl. done. }
  destruct (boot_message_args_spec (recovery m) H3) as (rec' & Hlen & Hlast & Hbuf & ->). rewrite Ht in *.
  rewrite Hr, cstr_app in * by (by apply nul_free_text).
  exists rec'. split.
  - unfold message_text. change (str "recovery" ++ [NEWLINE]) with (str "recovery" ++ NEWLINE :: []).
    rewrite <- app_assoc. cbn [app]. rewrite tokens_line by by_decide.
    rewrite bool_decide_true by done. rewrite tokens_args by done. by rewrite take_ge by lia.
  - rewrite boot_message_for_spec by done. unfold message_for. cbn [command status recovery].
    destruct (Hbuf _ eq_refl) as (g' & x & Hg & -> & Hx). apply app_inv_head in Hg. injection Hg as <-.
    destruct m as [c s r]. cbn [command status recovery] in *. f_equal. f_equal.
    + rewrite Hc. unfold render. rewrite take_ge by (cbn; lia).
      reflexivity.
    + subst r. unfold render. rewrite length_app in H3. cbn [length] in H3. change (Z.to_nat (1024 - 1)) with 1023%nat. rewrite take_ge by lia.
      rewrite (cons_middle 0 x), app_assoc, drop_app_length' by (rewrite length_app, Hx; symmetry; apply Nat.add_1_r). done.
Qed.
