(* ===== verification/CacheFiles.v ===== *)
(** * Programs that keep to /cache/recovery

    The files recovery writes for the main system are in /cache/recovery.  As
    long as nothing there is a symbolic link, what recovery does with them
    touches no other node, fails or not, and whenever it is interrupted. *)
From S2P Require Import Prelude.
From S2P Require Import Cbuf.
From S2P Require Import Posix.
From S2P Require Import PosixFacts.
From S2P Require Import Stdio.
From S2P Require Import DirUtil.

Definition HOME : path := [str "cache"; str "recovery"].

(** The directories on the way and the names in the last one. *)
Definition own (q : path) : Prop := exists c k, q = take (S k) (HOME ++ [c]).

(** Neither a link nor a device. *)
Definition plain (i : inode) : bool := match i_kind i with KFile _ | KDir => true | _ => false end.

Definition plain_home (fs : tree) : Prop := forall q i, own q -> fs !! q = Some i -> plain i = true.

(** What is not in /cache. *)
Definition outside (fs : tree) : tree := filter (fun x : path * inode => head x.1 <> Some (str "cache")) fs.

Definition tidied (fs fs' : tree) : Prop := outside fs' = outside fs /\ plain_home fs'.

Lemma tidied_refl fs : plain_home fs -> tidied fs fs.
Proof. by split. Qed.

Lemma tidied_trans fs fs' fs'' : tidied fs fs' -> tidied fs' fs'' -> tidied fs fs''.
Proof. intros [H1 H2] [H3 H4]. split; [congruence|done]. Qed.

Lemma own_head q : own q -> head q = Some (str "cache").
Proof. by intros (c & k & ->). Qed.

Lemma outside_sub fs : outside fs ⊆ fs.
Proof. apply map_filter_subseteq. Qed.

Lemma tidied_kept fs fs' q : tidied fs fs' -> head q <> Some (str "cache") -> fs' !! q = fs !! q.
Proof.
  intros [Ho _] Hq. assert (outside fs' !! q = outside fs !! q) as E by (by rewrite Ho).
  unfold outside in E. destruct (fs !! q) as [i|] eqn:E1, (fs' !! q) as [j|] eqn:E2; try done.
  - rewrite (proj2 (map_lookup_filter_Some _ fs q i)) in E by done.
    by rewrite (proj2 (map_lookup_filter_Some _ fs' q j)) in E by done.
  - rewrite (proj2 (map_lookup_filter_Some _ fs q i)) in E by done.
    rewrite (proj2 (map_lookup_filter_None _ fs' q)) in E by (by left). done.
  - rewrite (proj2 (map_lookup_filter_Some _ fs' q j)) in E by done.
    rewrite (proj2 (map_lookup_filter_None _ fs q)) in E by (by left). done.
Qed.

Lemma tidied_insert fs q i : own q -> plain i = true -> plain_home fs -> tidied fs (<[q := i]> fs).
Proof.
  intros Hq Hi Hp. split.
  - apply map_filter_insert_not. intros j. cbn. rewrite own_head by done. auto.
  - intros r j Hr. destruct (decide (q = r)) as [<-|Hne].
    + rewrite lookup_insert_eq. by intros [= <-].
    + rewrite lookup_insert_ne by done. by apply Hp.
Qed.

Lemma tidied_delete fs q : own q -> plain_home fs -> tidied fs (delete q fs).
Proof.
  intros Hq Hp. split.
  - apply map_filter_delete_not. intros j Hj. cbn. rewrite own_head by done. auto.
  - intros r j Hr. rewrite lookup_delete_Some. intros [_ H]. by apply (Hp r).
Qed.

(** A path of the program's own. *)
Definition own_path (s : list Z) : Prop := Forall good (components s) /\ own (components s).

Lemma own_take q k : own q -> q <> [] -> own (take (S k) q).
Proof. intros (c & k' & ->) _. rewrite take_take. exists c, (Nat.min k k'). done. Qed.

Lemma resolve_own follow fs s : own_path s -> plain_home fs ->
  resolve follow fs s = Found (components s) \/
  (exists d c, resolve follow fs s = Absent d c /\ own (d ++ [c]) /\ d ++ [c] = components s) \/
  (exists e, resolve follow fs s = Err e).
Proof.
  intros [Hg Ho] Hp. destruct (resolve_no_links follow fs s _ eq_refl Hg) as [E|[(d & c & E & Ed)|E]]; [|by left| |by right; right].
  - intros k i Hi. assert (plain i = true) as Hpl.
    { eapply Hp; [|done]. apply own_take; [done|]. intros En. rewrite En in Ho. destruct Ho as (? & ? & ?). done. }
    unfold plain in Hpl. unfold is_link. by destruct (i_kind i).
  - right; left. exists d, c. by rewrite Ed.
Qed.

Section Tidy.
  Context {Dev : Type}.
  Abbreviation W := (W tree Dev).
  Abbreviation world := (world tree Dev).
  (** What else is known of the tree outside of /cache. *)
  Context {T : tree -> Prop}.

(** [m] returns with a result in [Q], and keeps to /cache/recovery. *)
Definition tidy {A} (m : W A) (Q : A -> Prop) : Prop :=
  forall w, plain_home (w_fs w) -> T (outside (w_fs w)) ->
    wp (tidied (w_fs w)) m w (fun a w' => w_answers w' = w_answers w /\ tidied (w_fs w) (w_fs w') /\ Q a).

Lemma tidy_ret {A} (a : A) (Q : A -> Prop) : Q a -> tidy (wret a) Q.
Proof. intros H w Hw _. apply wp_ret. split_and!; [done|by apply tidied_refl|done]. Qed.

Lemma tidy_lift {A} (o : outcome A) a (Q : A -> Prop) : o = Done a -> Q a -> tidy (wlift o) Q.
Proof. intros -> H w Hw _. eapply wp_lift; [done|]. split_and!; [done|by apply tidied_refl|done]. Qed.

Lemma tidy_bind {A B} (m : W A) (k : A -> W B) Q R :
  tidy m Q -> (forall a, Q a -> tidy (k a) R) -> tidy (wbind m k) R.
Proof.
  intros Hm Hk w Hw HT. apply wp_bind. eapply wp_mono; [by apply Hm|done|].
  intros a w' (Ha & Ht & HQ). eapply wp_mono; [apply (Hk a HQ); [apply Ht|by rewrite (proj1 Ht)]|eauto using tidied_trans|].
  cbn beta. intros b w'' (Ha' & Ht' & HR). split_and!; [congruence|by eapply tidied_trans|done].
Qed.

Lemma tidy_mono {A} (m : W A) (Q R : A -> Prop) : tidy m Q -> (forall a, Q a -> R a) -> tidy m R.
Proof. intros Hm H w Hw HT. eapply wp_mono; [by apply Hm|done|]. intros a w' (? & ? & ?). eauto. Qed.

Lemma tidy_ask : tidy ask (fun _ => True).
Proof. intros w Hw _. apply wp_ask. split_and!; [done|by apply tidied_refl|done]. Qed.

Lemma tidy_get_fs : tidy get_fs plain_home.
Proof. intros w Hw _. apply wp_get_fs. split_and!; [done|by apply tidied_refl|done]. Qed.

(** A call that reads the tree and then runs. *)
Lemma tidy_fs {A} (f : tree -> W A) Q :
  (forall w, plain_home (w_fs w) ->
     wp (tidied (w_fs w)) (f (w_fs w)) w (fun a w' => w_answers w' = w_answers w /\ tidied (w_fs w) (w_fs w') /\ Q a)) ->
  tidy (let! fs := get_fs in f fs) Q.
Proof. intros H w Hw _. apply wp_bind, wp_get_fs. by apply H. Qed.

Lemma tidy_syscall {A} (fault : A) (f : tree -> W A) (Q : A -> Prop) :
  Q fault ->
  (forall w, plain_home (w_fs w) ->
     wp (tidied (w_fs w)) (f (w_fs w)) w (fun a w' => w_answers w' = w_answers w /\ tidied (w_fs w) (w_fs w') /\ Q a)) ->
  tidy (syscall fault f) Q.
Proof.
  intros HQ Hf. unfold syscall. apply (tidy_bind _ _ (fun _ => True)); [apply tidy_ask|]. intros a _.
  apply tidy_fs. intros w Hw. destruct (a <? 0); [|by apply Hf].
  apply wp_ret. split_and!; [done|by apply tidied_refl|done].
Qed.

(** The node is changed to [i] and [a] returned. *)
Lemma wp_tidied_set {A} (fs' : tree) (a : A) (w : world) (Q : A -> Prop) :
  tidied (w_fs w) fs' -> Q a ->
  wp (tidied (w_fs w)) (let! _ := set_fs fs' in wret a) w
    (fun a w' => w_answers w' = w_answers w /\ tidied (w_fs w) (w_fs w') /\ Q a).
Proof. intros Ht HQ. apply wp_bind, wp_set_fs; [done|]. apply wp_ret. by split_and!. Qed.

Lemma wp_tidied_ret {A} (a : A) (w : world) (Q : A -> Prop) :
  plain_home (w_fs w) -> Q a ->
  wp (tidied (w_fs w)) (wret a) w (fun a w' => w_answers w' = w_answers w /\ tidied (w_fs w) (w_fs w') /\ Q a).
Proof. intros Ht HQ. apply wp_ret. split_and!; [done|by apply tidied_refl|done]. Qed.

(** ** Calls *)

Lemma tidy_stat follow s : tidy (sys_stat_at follow s) (fun _ => True).
Proof. apply tidy_syscall; [done|]. intros w Hw. by apply wp_tidied_ret. Qed.

Lemma tidy_make s i : own_path s -> plain i = true -> tidy (sys_make s i) (fun _ => True).
Proof.
  intros Hs Hi. apply tidy_syscall; [done|]. intros w Hw.
  destruct (resolve_own false (w_fs w) s Hs Hw) as [->|[(d & c & -> & Hown & _)|(e & ->)]].
  - by apply wp_tidied_ret.
  - apply wp_tidied_set; [by apply tidied_insert|done].
  - by apply wp_tidied_ret.
Qed.

Lemma tidy_change s g : own_path s -> (forall i, i_kind (g i) = i_kind i) -> tidy (sys_change s g) (fun _ => True).
Proof.
  intros Hs Hg. apply tidy_syscall; [done|]. intros w Hw.
  destruct (resolve_own true (w_fs w) s Hs Hw) as [->|[(d & c & -> & _)|(e & ->)]]; [|by apply wp_tidied_ret..].
  destruct (w_fs w !! components s) as [i|] eqn:Ei; [|by apply wp_tidied_ret].
  apply wp_tidied_set; [|done]. apply tidied_insert; [apply Hs| |done].
  specialize (Hw _ _ (proj2 Hs) Ei). unfold plain in *. by rewrite Hg.
Qed.

Lemma tidy_unlink s : own_path s -> tidy (sys_unlink s) (fun _ => True).
Proof.
  intros Hs. apply tidy_syscall; [done|]. intros w Hw.
  destruct (resolve_own false (w_fs w) s Hs Hw) as [->|[(d & c & -> & _)|(e & ->)]]; [|by apply wp_tidied_ret..].
  destruct (w_fs w !! components s) as [i|] eqn:Ei; [|by apply wp_tidied_ret].
  destruct (is_dir i); [by apply wp_tidied_ret|]. apply wp_tidied_set; [|done]. by apply tidied_delete; [apply Hs|].
Qed.

(** A stream on one of the files. *)
Definition own_file (f : wfile) : Prop := own (w_node f).
Definition own_open {E} (f : wfile + E) : Prop := match f with inl f => own_file f | inr _ => True end.

Lemma tidy_fopen_w s : own_path s -> tidy (fopen_w s) own_open.
Proof.
  intros Hs. apply (tidy_bind _ _ (fun r => match r with inl p => own p | inr _ => True end)).
  2: { intros [p|e] Hp; by apply tidy_ret. }
  apply tidy_syscall; [done|]. intros w Hw.
  destruct (resolve_own true (w_fs w) s Hs Hw) as [->|[(d & c & -> & Hown & _)|(e & ->)]]; [| |by apply wp_tidied_ret].
  - destruct (w_fs w !! components s) as [i|] eqn:Ei; [|by apply wp_tidied_ret].
    pose proof (Hw _ _ (proj2 Hs) Ei) as Hpl. unfold plain in Hpl. destruct (i_kind i); try done.
    + apply wp_tidied_set; [|apply Hs]. by apply tidied_insert; [apply Hs| |].
    + by apply wp_tidied_ret.
  - apply wp_tidied_set; [|done]. by apply tidied_insert.
Qed.

Lemma tidy_fopen_a s : own_path s -> tidy (fopen_a s) own_open.
Proof.
  intros Hs. apply tidy_syscall; [done|]. intros w Hw.
  destruct (resolve_own true (w_fs w) s Hs Hw) as [->|[(d & c & -> & Hown & _)|(e & ->)]]; [| |by apply wp_tidied_ret].
  - destruct (w_fs w !! components s) as [i|] eqn:Ei; [|by apply wp_tidied_ret].
    destruct (is_dir i); apply wp_tidied_ret; try done. apply Hs.
  - apply wp_tidied_set; [|done]. by apply tidied_insert.
Qed.

Lemma tidy_fopen_r s : tidy (fopen_r s) (fun _ => True).
Proof. apply tidy_syscall; [done|]. intros w Hw. by apply wp_tidied_ret. Qed.

Lemma tidy_take_input want f : tidy (take_input want f) (fun _ => True).
Proof.
  apply (tidy_bind _ _ (fun _ => True)); [apply tidy_ask|]. intros a _.
  apply (tidy_bind _ _ plain_home); [apply tidy_get_fs|]. intros fs _. by apply tidy_ret.
Qed.

Lemma tidy_fgets n f : tidy (fgets n f) (fun _ => True).
Proof. apply (tidy_bind _ _ (fun _ => True)); [apply tidy_take_input|]. intros [line g] _. by apply tidy_ret. Qed.

Lemma tidy_chunk f data : own_file f -> data <> [] -> tidy (write_chunk f data) (fun n => n <= 0 \/ 0 < n <= zlen data).
Proof.
  intros Hf Hd. apply (tidy_bind _ _ (fun _ => True)); [apply tidy_ask|]. intros a _.
  destruct (Z.leb_spec a 0); [apply tidy_ret; by left|]. cbv zeta.
  assert (0 < zlen (take (Z.to_nat a) data) <= zlen data) as Hl.
  { rewrite length_take. destruct data; [done|]. cbn. lia. }
  apply tidy_fs. intros w Hw. destruct (w_fs w !! w_node f) as [i|] eqn:Ei; [|apply wp_tidied_ret; [done|by right]].
  pose proof (Hw _ _ Hf Ei) as Hpl. unfold plain in Hpl. unfold store_at. destruct (i_kind i); try done.
  - cbv zeta. apply wp_tidied_set; [by apply tidied_insert|by right].
  - apply wp_tidied_ret; [done|by left].
Qed.

Lemma tidy_push fuel : forall f data, own_file f -> (length data <= fuel)%nat ->
  tidy (push fuel f data) (fun r => own_file r.2).
Proof.
  induction fuel as [|fuel IH]; intros f data Hf Hl; (destruct data as [|x data]; [by apply tidy_ret|]); [cbn in Hl; lia|].
  cbn [push]. eapply tidy_bind; [by apply tidy_chunk|]. cbn beta. intros n Hn.
  destruct (Z.leb_spec n 0); [by apply tidy_ret|]. apply IH; [done|].
  rewrite length_drop. cbn [length] in *. lia.
Qed.

Lemma tidy_fwrite data f : own_file f -> tidy (fwrite data f) (fun r => own_file r.2).
Proof.
  intros Hf. apply (tidy_bind _ _ (fun _ => True)); [apply tidy_ask|]. intros a _.
  destruct (a <? 0); [by apply tidy_ret|]. cbv zeta.
  eapply tidy_bind; [by apply tidy_push|]. intros [ok g] Hg. destruct ok; by apply tidy_ret.
Qed.

Lemma tidy_fflush f : own_file f -> tidy (fflush f) (fun r => own_file r.2).
Proof. intros Hf. by apply tidy_push. Qed.

Lemma tidy_fclose f : own_file f -> tidy (fclose f) (fun _ => True).
Proof.
  intros Hf. eapply tidy_bind; [by apply tidy_fflush|]. intros [ok g] Hg.
  apply (tidy_bind _ _ (fun _ => True)); [apply tidy_ask|]. intros a _. by apply tidy_ret.
Qed.

End Tidy.
Arguments tidy {Dev} T {A} m Q.

Lemma tidy_weaken {Dev} (S T : tree -> Prop) {A} (m : W tree Dev A) (Q : A -> Prop) :
  tidy S m Q -> (forall fs, T fs -> S fs) -> tidy T m Q.
Proof. intros Hm H w Hw HT. apply Hm; auto. Qed.
