(* ===== verification/RecoveryFacts.v ===== *)
(** * Restarting recovery

    What [recovery.c] promises in its opening comment: once [get_args] has
    written the message, every boot runs recovery with the same arguments, until
    [finish_recovery] has cleared it. *)
From S2P Require Import Prelude.
From S2P Require Import Cbuf.
From S2P Require Import Posix.
From S2P Require Import PosixFacts.
From S2P Require Import Stdio.
From S2P Require Import DirUtil.
From S2P Require Import Mtdutils.
From S2P Require Import Bootloader.
From S2P Require Import BootloaderFacts.
From S2P Require Import Recovery.
From S2P Require Import RecoveryArgs.
From S2P Require Import CacheFiles.

(** What [roots.c] promises of mounting the cache: it returns, whatever it
    mounts is in /cache, and no link or device turns up where recovery's files
    are. *)
Class RootsSpec (Dev : Type) (R : Roots Dev) := {
  ensure_cache_mounted s : own_path s -> tidy (fun _ => True) (ensure_path_mounted s) (fun _ => True)
}.

(** The temporary logs are files of their own. *)
Definition plain_tmp (fs : tree) : Prop :=
  forall c k i, fs !! take (S k) [str "tmp"; c] = Some i -> is_link i = false.

Lemma own_path_check s c :
  bool_decide (components s = HOME ++ [c]) = true -> bool_decide (Forall good (HOME ++ [c])) = true -> own_path s.
Proof.
  intros H1%bool_decide_eq_true H2%bool_decide_eq_true. unfold own_path. rewrite H1. split; [done|]. by exists c, 2%nat.
Qed.

Ltac own_path_tac c := apply (own_path_check _ (str c)); vm_compute; reflexivity.

Lemma own_COMMAND_FILE : own_path COMMAND_FILE.
Proof. own_path_tac "command"%string. Qed.
Lemma own_INTENT_FILE : own_path INTENT_FILE.
Proof. own_path_tac "intent"%string. Qed.
Lemma own_LOG_FILE : own_path LOG_FILE.
Proof. own_path_tac "log"%string. Qed.
Lemma own_LAST_LOG_FILE : own_path LAST_LOG_FILE.
Proof. own_path_tac "last_log"%string. Qed.
Lemma own_LAST_INSTALL_FILE : own_path LAST_INSTALL_FILE.
Proof. own_path_tac "last_install"%string. Qed.

#[export] Hint Resolve own_COMMAND_FILE own_INTENT_FILE own_LOG_FILE own_LAST_LOG_FILE own_LAST_INSTALL_FILE : recovery.

(** A file in the directory itself. *)
Definition home_file (s : list Z) : Prop :=
  own_path s /\ strip_file_name (length s - 1) s = Some (str "/cache/recovery/").

Section Tidy.
  Context {D : MtdDriver} {MI : MtdInfo D} {R : Roots dev} {RS : RootsSpec dev R}.
  Abbreviation W := (W tree dev).
  Context (malloc_ok : Z -> bool).

Lemma own_dir s k : components s = take (S k) HOME -> own_path s.
Proof.
  intros H1. unfold own_path. rewrite H1. split.
  - apply Forall_take. apply (bool_decide_eq_true_1 _). vm_compute. reflexivity.
  - exists [], (Nat.min k 1). by destruct k as [|[|[|k]]].
Qed.

Lemma tidy_dir_status s : tidy plain_tmp (getPathDirStatus (Dev := dev) s) (fun _ => True).
Proof. apply (tidy_bind _ _ (fun _ => True)); [apply tidy_stat|]. intros st _. by apply tidy_ret. Qed.

(** One level: the directory is there or is made. *)
Lemma tidy_level s k m (rest : W Z) : components s = take (S k) HOME -> tidy plain_tmp rest (fun _ => True) ->
  tidy plain_tmp (let! ds := getPathDirStatus s in
        match ds with
        | DILLEGAL => wret (-1)
        | DMISSING =>
            let! err := sys_mkdir s m in
            if negb (err =? 0) then wret (-1)
            else let! failed := wret false in if failed : bool then wret (-1) else rest
        | DDIR => rest
        end) (fun _ => True).
Proof.
  intros Hs Hr. eapply tidy_bind; [apply tidy_dir_status|]. intros ds _. destruct ds; [|done|by apply tidy_ret].
  eapply tidy_bind; [apply tidy_make; [by eapply own_dir|done]|]. intros err _.
  destruct (negb _); [by apply tidy_ret|]. eapply tidy_bind; [by apply (tidy_ret _ (fun b => b = false))|]. by intros ? ->.
Qed.

Lemma tidy_levels n seen todo m sl todo1 c x rest k :
  skip_while (fun c => c =? SLASH) todo = (sl, todo1) -> todo1 <> [] ->
  skip_while (fun c => negb (c =? SLASH)) todo1 = (c, x :: rest) ->
  components (seen ++ sl ++ c) = take (S k) HOME ->
  tidy plain_tmp (make_levels (Dev := dev) n (seen ++ sl ++ c) (x :: rest) m None) (fun _ => True) ->
  tidy plain_tmp (make_levels (Dev := dev) (S n) seen todo m None) (fun _ => True).
Proof.
  intros H1 Hn H2 Hc Hr. cbn [make_levels]. rewrite H1. destruct todo1 as [|y todo1]; [done|]. rewrite H2. cbn [head access].
  apply (tidy_bind _ _ (fun _ => True)); [by eapply tidy_lift|]. intros _ _. by apply (tidy_level _ k).
Qed.

Lemma tidy_dirCreateHierarchy s m : home_file s -> tidy plain_tmp (dirCreateHierarchy (Dev := dev) malloc_ok s m None true) (fun _ => True).
Proof.
  intros [Hs Hst]. unfold dirCreateHierarchy. destruct s as [|x s]; [by apply tidy_ret|]. rewrite Hst.
  destruct (negb _); [by apply tidy_ret|].
  eapply tidy_bind; [apply tidy_dir_status|]. intros ds _. destruct ds; [|by apply tidy_ret..].
  change (length (str "/cache/recovery/")) with 16%nat.
  eapply (tidy_levels _ _ _ _ _ _ _ _ _ 0); [reflexivity|done|reflexivity|reflexivity|].
  eapply (tidy_levels _ _ _ _ _ _ _ _ _ 1); [reflexivity|done|reflexivity|reflexivity|].
  by apply tidy_ret.
Qed.

(** Opening, copying and closing. *)
Lemma tidy_fopen_path_w append s : home_file s ->
  tidy plain_tmp (fopen_path_w malloc_ok append s) (fun f => match f with Some f => own_file f | None => True end).
Proof.
  intros Hs. eapply tidy_bind; [eapply tidy_weaken; [apply ensure_cache_mounted, Hs|done]|]. intros m _. destruct (negb _); [by apply tidy_ret|].
  eapply tidy_bind; [by apply tidy_dirCreateHierarchy|]. intros _ _.
  apply (tidy_bind _ _ own_open); [destruct append; [apply tidy_fopen_a|apply tidy_fopen_w]; apply Hs|].
  intros [f|e] Hf; by apply tidy_ret.
Qed.

Lemma tidy_check_and_fclose (f : wfile) : own_file f -> tidy plain_tmp (check_and_fclose (D := D) f) (fun _ => True).
Proof.
  intros Hf. eapply tidy_bind; [by apply tidy_fflush|]. intros [ok g] Hg.
  eapply tidy_bind; [by apply tidy_fclose|]. intros _ _. by apply tidy_ret.
Qed.

(** A line that was read is gone from the rest. *)
Lemma line_of_length n s : (length (line_of n s) <= length s)%nat.
Proof. revert s. induction n as [|n IH]; intros [|c s]; cbn; [lia..|]. destruct (c =? 10); cbn; [lia|]. specialize (IH s). lia. Qed.

Lemma wp_fgets (I : tree -> Prop) n (f : rfile) (w : world tree dev) : 0 <= r_pos f ->
  wp I (fgets n f) w (fun r w' => w_fs w' = w_fs w /\ w_answers w' = w_answers w /\ 0 <= r_pos r.2 /\ r_node r.2 = r_node f /\
    (r.1 = None \/ (length (unread (w_fs w) r.2) < length (unread (w_fs w) f))%nat)).
Proof.
  intros Hf. unfold fgets, take_input. repeat wp_step. cbn [w_fs asked fst snd r_pos].
  set (all := line_of _ _). set (got := if _ <? 0 then _ else _).
  split_and!; [done|done|lia|done|]. destruct got as [|x l] eqn:E; [by left|]. right.
  assert (length (x :: l) <= length all)%nat as H1.
  { rewrite <- E. unfold got. destruct (_ <? 0); [rewrite length_take|]; lia. }
  pose proof (line_of_length (Z.to_nat (n - 1)) (unread (w_fs w) f)) as H2. fold all in H2.
  unfold unread in *. cbn [r_node r_pos]. destruct (w_fs w !! r_node f) as [i|]; [|cbn in *; lia].
  rewrite !length_drop in *. cbn [length] in *. lia.
Qed.

(** A loop over the lines of a file that is not written. *)
Lemma tidy_copy_lines lines : forall f log, 0 <= r_pos f -> own_file log -> head (r_node f) <> Some (str "cache") ->
  forall w, plain_home (w_fs w) -> (length (unread (w_fs w) f) < lines)%nat ->
  wp (tidied (w_fs w)) (copy_lines (D := D) lines f log) w (fun r w' =>
    w_answers w' = w_answers w /\ tidied (w_fs w) (w_fs w') /\ own_file r.2 /\ 0 <= r_pos r.1).
Proof.
  induction lines as [|lines IH]; intros f log Hf Hlog Hno w Hw Hl; [lia|]. cbn [copy_lines].
  apply wp_bind. eapply wp_mono; [apply (wp_fgets _ 4096 f w Hf)|done|].
  intros [buf f'] w1 (Hfs & Ha & Hp & Hn & Hd). cbn [fst snd] in *. destruct buf as [buf|].
  2: { apply wp_ret. rewrite Hfs. split_and!; [done|by apply tidied_refl|done|done]. }
  destruct Hd as [?|Hd]; [done|]. apply wp_bind. rewrite <- Hfs.
  eapply wp_mono; [apply (tidy_fwrite (T := fun _ => True) _ log Hlog); [by rewrite Hfs|done]|done|].
  intros [ok log'] w2 (Ha2 & Ht & Hlog'). cbn [fst snd] in *.
  assert (unread (w_fs w2) f' = unread (w_fs w1) f') as Eu.
  { unfold unread. rewrite (tidied_kept _ _ _ Ht); [done|]. by rewrite Hn. }
  eapply wp_mono; [apply IH; [done|done|by rewrite Hn|apply Ht|rewrite Eu, Hfs; lia]|eauto using tidied_trans|].
  cbn beta. intros r w3 (Ha3 & Ht3 & Hr & Hp3). split_and!; [congruence|by eapply tidied_trans|done|done].
Qed.

(** Where the temporary logs are. *)
Lemma tidy_fopen_tmp s c : components s = [str "tmp"; c] -> good c ->
  tidy plain_tmp (fopen_r (Dev := dev) s)
    (fun f => match f with inl f => r_pos f = 0 /\ head (r_node f) <> Some (str "cache") | inr _ => True end).
Proof.
  intros Hs Hc w Hw Hp. apply wp_syscall.
  { intros _. split_and!; [done|by apply tidied_refl|done]. }
  apply (wp_tidied_ret _ (asked w)); [done|]. cbn [w_fs asked].
  destruct (resolve_no_links true (w_fs w) s _ Hs) as [->|[(d & c' & -> & _)|(e & ->)]]; [| | |done|done].
  - constructor; [by_decide|]. by constructor.
  - intros k i Hi. eapply Hp. apply map_lookup_filter_Some. split; [exact Hi|]. done.
  - by destruct (w_fs w !! _).
Qed.

Lemma tidy_copy_log_file source c destination append offset :
  components source = [str "tmp"; c] -> good c -> home_file destination -> 0 <= offset ->
  tidy plain_tmp (copy_log_file malloc_ok source destination append offset) (fun n => 0 <= n).
Proof.
  intros Hs Hc Hd Ho. eapply tidy_bind; [by apply tidy_fopen_path_w|]. intros [log|] Hlog; [|by apply tidy_ret].
  eapply tidy_bind; [by eapply tidy_fopen_tmp|]. intros f Hf.
  apply (tidy_bind _ _ (fun r => own_file r.1 /\ 0 <= r.2)).
  2: { intros [log' n] [H1 H2]. eapply tidy_bind; [by apply tidy_check_and_fclose|]. intros _ _. by apply tidy_ret. }
  destruct f as [f|e]; [|by apply tidy_ret]. destruct Hf as [Hpos Hnode]. cbv zeta. apply tidy_fs. intros w Hw.
  set (g := if append then _ else _). apply wp_bind.
  eapply wp_mono; [apply tidy_copy_lines; [|done| |done|lia]|done|].
  - unfold g. destruct append; cbn; lia.
  - unfold g. by destruct append.
  - intros [g' log'] w' (Ha & Ht & Hl & Hp). apply wp_ret. split_and!; [done|done|done|]. cbn. by destruct append.
Qed.

Lemma home_LOG_FILE : home_file LOG_FILE.
Proof. split; [auto with recovery|]. vm_compute. reflexivity. Qed.
Lemma home_LAST_LOG_FILE : home_file LAST_LOG_FILE.
Proof. split; [auto with recovery|]. vm_compute. reflexivity. Qed.
Lemma home_LAST_INSTALL_FILE : home_file LAST_INSTALL_FILE.
Proof. split; [auto with recovery|]. vm_compute. reflexivity. Qed.
Lemma home_INTENT_FILE : home_file INTENT_FILE.
Proof. split; [auto with recovery|]. vm_compute. reflexivity. Qed.

Lemma tidy_copy_logs offset : 0 <= offset -> tidy plain_tmp (copy_logs malloc_ok offset) (fun n => 0 <= n).
Proof.
  intros Ho.
  eapply tidy_bind; [apply (tidy_copy_log_file _ (str "recovery.log")); [reflexivity|by_decide|apply home_LOG_FILE|done]|].
  cbn beta. intros n1 H1.
  eapply tidy_bind; [apply (tidy_copy_log_file _ (str "recovery.log")); [reflexivity|by_decide|apply home_LAST_LOG_FILE|done]|].
  cbn beta. intros n2 H2.
  eapply tidy_bind; [apply (tidy_copy_log_file _ (str "last_install")); [reflexivity|by_decide|apply home_LAST_INSTALL_FILE|done]|].
  cbn beta. intros n3 H3.
  do 4 (eapply tidy_bind; [apply tidy_change; [auto with recovery|done]|]; intros _ _). by apply tidy_ret.
Qed.

(** The part of [finish_recovery] in front of the message. *)
Lemma tidy_send_intent send_intent :
  tidy plain_tmp (match send_intent with
    | None => wret tt
    | Some intent =>
        let! fp := fopen_path_w malloc_ok false INTENT_FILE in
        match fp with
        | None => wret tt
        | Some fp => let! (_, fp) := fwrite intent fp in check_and_fclose (D := D) fp
        end
    end) (fun _ => True).
Proof.
  destruct send_intent as [intent|]; [|by apply tidy_ret].
  eapply tidy_bind; [apply tidy_fopen_path_w, home_INTENT_FILE|]. intros [fp|] Hfp; [|by apply tidy_ret].
  eapply tidy_bind; [by apply tidy_fwrite|]. intros [ok g] Hg. by apply tidy_check_and_fclose.
Qed.

(** And behind it. *)
Lemma tidy_unlink_command (n : Z) :
  tidy plain_tmp (let! m := ensure_path_mounted COMMAND_FILE in
                  let! _ := if negb (m =? 0) then wret 0 else sys_unlink COMMAND_FILE in wret n) (fun r => r = n).
Proof.
  eapply tidy_bind; [eapply tidy_weaken; [apply ensure_cache_mounted; auto with recovery|done]|]. intros m _.
  apply (tidy_bind _ _ (fun _ => True)); [|by intros _ _; apply tidy_ret].
  destruct (negb _); [by apply tidy_ret|]. apply tidy_unlink. auto with recovery.
Qed.

End Tidy.

(** ** The message among the other files *)

Section Restart.
  Context {D : MtdDriver} {MI : MtdInfo D} {R : Roots dev} {RS : RootsSpec dev R}.
  Abbreviation W := (W tree dev).
  Abbreviation world := (world tree dev).
  Context (o : Z) (malloc_ok : Z -> bool) (proc_mtd : option string) (fuel : nat).
  (** The misc volume, a block device, and its node. *)
  Context (v : Volume) (p : path) (mode uid gid : Z) (time : option Z).
  Context (Hv : volume_for_path "/misc" = Some v) (Hfs : fs_type v = "emmc"%string) (Ho : 0 <= o).

Abbreviation device := (device mode uid gid time).
Abbreviation get_args := (get_args o malloc_ok proc_mtd fuel).
Abbreviation finish_recovery := (finish_recovery o malloc_ok proc_mtd fuel).

(** The device holds [d], it is not in /cache, and no link leads recovery's own
    files elsewhere. *)
Record ready (d : list Z) (fs : tree) : Prop := {
  ready_misc : has_misc v p mode uid gid time d (outside fs);
  ready_room : o + sizeof_message <= zlen d;
  ready_home : plain_home fs;
  ready_tmp : plain_tmp (outside fs);
  ready_ignore : outside fs !! [str "tmp"; str ".ignorebootmessage"] = None
}.

(** The message on it. *)
Definition message_at (d : list Z) : bootloader_message :=
  message_of (take (Z.to_nat sizeof_message) (drop (Z.to_nat o) d)).

Lemma ready_has_misc d fs : ready d fs -> has_misc v p mode uid gid time d fs.
Proof.
  intros H. destruct (ready_misc _ _ H) as [H1 H2]. split.
  - eapply resolve_mono; [apply outside_sub|done].
  - eapply lookup_weaken; [done|apply outside_sub].
Qed.

Lemma ready_tidied d fs fs' : ready d fs -> tidied fs fs' -> ready d fs'.
Proof. intros [H1 H2 H3 H4 H5] [E Hp]. split; rewrite ?E; done. Qed.

Lemma ready_outside d fs : ready d fs -> head p <> Some (str "cache") /\ outside fs !! p = Some (device d).
Proof.
  intros H. destruct (ready_misc _ _ H) as [_ H2]. split; [|done].
  apply map_lookup_filter_Some in H2 as [_ H2]. done.
Qed.

(** Writing the device leaves the rest ready. *)
Lemma ready_written d d' fs : ready d fs -> zlen d' = zlen d -> ready d' (<[p := device d']> fs).
Proof.
  intros H Hl. destruct (ready_outside _ _ H) as [Hp Ep]. destruct H as [[H1 H2] H3 H4 H5 H6].
  assert (outside (<[p := device d']> fs) = <[p := device d']> (outside fs)) as Eo.
  { unfold outside. by rewrite map_filter_insert_True. }
  assert (p <> [str "tmp"; str ".ignorebootmessage"]) as Hne by (intros ->; congruence).
  split; rewrite ?Eo.
  - split; [|apply lookup_insert_eq]. by rewrite (resolve_leaf _ _ _ (device d)).
  - lia.
  - intros q i Hq. destruct (decide (p = q)) as [<-|Hpq].
    + by rewrite own_head in Hp.
    + rewrite lookup_insert_ne by done. by apply H4.
  - intros c k i. destruct (decide (p = take (S k) [str "tmp"; c])) as [Heq|Hpq].
    + rewrite <- Heq, lookup_insert_eq. by intros [= <-].
    + rewrite lookup_insert_ne by done. apply H5.
  - by rewrite lookup_insert_ne.
Qed.

Lemma message_at_written m d : wf_message m -> o + sizeof_message <= zlen d ->
  message_at (overwrite o (message_bytes m) d) = m.
Proof using Ho.
  intros Hm Hd. unfold message_at. rewrite <- (message_bytes_length m Hm), Nat2Z.id.
  rewrite overwrite_read; [by apply message_of_bytes|done|]. by rewrite message_bytes_length.
Qed.

Lemma wf_message_at d : o + sizeof_message <= zlen d -> wf_message (message_at d).
Proof using Ho. intros Hd. apply wf_message_of. unfold sizeof_message in *. rewrite length_take, length_drop. lia. Qed.

(** Writing the message that is there. *)
Lemma message_at_same d : o + sizeof_message <= zlen d ->
  forall k, overwrite o (take k (message_bytes (message_at d))) d = d.
Proof using Ho.
  intros Hd k. unfold message_at. rewrite message_bytes_of.
  2: { unfold sizeof_message in *. rewrite length_take, length_drop. lia. }
  assert (length (take (Z.to_nat sizeof_message) (drop (Z.to_nat o) d)) = Z.to_nat sizeof_message) as Hl.
  { unfold sizeof_message in *. rewrite length_take, length_drop. lia. }
  apply overwrite_same; [done| |by rewrite Hl]. unfold sizeof_message in *. lia.
Qed.

Lemma wp_get_message (I : tree -> Prop) d (w : world) : ready d (w_fs w) ->
  wp I (get_bootloader_message o malloc_ok proc_mtd fuel) w
    (fun r w' => w_answers w' = w_answers w /\ w_fs w' = w_fs w /\
       (r = None /\ ~ calm w \/ r = Some (message_at d))).
Proof using Ho Hv Hfs.
  intros Hr. unfold get_bootloader_message. rewrite Hv, Hfs. rewrite bool_decide_false, bool_decide_true by done.
  apply (wp_get_block _ _ p mode uid gid time); [by apply ready_has_misc|done|apply Hr].
Qed.

(** The disks while the message [m] is written. *)
Definition writing (m : bootloader_message) (d : list Z) (fs0 fs : tree) : Prop :=
  tearing o p mode uid gid time (message_bytes m) d fs0 fs.

Lemma wp_set_message m d (w : world) : wf_message m -> ready d (w_fs w) ->
  wp (writing m d (w_fs w)) (set_bootloader_message o malloc_ok proc_mtd fuel m) w
    (fun r w' => w_answers w' = w_answers w /\ writing m d (w_fs w) (w_fs w') /\
       (r = 0 -> w_fs w' = <[p := device (overwrite o (message_bytes m) d)]> (w_fs w)) /\ (eager w -> r = 0)).
Proof using Ho Hv Hfs.
  intros Hm Hr. unfold set_bootloader_message. rewrite Hv, Hfs. rewrite bool_decide_false, bool_decide_true by done.
  apply wp_set_block; [done|by apply ready_has_misc|done|apply Hr].
Qed.

Lemma ready_writing m d fs0 fs : wf_message m -> ready d fs0 -> writing m d fs0 fs ->
  exists k, ready (overwrite o (take k (message_bytes m)) d) fs /\ fs = <[p := device (overwrite o (take k (message_bytes m)) d)]> fs0.
Proof using Ho.
  intros Hm Hr (k & Hk & ->). exists k. split; [|done]. apply (ready_written d); [done|].
  rewrite overwrite_length; [done|done|]. pose proof (ready_room _ _ Hr). pose proof (message_bytes_length m Hm).
  rewrite length_take. lia.
Qed.

(** ** [get_args] on a message that keeps arguments *)

Lemma wp_no_ignore (I : tree -> Prop) d (w : world) : ready d (w_fs w) ->
  wp I (sys_stat IGNORE_FILE) w (fun r w' => w_answers w' = w_answers w /\ w_fs w' = w_fs w /\ exists e, r = inr e).
Proof.
  intros Hr. apply wp_syscall; [intros _; by split_and!; [| |eexists]|]. apply wp_ret. split_and!; [done|done|].
  cbn [w_fs asked].
  destruct (resolve_no_links true (w_fs w) IGNORE_FILE [str "tmp"; str ".ignorebootmessage"] eq_refl) as
    [->|[(d' & c' & -> & _)|(e & ->)]]; [by_decide| | |by eexists|by eexists].
  - intros k i Hi. eapply (ready_tmp _ _ Hr). apply map_lookup_filter_Some. split; [exact Hi|]. done.
  - destruct (w_fs w !! _) as [i|] eqn:E; [|by eexists]. exfalso.
    pose proof (ready_ignore _ _ Hr) as Hn. unfold outside in Hn. apply map_lookup_filter_None in Hn as [Hn|Hn]; [congruence|].
    by apply (Hn i E).
Qed.

Lemma get_args_again d args argv0 (w : world) :
  ready d (w_fs w) -> calm w -> keeps_args args (message_at d) -> args <> [] ->
  Forall good_arg args -> (length args < MAX_ARGS)%nat ->
  wp (fun fs => fs = w_fs w) (get_args (argv0, [])) w
    (fun r w' => w_answers w' = w_answers w /\ w_fs w' = w_fs w /\ r = (str "recovery", args)).
Proof using Ho Hv Hfs.
  intros Hr Hc Hk Hne Hg Hn. unfold get_args. wp_step.
  eapply wp_mono; [by apply (wp_get_message _ d)|done|].
  intros r w1 (Ha1 & Hf1 & [[_ Hnc]|Hr1]); [by exfalso|]. subst r. cbv zeta. change (default zero_message (Some ?m)) with m.
  destruct (keeps_args_again args _ Hk Hg Hn) as (rec' & Eb & Em).
  cbn [snd]. wp_step. unfold args_from_boot. wp_step.
  eapply wp_mono; [by apply (wp_no_ignore _ d); rewrite Hf1|done|].
  intros st w2 (Ha2 & Hf2 & e & ->). wp_step. rewrite Eb. cbn [access]. eapply wp_lift; [done|]. cbn beta iota. wp_step.
  change (default (argv0, []) (Some ?m)) with m. cbn [snd]. assert (exists a l, args = a :: l) as (a & l & Ea) by (destruct args; [done|by eexists _, _]).
  rewrite Ea at 1. cbn beta iota. wp_step. wp_step. cbn [fst snd]. wp_step. rewrite Em. eapply wp_lift; [done|].
  wp_step.
  assert (w_fs w2 = w_fs w) as Hf by congruence.
  pose proof (ready_room _ _ Hr) as Hroom.
  assert (forall fs, writing (message_at d) d (w_fs w) fs -> fs = w_fs w) as Hw.
  { intros fs Hfs'. destruct (ready_writing _ d _ fs (wf_message_at d Hroom) Hr Hfs') as (k & _ & ->).
    rewrite message_at_same by done. apply insert_id. apply (ready_has_misc _ _ Hr). }
  eapply wp_mono; [apply (wp_set_message _ d w2); [by apply wf_message_at|by rewrite Hf]|rewrite Hf; apply Hw|].
  cbn beta. rewrite Hf. intros r w3 (Ha3 & Hf3 & _). wp_step. split_and!; [congruence|by apply Hw|done].
Qed.
(** ** [get_args] on any message *)

Lemma strtok_line buf : exists t passed rest, strtok_r [CR; NEWLINE] (buf ++ [0]) = Some (t, passed, rest) /\
  (forall a, t = Some a -> good_arg a).
Proof.
  destruct (cstr_split (buf ++ [0])) as (g & E & Hn); [apply elem_of_app; right; by apply list_elem_of_singleton|].
  rewrite E. pose proof (good_tokens [CR; NEWLINE] _ eq_refl Hn) as Hg.
  destruct (strtok_r_spec [CR; NEWLINE] eq_refl _ g Hn) as [(passed & -> & _)|(tok & passed & rest & -> & Ht & _)].
  - eexists _, _, _. split; [done|]. done.
  - eexists _, _, _. split; [done|]. intros a [= <-]. rewrite Ht in Hg. by apply Forall_cons in Hg as [Hg _].
Qed.

Lemma wp_command_lines (I : tree -> Prop) lines : forall n fp (w : world),
  0 <= r_pos fp -> (length (unread (w_fs w) fp) < lines)%nat ->
  wp I (command_lines lines n fp) w (fun l w' => w_answers w' = w_answers w /\ w_fs w' = w_fs w /\
    Forall good_arg l /\ (length l <= n)%nat).
Proof.
  induction lines as [|lines IH]; intros n fp w Hp Hl; [lia|]. destruct n as [|n]; cbn [command_lines]; [by wp_step|].
  wp_step. eapply wp_mono; [by apply wp_fgets|done|].
  intros [buf fp'] w1 (Hf1 & Ha1 & Hp1 & _ & Hd). cbn [fst snd] in *.
  destruct buf as [buf|]; [|wp_step; split_and!; [done|done|constructor|cbn; lia]].
  destruct Hd as [?|Hd]; [done|]. rewrite <- Hf1 in Hd, Hl. wp_step.
  destruct (strtok_line buf) as (t & passed & rest & -> & Ht). eapply wp_lift; [done|]. cbn beta iota.
  destruct t as [a|].
  - wp_step. eapply wp_mono; [apply IH; [done|lia]|done|]. intros l w2 (Ha2 & Hf2 & Hg & Hn). wp_step.
    split_and!; [congruence|congruence|constructor; [by apply Ht|done]|cbn; lia].
  - eapply wp_mono; [apply (IH (S n)); [done|lia]|done|]. intros l w2 (Ha2 & Hf2 & Hg & Hn).
    split_and!; [congruence|congruence|done|done].
Qed.

Lemma tidy_args_from_command_file argv :
  tidy (fun _ => True) (args_from_command_file argv)
    (fun r => r = argv \/ r.1 = argv.1 /\ Forall good_arg r.2 /\ (length r.2 < MAX_ARGS)%nat).
Proof.
  apply (tidy_bind _ _ (fun f => match f with Some f => r_pos f = 0 | None => True end)).
  { eapply tidy_bind; [apply ensure_cache_mounted; auto with recovery|]. intros m _.
    destruct (negb _); [by apply tidy_ret|].
    apply (tidy_bind _ _ (fun f => match f with inl f => r_pos f = 0 | inr _ => True end)).
    - apply tidy_syscall; [done|]. intros w Hw. apply wp_tidied_ret; [done|].
      destruct (resolve _ _ _); [|done|done]. by destruct (w_fs w !! _).
    - intros [f|e] Hf; by apply tidy_ret. }
  intros [fp|] Hfp; [|apply tidy_ret; by left]. apply tidy_fs. intros w Hw.
  apply wp_bind. eapply wp_mono; [apply wp_command_lines; lia|done|].
  intros l w' (Ha & Hf & Hg & Hn). apply wp_ret. rewrite Hf. split_and!; [done|by apply tidied_refl|].
  right. cbn. split_and!; [done|done|]. unfold MAX_ARGS in *. lia.
Qed.

(** The arguments a boot message gives. *)
Lemma args_from_boot_spec (I : tree -> Prop) d argv0 boot (w : world) :
  ready d (w_fs w) -> wf_message boot ->
  wp I (args_from_boot (argv0, []) (recovery boot)) w (fun r w' =>
    w_answers w' = w_answers w /\ w_fs w' = w_fs w /\ length r.2 = 1024%nat /\ last r.2 = Some 0 /\
    Forall good_arg r.1.2 /\ (length r.1.2 < MAX_ARGS)%nat).
Proof.
  intros Hr (H1 & H2 & H3). unfold args_from_boot. wp_step. eapply wp_mono; [by apply (wp_no_ignore _ d)|done|].
  intros st w1 (Ha1 & Hf1 & e & ->). wp_step.
  destruct (boot_message_args_spec (recovery boot) H3) as (rec' & Hl & Hlast & _ & ->).
  destruct (terminated_split (recovery boot) H3) as (g & _ & Hn & _).
  pose proof (good_tokens [NEWLINE] _ eq_refl Hn) as Hg.
  eapply wp_lift; [done|]. cbn beta iota. wp_step. cbn [fst snd].
  assert (forall r : arg * list arg, Forall good_arg r.2 /\ (length r.2 < MAX_ARGS)%nat ->
    w_answers w1 = w_answers w /\ w_fs w1 = w_fs w /\ length rec' = 1024%nat /\ last rec' = Some 0 /\
    Forall good_arg r.2 /\ (length r.2 < MAX_ARGS)%nat) as Hall by (intros r [? ?]; by split_and!).
  assert (0 < MAX_ARGS)%nat as Hmax by (unfold MAX_ARGS; lia).
  destruct (tokens _ _) as [|a l]; [by apply Hall|]. destruct (bool_decide _); [|by apply Hall].
  apply Hall. cbn. apply Forall_cons in Hg as [_ Hg]. split; [by apply Forall_take|]. unfold MAX_ARGS in *. rewrite length_take. lia.
Qed.

Lemma wf_zero_message : wf_message zero_message.
Proof. by split_and!; apply length_replicate. Qed.

(** Every boot stores the arguments it runs with. *)
Lemma get_args_first d argv0 (w : world) : ready d (w_fs w) ->
  wp (fun fs => exists d', ready d' fs) (get_args (argv0, [])) w (fun r w' =>
    w_answers w' = w_answers w /\ Forall good_arg r.2 /\ (length r.2 < MAX_ARGS)%nat /\
    (exists d', ready d' (w_fs w')) /\
    (eager w -> (length (message_text r.2) <= 1023)%nat -> exists d', ready d' (w_fs w') /\ keeps_args r.2 (message_at d'))).
Proof using Ho Hv Hfs RS.
  intros Hr. unfold get_args. wp_step. eapply wp_mono; [by apply (wp_get_message (fun _ => False) d)|done|].
  intros b w1 (Ha1 & Hf1 & Hb). cbv zeta. set (boot := default zero_message b).
  assert (wf_message boot) as Hboot.
  { destruct Hb as [[-> _]|Hb]; [apply wf_zero_message|]. subst b. apply wf_message_at, Hr. }
  cbn [snd]. wp_step. eapply wp_mono; [apply (args_from_boot_spec (fun _ => False) d); [by rewrite Hf1|done]|done|].
  intros [argv rec] w2 (Ha2 & Hf2 & Hrec & Hlast & Hg2 & Hn2). cbn [fst snd] in *. rewrite Hf1 in Hf2.
  wp_step.
  assert (wp (tidied (w_fs w2)) (match argv.2 with [] => args_from_command_file argv | _ => wret argv end) w2
    (fun r w' => w_answers w' = w_answers w /\ tidied (w_fs w2) (w_fs w') /\ Forall good_arg r.2 /\ (length r.2 < MAX_ARGS)%nat)) as Hcmd.
  { assert (plain_home (w_fs w2)) as Hp by (rewrite Hf2; apply Hr).
    destruct (argv.2) as [|x l] eqn:Eargs.
    - eapply wp_mono; [by apply (tidy_args_from_command_file argv)|done|]. intros r w3 (Ha3 & Ht & Hc).
      split_and!; [congruence|done|..]; destruct Hc as [->|(_ & Hc1 & Hc2)]; rewrite ?Eargs; done.
    - wp_step. rewrite Eargs. split_and!; [congruence|by apply tidied_refl|done|done]. }
  rewrite Hf2 in Hcmd. eapply wp_mono; [exact Hcmd| |].
  { intros fs Ht. exists d. by eapply ready_tidied. }
  intros [name args] w3 (Ha3 & Ht & Hg & Hn). cbn [fst snd] in *. pose proof (ready_tidied _ _ _ Hr Ht) as Hr3.
  assert (wf_message (mkMessage (command boot) (status boot) rec)) as Hwf by (by destruct Hboot as (? & ? & ?)).
  wp_step. rewrite boot_message_for_spec by done. eapply wp_lift; [done|]. wp_step.
  set (m := message_for _ args). assert (wf_message m) as Hm by (by apply wf_message_for).
  eapply wp_mono; [by apply (wp_set_message m d)| |].
  { intros fs Hw. destruct (ready_writing _ _ _ _ Hm Hr3 Hw) as (k & Hk & _). eauto. }
  intros r w4 (Ha4 & Hw4 & Hr4 & He). wp_step. cbn [fst snd].
  destruct (ready_writing _ _ _ _ Hm Hr3 Hw4) as (k & Hk & _).
  split_and!; [congruence|done|done|by eauto|]. intros Hew Hfit.
  rewrite Hr4 by (apply He; by eapply eager_same). pose proof (ready_room _ _ Hr) as Hroom.
  exists (overwrite o (message_bytes m) d). split.
  - apply (ready_written d); [done|]. rewrite overwrite_length; [done|done|]. rewrite message_bytes_length; [done|done].
  - rewrite message_at_written by done. by apply message_for_keeps.
Qed.

(** ** [finish_recovery] *)

(** What the device holds while the message is cleared: the first [k] bytes of
    it are gone. *)
Definition clearing (k : nat) (d : list Z) : list Z := overwrite o (take k (message_bytes zero_message)) d.

Lemma clearing_0 d : o + sizeof_message <= zlen d -> clearing 0 d = d.
Proof using Ho. intros Hd. unfold clearing. rewrite take_0. apply overwrite_nil. unfold sizeof_message in *. lia. Qed.

Lemma message_bytes_zero : message_bytes zero_message = replicate 1088 0.
Proof. unfold message_bytes, zero_message. cbn [command status recovery]. by rewrite <- !replicate_add. Qed.

(** Once the first byte is gone there is no command. *)
Lemma clearing_command k d : o + sizeof_message <= zlen d -> (0 < k)%nat -> cstr (command (message_at (clearing k d))) = [].
Proof using Ho.
  intros Hd Hk. unfold clearing, message_at, message_of. cbn [command].
  rewrite message_bytes_zero, take_replicate. unfold sizeof_message in *.
  rewrite overwrite_inside by (rewrite ?length_replicate; lia).
  rewrite drop_app_length' by (rewrite length_take; lia).
  destruct (Nat.min k 1088) as [|n] eqn:E; [lia|]. cbn [replicate app]. done.
Qed.

Lemma finish_recovery_clears d send_intent offset (w : world) : ready d (w_fs w) -> 0 <= offset ->
  wp (fun fs => exists k, ready (clearing k d) fs) (finish_recovery send_intent offset) w (fun n w' =>
    w_answers w' = w_answers w /\ 0 <= n /\ (exists k, ready (clearing k d) (w_fs w')) /\
    (eager w -> exists k, (0 < k)%nat /\ ready (clearing k d) (w_fs w'))).
Proof using Ho Hv Hfs RS.
  intros Hr Hoff. pose proof (ready_room _ _ Hr) as Hroom. unfold finish_recovery.
  assert (forall fs fs', ready d fs -> tidied fs fs' -> exists k, ready (clearing k d) fs') as Htidy.
  { intros fs fs' Hf Ht. exists 0%nat. rewrite clearing_0 by done. by eapply ready_tidied. }
  wp_step. eapply wp_mono; [apply tidy_send_intent; apply Hr|intros fs; by apply Htidy|].
  intros _ w1 (Ha1 & Ht1 & _). pose proof (ready_tidied _ _ _ Hr Ht1) as Hr1.
  wp_step. eapply wp_mono; [apply tidy_copy_logs; [done|apply Hr1|apply Hr1]|intros fs; by apply Htidy|].
  intros n w2 (Ha2 & Ht2 & Hn). cbn beta in Hn. pose proof (ready_tidied _ _ _ Hr1 Ht2) as Hr2.
  wp_step. eapply wp_mono; [apply (wp_set_message _ d w2 wf_zero_message Hr2)| |].
  { intros fs Hw. destruct (ready_writing _ _ _ _ wf_zero_message Hr2 Hw) as (k & Hk & _). by exists k. }
  intros r w3 (Ha3 & Hw3 & Hr3 & He).
  assert (exists k, ready (clearing k d) (w_fs w3) /\ (eager w -> (0 < k)%nat)) as (k & Hk & Hek).
  { destruct (ready_writing _ _ _ _ wf_zero_message Hr2 Hw3) as (k & Hk & Efs).
    destruct (decide (r = 0)) as [Hr0|Hr0].
    - exists 1088%nat. split; [|intros _; lia]. unfold clearing. rewrite take_ge by (rewrite message_bytes_zero, length_replicate; lia).
      rewrite (Hr3 Hr0). apply (ready_written d); [done|]. rewrite overwrite_length; [done|done|].
      by rewrite (message_bytes_length _ wf_zero_message).
    - exists k. split; [exact Hk|]. intros Hew. exfalso. apply Hr0, He. eapply eager_same; [|done]. congruence. }
  eapply wp_mono; [apply (tidy_unlink_command n w3 (ready_home _ _ Hk) (ready_tmp _ _ Hk))| |].
  - intros fs Ht. exists k. by eapply ready_tidied.
  - intros n' w4 (Ha4 & Ht4 & ->). pose proof (ready_tidied _ _ _ Hk Ht4). split_and!; [congruence|done|by eauto|].
    intros Hew. exists k. split; [by apply Hek|done].
Qed.

(** [C10] What [get_args] returns it has stored, if it fits. With the message on
    an eMMC misc partition, in a boot in which every call gets somewhere, it
    returns. If it returned at least one argument, and the text of the arguments
    has at most the 1023 bytes there is room for in the message (longer ones are
    cut), then every later boot in which no call fails gets the same arguments,
    however often it is restarted, because at no moment of such a boot is the disk
    other than the first boot left it. *)
Theorem get_args_persists d argv0 (w : world) (Hr : ready d (w_fs w)) (He : eager w) :
  exists name args w1, get_args (argv0, []) w = (Done (name, args), w1) /\
    (args <> [] -> (length (message_text args) <= 1023)%nat ->
     forall argv0' w2, w_fs w2 = w_fs w1 -> calm w2 ->
     exists w3 l, get_args (argv0', []) w2 = (Done (str "recovery", args), w3) /\
       w_log w3 = w_log w2 ++ l /\ Forall (fun fs => fs = w_fs w1) l /\ w_fs w3 = w_fs w1).
Proof using Ho Hv Hfs RS.
  destruct (get_args_first d argv0 w Hr) as ([name args] & w1 & l & E & _ & _ & _ & Hg & Hn & _ & Hk). cbn [snd] in *.
  exists name, args, w1. split; [done|]. intros Hne Hfit argv0' w2 Hw2 Hc. destruct (Hk He Hfit) as (d' & Hr' & Hk').
  rewrite <- Hw2 in Hr'. destruct (get_args_again d' args argv0' w2) as (r & w3 & l' & E' & L' & F' & _ & Hf' & ->); auto.
  exists w3, l'. rewrite <- Hw2. by split_and!.
Qed.

End Restart.

(** ** A device to try it on *)

Definition demo_driver : MtdDriver := nand_driver 2048 (fun _ => false).
Definition demo_info : MtdInfo demo_driver := fun _ _ => None.

(** Every volume is mounted. *)
Definition demo_misc : Volume := simple_volume "/misc" "emmc" "/dev/block/misc".
Definition demo_roots : Roots (dev (MtdDriver := demo_driver)) := {|
  volume_for_path s := if bool_decide (s = "/misc"%string) then Some demo_misc else None;
  ensure_path_mounted _ := wret 0;
  ensure_path_unmounted _ := wret 0;
  format_volume _ := wret 0
|}.

#[export] Instance demo_roots_spec : RootsSpec _ demo_roots.
Proof. split. intros s Hs. by apply tidy_ret. Qed.


Definition demo_path : path := [str "dev"; str "block"; str "misc"].

(** A tree with the message [d] and a command file. *)
Definition demo_tree (d command : list Z) : tree := {[
  [] := new_inode KDir 493;
  [str "tmp"] := new_inode KDir 511;
  [str "dev"] := new_inode KDir 493;
  [str "dev"; str "block"] := new_inode KDir 493;
  demo_path := new_inode (KBlock d) 384;
  [str "cache"] := new_inode KDir 511;
  [str "cache"; str "recovery"] := new_inode KDir 511;
  [str "cache"; str "recovery"; str "command"] := new_inode (KFile command) 384
]}.

Definition demo_world (fs : tree) (answers : nat -> Z) : world tree (dev (MtdDriver := demo_driver)) :=
  mkWorld fs (∅ : gmap Z (list Z)) answers 0 [].

Lemma demo_cases d c q i (Q : path -> inode -> Prop) : demo_tree d c !! q = Some i ->
  (forall q i, i_kind i = KDir \/ i_kind i = KFile c -> Q q i) -> Q demo_path (new_inode (KBlock d) 384) -> Q q i.
Proof.
  intros Hi H1 H2. unfold demo_tree in Hi.
  repeat (apply lookup_insert_Some in Hi as [[<- <-]|[_ Hi]]; [first [exact H2|apply H1; cbn; by auto]|]).
  apply lookup_singleton_Some in Hi as [<- <-]. apply H1. cbn. by right.
Qed.

Lemma demo_ready d c : zlen d = sizeof_message -> ready 0 demo_misc demo_path 384 0 0 None d (demo_tree d c).
Proof.
  intros Hd. split.
  - split; vm_compute; reflexivity.
  - lia.
  - intros q i Hq Hi. revert Hq. apply (demo_cases _ _ _ _ (fun q i => own q -> plain i = true) Hi).
    + intros r j [Hj|Hj] _; unfold plain; by rewrite Hj.
    + intros Ho. by apply own_head in Ho.
  - intros q k i Hi. eapply lookup_weaken in Hi; [|apply outside_sub]. revert Hi.
    generalize (take (S k) [str "tmp"; q]). intros r Hi. apply (demo_cases _ _ _ _ (fun _ i => is_link i = false) Hi).
    + intros r' j [Hj|Hj]; unfold is_link; by rewrite Hj.
    + done.
  - vm_compute. reflexivity.
Qed.

(** The command file of a factory reset, and its arguments. *)
Definition wipe_command : list Z := str "--wipe_data" ++ [NEWLINE].
Definition wipe_args : list arg := [str "--wipe_data"].

Definition demo_get_args := get_args (D := demo_driver) (MI := demo_info) (R := demo_roots) 0 (fun _ => true) None 0.

Lemma get_args_persists_witness :
  exists name args w1,
    demo_get_args (str "/sbin/recovery", []) (demo_world (demo_tree (replicate 1088 0) wipe_command) (fun _ => 2000))
      = (Done (name, args), w1) /\
    (args <> [] -> (length (message_text args) <= 1023)%nat ->
     forall argv0' w2, w_fs w2 = w_fs w1 -> calm w2 ->
     exists w3 l, demo_get_args (argv0', []) w2 = (Done (str "recovery", args), w3) /\
       w_log w3 = w_log w2 ++ l /\ Forall (fun fs => fs = w_fs w1) l /\ w_fs w3 = w_fs w1).
Proof.
  apply (get_args_persists (MI := demo_info) (RS := demo_roots_spec) 0 (fun _ => true) None 0 demo_misc demo_path 384 0 0 None eq_refl eq_refl
    ltac:(lia) (replicate 1088 0)).
  - by apply demo_ready.
  - intros n. cbn. lia.
Defined.

(** Whether a run returned [argv] and left [fs]. *)
Definition ran (r : outcome (arg * list arg) * world tree (dev (MtdDriver := demo_driver))) (argv : arg * list arg) (fs : tree) : bool :=
  match r with
  | (Done a, w) => bool_decide (a = argv) && bool_decide (w_fs w = fs)
  | _ => false
  end.

Lemma ran_done r argv fs : ran r argv fs = true -> exists w, r = (Done argv, w) /\ w_fs w = fs.
Proof.
  destruct r as [[a|?| |] w]; try discriminate. cbn. rewrite andb_true_iff, !bool_decide_eq_true. intros [-> <-]. by exists w.
Qed.

(** What the first boot of it gets and stores. *)
Example demo_first_boot :
  ran (demo_get_args (str "/sbin/recovery", []) (demo_world (demo_tree (replicate 1088 0) wipe_command) (fun _ => 2000)))
    (str "/sbin/recovery", wipe_args)
    (demo_tree (message_bytes (message_for zero_message wipe_args)) wipe_command) = true.
Proof. vm_compute. reflexivity. Qed.

(** ** Where arguments are lost *)

(** An argument of more than 1014 bytes, which the command file may hold,
    does not survive: the message stored for it gives back the first 1014 bytes
    of it, so a restarted boot works with another package name. *)
Theorem long_argument_is_cut boot a (Hboot : wf_message boot) (Ha : good_arg a) (Hlen : (1014 < length a)%nat) :
  exists m rec', boot_message_for boot [a] = Some m /\
    boot_message_args (recovery m) = Some (Some (str "recovery", [take 1014 a]), rec') /\ take 1014 a <> a.
Proof.
  assert (Forall good_arg [a]) as Hargs by (by constructor).
  exists (message_for boot [a]). rewrite boot_message_for_spec by done.
  destruct (wf_message_for boot [a] Hboot) as (_ & _ & H3). destruct Hboot as (_ & _ & Hb).
  destruct (boot_message_args_spec _ H3) as (rec' & _ & _ & _ & ->). exists rec'.
  set (t := str "recovery" ++ NEWLINE :: take 1014 a).
  assert (take 1023 (message_text [a]) = t) as Et.
  { unfold message_text, args_text. cbn [fmap list_fmap concat]. rewrite app_nil_r.
    change 1023%nat with (length (str "recovery" ++ [NEWLINE]) + 1014)%nat. rewrite take_app_add, take_app_le by lia.
    unfold t. by rewrite <- app_assoc. }
  assert (length t = 1023%nat) as Hlt by (unfold t; rewrite length_app; cbn [length]; rewrite length_take; cbn [length str]; lia).
  assert (recovery (message_for boot [a]) = t ++ [0]) as Er.
  { unfold message_for, render. cbn [recovery]. change (Z.to_nat (1024 - 1)) with 1023%nat. rewrite Et, drop_ge by lia. done. }
  assert (terminated (t ++ [0]) = t ++ [0]) as Ht.
  { unfold terminated. apply list_insert_id. rewrite lookup_app_r by lia. by rewrite Hlt. }
  destruct Ha as (Hne & Hnul & Hnl).
  assert (nul_free t) as Hn.
  { unfold t. apply nul_free_app. split; [by repeat constructor|]. constructor; [done|]. by apply nul_free_take. }
  rewrite Er, Ht, cstr_app by done. unfold t. rewrite tokens_line by by_decide. rewrite bool_decide_true by done.
  rewrite tokens_last.
  - split_and!; [done|done|]. intros E. apply (f_equal length) in E. rewrite length_take in E. lia.
  - apply Forall_take, Forall_forall. intros c Hc. apply newline_is. by intros ->.
  - intros E. apply (f_equal length) in E. rewrite length_take in E. cbn [length] in E. lia.
Qed.

Definition long_argument : arg := str "--update_package=/cache/" ++ replicate 1100 97.

Lemma long_argument_is_cut_witness :
  exists m rec', boot_message_for zero_message [long_argument] = Some m /\
    boot_message_args (recovery m) = Some (Some (str "recovery", [take 1014 long_argument]), rec') /\
    take 1014 long_argument <> long_argument.
Proof. apply long_argument_is_cut; [apply wf_zero_message|by_decide|vm_compute; lia]. Defined.

(** One failed read forgets the job: the message asks for a data wipe, but
    opening the misc device fails once while a restarted recovery reads it.  It
    goes on without arguments, stores that, and no later boot knows of the wipe. *)
Theorem failed_read_forgets_job :
  let pending := message_bytes (message_for zero_message wipe_args) in
  let forgotten := message_bytes (message_for zero_message []) in
  ran (demo_get_args (str "recovery", []) (demo_world (demo_tree pending []) (fun _ => 2000)))
    (str "recovery", wipe_args) (demo_tree pending []) = true /\
  ran (demo_get_args (str "recovery", []) (demo_world (demo_tree pending []) (fun n => if (n =? 1)%nat then -1 else 2000)))
    (str "recovery", []) (demo_tree forgotten []) = true /\
  ran (demo_get_args (str "recovery", []) (demo_world (demo_tree forgotten []) (fun _ => 2000)))
    (str "recovery", []) (demo_tree forgotten []) = true.
Proof. split_and!; vm_compute; reflexivity. Qed.
