(* ===== verification/BootCycle.v ===== *)
(** * Recovery across reboots

    The boots of a device as steps: the bootloader reads the message, recovery
    gets its arguments, does its job and finishes, and power may be lost at any
    moment.  They implement the machine of [recovery.c]'s opening comment: a
    pending job is started by every boot, with the same arguments, until it has
    ended; then the main system boots. *)
From S2P Require Import Prelude.
From S2P Require Import Cbuf.
From S2P Require Import Posix.
From S2P Require Import PosixFacts.
From S2P Require Import Mtdutils.
From S2P Require Import Bootloader.
From S2P Require Import BootloaderFacts.
From S2P Require Import Recovery.
From S2P Require Import RecoveryArgs.
From S2P Require Import CacheFiles.
From S2P Require Import RecoveryFacts.

Inductive event : Type :=
  | Starts (args : list arg)
  | JobEnds
  | BootsSystem
  | Internal.

(** ** The abstract machine *)

Inductive job_state : Type :=
  | Pending (args : list arg)
  | Ended (args : list arg)
  | Clear.

Inductive job_step : job_state -> event -> job_state -> Prop :=
  | js_start args : job_step (Pending args) (Starts args) (Pending args)
  | js_lost args : job_step (Pending args) Internal (Pending args)
  | js_end args : job_step (Pending args) JobEnds (Ended args)
  | js_again args : job_step (Ended args) Internal (Pending args)
  | js_clear args : job_step (Ended args) Internal Clear
  | js_system : job_step Clear BootsSystem Clear.

(** Sequences of steps with their events. *)
Inductive run {S : Type} (step : S -> event -> S -> Prop) : S -> list event -> S -> Prop :=
  | run_nil s : run step s [] s
  | run_cons s e s' es s'' : step s e s' -> run step s' es s'' -> run step s (e :: es) s''.

(** A simulation step by step is one of whole runs. *)
Lemma run_simulates {S A : Type} (step : S -> event -> S -> Prop) (astep : A -> event -> A -> Prop) (rel : S -> A -> Prop) :
  (forall s e s' a, step s e s' -> rel s a -> exists a', astep a e a' /\ rel s' a') ->
  forall s es s', run step s es s' -> forall a, rel s a -> exists a', run astep a es a' /\ rel s' a'.
Proof.
  intros Hsim s es s'. induction 1 as [s|s e s1 es s2 H1 H2 IH]; intros a Hr; [by exists a; split; [constructor|]|].
  destruct (Hsim _ _ _ _ H1 Hr) as (a1 & Ha1 & Hr1). destruct (IH a1 Hr1) as (a2 & Ha2 & Hr2).
  exists a2. split; [by econstructor|done].
Qed.

(** What the bootloader does with a message (the comment of [firmware.c]). *)
Definition boots_recovery (m : bootloader_message) : bool := bool_decide (cstr (command m) = str "boot-recovery").

(** Where recovery is. *)
Inductive stage : Type :=
  | Off
  | Working (argv : arg * list arg)
  | Finishing (send_intent : option arg).

Section Cycle.
  Context {D : MtdDriver} {MI : MtdInfo D} {R : Roots dev} {RS : RootsSpec dev R}.
  Abbreviation W := (W tree dev).
  Abbreviation world := (world tree dev).
  Context (o : Z) (malloc_ok : Z -> bool) (proc_mtd : option string) (fuel : nat).
  Context (v : Volume) (p : path) (mode uid gid : Z) (time : option Z).
  Context (Hv : volume_for_path "/misc" = Some v) (Hfs : fs_type v = "emmc"%string) (Ho : 0 <= o).
  (** How the kernel sets up the file systems at boot, and what recovery does
      between getting its arguments and finishing: it gives the intent. *)
  Context (fresh : tree -> tree) (job : arg * list arg -> W (option arg)).
  Abbreviation ready := (ready o v p mode uid gid time).
  Context (Hfresh : forall d fs, ready d fs -> ready d (fresh fs)).
  Context (Hjob : forall d argv, triple (ready d) (ready d) (job argv) (fun _ => ready d)).

(** The message on the misc device of a disk. *)
Definition misc_message (fs : tree) : bootloader_message :=
  match fs !! p with
  | Some (mkInode (KBlock d) _ _ _ _) => message_at o d
  | _ => zero_message
  end.

(** A program is started on a disk, and power is lost while it runs: what is on
    the disk then is the last thing that was written. *)
Definition starts_on (fs : tree) (w : world) : Prop := w_fs w = fs /\ w_log w = [].
Definition power_lost {A} (m : W A) (w : world) (fs' : tree) : Prop := fs' = w_fs w \/ fs' ∈ w_log (m w).2.

Abbreviation get_args := (get_args o malloc_ok proc_mtd fuel).
Abbreviation finish_recovery := (finish_recovery o malloc_ok proc_mtd fuel).

Inductive boot_step : tree * stage -> event -> tree * stage -> Prop :=
  | bs_system fs : boots_recovery (misc_message fs) = false -> boot_step (fs, Off) BootsSystem (fs, Off)
  | bs_start fs argv0 w argv w' :
      boots_recovery (misc_message fs) = true -> starts_on (fresh fs) w -> calm w ->
      get_args (argv0, []) w = (Done argv, w') -> boot_step (fs, Off) (Starts argv.2) (w_fs w', Working argv)
  | bs_start_lost fs argv0 w fs' :
      boots_recovery (misc_message fs) = true -> starts_on (fresh fs) w -> calm w ->
      power_lost (get_args (argv0, [])) w fs' -> boot_step (fs, Off) Internal (fs', Off)
  | bs_job fs argv w intent w' :
      starts_on fs w -> job argv w = (Done intent, w') -> boot_step (fs, Working argv) JobEnds (w_fs w', Finishing intent)
  | bs_job_lost fs argv w fs' :
      starts_on fs w -> power_lost (job argv) w fs' -> boot_step (fs, Working argv) Internal (fs', Off)
  | bs_finish fs intent w n w' :
      starts_on fs w -> finish_recovery intent 0 w = (Done n, w') -> boot_step (fs, Finishing intent) Internal (w_fs w', Off)
  | bs_finish_lost fs intent w fs' :
      starts_on fs w -> power_lost (finish_recovery intent 0) w fs' -> boot_step (fs, Finishing intent) Internal (fs', Off).

(** Arguments that can be kept. *)
Definition keepable (args : list arg) : Prop := args <> [] /\ Forall good_arg args /\ (length args < MAX_ARGS)%nat.

Definition message_keeps (args : list arg) (fs : tree) : Prop := exists d, ready d fs /\ keeps_args args (message_at o d).
Definition message_cleared (fs : tree) : Prop := exists d, ready d fs /\ cstr (command (message_at o d)) = [].

Definition implements (s : tree * stage) (a : job_state) : Prop :=
  match a with
  | Pending args => keepable args /\ message_keeps args s.1 /\ (s.2 = Off \/ s.2 = Working (str "recovery", args))
  | Ended args => keepable args /\ message_keeps args s.1 /\ exists i, s.2 = Finishing i
  | Clear => message_cleared s.1 /\ s.2 = Off
  end.

Lemma misc_message_ready d fs : ready d fs -> misc_message fs = message_at o d.
Proof. intros Hr. unfold misc_message. destruct (ready_has_misc _ _ _ _ _ _ _ _ _ Hr) as [_ ->]. done. Qed.

Lemma keeps_boots args m : keeps_args args m -> boots_recovery m = true.
Proof.
  intros Hk. destruct (keeps_command _ _ Hk) as (g & E). unfold boots_recovery. apply bool_decide_eq_true.
  rewrite E, cstr_app; [done|]. by repeat constructor.
Qed.

Lemma cleared_boots m : cstr (command m) = [] -> boots_recovery m = false.
Proof. intros E. unfold boots_recovery. apply bool_decide_eq_false. by rewrite E. Qed.

(** While the message is cleared the job is pending or there is none. *)
Lemma clearing_implements args d k fs : keepable args -> keeps_args args (message_at o d) -> o + sizeof_message <= zlen d ->
  ready (clearing o k d) fs -> exists a, job_step (Ended args) Internal a /\ implements (fs, Off) a.
Proof using Ho.
  intros Hn Hk Hroom Hr. destruct k as [|k].
  - rewrite clearing_0 in Hr by done. exists (Pending args). split; [constructor|]. split_and!; [done|by exists d|by left].
  - exists Clear. split; [constructor|]. split; [|done]. eexists. split; [exact Hr|]. apply clearing_command; [done|done|lia].
Qed.

(** Power lost during a program whose disks are all in [I]. *)
Lemma power_lost_in {A} (I : tree -> Prop) (m : W A) w fs' Q :
  wp I m w Q -> w_log w = [] -> I (w_fs w) -> power_lost m w fs' -> I fs'.
Proof.
  intros (a & w' & l & E & L & F & _) Hl Hw [->|H]; [done|]. rewrite E in H. cbn in H. rewrite L, Hl in H.
  rewrite Forall_forall in F. by apply F.
Qed.

Lemma boot_step_simulated s e s' a : boot_step s e s' -> implements s a -> exists a', job_step a e a' /\ implements s' a'.
Proof using Ho Hv Hfs RS Hfresh Hjob.
  destruct 1 as [fs Hb|fs argv0 w argv w' Hb [Hw Hl] Hc E|fs argv0 w fs' Hb [Hw Hl] Hc Hp|fs argv w intent w' [Hw Hl] E
    |fs argv w fs' [Hw Hl] Hp|fs intent w n w' [Hw Hl] E|fs intent w fs' [Hw Hl] Hp]; destruct a as [args|args|]; cbn [implements fst snd].
  all: try by (intros (_ & _ & [?|?])). all: try by (intros (_ & _ & (? & ?))). all: try by intros [_ ?].
  - (* the main system, with a pending job *)
    intros (_ & (d & Hr & Hk) & _). rewrite (misc_message_ready d _ Hr), (keeps_boots _ _ Hk) in Hb. done.
  - intros Hcl. exists Clear. by split; [constructor|].
  - (* a boot into recovery *)
    intros (Hn & (d & Hr & Hk) & _). pose proof Hn as (Hn1 & Hn2 & Hn3).
    destruct (get_args_again o malloc_ok proc_mtd fuel v p mode uid gid time Hv Hfs Ho d args argv0 w) as
      (r & w2 & l & E2 & _ & _ & _ & Hf & ->); [rewrite Hw; by apply Hfresh|done..|].
    rewrite E in E2. injection E2 as -> ->. exists (Pending args). split; [constructor|].
    split_and!; [done|exists d; rewrite Hf, Hw; split; [by apply Hfresh|done]|by right].
  - intros [(d & Hr & Hcl) _]. rewrite (misc_message_ready d _ Hr), (cleared_boots _ Hcl) in Hb. done.
  - intros (Hn & (d & Hr & Hk) & _). pose proof Hn as (Hn1 & Hn2 & Hn3).
    exists (Pending args). split; [constructor|]. split_and!; [done| |by left]. exists d. split; [|done].
    enough (fs' = w_fs w) as -> by (rewrite Hw; by apply Hfresh).
    eapply (power_lost_in (fun fs => fs = w_fs w)); [|done|done|done].
    apply (get_args_again o malloc_ok proc_mtd fuel v p mode uid gid time Hv Hfs Ho d args argv0 w); [rewrite Hw; by apply Hfresh|done..].
  - intros [(d & Hr & Hcl) _]. rewrite (misc_message_ready d _ Hr), (cleared_boots _ Hcl) in Hb. done.
  - (* the job ends *)
    intros (Hn & (d & Hr & Hk) & [?|Hst]); [done|]. assert (argv = (str "recovery", args)) as -> by congruence. exists (Ended args). split; [constructor|].
    split_and!; [done| |by eexists]. exists d. split; [|done].
    destruct (Hjob d (str "recovery", args) w) as [_ Hpost]; [by rewrite Hw|]. rewrite E in Hpost. by apply (Hpost intent).
  - intros (Hn & (d & Hr & Hk) & [?|Hst]); [done|]. assert (argv = (str "recovery", args)) as -> by congruence. exists (Pending args). split; [constructor|].
    split_and!; [done| |by left]. exists d. split; [|done].
    destruct (Hjob d (str "recovery", args) w) as [(l & Hlog & HI) _]; [by rewrite Hw|].
    destruct Hp as [->|Hp]; [by rewrite Hw|]. rewrite Hlog, Hl in Hp. rewrite Forall_forall in HI. by apply HI.
  - (* finishing *)
    intros (Hn & (d & Hr & Hk) & _). rewrite <- Hw in Hr.
    destruct (finish_recovery_clears o malloc_ok proc_mtd fuel v p mode uid gid time Hv Hfs Ho d intent 0 w Hr) as
      (n' & w2 & l & E2 & _ & _ & _ & _ & (k & Hk') & _); [done|].
    rewrite E in E2. injection E2 as -> ->. eapply clearing_implements; [done|done|by apply (ready_room _ _ _ _ _ _ _ _ _ Hr)|done].
  - intros (Hn & (d & Hr & Hk) & _). rewrite <- Hw in Hr. pose proof (ready_room _ _ _ _ _ _ _ _ _ Hr) as Hroom.
    assert (exists k, ready (clearing o k d) fs') as (k & Hk').
    { eapply (power_lost_in (fun fs => exists k, ready (clearing o k d) fs)); [|done| |exact Hp].
      - by apply (finish_recovery_clears o malloc_ok proc_mtd fuel v p mode uid gid time Hv Hfs Ho d intent 0 w Hr).
      - exists 0%nat. by rewrite clearing_0. }
    by eapply clearing_implements.
Qed.

(** [C2] The boots of a device refine the abstract machine. The message is on an
    eMMC misc partition; the file system is set up at each boot so that the way to
    the message is kept ([fresh]); a boot of recovery has no failing call while it
    gets its arguments (one failing read of the message makes it forget the job,
    see [failed_read_forgets_job]); and what recovery does between getting its
    arguments and finishing leaves the message alone, which a firmware update does
    not. Then, wherever power is lost and whatever fails in the job and in
    [finish_recovery], every sequence of events that starts with a pending job is
    one of the machine's. So until the job has ended the main system is not booted
    and every start is with the job's arguments; afterwards a boot either starts
    it again or is the main system's. *)
Theorem boot_cycle_refines s es s' a (Hrun : run boot_step s es s') (Himpl : implements s a) :
  exists a', run job_step a es a' /\ implements s' a'.
Proof using Ho Hv Hfs RS Hfresh Hjob. eapply run_simulates; [apply boot_step_simulated|done|done]. Qed.

(** [C26] [finish_recovery] is safe to interrupt: it returns, and at every moment
    of it the message is the one that was there or has no command any more.
    When every call gets somewhere it has none at the end. *)
Theorem finish_recovery_safe d send_intent offset (w : world) (Hr : ready d (w_fs w)) (Hoff : 0 <= offset) :
  exists n w' l, finish_recovery send_intent offset w = (Done n, w') /\ w_log w' = w_log w ++ l /\
    Forall (fun fs => misc_message fs = message_at o d \/ message_cleared fs) l /\
    (eager w -> message_cleared (w_fs w')).
Proof using Ho Hv Hfs RS.
  pose proof (ready_room _ _ _ _ _ _ _ _ _ Hr) as Hroom.
  destruct (finish_recovery_clears o malloc_ok proc_mtd fuel v p mode uid gid time Hv Hfs Ho d send_intent offset w Hr Hoff)
    as (n & w' & l & E & L & F & _ & _ & _ & He).
  exists n, w', l. split_and!; [done|done| |].
  - eapply Forall_impl; [exact F|]. intros fs (k & Hk). destruct k as [|k].
    + left. rewrite clearing_0 in Hk by done. by apply misc_message_ready.
    + right. eexists. split; [exact Hk|]. apply clearing_command; [done|done|lia].
  - intros Hew. destruct (He Hew) as (k & Hk & Hr'). eexists. split; [exact Hr'|]. by apply clearing_command.
Qed.

End Cycle.

(** ** A factory reset *)

Abbreviation demo_step := (boot_step (MI := demo_info) (R := demo_roots) 0 (fun _ => true) None 0 demo_path
  id (fun _ => wret None)).
Abbreviation demo_implements := (implements 0 demo_misc demo_path 384 0 0 None).

Definition pending_tree : tree := demo_tree (message_bytes (message_for zero_message wipe_args)) [].

Lemma message_at_whole b : zlen b = sizeof_message -> message_at 0 b = message_of b.
Proof. intros H. unfold message_at. by rewrite take_ge by (unfold sizeof_message in *; rewrite length_drop; lia). Qed.

Lemma pending_implements : demo_implements (pending_tree, Off) (Pending wipe_args).
Proof.
  split_and!; [split_and!; [done|by_decide|vm_compute; lia]| |by left].
  pose proof (wf_message_for zero_message wipe_args wf_zero_message) as Hwf. pose proof (message_bytes_length _ Hwf) as Hl.
  eexists. split; [by apply demo_ready|]. rewrite message_at_whole, message_of_bytes by done.
  apply message_for_keeps; [apply wf_zero_message|vm_compute; reflexivity|vm_compute; lia].
Qed.

(** Power is lost, recovery starts again and does its job, finishes, and the
    main system boots. *)
Lemma boot_cycle_refines_witness :
  exists s', run demo_step (pending_tree, Off) [Internal; Starts wipe_args; JobEnds; Internal] s' /\
    exists a', run job_step (Pending wipe_args) [Internal; Starts wipe_args; JobEnds; Internal] a' /\ demo_implements s' a'.
Proof.
  set (w := demo_world pending_tree (fun _ => 2000)).
  destruct pending_implements as ((Hn1 & Hn2 & Hn3) & (d & Hr & Hk) & _).
  destruct (get_args_again (MI := demo_info) (R := demo_roots) 0 (fun _ => true) None 0 demo_misc demo_path 384 0 0 None eq_refl eq_refl
    ltac:(lia) d wipe_args [] w) as (r & w1 & l & E & _ & _ & _ & Hf & ->); [done|by intros n; cbn; lia|done..|].
  set (w2 := demo_world pending_tree (fun _ => 2000)).
  destruct (finish_recovery_clears (MI := demo_info) (RS := demo_roots_spec) 0 (fun _ => true) None 0 demo_misc
    demo_path 384 0 0 None eq_refl eq_refl ltac:(lia) d None 0 w2) as (n & w3 & l' & E' & _ & _ & _ & _ & _ & _); [done|lia|].
  assert (run demo_step (pending_tree, Off) [Internal; Starts wipe_args; JobEnds; Internal] (w_fs w3, Off)) as Hrun.
  { eapply run_cons.
    { eapply (bs_start_lost _ _ _ _ _ _ _ _ [] w pending_tree); [vm_compute; reflexivity|by split|by intros m; cbn; lia|by left]. }
    eapply run_cons.
    { change wipe_args with (str "recovery", wipe_args).2.
      eapply (bs_start _ _ _ _ _ _ _ _ [] w); [vm_compute; reflexivity|by split|by intros m; cbn; lia|exact E]. }
    rewrite Hf. eapply run_cons; [eapply (bs_job _ _ _ _ _ _ _ _ _ w2); [by split|done]|].
    eapply run_cons; [|apply run_nil]. eapply (bs_finish _ _ _ _ _ _ _ _ _ w2); [by split|exact E']. }
  exists (w_fs w3, Off). split; [exact Hrun|].
  apply (boot_cycle_refines (MI := demo_info) (RS := demo_roots_spec) 0 (fun _ => true) None 0 demo_misc demo_path 384 0 0 None
    eq_refl eq_refl ltac:(lia) id (fun _ => wret None) ltac:(done)
    ltac:(intros d' argv; apply triple_ret; done) _ _ _ _ Hrun pending_implements).
Defined.

Lemma finish_recovery_safe_witness :
  let w := demo_world (demo_tree (replicate 1088 1) []) (fun _ => 2000) in
  exists n w' l, finish_recovery (MI := demo_info) (R := demo_roots) 0 (fun _ => true) None 0 (Some (str "done")) 0 w
      = (Done n, w') /\ w_log w' = w_log w ++ l /\
    Forall (fun fs => misc_message 0 demo_path fs = message_at 0 (replicate 1088 1) \/
                      message_cleared 0 demo_misc demo_path 384 0 0 None fs) l /\
    (eager w -> message_cleared 0 demo_misc demo_path 384 0 0 None (w_fs w')).
Proof.
  apply (finish_recovery_safe (MI := demo_info) (RS := demo_roots_spec) 0 (fun _ => true) None 0 demo_misc demo_path
    384 0 0 None eq_refl eq_refl ltac:(lia) (replicate 1088 1)); [by apply demo_ready|lia].
Defined.
