(* ===== verification/Mounts.v ===== *)
(** * The table of mounted volumes ([mounts.c])

    [scan_mounted_volumes] reads /proc/mounts into an array of 32 entries;
    recovery asks it where a volume is mounted.  Strings are their bytes. *)
From S2P Require Import Prelude.
From S2P Require Import Cbuf.

Record MountedVolume := mkMounted {
  mv_device : list Z;
  mv_mount_point : list Z;
  mv_filesystem : list Z;
  mv_flags : list Z
}.

#[export] Instance MountedVolume_eq_dec : EqDecision MountedVolume.
Proof. solve_decision. Defined.

(** [g_mounts_state]: the array, [None] before it is allocated, and its count.
    An entry is [None] when its pointers are null. *)
Record MountsState := mkMounts {
  volumes : option (list (option MountedVolume));
  volumes_allocd : Z;
  volume_count : Z
}.

Definition g_mounts_state : MountsState := mkMounts None 0 0.
Definition numv : Z := 32.

(** ** [sscanf(bufp, "%63s %63s %63s %127s", ...)] *)

Definition is_space (c : Z) : bool := (c =? 32) || ((9 <=? c) && (c <=? 13)).

(** At most [n] characters up to white space. *)
Fixpoint scan_word (n : nat) (s : list Z) : list Z * list Z :=
  match n, s with
  | S n, c :: s' => if is_space c then ([], s) else let '(t, rest) := scan_word n s' in (c :: t, rest)
  | _, _ => ([], s)
  end.

(** One conversion: white space in front is skipped, [None] without a match. *)
Definition scan_s (n : nat) (s : list Z) : option (list Z * list Z) :=
  match scan_word n (skip_while is_space s).2 with
  | ([], _) => None
  | (t, rest) => Some (t, rest)
  end.

Definition sscanf_mount (bufp : list Z) : option MountedVolume :=
  '(device, s) ← scan_s 63 (cstr bufp);
  '(mount_point, s) ← scan_s 63 s;
  '(filesystem, s) ← scan_s 63 s;
  '(flags, _) ← scan_s 127 s;
  Some (mkMounted device mount_point filesystem flags).

(** ** Scanning *)

Definition NL : Z := 10.

(** "Eat the line." *)
Definition eat_mount_line (bufp : list Z) : list Z :=
  drop 1 (skip_while (fun c => negb (c =? NL)) bufp).2.

(** [volumes[volume_count++] = v]; there is no entry behind the array. *)
Definition add_volume (v : MountedVolume) (g : MountsState) : outcome MountsState :=
  match volumes g with
  | Some a =>
      if volume_count g <? zlen a
      then Done (mkMounts (Some (<[Z.to_nat (volume_count g) := Some v]> a)) (volumes_allocd g) (volume_count g + 1))
      else Undef
  | None => Undef
  end.

(** The loop over the lines of [buf[0 .. nbytes]]. *)
Fixpoint scan_mounts (lines : nat) (bufp : list Z) (g : MountsState) : outcome MountsState :=
  match bufp with
  | [] => Done g
  | _ =>
      match lines with
      | O => Diverge
      | S lines =>
          g ← match sscanf_mount bufp with Some v => add_volume v g | None => Done g end;
          scan_mounts lines (eat_mount_line bufp) g
      end
  end.

(** The old entries are freed and zeroed, or the array is allocated. *)
Definition reset_volumes (g : MountsState) : MountsState :=
  match volumes g with
  | None => mkMounts (Some (replicate (Z.to_nat numv) None)) numv 0
  | Some a =>
      let n := Z.to_nat (volume_count g) in
      mkMounts (Some (replicate (length (take n a)) None ++ drop n a)) (volumes_allocd g) 0
  end.

(** [malloc_ok]: the allocation succeeds.  [proc_mounts]: what /proc/mounts
    holds, [None] when it cannot be opened or read. *)
Definition scan_mounted_volumes (malloc_ok : bool) (proc_mounts : option (list Z)) (g : MountsState)
    : outcome (Z * MountsState) :=
  if bool_decide (volumes g = None) && negb malloc_ok then Done (-1, g) else
  let g := reset_volumes g in
  match proc_mounts with
  | None => Done (-1, g)
  | Some text =>
      let buf := take 2047 text in
      g ← scan_mounts (length buf) buf g;
      Done (0, g)
  end.

(** ** Lookups

    The index of the entry that a lookup returns a pointer to. *)
Fixpoint find_entry (test : MountedVolume -> bool) (i : nat) (l : list (option MountedVolume)) : option nat :=
  match l with
  | [] => None
  | Some v :: l => if test v then Some i else find_entry test (S i) l
  | None :: l => find_entry test (S i) l
  end.

Definition find_mounted (test : MountedVolume -> bool) (g : MountsState) : option nat :=
  a ← volumes g; find_entry test 0 (take (Z.to_nat (volume_count g)) a).

Definition find_mounted_volume_by_device (device : list Z) : MountsState -> option nat :=
  find_mounted (fun v => bool_decide (mv_device v = device)).
Definition find_mounted_volume_by_mount_point (mount_point : list Z) : MountsState -> option nat :=
  find_mounted (fun v => bool_decide (mv_mount_point v = mount_point)).

(** The entry behind a pointer. *)
Definition entry (g : MountsState) (i : nat) : option MountedVolume :=
  a ← volumes g; v ← a !! i; v.

(** [umount] of the mount point, or of NULL; its answer is the system's. *)
Definition unmount_mounted_volume (umount : option (list Z) -> Z) (i : nat) (g : MountsState) : Z * MountsState :=
  let ret := umount (mv_mount_point <$> entry g i) in
  if ret =? 0 then (0, mkMounts (alter (fun _ => None) i <$> volumes g) (volumes_allocd g) (volume_count g))
  else (ret, g).

(** The volume whose device is a link to [node].  [readlink] gives the target of
    a link; when it fails, the buffer that is compared was never written. *)
Fixpoint find_real_node (readlink : list Z -> option (list Z)) (node : list Z) (i : nat)
    (l : list (option MountedVolume)) : outcome (option nat) :=
  match l with
  | [] => Done None
  | Some v :: l =>
      match readlink (mv_device v) with
      | Some path_resolved =>
          if bool_decide (cstr path_resolved = node) then Done (Some i) else find_real_node readlink node (S i) l
      | None => Undef
      end
  | None :: l => find_real_node readlink node (S i) l
  end.

Definition find_mounted_volume_by_real_node (readlink : list Z -> option (list Z)) (node : list Z) (g : MountsState)
    : outcome (option nat) :=
  match volumes g with
  | Some a => find_real_node readlink node 0 (take (Z.to_nat (volume_count g)) a)
  | None => Done None
  end.

(** ** What the kernel prints *)

(** A line: the volume and its two dummy fields. *)
Definition mount_line (v : MountedVolume) : list Z :=
  mv_device v ++ 32 :: mv_mount_point v ++ 32 :: mv_filesystem v ++ 32 :: mv_flags v ++ [32; 48; 32; 48; NL].

Definition mounts_text (vs : list MountedVolume) : list Z := concat (mount_line <$> vs).

(** A field of at most [n] bytes. *)
Definition field_ok (n : nat) (s : list Z) : Prop :=
  s <> [] /\ (length s <= n)%nat /\ Forall (fun c => is_space c = false) s /\ nul_free s.

Record wf_mount (v : MountedVolume) : Prop := {
  wf_device : field_ok 63 (mv_device v);
  wf_mount_point : field_ok 63 (mv_mount_point v);
  wf_filesystem : field_ok 63 (mv_filesystem v);
  wf_flags : field_ok 127 (mv_flags v)
}.

Lemma scan_word_field n s c t : (length s <= n)%nat -> Forall (fun c => is_space c = false) s -> is_space c = true ->
  scan_word n (s ++ c :: t) = (s, c :: t).
Proof.
  revert n. induction s as [|x s IH]; intros n Hn Hs Hc.
  - destruct n; [done|]. cbn. by rewrite Hc.
  - apply Forall_cons in Hs as [Hx Hs]. destruct n as [|n]; [cbn in Hn; lia|]. cbn [app scan_word]. rewrite Hx, IH; auto.
    cbn in Hn. lia.
Qed.

(** A field behind spaces. *)
Lemma scan_s_field n sp s c t : Forall (fun c => is_space c = true) sp -> field_ok n s -> is_space c = true ->
  scan_s n (sp ++ s ++ c :: t) = Some (s, c :: t).
Proof.
  intros Hsp (Hne & Hn & Hs & _) Hc. unfold scan_s. rewrite (skip_while_app _ sp); [|done|].
  - cbn [snd]. rewrite scan_word_field by done. by destruct s.
  - destruct s as [|x s]; [done|]. cbn. intros ? [= <-]. by apply Forall_cons in Hs as [? _].
Qed.

Lemma field_nul_free n s : field_ok n s -> nul_free s.
Proof. by intros (_ & _ & _ & ?). Qed.

Lemma cstr_prefix s t : nul_free s -> cstr (s ++ t) = s ++ cstr t.
Proof. induction 1 as [|c s Hc Hs IH]; [done|]. cbn. rewrite (proj2 (Z.eqb_neq c 0)) by done. by rewrite IH. Qed.

Lemma nul_free_line v : wf_mount v -> nul_free (mount_line v).
Proof.
  intros [H1 H2 H3 H4]. unfold mount_line. unfold nul_free in *.
  repeat (apply Forall_app; split; [by eapply field_nul_free|apply Forall_cons; split; [done|]]).
  by repeat constructor.
Qed.

Lemma sscanf_mount_line v t : wf_mount v -> sscanf_mount (mount_line v ++ t) = Some v.
Proof.
  intros Hv. unfold sscanf_mount. rewrite cstr_prefix by (by apply nul_free_line). destruct Hv as [H1 H2 H3 H4].
  unfold mount_line. repeat (rewrite <- !app_assoc; cbn [app]).
  pose proof (fun n s => scan_s_field n [] s 32) as Hf. pose proof (fun n s => scan_s_field n [32] s 32) as Hn.
  cbn [app] in Hf, Hn. rewrite Hf by done. cbn [mbind option_bind].
  repeat (rewrite Hn by (done || by repeat constructor); cbn [mbind option_bind]). by destruct v.
Qed.

Lemma no_newline s n : field_ok n s -> Forall (fun c => negb (c =? NL) = true) s.
Proof.
  intros (_ & _ & Hs & _). eapply Forall_impl; [exact Hs|]. intros c Hc. apply negb_true_iff, Z.eqb_neq. by intros ->.
Qed.

Lemma eat_whole_line v t : wf_mount v -> eat_mount_line (mount_line v ++ t) = t.
Proof.
  intros [H1 H2 H3 H4]. unfold eat_mount_line.
  replace (mount_line v ++ t) with
    ((mv_device v ++ 32 :: mv_mount_point v ++ 32 :: mv_filesystem v ++ 32 :: mv_flags v ++ [32; 48; 32; 48]) ++ NL :: t).
  2: { unfold mount_line. by repeat (rewrite <- !app_assoc; cbn [app]). }
  rewrite skip_while_app; [done| |by intros ? [= <-]].
  repeat (apply Forall_app; split; [by eapply no_newline|apply Forall_cons; split; [done|]]). by repeat constructor.
Qed.

(** ** The table as a list

    The volumes that a lookup can see. *)
Definition visible (g : MountsState) : list MountedVolume :=
  match volumes g with Some a => omap id (take (Z.to_nat (volume_count g)) a) | None => [] end.

(** The table of a scan that found [vs]. *)
Definition loaded (vs : list MountedVolume) : MountsState :=
  mkMounts (Some ((Some <$> vs) ++ replicate (Z.to_nat numv - length vs) None)) numv (zlen vs).

(** What every operation keeps: 32 entries, null from the count on. *)
Definition mounts_inv (g : MountsState) : Prop :=
  match volumes g with
  | None => g = g_mounts_state
  | Some a =>
      volumes_allocd g = numv /\ zlen a = numv /\ 0 <= volume_count g <= numv /\
      Forall (fun e => e = None) (drop (Z.to_nat (volume_count g)) a)
  end.

Lemma Forall_None_replicate {A} (l : list (option A)) : Forall (fun e => e = None) l -> l = replicate (length l) None.
Proof. induction 1 as [|x l -> _ IH]; [done|]. cbn. by f_equal. Qed.

Lemma reset_volumes_inv g : mounts_inv g -> reset_volumes g = loaded [].
Proof.
  unfold mounts_inv, reset_volumes, loaded. destruct (volumes g) as [a|]; [|done].
  intros (-> & Ha & Hn & Hd). do 2 f_equal. rewrite (Forall_None_replicate _ Hd), <- replicate_add. cbn [fmap list_fmap app].
  f_equal. rewrite length_take, length_drop. cbn [length]. lia.
Qed.

Lemma add_volume_loaded v vs :
  add_volume v (loaded vs) = if zlen vs <? numv then Done (loaded (vs ++ [v])) else Undef.
Proof.
  unfold add_volume, loaded. cbn [volumes volume_count volumes_allocd].
  rewrite length_app, length_fmap, length_replicate. unfold numv.
  destruct (Z.ltb_spec (Z.of_nat (length vs)) 32) as [H|H].
  - rewrite (proj2 (Z.ltb_lt _ _)) by lia. f_equal. f_equal.
    + f_equal. rewrite fmap_app, <- app_assoc.
      rewrite insert_app_r_alt by (rewrite length_fmap; lia). f_equal. rewrite length_fmap, length_app. cbn [length fmap list_fmap].
      replace (Z.to_nat 32 - length vs)%nat with (S (Z.to_nat 32 - (length vs + 1))) by lia.
      rewrite Nat2Z.id, Nat.sub_diag. done.
    + rewrite length_app. cbn. lia.
  - by rewrite (proj2 (Z.ltb_ge _ _)) by lia.
Qed.

Lemma scan_mounts_text lines vs pre : Forall wf_mount vs -> (length vs <= lines)%nat -> zlen pre <= numv ->
  scan_mounts lines (mounts_text vs) (loaded pre) =
    if zlen (pre ++ vs) <=? numv then Done (loaded (pre ++ vs)) else Undef.
Proof.
  intros Hvs. revert lines pre. induction Hvs as [|v vs Hv Hvs IH]; intros lines pre Hl Hp.
  - rewrite app_nil_r, (proj2 (Z.leb_le _ _)) by done. by destruct lines.
  - destruct lines as [|lines]; [cbn in Hl; lia|]. change (mounts_text (v :: vs)) with (mount_line v ++ mounts_text vs).
    assert (exists c t, mount_line v ++ mounts_text vs = c :: t) as (c & t & E).
    { destruct (wf_device v Hv) as [Hne _]. unfold mount_line. destruct (mv_device v) as [|c d]; [done|]. by eexists _, _. }
    cbn [scan_mounts]. rewrite E at 1. cbn beta iota. rewrite sscanf_mount_line, eat_whole_line, add_volume_loaded by done.
    rewrite length_app. cbn [length].
    destruct (Z.ltb_spec (Z.of_nat (length pre)) numv) as [H|H]; cbn [mbind].
    + change (scan_mounts lines (mounts_text vs) (loaded (pre ++ [v])) = if Z.of_nat (length pre + S (length vs)) <=? numv then Done (loaded (pre ++ v :: vs)) else Undef).
      rewrite IH; [|cbn in Hl; lia|rewrite length_app; cbn; lia]. rewrite <- app_assoc, !length_app. cbn [app length].
      by replace (length pre + S (length vs))%nat with (length pre + S (length vs))%nat by lia.
    + by rewrite (proj2 (Z.leb_gt _ _)) by lia.
Qed.

Lemma length_mounts_text vs : Forall wf_mount vs -> (length vs <= length (mounts_text vs))%nat.
Proof.
  induction 1 as [|v vs Hv Hvs IH]; [done|]. change (mounts_text (v :: vs)) with (mount_line v ++ mounts_text vs).
  rewrite length_app. unfold mount_line. rewrite !length_app. cbn [length]. rewrite !length_app. cbn [length]. lia.
Qed.

Lemma take_loaded (vs : list MountedVolume) : take (Z.to_nat (zlen vs)) ((Some <$> vs) ++ replicate (Z.to_nat numv - length vs) None) = Some <$> vs.
Proof. rewrite take_app_le by (rewrite length_fmap; lia). apply take_ge. rewrite length_fmap. lia. Qed.

Lemma visible_loaded vs : visible (loaded vs) = vs.
Proof. unfold visible, loaded. cbn [volumes volume_count]. rewrite take_loaded. induction vs as [|v vs IH]; [done|]. cbn. by f_equal. Qed.

(** A lookup returns the first visible volume that passes its test. *)
Lemma find_entry_spec test l i :
  match find_entry test i l with
  | Some j => (i <= j)%nat /\ exists v, l !! (j - i)%nat = Some (Some v) /\ List.find test (omap id l) = Some v
  | None => List.find test (omap id l) = None
  end.
Proof.
  revert i. induction l as [|[v|] l IH]; intros i; [done| |]; cbn [find_entry omap list_omap id]; cbn.
  - destruct (test v); [split; [lia|]; exists v; by rewrite Nat.sub_diag|].
    specialize (IH (S i)). destruct (find_entry test (S i) l) as [j|]; [|done].
    destruct IH as (Hj & w & Hw & Hf). split; [lia|]. exists w. by replace (j - i)%nat with (S (j - S i)) by lia.
  - specialize (IH (S i)). destruct (find_entry test (S i) l) as [j|]; [|done].
    destruct IH as (Hj & w & Hw & Hf). split; [lia|]. exists w. by replace (j - i)%nat with (S (j - S i)) by lia.
Qed.

Lemma find_mounted_spec test g : find_mounted test g ≫= entry g = List.find test (visible g).
Proof.
  unfold find_mounted, visible, entry. destruct (volumes g) as [a|]; [|done]. cbn [mbind option_bind].
  pose proof (find_entry_spec test (take (Z.to_nat (volume_count g)) a) 0) as H.
  destruct (find_entry _ _ _) as [j|]; [|done]. destruct H as (_ & v & Hv & ->). rewrite Nat.sub_0_r in Hv.
  apply lookup_take_Some in Hv as [Hv _]. cbn. by rewrite Hv.
Qed.

Lemma found_entry test g i : find_mounted test g = Some i -> exists v, entry g i = Some v /\ test v = true.
Proof.
  unfold find_mounted, entry. destruct (volumes g) as [a|]; [|done]. cbn [mbind option_bind]. intros H.
  pose proof (find_entry_spec test (take (Z.to_nat (volume_count g)) a) 0) as Hs. rewrite H in Hs.
  destruct Hs as (_ & v & Hv & Hf). rewrite Nat.sub_0_r in Hv. apply lookup_take_Some in Hv as [Hv _].
  exists v. cbn. rewrite Hv. split; [done|]. by apply List.find_some in Hf as [_ ?].
Qed.

Lemma find_loaded test vs : find_mounted test (loaded vs) ≫= entry (loaded vs) = List.find test vs.
Proof. rewrite find_mounted_spec. by rewrite visible_loaded. Qed.

(** Zeroing the entry that a lookup found takes away the first such volume. *)
Fixpoint remove_first (test : MountedVolume -> bool) (vs : list MountedVolume) : list MountedVolume :=
  match vs with [] => [] | v :: vs => if test v then vs else v :: remove_first test vs end.

Lemma find_entry_alter test l i j : find_entry test i l = Some j ->
  omap id (alter (fun _ => None) (j - i)%nat l) = remove_first test (omap id l).
Proof.
  revert i. induction l as [|[v|] l IH]; intros i; [done| |]; cbn [find_entry].
  - destruct (test v) eqn:E.
    + intros [= <-]. rewrite Nat.sub_diag. cbn. by rewrite E.
    + intros H. pose proof (find_entry_spec test l (S i)) as Hs. rewrite H in Hs.
      replace (j - i)%nat with (S (j - S i)) by lia. cbn. rewrite E. f_equal. by apply IH.
  - intros H. pose proof (find_entry_spec test l (S i)) as Hs. rewrite H in Hs.
    replace (j - i)%nat with (S (j - S i)) by lia. cbn. by apply IH.
Qed.

Lemma find_entry_bound test l i j : find_entry test i l = Some j -> (j - i < length l)%nat.
Proof.
  intros H. pose proof (find_entry_spec test l i) as Hs. rewrite H in Hs. destruct Hs as (_ & v & Hv & _).
  by apply lookup_lt_Some in Hv.
Qed.

Lemma unmount_found test umount g i : mounts_inv g -> find_mounted test g = Some i ->
  umount (mv_mount_point <$> entry g i) = 0 ->
  exists g', unmount_mounted_volume umount i g = (0, g') /\ visible g' = remove_first test (visible g).
Proof.
  unfold mounts_inv, find_mounted, unmount_mounted_volume, visible. destruct (volumes g) as [a|] eqn:Ea; [|done].
  cbn [mbind option_bind]. intros (_ & Ha & Hc & _) H ->. cbn [Z.eqb]. eexists. split; [done|]. cbn [volumes volume_count fmap option_fmap option_map].
  rewrite <- (find_entry_alter _ _ _ _ H), Nat.sub_0_r. apply find_entry_bound in H. rewrite Nat.sub_0_r, length_take in H.
  f_equal. rewrite <- (take_drop (Z.to_nat (volume_count g)) a) at 1.
  rewrite alter_app_l by (rewrite length_take; lia). rewrite take_app_length' by (rewrite length_alter, length_take; lia). done.
Qed.

(** ** The operations keep the invariant *)

Lemma loaded_inv vs : zlen vs <= numv -> mounts_inv (loaded vs).
Proof.
  intros H. cbn [mounts_inv loaded volumes]. unfold mounts_inv, loaded. cbn [volumes volumes_allocd volume_count].
  split_and!; [done| |lia|done|].
  - rewrite length_app, length_fmap, length_replicate. unfold numv in *. lia.
  - rewrite drop_app_length' by (rewrite length_fmap; lia). by apply Forall_replicate.
Qed.

(** The loop has a step for every line. *)
Lemma eat_mount_line_shorter c bufp : (length (eat_mount_line (c :: bufp)) <= length bufp)%nat.
Proof.
  unfold eat_mount_line. rewrite length_drop.
  destruct (skip_while (fun c => negb (c =? NL)) (c :: bufp)) as [p r] eqn:E.
  apply skip_while_spec in E as (E & _ & _). apply (f_equal length) in E. rewrite length_app in E. cbn in *. lia.
Qed.

(** [C33] From any table that the operations leave, scanning the text that
    the kernel prints for at most 32 volumes (fields within the widths of the
    format, 2047 bytes in all) returns 0 and the table shows exactly these
    volumes; with more volumes the array is overrun.  A lookup by device or
    mount point gives the first volume of that name, and after a successful
    [unmount_mounted_volume] of what a lookup found the table shows the others. *)
Theorem mounted_volumes_correct (vs : list MountedVolume) (g : MountsState) (malloc_ok : bool)
    (umount : option (list Z) -> Z) (name : list Z) :
  mounts_inv g -> volumes g <> None \/ malloc_ok = true ->
  Forall wf_mount vs -> zlen (mounts_text vs) <= 2047 ->
  let find_all := fun by_field : MountedVolume -> list Z => List.find (fun v => bool_decide (by_field v = name)) vs in
  if zlen vs <=? numv then
    exists g', scan_mounted_volumes malloc_ok (Some (mounts_text vs)) g = Done (0, g') /\
      mounts_inv g' /\ visible g' = vs /\
      find_mounted_volume_by_device name g' ≫= entry g' = find_all mv_device /\
      find_mounted_volume_by_mount_point name g' ≫= entry g' = find_all mv_mount_point /\
      (forall i, find_mounted_volume_by_mount_point name g' = Some i -> umount (Some name) = 0 ->
        exists g'', unmount_mounted_volume umount i g' = (0, g'') /\
          visible g'' = remove_first (fun v => bool_decide (mv_mount_point v = name)) vs)
  else scan_mounted_volumes malloc_ok (Some (mounts_text vs)) g = Undef.
Proof.
  intros Hg Hm Hvs Ht. cbv zeta.
  assert (scan_mounted_volumes malloc_ok (Some (mounts_text vs)) g =
    if zlen vs <=? numv then Done (0, loaded vs) else Undef) as E.
  { unfold scan_mounted_volumes. replace (bool_decide (volumes g = None) && negb malloc_ok) with false.
    2: { case_bool_decide; [|done]. by destruct Hm as [?| ->]. }
    rewrite reset_volumes_inv by done. cbv zeta. rewrite take_ge by lia.
    rewrite scan_mounts_text; [|done|by apply length_mounts_text|done]. cbn [app]. by destruct (zlen vs <=? numv). }
  destruct (Z.leb_spec (zlen vs) numv) as [Hn|Hn]; [|done]. exists (loaded vs).
  split_and!; [done|by apply loaded_inv|by rewrite visible_loaded|..].
  1, 2: apply find_loaded.
  intros i Hi Hu. destruct (found_entry _ _ _ Hi) as (v & Hv & Ht'). apply bool_decide_eq_true in Ht'.
  destruct (unmount_found _ umount _ i (loaded_inv vs Hn) Hi) as (g' & E' & Hv').
  - rewrite Hv. cbn. by rewrite Ht'.
  - rewrite visible_loaded in Hv'. by exists g'.
Qed.

Definition sample_volume (c : Z) : MountedVolume := mkMounted [47; c] [47; c] [101] [114; 119].

(** Two volumes scanned; the first one is found and unmounted. *)
Lemma mounted_volumes_correct_witness :
  exists g', scan_mounted_volumes true (Some (mounts_text [sample_volume 97; sample_volume 98])) g_mounts_state = Done (0, g') /\
    visible g' = [sample_volume 97; sample_volume 98] /\
    exists g'', unmount_mounted_volume (fun _ => 0) 0 g' = (0, g'') /\ visible g'' = [sample_volume 98].
Proof.
  destruct (mounted_volumes_correct [sample_volume 97; sample_volume 98] g_mounts_state true (fun _ => 0) [47; 97])
    as (g' & E & _ & Hv & _ & _ & Hu).
  - done.
  - by right.
  - repeat constructor; vm_compute; discriminate.
  - by vm_compute.
  - exists g'. split; [exact E|split; [exact Hv|]]. apply (Hu 0%nat); [|reflexivity].
    assert (g' = loaded [sample_volume 97; sample_volume 98]) as ->; [|reflexivity].
    revert E. vm_compute. by intros [= <-].
Defined.

(** 33 short lines: the table overflows. *)
Lemma mounts_overflow : scan_mounted_volumes true (Some (mounts_text (replicate 33 (sample_volume 97)))) g_mounts_state = Undef.
Proof. by vm_compute. Qed.

(** A device name of 70 bytes: its end is taken for the mount point. *)
Lemma long_device_spills :
  let d := replicate 70 97 in
  exists g', scan_mounted_volumes true (Some (mount_line (mkMounted d [47] [101] [114]))) g_mounts_state = Done (0, g') /\
    visible g' = [mkMounted (replicate 63 97) (replicate 7 97) [47] [101]].
Proof. cbv zeta. eexists. split; vm_compute; reflexivity. Qed.

(** ** Any sequence of operations *)

(** The volumes that the loop reads from a text, line by line. *)
Fixpoint read_volumes (lines : nat) (bufp : list Z) : list MountedVolume :=
  match lines, bufp with
  | S lines, _ :: _ =>
      match sscanf_mount bufp with
      | Some v => v :: read_volumes lines (eat_mount_line bufp)
      | None => read_volumes lines (eat_mount_line bufp)
      end
  | _, _ => []
  end.

Definition volumes_of (text : list Z) : list MountedVolume := read_volumes (length (take 2047 text)) (take 2047 text).

Lemma scan_mounts_reads lines bufp pre : (length bufp <= lines)%nat -> zlen pre <= numv ->
  scan_mounts lines bufp (loaded pre) =
    if zlen (pre ++ read_volumes lines bufp) <=? numv then Done (loaded (pre ++ read_volumes lines bufp)) else Undef.
Proof.
  revert bufp pre. induction lines as [|lines IH]; intros bufp pre Hl Hp; (destruct bufp as [|c bufp];
    [cbn [scan_mounts read_volumes]; by rewrite app_nil_r, (proj2 (Z.leb_le _ _))|]); [cbn in Hl; lia|].
  cbn [scan_mounts read_volumes]. pose proof (eat_mount_line_shorter c bufp) as Hshort. cbn [length] in Hl.
  destruct (sscanf_mount (c :: bufp)) as [v|]; cbn [mbind]; [|by apply IH; [lia|]].
  rewrite add_volume_loaded. destruct (Z.ltb_spec (zlen pre) numv) as [H|H]; cbn [mbind].
  - etrans; [apply IH; [lia|rewrite length_app; cbn; lia]|]. by rewrite <- app_assoc.
  - rewrite length_app. cbn [length]. by rewrite (proj2 (Z.leb_gt _ _)) by lia.
Qed.

Lemma scan_inv ok text g : mounts_inv g -> (volumes g = None -> ok = true) ->
  scan_mounted_volumes ok (Some text) g = if zlen (volumes_of text) <=? numv then Done (0, loaded (volumes_of text)) else Undef.
Proof.
  intros Hg Hok. unfold scan_mounted_volumes. assert (bool_decide (volumes g = None) && negb ok = false) as ->.
  { case_bool_decide as Hn; [|done]. by rewrite (Hok Hn). }
  rewrite (reset_volumes_inv _ Hg). cbv zeta. rewrite scan_mounts_reads by done. cbn [app].
  change (read_volumes _ _) with (volumes_of text). by destruct (_ <=? _).
Qed.

Lemma unmount_inv g umount i : mounts_inv g -> mounts_inv (unmount_mounted_volume umount i g).2.
Proof.
  intros Hg. unfold unmount_mounted_volume. destruct (_ =? 0); [|done]. cbn [snd]. unfold mounts_inv in *. cbn [volumes volumes_allocd volume_count].
  destruct (volumes g) as [a|] eqn:Ea; cbn [fmap option_fmap option_map]; [|rewrite Hg in *; done].
  destruct Hg as (Hc & Ha & Hn & Hd). rewrite length_alter. split_and!; [done|done|lia|lia|].
  apply Forall_lookup. intros k e He. rewrite lookup_drop, list_lookup_alter in He.
  rewrite Forall_lookup in Hd. specialize (Hd k). rewrite lookup_drop in Hd.
  case_decide; [|by apply Hd]. apply fmap_Some in He as (? & _ & ->). done.
Qed.

Inductive mounts_op :=
  | OpScan (malloc_ok : bool) (proc_mounts : option (list Z))
  | OpUnmount (umount : option (list Z) -> Z) (i : nat).

Definition mounts_do (op : mounts_op) (g : MountsState) : outcome MountsState :=
  match op with
  | OpScan ok text => '(_, g) ← scan_mounted_volumes ok text g; Done g
  | OpUnmount umount i => Done (unmount_mounted_volume umount i g).2
  end.

Fixpoint mounts_run (ops : list mounts_op) (g : MountsState) : outcome MountsState :=
  match ops with
  | [] => Done g
  | op :: ops => g ← mounts_do op g; mounts_run ops g
  end.

(** A scan that finds more than there is room for. *)
Definition overfull (op : mounts_op) : Prop :=
  match op with OpScan _ (Some text) => numv < zlen (volumes_of text) | _ => False end.

Lemma mounts_do_inv op g : mounts_inv g ->
  (exists g', mounts_do op g = Done g' /\ mounts_inv g') \/ (mounts_do op g = Undef /\ overfull op).
Proof.
  intros Hg. destruct op as [ok text|umount i]; cbn [mounts_do]; [|left; eexists; split; [done|]; by apply unmount_inv].
  destruct (bool_decide (volumes g = None) && negb ok) eqn:E.
  { left. exists g. split; [|done]. unfold scan_mounted_volumes. by rewrite E. }
  destruct text as [text|].
  2: { left. unfold scan_mounted_volumes. rewrite E, (reset_volumes_inv _ Hg). eexists. split; [done|]. by apply loaded_inv. }
  rewrite scan_inv; [|done|].
  2: { intros Hn. rewrite (bool_decide_true _ Hn) in E. by destruct ok. }
  destruct (Z.leb_spec (zlen (volumes_of text)) numv); [|by right]. left. eexists. split; [done|]. by apply loaded_inv.
Qed.

Lemma mounts_run_inv ops : forall g, mounts_inv g ->
  (exists g', mounts_run ops g = Done g' /\ mounts_inv g') \/ (mounts_run ops g = Undef /\ Exists overfull ops).
Proof.
  induction ops as [|op ops IH]; intros g Hg; cbn [mounts_run]; [left; by exists g|].
  destruct (mounts_do_inv op g Hg) as [(g' & -> & Hg')|[-> Ho]]; [|right; split; [done|by constructor]].
  destruct (IH g' Hg') as [?|[? ?]]; [by left|right]. split; [done|by constructor].
Qed.

(** [C37] Any sequence of scans of any texts, with any outcome of the allocation,
    and of unmounts of any entries, from the initial state, is carried out with
    the table in its array of 32 entries and nothing behind its count, unless one
    of the texts has more than 32 volumes: only such a scan writes past the array.
    In every table that is reached a scan either leaves exactly the volumes its
    text has, or has more than 32 of them and leaves the array; and a lookup gives
    a visible volume of the name asked for or nothing. *)
Theorem mounts_steps_safe (ops : list mounts_op) :
  (mounts_run ops g_mounts_state = Undef /\ Exists overfull ops) \/
  exists g, mounts_run ops g_mounts_state = Done g /\ mounts_inv g /\
    (forall ok text, (volumes g = None -> ok = true) ->
       scan_mounted_volumes ok (Some text) g = if zlen (volumes_of text) <=? numv then Done (0, loaded (volumes_of text)) else Undef) /\
    (forall name i, find_mounted_volume_by_mount_point name g = Some i ->
       exists v, entry g i = Some v /\ mv_mount_point v = name /\ v ∈ visible g).
Proof.
  destruct (mounts_run_inv ops g_mounts_state) as [(g & E & Hg)|?]; [done| |by left]. right. exists g. split_and!; [done|done| |].
  - intros ok text Hok. by apply scan_inv.
  - intros name i Hi. destruct (found_entry _ _ _ Hi) as (v & Hv & Ht). apply bool_decide_eq_true in Ht.
    exists v. split_and!; [done|done|].
    pose proof (find_mounted_spec (fun v => bool_decide (mv_mount_point v = name)) g) as Hf.
    unfold find_mounted_volume_by_mount_point in Hi. rewrite Hi in Hf. cbn [mbind option_bind] in Hf. rewrite Hv in Hf.
    symmetry in Hf. apply List.find_some in Hf as [Hf _]. by apply list_elem_of_In.
Qed.

(** Both happen. *)
Example mounts_run_examples :
  mounts_run [OpScan true (Some (mounts_text [sample_volume 97])); OpUnmount (fun _ => 0) 0; OpScan true None] g_mounts_state = Done (loaded []) /\
  mounts_run [OpScan true (Some (mounts_text (replicate 33 (sample_volume 97))))] g_mounts_state = Undef.
Proof. split; vm_compute; reflexivity. Qed.
