(* ===== verification/Calls.v ===== *)
(** * Programs that run external commands

    Mounting and formatting is done by the kernel, the shell, the volume daemon
    and the formatting tools.  A program that uses them is the tree of the calls
    it makes, one branch for each answer: theorems about it hold whatever is
    answered, and a handler turns it into a program that acts on a disk. *)
From S2P Require Import Prelude.
From S2P Require Import Run.

Inductive call :=
  (** What /proc/mounts holds, when it can be read; whether [malloc] succeeds. *)
  | CProcMounts
  | CMalloc
  (** System calls; paths and names as their bytes. *)
  | CMount (device target fs : list Z)
  | CUmount (target : option (list Z))
  | CRemountReadOnly (device target fs : option (list Z))
  | CMkdir (path : list Z) (mode : Z)
  | CRmdir (path : list Z)
  | CSymlink (target path : list Z)
  | CStat (path : list Z)
  | CLstat (path : list Z)
  | CAccess (path : list Z)
  | CWriteFile (path data : list Z)
  (** [__system]. *)
  | CSystem (command : list Z)
  (** The volume daemon: mount, unmount with force, format, format as, state. *)
  | CVoldMount (path : list Z)
  | CVoldUnmount (path : list Z) (force : Z)
  | CVoldFormat (path : list Z)
  | CVoldFormatAs (path fs : list Z)
  | CVoldAvailable (path : list Z)
  (** Flash: find a partition by name, mount it, open it for writing, erase all
      of it, close it. *)
  | CMtdFind (name : list Z)
  | CMtdMount (name target fs : list Z)
  | CMtdOpen (name : list Z)
  | CMtdErase (name : list Z)
  | CMtdClose (name : list Z)
  (** Formatting tools and raw partitions. *)
  | CMakeExt4 (device : list Z) (length : Z) (target : list Z)
  | CMakeF2fs (device : list Z)
  | CFormatExt2 (device : list Z)
  | CFormatExt3 (device : list Z)
  | CFormatRfs (device target : list Z)
  | CRaw (op : list Z) (flash : Z) (args : list (list Z))
  (** Backups: a program on a pipe, what it prints, and its exit status; a file
      that is read, a property, the time as text; the checksums of a backup;
      other calls by their names. *)
  | CPopen (command : list Z)
  | CPclose (command : list Z)
  | CReadFile (path : list Z)
  | CProperty (name : list Z)
  | CLocalTime
  | CMd5Gen (path : list Z)
  | CMd5Check (path : list Z) (flags : Z)
  | COther (name : list Z) (args : list (list Z)).

#[export] Instance call_eq_dec : EqDecision call.
Proof. solve_decision. Defined.

Definition answer (c : call) : Type :=
  match c with CProcMounts | CPopen _ | CReadFile _ | CProperty _ | CLocalTime => option (list Z) | _ => Z end.

(** A run returns, does something undefined, or never ends. *)
Inductive prog (A : Type) : Type :=
  | Ret (a : A)
  | Undefined
  | Loop
  | Call (c : call) (k : answer c -> prog A).
Arguments Ret {A} a.
Arguments Undefined {A}.
Arguments Loop {A}.
Arguments Call {A} c k.

Fixpoint pbind {A B} (p : prog A) (f : A -> prog B) : prog B :=
  match p with
  | Ret a => f a
  | Undefined => Undefined
  | Loop => Loop
  | Call c k => Call c (fun r => pbind (k r) f)
  end.

(** ** Programs with global variables *)

Section State.
  Context {S : Type}.

Definition M (A : Type) : Type := S -> prog (A * S).

Definition mret {A} (a : A) : M A := fun g => Ret (a, g).
Definition mbind_ {A B} (m : M A) (f : A -> M B) : M B := fun g => pbind (m g) (fun '(a, g) => f a g).
Definition invoke (c : call) : M (answer c) := fun g => Call c (fun r => Ret (r, g)).
Definition getg : M S := fun g => Ret (g, g).
Definition putg (g : S) : M unit := fun _ => Ret (tt, g).
Definition moutcome {A} (o : outcome A) : M A := fun g =>
  match o with Done a => Ret (a, g) | Diverge => Loop | _ => Undefined end.
End State.
Arguments M : clear implicits.

Notation "'let*' x := m 'in' k" := (mbind_ m (fun x => k)) (at level 10, x pattern, m at level 100, k at level 200).

(** ** What a program avoids

    No run makes a call in [bad], whatever is answered, and what it returns is in
    [Q]. *)
Fixpoint avoids {A} (bad : call -> bool) (p : prog A) (Q : A -> Prop) : Prop :=
  match p with
  | Ret a => Q a
  | Undefined | Loop => True
  | Call c k => bad c = false /\ forall r, avoids bad (k r) Q
  end.

Lemma avoids_bind {A B} bad (p : prog A) (f : A -> prog B) Q :
  avoids bad p (fun a => avoids bad (f a) Q) -> avoids bad (pbind p f) Q.
Proof. induction p as [a| | |c k IH]; cbn; [auto|done|done|]. intros [Hc Hk]. split; [done|]. intros r. by apply IH. Qed.

Lemma avoids_mono {A} bad (p : prog A) (Q R : A -> Prop) :
  avoids bad p Q -> (forall a, Q a -> R a) -> avoids bad p R.
Proof. intros Hp HQ. induction p as [a| | |c k IH]; cbn in *; [auto|done|done|]. destruct Hp as [Hc Hk]. auto. Qed.

(** The calls a run makes and what is answered, and its result; [None] when it
    does not return. *)
Abbreviation event := (sigT answer).
Abbreviation answered c r := (existT (P := answer) c r).

Inductive runs {A} : prog A -> list event -> option A -> Prop :=
  | runs_ret a : runs (Ret a) [] (Some a)
  | runs_undefined : runs Undefined [] None
  | runs_loop : runs Loop [] None
  | runs_call c k r h x : runs (k r) h x -> runs (Call c k) (answered c r :: h) x.

(** After any calls [h], a run of [p] makes only calls that are [ok], and what it
    returns is in [Q]. *)
Fixpoint always {A} (ok : list event -> call -> Prop) (Q : list event -> A -> Prop) (h : list event) (p : prog A) : Prop :=
  match p with
  | Ret a => Q h a
  | Undefined | Loop => True
  | Call c k => ok h c /\ forall r, always ok Q (h ++ [answered c r]) (k r)
  end.

Lemma always_bind {A B} ok (p : prog A) (f : A -> prog B) Q : forall h,
  always ok (fun h a => always ok Q h (f a)) h p -> always ok Q h (pbind p f).
Proof. induction p as [a| | |c k IH]; intros h; cbn; [auto|done|done|]. intros [Hc Hk]. split; [done|]. intros r. by apply IH. Qed.

Lemma always_mono {A} (ok ok' : list event -> call -> Prop) (Q Q' : list event -> A -> Prop) (p : prog A) : forall h,
  (forall h c, ok h c -> ok' h c) -> (forall h a, Q h a -> Q' h a) -> always ok Q h p -> always ok' Q' h p.
Proof. induction p as [a| | |c k IH]; intros h H1 H2; cbn; [auto|done|done|]. intros [Hc Hk]. split; [auto|]. intros r. by apply IH. Qed.

(** What it means for the runs. *)
Lemma always_runs {A} ok (Q : list event -> A -> Prop) (p : prog A) h0 h x : always ok Q h0 p -> runs p h x ->
  (forall h1 c r h2, h = h1 ++ answered c r :: h2 -> ok (h0 ++ h1) c) /\ (forall a, x = Some a -> Q (h0 ++ h) a).
Proof.
  intros Hp Hr. revert h0 Hp. induction Hr as [a| | |c k r h x Hr IH]; intros h0 Hp; cbn in Hp.
  - split; [by intros [|? h1] c r h2 E|]. intros b [= <-]. by rewrite app_nil_r.
  - split; [by intros [|? h1] c r h2 E|done].
  - split; [by intros [|? h1] c r h2 E|done].
  - destruct Hp as [Hc Hk]. destruct (IH _ (Hk r)) as [H1 H2]. split.
    + intros [|e h1] c' r' h2 E; [injection E as <- _ _; by rewrite app_nil_r|]. injection E as <- E.
      specialize (H1 _ _ _ _ E). by rewrite <- app_assoc in H1.
    + intros a E. specialize (H2 a E). by rewrite <- app_assoc in H2.
Qed.

(** The calls of the run with the answers [f], and its result. *)
Fixpoint calls_of {A} (f : forall c : call, answer c) (p : prog A) : list call * option A :=
  match p with
  | Ret a => ([], Some a)
  | Undefined | Loop => ([], None)
  | Call c k => let '(l, r) := calls_of f (k (f c)) in (c :: l, r)
  end.

(** The run with the answers [f]. *)
Fixpoint run_with {A} (f : forall c : call, answer c) (p : prog A) : list event * option A :=
  match p with
  | Ret a => ([], Some a)
  | Undefined | Loop => ([], None)
  | Call c k => let '(h, x) := run_with f (k (f c)) in (answered c (f c) :: h, x)
  end.

Lemma runs_with {A} f (p : prog A) : runs p (run_with f p).1 (run_with f p).2.
Proof.
  induction p as [a| | |c k IH]; cbn; [constructor..|]. specialize (IH (f c)). destruct (run_with f (k (f c))) as [h x]. by constructor.
Qed.

(** ** Runs against an environment

    [env s c r s']: in state [s] the environment may answer [r] to [c] and go on
    in [s'].  [holds s p Q]: every run of [p] from [s] returns, with [Q]. *)
Section Env.
  Context {E : Type} (env : E -> forall c : call, answer c -> E -> Prop).

Fixpoint holds {A} (s : E) (p : prog A) (Q : A -> E -> Prop) : Prop :=
  match p with
  | Ret a => Q a s
  | Undefined | Loop => False
  | Call c k => forall r s', env s c r s' -> holds s' (k r) Q
  end.

Lemma holds_bind {A B} s (p : prog A) (f : A -> prog B) Q :
  holds s p (fun a s' => holds s' (f a) Q) -> holds s (pbind p f) Q.
Proof. revert s. induction p as [a| | |c k IH]; cbn; auto. Qed.

Lemma holds_mono {A} s (p : prog A) (Q R : A -> E -> Prop) :
  holds s p Q -> (forall a s', Q a s' -> R a s') -> holds s p R.
Proof. intros H HQ. revert s H. induction p as [a| | |c k IH]; cbn; auto. Qed.

End Env.

(** ** Acting on a disk *)

Section Handler.
  Context {Disk Dev : Type} (handle : forall c : call, W Disk Dev (answer c)).

Fixpoint perform {A} (p : prog A) : W Disk Dev A :=
  match p with
  | Ret a => wret a
  | Undefined => wlift Undef
  | Loop => wlift Diverge
  | Call c k => let! r := handle c in perform (k r)
  end.

Lemma perform_bind {A B} (p : prog A) (f : A -> prog B) w :
  perform (pbind p f) w = wbind (perform p) (fun a => perform (f a)) w.
Proof.
  revert w. induction p as [a| | |c k IH]; intros w; [done..|].
  cbn [pbind perform]. unfold wbind in *. destruct (handle c w) as [[r|?| |] w1]; [apply IH|done..].
Qed.
End Handler.
