(* ===== verification/Roots.v ===== *)
(** * Volumes and where they are mounted ([roots.c])

    The volume table, the storage paths, and mounting and unmounting the volume
    of a path.  Messages are left out; the table of a board that defines
    [BOARD_NATIVE_DUALBOOT_SINGLEDATA] is not the one modelled. *)
From S2P Require Import Prelude.
From S2P Require Import Cbuf.
From S2P Require Import Posix.
From S2P Require Import Bootloader.
From S2P Require Import Calls.
From S2P Require Import Mounts.

(** The library that reads /etc/recovery.fstab: the file's lines, a table with a
    line more, and the line for a path. *)
Class FsMgr := {
  fs_mgr_read_fstab : option (list Volume);
  fs_mgr_add_entry : list Volume -> string -> string -> string -> option (list Volume);
  fs_mgr_get_entry_for_mount_point : list Volume -> list Z -> option Volume
}.

(** The global variables of [roots.c], [mounts.c] and [flashutils.c]. *)
Record Globals := mkGlobals {
  fstab : option (list Volume);
  mounts_state : MountsState;
  primary_storage_path : option (list Z);
  android_secure_path : option (list Z);
  data_media_preserved_state : Z;
  the_flash_type : Z
}.

Definition initial_globals : Globals := mkGlobals None g_mounts_state None None 1 0.

Definition with_fstab (t : option (list Volume)) (g : Globals) : Globals :=
  mkGlobals t (mounts_state g) (primary_storage_path g) (android_secure_path g) (data_media_preserved_state g) (the_flash_type g).
Definition with_mounts (m : MountsState) (g : Globals) : Globals :=
  mkGlobals (fstab g) m (primary_storage_path g) (android_secure_path g) (data_media_preserved_state g) (the_flash_type g).
Definition with_primary (p : list Z) (g : Globals) : Globals :=
  mkGlobals (fstab g) (mounts_state g) (Some p) (android_secure_path g) (data_media_preserved_state g) (the_flash_type g).
Definition with_secure (p : list Z) (g : Globals) : Globals :=
  mkGlobals (fstab g) (mounts_state g) (primary_storage_path g) (Some p) (data_media_preserved_state g) (the_flash_type g).

Abbreviation G := (M Globals).

(** A null pointer is followed. *)
Definition undefined {A} : G A := fun _ => Undefined.
Definition deref {A} (p : option A) : G A := match p with Some a => mret a | None => undefined end.

(** [sprintf] into a buffer of [PATH_MAX] bytes. *)
Definition sprintf_path (s : list Z) : G (list Z) := if PATH_MAX <=? zlen s then undefined else mret s.

Definition starts_with (p s : list Z) : bool := bool_decide (take (length p) s = p).

(** What [vold] answers when a command succeeded. *)
Class VoldCodes := CommandOkay : Z.
Definition vold_result `{VoldCodes} (code : Z) : Z := if code =? CommandOkay then 0 else -1.

Section Roots.
  Context `{FsMgr} `{VoldCodes}.

(** ** The volume table *)

Definition get_device_volumes : G (list Volume) := let* g := getg in deref (fstab g).
Definition get_num_volumes : G Z := let* l := get_device_volumes in mret (zlen l).

(** The mount point of a vold-managed volume that has "auto". *)
Definition auto_mount_point (v : Volume) : G Volume :=
  if voldmanaged v && String.eqb (mount_point v) "auto" then
    let* label := deref (vol_label v) in
    mret (mkVolume (String.substring 0 4095 (String.append "/storage/" label)) (fs_type v) (blk_device v) (fs_options v) (fs_type2 v)
      (fs_options2 v) (blk_device2 v) (vol_length v) (voldmanaged v) (vol_label v))
  else mret v.

Fixpoint auto_mount_points (l : list Volume) : G (list Volume) :=
  match l with
  | [] => mret []
  | v :: l => let* v := auto_mount_point v in let* l := auto_mount_points l in mret (v :: l)
  end.

Definition load_volume_table : G unit :=
  let* g := getg in
  match fs_mgr_read_fstab with
  | None => putg (with_fstab None g)
  | Some t =>
      match fs_mgr_add_entry t "/tmp" "ramdisk" "ramdisk" with
      | None => putg (with_fstab None g)
      | Some t => let* t := auto_mount_points t in putg (with_fstab (Some t) g)
      end
  end.

(** Without a table there is no volume. *)
Definition volume_for_path (path : list Z) : G (option Volume) :=
  let* g := getg in mret (t ← fstab g; fs_mgr_get_entry_for_mount_point t path).

Definition is_primary_storage_voldmanaged : G bool :=
  let* v := volume_for_path (str "/storage/sdcard0") in
  let* v := deref v in
  mret (voldmanaged v).

(** ** Storage paths *)

Definition get_primary_storage_path : G (list Z) :=
  let* g := getg in
  match primary_storage_path g with
  | Some p => mret p
  | None =>
      let* v := volume_for_path (str "/storage/sdcard0") in
      let p := match v with Some _ => str "/storage/sdcard0" | None => str "/sdcard" end in
      let* g := getg in
      let* _ := putg (with_primary p g) in
      mret p
  end.

(** The test for extra storage. *)
Definition is_extra_volume (v : Volume) : G bool :=
  if String.eqb "/external_sd" (mount_point v) then mret true
  else
    let* primary := get_primary_storage_path in
    if negb (bool_decide (primary = str (mount_point v))) && voldmanaged v then
      let* r := invoke (CVoldAvailable (str (mount_point v))) in
      mret (negb (r =? 0))
    else mret false.

Fixpoint count_extra (l : list Volume) : G Z :=
  match l with
  | [] => mret 0
  | v :: l =>
      let* b := is_extra_volume v in
      let* n := count_extra l in
      mret (if b : bool then n + 1 else n)
  end.

Definition get_num_extra_volumes : G Z := let* l := get_device_volumes in count_extra l.

Definition MAX_NUM_MANAGED_VOLUMES : Z := 10.

(** [paths[j] = v->mount_point] for every extra volume. *)
Fixpoint extra_paths (l : list Volume) (paths : list (list Z)) : G (list (list Z)) :=
  match l with
  | [] => mret paths
  | v :: l =>
      let* b := is_extra_volume v in
      if b : bool then
        if zlen paths <? MAX_NUM_MANAGED_VOLUMES then extra_paths l (paths ++ [str (mount_point v)]) else undefined
      else extra_paths l paths
  end.

(** [None] is NULL, else the paths in front of the terminating NULL. *)
Definition get_extra_storage_paths : G (option (list (list Z))) :=
  let* num_extra_volumes := get_num_extra_volumes in
  if num_extra_volumes =? 0 then mret None
  else
    let* l := get_device_volumes in
    let* paths := extra_paths l [] in
    if zlen paths <? MAX_NUM_MANAGED_VOLUMES then mret (Some paths) else undefined.

Definition get_android_secure_path : G (list Z) :=
  let* g := getg in
  match android_secure_path g with
  | Some p => mret p
  | None =>
      let* primary := get_primary_storage_path in
      let p := primary ++ str "/.android_secure" in
      let* g := getg in
      let* _ := putg (with_secure p g) in
      mret p
  end.

(** ** /data/media *)

Fixpoint data_media_in (l : list Volume) (has_sdcard : bool) : bool :=
  match l with
  | [] => negb has_sdcard
  | vol :: l =>
      if String.eqb (fs_type vol) "datamedia" then true
      else data_media_in l (has_sdcard || String.eqb (mount_point vol) "/sdcard" ||
             (voldmanaged vol && String.eqb (mount_point vol) "/storage/sdcard0"))
  end.

Definition is_data_media : G bool := let* l := get_device_volumes in mret (data_media_in l false).

Definition data_media_mount_point (l : list Volume) : list Z :=
  match List.find (fun vol => String.eqb (fs_type vol) "datamedia") l with
  | Some vol => str (mount_point vol)
  | None => str "/sdcard"
  end.

Definition setup_data_media : G unit :=
  let* l := get_device_volumes in
  let mount_point := data_media_mount_point l in
  let* _ := invoke (CRmdir mount_point) in
  let* _ := invoke (CMkdir (str "/data/media") 493) in
  let* _ := invoke (CSymlink (str "/data/media") mount_point) in
  mret tt.

Definition is_data_media_volume_path (path : list Z) : G bool :=
  let* v := volume_for_path path in
  match v with
  | Some v => mret (String.eqb (fs_type v) "datamedia")
  | None =>
      let* m := is_data_media in
      mret (m && (bool_decide (path = str "/sdcard") || starts_with (str "/sdcard/") path))
  end.

Definition preserve_data_media (val : Z) : G unit :=
  let* g := getg in
  putg (mkGlobals (fstab g) (mounts_state g) (primary_storage_path g) (android_secure_path g) val (the_flash_type g)).

Definition is_data_media_preserved : G Z := let* g := getg in mret (data_media_preserved_state g).

Definition setup_legacy_storage_paths : G unit :=
  let* primary_path := get_primary_storage_path in
  let* m := is_data_media_volume_path primary_path in
  if m : bool then mret tt
  else
    let* _ := invoke (CRmdir (str "/sdcard")) in
    let* _ := invoke (CSymlink primary_path (str "/sdcard")) in
    mret tt.

(** ** The mount table *)

(** [scan_mounted_volumes] on the global table. *)
Definition scan_mounts_now : G Z :=
  let* g := getg in
  let* ok := if bool_decide (volumes (mounts_state g) = None)
             then let* p := invoke CMalloc in mret (negb (p =? 0)) else mret true in
  let* text := if ok : bool then invoke CProcMounts else mret None in
  let* (r, m) := moutcome (scan_mounted_volumes ok text (mounts_state g)) in
  let* _ := putg (with_mounts m g) in
  mret r.

(** [unmount_mounted_volume] of the entry [mv]. *)
Definition unmount_now (mv : nat) : G Z :=
  let* g := getg in
  let* r := invoke (CUmount (mv_mount_point <$> entry (mounts_state g) mv)) in
  let '(ret, m) := unmount_mounted_volume (fun _ => r) mv (mounts_state g) in
  let* _ := putg (with_mounts m g) in
  mret ret.

(** The pointers of an entry that was zeroed are null. *)
Definition remount_read_only (mv : nat) : G Z :=
  let* g := getg in
  let e := entry (mounts_state g) mv in
  invoke (CRemountReadOnly (mv_device <$> e) (mv_mount_point <$> e) (mv_filesystem <$> e)).

(** ** Mounting *)

Definition try_mount (device mount_point fs_type fs_options : option (list Z)) : G Z :=
  match device, mount_point, fs_type with
  | Some device, Some mount_point, Some fs_type =>
      match fs_options with
      | None => invoke (CMount device mount_point fs_type)
      | Some o =>
          let* cmd := sprintf_path (str "mount -t " ++ fs_type ++ str " -o" ++ o ++ str " " ++ device ++ str " " ++ mount_point) in
          invoke (CSystem cmd)
      end
  | _, _, _ => mret (-1)
  end.

(** The part that mounts [v] by what its file system is. *)
Definition mount_volume (v : Volume) (mount_point : list Z) : G Z :=
  if voldmanaged v then
    let* code := invoke (CVoldMount mount_point) in mret (vold_result code)
  else if String.eqb (fs_type v) "yaffs2" then
    let* partition := invoke (CMtdFind (str (blk_device v))) in
    if partition =? 0 then mret (-1)
    else invoke (CMtdMount (str (blk_device v)) mount_point (str (fs_type v)))
  else if existsb (String.eqb (fs_type v)) ["ext4"; "ext3"; "rfs"; "vfat"]%string then
    let* result := try_mount (Some (str (blk_device v))) (Some mount_point) (Some (str (fs_type v))) (str <$> fs_options v) in
    if result =? 0 then mret 0 else
    let* result := try_mount (Some (str (blk_device v))) (Some mount_point) (str <$> fs_type2 v) (str <$> fs_options2 v) in
    if result =? 0 then mret 0 else
    let* result := try_mount (str <$> blk_device2 v) (Some mount_point) (str <$> fs_type2 v) (str <$> fs_options2 v) in
    mret result
  else
    let* cmd := sprintf_path (str "mount " ++ mount_point) in
    invoke (CSystem cmd).

(** The part behind the test for /data/media. *)
Definition ensure_volume_mounted (path : list Z) (at_ : option (list Z)) : G Z :=
  let* v := volume_for_path path in
  match v with
  | None => mret (-1)
  | Some v =>
      if String.eqb (fs_type v) "ramdisk" then mret 0
      else
        let* result := scan_mounts_now in
        if result <? 0 then mret (-1)
        else
          let mount_point := default (str (mount_point v)) at_ in
          let* g := getg in
          match find_mounted_volume_by_mount_point mount_point (mounts_state g) with
          | Some _ => mret 0
          | None =>
              let* _ := invoke (CMkdir mount_point 493) in
              mount_volume v mount_point
          end
  end.

(** [depth]: how often the function may call itself. *)
Fixpoint ensure_mounted (depth : nat) (path : list Z) (mount_point : option (list Z)) : G Z :=
  let* m := is_data_media_volume_path path in
  if m : bool then
    match depth with
    | O => fun _ => Loop
    | S depth =>
        let* ret := ensure_mounted depth (str "/data") None in
        if negb (ret =? 0) then mret ret
        else
          let* _ := setup_data_media in
          mret 0
    end
  else ensure_volume_mounted path mount_point.

Definition ensure_path_mounted_at_mount_point : list Z -> option (list Z) -> G Z := ensure_mounted 1.
Definition ensure_path_mounted (path : list Z) : G Z := ensure_path_mounted_at_mount_point path None.

(** ** Unmounting *)

Definition ensure_volume_unmounted (path : list Z) : G Z :=
  let* v := volume_for_path path in
  match v with
  | None => mret (-1)
  | Some v =>
      if String.eqb (fs_type v) "ramdisk" then mret (-1)
      else
        let* result := scan_mounts_now in
        if result <? 0 then mret (-1)
        else
          let* g := getg in
          match find_mounted_volume_by_mount_point (str (mount_point v)) (mounts_state g) with
          | None => mret 0
          | Some mv =>
              let* u := volume_for_path (str (mount_point v)) in
              let* u := deref u in
              if voldmanaged u then
                let* code := invoke (CVoldUnmount (str (mount_point v)) 0) in mret (vold_result code)
              else unmount_now mv
          end
  end.

(** [strstr(path, "/data") == path && is_data_media() && is_data_media_preserved()] *)
Definition data_media_kept (path : list Z) : G bool :=
  if starts_with (str "/data") path then
    let* m := is_data_media in
    if m : bool then let* p := is_data_media_preserved in mret (negb (p =? 0)) else mret false
  else mret false.

Fixpoint ensure_unmounted (depth : nat) (path : list Z) : G Z :=
  let* m := is_data_media_volume_path path in
  if m : bool then
    match depth with O => fun _ => Loop | S depth => ensure_unmounted depth (str "/data") end
  else
    let* kept := data_media_kept path in
    if kept : bool then mret 0 else ensure_volume_unmounted path.

Definition ensure_path_unmounted : list Z -> G Z := ensure_unmounted 1.

End Roots.
