(* ===== verification/Formats.v ===== *)
(** * Formatting volumes ([roots.c], [extendedcommands.c], [flashutils.c])

    [format_volume] and what it falls back to, and the dispatch to the kinds of
    flash.  Messages are left out. *)
From S2P Require Import Prelude.
From S2P Require Import Posix.
From S2P Require Import Bootloader.
From S2P Require Import Calls.
From S2P Require Import Mounts.
From S2P Require Import Roots.

(** ** Kinds of flash ([flashutils.c]) *)

Definition UNSUPPORTED : Z := -1.
Definition UNKNOWN : Z := 0.
Definition MTD : Z := 1.
Definition MMC : Z := 2.
Definition BML : Z := 3.

(** [strstr(s, p) != NULL]. *)
Fixpoint contains (p s : list Z) : bool :=
  starts_with p s || match s with [] => false | _ :: s => contains p s end.

Definition get_flash_type (partitionType : list Z) : Z :=
  if bool_decide (partitionType = str "mtd") then MTD
  else if bool_decide (partitionType = str "emmc") then MMC
  else if bool_decide (partitionType = str "bml") then BML
  else UNSUPPORTED.

Section Formats.
  Context `{FsMgr} `{VoldCodes}.
  (** BOARD_BML_BOOT; whether the build defines USE_F2FS. *)
  Context (BOARD_BML_BOOT : list Z) (use_f2fs : bool).

Definition device_flash_type : G Z :=
  let* g := getg in
  let* t := if the_flash_type g =? UNKNOWN then
      let* a := invoke (CAccess BOARD_BML_BOOT) in
      if a =? 0 then mret BML else
      let* a := invoke (CAccess (str "/proc/emmc")) in
      if a =? 0 then mret MMC else
      let* a := invoke (CAccess (str "/proc/mtd")) in
      mret (if a =? 0 then MTD else UNSUPPORTED)
    else mret (the_flash_type g) in
  let* _ := putg (mkGlobals (fstab g) (mounts_state g) (primary_storage_path g) (android_secure_path g)
                   (data_media_preserved_state g) t) in
  mret t.

Definition get_default_filesystem : G (list Z) :=
  let* t := device_flash_type in mret (if t =? MMC then str "ext3" else str "yaffs2").

Definition detect_partition (partitionType : option (list Z)) (partition : list Z) : G Z :=
  let* type := device_flash_type in
  let type := if contains (str "/dev/block/mtd") partition then MTD
              else if contains (str "/dev/block/mmc") partition then MMC
              else if contains (str "/dev/block/bml") partition then BML
              else type in
  mret match partitionType with Some p => get_flash_type p | None => type end.

(** The command of a kind of flash: [cmd_mtd_op], [cmd_mmc_op] or [cmd_bml_op]. *)
Definition flash_command (op : list Z) (type : Z) (args : list (list Z)) : G Z :=
  if (type =? MTD) || (type =? MMC) || (type =? BML) then invoke (CRaw op type args) else mret (-1).

Definition restore_raw_partition (partitionType : option (list Z)) (partition filename : list Z) : G Z :=
  let* type := detect_partition partitionType partition in
  flash_command (str "restore_raw_partition") type [partition; filename].
Definition backup_raw_partition (partitionType : option (list Z)) (partition filename : list Z) : G Z :=
  let* type := detect_partition partitionType partition in
  flash_command (str "backup_raw_partition") type [partition; filename].
Definition erase_raw_partition (partitionType : option (list Z)) (partition : list Z) : G Z :=
  let* type := detect_partition partitionType partition in
  flash_command (str "erase_raw_partition") type [partition].
Definition erase_partition (partition filesystem : list Z) : G Z :=
  let* type := detect_partition None partition in
  flash_command (str "erase_partition") type [partition; filesystem].
Definition mount_partition (partition mount_point filesystem : list Z) (read_only : Z) : G Z :=
  let* type := detect_partition None partition in
  flash_command (str "mount_partition") type [partition; mount_point; filesystem; [read_only]].
(** The device name it finds is written by the command. *)
Definition get_partition_device (partition : list Z) : G Z :=
  let* type := device_flash_type in
  flash_command (str "get_partition_device") type [partition].

(** ** [format_unknown_device] *)

Definition RM_DATA : list Z := str "cd /data ; for f in $(ls -a | grep -v ^media$); do rm -rf $f; done".

(** The part that removes the files. *)
Definition remove_files (path : list Z) : G unit :=
  if bool_decide (path = str "/data") then
    let* _ := invoke (CSystem RM_DATA) in
    let* st := invoke (CLstat (str "/data/media/0")) in
    if st =? 0 then let* _ := invoke (CWriteFile (str "/data/.layout_version") [50; 0]) in mret tt
    else mret tt
  else
    let* tmp := sprintf_path (str "rm -rf " ++ path ++ str "/*") in
    let* _ := invoke (CSystem tmp) in
    let* tmp := sprintf_path (str "rm -rf " ++ path ++ str "/.*") in
    let* _ := invoke (CSystem tmp) in
    mret tt.

(** The part behind the tests for file systems that are made anew. *)
Definition format_by_removing (path : list Z) : G Z :=
  let* m := ensure_path_mounted path in
  if negb (m =? 0) then mret 0
  else
    let* _ := remove_files path in
    let* _ := ensure_path_unmounted path in
    mret 0.

Definition format_unmounted (path : list Z) (format : G Z) : G Z :=
  let* u := ensure_path_unmounted path in
  if negb (u =? 0) then mret (-12) else format.

(** Whether /sd-ext has a device. *)
Definition sd_ext_missing (path : list Z) : G bool :=
  if bool_decide (path = str "/sd-ext") then
    let* vol := volume_for_path (str "/sd-ext") in
    match vol with
    | None => mret true
    | Some vol => let* st := invoke (CStat (str (blk_device vol))) in mret (negb (st =? 0))
    end
  else mret false.

Definition format_unknown_device (device : option (list Z)) (path : list Z) (fs_type : option (list Z)) : G Z :=
  if match fs_type with Some t => negb (get_flash_type t =? UNSUPPORTED) | None => false end then
    let* device := deref device in erase_raw_partition fs_type device
  else
    let* missing := sd_ext_missing path in
    if missing : bool then mret 0
    else if bool_decide (fs_type = Some (str "ext3")) then
      format_unmounted path (let* device := deref device in invoke (CFormatExt3 device))
    else if bool_decide (fs_type = Some (str "ext2")) then
      format_unmounted path (let* device := deref device in invoke (CFormatExt2 device))
    else format_by_removing path.

(** ** [format_volume] and [format_device] *)

(** Erasing the flash partition [name]. *)
Definition format_mtd (name : list Z) : G Z :=
  let* partition := invoke (CMtdFind name) in
  if partition =? 0 then mret (-1) else
  let* write := invoke (CMtdOpen name) in
  if write =? 0 then mret (-1) else
  let* e := invoke (CMtdErase name) in
  if e =? -1 then let* _ := invoke (CMtdClose name) in mret (-1) else
  let* c := invoke (CMtdClose name) in
  if negb (c =? 0) then mret (-1) else mret 0.

(** The result of a tool: 0, or -1 for any other. *)
Definition made (m : G Z) : G Z := let* r := m in if negb (r =? 0) then mret (-1) else mret 0.

(** The part of [format_volume] behind the test for /data/media. *)
Definition format_table_volume (volume : list Z) : G Z :=
  let* v := volume_for_path volume in
  match v with
  | None => mret (-1)
  | Some v =>
      let* st := if bool_decide (volume = str "/sd-ext") then invoke (CStat (str (blk_device v))) else mret 0 in
      if negb (st =? 0) then mret (-1)
      else if voldmanaged v && bool_decide (volume = str (mount_point v)) then
        let* _ := ensure_path_unmounted volume in
        let* code := if String.eqb (Bootloader.fs_type v) "auto" then invoke (CVoldFormat (str (mount_point v)))
                     else invoke (CVoldFormatAs (str (mount_point v)) (str (Bootloader.fs_type v))) in
        mret (vold_result code)
      else if String.eqb (Bootloader.fs_type v) "ramdisk" then mret (-1)
      else if negb (bool_decide (str (mount_point v) = volume)) then
        format_unknown_device (Some (str (blk_device v))) volume None
      else
        let* u := ensure_path_unmounted volume in
        if negb (u =? 0) then mret (-1)
        else if String.eqb (Bootloader.fs_type v) "yaffs2" || String.eqb (Bootloader.fs_type v) "mtd" then format_mtd (str (blk_device v))
        else if String.eqb (Bootloader.fs_type v) "ext4" then made (invoke (CMakeExt4 (str (blk_device v)) (vol_length v) volume))
        else if use_f2fs && String.eqb (Bootloader.fs_type v) "f2fs" then made (invoke (CMakeF2fs (str (blk_device v))))
        else format_unknown_device (Some (str (blk_device v))) volume (Some (str (Bootloader.fs_type v)))
  end.

Definition format_volume (volume : list Z) : G Z :=
  let* m := is_data_media_volume_path volume in
  if m : bool then format_unknown_device None volume None
  else
    let* kept := data_media_kept volume in
    if kept : bool then format_unknown_device None volume None else format_table_volume volume.

(** The same for a device and a file system of the caller's choice. *)
Definition format_table_device (device path fs_type : list Z) : G Z :=
  let* v := volume_for_path path in
  match v with
  | None => mret (-1)
  | Some v =>
      if bool_decide (fs_type = str "ramdisk") then mret (-1)
      else if bool_decide (fs_type = str "rfs") then
        let* u := ensure_path_unmounted path in
        if negb (u =? 0) then mret (-1) else made (invoke (CFormatRfs device path))
      else if negb (bool_decide (str (mount_point v) = path)) then
        format_unknown_device (Some (str (blk_device v))) path None
      else
        let* u := ensure_path_unmounted path in
        if negb (u =? 0) then mret (-1)
        else if bool_decide (fs_type = str "yaffs2") || bool_decide (fs_type = str "mtd") then format_mtd device
        else if bool_decide (fs_type = str "ext4") then
          let length := if String.eqb (Bootloader.fs_type v) "ext4" then swrap 32 (vol_length v) else 0 in
          made (invoke (CMakeExt4 device length (str (mount_point v))))
        else if use_f2fs && bool_decide (fs_type = str "f2fs") then made (invoke (CMakeF2fs (str (blk_device v))))
        else format_unknown_device (Some device) path (Some fs_type)
  end.

Definition format_device (device path fs_type : list Z) : G Z :=
  let* m := is_data_media_volume_path path in
  if m : bool then format_unknown_device None path None
  else
    let* kept := if starts_with (str "/data") path then is_data_media else mret false in
    if kept : bool then format_unknown_device None path None else format_table_device device path fs_type.

End Formats.
