(* ===== verification/RootsFacts.v ===== *)
(** * What mounting and unmounting promise ([roots.c])

    Against an environment in which the kernel, the shell and the volume daemon
    do what they are documented to do, [ensure_path_mounted] and
    [ensure_path_unmounted] return, and a result of 0 means what [roots.h] says. *)
From S2P Require Import Prelude.
From S2P Require Import Cbuf.
From S2P Require Import Posix.
From S2P Require Import Bootloader.
From S2P Require Import Calls.
From S2P Require Import Mounts.
From S2P Require Import Roots.

(** Characters that the shell takes as they are. *)
Definition shell_char (c : Z) : bool :=
  ((48 <=? c) && (c <=? 57)) || ((65 <=? c) && (c <=? 90)) || ((97 <=? c) && (c <=? 122)) ||
  is_one_of [47; 95; 46; 44; 61; 45; 58] c.
Definition shell_word (s : list Z) : Prop := s <> [] /\ Forall (fun c => shell_char c = true) s.
Definition absolute (s : list Z) : Prop := head s = Some SLASH /\ shell_word s.

#[export] Instance shell_word_dec s : Decision (shell_word s).
Proof. unfold shell_word. apply _. Defined.
#[export] Instance absolute_dec s : Decision (absolute s).
Proof. unfold absolute. apply _. Defined.

(** What the environment is documented to do, in terms of the kernel's table of
    mounts. *)
Class MountEnv `{VoldCodes} (E : Type) := {
  env : E -> forall c : call, answer c -> E -> Prop;
  table : E -> list MountedVolume;
  mounted (t : list Z) (s : E) : Prop := exists v, v ∈ table s /\ mv_mount_point v = t;
  (** /proc/mounts prints the table; reading and allocating change nothing, and
      neither do directories and links. *)
  env_proc s r s' : env s CProcMounts r s' -> table s' = table s /\ (r = None \/ r = Some (mounts_text (table s)));
  env_malloc s r s' : env s CMalloc r s' -> table s' = table s;
  env_mkdir s p m r s' : env s (CMkdir p m) r s' -> table s' = table s;
  env_rmdir s p r s' : env s (CRmdir p) r s' -> table s' = table s;
  env_symlink s p q r s' : env s (CSymlink p q) r s' -> table s' = table s;
  (** What mounts, by its result; mounting never unmounts. *)
  env_mount s d t f s' : env s (CMount d t f) 0 s' -> mounted t s';
  env_system_mount s t s' : absolute t -> env s (CSystem (str "mount " ++ t)) 0 s' -> mounted t s';
  env_system_mount_opts s f o d t s' : shell_word f -> shell_word o -> shell_word d -> absolute t ->
    env s (CSystem (str "mount -t " ++ f ++ str " -o" ++ o ++ str " " ++ d ++ str " " ++ t)) 0 s' -> mounted t s';
  env_vold_mount s t s' : env s (CVoldMount t) CommandOkay s' -> mounted t s';
  env_mtd_mount s n t f s' : env s (CMtdMount n t f) 0 s' -> mounted t s';
  (** [umount] takes one mount of the mount point away, [vold] every one. *)
  env_umount s t s' : env s (CUmount (Some t)) 0 s' -> exists v, mv_mount_point v = t /\ table s ≡ₚ v :: table s';
  env_vold_unmount s t f s' : env s (CVoldUnmount t f) CommandOkay s' -> ~ mounted t s'
}.

(** A table that a scan can read. *)
Definition readable (l : list MountedVolume) : Prop :=
  Forall wf_mount l /\ zlen (mounts_text l) <= 2047 /\ zlen l <= numv.

(** A line of the volume table whose fields can stand in a command. *)
Definition safe_word (s : list Z) : bool := bool_decide (shell_word s) && (zlen s <=? 1000).
Definition safe_field (o : option string) : bool := match o with Some s => safe_word (str s) | None => true end.
Definition safe_path (s : list Z) : bool := bool_decide (absolute s) && (zlen s <=? 1000).

Definition safe_volume (v : Volume) : bool :=
  safe_path (str (mount_point v)) && safe_word (str (fs_type v)) && safe_word (str (blk_device v)) &&
  safe_field (fs_options v) && safe_field (fs_type2 v) && safe_field (fs_options2 v) && safe_field (blk_device2 v).

Lemma safe_word_spec s : safe_word s = true -> shell_word s /\ zlen s <= 1000.
Proof. unfold safe_word. by rewrite andb_true_iff, bool_decide_eq_true, Z.leb_le. Qed.
Lemma safe_path_spec s : safe_path s = true -> absolute s /\ zlen s <= 1000.
Proof. unfold safe_path. by rewrite andb_true_iff, bool_decide_eq_true, Z.leb_le. Qed.
Lemma safe_field_spec o s : safe_field o = true -> str <$> o = Some s -> safe_word s = true.
Proof. destruct o as [x|]; [|done]. cbn. by intros ? [= <-]. Qed.

Lemma safe_volume_path v : safe_volume v = true -> safe_path (str (mount_point v)) = true.
Proof. unfold safe_volume. rewrite !andb_true_iff. tauto. Qed.

Section Facts.
  Context `{FM : FsMgr} `{VC : VoldCodes} `{ME : !MountEnv E}.

(** Every run of [m] returns with [Q]. *)
Definition ensures {A} (s : E) (g : Globals) (m : G A) (Q : A -> Globals -> E -> Prop) : Prop :=
  holds env s (m g) (fun r s' => Q r.1 r.2 s').

Lemma ens_bind {A B} s g (m : G A) (k : A -> G B) Q :
  ensures s g m (fun a g' s' => ensures s' g' (k a) Q) -> ensures s g (mbind_ m k) Q.
Proof.
  intros H. unfold ensures, mbind_. apply holds_bind. eapply holds_mono; [exact H|]. by intros [a g'] s'.
Qed.

Lemma ens_mono {A} s g (m : G A) (Q R : A -> Globals -> E -> Prop) :
  ensures s g m Q -> (forall a g' s', Q a g' s' -> R a g' s') -> ensures s g m R.
Proof. intros H HQ. eapply holds_mono; [exact H|]. intros [a g'] s' ?. by apply HQ. Qed.

Lemma ens_ret {A} s g (a : A) (Q : A -> Globals -> E -> Prop) : Q a g s -> ensures s g (mret a) Q.
Proof. done. Qed.

Lemma ens_getg s g (Q : Globals -> Globals -> E -> Prop) : Q g g s -> ensures s g getg Q.
Proof. done. Qed.

Lemma ens_putg s g g' (Q : unit -> Globals -> E -> Prop) : Q tt g' s -> ensures s g (putg g') Q.
Proof. done. Qed.

Lemma ens_invoke s g c (Q : answer c -> Globals -> E -> Prop) :
  (forall r s', env s c r s' -> Q r g s') -> ensures s g (invoke c) Q.
Proof. done. Qed.

Ltac ens_step :=
  match goal with
  | |- ensures _ _ (mbind_ _ _) _ => apply ens_bind
  | |- ensures _ _ (mret _) _ => apply ens_ret
  | |- ensures _ _ getg _ => apply ens_getg
  | |- ensures _ _ (putg _) _ => apply ens_putg
  | |- ensures _ _ (invoke _) _ => apply ens_invoke; let r := fresh "r" in let s := fresh "s" in intros r s ?
  | |- ensures _ _ (if ?b then _ else _) _ => destruct b eqn:?
  end.

(** ** The volume of a path *)

Lemma volume_for_path_eq g path :
  volume_for_path path g = Ret (t ← fstab g; fs_mgr_get_entry_for_mount_point t path, g).
Proof. done. Qed.

(** Whether a path is on /data/media, by the table alone. *)
Definition on_data_media (t : list Volume) (path : list Z) : bool :=
  match fs_mgr_get_entry_for_mount_point t path with
  | Some v => String.eqb (fs_type v) "datamedia"
  | None => data_media_in t false && (bool_decide (path = str "/sdcard") || starts_with (str "/sdcard/") path)
  end.

Lemma is_data_media_volume_path_eq g t path : fstab g = Some t ->
  is_data_media_volume_path path g = Ret (on_data_media t path, g).
Proof.
  intros Ht. unfold is_data_media_volume_path, mbind_. rewrite volume_for_path_eq, Ht. cbn [pbind mbind option_bind].
  unfold on_data_media. destruct (fs_mgr_get_entry_for_mount_point t path) as [v|]; [done|].
  unfold is_data_media, get_device_volumes, getg, mbind_. cbn [pbind]. rewrite Ht. done.
Qed.

Lemma ens_data_media s g t path (Q : bool -> Globals -> E -> Prop) : fstab g = Some t ->
  Q (on_data_media t path) g s -> ensures s g (is_data_media_volume_path path) Q.
Proof. intros Ht HQ. unfold ensures. by rewrite (is_data_media_volume_path_eq _ t). Qed.

Lemma ens_volume s g t path (Q : option Volume -> Globals -> E -> Prop) : fstab g = Some t ->
  Q (fs_mgr_get_entry_for_mount_point t path) g s -> ensures s g (volume_for_path path) Q.
Proof. intros Ht HQ. unfold ensures. by rewrite volume_for_path_eq, Ht. Qed.

(** ** Scanning *)

Lemma with_mounts_fstab m g : fstab (with_mounts m g) = fstab g.
Proof. done. Qed.

Lemma scan_readable ok l m : mounts_inv m -> volumes m <> None \/ ok = true -> readable l ->
  scan_mounted_volumes ok (Some (mounts_text l)) m = Done (0, loaded l).
Proof.
  intros Hm Hv (Hl & Ht & Hn). unfold scan_mounted_volumes.
  replace (bool_decide (volumes m = None) && negb ok) with false.
  2: { case_bool_decide; [|done]. by destruct Hv as [?| ->]. }
  rewrite reset_volumes_inv by done. cbv zeta. rewrite take_ge by lia.
  rewrite scan_mounts_text; [|done|by apply length_mounts_text|done]. cbn [app]. by rewrite (proj2 (Z.leb_le _ _)).
Qed.

Lemma scan_none ok m : mounts_inv m ->
  exists m', scan_mounted_volumes ok None m = Done (-1, m') /\ mounts_inv m'.
Proof.
  intros Hm. unfold scan_mounted_volumes. destruct (_ && _); [by exists m|]. rewrite reset_volumes_inv by done.
  exists (loaded []). split; [done|]. by apply loaded_inv.
Qed.

(** After a scan the table is the kernel's, or the result is -1. *)
Lemma ens_scan s g (Q : Z -> Globals -> E -> Prop) :
  mounts_inv (mounts_state g) -> readable (table s) ->
  (forall s', table s' = table s -> Q 0 (with_mounts (loaded (table s)) g) s') ->
  (forall m s', table s' = table s -> mounts_inv m -> Q (-1) (with_mounts m g) s') ->
  ensures s g scan_mounts_now Q.
Proof.
  intros Hm Hr HQ0 HQ1. unfold scan_mounts_now. do 2 ens_step. apply ens_bind.
  eapply ens_mono with (Q := fun (ok : bool) g' s' => g' = g /\ table s' = table s /\ (volumes (mounts_state g) <> None \/ ok = true \/ ok = false)).
  { case_bool_decide as Hv; [do 3 ens_step; cbn; split_and!; [done|by eapply env_malloc|]; right; destruct (negb _); auto|].
    ens_step. auto. }
  cbn beta. intros ok g' s1 (-> & H1 & Hok). apply ens_bind.
  eapply ens_mono with (Q := fun text g' s' => g' = g /\ table s' = table s /\ (text = None \/ ok = true /\ text = Some (mounts_text (table s)))).
  { destruct ok; ens_step; [|by auto]. match goal with H : env _ CProcMounts _ _ |- _ => apply env_proc in H as [H2 H3] end.
    rewrite H1 in *. split_and!; [done|done|]. destruct H3; auto. }
  cbn beta. intros text g' s2 (-> & H2 & Htext). apply ens_bind. destruct Htext as [-> | [-> ->]].
  - destruct (scan_none ok _ Hm) as (m & E0 & Hinv). unfold ensures, moutcome. rewrite E0. cbn. by apply HQ1.
  - unfold ensures, moutcome. rewrite (scan_readable _ _ _ Hm) by auto. cbn. by apply HQ0.
Qed.

Lemma find_loaded_mount t l :
  match find_mounted_volume_by_mount_point t (loaded l) with
  | Some i => exists v, entry (loaded l) i = Some v /\ v ∈ l /\ mv_mount_point v = t
  | None => forall v, v ∈ l -> mv_mount_point v <> t
  end.
Proof.
  pose proof (find_loaded (fun v => bool_decide (mv_mount_point v = t)) l) as Hf.
  unfold find_mounted_volume_by_mount_point. destruct (find_mounted _ _) as [i|] eqn:Ei; cbn [mbind option_bind] in Hf.
  - destruct (found_entry _ _ _ Ei) as (v & Hv & Ht). exists v. rewrite Hv in Hf. symmetry in Hf.
    apply List.find_some in Hf as [Hin _]. apply bool_decide_eq_true in Ht. split_and!; [done|by apply list_elem_of_In|done].
  - intros v Hv Ht. symmetry in Hf. eapply List.find_none in Hf; [|by apply list_elem_of_In]. cbn in Hf.
    apply bool_decide_eq_false in Hf. done.
Qed.

(** ** Mounting *)

(** The globals after mounting or unmounting: the volume table is the same. *)
Definition same_table (g g' : Globals) : Prop := fstab g' = fstab g /\ mounts_inv (mounts_state g').

Lemma ens_sprintf s g c (Q : list Z -> Globals -> E -> Prop) :
  zlen c < PATH_MAX -> Q c g s -> ensures s g (sprintf_path c) Q.
Proof. intros Hc HQ. unfold sprintf_path. rewrite (proj2 (Z.leb_gt _ _)) by done. done. Qed.

(** Mounting through [m] leaves the globals alone, and if it returns 0 then
    [t] is mounted. *)
Definition mounts (t : list Z) (m : G Z) : Prop :=
  forall s g, ensures s g m (fun r g' s' => g' = g /\ (r = 0 -> mounted t s')).

Lemma mounts_try d t f o : safe_path t = true ->
  (forall x, d = Some x -> safe_word x = true) -> (forall x, f = Some x -> safe_word x = true) ->
  (forall x, o = Some x -> safe_word x = true) -> mounts t (try_mount d (Some t) f o).
Proof.
  intros Ht Hd Hf Ho s g. unfold try_mount. apply safe_path_spec in Ht as [Ht Hlt].
  destruct d as [d|], f as [f|]; try (ens_step; split; [done|lia]).
  destruct o as [o|]; [|ens_step; split; [done|]; intros ->; by eapply env_mount].
  destruct (safe_word_spec _ (Hd _ eq_refl)) as [Hd1 Hd2], (safe_word_spec _ (Hf _ eq_refl)) as [Hf1 Hf2],
    (safe_word_spec _ (Ho _ eq_refl)) as [Ho1 Ho2].
  apply ens_bind, ens_sprintf; [repeat rewrite length_app; change PATH_MAX with 4096; cbn [str length]; cbn; lia|].
  ens_step. split; [done|]. intros ->. by eapply (env_system_mount_opts _ f o d t).
Qed.

Lemma mounts_bind t (m : G Z) (k : Z -> G Z) :
  mounts t m -> (forall r, mounts t (k r)) -> mounts t (let* r := m in if r =? 0 then mret 0 else k r).
Proof.
  intros Hm Hk s g. apply ens_bind. eapply ens_mono; [apply Hm|]. cbn beta. intros r g' s' [-> Hr].
  destruct (Z.eqb_spec r 0) as [->|]; [ens_step; auto|apply Hk].
Qed.

Lemma mounts_mount_volume v t : safe_volume v = true -> safe_path t = true -> mounts t (mount_volume v t).
Proof.
  intros Hv Ht. unfold safe_volume in Hv. rewrite !andb_true_iff in Hv.
  destruct Hv as [[[[[[H1 H2] H3] H4] H5] H6] H7]. unfold mount_volume.
  assert (forall x, Some (str (blk_device v)) = Some x -> safe_word x = true) as H8 by (by intros ? [= <-]).
  assert (forall x, Some (str (fs_type v)) = Some x -> safe_word x = true) as H9 by (by intros ? [= <-]).
  destruct (voldmanaged v).
  { intros s g. do 3 ens_step. split; [done|]. unfold vold_result. destruct (Z.eqb_spec r CommandOkay) as [->|]; [|done].
    intros _. by eapply env_vold_mount. }
  destruct (String.eqb (fs_type v) "yaffs2").
  { intros s g. do 3 ens_step; ens_step; (split; [done|]); [done|]. intros ->. by eapply env_mtd_mount. }
  destruct (existsb _ _).
  - apply (mounts_bind t _ (fun _ => _)); [apply mounts_try; eauto using safe_field_spec|intros _].
    apply (mounts_bind t _ (fun _ => _)); [apply mounts_try; eauto using safe_field_spec|intros _].
    intros s g. apply ens_bind. eapply ens_mono; [apply mounts_try; eauto using safe_field_spec|]. by intros r g' s' [-> ?].
  - intros s g. apply safe_path_spec in Ht as [Ht Hl].
    apply ens_bind, ens_sprintf; [rewrite length_app; change PATH_MAX with 4096; cbn; lia|].
    ens_step. split; [done|]. intros ->. by eapply env_system_mount.
Qed.

(** The volume table names mount points that can stand in a command. *)
Definition safe_table (t : list Volume) : Prop :=
  forall path v, fs_mgr_get_entry_for_mount_point t path = Some v -> safe_volume v = true.

(** What a result of 0 means for a path that is not on /data/media. *)
Definition volume_mounted (t : list Volume) (path : list Z) (s : E) : Prop :=
  exists v, fs_mgr_get_entry_for_mount_point t path = Some v /\
    (fs_type v = "ramdisk"%string \/ mounted (str (mount_point v)) s).

Lemma ens_volume_mounted s g t path : fstab g = Some t -> safe_table t ->
  mounts_inv (mounts_state g) -> readable (table s) ->
  ensures s g (ensure_volume_mounted path None) (fun r g' s' => same_table g g' /\
    (r = 0 -> volume_mounted t path s') /\
    (volume_mounted t path s -> table s' = table s)).
Proof.
  intros Ht Hsafe Hm Hr. unfold ensure_volume_mounted. apply ens_bind. eapply ens_volume; [done|].
  unfold volume_mounted, same_table. destruct (fs_mgr_get_entry_for_mount_point t path) as [v|] eqn:Ev.
  2: { ens_step. split_and!; done. }
  destruct (String.eqb_spec (fs_type v) "ramdisk") as [Hf|Hf].
  { ens_step. split_and!; [done|done| |done]. intros _. exists v. auto. }
  apply ens_bind, ens_scan; [done|done| |].
  2: { intros m s' Hs' Hm'. ens_step; [|done]. ens_step. by split_and!. }
  intros s1 H1. change (0 <? 0) with false. cbv iota zeta. cbn [default option_rect]. apply ens_bind, ens_getg.
  cbn [with_mounts mounts_state].
  pose proof (find_loaded_mount (str (mount_point v)) (table s)) as Hfind.
  destruct Hr as (_ & _ & Hn).
  destruct (find_mounted_volume_by_mount_point _ _) as [i|].
  - destruct Hfind as (u & _ & Hu & Hp). ens_step. split_and!; [done|by apply loaded_inv| |done].
    exists v. split; [done|]. right. exists u. by rewrite H1.
  - ens_step. ens_step. apply env_mkdir in H. rewrite H1 in H.
    eapply ens_mono; [apply mounts_mount_volume; eauto using safe_volume_path|].
    cbn beta. intros r' g' s' [-> Hmnt]. split_and!; [done|by apply loaded_inv| |].
    + intros ->. exists v. auto.
    + intros (v' & [= <-] & [?|(u & Hu & Hp)]); [done|]. by destruct (Hfind u).
Qed.

Lemma ens_setup_data_media s g t : fstab g = Some t ->
  ensures s g setup_data_media (fun _ g' s' => g' = g /\ table s' = table s).
Proof.
  intros Ht. unfold setup_data_media. apply ens_bind. unfold get_device_volumes. apply ens_bind, ens_getg. rewrite Ht.
  apply ens_ret. cbv zeta. repeat ens_step. split; [done|].
  repeat match goal with
  | H : env _ (CRmdir _) _ _ |- _ => apply env_rmdir in H
  | H : env _ (CMkdir _ _) _ _ |- _ => apply env_mkdir in H
  | H : env _ (CSymlink _ _) _ _ |- _ => apply env_symlink in H
  end. congruence.
Qed.

(** Where the volume of a path is: on /data for /data/media. *)
Definition home_of (t : list Volume) (path : list Z) : list Z := if on_data_media t path then str "/data" else path.

(** The function calls itself at most once, or for ever: more [depth] changes
    nothing, and if /data itself is on /data/media no depth is enough. *)
Lemma ensure_mounted_depth g t path at_ n : fstab g = Some t -> on_data_media t (str "/data") = false ->
  ensure_mounted (S n) path at_ g = ensure_mounted 1 path at_ g.
Proof.
  intros Ht Hd. cbn [ensure_mounted]. unfold mbind_ at 1 4. rewrite (is_data_media_volume_path_eq g t) by done. cbn [pbind].
  destruct (on_data_media t path); [|done].
  assert (forall k, ensure_mounted k (str "/data") None g = ensure_volume_mounted (str "/data") None g) as Hk.
  { intros k. destruct k; cbn [ensure_mounted]; unfold mbind_ at 1; rewrite (is_data_media_volume_path_eq g t) by done;
      cbn [pbind]; by rewrite Hd. }
  unfold mbind_ at 1 3. rewrite (Hk n). f_equal. unfold mbind_ at 1.
  rewrite (is_data_media_volume_path_eq g t) by done. cbn [pbind]. by rewrite Hd.
Qed.

Lemma ensure_mounted_loops g t path n at_ : fstab g = Some t -> on_data_media t (str "/data") = true ->
  on_data_media t path = true -> ensure_mounted n path at_ g = Loop.
Proof.
  intros Ht Hd. revert path at_. induction n as [|n IH]; intros path at_ Hp; cbn [ensure_mounted]; unfold mbind_ at 1;
    rewrite (is_data_media_volume_path_eq g t) by done; cbn [pbind]; rewrite Hp; [done|].
  unfold mbind_ at 1. by rewrite IH.
Qed.

(** [C17] The contract of [ensure_path_mounted] in [roots.h]. The volume table is
    loaded, its fields are single words of a shell command of at most 1000 bytes,
    /data itself is not of the type datamedia (the code calls itself without end
    if it is), and the kernel's table of mounts has at most 32 lines in 2047 bytes
    with fields of the widths of the format ([readable]: more than these overrun
    the array or are not seen). Then it returns; a result of 0 means that the
    path's volume is the ramdisk or is mounted, /data standing for what is on
    /data/media; and a volume that was mounted is not mounted a second time. *)
Theorem ensure_path_mounted_contract s g t path :
  fstab g = Some t -> safe_table t -> mounts_inv (mounts_state g) -> readable (table s) ->
  on_data_media t (str "/data") = false ->
  ensures s g (ensure_path_mounted path) (fun r g' s' => same_table g g' /\
    (r = 0 -> volume_mounted t (home_of t path) s') /\
    (volume_mounted t (home_of t path) s -> table s' = table s)).
Proof.
  intros Ht Hs Hm Hr Hd. unfold ensure_path_mounted, ensure_path_mounted_at_mount_point, home_of. cbn [ensure_mounted].
  apply ens_bind, (ens_data_media _ _ t); [done|]. destruct (on_data_media t path); [|by apply ens_volume_mounted].
  apply ens_bind, ens_bind, (ens_data_media _ _ t); [done|]. rewrite Hd.
  eapply ens_mono; [by apply ens_volume_mounted|]. cbn beta. intros r g' s' ([Ht' Hm'] & H1 & H2).
  destruct (Z.eqb_spec r 0) as [->|Hr']; cbn [negb]; [|ens_step; split_and!; [by split|by intros|done]].
  apply ens_bind. eapply ens_mono; [apply (ens_setup_data_media _ _ t); congruence|]. cbn beta.
  intros _ g'' s'' [-> Hs'']. ens_step. split_and!; [by split| |].
  - intros _. destruct H1 as (v & Hv & Hor); [done|]. exists v. split; [done|]. destruct Hor as [?|(u & Hu)]; [by left|right].
    exists u. by rewrite Hs''.
  - rewrite Hs''. auto.
Qed.

(** ** Unmounting *)

(** /data is left alone for the sake of /data/media. *)
Definition kept (t : list Volume) (g : Globals) (path : list Z) : bool :=
  starts_with (str "/data") path && data_media_in t false && negb (data_media_preserved_state g =? 0).

Lemma ens_kept s g t path (Q : bool -> Globals -> E -> Prop) : fstab g = Some t ->
  Q (kept t g path) g s -> ensures s g (data_media_kept path) Q.
Proof.
  intros Ht HQ. unfold data_media_kept, kept in *. destruct (starts_with _ path); [|done].
  unfold is_data_media, get_device_volumes. apply ens_bind, ens_bind, ens_bind, ens_getg. rewrite Ht. apply ens_ret, ens_ret.
  cbn [andb] in HQ. destruct (data_media_in t false); [|done]. apply ens_bind, ens_bind, ens_getg, ens_ret, ens_ret. done.
Qed.

Lemma ens_unmount s g i v : mounts_inv (mounts_state g) -> entry (mounts_state g) i = Some v ->
  NoDup (mv_mount_point <$> table s) ->
  ensures s g (unmount_now i) (fun r g' s' => same_table g g' /\ (r = 0 -> ~ mounted (mv_mount_point v) s')).
Proof.
  intros Hm He Hnd. unfold unmount_now. do 2 ens_step. ens_step. ens_step. rewrite He in H. cbn [fmap option_fmap option_map] in H.
  destruct (unmount_mounted_volume _ i (mounts_state g)) as [ret m] eqn:Eu.
  do 2 ens_step. ens_step. pose proof (unmount_inv _ (fun _ => r) i Hm) as Hinv.
  rewrite Eu in Hinv. split; [by split|]. intros ->.
  assert (r = 0) as -> by (unfold unmount_mounted_volume in Eu; destruct (Z.eqb_spec r 0); congruence).
  apply env_umount in H as (u & Hu & Hp). rewrite Hp in Hnd. cbn in Hnd. apply NoDup_cons in Hnd as [Hnd _].
  intros (x & Hx & Hxt). apply Hnd. rewrite Hu, <- Hxt. by apply list_elem_of_fmap_2.
Qed.

(** The line of a mount point is found under that mount point, if not the same
    line then another one. *)
Definition entries_found (t : list Volume) : Prop := forall path v,
  fs_mgr_get_entry_for_mount_point t path = Some v -> is_Some (fs_mgr_get_entry_for_mount_point t (str (mount_point v))).

Definition volume_unmounted (t : list Volume) (path : list Z) (s : E) : Prop :=
  exists v, fs_mgr_get_entry_for_mount_point t path = Some v /\ fs_type v <> "ramdisk"%string /\ ~ mounted (str (mount_point v)) s.

Lemma ens_volume_unmounted s g t path : fstab g = Some t -> entries_found t ->
  mounts_inv (mounts_state g) -> readable (table s) -> NoDup (mv_mount_point <$> table s) ->
  ensures s g (ensure_volume_unmounted path) (fun r g' s' => same_table g g' /\ (r = 0 -> volume_unmounted t path s')).
Proof.
  intros Ht Hfound Hm Hr Hnd. unfold ensure_volume_unmounted. apply ens_bind. eapply ens_volume; [done|].
  unfold volume_unmounted, same_table. destruct (fs_mgr_get_entry_for_mount_point t path) as [v|] eqn:Ev.
  2: { ens_step. by split_and!. }
  destruct (String.eqb_spec (fs_type v) "ramdisk") as [Hf|Hf]; [ens_step; by split_and!|].
  apply ens_bind, ens_scan; [done|done| |].
  2: { intros m s' Hs' Hm'. ens_step; [|done]. ens_step. by split_and!. }
  intros s1 H1. change (0 <? 0) with false. cbv iota. apply ens_bind, ens_getg. cbn [with_mounts mounts_state].
  pose proof (find_loaded_mount (str (mount_point v)) (table s)) as Hfind. destruct Hr as (_ & _ & Hn).
  destruct (find_mounted_volume_by_mount_point _ _) as [i|].
  2: { ens_step. split_and!; [done|by apply loaded_inv|]. intros _. exists v. split_and!; [done|done|].
       intros (u & Hu & Hp). rewrite H1 in Hu. by destruct (Hfind u). }
  destruct Hfind as (u & He & Hu & Hp). apply ens_bind, (ens_volume _ _ t); [done|].
  destruct (Hfound _ _ Ev) as [w ->]. apply ens_bind, ens_ret. destruct (voldmanaged w).
  - ens_step. ens_step. ens_step. split_and!; [done|by apply loaded_inv|]. unfold vold_result.
    destruct (Z.eqb_spec r CommandOkay) as [->|]; [|done]. intros _. exists v. split_and!; [done|done|].
    by eapply env_vold_unmount.
  - eapply ens_mono; [apply ens_unmount; [by apply loaded_inv|exact He|by rewrite H1]|]. cbn beta.
    intros r g' s' [[Hs1 Hs2] H0]. split_and!; [done|done|]. intros Hr0. exists v. rewrite <- Hp. auto.
Qed.

(** The contract of [ensure_path_unmounted]: under the same conditions,
    with no mount point used twice, it returns, and 0 means that the path's volume
    is not mounted, or that /data was left alone for the sake of /data/media. *)
Theorem ensure_path_unmounted_contract s g t path :
  fstab g = Some t -> entries_found t -> mounts_inv (mounts_state g) -> readable (table s) ->
  NoDup (mv_mount_point <$> table s) -> on_data_media t (str "/data") = false ->
  ensures s g (ensure_path_unmounted path) (fun r g' s' => same_table g g' /\
    (r = 0 -> kept t g (home_of t path) = true /\ table s' = table s \/ volume_unmounted t (home_of t path) s')).
Proof.
  intros Ht Hs Hm Hr Hnd Hd. unfold ensure_path_unmounted, home_of. cbn [ensure_unmounted].
  apply ens_bind, (ens_data_media _ _ t); [done|].
  assert (forall p, ensures s g (let* b := data_media_kept p in if b : bool then mret 0 else ensure_volume_unmounted p)
    (fun r g' s' => same_table g g' /\ (r = 0 -> kept t g p = true /\ table s' = table s \/ volume_unmounted t p s'))) as Hp.
  { intros p. apply ens_bind, (ens_kept _ _ t); [done|]. destruct (kept t g p) eqn:Ek.
    - ens_step. split; [by split|]. auto.
    - eapply ens_mono; [by apply ens_volume_unmounted|]. cbn beta. intros r g' s' [H1 H2]. auto. }
  destruct (on_data_media t path); [|apply Hp]. apply ens_bind, (ens_data_media _ _ t); [done|]. rewrite Hd. apply Hp.
Qed.

End Facts.

(** ** A device to try it on

    A table of three volumes; a path belongs to the first line whose mount point
    is the path or a directory above it. *)
Definition below (v : Volume) (path : list Z) : bool :=
  starts_with (str (mount_point v)) path &&
  match drop (length (str (mount_point v))) path with [] => true | c :: _ => c =? SLASH end.

#[export] Instance sample_fs_mgr : FsMgr := {|
  fs_mgr_read_fstab := Some [simple_volume "/data" "ext4" "/dev/d"; simple_volume "/cache" "ext4" "/dev/c"];
  fs_mgr_add_entry l mp fs dev := Some (l ++ [simple_volume mp fs dev]);
  fs_mgr_get_entry_for_mount_point l path := List.find (fun v => below v path) l
|}.
#[export] Instance sample_vold : VoldCodes := 200.

Definition sample_table : list Volume :=
  [simple_volume "/data" "ext4" "/dev/d"; simple_volume "/cache" "ext4" "/dev/c"; simple_volume "/tmp" "ramdisk" "ramdisk"].

Example sample_load : load_volume_table initial_globals = Ret (tt, with_fstab (Some sample_table) initial_globals).
Proof. reflexivity. Qed.

Definition sample_entry (t : list Z) : MountedVolume := mkMounted (str "/dev/x") t (str "ext4") (str "rw").

(** A kernel that mounts whatever it is asked to; commands fail. *)
Definition sample_env (s : list MountedVolume) (c : call) : answer c -> list MountedVolume -> Prop :=
  match c with
  | CProcMounts => fun r s' => r = Some (mounts_text s) /\ s' = s
  | CMount _ t _ => fun r s' => r = 0 /\ s' = s ++ [sample_entry t]
  | CUmount (Some t) => fun r s' =>
      r = 0 /\ (exists l v l', s = l ++ v :: l' /\ s' = l ++ l' /\ mv_mount_point v = t) \/ r = -1 /\ s' = s
  | CMtdMount _ t _ => fun r s' => r = 0 /\ s' = s ++ [sample_entry t]
  | CVoldMount _ | CVoldUnmount _ _ => fun r s' => r = 400 /\ s' = s
  | CSystem _ => fun r s' => r = 127 /\ s' = s
  | _ => fun r s' => s' = s
  end.

#[export, refine] Instance sample_mount_env : MountEnv (list MountedVolume) := {| env := sample_env; table s := s |}.
Proof.
  all: cbn [sample_env].
  all: try (intros; done).
  - intros s r s' [-> ->]. auto.
  - intros s d t f s' [_ ->]. exists (sample_entry t). split; [|done]. apply elem_of_app. right. by apply list_elem_of_singleton.
  - by intros s t s' _ [? _].
  - by intros s f o d t s' _ _ _ _ [? _].
  - by intros s t s' [? _].
  - intros s n t f s' [_ ->]. exists (sample_entry t). split; [|done]. apply elem_of_app. right. by apply list_elem_of_singleton.
  - intros s t s' [[_ (l & v & l' & -> & -> & Hv)]|[? _]]; [|done]. exists v. split; [done|]. by rewrite Permutation_middle.
  - by intros s t f s' [? _].
Defined.

Definition sample_globals : Globals := with_fstab (Some sample_table) initial_globals.

Lemma sample_find path v : fs_mgr_get_entry_for_mount_point sample_table path = Some v -> v ∈ sample_table.
Proof. intros H. apply list_elem_of_In. cbn [fs_mgr_get_entry_for_mount_point sample_fs_mgr] in H. by apply List.find_some in H as [H _]. Qed.

Lemma sample_safe : safe_table sample_table.
Proof.
  intros path v Hv%sample_find. assert (Forall (fun v => safe_volume v = true) sample_table) as Hall by by_decide.
  rewrite Forall_forall in Hall. by apply Hall.
Qed.

Lemma sample_found : entries_found sample_table.
Proof.
  intros path v Hv%sample_find.
  assert (Forall (fun v => is_Some (fs_mgr_get_entry_for_mount_point sample_table (str (mount_point v)))) sample_table) as Hall.
  { unfold sample_table. repeat (constructor; [vm_compute; by eexists|]). constructor. }
  rewrite Forall_forall in Hall. by apply Hall.
Qed.

Definition field_okb (n : nat) (s : list Z) : bool :=
  bool_decide (s <> []) && bool_decide (length s <= n)%nat && forallb (fun c => negb (is_space c) && negb (c =? 0)) s.

Lemma field_okb_spec n s : field_okb n s = true -> field_ok n s.
Proof.
  unfold field_okb, field_ok. rewrite !andb_true_iff, !bool_decide_eq_true. intros [[H1 H2] H3].
  rewrite List.forallb_forall in H3. split_and!; [done|done|..]; apply Forall_forall; intros c Hc; apply list_elem_of_In in Hc;
    apply H3, andb_true_iff in Hc as [Hc1 Hc2]; [by apply negb_true_iff|]. intros ->. done.
Qed.

Lemma sample_readable (s : list MountedVolume) :
  forallb (fun v => field_okb 63 (mv_device v) && field_okb 63 (mv_mount_point v) && field_okb 63 (mv_filesystem v) &&
                    field_okb 127 (mv_flags v)) s && (zlen (mounts_text s) <=? 2047) && (zlen s <=? numv) = true -> readable s.
Proof.
  rewrite !andb_true_iff, List.forallb_forall, !Z.leb_le. intros [[H1 H2] H3]. split_and!; [|done|done].
  apply Forall_forall. intros v Hv. apply list_elem_of_In, H1 in Hv. rewrite !andb_true_iff in Hv.
  destruct Hv as [[[Ha Hb] Hc] Hd]. split; by apply field_okb_spec.
Qed.

Definition sample_log : list Z := str "/cache/recovery/log".
Definition one_mounted : list MountedVolume := [sample_entry (str "/data")].
Definition two_mounted : list MountedVolume := [sample_entry (str "/data"); sample_entry (str "/cache")].

(** A path on the cache, which is not mounted yet. *)
Lemma ensure_path_mounted_contract_witness :
  ensures one_mounted sample_globals (ensure_path_mounted sample_log) (fun r g' s' => same_table sample_globals g' /\
    (r = 0 -> volume_mounted sample_table (home_of sample_table sample_log) s') /\
    (volume_mounted sample_table (home_of sample_table sample_log) one_mounted -> table s' = table one_mounted)).
Proof.
  apply (ensure_path_mounted_contract one_mounted sample_globals sample_table sample_log).
  - reflexivity.
  - apply sample_safe.
  - vm_compute. reflexivity.
  - apply sample_readable. vm_compute. reflexivity.
  - vm_compute. reflexivity.
Defined.

Lemma ensure_path_unmounted_contract_witness :
  ensures two_mounted sample_globals (ensure_path_unmounted (str "/cache")) (fun r g' s' => same_table sample_globals g' /\
    (r = 0 -> kept sample_table sample_globals (home_of sample_table (str "/cache")) = true /\ table s' = table two_mounted \/
              volume_unmounted sample_table (home_of sample_table (str "/cache")) s')).
Proof.
  apply (ensure_path_unmounted_contract two_mounted sample_globals sample_table (str "/cache")).
  - reflexivity.
  - apply sample_found.
  - vm_compute. reflexivity.
  - apply sample_readable. vm_compute. reflexivity.
  - by_decide.
  - vm_compute. reflexivity.
Defined.
