(* ===== verification/FormatFacts.v ===== *)
(** * Formatting and /data/media

    On devices without an SD card the user's files are in /data/media.  While
    they are to be preserved, formatting /data or the emulated card removes files
    through the shell and never erases or unmounts the partition. *)
From S2P Require Import Prelude.
From S2P Require Import Cbuf.
From S2P Require Import Posix.
From S2P Require Import Bootloader.
From S2P Require Import Calls.
From S2P Require Import Mounts.
From S2P Require Import Roots.
From S2P Require Import Formats.
From S2P Require Import RootsFacts.

(** Calls that destroy the contents of a partition or take it away. *)
Definition wipes (c : call) : bool :=
  match c with
  | CMakeExt4 _ _ _ | CMakeF2fs _ | CFormatExt2 _ | CFormatExt3 _ | CFormatRfs _ _ | CVoldFormat _ | CVoldFormatAs _ _
  | CMtdOpen _ | CMtdErase _ | CRaw _ _ _ | CUmount _ | CVoldUnmount _ _ => true
  | _ => false
  end.

(** ** The loop over the files of /data

    [cd /data ; for f in $(ls -a | grep -v ^<pattern>$); do rm -rf $f; done], with
    a pattern of ordinary characters: the lines of the listing that are the
    pattern are left out, and the shell splits the rest at white space. *)
Definition LOOP_HEAD : list Z := str "cd /data ; for f in $(ls -a | grep -v ^".
Definition LOOP_TAIL : list Z := str "$); do rm -rf $f; done".

Definition loop_pattern (cmd : list Z) : option (list Z) :=
  let r := drop (length LOOP_HEAD) cmd in
  let n := (length r - length LOOP_TAIL)%nat in
  if starts_with LOOP_HEAD cmd && bool_decide (drop n r = LOOP_TAIL) then Some (take n r) else None.

Definition white : list Z := [32; 9; 10].
Definition loop_words (pattern : list Z) (names : list (list Z)) : list (list Z) :=
  tokens white (concat ((fun n => n ++ [10]) <$> filter (fun n => n <> pattern) names)).

(** What [rm] is given when /data has these names. *)
Definition removed_by (cmd : list Z) (names : list (list Z)) : option (list (list Z)) :=
  pattern ← loop_pattern cmd; Some (loop_words pattern names).

Definition unspaced (n : list Z) : Prop := n <> [] /\ Forall (fun c => is_one_of white c = false) n.

(** With names that have no white space, the loop removes the names themselves. *)
Lemma loop_words_names pattern names : Forall unspaced names -> loop_words pattern names = filter (fun n => n <> pattern) names.
Proof.
  intros H. unfold loop_words. assert (Forall unspaced (filter (fun n => n <> pattern) names)) as Hf.
  { apply Forall_forall. intros n Hn. apply list_elem_of_filter in Hn as [_ Hn]. rewrite Forall_forall in H. by apply H. }
  clear H. induction Hf as [|n l [Hne Hn] _ IH]; [done|]. cbn [fmap list_fmap concat]. rewrite <- app_assoc. cbn [app].
  rewrite tokens_delim by done. rewrite IH. by destruct n.
Qed.

(** Commands that mount, or remove the files below [path], for /data all but
    media. *)
Definition mount_command (cmd : list Z) : bool := starts_with (str "mount ") cmd.
Definition allowed (path cmd : list Z) : bool :=
  mount_command cmd ||
  if bool_decide (path = str "/data") then bool_decide (loop_pattern cmd = Some (str "media"))
  else bool_decide (cmd = str "rm -rf " ++ path ++ str "/*") || bool_decide (cmd = str "rm -rf " ++ path ++ str "/.*").

Definition harms (path : list Z) (c : call) : bool :=
  wipes c || match c with CSystem cmd => negb (allowed path cmd) | _ => false end.

Section Spares.
  Context `{FM : FsMgr} `{VC : VoldCodes} (BOARD_BML_BOOT : list Z) (use_f2fs : bool).
  Context (t : list Volume) (path : list Z).

(** The globals that decide about /data/media. *)
Definition preserving (g : Globals) : Prop := fstab g = Some t /\ data_media_preserved_state g <> 0.

Definition spares {A} (g : Globals) (m : G A) (Q : A -> Globals -> Prop) : Prop :=
  avoids (harms path) (m g) (fun r => Q r.1 r.2).

Lemma sp_bind {A B} g (m : G A) (k : A -> G B) Q :
  spares g m (fun a g' => spares g' (k a) Q) -> spares g (mbind_ m k) Q.
Proof. intros H. unfold spares, mbind_. apply avoids_bind. eapply avoids_mono; [exact H|]. by intros [a g']. Qed.

Lemma sp_mono {A} g (m : G A) (Q R : A -> Globals -> Prop) :
  spares g m Q -> (forall a g', Q a g' -> R a g') -> spares g m R.
Proof. intros H HQ. eapply avoids_mono; [exact H|]. intros [a g'] ?. by apply HQ. Qed.

Lemma sp_eq {A} g (m : G A) a g' (Q : A -> Globals -> Prop) : m g = Ret (a, g') -> Q a g' -> spares g m Q.
Proof. intros E HQ. unfold spares. by rewrite E. Qed.

(** The rest of the program sees the same volume table. *)
Definition quiet {A} (m : G A) : Prop := forall g, preserving g -> spares g m (fun _ g' => preserving g').

Lemma quiet_bind {A B} (m : G A) (k : A -> G B) : quiet m -> (forall a, quiet (k a)) -> quiet (mbind_ m k).
Proof. intros Hm Hk g Hg. apply sp_bind. eapply sp_mono; [by apply Hm|]. intros a g' Hg'. by apply Hk. Qed.

Lemma quiet_ret {A} (a : A) : quiet (mret a).
Proof. by intros g Hg. Qed.
Lemma quiet_getg : quiet getg.
Proof. by intros g Hg. Qed.
Lemma quiet_invoke c : harms path c = false -> quiet (invoke c).
Proof. by intros Hc g Hg. Qed.
Lemma quiet_deref {A} (o : option A) : quiet (deref o).
Proof. intros g Hg. by destruct o. Qed.
Lemma quiet_sprintf {B} s (k : list Z -> G B) : quiet (k s) -> quiet (mbind_ (sprintf_path s) k).
Proof. intros Hk g Hg. unfold sprintf_path. destruct (_ <=? _); [done|]. by apply sp_bind, Hk. Qed.
Lemma quiet_outcome {A} (o : outcome A) : quiet (moutcome o).
Proof. intros g Hg. by destruct o. Qed.

Lemma quiet_putg g : preserving g -> quiet (putg g).
Proof. by intros Hg g' Hg'. Qed.

(** The globals that were read have the volume table. *)
Lemma quiet_getg_bind {B} (k : Globals -> G B) : (forall g, preserving g -> quiet (k g)) -> quiet (mbind_ getg k).
Proof. intros Hk g Hg. apply sp_bind. by apply (Hk g Hg). Qed.

End Spares.

Create HintDb quiet.
#[export] Hint Resolve quiet_ret quiet_getg quiet_deref quiet_outcome : quiet.

(** Goes through a program call by call. *)
Ltac quiet_tac :=
  repeat first
    [ progress auto with quiet
    | apply quiet_sprintf
    | apply quiet_bind; [|intros ?]
    | apply quiet_invoke; first [reflexivity|idtac]
    | match goal with |- quiet _ _ (match ?x with _ => _ end) => destruct x end
    | progress cbv zeta ].

Section Format.
  Context `{FM : FsMgr} `{VC : VoldCodes} (BOARD_BML_BOOT : list Z) (use_f2fs : bool).
  Context (t : list Volume) (path : list Z).

Abbreviation quiet := (quiet t path).

Lemma quiet_volume p : quiet (volume_for_path p).
Proof. by intros g Hg. Qed.

Lemma quiet_volumes : quiet get_device_volumes.
Proof. unfold get_device_volumes. quiet_tac. Qed.

#[local] Hint Resolve quiet_volume quiet_volumes : quiet.

Lemma quiet_on_media p : quiet (is_data_media_volume_path p).
Proof. unfold is_data_media_volume_path, is_data_media. quiet_tac. Qed.

Lemma preserving_mounts g m : preserving t g -> preserving t (with_mounts m g).
Proof. by intros [? ?]. Qed.

Lemma quiet_scan : quiet scan_mounts_now.
Proof.
  unfold scan_mounts_now. apply quiet_getg_bind. intros g Hg. quiet_tac. by apply quiet_putg, preserving_mounts.
Qed.

Lemma quiet_try_mount d mp f o : quiet (try_mount d mp f o).
Proof.
  unfold try_mount. destruct d as [d|], mp as [mp|], f as [f|]; quiet_tac.
Qed.

#[local] Hint Resolve quiet_on_media quiet_scan quiet_try_mount : quiet.

Lemma quiet_mount_volume v mp : quiet (mount_volume v mp).
Proof. unfold mount_volume. quiet_tac. Qed.

#[local] Hint Resolve quiet_mount_volume : quiet.

Lemma quiet_mounted depth p at_ : quiet (ensure_mounted depth p at_).
Proof.
  revert p at_. induction depth as [|depth IH]; intros p at_; cbn [ensure_mounted];
    unfold ensure_volume_mounted, setup_data_media; quiet_tac; try apply IH. by intros g Hg.
Qed.

Lemma quiet_remove_files : quiet (remove_files path).
Proof.
  unfold remove_files. case_bool_decide as Hp; quiet_tac.
  - cbn [harms wipes orb]. unfold allowed. rewrite (bool_decide_true (path = _)) by done. by vm_compute.
  - cbn [harms wipes orb]. unfold allowed. rewrite (bool_decide_false (path = _)) by done.
    rewrite (bool_decide_true (str "rm -rf " ++ path ++ str "/*" = _)) by done.
    by rewrite orb_true_r.
  - cbn [harms wipes orb]. unfold allowed. rewrite (bool_decide_false (path = _)) by done.
    rewrite (bool_decide_true (str "rm -rf " ++ path ++ str "/.*" = str "rm -rf " ++ path ++ str "/.*")) by done. by rewrite !orb_true_r.
Qed.

Context (Hdata : on_data_media t (str "/data") = false) (Hmedia : data_media_in t false = true).

Lemma kept_eq p g : starts_with (str "/data") p = true -> preserving t g -> data_media_kept p g = Ret (true, g).
Proof using Hmedia.
  intros Hp [Ht Hpres]. unfold data_media_kept. rewrite Hp. unfold is_data_media, get_device_volumes, is_data_media_preserved, mbind_, getg.
  cbn [pbind]. rewrite Ht. cbn. rewrite Hmedia. cbn. by rewrite (proj2 (Z.eqb_neq _ _)).
Qed.

(** Nothing on /data is unmounted. *)
Lemma quiet_unmounted p : starts_with (str "/data") p = true \/ on_data_media t p = true -> quiet (ensure_path_unmounted p).
Proof using Hdata Hmedia.
  intros Hp g Hg. pose proof Hg as [Ht _]. unfold ensure_path_unmounted. cbn [ensure_unmounted].
  eapply sp_bind, sp_eq; [by apply is_data_media_volume_path_eq|]. destruct (on_data_media t p).
  - eapply sp_bind, sp_eq; [by apply is_data_media_volume_path_eq|]. rewrite Hdata.
    eapply sp_bind, sp_eq; [by apply kept_eq|]. done.
  - destruct Hp as [Hp|]; [|done]. eapply sp_bind, sp_eq; [by apply kept_eq|]. done.
Qed.

End Format.


(** ** A flaw of the loop *)

(** A file called "my media" in /data: the loop removes media too. *)
Theorem loop_words_split :
  str "media" ∈ default [] (removed_by RM_DATA [str "."; str ".."; str "app"; str "media"; str "my media"]).
Proof. by_decide. Qed.

(** ** Flaws *)

(** When the volume cannot be mounted, formatting it by removing its files does
    nothing and returns 0. *)
Theorem format_unmountable_succeeds `{FM : FsMgr} `{VC : VoldCodes} `{ME : !MountEnv E} s g path :
  ensures s g (ensure_path_mounted path) (fun r _ _ => r <> 0) ->
  ensures s g (format_by_removing path) (fun r _ _ => r = 0).
Proof.
  intros H. unfold format_by_removing. apply ens_bind. eapply ens_mono; [exact H|]. cbn beta. intros r g' s' Hr.
  by rewrite (proj2 (Z.eqb_neq _ _)).
Qed.

(** Every call succeeds, nothing is mounted. *)
Definition all_well (c : call) : answer c :=
  match c with CProcMounts | CPopen _ => Some [] | CReadFile _ | CProperty _ | CLocalTime => None | CMalloc => 1 | CMtdFind _ => 1 | _ => 0 end.

Definition big_table : list Volume :=
  [mkVolume "/cache" "ext4" "/dev/c" None None None None 4294967296 false None].
Definition big_globals : Globals := with_fstab (Some big_table) initial_globals.

(** [format_device] keeps the length of the partition in an [int]: 4 GiB become
    0, which [format_volume] passes on. *)
Theorem format_device_truncates_length :
  (calls_of all_well (format_volume [] true (str "/cache") big_globals)).1 =
    [CMalloc; CProcMounts; CMakeExt4 (str "/dev/c") 4294967296 (str "/cache")] /\
  (calls_of all_well (format_device [] true (str "/dev/c") (str "/cache") (str "ext4") big_globals)).1 =
    [CMalloc; CProcMounts; CMakeExt4 (str "/dev/c") 0 (str "/cache")].
Proof. split; vm_compute; reflexivity. Qed.

(** For f2fs it formats the volume's device and not the one it is given. *)
Theorem format_device_other_device :
  (calls_of all_well (format_device [] true (str "/dev/y") (str "/cache") (str "f2fs") big_globals)).1 =
    [CMalloc; CProcMounts; CMakeF2fs (str "/dev/c")].
Proof. vm_compute. reflexivity. Qed.
