(* ===== verification/CacheRoots.v ===== *)
(** * [roots.c] under recovery's own files

    The restart of recovery relies on the mounting of the cache only through
    [RootsSpec].  Here [roots.c] itself, acting on the disk through the system
    calls and a kernel, is shown to be such an implementation. *)
From S2P Require Import Prelude.
From S2P Require Import Posix.
From S2P Require Import PosixFacts.
From S2P Require Import Stdio.
From S2P Require Import Mtdutils.
From S2P Require Import Calls.
From S2P Require Import Mounts.
From S2P Require Import Roots.
From S2P Require Import Formats.
From S2P Require Import RootsFacts.
From S2P Require Import FormatFacts.
From S2P Require Import CacheFiles.
From S2P Require Import Bootloader.
From S2P Require Import Recovery.
From S2P Require Import RecoveryArgs.
From S2P Require Import RecoveryFacts.

(** What is neither a file operation nor in the sources. *)
Class Kernel (Dev : Type) := kernel_call : forall c : call, W tree Dev (answer c).

(** Where the global variables are kept.  They have the volume table [t] and a
    table of mounts that the operations have left. *)
Definition settled (t : list Volume) (g : Globals) : Prop := fstab g = Some t /\ mounts_inv (mounts_state g).

Class HasGlobals (Dev : Type) (t : list Volume) := {
  get_globals : Dev -> Globals;
  put_globals : Globals -> Dev -> Dev;
  globals_settled d : settled t (get_globals d);
  get_put g d : settled t g -> get_globals (put_globals g d) = g
}.

Section Handle.
  Context {Dev : Type} {K : Kernel Dev}.

(** The return value of a call that is 0 or sets errno. *)
Definition zero_or_minus (m : W tree Dev Z) : W tree Dev Z := let! r := m in wret (if r =? 0 then 0 else -1).

Definition handle (c : call) : W tree Dev (answer c) :=
  match c with
  | CMkdir p mode => zero_or_minus (sys_mkdir p mode)
  | CRmdir p => zero_or_minus (sys_rmdir p)
  | CSymlink target p => zero_or_minus (sys_symlink target p)
  | CStat p | CAccess p => let! st := sys_stat p in wret match st with inl _ => 0 | inr _ => -1 end
  | CLstat p => let! st := sys_lstat p in wret match st with inl _ => 0 | inr _ => -1 end
  | CWriteFile p data =>
      let! f := fopen_w p in
      match f with
      | inl f => let! (_, f) := fwrite data f in let! _ := fclose f in wret 0
      | inr _ => wret (-1)
      end
  | c => kernel_call c
  end.

Context `{FM : FsMgr} `{VC : VoldCodes} (t : list Volume) {HG : HasGlobals Dev t}.
Context (BOARD_BML_BOOT : list Z) (use_f2fs : bool).

Definition run_globals {A} (m : G A) : W tree Dev A :=
  let! d := get_dev in
  let! (a, g) := perform handle (m (get_globals d)) in
  let! d := get_dev in
  let! _ := set_dev (put_globals g d) in
  wret a.

(** The functions of [roots.c] that the rest of recovery uses. *)
Definition roots_c : Roots Dev := {|
  Bootloader.volume_for_path s := fs_mgr_get_entry_for_mount_point t (str s);
  Bootloader.ensure_path_mounted s := run_globals (Roots.ensure_path_mounted s);
  Bootloader.ensure_path_unmounted s := run_globals (Roots.ensure_path_unmounted s);
  Bootloader.format_volume s := run_globals (Formats.format_volume BOARD_BML_BOOT use_f2fs s)
|}.

End Handle.

(** ** Scanning any text *)

(** At most 32 lines. *)
Definition newlines (s : list Z) : Z := zlen (filter (fun c => c = NL) s).

Lemma eat_line_newlines bufp : eat_mount_line bufp = [] \/ newlines bufp = newlines (eat_mount_line bufp) + 1.
Proof.
  unfold eat_mount_line. destruct (skip_while (fun c => negb (c =? NL)) bufp) as [p r] eqn:E.
  apply skip_while_spec in E as (-> & Hp & Hr). cbn [snd]. destruct r as [|c r]; [by left|right].
  specialize (Hr c eq_refl). apply negb_false_iff, Z.eqb_eq in Hr as ->. unfold newlines. rewrite filter_app.
  assert (filter (fun c => c = NL) p = []) as ->.
  { induction Hp as [|x p Hx _ IH]; [done|]. rewrite filter_cons_False, IH; [done|]. intros ->. done. }
  cbn [app drop]. rewrite filter_cons_True by done. rewrite drop_0. cbn [length]. lia.
Qed.

Lemma scan_mounts_lines lines bufp vs : (length bufp <= lines)%nat -> bufp = [] \/ zlen vs + newlines bufp < numv ->
  zlen vs <= numv -> exists vs', zlen vs' <= numv /\ scan_mounts lines bufp (loaded vs) = Done (loaded vs').
Proof.
  revert bufp vs. induction lines as [|lines IH]; intros bufp vs Hl Hb Hvs; (destruct bufp as [|c bufp]; [by exists vs|]);
    [cbn in Hl; lia|]. destruct Hb as [|Hb]; [done|]. cbn [scan_mounts].
  pose proof (eat_mount_line_shorter c bufp) as Hshort. pose proof (eat_line_newlines (c :: bufp)) as Hn.
  assert (0 <= newlines (c :: bufp)) by (unfold newlines; lia). cbn [length] in Hl.
  destruct (sscanf_mount (c :: bufp)) as [v|]; cbn [mbind].
  - rewrite add_volume_loaded, (proj2 (Z.ltb_lt _ _)) by lia. cbn [mbind].
    apply IH; [lia| |rewrite length_app; cbn; lia]. destruct Hn as [->|Hn]; [by left|right]. rewrite length_app. cbn [length]. lia.
  - apply IH; [lia| |done]. destruct Hn as [->|Hn]; [by left|right]. lia.
Qed.

Lemma newlines_take n s : newlines (take n s) <= newlines s.
Proof. unfold newlines. rewrite <- (take_drop n s) at 2. rewrite filter_app, length_app. lia. Qed.

Lemma scan_short ok text m : mounts_inv m -> newlines (default [] text) < numv ->
  exists r m', scan_mounted_volumes ok text m = Done (r, m') /\ mounts_inv m'.
Proof.
  intros Hm Ht. unfold scan_mounted_volumes. destruct (_ && _); [by exists (-1), m|]. rewrite reset_volumes_inv by done.
  destruct text as [text|]; [|exists (-1), (loaded []); split; [done|by apply loaded_inv]]. cbv zeta. cbn [default] in Ht.
  destruct (scan_mounts_lines (length (take 2047 text)) (take 2047 text) []) as (vs & Hvs & ->); [lia| |done|].
  - right. pose proof (newlines_take 2047 text). cbn [length] in *. unfold id in Ht. lia.
  - exists 0, (loaded vs). split; [done|]. by apply loaded_inv.
Qed.

(** ** What the kernel promises about mounts

    A mount at a directory changes what is found at this directory and below,
    and nothing else.  The calls return; a volume that is mounted where
    recovery's files are has neither a link nor a device in their place;
    /proc/mounts has at most 31 lines. *)
Inductive mounts_at (mp : list Z) : call -> Prop :=
  | at_mount d f : mounts_at mp (CMount d mp f)
  | at_mtd_mount n f : mounts_at mp (CMtdMount n mp f)
  | at_vold_mount : mounts_at mp (CVoldMount mp)
  | at_system_mount : absolute mp -> mounts_at mp (CSystem (str "mount " ++ mp))
  | at_system_mount_opts f o d : shell_word f -> shell_word o -> shell_word d -> absolute mp ->
      mounts_at mp (CSystem (str "mount -t " ++ f ++ str " -o" ++ o ++ str " " ++ d ++ str " " ++ mp)).

Definition below (fs : tree) (mp : list Z) (fs' : tree) : Prop :=
  forall q, fs' !! q <> fs !! q -> exists p, resolve true fs mp = Found p /\ p `prefix_of` q.

(** After a mount, or an attempt to mount. *)
Definition remounted (mp : list Z) (fs fs' : tree) : Prop :=
  below fs mp fs' /\ (own_path mp -> plain_home fs -> plain_home fs').

(** [m] returns with a result in [Q], and at every moment the disk is one that [R]
    allows. *)
Definition moves {Dev A} (R : tree -> tree -> Prop) (m : W tree Dev A) (Q : A -> Prop) : Prop :=
  forall w, wp (R (w_fs w)) m w (fun a w' => w_answers w' = w_answers w /\ R (w_fs w) (w_fs w') /\ Q a).

Class KernelSpec (Dev : Type) (K : Kernel Dev) := {
  kernel_mounts mp c : mounts_at mp c -> moves (remounted mp) (kernel_call c) (fun _ => True);
  kernel_mtd_find n : moves eq (kernel_call (CMtdFind n)) (fun _ => True);
  kernel_malloc : moves eq (kernel_call CMalloc) (fun _ => True);
  kernel_proc_mounts : moves eq (kernel_call CProcMounts) (fun text => newlines (default [] text) < numv)
}.

Lemma remounted_tidied mp fs fs' : own_path mp -> plain_home fs -> remounted mp fs fs' -> tidied fs fs'.
Proof.
  intros Hmp Hfs [Hb Hp]. split; [|by apply Hp]. apply map_eq. intros q. unfold outside.
  destruct (decide (head q = Some (str "cache"))) as [Hq|Hq].
  { rewrite !(proj2 (map_lookup_filter_None _ _ q)); [done|by right; intros i _ []..]. }
  assert (fs' !! q = fs !! q) as E.
  { apply dec_stable. intros (p & Hr & [r ->])%Hb. apply Hq.
    destruct (resolve_own true fs mp Hmp Hfs) as [E|[(? & ? & E & _)|(? & E)]]; rewrite Hr in E; [|done..].
    injection E as ->. destruct Hmp as [_ (c & k & ->)]. done. }
  apply option_eq. intros i. by rewrite !map_lookup_filter_Some, E.
Qed.

Lemma moves_tidy {Dev A} (R : tree -> tree -> Prop) (m : W tree Dev A) Q :
  (forall fs fs', plain_home fs -> R fs fs' -> tidied fs fs') -> moves R m Q -> tidy (fun _ => True) m Q.
Proof.
  intros HR Hm w Hw _. eapply wp_mono; [apply Hm|by auto|]. cbn beta. intros a w' (Ha & Hr & HQ). split_and!; auto.
Qed.

Lemma quiet_tidy {Dev A} (m : W tree Dev A) Q : moves eq m Q -> tidy (fun _ => True) m Q.
Proof. apply moves_tidy. intros fs ? Hfs <-. by apply tidied_refl. Qed.

(** A volume table in which recovery's files are on a volume that is mounted at a
    directory of their path, and not on /data/media. *)
Definition cache_in_table `{FsMgr} (t : list Volume) : Prop := forall s, own_path s ->
  exists v, fs_mgr_get_entry_for_mount_point t s = Some v /\ own_path (str (mount_point v)) /\
    safe_volume v = true /\ fs_type v <> "datamedia"%string.

Lemma tidy_ext {Dev A} T (m m' : W tree Dev A) Q : (forall w, m w = m' w) -> tidy T m' Q -> tidy T m Q.
Proof. intros E H w Hw HT. unfold wp. rewrite E. by apply H. Qed.

Section Neat.
  Context {Dev : Type} {K : Kernel Dev} {KS : KernelSpec Dev K}.
  Context `{FM : FsMgr} `{VC : VoldCodes} (t : list Volume).
  Abbreviation tidy := (tidy (fun _ => True)).

Definition neat {A} (g : Globals) (m : G A) (Q : A -> Globals -> Prop) : Prop :=
  tidy (perform handle (m g)) (fun r => Q r.1 r.2).

Lemma neat_bind {A B} g (m : G A) (k : A -> G B) Q :
  neat g m (fun a g' => neat g' (k a) Q) -> neat g (mbind_ m k) Q.
Proof.
  intros H. unfold neat, mbind_. eapply tidy_ext; [apply perform_bind|].
  eapply tidy_bind; [exact H|]. by intros [a g'].
Qed.

Lemma neat_mono {A} g (m : G A) (Q R : A -> Globals -> Prop) : neat g m Q -> (forall a g', Q a g' -> R a g') -> neat g m R.
Proof. intros H HQ. eapply tidy_mono; [exact H|]. intros [a g'] ?. by apply HQ. Qed.

Lemma neat_eq {A} g (m : G A) a g' (Q : A -> Globals -> Prop) : m g = Ret (a, g') -> Q a g' -> neat g m Q.
Proof. intros E HQ. unfold neat. rewrite E. by apply tidy_ret. Qed.

Lemma neat_ret {A} g (a : A) (Q : A -> Globals -> Prop) : Q a g -> neat g (mret a) Q.
Proof. by apply neat_eq. Qed.

Lemma neat_invoke g c P (Q : answer c -> Globals -> Prop) :
  tidy (handle c) P -> (forall r, P r -> Q r g) -> neat g (invoke c) Q.
Proof. intros Hc HQ. unfold neat, invoke. cbn [perform]. eapply tidy_bind; [exact Hc|]. intros r Hr. apply tidy_ret, HQ, Hr. Qed.

(** A call that mounts in the cache, and one that changes nothing. *)
Lemma neat_mounting mp g c (Q : answer c -> Globals -> Prop) :
  own_path mp -> mounts_at mp c -> (forall r, Q r g) -> neat g (invoke c) Q.
Proof.
  intros Hmp Hc HQ. apply (neat_invoke _ _ (fun _ => True)); [|auto].
  replace (handle c) with (kernel_call c) by (by destruct Hc).
  eapply moves_tidy; [|by eapply kernel_mounts]. intros fs fs'. by apply remounted_tidied.
Qed.

Lemma neat_quiet g c P (Q : answer c -> Globals -> Prop) : handle c = kernel_call c -> moves eq (kernel_call c) P ->
  (forall r, P r -> Q r g) -> neat g (invoke c) Q.
Proof. intros E Hc HQ. eapply neat_invoke; [rewrite E; by apply quiet_tidy|done]. Qed.

(** The mount point is among the arguments of the call. *)
Ltac mounting mp := match goal with |- neat ?g (invoke ?c) ?Q => apply (neat_mounting mp g c Q); [done|by constructor|] end.

Lemma neat_mkdir g s mode (Q : Z -> Globals -> Prop) : own_path s -> (forall r, Q r g) -> neat g (invoke (CMkdir s mode)) Q.
Proof.
  intros Hs HQ. apply (neat_invoke _ (CMkdir s mode) (fun _ => True)); [|auto]. cbn [handle]. unfold zero_or_minus.
  eapply tidy_bind; [by apply tidy_make|]. intros r _. by apply tidy_ret.
Qed.

Lemma neat_sprintf g s (Q : list Z -> Globals -> Prop) : zlen s < PATH_MAX -> Q s g -> neat g (sprintf_path s) Q.
Proof. intros Hs HQ. eapply neat_eq; [|exact HQ]. unfold sprintf_path. by rewrite (proj2 (Z.leb_gt _ _)). Qed.

Lemma neat_scan g : settled t g -> neat g scan_mounts_now (fun _ g' => settled t g').
Proof.
  intros [Ht Hm]. unfold scan_mounts_now. eapply neat_bind, neat_eq; [done|]. cbn beta.
  apply neat_bind. eapply neat_mono with (Q := fun _ g' => g' = g).
  { case_bool_decide; [|by apply neat_ret]. apply neat_bind, (neat_quiet g CMalloc (fun _ => True)); [done|apply kernel_malloc|]. intros r _. by apply neat_ret. }
  cbn beta. intros ok g' ->. apply neat_bind.
  eapply neat_mono with (Q := fun text g' => newlines (default [] text) < numv /\ g' = g).
  { destruct ok; [|by apply neat_ret]. apply (neat_quiet g CProcMounts (fun text => newlines (default [] text) < numv)); [done|apply kernel_proc_mounts|done]. }
  cbn beta. intros text g' [Htext ->]. destruct (scan_short ok text _ Hm Htext) as (r & m & E & Hinv).
  eapply neat_bind, neat_eq; [unfold moutcome; by rewrite E|]. cbn beta iota.
  eapply neat_bind, neat_eq; [done|]. by apply neat_ret.
Qed.

(** Mounting a volume whose fields fit into a command. *)
Lemma neat_try d mp f o g (Q : Z -> Globals -> Prop) : own_path mp -> safe_path mp = true ->
  (forall x, d = Some x -> safe_word x = true) -> (forall x, f = Some x -> safe_word x = true) ->
  (forall x, o = Some x -> safe_word x = true) -> (forall r, Q r g) -> neat g (try_mount d (Some mp) f o) Q.
Proof.
  intros Hown [Ht Hlt]%safe_path_spec Hd Hf Ho HQ. unfold try_mount. destruct d as [d|], f as [f|]; try by apply neat_ret.
  destruct o as [o|]; [|by mounting mp].
  destruct (safe_word_spec _ (Hd _ eq_refl)) as [Hd1 Hd2], (safe_word_spec _ (Hf _ eq_refl)) as [Hf1 Hf2],
    (safe_word_spec _ (Ho _ eq_refl)) as [Ho1 Ho2].
  apply neat_bind, neat_sprintf; [repeat rewrite length_app; change PATH_MAX with 4096; cbn [str length]; cbn; lia|].
  by mounting mp.
Qed.

Lemma neat_mount_volume v g (Q : Z -> Globals -> Prop) : own_path (str (mount_point v)) -> safe_volume v = true ->
  (forall r, Q r g) -> neat g (mount_volume v (str (mount_point v))) Q.
Proof.
  intros Hown Hv HQ. pose proof (safe_volume_path _ Hv) as Hmp.
  unfold safe_volume in Hv. rewrite !andb_true_iff in Hv. destruct Hv as [[[[[[_ H2] H3] H4] H5] H6] H7].
  assert (forall x, Some (str (blk_device v)) = Some x -> safe_word x = true) as H8 by (by intros ? [= <-]).
  assert (forall x, Some (str (fs_type v)) = Some x -> safe_word x = true) as H9 by (by intros ? [= <-]). unfold mount_volume.
  destruct (voldmanaged v); [apply neat_bind; mounting (str (mount_point v)); intros r; by apply neat_ret|].
  destruct (String.eqb (fs_type v) "yaffs2").
  { apply neat_bind, (neat_quiet _ (CMtdFind _) (fun _ => True)); [done|apply kernel_mtd_find|]. intros r _.
    destruct (r =? 0); [by apply neat_ret|]. by mounting (str (mount_point v)). }
  destruct (existsb _ _).
  - apply neat_bind, neat_try; eauto using safe_field_spec. intros r.
    destruct (r =? 0); [by apply neat_ret|]. apply neat_bind, neat_try; eauto using safe_field_spec. intros r'.
    destruct (r' =? 0); [by apply neat_ret|]. apply neat_bind, neat_try; eauto using safe_field_spec. intros r''. by apply neat_ret.
  - apply safe_path_spec in Hmp as [Ht Hl].
    apply neat_bind, neat_sprintf; [rewrite length_app; change PATH_MAX with 4096; cbn; lia|].
    by mounting (str (mount_point v)).
Qed.

Context (Hcache : cache_in_table t).

Lemma neat_mounted g s : settled t g -> own_path s -> neat g (Roots.ensure_path_mounted s) (fun _ g' => settled t g').
Proof using Hcache KS.
  intros Hg Hs. pose proof Hg as [Ht _]. destruct (Hcache s Hs) as (v & Hv & Hown & Hsafe & Hnd).
  unfold Roots.ensure_path_mounted, ensure_path_mounted_at_mount_point. cbn [ensure_mounted].
  eapply neat_bind, neat_eq; [by apply is_data_media_volume_path_eq|]. unfold on_data_media. rewrite Hv.
  destruct (String.eqb_spec (fs_type v) "datamedia"); [done|]. unfold ensure_volume_mounted.
  eapply neat_bind, neat_eq; [apply volume_for_path_eq|]. rewrite Ht. cbn [mbind option_bind]. rewrite Hv.
  destruct (String.eqb _ "ramdisk"); [by apply neat_ret|]. apply neat_bind. eapply neat_mono; [by apply neat_scan|].
  cbn beta. intros r g' Hg'. destruct (r <? 0); [by apply neat_ret|]. cbv zeta. cbn [default option_rect].
  eapply neat_bind, neat_eq; [done|]. cbn beta. destruct (find_mounted_volume_by_mount_point _ _); [by apply neat_ret|].
  apply neat_bind, neat_mkdir; [done|]. intros r'. by apply neat_mount_volume.
Qed.

Context {HG : HasGlobals Dev t}.

Lemma tidy_run_mounted s : own_path s -> tidy (run_globals t (Roots.ensure_path_mounted s)) (fun _ => True).
Proof using Hcache KS.
  intros Hs. unfold run_globals.
  assert (tidy (get_dev (Disk := tree) (Dev := Dev)) (fun _ => True)) as Hget.
  { intros w Hw HT. exact (tidy_ret (T := fun _ => True) (w_dev w) (fun _ => True) I w Hw HT). }
  assert (forall d, tidy (set_dev (Disk := tree) (Dev := Dev) d) (fun _ => True)) as Hset.
  { intros d w Hw _. eexists _, _, []. rewrite app_nil_r. split_and!; [done|done|constructor|done|by apply tidied_refl|done]. }
  eapply tidy_bind; [apply Hget|]. intros d _. eapply tidy_bind; [by apply neat_mounted; [apply globals_settled|]|].
  intros [r g'] _. eapply tidy_bind; [apply Hget|]. intros d' _. eapply tidy_bind; [apply Hset|]. intros [] _. by apply tidy_ret.
Qed.

End Neat.

(** [C18] [roots.c] implements what recovery relies on for its own files. Assumed
    are a volume table that has their volume mounted at a directory of their path,
    with fields that stand in a command and not on /data/media, a kernel in which
    a mount changes only what is at and below the directory it is for, wherever
    that is, and one that is for a directory of these files brings no link or
    device among them, and at most 31 lines in /proc/mounts. Then
    [ensure_path_mounted] of such a file returns, however its calls end, and at
    every moment everything outside of /cache is as before and recovery's
    directory holds only files and directories. *)
Theorem roots_c_keeps_cache {Dev} {K : Kernel Dev} {KS : KernelSpec Dev K} `{FM : FsMgr} `{VC : VoldCodes}
    (t : list Volume) {HG : HasGlobals Dev t} (bml : list Z) (use_f2fs : bool) (Hcache : cache_in_table t) :
  RootsSpec Dev (roots_c t bml use_f2fs).
Proof. split. intros s Hs. by apply tidy_run_mounted. Qed.

(** ** A device to try it on *)

#[export] Instance Volume_eq_dec : EqDecision Volume.
Proof. solve_decision. Defined.
#[export] Instance MountsState_eq_dec : EqDecision MountsState.
Proof. solve_decision. Defined.
#[export] Instance settled_dec t g : Decision (settled t g).
Proof. unfold settled, mounts_inv. destruct (volumes (mounts_state g)); apply _. Defined.

(** A chip without flash, next to the global variables. *)
Abbreviation settled_globals t := (dsig (settled t)).

Definition no_flash (t : list Volume) : MtdDriver := {|
  dev := settled_globals t;
  dev_open _ _ := false; dev_getbadblock _ _ := -1; dev_opnotsupp _ := false;
  dev_erase d _ _ := (-1, d); dev_write d _ _ := (-1, d); dev_read d _ _ := (-1, [], d); dev_ecc _ := None
|}.

#[export, refine] Instance settled_has_globals t : HasGlobals (dev (MtdDriver := no_flash t)) t := {|
  get_globals (d : settled_globals t) := proj1_sig d;
  put_globals g (d : settled_globals t) := match decide (settled t g) with left H => dexist g H | right _ => d end
|}.
Proof.
  - intros d. exact (bool_decide_unpack _ (proj2_sig d)).
  - intros g d H. by destruct (decide (settled t g)).
Defined.

(** A kernel with one volume, which any mount(2) puts in place of what is at the
    directory; every other call succeeds without effect. *)
Definition graft (p : path) (vol fs : tree) : tree :=
  kmap (M1 := gmap path) (M2 := gmap path) (app p) vol ∪ filter (fun x : path * inode => ~ p `prefix_of` x.1) fs.

Definition volume_kernel {Dev} (vol : tree) : Kernel Dev := fun c =>
  match c with
  | CMount _ mp _ =>
      let! fs := get_fs in
      match resolve true fs mp with Found p => let! _ := set_fs (graft p vol fs) in wret 0 | _ => wret (-1) end
  | c => wret (all_well c)
  end.

Lemma graft_below p vol fs q : ~ p `prefix_of` q -> graft p vol fs !! q = fs !! q.
Proof.
  intros Hq. unfold graft. rewrite lookup_union_r.
  - apply option_eq. intros i. rewrite map_lookup_filter_Some. cbn. tauto.
  - apply eq_None_not_Some. intros [i Hi]. apply lookup_kmap_Some in Hi as (r & -> & _); [|apply _].
    apply Hq. by exists r.
Qed.

Lemma graft_plain p vol fs : (forall q i, vol !! q = Some i -> plain i = true) -> plain_home fs -> plain_home (graft p vol fs).
Proof.
  intros Hv Hfs q i Hq [Hi|[_ Hi]]%lookup_union_Some_raw.
  - apply lookup_kmap_Some in Hi as (r & _ & Hr); [|apply _]. by eapply Hv.
  - apply map_lookup_filter_Some in Hi as [Hi _]. by eapply Hfs.
Qed.

Lemma moves_ret {Dev A} (R : tree -> tree -> Prop) (a : A) (Q : A -> Prop) : (forall fs, R fs fs) -> Q a ->
  moves R (wret (Dev := Dev) a) Q.
Proof. intros HR HQ w. by apply wp_ret. Qed.

Lemma remounted_refl mp fs : remounted mp fs fs.
Proof. split; [by intros q []|done]. Qed.

Lemma volume_kernel_spec Dev vol : (forall q i, vol !! q = Some i -> plain i = true) -> KernelSpec Dev (volume_kernel vol).
Proof.
  intros Hv. split; [|by intros; apply moves_ret..]. intros mp c Hc.
  destruct Hc; try (apply moves_ret; [apply remounted_refl|done]). intros w. unfold kernel_call, volume_kernel.
  apply wp_bind, wp_get_fs. destruct (resolve true (w_fs w) mp) as [p| |] eqn:Hr;
    [|by apply wp_ret; split_and!; [|apply remounted_refl|]..].
  assert (remounted mp (w_fs w) (graft p vol (w_fs w))) as H.
  { split; [|intros _; by apply graft_plain]. intros q Hq. exists p. split; [done|].
    apply dec_stable. intros Hn. by apply Hq, graft_below. }
  apply wp_bind. eapply wp_set_fs; [exact H|]. by apply wp_ret.
Qed.

Definition boot_table : list Volume :=
  [simple_volume "/cache" "ext4" "/dev/block/cache"; simple_volume "/misc" "emmc" "/dev/block/misc"].

(** A volume table that is searched by the names in the path. *)
Definition by_components : FsMgr := {|
  fs_mgr_read_fstab := Some boot_table;
  fs_mgr_add_entry l mp fs dev := Some (l ++ [simple_volume mp fs dev]);
  fs_mgr_get_entry_for_mount_point l path :=
    List.find (fun v => bool_decide (components (str (mount_point v)) `prefix_of` components path)) l
|}.

Lemma boot_settled : settled boot_table (with_fstab (Some boot_table) initial_globals).
Proof. by_decide. Qed.
Definition boot_globals : settled_globals boot_table := dexist _ boot_settled.

Lemma boot_cache : cache_in_table (H := by_components) boot_table.
Proof.
  intros s [_ (c & k & Hc)]. exists (simple_volume "/cache" "ext4" "/dev/block/cache"). split_and!; [| |vm_compute; reflexivity|done].
  2: { split; [by_decide|]. by exists [], 0%nat. }
  cbn [fs_mgr_get_entry_for_mount_point by_components boot_table List.find]. rewrite bool_decide_true; [done|].
  rewrite Hc. exists (take k [str "recovery"; c]). reflexivity.
Qed.

(** The cache volume: recovery's directory with a command file. *)
Definition cache_volume : tree := {[
  [] := new_inode KDir 511;
  [str "recovery"] := new_inode KDir 511;
  [str "recovery"; str "command"] := new_inode (KFile wipe_command) 384
]}.

#[export] Instance cache_kernel_spec Dev : KernelSpec Dev (volume_kernel cache_volume).
Proof.
  apply volume_kernel_spec. intros q i Hi. unfold cache_volume in Hi.
  repeat (apply lookup_insert_Some in Hi as [[_ <-]|[_ Hi]]; [done|]). by apply lookup_singleton_Some in Hi as [_ <-].
Qed.

Definition boot_roots : Roots (dev (MtdDriver := no_flash boot_table)) :=
  roots_c (K := volume_kernel cache_volume) (FM := by_components) (VC := sample_vold) boot_table [] false.

Lemma roots_c_keeps_cache_witness : RootsSpec _ boot_roots.
Proof. apply (roots_c_keeps_cache (FM := by_components) (VC := sample_vold) boot_table [] false). exact boot_cache. Defined.

(** Before the cache is mounted. *)
Definition unmounted_tree (d : list Z) : tree := {[
  [] := new_inode KDir 493;
  [str "tmp"] := new_inode KDir 511;
  [str "dev"] := new_inode KDir 493;
  [str "dev"; str "block"] := new_inode KDir 493;
  demo_path := new_inode (KBlock d) 384;
  [str "cache"] := new_inode KDir 511
]}.

(** The restart of recovery with [roots.c]: the first boot mounts the cache, reads
    the command file there and stores the arguments. *)
Example roots_c_first_boot :
  match get_args (D := no_flash boot_table) (MI := fun _ _ => None) (R := boot_roots) 0 (fun _ => true) None 0
          (str "/sbin/recovery", [])
          (mkWorld (unmounted_tree (replicate 1088 0)) boot_globals (fun _ => 2000) 0 []) with
  | (Done argv, w) => bool_decide (argv = (str "/sbin/recovery", wipe_args)) &&
      bool_decide (w_fs w = demo_tree (message_bytes (message_for zero_message wipe_args)) wipe_command)
  | _ => false
  end = true.
Proof. vm_compute. reflexivity. Qed.
