(* ===== verification/World.v ===== *)
(** * The file system under the updater's tools

    Files by path, where the sources name them by a full path and never look at
    directories, and the calls of the C library they make on them. *)
From S2P Require Import Prelude.
From S2P Require Import Run.
Export Run.

Record file := mkFile { f_data : list Z; f_mode : Z; f_uid : Z; f_gid : Z }.

Abbreviation disk := (gmap string file).
Abbreviation world Dev := (Run.world disk Dev).
Abbreviation W Dev := (Run.W disk Dev).

Section Calls.
  Context {Dev : Type}.
  Abbreviation W := (W Dev).

(** [stat]: [inl] the file, [inr] whether the error is ENOENT. *)
Definition sys_stat (path : string) : W (file + bool) :=
  let! a := ask in let! fs := get_fs in
  match fs !! path with
  | None => wret (inr true)
  | Some f => if a <? 0 then wret (inr false) else wret (inl f)
  end.

(** [fopen(path, "rb")]. *)
Definition sys_fopen (path : string) : W (option (list Z)) :=
  let! a := ask in let! fs := get_fs in
  if a <? 0 then wret None else wret (f_data <$> fs !! path).

(** [fread] of [n] bytes at a position of an open file: the bytes it got. *)
Definition sys_fread (data : list Z) (pos n : Z) : W (list Z) :=
  let! a := ask in
  let got := take (Z.to_nat n) (drop (Z.to_nat pos) data) in
  wret (if a <? 0 then take (length got - 1) got else got).

(** [open(path, O_WRONLY | O_CREAT | O_TRUNC, S_IRUSR | S_IWUSR)]: whether it
    worked; an existing file keeps its owner and mode. *)
Definition sys_creat (path : string) : W bool :=
  let! a := ask in
  if a <? 0 then wret false
  else
    let! fs := get_fs in
    let f := match fs !! path with
      | Some f => mkFile [] (f_mode f) (f_uid f) (f_gid f)
      | None => mkFile [] 384 0 0
      end in
    let! _ := set_fs (<[path := f]> fs) in wret true.

(** [write] at the end of a file created by [sys_creat]: the return value.  A
    NULL buffer is EFAULT. *)
Definition sys_append (path : string) (data : option (list Z)) : W Z :=
  let! a := ask in
  match data with
  | None => wret (-1)
  | Some data =>
      if a <=? 0 then wret a
      else
        let n := Z.min a (zlen data) in
        let! fs := get_fs in
        match fs !! path with
        | None => wret n
        | Some f =>
            let! _ := set_fs (<[path := mkFile (f_data f ++ take (Z.to_nat n) data)
                                   (f_mode f) (f_uid f) (f_gid f)]> fs) in
            wret n
        end
  end.

(** [chmod], [chown], [unlink], [rename]: whether they worked. *)
Definition sys_update (path : string) (g : file -> file) : W bool :=
  let! a := ask in
  let! fs := get_fs in
  match fs !! path with
  | Some f => if a <? 0 then wret false else let! _ := set_fs (<[path := g f]> fs) in wret true
  | None => wret false
  end.

Definition sys_chmod (path : string) (mode : Z) : W bool :=
  sys_update path (fun f => mkFile (f_data f) mode (f_uid f) (f_gid f)).
Definition sys_chown (path : string) (uid gid : Z) : W bool :=
  sys_update path (fun f => mkFile (f_data f) (f_mode f) uid gid).

Definition sys_unlink (path : string) : W bool :=
  let! a := ask in
  if a <? 0 then wret false
  else let! fs := get_fs in let! _ := set_fs (delete path fs) in wret true.

Definition sys_rename (from to : string) : W bool :=
  let! a := ask in
  let! fs := get_fs in
  match fs !! from with
  | Some f => if a <? 0 then wret false
              else let! _ := set_fs (<[to := f]> (delete from fs)) in wret true
  | None => wret false
  end.

(** ** What the calls return *)

Lemma post_fopen path w (Q : option (list Z) -> world Dev -> Prop) :
  (forall w', w_fs w' = w_fs w -> Q None w' /\ Q (f_data <$> w_fs w !! path) w') -> post (sys_fopen path) w Q.
Proof.
  intros H a w'. unfold sys_fopen, ask, get_fs, wbind, wret. cbn. destruct (_ <? 0); intros [= <- <-];
    by apply H.
Qed.

(** What [fread] returns when it returns all it was asked for. *)
Lemma post_fread data pos n w (Q : list Z -> world Dev -> Prop) :
  (forall b w', w_fs w' = w_fs w -> (0 < n -> 0 <= pos -> zlen b = n -> buf_slice data pos n = Some b) -> Q b w') ->
  post (sys_fread data pos n) w Q.
Proof.
  intros H a w'. unfold sys_fread, ask, wbind, wret. cbn. intros [= <- <-]. apply H; [done|].
  intros Hn Hp. destruct (_ <? 0); rewrite ?length_take, ?length_drop; intros Hl; [lia|].
  apply buf_slice_some; lia.
Qed.

Lemma returns_fopen path w : calm w -> returns (sys_fopen path) w (f_data <$> w_fs w !! path).
Proof.
  intros H. unfold returns, sys_fopen, ask, get_fs, wbind, wret. cbn.
  rewrite (proj2 (Z.ltb_ge _ _) (H _)). by eexists.
Qed.

Lemma returns_fread data pos n w b :
  calm w -> buf_slice data pos n = Some b -> returns (sys_fread data pos n) w b.
Proof.
  intros H Hb. unfold returns, sys_fread, ask, wbind, wret. cbn. rewrite (proj2 (Z.ltb_ge _ _) (H _)).
  unfold buf_slice in Hb. destruct (_ && _); [|done]. injection Hb as <-. by eexists.
Qed.

End Calls.
