(* ===== verification/Verifier.v ===== *)
(** * Whole-file signatures ([verifier.c], [verifier.h])

    [verify_file] checks the RSA signature in the comment of an update package,
    [load_keys] parses the public keys of /res/keys.  The file system and its
    failures are those of World; mincrypt is the interface [Mincrypt], a SHA
    context is the bytes it was given.  The progress bar is left out. *)
From S2P Require Import Prelude Cstring Scanf World.
From Stdlib Require Import Ascii.
Open Scope string_scope.
Open Scope Z_scope.

Definition RSANUMBYTES : Z := 256.
Definition RSANUMWORDS : Z := 64.
Definition SHA_DIGEST_SIZE : Z := 20.
Definition SHA256_DIGEST_SIZE : Z := 32.

Record RSAPublicKey := mkKey {
  key_len : Z;
  key_n0inv : Z;
  key_n : list Z;
  key_rr : list Z;
  key_exponent : Z
}.

Record Certificate := mkCert { hash_len : Z; public_key : RSAPublicKey }.

Class Mincrypt := {
  SHA_final : list Z -> list Z;
  SHA256_final : list Z -> list Z;
  (** [RSA_verify(key, signature, RSANUMBYTES, hash, hash_len)] *)
  RSA_verify : RSAPublicKey -> list Z -> list Z -> Z -> bool
}.

Definition VERIFY_SUCCESS : Z := 0.
Definition VERIFY_FAILURE : Z := 1.
Definition FOOTER_SIZE : Z := 6.
Definition EOCD_HEADER_SIZE : Z := 22.
Definition BUFFER_SIZE : Z := 4096.

Section Verifier.
  Context {C : Mincrypt}.
  Context (malloc_ok : Z -> bool).
  Abbreviation W := (W unit).

(** [fseek(f, off, SEEK_END)] in a file of [size] bytes: the new position; a
    position is a 32-bit [long]. *)
Definition fseek_end (size off : Z) : W (option Z) :=
  let! a := ask in
  let pos := size + off in
  wret (if (a <? 0) || (pos <? 0) || (2 ^ 31 <=? pos) then None else Some pos).

(** The magic number $50 $4b $05 $06 at [eocd[i]]. *)
Definition eocd_marker_at (eocd : list Z) (i : Z) : option bool :=
  a ← buf_get eocd i;
  if negb (a =? 80) then Some false else
  b ← buf_get eocd (i + 1);
  if negb (b =? 75) then Some false else
  c ← buf_get eocd (i + 2);
  if negb (c =? 5) then Some false else
  d ← buf_get eocd (i + 3);
  Some (d =? 6).

(** [for (i = 4; i < eocd_size-3; ++i)], [count] iterations from [i]. *)
Fixpoint marker_after (count : nat) (eocd : list Z) (i : Z) : option bool :=
  match count with
  | O => Some false
  | S count =>
      found ← eocd_marker_at eocd i;
      if found : bool then Some true else marker_after count eocd (i + 1)
  end.

Definition need_hash (size : Z) (pKeys : list Certificate) : bool :=
  existsb (fun k => hash_len k =? size) pKeys.

(** [while (so_far < signed_len)]: the two contexts, [None] when a read fails. *)
Fixpoint hash_loop (fuel : nat) (data : list Z) (pos so_far signed_len : Z)
    (need_sha1 need_sha256 : bool) (sha1_ctx sha256_ctx : list Z)
  : W (option (list Z * list Z)) :=
  if so_far <? signed_len then
    match fuel with
    | O => wlift Diverge
    | S fuel =>
        let size := if signed_len - so_far <? BUFFER_SIZE then signed_len - so_far else BUFFER_SIZE in
        let! buffer := sys_fread data pos size in
        if negb (zlen buffer =? size) then wret None
        else hash_loop fuel data (pos + size) (so_far + size) signed_len need_sha1 need_sha256
               (if need_sha1 then sha1_ctx ++ buffer else sha1_ctx)%list
               (if need_sha256 then sha256_ctx ++ buffer else sha256_ctx)%list
    end
  else wret (Some (sha1_ctx, sha256_ctx)).

(** The loop over the keys; the signature is read where [RSA_verify] is called. *)
Fixpoint try_keys (pKeys : list Certificate) (eocd sha1 sha256 : list Z) : outcome Z :=
  match pKeys with
  | [] => Done VERIFY_FAILURE
  | key :: pKeys =>
      let check hash :=
        signature ← access (buf_slice eocd (zlen eocd - 6 - RSANUMBYTES) RSANUMBYTES);
        if RSA_verify (public_key key) signature hash (hash_len key) then Done VERIFY_SUCCESS
        else try_keys pKeys eocd sha1 sha256 in
      if hash_len key =? SHA_DIGEST_SIZE then check sha1
      else if hash_len key =? SHA256_DIGEST_SIZE then check sha256
      else try_keys pKeys eocd sha1 sha256
  end.

(** From the end-of-central-directory record on: its position in the file, and
    the bytes read. *)
Definition check_signature (data : list Z) (pKeys : list Certificate) (eocd_pos : Z) (eocd : list Z)
  : W Z :=
  let signed_len := eocd_pos + EOCD_HEADER_SIZE - 2 in
  let! magic := wlift (access (eocd_marker_at eocd 0)) in
  if negb magic then wret VERIFY_FAILURE else
  let! again := wlift (access (marker_after (Z.to_nat (zlen eocd - 3 - 4)) eocd 4)) in
  if again : bool then wret VERIFY_FAILURE else
  let need_sha1 := need_hash SHA_DIGEST_SIZE pKeys in
  let need_sha256 := need_hash SHA256_DIGEST_SIZE pKeys in
  if negb (malloc_ok BUFFER_SIZE) then wret VERIFY_FAILURE else
  let! a := ask in
  let pos := if a <? 0 then zlen data else 0 in
  let! ctxs := hash_loop (Z.to_nat (signed_len / BUFFER_SIZE + 1)) data pos 0 signed_len
                 need_sha1 need_sha256 [] [] in
  match ctxs with
  | None => wret VERIFY_FAILURE
  | Some (sha1_ctx, sha256_ctx) =>
      wlift (try_keys pKeys eocd (SHA_final sha1_ctx) (SHA256_final sha256_ctx))
  end.

Definition verify_file (path : string) (pKeys : list Certificate) : W Z :=
  let! f := sys_fopen path in
  match f with
  | None => wret VERIFY_FAILURE
  | Some data =>
      let! pos := fseek_end (zlen data) (- FOOTER_SIZE) in
      match pos with
      | None => wret VERIFY_FAILURE
      | Some pos =>
          let! footer := sys_fread data pos FOOTER_SIZE in
          match footer with
          | [f0; f1; f2; f3; f4; f5] =>
              if negb (f2 =? 255) || negb (f3 =? 255) then wret VERIFY_FAILURE else
              let comment_size := f4 + (f5 <<< 8) in
              let signature_start := f0 + (f1 <<< 8) in
              if signature_start - FOOTER_SIZE <? RSANUMBYTES then wret VERIFY_FAILURE else
              let eocd_size := comment_size + EOCD_HEADER_SIZE in
              let! pos := fseek_end (zlen data) (- eocd_size) in
              match pos with
              | None => wret VERIFY_FAILURE
              | Some pos =>
                  if negb (malloc_ok eocd_size) then wret VERIFY_FAILURE else
                  let! eocd := sys_fread data pos eocd_size in
                  if negb (zlen eocd =? eocd_size) then wret VERIFY_FAILURE
                  else check_signature data pKeys pos eocd
              end
          | _ => wret VERIFY_FAILURE
          end
      end
  end.

End Verifier.

(** ** Loading the keys *)

Section LoadKeys.

(** What the fields of freshly allocated memory happen to hold. *)
Context (junk_exponent junk_hash_len : Z).

(** [fscanf(f, " , %u", ...)] for [count] words. *)
Fixpoint scan_words (count : nat) (s : string) : option (list Z * string) :=
  match count with
  | O => Some ([], s)
  | S count =>
      s ← scan_literal "," (skip_spaces s);
      '(v, s) ← scan_u (skip_spaces s);
      '(vs, s) ← scan_words count s;
      Some (v :: vs, s)
  end.

(** An ordinary character at the end of a format: it is consumed if it is there. *)
Definition scan_optional (c : ascii) (s : string) : bool * string :=
  match s with
  | String c' s' => if Ascii.eqb c c' then (true, s') else (false, s)
  | EmptyString => (false, s)
  end.

(** [fscanf(f, " } } ")], whose result is not looked at. *)
Definition scan_close (s : string) : string :=
  let '(ok, s) := scan_optional "}" (skip_spaces s) in
  if ok then
    let '(ok, s) := scan_optional "}" (skip_spaces s) in
    if ok then skip_spaces s else s
  else s.

(** The start of a key: its exponent, its hash length and the rest. *)
Definition scan_version (s : string) : option (Z * Z * string) :=
  match skip_spaces s with
  | EmptyString => None
  | String start_char s =>
      if Ascii.eqb start_char "{" then Some (3, SHA_DIGEST_SIZE, s)
      else if Ascii.eqb start_char "v" then
        '(version, s) ← scan_d s;
        let s := (scan_optional "{" (skip_spaces s)).2 in
        if version =? 2 then Some (65537, SHA_DIGEST_SIZE, s)
        else if version =? 3 then Some (3, SHA256_DIGEST_SIZE, s)
        else if version =? 4 then Some (65537, SHA256_DIGEST_SIZE, s)
        else None
      else Some (junk_exponent, junk_hash_len, s)
  end.

(** One key, up to its closing braces; [None] is [goto exit]. *)
Definition load_key (s : string) : option (Certificate * string) :=
  '(e, h, s) ← scan_version s;
  '(klen, s) ← scan_i (skip_spaces s);
  s ← scan_literal "," (skip_spaces s);
  s ← scan_literal "0x" (skip_spaces s);
  '(n0, s) ← scan_x s;
  s ← scan_literal "," (skip_spaces s);
  s ← scan_literal "{" (skip_spaces s);
  '(n_0, s) ← scan_u (skip_spaces s);
  if negb (klen =? RSANUMWORDS) then None else
  '(ns, s) ← scan_words (Z.to_nat klen - 1) s;
  s ← scan_literal "}" (skip_spaces s);
  s ← scan_literal "," (skip_spaces s);
  s ← scan_literal "{" (skip_spaces s);
  '(rr_0, s) ← scan_u (skip_spaces s);
  '(rrs, s) ← scan_words (Z.to_nat klen - 1) s;
  Some (mkCert h (mkKey klen n0 (n_0 :: ns) (rr_0 :: rrs) e), scan_close s).

(** [while (!done)]; [None] is the NULL return, with [*numKeys] 0. *)
Fixpoint load_loop (fuel : nat) (s : string) : outcome (option (list Certificate)) :=
  match fuel with
  | O => Diverge
  | S fuel =>
      match load_key s with
      | None => Done None
      | Some (cert, s) =>
          match s with
          | EmptyString => Done (Some [cert])
          | String c s =>
              if Ascii.eqb c "," then
                more ← load_loop fuel s;
                Done (match more with None => None | Some certs => Some (cert :: certs) end)
              else Done None
          end
      end
  end.

(** [load_keys(filename, &numKeys)] on the text of the file, up to its end or the
    first byte that cannot be read: stdio reports both in the same way, and the
    code does not ask which it was. *)
Definition load_keys (file : option string) : outcome (option (list Certificate)) :=
  match file with
  | None => Done None
  | Some text => load_loop (S (String.length text)) text
  end.

End LoadKeys.

(** ** What a good signature is *)

Definition eocd_magic : list Z := [80; 75; 5; 6].
Definition marker_at (l : list Z) (i : Z) : Prop :=
  0 <= i /\ take 4 (drop (Z.to_nat i) l) = eocd_magic.

Section Facts.
  Context {C : Mincrypt} (malloc_ok : Z -> bool).

Definition key_hash (key : Certificate) (signed : list Z) : option (list Z) :=
  if hash_len key =? SHA_DIGEST_SIZE then Some (SHA_final signed)
  else if hash_len key =? SHA256_DIGEST_SIZE then Some (SHA256_final signed) else None.

(** [data] ends in an end-of-central-directory record, as long as its last two
    bytes say and with no other one after it, whose last bytes before the footer
    are the key's signature of everything up to the comment length. *)
Definition signed_at (data : list Z) (key : Certificate) (body eocd : list Z) : Prop :=
  exists front signature s0 s1 c0 c1 hash,
    data = (body ++ eocd)%list /\ eocd = (front ++ signature ++ [s0; s1; 255; 255; c0; c1])%list /\
    zlen signature = RSANUMBYTES /\ zlen eocd = c0 + 256 * c1 + EOCD_HEADER_SIZE /\
    RSANUMBYTES + FOOTER_SIZE <= s0 + 256 * s1 /\
    marker_at eocd 0 /\ (forall i, 4 <= i -> ~ marker_at eocd i) /\
    key_hash key (body ++ take 20 eocd)%list = Some hash /\
    RSA_verify (public_key key) signature hash (hash_len key) = true.

Lemma eocd_marker_at_drop (l : list Z) i :
  0 <= i ->
  eocd_marker_at l i =
    match drop (Z.to_nat i) l with
    | a :: k => if negb (a =? 80) then Some false else
      match k with
      | b :: k => if negb (b =? 75) then Some false else
        match k with
        | c :: k => if negb (c =? 5) then Some false else
          match k with d :: _ => Some (d =? 6) | [] => None end
        | [] => None end
      | [] => None end
    | [] => None end.
Proof.
  intros Hi. unfold eocd_marker_at. replace i with (i + 0) at 1 by lia. rewrite !buf_get_drop by lia.
  change (Z.to_nat 0) with 0%nat. change (Z.to_nat 1) with 1%nat. change (Z.to_nat 2) with 2%nat.
  change (Z.to_nat 3) with 3%nat.
  destruct (drop (Z.to_nat i) l) as [|a [|b [|c [|d k]]]]; done.
Qed.

Lemma eocd_marker_at_true (l : list Z) i : 0 <= i -> eocd_marker_at l i = Some true <-> marker_at l i.
Proof.
  intros Hi. rewrite eocd_marker_at_drop by done. unfold marker_at, eocd_magic.
  destruct (drop _ l) as [|a [|b [|c [|d k]]]]; cbn; case_bools; bool_to_prop; subst;
    (split; [intros H; try done | intros [_ H]; try congruence]).
  - injection H as H. bool_to_prop. by subst.
  - injection H as ->. done.
Qed.

Lemma eocd_marker_at_some (l : list Z) i :
  0 <= i -> i + 3 < zlen l -> exists b, eocd_marker_at l i = Some b.
Proof.
  intros Hi Hl. rewrite eocd_marker_at_drop by done. pose proof (length_drop l (Z.to_nat i)).
  destruct (drop _ l) as [|a [|b [|c [|d k]]]]; cbn in *; try lia. case_bools; eauto.
Qed.

Lemma marker_after_spec count : forall (l : list Z) i,
  0 <= i -> i + Z.of_nat count + 3 <= zlen l ->
  exists b, marker_after count l i = Some b /\
    (b = false <-> forall j, i <= j < i + Z.of_nat count -> ~ marker_at l j).
Proof.
  induction count as [|count IH]; intros l i Hi Hl; cbn [marker_after].
  - exists false. split; [done|]. split; [intros; lia|done].
  - destruct (eocd_marker_at_some l i) as [b Hb]; [lia|lia|]. rewrite Hb. cbn.
    pose proof (eocd_marker_at_true l i Hi) as Ht. rewrite Hb in Ht. destruct b.
    + exists true. split; [done|]. split; [done|]. intros H. destruct (H i); [lia|]. by apply Ht.
    + destruct (IH l (i + 1)) as (b & -> & Hspec); [lia|lia|]. exists b. split; [done|]. rewrite Hspec.
      split; intros H j Hj.
      * destruct (Z.eq_dec j i) as [->|]; [intros Hm; by apply Ht in Hm|]. apply H. lia.
      * apply H. lia.
Qed.

(** Nothing fits between the end of the search and the end of the record. *)
Lemma marker_at_bound (l : list Z) i : marker_at l i -> i + 4 <= zlen l.
Proof.
  intros [Hi H]. apply (f_equal length) in H. rewrite length_take, length_drop in H.
  change (length eocd_magic) with 4%nat in H. lia.
Qed.

Lemma no_marker_after (l : list Z) :
  22 <= zlen l ->
  exists b, marker_after (Z.to_nat (zlen l - 3 - 4)) l 4 = Some b /\
    (b = false <-> forall i, 4 <= i -> ~ marker_at l i).
Proof.
  intros Hl. destruct (marker_after_spec (Z.to_nat (zlen l - 3 - 4)) l 4) as (b & Hb & Hs); [lia|lia|].
  exists b. split; [done|]. rewrite Hs. split; intros H i Hi Hm; [|apply (H i); [lia|done]].
  apply (H i); [|done]. apply marker_at_bound in Hm. lia.
Qed.

Lemma take_slice_snoc (data : list Z) a n b :
  0 <= a -> buf_slice data a n = Some b -> (take (Z.to_nat a) data ++ b)%list = take (Z.to_nat (a + n)) data.
Proof.
  intros Ha Hb. unfold buf_slice in Hb. destruct (_ && _) eqn:E; [|done]. bool_to_prop. injection Hb as <-.
  rewrite take_take_drop. f_equal. lia.
Qed.

(** The loop feeds the first [signed_len] bytes to the contexts in use. *)
Lemma hash_loop_post fuel (data : list Z) signed_len (need1 need256 : bool) : forall so_far w (c1 c256 : list Z),
  0 <= so_far <= signed_len ->
  c1 = (if need1 then take (Z.to_nat so_far) data else []) ->
  c256 = (if need256 then take (Z.to_nat so_far) data else []) ->
  post (hash_loop fuel data so_far so_far signed_len need1 need256 c1 c256) w (fun r w' =>
    w_fs w' = w_fs w /\
    forall c1' c256' : list Z, r = Some (c1', c256') ->
      c1' = (if need1 then take (Z.to_nat signed_len) data else []) /\
      c256' = (if need256 then take (Z.to_nat signed_len) data else [])).
Proof.
  induction fuel as [|fuel IH]; intros so_far w c1 c256 Hs H1 H2; cbn [hash_loop];
    (destruct (Z.ltb_spec so_far signed_len);
      [|assert (so_far = signed_len) as -> by lia; apply post_ret; split; [done|]; by intros ?? [= <- <-]]).
  { by intros a w'. }
  set (size := if _ <? _ then _ else _).
  assert (0 < size /\ so_far + size <= signed_len) as [Hz Hle]
    by (subst size; unfold BUFFER_SIZE; destruct (Z.ltb_spec (signed_len - so_far) 4096); lia).
  apply post_bind, post_fread. intros b w1 Hf Hb.
  destruct (Z.eqb_spec (zlen b) size) as [Hl|]; cbn [negb]; [|apply post_ret; split; [done|]; done].
  specialize (Hb Hz ltac:(lia) Hl). pose proof (take_slice_snoc data so_far size b ltac:(lia) Hb) as Ht.
  intros r w2 Hr. apply IH in Hr; [|lia| |].
  - destruct Hr as [Hf2 Hr]. split; [congruence|done].
  - subst c1. destruct need1; [done|done].
  - subst c256. destruct need256; [done|done].
Qed.

Lemma hash_loop_returns fuel (data : list Z) signed_len (need1 need256 : bool) : forall so_far w (c1 c256 : list Z),
  0 <= so_far <= signed_len -> signed_len <= zlen data ->
  signed_len - so_far <= Z.of_nat fuel * BUFFER_SIZE -> calm w ->
  exists r, returns (hash_loop fuel data so_far so_far signed_len need1 need256 c1 c256) w (Some r).
Proof.
  induction fuel as [|fuel IH]; intros so_far w c1 c256 Hs Hd Hfuel Hc; cbn [hash_loop];
    (destruct (Z.ltb_spec so_far signed_len); [|eexists; by apply returns_ret]); [lia|].
  set (size := if _ <? _ then _ else _).
  assert (0 < size /\ so_far + size <= signed_len /\ (so_far + size = signed_len \/ size = BUFFER_SIZE))
    as (Hz & Hle & Hcase)
    by (subst size; unfold BUFFER_SIZE in *; destruct (Z.ltb_spec (signed_len - so_far) 4096); lia).
  pose proof (buf_slice_some data so_far size ltac:(lia) ltac:(lia) ltac:(lia)) as Hb.
  destruct (buf_slice_inv _ _ _ _ Hb) as (_ & _ & _ & Hl).
  destruct (returns_fread data so_far size w _ Hc Hb) as (w1 & E & Hf & Hc1).
  set (b := take _ _) in *.
  destruct (IH (so_far + size) w1 (if need1 then c1 ++ b else c1)%list (if need256 then c256 ++ b else c256)%list)
    as (r & w2 & E2 & Hf2 & Hc2); [lia|lia|unfold BUFFER_SIZE in *; lia|done|].
  exists r, w2. unfold wbind. rewrite E, Hl, Z.eqb_refl. cbn [negb]. split_and!; [done|congruence|done].
Qed.

(** Reading where the file ends gives nothing. *)
Lemma hash_loop_at_end fuel (data : list Z) signed_len need1 need256 c1 c256 w :
  0 < signed_len ->
  post (hash_loop fuel data (zlen data) 0 signed_len need1 need256 c1 c256) w (fun r _ => r = None).
Proof.
  intros Hs. destruct fuel as [|fuel]; cbn [hash_loop]; rewrite (proj2 (Z.ltb_lt _ _) Hs); [by intros ?|].
  set (size := if _ <? _ then _ else _).
  assert (0 < size) by (subst size; unfold BUFFER_SIZE; destruct (Z.ltb_spec (signed_len - 0) 4096); lia).
  apply post_bind, post_fread. intros b w1 _ Hb.
  destruct (Z.eqb_spec (zlen b) size) as [Hl|]; cbn [negb]; [|by apply post_ret].
  specialize (Hb ltac:(done) ltac:(lia) Hl). apply buf_slice_inv in Hb. lia.
Qed.

(** The hash the loop over the keys takes for a key. *)
Definition pick (key : Certificate) (sha1 sha256 : list Z) : option (list Z) :=
  if hash_len key =? SHA_DIGEST_SIZE then Some sha1
  else if hash_len key =? SHA256_DIGEST_SIZE then Some sha256 else None.

Lemma pick_key_hash keys key signed :
  key ∈ keys ->
  pick key (SHA_final (if need_hash SHA_DIGEST_SIZE keys then signed else []))
    (SHA256_final (if need_hash SHA256_DIGEST_SIZE keys then signed else [])) = key_hash key signed.
Proof.
  intros Hin. unfold pick, key_hash.
  assert (forall size, hash_len key = size -> need_hash size keys = true) as Hn.
  { intros size Hs. unfold need_hash. apply existsb_exists. exists key.
    split; [by apply list_elem_of_In|]. by apply Z.eqb_eq. }
  destruct (Z.eqb_spec (hash_len key) SHA_DIGEST_SIZE) as [E|]; [by rewrite (Hn _ E)|].
  destruct (Z.eqb_spec (hash_len key) SHA256_DIGEST_SIZE) as [E|]; [by rewrite (Hn _ E)|done].
Qed.

Lemma try_keys_success keys (eocd sha1 sha256 : list Z) :
  try_keys keys eocd sha1 sha256 = Done VERIFY_SUCCESS ->
  exists key signature hash, key ∈ keys /\
    buf_slice eocd (zlen eocd - 6 - RSANUMBYTES) RSANUMBYTES = Some signature /\
    pick key sha1 sha256 = Some hash /\ RSA_verify (public_key key) signature hash (hash_len key) = true.
Proof.
  induction keys as [|key keys IH]; cbn [try_keys]; [discriminate|].
  assert (try_keys keys eocd sha1 sha256 = Done VERIFY_SUCCESS ->
    exists key' signature hash, key' ∈ key :: keys /\
    buf_slice eocd (zlen eocd - 6 - RSANUMBYTES) RSANUMBYTES = Some signature /\
    pick key' sha1 sha256 = Some hash /\ RSA_verify (public_key key') signature hash (hash_len key') = true) as Hrest.
  { intros H. destruct (IH H) as (k & sg & h & Hin & ?). exists k, sg, h. split; [by right|done]. }
  clear IH. unfold pick in *.
  destruct (hash_len key =? SHA_DIGEST_SIZE) eqn:E1;
    [|destruct (hash_len key =? SHA256_DIGEST_SIZE) eqn:E2; [|done]];
  (destruct (buf_slice _ _ _) as [sg|]; [|discriminate]; cbn [access mbind outcome_bind];
   destruct (RSA_verify _ sg _ _) eqn:Hv; [|done]; intros _;
   exists key, sg; eexists; split; [by left|]; rewrite E1, ?E2; done).
Qed.

Lemma try_keys_complete keys (eocd sha1 sha256 : list Z) key signature hash :
  key ∈ keys -> buf_slice eocd (zlen eocd - 6 - RSANUMBYTES) RSANUMBYTES = Some signature ->
  pick key sha1 sha256 = Some hash -> RSA_verify (public_key key) signature hash (hash_len key) = true ->
  try_keys keys eocd sha1 sha256 = Done VERIFY_SUCCESS.
Proof.
  intros Hin Hs Hp Hv. induction keys as [|k keys IH]; cbn [try_keys]; [by apply not_elem_of_nil in Hin|].
  rewrite Hs. cbn [access mbind outcome_bind]. apply elem_of_cons in Hin as [<-|Hin].
  - unfold pick in Hp. destruct (_ =? _); [injection Hp as ->; by rewrite Hv|].
    destruct (_ =? _); [injection Hp as ->; by rewrite Hv|done].
  - rewrite (IH Hin). case_bools; done.
Qed.

Lemma check_signature_sound (data : list Z) keys pos eocd w :
  0 <= pos -> buf_slice data pos (zlen eocd) = Some eocd -> 22 <= zlen eocd ->
  post (check_signature malloc_ok data keys pos eocd) w (fun r _ => r = VERIFY_SUCCESS ->
    marker_at eocd 0 /\ (forall i, 4 <= i -> ~ marker_at eocd i) /\
    exists key signature hash, key ∈ keys /\
      buf_slice eocd (zlen eocd - 6 - RSANUMBYTES) RSANUMBYTES = Some signature /\
      key_hash key (take (Z.to_nat (pos + 20)) data) = Some hash /\
      RSA_verify (public_key key) signature hash (hash_len key) = true).
Proof.
  intros Hp Hd Hl. unfold check_signature. apply post_bind, post_lift. intros magic Hm%access_done.
  destruct magic; cbn [negb]; [|by apply post_ret]. apply eocd_marker_at_true in Hm; [|done].
  destruct (no_marker_after eocd Hl) as (b & -> & Hb). apply post_bind, post_lift. intros ? [= <-].
  destruct b; [by apply post_ret|]. destruct (negb _); [by apply post_ret|].
  apply post_bind, post_ask. intros a w1 _. apply post_bind.
  set (signed_len := pos + EOCD_HEADER_SIZE - 2). assert (signed_len = pos + 20) as Es by (unfold signed_len, EOCD_HEADER_SIZE; lia).
  destruct (a <? 0).
  - intros r w2 Hr. apply hash_loop_at_end in Hr; [|lia]. subst r. by apply post_ret.
  - intros r w2 Hr. apply hash_loop_post in Hr as [_ Hr]; [|lia|by case_bools|by case_bools].
    destruct r as [[c1 c256]|]; [|by apply post_ret]. destruct (Hr _ _ eq_refl) as [-> ->].
    apply post_lift. intros r Ht ->. split_and!; [done|by apply Hb|].
    destruct (try_keys_success _ _ _ _ Ht) as (key & sg & h & Hin & Hs & Hpk & Hv).
    rewrite pick_key_hash, Es in Hpk by done. eauto 10.
Qed.

Lemma post_fseek_end size off w (Q : option Z -> world unit -> Prop) :
  (forall w', w_fs w' = w_fs w -> Q None w') ->
  (forall w', w_fs w' = w_fs w -> 0 <= size + off -> Q (Some (size + off)) w') ->
  post (fseek_end size off) w Q.
Proof.
  intros Hn Hs. unfold fseek_end. apply post_bind, post_ask. intros a w1 Hf. apply post_ret.
  destruct (_ || _) eqn:E; [by apply Hn|]. bool_to_prop. by apply Hs.
Qed.

(** The footer is the end of the record. *)
Lemma eocd_shape (data eocd signature : list Z) (f : list Z) m :
  zlen f = 6 -> buf_slice data (zlen data - 6) 6 = Some f -> 0 <= m ->
  buf_slice data (zlen data - m) m = Some eocd ->
  buf_slice eocd (zlen eocd - 6 - 256) 256 = Some signature ->
  exists body front, data = (body ++ eocd)%list /\ eocd = (front ++ signature ++ f)%list /\
    zlen body = zlen data - m /\ zlen signature = 256.
Proof.
  intros Hf Hfoot Hm He Hs. pose proof (buf_slice_inv _ _ _ _ He) as (Ha & _ & _ & Hel).
  pose proof (buf_slice_inv _ _ _ _ Hs) as (Hb & _ & _ & Hsl).
  exists (take (Z.to_nat (zlen data - m)) data), (take (Z.to_nat (zlen eocd - 262)) eocd).
  rewrite buf_slice_some in He by lia. injection He as He. rewrite take_ge in He by (rewrite length_drop; lia).
  rewrite buf_slice_some in Hfoot by lia. injection Hfoot as Hfo.
  rewrite take_ge in Hfo by (rewrite length_drop; lia).
  rewrite buf_slice_some in Hs by lia. injection Hs as Hs.
  split_and!; [by rewrite <- He, take_drop| |rewrite length_take; lia|done].
  rewrite <- (take_drop (Z.to_nat (zlen eocd - 262)) eocd) at 1. f_equal.
  rewrite <- (take_drop 256 (drop (Z.to_nat (zlen eocd - 262)) eocd)).
  replace (zlen eocd - 6 - 256) with (zlen eocd - 262) in Hs by lia. rewrite <- Hs. f_equal.
  rewrite <- Hfo, <- He, !drop_drop. f_equal. rewrite length_drop. lia.
Qed.

Lemma footer_bytes (data : list Z) pos s0 s1 f2 f3 c0 c1 :
  bytes data -> buf_slice data pos 6 = Some [s0; s1; f2; f3; c0; c1] -> is_byte c0 /\ is_byte c1.
Proof.
  intros Hb Hs. unfold buf_slice in Hs. destruct (_ && _); [|done]. injection Hs as Hs.
  assert (bytes [s0; s1; f2; f3; c0; c1]) as H6 by (rewrite <- Hs; auto using bytes_take, bytes_drop).
  unfold bytes in H6. rewrite !Forall_cons in H6. tauto.
Qed.

Lemma verify_file_sound path keys w :
  (forall f, w_fs w !! path = Some f -> bytes (f_data f)) ->
  post (verify_file malloc_ok path keys) w (fun r _ => r = VERIFY_SUCCESS ->
    exists f key body eocd, w_fs w !! path = Some f /\ key ∈ keys /\ signed_at (f_data f) key body eocd).
Proof.
  intros Hbytes. unfold verify_file. apply post_bind, post_fopen. intros w1 _. split; [by apply post_ret|].
  destruct (w_fs w !! path) as [f|] eqn:Ef; cbn [fmap option_fmap option_map]; [|by apply post_ret].
  specialize (Hbytes f eq_refl). set (data := f_data f) in *.
  apply post_bind, post_fseek_end; intros w2 _; [by apply post_ret|]. intros Hlen.
  apply post_bind, post_fread. intros foot w3 _ Hfoot.
  destruct foot as [|s0 [|s1 [|f2 [|f3 [|c0 [|c1 [|]]]]]]]; try by apply post_ret.
  destruct (negb _ || negb _) eqn:Eff; [by apply post_ret|].
  destruct (_ <? _) eqn:Esig; [by apply post_ret|]. rewrite !Z.shiftl_mul_pow2 in * by lia.
  unfold FOOTER_SIZE in *. specialize (Hfoot ltac:(lia) ltac:(lia) eq_refl).
  destruct (footer_bytes _ _ _ _ _ _ _ _ Hbytes Hfoot) as [Hc0 Hc1]. unfold is_byte in *.
  set (m := c0 + c1 * 2 ^ 8 + EOCD_HEADER_SIZE). assert (22 <= m) by (unfold m, EOCD_HEADER_SIZE; lia).
  apply post_bind, post_fseek_end; intros w4 _; [by apply post_ret|]. intros Hpos.
  destruct (malloc_ok m); cbn [negb]; [|by apply post_ret]. apply post_bind, post_fread. intros eocd w5 _ He.
  destruct (Z.eqb_spec (zlen eocd) m) as [Hm|]; cbn [negb]; [|by apply post_ret].
  specialize (He ltac:(lia) ltac:(lia) Hm). intros r w6 Hr ->.
  apply check_signature_sound in Hr; [|lia|by rewrite Hm|lia].
  destruct (Hr eq_refl) as (H0 & Hno & key & sg & hash & Hin & Hsg & Hh & Hv).
  destruct (eocd_shape data eocd sg [s0; s1; f2; f3; c0; c1] m) as (body & front & Hd & Hee & Hbl & Hsl);
    [done|done|lia|done|done|].
  bool_to_prop. subst f2 f3. exists f, key, body, eocd. split; [done|]. split; [done|].
  exists front, sg, s0, s1, c0, c1, hash. unfold RSANUMBYTES, FOOTER_SIZE in *.
  split_and!; try done; [rewrite Hm; unfold m; lia|lia|].
  rewrite <- Hh. f_equal. replace (Z.to_nat _) with (length body + 20)%nat by lia.
  by rewrite Hd, take_app_add.
Qed.

Lemma fseek_end_returns size off w :
  calm w -> 0 <= size + off < 2 ^ 31 -> returns (fseek_end size off) w (Some (size + off)).
Proof.
  intros Hc Hs. destruct (returns_ask w Hc) as (a & Ha & Hr). unfold fseek_end.
  apply (returns_bind _ _ _ _ _ Hr). intros w1 _ Hc1.
  rewrite (proj2 (Z.ltb_ge _ _) Ha), (proj2 (Z.ltb_ge _ 0)), (proj2 (Z.leb_gt _ _)) by lia.
  by apply returns_ret.
Qed.

Lemma check_signature_complete keys body eocd key signature hash w :
  (forall n, malloc_ok n = true) -> calm w -> 22 <= zlen eocd -> key ∈ keys ->
  marker_at eocd 0 -> (forall i, 4 <= i -> ~ marker_at eocd i) ->
  buf_slice eocd (zlen eocd - 6 - RSANUMBYTES) RSANUMBYTES = Some signature ->
  key_hash key (body ++ take 20 eocd) = Some hash ->
  RSA_verify (public_key key) signature hash (hash_len key) = true ->
  returns (check_signature malloc_ok (body ++ eocd) keys (zlen body) eocd) w VERIFY_SUCCESS.
Proof.
  intros Hmal Hc Hl Hin H0 Hno Hsg Hh Hv. unfold check_signature.
  apply eocd_marker_at_true in H0; [|done]. rewrite H0.
  apply (returns_bind _ _ _ true); [by apply returns_lift|]. intros w1 _ Hc1. cbn [negb].
  destruct (no_marker_after eocd Hl) as (b & -> & Hb). apply Hb in Hno. subst b.
  apply (returns_bind _ _ _ false); [by apply returns_lift|]. intros w2 _ Hc2. rewrite Hmal. cbn [negb].
  destruct (returns_ask w2 Hc2) as (a & Ha & Hr). apply (returns_bind _ _ _ _ _ Hr). intros w3 _ Hc3.
  rewrite (proj2 (Z.ltb_ge _ _) Ha). set (signed_len := zlen body + EOCD_HEADER_SIZE - 2).
  assert (signed_len = zlen body + 20) as Es by (unfold signed_len, EOCD_HEADER_SIZE; lia).
  destruct (hash_loop_returns (Z.to_nat (signed_len / BUFFER_SIZE + 1)) (body ++ eocd) signed_len
    (need_hash SHA_DIGEST_SIZE keys) (need_hash SHA256_DIGEST_SIZE keys) 0 w3 [] []) as [[c1 c256] Hret];
    [lia|rewrite length_app; lia| |done|].
  { unfold BUFFER_SIZE. pose proof (Z.div_pos signed_len 4096). pose proof (Z_div_mod_eq_full signed_len 4096).
    pose proof (Z.mod_pos_bound signed_len 4096). lia. }
  apply (returns_bind _ _ _ _ _ Hret). intros w4 _ Hc4. apply returns_lift; [done|].
  destruct Hret as (w5 & E & _). apply hash_loop_post in E as [_ E]; [|lia|by case_bools|by case_bools].
  destruct (E _ _ eq_refl) as [-> ->].
  apply (try_keys_complete _ _ _ _ key signature hash); [done|done| |done].
  rewrite pick_key_hash, Es by done. rewrite <- Hh. f_equal.
  replace (Z.to_nat _) with (length body + 20)%nat by lia. by rewrite take_app_add.
Qed.

Lemma verify_file_complete path keys w f key body eocd :
  (forall n, malloc_ok n = true) -> calm w -> w_fs w !! path = Some f -> zlen (f_data f) < 2 ^ 31 ->
  key ∈ keys -> bytes (f_data f) -> signed_at (f_data f) key body eocd ->
  returns (verify_file malloc_ok path keys) w VERIFY_SUCCESS.
Proof.
  intros Hmal Hc Hf Hsz Hin Hbytes
    (front & sg & s0 & s1 & c0 & c1 & hash & Hd & He & Hsl & Hel & Hst & H0 & Hno & Hh & Hv).
  unfold RSANUMBYTES, FOOTER_SIZE, EOCD_HEADER_SIZE in *.
  assert (zlen eocd = zlen front + 262) as Hfront by (rewrite He, !length_app; cbn [length]; lia).
  assert (zlen (f_data f) = zlen body + zlen eocd) as Hlen by (rewrite Hd, length_app; lia).
  assert (buf_slice (f_data f) (zlen (f_data f) + - (6)) 6 = Some [s0; s1; 255; 255; c0; c1]) as Hfoot.
  { rewrite Hd, He. rewrite (app_assoc front), (app_assoc body), <- (app_nil_r [s0; s1; 255; 255; c0; c1]).
    apply buf_slice_mid; [|done]. rewrite !length_app. cbn [length]. lia. }
  destruct (footer_bytes _ _ _ _ _ _ _ _ Hbytes Hfoot) as [Hb0 Hb1]. unfold is_byte in *.
  unfold verify_file. apply (returns_bind _ _ _ (Some (f_data f))).
  { replace (Some (f_data f)) with (f_data <$> w_fs w !! path) by (by rewrite Hf). by apply returns_fopen. }
  intros w1 _ Hc1. unfold FOOTER_SIZE, EOCD_HEADER_SIZE, RSANUMBYTES.
  eapply returns_bind; [apply fseek_end_returns; [done|lia]|]. intros w2 _ Hc2.
  eapply returns_bind; [apply returns_fread; done|]. intros w3 _ Hc3. cbn [Z.eqb Pos.eqb negb orb].
  rewrite !Z.shiftl_mul_pow2 by lia. rewrite (proj2 (Z.ltb_ge _ 256)) by lia.
  replace (c0 + c1 * 2 ^ 8 + 22) with (zlen eocd) by lia.
  eapply returns_bind; [apply fseek_end_returns; [done|lia]|]. intros w4 _ Hc4. rewrite Hmal. cbn [negb].
  replace (zlen (f_data f) + - zlen eocd) with (zlen body) by lia.
  eapply returns_bind.
  { apply returns_fread; [done|]. rewrite Hd, <- (app_nil_r eocd) at 1. by apply buf_slice_mid. }
  intros w5 _ Hc5. rewrite Z.eqb_refl. cbn [negb]. rewrite Hd.
  apply (check_signature_complete _ _ _ key sg hash); try done; [lia|].
  unfold RSANUMBYTES. rewrite He at 1. apply buf_slice_mid; [|done]. lia.
Qed.

End Facts.

(** ** Loading keys: what the parser reads back *)

(** The text of a word: a signed decimal numeral, as Java prints an [int]. *)
Definition word : Type := bool * list Z.
Definition word_text (w : word) : string := numeral w.1 w.2.
Definition word_value (w : word) : Z :=
  wrap 32 (if w.1 then - digits_value 0 w.2 else digits_value 0 w.2).
Definition word_ok (w : word) : Prop := w.2 ≠ [] /\ Forall (fun d => 0 <= d < 10) w.2.

(** A key as DumpPublicKey prints it. *)
Record dumped_key := mkDump {
  d_version : Z;
  d_n0inv : list Z;
  d_n0 : word; d_ns : list word;
  d_rr0 : word; d_rrs : list word
}.

Fixpoint words_text (ws : list word) : string :=
  match ws with [] => "" | w :: ws => "," ++ word_text w ++ words_text ws end.

Definition version_text (v : Z) : string :=
  if v =? 1 then "{" else "v" ++ String (digit_char v) " {".

(** The key without its first characters. *)
Definition key_text (d : dumped_key) : string :=
  "64,0x" ++ hex_string (d_n0inv d) ++ ",{" ++ word_text (d_n0 d) ++ words_text (d_ns d) ++
  "},{" ++ word_text (d_rr0 d) ++ words_text (d_rrs d) ++ "}}".

Definition dump_text (d : dumped_key) : string := version_text (d_version d) ++ key_text d.

(** Several keys, separated by commas. *)
Fixpoint dump_file (d : dumped_key) (ds : list dumped_key) : string :=
  match ds with [] => dump_text d | d' :: ds => dump_text d ++ "," ++ dump_file d' ds end.

Record dump_ok (d : dumped_key) : Prop := {
  ok_version : 1 <= d_version d <= 4;
  ok_n0inv : d_n0inv d ≠ [] /\ Forall (fun x => 0 <= x < 16) (d_n0inv d) /\ in_u 32 (hex_digits_value 0 (d_n0inv d));
  ok_n : Forall word_ok (d_n0 d :: d_ns d) /\ length (d_ns d) = 63%nat;
  ok_rr : Forall word_ok (d_rr0 d :: d_rrs d) /\ length (d_rrs d) = 63%nat
}.

(** The table of the comment: version, exponent and hash. *)
Definition version_exponent (v : Z) : Z := if (v =? 1) || (v =? 3) then 3 else 65537.
Definition version_hash (v : Z) : Z := if (v =? 1) || (v =? 2) then SHA_DIGEST_SIZE else SHA256_DIGEST_SIZE.

Definition dump_key_of (e : Z) (d : dumped_key) : RSAPublicKey :=
  mkKey 64 (hex_digits_value 0 (d_n0inv d)) (word_value <$> d_n0 d :: d_ns d) (word_value <$> d_rr0 d :: d_rrs d) e.

Definition dump_cert (d : dumped_key) : Certificate :=
  mkCert (version_hash (d_version d)) (dump_key_of (version_exponent (d_version d)) d).

Section LoadFacts.
  Context (je jh : Z).
#[local] Arguments String.append !s1 s2 / : simpl nomatch.

Lemma words_text_stop ws c s :
  digit_value c = None ->
  exists c' s', words_text ws ++ String c s = String c' s' /\ digit_value c' = None.
Proof. destruct ws as [|w ws]; intros Hc; [by exists c, s|]. cbn [words_text]. str_norm. by do 2 eexists. Qed.

Lemma scan_word w ws c s :
  word_ok w -> digit_value c = None ->
  scan_u (skip_spaces (word_text w ++ words_text ws ++ String c s)) =
    Some (word_value w, words_text ws ++ String c s).
Proof.
  intros [Hne Hds] Hc. destruct (words_text_stop ws c s Hc) as (c' & s' & -> & Hc').
  by apply scan_u_numeral.
Qed.

Lemma scan_words_text ws c s :
  Forall word_ok ws -> digit_value c = None ->
  scan_words (length ws) (words_text ws ++ String c s) = Some (word_value <$> ws, String c s).
Proof.
  intros Hws Hc. induction Hws as [|w ws Hw _ IH]; [done|].
  cbn [words_text length scan_words]. str_norm. cbn [skip_spaces]. change (isspace ",") with false.
  cbn [scan_literal Ascii.eqb Bool.eqb mbind option_bind].
  rewrite scan_word by done. cbn [mbind option_bind]. by rewrite IH.
Qed.

Lemma skip_nonspace c s : isspace c = false -> skip_spaces (String c s) = String c s.
Proof. intros H. cbn. by rewrite H. Qed.

Lemma scan_i_64 s : scan_i (String "6" (String "4" (String "," s))) = Some (64, String "," s).
Proof.
  unfold scan_i. rewrite skip_nonspace by done. cbn [scan_sign].
  rewrite bool_decide_eq_true_2 by (cbn; by destruct s). done.
Qed.

(** An ordinary character of a format after white space. *)
Lemma scan_char c lit s :
  isspace c = false -> scan_literal (String c lit) (skip_spaces (String c s)) = scan_literal lit s.
Proof. intros H. rewrite skip_nonspace by done. cbn. by rewrite Ascii.eqb_refl. Qed.

Lemma scan_same c lit s : scan_literal (String c lit) (String c s) = scan_literal lit s.
Proof. cbn. by rewrite Ascii.eqb_refl. Qed.

Lemma scan_nil s : scan_literal "" s = Some s.
Proof. done. Qed.

Lemma scan_close_braces s : scan_close (String "}" (String "}" s)) = skip_spaces s.
Proof. done. Qed.

(** After the first characters, up to the closing braces. *)
Lemma scan_body d rest e h s :
  dump_ok d -> scan_version je jh s = Some (e, h, key_text d ++ rest) ->
  load_key je jh s = Some (mkCert h (dump_key_of e d), skip_spaces rest).
Proof.
  intros [_ (Hn0 & Hn0d & Hn0v) [Hn Hnl] [Hrr Hrl]] Hv. unfold load_key. rewrite Hv. cbn [mbind option_bind].
  apply Forall_cons in Hn as [Hn1 Hn2]. apply Forall_cons in Hrr as [Hr1 Hr2].
  unfold key_text. str_norm. rewrite skip_nonspace, scan_i_64 by done. cbn [mbind option_bind].
  rewrite scan_char, scan_nil by done. cbn [mbind option_bind].
  rewrite scan_char, scan_same, scan_nil by done. cbn [mbind option_bind].
  destruct (scan_x_hex (d_n0inv d) "," (String "{" (word_text (d_n0 d) ++ words_text (d_ns d) ++
    String "}" (String "," (String "{" (word_text (d_rr0 d) ++ words_text (d_rrs d) ++
    String "}" (String "}" rest))))))) as [-> _]; try done. cbn [mbind option_bind].
  do 2 (rewrite scan_char, scan_nil by done; cbn [mbind option_bind]).
  rewrite scan_word by done. cbn [mbind option_bind].
  change (negb (64 =? RSANUMWORDS)) with false. cbv beta iota.
  change (Z.to_nat 64 - 1)%nat with 63%nat. rewrite <- Hnl at 1. rewrite scan_words_text by done.
  cbn [mbind option_bind].
  do 3 (rewrite scan_char, scan_nil by done; cbn [mbind option_bind]).
  rewrite scan_word by done. cbn [mbind option_bind]. rewrite <- Hrl, scan_words_text by done.
  cbn [mbind option_bind]. by rewrite scan_close_braces.
Qed.

Lemma scan_version_dump d rest :
  dump_ok d ->
  scan_version je jh (dump_text d ++ rest) =
    Some (version_exponent (d_version d), version_hash (d_version d), key_text d ++ rest).
Proof.
  intros [Hv _ _ _]. unfold dump_text, version_text. generalize (key_text d). intros k.
  assert (d_version d = 1 \/ d_version d = 2 \/ d_version d = 3 \/ d_version d = 4) as Hc by lia.
  destruct Hc as [-> | [-> | [-> | ->]]]; reflexivity.
Qed.

Lemma load_dump d rest :
  dump_ok d -> load_key je jh (dump_text d ++ rest) = Some (dump_cert d, skip_spaces rest).
Proof. intros Hd. apply scan_body; [done|]. by apply scan_version_dump. Qed.

Lemma append_empty s : s ++ "" = s.
Proof. induction s as [|c s IH]; [done|]. cbn. by rewrite IH. Qed.

Lemma load_loop_dump ds : forall d fuel trail,
  Forall dump_ok (d :: ds) -> (length ds < fuel)%nat -> skip_spaces trail = "" ->
  load_loop je jh fuel (dump_file d ds ++ trail) = Done (Some (dump_cert <$> d :: ds)).
Proof.
  induction ds as [|d' ds IH]; intros d fuel trail Hok Hf Ht; apply Forall_cons in Hok as [Hd Hds];
    (destruct fuel as [|fuel]; [lia|]); cbn [dump_file load_loop].
  - rewrite load_dump, Ht by done. done.
  - str_norm. rewrite load_dump by done. rewrite skip_nonspace by done.
    cbn [Ascii.eqb Bool.eqb]. rewrite IH by (done || (cbn in Hf; lia)). done.
Qed.

Lemma dump_file_length ds : forall d, (length ds <= String.length (dump_file d ds))%nat.
Proof.
  induction ds as [|d' ds IH]; intros d; cbn [dump_file length]; [lia|].
  rewrite !append_length. specialize (IH d'). cbn. lia.
Qed.

(** ** Every file is parsed to an end *)

Lemma scan_words_le count : forall s vs s',
  scan_words count s = Some (vs, s') -> (String.length s' <= String.length s)%nat.
Proof.
  induction count as [|count IH]; intros s vs s'; cbn [scan_words]; [by intros [= _ <-]|].
  pose proof (skip_spaces_le s). destruct (scan_literal _ _) as [s1|] eqn:E1; [|done]. cbn [mbind option_bind].
  apply scan_literal_le in E1. pose proof (skip_spaces_le s1).
  destruct (scan_u _) as [[v s2]|] eqn:E2; [|done]. cbn [mbind option_bind]. apply scan_u_le in E2.
  destruct (scan_words count s2) as [[vs' s3]|] eqn:E3; [|done]. cbn. intros [= _ <-]. apply IH in E3. lia.
Qed.

Lemma scan_optional_le c s b s' : scan_optional c s = (b, s') -> (String.length s' <= String.length s)%nat.
Proof.
  destruct s as [|c' s]; cbn; [by intros [= _ <-]|]. destruct (Ascii.eqb c c'); intros [= _ <-]; cbn; lia.
Qed.

Lemma scan_close_le s : (String.length (scan_close s) <= String.length s)%nat.
Proof.
  unfold scan_close. pose proof (skip_spaces_le s). destruct (scan_optional _ _) as [b1 s1] eqn:E1.
  apply scan_optional_le in E1. destruct b1; [|lia]. pose proof (skip_spaces_le s1).
  destruct (scan_optional _ (skip_spaces s1)) as [b2 s2] eqn:E2. apply scan_optional_le in E2.
  pose proof (skip_spaces_le s2). destruct b2; lia.
Qed.

(** A key starts with a character. *)
Lemma scan_version_lt s e h s' :
  scan_version je jh s = Some (e, h, s') -> (String.length s' < String.length s)%nat.
Proof.
  unfold scan_version. pose proof (skip_spaces_le s). destruct (skip_spaces s) as [|c t]; [done|].
  cbn [String.length] in *. destruct (Ascii.eqb c "{"); [intros [= _ _ <-]; lia|].
  destruct (Ascii.eqb c "v"); [|intros [= _ _ <-]; lia].
  destruct (scan_d t) as [[v t1]|] eqn:E; [|done]. apply scan_d_le in E. cbn [mbind option_bind].
  pose proof (skip_spaces_le t1). destruct (scan_optional "{" (skip_spaces t1)) as [b t2] eqn:E2.
  apply scan_optional_le in E2. cbn [snd]. case_bools; intros H'; try done; injection H' as _ _ <-; lia.
Qed.

(** Takes the steps of a scan one by one, keeping what each does to the length. *)
Ltac scan_step :=
  match goal with
  | |- context [scan_literal ?l (skip_spaces ?s)] =>
      let E := fresh "E" in pose proof (skip_spaces_le s);
      destruct (scan_literal l (skip_spaces s)) eqn:E; [apply scan_literal_le in E|done]; cbn [mbind option_bind]
  | |- context [scan_u (skip_spaces ?s)] =>
      let E := fresh "E" in pose proof (skip_spaces_le s);
      destruct (scan_u (skip_spaces s)) as [[??]|] eqn:E; [apply scan_u_le in E|done]; cbn [mbind option_bind]
  | |- context [scan_i (skip_spaces ?s)] =>
      let E := fresh "E" in pose proof (skip_spaces_le s);
      destruct (scan_i (skip_spaces s)) as [[??]|] eqn:E; [apply scan_i_le in E|done]; cbn [mbind option_bind]
  | |- context [scan_x ?s] =>
      let E := fresh "E" in destruct (scan_x s) as [[??]|] eqn:E; [apply scan_x_le in E|done]; cbn [mbind option_bind]
  | |- context [scan_words ?c ?s] =>
      let E := fresh "E" in destruct (scan_words c s) as [[??]|] eqn:E; [apply scan_words_le in E|done]; cbn [mbind option_bind]
  end.

Lemma load_key_lt s cert s' : load_key je jh s = Some (cert, s') -> (String.length s' < String.length s)%nat.
Proof.
  unfold load_key. destruct (scan_version je jh s) as [[[e h] s0]|] eqn:E0; [|done].
  apply scan_version_lt in E0. cbn [mbind option_bind]. do 7 scan_step. destruct (negb _); [done|].
  do 6 scan_step. match goal with |- context [scan_close ?s] => pose proof (scan_close_le s) end.
  intros [= _ <-]. lia.
Qed.

Lemma load_loop_returns fuel : forall s, (String.length s < fuel)%nat -> exists r, load_loop je jh fuel s = Done r.
Proof.
  induction fuel as [|fuel IH]; intros s Hf; [lia|]. cbn [load_loop].
  destruct (load_key je jh s) as [[cert s']|] eqn:E; [|eauto]. apply load_key_lt in E.
  destruct s' as [|c s']; [eauto|]. destruct (Ascii.eqb c ","); [|eauto].
  destruct (IH s') as [r ->]; [cbn in E; lia|]. cbn. eauto.
Qed.

End LoadFacts.

(** ** Properties *)

(** [C4] [verify_file] accepts exactly the files that carry a good signature.
    Whatever the system calls do, a return of [VERIFY_SUCCESS] means that the
    file ends in an end-of-central-directory record of the length its footer
    says, with no second marker after it, and that one of the keys verifies the
    signature in front of the footer over everything up to the comment length.
    And when no call fails, every such file is accepted. *)
Theorem verify_file_accepts_exactly {C : Mincrypt} malloc_ok path keys (w : world unit) f
    (Hf : w_fs w !! path = Some f) (Hb : bytes (f_data f)) :
  (forall w', verify_file malloc_ok path keys w = (Done VERIFY_SUCCESS, w') ->
    exists key body eocd, key ∈ keys /\ signed_at (f_data f) key body eocd) /\
  ((forall n, malloc_ok n = true) -> calm w -> zlen (f_data f) < 2 ^ 31 ->
    (exists key body eocd, key ∈ keys /\ signed_at (f_data f) key body eocd) ->
    exists w', verify_file malloc_ok path keys w = (Done VERIFY_SUCCESS, w')).
Proof.
  split.
  - intros w' H. apply verify_file_sound in H; [|intros f' E; congruence].
    destruct (H eq_refl) as (f' & key & body & eocd & E & Hin & Hs). assert (f' = f) as -> by congruence. eauto.
  - intros Hm Hc Hsz (key & body & eocd & Hin & Hs).
    destruct (verify_file_complete malloc_ok path keys w f key body eocd) as (w' & E & _); eauto.
Qed.

(** A hash that is the length of its input and a signature that repeats it. *)
#[local] Instance toy_crypt : Mincrypt := {
  SHA_final l := [zlen l];
  SHA256_final l := [zlen l + 1];
  RSA_verify _ signature hash _ := bool_decide (take 1 signature = hash)
}.

Definition toy_key : RSAPublicKey := mkKey 64 0 [] [] 3.

(** A package of 24 bytes before the comment length and a comment with a signature. *)
Definition toy_package : list Z :=
  [1; 2; 3; 4; 80; 75; 5; 6; 0; 0; 0; 0; 0; 0; 0; 0; 0; 0; 0; 0; 0; 0; 0; 0] ++ [6; 1] ++
  24 :: replicate 255 0 ++ [6; 1; 255; 255; 6; 1].

Definition toy_world : world unit :=
  mkWorld {["/cache/update.zip" := mkFile toy_package 420 0 0]} tt (fun _ => 0) 0 [].

Lemma verify_file_accepts_exactly_witness :
  exists key body eocd, key ∈ [mkCert 20 toy_key] /\ signed_at toy_package key body eocd.
Proof.
  apply (verify_file_accepts_exactly (fun _ => true) "/cache/update.zip" [mkCert 20 toy_key] toy_world
    (mkFile toy_package 420 0 0) eq_refl ltac:(by_decide))
    with (w' := (verify_file (fun _ => true) "/cache/update.zip" [mkCert 20 toy_key] toy_world).2).
  vm_compute. reflexivity.
Defined.

(** A record with a six-byte comment whose footer announces 262 bytes of signature. *)
Definition short_package : list Z :=
  [80; 75; 5; 6; 0; 0; 0; 0; 0; 0; 0; 0; 0; 0; 0; 0; 0; 0; 0; 0; 6; 0; 6; 1; 255; 255; 6; 0].

(** The footer's signature size is checked, the comment size is not: on a
    28-byte file with a six-byte comment [verify_file] gets to [RSA_verify] with
    a pointer 234 bytes before its buffer, whatever the key and the hash. *)
Theorem verify_file_short_comment_undefined {C : Mincrypt} key log :
  (verify_file (fun _ => true) "/cache/update.zip" [mkCert SHA_DIGEST_SIZE key]
     (mkWorld {["/cache/update.zip" := mkFile short_package 420 0 0]} tt (fun _ => 0) 0 log)).1 = Undef.
Proof. vm_compute. reflexivity. Qed.

(** [C34] [load_keys] parses every text to an end; a file of keys as DumpPublicKey
    prints them - any of the four versions, words as signed decimal numerals,
    separated by commas and followed by white space - gives back those keys,
    with the exponent and the hash the comment's table has for the version. *)
Theorem load_keys_roundtrip je jh d ds trail
    (Hok : Forall dump_ok (d :: ds)) (Ht : skip_spaces trail = "") :
  (forall file, exists r, load_keys je jh file = Done r) /\
  load_keys je jh (Some (dump_file d ds ++ trail)) = Done (Some (dump_cert <$> d :: ds)).
Proof.
  split.
  - intros [text|]; unfold load_keys; [|eauto]. apply load_loop_returns. lia.
  - apply load_loop_dump; [done| |done]. rewrite append_length. pose proof (dump_file_length ds d). lia.
Qed.

Definition toy_dump (v : Z) : dumped_key :=
  mkDump v [12; 9; 2; 6; 10; 13; 2; 1] (false, [1; 7; 9]) (replicate 63 (true, [6; 9; 5]))
    (true, [8; 5]) (replicate 63 (false, [0])).

Lemma toy_dump_ok v : 1 <= v <= 4 -> dump_ok (toy_dump v).
Proof.
  intros Hv. assert (Forall word_ok (replicate 63 (true, [6; 9; 5])) /\ Forall word_ok (replicate 63 (false, [0]))) as [H1 H2].
  { split; apply Forall_replicate; split; by_decide || done. }
  split; cbn [toy_dump d_version d_n0inv d_n0 d_ns d_rr0 d_rrs]; try done.
  - split; [done|]. split; by_decide.
  - split; [|done]. constructor; [split; by_decide || done|done].
  - split; [|done]. constructor; [split; by_decide || done|done].
Qed.

Lemma load_keys_roundtrip_witness :
  (forall file, exists r, load_keys 0 0 file = Done r) /\
  load_keys 0 0 (Some (dump_file (toy_dump 1) [toy_dump 4] ++ String newline "")) =
    Done (Some [dump_cert (toy_dump 1); dump_cert (toy_dump 4)]).
Proof.
  apply (load_keys_roundtrip 0 0 (toy_dump 1) [toy_dump 4] (String newline "")); [|done].
  repeat apply Forall_cons_2; try apply toy_dump_ok; try lia. apply Forall_nil_2.
Defined.

(** A key that starts with neither a brace nor a version is accepted with
    whatever exponent and hash length the memory held. *)
Lemma load_keys_uninitialised je jh d :
  dump_ok d ->
  load_keys je jh (Some (String "x" (key_text d))) = Done (Some [mkCert jh (dump_key_of je d)]).
Proof.
  intros Hd. unfold load_keys. cbn [load_loop].
  rewrite (scan_body je jh d "" je jh); [done|done|]. by rewrite append_empty.
Qed.
