(* ===== verification/Zip.v ===== *)
(** * Zip archives ([minzip/Zip.c], [Zip.h], the accessors of [Bits.h])

    An archive is parsed in its memory mapping: the end-of-central-directory
    record is found by scanning backwards, the central directory is read into an
    array sorted by name, and the entries go into the hash table of HashTable.

    The machine is the 32-bit one the recovery runs on: [long], [size_t] and
    pointers have 32 bits.  The mapping is a byte list at address [addr]; a
    pointer into it is an offset.  [fileName] with [fileNameLen] is the bytes it
    points at.  safe_iop and zlib are interfaces. *)
From S2P Require Import Prelude HashTable.

(** ** The formats *)

Definition CENSIG : Z := 33639248.
Definition CENHDR : Z := 46.
Definition CENVEM : Z := 4.
Definition CENHOW : Z := 10.
Definition CENTIM : Z := 12.
Definition CENCRC : Z := 16.
Definition CENSIZ : Z := 20.
Definition CENLEN : Z := 24.
Definition CENNAM : Z := 28.
Definition CENEXT : Z := 30.
Definition CENCOM : Z := 32.
Definition CENATX : Z := 38.
Definition CENOFF : Z := 42.
Definition ENDSIG : Z := 101010256.
Definition ENDHDR : Z := 22.
Definition ENDSUB : Z := 8.
Definition ENDOFF : Z := 16.
Definition LOCSIG : Z := 67324752.
Definition LOCHDR : Z := 30.
Definition LOCNAM : Z := 26.
Definition LOCEXT : Z := 28.
Definition STORED : Z := 0.
Definition DEFLATED : Z := 8.
Definition CENVEM_UNIX : Z := 768.
Definition PATH_MAX : Z := 4096.

(** [get2LE] and [get4LE] of Bits.h. *)
Definition get2LE (b : list Z) (off : Z) : option Z :=
  b0 ← buf_get b off; b1 ← buf_get b (off + 1);
  Some (wrap 16 (b0 .| (b1 <<< 8))).

Definition get4LE (b : list Z) (off : Z) : option Z :=
  b0 ← buf_get b off; b1 ← buf_get b (off + 1);
  b2 ← buf_get b (off + 2); b3 ← buf_get b (off + 3);
  Some (wrap 32 (b0 .| (b1 <<< 8) .| (b2 <<< 16) .| (b3 <<< 24))).

(** [safe_add] of safe_iop, on [uintptr_t] and on [long]. *)
Class SafeIop := {
  safe_uadd : Z -> Z -> option Z;
  safe_sadd : Z -> Z -> option Z
}.

Class SafeIopSpec (S : SafeIop) := {
  safe_uadd_spec a b : in_u 32 a -> in_u 32 b ->
    safe_uadd a b = if a + b <? 2 ^ 32 then Some (a + b) else None;
  safe_sadd_spec a b : in_s 32 a -> in_s 32 b ->
    safe_sadd a b = if (- 2 ^ 31 <=? a + b) && (a + b <? 2 ^ 31) then Some (a + b) else None
}.

(** ** Entries *)

Record ZipEntry := mkEntry {
  fileName : list Z;
  ze_offset : Z;
  compLen : Z;
  uncompLen : Z;
  compression : Z;
  modTime : Z;
  ze_crc32 : Z;
  versionMadeBy : Z;
  externalFileAttributes : Z
}.
Definition fileNameLen (e : ZipEntry) : Z := zlen (fileName e).

#[export] Instance ZipEntry_eq_dec : EqDecision ZipEntry.
Proof. solve_decision. Defined.

(** [memcmp] and [strncmp] on [n] bytes: the difference where they first differ. *)
Fixpoint memcmp (n : nat) (a b : list Z) : Z :=
  match n, a, b with
  | S n, x :: a, y :: b => if x =? y then memcmp n a b else x - y
  | _, _, _ => 0
  end.

Fixpoint strncmp (n : nat) (a b : list Z) : Z :=
  match n, a, b with
  | S n, x :: a, y :: b => if x =? y then (if x =? 0 then 0 else strncmp n a b) else x - y
  | _, _, _ => 0
  end.

(** ** The hash table of entries

    Its items are pointers to elements of [pEntries]; a lookup by name passes
    the name instead. *)
Inductive zitem := PEntry (i : nat) | PName (name : list Z).

#[export] Instance zitem_eq_dec : EqDecision zitem.
Proof. solve_decision. Defined.

Definition hashcmpZipEntry (entry1 entry2 : ZipEntry) : Z :=
  if negb (fileNameLen entry1 =? fileNameLen entry2)
  then swrap 32 (fileNameLen entry1 - fileNameLen entry2)
  else memcmp (length (fileName entry1)) (fileName entry1) (fileName entry2).

Definition hashcmpZipName (entry : ZipEntry) (name : list Z) : Z :=
  let nameLen := zlen name in
  if negb (fileNameLen entry =? nameLen) then swrap 32 (fileNameLen entry - nameLen)
  else memcmp (length name) (fileName entry) name.

(** The comparison of a table item with what is looked up. *)
Definition zcmp (entries : list ZipEntry) (a b : zitem) : Z :=
  match a, b with
  | PEntry i, PEntry j =>
      match entries !! i, entries !! j with
      | Some e1, Some e2 => hashcmpZipEntry e1 e2 | _, _ => 1
      end
  | PEntry i, PName name =>
      match entries !! i with Some e => hashcmpZipName e name | None => 1 end
  | _, _ => 1
  end.

(** [computeHash]. *)
Definition computeHash (name : list Z) : Z :=
  fold_left (fun hash c => wrap 32 (hash * 31 + c)) name 2.

(** ** Parsing *)

Record ZipArchive := mkArchive {
  za_numEntries : Z;
  za_pEntries : list ZipEntry;
  za_pHash : HashTable zitem
}.

(** [validFilename]. *)
Definition validFilename (name : list Z) : bool :=
  negb (PATH_MAX <=? zlen name) && forallb (fun c => negb ((c <? 32) || (127 <=? c))) name.

(** The backward scan for [ENDSIG], from [ptr] down; [None] when the start of
    the mapping is passed. *)
Fixpoint find_eocd (fuel : nat) (map : list Z) (ptr : Z) : outcome (option Z) :=
  if ptr <? 0 then Done None
  else match fuel with
  | O => Diverge
  | S fuel =>
      b ← access (buf_get map ptr);
      if b =? ENDSIG .& 255 then
        v ← access (get4LE map ptr);
        if v =? ENDSIG then Done (Some ptr) else find_eocd fuel map (ptr - 1)
      else find_eocd fuel map (ptr - 1)
  end.

(** The order the binary search compares names with. *)
Definition name_diff (e : ZipEntry) (name : list Z) : Z :=
  let diffLen := if fileNameLen e <? zlen name then length (fileName e) else length name in
  let diff := strncmp diffLen (fileName e) name in
  if diff =? 0 then fileNameLen e - zlen name else diff.

(** [while (low <= high)]: the value of [high] after the loop. *)
Fixpoint search_slot (fuel : nat) (entries : list ZipEntry) (name : list Z) (low high : Z) : outcome Z :=
  if low <=? high then
    match fuel with
    | O => Diverge
    | S fuel =>
        let mid := low + (high - low) / 2 in
        e ← access (if 0 <=? mid then entries !! Z.to_nat mid else None);
        let diff := name_diff e name in
        if diff <? 0 then search_slot fuel entries name (mid + 1) high
        else if 0 <? diff then search_slot fuel entries name low (mid - 1)
        else Done mid
    end
  else Done high.

(** The [memmove] that makes room at [target], and the new entry in it. *)
Definition insert_at (entries : list ZipEntry) (target : Z) (e : ZipEntry) : list ZipEntry :=
  take (Z.to_nat target) entries ++ e :: drop (Z.to_nat target) entries.

Section Zip.
  Context {S : SafeIop}.
  Context (calloc_ok : Z -> bool).
  (** Where the file is mapped. *)
  Context (addr : Z) (map : list Z).

(** The fields of the new entry and the checks on them; [None] is [goto bail]. *)
Definition read_entry (ptr localHdrOffset : Z) (name : list Z) : outcome (option ZipEntry) :=
  siz ← access (get4LE map (ptr + CENSIZ));
  ulen ← access (get4LE map (ptr + CENLEN));
  how ← access (get2LE map (ptr + CENHOW));
  tim ← access (get4LE map (ptr + CENTIM));
  crc ← access (get4LE map (ptr + CENCRC));
  vem ← access (get2LE map (ptr + CENVEM));
  if negb (vem .& 65280 =? 0) && negb (vem .& 65280 =? CENVEM_UNIX) then Done None else
  atx ← access (get4LE map (ptr + CENATX));
  match safe_uadd addr localHdrOffset with
  | None => Done None
  | Some localHdr =>
      if addr + zlen map <? wrap 32 (localHdr + LOCHDR) then Done None else
      sig ← access (get4LE map (localHdr - addr));
      if negb (sig =? LOCSIG) then Done None else
      nam ← access (get2LE map (localHdr - addr + LOCNAM));
      ext ← access (get2LE map (localHdr - addr + LOCEXT));
      let offset := swrap 32 (wrap 32 (localHdrOffset + LOCHDR + nam + ext)) in
      let compLen := swrap 32 siz in
      match safe_sadd offset compLen with
      | None => Done None
      | Some _ =>
          if zlen map <? wrap 32 (offset + compLen) then Done None
          else Done (Some (mkEntry name offset compLen (swrap 32 ulen) how (swrap 32 tim)
                             (swrap 32 crc) vem (swrap 32 atx)))
      end
  end.

(** One iteration of the loop over the central directory: the entries and the
    next [ptr], [None] for [goto bail]; [Fail 134] is a failed [assert]. *)
Definition parse_step (entries : list ZipEntry) (ptr : Z) : outcome (option (list ZipEntry * Z)) :=
  if zlen map <? ptr + CENHDR then Done None else
  sig ← access (get4LE map ptr);
  if negb (sig =? CENSIG) then Done None else
  localHdrOffset ← access (get4LE map (ptr + CENOFF));
  nameLen ← access (get2LE map (ptr + CENNAM));
  extraLen ← access (get2LE map (ptr + CENEXT));
  commentLen ← access (get2LE map (ptr + CENCOM));
  if zlen map <? ptr + CENHDR + nameLen then Done None else
  name ← access (buf_slice map (ptr + CENHDR) nameLen);
  if negb (validFilename name) then Done None else
  high ← (match entries with
          | [] => Done (-1)
          | _ => search_slot (Datatypes.S (length entries)) entries name 0 (zlen entries - 1)
          end);
  let target := wrap 32 (high + 1) in
  if zlen entries <? target then Fail 134 else
  e ← read_entry ptr localHdrOffset name;
  Done (e ← e; Some (insert_at entries target e, ptr + CENHDR + nameLen + extraLen + commentLen)).

(** [for (i = 0; i < numEntries; i++)], [n] iterations left. *)
Fixpoint parse_loop (n : nat) (entries : list ZipEntry) (ptr : Z) : outcome (option (list ZipEntry)) :=
  match n with
  | O => Done (Some entries)
  | Datatypes.S n =>
      r ← parse_step entries ptr;
      match r with
      | None => Done None
      | Some (entries, ptr) => parse_loop n entries ptr
      end
  end.

(** [addEntryToHashTable] for the elements from [i] on. *)
Fixpoint add_entries (entries : list ZipEntry) (i : nat) (todo : list ZipEntry) (t : HashTable zitem)
  : outcome (HashTable zitem) :=
  match todo with
  | [] => Done t
  | e :: todo =>
      '(t, _) ← mzHashTableLookup (zcmp entries) calloc_ok t (computeHash (fileName e)) (PEntry i) true;
      add_entries entries (Datatypes.S i) todo t
  end.

(** [parseZipArchive]; [None] is [false]. *)
Definition parseZipArchive : outcome (option ZipArchive) :=
  val ← access (get4LE map 0);
  if negb (val =? LOCSIG) then Done None else
  eocd ← find_eocd (Datatypes.S (length map)) map (zlen map - ENDHDR);
  match eocd with
  | None => Done None
  | Some ptr =>
      numEntries ← access (get2LE map (ptr + ENDSUB));
      cdOffset ← access (get4LE map (ptr + ENDOFF));
      if (numEntries =? 0) || (zlen map <=? cdOffset) then Done None else
      if negb (calloc_ok numEntries) then Done None else
      match mzHashTableCreate calloc_ok (mzHashSize numEntries) with
      | None => Done None
      | Some t =>
          r ← parse_loop (Z.to_nat numEntries) [] cdOffset;
          match r with
          | None => Done None
          | Some entries =>
              t ← add_entries entries 0 entries t;
              Done (Some (mkArchive numEntries entries t))
          end
      end
  end.

(** [mzFindZipEntry]. *)
Definition mzFindZipEntry (pArchive : ZipArchive) (entryName : list Z) : outcome (option ZipEntry) :=
  '(_, r) ← mzHashTableLookup (zcmp (za_pEntries pArchive)) calloc_ok (za_pHash pArchive)
              (computeHash entryName) (PName entryName) false;
  match r with
  | Some (PEntry i) => e ← access (za_pEntries pArchive !! i); Done (Some e)
  | _ => Done None
  end.

End Zip.

(** What opening and mapping the file gives: the errno of [open], the failure of
    [sysMapFileInShmem], or the mapping. *)
Inductive opened := OpenFailed (errno : Z) | MapFailed | Mapped (addr : Z) (map : list Z).

(** [mzOpenZipArchive]: the return value and the archive. *)
Definition mzOpenZipArchive `{SafeIop} (calloc_ok : Z -> bool) (file : opened)
  : outcome (Z * option ZipArchive) :=
  match file with
  | OpenFailed errno => Done (if errno =? 0 then -1 else errno, None)
  | MapFailed => Done (-1, None)
  | Mapped addr map =>
      if zlen map <? ENDHDR then Done (-1, None)
      else
        r ← parseZipArchive calloc_ok addr map;
        Done (match r with None => (-1, None) | Some pArchive => (0, Some pArchive) end)
  end.

(** [mzIsZipEntrySymlink]. *)
Definition mzIsZipEntrySymlink (e : ZipEntry) : bool :=
  if versionMadeBy e .& 65280 =? CENVEM_UNIX
  then (externalFileAttributes e >>> 16) .& 61440 =? 40960
  else false.

(** [mzGetZipEntryAt]. *)
Definition mzGetZipEntryAt (pArchive : ZipArchive) (index : Z) : option ZipEntry :=
  if index <? za_numEntries pArchive then za_pEntries pArchive !! Z.to_nat index else None.
