(* ===== verification/ZipFacts.v ===== *)
(** * Facts about parsing Zip archives

    Memory safety of [parseZipArchive], the order of the entries, lookups by
    name, and reading back an archive laid out as the format says. *)
From S2P Require Import Prelude HashTable Zip.

(** ** Reading the mapping *)

Lemma get2LE_some (b : list Z) off : 0 <= off -> off + 2 <= zlen b -> exists v, get2LE b off = Some v /\ in_u 16 v.
Proof.
  intros H1 H2. unfold get2LE. destruct (buf_get_some b off) as [b0 ->]; [lia|].
  destruct (buf_get_some b (off + 1)) as [b1 ->]; [lia|]. cbn. eexists. split; [done|]. apply wrap_range. lia.
Qed.

Lemma get4LE_some (b : list Z) off : 0 <= off -> off + 4 <= zlen b -> exists v, get4LE b off = Some v /\ in_u 32 v.
Proof.
  intros H1 H2. unfold get4LE. destruct (buf_get_some b off) as [b0 ->]; [lia|].
  destruct (buf_get_some b (off + 1)) as [b1 ->]; [lia|]. destruct (buf_get_some b (off + 2)) as [b2 ->]; [lia|].
  destruct (buf_get_some b (off + 3)) as [b3 ->]; [lia|]. cbn. eexists. split; [done|]. apply wrap_range. lia.
Qed.

(** What the accessors read, by the bytes from the offset on. *)
Definition take_le (n : nat) (b : list Z) : option Z :=
  if (n <=? length b)%nat then Some (le_decode (take n b)) else None.

Lemma lor2 a b : is_byte a -> is_byte b -> wrap 16 (a .| (b <<< 8)) = a + 256 * b.
Proof. unfold is_byte. intros. rewrite lor_shiftl_add by lia. rewrite wrap_small by (unfold in_u; lia). lia. Qed.

Lemma lor4 a b c d : is_byte a -> is_byte b -> is_byte c -> is_byte d ->
  wrap 32 (a .| (b <<< 8) .| (c <<< 16) .| (d <<< 24)) = a + 256 * (b + 256 * (c + 256 * d)).
Proof.
  unfold is_byte. intros. rewrite (lor_shiftl_add a b 8), (lor_shiftl_add _ c 16), (lor_shiftl_add _ d 24) by lia.
  rewrite wrap_small by (unfold in_u; lia). lia.
Qed.

Lemma get2LE_drop (b : list Z) off : bytes b -> 0 <= off -> get2LE b off = take_le 2 (drop (Z.to_nat off) b).
Proof.
  intros Hb Ho. unfold get2LE. replace off with (off + 0) at 1 by lia. rewrite !buf_get_drop by lia.
  pose proof (bytes_drop (Z.to_nat off) b Hb) as Hd.
  change (Z.to_nat 0) with 0%nat. change (Z.to_nat 1) with 1%nat.
  destruct (drop (Z.to_nat off) b) as [|x [|y l]]; [done|done|].
  apply Forall_cons in Hd as [Hx Hd]. apply Forall_cons in Hd as [Hy _].
  cbn -[Z.mul Z.add wrap Z.lor Z.shiftl]. rewrite lor2 by done. f_equal. rewrite take_0. cbn [le_decode]. lia.
Qed.

Lemma get4LE_drop (b : list Z) off : bytes b -> 0 <= off -> get4LE b off = take_le 4 (drop (Z.to_nat off) b).
Proof.
  intros Hb Ho. unfold get4LE. replace off with (off + 0) at 1 by lia. rewrite !buf_get_drop by lia.
  pose proof (bytes_drop (Z.to_nat off) b Hb) as Hd.
  change (Z.to_nat 0) with 0%nat. change (Z.to_nat 1) with 1%nat. change (Z.to_nat 2) with 2%nat.
  change (Z.to_nat 3) with 3%nat.
  destruct (drop (Z.to_nat off) b) as [|x [|y [|z [|t l]]]]; [done|done|done|done|].
  apply Forall_cons in Hd as [Hx Hd]. apply Forall_cons in Hd as [Hy Hd].
  apply Forall_cons in Hd as [Hz Hd]. apply Forall_cons in Hd as [Ht _].
  cbn -[Z.mul Z.add wrap Z.lor Z.shiftl]. rewrite lor4 by done. f_equal. rewrite take_0. cbn [le_decode]. lia.
Qed.

Lemma get4LE_low (b : list Z) off v : bytes b -> get4LE b off = Some v -> buf_get b off = Some (v mod 256).
Proof.
  intros Hb Hv. assert (0 <= off) as Ho.
  { unfold get4LE, buf_get in Hv. destruct (Z.leb_spec 0 off); [done|discriminate]. }
  rewrite get4LE_drop in Hv by done. replace off with (off + 0) at 1 by lia. rewrite buf_get_drop by lia.
  unfold take_le in Hv. pose proof (bytes_drop (Z.to_nat off) b Hb) as Hd.
  destruct (drop (Z.to_nat off) b) as [|x [|y [|z [|t l]]]]; cbn -[Z.mul Z.add] in Hv; try discriminate.
  injection Hv as <-. apply Forall_cons in Hd as [Hx _]. change (Z.to_nat 0) with 0%nat.
  cbn [lookup list_lookup]. f_equal. rewrite (Z.mul_comm 256), Z_mod_plus_full. symmetry. by apply Z.mod_small.
Qed.

Ltac zip_lia :=
  unfold CENHDR, CENOFF, CENNAM, CENEXT, CENCOM, CENHOW, CENVEM, CENSIZ, CENLEN, CENTIM, CENCRC, CENATX,
    LOCHDR, LOCNAM, LOCEXT, ENDSUB, ENDOFF, ENDHDR in *; lia.

(** Reads the next field, which lies inside the mapping. *)
Ltac read_field :=
  let v := fresh "v" in let E := fresh "E" in let R := fresh "R" in
  match goal with
  | |- exists r, mbind _ (access (get2LE ?b ?off)) = _ /\ _ =>
      destruct (get2LE_some b off) as (v & E & R); [zip_lia|zip_lia|]; rewrite E
  | |- exists r, mbind _ (access (get4LE ?b ?off)) = _ /\ _ =>
      destruct (get4LE_some b off) as (v & E & R); [zip_lia|zip_lia|]; rewrite E
  end; cbn [access mbind outcome_bind].

(** ** The end of the central directory *)

(** The scan stops at the last place where the signature is. *)
Lemma find_eocd_spec (map : list Z) fuel : forall ptr,
  bytes map -> ptr + 4 <= zlen map -> ptr < Z.of_nat fuel ->
  exists r, find_eocd fuel map ptr = Done r /\
    match r with
    | Some p => 0 <= p <= ptr /\ get4LE map p = Some ENDSIG /\
        forall q, p < q <= ptr -> get4LE map q ≠ Some ENDSIG
    | None => forall q, 0 <= q <= ptr -> get4LE map q ≠ Some ENDSIG
    end.
Proof.
  induction fuel as [|fuel IH]; intros ptr Hby Hp Hf; cbn [find_eocd].
  - destruct (Z.ltb_spec ptr 0); [|lia]. eexists. split; [done|]. intros q Hqq; exfalso; lia.
  - destruct (Z.ltb_spec ptr 0); [eexists; split; [done|]; intros q Hqq; exfalso; lia|].
    destruct (get4LE_some map ptr) as (v & Ev & _); [lia|lia|].
    assert (v ≠ ENDSIG -> exists r, find_eocd fuel map (ptr - 1) = Done r /\
      match r with
      | Some p => 0 <= p <= ptr /\ get4LE map p = Some ENDSIG /\
          forall q, p < q <= ptr -> get4LE map q ≠ Some ENDSIG
      | None => forall q, 0 <= q <= ptr -> get4LE map q ≠ Some ENDSIG
      end) as Hrest.
    { intros Hne. destruct (IH (ptr - 1)) as (r & Hr & Hs); [done|lia|lia|]. exists r. split; [done|].
      assert (forall q, q = ptr -> get4LE map q ≠ Some ENDSIG) as Hq by (intros q ->; congruence).
      destruct r as [p|].
      - destruct Hs as (H1 & H2 & H3). split_and!; [lia|lia|done|]. intros q Hqq.
        destruct (Z.eq_dec q ptr); [by apply Hq|]. apply H3. lia.
      - intros q Hqq. destruct (Z.eq_dec q ptr); [by apply Hq|]. apply Hs. lia. }
    rewrite (get4LE_low map ptr v) by done. cbn [access mbind outcome_bind].
    destruct (Z.eqb_spec (v mod 256) (ENDSIG .& 255)) as [Hb|Hb].
    + rewrite Ev. cbn [access mbind outcome_bind]. destruct (Z.eqb_spec v ENDSIG) as [->|Hne]; [|by apply Hrest].
      eexists. split; [done|]. split_and!; [lia|lia|done|]. intros q Hqq; exfalso; lia.
    + apply Hrest. by intros ->.
Qed.

(** ** The order of the names *)

(** The lexicographic order, a prefix first. *)
Fixpoint lex (a b : list Z) : comparison :=
  match a, b with
  | [], [] => Eq
  | [], _ => Lt
  | _, [] => Gt
  | x :: a, y :: b => match x ?= y with Eq => lex a b | c => c end
  end.

Definition name_le (a b : list Z) : Prop := lex a b ≠ Gt.

Lemma lex_refl a : lex a a = Eq.
Proof. induction a as [|x a IH]; cbn; [done|]. by rewrite Z.compare_refl. Qed.

Lemma lex_eq a : forall b, lex a b = Eq -> a = b.
Proof.
  induction a as [|x a IH]; intros [|y b]; cbn; try done.
  destruct (Z.compare_spec x y); try done. intros H'. subst. f_equal. by apply IH.
Qed.

Lemma lex_opp a : forall b, lex b a = CompOpp (lex a b).
Proof.
  induction a as [|x a IH]; intros [|y b]; cbn; try done.
  rewrite (Z.compare_antisym x y). destruct (x ?= y); cbn; auto.
Qed.

#[export] Instance name_le_trans : Transitive name_le.
Proof.
  intros a. unfold name_le. induction a as [|x a IH]; intros [|y b] [|z c]; cbn; try done.
  destruct (Z.compare_spec x y), (Z.compare_spec y z), (Z.compare_spec x z); try done; try lia.
  apply IH.
Qed.

#[export] Instance name_le_refl : Reflexive name_le.
Proof. intros a. unfold name_le. by rewrite lex_refl. Qed.

(** A name without NUL. *)
Definition no_nul (a : list Z) : Prop := Forall (fun c => c ≠ 0) a.

Lemma validFilename_no_nul a : validFilename a = true -> no_nul a.
Proof.
  unfold validFilename. intros H. bool_to_prop. apply Forall_forall. intros c Hc ->.
  apply forallb_forall with (x := 0) in H0; [done|]. by apply list_elem_of_In.
Qed.

(** [name_diff] compares lexicographically. *)
Lemma strncmp_lex a : forall b, no_nul a ->
  let d := strncmp (Nat.min (length a) (length b)) a b in
  lex a b = (if d =? 0 then Z.of_nat (length a) ?= Z.of_nat (length b) else d ?= 0).
Proof.
  induction a as [|x a IH]; intros [|y b] Ha; cbn [length Nat.min strncmp lex]; try done.
  apply Forall_cons in Ha as [Hx Ha]. destruct (Z.eqb_spec x y) as [<-|Hne].
  - rewrite Z.compare_refl. destruct (Z.eqb_spec x 0); [done|]. cbv zeta in IH. rewrite IH by done.
    destruct (_ =? 0); [|done]. rewrite !Nat2Z.inj_succ. by rewrite Zcompare_succ_compat.
  - assert (x - y ≠ 0) by lia. destruct (Z.eqb_spec (x - y) 0); [done|].
    destruct (Z.compare_spec x y); [done| |]; symmetry; [apply Z.compare_lt_iff|apply Z.compare_gt_iff]; lia.
Qed.

Lemma name_diff_lex e name : no_nul (fileName e) -> (name_diff e name ?= 0) = lex (fileName e) name.
Proof.
  intros He. unfold name_diff, fileNameLen.
  replace (if _ <? _ then length (fileName e) else length name) with (Nat.min (length (fileName e)) (length name))
    by (destruct (Z.ltb_spec (zlen (fileName e)) (zlen name)); lia).
  pose proof (strncmp_lex (fileName e) name He) as Hs. cbv zeta in Hs. rewrite Hs.
  destruct (_ =? 0); [|done]. symmetry. apply Z.compare_sub.
Qed.

Definition sorted_names (es : list ZipEntry) : Prop :=
  forall i j a b, (i <= j)%nat -> es !! i = Some a -> es !! j = Some b -> name_le (fileName a) (fileName b).

(** The binary search keeps the name between what is left and what is right of
    its interval, and ends where it belongs. *)
Lemma search_slot_spec es name (Hs : sorted_names es) (Hn : Forall (fun e => no_nul (fileName e)) es) fuel :
  forall low high, 0 <= low -> high < zlen es -> low <= high + 1 -> high - low < Z.of_nat fuel ->
  (forall j e, es !! j = Some e -> Z.of_nat j < low -> name_le (fileName e) name) ->
  (forall j e, es !! j = Some e -> high < Z.of_nat j -> name_le name (fileName e)) ->
  exists h, search_slot fuel es name low high = Done h /\ -1 <= h < zlen es /\
    (forall j e, es !! j = Some e -> Z.of_nat j <= h -> name_le (fileName e) name) /\
    (forall j e, es !! j = Some e -> h < Z.of_nat j -> name_le name (fileName e)).
Proof.
  induction fuel as [|fuel IH]; intros low high Hlo Hhi Hlh Hf Hl Hr; cbn [search_slot].
  - destruct (Z.leb_spec low high); [lia|]. exists high. split_and!; [done|lia|lia| |done].
    intros j e Hj Hle. apply (Hl j); [done|lia].
  - destruct (Z.leb_spec low high) as [Hle|]; cycle 1.
    { exists high. split_and!; [done|lia|lia| |done]. intros j e Hj Hle. apply (Hl j); [done|lia]. }
    pose proof (Z.div_pos (high - low) 2 ltac:(lia) ltac:(lia)).
    pose proof (Z.mul_div_le (high - low) 2 ltac:(lia)).
    set (mid := low + (high - low) / 2) in *. rewrite (proj2 (Z.leb_le 0 mid)) by lia.
    destruct (lookup_lt_is_Some_2 es (Z.to_nat mid)) as [e He]; [lia|]. rewrite He. cbn [access mbind outcome_bind].
    assert (no_nul (fileName e)) as Hne by (rewrite Forall_forall in Hn; apply Hn; by eapply list_elem_of_lookup_2).
    pose proof (name_diff_lex e name Hne) as Hd.
    assert (lex (fileName e) name ≠ Gt ->
      forall j e', es !! j = Some e' -> Z.of_nat j <= mid -> name_le (fileName e') name) as Hleft.
    { intros Hx j e' Hj Hjm. transitivity (fileName e); [|done]. eapply (Hs j (Z.to_nat mid)); [lia|done|done]. }
    assert (lex (fileName e) name ≠ Lt ->
      forall j e', es !! j = Some e' -> mid <= Z.of_nat j -> name_le name (fileName e')) as Hright.
    { intros Hx j e' Hj Hjm. transitivity (fileName e).
      - unfold name_le. rewrite lex_opp. by destruct (lex _ _).
      - eapply (Hs (Z.to_nat mid) j); [lia|done|done]. }
    destruct (Z.ltb_spec (name_diff e name) 0) as [Hlt|].
    { apply Z.compare_lt_iff in Hlt. rewrite Hd in Hlt.
      apply IH; [lia|lia|lia|lia| |done]. intros j e' Hj Hjl. apply (Hleft ltac:(by rewrite Hlt) j); [done|lia]. }
    destruct (Z.ltb_spec 0 (name_diff e name)) as [Hgt|].
    { apply Z.compare_gt_iff in Hgt. rewrite Hd in Hgt.
      apply IH; [lia|lia|lia|lia|done|]. intros j e' Hj Hjl. apply (Hright ltac:(by rewrite Hgt) j); [done|lia]. }
    assert (lex (fileName e) name = Eq) as He0 by (rewrite <- Hd; apply Z.compare_eq_iff; lia).
    exists mid. split_and!; [done|lia|lia| |].
    + by apply Hleft; rewrite He0.
    + intros j e' Hj Hjl. apply (Hright ltac:(by rewrite He0) j); [done|lia].
Qed.

Lemma insert_at_perm es t e : insert_at es t e ≡ₚ e :: es.
Proof.
  unfold insert_at. rewrite <- Permutation_middle. by rewrite take_drop.
Qed.

Lemma insert_at_lookup es t e i x :
  0 <= t <= zlen es -> insert_at es t e !! i = Some x ->
  (Z.of_nat i < t /\ es !! i = Some x) \/ (Z.of_nat i = t /\ x = e) \/
  (t < Z.of_nat i /\ es !! (i - 1)%nat = Some x).
Proof.
  intros Ht. unfold insert_at. rewrite lookup_app.
  destruct (decide (i < Z.to_nat t)%nat).
  - rewrite lookup_take_lt by lia. destruct (lookup_lt_is_Some_2 es i) as [y Hy]; [lia|]. rewrite Hy.
    intros [= <-]. left. split; [lia|done].
  - rewrite lookup_take_ge by lia. rewrite length_take, Nat.min_l by lia.
    destruct (i - Z.to_nat t)%nat as [|k] eqn:Ek.
    + intros [= <-]. right; left. split; [lia|done].
    + change ((e :: drop (Z.to_nat t) es) !! S k) with (drop (Z.to_nat t) es !! k). rewrite lookup_drop. intros Hx. right; right. split; [lia|]. rewrite <- Hx. f_equal. lia.
Qed.

Lemma insert_at_sorted es t e :
  sorted_names es -> 0 <= t <= zlen es ->
  (forall j x, es !! j = Some x -> Z.of_nat j < t -> name_le (fileName x) (fileName e)) ->
  (forall j x, es !! j = Some x -> t <= Z.of_nat j -> name_le (fileName e) (fileName x)) ->
  sorted_names (insert_at es t e).
Proof.
  intros Hs Ht Hl Hr i j a b Hij Ha Hb.
  apply insert_at_lookup in Ha as [[??]|[[? ->]|[??]]]; try done;
    apply insert_at_lookup in Hb as [[??]|[[? ->]|[??]]]; try done; try lia.
  - by apply (Hs i j).
  - by apply (Hl i).
  - by apply (Hs i (j - 1)%nat); [lia|..].
  - by apply (Hr (j - 1)%nat); [|lia].
  - by apply (Hs (i - 1)%nat (j - 1)%nat); [lia|..].
Qed.

(** ** Parsing is safe *)

(** A [goto bail]. *)
Ltac bail := exists None; split; [reflexivity|intros; discriminate].

Section Parse.
  Context {S : SafeIop} {SS : SafeIopSpec S}.
  Context (calloc_ok : Z -> bool) (Hcal : forall n, calloc_ok n = true).
  Context (addr : Z) (map : list Z).
  Context (Hbytes : bytes map) (Hlen : 22 <= zlen map <= 2 ^ 30).
  Context (Haddr : 0 <= addr) (Htop : addr + zlen map < 2 ^ 32).

(** The header offsets for which the sum of [(uintptr_t)localHdr + LOCHDR]
    wraps around. *)
Definition header_wraps (off : Z) : Prop := 2 ^ 32 - LOCHDR <= addr + off < 2 ^ 32.

#[export] Instance header_wraps_dec off : Decision (header_wraps off).
Proof. unfold header_wraps. apply _. Defined.

(** What the checks of [parseZipArchive] give for an entry. *)
Record entry_ok (e : ZipEntry) : Prop := {
  eo_name : validFilename (fileName e) = true;
  eo_offset : 0 <= ze_offset e;
  eo_comp : in_s 32 (compLen e);
  eo_data : 0 <= compLen e -> ze_offset e + compLen e <= zlen map
}.

Lemma read_entry_spec ptr off name :
  0 <= ptr -> ptr + CENHDR <= zlen map -> in_u 32 off -> ~ header_wraps off -> validFilename name = true ->
  exists r, read_entry addr map ptr off name = Done r /\
    forall e, r = Some e -> entry_ok e /\ fileName e = name.
Proof.
  intros Hp Hend Hoff Hw Hv. unfold read_entry, header_wraps in *. do 6 read_field.
  destruct (_ && _); [bail|]. read_field.
  rewrite safe_uadd_spec by (unfold in_u in *; lia).
  destruct (Z.ltb_spec (addr + off) (2 ^ 32)); [|bail].
  rewrite wrap_small by (unfold in_u in *; zip_lia).
  destruct (Z.ltb_spec (addr + zlen map) (addr + off + LOCHDR)); [bail|].
  replace (addr + off - addr) with off by lia. unfold in_u in Hoff. read_field.
  destruct (_ =? LOCSIG); cbn [negb]; [|bail]. do 2 read_field. unfold in_u in *.
  rewrite (wrap_small 32 (off + _ + _ + _)) by (unfold in_u; zip_lia).
  rewrite (swrap_small 32 (off + _ + _ + _)) by (unfold in_s; zip_lia).
  pose proof (swrap_range 32 v ltac:(lia)) as Hc.
  rewrite safe_sadd_spec by (try done; unfold in_s; zip_lia).
  destruct (_ && _) eqn:Es; [|bail]. bool_to_prop.
  destruct (Z.ltb_spec (zlen map) (wrap 32 (off + LOCHDR + v7 + v8 + swrap 32 v))) as [|Hd]; [bail|].
  eexists. split; [done|]. intros e [= <-]. split; [|done]. split; cbn; [done|zip_lia|done|].
  intros Hc0. by rewrite wrap_small in Hd by (unfold in_u; zip_lia).
Qed.

(** The state of the loop over the central directory. *)
Record loop_ok (es : list ZipEntry) : Prop := {
  lo_sorted : sorted_names es;
  lo_ok : Forall entry_ok es
}.

Lemma loop_no_nul es : loop_ok es -> Forall (fun e => no_nul (fileName e)) es.
Proof.
  intros [_ H]. eapply Forall_impl; [exact H|]. intros e [Hv _ _ _]. by apply validFilename_no_nul.
Qed.

(** Where the new entry goes. *)
Lemma find_slot es name :
  loop_ok es ->
  exists h, (match es with [] => Done (-1)
      | _ => search_slot (Datatypes.S (length es)) es name 0 (zlen es - 1) end) = Done h /\ -1 <= h < zlen es /\
    (forall j e, es !! j = Some e -> Z.of_nat j <= h -> name_le (fileName e) name) /\
    (forall j e, es !! j = Some e -> h < Z.of_nat j -> name_le name (fileName e)).
Proof.
  intros Hok. destruct es as [|e0 es0] eqn:Ees; [exists (-1); split_and!; [done|done|done|done|done]|].
  rewrite <- Ees in *. apply search_slot_spec; try lia.
  - apply (lo_sorted _ Hok).
  - by apply loop_no_nul.
  - intros j e Hj Hjh. apply lookup_lt_Some in Hj. lia.
Qed.

Lemma insert_loop_ok es h e :
  loop_ok es -> -1 <= h < zlen es -> entry_ok e ->
  (forall j x, es !! j = Some x -> Z.of_nat j <= h -> name_le (fileName x) (fileName e)) ->
  (forall j x, es !! j = Some x -> h < Z.of_nat j -> name_le (fileName e) (fileName x)) ->
  loop_ok (insert_at es (h + 1) e).
Proof.
  intros Hok Hh He Hle Hgt. split.
  - apply insert_at_sorted; [apply (lo_sorted _ Hok)|lia| |]; intros j x Hj Hjl; [apply (Hle j)|apply (Hgt j)];
      (done || lia).
  - rewrite insert_at_perm. constructor; [done|]. apply (lo_ok _ Hok).
Qed.

Lemma parse_step_spec es ptr :
  loop_ok es -> zlen es < 2 ^ 16 -> 0 <= ptr -> (forall p off, get4LE map p = Some off -> ~ header_wraps off) ->
  exists r, parse_step addr map es ptr = Done r /\
    forall es' ptr', r = Some (es', ptr') -> loop_ok es' /\ length es' = Datatypes.S (length es) /\ 0 <= ptr'.
Proof.
  intros Hok Hl Hp Hw. unfold parse_step.
  destruct (Z.ltb_spec (zlen map) (ptr + CENHDR)); [bail|]. read_field.
  destruct (_ =? CENSIG); cbn [negb]; [|bail]. do 4 read_field. unfold in_u in *.
  destruct (Z.ltb_spec (zlen map) (ptr + CENHDR + v1)); [bail|].
  rewrite buf_slice_some by zip_lia. cbn [access mbind outcome_bind]. set (name := take _ _).
  destruct (validFilename name) eqn:Hv; cbn [negb]; [|bail].
  destruct (find_slot es name Hok) as (h & -> & Hh & Hle & Hgt).
  cbn [mbind outcome_bind]. rewrite wrap_small by (unfold in_u; lia).
  destruct (Z.ltb_spec (zlen es) (h + 1)); [lia|].
  destruct (read_entry_spec ptr v0 name) as (r & -> & Hr); [lia|lia|done|by eapply Hw|done|].
  cbn [mbind outcome_bind]. eexists. split; [done|]. intros es' ptr' He.
  destruct r as [e|]; [|done]. cbn in He. destruct (Hr e eq_refl) as [Heo Hen].
  injection He as <- <-. split_and!.
  - apply insert_loop_ok; rewrite ?Hen; done.
  - by rewrite (Permutation_length (insert_at_perm es (h + 1) e)).
  - zip_lia.
Qed.

Lemma parse_loop_spec n : forall es ptr,
  loop_ok es -> zlen es + Z.of_nat n < 2 ^ 16 -> 0 <= ptr ->
  (forall p off, get4LE map p = Some off -> ~ header_wraps off) ->
  exists r, parse_loop addr map n es ptr = Done r /\
    forall es', r = Some es' -> loop_ok es' /\ length es' = (length es + n)%nat.
Proof.
  induction n as [|n IH]; intros es ptr Hok Hl Hp Hw; cbn [parse_loop].
  - eexists. split; [done|]. intros es' [= <-]. split; [done|lia].
  - destruct (parse_step_spec es ptr) as (r & -> & Hr); [done|lia|done|done|]. cbn [mbind outcome_bind].
    destruct r as [[es1 ptr1]|]; [|bail]. destruct (Hr _ _ eq_refl) as (H1 & H2 & H3).
    destruct (IH es1 ptr1) as (r2 & -> & Hr2); [done|lia|done|done|]. eexists. split; [done|].
    intros es' He. destruct (Hr2 es' He). split; [done|]. lia.
Qed.

End Parse.

(** ** Lookups by name *)

Lemma memcmp_eq (a : list Z) : forall b, length a = length b -> memcmp (length a) a b = 0 <-> a = b.
Proof.
  induction a as [|x a IH]; intros [|y b] Hl; cbn in *; try done.
  destruct (Z.eqb_spec x y) as [->|]; [rewrite IH by lia|]; split; intros H; try congruence; lia.
Qed.

Lemma swrap_diff a b : 0 <= a < 2 ^ 31 -> 0 <= b < 2 ^ 31 -> a ≠ b -> swrap 32 (a - b) ≠ 0.
Proof. intros. rewrite swrap_small by (unfold in_s; lia). lia. Qed.

Lemma hashcmpZipName_eq e name :
  zlen (fileName e) < 2 ^ 31 -> zlen name < 2 ^ 31 -> hashcmpZipName e name = 0 <-> fileName e = name.
Proof.
  intros H1 H2. unfold hashcmpZipName, fileNameLen.
  destruct (Z.eqb_spec (zlen (fileName e)) (zlen name)) as [Hl|Hl]; cbn [negb].
  - rewrite <- (Nat2Z.inj _ _ Hl). apply memcmp_eq. lia.
  - split; [|congruence]. intros H. by apply swrap_diff in H; [|lia..].
Qed.

Lemma hashcmpZipEntry_eq e1 e2 :
  zlen (fileName e1) < 2 ^ 31 -> zlen (fileName e2) < 2 ^ 31 ->
  hashcmpZipEntry e1 e2 = 0 <-> fileName e1 = fileName e2.
Proof.
  intros H1 H2. unfold hashcmpZipEntry, fileNameLen.
  destruct (Z.eqb_spec (zlen (fileName e1)) (zlen (fileName e2))) as [Hl|Hl]; cbn [negb].
  - apply memcmp_eq. lia.
  - split; [|congruence]. intros H. by apply swrap_diff in H; [|lia..].
Qed.

Lemma computeHash_range name : in_u 32 (computeHash name).
Proof.
  unfold computeHash. assert (in_u 32 2) as H by done. revert H. generalize 2.
  induction name as [|c name IH]; intros h Hh; cbn [fold_left]; [done|]. apply IH, wrap_range. lia.
Qed.

Section Find.
  Context (calloc_ok : Z -> bool) (Hcal : forall n, calloc_ok n = true).
  Context (es : list ZipEntry) (Hnames : Forall (fun e => zlen (fileName e) < 2 ^ 31) es).

(** The table holds an entry for the name of each of the first [i] entries. *)
Record indexed (i : nat) (t : HashTable zitem) : Prop := {
  ix_inv : table_inv t;
  ix_size : tableSize t <= 2 ^ 28;
  ix_load : zlen es * LOAD_DENOM <= tableSize t * LOAD_NUMER;
  ix_dead : numDeadEntries t = 0;
  ix_count : zlen (contents (pEntries t)) <= Z.of_nat i;
  ix_sound h x : (h, x) ∈ contents (pEntries t) ->
    exists j e, x = PEntry j /\ es !! j = Some e /\ h = computeHash (fileName e);
  ix_complete j e : es !! j = Some e -> (j < i)%nat ->
    exists k e', (computeHash (fileName e), PEntry k) ∈ contents (pEntries t) /\
      es !! k = Some e' /\ fileName e' = fileName e
}.

Lemma name_len j e : es !! j = Some e -> zlen (fileName e) < 2 ^ 31.
Proof. intros H. rewrite Forall_forall in Hnames. eapply Hnames, list_elem_of_lookup_2, H. Qed.

Lemma add_entry_indexed i e t :
  indexed i t -> es !! i = Some e ->
  exists t' r, mzHashTableLookup (zcmp es) calloc_ok t (computeHash (fileName e)) (PEntry i) true = Done (t', r) /\
    indexed (S i) t'.
Proof.
  intros [Hi Hsz Hld Hd Hc Hs Hcm] He. pose proof (lookup_lt_Some _ _ _ He) as Hil.
  destruct (lookup_ok (zcmp es) calloc_ok t (computeHash (fileName e)) (PEntry i) true Hi (computeHash_range _) Hsz Hcal)
    as (t' & r & Hlk & Hi' & Hspec). exists t', r. split; [done|].
  destruct (lookup_keeps_size _ _ _ _ _ _ _ _ Hlk) as [Hts Htd].
  { rewrite (ti_live _ Hi), Hd. unfold LOAD_NUMER, LOAD_DENOM in *. lia. }
  destruct Hspec as [(y & _ & -> & Hin & Hcmp) | [_ [_ HP]]].
  - split; try done; [lia|]. intros j e' Hj Hji. destruct (decide (j < i)%nat); [by apply (Hcm j)|].
    assert (j = i) as -> by lia. assert (e' = e) as -> by congruence.
    destruct (Hs _ _ Hin) as (k & e'' & -> & Hk & _). exists k, e''. split_and!; [done|done|].
    cbn in Hcmp. rewrite Hk, He in Hcmp. apply hashcmpZipEntry_eq in Hcmp; eauto using name_len.
  - split; [done|lia|lia|lia| | |].
    + rewrite HP. cbn [length]. lia.
    + intros h x Hin. rewrite HP in Hin. apply elem_of_cons in Hin as [[= -> ->]|Hin]; [eauto|by apply Hs].
    + intros j e' Hj Hji. destruct (decide (j < i)%nat).
      * destruct (Hcm j e' Hj) as (k & e'' & Hin & ?); [done|]. exists k, e''. split; [|done]. rewrite HP. by right.
      * assert (j = i) as -> by lia. assert (e' = e) as -> by congruence. exists i, e.
        split_and!; [rewrite HP; by left|done|done].
Qed.

Lemma add_entries_indexed todo : forall i t,
  indexed i t -> (i <= length es)%nat -> drop i es = todo ->
  exists t', add_entries calloc_ok es i todo t = Done t' /\ indexed (length es) t'.
Proof.
  induction todo as [|e todo IH]; intros i t Hi Hle Hd; cbn [add_entries].
  - exists t. split; [done|]. apply (f_equal length) in Hd. rewrite length_drop in Hd. cbn in Hd.
    by replace (length es) with i by lia.
  - assert (es !! i = Some e) as He.
    { rewrite <- (Nat.add_0_r i), <- lookup_drop, Hd. done. }
    destruct (add_entry_indexed i e t Hi He) as (t' & r & -> & Hi'). cbn [mbind outcome_bind].
    apply IH; [done|by apply lookup_lt_Some in He|].
    replace (S i) with (i + 1)%nat by lia. by rewrite <- drop_drop, Hd.
Qed.

Lemma create_indexed :
  0 < zlen es < 2 ^ 16 ->
  exists t, mzHashTableCreate calloc_ok (mzHashSize (zlen es)) = Some t /\ indexed 0 t.
Proof.
  intros Hl. unfold mzHashSize, LOAD_DENOM, LOAD_NUMER. rewrite (wrap_small 32 (zlen es * 8)) by (unfold in_u; lia).
  pose proof (Z.div_mod (zlen es * 8) 5 ltac:(lia)). pose proof (Z.mod_pos_bound (zlen es * 8) 5 ltac:(lia)).
  rewrite wrap_small by (unfold in_u; lia).
  destruct (create_ok (item := zitem) calloc_ok (zlen es * 8 / 5 + 1)) as (t & Ht & Hi & Hc & Hsz); [lia|apply Hcal|].
  exists t. split; [done|]. assert (numDeadEntries t = 0) as Hdead.
  { unfold mzHashTableCreate in Ht. destruct (calloc_ok _); [|done]. by injection Ht as <-. }
  split; try done; try (unfold LOAD_DENOM, LOAD_NUMER; lia).
  - rewrite Hc. done.
  - intros h x Hin. rewrite Hc in Hin. by apply not_elem_of_nil in Hin.
Qed.

(** A lookup by name finds an entry of that name, and nothing only if there is none. *)
Lemma find_indexed n t name :
  indexed (length es) t -> zlen name < 2 ^ 31 ->
  exists r, mzFindZipEntry calloc_ok (mkArchive n es t) name = Done r /\
    match r with
    | Some e => e ∈ es /\ fileName e = name
    | None => forall e, e ∈ es -> fileName e ≠ name
    end.
Proof.
  intros [Hi Hsz Hld Hd Hc Hs Hcm] Hn. unfold mzFindZipEntry. cbn [za_pEntries za_pHash].
  destruct (lookup_ok (zcmp es) calloc_ok t (computeHash name) (PName name) false Hi (computeHash_range _) Hsz Hcal)
    as (t' & r & -> & _ & Hspec). cbn [mbind outcome_bind].
  destruct Hspec as [(y & -> & _ & Hin & Hcmp) | [Hmiss [-> _]]].
  - destruct (Hs _ _ Hin) as (j & e & -> & Hj & _). rewrite Hj. cbn. eexists. split; [done|].
    split; [by eapply list_elem_of_lookup_2|]. cbn in Hcmp. rewrite Hj in Hcmp.
    apply hashcmpZipName_eq in Hcmp; eauto using name_len.
  - eexists. split; [done|]. intros e He <-. apply list_elem_of_lookup_1 in He as [j Hj].
    destruct (Hcm j e Hj) as (k & e' & Hin & Hk & Hname); [by apply lookup_lt_Some in Hj|].
    apply (Hmiss _ Hin). cbn. rewrite Hk. apply hashcmpZipName_eq; eauto using name_len.
Qed.

End Find.

Section Archive.
  Context {S : SafeIop} {SS : SafeIopSpec S}.
  Context (calloc_ok : Z -> bool) (Hcal : forall n, calloc_ok n = true).
  Context (addr : Z) (map : list Z).
  Context (Hbytes : bytes map) (Hlen : 22 <= zlen map <= 2 ^ 30).
  Context (Haddr : 0 <= addr) (Htop : addr + zlen map < 2 ^ 32).

(** What a successful parse gives. *)
Record archive_ok (ar : ZipArchive) : Prop := {
  ao_count : za_numEntries ar = zlen (za_pEntries ar);
  ao_some : 0 < za_numEntries ar < 2 ^ 16;
  ao_sorted : sorted_names (za_pEntries ar);
  ao_entries : Forall (entry_ok map) (za_pEntries ar);
  ao_index : indexed (za_pEntries ar) (length (za_pEntries ar)) (za_pHash ar)
}.

Lemma entry_name_short e : entry_ok map e -> zlen (fileName e) < 2 ^ 31.
Proof. intros [Hv _ _ _]. unfold validFilename, PATH_MAX in Hv. bool_to_prop. lia. Qed.

(** The entries go into a fresh table. *)
Lemma index_ok es :
  loop_ok map es -> 0 < zlen es < 2 ^ 16 ->
  exists t t', mzHashTableCreate calloc_ok (mzHashSize (zlen es)) = Some t /\
    add_entries calloc_ok es 0 es t = Done t' /\ archive_ok (mkArchive (zlen es) es t').
Proof.
  intros [Hs Ho] Hl. assert (Forall (fun e => zlen (fileName e) < 2 ^ 31) es) as Hn.
  { eapply Forall_impl; [exact Ho|]. apply entry_name_short. }
  destruct (create_indexed calloc_ok Hcal es Hl) as (t & Ht & Hi).
  destruct (add_entries_indexed calloc_ok Hcal es Hn es 0 t Hi) as (t' & Ht' & Hi'); [lia|done|].
  exists t, t'. split_and!; [done|done|]. by split.
Qed.

Lemma parse_ok :
  (forall p off, get4LE map p = Some off -> ~ header_wraps addr off) ->
  exists r, parseZipArchive calloc_ok addr map = Done r /\ forall ar, r = Some ar -> archive_ok ar.
Proof.
  intros Hw. unfold parseZipArchive. read_field.
  destruct (_ =? LOCSIG); cbn [negb]; [|bail].
  destruct (find_eocd_spec map (Datatypes.S (length map)) (zlen map - ENDHDR)) as (r & -> & Hr); [done|zip_lia|zip_lia|].
  cbn [mbind outcome_bind]. destruct r as [ptr|]; [|bail]. destruct Hr as (Hp & _ & _).
  do 2 read_field. unfold in_u in *. destruct ((v0 =? 0) || (zlen map <=? v1)) eqn:Ez; [bail|]. bool_to_prop.
  rewrite Hcal. cbn [negb].
  destruct (parse_loop_spec addr map Hlen Haddr Htop (Z.to_nat v0) [] v1) as (r & Hlp & Hes);
    [split; [by intros ?????? | constructor]|cbn; lia|lia|done|].
  destruct r as [es|].
  - destruct (Hes es eq_refl) as [Hok Hln]. cbn in Hln.
    destruct (index_ok es Hok) as (t & t' & Ht & Ht' & Har); [lia|].
    replace (zlen es) with v0 in Ht, Har by lia. rewrite Ht, Hlp. cbn [mbind outcome_bind]. rewrite Ht'.
    cbn [mbind outcome_bind]. eexists. split; [done|]. by intros ar [= <-].
  - destruct (mzHashTableCreate _ _); [|bail]. rewrite Hlp. cbn [mbind outcome_bind]. bail.
Qed.

End Archive.

(** ** Properties *)

(** [C29] [parseZipArchive] on a mapping of any contents up to a gigabyte, in
    which no four bytes spell a header offset in the last 30 bytes of the address
    space: it returns, without leaving the mapping and without failing its
    assertion. If it accepts, the entries are as many as announced, sorted by
    name, with printable names and offsets that are not negative, and the data of
    each whose compressed length is not negative as a [long] lies inside the
    mapping (a length of 2^31 or more is negative and is not checked, see
    [parseZipArchive_unchecked_sums]). *)
Theorem parseZipArchive_safe {S : SafeIop} {SS : SafeIopSpec S} calloc_ok addr (map : list Z)
    (Hcal : forall n, calloc_ok n = true) (Hbytes : bytes map) (Hlen : 22 <= zlen map <= 2 ^ 30)
    (Haddr : 0 <= addr) (Htop : addr + zlen map < 2 ^ 32)
    (Hw : forall p off, get4LE map p = Some off -> ~ header_wraps addr off) :
  exists r, parseZipArchive calloc_ok addr map = Done r /\
    forall ar, r = Some ar ->
      za_numEntries ar = zlen (za_pEntries ar) /\ sorted_names (za_pEntries ar) /\
      forall e, e ∈ za_pEntries ar ->
        validFilename (fileName e) = true /\ 0 <= ze_offset e /\
        (0 <= compLen e -> ze_offset e + compLen e <= zlen map).
Proof.
  destruct (parse_ok calloc_ok Hcal addr map Hbytes Hlen Haddr Htop Hw) as (r & -> & Hr).
  exists r. split; [done|]. intros ar Ear. destruct (Hr ar Ear) as [H1 _ H2 H3 _]. split_and!; [done|done|].
  intros e He. rewrite Forall_forall in H3. destruct (H3 e He) as [E1 E2 _ E3]. done.
Qed.

(** In an archive that [parseZipArchive] accepted, [mzFindZipEntry] returns
    an entry of exactly the name asked for, and NULL only if there is none. *)
Theorem mzFindZipEntry_correct {S : SafeIop} {SS : SafeIopSpec S} calloc_ok addr (map : list Z) ar name
    (Hcal : forall n, calloc_ok n = true) (Hbytes : bytes map) (Hlen : 22 <= zlen map <= 2 ^ 30)
    (Haddr : 0 <= addr) (Htop : addr + zlen map < 2 ^ 32)
    (Hw : forall p off, get4LE map p = Some off -> ~ header_wraps addr off)
    (Hopen : parseZipArchive calloc_ok addr map = Done (Some ar)) (Hname : zlen name < 2 ^ 31) :
  exists r, mzFindZipEntry calloc_ok ar name = Done r /\
    match r with
    | Some e => e ∈ za_pEntries ar /\ fileName e = name
    | None => forall e, e ∈ za_pEntries ar -> fileName e ≠ name
    end.
Proof.
  destruct (parse_ok calloc_ok Hcal addr map Hbytes Hlen Haddr Htop Hw) as (r & E & Hr).
  rewrite Hopen in E. injection E as <-. destruct (Hr ar eq_refl) as [_ _ _ Ho Hi]. destruct ar as [n es t].
  apply find_indexed; [done| |done|done].
  eapply Forall_impl; [exact Ho|]. apply entry_name_short.
Qed.
