(* ===== verification/ZipRoundtrip.v ===== *)
(** * Reading back a written archive

    The layout of an archive as the Zip format has it - local headers with the
    data, the central directory, the end record - and that [parseZipArchive]
    reads exactly the entries that were written. *)
From S2P Require Import Prelude HashTable Zip ZipFacts.

(** A file of an archive; [zf_loc], [zf_ver] and [zf_dsk] are the header fields
    that are not read. *)
Record zfile := mkZfile {
  zf_name : list Z;
  zf_data : list Z;
  zf_uncompLen : Z;
  zf_how : Z;
  zf_time : Z;
  zf_crc : Z;
  zf_vem : Z;
  zf_atx : Z;
  zf_loc : list Z;
  zf_local_extra : list Z;
  zf_ver : list Z;
  zf_dsk : list Z;
  zf_extra : list Z;
  zf_comment : list Z
}.

Definition loc_bytes (f : zfile) : list Z :=
  le_encode 4 LOCSIG ++ zf_loc f ++ le_encode 2 (zlen (zf_name f)) ++ le_encode 2 (zlen (zf_local_extra f)) ++
  zf_name f ++ zf_local_extra f ++ zf_data f.

Definition cen_bytes (f : zfile) (off : Z) : list Z :=
  le_encode 4 CENSIG ++ le_encode 2 (zf_vem f) ++ zf_ver f ++ le_encode 2 (zf_how f) ++ le_encode 4 (zf_time f) ++
  le_encode 4 (zf_crc f) ++ le_encode 4 (zlen (zf_data f)) ++ le_encode 4 (zf_uncompLen f) ++
  le_encode 2 (zlen (zf_name f)) ++ le_encode 2 (zlen (zf_extra f)) ++ le_encode 2 (zlen (zf_comment f)) ++
  zf_dsk f ++ le_encode 4 (zf_atx f) ++ le_encode 4 off ++ zf_name f ++ zf_extra f ++ zf_comment f.

(** The central directory of files laid out from [off] on. *)
Fixpoint cen_list (fs : list zfile) (off : Z) : list (list Z) :=
  match fs with [] => [] | f :: fs => cen_bytes f off :: cen_list fs (off + zlen (loc_bytes f)) end.

Definition locals (fs : list zfile) : list Z := mjoin (loc_bytes <$> fs).
Definition central (fs : list zfile) (off : Z) : list Z := mjoin (cen_list fs off).

Definition end_bytes (fs : list zfile) (comment : list Z) : list Z :=
  le_encode 4 ENDSIG ++ [0; 0; 0; 0] ++ le_encode 2 (zlen fs) ++ le_encode 2 (zlen fs) ++
  le_encode 4 (zlen (central fs 0)) ++ le_encode 4 (zlen (locals fs)) ++ le_encode 2 (zlen comment) ++ comment.

Definition zip_bytes (fs : list zfile) (comment : list Z) : list Z :=
  locals fs ++ central fs 0 ++ end_bytes fs comment.

Lemma locals_cons f fs : locals (f :: fs) = loc_bytes f ++ locals fs.
Proof. done. Qed.

Lemma central_cons f fs off : central (f :: fs) off = cen_bytes f off ++ central fs (off + zlen (loc_bytes f)).
Proof. done. Qed.

(** The entry a file is read as. *)
Definition entry_of (f : zfile) (off : Z) : ZipEntry :=
  mkEntry (zf_name f) (off + LOCHDR + zlen (zf_name f) + zlen (zf_local_extra f)) (zlen (zf_data f))
    (swrap 32 (zf_uncompLen f)) (zf_how f) (swrap 32 (zf_time f)) (swrap 32 (zf_crc f)) (zf_vem f)
    (swrap 32 (zf_atx f)).

Fixpoint entries_of (fs : list zfile) (off : Z) : list ZipEntry :=
  match fs with [] => [] | f :: fs => entry_of f off :: entries_of fs (off + zlen (loc_bytes f)) end.

Record zfile_ok (f : zfile) : Prop := {
  zo_name : validFilename (zf_name f) = true;
  zo_data : bytes (zf_data f);
  zo_how : in_u 16 (zf_how f);
  zo_vem : in_u 16 (zf_vem f) /\ (zf_vem f .& 65280 = 0 \/ zf_vem f .& 65280 = CENVEM_UNIX);
  zo_words : in_u 32 (zf_uncompLen f) /\ in_u 32 (zf_time f) /\ in_u 32 (zf_crc f) /\ in_u 32 (zf_atx f);
  zo_loc : bytes (zf_loc f) /\ length (zf_loc f) = 22%nat;
  zo_ver : bytes (zf_ver f) /\ length (zf_ver f) = 4%nat;
  zo_dsk : bytes (zf_dsk f) /\ length (zf_dsk f) = 4%nat;
  zo_local_extra : bytes (zf_local_extra f) /\ zlen (zf_local_extra f) < 2 ^ 16;
  zo_extra : bytes (zf_extra f) /\ zlen (zf_extra f) < 2 ^ 16;
  zo_comment : bytes (zf_comment f) /\ zlen (zf_comment f) < 2 ^ 16
}.

(** ** Fields at known places *)

Lemma take_le_app n v k : take_le n (le_encode n v ++ k) = Some (v mod 256 ^ Z.of_nat n).
Proof.
  unfold take_le. rewrite length_app, le_encode_length. rewrite (proj2 (Nat.leb_le n _)) by lia.
  rewrite take_app_length' by (by rewrite le_encode_length). by rewrite le_decode_encode.
Qed.

Lemma drop_le n v k m : (n <= m)%nat -> drop m (le_encode n v ++ k) = drop (m - n) k.
Proof. intros H. rewrite drop_app_ge by (rewrite le_encode_length; lia). by rewrite le_encode_length. Qed.

Lemma drop_fixed (l k : list Z) n m : length l = n -> (n <= m)%nat -> drop m (l ++ k) = drop (m - n) k.
Proof. intros <- H. by apply drop_app_ge. Qed.

(** A field of [map] at [ptr + k], when the bytes from [ptr] on are known. *)
Lemma get4LE_field map ptr (s k : list Z) off v :
  bytes map -> 0 <= ptr -> 0 <= off -> drop (Z.to_nat ptr) map = s ->
  drop (Z.to_nat off) s = (le_encode 4 v ++ k) -> in_u 32 v -> get4LE map (ptr + off) = Some v.
Proof.
  intros Hb Hp Ho Hs Hk Hv. rewrite get4LE_drop by (done || lia). rewrite Z2Nat.inj_add, <- drop_drop, Hs, Hk by lia.
  rewrite take_le_app. f_equal. by apply Z.mod_small.
Qed.

Lemma get2LE_field map ptr (s k : list Z) off v :
  bytes map -> 0 <= ptr -> 0 <= off -> drop (Z.to_nat ptr) map = s ->
  drop (Z.to_nat off) s = (le_encode 2 v ++ k) -> in_u 16 v -> get2LE map (ptr + off) = Some v.
Proof.
  intros Hb Hp Ho Hs Hk Hv. rewrite get2LE_drop by (done || lia). rewrite Z2Nat.inj_add, <- drop_drop, Hs, Hk by lia.
  rewrite take_le_app. f_equal. by apply Z.mod_small.
Qed.


Section Central.
  Context (map : list Z) (ptr : Z) (f : zfile) (off : Z) (rest : list Z).
  Context (Hb : bytes map) (Hp : 0 <= ptr) (Hf : zfile_ok f) (Hoff : in_u 32 off).
  Context (Hcen : drop (Z.to_nat ptr) map = cen_bytes f off ++ rest).

Lemma name_len16 : in_u 16 (zlen (zf_name f)).
Proof.
  pose proof (zo_name _ Hf) as H. unfold validFilename, PATH_MAX in H. bool_to_prop. unfold in_u. lia.
Qed.

Lemma cen_field4 k v tail :
  0 <= k -> drop (Z.to_nat k) (cen_bytes f off) = le_encode 4 v ++ tail -> in_u 32 v -> get4LE map (ptr + k) = Some v.
Proof.
  intros Hk Hd Hv. apply (get4LE_field map ptr _ (tail ++ rest) k v Hb Hp Hk Hcen); [|done].
  assert (Z.to_nat k <= length (cen_bytes f off))%nat as Hle.
  { apply (f_equal length) in Hd. rewrite length_drop, length_app, le_encode_length in Hd. lia. }
  rewrite drop_app_le by done. by rewrite Hd, <- app_assoc.
Qed.

Lemma cen_field2 k v tail :
  0 <= k -> drop (Z.to_nat k) (cen_bytes f off) = le_encode 2 v ++ tail -> in_u 16 v -> get2LE map (ptr + k) = Some v.
Proof.
  intros Hk Hd Hv. apply (get2LE_field map ptr _ (tail ++ rest) k v Hb Hp Hk Hcen); [|done].
  assert (Z.to_nat k <= length (cen_bytes f off))%nat as Hle.
  { apply (f_equal length) in Hd. rewrite length_drop, length_app, le_encode_length in Hd. lia. }
  rewrite drop_app_le by done. by rewrite Hd, <- app_assoc.
Qed.

(** Walks over the fields in front of a field. *)
Ltac walk :=
  unfold cen_bytes; repeat first
    [ rewrite drop_le by (cbn; lia)
    | rewrite (drop_fixed (zf_ver f) _ 4) by (apply (zo_ver _ Hf) || (cbn; lia))
    | rewrite (drop_fixed (zf_dsk f) _ 4) by (apply (zo_dsk _ Hf) || (cbn; lia)) ];
  reflexivity.

Ltac cen4 := eapply cen_field4; [done|walk|].
Ltac cen2 := eapply cen_field2; [done|walk|].

Lemma cen_fields (Hd : zlen (zf_data f) < 2 ^ 31) :
  get4LE map ptr = Some CENSIG /\ get4LE map (ptr + CENOFF) = Some off /\
  get2LE map (ptr + CENNAM) = Some (zlen (zf_name f)) /\ get2LE map (ptr + CENEXT) = Some (zlen (zf_extra f)) /\
  get2LE map (ptr + CENCOM) = Some (zlen (zf_comment f)) /\
  get4LE map (ptr + CENSIZ) = Some (zlen (zf_data f)) /\ get4LE map (ptr + CENLEN) = Some (zf_uncompLen f) /\
  get2LE map (ptr + CENHOW) = Some (zf_how f) /\ get4LE map (ptr + CENTIM) = Some (zf_time f) /\
  get4LE map (ptr + CENCRC) = Some (zf_crc f) /\ get2LE map (ptr + CENVEM) = Some (zf_vem f) /\
  get4LE map (ptr + CENATX) = Some (zf_atx f).
Proof.
  destruct Hf as [_ _ Hhow [Hvem _] (Hu & Ht & Hc & Ha) _ _ _ _ [_ He] [_ Hm]]. pose proof name_len16 as Hn.
  unfold CENOFF, CENNAM, CENEXT, CENCOM, CENSIZ, CENLEN, CENHOW, CENTIM, CENCRC, CENVEM, CENATX.
  split_and!; [replace ptr with (ptr + 0) by lia; cen4|cen4|cen2|cen2|cen2|cen4|cen4|cen2|cen4|cen4|cen2|cen4];
    try done; unfold in_u; lia.
Qed.

Lemma cen_length : zlen (cen_bytes f off) = CENHDR + zlen (zf_name f) + zlen (zf_extra f) + zlen (zf_comment f).
Proof.
  unfold cen_bytes, CENHDR. rewrite !length_app, !le_encode_length.
  destruct (zo_ver _ Hf) as [_ ->]. destruct (zo_dsk _ Hf) as [_ ->]. lia.
Qed.

(** The name follows the fixed fields. *)
Lemma cen_name : buf_slice map (ptr + CENHDR) (zlen (zf_name f)) = Some (zf_name f).
Proof.
  assert (drop (Z.to_nat (ptr + CENHDR)) map = zf_name f ++ zf_extra f ++ zf_comment f ++ rest) as Hd.
  { rewrite Z2Nat.inj_add, <- drop_drop, Hcen by (done || lia). unfold CENHDR. change (Z.to_nat 46) with 46%nat.
    unfold cen_bytes. rewrite <- !app_assoc. repeat first
    [ rewrite drop_le by (cbn; lia)
    | rewrite (drop_fixed (zf_ver f) _ 4) by (apply (zo_ver _ Hf) || (cbn; lia))
    | rewrite (drop_fixed (zf_dsk f) _ 4) by (apply (zo_dsk _ Hf) || (cbn; lia)) ]. reflexivity. }
  unfold buf_slice. pose proof (f_equal length Hd) as Hl. rewrite length_drop, !length_app in Hl. unfold CENHDR in *.
  destruct ((0 <=? ptr + 46) && (0 <=? zlen (zf_name f)) && (ptr + 46 + zlen (zf_name f) <=? zlen map)) eqn:E.
  - f_equal. rewrite Hd, Nat2Z.id. by rewrite take_app_length.
  - rewrite !andb_false_iff, !Z.leb_gt in E.
    (* a name that does not fit would leave nothing to drop *)
    pose proof (f_equal length Hcen) as Hc. rewrite length_drop, length_app in Hc. pose proof cen_length as Hcl.
    unfold CENHDR in Hcl. lia.
Qed.

End Central.

Lemma loc_length f : zfile_ok f ->
  zlen (loc_bytes f) = LOCHDR + zlen (zf_name f) + zlen (zf_local_extra f) + zlen (zf_data f).
Proof.
  intros Hf. unfold loc_bytes, LOCHDR. rewrite !length_app, !le_encode_length.
  destruct (zo_loc _ Hf) as [_ ->]. lia.
Qed.

Lemma loc_fields map off f rest :
  bytes map -> 0 <= off -> zfile_ok f -> drop (Z.to_nat off) map = loc_bytes f ++ rest ->
  get4LE map off = Some LOCSIG /\ get2LE map (off + LOCNAM) = Some (zlen (zf_name f)) /\
  get2LE map (off + LOCEXT) = Some (zlen (zf_local_extra f)).
Proof.
  intros Hb Ho Hf Hd. pose proof (name_len16 f Hf) as Hn. destruct (zo_local_extra _ Hf) as [_ He].
  unfold LOCNAM, LOCEXT. unfold loc_bytes in Hd. rewrite <- !app_assoc in Hd.
  assert (forall m k, (22 <= m)%nat -> drop m (zf_loc f ++ k) = drop (m - 22) k) as Hl.
  { intros m k Hm. apply drop_fixed; [apply (zo_loc _ Hf)|done]. }
  split_and!.
  - replace off with (off + 0) by lia. eapply get4LE_field; [done|done|done|exact Hd|reflexivity|done].
  - eapply get2LE_field; [done|done|done|exact Hd| |done]. change (Z.to_nat 26) with 26%nat.
    rewrite drop_le, Hl by (cbn; lia). reflexivity.
  - eapply get2LE_field; [done|done|done|exact Hd| |unfold in_u; lia]. change (Z.to_nat 28) with 28%nat.
    rewrite drop_le, Hl by (cbn; lia). rewrite drop_le by (cbn; lia). reflexivity.
Qed.

Section Written.
  Context {S : SafeIop} {SS : SafeIopSpec S} (addr : Z) (map : list Z).
  Context (Hb : bytes map) (Hlen : zlen map <= 2 ^ 30) (Haddr : 0 <= addr) (Htop : addr + zlen map < 2 ^ 32).

(** The header and the data of [f] are at [off]. *)
Definition file_at (f : zfile) (off : Z) : Prop :=
  0 <= off /\ exists rest, drop (Z.to_nat off) map = loc_bytes f ++ rest.

Lemma file_at_end f off : zfile_ok f -> file_at f off ->
  off + LOCHDR + zlen (zf_name f) + zlen (zf_local_extra f) + zlen (zf_data f) <= zlen map.
Proof.
  intros Hf [Ho [rest Hd]]. apply (f_equal length) in Hd. rewrite length_drop, length_app in Hd.
  pose proof (loc_length f Hf). unfold LOCHDR in *. lia.
Qed.

Lemma read_entry_written ptr f off rest :
  0 <= ptr -> zfile_ok f -> file_at f off -> drop (Z.to_nat ptr) map = cen_bytes f off ++ rest ->
  read_entry addr map ptr off (zf_name f) = Done (Some (entry_of f off)).
Proof.
  intros Hp Hf Hat Hcen. pose proof (file_at_end f off Hf Hat) as Hend. destruct Hat as [Ho [rest' Hloc]].
  assert (in_u 32 off) as Hoff by (unfold in_u, LOCHDR in *; lia).
  destruct (cen_fields map ptr f off rest Hb Hp Hf Hoff Hcen) as (_ & _ & _ & _ & _ & F1 & F2 & F3 & F4 & F5 & F6 & F7);
    [unfold LOCHDR in *; lia|].
  destruct (loc_fields map off f rest' Hb Ho Hf Hloc) as (L1 & L2 & L3).
  unfold read_entry. rewrite F1, F2, F3, F4, F5, F6, F7. cbn [access mbind outcome_bind].
  assert (negb (zf_vem f .& 65280 =? 0) && negb (zf_vem f .& 65280 =? CENVEM_UNIX) = false) as ->
    by (destruct (zo_vem _ Hf) as [_ [-> | ->]]; done).
  rewrite safe_uadd_spec by (unfold in_u in *; lia). rewrite (proj2 (Z.ltb_lt _ _)) by (unfold LOCHDR in *; lia).
  rewrite wrap_small by (unfold in_u, LOCHDR in *; lia).
  rewrite (proj2 (Z.ltb_ge _ _)) by (unfold LOCHDR in *; lia). replace (addr + off - addr) with off by lia.
  rewrite L1, L2, L3. cbn [access mbind outcome_bind]. rewrite Z.eqb_refl. cbn [negb].
  rewrite (wrap_small 32 (off + _ + _ + _)) by (unfold in_u, LOCHDR in *; lia).
  rewrite (swrap_small 32 (off + _ + _ + _)) by (unfold in_s, LOCHDR in *; lia).
  rewrite (swrap_small 32 (zlen _)) by (unfold in_s, LOCHDR in *; lia).
  rewrite safe_sadd_spec by (unfold in_s, LOCHDR in *; lia).
  rewrite (proj2 (Z.leb_le _ _)), (proj2 (Z.ltb_lt _ _)) by (unfold LOCHDR in *; lia). cbn [andb].
  rewrite wrap_small by (unfold in_u, LOCHDR in *; lia). by rewrite (proj2 (Z.ltb_ge _ _)) by (unfold LOCHDR in *; lia).
Qed.

Lemma entry_of_ok f off : zfile_ok f -> file_at f off -> entry_ok map (entry_of f off).
Proof.
  intros Hf Hat. pose proof (file_at_end f off Hf Hat). destruct Hat as [Ho _].
  split; cbn; [apply (zo_name _ Hf)|unfold LOCHDR; lia|unfold in_s, LOCHDR in *; lia|unfold LOCHDR in *; lia].
Qed.

Lemma parse_step_written es ptr f off rest :
  loop_ok map es -> zlen es < 2 ^ 16 -> 0 <= ptr -> zfile_ok f -> file_at f off ->
  drop (Z.to_nat ptr) map = cen_bytes f off ++ rest ->
  exists es', parse_step addr map es ptr = Done (Some (es', ptr + zlen (cen_bytes f off))) /\
    loop_ok map es' /\ es' ≡ₚ entry_of f off :: es.
Proof.
  intros Hok Hes Hp Hf Hat Hcen. pose proof (file_at_end f off Hf Hat) as Hend. destruct Hat as [Ho Hloc].
  assert (in_u 32 off) as Hoff by (unfold in_u, LOCHDR in *; lia).
  destruct (cen_fields map ptr f off rest Hb Hp Hf Hoff Hcen) as (F1 & F2 & F3 & F4 & F5 & _);
    [unfold LOCHDR in *; lia|].
  pose proof (cen_name map ptr f off rest Hp Hf Hcen) as Hname. pose proof (cen_length f off Hf) as Hcl.
  destruct (buf_slice_inv _ _ _ _ Hname) as (_ & _ & Hfit & _).
  unfold parse_step. rewrite (proj2 (Z.ltb_ge _ _)) by lia. rewrite F1. cbn [access mbind outcome_bind].
  rewrite Z.eqb_refl. cbn [negb]. rewrite F2, F3, F4, F5. cbn [access mbind outcome_bind].
  rewrite (proj2 (Z.ltb_ge _ _)) by lia. rewrite Hname. cbn [access mbind outcome_bind].
  rewrite (zo_name _ Hf). cbn [negb].
  destruct (find_slot map es (zf_name f) Hok) as (h & -> & Hh & Hle & Hgt). cbn [mbind outcome_bind].
  rewrite wrap_small by (unfold in_u; lia). rewrite (proj2 (Z.ltb_ge (zlen es) _)) by lia.
  rewrite (read_entry_written ptr f off rest) by (done || by split). cbn [mbind outcome_bind option_bind].
  eexists. split; [do 3 f_equal; lia|]. split; [|apply insert_at_perm].
  apply insert_loop_ok; try done. by apply entry_of_ok.
Qed.

Lemma parse_loop_written fs : forall es ptr off rest rest',
  loop_ok map es -> zlen es + zlen fs < 2 ^ 16 -> 0 <= ptr -> 0 <= off -> Forall zfile_ok fs ->
  drop (Z.to_nat off) map = locals fs ++ rest' -> drop (Z.to_nat ptr) map = central fs off ++ rest ->
  exists es', parse_loop addr map (length fs) es ptr = Done (Some es') /\
    loop_ok map es' /\ es' ≡ₚ entries_of fs off ++ es.
Proof.
  induction fs as [|f fs IH]; intros es ptr off rest rest' Hok Hn Hp Ho Hfs Hl Hc; cbn [length parse_loop].
  - by exists es.
  - apply Forall_cons in Hfs as [Hf Hfs]. rewrite locals_cons, <- app_assoc in Hl. rewrite central_cons, <- app_assoc in Hc.
    destruct (parse_step_written es ptr f off (central fs (off + zlen (loc_bytes f)) ++ rest))
      as (es1 & -> & Hok1 & HP1); [done|cbn in Hn; lia|done|done|split; [done|eauto]|done|].
    cbn [mbind outcome_bind]. pose proof (Permutation_length HP1) as Hl1.
    destruct (IH es1 (ptr + zlen (cen_bytes f off)) (off + zlen (loc_bytes f)) rest rest')
      as (es2 & -> & Hok2 & HP2); [done|cbn in Hn, Hl1; lia|lia|lia|done| | |].
    + rewrite Z2Nat.inj_add, <- drop_drop, Hl by lia. rewrite Nat2Z.id, drop_app_length. done.
    + rewrite Z2Nat.inj_add, <- drop_drop, Hc by lia. rewrite Nat2Z.id, drop_app_length. done.
    + exists es2. split_and!; [done|done|]. rewrite HP2, HP1. cbn [entries_of]. symmetry. apply Permutation_middle.
Qed.

End Written.

Lemma name_bytes f : zfile_ok f -> bytes (zf_name f).
Proof.
  intros [Hn _ _ _ _ _ _ _ _ _ _]. unfold validFilename in Hn. bool_to_prop. apply Forall_forall. intros c Hcc.
  match goal with H : forallb _ _ = true |- _ =>
    rewrite forallb_forall in H; specialize (H c (proj1 (list_elem_of_In _ _) Hcc)) end.
  bool_to_prop. unfold is_byte. lia.
Qed.

Lemma central_bytes fs : forall off, Forall zfile_ok fs -> bytes (central fs off).
Proof.
  induction fs as [|f fs IH]; intros off Hfs; [constructor|]. apply Forall_cons in Hfs as [Hf Hfs].
  rewrite central_cons. apply bytes_app. split; [|by apply IH]. pose proof (name_bytes f Hf).
  destruct Hf as [_ _ _ _ _ _ [Hv _] [Hd _] _ [He _] [Hc _]].
  unfold cen_bytes. rewrite !bytes_app. split_and!; auto with recovery.
Qed.

Lemma locals_bytes fs : Forall zfile_ok fs -> bytes (locals fs).
Proof.
  induction 1 as [|f fs Hf _ IH]; [constructor|]. rewrite locals_cons. apply bytes_app. split; [|done].
  pose proof (name_bytes f Hf). destruct Hf as [_ Hd _ _ _ [Hl _] _ _ [He _] _ _].
  unfold loc_bytes. rewrite !bytes_app. split_and!; auto with recovery.
Qed.

Lemma zip_bytes_bytes fs comment : Forall zfile_ok fs -> bytes comment -> bytes (zip_bytes fs comment).
Proof.
  intros Hfs Hc. unfold zip_bytes, end_bytes. rewrite !bytes_app.
  split_and!; auto using locals_bytes, central_bytes with recovery. by_decide.
Qed.

(** Where the end record of a written archive is, and what it says. *)
Lemma end_fields fs comment :
  let map := zip_bytes fs comment in let p := zlen (locals fs) + zlen (central fs 0) in
  Forall zfile_ok fs -> bytes comment -> zlen fs < 2 ^ 16 -> zlen map <= 2 ^ 30 ->
  zlen map = p + 22 + zlen comment /\ get4LE map p = Some ENDSIG /\
  get2LE map (p + ENDSUB) = Some (zlen fs) /\ get4LE map (p + ENDOFF) = Some (zlen (locals fs)).
Proof.
  intros map p Hfs Hc Hn Hl. pose proof (zip_bytes_bytes fs comment Hfs Hc) as Hb. fold map in Hb.
  assert (drop (Z.to_nat p) map = end_bytes fs comment) as Hd.
  { unfold map, p, zip_bytes. rewrite app_assoc. apply drop_app_length'. rewrite length_app. lia. }
  assert (zlen map = p + 22 + zlen comment) as Hz.
  { unfold map, p, zip_bytes, end_bytes. rewrite !length_app, !le_encode_length. cbn [length]. lia. }
  unfold end_bytes in Hd. unfold ENDSUB, ENDOFF. split_and!; [done| | |].
  - replace p with (p + 0) by lia. eapply get4LE_field; [done|lia|done|exact Hd|reflexivity|done].
  - eapply get2LE_field; [done|lia|done|exact Hd| |unfold in_u; lia].
    change (Z.to_nat 8) with 8%nat. rewrite drop_le by (cbn; lia). reflexivity.
  - eapply get4LE_field; [done|lia|done|exact Hd| |unfold in_u; lia].
    change (Z.to_nat 16) with 16%nat. rewrite drop_le by (cbn; lia).
    change (drop (16 - 4) ([0; 0; 0; 0] ++ ?k)) with (drop 8 k). rewrite !drop_le by (cbn; lia). reflexivity.
Qed.

(** [C9] An archive laid out as the format says - any number of files with
    printable names, any extra fields and comments, the end record the last one
    in the file - is accepted, and its entries are exactly the files written:
    name, place and lengths of the data, method, time, checksum and attributes,
    in the order of the names. *)
Theorem parseZipArchive_written {S : SafeIop} {SS : SafeIopSpec S} calloc_ok addr fs comment
    (Hcal : forall n, calloc_ok n = true) (Hfs : Forall zfile_ok fs) (Hn : 0 < zlen fs < 2 ^ 16)
    (Hc : bytes comment) (Hlen : zlen (zip_bytes fs comment) <= 2 ^ 30)
    (Haddr : 0 <= addr) (Htop : addr + zlen (zip_bytes fs comment) < 2 ^ 32)
    (Hlast : forall q, zlen (locals fs) + zlen (central fs 0) < q -> get4LE (zip_bytes fs comment) q ≠ Some ENDSIG) :
  exists ar, parseZipArchive calloc_ok addr (zip_bytes fs comment) = Done (Some ar) /\
    za_pEntries ar ≡ₚ entries_of fs 0 /\ sorted_names (za_pEntries ar).
Proof.
  pose proof (zip_bytes_bytes fs comment Hfs Hc) as Hb.
  destruct (end_fields fs comment Hfs Hc ltac:(lia) Hlen) as (Hz & Hsig & Hsub & Hoff).
  set (map := zip_bytes fs comment) in *. set (p := zlen (locals fs) + zlen (central fs 0)) in *.
  assert (drop (Z.to_nat 0) map = locals fs ++ central fs 0 ++ end_bytes fs comment) as H0 by done.
  assert (get4LE map 0 = Some LOCSIG) as Hloc.
  { destruct fs as [|f fs']; [cbn in Hn; lia|]. rewrite locals_cons, <- app_assoc in H0.
    apply Forall_cons in Hfs as [Hf _]. by apply (loc_fields map 0 f _ Hb ltac:(done) Hf) in H0 as [? _]. }
  unfold parseZipArchive. rewrite Hloc. cbn [access mbind outcome_bind]. rewrite Z.eqb_refl. cbn [negb].
  destruct (find_eocd_spec map (Datatypes.S (length map)) (zlen map - ENDHDR)) as (r & -> & Hr);
    [done|unfold ENDHDR; lia|unfold ENDHDR; lia|].
  assert (r = Some p) as ->.
  { destruct r as [p'|]; [|exfalso; apply (Hr p); [unfold ENDHDR; lia|done]].
    destruct Hr as (Hp' & Hs' & Hno). f_equal. destruct (Z.lt_trichotomy p' p) as [H|[H|H]]; [|done|].
    - exfalso. apply (Hno p); [unfold ENDHDR; lia|done].
    - exfalso. by apply (Hlast p'). }
  cbn [mbind outcome_bind]. rewrite Hsub, Hoff. cbn [access mbind outcome_bind].
  rewrite (proj2 (Z.eqb_neq _ 0)), (proj2 (Z.leb_gt _ _)) by lia. cbn [orb]. rewrite Hcal. cbn [negb].
  destruct (parse_loop_written addr map Hb Hlen Haddr Htop fs [] (zlen (locals fs)) 0 (end_bytes fs comment)
    (central fs 0 ++ end_bytes fs comment)) as (es & Hlp & Hok & HP);
    [split; [by intros ??????|constructor]|cbn; lia|lia|done|done|done| |].
  { unfold map, zip_bytes. rewrite Nat2Z.id. apply drop_app_length. }
  rewrite app_nil_r in HP. assert (zlen es = zlen fs) as Hes.
  { apply Permutation_length in HP. rewrite HP. f_equal. generalize 0. clear. induction fs; intros; cbn; auto. }
  destruct (index_ok calloc_ok Hcal map es Hok) as (t & t' & Ht & Ht' & Har); [lia|].
  rewrite Hes in Ht. rewrite Ht, Nat2Z.id, Hlp. cbn [mbind outcome_bind]. rewrite Ht'. cbn [mbind outcome_bind].
  eexists. split; [done|]. split; [done|]. apply (lo_sorted _ _ Hok).
Qed.

(** ** Examples *)

(** safe_iop on integers. *)
#[export] Instance int_safe : SafeIop := {
  safe_uadd a b := if a + b <? 2 ^ 32 then Some (a + b) else None;
  safe_sadd a b := if (- 2 ^ 31 <=? a + b) && (a + b <? 2 ^ 31) then Some (a + b) else None
}.

#[export] Instance int_safe_spec : SafeIopSpec int_safe.
Proof. by split. Qed.

Lemma get4LE_inside (map : list Z) p v : get4LE map p = Some v -> 0 <= p < zlen map.
Proof.
  unfold get4LE. destruct (buf_get map p) as [b|] eqn:E; [|done]. intros _. by apply buf_get_inv in E as [? _].
Qed.

(** A test of every position decides what holds of all fields. *)
Lemma all_fields (map : list Z) (P : Z -> Z -> Prop) `{forall p v, Decision (P p v)} :
  forallb (fun p => match get4LE map p with Some v => bool_decide (P p v) | None => true end) (seqZ 0 (zlen map)) = true ->
  forall p v, get4LE map p = Some v -> P p v.
Proof.
  intros Ha p v Hv. rewrite forallb_forall in Ha. pose proof (get4LE_inside map p v Hv).
  specialize (Ha p ltac:(apply list_elem_of_In, elem_of_seqZ; lia)). rewrite Hv in Ha. by apply bool_decide_eq_true in Ha.
Qed.

Definition demo_file (name data : list Z) : zfile :=
  mkZfile name data 7 DEFLATED 1 2 (768 + 20) 3 (replicate 22 9) [5] (replicate 4 9) (replicate 4 9) [6; 6] [].

Definition demo_files : list zfile := [demo_file [98; 47; 120] [1; 2; 3]; demo_file [97] [4; 5]].

Lemma demo_files_ok : Forall zfile_ok demo_files.
Proof.
  repeat apply Forall_cons_2; [| |apply Forall_nil_2];
    (split; [reflexivity|by_decide|by_decide|split; [by_decide|by right]|split_and!; by_decide| | | | | |];
     split; by_decide || reflexivity).
Qed.

Lemma parseZipArchive_written_witness :
  exists ar, parseZipArchive (fun _ => true) 4096 (zip_bytes demo_files [1; 2]) = Done (Some ar) /\
    za_pEntries ar ≡ₚ entries_of demo_files 0 /\ sorted_names (za_pEntries ar).
Proof.
  apply (parseZipArchive_written (fun _ => true) 4096 demo_files [1; 2]); [done|apply demo_files_ok|done|by_decide|by_decide|done|by_decide|].
  intros q Hq Hs. revert Hq. revert q Hs.
  cut (forall q v, get4LE (zip_bytes demo_files [1; 2]) q = Some v -> v = ENDSIG -> q <= zlen (locals demo_files) + zlen (central demo_files 0)).
  - intros H q Hs Hq. specialize (H q _ Hs eq_refl). lia.
  - apply (all_fields (zip_bytes demo_files [1; 2]) (fun q v => v = ENDSIG -> q <= zlen (locals demo_files) + zlen (central demo_files 0))).
    vm_compute. reflexivity.
Defined.

Lemma parseZipArchive_safe_witness :
  exists r, parseZipArchive (fun _ => true) 4096 (zip_bytes demo_files [1; 2]) = Done r /\
    forall ar, r = Some ar ->
      za_numEntries ar = zlen (za_pEntries ar) /\ sorted_names (za_pEntries ar) /\
      forall e, e ∈ za_pEntries ar ->
        validFilename (fileName e) = true /\ 0 <= ze_offset e /\
        (0 <= compLen e -> ze_offset e + compLen e <= zlen (zip_bytes demo_files [1; 2])).
Proof.
  apply (parseZipArchive_safe (fun _ => true) 4096 (zip_bytes demo_files [1; 2])); [done|by_decide|by_decide|done|by_decide|].
  apply (all_fields (zip_bytes demo_files [1; 2]) (fun _ off => ~ header_wraps 4096 off)). vm_compute. reflexivity.
Defined.

Definition demo_archive : ZipArchive :=
  Eval vm_compute in
    match parseZipArchive (fun _ => true) 4096 (zip_bytes demo_files [1; 2]) with
    | Done (Some ar) => ar | _ => mkArchive 0 [] (mkHashTable 0 0 0 [])
    end.

Lemma mzFindZipEntry_correct_witness :
  exists r, mzFindZipEntry (fun _ => true) demo_archive [97] = Done r /\
    match r with
    | Some e => e ∈ za_pEntries demo_archive /\ fileName e = [97]
    | None => forall e, e ∈ za_pEntries demo_archive -> fileName e ≠ [97]
    end.
Proof.
  apply (mzFindZipEntry_correct (fun _ => true) 4096 (zip_bytes demo_files [1; 2]) demo_archive [97]);
    [done|by_decide|by_decide|done|by_decide| |vm_compute; reflexivity|done].
  apply (all_fields (zip_bytes demo_files [1; 2]) (fun _ off => ~ header_wraps 4096 off)). vm_compute. reflexivity.
Defined.

(** An archive with one file, its header offset and its compressed length as given. *)
Definition forged (off siz : Z) : list Z :=
  let f := demo_file [97] [4; 5] in
  loc_bytes f ++
  (le_encode 4 CENSIG ++ le_encode 2 20 ++ [0; 0; 0; 0] ++ le_encode 2 DEFLATED ++ le_encode 4 0 ++ le_encode 4 0 ++
   le_encode 4 siz ++ le_encode 4 7 ++ le_encode 2 1 ++ le_encode 2 0 ++ le_encode 2 0 ++ replicate 4 0 ++
   le_encode 4 0 ++ le_encode 4 off ++ [97]) ++
  (le_encode 4 ENDSIG ++ [0; 0; 0; 0] ++ le_encode 2 1 ++ le_encode 2 1 ++ le_encode 4 47 ++
   le_encode 4 (zlen (loc_bytes f)) ++ le_encode 2 0).

Lemma get4LE_outside (map : list Z) p : zlen map <= p -> get4LE map p = None.
Proof.
  intros H. destruct (get4LE map p) as [v|] eqn:E; [|done]. apply get4LE_inside in E. lia.
Qed.

(** The check of a header offset in the last bytes of the address space passes. *)
Lemma read_entry_wraps addr (map : list Z) ptr off name vem :
  0 <= ptr -> ptr + CENHDR <= zlen map -> in_u 32 off -> in_u 32 addr -> header_wraps addr off ->
  zlen map <= off -> LOCHDR <= addr -> get2LE map (ptr + CENVEM) = Some vem -> vem .& 65280 = 0 ->
  read_entry addr map ptr off name = Undef.
Proof.
  intros Hp He Hoff Ha Hw Hout Haddr Hv Hv0. unfold read_entry.
  destruct (get4LE_some map (ptr + CENSIZ)) as (siz & -> & _); [zip_lia|zip_lia|].
  destruct (get4LE_some map (ptr + CENLEN)) as (ulen & -> & _); [zip_lia|zip_lia|].
  destruct (get2LE_some map (ptr + CENHOW)) as (how & -> & _); [zip_lia|zip_lia|].
  destruct (get4LE_some map (ptr + CENTIM)) as (tim & -> & _); [zip_lia|zip_lia|].
  destruct (get4LE_some map (ptr + CENCRC)) as (crc & -> & _); [zip_lia|zip_lia|].
  destruct (get4LE_some map (ptr + CENATX)) as (atx & -> & _); [zip_lia|zip_lia|].
  rewrite Hv. cbn [access mbind outcome_bind]. rewrite Hv0. cbn [Z.eqb negb andb].
  unfold header_wraps, in_u in *. rewrite safe_uadd_spec by (unfold in_u; lia).
  rewrite (proj2 (Z.ltb_lt _ _)) by lia.
  assert (wrap 32 (addr + off + LOCHDR) = addr + off + LOCHDR - 2 ^ 32) as ->.
  { unfold wrap. rewrite <- (Z_mod_plus_full _ (-1)). apply Z.mod_small. zip_lia. }
  rewrite (proj2 (Z.ltb_ge _ _)) by zip_lia. replace (addr + off - addr) with off by lia.
  by rewrite get4LE_outside.
Qed.

Lemma forged_step :
  parse_step 1073741824 (forged 3221225456 2) [] 34 = Undef.
Proof.
  assert (get4LE (forged 3221225456 2) 34 = Some CENSIG) as E1 by (vm_compute; reflexivity).
  assert (get4LE (forged 3221225456 2) (34 + CENOFF) = Some 3221225456) as E2 by (vm_compute; reflexivity).
  assert (get2LE (forged 3221225456 2) (34 + CENNAM) = Some 1) as E3 by (vm_compute; reflexivity).
  assert (get2LE (forged 3221225456 2) (34 + CENEXT) = Some 0) as E4 by (vm_compute; reflexivity).
  assert (get2LE (forged 3221225456 2) (34 + CENCOM) = Some 0) as E5 by (vm_compute; reflexivity).
  assert (buf_slice (forged 3221225456 2) (34 + CENHDR) 1 = Some [97]) as E6 by (vm_compute; reflexivity).
  assert (zlen (forged 3221225456 2) = 103) as E7 by (vm_compute; reflexivity).
  unfold parse_step. rewrite E7. rewrite E1. cbn [access mbind outcome_bind]. rewrite E2, E3, E4, E5.
  cbn [access mbind outcome_bind]. rewrite E6. cbn [access mbind outcome_bind].
  change (103 <? 34 + CENHDR) with false. change (negb (CENSIG =? CENSIG)) with false.
  change (103 <? 34 + CENHDR + 1) with false. change (negb (validFilename [97])) with false.
  cbv beta iota. change (zlen (@nil ZipEntry) <? wrap 32 (-1 + 1)) with false. cbv beta iota zeta.
  rewrite (read_entry_wraps _ _ _ _ _ 20); try done; rewrite ?E7; try by_decide.
Qed.

(** Two sums that are not checked.  With the file mapped at 0x40000000, a
    header offset of 0xbffffff0 passes the check of the local header, because
    adding [LOCHDR] wraps around, and the signature is read outside the mapping.
    A compressed length of 0xffffffff is a negative [long]: its sum with the
    offset is not an overflow and not beyond the end, and the entry is accepted
    with [compLen] -1. *)
Theorem parseZipArchive_unchecked_sums :
  parseZipArchive (fun _ => true) 1073741824 (forged 3221225456 2) = Undef /\
  exists ar e, parseZipArchive (fun _ => true) 1073741824 (forged 0 4294967295) = Done (Some ar) /\
    za_pEntries ar = [e] /\ compLen e = -1.
Proof.
  split; [|do 2 eexists; split; [vm_compute; reflexivity|]; by split].
  assert (get4LE (forged 3221225456 2) 0 = Some LOCSIG) as E1 by (vm_compute; reflexivity).
  assert (find_eocd (Datatypes.S (length (forged 3221225456 2))) (forged 3221225456 2)
    (zlen (forged 3221225456 2) - ENDHDR) = Done (Some 81)) as E2 by (vm_compute; reflexivity).
  assert (get2LE (forged 3221225456 2) (81 + ENDSUB) = Some 1) as E3 by (vm_compute; reflexivity).
  assert (get4LE (forged 3221225456 2) (81 + ENDOFF) = Some 34) as E4 by (vm_compute; reflexivity).
  assert ((1 =? 0) || (zlen (forged 3221225456 2) <=? 34) = false) as E5 by (vm_compute; reflexivity).
  unfold parseZipArchive. rewrite E1. cbn [access mbind outcome_bind]. change (negb (LOCSIG =? LOCSIG)) with false.
  rewrite E2. cbn [access mbind outcome_bind]. rewrite E3, E4. cbn [access mbind outcome_bind]. rewrite E5.
  cbn [negb]. change (Z.to_nat 1) with 1%nat.
  destruct (mzHashTableCreate (fun _ => true) (mzHashSize 1)) as [t|] eqn:Et; [|vm_compute in Et; discriminate].
  cbn [parse_loop]. by rewrite forged_step.
Qed.
