(* ===== verification/ZipExtract.v ===== *)
(** * Reading the contents of Zip entries ([minzip/Zip.c], from
    [processStoredEntry] to [mzExtractZipEntryToBuffer])

    The archive's descriptor is [fd_read]: what [read] returns at a position for
    a number of bytes, and the bytes.  The uncompressed data goes in pieces to a
    callback with its cookie.  Inflating is the interface [Inflater]; what the
    code relies on of zlib is [InflaterSpec]. *)
From S2P Require Import Prelude HashTable Zip.

Definition BUFSIZE : Z := 32768.

Class Inflater := {
  i_stream : Type;
  (** [inflateInit2(&zstream, -MAX_WBITS)] *)
  i_init : Z * i_stream;
  (** [inflate(&zstream, Z_NO_FLUSH)] with the bytes at [next_in] and
      [avail_out]: the return value, how many bytes it consumed, its output *)
  i_inflate : i_stream -> list Z -> Z -> Z * nat * list Z * i_stream
}.

(** [i_yields s input out]: fed the bytes [input], the stream delivers [out] and
    ends.  A call with room for output, and with input unless there is none
    left, makes progress or reports the end with the last of the output. *)
Class InflaterSpec (I : Inflater) := {
  i_yields : i_stream -> list Z -> list Z -> Prop;
  i_step s chunk later out n :
    i_yields s (chunk ++ later) out -> 0 < n -> chunk ≠ [] \/ later = [] ->
    exists ret used k s', i_inflate s chunk n = (ret, used, take k out, s') /\
      (used <= length chunk)%nat /\ (k <= length out)%nat /\ Z.of_nat k <= n /\
      (ret = Z_STREAM_END /\ k = length out \/
       ret = Z_OK /\ (0 < used + k)%nat /\ i_yields s' (drop used chunk ++ later) (drop k out))
}.

Section Process.
  Context {I : Inflater}.
  Context (fd_read : Z -> Z -> Z * list Z).
  Context {A : Type} (processFunction : list Z -> A -> outcome (bool * A)).

(** [while (bytesLeft > 0)] of [processStoredEntry]. *)
Fixpoint stored_loop (fuel : nat) (pos bytesLeft : Z) (cookie : A) : outcome (bool * A) :=
  if 0 <? bytesLeft then
    match fuel with
    | O => Diverge
    | S fuel =>
        let count := if BUFSIZE <? bytesLeft then BUFSIZE else bytesLeft in
        let '(n, buf) := fd_read pos count in
        if (n <? 0) || negb (n =? count) then Done (false, cookie)
        else
          '(ret, cookie) ← processFunction buf cookie;
          if ret : bool then stored_loop fuel (pos + count) (bytesLeft - count) cookie
          else Done (false, cookie)
    end
  else Done (true, cookie).

Definition processStoredEntry (pEntry : ZipEntry) (cookie : A) : outcome (bool * A) :=
  let bytesLeft := wrap 32 (compLen pEntry) in
  stored_loop (Z.to_nat (bytesLeft / BUFSIZE + 1)) (ze_offset pEntry) bytesLeft cookie.

(** "read as much as we can", when all of [avail_in] is used: the input, the
    position and [compRemaining], or [None] for [goto z_bail].  A negative count
    that [read] answers with the same number leaves [avail_in] beyond the
    buffer. *)
Definition refill (avail_in : list Z) (pos compRemaining : Z) : outcome (option (list Z * Z * Z)) :=
  match avail_in with
  | [] =>
      let getSize := if BUFSIZE <? compRemaining then BUFSIZE else compRemaining in
      let '(cc, readBuf) := fd_read pos (wrap 32 getSize) in
      if negb (cc =? getSize) then Done None
      else if getSize <? 0 then Undef
      else Done (Some (readBuf, pos + getSize, compRemaining - getSize))
  | _ => Done (Some (avail_in, pos, compRemaining))
  end.

(** [do ... while (zerr == Z_OK)] of [processDeflatedEntry]: [avail_in] is the
    input not consumed yet, [procBuf] the output since it was last emptied.  The
    result is [total_out], or -1 after [goto z_bail]. *)
Fixpoint deflated_loop (fuel : nat) (zstream : i_stream) (avail_in : list Z) (pos compRemaining : Z)
    (procBuf : list Z) (total_out : Z) (cookie : A) : outcome (Z * A) :=
  match fuel with
  | O => Diverge
  | S fuel =>
      r ← refill avail_in pos compRemaining;
      match r with
      | None => Done (-1, cookie)
      | Some (avail_in, pos, compRemaining) =>
          let '(zerr, used, out, zstream) := i_inflate zstream avail_in (BUFSIZE - zlen procBuf) in
          if negb (zerr =? Z_OK) && negb (zerr =? Z_STREAM_END) then Done (-1, cookie) else
          let procBuf := procBuf ++ out in
          let total_out := total_out + zlen out in
          let flush := (zlen procBuf =? BUFSIZE) || ((zerr =? Z_STREAM_END) && negb (zlen procBuf =? 0)) in
          '(ret, cookie) ← (if flush then processFunction procBuf cookie else Done (true, cookie));
          if negb ret then Done (-1, cookie)
          else
            let procBuf := if flush then [] else procBuf in
            if zerr =? Z_OK
            then deflated_loop fuel zstream (drop used avail_in) pos compRemaining procBuf total_out cookie
            else Done (swrap 32 total_out, cookie)
      end
  end.

Definition processDeflatedEntry (fuel : nat) (pEntry : ZipEntry) (cookie : A) : outcome (bool * A) :=
  let '(zerr, zstream) := i_init in
  '(result, cookie) ←
    (if negb (zerr =? Z_OK) then Done (-1, cookie)
     else deflated_loop fuel zstream [] (ze_offset pEntry) (compLen pEntry) [] 0 cookie);
  Done (result =? uncompLen pEntry, cookie).

(** [mzProcessZipEntryContents]; the position of the descriptor is restored. *)
Definition mzProcessZipEntryContents (fuel : nat) (pEntry : ZipEntry) (cookie : A) : outcome (bool * A) :=
  if compression pEntry =? STORED then processStoredEntry pEntry cookie
  else if compression pEntry =? DEFLATED then processDeflatedEntry fuel pEntry cookie
  else Done (false, cookie).

End Process.

Section Clients.
  Context {I : Inflater}.
  Context (fd_read : Z -> Z -> Z * list Z) (fuel : nat).
  (** zlib's [crc32]. *)
  Context (crc32 : Z -> list Z -> Z).

(** [mzIsZipEntryIntact]; [crc32(0L, Z_NULL, 0)] is the initial value 0. *)
Definition crcProcessFunction (data : list Z) (crc : Z) : outcome (bool * Z) := Done (true, crc32 crc data).

Definition mzIsZipEntryIntact (pEntry : ZipEntry) : outcome bool :=
  '(ret, crc) ← mzProcessZipEntryContents fd_read crcProcessFunction fuel pEntry 0;
  if negb ret then Done false else Done (crc =? wrap 32 (ze_crc32 pEntry)).

(** What was copied so far and the room left. *)
Record CopyProcessArgs := mkCopy { cp_buf : list Z; cp_bufLen : Z }.

Definition copyProcessFunction (data : list Z) (args : CopyProcessArgs) : outcome (bool * CopyProcessArgs) :=
  if zlen data <=? cp_bufLen args
  then Done (true, mkCopy (cp_buf args ++ data) (cp_bufLen args - zlen data))
  else Done (false, args).

Definition mzReadZipEntry (pEntry : ZipEntry) (bufLen : Z) : outcome (bool * list Z) :=
  '(ret, args) ← mzProcessZipEntryContents fd_read copyProcessFunction fuel pEntry (mkCopy [] bufLen);
  Done (ret, cp_buf args).

(** What was written to the buffer, the room that is really there, and [len]. *)
Record BufferExtractCookie := mkBec { bec_buffer : list Z; bec_room : Z; bec_len : Z }.

Definition bufferProcessFunction (data : list Z) (bec : BufferExtractCookie)
  : outcome (bool * BufferExtractCookie) :=
  if bec_room bec <? zlen data then Undef
  else Done (true, mkBec (bec_buffer bec ++ data) (bec_room bec - zlen data) (swrap 32 (bec_len bec - zlen data))).

(** [mzExtractZipEntryToBuffer] into a buffer of [size] bytes. *)
Definition mzExtractZipEntryToBuffer (pEntry : ZipEntry) (size : Z) : outcome (bool * list Z) :=
  '(ret, bec) ← mzProcessZipEntryContents fd_read bufferProcessFunction fuel pEntry (mkBec [] size (uncompLen pEntry));
  Done (ret && (bec_len bec =? 0), bec_buffer bec).

(** The open file the data goes to: [fd_write data st] is what [write] returns,
    or the negated errno, and the state it leaves.  The cookie is that state and
    errno. *)
Definition EINTR : Z := 4.
Context {F : Type} (fd_write : list Z -> F -> Z * F).

(** [while (true)] of [writeProcessFunction]. *)
Fixpoint write_loop (fuel : nat) (data : list Z) (st : F) (errno : Z) : outcome (bool * (F * Z)) :=
  match fuel with
  | O => Diverge
  | S fuel =>
      let '(n, st) := fd_write data st in
      if n <=? 0 then
        let errno := if n <? 0 then - n else errno in
        if errno =? EINTR then write_loop fuel data st errno
        else Done (false, (st, errno))
      else if zlen data <? n then Done (false, (st, errno))
      else
        let data := drop (Z.to_nat n) data in
        match data with
        | [] => Done (true, (st, errno))
        | _ => write_loop fuel data st errno
        end
  end.

Definition writeProcessFunction (data : list Z) (fd : F * Z) : outcome (bool * (F * Z)) :=
  write_loop fuel data fd.1 fd.2.

Definition mzExtractZipEntryToFile (pEntry : ZipEntry) (fd : F * Z) : outcome (bool * (F * Z)) :=
  mzProcessZipEntryContents fd_read writeProcessFunction fuel pEntry fd.

End Clients.

(** ** The pieces the callback gets *)

Section Facts.
  Context {I : Inflater} {IS : InflaterSpec I}.
  Context (file : list Z) (fd_read : Z -> Z -> Z * list Z).
  (** Reads inside the file succeed. *)
  Context (Hread : forall p n b, buf_slice file p n = Some b -> fd_read p n = (n, b)).
  Context {A : Type} (processFunction : list Z -> A -> outcome (bool * A)).

(** Feeding pieces to the callback until it refuses one. *)
Fixpoint feed (chunks : list (list Z)) (cookie : A) : outcome (bool * A) :=
  match chunks with
  | [] => Done (true, cookie)
  | c :: chunks =>
      '(ret, cookie) ← processFunction c cookie;
      if ret : bool then feed chunks cookie else Done (false, cookie)
  end.

(** The first [k] bytes of a part of the file, and the rest. *)
Lemma slice_split pos n k content :
  buf_slice file pos n = Some content -> 0 <= k <= n ->
  buf_slice file pos k = Some (take (Z.to_nat k) content) /\
  buf_slice file (pos + k) (n - k) = Some (drop (Z.to_nat k) content).
Proof.
  intros Hc Hk. pose proof (buf_slice_inv _ _ _ _ Hc) as (Hp & Hl & Hfit & Hlen).
  rewrite buf_slice_some in Hc by lia. injection Hc as <-. rewrite !buf_slice_some by lia. split; f_equal.
  - by rewrite take_take, Nat.min_l by lia.
  - rewrite skipn_firstn_comm, drop_drop. f_equal; [lia|]. f_equal. lia.
Qed.

Lemma stored_loop_spec fuel : forall pos left content,
  buf_slice file pos left = Some content -> left <= Z.of_nat fuel * BUFSIZE ->
  exists chunks, mjoin chunks = content /\ Forall (fun c => c ≠ []) chunks /\
    forall cookie, stored_loop fd_read processFunction fuel pos left cookie = feed chunks cookie.
Proof.
  induction fuel as [|fuel IH]; intros pos left content Hc Hf; cbn [stored_loop];
    pose proof (buf_slice_inv _ _ _ _ Hc) as (Hp & Hl & Hfit & Hlen);
    (destruct (Z.ltb_spec 0 left) as [Hlt|]; [|exists []; destruct content; [done|cbn in Hlen; lia]]); [lia|].
  set (count := if _ <? _ then _ else _).
  assert (0 < count <= left /\ (count = left \/ count = BUFSIZE)) as [Hcnt Hcase]
    by (subst count; unfold BUFSIZE; destruct (Z.ltb_spec 32768 left); lia).
  destruct (slice_split _ _ count _ Hc) as [Hb Hrest]; [lia|].
  destruct (IH _ _ _ Hrest) as (chunks & Hj & Hne & Hrun); [unfold BUFSIZE in *; lia|].
  exists (take (Z.to_nat count) content :: chunks). split_and!.
  - change (take (Z.to_nat count) content ++ mjoin chunks = content). rewrite Hj. apply take_drop.
  - constructor; [|done]. intros E. apply (f_equal length) in E. rewrite length_take in E. cbn in E. lia.
  - intros cookie. rewrite (Hread _ _ _ Hb). rewrite Z.eqb_refl, (proj2 (Z.ltb_ge _ _)) by lia. cbn [negb orb feed].
    destruct (processFunction _ cookie) as [[[] c]| | |]; cbn; auto.
Qed.

(** The result of the loop over the stream, from what the callback said. *)
Definition inflated (total : Z) (r : outcome (bool * A)) : outcome (Z * A) :=
  '(ok, cookie) ← r; Done (if ok : bool then swrap 32 total else -1, cookie).

Lemma refill_spec avail pos left later :
  buf_slice file pos left = Some later -> left < 2 ^ 32 ->
  exists avail' pos' left' later', refill fd_read avail pos left = Done (Some (avail', pos', left')) /\
    buf_slice file pos' left' = Some later' /\ avail' ++ later' = avail ++ later /\
    (avail' ≠ [] \/ later' = []) /\ left' <= left.
Proof.
  intros Hl Hu. pose proof (buf_slice_inv _ _ _ _ Hl) as (Hp & Hl0 & Hfit & Hlen). unfold refill.
  destruct avail as [|x avail]; [|do 4 eexists; split_and!; [done|exact Hl|done|by left|lia]].
  set (getSize := if _ <? _ then _ else _).
  assert (0 <= getSize <= left /\ (getSize = left \/ 0 < getSize)) as [Hg Hg0]
    by (subst getSize; unfold BUFSIZE; destruct (Z.ltb_spec 32768 left); lia).
  destruct (slice_split _ _ getSize _ Hl) as [Hb Hrest]; [lia|].
  rewrite wrap_small by (unfold in_u; lia). rewrite (Hread _ _ _ Hb), Z.eqb_refl. cbn [negb].
  rewrite (proj2 (Z.ltb_ge _ _)) by lia. do 4 eexists. split_and!; [done|exact Hrest|apply take_drop| |lia].
  destruct Hg0 as [-> | Hpos].
  - right. apply drop_ge. lia.
  - left. intros E. apply (f_equal length) in E. rewrite length_take in E. cbn in E. lia.
Qed.

Lemma deflated_loop_spec fuel : forall s avail pos left later procBuf out total,
  buf_slice file pos left = Some later -> left < 2 ^ 32 -> i_yields s (avail ++ later) out ->
  zlen procBuf < BUFSIZE -> (length (avail ++ later) + length out < fuel)%nat ->
  exists chunks, mjoin chunks = procBuf ++ out /\ Forall (fun c => c ≠ []) chunks /\
    forall cookie, deflated_loop fd_read processFunction fuel s avail pos left procBuf total cookie =
      inflated (total + zlen out) (feed chunks cookie).
Proof.
  induction fuel as [|fuel IH]; intros s avail pos left later procBuf out total Hl Hu Hy Hb Hf; [lia|].
  destruct (refill_spec avail pos left later Hl Hu) as (avail' & pos' & left' & later' & Hre & Hl' & Heq & Hne & Hle).
  rewrite <- Heq in Hy, Hf. cbn [deflated_loop]. rewrite Hre. cbn [mbind outcome_bind].
  destruct (i_step s avail' later' out (BUFSIZE - zlen procBuf) Hy ltac:(lia) Hne)
    as (ret & used & k & s' & -> & Hused & Hk & Hkn & Hcase).
  set (buf := procBuf ++ take k out).
  assert (zlen buf = zlen procBuf + Z.of_nat k) as Hbl by (unfold buf; rewrite length_app, length_take; lia).
  assert (zlen (take k out) = Z.of_nat k) as Htk by (rewrite length_take; lia).
  destruct Hcase as [[-> ->] | (-> & Hprog & Hy')].
  - assert (buf = procBuf ++ out) as Hbuf by (unfold buf; by rewrite take_ge).
    cbn [negb andb orb Z.eqb]. change (Z_STREAM_END =? Z_OK) with false. change (Z_STREAM_END =? Z_STREAM_END) with true.
    cbn [negb andb]. set (flush := (zlen buf =? BUFSIZE) || negb (zlen buf =? 0)).
    exists (if flush then [buf] else []). split_and!.
    + rewrite <- Hbuf. unfold flush. destruct (Z.eqb_spec (zlen buf) 0) as [E|]; cbn [negb].
      * rewrite orb_false_r. destruct (Z.eqb_spec (zlen buf) BUFSIZE); [unfold BUFSIZE in *; lia|].
        destruct buf; [done|cbn in E; lia].
      * rewrite orb_true_r. apply app_nil_r.
    + destruct flush eqn:Ef; [|done]. constructor; [|done]. intros E. unfold flush in Ef. rewrite E in Ef. done.
    + intros cookie. rewrite Htk. destruct flush; cbn [feed inflated mbind outcome_bind negb]; [|done].
      destruct (processFunction buf cookie) as [[[] c]| | |]; done.
  - change (Z_OK =? Z_OK) with true. change (Z_OK =? Z_STREAM_END) with false. cbn [negb andb]. rewrite orb_false_r.
    set (flush := zlen buf =? BUFSIZE).
    destruct (IH s' (drop used avail') pos' left' later' (if flush then [] else buf) (drop k out) (total + zlen (take k out)))
      as (chunks & Hj & Hnel & Hrun); [done|lia|done| | |].
    { unfold flush. destruct (Z.eqb_spec (zlen buf) BUFSIZE); [unfold BUFSIZE; cbn; lia|].
      unfold BUFSIZE in *. lia. }
    { rewrite length_app, !length_drop in *. lia. }
    exists (if flush then buf :: chunks else chunks). split_and!.
    + destruct flush; [change (buf ++ mjoin chunks = procBuf ++ out)|]; rewrite Hj; unfold buf;
        cbn [app]; by rewrite <- app_assoc, take_drop.
    + destruct flush eqn:Ef; [|done]. constructor; [|done]. intros E. unfold flush in Ef. rewrite E in Ef. done.
    + intros cookie. replace (total + zlen out) with (total + zlen (take k out) + zlen (drop k out))
        by (rewrite length_take, length_drop; lia).
      destruct flush; cbn [feed inflated mbind outcome_bind negb]; [|apply Hrun].
      destruct (processFunction buf cookie) as [[[] c]| | |]; cbn [mbind outcome_bind negb]; try done.
Qed.

(** The entry's data in the file stands for [content]. *)
Definition holds (e : ZipEntry) (comp content : list Z) : Prop :=
  buf_slice file (ze_offset e) (compLen e) = Some comp /\
  (compression e = STORED /\ content = comp \/
   compression e = DEFLATED /\ i_init.1 = Z_OK /\ i_yields i_init.2 comp content /\ uncompLen e = zlen content).

Lemma process_holds e comp content fuel :
  holds e comp content -> compLen e < 2 ^ 31 -> zlen content < 2 ^ 31 -> (length comp + length content < fuel)%nat ->
  exists chunks, mjoin chunks = content /\ Forall (fun c => c ≠ []) chunks /\
    forall cookie, mzProcessZipEntryContents fd_read processFunction fuel e cookie = feed chunks cookie.
Proof.
  intros [Hs Hcase] Hcl Hsz Hf. pose proof (buf_slice_inv _ _ _ _ Hs) as (_ & Hc0 & _ & Hlen).
  unfold mzProcessZipEntryContents. destruct Hcase as [[-> ->] | (-> & Hi & Hy & Hu)].
  - change (STORED =? STORED) with true. cbv iota. unfold processStoredEntry.
    rewrite wrap_small by (unfold in_u; lia). apply stored_loop_spec; [done|].
    pose proof (Z_div_mod_eq_full (compLen e) BUFSIZE). pose proof (Z.mod_pos_bound (compLen e) BUFSIZE ltac:(done)).
    pose proof (Z.div_pos (compLen e) BUFSIZE Hc0 ltac:(done)). unfold BUFSIZE in *. lia.
  - change (DEFLATED =? STORED) with false. change (DEFLATED =? DEFLATED) with true. cbv iota.
    unfold processDeflatedEntry. destruct i_init as [zerr s] eqn:Ei. cbn [fst snd] in *. subst zerr.
    change (Z_OK =? Z_OK) with true. cbn [negb].
    destruct (deflated_loop_spec fuel s [] (ze_offset e) (compLen e) comp [] content 0) as (chunks & Hj & Hne & Hrun);
      [done|lia|done|done|done|].
    exists chunks. split_and!; [done|done|]. intros cookie. rewrite Hrun. unfold inflated.
    destruct (feed chunks cookie) as [[[] c]| | |]; cbn [mbind outcome_bind]; try done.
    + rewrite swrap_small by (unfold in_s; lia). rewrite Hu. by rewrite Z.eqb_refl.
    + rewrite (proj2 (Z.eqb_neq _ _)) by lia. done.
Qed.

End Facts.

(** What the callbacks make of the pieces. *)
Lemma feed_copy chunks : forall buf n,
  zlen (mjoin chunks) <= n ->
  feed copyProcessFunction chunks (mkCopy buf n) = Done (true, mkCopy (buf ++ mjoin chunks) (n - zlen (mjoin chunks))).
Proof.
  induction chunks as [|c chunks IH]; intros buf n Hn.
  - change (mjoin []) with (@nil Z). cbn [feed]. rewrite app_nil_r. do 3 f_equal. cbn. lia.
  - change (mjoin (c :: chunks)) with (c ++ mjoin chunks) in *. rewrite length_app in *. cbn [feed].
    assert (copyProcessFunction c (mkCopy buf n) = Done (true, mkCopy (buf ++ c) (n - zlen c))) as ->
      by (unfold copyProcessFunction; cbn [cp_bufLen cp_buf]; by rewrite (proj2 (Z.leb_le _ _)) by lia).
    cbn [mbind outcome_bind]. rewrite IH by lia. rewrite app_assoc. do 3 f_equal. lia.
Qed.

Lemma feed_buffer chunks : forall buf n l,
  zlen (mjoin chunks) <= n -> in_s 32 l -> in_s 32 (l - zlen (mjoin chunks)) -> zlen (mjoin chunks) < 2 ^ 31 ->
  feed bufferProcessFunction chunks (mkBec buf n l) =
    Done (true, mkBec (buf ++ mjoin chunks) (n - zlen (mjoin chunks)) (l - zlen (mjoin chunks))).
Proof.
  induction chunks as [|c chunks IH]; intros buf n l Hn Hl Hd Hz.
  - change (mjoin []) with (@nil Z). cbn [feed length]. rewrite app_nil_r. do 3 f_equal; lia.
  - change (mjoin (c :: chunks)) with (c ++ mjoin chunks) in *. rewrite length_app in *. cbn [feed].
    unfold in_s in *.
    assert (bufferProcessFunction c (mkBec buf n l) = Done (true, mkBec (buf ++ c) (n - zlen c) (l - zlen c))) as ->
      by (unfold bufferProcessFunction; cbn [bec_room bec_buffer bec_len];
          rewrite (proj2 (Z.ltb_ge _ _)) by lia; by rewrite swrap_small by (unfold in_s; lia)).
    cbn [mbind outcome_bind]. rewrite IH by (unfold in_s; lia). rewrite app_assoc. do 3 f_equal; lia.
Qed.

Lemma feed_crc (crc32 : Z -> list Z -> Z) chunks :
  (forall c a b, crc32 (crc32 c a) b = crc32 c (a ++ b)) -> (forall c, crc32 c [] = c) ->
  forall c, feed (crcProcessFunction crc32) chunks c = Done (true, crc32 c (mjoin chunks)).
Proof.
  intros Happ Hnil. induction chunks as [|x chunks IH]; intros c; [cbn; by rewrite Hnil|].
  cbn [feed crcProcessFunction mbind outcome_bind]. rewrite IH, Happ. done.
Qed.

(** Every [write] that gets somewhere brings the end nearer. *)
Section Writing.
  Context {F : Type} (fd_write : list Z -> F -> Z * F) (contents : F -> list Z) (good : F -> Prop).
  Context (Hwrite : forall data st, data ≠ [] -> good st ->
    exists n st', fd_write data st = (n, st') /\ 0 < n <= zlen data /\
      contents st' = contents st ++ take (Z.to_nat n) data /\ good st').

Lemma write_loop_ok fuel : forall data st errno,
  data ≠ [] -> good st -> (length data <= fuel)%nat ->
  exists st', write_loop fd_write fuel data st errno = Done (true, (st', errno)) /\
    contents st' = contents st ++ data /\ good st'.
Proof using Hwrite.
  induction fuel as [|fuel IH]; intros data st errno Hne Hg Hl; [destruct data; [done|cbn in Hl; lia]|].
  cbn [write_loop]. destruct (Hwrite data st Hne Hg) as (n & st1 & -> & Hn & Hc & Hg1).
  rewrite (proj2 (Z.leb_gt _ _)), (proj2 (Z.ltb_ge _ _)) by lia.
  pose proof (take_drop (Z.to_nat n) data) as Htd. pose proof (length_drop data (Z.to_nat n)) as Hld.
  destruct (drop (Z.to_nat n) data) as [|x d] eqn:Ed.
  - exists st1. rewrite app_nil_r in Htd. rewrite Htd in Hc. done.
  - destruct (IH (x :: d) st1 errno) as (st2 & -> & Hc2 & Hg2); [done|done|lia|].
    exists st2. rewrite Hc2, Hc, <- app_assoc, Htd. done.
Qed.

Lemma feed_write fuel chunks : forall st errno,
  Forall (fun c => c ≠ []) chunks -> good st -> (length (mjoin chunks) <= fuel)%nat ->
  exists st', feed (writeProcessFunction fuel fd_write) chunks (st, errno) = Done (true, (st', errno)) /\
    contents st' = contents st ++ mjoin chunks /\ good st'.
Proof using Hwrite.
  induction chunks as [|c chunks IH]; intros st errno Hne Hg Hl.
  - exists st. cbn [feed]. change (mjoin []) with (@nil Z). by rewrite app_nil_r.
  - change (mjoin (c :: chunks)) with (c ++ mjoin chunks) in *. rewrite length_app in Hl. cbn [feed].
    apply Forall_cons in Hne as [Hc Hne].
    destruct (write_loop_ok fuel c st errno) as (st1 & E1 & Hc1 & Hg1); [done|done|lia|].
    assert (writeProcessFunction fuel fd_write c (st, errno) = Done (true, (st1, errno))) as -> by done.
    cbn [mbind outcome_bind]. destruct (IH st1 errno) as (st2 & -> & Hc2 & Hg2); [done|done|lia|].
    exists st2. by rewrite Hc2, Hc1, <- app_assoc.
Qed.
End Writing.

Lemma feed_overrun chunks : forall buf n l,
  0 <= n < zlen (mjoin chunks) -> feed bufferProcessFunction chunks (mkBec buf n l) = Undef.
Proof.
  induction chunks as [|c chunks IH]; intros buf n l Hn; [cbn in Hn; lia|].
  change (mjoin (c :: chunks)) with (c ++ mjoin chunks) in *. rewrite length_app in *. cbn [feed].
  destruct (Z.ltb_spec n (zlen c)) as [Hlt|Hge].
  - assert (bufferProcessFunction c (mkBec buf n l) = Undef) as ->; [|done].
    unfold bufferProcessFunction. cbn [bec_room]. by rewrite (proj2 (Z.ltb_lt _ _)).
  - assert (exists l', bufferProcessFunction c (mkBec buf n l) = Done (true, mkBec (buf ++ c) (n - zlen c) l')) as [l' ->].
    { unfold bufferProcessFunction. cbn [bec_room]. rewrite (proj2 (Z.ltb_ge _ _)) by lia. by eexists. }
    cbn [mbind outcome_bind]. apply IH. lia.
Qed.

(** ** Properties *)

(** Reading an entry gives its contents, stored or deflated, through each
    of the four interfaces: into a buffer of the announced size, into a buffer
    with a bound, as a checksum, and into a file when every [write] gets
    somewhere. *)
Theorem zip_entry_contents {I : Inflater} {IS : InflaterSpec I} (file : list Z) fd_read crc32 fuel e comp content
    (Hread : forall p n b, buf_slice file p n = Some b -> fd_read p n = (n, b))
    (Hcrc : forall c a b, crc32 (crc32 c a) b = crc32 c (a ++ b)) (Hcrc0 : forall c, crc32 c [] = c)
    (He : holds file e comp content) (Hcl : compLen e < 2 ^ 31) (Hsz : zlen content < 2 ^ 31)
    (Hu : uncompLen e = zlen content) (Hf : (length comp + length content < fuel)%nat) :
  mzExtractZipEntryToBuffer fd_read fuel e (uncompLen e) = Done (true, content) /\
  mzReadZipEntry fd_read fuel e (zlen content) = Done (true, content) /\
  mzIsZipEntryIntact fd_read fuel crc32 e = Done (crc32 0 content =? wrap 32 (ze_crc32 e)) /\
  forall (F : Type) (fd_write : list Z -> F -> Z * F) (contents : F -> list Z) (good : F -> Prop) st errno,
    (forall data st, data ≠ [] -> good st -> exists n st', fd_write data st = (n, st') /\ 0 < n <= zlen data /\
       contents st' = contents st ++ take (Z.to_nat n) data /\ good st') -> good st ->
    exists st', mzExtractZipEntryToFile fd_read fuel fd_write e (st, errno) = Done (true, (st', errno)) /\
      contents st' = contents st ++ content.
Proof.
  split_and!.
  - destruct (process_holds file fd_read Hread bufferProcessFunction e comp content fuel He Hcl Hsz Hf) as (chunks & <- & _ & Hrun).
    unfold mzExtractZipEntryToBuffer. rewrite Hrun, feed_buffer by (unfold in_s; lia).
    cbn [mbind outcome_bind bec_len bec_buffer]. rewrite Hu, Z.sub_diag. done.
  - destruct (process_holds file fd_read Hread copyProcessFunction e comp content fuel He Hcl Hsz Hf) as (chunks & <- & _ & Hrun).
    unfold mzReadZipEntry. rewrite Hrun, feed_copy by lia. done.
  - destruct (process_holds file fd_read Hread (crcProcessFunction crc32) e comp content fuel He Hcl Hsz Hf) as (chunks & <- & _ & Hrun).
    unfold mzIsZipEntryIntact. rewrite Hrun, feed_crc by done. done.
  - intros F fd_write contents good st errno Hwrite Hg.
    destruct (process_holds file fd_read Hread (writeProcessFunction fuel fd_write) e comp content fuel He Hcl Hsz Hf)
      as (chunks & <- & Hne & Hrun).
    unfold mzExtractZipEntryToFile. rewrite Hrun.
    destruct (feed_write fd_write contents good Hwrite fuel chunks st errno) as (st' & -> & Hc & _); [done|done|lia|].
    by exists st'.
Qed.

(** A toy compression: a length byte, then the bytes. *)
Definition toy_inflate (s : option nat) (chunk : list Z) (n : Z) : Z * nat * list Z * option nat :=
  match s with
  | None =>
      match chunk with
      | [] => (-5, 0%nat, [], s)
      | b :: _ => (Z_OK, 1%nat, [], Some (Z.to_nat b))
      end
  | Some k =>
      let j := Nat.min k (Nat.min (length chunk) (Z.to_nat n)) in
      (if (j =? k)%nat then Z_STREAM_END else Z_OK, j, take j chunk, Some (k - j)%nat)
  end.

#[export] Instance toy_inflater : Inflater := {
  i_stream := option nat;
  i_init := (Z_OK, None);
  i_inflate := toy_inflate
}.

Definition toy_yields (s : option nat) (input out : list Z) : Prop :=
  match s with
  | None => input = zlen out :: out
  | Some k => input = out /\ length out = k
  end.

#[export] Instance toy_inflater_spec : InflaterSpec toy_inflater.
Proof.
  refine {| i_yields := toy_yields : i_stream -> list Z -> list Z -> Prop |}.
  intros [k|] chunk later out n Hy Hn Hne; cbn in Hy.
  - destruct Hy as [Hin Hk]. set (j := Nat.min k (Nat.min (length chunk) (Z.to_nat n))).
    assert (j <= k /\ j <= length chunk /\ j <= Z.to_nat n /\ (j = k \/ j = length chunk \/ j = Z.to_nat n))%nat
      as (Hj1 & Hj2 & Hj3 & Hj4) by (unfold j; lia).
    assert (length out = length chunk + length later)%nat as Hl by (rewrite <- Hin, length_app; lia).
    assert (take j chunk = take j out) as Htk by (rewrite <- Hin, take_app_le by lia; done).
    exists (if (j =? k)%nat then Z_STREAM_END else Z_OK), j, j, (Some (k - j)%nat).
    split_and!; [cbn; fold j; by rewrite Htk|lia|lia|lia|].
    destruct (Nat.eqb_spec j k) as [Ejk|Hjk]; [left; split; [done|lia]|right]. split; [done|]. split.
    + destruct Hne as [Hc | ->]; [destruct chunk; [done|cbn in *; lia]|]. cbn in Hl. lia.
    + cbn. rewrite <- Hin, drop_app_le by lia. split; [done|]. rewrite length_app, length_drop. lia.
  - destruct chunk as [|b chunk]; [destruct Hne as [?|Hl]; [done|rewrite Hl in Hy; discriminate]|].
    cbn in Hy. injection Hy as -> Hout. exists Z_OK, 1%nat, 0%nat, (Some (Z.to_nat (zlen out))). cbn.
    split_and!; [done|lia|lia|lia|]. right. split; [done|]. split; [lia|]. rewrite Nat2Z.id. by split.
Defined.

Definition demo_entry (how size : Z) : ZipEntry := mkEntry [97] 2 size 3 how 0 9 0 0.

Definition demo_read (p n : Z) : Z * list Z :=
  match buf_slice [9; 9; 3; 5; 6; 7] p n with Some b => (n, b) | None => (-1, []) end.

Lemma zip_entry_contents_witness :
  mzExtractZipEntryToBuffer demo_read 10 (demo_entry DEFLATED 4) 3 = Done (true, [5; 6; 7]) /\
  mzReadZipEntry demo_read 10 (demo_entry DEFLATED 4) 3 = Done (true, [5; 6; 7]) /\
  mzIsZipEntryIntact demo_read 10 (fun c l => c + foldr Z.add 0 l) (demo_entry DEFLATED 4) = Done (18 =? 9) /\
  forall (F : Type) (fd_write : list Z -> F -> Z * F) (contents : F -> list Z) (good : F -> Prop) st errno,
    (forall data st, data ≠ [] -> good st -> exists n st', fd_write data st = (n, st') /\ 0 < n <= zlen data /\
       contents st' = contents st ++ take (Z.to_nat n) data /\ good st') -> good st ->
    exists st', mzExtractZipEntryToFile demo_read 10 fd_write (demo_entry DEFLATED 4) (st, errno) = Done (true, (st', errno)) /\
      contents st' = contents st ++ [5; 6; 7].
Proof.
  apply (zip_entry_contents [9; 9; 3; 5; 6; 7] demo_read (fun c l => c + foldr Z.add 0 l) 10
    (demo_entry DEFLATED 4) [3; 5; 6; 7] [5; 6; 7]).
  - intros p n b Hb. unfold demo_read. by rewrite Hb.
  - intros c a b. rewrite foldr_app. assert (forall l x y, foldr Z.add (x + y) l = foldr Z.add x l + y) as Hsum.
    { induction l as [|z l IH]; intros x y; cbn; [done|]. rewrite IH. lia. }
    rewrite <- (Z.add_0_l (foldr Z.add 0 b)) at 2. rewrite Hsum. lia.
  - intros c. cbn. lia.
  - split; [reflexivity|]. right. split_and!; [reflexivity|reflexivity|exact (eq_refl [3; 5; 6; 7])|reflexivity].
  - by_decide.
  - by_decide.
  - reflexivity.
  - cbn. lia.
Defined.

(** Sizes that do not agree: a stored entry whose data is longer than its
    announced [uncompLen] is written past the end of a buffer of that size by
    [mzExtractZipEntryToBuffer]; and a deflated entry that announces -1 is
    reported as read when inflating it fails. *)
Theorem zip_sizes_unchecked {I : Inflater} {IS : InflaterSpec I} (file : list Z) fd_read fuel e comp
    (Hread : forall p n b, buf_slice file p n = Some b -> fd_read p n = (n, b))
    (He : holds file e comp comp) (Hst : compression e = STORED) (Hcl : compLen e < 2 ^ 31)
    (Hf : (length comp + length comp < fuel)%nat) :
  (0 <= uncompLen e < zlen comp -> mzExtractZipEntryToBuffer fd_read fuel e (uncompLen e) = Undef) /\
  forall (crc32 : Z -> list Z -> Z) e', compression e' = DEFLATED -> uncompLen e' = -1 -> i_init.1 ≠ Z_OK ->
    mzIsZipEntryIntact fd_read fuel crc32 e' = Done (0 =? wrap 32 (ze_crc32 e')).
Proof.
  split.
  - intros Hu. pose proof (buf_slice_inv _ _ _ _ (proj1 He)) as (_ & _ & _ & Hlen).
    destruct (process_holds file fd_read Hread bufferProcessFunction e comp comp fuel He Hcl ltac:(lia) Hf)
      as (chunks & Hj & _ & Hrun).
    unfold mzExtractZipEntryToBuffer. rewrite Hrun, feed_overrun by (rewrite Hj; lia). done.
  - intros crc32 e' Hc Hu Hi. unfold mzIsZipEntryIntact, mzProcessZipEntryContents, processDeflatedEntry. rewrite Hc.
    change (DEFLATED =? STORED) with false. change (DEFLATED =? DEFLATED) with true. cbv iota.
    destruct i_init as [zerr s] eqn:Ei. cbn [fst] in Hi. rewrite (proj2 (Z.eqb_neq _ _) Hi). cbn [negb mbind outcome_bind].
    by rewrite Hu.
Qed.

Lemma zip_sizes_unchecked_witness :
  mzExtractZipEntryToBuffer demo_read 10 (demo_entry STORED 4) 3 = Undef.
Proof.
  apply (zip_sizes_unchecked [9; 9; 3; 5; 6; 7] demo_read 10 (demo_entry STORED 4) [3; 5; 6; 7]).
  - intros p n b Hb. unfold demo_read. by rewrite Hb.
  - split; [reflexivity|]. left. split; reflexivity.
  - reflexivity.
  - by_decide.
  - cbn. lia.
  - cbn. lia.
Defined.
