(* ===== verification/ZipTree.v ===== *)
(** * Extracting a directory of an archive ([minzip/Zip.c], from [MzPathHelper]
    to [mzExtractRecursive])

    The archive's descriptor is [fd_read] as for single entries; the files go to
    the tree of [Posix].  Security labels are left out. *)
From S2P Require Import Prelude.
From S2P Require Import HashTable.
From S2P Require Import Zip.
From S2P Require Import ZipExtract.
From S2P Require Import Posix.
From S2P Require Import DirUtil.

Definition MZ_EXTRACT_FILES_ONLY : Z := 1.
Definition MZ_EXTRACT_DRY_RUN : Z := 2.
Definition UNZIP_DIRMODE : Z := 493.
Definition UNZIP_FILEMODE : Z := 420.

(** The C string at the front of a buffer. *)
Fixpoint c_str (b : list Z) : list Z :=
  match b with
  | [] => []
  | c :: b => if c =? 0 then [] else c :: c_str b
  end.

Record MzPathHelper := mkHelper {
  targetDir : list Z;
  zipDir : list Z;
  h_buf : option (list Z);
  targetDirLen : Z;
  zipDirLen : Z;
  h_bufLen : Z
}.

Section Tree.
  Context {I : Inflater} {Dev : Type}.
  Abbreviation W := (W tree Dev).
  Abbreviation world := (world tree Dev).
  Context (fd_read : Z -> Z -> Z * list Z) (fuel : nat).
  (** Whether [malloc(n)] and [realloc(_, n)] succeed. *)
  Context (malloc_ok : Z -> bool).

(** [targetEntryPath]: the path in the buffer, or [None] for NULL. *)
Definition targetEntryPath (helper : MzPathHelper) (pEntry : ZipEntry)
  : outcome (option (list Z) * MzPathHelper) :=
  let firstTime := match h_buf helper with None => true | Some _ => false end in
  let needLen := targetDirLen helper + 1 + fileNameLen pEntry - zipDirLen helper + 1 in
  let old := default [] (h_buf helper) in
  if (h_bufLen helper <? needLen) && negb (malloc_ok (needLen * 2)) then Done (None, helper)
  else
    let bufLen := if h_bufLen helper <? needLen then needLen * 2 else h_bufLen helper in
    (* realloc keeps what was there; the rest is not read before it is written *)
    let buf := old ++ replicate (Z.to_nat bufLen - length old) 0 in
    '(buf, dirLen) ←
      (if firstTime then
         buf ← access (buf_blit buf 0 (take (Z.to_nat (targetDirLen helper)) (targetDir helper)));
         last ← (if targetDirLen helper =? 0 then Done 0 else access (buf_get buf (targetDirLen helper - 1)));
         if (targetDirLen helper =? 0) || negb (last =? SLASH) then
           buf ← access (buf_blit buf (targetDirLen helper) [SLASH]);
           Done (buf, targetDirLen helper + 1)
         else Done (buf, targetDirLen helper)
       else Done (buf, targetDirLen helper));
    let rest := drop (Z.to_nat (zipDirLen helper)) (fileName pEntry) in
    buf ← access (buf_blit buf dirLen rest);
    buf ← access (buf_blit buf (dirLen + zlen rest) [0]);
    Done (Some (c_str buf),
          mkHelper (targetDir helper) (zipDir helper) (Some buf) dirLen (zipDirLen helper) bufLen).

(** [write] on the open file, for [writeProcessFunction]. *)
Definition file_write (p : path) (data : list Z) (w : world) : Z * world :=
  match sys_write p data w with
  | (Done n, w) => (n, w)
  | (_, w) => (- EIO, w)
  end.

Definition extract_to_file (pEntry : ZipEntry) (p : path) : W bool := fun w =>
  match mzExtractZipEntryToFile fd_read fuel (file_write p) pEntry (w, 0) with
  | Done (ok, (w, _)) => (Done ok, w)
  | Fail c => (Fail c, w)
  | Undef => (Undef, w)
  | Diverge => (Diverge, w)
  end.

(** [utime] if there is a timestamp: whether it worked. *)
Definition touch (targetFile : list Z) (timestamp : option Z) : W bool :=
  match timestamp with
  | Some t => let! r := sys_utime targetFile t in wret (r =? 0)
  | None => wret true
  end.

(** What happens to a file or link once its directory is there: [None] goes on,
    [Some ok] leaves the loop with that value of [ok].  The block of a regular
    file has an [ok] of its own, so its failures leave the loop with the outer
    one, which is true. *)
Definition extract_link (pEntry : ZipEntry) (targetFile : list Z) : W (option bool) :=
  if uncompLen pEntry =? 0 then wret (Some false)
  else if negb (malloc_ok (uncompLen pEntry + 1)) then wret (Some false)
  else
    let! (ok, data) := wlift (mzReadZipEntry fd_read fuel pEntry (uncompLen pEntry)) in
    if negb ok then wret (Some false)
    else
      (* bytes that were not read are not defined *)
      let! _ := wlift (access (if (zlen data <? uncompLen pEntry) && bool_decide (0 ∉ data) then None else Some tt)) in
      let! ret := sys_symlink (c_str data) targetFile in
      wret (if negb (ret =? 0) then Some false else None).

Definition extract_regular (pEntry : ZipEntry) (targetFile : list Z) (timestamp : option Z) : W (option bool) :=
  let! fd := sys_creat targetFile UNZIP_FILEMODE in
  match fd with
  | inr _ => wret (Some false)
  | inl p =>
      let! ok := extract_to_file pEntry p in
      if negb ok then wret (Some true)
      else
        let! ok := touch targetFile timestamp in
        wret (if negb ok then Some true else None)
  end.

(** The part of the loop body that creates the file or directory. *)
Definition extract_entry (pEntry : ZipEntry) (targetFile : list Z) (flags : Z) (timestamp : option Z) : W (option bool) :=
  let! c := wlift (access (last (fileName pEntry))) in
  if c =? SLASH then
    if flags .& MZ_EXTRACT_FILES_ONLY =? 0 then
      let! ret := dirCreateHierarchy malloc_ok targetFile UNZIP_DIRMODE timestamp false in
      wret (if negb (ret =? 0) then Some false else None)
    else wret None
  else
    let! ret := dirCreateHierarchy malloc_ok targetFile UNZIP_DIRMODE timestamp true in
    if negb (ret =? 0) then wret (Some false)
    else if (flags .& MZ_EXTRACT_FILES_ONLY =? 0) && mzIsZipEntrySymlink pEntry
    then extract_link pEntry targetFile
    else extract_regular pEntry targetFile timestamp.

(** The loop over the entries: [ok], and the names given to [callback]. *)
Fixpoint extract_loop (helper : MzPathHelper) (flags : Z) (timestamp : option Z) (seenMatch : bool)
    (called : list (list Z)) (entries : list ZipEntry) : W (bool * list (list Z)) :=
  match entries with
  | [] => wret (true, called)
  | pEntry :: entries =>
      if (fileNameLen pEntry <? zipDirLen helper) ||
         negb (strncmp (Z.to_nat (zipDirLen helper)) (fileName pEntry) (zipDir helper) =? 0)
      then if seenMatch then wret (true, called)
           else extract_loop helper flags timestamp seenMatch called entries
      else
        let! (targetFile, helper) := wlift (targetEntryPath helper pEntry) in
        match targetFile with
        | None => wret (false, called)
        | Some targetFile =>
            if negb (flags .& MZ_EXTRACT_DRY_RUN =? 0)
            then extract_loop helper flags timestamp true (called ++ [targetFile]) entries
            else
              let! r := extract_entry pEntry targetFile flags timestamp in
              match r with
              | Some ok => wret (ok, called)
              | None => extract_loop helper flags timestamp true (called ++ [targetFile]) entries
              end
        end
  end.

(** [zipDir] with a slash at its end, unless it is empty. *)
Definition canonical_dir (zipDir : list Z) : list Z :=
  match last zipDir with
  | None => []
  | Some c => if negb (c =? SLASH) then zipDir ++ [SLASH] else zipDir
  end.

Definition mzExtractRecursive (pArchive : ZipArchive) (zipDir targetDir : list Z) (flags : Z) (timestamp : option Z)
  : W (bool * list (list Z)) :=
  if bool_decide (head zipDir = Some SLASH) then wret (false, [])
  else if negb (bool_decide (head targetDir = Some SLASH)) then wret (false, [])
  else if negb (malloc_ok (zlen zipDir + 2)) then wret (false, [])
  else
    let zpath := canonical_dir zipDir in
    extract_loop (mkHelper targetDir zpath None (zlen targetDir) (zlen zpath) 0) flags timestamp false []
      (take (Z.to_nat (za_numEntries pArchive)) (za_pEntries pArchive)).

End Tree.
