(* ===== verification/ZipTreeFacts.v ===== *)
(** * What extracting a directory of an archive leaves on the disk

    The paths that [targetEntryPath] assembles, the tree that
    [mzExtractRecursive] leaves, and a failure it reports as success. *)
From S2P Require Import Prelude.
From S2P Require Import HashTable.
From S2P Require Import Zip.
From S2P Require Import ZipExtract.
From S2P Require Import ZipFacts.
From S2P Require Import Posix.
From S2P Require Import PosixFacts.
From S2P Require Import DirUtil.
From S2P Require Import DirUtilFacts.
From S2P Require Import ZipTree.

(** ** The path buffer *)

(** The target directory with a slash at its end. *)
Definition dir_slash (targetDir : list Z) : list Z :=
  if bool_decide (last targetDir = Some SLASH) then targetDir else targetDir ++ [SLASH].

(** The helper before the first call and between calls. *)
Definition helper_ok (target zpath : list Z) (h : MzPathHelper) : Prop :=
  targetDir h = target /\ zipDir h = zpath /\ zipDirLen h = zlen zpath /\
  match h_buf h with
  | None => targetDirLen h = zlen target /\ h_bufLen h = 0
  | Some buf => zlen buf = h_bufLen h /\ targetDirLen h = zlen (dir_slash target) /\
      exists rest, buf = dir_slash target ++ rest
  end.

Lemma c_str_app (s rest : list Z) : Forall (fun c => c <> 0) s -> c_str (s ++ 0 :: rest) = s.
Proof.
  induction 1 as [|c s Hc _ IH]; [done|]. cbn [app c_str]. rewrite (proj2 (Z.eqb_neq c 0) Hc). by rewrite IH.
Qed.

Lemma buf_blit_after (a r src : list Z) (off : Z) :
  off = zlen a -> zlen src <= zlen r -> buf_blit (a ++ r) off src = Some ((a ++ src) ++ drop (length src) r).
Proof.
  intros -> Hl. rewrite buf_blit_some by (rewrite ?length_app; lia).
  rewrite Nat2Z.id, take_app_length, drop_app_add, app_assoc. done.
Qed.

(** The name and the NUL behind the directory. *)
Lemma put_name (D r rest : list Z) :
  zlen rest + 1 <= zlen r -> exists r',
    (buf ← access (buf_blit (D ++ r) (zlen D) rest); access (buf_blit buf (zlen D + zlen rest) [0])) =
    Done ((D ++ rest) ++ 0 :: r') /\ length ((D ++ rest) ++ 0 :: r') = length (D ++ r).
Proof.
  intros Hl. assert (exists x r', drop (length rest) r = x :: r') as (x & r' & Er).
  { destruct (drop (length rest) r) as [|x r'] eqn:E; [|by eexists _, _].
    apply (f_equal length) in E. rewrite length_drop in E. cbn in E. lia. }
  exists r'. rewrite buf_blit_after by (try done; lia). cbn [access mbind outcome_bind].
  rewrite Er, buf_blit_after by (rewrite ?length_app; cbn [length]; lia). cbn [access length drop].
  split; [by rewrite <- app_assoc|]. apply (f_equal length) in Er. rewrite length_drop in Er. cbn [length] in Er.
  rewrite !length_app. cbn [length]. lia.
Qed.

Lemma done_bind {A B} (a : A) (f : A -> outcome B) : (Done a ≫= f) = f a.
Proof. done. Qed.

Section Paths.
  Context (malloc_ok : Z -> bool) (target zpath : list Z).
  Context (Htarget : target <> []) (Hnul : Forall (fun c => c <> 0) target).

Lemma dir_slash_nul : Forall (fun c => c <> 0) (dir_slash target).
Proof using Hnul.
  unfold dir_slash. case_bool_decide; [done|]. apply Forall_app. split; [done|]. by apply Forall_singleton.
Qed.

Lemma dir_slash_len : zlen target <= zlen (dir_slash target) <= zlen target + 1.
Proof. unfold dir_slash. case_bool_decide; rewrite ?length_app; cbn [length]; lia. Qed.

(** The directory is put in the buffer once. *)
Lemma put_dir (bufLen : nat) :
  (length target + 1 <= bufLen)%nat -> exists r,
    (buf ← access (buf_blit (replicate bufLen 0) 0 (take (Z.to_nat (zlen target)) target));
     last ← (if zlen target =? 0 then Done 0 else access (buf_get buf (zlen target - 1)));
     if (zlen target =? 0) || negb (last =? SLASH) then
       buf ← access (buf_blit buf (zlen target) [SLASH]); Done (buf, zlen target + 1)
     else Done (buf, zlen target)) = Done (dir_slash target ++ r, zlen (dir_slash target)) /\
    length (dir_slash target ++ r) = bufLen.
Proof using Htarget.
  intros Hl. rewrite Nat2Z.id, firstn_all.
  rewrite (buf_blit_after [] (replicate bufLen 0)) by (rewrite ?length_replicate; cbn [length]; lia).
  cbn [access mbind outcome_bind app]. set (z := drop (length target) (replicate bufLen 0)).
  assert (length z = bufLen - length target)%nat as Hz by (unfold z; rewrite length_drop, length_replicate; lia).
  destruct (exists_last Htarget) as (l & c & E).
  assert (0 < zlen target) as Hpos by (rewrite E, length_app; cbn [length]; lia).
  rewrite (proj2 (Z.eqb_neq (zlen target) 0)) by lia. cbn [orb].
  assert (buf_get (target ++ z) (zlen target - 1) = Some c) as ->.
  { unfold buf_get. rewrite (proj2 (Z.leb_le 0 _)) by lia.
    assert (Z.to_nat (zlen target - 1) = length l) as -> by (rewrite E, length_app; cbn [length]; lia).
    rewrite E, <- app_assoc. cbn [app]. by apply list_lookup_middle. }
  cbn [access mbind outcome_bind]. unfold dir_slash. rewrite E, last_snoc, <- E.
  destruct (Z.eqb_spec c SLASH) as [->|Hne]; cbn [negb].
  - exists z. rewrite bool_decide_true by done. split; [done|]. rewrite length_app. lia.
  - rewrite bool_decide_false by congruence. rewrite buf_blit_after by (cbn [length]; lia).
    cbn [access mbind outcome_bind length drop]. exists (drop 1 z).
    split; [|rewrite !length_app, length_drop; cbn [length]; lia]. do 2 f_equal. rewrite length_app. cbn [length]. lia.
Qed.

(** [targetEntryPath] assembles the path of an entry below the target directory,
    inside its buffer, for any sequence of entries. *)
Lemma targetEntryPath_correct (h : MzPathHelper) (e : ZipEntry) :
  helper_ok target zpath h -> zlen zpath <= fileNameLen e -> Forall (fun c => c <> 0) (fileName e) ->
  (forall n, malloc_ok n = true) ->
  exists h', targetEntryPath malloc_ok h e = Done (Some (dir_slash target ++ drop (length zpath) (fileName e)), h') /\
    helper_ok target zpath h'.
Proof using Htarget Hnul.
  intros (H1 & H2 & H3 & Hb) Hlen Hn Hm. unfold targetEntryPath. rewrite Hm. cbn [negb]. rewrite andb_false_r.
  pose proof dir_slash_len as Hds. unfold fileNameLen in *.
  set (rest := drop (length zpath) (fileName e)).
  assert (zlen rest = zlen (fileName e) - zlen zpath) as Hrest by (unfold rest; rewrite length_drop; lia).
  assert (Forall (fun c => c <> 0) rest) as Hnr by (by apply Forall_drop).
  assert (forall r, zlen rest + 1 <= zlen r -> forall bufLen, zlen (dir_slash target ++ r) = bufLen ->
    exists h', ('(buf, dirLen) ← Done (dir_slash target ++ r, zlen (dir_slash target));
      buf ← access (buf_blit buf dirLen (drop (Z.to_nat (zipDirLen h)) (fileName e)));
      buf ← access (buf_blit buf (dirLen + zlen (drop (Z.to_nat (zipDirLen h)) (fileName e))) [0]);
      Done (Some (c_str buf), mkHelper (targetDir h) (zipDir h) (Some buf) dirLen (zipDirLen h) bufLen)) =
      Done (Some (dir_slash target ++ rest), h') /\ helper_ok target zpath h') as Hput.
  { intros r Hr bufLen HbL. rewrite done_bind, H3, Nat2Z.id. fold rest.
    destruct (put_name (dir_slash target) r rest Hr) as (r' & Hp & Hl).
    apply outcome_bind_done in Hp as (b1 & Hb1 & Hb2). rewrite Hb1, done_bind, Hb2, done_bind. eexists. split.
    - rewrite c_str_app; [done|]. apply Forall_app. split; [apply dir_slash_nul|done].
    - unfold helper_ok. cbn. rewrite H1, H2. split_and!; try done; [rewrite Hl; done|].
      exists (rest ++ 0 :: r'). by rewrite <- app_assoc. }
  destruct (h_buf h) as [buf|].
  - destruct Hb as (Hb1 & Hb2 & r & Er). change (default [] (Some buf)) with buf. rewrite Hb2 in *. subst buf.
    set (need := zlen (dir_slash target) + 1 + zlen (fileName e) - zipDirLen h + 1) in *.
    rewrite <- app_assoc. apply Hput.
    + rewrite length_app, length_replicate. rewrite length_app in *. destruct (Z.ltb_spec (h_bufLen h) need); unfold need in *; lia.
    + rewrite !length_app, length_replicate. rewrite length_app in *. destruct (Z.ltb_spec (h_bufLen h) need); unfold need in *; lia.
  - destruct Hb as [Hb1 Hb2]. change (default [] None) with (@nil Z). rewrite Hb1, Hb2, H1. cbn [app length].
    set (need := zlen target + 1 + zlen (fileName e) - zipDirLen h + 1).
    assert (0 < need) as Hneed by (unfold need; lia). rewrite (proj2 (Z.ltb_lt 0 need) Hneed), Nat.sub_0_r.
    destruct (put_dir (Z.to_nat (need * 2))) as (r & Hp & Hl); [unfold need in *; lia|]. rewrite Hp.
    rewrite length_app in Hl. rewrite H1 in Hput. apply Hput; [|rewrite length_app]; unfold need in *; lia.
Qed.
End Paths.

(** ** Which entries are extracted *)

Definition under (zpath : list Z) (e : ZipEntry) : Prop := zpath `prefix_of` fileName e.

#[export] Instance under_dec zpath e : Decision (under zpath e).
Proof. unfold under. apply _. Defined.

Lemma strncmp_prefix (p a : list Z) :
  no_nul a -> (length p <= length a)%nat -> (strncmp (length p) a p = 0 <-> p `prefix_of` a).
Proof.
  revert a. induction p as [|x p IH]; intros a Ha Hl; [cbn; split; [intros _; apply prefix_nil|done]|].
  destruct a as [|y a]; [cbn in Hl; lia|]. cbn [length strncmp]. apply Forall_cons in Ha as [Hy Ha].
  cbn [length] in Hl. destruct (Z.eqb_spec y x) as [->|Hne].
  - rewrite (proj2 (Z.eqb_neq x 0) Hy). rewrite IH by (done || lia). split; [apply prefix_cons|apply prefix_cons_inv_2].
  - split; [lia|]. intros H. apply prefix_cons_inv_1 in H. congruence.
Qed.

Lemma under_spec (zpath : list Z) (e : ZipEntry) :
  no_nul (fileName e) ->
  (fileNameLen e <? zlen zpath) || negb (strncmp (Z.to_nat (zlen zpath)) (fileName e) zpath =? 0) =
  negb (bool_decide (under zpath e)).
Proof.
  intros Hn. rewrite Nat2Z.id. unfold fileNameLen, under. destruct (Z.ltb_spec (zlen (fileName e)) (zlen zpath)); cbn [orb].
  - rewrite bool_decide_false; [done|]. intros Hp. apply prefix_length in Hp. lia.
  - f_equal. apply eq_true_iff_eq. rewrite Z.eqb_eq, bool_decide_eq_true. apply strncmp_prefix; [done|lia].
Qed.

(** Names with a prefix stand together in the order. *)
Lemma prefix_between (p : list Z) : forall a b c,
  name_le a b -> name_le b c -> p `prefix_of` a -> p `prefix_of` c -> p `prefix_of` b.
Proof.
  induction p as [|x p IH]; intros a b c Hab Hbc Ha Hc; [apply prefix_nil|].
  destruct Ha as [a' ->], Hc as [c' ->]. unfold name_le in *. destruct b as [|y b]; [done|]. cbn in Hab, Hbc.
  destruct (Z.compare_spec x y), (Z.compare_spec y x); try done; try lia. subst y.
  apply prefix_cons. apply (IH (p ++ a') b (p ++ c')); [done|done|by apply prefix_app_r..].
Qed.

(** ** Where the entries go *)

Lemma names_dir_slash (target rest : list Z) :
  names (dir_slash target ++ rest) = names target ++ names rest.
Proof.
  unfold dir_slash. case_bool_decide as E.
  - destruct target as [|x l _] using rev_ind; [done|]. rewrite last_snoc in E. injection E as ->.
    rewrite <- app_assoc. cbn [app]. rewrite names_app. f_equal. by rewrite names_app, app_nil_r.
  - rewrite <- app_assoc. cbn [app]. by rewrite names_app.
Qed.

(** A path that does not end in a slash, at its last slash. *)
Lemma split_last_slash (s : list Z) :
  SLASH ∈ s -> last s <> Some SLASH -> exists pre c, s = pre ++ SLASH :: c /\ (SLASH ∉ c) /\ c <> [].
Proof.
  induction s as [|x s IH]; [intros H; inversion H|]. intros Hin Hlast. destruct (decide (SLASH ∈ s)) as [Hs|Hs].
  - destruct IH as (pre & c & -> & Hc & Hne); [done| |].
    + destruct s; [inversion Hs|]. done.
    + by exists (x :: pre), c.
  - apply elem_of_cons in Hin as [<-|]; [|done]. exists [], s. split_and!; [done|done|]. by intros ->.
Qed.

Lemma strip_file_name_app (pre c : list Z) i :
  (SLASH ∉ c) -> (i < length pre + 1 + length c)%nat -> (length pre <= i)%nat -> pre <> [] ->
  strip_file_name i (pre ++ SLASH :: c) = Some (pre ++ [SLASH]).
Proof.
  intros Hc. induction i as [|i IH]; intros Hi Hle Hne; [destruct pre; [done|cbn in Hle; lia]|].
  cbn [strip_file_name]. case_bool_decide as E.
  - assert (S i = length pre) as Hlen.
    { destruct (decide (S i = length pre)) as [|Hn]; [done|]. exfalso. apply Hc.
      rewrite lookup_app_r in E by lia. destruct (S i - length pre)%nat as [|k] eqn:Ek; [lia|]. cbn in E.
      by eapply list_elem_of_lookup_2. }
    f_equal. replace (pre ++ SLASH :: c) with ((pre ++ [SLASH]) ++ c) by (by rewrite <- app_assoc).
    replace (S (S i)) with (length (pre ++ [SLASH])) by (rewrite length_app; cbn; lia). by rewrite take_app_length.
  - destruct (decide (S i = length pre)) as [Hl|Hn]; [|apply IH; [lia|lia|done]].
    exfalso. apply E. rewrite Hl. by apply list_lookup_middle.
Qed.

(** ** The tree after the extraction *)

Section Placed.
  (** What the entries of the archive hold, and how they are extracted. *)
  Context (content : ZipEntry -> list Z) (target zpath : list Z) (files_only : bool) (timestamp : option Z).

Definition is_dir_entry (e : ZipEntry) : bool := bool_decide (last (fileName e) = Some SLASH).

(** The name below the target directory. *)
Definition entry_rest (e : ZipEntry) : list Z := drop (length zpath) (fileName e).
Definition entry_path (e : ZipEntry) : path := names target ++ names (entry_rest e).

(** The directory that is made for an entry; none for a directory entry when only
    files are asked for. *)
Definition entry_dir (e : ZipEntry) : path :=
  if is_dir_entry e then (if files_only then [] else entry_path e)
  else take (length (entry_path e) - 1) (entry_path e).

(** The file of an entry; one that was there keeps its owner and mode. *)
Definition entry_file (fs : tree) (e : ZipEntry) : inode :=
  match fs !! entry_path e with
  | Some i => mkInode (KFile (content e)) (i_mode i) (i_uid i) (i_gid i) timestamp
  | None => mkInode (KFile (content e)) UNZIP_FILEMODE 0 0 timestamp
  end.

Definition makes_file (q : path) (e : ZipEntry) : bool := negb (is_dir_entry e) && bool_decide (entry_path e = q).

(** What is at [q] once the entries [done] are extracted. *)
Definition placed (fs : tree) (done : list ZipEntry) (q : path) : option inode :=
  match List.find (makes_file q) done with
  | Some e => Some (entry_file fs e)
  | None =>
      match fs !! q with
      | Some i => Some i
      | None =>
          if existsb (fun e => bool_decide (q `prefix_of` entry_dir e)) done
          then Some (new_dir UNZIP_DIRMODE timestamp) else None
      end
  end.

(** Room for an entry: directories and plain names only. *)
Record entry_fits (fs : tree) (e : ZipEntry) : Prop := {
  ef_under : under zpath e;
  ef_nul : no_nul (fileName e);
  ef_good : Forall good (names (entry_rest e));
  ef_len : zlen (dir_slash target) + zlen (entry_rest e) + 1 < PATH_MAX;
  ef_way : open_way fs [] (entry_dir e);
  ef_name : fileName e <> [];
  ef_file : is_dir_entry e = false ->
    (forall i, fs !! entry_path e = Some i -> exists d, i_kind i = KFile d) /\
    (files_only = true \/ mzIsZipEntrySymlink e = false)
}.

(** No entry stands where another one needs a directory or a file. *)
Definition no_clash (es : list ZipEntry) : Prop :=
  forall i j e f, es !! i = Some e -> es !! j = Some f -> i <> j -> is_dir_entry e = false ->
    ~ entry_path e `prefix_of` entry_path f.

Lemma entry_dir_prefix e : entry_dir e `prefix_of` entry_path e.
Proof.
  unfold entry_dir. destruct (is_dir_entry e); [destruct files_only; [apply prefix_nil|done]|].
  eexists. symmetry. apply take_drop.
Qed.

Lemma entry_path_not_dir e : is_dir_entry e = false -> entry_path e <> [] -> ~ entry_path e `prefix_of` entry_dir e.
Proof.
  intros Hf Hne Hp. unfold entry_dir in Hp. rewrite Hf in Hp. apply prefix_length in Hp. rewrite length_take in Hp.
  destruct (entry_path e); [done|]. cbn [length] in Hp. lia.
Qed.

(** The part of [done] that concerns the place of a later entry. *)
Lemma placed_clear (fs : tree) (done rest : list ZipEntry) (e : ZipEntry) (q : path) :
  no_clash (done ++ e :: rest) -> q `prefix_of` entry_path e -> List.find (makes_file q) done = None.
Proof.
  intros Hc Hp. destruct (List.find (makes_file q) done) as [f|] eqn:E; [|done]. exfalso.
  apply List.find_some in E as [Hin Hm]. apply andb_true_iff in Hm as [Hf Hq]. apply negb_true_iff in Hf.
  apply bool_decide_eq_true in Hq. subst q. apply list_elem_of_In, list_elem_of_lookup in Hin as [i Hi].
  apply (Hc i (length done) f e); [by apply lookup_app_l_Some|by apply list_lookup_middle| |done|done].
  apply lookup_lt_Some in Hi. lia.
Qed.

Lemma placed_file (fs : tree) (done rest : list ZipEntry) (e : ZipEntry) :
  no_clash (done ++ e :: rest) -> is_dir_entry e = false -> placed fs done (entry_path e) = fs !! entry_path e.
Proof.
  intros Hc Hf. unfold placed. rewrite (placed_clear fs done rest e) by done.
  destruct (fs !! entry_path e); [done|]. destruct (existsb _ done) eqn:E; [|done]. exfalso.
  apply existsb_exists in E as (f & Hin & Hp). apply bool_decide_eq_true in Hp.
  apply list_elem_of_In, list_elem_of_lookup in Hin as [i Hi].
  apply (Hc (length done) i e f); [by apply list_lookup_middle|by apply lookup_app_l_Some| |done|].
  - apply lookup_lt_Some in Hi. lia.
  - etrans; [exact Hp|apply entry_dir_prefix].
Qed.

(** The way of a later entry stays open. *)
Lemma placed_way (fs fs1 : tree) (done rest : list ZipEntry) (e : ZipEntry) :
  (forall q, fs1 !! q = placed fs done q) -> no_clash (done ++ e :: rest) -> open_way fs [] (entry_dir e) ->
  open_way fs1 [] (entry_dir e).
Proof.
  intros H1 Hc Hw k Hk. unfold isdir. rewrite !H1. cbn [app]. unfold placed.
  rewrite (placed_clear fs done rest e); [|done|].
  - destruct (Hw k Hk) as [Hn|(i & Hi & Di)]; cbn [app] in *.
    + rewrite Hn. destruct (existsb _ done); [right; by eexists|by left].
    + rewrite Hi. right. by exists i.
  - etrans; [|apply entry_dir_prefix]. exists (drop k (entry_dir e)). by rewrite take_drop.
Qed.

Lemma find_snoc (f : ZipEntry -> bool) (l : list ZipEntry) (e : ZipEntry) :
  List.find f (l ++ [e]) = match List.find f l with Some x => Some x | None => if f e then Some e else None end.
Proof. induction l as [|x l IH]; [done|]. cbn. by destruct (f x). Qed.

(** One entry more. *)
Lemma placed_snoc (fs fs1 : tree) (done rest : list ZipEntry) (e : ZipEntry) (q : path) :
  isdir fs [] -> (forall q, fs1 !! q = placed fs done q) -> no_clash (done ++ e :: rest) ->
  (is_dir_entry e = false -> entry_path e <> []) ->
  placed fs (done ++ [e]) q =
  (if is_dir_entry e then with_dirs UNZIP_DIRMODE timestamp fs1 [] (entry_dir e)
   else <[entry_path e := entry_file fs e]> (with_dirs UNZIP_DIRMODE timestamp fs1 [] (entry_dir e))) !! q.
Proof.
  intros Hroot H1 Hc Hne.
  assert (isdir fs1 []) as Hroot1.
  { destruct Hroot as (i & Hi & Di). exists i. split; [|done]. rewrite H1. unfold placed.
    rewrite (placed_clear fs done rest e); [by rewrite Hi|done|apply prefix_nil]. }
  assert (with_dirs UNZIP_DIRMODE timestamp fs1 [] (entry_dir e) !! q =
    match placed fs done q with Some i => Some i
    | None => if decide (q `prefix_of` entry_dir e) then Some (new_dir UNZIP_DIRMODE timestamp) else None end) as Hwd.
  { rewrite lookup_with_dirs_root by done. by rewrite H1. }
  unfold placed at 1. rewrite find_snoc. destruct (is_dir_entry e) eqn:Ed.
  - rewrite Hwd. unfold placed. destruct (List.find (makes_file q) done); [done|].
    unfold makes_file at 1. rewrite Ed. cbn [negb andb].
    destruct (fs !! q); [done|]. rewrite existsb_app. cbn [existsb]. rewrite orb_false_r.
    destruct (existsb _ done); [done|]. cbn [orb].
    case_bool_decide; [by rewrite decide_True|by rewrite decide_False].
  - destruct (decide (q = entry_path e)) as [->|Hq].
    + rewrite lookup_insert_eq, (placed_clear fs done rest e) by done. unfold makes_file at 1.
      rewrite Ed, bool_decide_true by done. done.
    + rewrite lookup_insert_ne, Hwd by done. unfold placed. destruct (List.find (makes_file q) done); [done|].
      unfold makes_file at 1. rewrite Ed, bool_decide_false by done. cbn [negb andb].
      destruct (fs !! q); [done|]. rewrite existsb_app. cbn [existsb]. rewrite orb_false_r.
      destruct (existsb _ done); [done|]. cbn [orb].
    case_bool_decide; [by rewrite decide_True|by rewrite decide_False].
Qed.


(** Every file entry is at its place. *)
Lemma placed_has (fs : tree) (es : list ZipEntry) (e : ZipEntry) :
  no_clash es -> e ∈ es -> is_dir_entry e = false -> placed fs es (entry_path e) = Some (entry_file fs e).
Proof.
  intros Hc Hin Hf. unfold placed.
  destruct (List.find (makes_file (entry_path e)) es) as [f|] eqn:E.
  - apply List.find_some in E as [Hin' Hm]. apply andb_true_iff in Hm as [Hff Hq]. apply bool_decide_eq_true in Hq.
    apply negb_true_iff in Hff. apply list_elem_of_In in Hin'.
    apply list_elem_of_lookup in Hin as [i Hi], Hin' as [j Hj]. destruct (decide (i = j)) as [<-|Hij]; [congruence|].
    exfalso. apply (Hc i j e f); [done|done|done|done|]. by rewrite Hq.
  - apply list_elem_of_In in Hin. pose proof (List.find_none _ _ E e Hin) as Hn. unfold makes_file in Hn.
    by rewrite Hf, bool_decide_true in Hn.
Qed.

(** Nothing changes but what is below the target, and the way to it. *)
Lemma placed_outside (fs : tree) (es : list ZipEntry) (q : path) :
  (~ names target `prefix_of` q) -> (~ q `prefix_of` names target) -> placed fs es q = fs !! q.
Proof.
  intros H1 H2. unfold placed. destruct (List.find (makes_file q) es) as [f|] eqn:E.
  { exfalso. apply List.find_some in E as [_ Hm]. apply andb_true_iff in Hm as [_ Hq]. apply bool_decide_eq_true in Hq.
    apply H1. rewrite <- Hq. by apply prefix_app_r. }
  destruct (fs !! q); [done|]. destruct (existsb _ es) eqn:Ex; [|done]. exfalso.
  apply existsb_exists in Ex as (f & _ & Hp). apply bool_decide_eq_true in Hp.
  assert (q `prefix_of` entry_path f) as Hq by (etrans; [exact Hp|apply entry_dir_prefix]).
  destruct (prefix_weak_total q (names target) (entry_path f)) as [|]; try done. by apply prefix_app_r.
Qed.

End Placed.

(** ** Running the extraction *)

Section Running.
  Context {I : Inflater} {IS : InflaterSpec I} {Dev : Type}.
  Abbreviation world := (world tree Dev).
  Context (file : list Z) (fd_read : Z -> Z -> Z * list Z) (fuel : nat) (malloc_ok : Z -> bool).
  Context (Hread : forall p n b, buf_slice file p n = Some b -> fd_read p n = (n, b)).
  Context (Hmalloc : forall n, malloc_ok n = true).

(** The data of an entry in the archive file. *)
Definition readable (e : ZipEntry) (content : list Z) : Prop :=
  exists comp, holds file e comp content /\ compLen e < 2 ^ 31 /\ zlen content < 2 ^ 31 /\
    (length comp + length content < fuel)%nat.

(** The file being written, in the world it is written in. *)
Definition writing (base : tree) (w0 : world) (p : path) (mode uid gid : Z) (w : world) : Prop :=
  w_answers w = w_answers w0 /\ (exists l, w_log w = w_log w0 ++ l) /\
  exists d, w_fs w = <[p := mkInode (KFile d) mode uid gid None]> base.

Definition written (p : path) (w : world) : list Z :=
  match w_fs w !! p with Some (mkInode (KFile d) _ _ _ _) => d | _ => [] end.

Lemma file_write_gets (base : tree) (w0 : world) (p : path) (mode uid gid : Z) (data : list Z) (w : world) :
  eager w0 -> data <> [] -> writing base w0 p mode uid gid w ->
  exists n w', file_write p data w = (n, w') /\ 0 < n <= zlen data /\
    written p w' = written p w ++ take (Z.to_nat n) data /\ writing base w0 p mode uid gid w'.
Proof.
  intros He Hd (Ha & (l & Hl) & d & Hf). assert (0 < w_answers w (w_asked w)) as Hpos by (rewrite Ha; apply He).
  assert (0 < zlen data) as Hz by (destruct data; [done|cbn [length]; lia]).
  unfold file_write, sys_write, wbind, ask, get_fs, set_fs, wret. cbn [w_fs w_answers w_asked w_log w_dev].
  rewrite (proj2 (Z.leb_gt _ _) Hpos). cbn [w_fs]. rewrite Hf, lookup_insert_eq. cbn [w_fs w_answers w_asked w_log w_dev].
  eexists _, _. split; [reflexivity|]. unfold written. rewrite Hf. cbn [w_fs]. rewrite !lookup_insert_eq.
  split_and!; [lia|lia|done|]. split_and!; [exact Ha| |]; cbn [w_log w_fs].
  - rewrite Hl. eexists. by rewrite <- app_assoc.
  - eexists. by rewrite insert_insert_eq.
Qed.

Lemma wp_extract_to_file (base : tree) (e : ZipEntry) (content : list Z) (p : path) (mode uid gid : Z) (w : world) :
  eager w -> readable e content -> w_fs w = <[p := mkInode (KFile []) mode uid gid None]> base ->
  wp (fun _ => True) (extract_to_file fd_read fuel e p) w (fun ok w' =>
    ok = true /\ w_answers w' = w_answers w /\ w_fs w' = <[p := mkInode (KFile content) mode uid gid None]> base).
Proof using Hread IS.
  intros He (comp & Hh & Hcl & Hsz & Hf) Hw. unfold wp, extract_to_file, mzExtractZipEntryToFile.
  destruct (process_holds file fd_read Hread (writeProcessFunction fuel (@file_write Dev p)) e comp content fuel Hh Hcl Hsz Hf)
    as (chunks & Hj & Hne & Hrun).
  destruct (feed_write (@file_write Dev p) (written p) (writing base w p mode uid gid)) with (fuel := fuel) (chunks := chunks)
    (st := w) (errno := 0) as (w' & E & Hc & Ha & (l & Hl) & d & Hd).
  - intros data st Hdata Hst. by apply file_write_gets.
  - done.
  - split_and!; [done|exists []; by rewrite app_nil_r|by exists []].
  - rewrite Hj. lia.
  - rewrite Hrun, E. exists true, w', l. split_and!; try done; [by apply Forall_true|].
    rewrite Hd. do 3 f_equal. unfold written in Hc. rewrite Hd, Hw, !lookup_insert_eq in Hc. rewrite Hc. cbn. done.
Qed.

(** The file of an entry over what was at its place. *)
Definition file_over (o : option inode) (content : list Z) (timestamp : option Z) : inode :=
  match o with
  | Some i => mkInode (KFile content) (i_mode i) (i_uid i) (i_gid i) timestamp
  | None => mkInode (KFile content) UNZIP_FILEMODE 0 0 timestamp
  end.

Lemma dirs_to_insert (fs : tree) (p : path) (c : name) (i : inode) : dirs_to fs p -> dirs_to (<[p ++ [c] := i]> fs) p.
Proof.
  intros Hd k Hk. destruct (Hd k Hk) as (j & Hj & Dj). exists j. split; [|done]. rewrite lookup_insert_ne; [done|].
  intros E. apply (f_equal length) in E. rewrite length_app, length_take in E. cbn in E. lia.
Qed.

(** [creat] on a plain path to a file or to nothing. *)
Lemma wp_creat (s : list Z) (p : path) (c : name) (w : world) :
  calm w -> zlen s < PATH_MAX -> components s = p ++ [c] -> Forall good (p ++ [c]) -> dirs_to (w_fs w) p ->
  (forall i, w_fs w !! (p ++ [c]) = Some i -> exists d, i_kind i = KFile d) ->
  wp (fun _ => True) (sys_creat s UNZIP_FILEMODE) w (fun fd w' =>
    fd = inl (p ++ [c]) /\ w_answers w' = w_answers w /\
    w_fs w' = <[p ++ [c] := file_over (w_fs w !! (p ++ [c])) [] None]> (w_fs w)).
Proof.
  intros Hc Hlen Hs Hg Hd Hfile. apply wp_syscall; [done|].
  pose proof (resolve_plain true _ _ _ _ Hlen Hs Hg Hd) as E. unfold file_over.
  destruct (w_fs w !! (p ++ [c])) as [i|] eqn:Ei.
  - destruct (Hfile i eq_refl) as [d Hk]. unfold is_link in E. rewrite Hk in E. cbn [andb] in E.
    rewrite E, Ei, Hk. apply wp_bind, wp_set_fs; [done|]. by apply wp_ret.
  - rewrite E. apply wp_bind, wp_set_fs; [done|]. by apply wp_ret.
Qed.

(** [utime] on a plain path to a file. *)
Lemma wp_touch (s : list Z) (p : path) (c : name) (i : inode) (timestamp : option Z) (w : world) :
  calm w -> zlen s < PATH_MAX -> components s = p ++ [c] -> Forall good (p ++ [c]) -> dirs_to (w_fs w) p ->
  w_fs w !! (p ++ [c]) = Some i -> is_link i = false -> i_time i = None ->
  wp (fun _ => True) (touch s timestamp) w (fun ok w' =>
    ok = true /\ w_answers w' = w_answers w /\
    w_fs w' = <[p ++ [c] := mkInode (i_kind i) (i_mode i) (i_uid i) (i_gid i) timestamp]> (w_fs w)).
Proof.
  intros Hc Hlen Hs Hg Hd Hi Hln Ht. pose proof (resolve_plain true _ _ _ _ Hlen Hs Hg Hd) as E.
  rewrite Hi, Hln in E. cbn [andb] in E. destruct timestamp as [t|]; cbn [touch].
  - apply wp_bind, wp_syscall; [done|]. rewrite E, Hi. apply wp_bind, wp_set_fs; [done|]. apply wp_ret, wp_ret. done.
  - apply wp_ret. split_and!; [done|done|]. rewrite insert_id; [done|]. rewrite Hi. destruct i; cbn in *. by rewrite Ht.
Qed.

Lemma wp_extract_regular (e : ZipEntry) (content s : list Z) (p : path) (c : name) (timestamp : option Z) (w : world) :
  eager w -> readable e content -> zlen s < PATH_MAX -> components s = p ++ [c] -> Forall good (p ++ [c]) ->
  dirs_to (w_fs w) p -> (forall i, w_fs w !! (p ++ [c]) = Some i -> exists d, i_kind i = KFile d) ->
  wp (fun _ => True) (extract_regular fd_read fuel e s timestamp) w (fun r w' =>
    r = None /\ w_answers w' = w_answers w /\
    w_fs w' = <[p ++ [c] := file_over (w_fs w !! (p ++ [c])) content timestamp]> (w_fs w)).
Proof using Hread IS.
  intros He Hr Hlen Hs Hg Hd Hfile. unfold extract_regular. apply wp_bind.
  eapply wp_mono; [by apply (wp_creat s p c w); [apply eager_calm|..]|done|]. intros fd w1 (-> & Ha1 & Hf1).
  apply wp_bind.
  assert (exists m u g, forall d t, file_over (w_fs w !! (p ++ [c])) d t = mkInode (KFile d) m u g t) as (m & u & g & Hover).
  { destruct (w_fs w !! (p ++ [c])); by eexists _, _, _. }
  rewrite Hover in Hf1. eapply wp_mono; [by apply (wp_extract_to_file (w_fs w) e content (p ++ [c]) m u g w1); [eapply eager_same|..]|done|].
  intros ok w2 (-> & Ha2 & Hf2). cbn [negb]. apply wp_bind.
  eapply wp_mono; [apply (wp_touch s p c (mkInode (KFile content) m u g None))|done|]; try done.
  - apply eager_calm. eapply eager_same; [|exact He]. by rewrite Ha2.
  - rewrite Hf2. by apply dirs_to_insert.
  - rewrite Hf2. by rewrite lookup_insert_eq.
  - intros ok w3 (-> & Ha3 & Hf3). apply wp_ret. split_and!; [done|by rewrite Ha3, Ha2, Ha1|].
    rewrite Hf3, Hf2, insert_insert_eq, Hover. done.
Qed.

(** *** One entry *)

Context (content : ZipEntry -> list Z) (target zpath : list Z) (flags : Z) (timestamp : option Z).
Context (HT : names target <> []) (HTg : Forall good (names target)).
Context (Hz : zpath = [] \/ last zpath = Some SLASH).
Abbreviation only := (negb (flags .& MZ_EXTRACT_FILES_ONLY =? 0)).

Lemma last_rest (e : ZipEntry) :
  under zpath e -> fileName e <> [] -> is_dir_entry e = false ->
  entry_rest zpath e <> [] /\ last (entry_rest zpath e) <> Some SLASH.
Proof using Hz.
  intros [k Hk] Hne Hf. unfold is_dir_entry in Hf. apply bool_decide_eq_false in Hf. unfold entry_rest.
  rewrite Hk in *. rewrite drop_app_length. destruct k as [|x k].
  - rewrite app_nil_r in *. exfalso. destruct Hz as [->|Hl]; done.
  - split; [done|]. rewrite last_app_cons in Hf. done.
Qed.

Lemma names_ne (s : list Z) : s <> [] -> last s <> Some SLASH -> names s <> [].
Proof.
  intros Hne Hl. destruct (decide (SLASH ∈ s)) as [Hin|Hin].
  - destruct (split_last_slash s Hin Hl) as (pre & c & -> & Hc & Hcn). rewrite names_app, (names_name c) by done.
    by destruct (names pre).
  - by rewrite names_name.
Qed.

(** The path of a file entry at its last slash. *)
Lemma file_path (e : ZipEntry) :
  under zpath e -> fileName e <> [] -> is_dir_entry e = false ->
  exists pre c, dir_slash target ++ entry_rest zpath e = pre ++ SLASH :: c /\ (SLASH ∉ c) /\ c <> [] /\ pre <> [] /\
    entry_path target zpath e = names pre ++ [c] /\ entry_dir target zpath only e = names pre.
Proof using HT HTg Hz.
  intros Hu Hne Hf. destruct (last_rest e Hu Hne Hf) as [Hr Hl].
  assert (last (dir_slash target ++ entry_rest zpath e) <> Some SLASH) as Hlast.
  { destruct (entry_rest zpath e); [done|]. by rewrite last_app_cons. }
  assert (SLASH ∈ dir_slash target ++ entry_rest zpath e) as Hin.
  { apply elem_of_app. left. unfold dir_slash. case_bool_decide as E; [|apply elem_of_app; right; left].
    apply last_Some in E as [l ->]. apply elem_of_app. right. left. }
  destruct (split_last_slash _ Hin Hlast) as (pre & c & E & Hc & Hcn). exists pre, c.
  pose proof (names_dir_slash target (entry_rest zpath e)) as Hnames. rewrite E, names_app, (names_name c) in Hnames by done.
  assert (entry_path target zpath e = names pre ++ [c]) as Hp by (unfold entry_path; done).
  split_and!; try done.
  - intros ->. change (names []) with (@nil name) in Hnames. apply (f_equal length) in Hnames.
    rewrite length_app in Hnames. cbn [length app] in Hnames.
    pose proof (names_ne _ Hr Hl). destruct (names target), (names (entry_rest zpath e)); try done.
    rewrite length_app in Hnames. cbn [length] in Hnames. lia.
  - unfold entry_dir. rewrite Hf, Hp, length_app. cbn [length].
    replace (length (names pre) + 1 - 1)%nat with (length (names pre)) by lia. by rewrite take_app_length.
Qed.

(** A file entry: its directory is made, then the file is written. *)
Lemma extract_entry_file (e : ZipEntry) (w : world) (Q : option bool -> world -> Prop) :
  entry_fits target zpath only (w_fs w) e -> is_dir_entry e = false -> isdir (w_fs w) [] -> eager w ->
  (forall pre c w1, w_answers w1 = w_answers w ->
     w_fs w1 = with_dirs UNZIP_DIRMODE timestamp (w_fs w) [] (names pre) ->
     entry_path target zpath e = names pre ++ [c] -> entry_dir target zpath only e = names pre ->
     components (dir_slash target ++ entry_rest zpath e) = names pre ++ [c] -> Forall good (names pre ++ [c]) ->
     dirs_to (w_fs w1) (names pre) -> zlen (dir_slash target ++ entry_rest zpath e) < PATH_MAX ->
     wp (fun _ => True) (extract_regular fd_read fuel e (dir_slash target ++ entry_rest zpath e) timestamp) w1 Q) ->
  wp (fun _ => True) (extract_entry fd_read fuel malloc_ok e (dir_slash target ++ entry_rest zpath e) flags timestamp) w Q.
Proof using Hmalloc HT HTg Hz.
  intros Hfits Hdf Hroot He HQ. unfold extract_entry. set (s := dir_slash target ++ entry_rest zpath e) in *.
  destruct (last (fileName e)) as [c0|] eqn:El; [|by apply last_None in El; destruct (ef_name _ _ _ _ _ Hfits)].
  apply wp_bind, (wp_lift _ _ c0); [done|].
  assert (c0 <> SLASH) as Hc0 by (unfold is_dir_entry in Hdf; rewrite El in Hdf; apply bool_decide_eq_false in Hdf; congruence).
  rewrite (proj2 (Z.eqb_neq c0 SLASH) Hc0).
  assert (Forall good (entry_path target zpath e)) as Hgood by (apply Forall_app; split; [done|apply Hfits]).
  assert (zlen s + 1 < PATH_MAX) as Hlen.
  { pose proof (ef_len _ _ _ _ _ Hfits). unfold s. rewrite length_app. lia. }
  destruct (file_path e (ef_under _ _ _ _ _ Hfits) (ef_name _ _ _ _ _ Hfits) Hdf) as (pre & c & Es & Hc & Hcn & Hpre & Hep & Hed).
  fold s in Es. pose proof (proj2 (ef_file _ _ _ _ _ Hfits Hdf)) as Hlink. rewrite Hep in Hgood.
  assert (good c) as Hgc by (pose proof Hgood as Hg; apply Forall_app in Hg as [_ Hg]; by apply Forall_inv in Hg).
  assert (names (pre ++ [SLASH]) = names pre) as Hn by (apply names_slashes; by apply Forall_singleton).
  pose proof (ef_way _ _ _ _ _ Hfits) as Hway. rewrite Hed in Hway.
  apply wp_bind. eapply wp_mono;
    [apply (dirCreateHierarchy_exact malloc_ok UNZIP_DIRMODE timestamp s (pre ++ [SLASH]) true)|done|]; try done.
  - by apply eager_calm.
  - rewrite Es. by destruct pre.
  - rewrite Es. unfold dir_part. apply strip_file_name_app; [done| | |done]; rewrite length_app; cbn [length]; lia.
  - rewrite Es, length_app in Hlen. cbn [length] in Hlen. rewrite length_app. cbn [length]. lia.
  - rewrite Hn. by apply Forall_app in Hgood as [].
  - by rewrite Hn.
  - intros r w1 (-> & Ha1 & Hf1). cbn [Z.eqb negb]. rewrite Hn in Hf1.
    replace ((flags .& MZ_EXTRACT_FILES_ONLY =? 0) && mzIsZipEntrySymlink e) with false
      by (destruct Hlink as [Hl|Hl]; [apply negb_true_iff in Hl; by rewrite Hl|by rewrite Hl, andb_false_r]).
    apply (HQ pre c); try done; [rewrite Es; by apply components_snoc|rewrite Hf1; by apply dirs_to_with_dirs|lia].
Qed.

(** What a step keeps of the room of an entry. *)
Lemma entry_fits_step (fs fs1 : tree) (done rest : list ZipEntry) (e : ZipEntry) :
  (forall q, fs1 !! q = placed content target zpath only timestamp fs done q) ->
  no_clash target zpath (done ++ e :: rest) -> entry_fits target zpath only fs e -> entry_fits target zpath only fs1 e.
Proof.
  intros Hst Hclash []. constructor; try done.
  - by apply (placed_way content target zpath only timestamp fs fs1 done rest).
  - intros Hf. destruct (ef_file0 Hf) as [H1 H2]. split; [|done]. by rewrite Hst, (placed_file _ _ _ _ _ fs done rest e).
Qed.

Lemma extract_entry_spec (fs : tree) (done rest : list ZipEntry) (e : ZipEntry) (w : world) :
  isdir fs [] -> (forall q, w_fs w !! q = placed content target zpath only timestamp fs done q) ->
  no_clash target zpath (done ++ e :: rest) -> entry_fits target zpath only fs e ->
  (is_dir_entry e = false -> readable e (content e)) -> eager w ->
  wp (fun _ => True) (extract_entry fd_read fuel malloc_ok e (dir_slash target ++ entry_rest zpath e) flags timestamp) w
    (fun r w' => r = None /\ w_answers w' = w_answers w /\
       forall q, w_fs w' !! q = placed content target zpath only timestamp fs (done ++ [e]) q).
Proof using Hread IS Hmalloc HT HTg Hz.
  intros Hroot Hst Hclash Hfits0 Hread' He.
  pose proof (entry_fits_step fs (w_fs w) done rest e Hst Hclash Hfits0) as Hfits.
  assert (isdir (w_fs w) []) as Hroot1.
  { destruct Hroot as (i & Hi & Di). exists i. split; [|done]. rewrite Hst. unfold placed.
    rewrite (placed_clear target zpath fs done rest e); [by rewrite Hi|done|apply prefix_nil]. }
  pose proof (fun q H => placed_snoc content target zpath only timestamp fs (w_fs w) done rest e q Hroot Hst Hclash H) as Hsnoc.
  destruct (is_dir_entry e) eqn:Ed.
  - unfold extract_entry. set (s := dir_slash target ++ entry_rest zpath e).
    pose proof Ed as El. unfold is_dir_entry in El. apply bool_decide_eq_true in El.
    apply wp_bind, (wp_lift _ _ SLASH); [by rewrite El|]. rewrite Z.eqb_refl.
    destruct (flags .& MZ_EXTRACT_FILES_ONLY =? 0) eqn:Efl.
    + assert (names (s ++ [SLASH]) = entry_dir target zpath (negb true) e) as Hn.
      { rewrite names_slashes by (by apply Forall_singleton). unfold s. rewrite names_dir_slash. unfold entry_dir.
        by rewrite Ed. }
      pose proof (ef_len _ _ _ _ _ Hfits) as Hlen.
      apply wp_bind. eapply wp_mono;
        [apply (dirCreateHierarchy_exact malloc_ok UNZIP_DIRMODE timestamp s (s ++ [SLASH]) false)|done|]; try done.
      * by apply eager_calm.
      * unfold s, dir_slash. case_bool_decide; by destruct target.
      * unfold s. rewrite !length_app. cbn [length]. lia.
      * rewrite Hn. unfold entry_dir. rewrite Ed. apply Forall_app. split; [done|apply Hfits].
      * rewrite Hn. apply Hfits.
      * intros r w' (-> & Ha & Hf). apply wp_ret. split_and!; [done|done|]. intros q. rewrite Hf, Hn. symmetry. by apply Hsnoc.
    + apply wp_ret. split_and!; [done|done|]. intros q. rewrite Hsnoc by done. unfold entry_dir. by rewrite Ed.
  - apply extract_entry_file; try done. intros pre c w1 Ha1 Hf1 Hep Hed Hcomp Hg Hd Hlen.
    assert (w_fs w1 !! (names pre ++ [c]) = fs !! entry_path target zpath e) as Hat.
    { rewrite <- Hep, Hf1, lookup_with_dirs_root, Hst, (placed_file _ _ _ _ _ fs done rest e) by done.
      destruct (fs !! entry_path target zpath e); [done|]. rewrite decide_False; [done|]. rewrite <- Hed.
      apply entry_path_not_dir; [done|]. rewrite Hep. by destruct (names pre). }
    eapply wp_mono; [apply (wp_extract_regular e (content e) _ (names pre) c timestamp w1)|done|]; try done.
    + by eapply eager_same.
    + by apply Hread'.
    + rewrite Hat. apply (ef_file _ _ _ _ _ Hfits0 Ed).
    + intros r w2 (-> & Ha2 & Hf2). split_and!; [done|by rewrite Ha2|]. intros q. rewrite Hf2, Hat, Hf1, <- Hep, <- Hed.
      rewrite Hsnoc; [done|]. intros _. rewrite Hep. by destruct (names pre).
Qed.

(** A file entry whose data cannot be extracted leaves the loop with [ok] true. *)
Lemma extract_entry_fails (e : ZipEntry) (w : world) :
  entry_fits target zpath only (w_fs w) e -> is_dir_entry e = false -> isdir (w_fs w) [] -> eager w ->
  compression e <> STORED -> compression e <> DEFLATED ->
  wp (fun _ => True) (extract_entry fd_read fuel malloc_ok e (dir_slash target ++ entry_rest zpath e) flags timestamp) w
    (fun r w' => r = Some true /\ exists i, w_fs w' !! entry_path target zpath e = Some i /\ i_kind i = KFile []).
Proof using Hmalloc HT HTg Hz.
  intros Hfits Hdf Hroot He H1 H2. apply extract_entry_file; try done.
  intros pre c w1 Ha1 Hf1 Hep Hed Hcomp Hg Hd Hlen. unfold extract_regular. apply wp_bind.
  eapply wp_mono; [apply (wp_creat _ (names pre) c w1)|done|]; try done.
  - eapply calm_same; [exact Ha1|by apply eager_calm].
  - rewrite <- Hep, Hf1, lookup_with_dirs_root by done. intros i Hi.
    destruct (w_fs w !! entry_path target zpath e) as [j|] eqn:E.
    + injection Hi as <-. by apply (proj1 (ef_file _ _ _ _ _ Hfits Hdf)).
    + rewrite decide_False in Hi; [done|]. rewrite <- Hed. apply entry_path_not_dir; [done|]. rewrite Hep. by destruct (names pre).
  - intros fd w2 (-> & Ha2 & Hf2). apply wp_bind.
    assert (extract_to_file fd_read fuel e (names pre ++ [c]) w2 = (Done false, w2)) as Hx.
    { unfold extract_to_file, mzExtractZipEntryToFile, mzProcessZipEntryContents.
      by rewrite (proj2 (Z.eqb_neq _ _) H1), (proj2 (Z.eqb_neq _ _) H2). }
    exists false, w2, []. rewrite app_nil_r. split_and!; [done|done|constructor|]. cbn [negb]. apply wp_ret. split; [done|].
    rewrite Hep, Hf2. eexists. rewrite lookup_insert_eq. split; [done|]. by destruct (w_fs w1 !! _).
Qed.

(** *** All entries *)

Lemma sorted_tail (e : ZipEntry) (es : list ZipEntry) :
  sorted_names (e :: es) -> sorted_names es /\ Forall (fun b => name_le (fileName e) (fileName b)) es.
Proof.
  intros H. split.
  - intros i j a b Hij Ha Hb. apply (H (S i) (S j)); [lia|done|done].
  - apply Forall_forall. intros b Hb. apply list_elem_of_lookup in Hb as [i Hi]. apply (H 0%nat (S i)); [lia|done|done].
Qed.

(** After the last match no other one comes. *)
Lemma no_more_matches (a e : ZipEntry) (es : list ZipEntry) :
  under zpath a -> Forall (fun b => name_le (fileName a) (fileName b)) (e :: es) -> sorted_names (e :: es) ->
  ~ under zpath e -> filter (under zpath) (e :: es) = [].
Proof.
  intros Ha Hle Hs He. apply sorted_tail in Hs as [_ Hs]. apply Forall_cons in Hle as [Hae _].
  rewrite filter_cons_False by done.
  induction Hs as [|f l Hef _ IH]; [done|]. rewrite filter_cons_False; [done|].
  intros Hf. apply He. by eapply prefix_between.
Qed.

Lemma extract_loop_spec (fs : tree) (Hroot : isdir fs []) (Hnul : Forall (fun c => c <> 0) target)
    (Hdry : flags .& MZ_EXTRACT_DRY_RUN = 0) es : forall done helper seen called (w : world),
  helper_ok target zpath helper ->
  (forall q, w_fs w !! q = placed content target zpath only timestamp fs done q) ->
  no_clash target zpath (done ++ filter (under zpath) es) ->
  Forall (fun e => no_nul (fileName e) /\
    (under zpath e -> entry_fits target zpath only fs e /\ (is_dir_entry e = false -> readable e (content e)))) es ->
  sorted_names es ->
  (seen = true -> exists a, under zpath a /\ Forall (fun b => name_le (fileName a) (fileName b)) es) -> eager w ->
  wp (fun _ => True) (extract_loop fd_read fuel malloc_ok helper flags timestamp seen called es) w (fun r w' =>
    r.1 = true /\ r.2 = called ++ map (fun e => dir_slash target ++ entry_rest zpath e) (filter (under zpath) es) /\
    forall q, w_fs w' !! q = placed content target zpath only timestamp fs (done ++ filter (under zpath) es) q).
Proof using Hread IS Hmalloc HT HTg Hz.
  induction es as [|e es IH]; intros done helper seen called w Hh Hst Hcl Hes Hs Hseen He; cbn [extract_loop].
  { apply wp_ret. cbn [fst snd map filter list_filter]. rewrite !app_nil_r. by split_and!. }
  pose proof Hh as (_ & Hh2 & Hh3 & _). rewrite Hh2, Hh3. apply Forall_cons in Hes as [[Hn Hfit] Hes].
  rewrite under_spec by done. destruct (sorted_tail _ _ Hs) as [Hs' Hle]. case_bool_decide as Hu; cbn [negb].
  - rewrite filter_cons_True in * by done. destruct (Hfit Hu) as [Hef Hrd].
    assert (target <> []) as Hne by (by intros ->).
    destruct (targetEntryPath_correct malloc_ok target zpath Hne Hnul helper e) as (h' & Eh & Hh'); try done.
    { unfold fileNameLen. apply prefix_length in Hu. lia. }
    apply wp_bind. eapply wp_lift; [exact Eh|]. rewrite Hdry. cbn [Z.eqb negb]. fold (entry_rest zpath e).
    apply wp_bind. eapply wp_mono; [by apply (extract_entry_spec fs done (filter (under zpath) es) e w)|done|].
    intros r w1 (-> & Ha1 & Hst1). eapply wp_mono; [apply (IH (done ++ [e]) h' true)|done|]; try done.
    + by rewrite <- app_assoc.
    + intros _. by exists e.
    + by eapply eager_same.
    + intros r w2 (H1 & H2 & H3). split_and!; [done| |].
      * rewrite H2. cbn [map]. by rewrite <- app_assoc.
      * intros q. rewrite H3, <- app_assoc. done.
  - destruct seen.
    + destruct (Hseen eq_refl) as (a & Hau & Hal). rewrite (no_more_matches a) in * by done.
      apply wp_ret. cbn [fst snd map]. rewrite !app_nil_r in *. by split_and!.
    + rewrite filter_cons_False in * by done. by apply IH.
Qed.
End Running.

Lemma canonical_dir_last (zipDir : list Z) : canonical_dir zipDir = [] \/ last (canonical_dir zipDir) = Some SLASH.
Proof.
  unfold canonical_dir. destruct (last zipDir) as [c|] eqn:E; [|by left]. right.
  destruct (Z.eqb_spec c SLASH) as [->|Hne]; cbn [negb]; [done|apply last_snoc].
Qed.

(** ** Properties *)


(** A failure that is reported as success: when the first entry below
    [zipDir] is a file whose data cannot be extracted (here for its compression
    method), [mzExtractRecursive] stops there, leaves an empty file, calls the
    callback for nothing and returns true. *)
Theorem mzExtractRecursive_hides_failure {I : Inflater} {Dev} fd_read fuel malloc_ok
    pArchive zipDir targetDir flags timestamp e es (w : world tree Dev)
    (Hmalloc : forall n, malloc_ok n = true) (Hzip : head zipDir <> Some SLASH) (Htarget : head targetDir = Some SLASH)
    (Hnames : names targetDir <> [] /\ Forall good (names targetDir)) (Hnul : Forall (fun c => c <> 0) targetDir)
    (Hdry : flags .& MZ_EXTRACT_DRY_RUN = 0)
    (Hentries : za_pEntries pArchive = e :: es /\ za_numEntries pArchive = zlen (e :: es)) (Hfile : is_dir_entry e = false)
    (Hfits : entry_fits targetDir (canonical_dir zipDir) (negb (flags .& MZ_EXTRACT_FILES_ONLY =? 0)) (w_fs w) e)
    (Hmethod : compression e <> STORED /\ compression e <> DEFLATED) (Hroot : isdir (w_fs w) []) (Heager : eager w) :
  wp (fun _ => True) (mzExtractRecursive fd_read fuel malloc_ok pArchive zipDir targetDir flags timestamp) w (fun r w' =>
    r = (true, []) /\
    exists i, w_fs w' !! entry_path targetDir (canonical_dir zipDir) e = Some i /\ i_kind i = KFile []).
Proof.
  unfold mzExtractRecursive. rewrite bool_decide_false, (bool_decide_true (head targetDir = _)), Hmalloc by done.
  cbn [negb]. destruct Hentries as [-> ->]. rewrite Nat2Z.id, firstn_all. destruct Hnames as [HT HTg]. cbn [extract_loop ZipTree.zipDir ZipTree.zipDirLen].
  assert (targetDir <> []) as Hne by (by intros ->). pose proof (ef_under _ _ _ _ _ Hfits) as Hu.
  rewrite under_spec, bool_decide_true by (done || apply Hfits). cbn [negb].
  destruct (targetEntryPath_correct malloc_ok targetDir (canonical_dir zipDir) Hne Hnul
    (mkHelper targetDir (canonical_dir zipDir) None (zlen targetDir) (zlen (canonical_dir zipDir)) 0) e) as (h' & Eh & Hh'); try done.
  { unfold fileNameLen. apply prefix_length in Hu. lia. }
  { apply Hfits. }
  apply wp_bind. eapply wp_lift; [exact Eh|]. rewrite Hdry. cbn [Z.eqb negb].
  change (drop (length (canonical_dir zipDir)) (fileName e)) with (entry_rest (canonical_dir zipDir) e).
  apply wp_bind. eapply wp_mono; [by apply (extract_entry_fails fd_read fuel malloc_ok Hmalloc targetDir (canonical_dir zipDir)
    flags timestamp HT HTg (canonical_dir_last zipDir) e w); try apply Hmethod|done|].
  intros r w' (-> & Hw). by apply wp_ret.
Qed.

(** ** Witnesses *)

(** Two files below [d] and one beside it, one of them deflated. *)
Definition demo_one : ZipEntry := mkEntry (str "d/a/one") 2 4 3 DEFLATED 0 0 0 0.
Definition demo_two : ZipEntry := mkEntry (str "d/two") 3 3 3 STORED 0 0 0 0.
Definition demo_other : ZipEntry := mkEntry (str "other") 3 3 3 STORED 0 0 0 0.
Definition demo_zip (es : list ZipEntry) : ZipArchive := mkArchive (zlen es) es (mkHashTable 0 0 0 []).
Definition demo_content (e : ZipEntry) : list Z := [5; 6; 7].
Definition demo_target : tree := {[
  [] := new_inode KDir 493; [str "data"] := new_inode KDir 493; [str "data"; str "two"] := new_inode (KFile [1]) 384 ]}.
Definition demo_run : world tree unit := mkWorld demo_target tt (fun _ => 2) 0 [].

Lemma demo_way (l : path) (e : ZipEntry) :
  entry_dir (str "/data") (str "d/") true e = l ->
  forallb (fun k => bool_decide (demo_target !! take k l = None \/ isdir demo_target (take k l))) (seq 0 (S (length l))) = true ->
  open_way demo_target [] (entry_dir (str "/data") (str "d/") true e).
Proof.
  intros -> H k Hk. rewrite forallb_forall in H. specialize (H k). rewrite bool_decide_eq_true in H. apply H.
  apply in_seq. lia.
Qed.

Lemma demo_fits (e : ZipEntry) :
  e = demo_one \/ e = demo_two -> entry_fits (str "/data") (str "d/") true demo_target e.
Proof.
  intros He. constructor.
  - destruct He as [->| ->]; by eexists.
  - destruct He as [->| ->]; by_decide.
  - destruct He as [->| ->]; by_decide.
  - destruct He as [->| ->]; reflexivity.
  - destruct He as [->| ->]; (eapply demo_way; [vm_compute; reflexivity|by vm_compute]).
  - destruct He as [->| ->]; discriminate.
  - intros _. split; [|by left]. destruct He as [->| ->]; vm_compute; intros i [= <-]; by eexists.
Qed.

Lemma demo_readable (e : ZipEntry) :
  e = demo_one \/ e = demo_two -> readable [9; 9; 3; 5; 6; 7] 20 e (demo_content e).
Proof.
  intros [->| ->].
  - exists [3; 5; 6; 7]. split_and!; [|reflexivity|reflexivity|cbn; lia].
    split; [reflexivity|]. right. split_and!; [reflexivity|reflexivity|exact (eq_refl [3; 5; 6; 7])|reflexivity].
  - exists [5; 6; 7]. split_and!; [|reflexivity|reflexivity|cbn; lia]. split; [reflexivity|]. left. done.
Qed.

(** With [MZ_EXTRACT_FILES_ONLY], which the header describes as unpacking neither
    directories nor symbolic links and calling the callback for what is
    unpacked: a link is written as a file, and the callback gets a directory that
    is not made. *)
Definition demo_dir : ZipEntry := mkEntry (str "d/sub/") 0 0 0 STORED 0 0 CENVEM_UNIX 0.
Definition demo_link : ZipEntry := mkEntry (str "d/two") 3 3 3 STORED 0 0 CENVEM_UNIX (41471 * 2 ^ 16).

Example files_only_links_and_directories : mzIsZipEntrySymlink demo_link = true /\
  match mzExtractRecursive demo_read 20 (fun _ => true) (demo_zip [demo_dir; demo_link]) (str "d") (str "/data")
          MZ_EXTRACT_FILES_ONLY None demo_run with
  | (Done r, w') => bool_decide (r = (true, [str "/data/sub/"; str "/data/two"])) &&
      bool_decide (w_fs w' !! [str "data"; str "two"] = Some (mkInode (KFile [5; 6; 7]) 384 0 0 None)) &&
      bool_decide (w_fs w' !! [str "data"; str "sub"] = None)
  | _ => false
  end = true.
Proof. vm_compute. split; reflexivity. Qed.


(** A file with a compression method that is not known. *)
Definition demo_bad : ZipEntry := mkEntry (str "d/bad") 3 3 3 99 0 0 0 0.

Lemma mzExtractRecursive_hides_failure_witness :
  exists w' : world tree unit,
    mzExtractRecursive demo_read 20 (fun _ => true) (demo_zip [demo_bad; demo_two]) (str "d") (str "/data")
      MZ_EXTRACT_FILES_ONLY None demo_run = (Done (true, []), w').
Proof.
  destruct (mzExtractRecursive_hides_failure demo_read 20 (fun _ => true) (demo_zip [demo_bad; demo_two]) (str "d") (str "/data")
    MZ_EXTRACT_FILES_ONLY None demo_bad [demo_two] demo_run) as (r & w' & l & E & _ & _ & H1 & _).
  - reflexivity.
  - discriminate.
  - reflexivity.
  - split; [discriminate|by_decide].
  - by_decide.
  - reflexivity.
  - by split.
  - reflexivity.
  - constructor; [by eexists|by_decide|by_decide|reflexivity| |discriminate|].
    + eapply demo_way; [vm_compute; reflexivity|by vm_compute].
    + intros _. split; [vm_compute; discriminate|by left].
  - by split.
  - eexists. by split; vm_compute.
  - intros n. reflexivity.
  - exists w'. rewrite H1 in E. exact E.
Defined.

(** A name with [..] in it is extracted outside the target directory. *)
Example mzExtractRecursive_escapes :
  let e := mkEntry (str "d/../evil") 3 3 3 STORED 0 0 0 0 in
  let run := mzExtractRecursive demo_read 20 (fun _ => true) (demo_zip [e]) (str "d") (str "/data") 0 None demo_run in
  run.1 = Done (true, [str "/data/../evil"]) /\
  w_fs run.2 !! [str "evil"] = Some (mkInode (KFile [5; 6; 7]) 420 0 0 None).
Proof. by vm_compute. Qed.
