(* ===== verification/VerifiedZip.v ===== *)
(** * The verifier and the Zip reader agree

    [verify_file] signs off the bytes in front of a comment; minzip then looks
    for the end record on its own.  The two find the same record, so the number
    of entries and the place of the central directory that minzip uses are
    signed bytes. *)
From S2P Require Import Prelude World Verifier Zip ZipFacts.

(** The scan of [parseZipArchive] for the end record of a file. *)
Definition minzip_record (data : list Z) : outcome (option Z) :=
  find_eocd (S (length data)) data (zlen data - ENDHDR).

(** The four marker bytes are the signature minzip compares with. *)
Lemma marker_get4LE (l : list Z) i : bytes l -> 0 <= i -> marker_at l i <-> get4LE l i = Some ENDSIG.
Proof.
  intros Hb Hi. rewrite get4LE_drop by done. unfold marker_at, take_le, eocd_magic.
  pose proof (bytes_drop (Z.to_nat i) l Hb) as Hd.
  destruct (drop (Z.to_nat i) l) as [|a [|b [|c [|d k]]]]; cbn -[Z.mul Z.add];
    try (split; [intros [_ ?]; congruence|discriminate]).
  unfold bytes in Hd. rewrite !Forall_cons in Hd. destruct Hd as (Ha & Hbb & Hc & Hdd & _). unfold is_byte in *.
  rewrite take_0. cbn [le_decode]. split.
  - intros [_ [= -> -> -> ->]]. done.
  - intros [= E]. split; [done|]. unfold ENDSIG in E.
    assert (d = 6) as -> by lia. assert (c = 5) as -> by lia. assert (b = 75) as -> by lia. assert (a = 80) as -> by lia.
    done.
Qed.

(** Markers do not overlap. *)
Lemma marker_apart (l : list Z) i : marker_at l 0 -> marker_at l i -> 0 < i -> 4 <= i.
Proof.
  unfold marker_at, eocd_magic. intros [_ H0] [_ Hi] Hpos.
  destruct l as [|a [|b [|c [|d l]]]]; cbn in H0; try discriminate. injection H0 as -> -> -> ->.
  destruct (Z.le_gt_cases 4 i) as [|Hlt]; [done|]. exfalso.
  assert (i = 1 \/ i = 2 \/ i = 3) as [-> | [-> | ->]] by lia; cbn in Hi; discriminate.
Qed.

Lemma marker_app (body eocd : list Z) i : 0 <= i -> marker_at (body ++ eocd) (zlen body + i) <-> marker_at eocd i.
Proof.
  intros Hi. unfold marker_at. replace (Z.to_nat (zlen body + i)) with (length body + Z.to_nat i)%nat by lia.
  rewrite drop_app_add. split; intros [_ ?]; (split; [lia|done]).
Qed.

(** The backward scan stops at the signed record. *)
Lemma signed_record_found {C : Mincrypt} data key body eocd :
  bytes data -> signed_at data key body eocd ->
  minzip_record data = Done (Some (zlen body)).
Proof.
  intros Hb (front & sg & s0 & s1 & c0 & c1 & hash & Hd & He & Hsl & Hel & Hst & H0 & Hno & _).
  unfold RSANUMBYTES, FOOTER_SIZE, EOCD_HEADER_SIZE in *.
  assert (zlen data = zlen body + zlen eocd) as Hlen by (rewrite Hd, length_app; lia).
  assert (zlen eocd = zlen front + 262) as Hel' by (rewrite He, !length_app; cbn [length]; lia).
  unfold minzip_record. destruct (find_eocd_spec data (S (length data)) (zlen data - ENDHDR)) as (r & -> & Hr);
    [done|unfold ENDHDR; lia|unfold ENDHDR; lia|].
  assert (get4LE data (zlen body) = Some ENDSIG) as Hhere.
  { apply marker_get4LE; [done|lia|]. replace (zlen body) with (zlen body + 0) by lia. rewrite Hd. by apply marker_app. }
  destruct r as [p|]; [|exfalso; apply (Hr (zlen body)); [unfold ENDHDR; lia|done]].
  destruct Hr as (Hp & Hsig & Hlast). do 2 f_equal.
  destruct (Z.lt_trichotomy p (zlen body)) as [Hlt|[->|Hgt]]; [|done|]; exfalso.
  - apply (Hlast (zlen body)); [unfold ENDHDR; lia|done].
  - apply marker_get4LE in Hsig; [|done|lia]. rewrite Hd in Hsig.
    replace p with (zlen body + (p - zlen body)) in Hsig by lia. apply marker_app in Hsig; [|lia].
    apply (Hno (p - zlen body)); [|done]. eapply marker_apart; [exact H0|exact Hsig|lia].
Qed.

(** [C19] When [verify_file] accepts a file, whatever the system calls did, the
    record minzip's scan finds in it is the signed one: it starts where the
    signed bytes have twenty more to go, so the entry count and the directory
    offset that [parseZipArchive] takes from it are covered by the signature. *)
Theorem verified_record_is_parsed {C : Mincrypt} malloc_ok path keys (w w' : world unit) f
    (Hf : w_fs w !! path = Some f) (Hb : bytes (f_data f))
    (Hv : verify_file malloc_ok path keys w = (Done VERIFY_SUCCESS, w')) :
  exists key body eocd hash, key ∈ keys /\ f_data f = (body ++ eocd)%list /\
    minzip_record (f_data f) = Done (Some (zlen body)) /\
    key_hash key (take (length body + 20) (f_data f)) = Some hash /\
    exists signature, RSA_verify (public_key key) signature hash (hash_len key) = true.
Proof.
  apply verify_file_sound in Hv; [|intros f' E; congruence].
  destruct (Hv eq_refl) as (f' & key & body & eocd & E & Hin & Hs). assert (f' = f) as -> by congruence.
  pose proof (signed_record_found _ _ _ _ Hb Hs) as Hfind.
  destruct Hs as (front & sg & s0 & s1 & c0 & c1 & hash & Hd & _ & _ & _ & _ & _ & _ & Hh & Hver).
  exists key, body, eocd, hash. split_and!; [done|done|done| |eauto]. rewrite Hd at 1. by rewrite take_app_add.
Qed.

Lemma verified_record_is_parsed_witness :
  exists key body eocd hash, key ∈ [mkCert 20 toy_key] /\ toy_package = (body ++ eocd)%list /\
    minzip_record toy_package = Done (Some (zlen body)) /\
    key_hash (C := toy_crypt) key (take (length body + 20) toy_package) = Some hash /\
    exists signature, RSA_verify (Mincrypt := toy_crypt) (public_key key) signature hash (hash_len key) = true.
Proof.
  apply (verified_record_is_parsed (C := toy_crypt) (fun _ => true) "/cache/update.zip" [mkCert 20 toy_key] toy_world
    (verify_file (C := toy_crypt) (fun _ => true) "/cache/update.zip" [mkCert 20 toy_key] toy_world).2
    (mkFile toy_package 420 0 0)); [reflexivity|by_decide|vm_compute; reflexivity].
Defined.
