(* ===== verification/Install.v ===== *)
(** * Installing a package ([install.c])

    The package is verified, opened, its update binary is extracted and run, and
    the commands it writes to a pipe are carried out.  The update binary is an
    arbitrary program that acts on the disk; the screen and the questions to the
    user are events.  What the program prints to its log is left out. *)
From stdpp Require Import pretty.
From S2P Require Import Prelude.
From S2P Require Import Cstring.
From S2P Require Import Cbuf.
From S2P Require Import HashTable.
From S2P Require Import World.
From S2P Require Import Verifier.
From S2P Require Import Zip.
From S2P Require Import ZipExtract.
From S2P Require Import Posix.
From S2P Require Import Numerals.
Export Numerals.
From S2P Require Import Stdio.
From S2P Require Import DirUtil.
From S2P Require Import ZipTree.
From S2P Require Import Mtdutils.
From S2P Require Import Bootloader.
From S2P Require Import Recovery.
Local Open Scope Z_scope.
Local Open Scope list_scope.

Definition INSTALL_SUCCESS : Z := 0.
Definition INSTALL_ERROR : Z := 1.
Definition INSTALL_CORRUPT : Z := 2.
Definition INSTALL_UPDATE_SCRIPT_MISSING : Z := 3.
Definition INSTALL_UPDATE_BINARY_MISSING : Z := 4.

Definition ASSUMED_UPDATE_BINARY_NAME : list Z := str "META-INF/com/google/android/update-binary".
Definition ASSUMED_UPDATE_SCRIPT_NAME : list Z := str "META-INF/com/google/android/update-script".
Definition PUBLIC_KEYS_FILE : list Z := str "/res/keys".
Definition DEV_PROP_PATH : list Z := str "/dev/__properties__".
Definition DEV_PROP_BACKUP_PATH : list Z := str "/dev/__properties_backup__".
Definition BINARY : list Z := str "/tmp/update_binary".

(** The file a path leads to. *)
Definition file_at (fs : tree) (s : list Z) : option (list Z) :=
  match resolve true fs s with Found p => fs !! p ≫= node_data | _ => None end.

(** ** Commands of the update binary *)

(** What the user sees and answers: fractions are the text [strtof] is given. *)
Inductive ui_event :=
  | UShowProgress (fraction : list Z) (seconds : Z)
  | USetProgress (fraction : list Z)
  | UPrint (text : list Z)
  | UConfirm (yes : bool).

Definition SPACE_NL : list Z := [32; 10].

(** One line in its buffer: the events, and the firmware that is to be installed.
    [strtof] and [strtol] do not take a null pointer. *)
Definition do_command (line : list Z) (fw : option (list Z * list Z)) : option (list ui_event * option (list Z * list Z)) :=
  '(cmd, _, buf) ← strtok_r SPACE_NL (line ++ [0]);
  match cmd with
  | None => Some ([], fw)
  | Some cmd =>
      if bool_decide (cmd = str "progress") then
        '(fraction_s, _, buf) ← strtok_r SPACE_NL buf;
        '(seconds_s, _, _) ← strtok_r SPACE_NL buf;
        fraction_s ← fraction_s; seconds_s ← seconds_s;
        Some ([UShowProgress fraction_s (swrap 32 (strtol (text seconds_s)).1)], fw)
      else if bool_decide (cmd = str "set_progress") then
        '(fraction_s, _, _) ← strtok_r SPACE_NL buf;
        fraction_s ← fraction_s;
        Some ([USetProgress fraction_s], fw)
      else if bool_decide (cmd = str "firmware") then
        '(type, _, buf) ← strtok_r SPACE_NL buf;
        '(filename, _, _) ← strtok_r SPACE_NL buf;
        match type, filename, fw with
        | Some type, Some filename, None => Some ([], Some (type, filename))
        | _, _, _ => Some ([], fw)
        end
      else if bool_decide (cmd = str "ui_print") then
        '(s, _, _) ← strtok_r [10] buf;
        Some ([UPrint (default [10] s)], fw)
      else Some ([], fw)
  end.

(** The loop over what is read from the pipe, with [fgets] into 1024 bytes. *)
Fixpoint do_commands (n : nat) (out : list Z) (fw : option (list Z * list Z))
    : outcome (list ui_event * option (list Z * list Z)) :=
  match line_of 1023 out with
  | [] => Done ([], fw)
  | line =>
      match n with
      | O => Diverge
      | S n =>
          '(ev, fw) ← access (do_command line fw);
          '(evs, fw) ← do_commands n (drop (length line) out) fw;
          Done (ev ++ evs, fw)
      end
  end.

(** ** Is it an old updater? *)

Definition setpermmatch : list Z := str "set_perm_".
Definition setmetamatch : list Z := str "set_metadata_".

Record matcher := mkMatcher { m_pos : Z; foundsetperm : bool; foundsetmeta : bool }.

(** The body of the loop for the byte [tmpbuf]. *)
Definition match_byte (tmpbuf : Z) (m : matcher) : option matcher :=
  let pos := m_pos m in
  if negb (foundsetperm m) && (pos <? 9) && bool_decide (buf_get setpermmatch pos = Some tmpbuf) then
    if pos + 1 =? 9 then Some (mkMatcher 0 true (foundsetmeta m))
    else Some (mkMatcher (pos + 1) (foundsetperm m) (foundsetmeta m))
  else
    same ← (if foundsetmeta m then Some false else c ← buf_get setmetamatch pos; Some (tmpbuf =? c));
    if same : bool then
      if pos + 1 =? 13 then Some (mkMatcher 0 (foundsetperm m) true)
      else Some (mkMatcher (pos + 1) (foundsetperm m) (foundsetmeta m))
    else Some (mkMatcher 0 (foundsetperm m) (foundsetmeta m)).

(** ** State *)

(** [firmware.c]'s variables. *)
Record firmware := mkFirmware { update_type : option (list Z); update_data : option (list Z); update_length : Z }.

Definition no_firmware : firmware := mkFirmware None None 0.

(** [remember_firmware_update]: the return value and the variables. *)
Definition remember_firmware_update (type data : list Z) (length : Z) (f : firmware) : Z * firmware :=
  match update_type f, update_data f with
  | None, None => (0, mkFirmware (Some type) (Some data) length)
  | _, _ => (-1, f)
  end.

Definition firmware_update_pending (f : firmware) : bool :=
  match update_data f with Some _ => 0 <? update_length f | None => false end.

(** A process that was started: the bytes of the archive its program came from,
    the program and its arguments. *)
Record run := mkRun { run_archive : list Z; run_binary : list Z; run_args : list (list Z) }.

Section Install.
  Context {D : MtdDriver} {R : Roots dev} {C : Mincrypt} {SI : SafeIop} {I : Inflater}.
  (** Allocation; where a file is mapped; what fresh memory holds for
      [load_keys] and in the byte [tmpbuf]; the fuel of loops that only a read
      error keeps going; RECOVERY_API_VERSION. *)
  Context (malloc_ok calloc_ok : Z -> bool) (addr junk_exponent junk_hash_len junk_char : Z) (fuel : nat) (api : list Z).
  (** [signature_check_enabled]. *)
  Context (signature_check_enabled : bool).
  (** An update binary: given its program, arguments and environment, what it
      writes to the pipe and its wait status. *)
  Context (child : list Z -> list (list Z) -> list (list Z * list Z) -> Run.W tree dev (list Z * Z)).

(** The devices, the variables of [install.c] and [firmware.c], and what was
    shown and started. *)
Record host := mkHost {
  h_dev : dev;
  h_firmware : firmware;
  h_env : list (list Z * list Z);
  legacy_props_env_initd : bool;
  legacy_props_path_modified : bool;
  h_ui : list ui_event;
  h_runs : list run
}.

Abbreviation W := (Run.W tree host).

(** A program that only knows the devices. *)
Definition within {A} (m : Run.W tree dev A) : W A := fun w =>
  let h := w_dev w in
  let '(o, v) := m (mkWorld (w_fs w) (h_dev h) (w_answers w) (w_asked w) (w_log w)) in
  (o, mkWorld (w_fs v) (mkHost (w_dev v) (h_firmware h) (h_env h) (legacy_props_env_initd h) (legacy_props_path_modified h) (h_ui h) (h_runs h))
        (w_answers v) (w_asked v) (w_log v)).

Definition set_firmware (f : firmware) : W unit :=
  let! h := get_dev in
  set_dev (mkHost (h_dev h) f (h_env h) (legacy_props_env_initd h) (legacy_props_path_modified h) (h_ui h) (h_runs h)).
Definition setenv (name value : list Z) : W unit :=
  let! h := get_dev in
  set_dev (mkHost (h_dev h) (h_firmware h) ((name, value) :: h_env h) (legacy_props_env_initd h) (legacy_props_path_modified h) (h_ui h) (h_runs h)).
Definition set_initd : W unit :=
  let! h := get_dev in
  set_dev (mkHost (h_dev h) (h_firmware h) (h_env h) true (legacy_props_path_modified h) (h_ui h) (h_runs h)).
Definition set_modified (b : bool) : W unit :=
  let! h := get_dev in
  set_dev (mkHost (h_dev h) (h_firmware h) (h_env h) (legacy_props_env_initd h) b (h_ui h) (h_runs h)).
Definition show (evs : list ui_event) : W unit :=
  let! h := get_dev in
  set_dev (mkHost (h_dev h) (h_firmware h) (h_env h) (legacy_props_env_initd h) (legacy_props_path_modified h) (h_ui h ++ evs) (h_runs h)).
Definition note_run (r : run) : W unit :=
  let! h := get_dev in
  set_dev (mkHost (h_dev h) (h_firmware h) (h_env h) (legacy_props_env_initd h) (legacy_props_path_modified h) (h_ui h) (h_runs h ++ [r])).

(** ** Reading the package *)

(** [verify_file] on the file of the tree. *)
Definition verify_package (path : list Z) (keys : list Certificate) : W Z := fun w =>
  let files := match file_at (w_fs w) path with Some d => {[ ""%string := mkFile d 0 0 0 ]} | None => ∅ end in
  let '(o, v) := verify_file malloc_ok "" keys (mkWorld files tt (w_answers w) (w_asked w) []) in
  (o, mkWorld (w_fs w) (w_dev w) (w_answers w) (w_asked v) (w_log w)).

Definition load_public_keys : W (option (list Certificate)) :=
  let! a := ask in
  let! fs := get_fs in
  wlift (load_keys junk_exponent junk_hash_len (if a <? 0 then None else text <$> file_at fs PUBLIC_KEYS_FILE)).

(** [mzOpenZipArchive]: the return value, the archive and the bytes mapped. *)
Definition open_package (path : list Z) : W (Z * option (ZipArchive * list Z)) :=
  let! a := ask in
  let! m := ask in
  let! fs := get_fs in
  let file := match file_at fs path with
    | None => OpenFailed (if a <? 0 then EIO else ENOENT)
    | Some data => if a <? 0 then OpenFailed EIO else if m <? 0 then MapFailed else Mapped addr data
    end in
  let! (err, zip) := wlift (mzOpenZipArchive calloc_ok file) in
  wret (err, match zip, file with Some zip, Mapped _ data => Some (zip, data) | _, _ => None end).

(** Reads from the archive's descriptor, of which those behind [limit] fail. *)
Definition fd_read_until (limit : option Z) (data : list Z) (pos n : Z) : Z * list Z :=
  let got := take (Z.to_nat n) (drop (Z.to_nat pos) data) in
  match limit with
  | Some l => if l <? pos + n then (-1, []) else (zlen got, got)
  | None => (zlen got, got)
  end.

Definition read_limit (a : Z) : option Z := if a <? 0 then Some (- a - 1) else None.

(** ** [handle_firmware_update] *)

Definition handle_firmware_update (type filename : list Z) (zip : ZipArchive) (data : list Z) : W Z :=
  let remember d size :=
    let! h := get_dev in
    let '(r, f) := remember_firmware_update type d (swrap 32 size) (h_firmware h) in
    let! _ := set_firmware f in
    wret (if negb (r =? 0) then INSTALL_ERROR else INSTALL_SUCCESS) in
  if bool_decide (take 8 filename = str "PACKAGE:") then
    let! entry := wlift (mzFindZipEntry calloc_ok zip (drop 8 filename)) in
    match entry with
    | None => wret INSTALL_ERROR
    | Some entry =>
        let data_size := wrap 32 (uncompLen entry) in
        if negb (malloc_ok data_size) then wret INSTALL_ERROR
        else
          let! a := ask in
          let! (ok, d) := wlift (mzReadZipEntry (fd_read_until (read_limit a) data) fuel entry data_size) in
          if negb ok then wret INSTALL_ERROR else remember d data_size
    end
  else
    let! st := sys_stat filename in
    match st with
    | inr _ => wret INSTALL_ERROR
    | inl i =>
        let data_size := wrap 32 (zlen (default [] (node_data i))) in
        if negb (malloc_ok data_size) then wret INSTALL_ERROR
        else
          let! f := fopen_r filename in
          match f with
          | inr _ => wret INSTALL_ERROR
          | inl f =>
              let! (d, _) := fread data_size f in
              if negb (zlen d =? data_size) then wret INSTALL_ERROR else remember d data_size
          end
    end.

(** ** [try_update_binary] *)

(** [legacy_properties_init], the workspace it sets up and [dup] are answers of
    the system. *)
Definition set_legacy_props : W Z :=
  let! h := get_dev in
  let! r := if legacy_props_env_initd h then wret 0
    else
      let! r := ask in
      if negb (r =? 0) then wret (-1)
      else
        let! propfd := ask in
        let! propsz := ask in
        let! _ := setenv (str "ANDROID_PROPERTY_WORKSPACE") (str (pretty (swrap 32 propfd)) ++ [44] ++ str (pretty (swrap 32 propsz))) in
        let! _ := set_initd in
        wret 0 in
  if negb (r =? 0) then wret (-1)
  else
    let! r := sys_rename DEV_PROP_PATH DEV_PROP_BACKUP_PATH in
    if negb (r =? 0) then wret (-1) else let! _ := set_modified true in wret 0.

Definition unset_legacy_props : W Z :=
  let! r := sys_rename DEV_PROP_BACKUP_PATH DEV_PROP_PATH in
  if negb (r =? 0) then wret (-1) else let! _ := set_modified false in wret 0.

(** [while (!feof(updaterfile))]: at the end of the file the byte read last is
    looked at once more, and a read that fails is tried again. *)
Fixpoint scan_updater (n : nat) (f : rfile) (tmpbuf : Z) (m : matcher) : W matcher :=
  match n with
  | O => wlift Diverge
  | S n =>
      let! fs := get_fs in
      let! (got, f') := fread 1 f in
      let tmpbuf := match got with c :: _ => c | [] => tmpbuf end in
      let! m := wlift (access (match_byte tmpbuf m)) in
      if bool_decide (unread fs f = []) then wret m else scan_updater n f' tmpbuf m
  end.

Definition WIFEXITED (status : Z) : bool := status .& 127 =? 0.
Definition WEXITSTATUS (status : Z) : Z := (status .& 65280) >>> 8.

(** From [pipe] to [waitpid]: what came over the pipe and the status.  When
    [fork] fails nothing comes and the status is not set. *)
Definition run_update_binary (path archive : list Z) : W (list Z * Z) :=
  let! fd := ask in
  if (fd <? 0) || (10 ^ 9 <=? fd) then wlift Undef
  else
    let args := [BINARY; api; str (pretty fd); path] in
    let! pid := ask in
    if pid <? 0 then let! status := ask in wret ([], status)
    else
      let! x := ask in
      let! fs := get_fs in
      match file_at fs BINARY with
      | Some program =>
          if x <? 0 then wret ([], 65280)
          else
            let! h := get_dev in
            let! _ := note_run (mkRun archive program args) in
            within (child program args ((str "UPDATE_PACKAGE", path) :: h_env h))
      | None => wret ([], 65280)
      end.

(** From the check of the binary on, once it is extracted. *)
Definition start_update_binary (path : list Z) (zip : ZipArchive) (data : list Z) : W Z :=
  let! f := fopen_r BINARY in
  match f with
  | inr _ => wret 1
  | inl f =>
      let! m := scan_updater fuel f junk_char (mkMatcher 0 false false) in
      let! _ := if foundsetperm m && negb (foundsetmeta m) then set_legacy_props else wret 0 in
      let! (out, status) := run_update_binary path data in
      let! (evs, fw) := wlift (do_commands (length out) out None) in
      let! _ := show evs in
      let! h := get_dev in
      let! _ := if legacy_props_path_modified h then unset_legacy_props else wret 0 in
      if negb (WIFEXITED status) || negb (WEXITSTATUS status =? 0) then wret INSTALL_ERROR
      else match fw with
      | Some (type, filename) => handle_firmware_update type filename zip data
      | None => wret INSTALL_SUCCESS
      end
  end.

Definition try_update_binary (path : list Z) (zip : ZipArchive) (data : list Z) : W Z :=
  let! binary_entry := wlift (mzFindZipEntry calloc_ok zip ASSUMED_UPDATE_BINARY_NAME) in
  match binary_entry with
  | None =>
      let! _ := wlift (mzFindZipEntry calloc_ok zip ASSUMED_UPDATE_SCRIPT_NAME) in
      wret INSTALL_UPDATE_BINARY_MISSING
  | Some binary_entry =>
      let! _ := sys_unlink BINARY in
      let! fd := sys_creat BINARY 493 in
      match fd with
      | inr _ => wret 1
      | inl p =>
          let! a := ask in
          let! ok := extract_to_file (fd_read_until (read_limit a) data) fuel binary_entry p in
          if negb ok then wret 1 else start_update_binary path zip data
      end
  end.

(** ** [install_package] *)

(** [strchr(s, '/')]. *)
Fixpoint slash_at (s : list Z) : option nat :=
  match s with
  | [] => None
  | c :: s => if c =? SLASH then Some O else S <$> slash_at s
  end.

(** The root of the path, when it is a symbolic link, replaced by its target.
    [strncpy] leaves a path that does not fit without its end. *)
Definition resolve_root (path : list Z) : W (list Z) :=
  match path with
  | c :: (_ :: _) as tail =>
      match slash_at tail with
      | None => wret path
      | Some k =>
          let! target := sys_readlink (take (S k) path) PATH_MAX in
          match target with
          | inl (_ :: _ as target) =>
              let new_path := target ++ drop (S k) path in
              if PATH_MAX <=? zlen new_path then wlift Undef else wret new_path
          | _ => wret path
          end
      end
  | _ => wret path
  end.

(** Whether the package may be installed, as far as its signature goes. *)
Definition check_package (path : list Z) : W bool :=
  if negb signature_check_enabled then wret true
  else
    let! loadedKeys := load_public_keys in
    match loadedKeys with
    | None => wret false
    | Some keys =>
        let! err := verify_package path keys in
        if negb (err =? VERIFY_SUCCESS) then
          let! a := ask in
          let yes := negb (a =? 0) in
          let! _ := show [UConfirm yes] in
          wret yes
        else wret true
    end.

Definition really_install_package (path : list Z) : W Z :=
  let! path := resolve_root path in
  let! m := within (ensure_path_mounted path) in
  if negb (m =? 0) then wret INSTALL_CORRUPT
  else
    let! ok := check_package path in
    if negb ok then wret INSTALL_CORRUPT
    else
      let! (err, zip) := open_package path in
      match zip with
      | Some (zip, data) => if negb (err =? 0) then wret INSTALL_CORRUPT else try_update_binary path zip data
      | None => wret INSTALL_CORRUPT
      end.

Definition install_package (path : list Z) : W Z :=
  let! log := within (fopen_path_w malloc_ok false LAST_INSTALL_FILE) in
  let! log := match log with
    | None => wret None
    | Some log => let! (_, log) := fwrite path log in let! (_, log) := fwrite [NEWLINE] log in wret (Some log)
    end in
  let! result := really_install_package path in
  match log with
  | None => wret result
  | Some log =>
      let! (_, log) := fwrite [if result =? INSTALL_SUCCESS then 49 else 48] log in
      let! (_, log) := fwrite [NEWLINE] log in
      let! _ := fclose log in
      let! _ := sys_chmod LAST_INSTALL_FILE 420 in
      wret result
  end.

End Install.
