(* ===== verification/InstallFacts.v ===== *)
(** * Only verified packages run

    With the signature check on, a program that [install_package] starts comes
    from an archive that one of the keys in /res/keys signed, unless the user
    confirmed the package. *)
From S2P Require Import Prelude.
From S2P Require Import HashTable.
From S2P Require Import World.
From S2P Require Import Verifier.
From S2P Require Import Zip.
From S2P Require Import ZipExtract.
From S2P Require Import Posix.
From S2P Require Import Stdio.
From S2P Require Import DirUtil.
From S2P Require Import ZipTree.
From S2P Require Import Mtdutils.
From S2P Require Import Bootloader.
From S2P Require Import Recovery.
From S2P Require Import Install.
Local Open Scope Z_scope.
Local Open Scope list_scope.

(** ** Programs that leave the devices alone *)

Section KeepsDev.
  Context {Dev : Type}.
  Abbreviation W := (Run.W tree Dev).

Definition keeps_dev {A} (m : W A) : Prop := forall w, w_dev (m w).2 = w_dev w.

Lemma keeps_bind {A B} (m : W A) (k : A -> W B) : keeps_dev m -> (forall a, keeps_dev (k a)) -> keeps_dev (wbind m k).
Proof.
  intros Hm Hk w. unfold wbind. specialize (Hm w). destruct (m w) as [[a|c| |] w1]; cbn in *; [|done..].
  by rewrite Hk.
Qed.

Lemma keeps_ret {A} (a : A) : keeps_dev (wret a). Proof. done. Qed.
Lemma keeps_lift {A} (o : outcome A) : keeps_dev (wlift o). Proof. done. Qed.
Lemma keeps_ask : keeps_dev ask. Proof. done. Qed.
Lemma keeps_get_fs : keeps_dev get_fs. Proof. done. Qed.
Lemma keeps_get_dev : keeps_dev get_dev. Proof. done. Qed.
Lemma keeps_set_fs fs : keeps_dev (set_fs fs). Proof. done. Qed.

Lemma keeps_syscall {A} (a : A) (f : tree -> W A) : (forall fs, keeps_dev (f fs)) -> keeps_dev (syscall a f).
Proof.
  intros Hf. apply keeps_bind; [apply keeps_ask|]. intros x. apply keeps_bind; [apply keeps_get_fs|].
  intros fs. by destruct (x <? 0).
Qed.
End KeepsDev.

Create HintDb keeps.
#[export] Hint Constants Opaque : keeps.
#[export] Hint Resolve keeps_ret keeps_lift keeps_ask keeps_get_fs keeps_get_dev keeps_set_fs : keeps.

(** Splits the cases of the program and uses what is known of its parts. *)
Ltac keeps_tac :=
  repeat first
    [ progress cbv zeta
    | solve [eauto with keeps]
    | match goal with
      | |- keeps_dev (wbind _ _) => apply keeps_bind; [|intros ?]
      | |- keeps_dev (syscall _ _) => apply keeps_syscall; intros ?
      end
    | match goal with |- context [match ?x with _ => _ end] => destruct x end ].

Section Calls.
  Context {Dev : Type}.
  Abbreviation W := (Run.W tree Dev).

Lemma keeps_creat s m : keeps_dev (sys_creat (Dev := Dev) s m).
Proof. unfold sys_creat. keeps_tac. Qed.
Lemma keeps_unlink s : keeps_dev (sys_unlink (Dev := Dev) s).
Proof. unfold sys_unlink. keeps_tac. Qed.
Lemma keeps_change s g : keeps_dev (sys_change (Dev := Dev) s g).
Proof. unfold sys_change. keeps_tac. Qed.
Lemma keeps_rename s t : keeps_dev (sys_rename (Dev := Dev) s t).
Proof. unfold sys_rename. keeps_tac. Qed.
Lemma keeps_readlink s n : keeps_dev (sys_readlink (Dev := Dev) s n).
Proof. unfold sys_readlink. keeps_tac. Qed.
Lemma keeps_stat f s : keeps_dev (sys_stat_at (Dev := Dev) f s).
Proof. unfold sys_stat_at. keeps_tac. Qed.
Lemma keeps_sys_stat s : keeps_dev (sys_stat (Dev := Dev) s).
Proof. apply keeps_stat. Qed.
Lemma keeps_chmod s m : keeps_dev (sys_chmod (Dev := Dev) s m).
Proof. apply keeps_change. Qed.
Lemma keeps_write p data : keeps_dev (sys_write (Dev := Dev) p data).
Proof. unfold sys_write. keeps_tac. Qed.
Lemma keeps_fopen_r s : keeps_dev (fopen_r (Dev := Dev) s).
Proof. unfold fopen_r. keeps_tac. Qed.
Lemma keeps_fread n f : keeps_dev (fread (Dev := Dev) n f).
Proof. unfold fread, take_input. keeps_tac. Qed.

Lemma keeps_write_chunk f data : keeps_dev (write_chunk (Dev := Dev) f data).
Proof. unfold write_chunk. keeps_tac. Qed.

#[local] Hint Resolve keeps_write_chunk : keeps.

Lemma keeps_push fuel : forall f data, keeps_dev (push (Dev := Dev) fuel f data).
Proof. induction fuel as [|fuel IH]; intros f [|c data]; cbn [push]; keeps_tac. Qed.

#[local] Hint Resolve keeps_push : keeps.

Lemma keeps_fwrite data f : keeps_dev (fwrite (Dev := Dev) data f).
Proof. unfold fwrite. keeps_tac. Qed.
Lemma keeps_fclose f : keeps_dev (fclose (Dev := Dev) f).
Proof. unfold fclose, fflush. keeps_tac. Qed.

End Calls.

#[export] Hint Resolve keeps_creat keeps_unlink keeps_change keeps_rename keeps_readlink keeps_stat keeps_sys_stat keeps_chmod keeps_write
  keeps_fopen_r keeps_fread keeps_fwrite keeps_fclose : keeps.

(** ** Sequencing *)

Section Sequence.
  Context {Disk Dev : Type}.
  Abbreviation W := (Run.W Disk Dev).

Lemma wbind_done {A B} (m : W A) (k : A -> W B) w b w' :
  wbind m k w = (Done b, w') -> exists a w1, m w = (Done a, w1) /\ k a w1 = (Done b, w').
Proof. unfold wbind. destruct (m w) as [[a|c| |] w1]; [|done..]. eauto. Qed.

(** Where a sequence can end. *)
Lemma wbind_cases {A B} (m : W A) (k : A -> W B) w :
  (exists a w1, m w = (Done a, w1) /\ wbind m k w = k a w1) \/ (wbind m k w).2 = (m w).2.
Proof. unfold wbind. destruct (m w) as [[a|c| |] w1]; [left; eauto|by right..]. Qed.

Lemma wbind_assoc {A B E} (m : W A) (k : A -> W B) (h : B -> W E) w :
  wbind (wbind m k) h w = wbind m (fun a => wbind (k a) h) w.
Proof. unfold wbind. by destruct (m w) as [[a|c| |] w1]. Qed.

Lemma wbind_ext {A B} (m : W A) (k h : A -> W B) w : (forall a w', k a w' = h a w') -> wbind m k w = wbind m h w.
Proof. intros H. unfold wbind. by destruct (m w) as [[a|c| |] w1]. Qed.

Lemma wbind_ret {A B} (a : A) (k : A -> W B) w : wbind (wret a) k w = k a w.
Proof. done. Qed.
End Sequence.

(** ** Extraction *)

Section Process.
  Context {I : Inflater} (fd_read : Z -> Z -> Z * list Z) {A : Type} (f : list Z -> A -> outcome (bool * A)) (P : A -> Prop).
  Context (Hf : forall data a b a', P a -> f data a = Done (b, a') -> P a').

(** What the callback keeps, processing an entry keeps. *)
Lemma stored_loop_keeps fuel : forall pos left a b a', P a -> stored_loop fd_read f fuel pos left a = Done (b, a') -> P a'.
Proof using Hf.
  induction fuel as [|fuel IH]; intros pos left a b a' Ha; cbn [stored_loop]; (destruct (0 <? left); [|by intros [= <- <-]]); [done|].
  destruct (fd_read pos _) as [n buf]. destruct (_ || _); [by intros [= <- <-]|].
  intros ([r a1] & E & H)%outcome_bind_done. pose proof (Hf _ _ _ _ Ha E) as Ha1.
  destruct r; [by apply IH in H|by injection H as <- <-].
Qed.

Lemma deflated_loop_keeps fuel : forall z avail pos left buf total a r a', P a ->
  deflated_loop fd_read f fuel z avail pos left buf total a = Done (r, a') -> P a'.
Proof using Hf.
  induction fuel as [|fuel IH]; intros z avail pos left buf total a r a' Ha; cbn [deflated_loop]; [done|].
  intros ([[[avail' pos'] left']|] & _ & H)%outcome_bind_done; [|by injection H as <- <-].
  destruct (i_inflate _ _ _) as [[[zerr used] out] z']. destruct (_ && _); [by injection H as <- <-|].
  apply outcome_bind_done in H as ([ok a1] & E & H).
  assert (P a1) as Ha1. { destruct (_ || _); [by eapply Hf|by injection E as <- <-]. }
  destruct ok; cbn [negb] in H; [|by injection H as <- <-].
  destruct (zerr =? Z_OK); [by eapply IH|by injection H as <- <-].
Qed.

Lemma process_keeps fuel e a b a' : P a -> mzProcessZipEntryContents fd_read f fuel e a = Done (b, a') -> P a'.
Proof using Hf.
  intros Ha. unfold mzProcessZipEntryContents, processStoredEntry, processDeflatedEntry.
  destruct (_ =? STORED); [by apply stored_loop_keeps|]. destruct (_ =? DEFLATED); [|by intros [= <- <-]].
  destruct i_init as [zerr z]. intros ([r a1] & E & H)%outcome_bind_done. injection H as <- <-.
  destruct (negb _); [by injection E as <- <-|]. by eapply deflated_loop_keeps.
Qed.
End Process.

Lemma write_loop_keeps {F} (wr : list Z -> F -> Z * F) (P : F -> Prop) (Hwr : forall d st, P st -> P (wr d st).2) fuel :
  forall data st errno b st', P st -> write_loop wr fuel data st errno = Done (b, st') -> P st'.1.
Proof.
  induction fuel as [|fuel IH]; intros data st errno b st' Hst; cbn [write_loop]; [done|].
  specialize (Hwr data st Hst). destruct (wr data st) as [n st1]. cbn in Hwr.
  destruct (n <=? 0); [destruct (_ =? EINTR); [by apply IH|by intros [= <- <-]]|].
  destruct (_ <? n); [by intros [= <- <-]|]. destruct (drop _ data); [by intros [= <- <-]|by apply IH].
Qed.

Lemma keeps_extract {I : Inflater} {Dev} fd_read fuel e p : keeps_dev (extract_to_file (Dev := Dev) fd_read fuel e p).
Proof.
  intros w. unfold extract_to_file, mzExtractZipEntryToFile.
  destruct (mzProcessZipEntryContents _ _ _ _ _) as [[ok [w' errno]]| | |] eqn:E; [|done..]. cbn.
  revert E. apply (process_keeps fd_read _ (fun st => w_dev st.1 = w_dev w)); [|done].
  intros data [st er] b st' Hst. apply (write_loop_keeps _ (fun st => w_dev st = w_dev w)); [|done].
  intros d st0 <-. unfold file_write. pose proof (keeps_write p d st0) as H. by destruct (sys_write p d st0) as [[]].
Qed.

#[export] Hint Resolve keeps_extract : keeps.

(** ** What is started and shown *)

Section Starts.
  Context {D : MtdDriver}.
  Abbreviation W := (Run.W tree (host (D := D))).

(** However it ends, [m] starts at most [n] programs, all in [P], and shows
    something. *)
Definition starts (n : nat) (P : run -> Prop) {A} (m : W A) : Prop := forall w,
  exists l evs, h_runs (w_dev (m w).2) = h_runs (w_dev w) ++ l /\ (length l <= n)%nat /\ Forall P l /\
    h_ui (w_dev (m w).2) = h_ui (w_dev w) ++ evs.

Lemma starts_weaken n n' (P Q : run -> Prop) {A} (m : W A) :
  starts n P m -> (n <= n')%nat -> (forall r, P r -> Q r) -> starts n' Q m.
Proof.
  intros Hm Hn HP w. destruct (Hm w) as (l & evs & H1 & H2 & H3 & H4). exists l, evs. split_and!; [done|lia| |done].
  by eapply Forall_impl.
Qed.

Lemma starts_bind n k P {A B} (m : W A) (f : A -> W B) :
  starts n P m -> (forall a, starts k P (f a)) -> starts (n + k) P (wbind m f).
Proof.
  intros Hm Hf w. destruct (Hm w) as (l & evs & H1 & H2 & H3 & H4). unfold wbind.
  destruct (m w) as [[a|c| |] w1]; cbn [snd] in *; try by (exists l, evs; split_and!; [|lia| |]).
  destruct (Hf a w1) as (l' & evs' & H1' & H2' & H3' & H4'). exists (l ++ l'), (evs ++ evs').
  rewrite H1', H4', H1, H4, !app_assoc, length_app. split_and!; [done|lia|by apply Forall_app|done].
Qed.

Lemma starts_keeps n P {A} (m : W A) : keeps_dev m -> starts n P m.
Proof. intros Hm w. exists [], []. rewrite Hm, !app_nil_r. split_and!; [done|cbn; lia|constructor|done]. Qed.

Lemma starts_bind0 P n {A B} (m : W A) (f : A -> W B) : starts 0 P m -> (forall a, starts n P (f a)) -> starts n P (wbind m f).
Proof. apply (starts_bind 0). Qed.

Lemma starts_within n P {A} (m : Run.W tree dev A) : starts n P (within m).
Proof.
  intros w. unfold within. destruct (m _) as [o v]. exists [], []. cbn. rewrite !app_nil_r. split_and!; [done|lia|constructor|done].
Qed.

Lemma starts_show P evs : starts 0 P (show evs).
Proof. intros w. by exists [], evs; cbn; rewrite app_nil_r. Qed.

Lemma starts_set P f : (forall h, h_runs (f h) = h_runs h /\ h_ui (f h) = h_ui h) -> starts 0 P (let! h := get_dev in set_dev (f h)).
Proof. intros Hf w. exists [], []. cbn. destruct (Hf (w_dev w)) as [-> ->]. by rewrite !app_nil_r. Qed.

Lemma starts_note (P : run -> Prop) r : P r -> starts 1 P (note_run r).
Proof. intros Hr w. exists [r], []. cbn. rewrite app_nil_r. split_and!; [done|done|by constructor|done]. Qed.

End Starts.

Ltac starts_tac :=
  repeat first
    [ progress cbv zeta
    | solve [apply starts_keeps; keeps_tac]
    | match goal with
      | |- starts _ _ (within _) => apply starts_within
      | |- starts 0 _ (show _) => apply starts_show
      | |- starts 0 _ (wbind get_dev (fun h => set_dev _)) => apply starts_set; intros ?; split; reflexivity
      | |- starts 1 _ (wbind (note_run _) _) => apply (starts_bind 1 0); [by apply starts_note|intros ?]
      | |- starts _ _ (wbind _ _) => apply starts_bind0; [|intros ?]
      end
    | match goal with |- context [match ?x with _ => _ end] => destruct x end ].

(** ** The signature check *)

Section Verified.
  Context {D : MtdDriver} {R : Roots dev} {C : Mincrypt} {SI : SafeIop} {I : Inflater}.
  Context (malloc_ok calloc_ok : Z -> bool) (addr je jh jc : Z) (fuel : nat) (api : list Z).
  Context (child : list Z -> list (list Z) -> list (list Z * list Z) -> Run.W tree dev (list Z * Z)).
  Abbreviation W := (Run.W tree (host (D := D))).

(** An archive that a key of the device signed: [fs] is what the disk held. *)
Definition authentic (fs : tree) (data : list Z) : Prop := bytes data ->
  exists keys key body eocd, load_keys je jh (text <$> file_at fs PUBLIC_KEYS_FILE) = Done (Some keys) /\
    key ∈ keys /\ signed_at data key body eocd.

Lemma starts_set_legacy_props P : starts 0 P set_legacy_props.
Proof.
  unfold set_legacy_props, setenv, set_initd, set_modified. starts_tac.
Qed.

Lemma starts_unset_legacy_props P : starts 0 P unset_legacy_props.
Proof. unfold unset_legacy_props, set_modified. starts_tac. Qed.

Lemma keeps_scan n : forall f c m, keeps_dev (Dev := host) (scan_updater n f c m).
Proof. induction n as [|n IH]; intros f c m; cbn [scan_updater]; keeps_tac. Qed.

Lemma starts_firmware P type filename zip data :
  starts 0 P (handle_firmware_update malloc_ok calloc_ok fuel type filename zip data).
Proof. unfold handle_firmware_update, set_firmware. starts_tac. Qed.

Lemma starts_run path data : starts 1 (fun r => run_archive r = data) (run_update_binary api child path data).
Proof.
  unfold run_update_binary. starts_tac.
Qed.

Lemma starts_start path zip data :
  starts 1 (fun r => run_archive r = data) (start_update_binary malloc_ok calloc_ok jc fuel api child path zip data).
Proof.
  unfold start_update_binary. apply starts_bind0; [starts_tac|]. intros [f|e]; [|starts_tac].
  apply starts_bind0; [apply starts_keeps, keeps_scan|]. intros m.
  apply starts_bind0; [destruct (_ && _); [apply starts_set_legacy_props|starts_tac]|]. intros _.
  apply (starts_bind 1 0); [apply starts_run|]. intros [out status].
  apply starts_bind0; [starts_tac|]. intros [evs fw]. apply starts_bind0; [apply starts_show|]. intros _.
  apply starts_bind0; [starts_tac|]. intros h.
  apply starts_bind0; [destruct (legacy_props_path_modified h); [apply starts_unset_legacy_props|starts_tac]|]. intros _.
  destruct (_ || _); [starts_tac|]. destruct fw as [[type filename]|]; [apply starts_firmware|starts_tac].
Qed.

Lemma starts_update_binary path zip data :
  starts 1 (fun r => run_archive r = data) (try_update_binary malloc_ok calloc_ok jc fuel api child path zip data).
Proof.
  unfold try_update_binary. apply starts_bind0; [starts_tac|]. intros [e|]; [|starts_tac].
  do 2 (apply starts_bind0; [starts_tac|intros ?]). destruct a0 as [p|]; [|starts_tac].
  do 2 (apply starts_bind0; [starts_tac|intros ?]). destruct (negb _); [starts_tac|apply starts_start].
Qed.

(** The verifier's answer is about the file of the tree, which it leaves. *)
Lemma verify_package_sound path keys (w w1 : Run.world tree host) r :
  verify_package malloc_ok path keys w = (Done r, w1) ->
  w_fs w1 = w_fs w /\ w_dev w1 = w_dev w /\
  (r = VERIFY_SUCCESS -> exists data, file_at (w_fs w) path = Some data /\
     (bytes data -> exists key body eocd, key ∈ keys /\ signed_at data key body eocd)).
Proof.
  unfold verify_package. set (files := match file_at _ _ with Some d => _ | None => _ end).
  destruct (verify_file _ _ _ _) as [o v] eqn:E. intros [= -> <-]. split_and!; [done|done|]. intros ->.
  destruct (file_at (w_fs w) path) as [data|] eqn:Ef.
  - exists data. split; [done|]. intros Hb.
    destruct (verify_file_sound malloc_ok "" keys (mkWorld files tt (w_answers w) (w_asked w) []) ) with
      (a := VERIFY_SUCCESS) (w' := v) as (f & key & body & eocd & Hf & Hin & Hs); [|done|done|].
    { intros f. cbn [w_fs]. unfold files. rewrite lookup_singleton_eq. by intros [= <-]. }
    cbn [w_fs] in Hf. unfold files in Hf. rewrite lookup_singleton_eq in Hf. injection Hf as <-. by exists key, body, eocd.
  - exfalso. destruct (verify_file_sound malloc_ok "" keys (mkWorld files tt (w_answers w) (w_asked w) []) ) with
      (a := VERIFY_SUCCESS) (w' := v) as (f & key & body & eocd & Hf & _); [|done|done|].
    all: intros *; unfold files in *; cbn [w_fs] in *; by rewrite lookup_empty in *.
Qed.

(** The check passes only signed packages, or with the user's consent. *)
Lemma check_package_sound path (w : Run.world tree host) :
  post (check_package malloc_ok je jh true path) w (fun ok w1 =>
    w_fs w1 = w_fs w /\ exists evs, h_runs (w_dev w1) = h_runs (w_dev w) /\ h_ui (w_dev w1) = h_ui (w_dev w) ++ evs /\
    (ok = true -> UConfirm true ∈ evs \/ forall data, file_at (w_fs w) path = Some data -> authentic (w_fs w) data)).
Proof.
  unfold check_package, load_public_keys. cbn [negb].
  intros ok w1 (keys & w2 & (a & w3 & [= <- <-] & (fs & w4 & [= <- <-] & [= Ek <-])%wbind_done)%wbind_done & H)%wbind_done.
  destruct keys as [keys|]; [|injection H as <- <-; split; [done|]; exists []; by rewrite app_nil_r].
  apply wbind_done in H as (err & w5 & (Hf & Hd & Hok)%verify_package_sound & H). cbn [w_fs w_dev] in *.
  destruct (Z.eqb_spec err VERIFY_SUCCESS) as [->|]; cbn [negb] in H.
  - injection H as <- <-. split; [done|]. exists []. rewrite Hd, app_nil_r. split_and!; [done|done|]. intros _. right.
    intros data Hdata Hb. destruct (Hok eq_refl) as (data' & E & Hs). assert (data' = data) as -> by congruence.
    destruct (Hs Hb) as (key & body & eocd & Hin & Hs'). exists keys, key, body, eocd. split_and!; [|done|done].
    by destruct (_ <? 0) in Ek.
  - apply wbind_done in H as (a & w6 & [= <- <-] & H). apply wbind_done in H as ([] & w7 & [= <-] & [= <- <-]).
    cbn. rewrite Hf, Hd. split; [done|]. eexists. split_and!; [done|done|]. intros ->. left. by apply list_elem_of_singleton.
Qed.

Lemma open_package_same path (w w1 : Run.world tree host) err z :
  open_package calloc_ok addr path w = (Done (err, z), w1) ->
  w_fs w1 = w_fs w /\ w_dev w1 = w_dev w /\ forall zip data, z = Some (zip, data) -> file_at (w_fs w) path = Some data.
Proof.
  unfold open_package. intros (a & w2 & [= <- <-] & (m & w3 & [= <- <-] & (fs & w4 & [= <- <-] & H)%wbind_done)%wbind_done)%wbind_done.
  cbv zeta in H. apply wbind_done in H as ([err' z'] & w5 & [= _ <-] & [= -> <- <-]). split_and!; [done|done|]. cbn [w_fs].
  intros zip data. destruct z'; [|done]. destruct (file_at (w_fs w) path) as [d|]; [|done].
  destruct (_ <? 0); [done|]. destruct (_ <? 0); [done|]. by intros [= _ <-].
Qed.

(** What happens before the package is looked at: the log is opened, the path
    resolved and its volume mounted. *)
Definition prepare (path : list Z) : W (option wfile * list Z * Z) :=
  let! log := within (fopen_path_w malloc_ok false LAST_INSTALL_FILE) in
  let! log := match log with
    | None => wret None
    | Some log => let! (_, log) := fwrite path log in let! (_, log) := fwrite [NEWLINE] log in wret (Some log)
    end in
  let! path := resolve_root path in
  let! m := within (ensure_path_mounted path) in
  wret (log, path, m).

(** And what comes after it. *)
Definition install_prepared (path : list Z) (m : Z) : W Z :=
  if negb (m =? 0) then wret INSTALL_CORRUPT
  else
    let! ok := check_package malloc_ok je jh true path in
    if negb ok then wret INSTALL_CORRUPT
    else
      let! (err, zip) := open_package calloc_ok addr path in
      match zip with
      | Some (zip, data) =>
          if negb (err =? 0) then wret INSTALL_CORRUPT
          else try_update_binary malloc_ok calloc_ok jc fuel api child path zip data
      | None => wret INSTALL_CORRUPT
      end.

Definition close_log (log : option wfile) (result : Z) : W Z :=
  match log with
  | None => wret result
  | Some log =>
      let! (_, log) := fwrite [if result =? INSTALL_SUCCESS then 49 else 48] log in
      let! (_, log) := fwrite [NEWLINE] log in
      let! _ := fclose log in
      let! _ := sys_chmod LAST_INSTALL_FILE 420 in
      wret result
  end.

Abbreviation install := (install_package malloc_ok calloc_ok addr je jh jc fuel api true child).

Lemma install_split path w : install path w =
  (let! (log, path, m) := prepare path in let! result := install_prepared path m in close_log log result) w.
Proof.
  unfold install_package, really_install_package, prepare.
  rewrite !wbind_assoc. apply wbind_ext. intros log w1. rewrite !wbind_assoc. apply wbind_ext. intros log' w2.
  rewrite !wbind_assoc. apply wbind_ext. intros path' w3. rewrite !wbind_assoc. apply wbind_ext. intros m w4.
  rewrite wbind_ret. done.
Qed.

Lemma starts_prepare P path : starts 0 P (prepare path).
Proof.
  unfold prepare, resolve_root. apply starts_bind0; [starts_tac|]. intros [log|]; starts_tac.
Qed.

Lemma starts_close_log P log result : starts 0 P (close_log log result).
Proof. unfold close_log. starts_tac. Qed.

(** Whatever [install_prepared] does, what it starts was signed or confirmed. *)
Lemma install_prepared_sound path m (w : Run.world tree host) : let w' := (install_prepared path m w).2 in
  exists l evs, h_runs (w_dev w') = h_runs (w_dev w) ++ l /\ (length l <= 1)%nat /\ h_ui (w_dev w') = h_ui (w_dev w) ++ evs /\
    Forall (fun r => UConfirm true ∈ evs \/ authentic (w_fs w) (run_archive r)) l.
Proof.
  assert (forall (w' : Run.world tree host) evs, h_runs (w_dev w') = h_runs (w_dev w) -> h_ui (w_dev w') = h_ui (w_dev w) ++ evs ->
    exists l evs, h_runs (w_dev w') = h_runs (w_dev w) ++ l /\ (length l <= 1)%nat /\ h_ui (w_dev w') = h_ui (w_dev w) ++ evs /\
      Forall (fun r => UConfirm true ∈ evs \/ authentic (w_fs w) (run_archive r)) l) as Hnone.
  { intros w' evs H1 H2. exists [], evs. rewrite app_nil_r. split_and!; [done|cbn; lia|done|constructor]. }
  unfold install_prepared. destruct (negb _); [apply (Hnone _ []); cbn; by rewrite ?app_nil_r|].
  assert (starts 0 (fun _ => False) (check_package malloc_ok je jh true path)) as Hs.
  { unfold check_package, load_public_keys. cbn [negb]. starts_tac. intros w0. exists [], []. unfold verify_package.
    destruct (verify_file _ _ _ _). cbn. by rewrite !app_nil_r. }
  destruct (Hs w) as (l0 & evs0 & H1 & H2 & _ & H4). destruct l0; [|cbn in H2; lia]. rewrite app_nil_r in H1.
  match goal with |- context [wbind ?m ?k w] => destruct (wbind_cases m k w) as [(ok & w1 & Ec & ->)| ->] end; [|by apply (Hnone _ evs0)].
  rewrite Ec in H1, H4. cbn [snd] in H1, H4. apply check_package_sound in Ec as (Hf & evs & _ & H4' & Hok).
  destruct ok; cbn [negb]; [|by apply (Hnone w1 evs0)].
  assert (keeps_dev (Dev := host) (open_package calloc_ok addr path)) as Hk by (unfold open_package; keeps_tac).
  specialize (Hk w1).
  match goal with |- context [wbind ?m ?k w1] => destruct (wbind_cases m k w1) as [([err z] & w2 & Eo & ->)| ->] end;
    [|by apply (Hnone _ evs0); rewrite Hk].
  rewrite Eo in Hk. cbn [snd] in Hk. apply open_package_same in Eo as (Hf2 & _ & Hz).
  destruct z as [[zip data]|]; [|by apply (Hnone w2 evs0); rewrite Hk].
  destruct (negb _); [by apply (Hnone w2 evs0); rewrite Hk|].
  destruct (starts_update_binary path zip data w2) as (l & evs2 & R1 & R2 & R3 & R4). exists l, (evs ++ evs2).
  rewrite R1, R4, Hk, H1, H4', app_assoc. split_and!; [done|done|done|].
  eapply Forall_impl; [exact R3|]. cbn. intros r ->. destruct (Hok eq_refl) as [Hc|Ha]; [left; apply elem_of_app; by left|right].
  apply Ha. rewrite <- Hf. by eapply Hz.
Qed.

End Verified.

