(* ===== verification/InstallRuns.v ===== *)
(** * What installing a package does

    The check for old update binaries, the commands of the update binary, and
    the whole way from a signed package to its update binary and its result. *)
From stdpp Require Import pretty.
From S2P Require Import Prelude.
From S2P Require Import Cstring.
From S2P Require Import Cbuf.
From S2P Require Import HashTable.
From S2P Require Import World.
From S2P Require Import Verifier.
From S2P Require Import Zip.
From S2P Require Import ZipRoundtrip.
From S2P Require Import ZipExtract.
From S2P Require Import Posix.
From S2P Require Import PosixFacts.
From S2P Require Import Stdio.
From S2P Require Import DirUtil.
From S2P Require Import ZipTree.
From S2P Require Import ZipTreeFacts.
From S2P Require Import Mtdutils.
From S2P Require Import Bootloader.
From S2P Require Import Recovery.
From S2P Require Import Install.
From S2P Require Import InstallFacts.
Local Open Scope Z_scope.
Local Open Scope list_scope.

(** ** The search for "set_perm_" and "set_metadata_" *)

(** The loop body over some bytes. *)
Fixpoint scan_bytes (data : list Z) (m : matcher) : option matcher :=
  match data with
  | [] => Some m
  | c :: data => m ← match_byte c m; scan_bytes data m
  end.

Definition matcher_ok (m : matcher) : Prop := 0 <= m_pos m <= 12.

(** The position stays in the longer word. *)
Lemma match_byte_ok c m : matcher_ok m -> exists m', match_byte c m = Some m' /\ matcher_ok m' /\
  (foundsetperm m = true -> foundsetperm m' = true) /\ (foundsetmeta m = true -> foundsetmeta m' = true).
Proof.
  unfold matcher_ok, match_byte. intros Hm. destruct m as [pos fp fm]. cbn [m_pos foundsetperm foundsetmeta] in *.
  destruct (negb fp && (pos <? 9) && _) eqn:E.
  - bool_to_prop. destruct (Z.eqb_spec (pos + 1) 9); eexists; (split; [reflexivity|cbn; split_and!; [lia|lia|done|done]]).
  - assert (exists x, buf_get setmetamatch pos = Some x) as [x Hx].
    { assert (is_Some (setmetamatch !! Z.to_nat pos)) as [x Hx] by (apply lookup_lt_is_Some; cbn; lia).
      exists x. unfold buf_get. by rewrite (proj2 (Z.leb_le 0 pos)) by lia. }
    rewrite Hx. destruct fm; cbn [mbind option_bind].
    + eexists. split; [reflexivity|]. cbn. split_and!; [lia|lia|done|done].
    + destruct (c =? x); [destruct (Z.eqb_spec (pos + 1) 13)|];
        eexists; (split; [reflexivity|cbn; split_and!; [lia|lia|done|done]]).
Qed.

Lemma scan_bytes_ok data : forall m, matcher_ok m -> exists m', scan_bytes data m = Some m' /\ matcher_ok m' /\
  (foundsetperm m = true -> foundsetperm m' = true) /\ (foundsetmeta m = true -> foundsetmeta m' = true).
Proof.
  induction data as [|c data IH]; intros m Hm; cbn [scan_bytes]; [by exists m|].
  destruct (match_byte_ok c m Hm) as (m1 & -> & H1 & P1 & M1). cbn [mbind option_bind].
  destruct (IH m1 H1) as (m2 & -> & H2 & P2 & M2). exists m2. split_and!; auto; apply H2.
Qed.

Lemma scan_bytes_app a b m : scan_bytes (a ++ b) m = (m ← scan_bytes a m; scan_bytes b m).
Proof.
  revert m. induction a as [|c a IH]; intros m; [done|]. cbn [app scan_bytes]. destruct (match_byte c m) as [m1|]; [|done].
  apply IH.
Qed.

(** A zero byte, as there is in front of every string in a program, starts over. *)
Lemma match_byte_nul m : matcher_ok m -> match_byte 0 m = Some (mkMatcher 0 (foundsetperm m) (foundsetmeta m)).
Proof.
  destruct m as [pos fp fm]. unfold matcher_ok, match_byte. cbn [m_pos foundsetperm foundsetmeta]. intros Hm.
  assert (pos = 0 \/ pos = 1 \/ pos = 2 \/ pos = 3 \/ pos = 4 \/ pos = 5 \/ pos = 6 \/ pos = 7 \/ pos = 8 \/
    pos = 9 \/ pos = 10 \/ pos = 11 \/ pos = 12) as H by lia.
  repeat destruct H as [-> | H]; [..|subst pos]; by destruct fp, fm.
Qed.

(** The words are found behind a zero byte. *)
Lemma scan_finds a b m : matcher_ok m ->
  (exists m', scan_bytes (a ++ 0 :: setpermmatch ++ b) m = Some m' /\ foundsetperm m' = true) /\
  (exists m', scan_bytes (a ++ 0 :: setmetamatch ++ b) m = Some m' /\ foundsetmeta m' = true).
Proof.
  intros Hm. rewrite !scan_bytes_app. destruct (scan_bytes_ok a m Hm) as (m1 & -> & H1 & _). cbn [mbind option_bind].
  change (0 :: setpermmatch ++ b) with ([0] ++ (setpermmatch ++ b)). change (0 :: setmetamatch ++ b) with ([0] ++ (setmetamatch ++ b)).
  rewrite !scan_bytes_app. cbn [scan_bytes]. rewrite match_byte_nul by done. cbn [mbind option_bind]. rewrite !scan_bytes_app.
  destruct m1 as [pos fp fm]. cbn [foundsetperm foundsetmeta]. split.
  - assert (exists m2, scan_bytes setpermmatch (mkMatcher 0 fp fm) = Some m2 /\ foundsetperm m2 = true /\ matcher_ok m2) as (m2 & -> & F & O)
      by (destruct fp, fm; eexists; (split; [vm_compute; reflexivity|split; [done|unfold matcher_ok; cbn; lia]])).
    cbn [mbind option_bind]. destruct (scan_bytes_ok b m2 O) as (m3 & -> & _ & P & _). eauto.
  - assert (exists m2, scan_bytes setmetamatch (mkMatcher 0 fp fm) = Some m2 /\ foundsetmeta m2 = true /\ matcher_ok m2) as (m2 & -> & F & O)
      by (destruct fp, fm; eexists; (split; [vm_compute; reflexivity|split; [done|unfold matcher_ok; cbn; lia]])).
    cbn [mbind option_bind]. destruct (scan_bytes_ok b m2 O) as (m3 & -> & _ & _ & P). eauto.
Qed.

(** Words it misses, and one it takes for another. *)
Example scan_misses : scan_bytes (0 :: 115 :: setpermmatch) (mkMatcher 0 false false) = Some (mkMatcher 0 false false).
Proof. vm_compute. reflexivity. Qed.

Example scan_mistakes : scan_bytes (0 :: str "set_meta_") (mkMatcher 0 false false) = Some (mkMatcher 0 true false).
Proof. vm_compute. reflexivity. Qed.

(** ** Running the parts *)

Section Parts.
  Context {D : MtdDriver}.
  Abbreviation W := (Run.W tree (host (D := D))).
  Abbreviation world := (Run.world tree (host (D := D))).

(** A world further on in the same run: the disk and the devices as they were. *)
Definition later (w w' : world) : Prop :=
  w_fs w' = w_fs w /\ w_dev w' = w_dev w /\ w_answers w' = w_answers w.

Lemma later_refl w : later w w. Proof. done. Qed.
Lemma later_trans w w1 w2 : later w w1 -> later w1 w2 -> later w w2.
Proof. intros (? & ? & ?) (? & ? & ?). repeat split; congruence. Qed.

(** [fread] of a byte, when reads do not fail. *)
Lemma wp_fread1 (f : rfile) (w : world) : calm w -> 0 <= r_pos f ->
  wp (fun _ => True) (fread 1 f) w (fun r w' => later w w' /\
    r = (take 1 (unread (w_fs w) f), mkR (r_node f) (r_pos f + zlen (take 1 (unread (w_fs w) f)))) /\
    unread (w_fs w) r.2 = drop 1 (unread (w_fs w) f)).
Proof.
  intros Hc Hp. unfold fread, take_input. do 4 wp_step. cbv zeta. rewrite (proj2 (Z.ltb_ge _ 0)) by apply Hc.
  apply wp_ret. split_and!; [done|done|]. unfold unread. cbn [snd r_node r_pos w_fs asked].
  destruct (w_fs w !! r_node f) as [i|]; [|done]. rewrite drop_drop. set (d := default [] _).
  change (Z.to_nat 1) with 1%nat. rewrite length_take, length_drop.
  destruct (decide (Z.to_nat (r_pos f) < length d)%nat).
  - f_equal. lia.
  - rewrite !drop_ge by lia. done.
Qed.

(** The loop reads the file once, and looks at its last byte twice. *)
Lemma wp_scan_updater n : forall (f : rfile) c m data (w : world), calm w -> 0 <= r_pos f -> unread (w_fs w) f = data ->
  (length data < n)%nat -> matcher_ok m ->
  wp (fun _ => True) (scan_updater n f c m) w (fun m' w' => later w w' /\ scan_bytes (data ++ [default c (last data)]) m = Some m').
Proof.
  induction n as [|n IH]; intros f c m data w Hc Hp Hu Hn Hm; [lia|]. cbn [scan_updater].
  wp_step. wp_step. wp_step. eapply wp_mono; [by apply wp_fread1|done|]. intros [got f'] w1 (L & [= -> ->] & Hu'). cbn [snd] in Hu'.
  rewrite Hu in *. cbv zeta. destruct data as [|x data].
  - cbn [take last default app]. destruct (match_byte_ok c m Hm) as (m' & E & _). apply wp_bind.
    apply (wp_lift _ _ m'); [by rewrite E|]. rewrite bool_decide_true by done. apply wp_ret. split; [done|]. cbn. by rewrite E.
  - cbn [take app]. destruct (match_byte_ok x m Hm) as (m' & E & Hm' & _). apply wp_bind.
    apply (wp_lift _ _ m'); [by rewrite E|]. rewrite bool_decide_false by done. destruct L as (Lf & Ld & La).
    cbn [drop] in Hu'. rewrite take_0 in *. cbn [length] in *.
    eapply wp_mono; [apply (IH _ x m' data)|done|].
    + by eapply calm_same.
    + cbn. lia.
    + by rewrite Lf.
    + lia.
    + done.
    + cbn beta. intros r w2 [L2 Hs]. split; [by eapply later_trans|]. cbn [scan_bytes]. rewrite E. cbn [mbind option_bind].
      rewrite last_cons. by destruct (last data).
Qed.

(** [unlink] and [creat] on a plain path: a new empty file. *)
Lemma wp_new_file (s : list Z) (p : path) (c : name) mode (w : world) :
  calm w -> zlen s < PATH_MAX -> components s = p ++ [c] -> Forall good (p ++ [c]) -> dirs_to (w_fs w) p ->
  (forall i, w_fs w !! (p ++ [c]) = Some i -> is_dir i = false) ->
  wp (fun _ => True) (let! _ := sys_unlink s in sys_creat s mode) w (fun fd w' =>
    fd = inl (p ++ [c]) /\ w_dev w' = w_dev w /\ w_answers w' = w_answers w /\
    w_fs w' = <[p ++ [c] := new_inode (KFile []) mode]> (w_fs w)).
Proof.
  intros Hc Hlen Hs Hg Hd Hfile. apply wp_bind, wp_syscall; [done|].
  pose proof (resolve_plain false _ _ _ _ Hlen Hs Hg Hd) as E.
  assert (forall w1 : world, w_fs w1 = delete (p ++ [c]) (w_fs w) -> w_dev w1 = w_dev w -> w_answers w1 = w_answers w ->
    wp (fun _ => True) (sys_creat s mode) w1 (fun fd w' => fd = inl (p ++ [c]) /\ w_dev w' = w_dev w /\ w_answers w' = w_answers w /\
      w_fs w' = <[p ++ [c] := new_inode (KFile []) mode]> (w_fs w))) as Hcreat.
  { intros w1 Hf1 Hd1 Ha1. apply wp_syscall; [intros H; exfalso; apply H; by eapply calm_same|].
    assert (dirs_to (w_fs w1) p) as Hdt.
    { rewrite Hf1. intros k Hk. destruct (Hd k Hk) as (j & Hj & Dj). exists j. split; [|done]. rewrite lookup_delete_ne; [done|].
      intros Ek. apply (f_equal length) in Ek. rewrite length_app, length_take in Ek. cbn in Ek. lia. }
    pose proof (resolve_plain true _ _ _ _ Hlen Hs Hg Hdt) as E1. rewrite Hf1, lookup_delete_eq, <- Hf1 in E1. rewrite E1.
    apply wp_bind, wp_set_fs; [done|]. apply wp_ret. cbn. rewrite Hf1. split_and!; [done|done|done|]. by rewrite insert_delete_eq. }
  rewrite E. destruct (w_fs w !! (p ++ [c])) as [i|] eqn:Ei.
  - rewrite andb_false_r, Ei, (Hfile i eq_refl). apply wp_bind, wp_set_fs; [done|]. apply wp_ret. by apply Hcreat.
  - apply wp_ret, Hcreat; [|done|done]. cbn. by rewrite delete_id.
Qed.

Lemma wp_keeps {A} I (m : W A) (w : world) (Q : A -> world -> Prop) :
  keeps_dev m -> wp I m w Q -> wp I m w (fun a w' => w_dev w' = w_dev w /\ Q a w').
Proof.
  intros Hm (a & w' & l & E & L & F & H). exists a, w', l. split_and!; try done. specialize (Hm w). by rewrite E in Hm.
Qed.
End Parts.

(** ** From a signed package to its update binary *)

Lemma wbind_step {Disk Dev A B} (m : Run.W Disk Dev A) (k : A -> Run.W Disk Dev B) w a w1 :
  m w = (Done a, w1) -> wbind m k w = k a w1.
Proof. unfold wbind. by intros ->. Qed.

Section Installed.
  Context {D : MtdDriver} {R : Roots dev} {C : Mincrypt} {SI : SafeIop} {I : Inflater} {IS : InflaterSpec I}.
  Context (malloc_ok calloc_ok : Z -> bool) (addr je jh jc : Z) (fuel : nat) (api : list Z).
  Context (child : list Z -> list (list Z) -> list (list Z * list Z) -> Run.W tree dev (list Z * Z)).
  Abbreviation world := (Run.world tree (host (D := D))).

Definition BINARY_NODE : path := [str "tmp"; str "update_binary"].

(** What the check of the update binary decides. *)
Definition needs_legacy_props (content : list Z) : bool :=
  match scan_bytes (content ++ [default jc (last content)]) (mkMatcher 0 false false) with
  | Some m => foundsetperm m && negb (foundsetmeta m)
  | None => false
  end.

Definition link_at (fs : tree) (s : list Z) : bool :=
  match resolve false fs s with Found p => match fs !! p with Some i => is_link i | None => false end | _ => false end.

(** A package on a disk: signed with a key of the device, well formed, with an
    update binary for today's properties. *)
Record good_package (fs : tree) (path data content : list Z) : Prop := {
  gp_file : file_at fs path = Some data;
  gp_bytes : bytes data;
  gp_size : zlen data < 2 ^ 31;
  gp_root : forall k, link_at fs (take k path) = false;
  gp_signed : exists keys key body eocd, load_keys je jh (text <$> file_at fs PUBLIC_KEYS_FILE) = Done (Some keys) /\
    key ∈ keys /\ signed_at data key body eocd;
  gp_entry : exists zip e, mzOpenZipArchive calloc_ok (Mapped addr data) = Done (0, Some zip) /\
    mzFindZipEntry calloc_ok zip ASSUMED_UPDATE_BINARY_NAME = Done (Some e) /\ readable data fuel e content;
  gp_fuel : (length content < fuel)%nat;
  gp_modern : needs_legacy_props content = false
}.

(** Room for the update binary in /tmp. *)
Definition tmp_ready (fs : tree) : Prop :=
  dirs_to fs [str "tmp"] /\ forall i, fs !! BINARY_NODE = Some i -> is_dir i = false.

Lemma binary_components : components BINARY = [str "tmp"] ++ [str "update_binary"].
Proof. vm_compute. reflexivity. Qed.

Lemma binary_good : Forall good ([str "tmp"] ++ [str "update_binary"]).
Proof. apply (bool_decide_eq_true_1 _). vm_compute. reflexivity. Qed.

Lemma resolve_binary (fs : tree) i : dirs_to fs [str "tmp"] -> is_link i = false ->
  resolve true (<[BINARY_NODE := i]> fs) BINARY = Found BINARY_NODE.
Proof.
  intros Hd Hi. pose proof (resolve_plain true (<[BINARY_NODE := i]> fs) BINARY [str "tmp"] (str "update_binary")) as E.
  rewrite E; [|by vm_compute|apply binary_components|apply binary_good|by apply (dirs_to_insert _ [str "tmp"])].
  change ([str "tmp"] ++ [str "update_binary"]) with BINARY_NODE. rewrite lookup_insert_eq, Hi. done.
Qed.

Lemma resolve_root_plain path (w : world) : (forall k, link_at (w_fs w) (take k path) = false) ->
  exists w1, resolve_root path w = (Done path, w1) /\ later w w1.
Proof.
  intros Hp. unfold resolve_root. destruct path as [|c tail] eqn:Epath; [by exists w|]. destruct tail as [|c2 tail]; [by exists w|].
  destruct (slash_at _) as [k|]; [|by exists w]. specialize (Hp (S k)). unfold link_at in Hp.
  exists (asked w). split; [|done]. unfold sys_readlink, syscall, wbind, ask, get_fs, wret. cbn [w_fs].
  destruct (_ <? 0); [done|]. destruct (resolve false (w_fs w) _) as [p|dir c'|e]; [|done..].
  destruct (w_fs w !! p) as [[[] mode u g t]|]; done.
Qed.

(** The check lets the package pass. *)
Lemma check_passes path data content (w : world) : (forall n, malloc_ok n = true) -> calm w -> good_package (w_fs w) path data content ->
  exists w1, check_package malloc_ok je jh true path w = (Done true, w1) /\ later w w1.
Proof.
  intros Hm Hc Hg. destruct (gp_signed _ _ _ _ Hg) as (keys & key & body & eocd & Hk & Hin & Hs).
  unfold check_package, load_public_keys. cbn [negb].
  assert ((let! a := ask in let! fs := get_fs in
    wlift (load_keys je jh (if a <? 0 then None else text <$> file_at fs PUBLIC_KEYS_FILE))) w = (Done (Some keys), asked w)) as E.
  { unfold wbind, ask, get_fs, wlift. cbn [w_fs]. by rewrite (proj2 (Z.ltb_ge _ 0)), Hk by apply Hc. }
  rewrite (wbind_step _ _ _ _ _ E). clear E.
  set (files := {[ ""%string := mkFile data 0 0 0 ]} : gmap string file).
  destruct (verify_file_complete malloc_ok "" keys (mkWorld files tt (w_answers w) (w_asked (asked w)) []) (mkFile data 0 0 0) key body eocd)
    as (v & Ev & _ & _); [done|done|by apply lookup_singleton_eq|apply Hg|done|apply Hg|done|].
  assert (verify_package malloc_ok path keys (asked w) =
    (Done VERIFY_SUCCESS, mkWorld (w_fs w) (w_dev w) (w_answers w) (w_asked v) (w_log w))) as E.
  { unfold verify_package, asked. cbn [w_fs w_dev w_answers w_log w_asked]. rewrite (gp_file _ _ _ _ Hg). fold files.
    unfold asked in Ev. cbn [w_asked] in Ev. by rewrite Ev. }
  rewrite (wbind_step _ _ _ _ _ E). cbn. eexists. split; [reflexivity|done].
Qed.

Lemma open_succeeds path data zip (w : world) : calm w -> file_at (w_fs w) path = Some data ->
  mzOpenZipArchive calloc_ok (Mapped addr data) = Done (0, Some zip) ->
  exists w1, open_package calloc_ok addr path w = (Done (0, Some (zip, data)), w1) /\ later w w1.
Proof.
  intros Hc Hf Ho. exists (asked (asked w)). split; [|done].
  unfold open_package, wbind at 1 2 3, ask, get_fs. cbn [w_fs w_answers w_asked w_dev w_log]. rewrite Hf.
  rewrite !(proj2 (Z.ltb_ge _ 0)) by apply Hc. cbv zeta. unfold wbind, wlift. by rewrite Ho.
Qed.

(** Reads of the archive that do not fail. *)
Lemma fd_read_all data p n b : buf_slice data p n = Some b -> fd_read_until None data p n = (n, b).
Proof.
  unfold buf_slice, fd_read_until. destruct (_ && _) eqn:E; [|done]. intros [= <-]. bool_to_prop. f_equal.
  rewrite length_take, length_drop. lia.
Qed.

(** The update binary is put in place. *)
Lemma extract_succeeds data e content (w : world) : eager w -> tmp_ready (w_fs w) -> readable data fuel e content ->
  exists w1, (let! _ := sys_unlink BINARY in let! fd := sys_creat BINARY 493 in
    match fd with
    | inr _ => wret false
    | inl p => let! a := ask in extract_to_file (fd_read_until (read_limit a) data) fuel e p
    end) w = (Done true, w1) /\
    w_fs w1 = <[BINARY_NODE := mkInode (KFile content) 493 0 0 None]> (w_fs w) /\
    w_dev w1 = w_dev w /\ w_answers w1 = w_answers w.
Proof using IS.
  intros He [Hd Hi] Hr.
  destruct (wp_new_file BINARY [str "tmp"] (str "update_binary") 493 w) as (fd & w2 & l2 & E2 & _ & _ & -> & Hd2 & Ha2 & Hf2);
    [by apply eager_calm|by vm_compute|apply binary_components|apply binary_good|done|done|].
  rewrite <- wbind_assoc, (wbind_step _ _ _ _ _ E2). unfold wbind at 1, ask at 1.
  unfold read_limit. rewrite (proj2 (Z.ltb_ge _ 0)) by (rewrite Ha2; apply eager_calm; done).
  destruct (wp_keeps (fun _ => True) (extract_to_file (fd_read_until None data) fuel e ([str "tmp"] ++ [str "update_binary"])) (asked w2)
    (fun ok w' => ok = true /\ w_answers w' = w_answers (asked w2) /\
       w_fs w' = <[BINARY_NODE := mkInode (KFile content) 493 0 0 None]> (w_fs w))) as (ok & w3 & l3 & E3 & _ & _ & Hd3 & -> & Ha3 & Hf3).
  - apply keeps_extract.
  - apply (wp_extract_to_file data); [apply fd_read_all|eapply eager_same; [|exact He]; exact Ha2|done|done].
  - exists w3. split_and!; [exact E3|done|by rewrite Hd3|by rewrite Ha3].
Qed.

(** The world of the devices in the world of [install.c]. *)
Definition devices (w : world) : Run.world tree dev := mkWorld (w_fs w) (h_dev (w_dev w)) (w_answers w) (w_asked w) (w_log w).

Lemma start_succeeds path zip data content (w : world) : calm w -> (forall n, w_answers w n < 10 ^ 9) ->
  w_fs w = <[BINARY_NODE := mkInode (KFile content) 493 0 0 None]> (w_fs w) -> dirs_to (w_fs w) [str "tmp"] ->
  (length content < fuel)%nat -> needs_legacy_props content = false -> legacy_props_path_modified (w_dev w) = false ->
  exists (w1 : world) (fd : Z), w_fs w1 = w_fs w /\ h_dev (w_dev w1) = h_dev (w_dev w) /\
    let args := [BINARY; api; str (pretty fd); path] in
    forall out status v evs,
      child content args ((str "UPDATE_PACKAGE", path) :: h_env (w_dev w)) (devices w1) = (Done (out, status), v) ->
      do_commands (length out) out None = Done (evs, None) ->
      exists w', start_update_binary malloc_ok calloc_ok jc fuel api child path zip data w =
          (Done (if WIFEXITED status && (WEXITSTATUS status =? 0) then INSTALL_SUCCESS else INSTALL_ERROR), w') /\
        w_fs w' = w_fs v /\ h_runs (w_dev w') = h_runs (w_dev w) ++ [mkRun data content args] /\ h_ui (w_dev w') = h_ui (w_dev w) ++ evs.
Proof.
  intros Hc Hans Hf Hd Hfuel Hleg Hmod.
  assert (resolve true (w_fs w) BINARY = Found BINARY_NODE) as Hres by (rewrite Hf; by apply resolve_binary).
  assert (w_fs w !! BINARY_NODE = Some (mkInode (KFile content) 493 0 0 None)) as Hnode by (rewrite Hf; apply lookup_insert_eq).
  assert (fopen_r BINARY w = (Done (inl (mkR BINARY_NODE 0)), asked w)) as E1.
  { unfold fopen_r, syscall, wbind, ask, get_fs, wret. cbn [w_fs]. rewrite (proj2 (Z.ltb_ge _ 0)) by apply Hc. by rewrite Hres, Hnode. }
  destruct (wp_scan_updater fuel (mkR BINARY_NODE 0) jc (mkMatcher 0 false false) content (asked w)) as (m & w2 & l2 & E2 & _ & _ & L2 & Hm);
    [done|done|by unfold unread; cbn [w_fs asked r_node r_pos]; rewrite Hnode|done|unfold matcher_ok; cbn; lia|].
  unfold needs_legacy_props in Hleg. rewrite Hm in Hleg. destruct L2 as (F2 & D2 & A2). cbn [asked w_fs w_dev w_answers] in F2, D2, A2.
  set (fd := w_answers w2 (w_asked w2)).
  set (w5 := asked (asked (asked w2))).
  exists (note_run (mkRun data content [BINARY; api; str (pretty fd); path]) w5).2, fd.
  split_and!; [by cbn; rewrite F2|by cbn; rewrite D2|]. cbv zeta. intros out status v evs Hchild Hcmd.
  unfold start_update_binary. rewrite (wbind_step _ _ _ _ _ E1), (wbind_step _ _ _ _ _ E2), Hleg, wbind_ret.
  assert (exists w6, run_update_binary api child path data w2 = (Done (out, status), w6) /\ w_fs w6 = w_fs v /\
    h_runs (w_dev w6) = h_runs (w_dev w) ++ [mkRun data content [BINARY; api; str (pretty fd); path]] /\ h_ui (w_dev w6) = h_ui (w_dev w) /\
    legacy_props_path_modified (w_dev w6) = false) as (w6 & E6 & F6 & R6 & U6 & M6).
  { unfold run_update_binary. rewrite (wbind_step _ _ _ fd (asked w2)) by done.
    assert (0 <= fd < 10 ^ 9) as Hfd by (unfold fd; rewrite A2; split; [apply Hc|apply Hans]).
    rewrite (proj2 (Z.ltb_ge fd 0)), (proj2 (Z.leb_gt _ fd)) by lia. cbn [orb]. cbv zeta.
    rewrite (wbind_step _ _ _ (w_answers w2 (w_asked (asked w2))) (asked (asked w2))) by done.
    rewrite (proj2 (Z.ltb_ge _ 0)) by (rewrite A2; apply Hc).
    rewrite (wbind_step _ _ _ (w_answers w2 (w_asked (asked (asked w2)))) w5) by done.
    rewrite (wbind_step _ _ _ (w_fs w2) w5) by done. unfold file_at. rewrite F2, Hres, Hnode. cbn [mbind option_bind node_data i_kind].
    rewrite (proj2 (Z.ltb_ge _ 0)) by (rewrite A2; apply Hc).
    rewrite (wbind_step _ _ _ (w_dev w2) w5) by done.
    rewrite (wbind_step _ _ _ tt (note_run (mkRun data content [BINARY; api; str (pretty fd); path]) w5).2) by done.
    unfold within. cbn zeta. unfold devices in Hchild. rewrite D2, Hchild. eexists. split; [reflexivity|]. cbn. rewrite D2. done. }
  rewrite (wbind_step _ _ _ _ _ E6), Hcmd. unfold wlift at 1. rewrite (wbind_step _ _ _ (evs, None) w6) by done.
  rewrite (wbind_step _ _ _ tt (show evs w6).2) by done. rewrite (wbind_step _ _ _ (w_dev (show evs w6).2) (show evs w6).2) by done.
  assert (legacy_props_path_modified (w_dev (show evs w6).2) = false) as -> by done. rewrite wbind_ret.
  exists (show evs w6).2. split_and!; [by destruct (WIFEXITED status), (WEXITSTATUS status =? 0)|done|done|].
  change (h_ui (w_dev (show evs w6).2)) with (h_ui (w_dev w6) ++ evs). by rewrite U6.
Qed.
End Installed.

(** [C5] From a package that a key of the device signed, with nothing failing on
    the way, an update binary that can be read and does not use the legacy
    properties, and their path not yet replaced, [really_install_package] writes
    the update binary of the package to /tmp and runs exactly that program, with
    the API version, a descriptor and the path of the package as arguments, after
    nothing else on the disk was changed. If the commands it sent can be read and
    none of them asks for a firmware update (whose result would be that of the
    installation), they are shown, whatever the binary does, and the installation
    succeeds if and only if it exits with status 0. *)
Theorem signed_package_runs {D : MtdDriver} {R : Roots dev} {C : Mincrypt} {SI : SafeIop} {I : Inflater} {IS : InflaterSpec I}
    malloc_ok calloc_ok addr je jh jc fuel api child path data content (w : Run.world tree host)
    (Heager : eager w) (Hans : forall n, w_answers w n < 10 ^ 9) (Hmalloc : forall n, malloc_ok n = true)
    (Hmount : forall v, ensure_path_mounted path v = (Done 0, v))
    (Htmp : tmp_ready (w_fs w)) (Hmod : legacy_props_path_modified (w_dev w) = false)
    (Hgood : good_package calloc_ok addr je jh jc fuel (w_fs w) path data content) :
  exists (w1 : Run.world tree host) (fd : Z), let args := [BINARY; api; str (pretty fd); path] in
    w_fs w1 = <[BINARY_NODE := mkInode (KFile content) 493 0 0 None]> (w_fs w) /\ h_dev (w_dev w1) = h_dev (w_dev w) /\
    forall out status v evs,
      child content args ((str "UPDATE_PACKAGE", path) :: h_env (w_dev w)) (devices w1) = (Done (out, status), v) ->
      do_commands (length out) out None = Done (evs, None) ->
      exists w', really_install_package malloc_ok calloc_ok addr je jh jc fuel api true child path w =
          (Done (if WIFEXITED status && (WEXITSTATUS status =? 0) then INSTALL_SUCCESS else INSTALL_ERROR), w') /\
        w_fs w' = w_fs v /\ h_runs (w_dev w') = h_runs (w_dev w) ++ [mkRun data content args] /\ h_ui (w_dev w') = h_ui (w_dev w) ++ evs.
Proof.
  destruct (resolve_root_plain path w) as (w1 & E1 & F1 & D1 & A1); [apply Hgood|].
  assert (exists w2, within (ensure_path_mounted path) w1 = (Done 0, w2) /\ later w1 w2) as (w2 & E2 & F2 & D2 & A2).
  { unfold within. rewrite Hmount. eexists. split; [reflexivity|]. repeat split. by destruct (w_dev w1). }
  destruct (check_passes malloc_ok calloc_ok addr je jh jc fuel path data content w2) as (w3 & E3 & F3 & D3 & A3);
    [done|apply eager_calm; eapply eager_same; [|exact Heager]; congruence|by rewrite F2, F1|].
  destruct (gp_entry _ _ _ _ _ _ _ _ _ _ Hgood) as (zip & e & Ho & Hfind & Hr).
  destruct (open_succeeds calloc_ok addr path data zip w3) as (w4 & E4 & F4 & D4 & A4);
    [apply eager_calm; eapply eager_same; [|exact Heager]; congruence|rewrite F3, F2, F1; apply Hgood|done|].
  destruct (extract_succeeds fuel data e content w4) as (w5 & E5 & F5 & D5 & A5);
    [eapply eager_same; [|exact Heager]; congruence|by rewrite F4, F3, F2, F1|done|].
  assert (eager w5) as He5 by (eapply eager_same; [|exact Heager]; congruence).
  assert (w_fs w4 = w_fs w) as F by congruence. assert (w_dev w5 = w_dev w) as Dw by congruence. rewrite F in F5.
  destruct (start_succeeds malloc_ok calloc_ok jc fuel api child path zip data content w5) as (w6 & fd & F6 & D6 & Hrun).
  - by apply eager_calm.
  - intros n. replace (w_answers w5) with (w_answers w) by congruence. apply Hans.
  - by rewrite F5, insert_insert_eq.
  - rewrite F5. apply (dirs_to_insert _ [str "tmp"]), Htmp.
  - apply Hgood.
  - apply Hgood.
  - by rewrite Dw.
  - exists w6, fd. cbv zeta in *. rewrite Dw in *. split_and!; [by rewrite F6|by rewrite D6|]. intros out status v evs Hchild Hcmd.
    destruct (Hrun out status v evs Hchild Hcmd) as (w' & E' & F' & R' & U'). exists w'. split_and!; [|done|done|done].
    unfold really_install_package. rewrite (wbind_step _ _ _ _ _ E1), (wbind_step _ _ _ _ _ E2). cbn [Z.eqb negb].
    rewrite (wbind_step _ _ _ _ _ E3). cbn [negb]. rewrite (wbind_step _ _ _ _ _ E4). cbn [Z.eqb negb].
    unfold try_update_binary. rewrite Hfind. unfold wlift at 1. rewrite (wbind_step _ _ _ (Some e) w4) by done. clear Hchild.
    apply wbind_done in E5 as (r & v1 & Eu & E5). rewrite (wbind_step _ _ _ _ _ Eu).
    apply wbind_done in E5 as (fd' & v2 & Ec & E5). rewrite (wbind_step _ _ _ _ _ Ec).
    destruct fd' as [p|]; [|done]. apply wbind_done in E5 as (a & v3 & Ea & E5). rewrite (wbind_step _ _ _ _ _ Ea).
    rewrite (wbind_step _ _ _ _ _ E5). exact E'.
Qed.

(** ** A sample package *)

Definition sample_program : list Z := [127; 69; 76; 70; 0] ++ str "set_metadata_recursive" ++ [0].

Definition sample_file : zfile :=
  mkZfile ASSUMED_UPDATE_BINARY_NAME sample_program (zlen sample_program) STORED 1 2 (768 + 20) 3
    (replicate 22 9) [] (replicate 4 9) (replicate 4 9) [] [].

Definition sample_zip : list Z := zip_bytes [sample_file] (206 :: replicate 255 0 ++ [6; 1; 255; 255; 6; 1]).

Definition sample_tree : tree :=
  <[[] := new_inode KDir 493]> (<[[str "tmp"] := new_inode KDir 493]> (<[[str "res"] := new_inode KDir 493]> (
  <[[str "sdcard"] := new_inode KDir 493]> (<[[str "sdcard"; str "update.zip"] := new_inode (KFile sample_zip) 420]> (
  <[[str "res"; str "keys"] := new_inode (KFile (str (dump_file (toy_dump 1) []))) 420]> ∅))))).

Definition sample_commands : list Z := str "ui_print Installing" ++ [10] ++ str "progress 0.5 10" ++ [10].

Definition sample_driver : MtdDriver := nand_driver 2048 (fun _ => false).

Definition sample_roots : Roots (dev (MtdDriver := sample_driver)) := {|
  volume_for_path _ := None; ensure_path_mounted _ := wret 0; ensure_path_unmounted _ := wret 0; format_volume _ := wret 0
|}.

Definition sample_host : host (D := sample_driver) := mkHost (D := sample_driver) ∅ no_firmware [] false false [] [].

Definition sample_world : Run.world tree (host (D := sample_driver)) := mkWorld sample_tree sample_host (fun _ => 5) 0 [].

Definition sample_child (program : list Z) (args : list (list Z)) (env : list (list Z * list Z))
  : Run.W tree (dev (MtdDriver := sample_driver)) (list Z * Z) := wret (sample_commands, 0).

Definition sample_path : list Z := str "/sdcard/update.zip".

Lemma sample_signed : exists keys key body eocd,
  load_keys 0 0 (text <$> file_at sample_tree PUBLIC_KEYS_FILE) = Done (Some keys) /\ key ∈ keys /\
  signed_at (C := toy_crypt) sample_zip key body eocd.
Proof.
  set (w := mkWorld {[ ""%string := mkFile sample_zip 0 0 0 ]} tt (fun _ => 0) 0 [] : World.world unit).
  destruct (verify_file_sound (C := toy_crypt) (fun _ => true) "" [dump_cert (toy_dump 1)] w) with
    (a := VERIFY_SUCCESS) (w' := (verify_file (C := toy_crypt) (fun _ => true) "" [dump_cert (toy_dump 1)] w).2)
    as (f & key & body & eocd & Hf & Hin & Hs).
  - intros f [= <-]. cbn [f_data]. apply (bool_decide_eq_true_1 _). vm_compute. reflexivity.
  - vm_compute. reflexivity.
  - done.
  - exists [dump_cert (toy_dump 1)], key, body, eocd. split_and!; [vm_compute; reflexivity|done|].
    assert (f_data f = sample_zip) as <- by (injection Hf as <-; done). done.
Qed.

Lemma sample_entry : exists zip e, mzOpenZipArchive (fun _ => true) (Mapped 4096 sample_zip) = Done (0, Some zip) /\
  mzFindZipEntry (fun _ => true) zip ASSUMED_UPDATE_BINARY_NAME = Done (Some e) /\ readable sample_zip 200 e sample_program.
Proof.
  eexists _, _. split_and!; [vm_compute; reflexivity|vm_compute; reflexivity|].
  exists sample_program. split_and!; [|by_decide|by_decide|cbn; lia]. split; [vm_compute; reflexivity|left; split; reflexivity].
Qed.

Lemma sample_root k : link_at sample_tree (take k sample_path) = false.
Proof.
  assert (forallb (fun k => negb (link_at sample_tree (take k sample_path))) (seq 0 19) = true) as H by (vm_compute; reflexivity).
  rewrite forallb_forall in H. destruct (decide (k < 19)%nat).
  - apply negb_true_iff, H, in_seq. lia.
  - rewrite take_ge by (cbn; lia). by vm_compute.
Qed.

Lemma sample_good : good_package (C := toy_crypt) (fun _ => true) 4096 0 0 0 200 sample_tree sample_path sample_zip sample_program.
Proof.
  split; [vm_compute; reflexivity| |by_decide|apply sample_root|apply sample_signed|apply sample_entry|cbn; lia|vm_compute; reflexivity].
  apply (bool_decide_eq_true_1 _). vm_compute. reflexivity.
Qed.

Lemma sample_tmp : tmp_ready sample_tree.
Proof.
  split.
  - intros k Hk. cbn in Hk. destruct k as [|[|k]]; [| |lia]; (eexists; split; [vm_compute; reflexivity|done]).
  - intros i. vm_compute. done.
Qed.

Lemma signed_package_runs_witness : exists fd w', let args := [BINARY; str "3"; str (pretty (fd : Z)); sample_path] in
  really_install_package (D := sample_driver) (R := sample_roots) (C := toy_crypt) (fun _ => true) (fun _ => true) 4096 0 0 0 200
    (str "3") true sample_child sample_path sample_world = (Done INSTALL_SUCCESS, w') /\
  h_runs (w_dev w') = [mkRun sample_zip sample_program args] /\ h_ui (w_dev w') = [UPrint (str "Installing"); UShowProgress (str "0.5") 10].
Proof.
  destruct (signed_package_runs (D := sample_driver) (R := sample_roots) (C := toy_crypt) (fun _ => true) (fun _ => true) 4096 0 0 0 200
    (str "3") sample_child sample_path sample_zip sample_program sample_world) as (w1 & fd & _ & _ & H).
  - intros n. done.
  - intros n. done.
  - done.
  - done.
  - exact sample_tmp.
  - done.
  - exact sample_good.
  - destruct (H sample_commands 0 (devices w1) [UPrint (str "Installing"); UShowProgress (str "0.5") 10]) as (w' & E & _ & Hr & Hu);
      [reflexivity|vm_compute; reflexivity|].
    exists fd, w'. split_and!; [exact E|exact Hr|exact Hu].
Defined.

(** ** The log of the installation *)

(** Installing the sample package leaves its path and "1" in last_install; the
    next copying of the logs makes it empty, for it copies a file over it that
    nobody writes. *)
Theorem last_install_is_lost :
  let '(o, w1) := install_package (D := sample_driver) (R := sample_roots) (C := toy_crypt) (fun _ => true) (fun _ => true) 4096 0 0 0 200
    (str "3") true sample_child sample_path sample_world in
  let '(_, w2) := copy_logs (R := sample_roots) (fun _ => true) 0 (devices w1) in
  o = Done INSTALL_SUCCESS /\ file_at (w_fs w1) LAST_INSTALL_FILE = Some (sample_path ++ [10; 49; 10]) /\
  file_at (w_fs w2) LAST_INSTALL_FILE = Some [].
Proof. vm_compute. done. Qed.
