(* ===== verification/Updater.v ===== *)
(** * The functions of update scripts ([updater/install.c])

    What edify scripts call.  The functions act on the disk, on the mounts and on
    the pipe to recovery, all of which are in the cookie.  Security labels are
    left out, and so is what goes to stderr. *)
From stdpp Require Import pretty.
From Stdlib Require Import Ascii.
From S2P Require Import Prelude.
From S2P Require Import Cstring.
From S2P Require Import Cbuf.
From S2P Require Import Scanf.
From S2P Require Import HashTable.
From S2P Require Import Zip.
From S2P Require Import ZipExtract.
From S2P Require Import Posix.
From S2P Require Import Stdio.
From S2P Require Import DirUtil.
From S2P Require Import ZipTree.
From S2P Require Import Bootloader.
From S2P Require Import Calls.
From S2P Require Import Mounts.
From S2P Require Import Roots.
From S2P Require Import Formats.
From S2P Require Import Edify.
From S2P Require Import Install.
Local Open Scope string_scope.
Local Open Scope Z_scope.

Notation "'do!' x := m 'in' k" := (bind m (fun x => k)) (at level 10, x pattern, m at level 100, k at level 200).

(** The number an [int] prints as. *)
Abbreviation number n := (pretty (n : Z)).

Definition argc {A} (argv : list A) : Z := zlen argv.

(** The value and the rest of a numeral with base 0: hexadecimal after 0x, octal
    after 0, else decimal; [None] without a digit. *)
Definition read_base0 (t : string) : option (Z * string) :=
  if negb (bool_decide (skip_0x t = t)) then let '(v, _, rest) := read_hex (skip_0x t) 0 false in Some (v, rest)
  else match t with
  | String c t' =>
      if Ascii.eqb c "0" then Some (read_octal t' 0)
      else let '(v, any, rest) := read_digits t 0 false in if any : bool then Some (v, rest) else None
  | "" => None
  end.

(** [int v = strtoul(s, &end, 0)] when all of [s] is a number. *)
Definition whole_int (s : string) : option Z :=
  let '(neg, t) := scan_sign (skip_spaces s) in
  match read_base0 t with
  | Some (v, "") => Some (swrap 32 (if 2 ^ 32 <=? v then 2 ^ 32 - 1 else if neg : bool then - v else v))
  | _ => None
  end.

(** What fits into a [long long]. *)
Definition clamp64 (v : Z) : Z := Z.max (- 2 ^ 63) (Z.min (2 ^ 63 - 1) v).

(** [atoll]. *)
Definition atoll (s : string) : Z :=
  let '(neg, t) := scan_sign (skip_spaces s) in
  let '(v, _, _) := read_digits t 0 false in
  clamp64 (if neg : bool then - v else v).

(** ** Permissions ([ParsePermArgs]) *)

Record perm_parsed_args := mkPerms {
  p_uid : option Z;
  p_gid : option Z;
  p_mode : option Z;
  p_fmode : option Z;
  p_dmode : option Z;
  p_selabel : option string;
  p_capabilities : option Z
}.

Definition no_perms : perm_parsed_args := mkPerms None None None None None None None.

(** [%lld] and [%lli]. *)
Definition scan_d64 (s : string) : option Z :=
  let '(neg, t) := scan_sign (skip_spaces s) in
  let '(v, any, _) := read_digits t 0 false in
  if any : bool then Some (clamp64 (if neg : bool then - v else v)) else None.

Definition scan_i64 (s : string) : option Z :=
  let '(neg, t) := scan_sign (skip_spaces s) in
  '(v, _) ← read_base0 t; Some (clamp64 (if neg : bool then - v else v)).

(** One key and its value; a value that is not a number leaves the field. *)
Definition parse_perm (key value : string) (p : perm_parsed_args) : perm_parsed_args :=
  let keep {A} (new old : option A) := match new with Some _ => new | None => old end in
  if String.eqb key "uid" then
    mkPerms (keep (wrap 32 <$> scan_d64 value) (p_uid p)) (p_gid p) (p_mode p) (p_fmode p) (p_dmode p) (p_selabel p) (p_capabilities p)
  else if String.eqb key "gid" then
    mkPerms (p_uid p) (keep (wrap 32 <$> scan_d64 value) (p_gid p)) (p_mode p) (p_fmode p) (p_dmode p) (p_selabel p) (p_capabilities p)
  else if String.eqb key "mode" then
    mkPerms (p_uid p) (p_gid p) (keep ((fun r => wrap 32 r.1) <$> scan_i value) (p_mode p)) (p_fmode p) (p_dmode p) (p_selabel p) (p_capabilities p)
  else if String.eqb key "dmode" then
    mkPerms (p_uid p) (p_gid p) (p_mode p) (p_fmode p) (keep ((fun r => wrap 32 r.1) <$> scan_i value) (p_dmode p)) (p_selabel p) (p_capabilities p)
  else if String.eqb key "fmode" then
    mkPerms (p_uid p) (p_gid p) (p_mode p) (keep ((fun r => wrap 32 r.1) <$> scan_i value) (p_fmode p)) (p_dmode p) (p_selabel p) (p_capabilities p)
  else if String.eqb key "capabilities" then
    mkPerms (p_uid p) (p_gid p) (p_mode p) (p_fmode p) (p_dmode p) (p_selabel p) (keep (wrap 64 <$> scan_i64 value) (p_capabilities p))
  else if String.eqb key "selabel" then
    mkPerms (p_uid p) (p_gid p) (p_mode p) (p_fmode p) (p_dmode p) (if bool_decide (value = "") then p_selabel p else Some value) (p_capabilities p)
  else p.

(** The arguments behind the file name; a key without a value is read past the
    end of [args]. *)
Fixpoint ParsePermArgs (args : list string) (p : perm_parsed_args) : option perm_parsed_args :=
  match args with
  | [] => Some p
  | [_] => None
  | key :: value :: args => ParsePermArgs args (parse_perm key value p)
  end.

(** ** Property files ([file_getprop]) *)

Definition space (c : Z) : bool := (c =? 32) || ((9 <=? c) && (c <=? 13)).

(** White space at the end is cut off, but not the first character. *)
Definition trim_end (s : list Z) : list Z :=
  match s with
  | [] => []
  | c :: s => c :: rev (skip_while space (rev s)).2
  end.

(** What is before and after the first '='. *)
Definition split_equal (line : list Z) : option (list Z * list Z) :=
  match skip_while (fun c => negb (c =? 61)) line with
  | (key, _ :: value) => Some (key, value)
  | _ => None
  end.

Inductive prop_line := PSkip | PMalformed (line : list Z) | PValue (value : list Z).

(** A line of the file, for [key]. *)
Definition prop_of_line (key line : list Z) : prop_line :=
  let line := (skip_while space line).2 in
  match line with
  | [] => PSkip
  | c :: _ =>
      if c =? 35 then PSkip
      else match split_equal line with
      | None => PMalformed line
      | Some (k, v) =>
          if bool_decide (key = trim_end k) then PValue (trim_end (skip_while space v).2) else PSkip
      end
  end.

(** The loop over the lines of the buffer; [None] reads the null pointer that
    [strtok] returns when there is no line at all. *)
Fixpoint prop_lines (n : nat) (key buffer : list Z) : outcome prop_line :=
  match n with
  | O => Diverge
  | S n =>
      '(line, _, buffer) ← access (strtok_r [10] buffer);
      match line with
      | None => Done PSkip
      | Some line => match prop_of_line key line with PSkip => prop_lines n key buffer | r => Done r end
      end
  end.

Definition find_prop (key data : list Z) : outcome prop_line :=
  '(line, _, buffer) ← access (strtok_r [10] (data ++ [0]));
  match line with
  | None => Undef
  | Some line => match prop_of_line key line with PSkip => prop_lines (S (length data)) key buffer | r => Done r end
  end.

(** ** Digests *)

(** [alphabet[d]]. *)
Definition hex_digit (d : Z) : ascii := Ascii.ascii_of_N (Z.to_N (if d <? 10 then 48 + d else 87 + d)).

Fixpoint PrintSha1 (digest : list Z) : string :=
  match digest with
  | [] => ""
  | b :: digest => String (hex_digit ((b >>> 4) .& 15)) (String (hex_digit (b .& 15)) (PrintSha1 digest))
  end.

(** ** State *)

Section Updater.
  Context {Dev : Type} {I : Inflater} `{FM : FsMgr} `{VC : VoldCodes} `{DO : DirOrder}.
  Context (malloc_ok calloc_ok : Z -> bool) (fuel : nat).
  (** The kernel and the tools; the text of an error; USE_EXT4; BOARD_BML_BOOT. *)
  Context (kernel : forall c : call, Run.W tree Dev (answer c)) (strerror : Z -> string) (use_ext4 : bool) (BOARD_BML_BOOT : list Z).
  (** The package: the archive and its bytes. *)
  Context (package_zip : ZipArchive) (package_data : list Z).
  (** "%f" of what [strtod] reads; [property_get]; running a program: its wait
      status; SHA-1 and [ParseSha1]. *)
  Context (print_frac : string -> list Z) (property_get : string -> string).
  Context (run_program : list string -> Run.W tree Dev Z).
  Context (SHA_hash : list Z -> list Z) (ParseSha1 : string -> option (list Z)).
  (** [applypatch.c]: [applypatch], [applypatch_check], [CacheSizeCheck] and the
      data of [LoadFileContents]. *)
  Context (applypatch : string -> string -> string -> Z -> list string -> list Value -> Run.W tree Dev Z).
  Context (applypatch_check : string -> list string -> Run.W tree Dev Z) (CacheSizeCheck : Z -> Run.W tree Dev Z).
  Context (LoadFileContents : string -> Run.W tree Dev (list Z + Z)).

(** [UpdaterInfo] with the world around it, what was written to [cmd_pipe], and
    the table of files not to be patched. *)
Record UpdaterInfo := mkInfo {
  u_world : Run.world tree Dev;
  u_globals : Globals;
  cmd_pipe : list Z;
  bakfiles : list (list Z)
}.

Abbreviation M := (Edify.M UpdaterInfo).
Abbreviation Function := (Edify.Function UpdaterInfo).

Definition with_info (f : UpdaterInfo -> UpdaterInfo) (st : State UpdaterInfo) : State UpdaterInfo :=
  mkState (f (cookie st)) (script st) (errmsg st) (effects st).

(** A program on the disk. *)
Definition sys {A} (m : Run.W tree Dev A) : M A := fun st =>
  match m (u_world (cookie st)) with
  | (Done a, w) => Done (Some a, with_info (fun u => mkInfo w (u_globals u) (cmd_pipe u) (bakfiles u)) st)
  | (Fail c, _) => Fail c
  | (Undef, _) => Undef
  | (Diverge, _) => Diverge
  end.

(** A program with the variables of [mounts.c] and [flashutils.c]. *)
Definition globally {A} (m : G A) : M A := fun st =>
  match perform kernel (m (u_globals (cookie st))) (u_world (cookie st)) with
  | (Done (a, g), w) => Done (Some a, with_info (fun u => mkInfo w g (cmd_pipe u) (bakfiles u)) st)
  | (Fail c, _) => Fail c
  | (Undef, _) => Undef
  | (Diverge, _) => Diverge
  end.

(** [fprintf(ui->cmd_pipe, ...)]. *)
Definition put (s : list Z) : M unit := fun st =>
  Done (Some tt, with_info (fun u => mkInfo (u_world u) (u_globals u) (cmd_pipe u ++ s) (bakfiles u)) st).

Definition get_bakfiles : M (list (list Z)) := fun st => Done (Some (bakfiles (cookie st)), st).

(** [sprintf(bakfiles[totalbaks++], "%s", s)]: 4096 entries of 512 bytes. *)
Definition add_bakfile (s : list Z) : M unit := fun st =>
  if (zlen (bakfiles (cookie st)) <? 4096) && (zlen s <? 512) then
    Done (Some tt, with_info (fun u => mkInfo (u_world u) (u_globals u) (cmd_pipe u) (bakfiles u ++ [s])) st)
  else Undef.

(** "%s() expects %d args, got %d". *)
Definition expects {A} (name what : string) (argv : list (arg UpdaterInfo)) : M A :=
  ErrorAbort (name ++ "() expects " ++ what ++ ", got " ++ number (argc argv)).

Definition quoted (s : string) : string := String (ascii_of_nat 34) (s ++ String (ascii_of_nat 34) "").

(** [ErrorAbort] where its result is not returned. *)
Definition note_error (msg : string) : M unit := fun st => Done (Some tt, set_errmsg (String.substring 0 4095 msg) st).

Definition empty_argument {A} (what name : string) : M A := ErrorAbort (what ++ " argument to " ++ name ++ "() can't be empty").

(** [ReadArgs] into four and five variables and so on. *)
Definition one {A} (l : list string) (k : string -> M A) : M A := match l with [a] => k a | _ => fun _ => Undef end.
Definition two {A} (l : list string) (k : string -> string -> M A) : M A := match l with [a; b] => k a b | _ => fun _ => Undef end.

(** ** Mounting and formatting *)

Definition MountFn : Function := fun name argv =>
  if negb (argc argv =? 4) then expects name "4 args" argv
  else
    do! args := ReadArgs argv 4 in
    match args with
    | [fs_type; partition_type; location; mount_point] =>
        if bool_decide (fs_type = "") then empty_argument "fs_type" name
        else if bool_decide (partition_type = "") then empty_argument "partition_type" name
        else if bool_decide (location = "") then empty_argument "location" name
        else if bool_decide (mount_point = "") then empty_argument "mount_point" name
        else
          do! _ := sys (sys_mkdir (str mount_point) 493) in
          if String.eqb partition_type "MTD" then
            do! mtd := sys (kernel (CMtdFind (str location))) in
            if mtd =? 0 then StringValue ""
            else
              do! r := sys (kernel (CMtdMount (str location) (str mount_point) (str fs_type))) in
              if negb (r =? 0) then StringValue "" else StringValue mount_point
          else
            do! r := sys (kernel (CMount (str location) (str mount_point) (str fs_type))) in
            if r <? 0 then StringValue "" else StringValue mount_point
    | _ => fun _ => Undef
    end.

(** The entry of a mount point after a scan. *)
Definition scan_for (mount_point : string) : M (option nat) :=
  globally (let* _ := scan_mounts_now in let* g := getg in
            mret (find_mounted_volume_by_mount_point (str mount_point) (mounts_state g))).

Definition IsMountedFn : Function := fun name argv =>
  if negb (argc argv =? 1) then expects name "1 arg" argv
  else
    do! args := ReadArgs argv 1 in one args (fun mount_point =>
    if bool_decide (mount_point = "") then ErrorAbort "mount_point argument to unmount() can't be empty"
    else
      do! vol := scan_for mount_point in
      StringValue match vol with None => "" | Some _ => mount_point end).

Definition UnmountFn : Function := fun name argv =>
  if negb (argc argv =? 1) then expects name "1 arg" argv
  else
    do! args := ReadArgs argv 1 in one args (fun mount_point =>
    if bool_decide (mount_point = "") then ErrorAbort "mount_point argument to unmount() can't be empty"
    else
      do! vol := scan_for mount_point in
      match vol with
      | None => StringValue ""
      | Some mv => do! _ := globally (unmount_now mv) in StringValue mount_point
      end).

(** Without USE_EXT4, or for another kind of file system, there is no result and
    no message either. *)
Definition FormatFn : Function := fun name argv =>
  if negb (argc argv =? 5) then expects name "5 args" argv
  else
    do! args := ReadArgs argv 5 in
    match args with
    | [fs_type; partition_type; location; fs_size; mount_point] =>
        if bool_decide (fs_type = "") then empty_argument "fs_type" name
        else if bool_decide (partition_type = "") then empty_argument "partition_type" name
        else if bool_decide (location = "") then empty_argument "location" name
        else if bool_decide (mount_point = "") then empty_argument "mount_point" name
        else if String.eqb partition_type "MTD" then
          do! mtd := sys (kernel (CMtdFind (str location))) in
          if mtd =? 0 then StringValue "" else
          do! ctx := sys (kernel (CMtdOpen (str location))) in
          if ctx =? 0 then StringValue "" else
          do! e := sys (kernel (CMtdErase (str location))) in
          if e =? -1 then do! _ := sys (kernel (CMtdClose (str location))) in StringValue ""
          else
            do! c := sys (kernel (CMtdClose (str location))) in
            if negb (c =? 0) then StringValue "" else StringValue location
        else if use_ext4 && String.eqb fs_type "ext4" then
          do! status := sys (kernel (CMakeExt4 (str location) (atoll fs_size) (str mount_point))) in
          if negb (status =? 0) then StringValue "" else StringValue location
        else ret_null
    | _ => fun _ => Undef
    end.

(** ** Files *)

Definition RenameFn : Function := fun name argv =>
  if negb (argc argv =? 2) then expects name "2 args" argv
  else
    do! args := ReadArgs argv 2 in two args (fun src_name dst_name =>
    if bool_decide (src_name = "") then empty_argument "src_name" name
    else if bool_decide (dst_name = "") then empty_argument "dst_name" name
    else
      do! r := sys (sys_rename (str src_name) (str dst_name)) in
      if negb (r =? 0) then ErrorAbort ("Rename of " ++ src_name ++ "() to " ++ dst_name ++ "() failed, error " ++ strerror r ++ "()")
      else StringValue dst_name).

(** The arguments of [delete].  When one is NULL, the loop that frees those
    before it counts the wrong variable: it frees the first one for ever. *)
Fixpoint read_paths (first : bool) (argv : list (arg UpdaterInfo)) : M (list string) := fun st =>
  match argv with
  | [] => Done (Some [], st)
  | a :: argv =>
      match Evaluate a st with
      | Done (Some s, st) => bind (read_paths false argv) (fun l => ret (s :: l)) st
      | Done (None, st) => if first then Done (None, st) else Undef
      | Fail c => Fail c
      | Undef => Undef
      | Diverge => Diverge
      end
  end.

Fixpoint delete_paths (recursive : bool) (paths : list string) : Run.W tree Dev Z :=
  match paths with
  | [] => wret 0
  | p :: paths =>
      let! r := if recursive then dirUnlinkHierarchy fuel (str p) else sys_unlink (str p) in
      let! n := delete_paths recursive paths in
      wret (if r =? 0 then n + 1 else n)
  end.

Definition DeleteFn : Function := fun name argv =>
  do! paths := read_paths true argv in
  do! success := sys (delete_paths (String.eqb name "delete_recursive") paths) in
  StringValue (number success).

(** [p] runs back over the path: the return value and the path, which stays cut
    off when making a parent's parents failed. *)
Fixpoint make_parents_at (p : nat) (name : list Z) : Run.W tree Dev (Z * list Z) :=
  match p with
  | O => wret (0, name)
  | S q =>
      if bool_decide (name !! p = Some SLASH) then
        let! (r, parent) := make_parents_at q (take p name) in
        if r <? 0 then wret (-1, parent)
        else
          let! result := sys_mkdir parent 448 in
          wret (if (result =? 0) || (result =? EEXIST) then 0 else -1, name)
      else make_parents_at q name
  end.

Definition make_parents (name : list Z) : Run.W tree Dev (Z * list Z) := make_parents_at (length name - 1) name.

(** How many links failed in some way. *)
Fixpoint make_links (target : list Z) (srcs : list string) : Run.W tree Dev Z :=
  match srcs with
  | [] => wret 0
  | src :: srcs =>
      let! u := sys_unlink (str src) in
      let bad1 := negb (u =? 0) && negb (u =? ENOENT) in
      let! (r, src) := make_parents (str src) in
      let bad2 := negb (r =? 0) in
      let! l := sys_symlink target src in
      let bad3 := negb (l =? 0) in
      let! n := make_links target srcs in
      wret (n + Z.b2z bad1 + Z.b2z bad2 + Z.b2z bad3)
  end.

Definition SymlinkFn : Function := fun name argv =>
  match argv with
  | [] => expects name "1+ args" argv
  | a :: argv =>
      do! target := Evaluate a in
      do! srcs := ReadVarArgs argv in
      do! bad := sys (make_links (str target) srcs) in
      if negb (bad =? 0) then ErrorAbort (name ++ ": some symlinks failed") else StringValue ""
  end.

(** ** Permissions *)

Definition not_valid {A} (name s what : string) : M A := ErrorAbort (name ++ ": " ++ quoted s ++ " not a valid " ++ what).

Fixpoint set_perms (uid gid mode : Z) (paths : list string) : Run.W tree Dev Z :=
  match paths with
  | [] => wret 0
  | p :: paths =>
      let! c := sys_chown (str p) uid gid in
      let! m := sys_chmod (str p) mode in
      let! n := set_perms uid gid mode paths in
      wret (n + Z.b2z (negb (c =? 0)) + Z.b2z (negb (m =? 0)))
  end.

(** The results of [dirSetHierarchyPermissions] are not looked at. *)
Fixpoint set_trees (uid gid dirmode filemode : Z) (paths : list string) : Run.W tree Dev unit :=
  match paths with
  | [] => wret tt
  | p :: paths =>
      let! _ := dirSetHierarchyPermissions fuel uid gid dirmode filemode (str p) in
      set_trees uid gid dirmode filemode paths
  end.

Definition SetPermFn : Function := fun name argv =>
  let recursive := String.eqb name "set_perm_recursive" in
  let min_args := if recursive then 5 else 4 in
  if argc argv <? min_args then
    ErrorAbort (name ++ "() expects " ++ number min_args ++ "+ args, got " ++ number (argc argv))
  else
    do! args := ReadVarArgs argv in
    match args with
    | a0 :: a1 :: a2 :: rest =>
        match whole_int a0 with None => not_valid name a0 "uid" | Some uid =>
        match whole_int a1 with None => not_valid name a1 "gid" | Some gid =>
        if recursive then
          match rest with
          | a3 :: paths =>
              match whole_int a2 with None => not_valid name a2 "dirmode" | Some dir_mode =>
              match whole_int a3 with None => not_valid name a3 "filemode" | Some file_mode =>
              do! _ := sys (set_trees uid gid dir_mode file_mode paths) in StringValue ""
              end end
          | [] => fun _ => Undef
          end
        else
          match whole_int a2 with None => not_valid name a2 "mode" | Some mode =>
          do! bad := sys (set_perms uid gid mode rest) in
          if negb (bad =? 0) then ErrorAbort (name ++ ": some changes failed") else StringValue ""
          end
        end end
    | _ => fun _ => Undef
    end.

(** [chown] with -1 for what is to stay. *)
Definition chown_uid (s : list Z) (uid : Z) : Run.W tree Dev Z :=
  sys_change s (fun i => with_owner (if uid =? 2 ^ 32 - 1 then i_uid i else uid) (i_gid i) i).
Definition chown_gid (s : list Z) (gid : Z) : Run.W tree Dev Z :=
  sys_change s (fun i => with_owner (i_uid i) (if gid =? 2 ^ 32 - 1 then i_gid i else gid) i).

(** A call on an optional value, and whether it counts as bad. *)
Definition counted (o : option Z) (call : Z -> Run.W tree Dev Z) : Run.W tree Dev Z :=
  match o with
  | None => wret 0
  | Some v => let! r := call v in wret (Z.b2z (negb (r =? 0)))
  end.

Definition is_file (i : inode) : bool := match i_kind i with KFile _ => true | _ => false end.

(** Labels and capabilities are attributes outside of the tree: only whether the
    call failed in a way that counts is known of them. *)
Definition ApplyParsedPerms (filename : list Z) (st : inode) (parsed : perm_parsed_args) : Run.W tree Dev Z :=
  if is_link st then wret 0
  else
    let! b1 := counted (p_uid parsed) (chown_uid filename) in
    let! b2 := counted (p_gid parsed) (chown_gid filename) in
    let! b3 := counted (p_mode parsed) (sys_chmod filename) in
    let! b4 := counted (if is_dir st then p_dmode parsed else None) (sys_chmod filename) in
    let! b5 := counted (if is_file st then p_fmode parsed else None) (sys_chmod filename) in
    let! b6 := counted ((fun _ => 0) <$> p_selabel parsed) (fun _ => let! a := ask in wret (Z.min a 0)) in
    let! b7 := counted (if is_file st then p_capabilities parsed else None) (fun _ => let! a := ask in wret (Z.min a 0)) in
    wret (b1 + b2 + b3 + b4 + b5 + b6 + b7).

(** [nftw(path, fn, 30, FTW_CHDIR | FTW_DEPTH | FTW_PHYS)]: the children before
    their directory, links not followed, up to the first result that is not 0;
    -1 for a failure of its own. *)
Fixpoint walk_entries (visit : list Z -> Run.W tree Dev Z) (s : list Z) (entries : list name) : Run.W tree Dev Z :=
  match entries with
  | [] => wret 0
  | c :: entries =>
      if bool_decide (c = DOTDOT) || bool_decide (c = DOT) then walk_entries visit s entries
      else
        let! r := visit (dn s c) in
        if r =? 0 then walk_entries visit s entries else wret r
  end.

Fixpoint nftw (n : nat) (fn : list Z -> inode -> Run.W tree Dev Z) (s : list Z) : Run.W tree Dev Z :=
  match n with
  | O => wlift Diverge
  | S n =>
      let! st := sys_lstat s in
      match st with
      | inr _ => wret (-1)
      | inl i =>
          if is_dir i then
            let! dir := sys_opendir s in
            match dir with
            | inr _ => fn s i
            | inl entries =>
                let! r := walk_entries (nftw n fn) s entries in
                if r =? 0 then fn s i else wret r
            end
          else fn s i
      end
  end.

(** [ErrorAbort] returns NULL, so [SetMetadataFn] goes on as if nothing had
    happened when [lstat] fails. *)
Definition SetMetadataFn : Function := fun name argv =>
  if negb (argc argv mod 2 =? 1) then
    ErrorAbort (name ++ "() expects an odd number of arguments, got " ++ number (argc argv))
  else
    do! args := ReadVarArgs argv in
    match args with
    | file :: args =>
        do! sb := sys (sys_lstat (str file)) in
        match sb with
        | inr e => do! _ := note_error (name ++ ": Error on lstat of " ++ quoted file ++ ": " ++ strerror e) in StringValue ""
        | inl sb =>
            match ParsePermArgs args no_perms with
            | None => fun _ => Undef
            | Some parsed =>
                do! bad := sys (if String.eqb name "set_metadata_recursive"
                                then nftw fuel (fun s i => ApplyParsedPerms s i parsed) (str file)
                                else ApplyParsedPerms (str file) sb parsed) in
                if 0 <? bad then ErrorAbort (name ++ ": some changes failed") else StringValue ""
            end
        end
    | [] => fun _ => Undef
    end.

(** ** Progress and messages *)

Definition ShowProgressFn : Function := fun name argv =>
  if negb (argc argv =? 2) then expects name "2 args" argv
  else
    do! args := ReadArgs argv 2 in two args (fun frac_str sec_str =>
    do! _ := put (str "progress " ++ print_frac frac_str ++ str " " ++ str (number (swrap 32 (strtol sec_str).1)) ++ [10])%list in
    StringValue frac_str).

Definition SetProgressFn : Function := fun name argv =>
  if negb (argc argv =? 1) then expects name "1 arg" argv
  else
    do! args := ReadArgs argv 1 in one args (fun frac_str =>
    do! _ := put (str "set_progress " ++ print_frac frac_str ++ [10])%list in
    StringValue frac_str).

(** A line for recovery to show, and the line break. *)
Definition ui_print_line (line : list Z) : list Z := (str "ui_print " ++ line ++ [10])%list.
Definition ui_print_end : list Z := (str "ui_print" ++ [10])%list.

(** The loop with [strtok]: what is printed, and the buffer afterwards. *)
Fixpoint print_lines (n : nat) (before buffer : list Z) : outcome (list Z * list Z) :=
  match n with
  | O => Diverge
  | S n =>
      '(line, passed, rest) ← access (strtok_r [10] buffer);
      match line with
      | None => Done ([], before ++ passed ++ rest)%list
      | Some line =>
          '(out, buffer) ← print_lines n (before ++ passed)%list rest;
          Done (ui_print_line line ++ out, buffer)%list
      end
  end.

(** The value is the buffer, which [strtok] has cut at the first line break. *)
Definition UIPrintFn : Function := fun name argv =>
  do! args := ReadVarArgs argv in
  let buffer := (str (String.concat "" args) ++ [0])%list in
  fun st =>
    match print_lines (length buffer) [] buffer with
    | Done (out, buffer) => (do! _ := put (out ++ ui_print_end)%list in StringValue (text (cstr buffer))) st
    | Fail c => Fail c
    | Undef => Undef
    | Diverge => Diverge
    end.

Definition WipeCacheFn : Function := fun name argv =>
  if negb (argc argv =? 0) then expects name "no args" argv
  else do! _ := put (str "wipe_cache" ++ [10])%list in StringValue "t".

(** ** The package *)

(** Reads from the package; those behind a point may fail. *)
Definition package_read (a : Z) : Z -> Z -> Z * list Z := fd_read_until (read_limit a) package_data.

Definition PackageExtractDirFn : Function := fun name argv =>
  if negb (argc argv =? 2) then expects name "2 args" argv
  else
    do! args := ReadArgs argv 2 in two args (fun zip_path dest_path =>
    do! (success, _) := sys (let! a := ask in
      mzExtractRecursive (package_read a) fuel malloc_ok package_zip (str zip_path) (str dest_path)
        MZ_EXTRACT_FILES_ONLY (Some 1217592000)) in
    StringValue (if success : bool then "t" else "")).

(** The entry of a name. *)
Definition find_entry (path : string) : M (option ZipEntry) := fun st =>
  match mzFindZipEntry calloc_ok package_zip (str path) with
  | Done e => Done (Some e, st)
  | Fail c => Fail c
  | Undef => Undef
  | Diverge => Diverge
  end.

Definition PackageExtractFileFn : Function := fun name argv =>
  if argc argv =? 2 then
    do! args := ReadArgs argv 2 in two args (fun zip_path dest_path =>
    do! entry := find_entry zip_path in
    match entry with
    | None => StringValue ""
    | Some entry =>
        do! f := sys (sys_creat (str dest_path) 438) in
        match f with
        | inr _ => StringValue ""
        | inl p =>
            do! success := sys (let! a := ask in extract_to_file (package_read a) fuel entry p) in
            StringValue (if success : bool then "t" else "")
        end
    end)
  else if argc argv =? 1 then
    do! args := ReadArgs argv 1 in one args (fun zip_path =>
    do! entry := find_entry zip_path in
    match entry with
    | None => ret VAL_NULL_BLOB
    | Some entry =>
        if negb (malloc_ok (uncompLen entry)) then ret VAL_NULL_BLOB
        else
          do! (success, data) := sys (let! a := ask in wlift (mzExtractZipEntryToBuffer (package_read a) fuel entry (uncompLen entry))) in
          ret (if success : bool then VAL_BLOB data else VAL_NULL_BLOB)
    end)
  else expects name "1 or 2 args" argv.

(** ** Properties and programs *)

Definition GetPropFn : Function := fun name argv =>
  if negb (argc argv =? 1) then expects name "1 arg" argv
  else argv_at argv 0 (fun a => do! key := Evaluate a in StringValue (property_get key)).

Definition MAX_FILE_GETPROP_SIZE : Z := 65536.

(** [st_size]; a directory has one although it cannot be read. *)
Definition st_size (i : inode) : Z := if is_dir i then 4096 else zlen (default [] (node_data i)).

(** The number of arguments is not checked. *)
Definition FileGetPropFn : Function := fun name argv =>
  do! args := ReadArgs argv 2 in two args (fun filename key =>
  do! st := sys (sys_stat (str filename)) in
  match st with
  | inr e => ErrorAbort (name ++ ": failed to stat " ++ quoted filename ++ ": " ++ strerror e)
  | inl i =>
      let size := st_size i in
      if MAX_FILE_GETPROP_SIZE <? size then
        ErrorAbort (filename ++ " too large for " ++ name ++ " (max " ++ number MAX_FILE_GETPROP_SIZE ++ ")")
      else if negb (malloc_ok (size + 1)) then ErrorAbort (name ++ ": failed to alloc " ++ number (size + 1) ++ " bytes")
      else
        do! f := sys (fopen_r (str filename)) in
        match f with
        | inr e => ErrorAbort (name ++ ": failed to open " ++ filename ++ ": " ++ strerror e)
        | inl f =>
            do! (data, _) := sys (fread size f) in
            if negb (zlen data =? size) then
              ErrorAbort (name ++ ": failed to read " ++ number (size + 1) ++ " bytes from " ++ filename)
            else fun st =>
              match find_prop (str key) data with
              | Done PSkip => StringValue "" st
              | Done (PValue v) => StringValue (text v) st
              | Done (PMalformed line) =>
                  ErrorAbort (name ++ ": malformed line " ++ quoted (text line) ++ ": " ++ filename ++ " not a prop file?") st
              | Fail c => Fail c
              | Undef => Undef
              | Diverge => Diverge
              end
        end
  end).

Definition RunProgramFn : Function := fun name argv =>
  if argc argv <? 1 then ErrorAbort (name ++ "() expects at least 1 arg")
  else
    do! args := ReadVarArgs argv in
    do! status := sys (run_program args) in
    StringValue (number status).

(** ** Images and patches *)

(** The file name is the contents' string, also of a blob. *)
Definition WriteRawImageFn : Function := fun name argv =>
  do! vs := ReadValueArgs argv 2 in
  match vs with
  | [contents; VAL_STRING partition] =>
      if bool_decide (partition = "") then ErrorAbort ("partition argument to " ++ name ++ " can't be empty")
      else
        match contents with
        | VAL_STRING "" => ErrorAbort ("file argument to " ++ name ++ " can't be empty")
        | VAL_NULL_BLOB => fun _ => Undef
        | VAL_STRING filename =>
            do! r := globally (restore_raw_partition BOARD_BML_BOOT None (str partition) (str filename)) in
            StringValue (if r =? 0 then partition else "")
        | VAL_BLOB d =>
            if bool_decide (0 ∈ d) then
              do! r := globally (restore_raw_partition BOARD_BML_BOOT None (str partition) (cstr d)) in
              StringValue (if r =? 0 then partition else "")
            else fun _ => Undef
        end
  | [_; _] => ErrorAbort ("partition argument to " ++ name ++ " must be string")
  | _ => fun _ => Undef
  end.

(** [strtol(s, &endptr, 10)] as a [size_t], unless nothing was read. *)
Definition byte_count (s : string) : option Z :=
  let '(v, rest) := strtol s in
  if (v =? 0) && bool_decide (rest = s) then None else Some (wrap 32 v).

Definition ApplyPatchSpaceFn : Function := fun name argv =>
  do! args := ReadArgs argv 1 in one args (fun bytes_str =>
  match byte_count bytes_str with
  | None => ErrorAbort (name ++ "(): can't parse " ++ quoted bytes_str ++ " as byte count" ++ String (ascii_of_nat 10) (String (ascii_of_nat 10) ""))
  | Some bytes => do! r := sys (CacheSizeCheck bytes) in StringValue (if r =? 0 then "t" else "")
  end).

(** The pairs of hashes and patches, or the message for the first wrong one. *)
Fixpoint patch_pairs (name : string) (i : Z) (vs : list Value) : (list string * list Value) + string :=
  match vs with
  | VAL_STRING sha :: (VAL_BLOB _ | VAL_NULL_BLOB) as p :: vs =>
      match patch_pairs name (i + 1) vs with inl (shas, ps) => inl (sha :: shas, p :: ps) | inr e => inr e end
  | VAL_STRING _ :: _ :: _ => inr (name ++ "(): patch #" ++ number i ++ " is not blob")
  | _ :: _ :: _ => inr (name ++ "(): sha-1 #" ++ number i ++ " is not string")
  | _ => inl ([], [])
  end.

(** The values of the patches; a NULL among them is looked into. *)
Definition read_patches (argv : list (arg UpdaterInfo)) : M (list Value) := fun st =>
  match ReadValueVarArgs argv st with Done (None, _) => Undef | r => r end.

Definition ApplyPatchFn : Function := fun name argv =>
  if (argc argv <? 6) || (argc argv mod 2 =? 1) then
    ErrorAbort (name ++ "(): expected at least 6 args and an even number, got " ++ number (argc argv))
  else
    do! args := ReadArgs argv 4 in
    match args with
    | [source_filename; target_filename; target_sha1; target_size_str] =>
        do! baks := get_bakfiles in
        if bool_decide (str source_filename ∈ baks) then
          do! _ := put (str "ui_print Skipping update of modified file " ++ str source_filename ++ [10])%list in
          do! _ := put ui_print_end in
          StringValue "t"
        else
          match byte_count target_size_str with
          | None => ErrorAbort (name ++ "(): can't parse " ++ quoted target_size_str ++ " as byte count")
          | Some target_size =>
              do! vs := read_patches (drop 4 argv) in
              match patch_pairs name 0 vs with
              | inr e => ErrorAbort e
              | inl (patch_sha_str, patches) =>
                  do! result := sys (applypatch source_filename target_filename target_sha1 target_size patch_sha_str patches) in
                  StringValue (if result =? 0 then "t" else "")
              end
          end
    | _ => fun _ => Undef
    end.

Definition read_sha1s (argv : list (arg UpdaterInfo)) : M (list string) := fun st =>
  match ReadVarArgs argv st with Done (None, _) => Undef | r => r end.

(** A file that is gone is remembered among those not to be patched, once there
    are any. *)
Definition ApplyPatchCheckFn : Function := fun name argv =>
  if argc argv <? 1 then ErrorAbort (name ++ "(): expected at least 1 arg, got " ++ number (argc argv))
  else
    do! args := ReadArgs argv 1 in one args (fun filename =>
    do! baks := get_bakfiles in
    if bool_decide (str filename ∈ baks) then StringValue "t"
    else
      do! sha1s := read_sha1s (drop 1 argv) in
      do! result := sys (applypatch_check filename sha1s) in
      if (result =? - ENOENT) && negb (bool_decide (baks = [])) then
        do! _ := add_bakfile (str filename) in StringValue "t"
      else StringValue (if result =? 0 then "t" else "")).

(** [entry->d_type & DT_DIR]: directories, and block devices too. *)
Definition dir_type (fs : tree) (s : list Z) : bool :=
  match resolve false fs s with
  | Found p => match fs !! p with Some i => match i_kind i with KDir | KBlock _ => true | _ => false end | None => false end
  | _ => false
  end.

(** The loop over a directory; [root] is the length of [bakroot]. *)
Fixpoint collect_entries (collect : list Z -> M Z) (bakpath : list Z) (root : nat) (entries : list name) : M Z :=
  match entries with
  | [] => ret 0
  | c :: entries =>
      do! fs := sys get_fs in
      if bool_decide (c = DOTDOT) || bool_decide (c = DOT) then collect_entries collect bakpath root entries
      else if dir_type fs (bakpath ++ SLASH :: c)%list then
        if PATH_MAX <=? zlen (bakpath ++ SLASH :: c)%list then ret 1
        else do! _ := collect (bakpath ++ SLASH :: c)%list in collect_entries collect bakpath root entries
      else
        do! _ := add_bakfile (drop root bakpath ++ SLASH :: c)%list in
        collect_entries collect bakpath root entries
  end.

Fixpoint collect_backup_data (n : nat) (root : nat) (bakpath : list Z) : M Z :=
  match n with
  | O => fun _ => Diverge
  | S n =>
      do! d := sys (sys_opendir bakpath) in
      match d with
      | inr _ => ret 0
      | inl entries => collect_entries (collect_backup_data n root) bakpath root entries
      end
  end.

Definition CollectBackupDataFn : Function := fun name argv =>
  if argc argv <? 1 then ErrorAbort (name ++ "(): expected at least 1 arg, got " ++ number (argc argv))
  else
    do! args := ReadArgs argv 1 in one args (fun bakpath =>
    do! r := collect_backup_data fuel (length (str bakpath)) (str bakpath) in
    StringValue (if r =? 0 then "t" else "")).

(** The first argument that is the digest. *)
Fixpoint matching_digest (digest : list Z) (args : list Value) : option Value :=
  match args with
  | [] => None
  | VAL_STRING s :: args =>
      if bool_decide (ParseSha1 s = Some digest) then Some (VAL_STRING s) else matching_digest digest args
  | _ :: args => matching_digest digest args
  end.

Definition Sha1CheckFn : Function := fun name argv =>
  if argc argv <? 1 then ErrorAbort (name ++ "() expects at least 1 arg")
  else
    do! args := ReadValueVarArgs argv in
    match args with
    | VAL_NULL_BLOB :: _ => StringValue ""
    | (VAL_STRING _ | VAL_BLOB _) as v :: args =>
        let digest := SHA_hash (match v with VAL_STRING s => str s | VAL_BLOB d => d | VAL_NULL_BLOB => [] end) in
        match args with
        | [] => StringValue (PrintSha1 digest)
        | _ => match matching_digest digest args with Some v => ret v | None => StringValue "" end
        end
    | [] => fun _ => Undef
    end.

Definition ReadFileFn : Function := fun name argv =>
  if negb (argc argv =? 1) then expects name "1 arg" argv
  else
    do! args := ReadArgs argv 1 in one args (fun filename =>
    do! r := sys (LoadFileContents filename) in
    match r with
    | inr e => ErrorAbort (name ++ "() loading " ++ quoted filename ++ " failed: " ++ strerror e)
    | inl data => ret (VAL_BLOB data)
    end).

(** ** Registration *)

Definition install_functions : list (string * Function) :=
  [("mount", MountFn); ("is_mounted", IsMountedFn); ("unmount", UnmountFn); ("format", FormatFn);
   ("show_progress", ShowProgressFn); ("set_progress", SetProgressFn); ("delete", DeleteFn); ("delete_recursive", DeleteFn);
   ("package_extract_dir", PackageExtractDirFn); ("package_extract_file", PackageExtractFileFn); ("symlink", SymlinkFn);
   ("set_perm", SetPermFn); ("set_perm_recursive", SetPermFn); ("set_metadata", SetMetadataFn);
   ("set_metadata_recursive", SetMetadataFn); ("getprop", GetPropFn); ("file_getprop", FileGetPropFn);
   ("write_raw_image", WriteRawImageFn); ("apply_patch", ApplyPatchFn); ("apply_patch_check", ApplyPatchCheckFn);
   ("apply_patch_space", ApplyPatchSpaceFn); ("read_file", ReadFileFn); ("sha1_check", Sha1CheckFn); ("rename", RenameFn);
   ("wipe_cache", WipeCacheFn); ("ui_print", UIPrintFn); ("run_program", RunProgramFn); ("collect_backup_data", CollectBackupDataFn)].

Definition RegisterInstallFunctions (r : fn_registry UpdaterInfo) : option (fn_registry UpdaterInfo) :=
  register_all install_functions r.

(** ** [main], once the script is parsed *)

(** The lines of the message of an aborted script. *)
Definition report_error (msg : option string) : outcome (list Z) :=
  match msg with
  | None => Done (str "ui_print script aborted (no error message)" ++ [10])%list
  | Some m =>
      '(out, _) ← print_lines (S (String.length m)) [] (str m ++ [0])%list;
      Done (out ++ ui_print_end)%list
  end.

(** The exit status and the state: [root] is the parsed script. *)
Definition run_script (root : Expr UpdaterInfo) (scr : string) (u : UpdaterInfo) : outcome (Z * UpdaterInfo) :=
  '(result, st) ← Evaluate (expr_arg root) (mkState u scr None []);
  match result with
  | Some _ => Done (0, cookie st)
  | None =>
      out ← report_error (errmsg st);
      let u := cookie st in
      Done (7, mkInfo (u_world u) (u_globals u) (cmd_pipe u ++ out)%list (bakfiles u))
  end.

End Updater.
