(* ===== verification/UpdaterFacts.v ===== *)
(** * What update scripts do

    The commands of the updater as recovery reads them, the checks of the number
    of arguments, property files, and where errors get lost. *)
From stdpp Require Import pretty.
From Stdlib Require Import Ascii.
From S2P Require Import Prelude.
From S2P Require Import Cstring.
From S2P Require Import Cbuf.
From S2P Require Import Scanf.
From S2P Require Import Zip.
From S2P Require Import ZipExtract.
From S2P Require Import Posix.
From S2P Require Import Stdio.
From S2P Require Import DirUtil.
From S2P Require Import DirTrees.
From S2P Require Import HashTable.
From S2P Require Import Bootloader.
From S2P Require Import Calls.
From S2P Require Import Roots.
From S2P Require Import Edify.
From S2P Require Import Recovery.
From S2P Require Import RecoveryArgs.
From S2P Require Import Install.
From S2P Require Import Updater.
Local Open Scope string_scope.
Local Open Scope Z_scope.
Local Open Scope list_scope.

(** ** Commands on the pipe *)

(** A word before a delimiter, at the front of what [strtok] has left. *)
Lemma strtok_word d a c b : a <> [] -> Forall (fun x => is_one_of d x = false /\ x <> 0) a -> is_one_of d c = true -> c <> 0 ->
  strtok_r d (a ++ c :: b) = Some (Some a, a ++ [0], b).
Proof.
  intros Hne Ha Hc Hc0. destruct a as [|x a]; [done|]. pose proof (Forall_inv Ha) as [Hx Hx0]. unfold strtok_r.
  cbn [app skip_while]. rewrite Hx. rewrite (proj2 (Z.eqb_neq x 0)) by done.
  change (x :: a ++ c :: b) with ((x :: a) ++ (c :: b)). rewrite (skip_while_app _ (x :: a)).
  - by rewrite (proj2 (Z.eqb_neq c 0)).
  - eapply Forall_impl; [exact Ha|]. cbn. intros y [-> Hy]. by rewrite (proj2 (Z.eqb_neq y 0)).
  - cbn. intros c' [= <-]. by rewrite Hc.
Qed.

Lemma do_commands_fuel n : forall m out fw, (length out <= n)%nat -> (length out <= m)%nat -> do_commands n out fw = do_commands m out fw.
Proof.
  induction n as [|n IH]; intros m out fw Hn Hm.
  - destruct out as [|c out]; [|cbn in Hn; lia]. by destruct m.
  - destruct m as [|m]; [destruct out as [|c out]; [done|cbn in Hm; lia]|]. cbn [do_commands].
    destruct (line_of 1023 out) as [|c line] eqn:E; [done|]. destruct (do_command (c :: line) fw) as [[ev fw']|]; [|done].
    cbn [access mbind outcome_bind]. rewrite (IH m); [done|rewrite length_drop; cbn; lia..].
Qed.

(** What the screen shows for a part of the pipe, and goes on with the rest. *)
Definition shows (p : list Z) (evs : list ui_event) : Prop := forall rest fw,
  do_commands (length (p ++ rest)) (p ++ rest) fw = ('(e, fw) ← do_commands (length rest) rest fw; Done (evs ++ e, fw)).

Lemma shows_nil : shows [] [].
Proof. intros rest fw. cbn [app]. by destruct (do_commands _ rest fw) as [[e fw']| | |]. Qed.

Lemma shows_app p q e f : shows p e -> shows q f -> shows (p ++ q) (e ++ f).
Proof.
  intros Hp Hq rest fw. rewrite <- app_assoc, Hp, Hq. destruct (do_commands _ rest fw) as [[g fw']| | |]; [|done..].
  cbn. by rewrite app_assoc.
Qed.

Lemma line_of_line n line rest : Forall (fun c => c <> 10) line -> (length line < n)%nat -> line_of n (line ++ 10 :: rest) = line ++ [10].
Proof.
  revert n. induction line as [|c line IH]; intros n Hl Hn; (destruct n as [|n]; [cbn in Hn; lia|]); cbn [app line_of].
  - done.
  - apply Forall_cons in Hl as [Hc Hl]. rewrite (proj2 (Z.eqb_neq c 10)) by done. f_equal. apply IH; [done|cbn in Hn; lia].
Qed.

(** A line that fits the buffer. *)
Lemma shows_line line evs : Forall (fun c => c <> 10) line -> (length line < 1023)%nat ->
  (forall fw, do_command (line ++ [10]) fw = Some (evs, fw)) -> shows (line ++ [10]) evs.
Proof.
  intros Hl Hn Hc rest fw. rewrite <- app_assoc. cbn [app].
  assert (length (line ++ 10 :: rest) = S (Nat.add (length line) (length rest))) as -> by (rewrite length_app; cbn; lia).
  cbn [do_commands]. rewrite line_of_line by done.
  assert (drop (length (line ++ [10])) (line ++ 10 :: rest) = rest) as Hd.
  { change (10 :: rest) with ([10] ++ rest). rewrite app_assoc. apply drop_app_length. }
  specialize (Hc fw). destruct (line ++ [10]) as [|c l] eqn:E; [by destruct line|]. rewrite Hc, Hd.
  cbn [access mbind outcome_bind]. by rewrite (do_commands_fuel _ (length rest)) by lia.
Qed.

(** What a word may hold in a command. *)
Definition plain_word (s : list Z) : Prop := s <> [] /\ Forall (fun c => c <> 0 /\ c <> 10 /\ c <> 32) s.
Definition plain_line (s : list Z) : Prop := s <> [] /\ Forall (fun c => c <> 0 /\ c <> 10) s.

Lemma word_delims s : plain_word s -> Forall (fun x => is_one_of SPACE_NL x = false /\ x <> 0) s.
Proof.
  intros [_ Hs]. eapply Forall_impl; [exact Hs|]. cbn. intros c (H0 & H1 & H2).
  rewrite (proj2 (Z.eqb_neq _ _)), (proj2 (Z.eqb_neq _ _)) by done. done.
Qed.

(** A decidable fact on a constant. *)
Ltac closed_list := eapply bool_decide_unpack; vm_compute; exact Logic.I.

(** Which command it is. *)
Ltac keyword := cbn [mbind option_bind];
  repeat match goal with
  | |- context [bool_decide (str ?a = str ?b)] =>
      first [rewrite (bool_decide_false (str a = str b)) by (vm_compute; congruence)
            |rewrite (bool_decide_true (str a = str b)) by done]; cbn [mbind option_bind]
  end.

Lemma shows_print line : plain_line line -> (length line <= 1013)%nat -> shows (ui_print_line line) [UPrint line].
Proof.
  intros [Hne Hl] Hn. unfold ui_print_line. rewrite app_assoc. apply shows_line.
  - apply Forall_app. split; [closed_list|]. eapply Forall_impl; [exact Hl|]. cbn. tauto.
  - rewrite length_app. change (length (str "ui_print ")) with 9%nat. lia.
  - intros fw. unfold do_command.
    assert (strtok_r SPACE_NL (((str "ui_print " ++ line) ++ [10]) ++ [0]) = Some (Some (str "ui_print"), str "ui_print" ++ [0], line ++ [10; 0])) as ->.
    { rewrite <- !app_assoc. change (str "ui_print " ++ line ++ [10] ++ [0]) with (str "ui_print" ++ 32 :: (line ++ [10; 0])).
      apply strtok_word; [done| |done|done]. closed_list. }
    keyword. rewrite strtok_word; [done|done| |done|done].
    eapply Forall_impl; [exact Hl|]. cbn. intros c [H0 H1]. by rewrite (proj2 (Z.eqb_neq c 10)).
Qed.

Lemma shows_print_end : shows ui_print_end [UPrint [10]].
Proof. apply (shows_line (str "ui_print")); [closed_list|by vm_compute; lia|]. intros fw. by vm_compute. Qed.

Lemma shows_set_progress f : plain_word f -> (length f <= 1009)%nat -> shows (str "set_progress " ++ f ++ [10]) [USetProgress f].
Proof.
  intros Hf Hn. pose proof (word_delims _ Hf) as Hd. destruct Hf as [Hne Hf]. rewrite app_assoc. apply shows_line.
  - apply Forall_app. split; [closed_list|]. eapply Forall_impl; [exact Hf|]. cbn. tauto.
  - rewrite length_app. change (length (str "set_progress ")) with 13%nat. lia.
  - intros fw. unfold do_command. rewrite <- !app_assoc.
    change (str "set_progress " ++ f ++ [10] ++ [0]) with (str "set_progress" ++ 32 :: (f ++ [10; 0])).
    rewrite strtok_word; [|done|closed_list|done|done]. keyword. by rewrite strtok_word.
Qed.

(** What [%d] prints is a word. *)
Lemma pretty_word (z : Z) : - 2 ^ 31 <= z < 2 ^ 31 -> plain_word (str (pretty z)) /\ (length (str (pretty z)) <= 11)%nat.
Proof.
  intros Hz. set (n := Z.to_N (Z.abs z)). destruct (pretty_N_bytes n) as [HF HL]; [change (10 ^ 10)%N with 10000000000%N; unfold n; lia|].
  destruct (pretty_N_read n) as (d & s & _ & E & _).
  assert (str (pretty n) <> [] /\ Forall (fun c => c <> 0 /\ c <> 10 /\ c <> 32) (str (pretty n))) as [H1 H2].
  { split; [by rewrite E|]. eapply Forall_impl; [exact HF|]. unfold numeral_byte. cbn. lia. }
  destruct z as [|p|p].
  - change (pretty 0) with (pretty n). split; [by split|lia].
  - change (pretty (Z.pos p)) with (pretty n). split; [by split|lia].
  - change (pretty (Z.neg p)) with (String "-" (pretty n)). split; [split; [done|]|cbn [str length]; lia].
    cbn [str]. apply Forall_cons. by split.
Qed.

Lemma shows_progress f z : plain_word f -> (length f <= 1000)%nat -> - 2 ^ 31 <= z < 2 ^ 31 ->
  shows (str "progress " ++ f ++ str " " ++ str (pretty z) ++ [10]) [UShowProgress f z].
Proof.
  intros Hf Hn Hz. destruct (pretty_word z Hz) as [Hw Hl]. pose proof (word_delims _ Hf) as Hdf.
  pose proof (word_delims _ Hw) as Hdw. destruct Hf as [Hfe Hf], Hw as [Hwe Hw]. rewrite !app_assoc. apply shows_line.
  - rewrite !Forall_app. split_and!; [closed_list| |closed_list|];
      [eapply Forall_impl; [exact Hf|]|eapply Forall_impl; [exact Hw|]]; cbn; tauto.
  - rewrite !length_app. change (length (str "progress ")) with 9%nat. change (length (str " ")) with 1%nat. lia.
  - intros fw. unfold do_command. rewrite <- !app_assoc.
    change (str "progress " ++ f ++ str " " ++ str (pretty z) ++ [10] ++ [0])
      with (str "progress" ++ 32 :: (f ++ 32 :: (str (pretty z) ++ [10; 0]))).
    rewrite strtok_word; [|done|closed_list|done|done]. keyword.
    rewrite strtok_word by done. cbn [mbind option_bind]. rewrite strtok_word by done. cbn [mbind option_bind].
    rewrite text_str, strtol_pretty by done. cbn [fst]. rewrite swrap_small; [done|done|]. unfold in_s. lia.
Qed.

(** ** Scripts that tell the user something *)

Lemma print_lines_shows n : forall s before, nul_free s -> (length s < n)%nat ->
  Forall (fun l => length l <= 1013)%nat (tokens [10] s) ->
  exists out buffer, print_lines n before (s ++ [0]) = Done (out, buffer) /\ shows out (UPrint <$> tokens [10] s).
Proof.
  induction n as [|n IH]; intros s before Hs Hn Hl; [lia|]. cbn [print_lines].
  destruct (strtok_r_spec [10] eq_refl s [] Hs) as [(passed & -> & -> & _)|(tok & passed & rest & -> & Ht & _ & Hr & Hrn)].
  - eexists _, _. split; [reflexivity|]. apply shows_nil.
  - pose proof (good_tokens [10] s eq_refl Hs) as Hg. rewrite Ht in Hl, Hg |- *. apply Forall_cons in Hl as [Hl1 Hl2].
    apply Forall_cons in Hg as [(Hne & Hz & Hnl) _].
    destruct (IH rest (before ++ passed) Hrn ltac:(lia) Hl2) as (out & buffer & E & Hsh).
    exists (ui_print_line tok ++ out), buffer. cbn [access mbind outcome_bind]. rewrite E. split; [done|].
    rewrite fmap_cons. apply (shows_app _ _ [UPrint tok]); [|done]. apply shows_print; [|done]. split; [done|].
    apply Forall_forall. intros c Hc. unfold nul_free in Hz. rewrite Forall_forall in Hz. split; [by apply Hz|]. by intros ->.
Qed.

Inductive message := SayText (s : string) | SayProgress (frac sec : string) | SayFraction (frac : string).

Section Messages.
  Context {Dev : Type} (print_frac : string -> list Z).

Abbreviation info := (UpdaterInfo (Dev := Dev)).

Definition literal (s : string) : Expr info := mkExpr Literal s [] 0 0.

(** The calls of a script. *)
Definition call_of (m : message) : Expr info :=
  match m with
  | SayText s => mkExpr UIPrintFn "ui_print" [literal s] 0 0
  | SayProgress frac sec => mkExpr (ShowProgressFn print_frac) "show_progress" [literal frac; literal sec] 0 0
  | SayFraction frac => mkExpr (SetProgressFn print_frac) "set_progress" [literal frac] 0 0
  end.

(** [m; m1; m2; ...]. *)
Definition script_of (m : message) (ms : list message) : Expr info :=
  foldl (fun e m => Build SequenceFn (0, 0) [e; call_of m]) (call_of m) ms.

(** What the user is to see. *)
Definition screen (m : message) : list ui_event :=
  match m with
  | SayText s => (UPrint <$> tokens [10] (str s)) ++ [UPrint [10]]
  | SayProgress frac sec => [UShowProgress (print_frac frac) (swrap 32 (strtol sec).1)]
  | SayFraction frac => [USetProgress (print_frac frac)]
  end.

(** What fits into the line buffer of recovery. *)
Definition fits (m : message) : Prop :=
  match m with
  | SayText s => nul_free (str s) /\ Forall (fun l => length l <= 1013)%nat (tokens [10] (str s))
  | SayProgress frac _ | SayFraction frac => plain_word (print_frac frac) /\ (length (print_frac frac) <= 1000)%nat
  end.

Definition piped (out : list Z) (u : info) : info := mkInfo (u_world u) (u_globals u) (cmd_pipe u ++ out) (bakfiles u).

(** An expression has a string as its value, writes to the pipe, does nothing
    else, and recovery shows what it wrote. *)
Definition tells (e : Expr info) (evs : list ui_event) : Prop := forall st, exists s out,
  a_eval (expr_arg e) st = Done (Some (VAL_STRING s), with_info (piped out) st) /\ shows out evs.

Lemma call_tells m : fits m -> tells (call_of m) (screen m).
Proof.
  destruct m as [s|frac sec|frac]; cbn [fits screen]; intros [H1 H2] st.
  - destruct (print_lines_shows (length (str s ++ [0])) (str s) [] H1) as (out & buffer & E & Hs);
      [rewrite length_app; cbn; lia|done|].
    eexists _, (out ++ ui_print_end). split; [|exact (shows_app _ _ _ [_] Hs shows_print_end)].
    cbn. unfold UIPrintFn, bind. cbn. by rewrite E.
  - eexists _, _. split; [reflexivity|]. apply shows_progress; [done..|].
    pose proof (swrap_range 32 (strtol sec).1 ltac:(done)) as Hr. unfold in_s in Hr. lia.
  - eexists _, _. split; [reflexivity|]. apply shows_set_progress; [done|lia].
Qed.

Lemma script_tells ms : forall e evs, tells e evs -> Forall fits ms ->
  tells (foldl (fun e m => Build SequenceFn (0, 0) [e; call_of m]) e ms) (evs ++ concat (screen <$> ms)).
Proof.
  induction ms as [|m ms IH]; intros e evs He Hms; [cbn; by rewrite app_nil_r|].
  apply Forall_cons in Hms as [Hm Hms]. rewrite fmap_cons. cbn [foldl concat]. rewrite app_assoc. apply IH; [|done].
  intros st. destruct (He st) as (s & out & E & Hs). destruct (call_tells m Hm (with_info (piped out) st)) as (s' & out' & E' & Hs').
  exists s', (out ++ out'). split; [|by apply shows_app].
  change (a_eval (expr_arg (Build SequenceFn (0, 0) [e; call_of m])) st)
    with (SequenceFn "(operator)" [expr_arg e; expr_arg (call_of m)] st).
  unfold SequenceFn, argv_at, Evaluate, EvaluateValue, bind. cbn [lookup list_lookup]. rewrite E. cbn [ret]. rewrite E'. unfold with_info, piped. cbn. by rewrite app_assoc.
Qed.

(** [C15] A script of [ui_print], [show_progress] and [set_progress] calls on
    literal arguments ends with status 0, changes nothing but the pipe, and
    recovery, reading the pipe line by line, shows what [screen] says: the
    non-empty lines of each text, one after the other and with a line break only
    behind the last ([line_break_is_lost]), and the progress, in the order of the
    script; it remembers no firmware update. Each line of a text has at most 1013
    bytes and no NUL, so that its command fits into recovery's buffer of 1024
    ([long_line_commands] for longer ones), and the fractions are printed as words
    of at most 1000. *)
Theorem messages_are_shown m ms scr u : Forall fits (m :: ms) -> exists out,
  run_script (script_of m ms) scr u = Done (0, piped out u) /\
  do_commands (length out) out None = Done (concat (screen <$> m :: ms), None).
Proof using All.
  intros Hf. apply Forall_cons in Hf as [Hm Hms].
  destruct (script_tells ms (call_of m) _ (call_tells m Hm) Hms (mkState u scr None [])) as (s & out & E & Hs).
  exists out. split.
  - unfold run_script, Evaluate, bind, script_of. by rewrite E.
  - specialize (Hs [] None). rewrite app_nil_r in Hs. rewrite Hs. cbn. by rewrite app_nil_r.
Qed.

End Messages.

Definition idle_info : UpdaterInfo (Dev := unit) := mkInfo (Run.mkWorld ∅ tt (fun _ => 0) 0 []) initial_globals [] [].

(** It holds of a script that talks in several ways. *)
Lemma messages_are_shown_witness : exists out,
  run_script (script_of str (SayProgress "0.5" "20") [SayText "Hello"; SayFraction "1.0"]) "" idle_info = Done (0, piped out idle_info) /\
  do_commands (length out) out None = Done (concat (screen str <$> [SayProgress "0.5" "20"; SayText "Hello"; SayFraction "1.0"]), None) /\
  concat (screen str <$> [SayProgress "0.5" "20"; SayText "Hello"; SayFraction "1.0"]) =
    [UShowProgress (str "0.5") 20; UPrint (str "Hello"); UPrint [10]; USetProgress (str "1.0")].
Proof.
  destruct (messages_are_shown str (SayProgress "0.5" "20") [SayText "Hello"; SayFraction "1.0"] "" idle_info) as (out & H1 & H2).
  - repeat apply Forall_cons_2; [..|apply Forall_nil_2]; (split; [|try by vm_compute; lia]); try closed_list;
      (split; [done|closed_list]).
  - exists out. split; [exact H1|]. split; [exact H2|by vm_compute].
Defined.

(** Two lines of one text become one line on the screen: the break between them
    is never sent. *)
Lemma line_break_is_lost : screen str (SayText (String.append "one" (String (ascii_of_nat 10) "two"))) =
  [UPrint (str "one"); UPrint (str "two"); UPrint [10]].
Proof. by vm_compute. Qed.

(** A line that does not fit is cut at 1023 bytes, and its rest is taken for a
    command: here the text of a message makes recovery remember a firmware update. *)
Lemma long_line_commands :
  do_commands 2000 (ui_print_line (repeat 32 1014 ++ str "firmware radio PACKAGE:x")) None =
  Done ([UPrint (repeat 32 1014)], Some (str "radio", str "PACKAGE:x")).
Proof. by vm_compute. Qed.

(** Recovery does not know the command that [wipe_cache] sends. *)
Lemma wipe_cache_is_unknown fw : do_command (str "wipe_cache" ++ [10]) fw = Some ([], fw).
Proof. by vm_compute. Qed.

(** ** The number of arguments *)

(** Numbers of arguments that a function refuses. *)
Definition refused (name : string) (n : Z) : bool :=
  match name with
  | "mount" => negb (n =? 4)
  | "format" => negb (n =? 5)
  | "show_progress" | "package_extract_dir" | "rename" => negb (n =? 2)
  | "is_mounted" | "unmount" | "set_progress" | "getprop" | "read_file" => negb (n =? 1)
  | "symlink" | "apply_patch_check" | "sha1_check" | "run_program" | "collect_backup_data" => n <? 1
  | "set_metadata" | "set_metadata_recursive" => negb (n mod 2 =? 1)
  | "package_extract_file" => negb ((n =? 1) || (n =? 2))
  | "set_perm" => n <? 4
  | "set_perm_recursive" => n <? 5
  | "apply_patch" => (n <? 6) || (n mod 2 =? 1)
  | "wipe_cache" => negb (n =? 0)
  | _ => false
  end.

Lemma substring_app a : forall n r, (String.length a <= n)%nat ->
  String.substring 0 n (a ++ r) = (a ++ String.substring 0 (n - String.length a) r)%string.
Proof.
  induction a as [|c a IH]; intros n r Hn; [by rewrite Nat.sub_0_r|].
  destruct n as [|n]; [cbn in Hn; lia|]. cbn in Hn.
  change (String c (String.substring 0 n (a +:+ r)) = String c (a +:+ String.substring 0 (n - String.length a) r)).
  by rewrite IH by lia.
Qed.

(** A message that starts with the name. *)
Lemma abort_named {C A} (m fname r : string) (st : Edify.State C) : m = (fname ++ "(" ++ r)%string -> (String.length fname < 4095)%nat ->
  exists msg, ErrorAbort (A := A) m st = Done (None, set_errmsg (fname ++ "(" ++ msg)%string st).
Proof.
  intros -> Hn. unfold ErrorAbort. rewrite substring_app by lia. eexists. do 3 f_equal.
  by rewrite (substring_app "(") by (cbn [String.length]; lia).
Qed.

Section Arity.
  Context {Dev : Type} {I : Inflater} {DO : DirOrder} (malloc_ok calloc_ok : Z -> bool) (fuel : nat).
  Context (kernel : forall c : call, Run.W tree Dev (answer c)) (strerror : Z -> string) (use_ext4 : bool) (BOARD_BML_BOOT : list Z).
  Context (package_zip : ZipArchive) (package_data : list Z) (print_frac : string -> list Z) (property_get : string -> string).
  Context (run_program : list string -> Run.W tree Dev Z) (SHA_hash : list Z -> list Z) (ParseSha1 : string -> option (list Z)).
  Context (applypatch : string -> string -> string -> Z -> list string -> list Value -> Run.W tree Dev Z).
  Context (applypatch_check : string -> list string -> Run.W tree Dev Z) (CacheSizeCheck : Z -> Run.W tree Dev Z).
  Context (LoadFileContents : string -> Run.W tree Dev (list Z + Z)).

Abbreviation functions := (install_functions malloc_ok calloc_ok fuel kernel strerror use_ext4 BOARD_BML_BOOT package_zip package_data
  print_frac property_get run_program SHA_hash ParseSha1 applypatch applypatch_check CacheSizeCheck LoadFileContents).

(** [C35] A function of the table that is called with a number of arguments it
    refuses evaluates none of them, changes nothing, and aborts the script with a
    message that starts with its name. *)
Theorem wrong_counts_are_refused fname fn argv st : (fname, fn) ∈ functions -> refused fname (argc argv) = true ->
  exists msg, fn fname argv st = Done (None, set_errmsg (fname ++ "(" ++ msg)%string st).
Proof using All.
  intros Hin Hr. unfold install_functions in Hin.
  repeat match type of Hin with
  | _ ∈ _ :: _ => apply elem_of_cons in Hin as [Hin|Hin];
      [apply pair_eq in Hin as [-> ->]; cbn [refused] in Hr; try discriminate Hr|]
  end; [..|by apply not_elem_of_nil in Hin].
  9: destruct argv; [|apply Z.ltb_lt in Hr; unfold argc in Hr; cbn [length] in Hr; lia].
  8: apply negb_true_iff, orb_false_iff in Hr as [Hr Hr2]; unfold PackageExtractFileFn; rewrite Hr2.
  all: unfold MountFn, IsMountedFn, UnmountFn, FormatFn, ShowProgressFn, SetProgressFn, PackageExtractDirFn, SymlinkFn, SetPermFn,
    SetMetadataFn, GetPropFn, ApplyPatchFn, ApplyPatchCheckFn, ReadFileFn, Sha1CheckFn, RenameFn, WipeCacheFn, RunProgramFn,
    CollectBackupDataFn, expects.
  all: cbn [String.eqb Ascii.eqb Bool.eqb]; try rewrite Hr; eapply abort_named; [reflexivity|cbn; lia].
Qed.

End Arity.

(** It holds of [mount] with one argument. *)
Lemma wrong_counts_are_refused_witness :
  refused "mount" 1 = true /\
  exists msg, MountFn (fun _ => Run.wlift Undef) "mount" [expr_arg (literal "/system")] (mkState idle_info "" None []) =
    Done (None, set_errmsg ("mount" ++ "(" ++ msg)%string (mkState idle_info "" None [])).
Proof.
  split; [reflexivity|].
  unshelve eapply (wrong_counts_are_refused (I := toy_inflater) (DO := tree_order)
    (fun _ => true) (fun _ => true) 0 (fun _ => Run.wlift Undef)
    (fun _ => "") true [] (mkArchive 0 [] (mkHashTable 0 0 0 [])) [] str (fun s => s) (fun _ => Run.wlift Undef) (fun d => d) (fun _ => None)
    (fun _ _ _ _ _ _ => Run.wlift Undef) (fun _ _ => Run.wlift Undef) (fun _ => Run.wlift Undef) (fun _ => Run.wlift Undef)); [|reflexivity].
  apply elem_of_cons. by left.
Defined.

(** ** Property files *)

(** The first line that decides. *)
Fixpoint first_prop (key : list Z) (lines : list (list Z)) : prop_line :=
  match lines with
  | [] => PSkip
  | l :: lines => match prop_of_line key l with PSkip => first_prop key lines | r => r end
  end.

Lemma prop_lines_first n key : forall s, nul_free s -> (length s < n)%nat ->
  prop_lines n key (s ++ [0]) = Done (first_prop key (tokens [10] s)).
Proof.
  induction n as [|n IH]; intros s Hs Hn; [lia|]. cbn [prop_lines].
  destruct (strtok_r_spec [10] eq_refl s [] Hs) as [(passed & -> & -> & _)|(tok & passed & rest & -> & -> & _ & Hr & Hrn)]; [done|].
  cbn [access mbind outcome_bind first_prop]. destruct (prop_of_line key tok); [apply IH; [done|lia]|done..].
Qed.

(** The file is read as the first of its lines that is about the key or wrong;
    a file without any line is looked at through a null pointer. *)
Lemma find_prop_first key s : nul_free s ->
  find_prop key s = match tokens [10] s with [] => Undef | lines => Done (first_prop key lines) end.
Proof.
  intros Hs. unfold find_prop.
  destruct (strtok_r_spec [10] eq_refl s [] Hs) as [(passed & -> & -> & _)|(tok & passed & rest & -> & -> & _ & Hr & Hrn)]; [done|].
  cbn [access mbind outcome_bind first_prop]. destruct (prop_of_line key tok); [|done..]. apply prop_lines_first; [done|lia].
Qed.

Lemma find_prop_empty key : find_prop key [] = Undef.
Proof. done. Qed.

(** *** Files of assignments *)

Definition prop_text (kvs : list (list Z * list Z)) : list Z := concat ((fun '(k, v) => k ++ 61 :: v ++ [10]) <$> kvs).

(** Keys that are not changed by reading them: no '=', no white space, and no
    comment sign in front. *)
Definition plain_key (k : list Z) : Prop := k <> [] /\ head k <> Some 35 /\ Forall (fun c => c <> 0 /\ c <> 61 /\ space c = false) k.

(** Values without white space at their ends. *)
Definition plain_value (v : list Z) : Prop :=
  Forall (fun c => c <> 0 /\ c <> 10) v /\ (forall c, head v = Some c -> space c = false) /\ (forall c, last v = Some c -> space c = false).

Lemma skip_while_none f s : (forall c, head s = Some c -> f c = false) -> skip_while f s = ([], s).
Proof. intros H. exact (skip_while_app f [] s (Forall_nil_2 _) H). Qed.

Lemma trim_end_id s : (forall c, last s = Some c -> space c = false) -> trim_end s = s.
Proof.
  intros H. destruct s as [|c s]; [done|]. cbn [trim_end]. f_equal. rewrite skip_while_none; cbn [snd]; [apply rev_involutive|].
  intros c' Hc'. apply H. destruct s as [|x s] using rev_ind; [done|]. rewrite rev_unit in Hc'. cbn in Hc'.
  rewrite app_comm_cons, last_snoc. done.
Qed.

Lemma last_Forall {A} (Q : A -> Prop) s c : Forall Q s -> last s = Some c -> Q c.
Proof. intros HF E. apply last_Some in E as (l & ->). apply Forall_app in HF as [_ HF]. by apply Forall_inv in HF. Qed.

Lemma prop_of_assignment key k v : plain_key k -> plain_value v ->
  prop_of_line key (k ++ 61 :: v) = if bool_decide (key = k) then PValue v else PSkip.
Proof.
  intros (Hne & Hc & Hk) (_ & Hv1 & Hv2). unfold prop_of_line. rewrite (skip_while_none space (k ++ 61 :: v)); cbn [snd].
  2: { destruct k as [|c k]; [done|]. intros c' [= <-]. apply Forall_inv in Hk; tauto. }
  destruct k as [|c k]; [done|]. cbn [app]. rewrite (proj2 (Z.eqb_neq c 35)) by (intros ->; by apply Hc).
  unfold split_equal. change (c :: k ++ 61 :: v) with ((c :: k) ++ 61 :: v). rewrite skip_while_app; [|..].
  - rewrite trim_end_id by (intros c' Hc'; eapply (last_Forall _ _ _ Hk) in Hc'; tauto).
    rewrite (skip_while_none space v) by done. cbn [snd]. by rewrite trim_end_id.
  - eapply Forall_impl; [exact Hk|]. cbn. intros x (_ & Hx & _). by rewrite (proj2 (Z.eqb_neq x 61)).
  - by intros c' [= <-].
Qed.

Lemma space_newline c : space c = false -> c <> 10.
Proof. by intros H ->. Qed.

Lemma tokens_assignments kvs : Forall (fun '(k, v) => plain_key k /\ plain_value v) kvs ->
  tokens [10] (prop_text kvs) = (fun '(k, v) => k ++ 61 :: v) <$> kvs.
Proof.
  induction 1 as [|[k v] kvs [(Hne & _ & Hk) (Hv & _)] Hs IH]; [done|]. unfold prop_text in *. rewrite !fmap_cons. cbn [concat].
  replace ((k ++ 61 :: v ++ [10]) ++ concat ((fun '(k, v) => k ++ 61 :: v ++ [10]) <$> kvs))
    with ((k ++ 61 :: v) ++ 10 :: concat ((fun '(k, v) => k ++ 61 :: v ++ [10]) <$> kvs)) by (rewrite <- !app_assoc; cbn; by rewrite <- app_assoc).
  rewrite tokens_delim; [by rewrite IH|done| |by destruct k].
  apply Forall_app. split; [|constructor; [done|]]; (eapply Forall_impl; [eassumption|]); cbn; intros c Hc;
    apply (newline_is c); [by apply space_newline; tauto|unfold NEWLINE; tauto].
Qed.

Lemma nul_free_assignments kvs : Forall (fun '(k, v) => plain_key k /\ plain_value v) kvs -> nul_free (prop_text kvs).
Proof.
  induction 1 as [|[k v] kvs [(_ & _ & Hk) (Hv & _)] Hs IH]; [constructor|]. unfold prop_text. rewrite fmap_cons. cbn [concat].
  apply nul_free_app. split; [|exact IH]. apply nul_free_app. split; [eapply Forall_impl; [exact Hk|]; cbn; tauto|].
  constructor; [done|]. apply nul_free_app. split; [eapply Forall_impl; [exact Hv|]; cbn; tauto|]. by repeat constructor.
Qed.

(** The value that was assigned first. *)
Definition assigned (key : list Z) (kvs : list (list Z * list Z)) : option (list Z) :=
  snd <$> find (fun kv => bool_decide (key = kv.1)) kvs.

Lemma first_assigned key kvs : Forall (fun '(k, v) => plain_key k /\ plain_value v) kvs ->
  first_prop key ((fun '(k, v) => k ++ 61 :: v) <$> kvs) = match assigned key kvs with Some v => PValue v | None => PSkip end.
Proof.
  unfold assigned. induction 1 as [|[k v] kvs [Hk Hv] Hs IH]; [done|]. rewrite fmap_cons. cbn [first_prop find fst].
  rewrite prop_of_assignment by done. by destruct (bool_decide (key = k)).
Qed.

Section FileGetProp.
  Context {Dev : Type} (malloc_ok : Z -> bool) (strerror : Z -> string).
  Abbreviation world := (Run.world tree Dev).

Lemma stat_calm (s : list Z) (w : world) p i : calm w -> resolve true (w_fs w) s = Found p -> w_fs w !! p = Some i ->
  sys_stat s w = (Done (inl i), asked w).
Proof.
  intros Hc Hr Hi. unfold sys_stat, sys_stat_at, syscall, wbind, ask, get_fs. cbn.
  rewrite (proj2 (Z.ltb_ge _ 0)) by apply Hc. by rewrite Hr, Hi.
Qed.

Lemma fopen_calm (s : list Z) (w : world) p i : calm w -> resolve true (w_fs w) s = Found p -> w_fs w !! p = Some i ->
  fopen_r s w = (Done (inl (mkR p 0)), asked w).
Proof.
  intros Hc Hr Hi. unfold fopen_r, syscall, wbind, ask, get_fs. cbn.
  rewrite (proj2 (Z.ltb_ge _ 0)) by apply Hc. by rewrite Hr, Hi.
Qed.

Lemma fread_calm (w : world) p i data : calm w -> w_fs w !! p = Some i -> node_data i = Some data ->
  fread (zlen data) (mkR p 0) w = (Done (data, mkR p (zlen data)), asked w).
Proof.
  intros Hc Hi Hd. unfold fread, take_input, wbind, ask, get_fs, unread. cbn.
  rewrite (proj2 (Z.ltb_ge _ 0)) by apply Hc. rewrite Hi, Hd. cbn. by rewrite Nat2Z.id, take_ge by done.
Qed.

(** The state with another world. *)
Definition in_world (w : world) (st : State (UpdaterInfo (Dev := Dev))) : State UpdaterInfo :=
  with_info (fun u => mkInfo w (u_globals u) (cmd_pipe u) (bakfiles u)) st.

Lemma sys_step {A B} (m : Run.W tree Dev A) (k : A -> Edify.M UpdaterInfo B) st a w' :
  m (u_world (cookie st)) = (Done a, w') -> bind (sys m) k st = k a (in_world w' st).
Proof. intros E. unfold bind, sys. by rewrite E. Qed.

(** [file_getprop] on a file of assignments, one per line: the value is the
    one that was assigned to the key first, and empty for a key that is not
    there.  The disk and the pipe stay as they are. *)
Theorem file_getprop_reads fname filename key kvs p i st :
  let w := u_world (Dev := Dev) (cookie st) in
  calm w -> resolve true (w_fs w) (str filename) = Found p -> w_fs w !! p = Some i -> node_data i = Some (prop_text kvs) ->
  zlen (prop_text kvs) <= MAX_FILE_GETPROP_SIZE -> malloc_ok (zlen (prop_text kvs) + 1) = true ->
  kvs <> [] -> Forall (fun '(k, v) => plain_key k /\ plain_value v) kvs ->
  FileGetPropFn malloc_ok strerror fname [expr_arg (literal filename); expr_arg (literal key)] st =
    Done (Some (VAL_STRING (text (default [] (assigned (str key) kvs)))), in_world (asked (asked (asked w))) st).
Proof using All.
  intros w Hc Hr Hi Hd Hz Hm Hne Hk. unfold FileGetPropFn.
  match goal with |- bind _ ?k st = _ => change (k [filename; key] st = Done (Some (VAL_STRING (text (default [] (assigned (str key) kvs)))), in_world (asked (asked (asked w))) st)) end.
  cbn [two]. erewrite sys_step by (by eapply stat_calm). cbn beta iota zeta.
  assert (st_size i = zlen (prop_text kvs)) as -> by (unfold st_size, is_dir, node_data in *; destruct (i_kind i); simplify_eq/=; by rewrite ?Hd).
  rewrite (proj2 (Z.ltb_ge _ _)) by done. rewrite Hm. cbn [negb].
  erewrite sys_step by (eapply fopen_calm; [exact Hc|exact Hr|exact Hi]). cbn beta iota zeta.
  erewrite sys_step by (eapply fread_calm; [exact Hc|exact Hi|exact Hd]). cbn beta iota zeta.
  rewrite Z.eqb_refl. cbn [negb]. rewrite find_prop_first by (by apply nul_free_assignments).
  pose proof (first_assigned (str key) kvs Hk) as E. rewrite tokens_assignments by done.
  destruct (_ <$> kvs) as [|l ls] eqn:El; [by destruct kvs|]. rewrite E. by destruct (assigned _ _).
Qed.

End FileGetProp.

(** It holds of a file with two lines. *)
Definition demo_props : list (list Z * list Z) := [(str "ro.product", str "sc8830"); (str "ro.build", str "jb 4.1")].
Definition demo_prop_info : UpdaterInfo (Dev := unit) :=
  mkInfo (Run.mkWorld {[ [] := mkInode KDir 493 0 0 None; [str "p"] := mkInode (KFile (prop_text demo_props)) 420 0 0 None ]} tt (fun _ => 1) 0 [])
    initial_globals [] [].

Lemma file_getprop_reads_witness :
  FileGetPropFn (fun _ => true) (fun _ => "") "file_getprop" [expr_arg (literal "/p"); expr_arg (literal "ro.build")] (mkState demo_prop_info "" None []) =
    Done (Some (VAL_STRING "jb 4.1"), in_world (asked (asked (asked (u_world demo_prop_info)))) (mkState demo_prop_info "" None [])).
Proof.
  apply (file_getprop_reads (fun _ => true) (fun _ => "") "file_getprop" "/p" "ro.build" demo_props [str "p"]
    (mkInode (KFile (prop_text demo_props)) 420 0 0 None) (mkState demo_prop_info "" None [])); try done; try by vm_compute.
  repeat apply Forall_cons_2; [..|apply Forall_nil_2]; (split; [split_and!; [done|done|closed_list]|split_and!; [closed_list|..]]);
    intros c [= <-]; done.
Defined.

(** ** Where errors get lost *)

Section Lost.
  Context {Dev : Type} {DO : DirOrder} (fuel : nat) (strerror : Z -> string).
  Context (kernel : forall c : call, Run.W tree Dev (answer c)).

(** [set_metadata] of a file that is not there succeeds: only the message is
    set, which the next one replaces. *)
Theorem set_metadata_of_missing fname filename dir c st :
  let w := u_world (Dev := Dev) (cookie st) in
  calm w -> resolve false (w_fs w) (str filename) = Absent dir c ->
  exists msg, SetMetadataFn fuel strerror fname [expr_arg (literal filename)] st =
    Done (Some (VAL_STRING ""), set_errmsg msg (in_world (asked w) st)).
Proof.
  intros w Hc Hr. unfold SetMetadataFn.
  match goal with |- exists msg, (if _ then _ else bind _ ?k) st = _ => change (exists msg, k [filename] st = Done (Some (VAL_STRING ""), set_errmsg msg (in_world (asked w) st))) end.
  assert (sys_lstat (str filename) w = (Done (inr ENOENT), asked w)) as E.
  { unfold sys_lstat, sys_stat_at, syscall, wbind, ask, get_fs. cbn. rewrite (proj2 (Z.ltb_ge _ 0)) by apply Hc. by rewrite Hr. }
  cbn beta iota. rewrite (sys_step _ _ _ _ _ E). eexists. reflexivity.
Qed.

(** [format] of an unknown kind of file system aborts without a message. *)
Theorem format_unknown_is_silent use_ext4 fname fs_type location size mount_point st :
  fs_type <> "" -> fs_type <> "ext4" -> location <> "" -> mount_point <> "" ->
  FormatFn kernel use_ext4 fname (expr_arg <$> [literal fs_type; literal "EMMC"; literal location; literal size; literal mount_point]) st =
    Done (None, st).
Proof.
  intros H1 H2 H3 H4. unfold FormatFn.
  match goal with |- (if _ then _ else bind _ ?k) st = _ => change (k [fs_type; "EMMC"; location; size; mount_point] st = Done (None, st)) end.
  cbn iota beta. rewrite !(bool_decide_false _) by done.
  change (String.eqb "EMMC" "MTD") with false. rewrite (proj2 (String.eqb_neq _ _) H2). by rewrite andb_false_r.
Qed.

(** [apply_patch] looks into the values of its patches before it knows that they
    could be read. *)
Theorem apply_patch_looks_into_null applypatch fname src tgt sha size b st :
  byte_count size <> None -> (str src ∉ bakfiles (Dev := Dev) (cookie st)) ->
  ApplyPatchFn applypatch fname (expr_arg <$> [literal src; literal tgt; literal sha; literal size;
    mkExpr AbortFn "abort" [] 0 0; b]) st = Undef.
Proof.
  intros Hs Hb. unfold ApplyPatchFn.
  match goal with |- (if _ then _ else bind _ ?k) st = _ => change (k [src; tgt; sha; size] st = Undef) end.
  cbn iota beta. unfold bind at 1, get_bakfiles at 1. cbn iota beta. rewrite bool_decide_false by done.
  destruct (byte_count size) as [n|]; [|done]. reflexivity.
Qed.

End Lost.
