(* ===== verification/Dedupe.v ===== *)
(** * Deduplicating backups ([dedupe/dedupe.c])

    A backup is a manifest, with a line per node of a directory tree, and a
    directory of blobs, one per content, that all backups share.  [c] makes a
    backup, [x] restores one, [gc] removes the blobs that no manifest names.
    What is printed is left out, and so are security labels but for their text in
    the manifest.  A relative path is resolved as the absolute path with the
    working directory in front. *)
From stdpp Require Import pretty sorting.
From S2P Require Import Prelude.
From S2P Require Import Cstring.
From S2P Require Import Cbuf.
From S2P Require Import Scanf.
From S2P Require Import Posix.
From S2P Require Import Numerals.
From S2P Require Import Stdio.
Local Open Scope string_scope.
Local Open Scope Z_scope.
Local Open Scope list_scope.

Definition DEDUPE_VERSION : Z := 2.
Definition BUFSIZ : Z := 1024.
Definition TAB : Z := 9.

(** ** Text *)

(** "%o". *)
Fixpoint octal_digits (n : nat) (v : Z) : list Z :=
  match n with
  | O => []
  | S n => if v <? 8 then [48 + v] else octal_digits n (v / 8) ++ [48 + v mod 8]
  end.
Definition octal (v : Z) : list Z := octal_digits 11 v.

(** "%lu" and "%d". *)
Definition decimal (v : Z) : list Z := str (pretty v).

(** [strcmp], of bytes without their terminator. *)
Fixpoint strcmp (a b : list Z) : Z :=
  match a, b with
  | [], [] => 0
  | [], _ => -1
  | _, [] => 1
  | x :: a, y :: b => if x <? y then -1 else if y <? x then 1 else strcmp a b
  end.

(** [string_compare(a, b) <= 0]. *)
Definition string_le (a b : list Z) : Prop := strcmp a b <= 0.
#[export] Instance string_le_dec : RelDecision string_le.
Proof. intros a b. unfold string_le. apply _. Defined.

(** The text into a buffer of [n] bytes. *)
Definition fits_buffer (n : Z) (s : list Z) : outcome (list Z) := if zlen s <? n then Done s else Undef.

(** [tokenize(out, line, sep)] into a buffer of [n] bytes: what is copied, and
    where to resume.  Without a separator [out] is not terminated and NULL is
    returned; nothing can be done with either. *)
Fixpoint tokenize_upto (line : list Z) (sep : Z) : option (list Z * list Z) :=
  match line with
  | [] => None
  | c :: line => if c =? sep then Some ([], line) else '(out, rest) ← tokenize_upto line sep; Some (c :: out, rest)
  end.

Definition tokenize (n : Z) (line : list Z) (sep : Z) : outcome (list Z * list Z) :=
  '(out, rest) ← access (tokenize_upto line sep); out ← fits_buffer n out; Done (out, rest).

Fixpoint dec_to_oct_loop (n : nat) (dec ret mult : Z) : outcome Z :=
  match n with
  | O => Diverge
  | S n =>
      if dec =? 0 then Done ret
      else dec_to_oct_loop n (Z.quot dec 10) (swrap 32 (ret + swrap 32 (Z.rem dec 10 * mult))) (swrap 32 (mult * 8))
  end.

Definition dec_to_oct (dec : Z) : outcome Z := dec_to_oct_loop 11 dec 0 1.

(** A path from the names, and [s] from the directory [cwd]. *)
Definition path_text (p : path) : list Z := concat (cons SLASH <$> p).
Definition from (cwd : path) (s : list Z) : list Z :=
  match s with
  | [] => []
  | c :: _ => if c =? SLASH then s else path_text cwd ++ SLASH :: s
  end.

(** ** Lines of a manifest *)

Record line := mkLine {
  l_type : list Z;
  l_mode : list Z;
  l_uid : list Z;
  l_gid : list Z;
  l_selabel : list Z;
  l_at : list Z;
  l_mt : list Z;
  l_filename : list Z
}.

(** The fields of a line that every type has, and the rest. *)
Definition parse_line (version : Z) (s : list Z) : outcome (line * list Z) :=
  '(type, s) ← tokenize 4 s TAB;
  '(mode, s) ← tokenize 8 s TAB;
  '(uid, s) ← tokenize 32 s TAB;
  '(gid, s) ← tokenize 32 s TAB;
  '(selabel, s) ← tokenize PATH_MAX s TAB;
  '(at_, mt, s) ← (if 2 <=? version then
      '(at_, s) ← tokenize 32 s TAB;
      '(mt, s) ← tokenize 32 s TAB;
      '(_, s) ← tokenize 32 s TAB;
      Done (at_, mt, s)
    else Done ([], [], s));
  '(filename, s) ← tokenize PATH_MAX s TAB;
  Done (mkLine type mode uid gid selabel at_ mt filename, s).

(** The key and the size behind a file's line. *)
Definition parse_blob (s : list Z) : outcome (list Z) :=
  '(key, s) ← tokenize 128 s TAB;
  '(_, _) ← tokenize 32 s TAB;
  Done key.

(** [sscanf(line, "dedupe\t%d", &version)]. *)
Definition parse_version (s : list Z) : option Z :=
  t ← scan_literal "dedupe" (text s); '(v, _) ← scan_d (skip_spaces t); Some v.

Section Dedupe.
  Context {Dev : Type} {DO : DirOrder} (fuel : nat).
  (** SHA-256, and the label of a file. *)
  Context (SHA256 : list Z -> list Z) (lgetfilecon : list Z -> option (list Z)).
  Abbreviation W := (W tree Dev).

(** ** Files *)

(** [read] at a position: [None] for -1. *)
Definition sys_read (p : path) (pos n : Z) : W (option (list Z)) :=
  let! a := ask in
  let! fs := get_fs in
  wret (if a <? 0 then None
        else i ← fs !! p; d ← node_data i; Some (take (Z.to_nat n) (drop (Z.to_nat pos) d))).

(** When [read] fails, [write] is given -1 as the size and fails as well: as the
    two results are equal, the loop goes on. *)
Fixpoint copy_loop (n : nat) (src : path) (pos : Z) (dst : path) : W Z :=
  match n with
  | O => wlift Diverge
  | S n =>
      let! buf := sys_read src pos 4096 in
      match buf with
      | None => copy_loop n src pos dst
      | Some [] => wret 0
      | Some buf =>
          let! written := sys_write dst buf in
          if negb (written =? zlen buf) then wret 5 else copy_loop n src (pos + zlen buf) dst
      end
  end.

Definition copy_file (src dst : list Z) : W Z :=
  let! srcfd := fopen_r src in
  match srcfd with
  | inr _ => wret 3
  | inl srcfd =>
      let! dstfd := sys_creat dst 438 in
      match dstfd with
      | inr _ => wret 4
      | inl dstfd => copy_loop fuel (r_node srcfd) 0 dstfd
      end
  end.

(** The loop up to the end of the file; an error is not the end. *)
Fixpoint sha256_loop (n : nat) (f : rfile) (data : list Z) : W (list Z) :=
  match n with
  | O => wlift Diverge
  | S n =>
      let! buf := sys_read (r_node f) (r_pos f) BUFSIZ in
      match buf with
      | None => sha256_loop n f data
      | Some buf =>
          if zlen buf <? BUFSIZ then wret (data ++ buf)
          else sha256_loop n (mkR (r_node f) (r_pos f + zlen buf)) (data ++ buf)
      end
  end.

(** The digest, or the return value. *)
Definition do_sha256sum_file (filename : list Z) : W (list Z + Z) :=
  let! f := fopen_r filename in
  match f with
  | inr _ => wret (inr 1)
  | inl f => let! data := sha256_loop fuel f [] in wret (inl (SHA256 data))
  end.

(** [realpath]: the path without links. *)
Definition realpath (s : list Z) : W (option (list Z)) :=
  syscall None (fun fs =>
    wret match resolve true fs s with
         | Found [] => if decide (is_Some (fs !! [])) then Some [SLASH] else None
         | Found p => if decide (is_Some (fs !! p)) then Some (path_text p) else None
         | _ => None
         end).

(** [chdir]: the new working directory. *)
Definition chdir (s : list Z) : W (option path) :=
  syscall None (fun fs =>
    wret match resolve true fs s with
         | Found p => if decide (option_map is_dir (fs !! p) = Some true) then Some p else None
         | _ => None
         end).

Definition lchown (s : list Z) (uid gid : Z) : W Z :=
  syscall EIO (fun fs =>
    match resolve false fs s with
    | Found p => match fs !! p with
        | Some i => let! _ := set_fs (<[p := with_owner uid gid i]> fs) in wret 0
        | None => wret ENOENT
        end
    | Absent _ _ => wret ENOENT
    | Err e => wret e
    end).

(** ** Making a backup *)

(** [blob_dir] is [None] when [realpath] failed and left it as it was. *)
Record DEDUPE_STORE_CONTEXT := mkContext { blob_dir : option (list Z); excludes : list (list Z); cwd : path }.

(** [fprintf(context->output_manifest, ...)]; nobody looks at its result. *)
Definition fput (s : list Z) (f : wfile) : W wfile := let! (_, f) := fwrite s f in wret f.

Definition tabbed (l : list (list Z)) : list Z := concat ((fun s => s ++ [TAB]) <$> l).

(** The times of a node: the one of [utime] or what the system says. *)
Definition print_stat (type : Z) (st : inode) (selabel f : list Z) (m : wfile) : W wfile :=
  let! at_ := ask in
  let! mt := ask in
  let! ct := ask in
  fput (tabbed [[type]; octal (i_mode st .& 3583); decimal (wrap 32 (i_uid st)); decimal (wrap 32 (i_gid st)); selabel;
                decimal (wrap 32 at_); decimal (wrap 32 (default mt (i_time st))); decimal (wrap 32 ct); f]) m.

(** The name of a blob: abc/defg for the digest abcdefg. *)
Definition blob_key (digest : list Z) : list Z :=
  let psum := concat (hex_byte <$> digest) in take 3 psum ++ SLASH :: drop 3 psum.

(** [dirname]: up to the last slash. *)
Definition dirname (s : list Z) : list Z := rev (drop 1 (skip_while (fun c => negb (c =? SLASH)) (rev s)).2).

Definition file_size (st : inode) : Z := swrap 32 (zlen (default [] (node_data st))).

Definition store_file (context : DEDUPE_STORE_CONTEXT) (st : inode) (f : list Z) (m : wfile) : W (Z * wfile) :=
  let! sum := do_sha256sum_file (from (cwd context) f) in
  match sum with
  | inr ret => wret (ret, m)
  | inl sumdata =>
      let key := blob_key sumdata in
      let! out_blob := wlift (blob_dir ← access (blob_dir context); fits_buffer PATH_MAX (blob_dir ++ SLASH :: key)) in
      let! tmp_out_blob := wlift (fits_buffer PATH_MAX (out_blob ++ str ".tmp")) in
      let! _ := sys_mkdir (dirname out_blob) 511 in
      let size := file_size st in
      let! file_info := sys_stat out_blob in
      let file_ok := match file_info with inl i => file_size i =? size | inr _ => false end in
      let! ret := if file_ok then wret 0
                  else
                    let! ret := copy_file (from (cwd context) f) tmp_out_blob in
                    if negb (ret =? 0) then wret ret
                    else let! r := sys_rename tmp_out_blob out_blob in wret (if r =? 0 then 0 else -1) in
      if negb (ret =? 0) then wret (ret, m)
      else let! m := fput (tabbed [key; decimal size] ++ [10]) m in wret (0, m)
  end.

Definition store_link (context : DEDUPE_STORE_CONTEXT) (l : list Z) (m : wfile) : W (Z * wfile) :=
  let! link := sys_readlink (from (cwd context) l) PATH_MAX in
  match link with
  | inr e => wret (e, m)
  | inl link =>
      let! link := wlift (fits_buffer PATH_MAX link) in
      let! m := fput (tabbed [link] ++ [10]) m in wret (0, m)
  end.

(** [store_st], with [store_dir] of the next level. *)
Definition store_st (store_dir : list Z -> wfile -> W (Z * wfile)) (context : DEDUPE_STORE_CONTEXT) (st : inode) (s : list Z)
    (m : wfile) : W (Z * wfile) :=
  let selabel := default (str "unlabel") (lgetfilecon s) in
  match i_kind st with
  | KFile _ => let! m := print_stat 102 st selabel s m in store_file context st s m
  | KDir => let! m := print_stat 100 st selabel s m in let! m := fput [10] m in store_dir s m
  | KLink _ => let! m := print_stat 108 st selabel s m in store_link context s m
  | KBlock _ => wret (0, m)
  end.

Fixpoint store_entries (store : inode -> list Z -> wfile -> W (Z * wfile)) (context : DEDUPE_STORE_CONTEXT) (d : list Z)
    (entries : list name) (m : wfile) : W (Z * wfile) :=
  match entries with
  | [] => wret (0, m)
  | c :: entries =>
      if bool_decide (c = DOT) || bool_decide (c = DOTDOT) then store_entries store context d entries m
      else
        let! full_path := wlift (fits_buffer PATH_MAX (d ++ SLASH :: c)) in
        if bool_decide (full_path ∈ excludes context) then store_entries store context d entries m
        else
          let! cst := sys_lstat (from (cwd context) full_path) in
          match cst with
          | inr _ => wret (-1, m)
          | inl cst =>
              let! (ret, m) := store cst full_path m in
              if negb (ret =? 0) then wret (ret, m) else store_entries store context d entries m
          end
  end.

Fixpoint store_dir (n : nat) (context : DEDUPE_STORE_CONTEXT) (d : list Z) (m : wfile) : W (Z * wfile) :=
  match n with
  | O => wlift Diverge
  | S n =>
      let! dp := sys_opendir (from (cwd context) d) in
      match dp with
      | inr _ => wret (1, m)
      | inl entries => store_entries (store_st (store_dir n context) context) context d entries m
      end
  end.

(** "c": the manifest is closed, and so written, when the process exits.  It is
    written to before it is known to be open. *)
Definition dedupe_c (input_directory blobs output_manifest : list Z) (excluded : list (list Z)) : W Z :=
  let! st := sys_lstat input_directory in
  match st with
  | inr _ => wret (-1)
  | inl st =>
      if negb (is_dir st) then wret 1
      else
        let! m := fopen_w output_manifest in
        match m with
        | inr _ => wlift Undef
        | inl m =>
            let! m := fput (str "dedupe" ++ TAB :: decimal DEDUPE_VERSION ++ [10]) m in
            let! _ := sys_mkdir blobs 511 in
            let! blob_dir := realpath blobs in
            let! dir := chdir input_directory in
            let! (ret, m) := store_dir fuel (mkContext blob_dir excluded (default [] dir)) (str ".") m in
            let! _ := fclose m in
            wret ret
        end
  end.

(** ** Restoring *)

(** The first line, and the stream behind it, or at the start again when there is
    no version. *)
Definition read_version (f : rfile) : W (Z * rfile) :=
  let! (s, f1) := fgets PATH_MAX f in
  match s with
  | None => wlift Undef
  | Some s => wret match parse_version (cstr (s ++ [0])) with Some v => (v, f1) | None => (1, mkR (r_node f) 0) end
  end.

(** A line of the manifest, in the directory [dir]: 0 to go on. *)
Definition restore_line (version : Z) (dir : path) (blobs : option (list Z)) (s : list Z) : W Z :=
  let! (l, s) := wlift (parse_line version (cstr (s ++ [0]))) in
  let! mode := wlift (dec_to_oct (atoi (l_mode l))) in
  let uid := atoi (l_uid l) in
  let gid := atoi (l_gid l) in
  let filename := from dir (l_filename l) in
  let! ret :=
    if bool_decide (l_type l = str "f") then
      let! key := wlift (parse_blob s) in
      let! blob_file := wlift (blob_dir ← access blobs; fits_buffer PATH_MAX (blob_dir ++ SLASH :: key)) in
      let! ret := copy_file blob_file filename in
      if negb (ret =? 0) then wret ret
      else
        let! _ := sys_chown filename uid gid in
        let! _ := sys_chmod filename mode in
        wret 0
    else if bool_decide (l_type l = str "l") then
      let! (link, _) := wlift (tokenize 41 s TAB) in
      let! _ := sys_symlink link filename in
      let! _ := lchown filename uid gid in
      wret 0
    else if bool_decide (l_type l = str "d") then
      let! _ := sys_mkdir filename mode in
      let! _ := sys_chown filename uid gid in
      let! _ := sys_chmod filename mode in
      wret 0
    else wret 1 in
  if negb (ret =? 0) then wret ret
  else
    let! _ := if 2 <=? version then sys_utime filename (atoi (l_mt l)) else wret 0 in
    wret 0.

Fixpoint restore_lines (n : nat) (version : Z) (dir : path) (blobs : option (list Z)) (f : rfile) : W Z :=
  match n with
  | O => wlift Diverge
  | S n =>
      let! (s, f) := fgets PATH_MAX f in
      match s with
      | None => wret 0
      | Some s =>
          let! ret := restore_line version dir blobs s in
          if negb (ret =? 0) then wret ret else restore_lines n version dir blobs f
      end
  end.

(** "x". *)
Definition dedupe_x (input_manifest blobs output_dir : list Z) : W Z :=
  let! f := fopen_r input_manifest in
  match f with
  | inr _ => wret 1
  | inl f =>
      let! blob_dir := realpath blobs in
      let! _ := sys_mkdir output_dir 511 in
      let! dir := chdir output_dir in
      match dir with
      | None => wret 1
      | Some dir =>
          let! (version, f) := read_version f in
          if DEDUPE_VERSION <? version then wret 1
          else restore_lines fuel version dir blob_dir f
      end
  end.

(** ** Removing blobs that no manifest names *)

(** [recursive_list_dir]: what is not a directory; what cannot be opened is
    passed over. *)
Fixpoint list_entries (list_dir : list Z -> W (list (list Z))) (d : list Z) (entries : list name) : W (list (list Z)) :=
  match entries with
  | [] => wret []
  | c :: entries =>
      if bool_decide (c = DOT) || bool_decide (c = DOTDOT) then list_entries list_dir d entries
      else
        let! blob := wlift (fits_buffer PATH_MAX (d ++ SLASH :: c)) in
        let! cst := sys_lstat blob in
        let! here := match cst with
          | inr _ => wret []
          | inl cst => if is_dir cst then list_dir blob else wret [blob]
          end in
        let! rest := list_entries list_dir d entries in
        wret (here ++ rest)
  end.

Fixpoint recursive_list_dir (n : nat) (d : list Z) : W (list (list Z)) :=
  match n with
  | O => wlift Diverge
  | S n =>
      let! dp := sys_opendir d in
      match dp with
      | inr _ => wret []
      | inl entries => list_entries (recursive_list_dir n) d entries
      end
  end.

(** The blob a line names, if it is a file's. *)
Definition line_blob (version : Z) (blobs s : list Z) : outcome (list (list Z)) :=
  '(l, s) ← parse_line version (cstr (s ++ [0]));
  _ ← dec_to_oct (atoi (l_mode l));
  if bool_decide (l_type l = str "f") then
    key ← parse_blob s; blob ← fits_buffer PATH_MAX (blobs ++ SLASH :: key); Done [blob]
  else Done [].

Fixpoint used_lines (n : nat) (version : Z) (blobs : list Z) (f : rfile) : W (list (list Z)) :=
  match n with
  | O => wlift Diverge
  | S n =>
      let! (s, f) := fgets PATH_MAX f in
      match s with
      | None => wret []
      | Some s =>
          let! here := wlift (line_blob version blobs s) in
          let! rest := used_lines n version blobs f in
          wret (here ++ rest)
      end
  end.

(** The loop over the manifests: the blobs they name, the failure, and whether to
    go on.  A manifest that cannot be opened ends the program, one of a newer
    version only the loop. *)
Fixpoint used_files (blobs : list Z) (manifests : list (list Z)) : W (list (list Z) * Z * bool) :=
  match manifests with
  | [] => wret ([], 0, true)
  | manifest :: manifests =>
      let! f := fopen_r manifest in
      match f with
      | inr _ => wret ([], 1, false)
      | inl f =>
          let! (version, f) := read_version f in
          if DEDUPE_VERSION <? version then wret ([], 1, true)
          else
            let! here := used_lines fuel version blobs f in
            let! (rest, failure, go) := used_files blobs manifests in
            wret (here ++ rest, failure, go)
      end
  end.

(** [while (j < used_files.size && strcmp(used_files.data[j], a) < 0) j++;] *)
Fixpoint skip_less (used : list (list Z)) (a : list Z) : list (list Z) :=
  match used with
  | [] => []
  | u :: used' => if strcmp u a <? 0 then skip_less used' a else used
  end.

(** The search of the sorted lists, for what is left of the used files. *)
Fixpoint unused (used all : list (list Z)) : list (list Z) :=
  match all with
  | [] => []
  | a :: all =>
      let used := skip_less used a in
      match used with
      | [] => a :: unused used all
      | u :: _ => if 0 <? strcmp u a then a :: unused used all else unused used all
      end
  end.

Fixpoint remove_unused (files : list (list Z)) : W unit :=
  match files with
  | [] => wret tt
  | f :: files => let! _ := sys_unlink f in remove_unused files
  end.

Definition dedupe_gc (blobs : list Z) (manifests : list (list Z)) : W Z :=
  let! blob_dir := realpath blobs in
  let! blob_dir := wlift (access blob_dir) in
  let! st := sys_lstat blob_dir in
  match st with
  | inr _ => wret 1
  | inl _ =>
      let! (used, failure, go) := used_files blob_dir manifests in
      if negb go then wret failure
      else
        let! all := recursive_list_dir fuel blob_dir in
        let! _ := remove_unused (unused (merge_sort string_le used) (merge_sort string_le all)) in
        wret failure
  end.

(** ** The program *)

Definition dedupe_main (argv : list (list Z)) : W Z :=
  match argv with
  | _ :: cmd :: a :: args =>
      if bool_decide (cmd = str "c") then
        match args with b :: m :: excluded => dedupe_c a b m excluded | _ => wret 1 end
      else if bool_decide (cmd = str "x") then
        match args with [b; o] => dedupe_x a b o | _ => wret 1 end
      else if bool_decide (cmd = str "gc") then dedupe_gc a args
      else wret 1
  | _ => wret 1
  end.

End Dedupe.
