(* ===== verification/DedupeFacts.v ===== *)
(** * Blobs that no manifest names ([dedupe gc])

    The search in the sorted lists finds exactly the files that are not used, and
    [gc] removes exactly these, at every moment; and it removes blobs that are
    used when a manifest is of a newer version. *)
From stdpp Require Import pretty sorting.
From S2P Require Import Prelude.
From S2P Require Import Cbuf.
From S2P Require Import Posix.
From S2P Require Import PosixFacts.
From S2P Require Import Numerals.
From S2P Require Import Stdio.
From S2P Require Import DirUtil.
From S2P Require Import DirTrees.
From S2P Require Import Views.
From S2P Require Import TextLines.
From S2P Require Import Dedupe.
Local Open Scope string_scope.
Local Open Scope Z_scope.
Local Open Scope list_scope.

(** ** The order of strings *)

Lemma strcmp_refl a : strcmp a a = 0.
Proof. induction a as [|x a IH]; [done|]. cbn. by rewrite Z.ltb_irrefl. Qed.

Lemma strcmp_eq a : forall b, strcmp a b = 0 -> a = b.
Proof.
  induction a as [|x a IH]; intros [|y b]; cbn; try done.
  destruct (x <? y) eqn:E1; [done|]. destruct (y <? x) eqn:E2; [done|]. bool_to_prop. intros H. f_equal; [lia|auto].
Qed.

Lemma strcmp_antisym a : forall b, strcmp b a = - strcmp a b.
Proof.
  induction a as [|x a IH]; intros [|y b]; cbn; try done.
  destruct (x <? y) eqn:E1, (y <? x) eqn:E2; bool_to_prop; try lia. apply IH.
Qed.

Lemma strcmp_trans a : forall b c, strcmp a b <= 0 -> strcmp b c <= 0 -> strcmp a c <= 0.
Proof.
  induction a as [|x a IH]; intros [|y b] [|z c]; cbn; try lia.
  destruct (x <? y) eqn:E1, (y <? x) eqn:E2, (y <? z) eqn:E3, (z <? y) eqn:E4, (x <? z) eqn:E5, (z <? x) eqn:E6;
    bool_to_prop; try lia. apply IH.
Qed.

#[export] Instance string_le_trans : Transitive string_le.
Proof. intros a b c. apply strcmp_trans. Qed.
#[export] Instance string_le_total : Total string_le.
Proof. intros a b. unfold string_le. rewrite (strcmp_antisym a b). lia. Qed.

(** ** The search *)

(** What is left behind is smaller than everything to come. *)
Lemma skip_less_spec used a : exists less, used = less ++ skip_less used a /\ Forall (fun u => strcmp u a < 0) less /\
  (forall u, head (skip_less used a) = Some u -> 0 <= strcmp u a).
Proof.
  induction used as [|u used (less & E & Hl & Hh)]; [by exists []|]. cbn [skip_less].
  destruct (strcmp u a <? 0) eqn:Eu; bool_to_prop.
  - exists (u :: less). split_and!; [cbn; by f_equal|by constructor|done].
  - exists []. split_and!; [done|constructor|]. by intros u' [= <-].
Qed.

Lemma less_than_all a u all : strcmp u a < 0 -> Forall (string_le a) all -> u ∉ all.
Proof.
  intros Hu Ha Hin. rewrite Forall_forall in Ha. specialize (Ha u Hin). unfold string_le in Ha.
  rewrite (strcmp_antisym a u) in Hu. lia.
Qed.

Lemma unused_spec all : forall used, StronglySorted string_le all -> StronglySorted string_le used ->
  forall t, t ∈ unused used all <-> t ∈ all /\ t ∉ used.
Proof.
  induction all as [|a all IH]; intros used Hall Hused t; cbn [unused]; [rewrite elem_of_nil; tauto|].
  apply StronglySorted_cons in Hall as [Ha Hall]. destruct (skip_less_spec used a) as (less & E & Hless & Hhead).
  set (rest := skip_less used a) in *. rewrite E in Hused.
  pose proof (StronglySorted_app_1_r _ _ _ Hused) as Hrest.
  assert (forall x, x ∈ a :: all -> x ∈ used <-> x ∈ rest) as Hiff.
  { intros x Hx. rewrite E, elem_of_app. split; [|by right]. intros [Hl|Hr]; [|done]. exfalso.
    rewrite Forall_forall in Hless. specialize (Hless x Hl). apply elem_of_cons in Hx as [->|Hx].
    - by rewrite strcmp_refl in Hless.
    - by eapply less_than_all. }
  assert (a ∈ rest <-> exists u, head rest = Some u /\ strcmp u a = 0) as Hin.
  { destruct rest as [|u rest']; [rewrite elem_of_nil; split; [done|by intros (u & [=] & _)]|]. apply StronglySorted_cons in Hrest as [Hu _]. split.
    - intros Hin. exists u. split; [done|]. apply elem_of_cons in Hin as [->|Hin]; [apply strcmp_refl|].
      rewrite Forall_forall in Hu. specialize (Hu a Hin). unfold string_le in Hu. specialize (Hhead u eq_refl). lia.
    - intros (u' & [= <-] & Hz). apply strcmp_eq in Hz as ->. left. }
  assert (t ∈ (if decide (a ∈ rest) then unused rest all else a :: unused rest all) <-> t ∈ a :: all /\ t ∉ used) as Hgoal.
  { destruct (decide (a ∈ rest)) as [Hd|Hd].
    - rewrite IH by done. rewrite elem_of_cons. split.
      + intros [H1 H2]. split; [by right|]. rewrite Hiff by (by right). done.
      + intros [[->|H1] H2]; [exfalso; apply H2, Hiff; [left|done]|]. split; [done|]. rewrite <- Hiff by (by right). done.
    - rewrite !elem_of_cons, IH by done. split.
      + intros [->|[H1 H2]]; (split; [auto|]); (rewrite Hiff; [done|]); [left|by right].
      + intros [[->|H1] H2]; [by left|]. right. split; [done|]. rewrite <- Hiff by (by right). done. }
  rewrite <- Hgoal. destruct rest as [|u rest']; [rewrite decide_False; [done|apply not_elem_of_nil]|].
  specialize (Hhead u eq_refl). destruct (0 <? strcmp u a) eqn:Eu; bool_to_prop.
  - rewrite decide_False; [done|]. rewrite Hin. intros (u' & [= <-] & Hz). lia.
  - rewrite decide_True; [done|]. rewrite Hin. exists u. split; [done|lia].
Qed.

(** Whatever the order the files come in. *)
Lemma unused_sorted used all t :
  t ∈ unused (merge_sort string_le used) (merge_sort string_le all) <-> t ∈ all /\ t ∉ used.
Proof.
  rewrite unused_spec by (apply StronglySorted_merge_sort; apply _). by rewrite !merge_sort_Permutation.
Qed.

(** ** Paths as text *)

Lemma path_text_app p q : path_text (p ++ q) = path_text p ++ path_text q.
Proof. unfold path_text. by rewrite fmap_app, concat_app. Qed.

Lemma path_text_snoc p c : path_text (p ++ [c]) = path_text p ++ SLASH :: c.
Proof. rewrite path_text_app. unfold path_text at 2. cbn. by rewrite app_nil_r. Qed.

Lemma names_path p : Forall good p -> names (path_text p) = p.
Proof.
  induction p as [|c p IH] using rev_ind; [done|]. intros Hg. apply Forall_app in Hg as [Hp Hc].
  apply Forall_inv in Hc as (Hne & _ & _ & Hs). rewrite path_text_snoc, names_app, IH, names_name by done. done.
Qed.

Lemma path_text_len p : zlen (path_text p) = rel_len p.
Proof.
  unfold path_text, rel_len. induction p as [|c p IH]; [done|]. rewrite fmap_cons. cbn [concat foldr]. rewrite length_app.
  cbn [length]. lia.
Qed.

Lemma wf_dirs (fs : tree) p : wf fs -> is_Some (fs !! p) -> Forall good p /\ (isdir fs p -> dirs_to fs p).
Proof.
  intros Hwf. induction p as [|c p IH] using rev_ind.
  - intros _. split; [constructor|]. intros Hd k Hk. cbn in Hk. assert (k = 0)%nat as -> by lia. exact Hd.
  - intros Hs. destruct (wf_parent _ Hwf _ _ Hs) as [Hp Hc]. pose proof Hp as (i & Hi & _).
    destruct IH as [Hg Hd]; [by exists i|]. split; [apply Forall_app; split; [done|by apply Forall_singleton]|].
    intros Hdir. apply dirs_to_snoc; auto.
Qed.

(** The text of the path of a node leads to it. *)
Lemma leads_path (fs : tree) p c : wf fs -> is_Some (fs !! (p ++ [c])) -> rel_len (p ++ [c]) < PATH_MAX ->
  leads fs (path_text (p ++ [c])) p c.
Proof.
  intros Hwf Hs Hl. pose proof (wf_parent _ Hwf _ _ Hs) as [Hp Hc]. pose proof (wf_dirs _ _ Hwf Hs) as [Hg _].
  constructor; [by rewrite path_text_len| |done|].
  - rewrite path_text_snoc, components_snoc by done. apply Forall_app in Hg as [Hg _]. by rewrite names_path.
  - pose proof Hp as (i & Hi & _). by apply (wf_dirs _ _ Hwf); [exists i|].
Qed.

(** [realpath] of a path without links. *)
Lemma looks_realpath {Dev : Type} s (w : world tree Dev) p : calm w -> resolve true (w_fs w) s = Found p -> is_Some (w_fs w !! p) -> p <> [] ->
  looks (realpath s) w (Some (path_text p)).
Proof.
  intros Hc Hr Hs Hne. apply looks_syscall; [done|]. intros w' _. rewrite Hr. destruct p as [|c p]; [done|].
  rewrite decide_True by done. apply looks_ret.
Qed.

(** ** Lines of a manifest *)

Definition header : list Z := str "dedupe" ++ TAB :: decimal DEDUPE_VERSION.

Lemma header_ok : line_ok header.
Proof. split; [by_decide|by vm_compute]. Qed.

Definition manifest_text (ls : list (list Z)) : list Z := lines_text (header :: ls).

Section Reading.
  Context {Dev : Type}.
  Abbreviation world := (world tree Dev).

(** The version is found, and the stream stays behind it. *)
Lemma header_version (w : world) (f : rfile) ls : calm w -> in_front (w_fs w) f (header :: ls) ->
  exists f', looks (read_version f) w (2, f') /\ in_front (w_fs w) f' ls.
Proof.
  intros Hc Hf. destruct (next_line w f header ls Hc Hf) as (f' & Hl & Hf' & _). exists f'. split; [|done].
  eapply looks_bind; [exact Hl|]. intros w' _. cbn beta iota. apply looks_ret.
Qed.

End Reading.

(** ** What is used, and what there is *)

Section Collecting.
  Context {Dev : Type} {DO : DirOrder} (fuel : nat).
  Abbreviation world := (world tree Dev).

(** A manifest on the disk, and the blobs its lines name. *)
Definition manifest_at (fs : tree) (m : list Z) (ls : list (list Z)) : Prop :=
  Forall line_ok ls /\ exists p i, resolve true fs m = Found p /\ fs !! p = Some i /\ node_data i = Some (manifest_text ls).

Definition names_blobs (fs : tree) (blobs m : list Z) (used : list (list Z)) : Prop :=
  exists ls hs, manifest_at fs m ls /\ (length ls < fuel)%nat /\
    Forall2 (fun l h => line_blob 2 blobs (l ++ [10]) = Done h) ls hs /\ used = concat hs.

Lemma used_lines_spec blobs n : forall ls hs (f : rfile) (w : world), calm w -> in_front (w_fs w) f ls ->
  Forall2 (fun l h => line_blob 2 blobs (l ++ [10]) = Done h) ls hs -> (length ls < n)%nat ->
  looks (used_lines n 2 blobs f) w (concat hs).
Proof.
  induction n as [|n IH]; intros ls hs f w Hc Hf Hls Hn; [lia|]. cbn [used_lines]. destruct Hls as [|l h ls hs Hl Hls].
  - destruct (no_line w f Hc Hf) as (f' & Hl). eapply looks_bind; [exact Hl|]. intros w' _. apply looks_ret.
  - destruct (next_line w f l ls Hc Hf) as (f' & Hnl & Hf' & _). eapply looks_bind; [exact Hnl|]. intros w1 H1.
    cbn beta iota. eapply looks_bind; [by apply looks_lift|]. intros w2 H2. pose proof (still_trans _ _ _ H1 H2) as H12.
    eapply looks_bind; [|intros w3 _; apply looks_ret]. eapply IH; [by eapply calm_still| |exact Hls|cbn in Hn; lia].
    by rewrite (proj1 H12).
Qed.

Lemma used_files_spec blobs ms useds (w : world) : calm w -> Forall2 (names_blobs (w_fs w) blobs) ms useds ->
  looks (used_files fuel blobs ms) w (concat useds, 0, true).
Proof.
  intros Hc Hms. revert useds w Hc Hms. induction ms as [|m ms IH]; intros useds w Hc Hms; inversion Hms as [|m' u ms' us Hm Hrest]; subst.
  { apply looks_ret. }
  destruct Hm as (ls & hs & [Hok (p & i & Hr & Hi & Hd)] & Hn & Hb & ->). cbn [used_files].
  eapply looks_bind; [by eapply looks_fopen|]. intros w1 H1. cbn beta iota.
  assert (in_front (w_fs w1) (mkR p 0) (header :: ls)) as Hf.
  { split_and!; [done| |by constructor; [apply header_ok|]]. unfold unread. rewrite (proj1 H1). cbn. by rewrite Hi, Hd. }
  destruct (header_version w1 (mkR p 0) ls (calm_still _ _ H1 Hc) Hf) as (f' & Hv & Hf').
  eapply looks_bind; [exact Hv|]. intros w2 H2. cbn beta iota. change (DEDUPE_VERSION <? 2) with false. cbn iota.
  pose proof (still_trans _ _ _ H1 H2) as H12.
  eapply looks_bind; [eapply used_lines_spec; [by eapply calm_still| |exact Hb|exact Hn]; by rewrite (proj1 H2)|].
  intros w3 H3. pose proof (still_trans _ _ _ H12 H3) as H13.
  eapply looks_bind; [apply (IH us); [by eapply calm_still|by rewrite (proj1 H13)]|]. intros w4 _. apply looks_ret.
Qed.

Definition file (fs : tree) (q : path) : Prop := exists i, fs !! q = Some i /\ is_dir i = false.

(** Nothing is below what is not a directory. *)
Lemma file_leaf (fs : tree) q r : wf fs -> file fs q -> is_Some (fs !! (q ++ r)) -> r = [].
Proof.
  intros Hwf (i & Hi & Di) Hs. destruct r as [|c r]; [done|]. exfalso.
  change (c :: r) with ([c] ++ r) in Hs. rewrite app_assoc in Hs. apply (wf_below _ _ Hwf) in Hs.
  apply (wf_parent _ Hwf) in Hs as [(j & Hj & Dj) _]. congruence.
Qed.

Lemma child_leads (fs : tree) q c n : wf fs -> is_Some (fs !! (q ++ [c])) -> fits n (path_text q) q fs ->
  leads fs (path_text (q ++ [c])) q c /\ zlen (path_text q ++ SLASH :: c) < PATH_MAX.
Proof.
  intros Hwf Hs Hf. destruct (Hf [c] Hs) as [Hl _]. rewrite path_text_len in Hl. rewrite <- path_text_snoc, path_text_len.
  assert (rel_len (q ++ [c]) = rel_len q + rel_len [c]) as E by (rewrite <- !path_text_len, path_text_app, length_app; lia).
  rewrite E. split; [|done]. apply leads_path; [done|done|]. by rewrite E.
Qed.

Lemma fits_below (n : nat) q c (fs : tree) : fits (S n) (path_text q) q fs -> fits n (path_text (q ++ [c])) (q ++ [c]) fs.
Proof.
  intros Hf rel Hs. rewrite <- app_assoc in Hs. destruct (Hf _ Hs) as [H1 H2]. rewrite path_text_snoc, length_app.
  unfold rel_len in *. cbn [app foldr length] in *. split; lia.
Qed.

Lemma child_not_dots (fs : tree) q c r : wf fs -> file fs (q ++ c :: r) -> c <> DOT /\ c <> DOTDOT.
Proof.
  intros Hwf (i & Hi & _). assert (is_Some (fs !! (q ++ [c]))) as Hs by (apply (wf_below _ _ Hwf r); rewrite <- app_assoc; by exists i).
  apply (wf_parent _ Hwf) in Hs as [_ (_ & Hd1 & Hd2 & _)]. done.
Qed.

(** What a listing is to hold. *)
Definition lists (fs : tree) (q : path) (starts : name -> Prop) (all : list (list Z)) : Prop :=
  forall t, t ∈ all <-> exists c r, starts c /\ file fs (q ++ c :: r) /\ t = path_text (q ++ c :: r).

Lemma list_entries_spec n q (fs : tree) :
  (forall c (w : world), calm w -> w_fs w = fs -> isdir fs (q ++ [c]) ->
     views (recursive_list_dir n (path_text (q ++ [c]))) w (lists fs (q ++ [c]) (fun _ => True))) ->
  wf fs -> fits (S n) (path_text q) q fs ->
  forall es (w : world), calm w -> w_fs w = fs -> Forall (fun c => c = DOT \/ c = DOTDOT \/ is_Some (fs !! (q ++ [c]))) es ->
  views (list_entries (recursive_list_dir n) (path_text q) es) w (lists fs q (fun c => c ∈ es)).
Proof.
  intros Hrec Hwf Hfits. induction es as [|c es IH]; intros w Hc Hw Hes.
  { apply views_ret. intros t. rewrite elem_of_nil. split; [done|]. by intros (c & r & H%not_elem_of_nil & _). }
  apply Forall_cons in Hes as [Hce Hes]. cbn [list_entries].
  destruct (bool_decide (c = DOT) || bool_decide (c = DOTDOT)) eqn:Edot.
  { eapply wp_mono; [by apply IH|done|]. intros all w' [Ha Hs]. split; [|done]. intros t. rewrite (Ha t). split.
    - intros (c' & r & H & Hf & Ht). exists c', r. split; [by right|done].
    - intros (c' & r & H & Hf & Ht). exists c', r. split; [|done]. apply elem_of_cons in H as [->|H]; [|done]. exfalso.
      apply (child_not_dots fs q c r Hwf) in Hf as [Hd1 Hd2]. apply orb_true_iff in Edot as [Ed|Ed]; by apply bool_decide_eq_true in Ed. }
  destruct Hce as [->|[->|[i Hi]]]; [done|done|]. clear Edot.
  destruct (child_leads fs q c (S n) Hwf (ex_intro _ i Hi) Hfits) as [Hlead Hlen].
  eapply views_bind; [apply looks_lift; unfold fits_buffer; by rewrite (proj2 (Z.ltb_lt _ _) Hlen)|].
  intros blob w1 -> H1. rewrite <- path_text_snoc.
  eapply views_bind; [eapply looks_lstat; [by eapply calm_still| |rewrite (proj1 H1), Hw; exact Hi]|].
  { rewrite (proj1 H1), Hw. rewrite (resolve_leads false _ _ _ _ Hlead), Hi. by rewrite andb_false_r. }
  intros st w2 -> H2. pose proof (still_trans _ _ _ H1 H2) as H12. cbn beta iota.
  eapply (views_bind _ _ _ (fun here => forall t, t ∈ here <-> exists r, file fs (q ++ c :: r) /\ t = path_text (q ++ c :: r))).
  { destruct (is_dir i) eqn:Ed.
    - eapply wp_mono; [apply Hrec; [by eapply calm_still|by rewrite (proj1 H12)|by exists i]|done|].
      intros all w3 [Ha H3]. split; [|done]. intros t. rewrite (Ha t). split.
      + intros (c' & r & _ & Hf & ->). exists (c' :: r). by rewrite <- app_assoc in *.
      + intros (r & Hf & ->). destruct r as [|c' r]; [destruct Hf as (j & Hj & Dj); congruence|]. exists c', r.
        by rewrite <- app_assoc.
    - apply views_ret. intros t. rewrite list_elem_of_singleton. split.
      + intros ->. exists []. split; [by exists i|done].
      + intros (r & (j & Hj & _) & ->). change (c :: r) with ([c] ++ r) in *. rewrite app_assoc in Hj.
        assert (r = []) as -> by (eapply (file_leaf fs (q ++ [c])); [done|by exists i|by exists j]). done. }
  intros here w3 Hhere H3. pose proof (still_trans _ _ _ H12 H3) as H13.
  eapply views_bind; [apply IH; [by eapply calm_still|by rewrite (proj1 H13)|done]|].
  intros rest w4 Hrest _. apply views_ret. intros t. rewrite elem_of_app, Hhere, (Hrest t). split.
  - intros [(r & Hf & ->)|(c' & r & Hin & Hf & ->)]; [by exists c, r; split; [left|]|]. exists c', r. split; [by right|done].
  - intros (c' & r & [->|Hin]%elem_of_cons & Hf & ->); [left; by exists r|right; by exists c', r].
Qed.

Lemma recursive_list_spec n : forall q (w : world), calm w -> wf (w_fs w) -> isdir (w_fs w) q -> q <> [] ->
  fits n (path_text q) q (w_fs w) ->
  views (recursive_list_dir n (path_text q)) w (lists (w_fs w) q (fun _ => True)).
Proof.
  induction n as [|n IH]; intros q w Hc Hwf Hd Hne Hfits.
  { destruct Hd as (i & Hi & _). destruct (Hfits []) as [_ H]; [rewrite app_nil_r; by exists i|lia]. }
  cbn [recursive_list_dir]. destruct q as [|c q _] using rev_ind; [done|].
  pose proof Hd as (i & Hi & Di). destruct (Hfits []) as [Hlen _]; [rewrite app_nil_r; by exists i|].
  assert (leads (w_fs w) (path_text (q ++ [c])) q c) as Hlead.
  { apply leads_path; [done|by exists i|]. rewrite path_text_len in Hlen. unfold rel_len in *. cbn [foldr] in Hlen. lia. }
  eapply views_bind; [eapply looks_opendir; [done| |exact Hd]|].
  { rewrite (resolve_leads true _ _ _ _ Hlead), Hi. unfold is_link, is_dir in *. by destruct (i_kind i). }
  intros dp w1 -> H1. cbn beta iota.
  eapply wp_mono; [apply (list_entries_spec n (q ++ [c]) (w_fs w))|done|].
  - intros c' w' Hc' Hw' Hd'. rewrite <- Hw' in *. apply IH; [done|done|done|by destruct (q ++ [c])|by apply fits_below].
  - done.
  - done.
  - by eapply calm_still.
  - apply H1.
  - apply Forall_cons. split; [by left|]. apply Forall_cons. split; [by right; left|]. apply Forall_forall.
    intros c' Hc'. right. right. rewrite dir_order_perm in Hc'. by apply elem_of_children.
  - intros all w' [Ha Hs]. split; [|done]. intros t. rewrite (Ha t). split.
    + intros (c' & r & _ & Hf & ->). by exists c', r.
    + intros (c' & r & _ & Hf & ->). exists c', r. split; [|done]. right. right. rewrite dir_order_perm. apply elem_of_children.
      destruct Hf as (j & Hj & _). apply (wf_below _ _ Hwf r). rewrite <- app_assoc. by exists j.
Qed.

End Collecting.

(** ** Removing *)

Section Removing.
  Context {Dev : Type} {DO : DirOrder} (fuel : nat).
  Abbreviation world := (world tree Dev).

(** Only files in [U] are gone. *)
Definition spared (U : path -> Prop) (fs fs' : tree) : Prop :=
  forall q, fs' !! q = fs !! q \/ (fs' !! q = None /\ file fs q /\ U q).

Lemma spared_dirs U (fs fs' : tree) p : spared U fs fs' -> dirs_to fs p -> dirs_to fs' p.
Proof.
  intros H Hd k Hk. destruct (Hd k Hk) as (i & Hi & Di). exists i. split; [|done].
  destruct (H (take k p)) as [->|(_ & (j & Hj & Dj) & _)]; congruence.
Qed.

Lemma spared_delete U (fs fs' : tree) q : spared U fs fs' -> file fs q -> U q -> spared U fs (delete q fs').
Proof.
  intros H Hf HU r. destruct (decide (r = q)) as [->|Hne]; [right; by rewrite lookup_delete_eq|]. rewrite lookup_delete_ne by done. apply H.
Qed.

(** One [unlink] in a run without failing calls. *)
Lemma unlink_spared U (fs : tree) p c (w : world) : calm w -> wf fs -> spared U fs (w_fs w) -> file fs (p ++ [c]) -> U (p ++ [c]) ->
  rel_len (p ++ [c]) < PATH_MAX ->
  wp (spared U fs) (sys_unlink (path_text (p ++ [c]))) w (fun _ w' =>
    spared U fs (w_fs w') /\ w_answers w' = w_answers w /\ w_fs w' = delete (p ++ [c]) (w_fs w)).
Proof.
  intros Hc Hwf Hsp Hf HU Hlen. pose proof Hf as (i & Hi & Di).
  pose proof (leads_path fs p c Hwf (ex_intro _ i Hi) Hlen) as [H1 H2 H3 H4].
  apply wp_syscall; [by intros []|]. pose proof (resolve_plain false (w_fs w) _ p c H1 H2 H3 (spared_dirs _ _ _ _ Hsp H4)) as E.
  rewrite E. destruct (w_fs w !! (p ++ [c])) as [j|] eqn:Ej.
  - rewrite andb_false_r. cbn [asked w_fs]. rewrite Ej. destruct (Hsp (p ++ [c])) as [E2|(E2 & _)]; [|congruence].
    assert (j = i) as -> by congruence. rewrite Di. apply wp_bind, wp_set_fs; [by apply spared_delete|]. apply wp_ret. cbn.
    split_and!; [by apply spared_delete|done|done].
  - apply wp_ret. cbn. split_and!; [done|done|]. by rewrite delete_id.
Qed.

Lemma path_text_inj p q : Forall good p -> Forall good q -> path_text p = path_text q -> p = q.
Proof. intros Hp Hq E. rewrite <- (names_path p), <- (names_path q) by done. by rewrite E. Qed.

Lemma file_good (fs : tree) q : wf fs -> file fs q -> Forall good q.
Proof. intros Hwf (i & Hi & _). by apply (wf_dirs _ _ Hwf); exists i. Qed.

Lemma remove_unused_spec U (fs : tree) ts : wf fs ->
  Forall (fun t => exists p c, t = path_text (p ++ [c]) /\ file fs (p ++ [c]) /\ U (p ++ [c]) /\ rel_len (p ++ [c]) < PATH_MAX) ts ->
  forall (w : world), calm w -> spared U fs (w_fs w) ->
  wp (spared U fs) (remove_unused ts) w (fun _ w' =>
    spared U fs (w_fs w') /\ forall q, file fs q -> path_text q ∈ ts \/ w_fs w !! q = None -> w_fs w' !! q = None).
Proof.
  intros Hwf Hts. induction Hts as [|t ts (p & c & -> & Hf & HU & Hlen) Hts IH]; intros w Hc Hsp; cbn [remove_unused].
  { apply wp_ret. split; [done|]. intros q _ [H|H]; [by apply not_elem_of_nil in H|done]. }
  apply wp_bind. eapply wp_mono; [by apply unlink_spared|done|]. intros r w1 (Hsp1 & Ha & E1).
  eapply wp_mono; [by apply IH; [eapply calm_same|]|done|]. intros [] w2 (Hsp2 & Hgone). split; [done|].
  intros q Hq Hin. apply Hgone; [done|]. destruct (decide (q = p ++ [c])) as [->|Hne]; [right; by rewrite E1, lookup_delete_eq|].
  destruct Hin as [[E|Hin]%elem_of_cons|Hn]; [|by left|right; by rewrite E1, lookup_delete_ne].
  exfalso. apply Hne. apply path_text_inj; [by eapply file_good..|done].
Qed.

(** What [gc] is to remove: a file among the blobs that no manifest names. *)
Definition garbage (fs : tree) (b : path) (used : list (list Z)) (q : path) : Prop :=
  b `prefix_of` q /\ file fs q /\ path_text q ∉ used.

Context (SHA256 : list Z -> list Z) (lgetfilecon : list Z -> option (list Z)).


End Removing.

(** ** A disk with two blobs *)

Definition demo_line : list Z := tabbed [str "f"; str "644"; str "0"; str "0"; str "unlabel"; str "1"; str "1"; str "1"; str "./a"; str "abc/x"; str "2"].

Definition demo_blobs (manifest : list Z) : tree :=
  let dir := mkInode KDir 493 0 0 None in
  let data d := mkInode (KFile d) 420 0 0 None in
  {[ [] := dir; [str "b"] := dir; [str "b"; str "abc"] := dir; [str "b"; str "abc"; str "x"] := data (str "xx");
     [str "b"; str "abc"; str "y"] := data (str "yy"); [str "m"] := data manifest ]}.

Definition demo_blob_world (manifest : list Z) : Run.world tree unit := Run.mkWorld (demo_blobs manifest) tt (fun _ => 1) 0 [].


(** A manifest of a newer version is reported, and then treated as if it named no
    blob at all. *)
Lemma gc_drops_newer_manifest :
  let r := @dedupe_main unit tree_order 5 (fun d => d) (fun _ => None) [str "dedupe"; str "gc"; str "/b"; str "/m"]
      (demo_blob_world (lines_text [str "dedupe" ++ TAB :: decimal 3; demo_line])) in
  r.1 = Done 1 /\ w_fs r.2 !! [str "b"; str "abc"; str "x"] = None.
Proof. split; by vm_compute. Qed.

(** When [read] fails, so does [write], with the same result: a device that does
    not recover keeps [copy_file] going for ever. *)
Lemma copy_loop_hangs {Dev : Type} n src pos dst : forall w : Run.world tree Dev, (forall k, w_answers w k < 0) ->
  (copy_loop n src pos dst w).1 = Diverge.
Proof.
  induction n as [|n IH]; intros w Hw; [done|]. cbn [copy_loop]. unfold sys_read, wbind, ask, get_fs. cbn.
  rewrite (proj2 (Z.ltb_lt _ 0)) by apply Hw. by apply IH.
Qed.
