(* ===== verification/DedupeFormat.v ===== *)
(** * Lines of a manifest ([dedupe.c])

    What [dedupe c] writes for a node is what [dedupe x] reads again, and relative
    paths lead where they are meant to. *)
From stdpp Require Import pretty.
From Stdlib Require Import Ascii.
From S2P Require Import Prelude.
From S2P Require Import Cstring.
From S2P Require Import Cbuf.
From S2P Require Import Posix.
From S2P Require Import PosixFacts.
From S2P Require Import Numerals.
From S2P Require Import Stdio.
From S2P Require Import DirUtil.
From S2P Require Import DirTrees.
From S2P Require Import Dedupe.
From S2P Require Import TextLines.
From S2P Require Import DedupeFacts.
Local Open Scope string_scope.
Local Open Scope Z_scope.
Local Open Scope list_scope.

(** ** Modes *)

(** Text that can be a field of a line. *)
Definition clean (s : list Z) : Prop := Forall (fun c => c <> 0 /\ c <> 9 /\ c <> 10) s.

#[export] Instance clean_dec s : Decision (clean s).
Proof. unfold clean. apply _. Defined.

Definition mode_ok (m : Z) : bool :=
  match dec_to_oct (atoi (octal m)) with Done v => v =? m | _ => false end && bool_decide (clean (octal m)) && (zlen (octal m) <? 8).

Lemma all_modes_ok : forallb mode_ok (seqZ 0 3584) = true.
Proof. vm_compute. reflexivity. Qed.

(** The mode that is read is the one that was written. *)
Lemma mode_read_back m : let m' := m .& 3583 in
  dec_to_oct (atoi (octal m')) = Done m' /\ clean (octal m') /\ zlen (octal m') < 8.
Proof.
  cbv zeta. pose proof all_modes_ok as H. rewrite forallb_forall in H. specialize (H (m .& 3583)).
  assert (mode_ok (m .& 3583) = true) as Hm.
  { apply H, list_elem_of_In, elem_of_seqZ. pose proof (land_bound m 3583 ltac:(lia)). lia. }
  unfold mode_ok in Hm. apply andb_true_iff in Hm as [Hm H3]. apply andb_true_iff in Hm as [H1 H2].
  destruct (dec_to_oct _) as [v| | |]; [|done..]. bool_to_prop. subst v. split_and!; [done|by apply bool_decide_eq_true in H2|lia].
Qed.

(** ** Numbers *)

Lemma clean_decimal v : 0 <= v < 2 ^ 32 -> clean (decimal v) /\ zlen (decimal v) < 32.
Proof.
  intros Hv. unfold decimal. destruct v as [|p|p]; [split; [by_decide|by vm_compute]| |lia].
  change (pretty (Z.pos p)) with (pretty (N.pos p)).
  destruct (pretty_N_bytes (N.pos p)) as [H1 H2]; [change (10 ^ 10)%N with 10000000000%N; lia|]. split; [|lia].
  eapply Forall_impl; [exact H1|]. unfold numeral_byte. cbn. lia.
Qed.

Lemma atoi_decimal v : 0 <= v < 2 ^ 31 -> atoi (decimal v) = v.
Proof.
  intros Hv. unfold atoi, decimal. rewrite text_str, strtol_pretty by lia. cbn [fst]. apply swrap_small; [done|]. unfold in_s. lia.
Qed.

(** ** Fields *)

Lemma tokenize_field n s rest : clean s -> zlen s < n -> tokenize n (s ++ TAB :: rest) TAB = Done (s, rest).
Proof.
  intros Hs Hn. unfold tokenize.
  assert (tokenize_upto (s ++ TAB :: rest) TAB = Some (s, rest)) as ->.
  { clear Hn. induction Hs as [|c s (_ & Hc & _) Hs IH]; [done|]. cbn [app tokenize_upto].
    rewrite (proj2 (Z.eqb_neq c TAB)) by done. by rewrite IH. }
  cbn [access mbind outcome_bind]. unfold fits_buffer. by rewrite (proj2 (Z.ltb_lt _ _)).
Qed.

Lemma tabbed_cons s l : tabbed (s :: l) = s ++ TAB :: tabbed l.
Proof. unfold tabbed. rewrite fmap_cons. cbn [concat]. by rewrite <- app_assoc. Qed.

Lemma tabbed_ok l : Forall clean l -> Forall (fun c => c <> 0 /\ c <> 10) (tabbed l).
Proof.
  induction 1 as [|s l Hs Hl IH]; [constructor|]. rewrite tabbed_cons. apply Forall_app. split.
  - eapply Forall_impl; [exact Hs|]. cbn. tauto.
  - by constructor.
Qed.

(** ** Entries *)

Record entry := mkEntry { e_rel : path; e_node : inode; e_at : Z; e_mt : Z; e_ct : Z }.

Section Entries.
  Context (SHA256 : list Z -> list Z) (lgetfilecon : list Z -> option (list Z)).

(** The name of a node in a manifest. *)
Definition rel_text (r : path) : list Z := 46 :: path_text r.

Definition e_label (e : entry) : list Z := default (str "unlabel") (lgetfilecon (rel_text (e_rel e))).

(** The type and the fields that depend on it; special files have no line. *)
Definition e_tail (e : entry) : option (list Z * list (list Z)) :=
  match i_kind (e_node e) with
  | KFile d => Some (str "f", [blob_key (SHA256 d); decimal (file_size (e_node e))])
  | KDir => Some (str "d", [])
  | KLink t => Some (str "l", [t])
  | KBlock _ => None
  end.

Definition e_fields (e : entry) : list (list Z) :=
  [octal (i_mode (e_node e) .& 3583); decimal (wrap 32 (i_uid (e_node e))); decimal (wrap 32 (i_gid (e_node e))); e_label e;
   decimal (e_at e); decimal (e_mt e); decimal (e_ct e); rel_text (e_rel e)].

Definition entry_line (e : entry) : list Z :=
  match e_tail e with Some (type, tail) => tabbed (type :: e_fields e ++ tail) | None => [] end.

(** What can be kept in a manifest and read again. *)
Record entry_ok (e : entry) : Prop := {
  ok_uid : 0 <= i_uid (e_node e) < 2 ^ 31;
  ok_gid : 0 <= i_gid (e_node e) < 2 ^ 31;
  ok_times : 0 <= e_at e < 2 ^ 32 /\ 0 <= e_mt e < 2 ^ 32 /\ 0 <= e_ct e < 2 ^ 32;
  ok_label : clean (e_label e) /\ zlen (e_label e) < PATH_MAX;
  ok_name : clean (rel_text (e_rel e)) /\ zlen (rel_text (e_rel e)) < PATH_MAX;
  ok_tail : match i_kind (e_node e) with
    | KFile d => zlen d < 2 ^ 31 /\ clean (blob_key (SHA256 d)) /\ zlen (blob_key (SHA256 d)) < 128
    | KDir => True
    | KLink t => clean t /\ zlen t <= 40
    | KBlock _ => False
    end;
  ok_line : zlen (entry_line e) < PATH_MAX - 1
}.

Lemma file_size_small i d : node_data i = Some d -> zlen d < 2 ^ 31 -> file_size i = zlen d.
Proof. intros E Hd. unfold file_size. rewrite E. cbn. apply swrap_small; [done|]. unfold in_s. lia. Qed.

Lemma entry_fields_clean e : entry_ok e -> Forall clean (e_fields e).
Proof.
  intros He. destruct (ok_times _ He) as (H1 & H2 & H3). pose proof (ok_uid _ He). pose proof (ok_gid _ He).
  unfold e_fields. rewrite !wrap_small by (unfold in_u; lia).
  repeat (apply Forall_cons_2; [first [by apply clean_decimal; lia|by apply mode_read_back|by apply (ok_label _ He)|by apply (ok_name _ He)]|]).
  constructor.
Qed.

Lemma entry_tail_clean e type tail : entry_ok e -> e_tail e = Some (type, tail) -> Forall clean (type :: tail).
Proof.
  intros He. pose proof (ok_tail _ He) as Ht. unfold e_tail. destruct (i_kind (e_node e)) as [d|d| |t] eqn:Ek; [| |intros [= <- <-]..]; try done.
  - destruct Ht as (Hd & Hk & _). intros [= <- <-]. apply Forall_cons_2; [by_decide|]. apply Forall_cons_2; [done|]. apply Forall_cons_2; [|constructor].
    apply clean_decimal. rewrite (file_size_small _ d); [lia| |done]. unfold node_data. by rewrite Ek.
  - constructor; [by_decide|constructor].
  - apply Forall_cons_2; [by_decide|]. apply Forall_cons_2; [apply Ht|constructor].
Qed.

(** The line of an entry fits into the buffer of [fgets] and is one string. *)
Lemma entry_line_ok e : entry_ok e -> line_ok (entry_line e) /\ nul_free (entry_line e).
Proof.
  intros He. assert (Forall (fun c => c <> 0 /\ c <> 10) (entry_line e)) as H.
  { unfold entry_line. destruct (e_tail e) as [[type tail]|] eqn:Et; [|constructor]. apply tabbed_ok.
    pose proof (entry_tail_clean e type tail He Et) as Hc. apply Forall_cons in Hc as [Hc1 Hc2]. apply Forall_cons. split; [done|].
    apply Forall_app. split; [by apply entry_fields_clean|done]. }
  split; [split; [|apply He]|]; (eapply Forall_impl; [exact H|]); cbn; tauto.
Qed.

(** Reading it gives the fields back. *)
Lemma parse_entry e type tail : entry_ok e -> e_tail e = Some (type, tail) ->
  parse_line 2 (cstr ((entry_line e ++ [10]) ++ [0])) =
  Done (mkLine type (octal (i_mode (e_node e) .& 3583)) (decimal (i_uid (e_node e))) (decimal (i_gid (e_node e))) (e_label e)
          (decimal (e_at e)) (decimal (e_mt e)) (rel_text (e_rel e)), tabbed tail ++ [10]).
Proof.
  intros He Et. pose proof (entry_line_ok e He) as [_ Hn].
  rewrite cstr_app by (apply nul_free_app; split; [done|by repeat constructor]).
  pose proof (entry_tail_clean e type tail He Et) as Hc. apply Forall_cons in Hc as [Hc _].
  pose proof (entry_fields_clean e He) as Hf. unfold entry_line. rewrite Et. unfold e_fields in *.
  pose proof (ok_uid _ He). pose proof (ok_gid _ He). rewrite !wrap_small in * by (unfold in_u; lia). destruct (ok_times _ He) as (H1 & H2 & H3).
  repeat (apply Forall_cons in Hf as [? Hf]). cbn [app]. rewrite !tabbed_cons, <- !app_assoc. cbn [app].
  assert (zlen type < 4) as Hty by (unfold e_tail in Et; destruct (i_kind _); by simplify_eq).
  unfold parse_line. rewrite tokenize_field by done. cbn [mbind outcome_bind].
  rewrite <- ?app_assoc. cbn [app]. rewrite tokenize_field; [|done|apply mode_read_back]. cbn [mbind outcome_bind].
  do 2 (rewrite <- ?app_assoc; cbn [app]; rewrite tokenize_field; [|done|apply clean_decimal; lia]; cbn [mbind outcome_bind]).
  rewrite <- ?app_assoc. cbn [app]. rewrite tokenize_field; [|done|apply He]. cbn [mbind outcome_bind].
  change (2 <=? 2) with true. cbn iota.
  do 3 (rewrite <- ?app_assoc; cbn [app]; rewrite tokenize_field; [|done|apply clean_decimal; lia]; cbn [mbind outcome_bind]).
  rewrite <- ?app_assoc. cbn [app]. rewrite tokenize_field; [|done|apply He]. done.
Qed.

End Entries.
