(* ===== verification/DedupeRestore.v ===== *)
(** * Restoring a backup ([dedupe x])

    Every line of a manifest makes one node again; the times of the nodes are
    left out, because the time of a link is given to what the link leads to. *)
From stdpp Require Import pretty.
From S2P Require Import Prelude.
From S2P Require Import Cbuf.
From S2P Require Import Posix.
From S2P Require Import PosixFacts.
From S2P Require Import Numerals.
From S2P Require Import Stdio.
From S2P Require Import DirUtil.
From S2P Require Import DirTrees.
From S2P Require Import Views.
From S2P Require Import TextLines.
From S2P Require Import Dedupe.
From S2P Require Import DedupeFacts.
From S2P Require Import DedupeFormat.
Local Open Scope string_scope.
Local Open Scope Z_scope.
Local Open Scope list_scope.

(** ** Relative paths *)

Lemma names_rel r : Forall good r -> names (rel_text r) = DOT :: r.
Proof.
  induction r as [|c r IH] using rev_ind; [done|]. intros Hg. apply Forall_app in Hg as [Hr Hc].
  apply Forall_inv in Hc as (Hne & _ & _ & Hs). unfold rel_text in *. rewrite path_text_snoc.
  change (46 :: path_text r ++ SLASH :: c) with ((46 :: path_text r) ++ SLASH :: c).
  rewrite names_app, IH, names_name by done. done.
Qed.

Lemma dirs_below (fs : tree) p r : dirs_to fs (p ++ r) -> dirs_to fs p /\ forall k, (k <= length r)%nat -> isdir fs (p ++ take k r).
Proof.
  intros H. split; intros k Hk.
  - specialize (H k). rewrite take_app_le in H by lia. apply H. rewrite length_app. lia.
  - specialize (H (length p + k)%nat). rewrite take_app_add' in H by done. apply H. rewrite length_app. lia.
Qed.

(** Where the name of a node leads from a directory. *)
Lemma resolve_rel (follow : bool) (fs : tree) (p r : path) (c : name) :
  Forall good (p ++ r ++ [c]) -> dirs_to fs (p ++ r) -> zlen (from p (rel_text (r ++ [c]))) < PATH_MAX ->
  resolve follow fs (from p (rel_text (r ++ [c]))) =
  match fs !! (p ++ r ++ [c]) with
  | None => Absent (p ++ r) c
  | Some i => if is_link i && follow then resolve follow fs (from p (rel_text (r ++ [c]))) else Found (p ++ r ++ [c])
  end.
Proof.
  intros Hg Hd Hlen. destruct (dirs_below fs p r Hd) as [Hp Hr]. apply Forall_app in Hg as [Hgp Hg]. apply Forall_app in Hg as [Hgr Hgc].
  apply Forall_inv in Hgc. destruct (Hr 0%nat) as (i & Hi & Di); [lia|]. rewrite take_0, app_nil_r in Hi.
  assert (forall links, walk links follow fs [] (components (from p (rel_text (r ++ [c])))) = walk links follow fs (p ++ r) [c]) as E.
  { intros links. assert (components (from p (rel_text (r ++ [c]))) = p ++ DOT :: r ++ [c]) as ->.
    { cbn [from rel_text]. change (46 =? SLASH) with false. cbn iota. unfold rel_text. rewrite path_text_snoc.
      change (SLASH :: 46 :: path_text r ++ SLASH :: c) with ((SLASH :: rel_text r) ++ SLASH :: c). rewrite app_assoc.
      rewrite components_snoc, names_app, names_path, names_rel by done. by rewrite <- app_assoc. }
    rewrite walk_dirs by done. cbn [app]. rewrite walk_eq, Hi, Di. cbn [negb]. rewrite bool_decide_true by done.
    by apply walk_dirs. }
  assert (resolve follow fs (from p (rel_text (r ++ [c]))) = walk 40 follow fs (p ++ r) [c]) as Er.
  { unfold resolve. rewrite (proj2 (Z.leb_gt _ _)) by done. rewrite E.
    destruct (from p (rel_text (r ++ [c]))) eqn:Ef; [|done]. cbn in Ef. by destruct (path_text p). }
  rewrite Er, app_assoc. apply walk_last; [done|]. by apply dirs_to_self.
Qed.

(** The directory itself. *)
Lemma resolve_here (follow : bool) (fs : tree) p : Forall good p -> dirs_to fs p -> zlen (from p (rel_text [])) < PATH_MAX ->
  resolve follow fs (from p (rel_text [])) = Found p.
Proof.
  intros Hg Hd Hlen. assert (components (from p (rel_text [])) = p ++ [DOT]) as E.
  { change (from p (rel_text [])) with (path_text p ++ SLASH :: [46]). unfold components. rewrite pieces_app. change (pieces [46]) with [DOT]. rewrite last_snoc, filter_app.
    change (filter _ [DOT]) with [DOT]. cbn iota. rewrite app_nil_r. fold (names (path_text p)). by rewrite names_path. }
  unfold resolve. rewrite (proj2 (Z.leb_gt _ _)) by done. rewrite E. pose proof (dirs_to_self _ _ Hd) as (i & Hi & Di).
  destruct (from p (rel_text [])) eqn:Ef; [cbn in Ef; by destruct (path_text p)|].
  rewrite walk_dirs by (done || by intros k Hk; apply Hd). cbn [app]. rewrite walk_eq, Hi, Di. cbn [negb].
  by rewrite bool_decide_true, walk_eq.
Qed.

(** ** Calls in a run in which every write is done at once *)

Section Roomy.
  Context {Dev : Type}.
  Abbreviation W := (W tree Dev).
  Abbreviation world := (world tree Dev).
  Implicit Type w : world.

Lemma makes_change s g w p i : calm w -> resolve true (w_fs w) s = Found p -> w_fs w !! p = Some i ->
  makes (sys_change s g) w (fun r fs => r = 0 /\ fs = <[p := g i]> (w_fs w)).
Proof.
  intros Hc Hr Hi. apply wp_syscall; [by intros []|]. rewrite Hr, Hi. apply wp_bind, wp_set_fs; [done|]. by apply wp_ret.
Qed.

Lemma makes_make s i w d c : calm w -> resolve false (w_fs w) s = Absent d c ->
  makes (sys_make s i) w (fun r fs => r = 0 /\ fs = <[d ++ [c] := i]> (w_fs w)).
Proof. intros Hc Hr. apply wp_syscall; [by intros []|]. rewrite Hr. apply wp_bind, wp_set_fs; [done|]. by apply wp_ret. Qed.

Lemma makes_lchown s uid gid w p i : calm w -> resolve false (w_fs w) s = Found p -> w_fs w !! p = Some i ->
  makes (lchown s uid gid) w (fun r fs => r = 0 /\ fs = <[p := with_owner uid gid i]> (w_fs w)).
Proof.
  intros Hc Hr Hi. apply wp_syscall; [by intros []|]. rewrite Hr, Hi. apply wp_bind, wp_set_fs; [done|]. by apply wp_ret.
Qed.

Lemma makes_creat s mode w d c : calm w -> resolve true (w_fs w) s = Absent d c ->
  makes (sys_creat s mode) w (fun r fs => r = inl (d ++ [c]) /\ fs = <[d ++ [c] := new_inode (KFile []) mode]> (w_fs w)).
Proof. intros Hc Hr. apply wp_syscall; [by intros []|]. rewrite Hr. apply wp_bind, wp_set_fs; [done|]. by apply wp_ret. Qed.

(** [utimes] changes times only, wherever it ends up. *)
Lemma makes_utime s t w : calm w -> makes (sys_utime s t) w (fun _ fs => bare <$> fs = bare <$> w_fs w).
Proof.
  intros Hc. apply wp_syscall; [by intros []|]. destruct (resolve true (w_fs w) s) as [p| |]; [|by apply wp_ret..].
  destruct (w_fs w !! p) as [i|] eqn:Hi; [|by apply wp_ret]. apply wp_bind, wp_set_fs; [done|]. apply wp_ret. cbn. split; [|done].
  rewrite fmap_insert. change (bare (with_time t i)) with (bare i). apply insert_id. by rewrite lookup_fmap, Hi.
Qed.

(** The loop of [copy_file]. *)
Lemma copy_loop_spec (src dst : path) (d : list Z) n : forall pos isrc mode uid gid tm (w : world),
  roomy w -> src <> dst -> w_fs w !! src = Some isrc -> node_data isrc = Some d -> (pos <= length d)%nat ->
  w_fs w !! dst = Some (mkInode (KFile (take pos d)) mode uid gid tm) -> (length d - pos < n)%nat ->
  makes (copy_loop n src (Z.of_nat pos) dst) w (fun r fs => r = 0 /\ bare <$> fs = bare <$> <[dst := mkInode (KFile d) mode uid gid None]> (w_fs w)).
Proof.
  induction n as [|n IH]; intros pos isrc mode uid gid tm w Hw Hne Hs Hd Hpos Ht Hn; [lia|]. cbn [copy_loop].
  assert (views (sys_read src (Z.of_nat pos) 4096) w (fun r => r = Some (take 4096 (drop pos d)))) as Hread.
  { unfold views, sys_read. repeat wp_step. cbn. rewrite (proj2 (Z.ltb_ge _ 0)) by (apply roomy_calm in Hw; apply Hw).
    rewrite Hs. cbn. rewrite Hd. cbn. rewrite Nat2Z.id. done. }
  eapply makes_bind; [by apply makes_views|]. intros buf w1 [-> E1] Ha1. cbn beta iota.
  destruct (take 4096 (drop pos d)) as [|x buf] eqn:Eb.
  { apply makes_ret. split; [done|]. rewrite E1. assert (drop pos d = []) as Ez by (by destruct (drop pos d)).
    rewrite fmap_insert. symmetry. apply insert_id. rewrite lookup_fmap, Ht. cbn. f_equal. unfold bare. cbn. f_equal. f_equal.
    rewrite <- (take_drop pos d) at 2. by rewrite Ez, app_nil_r. }
  rewrite <- Eb. set (buf0 := take 4096 (drop pos d)) in *.
  assert (1 <= zlen buf0 <= 4096) as Hbl by (split; [rewrite Eb; cbn [length]; lia|unfold buf0; rewrite length_take; lia]).
  eapply (makes_bind _ _ _ (fun r fs => r = zlen buf0 /\ fs = <[dst := mkInode (KFile (take pos d ++ buf0)) mode uid gid None]> (w_fs w1))).
  { unfold sys_write. unfold makes. wp_step. wp_step. pose proof (roomy_same _ _ Ha1 Hw (w_asked w1)) as Hroom.
    rewrite (proj2 (Z.leb_gt _ 0)) by lia. cbv zeta. rewrite Z.min_r by lia. repeat wp_step. cbn [w_fs asked]. rewrite E1, Ht.
    apply wp_bind, wp_set_fs; [done|]. apply wp_ret. rewrite Nat2Z.id, (take_ge buf0) by lia. done. }
  intros r w2 [-> E2] Ha2. rewrite Z.eqb_refl. cbn [negb].
  assert (pos + length buf0 <= length d)%nat as Hle by (unfold buf0; rewrite length_take, length_drop; lia).
  assert (take pos d ++ buf0 = take (pos + length buf0) d) as Etk.
  { rewrite <- take_take_drop. f_equal. unfold buf0. rewrite length_take. by rewrite <- take_take, firstn_all. }
  replace (Z.of_nat pos + zlen buf0) with (Z.of_nat (pos + length buf0)) by lia.
  eapply makes_mono; [eapply (IH (pos + length buf0)%nat isrc mode uid gid None)|].
  - eapply roomy_same; [|exact Hw]. congruence.
  - done.
  - by rewrite E2, lookup_insert_ne, E1.
  - done.
  - done.
  - by rewrite E2, lookup_insert_eq, Etk.
  - lia.
  - cbn beta. intros r fs [-> Ef]. split; [done|]. by rewrite Ef, E2, insert_insert_eq, E1.
Qed.

Lemma makes_copy fuel s t w p i d dir c : roomy w -> resolve true (w_fs w) s = Found p -> w_fs w !! p = Some i -> node_data i = Some d ->
  resolve true (w_fs w) t = Absent dir c -> (length d < fuel)%nat ->
  makes (copy_file fuel s t) w (fun r fs => r = 0 /\
    bare <$> fs = <[dir ++ [c] := mkInode (KFile d) 438 0 0 None]> (bare <$> w_fs w)).
Proof.
  intros Hw Hs Hi Hd Ht Hfuel. pose proof (roomy_calm _ Hw) as Hc. unfold copy_file.
  eapply makes_bind; [by eapply makes_views, looks_fopen|]. intros r w1 [-> E1] Ha1. cbn beta iota.
  eapply makes_bind; [eapply makes_creat; [by eapply calm_same|by rewrite E1]|]. intros r w2 [-> E2] Ha2. cbn beta iota.
  assert (w_fs w !! (dir ++ [c]) = None) as Hn.
  { unfold resolve in Ht. destruct (_ <=? _); [done|]. destruct t; [done|]. by apply walk_absent in Ht as (_ & Ht & _). }
  eapply makes_mono; [eapply (copy_loop_spec p (dir ++ [c]) d fuel 0 i 438 0 0 None)|].
  - eapply roomy_same; [|exact Hw]. congruence.
  - intros E. rewrite <- E in Hn. congruence.
  - rewrite E2, lookup_insert_ne, E1; [done|]. intros E. rewrite E in Hn. congruence.
  - done.
  - lia.
  - by rewrite E2, lookup_insert_eq.
  - lia.
  - cbn beta. intros r fs [-> Ef]. split; [done|]. by rewrite Ef, E2, insert_insert_eq, E1, fmap_insert.
Qed.

End Roomy.

(** ** Blobs *)

Section Blobs.
  Context (SHA256 : list Z -> list Z).

(** A digest is 32 bytes. *)
Definition sha_ok : Prop := forall d, length (SHA256 d) = 32%nat /\ Forall (fun b => 0 <= b < 256) (SHA256 d).

Definition psum (d : list Z) : list Z := concat (hex_byte <$> SHA256 d).
Definition blob_names (d : list Z) : path := [take 3 (psum d); drop 3 (psum d)].

Lemma blob_text p d : path_text (p ++ blob_names d) = path_text p ++ SLASH :: blob_key (SHA256 d).
Proof. rewrite path_text_app. unfold blob_names, path_text at 2, blob_key, psum. cbn. by rewrite app_nil_r. Qed.

Lemma psum_ok d : sha_ok -> length (psum d) = 64%nat /\ Forall is_hex (psum d).
Proof.
  intros Hs. destruct (Hs d) as [Hl Hb]. unfold psum. split; [by rewrite hex_length, Hl|by apply hex_digits].
Qed.

Lemma hex_name s : s <> [] -> Forall is_hex s -> good s /\ clean s.
Proof.
  intros Hne Hs. unfold good, clean. split_and!.
  - done.
  - intros ->. apply Forall_inv in Hs. unfold is_hex in Hs. lia.
  - intros ->. apply Forall_inv in Hs. unfold is_hex in Hs. lia.
  - intros Hin. rewrite Forall_forall in Hs. specialize (Hs _ Hin). unfold is_hex, SLASH in Hs. lia.
  - eapply Forall_impl; [exact Hs|]. unfold is_hex. cbn. lia.
Qed.

Lemma blob_names_ok d : sha_ok -> Forall good (blob_names d) /\ clean (blob_key (SHA256 d)) /\ zlen (blob_key (SHA256 d)) = 65 /\
  length (take 3 (psum d)) = 3%nat /\ length (drop 3 (psum d)) = 61%nat.
Proof.
  intros Hs. destruct (psum_ok d Hs) as [Hl Hh].
  assert (length (take 3 (psum d)) = 3%nat) as H3 by (rewrite length_take; lia).
  assert (length (drop 3 (psum d)) = 61%nat) as H61 by (rewrite length_drop; lia).
  destruct (hex_name (take 3 (psum d))) as [G1 C1]; [by intros E; rewrite E in H3|by apply Forall_take|].
  destruct (hex_name (drop 3 (psum d))) as [G2 C2]; [by intros E; rewrite E in H61|by apply Forall_drop|].
  split_and!; [by apply Forall_cons_2; [|apply Forall_singleton]| | |done|done].
  - change (clean (take 3 (psum d) ++ SLASH :: drop 3 (psum d))). apply Forall_app. split; [done|]. by constructor.
  - change (zlen (take 3 (psum d) ++ SLASH :: drop 3 (psum d)) = 65). rewrite length_app. cbn [length]. lia.
Qed.

End Blobs.

(** ** A line *)

(** The node that a line makes. *)
Definition restored (i : inode) : inode :=
  mkInode (i_kind i) (if is_link i then 511 else i_mode i .& 3583) (i_uid i) (i_gid i) None.

Section Lines.
  Context {Dev : Type} (fuel : nat) (SHA256 : list Z -> list Z) (lgetfilecon : list Z -> option (list Z)).
  Context (out blobs : path).
  Abbreviation world := (world tree Dev).

(** The node can be made: its directory is there, its name is free, and so is the
    blob of a file. *)
Record restorable (F : tree) (e : entry) : Prop := {
  rs_ok : entry_ok SHA256 lgetfilecon e;
  rs_rel : exists r c, e_rel e = r ++ [c] /\ Forall good (out ++ r ++ [c]) /\ dirs_to F (out ++ r) /\ F !! (out ++ r ++ [c]) = None /\
    zlen (from out (rel_text (r ++ [c]))) < PATH_MAX;
  rs_blob d : i_kind (e_node e) = KFile d -> (length d < fuel)%nat /\
    exists j, resolve true F (path_text (blobs ++ blob_names SHA256 d)) = Found (blobs ++ blob_names SHA256 d) /\
      F !! (blobs ++ blob_names SHA256 d) = Some j /\ i_kind j = KFile d /\ zlen (path_text (blobs ++ blob_names SHA256 d)) < PATH_MAX
}.

(** A call that changes a node, seen without times. *)
Lemma makes_change_bare s g (w : world) p i : calm w -> resolve true (w_fs w) s = Found p -> (bare <$> w_fs w) !! p = Some i ->
  (forall j, bare (g j) = bare (g (bare j))) ->
  makes (sys_change s g) w (fun _ fs => bare <$> fs = <[p := bare (g i)]> (bare <$> w_fs w)).
Proof.
  intros Hc Hr Hi Hg. apply bare_lookup in Hi as (j & Hj & ->). eapply makes_mono; [by eapply makes_change|].
  intros r fs [_ ->]. by rewrite fmap_insert, <- Hg.
Qed.

(** The last call, [utimes]. *)
Lemma makes_touched s t (w : world) (F : tree) : calm w -> bare <$> w_fs w = F ->
  makes (let! _ := if 2 <=? 2 then sys_utime s t else wret 0 in wret 0) w (fun r fs => r = 0 /\ bare <$> fs = F).
Proof.
  intros Hc <-. change (2 <=? 2) with true. cbn iota. eapply makes_bind; [by apply makes_utime|]. intros r w1 E _.
  by apply makes_ret.
Qed.

Lemma restore_line_spec e (w : world) : roomy w -> restorable (bare <$> w_fs w) e ->
  makes (restore_line fuel 2 out (Some (path_text blobs)) (entry_line SHA256 lgetfilecon e ++ [10])) w (fun ret fs =>
    ret = 0 /\ bare <$> fs = <[out ++ e_rel e := restored (e_node e)]> (bare <$> w_fs w)).
Proof.
  intros Hw He. pose proof (roomy_calm _ Hw) as Hc. destruct (rs_rel _ _ He) as (r & c & Er & Hg & Hd & Hn & Hlen).
  pose proof (rs_ok _ _ He) as Hok. pose proof (ok_tail _ _ _ Hok) as Ht. pose proof (ok_uid _ _ _ Hok). pose proof (ok_gid _ _ _ Hok).
  assert (exists type tail, e_tail SHA256 e = Some (type, tail)) as (type & tail & Et).
  { unfold e_tail. destruct (i_kind (e_node e)); eauto. done. }
  pose proof (entry_tail_clean SHA256 lgetfilecon e type tail Hok Et) as Hcl. apply Forall_cons in Hcl as [_ Hcl].
  set (node := out ++ e_rel e). set (F := bare <$> w_fs w) in *.
  assert (forall follow, resolve follow (w_fs w) (from out (rel_text (e_rel e))) = Absent (out ++ r) c) as Habs.
  { intros follow. rewrite Er, <- resolve_bare, resolve_rel by done. fold F. by rewrite Hn. }
  assert (forall (fs : tree) follow i, bare <$> fs = <[node := i]> F -> is_link i = false \/ follow = false ->
    resolve follow fs (from out (rel_text (e_rel e))) = Found node) as Hthere.
  { intros fs follow i Ef Hl. rewrite <- resolve_bare, Ef, Er, resolve_rel; [|done| |done].
    - unfold node. rewrite Er, lookup_insert_eq. destruct Hl as [-> | ->]; [done|by rewrite andb_false_r].
    - intros k Hk. destruct (Hd k Hk) as (j & Hj & Dj). exists j. split; [|done]. rewrite lookup_insert_ne; [done|].
      unfold node. rewrite Er. intros E. apply (f_equal length) in E. rewrite length_take, !length_app in E. cbn [length] in E.
      rewrite length_app in Hk. lia. }
  unfold restore_line. eapply makes_bind; [apply makes_lift, (parse_entry _ _ _ _ _ Hok Et)|]. intros x w1 [-> E1] Ha1. cbn beta iota.
  cbn [l_type l_mode l_uid l_gid l_mt l_filename].
  eapply makes_bind; [apply makes_lift; by apply mode_read_back|]. intros mode w2 [-> E2] Ha2. cbv zeta.
  rewrite !atoi_decimal by done. assert (w_fs w2 = w_fs w) as E12 by congruence.
  assert (roomy w2) as Hw2 by (eapply roomy_same; [|exact Hw]; congruence). pose proof (roomy_calm _ Hw2) as Hc2.
  assert (bare <$> w_fs w2 = F) as EF by (unfold F; by rewrite E12).
  assert (out ++ r ++ [c] = node) as Enode by (unfold node; by rewrite Er).
  destruct (i_kind (e_node e)) as [d|d| |t] eqn:Ek; unfold e_tail in Et; rewrite Ek in Et; [injection Et as <- <-|done|injection Et as <- <-..].
  - (* a file *)
    destruct (rs_blob _ _ He d Ek) as (Hfuel & j & Hrb & Hj & Kj & Hlb). apply bare_lookup in Hj as (j' & Hj' & ->).
    rewrite bool_decide_true by done. eapply (makes_bind _ _ _ (fun ret fs => ret = 0 /\ bare <$> fs = <[node := restored (e_node e)]> F)).
    2: { intros ret w3 [-> E3] Ha3. cbn [negb Z.eqb]. apply makes_touched; [|done]. eapply calm_same; [|exact Hc2]. congruence. }
    eapply makes_bind; [apply makes_lift|]. { unfold parse_blob. rewrite !tabbed_cons, <- app_assoc. cbn [app].
      apply Forall_cons in Hcl as [Hk1 Hcl]. apply Forall_cons in Hcl as [Hk2 _].
      rewrite tokenize_field; [|done|apply Ht]. cbn [mbind outcome_bind]. rewrite <- app_assoc. cbn [app].
      rewrite tokenize_field; [reflexivity|done|]. apply clean_decimal. rewrite (file_size_small _ d); [lia| |apply Ht]. unfold node_data. by rewrite Ek. }
    intros key w3 [-> E3] Ha3. eapply makes_bind; [apply makes_lift|]. { cbn [access mbind outcome_bind]. rewrite <- blob_text.
      unfold fits_buffer. by rewrite (proj2 (Z.ltb_lt _ _) Hlb). }
    intros bf w4 [-> E4] Ha4.
    eapply makes_bind; [eapply makes_copy|].
    + eapply roomy_same; [|exact Hw2]. congruence.
    + rewrite E4, E3, E12, <- resolve_bare. exact Hrb.
    + rewrite E4, E3, E12. exact Hj'.
    + unfold node_data. change (i_kind (bare j')) with (i_kind j') in Kj. by rewrite Kj.
    + rewrite E4, E3, E12. apply Habs.
    + done.
    + intros ret w5 [-> E5] Ha5. rewrite E4, E3, EF, <- app_assoc, Enode in E5. cbn [negb Z.eqb].
      assert (calm w5) as Hc5 by (eapply calm_same; [|exact Hc2]; congruence).
      eapply makes_bind; [eapply makes_change_bare; [done|by eapply Hthere; [exact E5|left]|by rewrite E5, lookup_insert_eq|done]|].
      intros r1 w6 E6 Ha6. rewrite E5, insert_insert_eq in E6. assert (calm w6) as Hc6 by (by eapply calm_same).
      eapply makes_bind; [eapply makes_change_bare; [done|by eapply Hthere; [exact E6|left]|by rewrite E6, lookup_insert_eq|done]|].
      intros r2 w7 E7 _. rewrite E6, insert_insert_eq in E7. apply makes_ret. split; [done|]. rewrite E7. f_equal.
      unfold restored, is_link. by rewrite Ek.
  - (* a directory *)
    do 2 rewrite bool_decide_false by done. rewrite bool_decide_true by done.
    eapply (makes_bind _ _ _ (fun ret fs => ret = 0 /\ bare <$> fs = <[node := restored (e_node e)]> F)).
    2: { intros ret w3 [-> E3] Ha3. cbn [negb Z.eqb]. apply makes_touched; [|done]. eapply calm_same; [|exact Hc2]. congruence. }
    eapply makes_bind; [eapply makes_make; [done|by rewrite E12, Habs]|]. intros r0 w3 [-> E3] Ha3.
    apply (f_equal (fmap bare)) in E3. rewrite fmap_insert, EF, <- app_assoc, Enode in E3.
    assert (calm w3) as Hc3 by (by eapply calm_same).
    eapply makes_bind; [eapply makes_change_bare; [done|by eapply Hthere; [exact E3|left]|by rewrite E3, lookup_insert_eq|done]|].
    intros r1 w4 E4 Ha4. rewrite E3, insert_insert_eq in E4. assert (calm w4) as Hc4 by (by eapply calm_same).
    eapply makes_bind; [eapply makes_change_bare; [done|by eapply Hthere; [exact E4|left]|by rewrite E4, lookup_insert_eq|done]|].
    intros r2 w5 E5 _. rewrite E4, insert_insert_eq in E5. apply makes_ret. split; [done|]. rewrite E5. f_equal.
    unfold restored, is_link. by rewrite Ek.
  - (* a link *)
    rewrite bool_decide_false by done. rewrite bool_decide_true by done.
    eapply (makes_bind _ _ _ (fun ret fs => ret = 0 /\ bare <$> fs = <[node := restored (e_node e)]> F)).
    2: { intros ret w3 [-> E3] Ha3. cbn [negb Z.eqb]. apply makes_touched; [|done]. eapply calm_same; [|exact Hc2]. congruence. }
    eapply makes_bind; [apply makes_lift; rewrite tabbed_cons, <- app_assoc; apply tokenize_field; [apply Ht|lia]|].
    intros x w3 [-> E3] Ha3. cbn beta iota.
    eapply makes_bind; [eapply makes_make; [by eapply calm_same|by rewrite E3, E12, Habs]|]. intros r0 w4 [-> E4] Ha4.
    rewrite E3, <- app_assoc, Enode in E4. assert (calm w4) as Hc4 by (eapply calm_same; [|exact Hc2]; congruence).
    assert (bare <$> w_fs w4 = <[node := new_inode (KLink t) 511]> F) as E4' by (by rewrite E4, fmap_insert, EF).
    eapply makes_bind; [eapply makes_lchown; [done|by eapply Hthere; [exact E4'|right]|by rewrite E4, lookup_insert_eq]|].
    intros r1 w5 [-> E5] _. apply makes_ret. split; [done|]. rewrite E5, fmap_insert, E4', insert_insert_eq. f_equal.
    unfold restored, is_link. by rewrite Ek.
Qed.

(** ** All lines *)

Definition restore_entry (F : tree) (e : entry) : tree := <[out ++ e_rel e := restored (e_node e)]> F.

Fixpoint all_restorable (F : tree) (es : list entry) : Prop :=
  match es with
  | [] => True
  | e :: es => restorable F e /\ all_restorable (restore_entry F e) es
  end.

Lemma unread_insert (fs : tree) f p i : r_node f <> p -> unread (<[p := i]> fs) f = unread fs f.
Proof. intros H. unfold unread. by rewrite lookup_insert_ne. Qed.

Lemma lines_ok es : Forall (entry_ok SHA256 lgetfilecon) es -> Forall line_ok (entry_line SHA256 lgetfilecon <$> es).
Proof. induction 1 as [|e es He Hes IH]; [constructor|]. rewrite fmap_cons. constructor; [by apply entry_line_ok|done]. Qed.

Lemma restore_lines_spec n : forall es (f : rfile) (w : world), roomy w ->
  in_front (w_fs w) f (entry_line SHA256 lgetfilecon <$> es) -> all_restorable (bare <$> w_fs w) es -> (length es < n)%nat ->
  makes (restore_lines fuel n 2 out (Some (path_text blobs)) f) w (fun r fs =>
    r = 0 /\ bare <$> fs = foldl restore_entry (bare <$> w_fs w) es).
Proof.
  induction n as [|n IH]; intros es f w Hw Hf Hes Hn; [lia|]. cbn [restore_lines]. pose proof (roomy_calm _ Hw) as Hc.
  destruct es as [|e es].
  - destruct (no_line w f Hc Hf) as (f' & Hl). eapply makes_bind; [by apply makes_views|]. intros x w1 [-> E1] _. cbn beta iota.
    apply makes_ret. by rewrite E1.
  - destruct Hes as [He Hes]. rewrite fmap_cons in Hf. destruct (next_line w f _ _ Hc Hf) as (f' & Hl & Hf' & Hnode).
    eapply makes_bind; [by apply makes_views|]. intros x w1 [-> E1] Ha1. cbn beta iota.
    eapply makes_bind; [apply restore_line_spec; [by eapply roomy_same|by rewrite E1]|]. intros ret w2 [-> E2] Ha2.
    rewrite E1 in E2. cbn [negb Z.eqb]. cbn [foldl].
    assert (bare <$> w_fs w2 = restore_entry (bare <$> w_fs w) e) as E2' by exact E2. rewrite <- E2'. apply IH.
    + eapply roomy_same; [|exact Hw]. congruence.
    + apply in_front_bare. rewrite E2. destruct Hf' as (Hp & Hu & Hl'). split_and!; [done| |done].
      rewrite unread_insert; [by rewrite unread_bare|]. rewrite Hnode. intros Er. destruct (rs_rel _ _ He) as (r & c & Ee & _ & _ & Hnone & _).
      rewrite <- Ee, <- Er, bare_None in Hnone. destruct Hf as (_ & Hu' & _). unfold unread in Hu'. rewrite Hnone in Hu'.
      unfold lines_text in Hu'. rewrite fmap_cons in Hu'. cbn [concat] in Hu'. by destruct (entry_line SHA256 lgetfilecon e).
    + by rewrite E2'.
    + cbn in Hn. lia.
Qed.

Context {DO : DirOrder}.

(** The whole of [dedupe x], into a directory that is there. *)
Lemma dedupe_x_spec m es (w : world) : roomy w ->
  manifest_at (w_fs w) m (entry_line SHA256 lgetfilecon <$> es) ->
  resolve true (w_fs w) (path_text blobs) = Found blobs -> is_Some (w_fs w !! blobs) -> blobs <> [] ->
  (forall follow, resolve follow (w_fs w) (path_text out) = Found out) -> isdir (w_fs w) out ->
  all_restorable (bare <$> w_fs w) es -> (length es < fuel)%nat ->
  makes (dedupe_x fuel m (path_text blobs) (path_text out)) w (fun r fs =>
    r = 0 /\ bare <$> fs = foldl restore_entry (bare <$> w_fs w) es).
Proof.
  intros Hw [Hok (p & i & Hr & Hi & Hd)] Hb Hbs Hbn Ho Hdir Hes Hn. pose proof (roomy_calm _ Hw) as Hc. unfold dedupe_x.
  eapply makes_bind; [by eapply makes_views, looks_fopen|]. intros x w1 [-> E1] Ha1. cbn beta iota.
  eapply makes_bind; [eapply makes_views, (looks_realpath _ _ blobs); [by eapply calm_same|by rewrite E1|by rewrite E1|done]|].
  intros x w2 [-> E2] Ha2. rewrite E1 in E2. assert (calm w2) as Hc2 by (eapply calm_same; [|exact Hc]; congruence).
  eapply (makes_bind _ _ _ (fun _ fs => fs = w_fs w)).
  { apply wp_syscall; [by intros []|]. rewrite E2, Ho. by apply wp_ret. }
  intros x w3 E3 Ha3. assert (calm w3) as Hc3 by (eapply calm_same; [|exact Hc2]; congruence).
  eapply (makes_bind _ _ _ (fun d fs => d = Some out /\ fs = w_fs w)).
  { apply wp_syscall; [by intros []|]. rewrite E3, Ho. destruct Hdir as (j & Hj & Dj). rewrite Hj. cbn. rewrite Dj.
    rewrite decide_True by done. apply wp_ret. cbn. by rewrite E3. }
  intros x' w4 [-> E4] Ha4. cbn beta iota. assert (roomy w4) as Hw4 by (eapply roomy_same; [|exact Hw]; congruence).
  assert (in_front (w_fs w4) (mkR p 0) (header :: (entry_line SHA256 lgetfilecon <$> es))) as Hf.
  { split_and!; [done| |by constructor; [apply header_ok|]]. unfold unread. rewrite E4. cbn. by rewrite Hi, Hd. }
  destruct (header_version w4 _ _ (roomy_calm _ Hw4) Hf) as (f' & Hv & Hf').
  eapply makes_bind; [by apply makes_views|]. intros y w5 [-> E5] Ha5. cbn beta iota. change (DEDUPE_VERSION <? 2) with false. cbn iota.
  eapply makes_mono; [eapply restore_lines_spec|].
  - eapply roomy_same; [|exact Hw4]. congruence.
  - by rewrite E5.
  - by rewrite E5, E4.
  - done.
  - cbn beta. by rewrite E5, E4.
Qed.

End Lines.
