(* ===== verification/DedupeStore.v ===== *)
(** * Making a backup ([dedupe c])

    The lines that [dedupe c] writes are those of the nodes it visits, a directory
    before what is in it, and the blobs of all files are there when it ends.
    Times of nodes on the disk are left out. *)
From stdpp Require Import pretty.
From S2P Require Import Prelude.
From S2P Require Import Cbuf.
From S2P Require Import Posix.
From S2P Require Import PosixFacts.
From S2P Require Import Numerals.
From S2P Require Import Stdio.
From S2P Require Import DirUtil.
From S2P Require Import DirTrees.
From S2P Require Import Views.
From S2P Require Import TextLines.
From S2P Require Import Streams.
From S2P Require Import Dedupe.
From S2P Require Import DedupeFacts.
From S2P Require Import DedupeFormat.
From S2P Require Import DedupeRestore.
Local Open Scope string_scope.
Local Open Scope Z_scope.
Local Open Scope list_scope.

(** ** The stream of the manifest *)

Abbreviation written man := (holds man KFile []).
Abbreviation rewritten man := (Streams.rewritten man KFile).

(** [fprintf] appends. *)
Lemma fput_spec {Dev : Type} (man : path) data (m : wfile) t (w : world tree Dev) : roomy w -> written man m t (bare <$> w_fs w) ->
  makes (fput data m) w (fun m' fs => written man m' (t ++ data) (bare <$> fs) /\ rewritten man (bare <$> w_fs w) (bare <$> fs)).
Proof.
  intros Hw Hm. unfold fput. eapply makes_bind; [apply (fwrite_spec man KFile []); [done|by left|done]|].
  intros [ok m'] w1 (_ & H) _. by apply makes_ret.
Qed.

(** ** Digests name contents *)

Section Store.
  Context {Dev : Type} {DO : DirOrder} (fuel : nat) (SHA256 : list Z -> list Z) (lgetfilecon : list Z -> option (list Z)).
  Abbreviation world := (world tree Dev).
  (** The directory, the blobs, the manifest, what is excluded; the disk before. *)
  Context (src blobs man : path) (excluded : list (list Z)) (F0 : tree).

(** A node that is visited. *)
Definition kept (r : path) : Prop := forall k, (0 < k <= length r)%nat -> rel_text (take k r) ∉ excluded.
Definition visited (r : path) (i : inode) : Prop :=
  kept r /\ F0 !! (src ++ r) = Some i /\ (r <> [] -> forall d, i_kind i <> KBlock d).

(** The contents that are stored. *)
Definition content (d : list Z) : Prop := exists r i, visited r i /\ i_kind i = KFile d.

Definition blob_at (d : list Z) : path := blobs ++ blob_names SHA256 d.

(** The blob of a content is there. *)
Definition has (F : tree) (d : list Z) : Prop :=
  isdir F (blobs ++ [take 3 (psum SHA256 d)]) /\ exists i, F !! blob_at d = Some i /\ i_kind i = KFile d.

(** What is assumed: the tree is one, names, sizes and numbers are such as a line
    can hold, the blobs and the manifest are not among the visited nodes, and no
    two contents have the same digest. *)
Record setting : Prop := {
  se_sha : sha_ok SHA256;
  se_wf : wf F0;
  se_src : isdir F0 src;
  se_blobs : isdir F0 blobs;
  se_man : exists i d, F0 !! man = Some i /\ i_kind i = KFile d;
  se_apart : (~ blobs `prefix_of` man) /\ forall r i, visited r i -> src ++ r <> man /\ ~ blobs `prefix_of` src ++ r;
  se_ok r i at_ mt ct : visited r i -> r <> [] -> 0 <= at_ < 2 ^ 32 -> 0 <= mt < 2 ^ 32 -> 0 <= ct < 2 ^ 32 ->
    entry_ok SHA256 lgetfilecon (mkEntry r (bare i) at_ mt ct);
  se_len r i : F0 !! (src ++ r) = Some i -> zlen (from src (rel_text r)) < PATH_MAX /\ (length r < fuel)%nat;
  se_size d : content d -> (length d < fuel)%nat;
  se_room : zlen (path_text blobs) + 70 < PATH_MAX;
  se_inj d d' : content d -> content d' -> SHA256 d = SHA256 d' -> d = d'
}.

(** The disk while the backup is being made: all else is as it was, and the blobs
    are directories of files, those of the contents with the right data. *)
Record work (F : tree) : Prop := {
  wk_else q : q <> man -> (~ blobs `prefix_of` q) -> F !! q = bare <$> F0 !! q;
  wk_man : exists i, F !! man = Some i /\ is_dir i = false /\ is_link i = false;
  wk_dir : isdir F blobs;
  wk_kind rel i : F !! (blobs ++ rel) = Some i -> (length rel <= 1)%nat /\ is_dir i = true \/
    exists a b d, rel = [a; b] /\ length b = 61%nat /\ i_kind i = KFile d;
  wk_sound d i : content d -> F !! blob_at d = Some i -> i_kind i = KFile d
}.

Context (Hset : setting).

Lemma work_dirs F p : work F -> dirs_to F0 p -> (~ blobs `prefix_of` p) -> dirs_to F p.
Proof.
  intros HF Hd Hp k Hk. destruct (Hd k Hk) as (i & Hi & Di). exists (bare i). split; [|done].
  rewrite (wk_else _ HF); [by rewrite Hi| |].
  - intros E. destruct (se_man Hset) as (j & d & Hj & Kj). unfold is_dir in Di. rewrite E, Hj in Hi. injection Hi as <-. by rewrite Kj in Di.
  - intros Hb. apply Hp. etrans; [exact Hb|]. apply prefix_take.
Qed.

(** The blobs' own directory. *)
Lemma blobs_dirs F : work F -> dirs_to F blobs.
Proof.
  intros HF k Hk. destruct (decide (k = length blobs)) as [->|Hne]; [rewrite firstn_all; apply HF|].
  pose proof (se_blobs Hset) as Hb. pose proof Hb as (i & Hi & _).
  destruct (wf_dirs _ _ (se_wf Hset) (ex_intro _ i Hi)) as [_ Hd]. destruct (Hd Hb k Hk) as (j & Hj & Dj). exists (bare j). split; [|done].
  rewrite (wk_else _ HF); [by rewrite Hj| |].
  - intros E. destruct (se_man Hset) as (m & d & Hm & Km). unfold is_dir in Dj. rewrite E, Hm in Hj. injection Hj as <-. by rewrite Km in Dj.
  - intros Hp. apply prefix_length in Hp. rewrite length_take in Hp. lia.
Qed.

Lemma blobs_good : Forall good blobs.
Proof. destruct (se_blobs Hset) as (i & Hi & _). by apply (wf_dirs _ _ (se_wf Hset)); exists i. Qed.

(** Changing the manifest, or what is below the blobs. *)
Lemma work_rewritten F F' : work F -> rewritten man F F' -> work F' /\ forall d, has F d -> has F' d.
Proof.
  intros HF (i & j0 & dj & Hi & Kj & ->). destruct (se_apart Hset) as [Hm _]. set (j := bare j0).
  assert (is_dir j = false /\ is_link j = false) as [Dj Lj] by (unfold is_dir, is_link; cbn [j bare i_kind]; by rewrite Kj).
  assert (forall rel, <[man := j]> F !! (blobs ++ rel) = F !! (blobs ++ rel)) as E.
  { intros rel. apply lookup_insert_ne. intros ->. apply Hm. by apply prefix_app_r. }
  split; [split|].
  - intros q H1 H2. rewrite lookup_insert_ne by done. by apply HF.
  - exists j. by rewrite lookup_insert_eq.
  - destruct (wk_dir _ HF) as (b & Hb & Db). exists b. split; [|done]. specialize (E []). rewrite app_nil_r in E. by rewrite E.
  - intros rel b. rewrite E. apply HF.
  - intros d b Hd. unfold blob_at. rewrite E. by apply HF.
  - intros d [(x & Hx & Dx) (b & Hb & Kb)]. split; [exists x; by rewrite E|]. exists b. split; [|done]. unfold blob_at. by rewrite E.
Qed.

Lemma blob_at_inj d d' : content d -> content d' -> blob_at d = blob_at d' -> d = d'.
Proof.
  intros Hd Hd' E. unfold blob_at, blob_names in E. apply app_inv_head in E. injection E as E1 E2.
  apply (se_inj Hset); [done..|]. destruct (se_sha Hset d) as [_ H1]. destruct (se_sha Hset d') as [_ H2].
  apply hex_inj; [done..|]. fold (psum SHA256 d) (psum SHA256 d'). rewrite <- (take_drop 3 (psum SHA256 d)), <- (take_drop 3 (psum SHA256 d')).
  by rewrite E1, E2.
Qed.

(** ** A file *)

Lemma sha256_loop_spec p d n : forall pos i (w : world), calm w -> w_fs w !! p = Some i -> node_data i = Some d -> (pos <= length d)%nat ->
  (length d - pos < n)%nat -> looks (sha256_loop n (mkR p (Z.of_nat pos)) (take pos d)) w d.
Proof.
  induction n as [|n IH]; intros pos i w Hc Hi Hd Hpos Hn; [lia|]. cbn [sha256_loop r_node r_pos].
  eapply (looks_bind _ _ _ (Some (take 1024 (drop pos d)))).
  { unfold looks, views, sys_read. repeat wp_step. cbn. rewrite (proj2 (Z.ltb_ge _ 0)) by apply Hc. rewrite Hi. cbn. rewrite Hd. cbn.
    by rewrite Nat2Z.id. }
  intros w1 H1. cbn beta iota. set (buf := take 1024 (drop pos d)).
  assert (take pos d ++ buf = take (pos + length buf) d) as E.
  { rewrite <- take_take_drop. f_equal. unfold buf. rewrite length_take. by rewrite <- take_take, firstn_all. }
  destruct (zlen buf <? BUFSIZ) eqn:Eb; bool_to_prop.
  - apply views_ret. rewrite E. apply take_ge. unfold buf, BUFSIZ in *. rewrite length_take, length_drop in *. lia.
  - rewrite E. replace (Z.of_nat pos + zlen buf) with (Z.of_nat (pos + length buf)) by lia.
    assert (length buf = 1024%nat /\ (pos + length buf <= length d)%nat) as [Hl Hle].
    { unfold buf, BUFSIZ in *. rewrite length_take, length_drop in *. lia. }
    eapply wp_mono; [apply (IH _ i); [by eapply calm_still|by rewrite (proj1 H1)|done|done|lia]|done|].
    intros r w2 [-> H2]. split; [done|]. by eapply still_trans.
Qed.

Lemma dirname_snoc s b : (SLASH ∉ b) -> dirname (s ++ SLASH :: b) = s.
Proof.
  intros Hb. unfold dirname. rewrite rev_app_distr. cbn [rev]. rewrite <- app_assoc. cbn [app].
  rewrite skip_while_app; cbn [snd drop].
  - apply rev_involutive.
  - apply Forall_forall. intros c Hc. apply negb_true_iff, Z.eqb_neq. intros ->. apply Hb. rewrite list_elem_of_In, in_rev, <- list_elem_of_In. done.
  - by intros c [= <-].
Qed.

Lemma makes_rename s t (w : world) p dir c i : calm w -> resolve false (w_fs w) s = Found p -> w_fs w !! p = Some i -> is_dir i = false ->
  resolve false (w_fs w) t = Absent dir c -> makes (sys_rename s t) w (fun r fs => r = 0 /\ fs = <[dir ++ [c] := i]> (delete p (w_fs w))).
Proof.
  intros Hc Hs Hi Di Ht. apply wp_syscall; [by intros []|]. rewrite Hs, Hi, Di, Ht. apply wp_bind, wp_set_fs; [done|]. by apply wp_ret.
Qed.

(** More blobs. *)
Record grown (F F' : tree) : Prop := {
  gr_work : work F';
  gr_has d : has F d -> has F' d;
  gr_man : F' !! man = F !! man
}.

Lemma blobs_grown_refl F : work F -> grown F F.
Proof. by split. Qed.

Lemma blobs_grown_trans F F1 F2 : grown F F1 -> grown F1 F2 -> grown F F2.
Proof. intros [A1 A2 A3] [B1 B2 B3]. split; [done|auto|congruence]. Qed.

(** A new node below the blobs. *)
Lemma work_insert F rel j : work F -> rel <> [] -> F !! (blobs ++ rel) = None ->
  ((length rel <= 1)%nat /\ is_dir j = true \/ exists a b d, rel = [a; b] /\ length b = 61%nat /\ i_kind j = KFile d) ->
  (forall d, content d -> blob_at d = blobs ++ rel -> i_kind j = KFile d) ->
  grown F (<[blobs ++ rel := j]> F).
Proof.
  intros HF Hne Hn Hk Hs. destruct (se_apart Hset) as [Hm _]. split; [split| |].
  - intros q H1 H2. rewrite lookup_insert_ne; [by apply HF|]. intros <-. apply H2. by apply prefix_app_r.
  - destruct (wk_man _ HF) as (i & Hi & Di). exists i. split; [|done]. rewrite lookup_insert_ne; [done|]. intros <-. apply Hm. by apply prefix_app_r.
  - destruct (wk_dir _ HF) as (i & Hi & Di). exists i. split; [|done]. rewrite lookup_insert_ne; [done|]. intros E.
    rewrite <- (app_nil_r blobs) in E at 2. apply app_inv_head in E. done.
  - intros rel' i. destruct (decide (rel' = rel)) as [->|Hr].
    + rewrite lookup_insert_eq. intros [= <-]. exact Hk.
    + rewrite lookup_insert_ne; [apply HF|]. intros E. apply app_inv_head in E. congruence.
  - intros d i Hd. destruct (decide (blob_at d = blobs ++ rel)) as [E|E].
    + rewrite E, lookup_insert_eq. intros [= <-]. by apply Hs.
    + rewrite lookup_insert_ne by done. by apply HF.
  - intros d [(x & Hx & Dx) (i & Hi & Ki)]. split.
    + exists x. split; [|done]. rewrite lookup_insert_ne; [done|]. intros E. rewrite <- E in Hx. congruence.
    + exists i. split; [|done]. rewrite lookup_insert_ne; [done|]. intros E. rewrite <- E in Hi. congruence.
  - apply lookup_insert_ne. intros <-. apply Hm. by apply prefix_app_r.
Qed.

Lemma blob_dirs F d : work F -> isdir F (blobs ++ [take 3 (psum SHA256 d)]) -> dirs_to F (blobs ++ [take 3 (psum SHA256 d)]).
Proof. intros HF Hd. apply dirs_to_snoc; [by apply blobs_dirs|done]. Qed.

(** [mkdir] of the directory of a blob. *)
Lemma blob_mkdir d (w : world) : roomy w -> work (bare <$> w_fs w) ->
  makes (sys_mkdir (dirname (path_text (blob_at d))) 511) w (fun _ fs => grown (bare <$> w_fs w) (bare <$> fs) /\
    isdir (bare <$> fs) (blobs ++ [take 3 (psum SHA256 d)])).
Proof.
  intros Hw HF. destruct (blob_names_ok SHA256 d (se_sha Hset)) as (Hg & _ & _ & H3 & H61). set (k1 := take 3 (psum SHA256 d)) in *.
  apply Forall_cons in Hg as [Hg1 Hg2]. apply Forall_inv in Hg2 as (_ & _ & _ & Hs).
  assert (path_text (blob_at d) = path_text (blobs ++ [k1]) ++ SLASH :: drop 3 (psum SHA256 d)) as ->.
  { unfold blob_at, blob_names. fold k1. change [k1; drop 3 (psum SHA256 d)] with ([k1] ++ [drop 3 (psum SHA256 d)]). by rewrite app_assoc, path_text_snoc. }
  rewrite dirname_snoc by done. apply wp_syscall; [by intros []; apply roomy_calm|].
  assert (Forall good (blobs ++ [k1])) as Hgb by (apply Forall_app; split; [apply blobs_good|by apply Forall_singleton]).
  rewrite <- resolve_bare, (resolve_plain false _ _ blobs k1); [| | |done|by apply blobs_dirs].
  2: { rewrite path_text_snoc, length_app. cbn [length]. pose proof (se_room Hset). lia. }
  2: { rewrite path_text_snoc, components_snoc by done. rewrite names_path; [done|]. apply blobs_good. }
  destruct ((bare <$> w_fs w) !! (blobs ++ [k1])) as [i|] eqn:Ei.
  - rewrite andb_false_r. apply wp_ret. cbn [w_fs asked]. split; [|done]. split; [by apply blobs_grown_refl|]. exists i. split; [done|].
    destruct (wk_kind _ HF _ _ Ei) as [[_ H]|(a & b & dd & [=] & _)]; done.
  - apply wp_bind, wp_set_fs; [done|]. apply wp_ret. cbn [w_fs changed asked]. rewrite fmap_insert. split; [|done].
    destruct (work_insert (bare <$> w_fs w) [k1] (bare (new_inode KDir 511)) HF) as [H1 H2 H2']; [done|done|left; cbn; split; [lia|done]| |].
    { intros d' _ E. unfold blob_at, blob_names in E. apply app_inv_head in E. done. }
    split; [done|]. eexists. by rewrite lookup_insert_eq.
Qed.

(** The texts of a blob's paths are plain. *)
Lemma blob_plain d follow F b : work F -> isdir F (blobs ++ [take 3 (psum SHA256 d)]) -> good b -> zlen b <= 65 ->
  resolve follow F (path_text (blobs ++ [take 3 (psum SHA256 d)]) ++ SLASH :: b) =
  match F !! ((blobs ++ [take 3 (psum SHA256 d)]) ++ [b]) with
  | None => Absent (blobs ++ [take 3 (psum SHA256 d)]) b
  | Some i => if is_link i && follow then resolve follow F (path_text (blobs ++ [take 3 (psum SHA256 d)]) ++ SLASH :: b)
              else Found ((blobs ++ [take 3 (psum SHA256 d)]) ++ [b])
  end.
Proof.
  intros HF Hd Hb Hl. destruct (blob_names_ok SHA256 d (se_sha Hset)) as (Hg & _ & _ & H3 & _). apply Forall_cons in Hg as [Hg1 _].
  assert (Forall good (blobs ++ [take 3 (psum SHA256 d)])) as Hgb by (apply Forall_app; split; [apply blobs_good|by apply Forall_singleton]).
  apply resolve_plain.
  - rewrite length_app, path_text_snoc, length_app. cbn [length]. pose proof (se_room Hset). lia.
  - rewrite components_snoc by done. by rewrite names_path.
  - apply Forall_app. split; [done|by apply Forall_singleton].
  - by apply blob_dirs.
Qed.

Lemma blob_at_snoc d : blob_at d = (blobs ++ [take 3 (psum SHA256 d)]) ++ [drop 3 (psum SHA256 d)].
Proof. unfold blob_at, blob_names. by rewrite <- app_assoc. Qed.

Lemma good_app b t : good b -> (SLASH ∉ t) -> (2 < length (b ++ t))%nat -> good (b ++ t).
Proof.
  intros (_ & _ & _ & Hs) Ht Hl. unfold good. split_and!; try (by intros E; rewrite E in Hl; cbn in Hl; lia).
  rewrite elem_of_app. tauto.
Qed.

(** The blob is made under another name and then renamed. *)
Lemma make_blob d f p i (w : world) : roomy w -> work (bare <$> w_fs w) -> isdir (bare <$> w_fs w) (blobs ++ [take 3 (psum SHA256 d)]) ->
  content d -> (bare <$> w_fs w) !! blob_at d = None -> resolve true (w_fs w) f = Found p -> w_fs w !! p = Some i -> node_data i = Some d ->
  makes (let! ret := copy_file fuel f (path_text (blob_at d) ++ str ".tmp") in
         if negb (ret =? 0) then wret ret
         else let! r := sys_rename (path_text (blob_at d) ++ str ".tmp") (path_text (blob_at d)) in wret (if r =? 0 then 0 else -1)) w
    (fun ret fs => ret = 0 /\ grown (bare <$> w_fs w) (bare <$> fs) /\ has (bare <$> fs) d).
Proof.
  intros Hw HF Hdir Hd Hn Hr Hi Hdata. destruct (blob_names_ok SHA256 d (se_sha Hset)) as (Hg & _ & _ & H3 & H61).
  apply Forall_cons in Hg as [_ Hg]. apply Forall_inv in Hg. set (F := bare <$> w_fs w) in *.
  set (dir := blobs ++ [take 3 (psum SHA256 d)]) in *. set (k2 := drop 3 (psum SHA256 d)) in *. set (tmp := k2 ++ str ".tmp").
  assert (length tmp = 65%nat) as Htl by (unfold tmp; rewrite length_app, H61; done).
  assert (good tmp) as Hgt by (apply good_app; [done|by_decide|rewrite length_app, H61; cbn; lia]).
  assert (path_text (blob_at d) = path_text dir ++ SLASH :: k2) as Eb by (rewrite blob_at_snoc; apply path_text_snoc).
  assert (path_text (blob_at d) ++ str ".tmp" = path_text dir ++ SLASH :: tmp) as Et by (rewrite Eb, <- app_assoc; done).
  rewrite Et, Eb. rewrite blob_at_snoc in Hn. fold dir k2 in Hn.
  assert (F !! (dir ++ [tmp]) = None) as Hnt.
  { destruct (F !! (dir ++ [tmp])) as [j|] eqn:Ej; [|done]. exfalso. unfold dir in Ej. rewrite <- app_assoc in Ej.
    destruct (wk_kind _ HF _ _ Ej) as [[H _]|(a & b & dd & [= <- <-] & H & _)]; [cbn in H; lia|congruence]. }
  assert (k2 <> tmp) as Hkt by (intros E; apply (f_equal length) in E; lia).
  eapply makes_bind; [eapply (makes_copy fuel _ _ _ p i d dir tmp); [done|done|done|done| |by apply (se_size Hset)]|].
  { rewrite <- resolve_bare. fold F. pose proof (blob_plain d true F tmp HF Hdir Hgt ltac:(lia)) as Hp. fold dir in Hp. by rewrite Hp, Hnt. }
  intros ret w1 [-> E1] Ha1. cbn [negb Z.eqb]. fold F in E1. set (j := mkInode (KFile d) 438 0 0 None) in *.
  assert (roomy w1) as Hw1 by (by eapply roomy_same).
  assert (isdir (<[dir ++ [tmp] := j]> F) dir) as Hdir1.
  { destruct Hdir as (x & Hx & Dx). exists x. split; [|done]. rewrite lookup_insert_ne; [done|].
    intros E. apply (f_equal length) in E. rewrite length_app in E. cbn in E. lia. }
  assert (dirs_to (<[dir ++ [tmp] := j]> F) dir) as Hdirs1.
  { intros k Hk. destruct (blob_dirs F d HF Hdir k Hk) as (x & Hx & Dx). exists x. split; [|done]. rewrite lookup_insert_ne; [done|].
    intros E. apply (f_equal length) in E. rewrite length_take, length_app in E. cbn in E. unfold dir in *. lia. }
  assert (forall b, good b -> zlen b <= 65 -> resolve false (<[dir ++ [tmp] := j]> F) (path_text dir ++ SLASH :: b) =
    match <[dir ++ [tmp] := j]> F !! (dir ++ [b]) with None => Absent dir b | Some _ => Found (dir ++ [b]) end) as Hres.
  { intros b Hb Hl. rewrite (resolve_plain false _ _ dir b); [| | | |exact Hdirs1].
    - destruct (_ !! (dir ++ [b])); [by rewrite andb_false_r|done].
    - unfold dir. rewrite length_app, path_text_snoc, length_app. cbn [length]. pose proof (se_room Hset). lia.
    - rewrite components_snoc by done. f_equal. apply names_path. apply Forall_app. split; [apply blobs_good|].
      destruct (blob_names_ok SHA256 d (se_sha Hset)) as (Hg' & _). apply Forall_cons in Hg' as [? _]. by apply Forall_singleton.
    - apply Forall_app. split; [|by apply Forall_singleton]. apply Forall_app. split; [apply blobs_good|].
      destruct (blob_names_ok SHA256 d (se_sha Hset)) as (Hg' & _). apply Forall_cons in Hg' as [? _]. by apply Forall_singleton. }
  assert (exists j', w_fs w1 !! (dir ++ [tmp]) = Some j' /\ bare j' = j) as (j' & Hj' & Ej').
  { assert ((bare <$> w_fs w1) !! (dir ++ [tmp]) = Some j) as H by (by rewrite E1, lookup_insert_eq).
    apply bare_lookup in H as (j' & Hj' & ->). by exists j'. }
  eapply makes_bind; [eapply (makes_rename _ _ _ (dir ++ [tmp]) dir k2 j'); [by apply roomy_calm| |done| |]|].
  - rewrite <- resolve_bare, E1, Hres by (done || lia). by rewrite lookup_insert_eq.
  - change (is_dir (bare j') = false). by rewrite Ej'.
  - rewrite <- resolve_bare, E1, Hres by (done || lia). rewrite lookup_insert_ne; [by rewrite Hn|]. intros E. apply app_inj_tail in E as [_ E]. congruence.
  - intros r w2 [-> E2] _. cbn [Z.eqb]. apply makes_ret.
    assert (bare <$> w_fs w2 = <[blobs ++ [take 3 (psum SHA256 d); k2] := j]> F) as E3.
    { rewrite E2, fmap_insert, fmap_delete, Ej', E1, delete_insert_id by done. unfold dir. by rewrite <- app_assoc. }
    destruct (work_insert F [take 3 (psum SHA256 d); k2] j HF) as [H1 H2 H2']; [done| |right; eexists _, _, _; by split_and!| |].
    + unfold dir in Hn. by rewrite <- app_assoc in Hn.
    + intros d' Hd' E. apply (blob_at_inj d' d Hd' Hd) in E as ->. done.
    + rewrite E3. split_and!; [done|done|]. split.
      { destruct Hdir as (x & Hx & Dx). exists x. split; [|done]. rewrite lookup_insert_ne; [done|]. intros E. apply (f_equal length) in E.
        unfold dir in E. rewrite !length_app in E. cbn in E. lia. }
      exists j. split; [|done]. unfold blob_at, blob_names. fold k2. by rewrite lookup_insert_eq.
Qed.

(** ** Nodes that are visited *)

Lemma kept_snoc r c : kept (r ++ [c]) <-> kept r /\ rel_text (r ++ [c]) ∉ excluded.
Proof.
  split.
  - intros H. split.
    + intros k Hk. specialize (H k). rewrite take_app_le in H by lia. apply H. rewrite length_app. lia.
    + specialize (H (length (r ++ [c]))). rewrite firstn_all in H. apply H. rewrite length_app. cbn. lia.
  - intros [H1 H2] k Hk. rewrite length_app in Hk. cbn in Hk. destruct (decide (k <= length r)%nat).
    + rewrite take_app_le by lia. apply H1. lia.
    + rewrite take_ge; [done|rewrite length_app; cbn; lia].
Qed.

Lemma visited_parent r c i : visited (r ++ [c]) i -> exists j, visited r j /\ is_dir j = true /\ good c.
Proof.
  intros (Hk & Hi & _). apply kept_snoc in Hk as [Hk _]. rewrite app_assoc in Hi.
  destruct (wf_parent _ (se_wf Hset) _ _ (ex_intro _ i Hi)) as [(j & Hj & Dj) Hg]. exists j. split_and!; [|done|done].
  split_and!; [done|done|]. intros _ d E. unfold is_dir in Dj. by rewrite E in Dj.
Qed.

Lemma visited_above r rest i : visited (r ++ rest) i -> exists j, visited r j.
Proof.
  revert i. induction rest as [|c rest IH] using rev_ind; intros i H; [rewrite app_nil_r in H; by exists i|].
  rewrite app_assoc in H. apply visited_parent in H as (j & H & _). by eapply IH.
Qed.

Lemma visited_here F r i : work F -> visited r i -> F !! (src ++ r) = Some (bare i).
Proof.
  intros HF Hv. destruct (se_apart Hset) as [_ H]. destruct (H r i Hv) as [H1 H2]. rewrite (wk_else _ HF) by done.
  destruct Hv as (_ & -> & _). done.
Qed.

Lemma visited_good r i : visited r i -> Forall good (src ++ r).
Proof. intros (_ & Hi & _). by apply (wf_dirs _ _ (se_wf Hset)); exists i. Qed.

Lemma visited_dirs F r i : work F -> visited r i -> is_dir i = true -> dirs_to F (src ++ r).
Proof.
  intros HF Hv Di. pose proof Hv as (_ & Hi & _). apply work_dirs; [done| |by apply (proj2 (se_apart Hset) r i)].
  apply (wf_dirs _ _ (se_wf Hset)); [by exists i|]. by exists i.
Qed.

Lemma visited_resolve F follow r i : work F -> visited r i -> is_link i = false \/ follow = false ->
  resolve follow F (from src (rel_text r)) = Found (src ++ r).
Proof.
  intros HF Hv Hl. pose proof Hv as (_ & Hi & _). destruct (se_len Hset r i Hi) as [Hlen _]. pose proof (visited_good r i Hv) as Hg.
  destruct r as [|c r _] using rev_ind.
  - rewrite app_nil_r in *. apply resolve_here; [done| |done]. apply work_dirs; [done| |].
    + pose proof (se_src Hset) as Hs. apply (wf_dirs _ _ (se_wf Hset)); [by exists i|done].
    + pose proof (proj2 (se_apart Hset) [] i Hv) as [_ H]. by rewrite app_nil_r in H.
  - destruct (visited_parent r c i Hv) as (j & Hvj & Dj & _). rewrite resolve_rel; [|done|by eapply visited_dirs|done].
    rewrite (visited_here F (r ++ [c]) i HF Hv). change (is_link (bare i)) with (is_link i).
    destruct Hl as [-> | ->]; [done|by rewrite andb_false_r].
Qed.

Lemma visited_node (w : world) r i : work (bare <$> w_fs w) -> visited r i -> exists st, w_fs w !! (src ++ r) = Some st /\ bare st = bare i.
Proof. intros HF Hv. pose proof (visited_here _ r i HF Hv) as H. apply bare_lookup in H as (st & Hst & E). by exists st. Qed.

(** ** What was stored so far *)

Definition good_entry (e : entry) : Prop :=
  (exists i, visited (e_rel e) i /\ e_node e = bare i) /\ 0 <= e_at e < 2 ^ 32 /\ 0 <= e_mt e < 2 ^ 32 /\ 0 <= e_ct e < 2 ^ 32.

Abbreviation line_text := (entry_line SHA256 lgetfilecon).

Record progress (t : list Z) (F : tree) (es : list entry) (m' : wfile) (F' : tree) : Prop := {
  pr_work : work F';
  pr_has d : has F d -> has F' d;
  pr_text : written man m' (t ++ lines_text (line_text <$> es)) F';
  pr_blobs e d : e ∈ es -> i_kind (e_node e) = KFile d -> has F' d;
  pr_good : Forall good_entry es
}.

Lemma progress_nil t F m : work F -> written man m t F -> progress t F [] m F.
Proof. intros HF Hm. split; [done|done|by rewrite app_nil_r|by intros e d H%not_elem_of_nil|constructor]. Qed.

Lemma progress_app t F es m1 F1 es' m2 F2 : progress t F es m1 F1 ->
  progress (t ++ lines_text (line_text <$> es)) F1 es' m2 F2 -> progress t F (es ++ es') m2 F2.
Proof.
  intros [A1 A2 A3 A4 A5] [B1 B2 B3 B4 B5]. split; [done|auto| | |by apply Forall_app].
  - by rewrite fmap_app, lines_text_app, app_assoc.
  - intros e d [H|H]%elem_of_app Hd; [by eapply B2, A4|by eapply B4].
Qed.

Lemma tabbed_app l l' : tabbed (l ++ l') = tabbed l ++ tabbed l'.
Proof. unfold tabbed. by rewrite fmap_app, concat_app. Qed.

(** [print_stat] writes the fields that all lines have. *)
Lemma print_stat_spec type r i st m t (w : world) : roomy w -> work (bare <$> w_fs w) -> written man m t (bare <$> w_fs w) ->
  visited r i -> bare st = bare i ->
  makes (print_stat type st (e_label lgetfilecon (mkEntry r (bare i) 0 0 0)) (rel_text r) m) w (fun m' fs => exists at_ mt ct,
    good_entry (mkEntry r (bare i) at_ mt ct) /\ work (bare <$> fs) /\ (forall d, has (bare <$> w_fs w) d -> has (bare <$> fs) d) /\
    written man m' (t ++ tabbed ([type] :: e_fields lgetfilecon (mkEntry r (bare i) at_ mt ct))) (bare <$> fs)).
Proof.
  intros Hw HF Hm Hv Hst. unfold print_stat.
  eapply (makes_bind _ _ _ (fun _ fs => fs = w_fs w)); [by apply wp_ask|]. intros at_ w1 E1 Ha1.
  eapply (makes_bind _ _ _ (fun _ fs => fs = w_fs w)); [by rewrite <- E1; apply wp_ask|]. intros mt w2 E2 Ha2.
  eapply (makes_bind _ _ _ (fun _ fs => fs = w_fs w)); [by rewrite <- E2; apply wp_ask|]. intros ct w3 E3 Ha3.
  eapply makes_mono; [apply (fput_spec man _ m t); [eapply roomy_same; [|exact Hw]; congruence|by rewrite E3]|].
  rewrite E3. intros m' fs [H1 H2]. destruct (work_rewritten _ _ HF H2) as [H3 H4].
  assert (i_mode st = i_mode i /\ i_uid st = i_uid i /\ i_gid st = i_gid i) as (Em & Eu & Eg) by (injection Hst; auto).
  rewrite Em, Eu, Eg in H1. eexists _, _, _. split_and!; [|done|done|exact H1].
  split; [by exists i|]. cbn. by split_and!; apply wrap_range.
Qed.

(** ** The parts of [store_st] *)

Abbreviation context := (mkContext (Some (path_text blobs)) excluded src).

Lemma blob_room d : zlen (path_text (blob_at d)) + 4 < PATH_MAX.
Proof.
  unfold blob_at. rewrite blob_text, length_app. cbn [length]. destruct (blob_names_ok SHA256 d (se_sha Hset)) as (_ & _ & Hk & _).
  pose proof (se_room Hset). lia.
Qed.

(** The digest is that of the contents. *)
Lemma sha_of_file r i d (w : world) : roomy w -> work (bare <$> w_fs w) -> visited r i -> i_kind i = KFile d ->
  makes (do_sha256sum_file fuel SHA256 (from src (rel_text r))) w (fun s fs => s = inl (SHA256 d) /\ fs = w_fs w).
Proof.
  intros Hw HF Hv Hk. pose proof (roomy_calm _ Hw) as Hc. destruct (visited_node w r i HF Hv) as (st & Hst & Est).
  assert (node_data st = Some d) as Hd by (unfold node_data; injection Est as -> _ _ _; by rewrite Hk).
  unfold do_sha256sum_file. eapply makes_bind.
  { eapply makes_views, looks_fopen; [done| |done]. rewrite <- resolve_bare. apply (visited_resolve _ true r i); [done|done|].
    left. unfold is_link. by rewrite Hk. }
  intros f w1 [-> E1] Ha1. cbn beta iota. eapply makes_bind.
  { apply makes_views. apply (sha256_loop_spec (src ++ r) d fuel 0 st); [by eapply calm_same|by rewrite E1|done|lia|].
    rewrite Nat.sub_0_r. apply (se_size Hset). by exists r, i. }
  intros x w2 [-> E2] _. apply makes_ret. by rewrite E2.
Qed.

(** The blob is there afterwards, whether it was before or not. *)
Lemma blob_made r i st d (w : world) : roomy w -> work (bare <$> w_fs w) -> isdir (bare <$> w_fs w) (blobs ++ [take 3 (psum SHA256 d)]) ->
  visited r i -> i_kind i = KFile d -> bare st = bare i ->
  makes (let! file_info := sys_stat (path_text (blob_at d)) in
         if match file_info with inl j => file_size j =? file_size st | inr _ => false end then wret 0
         else let! ret := copy_file fuel (from src (rel_text r)) (path_text (blob_at d) ++ str ".tmp") in
              if negb (ret =? 0) then wret ret
              else let! r := sys_rename (path_text (blob_at d) ++ str ".tmp") (path_text (blob_at d)) in wret (if r =? 0 then 0 else -1)) w
    (fun ret fs => ret = 0 /\ grown (bare <$> w_fs w) (bare <$> fs) /\ has (bare <$> fs) d).
Proof.
  intros Hw HF Hdir Hv Hk Est. assert (content d) as Hd by (by exists r, i).
  assert (file_size st = swrap 32 (zlen d)) as Es by (unfold file_size, node_data; injection Est as -> _ _ _; by rewrite Hk).
  destruct (blob_names_ok SHA256 d (se_sha Hset)) as (Hg & _ & _ & _ & H61). apply Forall_cons in Hg as [_ Hg]. apply Forall_inv in Hg.
  pose proof (blob_plain d true _ (drop 3 (psum SHA256 d)) HF Hdir Hg ltac:(lia)) as Hp.
  rewrite <- path_text_snoc, <- blob_at_snoc, resolve_bare in Hp.
  set (info := match resolve true (w_fs w) (path_text (blob_at d)) with
    | Found p => match w_fs w !! p with Some j => inl j | None => inr ENOENT end | Absent _ _ => inr ENOENT | Err e => inr e end).
  eapply (makes_bind _ _ _ (fun x fs => x = info /\ fs = w_fs w)).
  { apply makes_views. apply looks_syscall; [apply (roomy_calm _ Hw)|]. intros w' _. apply looks_ret. }
  intros x w1 [-> E1] Ha1. destruct ((bare <$> w_fs w) !! blob_at d) as [j|] eqn:Ej.
  - pose proof (wk_sound _ HF d j Hd Ej) as Kj. assert (is_link j = false) as Lj by (unfold is_link; by rewrite Kj). rewrite Lj in Hp. cbn in Hp.
    apply bare_lookup in Ej as (j' & Hj' & ->). change (i_kind (bare j')) with (i_kind j') in Kj.
    unfold info. rewrite Hp, Hj'. unfold file_size at 1, node_data. rewrite Kj, Es. cbn [default from_option id]. rewrite Z.eqb_refl.
    apply makes_ret. rewrite E1. split_and!; [done|by apply blobs_grown_refl|]. split; [done|]. exists (bare j'). rewrite lookup_fmap, Hj'. done.
  - destruct (visited_node w r i HF Hv) as (st' & Hst' & Est'). unfold info. rewrite Hp.
    eapply makes_mono; [apply (make_blob d _ (src ++ r) st'); rewrite ?E1|].
    + by eapply roomy_same.
    + done.
    + done.
    + done.
    + done.
    + rewrite <- resolve_bare. apply (visited_resolve _ true r i); [done|done|]. left. unfold is_link. by rewrite Hk.
    + done.
    + unfold node_data. injection Est' as -> _ _ _. by rewrite Hk.
    + cbn beta. by rewrite E1.
Qed.

(** The line of one node, in two parts. *)
Lemma progress_line r i at_ mt ct type tail t F m F' :
  good_entry (mkEntry r (bare i) at_ mt ct) -> e_tail SHA256 (mkEntry r (bare i) at_ mt ct) = Some (type, tail) ->
  work F' -> (forall d, has F d -> has F' d) -> (forall d, i_kind i = KFile d -> has F' d) ->
  written man m ((t ++ tabbed (type :: e_fields lgetfilecon (mkEntry r (bare i) at_ mt ct))) ++ tabbed tail ++ [10]) F' ->
  progress t F [mkEntry r (bare i) at_ mt ct] m F'.
Proof.
  intros Hg Et HF' Hh Hd Hm. split; [done|done| | |by apply Forall_singleton].
  - assert (lines_text (line_text <$> [mkEntry r (bare i) at_ mt ct]) = line_text (mkEntry r (bare i) at_ mt ct) ++ [10]) as ->
      by (unfold lines_text; cbn [fmap list_fmap concat]; by rewrite app_nil_r).
    unfold entry_line. rewrite Et. change (type :: ?a ++ tail) with ((type :: a) ++ tail). by rewrite tabbed_app, <- !app_assoc in *.
  - intros e d ->%list_elem_of_singleton Hk. by apply Hd.
Qed.

Definition stored (t : list Z) (F : tree) (P : list entry -> Prop) (x : Z * wfile) (fs : tree) : Prop :=
  x.1 = 0 /\ exists es, P es /\ progress t F es x.2 (bare <$> fs).

Definition of_node (r : path) (i : inode) (es : list entry) : Prop := exists at_ mt ct, es = [mkEntry r (bare i) at_ mt ct].

(** A file: its line and its blob. *)
Lemma store_file_spec r i st d m t (w : world) : roomy w -> work (bare <$> w_fs w) -> written man m t (bare <$> w_fs w) ->
  visited r i -> i_kind i = KFile d -> bare st = bare i ->
  makes (let! m := print_stat 102 st (e_label lgetfilecon (mkEntry r (bare i) 0 0 0)) (rel_text r) m in
         store_file fuel SHA256 context st (rel_text r) m) w (stored t (bare <$> w_fs w) (of_node r i)).
Proof.
  intros Hw HF Hm Hv Hk Est. eapply makes_bind; [by eapply print_stat_spec|].
  intros m1 w1 (at_ & mt & ct & Hg & HF1 & Hh1 & Hm1) Ha1. unfold store_file.
  assert (roomy w1) as Hw1 by (by eapply roomy_same).
  eapply makes_bind; [by eapply sha_of_file|]. intros s w2 [-> E2] Ha2. cbn beta iota zeta.
  pose proof (blob_room d) as Hroom. cbn [blob_dir cwd].
  eapply makes_bind.
  { apply makes_lift. cbn [access mbind outcome_bind]. rewrite <- blob_text. fold (blob_at d). unfold fits_buffer. by rewrite (proj2 (Z.ltb_lt _ _)) by lia. }
  intros x w3 [-> E3] Ha3.
  eapply makes_bind; [apply makes_lift; unfold fits_buffer; rewrite (proj2 (Z.ltb_lt _ _)); [done|rewrite length_app; cbn; lia]|].
  intros x w4 [-> E4] Ha4. assert (w_fs w4 = w_fs w1) as E14 by congruence.
  assert (roomy w4) as Hw4 by (eapply roomy_same; [|exact Hw1]; congruence).
  eapply makes_bind; [apply blob_mkdir; [done|by rewrite E14]|]. intros x w5 [G5 Hdir] Ha5. rewrite E14 in G5.
  assert (roomy w5) as Hw5 by (by eapply roomy_same). cbv zeta. apply makes_assoc.
  eapply makes_bind; [eapply blob_made; [done|apply G5|done|exact Hv|done|done]|]. intros ret w6 (-> & G6 & Hd) Ha6. cbn [negb Z.eqb].
  pose proof (blobs_grown_trans _ _ _ G5 G6) as [HF6 Hh6 Em6]. assert (roomy w6) as Hw6 by (by eapply roomy_same).
  eapply makes_bind; [apply (fput_spec man); [done|eapply holds_same; [exact Em6|exact Hm1]]|]. intros m7 w7 [Hm7 Hr7] _. apply makes_ret.
  destruct (work_rewritten _ _ HF6 Hr7) as [HF7 Hh7]. split; [done|].
  exists [mkEntry r (bare i) at_ mt ct]. split; [by exists at_, mt, ct|].
  eapply (progress_line _ _ _ _ _ (str "f") [blob_key (SHA256 d); decimal (file_size st)]); [exact Hg| |exact HF7| | |exact Hm7].
  - unfold e_tail. cbn [e_node]. change (i_kind (bare i)) with (i_kind i). rewrite Hk. do 3 f_equal. f_equal. unfold file_size, node_data.
    by injection Est as -> _ _ _.
  - auto.
  - intros d' Hd'. rewrite Hk in Hd'. injection Hd' as <-. auto.
Qed.

(** A link: its line. *)
Lemma store_link_spec r i st l m t (w : world) : roomy w -> work (bare <$> w_fs w) -> written man m t (bare <$> w_fs w) ->
  visited r i -> r <> [] -> i_kind i = KLink l -> bare st = bare i ->
  makes (let! m := print_stat 108 st (e_label lgetfilecon (mkEntry r (bare i) 0 0 0)) (rel_text r) m in
         store_link context (rel_text r) m) w (stored t (bare <$> w_fs w) (of_node r i)).
Proof.
  intros Hw HF Hm Hv Hne Hk Est. eapply makes_bind; [by eapply print_stat_spec|].
  intros m1 w1 (at_ & mt & ct & Hg & HF1 & Hh1 & Hm1) Ha1. unfold store_link.
  assert (roomy w1) as Hw1 by (by eapply roomy_same). cbn [cwd].
  assert (zlen l <= 40) as Hl.
  { destruct Hg as (_ & G1 & G2 & G3). pose proof (ok_tail _ _ _ (se_ok Hset r i at_ mt ct Hv Hne G1 G2 G3)) as Ht.
    cbn [e_node bare i_kind] in Ht. rewrite Hk in Ht. apply Ht. }
  destruct (visited_node w1 r i HF1 Hv) as (st1 & Hst1 & Est1).
  eapply (makes_bind _ _ _ (fun x fs => x = inl l /\ fs = w_fs w1)).
  { apply makes_views. apply looks_syscall; [by apply roomy_calm|]. intros w' _.
    rewrite <- resolve_bare, (visited_resolve _ false r i), Hst1; [|done|done|by right].
    assert (i_kind st1 = KLink l) as Ek by (injection Est1 as -> _ _ _; done).
    destruct st1. cbn in Ek. subst. rewrite take_ge; [apply looks_ret|]. change PATH_MAX with 4096. lia. }
  intros x w2 [-> E2] Ha2. cbn beta iota. eapply makes_bind.
  { apply makes_lift. unfold fits_buffer. rewrite (proj2 (Z.ltb_lt _ _)); [done|]. change PATH_MAX with 4096. lia. }
  intros x w3 [-> E3] Ha3. assert (w_fs w3 = w_fs w1) as E13 by congruence.
  eapply makes_bind; [apply (fput_spec man); [eapply roomy_same; [|exact Hw1]; congruence|by rewrite E13]|].
  rewrite E13. intros m4 w4 [Hm4 Hr4] _. apply makes_ret. destruct (work_rewritten _ _ HF1 Hr4) as [HF4 Hh4]. split; [done|].
  exists [mkEntry r (bare i) at_ mt ct]. split; [by exists at_, mt, ct|].
  eapply (progress_line _ _ _ _ _ (str "l") [l]); [exact Hg| |exact HF4|by auto| |exact Hm4].
  - unfold e_tail. cbn [e_node bare i_kind]. by rewrite Hk.
  - intros d Hd. congruence.
Qed.

(** A directory: its own line. *)
Lemma print_dir_spec r i st m t (w : world) : roomy w -> work (bare <$> w_fs w) -> written man m t (bare <$> w_fs w) ->
  visited r i -> i_kind i = KDir -> bare st = bare i ->
  makes (let! m := print_stat 100 st (e_label lgetfilecon (mkEntry r (bare i) 0 0 0)) (rel_text r) m in
         fput [10] m) w (fun m fs => stored t (bare <$> w_fs w) (of_node r i) (0, m) fs).
Proof.
  intros Hw HF Hm Hv Hk Est. eapply makes_bind; [by eapply print_stat_spec|].
  intros m1 w1 (at_ & mt & ct & Hg & HF1 & Hh1 & Hm1) Ha1.
  eapply makes_mono; [apply (fput_spec man); [by eapply roomy_same|done]|].
  intros m4 fs [Hm4 Hr4]. destruct (work_rewritten _ _ HF1 Hr4) as [HF4 Hh4]. split; [done|].
  exists [mkEntry r (bare i) at_ mt ct]. split; [by exists at_, mt, ct|].
  eapply (progress_line _ _ _ _ _ (str "d") []); [exact Hg| |exact HF4|by auto| |exact Hm4].
  - unfold e_tail. cbn [e_node bare i_kind]. by rewrite Hk.
  - intros d Hd. congruence.
Qed.

(** ** What the lines are, and in which order *)

(** Every entry comes after that of its directory, if that is not among [seen]. *)
Fixpoint tidy (seen : list path) (es : list entry) : Prop :=
  match es with
  | [] => True
  | e :: es => (exists r c, e_rel e = r ++ [c] /\ r ∈ seen) /\ tidy (e_rel e :: seen) es
  end.

Lemma tidy_seen_mono es : forall seen seen', seen ⊆ seen' -> tidy seen es -> tidy seen' es.
Proof.
  induction es as [|e es IH]; intros seen seen' Hs; [done|]. intros [(r & c & E & Hr) H]. split; [by exists r, c; auto|].
  eapply IH; [|exact H]. intros q [->|Hq]%elem_of_cons; [left|right; by apply Hs].
Qed.

Lemma tidy_seen_app es es' : forall seen, tidy seen es -> tidy seen es' -> tidy seen (es ++ es').
Proof.
  induction es as [|e es IH]; intros seen H H'; [done|]. destruct H as [He H]. split; [done|]. apply IH; [done|].
  eapply tidy_seen_mono; [|exact H']. intros q Hq. by right.
Qed.

(** The entries of what is below [r] and the names [cs]. *)
Record listing (r : path) (cs : list name) (es : list entry) : Prop := {
  li_all c r2 i : c ∈ cs -> visited (r ++ c :: r2) i -> r ++ c :: r2 ∈ e_rel <$> es;
  li_under q : q ∈ e_rel <$> es -> exists c r2, c ∈ cs /\ q = r ++ c :: r2;
  li_once : NoDup (e_rel <$> es);
  li_tidy : tidy [r] es
}.

Lemma listing_nil r : listing r [] [].
Proof. split; [by intros c r2 i H%not_elem_of_nil|by intros q H%not_elem_of_nil|constructor|done]. Qed.

Lemma listing_app r c cs es es' : c ∉ cs -> listing r [c] es -> listing r cs es' -> listing r (c :: cs) (es ++ es').
Proof.
  intros Hc [A1 A2 A3 A4] [B1 B2 B3 B4]. split.
  - intros c' r2 i [->|H]%elem_of_cons Hv; rewrite fmap_app, elem_of_app; [left; eapply A1; [by left|done]|right; by eapply B1].
  - intros q. rewrite fmap_app, elem_of_app. intros [H|H].
    + destruct (A2 q H) as (c' & r2 & ->%list_elem_of_singleton & ->). exists c, r2. split; [left|done].
    + destruct (B2 q H) as (c' & r2 & Hc' & ->). exists c', r2. split; [by right|done].
  - rewrite fmap_app. apply NoDup_app. split_and!; [done| |done]. intros q H H'.
    destruct (A2 q H) as (c1 & r1 & ->%list_elem_of_singleton & ->). destruct (B2 _ H') as (c2 & r2 & Hc2 & E).
    apply app_inv_head in E. injection E as <- _. done.
  - by apply tidy_seen_app.
Qed.

(** Nothing is visited there. *)
Lemma listing_none r c : (forall r2 i, ~ visited (r ++ c :: r2) i) -> listing r [c] [].
Proof. intros H. split; [|by intros q Hq%not_elem_of_nil|constructor|done]. intros c' r2 i ->%list_elem_of_singleton Hv. by apply H in Hv. Qed.

(** Nothing below it is visited. *)
Lemma listing_leaf r c i es : visited (r ++ [c]) i -> is_dir i = false -> of_node (r ++ [c]) i es -> listing r [c] es.
Proof.
  intros (_ & Hi & _) Di (at_ & mt & ct & ->). split.
  - intros c' r2 j ->%list_elem_of_singleton (_ & Hj & _). cbn [fmap list_fmap e_rel]. destruct r2 as [|c2 r2]; [left|]. exfalso.
    assert (file F0 (src ++ r ++ [c])) as Hf by (by exists i).
    assert (c2 :: r2 = []) as E; [|done]. eapply (file_leaf F0 _ _ (se_wf Hset) Hf). exists j. by rewrite <- Hj, <- !app_assoc.
  - intros q ->%list_elem_of_singleton. exists c, []. split; [left|done].
  - apply NoDup_singleton.
  - split; [|done]. exists r, c. split; [done|left].
Qed.

(** A directory and all that is below it. *)
Lemma listing_dir r c i es cs es' : visited (r ++ [c]) i -> of_node (r ++ [c]) i es -> listing (r ++ [c]) cs es' ->
  (forall c2 r2 j, visited ((r ++ [c]) ++ c2 :: r2) j -> c2 ∈ cs) -> listing r [c] (es ++ es').
Proof.
  intros Hv (at_ & mt & ct & ->) [A1 A2 A3 A4] Hall. split.
  - intros c' r2 j ->%list_elem_of_singleton Hj. cbn [app fmap list_fmap e_rel]. destruct r2 as [|c2 r2]; [left|right].
    change (r ++ c :: c2 :: r2) with (r ++ [c] ++ c2 :: r2) in *. rewrite app_assoc in *. eapply A1; [|done]. by eapply Hall.
  - intros q [->|Hq]%elem_of_cons; [exists c, []; split; [left|done]|].
    destruct (A2 q Hq) as (c2 & r2 & _ & ->). exists c, (c2 :: r2). split; [left|by rewrite <- app_assoc].
  - cbn [app fmap list_fmap e_rel]. constructor; [|done]. intros (c2 & r2 & _ & E)%A2. apply (f_equal length) in E. rewrite !length_app in E. cbn in E. lia.
  - split; [exists r, c; split; [done|left]|]. eapply tidy_seen_mono; [|exact A4]. intros q ->%list_elem_of_singleton. left.
Qed.

(** ** The directories *)

Lemma prefix_snoc (p q : path) c : p `prefix_of` q ++ [c] -> p `prefix_of` q \/ p = q ++ [c].
Proof.
  intros [k E]. destruct k as [|x k _] using rev_ind; [rewrite app_nil_r in E; by right|]. left.
  rewrite app_assoc in E. apply app_inj_tail in E as [-> _]. by apply prefix_app_r.
Qed.

(** What is found below a visited directory. *)
Lemma child_apart r j c i : visited r j -> kept (r ++ [c]) -> F0 !! (src ++ r ++ [c]) = Some i ->
  src ++ r ++ [c] <> man /\ ~ blobs `prefix_of` src ++ r ++ [c].
Proof.
  intros Hv Hk Hi. assert (visited (r ++ [c]) i \/ exists d, i_kind i = KBlock d) as [H|[d Hd]].
  { destruct (i_kind i) eqn:E; [left|right; by eexists|left..]; (split_and!; [done|done|congruence]). }
  - by apply (proj2 (se_apart Hset) _ _ H).
  - split.
    + intros E. destruct (se_man Hset) as (m & x & Hm & Km). rewrite E in Hi. congruence.
    + rewrite app_assoc. intros [Hp|Hp]%prefix_snoc; [by apply (proj2 (se_apart Hset) r j Hv)|].
      destruct (se_blobs Hset) as (b & Hb & Db). rewrite Hp, <- app_assoc, Hi in Hb. injection Hb as <-. unfold is_dir in Db. by rewrite Hd in Db.
Qed.

Lemma child_here F r j c i : work F -> visited r j -> kept (r ++ [c]) -> F0 !! (src ++ r ++ [c]) = Some i ->
  F !! (src ++ r ++ [c]) = Some (bare i).
Proof. intros HF Hv Hk Hi. destruct (child_apart r j c i Hv Hk Hi) as [H1 H2]. by rewrite (wk_else _ HF), Hi. Qed.

Lemma child_same F r j c : work F -> visited r j -> is_Some (F !! (src ++ r ++ [c])) <-> is_Some (F0 !! (src ++ r ++ [c])).
Proof.
  intros HF Hv. destruct (decide (src ++ r ++ [c] = man)) as [->|Hm].
  { destruct (wk_man _ HF) as (m & Hm & _). destruct (se_man Hset) as (m0 & d & Hm0 & _). rewrite Hm, Hm0. by split; eexists. }
  destruct (decide (blobs `prefix_of` src ++ r ++ [c])) as [Hb|Hb].
  - rewrite app_assoc in Hb. apply prefix_snoc in Hb as [Hb|Hb]; [by destruct (proj2 (se_apart Hset) r j Hv)|].
    rewrite app_assoc, <- Hb. destruct (wk_dir _ HF) as (b & H & _). destruct (se_blobs Hset) as (b0 & H0 & _). rewrite H, H0. by split; eexists.
  - rewrite (wk_else _ HF) by done. apply fmap_is_Some.
Qed.

Lemma below_excluded r c : rel_text (r ++ [c]) ∈ excluded -> forall r2 i, ~ visited (r ++ c :: r2) i.
Proof.
  intros He r2 i (Hk & _). change (r ++ c :: r2) with (r ++ [c] ++ r2) in Hk. rewrite app_assoc in Hk.
  specialize (Hk (length (r ++ [c]))). rewrite take_app_length in Hk. apply Hk; [|done]. rewrite !length_app. cbn. lia.
Qed.

Lemma below_name r c : (~ good c) \/ F0 !! (src ++ r ++ [c]) = None -> forall r2 i, ~ visited (r ++ c :: r2) i.
Proof.
  intros H r2 i Hv. change (r ++ c :: r2) with (r ++ [c] ++ r2) in Hv. rewrite app_assoc in Hv. apply visited_above in Hv as (j & Hv).
  destruct H as [H|H]; [apply H; by destruct (visited_parent r c j Hv) as (_ & _ & _ & Hg)|]. destruct Hv as (_ & Hj & _). congruence.
Qed.

Lemma stored_mono t F (P Q : list entry -> Prop) x fs : (forall es, P es -> Q es) -> stored t F P x fs -> stored t F Q x fs.
Proof. intros H [E (es & HP & Hpr)]. split; [done|]. exists es. auto. Qed.

(** One part after another. *)
Lemma stored_bind (m : W tree Dev (Z * wfile)) (k : Z * wfile -> W tree Dev (Z * wfile)) t (w : world) P Q R : roomy w ->
  makes m w (stored t (bare <$> w_fs w) P) ->
  (forall mf t1 (w1 : world), roomy w1 -> work (bare <$> w_fs w1) -> written man mf t1 (bare <$> w_fs w1) ->
    makes (k (0, mf)) w1 (stored t1 (bare <$> w_fs w1) Q)) ->
  (forall es es', P es -> Q es' -> R (es ++ es')) -> makes (wbind m k) w (stored t (bare <$> w_fs w) R).
Proof.
  intros Hw Hm Hk HR. eapply makes_bind; [exact Hm|]. intros [ret mf] w1 [E (es & HP & Hpr)] Ha. cbn [fst snd] in *. subst ret.
  eapply makes_mono; [eapply (Hk mf _ w1); [by eapply roomy_same|apply Hpr|apply Hpr]|].
  intros x fs [E (es' & HQ & Hpr')]. split; [done|]. exists (es ++ es'). split; [by apply HR|]. by eapply progress_app.
Qed.

Lemma stored_nil t m (w : world) (P : list entry -> Prop) : work (bare <$> w_fs w) -> written man m t (bare <$> w_fs w) -> P [] ->
  makes (wret (0, m)) w (stored t (bare <$> w_fs w) P).
Proof. intros HF Hm HP. apply makes_ret. split; [done|]. exists []. split; [done|]. by apply progress_nil. Qed.

(** All of the directory. *)
Definition whole (r : path) (es : list entry) : Prop := exists cs, listing r cs es /\ forall c r2 i, visited (r ++ c :: r2) i -> c ∈ cs.

Definition stores_dir (store : list Z -> wfile -> W tree Dev (Z * wfile)) (r : path) : Prop := forall m t (w : world),
  roomy w -> work (bare <$> w_fs w) -> written man m t (bare <$> w_fs w) ->
  makes (store (rel_text r) m) w (stored t (bare <$> w_fs w) (whole r)).

Lemma store_st_spec store r j c i st m t (w : world) : roomy w -> work (bare <$> w_fs w) -> written man m t (bare <$> w_fs w) ->
  visited r j -> kept (r ++ [c]) -> F0 !! (src ++ r ++ [c]) = Some i -> bare st = bare i -> (is_dir i = true -> stores_dir store (r ++ [c])) ->
  makes (store_st fuel SHA256 lgetfilecon store context st (rel_text (r ++ [c])) m) w (stored t (bare <$> w_fs w) (listing r [c])).
Proof.
  intros Hw HF Hm Hv Hk Hi Est Hdir. assert (i_kind st = i_kind i) as Ek by (by injection Est).
  assert ((forall d, i_kind i <> KBlock d) -> visited (r ++ [c]) i) as Hvi by done.
  assert (r ++ [c] <> []) as Hne by (by destruct r).
  unfold store_st. rewrite Ek. destruct (i_kind i) as [d|d| |l] eqn:E.
  - specialize (Hvi ltac:(done)). eapply makes_mono; [by eapply (store_file_spec (r ++ [c]) i)|]. intros x fs. apply stored_mono. intros es He.
    eapply listing_leaf; [exact Hvi|unfold is_dir; by rewrite E|done].
  - apply stored_nil; [done|done|]. apply listing_none. intros [|c2 r2] i2 (_ & Hi2 & Hb).
    + rewrite Hi in Hi2. injection Hi2 as <-. by eapply Hb.
    + assert (file F0 (src ++ r ++ [c])) as Hf by (exists i; split; [done|]; unfold is_dir; by rewrite E).
      assert (c2 :: r2 = []) as E2; [|done]. eapply (file_leaf F0 _ _ (se_wf Hset) Hf). exists i2. by rewrite <- Hi2, <- !app_assoc.
  - specialize (Hvi ltac:(done)). assert (is_dir i = true) as Di by (unfold is_dir; by rewrite E).
    change (makes (wbind (print_stat 100 st (e_label lgetfilecon (mkEntry (r ++ [c]) (bare i) 0 0 0)) (rel_text (r ++ [c])) m) (fun m =>
      wbind (fput [10] m) (fun m => store (rel_text (r ++ [c])) m))) w (stored t (bare <$> w_fs w) (listing r [c]))).
    apply makes_assoc. eapply makes_bind; [by eapply print_dir_spec|]. intros m1 w1 [_ (es & He & Hpr)] Ha1. cbn [snd] in Hpr.
    eapply makes_mono; [eapply (Hdir Di m1 _ w1); [by eapply roomy_same|apply Hpr|apply Hpr]|].
    intros x fs [E1 (es' & (cs & Hl & Hall) & Hpr')]. split; [done|]. exists (es ++ es'). split; [by eapply listing_dir|by eapply progress_app].
  - specialize (Hvi ltac:(done)). eapply makes_mono; [by eapply (store_link_spec (r ++ [c]) i)|]. intros x fs. apply stored_mono. intros es He.
    eapply listing_leaf; [exact Hvi|unfold is_dir; by rewrite E|done].
Qed.

Lemma store_entries_spec store r j : visited r j -> is_dir j = true ->
  (forall c i st m t (w : world), roomy w -> work (bare <$> w_fs w) -> written man m t (bare <$> w_fs w) ->
    kept (r ++ [c]) -> F0 !! (src ++ r ++ [c]) = Some i -> bare st = bare i ->
    makes (store st (rel_text (r ++ [c])) m) w (stored t (bare <$> w_fs w) (listing r [c]))) ->
  forall cs m t (w : world), roomy w -> work (bare <$> w_fs w) -> written man m t (bare <$> w_fs w) -> NoDup cs ->
    Forall (fun c => c = DOT \/ c = DOTDOT \/ is_Some (F0 !! (src ++ r ++ [c]))) cs ->
    makes (store_entries store context (rel_text r) cs m) w (stored t (bare <$> w_fs w) (listing r cs)).
Proof.
  intros Hv Dj Hstore cs. induction cs as [|c cs IH]; intros m t w Hw HF Hm Hnd Hcs.
  { apply stored_nil; [done|done|apply listing_nil]. }
  apply NoDup_cons in Hnd as [Hc Hnd]. apply Forall_cons in Hcs as [Hc1 Hcs]. cbn [store_entries].
  assert ((forall r2 i, ~ visited (r ++ c :: r2) i) -> makes (store_entries store context (rel_text r) cs m) w
    (stored t (bare <$> w_fs w) (listing r (c :: cs)))) as Hskip.
  { intros Hno. eapply makes_mono; [by apply (IH m t w)|]. intros x fs. apply stored_mono. intros es He.
    by apply (listing_app r c cs [] es), He; [|apply listing_none]. }
  destruct (bool_decide (c = DOT) || bool_decide (c = DOTDOT)) eqn:Ed.
  { apply Hskip, below_name. left. intros (_ & H1 & H2 & _). apply orb_true_iff in Ed as [Ed|Ed]; by apply bool_decide_eq_true in Ed. }
  apply orb_false_iff in Ed as [Ed1 Ed2]. apply bool_decide_eq_false in Ed1, Ed2. destruct Hc1 as [?|[?|[i Hi]]]; [done|done|].
  assert (rel_text r ++ SLASH :: c = rel_text (r ++ [c])) as Et by (unfold rel_text; by rewrite path_text_snoc).
  rewrite Et. destruct (se_len Hset (r ++ [c]) i) as [Hlen _]; [done|].
  eapply makes_bind.
  { apply makes_lift. unfold fits_buffer. rewrite (proj2 (Z.ltb_lt _ _)); [done|]. revert Hlen. cbn [from rel_text]. change (46 =? SLASH) with false.
    cbn iota. rewrite length_app. cbn [length]. lia. }
  intros x w1 [-> E1] Ha1. assert (roomy w1) as Hw1 by (by eapply roomy_same). cbn [excludes cwd]. rewrite <- E1 in *.
  case_bool_decide as Hex.
  { eapply makes_mono; [by apply (IH m t w1)|]. intros x fs. rewrite E1. apply stored_mono. intros es He.
    apply (listing_app r c cs [] es), He; [done|]. apply listing_none. by apply below_excluded. }
  assert (kept (r ++ [c])) as Hk by (apply kept_snoc; split; [apply Hv|done]).
  pose proof (child_here _ r j c i HF Hv Hk Hi) as Hh. apply bare_lookup in Hh as (st & Hst & Est).
  eapply makes_bind.
  { eapply makes_views, looks_lstat; [by apply roomy_calm| |exact Hst]. rewrite <- resolve_bare, resolve_rel; [| | |done].
    - rewrite lookup_fmap, Hst. cbn. by rewrite andb_false_r.
    - apply (wf_dirs _ _ (se_wf Hset)). by exists i.
    - by apply (visited_dirs _ r j). }
  intros x w2 [-> E2] Ha2. cbn beta iota. rewrite <- E2 in *. assert (roomy w2) as Hw2 by (by eapply roomy_same).
  eapply (stored_bind _ _ t w2 (listing r [c]) (listing r cs)); [done|by eapply Hstore| |intros es es' H1 H2; by apply listing_app].
  intros mf t1 w3 Hw3 HF3 Hm3. cbn [negb Z.eqb]. by apply IH.
Qed.

Lemma dirs_whole F r j es : work F -> visited r j -> listing r (DOT :: DOTDOT :: dir_order (children F (src ++ r))) es -> whole r es.
Proof.
  intros HF Hv Hl. eexists. split; [exact Hl|]. intros c r2 i Hi. right; right. rewrite dir_order_perm, elem_of_children, <- app_assoc.
  apply (child_same F r j c HF Hv). destruct (F0 !! (src ++ r ++ [c])) eqn:E; [done|]. exfalso. eapply below_name; [by right|exact Hi].
Qed.

(** [store_dir] stores all of a directory. *)
Lemma store_dir_spec n : forall r j, visited r j -> is_dir j = true -> (fuel <= length r + n)%nat ->
  stores_dir (store_dir fuel SHA256 lgetfilecon n context) r.
Proof.
  induction n as [|n IH]; intros r j Hv Dj Hn m t w Hw HF Hm.
  { pose proof Hv as (_ & Hj & _). apply (se_len Hset) in Hj as [_ Hj]. lia. }
  cbn [store_dir cwd]. eapply makes_bind.
  { eapply makes_views, (looks_opendir _ _ (src ++ r)); [by apply roomy_calm| |].
    - rewrite <- resolve_bare. apply (visited_resolve _ true r j); [done|done|]. left. unfold is_dir in Dj. unfold is_link. by destruct (i_kind j).
    - apply isdir_bare. exists (bare j). split; [by apply visited_here|done]. }
  intros x w1 [-> E1] Ha1. cbn beta iota. rewrite <- E1 in *. assert (roomy w1) as Hw1 by (by eapply roomy_same).
  assert (children (w_fs w1) (src ++ r) = children (bare <$> w_fs w1) (src ++ r)) as Ec by (unfold children; by rewrite dom_fmap_L).
  rewrite Ec. eapply makes_mono; [apply (store_entries_spec _ r j); [done|done| |done|done|exact Hm| |]|].
  - intros c i st m1 t1 w2 Hw2 HF2 Hm2 Hk Hi Est. eapply store_st_spec; [done|done|done|exact Hv|done|exact Hi|done|].
    intros Di. eapply (IH (r ++ [c]) i); [|done|rewrite length_app; cbn; lia]. split_and!; [done|done|]. intros _ d E. unfold is_dir in Di. by rewrite E in Di.
  - assert (forall c, c ∈ dir_order (children (bare <$> w_fs w1) (src ++ r)) -> c <> DOT /\ c <> DOTDOT) as Hnd.
    { intros c. rewrite dir_order_perm, elem_of_children, <- app_assoc. intros [i Hi]%(child_same _ r j c HF Hv). rewrite app_assoc in Hi.
      destruct (wf_parent _ (se_wf Hset) _ _ (ex_intro _ i Hi)) as [_ (_ & H1 & H2 & _)]. done. }
    constructor; [intros [E|H]%elem_of_cons; [done|by apply Hnd in H as [H _]]|]. constructor; [intros H; by apply Hnd in H as [_ H]|].
    rewrite dir_order_perm. apply children_nodup.
  - constructor; [by left|]. constructor; [by right; left|]. apply Forall_forall. intros c. rewrite dir_order_perm, elem_of_children, <- app_assoc.
    intros H. right; right. by apply (child_same _ r j c HF Hv).
  - intros y fs. apply stored_mono. intros es He. by eapply dirs_whole.
Qed.

End Store.

Arguments se_sha {_ _ _ _ _ _ _ _} _.
Arguments se_wf {_ _ _ _ _ _ _ _} _.
Arguments se_src {_ _ _ _ _ _ _ _} _.
Arguments se_blobs {_ _ _ _ _ _ _ _} _.
Arguments se_man {_ _ _ _ _ _ _ _} _.
Arguments se_apart {_ _ _ _ _ _ _ _} _.
Arguments se_ok {_ _ _ _ _ _ _ _} _.
Arguments se_len {_ _ _ _ _ _ _ _} _.
Arguments se_size {_ _ _ _ _ _ _ _} _.
Arguments se_room {_ _ _ _ _ _ _ _} _.
Arguments se_inj {_ _ _ _ _ _ _ _} _.
