(* ===== verification/DedupeRoundtrip.v ===== *)
(** * Backups are restored ([dedupe c] and [dedupe x])

    What [dedupe c] makes of a directory is what [dedupe x] makes a copy of it
    from. *)
From stdpp Require Import pretty.
From S2P Require Import Prelude.
From S2P Require Import Cbuf.
From S2P Require Import Posix.
From S2P Require Import PosixFacts.
From S2P Require Import Stdio.
From S2P Require Import DirUtil.
From S2P Require Import DirTrees.
From S2P Require Import Views.
From S2P Require Import TextLines.
From S2P Require Import Streams.
From S2P Require Import Dedupe.
From S2P Require Import DedupeFacts.
From S2P Require Import DedupeFormat.
From S2P Require Import DedupeRestore.
From S2P Require Import DedupeStore.
Local Open Scope string_scope.
Local Open Scope Z_scope.
Local Open Scope list_scope.

(** ** Plain paths *)

Lemma resolve_path (follow : bool) (fs : tree) p c : Forall good (p ++ [c]) -> dirs_to fs p -> zlen (path_text (p ++ [c])) < PATH_MAX ->
  resolve follow fs (path_text (p ++ [c])) =
  match fs !! (p ++ [c]) with
  | None => Absent p c
  | Some i => if is_link i && follow then resolve follow fs (path_text (p ++ [c])) else Found (p ++ [c])
  end.
Proof.
  intros Hg Hd Hl. apply resolve_plain; [done| |done|done]. apply Forall_app in Hg as [Hg Hc]. apply Forall_inv in Hc.
  by rewrite path_text_snoc, components_snoc, names_path.
Qed.

Lemma resolve_dir (follow : bool) (fs : tree) p : Forall good p -> dirs_to fs p -> p <> [] -> zlen (path_text p) < PATH_MAX ->
  resolve follow fs (path_text p) = Found p.
Proof.
  intros Hg Hd Hne Hl. destruct p as [|c p _] using rev_ind; [done|]. destruct (dirs_to_self _ _ Hd) as (i & Hi & Di).
  rewrite resolve_path; [|done| |done].
  - rewrite Hi. unfold is_dir in Di. unfold is_link. by destruct (i_kind i).
  - intros k Hk. specialize (Hd k). rewrite take_app_le in Hd by lia. apply Hd. rewrite length_app. lia.
Qed.

Lemma dirs_to_agree (fs fs' : tree) p : dirs_to fs p -> (forall k, (k <= length p)%nat -> fs' !! take k p = fs !! take k p) -> dirs_to fs' p.
Proof. intros Hd E k Hk. destruct (Hd k Hk) as (i & Hi & Di). exists i. by rewrite E. Qed.

Section Making.
  Context {Dev : Type} {DO : DirOrder} (fuel : nat) (SHA256 : list Z -> list Z) (lgetfilecon : list Z -> option (list Z)).
  Abbreviation world := (world tree Dev).
  Context (src blobs man : path) (excluded : list (list Z)).

(** The disk when the first directory is opened. *)
Definition start (fs : tree) : tree :=
  let fs1 := <[man := new_inode (KFile []) 438]> fs in
  match fs1 !! blobs with None => <[blobs := new_inode KDir 511]> fs1 | Some _ => fs1 end.

Context (fs0 : tree).
Abbreviation F0 := (start fs0).
Abbreviation setting := (setting fuel SHA256 lgetfilecon src blobs man excluded F0).
Abbreviation visited := (visited src excluded F0).
Abbreviation content := (content src excluded F0).
Abbreviation work := (work SHA256 src blobs man excluded F0).
Abbreviation has := (has SHA256 blobs).

(** The blobs that are there already: files in directories, each with the contents
    that its name is the digest of, as far as that is the digest of one of the
    contents to store. *)
Record blobs_ok : Prop := {
  bo_kind rel i : F0 !! (blobs ++ rel) = Some i -> (length rel <= 1)%nat /\ is_dir i = true \/
    exists a b d, rel = [a; b] /\ length b = 61%nat /\ i_kind i = KFile d;
  bo_sound d i : content d -> F0 !! blob_at SHA256 blobs d = Some i -> i_kind i = KFile d
}.

Record command_ok : Prop := {
  co_set : setting;
  co_blobs : blobs_ok;
  co_man : fs0 !! man = None;
  co_src : src <> [];
  co_lens : zlen (path_text src) < PATH_MAX /\ zlen (path_text man) < PATH_MAX
}.

Context (Hok : command_ok).

Lemma start_work : work (bare <$> F0).
Proof.
  destruct (co_set Hok) as [_ _ _ Hb (m & d & Hm & Km) _ _ _ _ _ _]. destruct (co_blobs Hok) as [H1 H2]. split.
  - intros q _ _. apply lookup_fmap.
  - exists (bare m). rewrite lookup_fmap, Hm. unfold is_dir, is_link. cbn. by rewrite Km.
  - by apply isdir_bare.
  - intros rel i Hi. apply bare_lookup in Hi as (j & Hj & ->). apply (H1 rel j Hj).
  - intros d' i Hd Hi. apply bare_lookup in Hi as (j & Hj & ->). by apply (H2 d' j).
Qed.

Lemma man_blobs : man <> blobs /\ blobs <> [].
Proof.
  destruct (se_apart (co_set Hok)) as [Ha _]. split; [intros <-; by apply Ha|intros ->; apply Ha, prefix_nil].
Qed.

(** Paths away from the manifest and the blobs are as before. *)
Lemma start_else q : q <> man -> q <> blobs -> F0 !! q = fs0 !! q.
Proof. intros H1 H2. unfold start. destruct (_ !! blobs); by rewrite !lookup_insert_ne by done. Qed.

Lemma away_dirs p : (forall k, (k <= length p)%nat -> take k p <> man /\ take k p <> blobs) -> dirs_to F0 p -> dirs_to fs0 p.
Proof. intros Ha Hd. eapply dirs_to_agree; [exact Hd|]. intros k Hk. destruct (Ha k Hk). by rewrite start_else. Qed.

Lemma src_dirs : Forall good src /\ dirs_to F0 src /\ dirs_to fs0 src /\ exists i, visited [] i.
Proof.
  pose proof (co_set Hok) as Hset. pose proof (se_src Hset) as Hd. pose proof Hd as (i & Hi & Di).
  destruct (wf_dirs _ src (se_wf Hset)) as [Hg Hdd]; [by exists i|]. specialize (Hdd Hd).
  assert (visited [] i) as Hv.
  { split_and!; [|by rewrite app_nil_r|done]. intros k Hk. cbn in Hk. lia. }
  split_and!; [done|done| |by exists i]. apply away_dirs; [|done]. intros k Hk. destruct (Hdd k Hk) as (j & Hj & Dj). split.
  - intros E. destruct (se_man Hset) as (m & d & Hm & Km). rewrite E, Hm in Hj. injection Hj as <-. unfold is_dir in Dj. by rewrite Km in Dj.
  - intros E. destruct (proj2 (se_apart Hset) [] i Hv) as [_ H]. apply H. rewrite app_nil_r, <- E. apply prefix_take.
Qed.

Lemma man_parent : exists p c, man = p ++ [c] /\ Forall good man /\ dirs_to fs0 p /\ dirs_to F0 p.
Proof.
  pose proof (co_set Hok) as Hset. destruct (se_man Hset) as (m & d & Hm & Km).
  assert (man <> []) as Hne.
  { intros E. pose proof (wf_root _ (se_wf Hset)) as (j & Hj & Dj). rewrite E, Hj in Hm. injection Hm as ->. unfold is_dir in Dj. by rewrite Km in Dj. }
  destruct (wf_dirs _ man (se_wf Hset)) as [Hg _]; [by exists m|].
  destruct (exists_last Hne) as (p & c & E). exists p, c. rewrite E in Hm.
  destruct (wf_parent _ (se_wf Hset) _ _ (ex_intro _ m Hm)) as [Hd _]. pose proof Hd as (j & Hj & _).
  destruct (wf_dirs _ p (se_wf Hset)) as [_ Hp]; [by exists j|]. specialize (Hp Hd). split_and!; [done|done| |done].
  apply away_dirs; [|done]. intros k Hk. split.
  - intros E2. apply (f_equal length) in E2. rewrite length_take, E, length_app in E2. cbn in E2. lia.
  - intros E2. apply (proj1 (se_apart Hset)). rewrite E, <- E2. etrans; [apply prefix_take|]. by apply prefix_app_r.
Qed.

Abbreviation line_text := (entry_line SHA256 lgetfilecon).

(** The backup on the disk. *)
Record backed_up (F : tree) (es : list entry) : Prop := {
  bu_work : work F;
  bu_text : exists m, F !! man = Some m /\ i_kind m = KFile (manifest_text (line_text <$> es));
  bu_has e d : e ∈ es -> i_kind (e_node e) = KFile d -> has F d;
  bu_good : Forall (good_entry src excluded F0) es;
  bu_all : whole src excluded F0 [] es
}.

(** [mkdir] of the directory of the blobs. *)
Lemma start_mkdir m t (w : world) j dj : roomy w -> i_kind j = KFile dj ->
  bare <$> w_fs w = <[man := bare j]> (bare <$> <[man := new_inode (KFile []) 438]> fs0) -> written man m t (bare <$> w_fs w) ->
  makes (sys_mkdir (path_text blobs) 511) w (fun _ fs => work (bare <$> fs) /\ written man m t (bare <$> fs)).
Proof.
  intros Hw Kj EF Hm. pose proof (co_set Hok) as Hset. destruct man_blobs as [Hmb Hbn]. pose proof (se_blobs Hset) as Hb.
  assert (forall F, bare <$> F = <[man := bare j]> (bare <$> F0) -> work (bare <$> F)) as Hwork.
  { intros F E. eapply (work_rewritten fuel SHA256 lgetfilecon src blobs man excluded F0 Hset); [apply start_work|].
    destruct (se_man Hset) as (m0 & d & Hm0 & _). exists (bare m0), j, dj. by rewrite lookup_fmap, Hm0. }
  destruct (exists_last Hbn) as (p & c & Eb). pose proof Hb as (i & Hi & _). destruct (wf_dirs _ blobs (se_wf Hset)) as [Hg Hbd]; [by exists i|].
  specialize (Hbd Hb). assert (dirs_to F0 p) as Hp.
  { intros k Hk. specialize (Hbd k). rewrite Eb, take_app_le in Hbd by lia. apply Hbd. rewrite length_app. lia. }
  assert (dirs_to (bare <$> w_fs w) p) as Hpw.
  { rewrite EF. intros k Hk. destruct (Hp k Hk) as (x & Hx & Dx). exists (bare x). split; [|done].
    assert (take k p <> man) as H1.
    { intros E. destruct (se_man Hset) as (m0 & d & Hm0 & Km). rewrite E, Hm0 in Hx. injection Hx as <-. unfold is_dir in Dx. by rewrite Km in Dx. }
    assert (take k p <> blobs) as H2 by (intros E; apply (f_equal length) in E; rewrite length_take, Eb, length_app in E; cbn in E; lia).
    rewrite lookup_insert_ne, lookup_fmap, lookup_insert_ne by done. by rewrite <- start_else, Hx. }
  assert (resolve false (bare <$> w_fs w) (path_text blobs) = match (bare <$> w_fs w) !! blobs with None => Absent p c | Some _ => Found blobs end) as Hres.
  { pose proof (se_room Hset) as Hr. clear - Eb Hg Hpw Hr. rewrite Eb in Hg, Hr |- *. rewrite resolve_path; [|done|done|lia].
    destruct (_ !! (p ++ [c])); [by rewrite andb_false_r|done]. }
  assert ((bare <$> w_fs w) !! blobs = bare <$> <[man := new_inode (KFile []) 438]> fs0 !! blobs) as Eq.
  { by rewrite EF, lookup_insert_ne, lookup_fmap by done. }
  apply wp_syscall; [by intros []; apply roomy_calm|]. rewrite <- resolve_bare, Hres, Eq.
  destruct (<[man := new_inode (KFile []) 438]> fs0 !! blobs) as [x|] eqn:Ex; cbn [fmap option_fmap option_map].
  - apply wp_ret. cbn [w_fs asked]. split; [|done]. split; [|done]. apply Hwork. rewrite EF. unfold start. by rewrite Ex.
  - apply wp_bind, wp_set_fs; [done|]. apply wp_ret. cbn [w_fs changed asked]. rewrite <- Eb. split; [|done]. split.
    + apply Hwork. rewrite fmap_insert, EF. unfold start. by rewrite Ex, (fmap_insert bare _ blobs), insert_insert_ne by done.
    + eapply holds_same; [|exact Hm]. by rewrite fmap_insert, lookup_insert_ne.
Qed.

Lemma work_src F : work F -> dirs_to F src.
Proof.
  pose proof (co_set Hok) as Hset. intros HF. destruct src_dirs as (_ & Hd & _ & i & Hv).
  destruct (proj2 (se_apart Hset) [] i Hv) as [_ H]. rewrite app_nil_r in H. by eapply (work_dirs fuel SHA256 lgetfilecon src blobs man excluded F0 Hset).
Qed.

(** [dedupe c] *)
Lemma dedupe_c_spec (w : world) : roomy w -> w_fs w = fs0 ->
  makes (dedupe_c fuel SHA256 lgetfilecon (path_text src) (path_text blobs) (path_text man) excluded) w (fun r fs =>
    r = 0 /\ exists es, backed_up (bare <$> fs) es).
Proof.
  intros Hw Ew. pose proof (co_set Hok) as Hset. destruct (co_lens Hok) as [Hls Hlm]. destruct src_dirs as (Hgs & Hds & Hds0 & i0 & Hv0).
  destruct man_parent as (p & c & Em & Hgm & Hdm & _). destruct man_blobs as [Hmb Hbn]. unfold dedupe_c.
  destruct (dirs_to_self _ _ Hds0) as (i & Hi & Di).
  eapply makes_bind.
  { eapply makes_views, looks_lstat; [by apply roomy_calm| |rewrite Ew; exact Hi]. rewrite Ew. apply resolve_dir; [done|done|apply Hok|done]. }
  intros x w1 [-> E1] Ha1. rewrite Di. cbn [negb]. assert (roomy w1) as Hw1 by (by eapply roomy_same). rewrite Ew in E1.
  eapply (makes_bind _ _ _ (fun x fs => x = inl (mkF man (Some 0) [] false) /\ fs = <[man := new_inode (KFile []) 438]> fs0)).
  { unfold fopen_w. eapply makes_bind.
    - eapply (makes_creat _ _ _ p c); [by apply roomy_calm|]. rewrite E1, Em in *. rewrite resolve_path by done. pose proof (co_man Hok) as Hn. by rewrite Em in Hn; rewrite Hn.
    - intros y w2 [-> E2] _. apply makes_ret. by rewrite E2, <- Em, E1. }
  intros y w2 [-> E2] Ha2. cbn beta iota. assert (roomy w2) as Hw2 by (by eapply roomy_same).
  eapply makes_bind.
  { apply (fput_spec man _ _ []); [done|]. split; [done|]. exists (new_inode (KFile []) 438), []. rewrite E2, lookup_fmap, lookup_insert_eq. done. }
  intros m w3 [Hm3 (i3 & j3 & d3 & _ & K3 & E3)] Ha3. assert (roomy w3) as Hw3 by (by eapply roomy_same). rewrite E2 in E3.
  eapply makes_bind; [eapply (start_mkdir m _ w3 j3); [done|exact K3|exact E3|exact Hm3]|]. intros y w4 [HF4 Hm4] Ha4. assert (roomy w4) as Hw4 by (by eapply roomy_same).
  destruct (wf_dirs _ blobs (se_wf Hset)) as [Hgb _]. { destruct (se_blobs Hset) as (b & Hb & _). by exists b. }
  pose proof (blobs_dirs fuel SHA256 lgetfilecon src blobs man excluded F0 Hset _ HF4) as Hdb.
  eapply makes_bind.
  { eapply makes_views, (looks_realpath _ _ blobs); [by apply roomy_calm| | |done].
    - apply resolve_dir; [done|by apply dirs_bare|done|]. pose proof (se_room Hset). lia.
    - destruct (proj1 (isdir_bare _ _) (dirs_to_self _ _ Hdb)) as (b & Hb & _). by exists b. }
  intros y5 w5 [-> E5] Ha5. pose proof (work_src _ HF4) as Hds4.
  eapply (makes_bind _ _ _ (fun d fs => d = Some src /\ fs = w_fs w5)).
  { apply makes_views. apply looks_syscall; [eapply calm_same; [exact Ha5|by apply roomy_calm]|]. intros w' _. rewrite E5.
    rewrite resolve_dir; [|done|by apply dirs_bare|apply Hok|done]. destruct (proj1 (isdir_bare _ _) (dirs_to_self _ _ Hds4)) as (s & Hs & Ds). rewrite Hs. cbn.
    rewrite decide_True by (by rewrite Ds). apply looks_ret. }
  intros y6 w6 [-> E6] Ha6. cbn [default from_option id]. rewrite <- E5, <- E6 in *. assert (roomy w6) as Hw6 by (eapply roomy_same; [|exact Hw4]; congruence).
  eapply makes_bind.
  { eapply (store_dir_spec fuel SHA256 lgetfilecon src blobs man excluded F0 Hset fuel [] i0); [done| |lia|done|done|exact Hm4].
    destruct Hv0 as (_ & H0 & _). rewrite app_nil_r in H0. destruct (dirs_to_self _ _ Hds) as (s & Hs & Ds). congruence. }
  intros [ret m7] w7 [E7 (es & Hwh & Hpr)] Ha7. cbn [fst snd] in *. subst ret.
  eapply makes_bind; [eapply (fclose_spec man KFile []); [by eapply roomy_same|by left|apply Hpr]|]. intros y8 w8 (j & Kj & E8) _. apply makes_ret.
  split; [done|]. exists es. pose proof (pr_text _ _ _ _ _ _ _ _ _ _ _ _ Hpr) as (_ & m0 & d0 & Hm0 & Km0 & _).
  destruct (work_rewritten fuel SHA256 lgetfilecon src blobs man excluded F0 Hset (bare <$> w_fs w7) (bare <$> w_fs w8)) as [HF8 Hh8].
  { apply Hpr. }
  { by eexists m0, j, _. }
  split; [done| | |apply Hpr|done].
  - exists (bare j). rewrite E8, lookup_insert_eq. split; [done|]. cbn [bare i_kind]. by rewrite Kj, over_nil.
  - intros e d He Hd. apply Hh8. by eapply (pr_blobs _ _ _ _ _ _ _ _ _ _ _ _ Hpr).
Qed.

(** ** Restoring it *)

Context (out : path).

Record out_ok : Prop := {
  oo_dir : isdir F0 out;
  oo_root : out <> [];
  oo_empty rel : rel <> [] -> F0 !! (out ++ rel) = None;
  oo_apart : ~ blobs `prefix_of` out;
  oo_len : zlen (path_text out) < PATH_MAX;
  oo_lens r i : visited r i -> zlen (from out (rel_text r)) < PATH_MAX;
  oo_size : (size F0 < fuel)%nat
}.

Context (Hout : out_ok).

Lemma out_good : Forall good out /\ dirs_to F0 out.
Proof.
  pose proof (oo_dir Hout) as Hd. pose proof Hd as (i & Hi & _). destruct (wf_dirs _ out (se_wf (co_set Hok))) as [H1 H2]; [by exists i|]. auto.
Qed.

Lemma out_dirs F : work F -> dirs_to F out.
Proof.
  intros HF. eapply (work_dirs fuel SHA256 lgetfilecon src blobs man excluded F0 (co_set Hok)); [done|apply out_good|apply Hout].
Qed.

(** The directory stays empty while the backup is made. *)
Lemma out_empty F rel : work F -> rel <> [] -> F !! (out ++ rel) = None.
Proof.
  intros HF Hne. pose proof (oo_empty Hout rel Hne) as Hn. rewrite (wk_else _ _ _ _ _ _ _ HF), Hn; [done| |].
  - intros E. rewrite E in Hn. destruct (se_man (co_set Hok)) as (m & d & Hm & _). congruence.
  - intros [k E]. assert (blobs `prefix_of` out \/ exists k', blobs = out ++ k') as [H|[k' Ek]].
    { destruct (prefix_weak_total blobs out (out ++ rel)) as [H|[k' H]]; [by exists k|by apply prefix_app_r|by left|right; by exists k']. }
    + by apply (oo_apart Hout).
    + destruct (decide (k' = [])) as [->|Hk]; [apply (oo_apart Hout); by rewrite Ek, app_nil_r|].
      pose proof (oo_empty Hout k' Hk) as Hb. rewrite <- Ek in Hb. destruct (se_blobs (co_set Hok)) as (b & Hb' & _). congruence.
Qed.

Lemma dirs_sub (F F' : tree) p : F ⊆ F' -> dirs_to F p -> dirs_to F' p.
Proof. intros Hs Hd k Hk. destruct (Hd k Hk) as (i & Hi & Di). exists i. split; [by eapply lookup_weaken|done]. Qed.

(** The blob of a content can be read. *)
Lemma blob_found F d : dirs_to F blobs -> has F d ->
  exists j, resolve true F (path_text (blobs ++ blob_names SHA256 d)) = Found (blobs ++ blob_names SHA256 d) /\
    F !! (blobs ++ blob_names SHA256 d) = Some j /\ i_kind j = KFile d /\ zlen (path_text (blobs ++ blob_names SHA256 d)) < PATH_MAX.
Proof.
  intros Hd [Hk (j & Hj & Kj)]. pose proof (co_set Hok) as Hset. exists j.
  pose proof (blob_room fuel SHA256 lgetfilecon src blobs man excluded F0 Hset d) as Hr. unfold blob_at in Hj, Hr.
  split_and!; [|done|done|lia]. pose proof (blob_at_snoc SHA256 blobs d) as Eb. unfold blob_at in Eb. rewrite Eb in *.
  rewrite resolve_path; [| |by apply dirs_to_snoc|lia].
  - rewrite Hj. unfold is_link. by rewrite Kj.
  - rewrite <- Eb. apply Forall_app. split; [|apply (blob_names_ok SHA256 d), Hset]. destruct (se_blobs Hset) as (b & Hb & _).
    by apply (wf_dirs _ _ (se_wf Hset)); exists b.
Qed.

Abbreviation restorable := (restorable fuel SHA256 lgetfilecon out blobs).
Abbreviation all_restorable := (all_restorable fuel SHA256 lgetfilecon out blobs).

(** One entry, in a directory that is there. *)
Lemma entry_restorable (F : tree) e r c i : e_rel e = r ++ [c] -> visited (e_rel e) i -> e_node e = bare i ->
  0 <= e_at e < 2 ^ 32 -> 0 <= e_mt e < 2 ^ 32 -> 0 <= e_ct e < 2 ^ 32 -> dirs_to F (out ++ r) -> F !! (out ++ e_rel e) = None ->
  dirs_to F blobs -> (forall d, i_kind i = KFile d -> has F d) -> restorable F e.
Proof.
  intros Er Hv En H1 H2 H3 Hd Hn Hb Hh. pose proof (co_set Hok) as Hset. split.
  - destruct e as [rel node at_ mt ct]. cbn in *. subst node rel. apply (se_ok Hset); [done|by destruct r|done..].
  - exists r, c. rewrite <- Er. split_and!; [done| |done|done|by eapply (oo_lens Hout)].
    apply Forall_app. split; [apply out_good|].
    pose proof (visited_good fuel SHA256 lgetfilecon src blobs man excluded F0 Hset _ _ Hv) as Hg. by apply Forall_app in Hg as [_ Hg].
  - rewrite En. cbn [bare i_kind]. intros d Hk. split; [|by apply blob_found; auto]. apply (se_size Hset). by exists (e_rel e), i.
Qed.

(** All of them, each in the directory of one before it. *)
Lemma tidy_restorable es : forall (F : tree) seen, tidy seen es -> Forall (good_entry src excluded F0) es -> NoDup (e_rel <$> es) ->
  (forall q, q ∈ e_rel <$> es -> F !! (out ++ q) = None) ->
  (forall q j, q ∈ seen -> visited q j -> is_dir j = true -> dirs_to F (out ++ q)) -> dirs_to F blobs ->
  (forall e d, e ∈ es -> i_kind (e_node e) = KFile d -> has F d) -> all_restorable F es.
Proof.
  induction es as [|e es IH]; intros F seen Ht Hg Hnd Hfree Hseen Hb Hh; [done|]. destruct Ht as [(r & c & Er & Hr) Ht].
  pose proof (co_set Hok) as Hset. apply Forall_cons in Hg as [((i & Hv & En) & H1 & H2 & H3) Hg]. rewrite fmap_cons in Hnd. apply NoDup_cons in Hnd as [Hne Hnd].
  assert (F !! (out ++ e_rel e) = None) as Hn by (apply Hfree; left).
  assert (exists j, visited r j /\ is_dir j = true) as (j & Hj & Dj).
  { pose proof Hv as Hv'. rewrite Er in Hv'. apply (visited_parent fuel SHA256 lgetfilecon src blobs man excluded F0 Hset) in Hv' as (j & Hj & Dj & _). by exists j. }
  assert (F ⊆ restore_entry out F e) as Hsub by (by apply insert_subseteq).
  assert (forall d, has F d -> has (restore_entry out F e) d) as Hhas.
  { intros d [(x & Hx & Dx) (y & Hy & Ky)]. split; [exists x|exists y]; (split; [by eapply lookup_weaken|done]). }
  split.
  { eapply entry_restorable; [exact Er|exact Hv|done|done|done|done|by eapply Hseen|done|done|]. intros d Hk. apply (Hh e); [left|by rewrite En]. }
  apply (IH _ (e_rel e :: seen)); [done|done|done| | |by eapply dirs_sub|].
  - intros q Hq. unfold restore_entry. rewrite lookup_insert_ne; [apply Hfree; by right|]. intros E. apply app_inv_head in E. congruence.
  - intros q k [->|Hq]%elem_of_cons Hk Dk; [|eapply dirs_sub; [exact Hsub|by eapply Hseen]].
    rewrite Er, app_assoc. apply dirs_to_snoc; [eapply dirs_sub; [exact Hsub|by eapply Hseen]|].
    exists (restored (e_node e)). rewrite <- app_assoc, <- Er. unfold restore_entry. rewrite lookup_insert_eq. split; [done|].
    destruct Hv as (_ & Hi & _), Hk as (_ & Hk & _). rewrite Hi in Hk. injection Hk as <-. by rewrite En.
  - intros e' d He Hd. eapply Hhas, Hh; [by right|done].
Qed.

(** What the lines make is what they say. *)
Lemma restored_other es : forall (F : tree) q, (forall e, e ∈ es -> q <> out ++ e_rel e) -> foldl (restore_entry out) F es !! q = F !! q.
Proof.
  induction es as [|e es IH]; intros F q H; [done|]. cbn [foldl]. rewrite IH by (intros e' He'; apply H; by right).
  apply lookup_insert_ne. intros E. by apply (H e); [left|].
Qed.

Lemma restored_entry es e : forall F : tree, NoDup (e_rel <$> es) -> e ∈ es ->
  foldl (restore_entry out) F es !! (out ++ e_rel e) = Some (restored (e_node e)).
Proof.
  induction es as [|e' es IH]; intros F Hnd; [by intros ?%not_elem_of_nil|]. rewrite fmap_cons in Hnd. apply NoDup_cons in Hnd as [Hne Hnd].
  intros [->|He]%elem_of_cons; cbn [foldl]; [|by apply IH]. rewrite restored_other; [by apply lookup_insert_eq|].
  intros e2 He2 E. apply app_inv_head in E. apply Hne. rewrite E. by apply list_elem_of_fmap_2.
Qed.

Lemma whole_all es rel i : whole src excluded F0 [] es -> rel <> [] -> visited rel i -> rel ∈ e_rel <$> es.
Proof. intros (cs & Hl & Hall) Hne Hv. destruct rel as [|c r2]; [done|]. eapply (li_all _ _ _ _ _ _ Hl); [by eapply Hall|done]. Qed.

(** There are no more lines than nodes. *)
Lemma entries_few es : Forall (good_entry src excluded F0) es -> NoDup (e_rel <$> es) -> (length es <= size F0)%nat.
Proof.
  intros Hg Hnd. rewrite <- size_dom. assert (NoDup ((src ++.) <$> (e_rel <$> es))) as Hnd2 by (by apply NoDup_fmap_2; [apply _|]).
  replace (length es) with (size (list_to_set ((src ++.) <$> (e_rel <$> es)) : gset path)).
  2: { rewrite size_list_to_set by done. by rewrite !length_fmap. }
  apply subseteq_size. intros q. rewrite elem_of_list_to_set, elem_of_dom, list_elem_of_fmap. intros (r & -> & Hr).
  apply list_elem_of_fmap in Hr as (e & -> & He). rewrite Forall_forall in Hg. destruct (Hg e He) as ((i & (_ & Hi & _) & _) & _). by exists i.
Qed.

(** [dedupe x] *)
Lemma backup_restorable es (w : world) : roomy w -> backed_up (bare <$> w_fs w) es ->
  makes (dedupe_x fuel (path_text man) (path_text blobs) (path_text out)) w (fun r fs =>
    r = 0 /\ bare <$> fs = foldl (restore_entry out) (bare <$> w_fs w) es).
Proof.
  intros Hw [HF (m & Hm & Km) Hh Hg (cs & Hl & Hall)]. pose proof (co_set Hok) as Hset. destruct (co_lens Hok) as [_ Hlm].
  destruct man_blobs as [_ Hbn]. destruct man_parent as (p & c & Em & Hgm & _ & Hpm).
  pose proof (blobs_dirs fuel SHA256 lgetfilecon src blobs man excluded F0 Hset _ HF) as Hdb. pose proof (out_dirs _ HF) as Hdo.
  assert (Forall (entry_ok SHA256 lgetfilecon) es) as Hoks.
  { apply Forall_forall. intros e He. rewrite Forall_forall in Hg. destruct (Hg e He) as ((i & Hv & En) & H1 & H2 & H3).
    destruct (li_under _ _ _ _ _ _ Hl (e_rel e)) as (c' & r2 & _ & Ee); [by apply list_elem_of_fmap_2|].
    destruct e as [rel node at_ mt ct]. cbn in *. subst. by apply (se_ok Hset). }
  apply (dedupe_x_spec fuel SHA256 lgetfilecon out blobs).
  - done.
  - split; [by apply lines_ok|]. apply bare_lookup in Hm as (m' & Hm' & ->). exists man, m'. split_and!; [|done|unfold node_data; cbn in Km; by rewrite Km].
    assert (dirs_to (w_fs w) p) as Hp.
    { apply dirs_bare. eapply (work_dirs fuel SHA256 lgetfilecon src blobs man excluded F0 Hset); [done|done|].
      intros Hb. apply (proj1 (se_apart Hset)). rewrite Em. by apply prefix_app_r. }
    clear - Em Hgm Hp Hlm Hm' Km. rewrite Em in *. rewrite resolve_path by done. rewrite Hm'. unfold is_link. cbn in Km. by rewrite Km.
  - apply resolve_dir; [|by apply dirs_bare|done|pose proof (se_room Hset); lia]. destruct (se_blobs Hset) as (b & Hb & _).
    by apply (wf_dirs _ _ (se_wf Hset)); exists b.
  - destruct (proj1 (isdir_bare _ _) (dirs_to_self _ _ Hdb)) as (b & Hb & _). by exists b.
  - done.
  - intros follow. apply resolve_dir; [apply out_good|by apply dirs_bare|apply Hout|apply Hout].
  - apply isdir_bare, dirs_to_self, Hdo.
  - apply (tidy_restorable _ _ [[]]); [apply Hl|done|apply Hl| | |done|done].
    + intros q Hq. apply out_empty; [done|]. destruct (li_under _ _ _ _ _ _ Hl q Hq) as (c' & r2 & _ & ->). done.
    + intros q j ->%list_elem_of_singleton _ _. by rewrite app_nil_r.
  - pose proof (entries_few es Hg (li_once _ _ _ _ _ _ Hl)). pose proof (oo_size Hout). lia.
Qed.

End Making.

(** ** The round trip *)

(** [C11] A directory that is backed up and restored into an empty one is the same
    again: every node that was not excluded and is no special file is there, of
    the same kind, with the same contents or target, the same owner and the mode
    that [dedupe c] writes down (all but the sticky bit; a link has its own),
    there is nothing else, and what is neither the manifest nor among the blobs
    nor below the new directory is as it was. Times are left out. This is for
    directories that a manifest can hold ([entry_ok]): link targets of at most 40
    bytes (the program reads them into 41), names, targets and labels without tabs
    and newlines (which end a field and a line), uids and gids below 2^31 (they
    are read with atoi), files shorter than 2^31 bytes, and paths and lines
    shorter than [PATH_MAX]; no call fails, the manifest is new, and the blobs,
    the manifest and the directories are apart; files of the same SHA-256 have the
    same contents. *)
Theorem backup_is_restored {Dev : Type} {DO : DirOrder} (fuel : nat) (SHA256 : list Z -> list Z) (lgetfilecon : list Z -> option (list Z))
    (src blobs man out : path) (excluded : list (list Z)) (prog : list Z) (w : Run.world tree Dev) :
  roomy w -> command_ok fuel SHA256 lgetfilecon src blobs man excluded (w_fs w) ->
  out_ok fuel src blobs man excluded (w_fs w) out ->
  makes (let! r := dedupe_main fuel SHA256 lgetfilecon (prog :: str "c" :: path_text src :: path_text blobs :: path_text man :: excluded) in
         let! r' := dedupe_main fuel SHA256 lgetfilecon [prog; str "x"; path_text man; path_text blobs; path_text out] in
         wret (r, r')) w
    (fun rr fs => rr = (0, 0) /\
      (forall rel i, rel <> [] -> visited src excluded (start blobs man (w_fs w)) rel i -> (bare <$> fs) !! (out ++ rel) = Some (restored i)) /\
      (forall rel, rel <> [] -> is_Some (fs !! (out ++ rel)) -> exists i, visited src excluded (start blobs man (w_fs w)) rel i) /\
      (forall q, q <> man -> (~ blobs `prefix_of` q) -> (~ out `prefix_of` q) -> (bare <$> fs) !! q = bare <$> w_fs w !! q)).
Proof.
  intros Hw Hok Hout. eapply makes_bind; [apply (dedupe_c_spec _ _ _ _ _ _ _ _ Hok w Hw eq_refl)|].
  intros r w1 [-> (es & Hb)] Ha1. eapply makes_bind; [apply (backup_restorable _ _ _ _ _ _ _ _ Hok out Hout es); [by eapply roomy_same|done]|].
  intros r w2 [-> E2] _. apply makes_ret. destruct Hb as [HF _ _ Hg Hwh]. rewrite E2. rewrite Forall_forall in Hg. split_and!; [done| | |].
  - intros rel i Hne Hv. pose proof (whole_all _ _ _ _ _ es rel i Hwh Hne Hv) as Hin. destruct Hwh as (cs & Hl & _).
    apply list_elem_of_fmap in Hin as (e & -> & He). destruct (Hg e He) as ((i' & (_ & Hi' & _) & En) & _). destruct Hv as (_ & Hi & _).
    rewrite Hi in Hi'. injection Hi' as <-. rewrite (restored_entry out es e); [by rewrite En|apply Hl|done].
  - intros rel Hne [i Hi]. assert ((bare <$> w_fs w2) !! (out ++ rel) = Some (bare i)) as Hi2 by (by rewrite lookup_fmap, Hi).
    rewrite E2 in Hi2. destruct (decide (rel ∈ e_rel <$> es)) as [(e & -> & He)%list_elem_of_fmap|Hn].
    { destruct (Hg e He) as ((i' & Hv & _) & _). by exists i'. }
    rewrite restored_other in Hi2; [by rewrite (out_empty _ _ _ _ _ _ _ _ Hok out Hout _ rel HF Hne) in Hi2|].
    intros e He E. apply app_inv_head in E as ->. apply Hn. by apply list_elem_of_fmap_2.
  - intros q H1 H2 H3. rewrite restored_other by (intros e He ->; apply H3; by apply prefix_app_r).
    rewrite (wk_else _ _ _ _ _ _ _ HF) by done. rewrite start_else; [done|done|]. intros ->. by apply H2.
Qed.

(** ** A disk to back up *)

(** The times take less than 32 digits each. *)
Lemma short_line SHA256 lgetfilecon e type tail : 0 <= e_at e < 2 ^ 32 -> 0 <= e_mt e < 2 ^ 32 -> 0 <= e_ct e < 2 ^ 32 ->
  e_tail SHA256 e = Some (type, tail) ->
  zlen (tabbed (type :: octal (i_mode (e_node e) .& 3583) :: decimal (wrap 32 (i_uid (e_node e))) :: decimal (wrap 32 (i_gid (e_node e))) ::
    e_label lgetfilecon e :: rel_text (e_rel e) :: tail)) + 100 < PATH_MAX -> zlen (entry_line SHA256 lgetfilecon e) < PATH_MAX - 1.
Proof.
  intros H1 H2 H3 Et. unfold entry_line. rewrite Et. apply clean_decimal in H1 as [_ H1], H2 as [_ H2], H3 as [_ H3].
  unfold e_fields. cbn [app]. rewrite !tabbed_cons. repeat (rewrite length_app; cbn [length]). lia.
Qed.

Definition demo_sha (d : list Z) : list Z := take 32 (((fun b => b mod 256) <$> d) ++ replicate 32 0).

Lemma demo_sha_ok : sha_ok demo_sha.
Proof.
  intros d. unfold demo_sha. split; [rewrite length_take, length_app, length_replicate; lia|]. apply Forall_take, Forall_app. split.
  - apply Forall_fmap, Forall_forall. intros b _. apply Z.mod_pos_bound. lia.
  - by apply Forall_replicate.
Qed.

Definition demo_disk : tree :=
  let dir := mkInode KDir 493 0 0 None in
  let data d := mkInode (KFile d) 420 1000 1000 None in
  {[ [] := dir; [str "d"] := dir; [str "o"] := dir; [str "d"; str "a"] := data (str "hi"); [str "d"; str "x"] := data (str "secret");
     [str "d"; str "s"] := mkInode KDir 1536 2000 2000 None; [str "d"; str "s"; str "b"] := data (str "hi"); [str "d"; str "s"; str "l"] := mkInode (KLink (str "../a")) 511 0 0 None ]}.

Definition demo_disk_world : Run.world tree unit := Run.mkWorld demo_disk tt (fun _ => 4096) 0 [].

Abbreviation demo_src := [str "d"].
Abbreviation demo_store := [str "b"].
Abbreviation demo_man := [str "m"].
Abbreviation demo_excluded := [str "./x"].
Abbreviation demo_start := (start demo_store demo_man demo_disk).

(** What is visited. *)
Lemma demo_visited r i : visited demo_src demo_excluded demo_start r i ->
  (r, i) ∈ [([], mkInode KDir 493 0 0 None); ([str "a"], mkInode (KFile (str "hi")) 420 1000 1000 None); ([str "s"], mkInode KDir 1536 2000 2000 None);
    ([str "s"; str "b"], mkInode (KFile (str "hi")) 420 1000 1000 None); ([str "s"; str "l"], mkInode (KLink (str "../a")) 511 0 0 None)].
Proof.
  intros (Hk & Hi & _). assert ((demo_src ++ r, i) ∈ map_to_list demo_start) as H by (by apply elem_of_map_to_list).
  vm_compute in H. repeat (apply elem_of_cons in H as [H|H]; [simplify_eq|]); try by apply not_elem_of_nil in H.
  all: first [by_decide|exfalso; apply (Hk 1%nat); [cbn; lia|by_decide]].
Qed.

Ltac demo_cases H :=
  apply demo_visited in H; repeat (apply elem_of_cons in H as [H|H]; [injection H as -> ->|]); [..|by apply not_elem_of_nil in H].

Lemma demo_content d : content demo_src demo_excluded demo_start d -> d = str "hi".
Proof. intros (r & i & Hv & Hk). demo_cases Hv; by injection Hk as <- || discriminate Hk. Qed.

Lemma demo_entry r i at_ mt ct : visited demo_src demo_excluded demo_start r i -> 0 <= at_ < 2 ^ 32 -> 0 <= mt < 2 ^ 32 -> 0 <= ct < 2 ^ 32 ->
  entry_ok demo_sha (fun _ => None) (mkEntry r (bare i) at_ mt ct).
Proof.
  intros Hv H1 H2 H3. demo_cases Hv; (split; [cbn; lia|cbn; lia|done|split; [by_decide|by vm_compute]|split; [by_decide|by vm_compute]| |]).
  all: try (eapply short_line; [done|done|done|reflexivity|by vm_compute]).
  all: cbn [e_node bare i_kind]; split_and?; first [done|by_decide|by vm_compute].
Qed.

Lemma demo_setting : setting 20 demo_sha (fun _ => None) demo_src demo_store demo_man demo_excluded demo_start.
Proof.
  split.
  - apply demo_sha_ok.
  - apply wf_check. by vm_compute.
  - by_decide.
  - by_decide.
  - eexists _, _. split; by vm_compute.
  - split; [by_decide|]. intros r i Hv. demo_cases Hv; split; by_decide.
  - intros r i at_ mt ct Hv _ H1 H2 H3. by apply demo_entry.
  - intros r i Hi.
    assert (map_Forall (fun q _ => zlen (from demo_src (rel_text (drop 1 q))) < PATH_MAX /\ (length q < 20)%nat) demo_start) as H by by_decide.
    specialize (H _ _ Hi). cbn [app drop length] in H. split; [apply H|]. lia.
  - intros d ->%demo_content. cbn. lia.
  - by vm_compute.
  - intros d d' ->%demo_content ->%demo_content. done.
Qed.

Lemma demo_command : command_ok 20 demo_sha (fun _ => None) demo_src demo_store demo_man demo_excluded demo_disk.
Proof.
  split; [apply demo_setting| |by vm_compute|done|split; by vm_compute]. split.
  - intros rel i Hi. assert (map_Forall (fun q j => take 1 q = demo_store -> q = demo_store /\ is_dir j = true) demo_start) as H by by_decide.
    destruct (H _ _ Hi) as [E Hd]; [done|]. left. destruct rel; [split; [cbn; lia|done]|done].
  - intros d i ->%demo_content Hi. by vm_compute in Hi.
Qed.

Lemma demo_out : out_ok 20 demo_src demo_store demo_man demo_excluded demo_disk [str "o"].
Proof.
  split; [by_decide|done| |by_decide|by vm_compute| |by_decide].
  - intros rel Hne. destruct (demo_start !! ([str "o"] ++ rel)) as [i|] eqn:Hi; [|done].
    assert (map_Forall (fun q _ => take 1 q = [str "o"] -> q = [str "o"]) demo_start) as H by by_decide.
    specialize (H _ _ Hi). destruct rel; [done|]. by specialize (H eq_refl).
  - intros r i Hv. demo_cases Hv; by vm_compute.
Qed.

(** The two equal files, the link and the directory are back; the mode of the
    latter lost its sticky bit. *)
Lemma backup_is_restored_witness :
  exists w', (let! r := @dedupe_main unit tree_order 20 demo_sha (fun _ => None) [str "dedupe"; str "c"; str "/d"; str "/b"; str "/m"; str "./x"] in
              let! r' := @dedupe_main unit tree_order 20 demo_sha (fun _ => None) [str "dedupe"; str "x"; str "/m"; str "/b"; str "/o"] in
              wret (r, r')) demo_disk_world = (Done (0, 0), w') /\
    (bare <$> w_fs w') !! [str "o"; str "s"; str "b"] = Some (mkInode (KFile (str "hi")) 420 1000 1000 None) /\
    (bare <$> w_fs w') !! [str "o"; str "s"] = Some (mkInode KDir 1024 2000 2000 None) /\
    (bare <$> w_fs w') !! [str "o"; str "s"; str "l"] = Some (mkInode (KLink (str "../a")) 511 0 0 None).
Proof.
  destruct (@backup_is_restored unit tree_order 20 demo_sha (fun _ => None) demo_src demo_store demo_man [str "o"] demo_excluded (str "dedupe")
    demo_disk_world) as (rr & w' & l & E & _ & _ & (-> & H & _) & _).
  - intros n. vm_compute. congruence.
  - apply demo_command.
  - apply demo_out.
  - exists w'. split; [exact E|].
    assert (forall k c, (0 < k <= 2)%nat -> rel_text (take k [str "s"; c]) ∉ demo_excluded) as Hk.
    { intros k c Hk. assert (k = 1 \/ k = 2)%nat as [-> | ->] by lia; intros Hin%list_elem_of_singleton; done. }
    split_and!; [apply (H [str "s"; str "b"] (mkInode (KFile (str "hi")) 420 1000 1000 None)); [discriminate|]|
      apply (H [str "s"] (mkInode KDir 1536 2000 2000 None)); [discriminate|]|
      apply (H [str "s"; str "l"] (mkInode (KLink (str "../a")) 511 0 0 None)); [discriminate|]].
    all: split; [intros k Hl; cbn in Hl|split; [by vm_compute|discriminate]].
    + apply Hk. lia.
    + assert (k = 1)%nat as -> by lia. by intros Hin%list_elem_of_singleton.
    + apply Hk. lia.
Defined.
