(* ===== verification/NandroidMd5.v ===== *)
(** * Checksums of backups ([nandroid_md5.c])

    A backup is a directory of images.  [nandroid_backup_md5_gen] writes the MD5
    of each to nandroid.md5, [nandroid_restore_md5_check] compares them before
    anything is restored.  What is printed is left out, and allocations succeed. *)
From S2P Require Import Prelude.
From S2P Require Import Cbuf.
From S2P Require Import Posix.
From S2P Require Import Numerals.
From S2P Require Import Stdio.
From S2P Require Import Formats.
Local Open Scope string_scope.
Local Open Scope Z_scope.
Local Open Scope list_scope.

Definition NANDROID_BOOT : Z := 1.
Definition NANDROID_SYSTEM : Z := 2.
Definition NANDROID_DATA : Z := 4.
Definition NANDROID_CACHE : Z := 8.
Definition NANDROID_SDEXT : Z := 16.
Definition NANDROID_WIMAX : Z := 32.

Definition MAX_FILES_CHECKED : Z := 20.
Definition HASH_LENGTH : Z := 32.
Definition BUFSIZE : Z := 1024.

(** [(flags & flag) == flag]. *)
Definition has_flag (flags flag : Z) : bool := (flags .& flag) =? flag.

(** In [extendedcommands.c]. *)
Definition empty_nandroid_bitmask (flags : Z) : bool :=
  negb (has_flag flags NANDROID_BOOT || has_flag flags NANDROID_SYSTEM || has_flag flags NANDROID_DATA ||
        has_flag flags NANDROID_CACHE || has_flag flags NANDROID_SDEXT || has_flag flags NANDROID_WIMAX).

Definition is_selected_for_restore (file : list Z) (flags : Z) : bool :=
  let check_boot := has_flag flags NANDROID_BOOT in
  let check_system := has_flag flags NANDROID_SYSTEM in
  let check_data := has_flag flags NANDROID_DATA in
  let check_cache := has_flag flags NANDROID_CACHE in
  let check_sdext := has_flag flags NANDROID_SDEXT in
  let check_wimax := has_flag flags NANDROID_WIMAX in
  if check_boot && contains (str "boot") file then true
  else if check_system && contains (str "system") file then true
  else if check_data && (contains (str "data") file || contains (str "android_secure") file) then true
  else if check_cache && contains (str "cache") file then true
  else if check_sdext && contains (str "sd-ext") file then true
  else if check_wimax && contains (str "wimax") file then true
  else false.

(** OpenSSL's MD5. *)
Class Md5 := {
  MD5_CTX : Type;
  MD5_Init : MD5_CTX;
  MD5_Update : MD5_CTX -> list Z -> MD5_CTX;
  MD5_Final : MD5_CTX -> list Z
}.

(** The digest is that of all the data, and has 16 bytes. *)
Class Md5Spec `{Md5} := {
  MD5 : list Z -> list Z;
  MD5_spec chunks : MD5_Final (fold_left MD5_Update chunks MD5_Init) = MD5 (concat chunks);
  MD5_length d : length (MD5 d) = 16%nat;
  MD5_bytes d : Forall (fun b => 0 <= b < 256) (MD5 d)
}.

Definition to_md5_hash (md : list Z) : list Z := concat (hex_byte <$> md).

(** [snprintf] into a buffer of [PATH_MAX] bytes. *)
Definition snprintf_path (s : list Z) : list Z := take (Z.to_nat (PATH_MAX - 1)) s.

(** The path without a slash at its end; [path[len-1]] of an empty one. *)
Definition backup_dir (backup_path : list Z) : outcome (list Z) :=
  let path := snprintf_path backup_path in
  match last path with
  | None => Undef
  | Some c => Done (if c =? SLASH then take (length path - 1) path else path)
  end.

(** [filepaths[i]]. *)
Definition file_path (path name : list Z) : list Z := path ++ SLASH :: name.
Definition md5path (path : list Z) : list Z := snprintf_path (file_path path (str "nandroid.md5")).

(** The loop over [readdir], with [i] names found. *)
Fixpoint read_names (keep : list Z -> bool) (i : Z) (ep : list name) : list name :=
  match ep with
  | [] => []
  | d_name :: ep =>
      if i <? MAX_FILES_CHECKED then
        if keep d_name then d_name :: read_names keep (i + 1) ep else read_names keep i ep
      else []
  end.

(** The files a checksum is made of. *)
Definition in_backup (d_name : list Z) : bool :=
  negb (bool_decide (d_name = DOT)) && negb (bool_decide (d_name = DOTDOT)) &&
  negb (bool_decide (d_name = str "recovery.log")) && negb (bool_decide (d_name = str "nandroid.md5")).

(** The hash and the name on a line, when it is selected.  A line without its
    hash has a negative length left. *)
Definition read_reference (flags : Z) (line : list Z) : outcome (option (list Z * list Z)) :=
  let tmp := cstr (line ++ [0]) in
  match last tmp with
  | None => Undef
  | Some c =>
      let tmp := if c =? 10 then take (length tmp - 1) tmp else tmp in
      if is_selected_for_restore tmp flags then
        if zlen tmp <? HASH_LENGTH + 2 then Undef
        else Done (Some (take (Z.to_nat HASH_LENGTH) tmp, drop (Z.to_nat (HASH_LENGTH + 2)) tmp))
      else Done None
  end.

Section Checksums.
  Context {Dev : Type} {DO : DirOrder} `{Md5}.
  (** [is_ui_initialized()], and the answer of the user to the question under
      some headers. *)
  Context (use_ui : bool) (get_menu_selection : list (list Z) -> Z).
  Abbreviation W := (W tree Dev).

(** [n] is the number of bytes left to read, and one. *)
Fixpoint md5_loop (n : nat) (fd : rfile) (c : MD5_CTX) : W MD5_CTX :=
  match n with
  | O => wlift Diverge
  | S n =>
      let! (buf, fd) := fread BUFSIZE fd in
      if 0 <? zlen buf then md5_loop n fd (MD5_Update c buf) else wret c
  end.

(** The hash; [None] for the return value 1. *)
Definition calculate_md5 (path : list Z) : W (option (list Z)) :=
  let! fd := fopen_r path in
  match fd with
  | inr _ => wret None
  | inl fd =>
      let! fs := get_fs in
      let! c := md5_loop (S (length (unread fs fd))) fd MD5_Init in
      wret (Some (to_md5_hash (MD5_Final c)))
  end.

(** ** Making a backup *)

Definition md5_line (hash name : list Z) : list Z := snprintf_path (hash ++ str "  " ++ name ++ [10]).

Fixpoint write_references (path : list Z) (filenames : list name) (fd : wfile) : W wfile :=
  match filenames with
  | [] => wret fd
  | name :: filenames =>
      let! md5calc := calculate_md5 (file_path path name) in
      match md5calc with
      | None => write_references path filenames fd
      | Some md5calc =>
          let! (_, fd) := fwrite (md5_line md5calc name) fd in
          write_references path filenames fd
      end
  end.

Definition nandroid_backup_md5_gen (backup_path : list Z) : W Z :=
  let! path := wlift (backup_dir backup_path) in
  let! dp := sys_opendir path in
  let filenames := match dp with inl ep => read_names in_backup 0 ep | inr _ => [] end in
  if zlen filenames =? 0 then wret (-1)
  else
    let! fd := fopen_w (md5path path) in
    match fd with
    | inr _ => wret (-1)
    | inl fd =>
        let! fd := write_references path filenames fd in
        let! _ := fclose fd in
        wret 0
    end.

(** ** Before a restore *)

(** The loop over the lines, with [i] references found; [n] as above. *)
Fixpoint read_references (n : nat) (flags i : Z) (fd : rfile) : W (list (list Z * list Z)) :=
  match n with
  | O => wlift Diverge
  | S n =>
      let! (tmp, fd) := fgets PATH_MAX fd in
      match tmp with
      | None => wret []
      | Some tmp =>
          if i <? MAX_FILES_CHECKED then
            let! ref := wlift (read_reference flags tmp) in
            match ref with
            | None => read_references n flags i fd
            | Some ref => let! refs := read_references n flags (i + 1) fd in wret (ref :: refs)
            end
          else wret []
      end
  end.

(** What nandroid.md5 says of the selected files: hashes and names. *)
Definition read_md5_file (flags : Z) (path : list Z) : W (list (list Z * list Z)) :=
  let! fd := fopen_r (md5path path) in
  match fd with
  | inr _ => wret []
  | inl fd => let! fs := get_fs in read_references (S (length (unread fs fd))) flags 0 fd
  end.

(** The names of [names] that are not in [others]. *)
Definition missing_from (names others : list (list Z)) : list (list Z) :=
  List.filter (fun f => negb (bool_decide (f ∈ others))) names.

(** Whether to go on although some names are [missing]. *)
Definition go_on (missing before after : list (list Z)) : bool :=
  if bool_decide (missing = []) then true
  else if use_ui then get_menu_selection (before ++ missing ++ after) =? 0
  else false.

Definition missing_before : list (list Z) := [str "Backup files are missing:"].
Definition missing_after : list (list Z) :=
  [str ""; str "Attempting to restore any"; str "of these will fail."; str ""; str "Continue anyways?"; str ""].
Definition no_reference_before : list (list Z) := [str "Could not find reference MD5 for:"].
Definition no_reference_after : list (list Z) := [str ""; str "Continue anyways?"; str ""].

(** A file against the references with its name: how many match, [None] when one
    does not. *)
Fixpoint compare_file (path name : list Z) (refs : list (list Z * list Z)) : W (option Z) :=
  match refs with
  | [] => wret (Some 0)
  | (md5hash, md5file) :: refs =>
      if bool_decide (name = md5file) then
        let! md5calc := calculate_md5 (file_path path name) in
        match md5calc with
        | None => wret None
        | Some md5calc =>
            if bool_decide (md5calc = md5hash) then
              let! r := compare_file path name refs in wret (Z.succ <$> r)
            else wret None
        end
      else compare_file path name refs
  end.

Fixpoint compare_files (flags : Z) (path : list Z) (filenames : list name) (refs : list (list Z * list Z)) : W (option Z) :=
  match filenames with
  | [] => wret (Some 0)
  | name :: filenames =>
      if negb (is_selected_for_restore name flags) then compare_files flags path filenames refs
      else
        let! r := compare_file path name refs in
        match r with
        | None => wret None
        | Some m => let! r := compare_files flags path filenames refs in wret (Z.add m <$> r)
        end
  end.

Definition nandroid_restore_md5_check (backup_path : list Z) (flags : Z) : W Z :=
  if empty_nandroid_bitmask flags then wret (-1)
  else
    let! path := wlift (backup_dir backup_path) in
    let! dp := sys_opendir path in
    let filenames := match dp with inl ep => read_names (fun n => is_selected_for_restore n flags) 0 ep | inr _ => [] end in
    if zlen filenames =? 0 then wret (-1)
    else
      let! refs := read_md5_file flags path in
      let md5files := snd <$> refs in
      if negb (go_on (missing_from md5files filenames) missing_before missing_after) then wret (-1)
      else
        let unknown := missing_from (List.filter (fun n => is_selected_for_restore n flags) filenames) md5files in
        if negb (go_on unknown no_reference_before no_reference_after) then wret (-1)
        else
          let! md5matches := compare_files flags path filenames refs in
          wret match md5matches with None => -1 | Some _ => 0 end.

End Checksums.
