(* ===== verification/NandroidMd5Facts.v ===== *)
(** * Checksums are read back, and changed files are found

    What [nandroid_backup_md5_gen] writes, and what [nandroid_restore_md5_check]
    makes of it later. *)
From S2P Require Import Prelude.
From S2P Require Import Cbuf.
From S2P Require Import Posix.
From S2P Require Import PosixFacts.
From S2P Require Import Numerals.
From S2P Require Import Stdio.
From S2P Require Import Views.
From S2P Require Import TextLines.
From S2P Require Import Streams.
From S2P Require Import DirTrees.
From S2P Require Import Roots.
From S2P Require Import Formats.
From S2P Require Import NandroidMd5.
Local Open Scope string_scope.
Local Open Scope Z_scope.
Local Open Scope list_scope.

(** ** Which lines are selected *)

Lemma contains_spec p s : contains p s = true <-> exists a b, s = a ++ p ++ b.
Proof.
  induction s as [|c s IH]; cbn [contains]; unfold starts_with.
  - rewrite orb_false_r, bool_decide_eq_true, take_nil. split; [intros <-; by exists [], []|].
    intros (a & b & E). symmetry in E. apply app_eq_nil in E as [_ E]. by apply app_eq_nil in E as [-> _].
  - rewrite orb_true_iff, bool_decide_eq_true, IH. split.
    + intros [E|(a & b & ->)]; [|by exists (c :: a), b]. exists [], (drop (length p) (c :: s)). cbn [app]. by rewrite <- E at 1; rewrite take_drop.
    + intros ([|x a] & b & E).
      * left. rewrite E. cbn [app]. by rewrite take_app_length.
      * right. injection E as -> ->. by exists a, b.
Qed.

(** A word that is not a hexadecimal number is not found in front of a space. *)
Lemma contains_behind p h s : 32 ∉ p -> ~ Forall is_hex p -> Forall is_hex h -> contains p (h ++ 32 :: s) = contains p s.
Proof.
  intros Hsp Hhex Hh. apply eq_true_iff_eq. rewrite !contains_spec. split; [|intros (a & b & ->); exists (h ++ 32 :: a), b; by rewrite <- app_assoc].
  intros (a & b & E). apply app_eq_app in E as (l & [[-> E]|[-> E]]).
  - destruct l as [|x l].
    + exfalso. destruct p as [|y p]; [by apply Hhex|]. cbn [app] in E. injection E as -> _. apply Hsp. by left.
    + exfalso. apply Forall_app in Hh as [_ Hh]. apply app_eq_app in E as (l' & [[-> E]|[E _]]).
      * destruct l' as [|y l']; [by rewrite app_nil_r in Hhex|]. injection E as <- _. apply Hsp, elem_of_app. right. by left.
      * rewrite E in Hh. by apply Forall_app in Hh as [Hh _].
  - destruct l as [|x l].
    + destruct p as [|y p]; [by destruct Hhex|]. exfalso. injection E as <- _. apply Hsp. by left.
    + injection E as <- ->. by exists l, b.
Qed.

(** A line of nandroid.md5, without its end. *)
Definition reference_text (r : list Z * list Z) : list Z := r.1 ++ str "  " ++ r.2.

Definition reference_ok (r : list Z * list Z) : Prop :=
  length r.1 = 32%nat /\ Forall is_hex r.1 /\ Forall (fun c => c <> 0 /\ c <> 10) r.2 /\ zlen (reference_text r) < PATH_MAX - 1.

Lemma selected_behind h n flags : Forall is_hex h -> is_selected_for_restore (reference_text (h, n)) flags = is_selected_for_restore n flags.
Proof.
  intros Hh. unfold is_selected_for_restore, reference_text. cbn [fst snd].
  assert (forall p, 32 ∉ p -> ~ Forall is_hex p -> contains p (h ++ str "  " ++ n) = contains p n) as E.
  { intros p H1 H2. change (str "  " ++ n) with (32 :: [] ++ 32 :: n). by rewrite !contains_behind by (done || constructor). }
  assert (forall p, existsb (fun c => negb ((48 <=? c) && (c <=? 57)) && negb ((97 <=? c) && (c <=? 102))) p = true -> ~ Forall is_hex p) as N.
  { intros p Hp Hf. apply existsb_exists in Hp as (c & Hin & Hc). rewrite Forall_forall in Hf. apply list_elem_of_In, Hf in Hin. unfold is_hex in Hin. lia. }
  rewrite !E by (by_decide || by apply N). done.
Qed.

Lemma reference_read flags r : reference_ok r ->
  read_reference flags (reference_text r ++ [10]) = Done (if is_selected_for_restore r.2 flags then Some r else None).
Proof.
  destruct r as [h n]. intros (Hl & Hh & Hn & _). cbn [fst snd] in *. unfold read_reference.
  assert (nul_free (reference_text (h, n) ++ [10])) as Hnf.
  { unfold reference_text. rewrite !nul_free_app. split_and!; [|by repeat constructor| |by repeat constructor].
    - eapply Forall_impl; [exact Hh|]. unfold is_hex. cbn. lia.
    - eapply Forall_impl; [exact Hn|]. cbn. tauto. }
  rewrite cstr_app, last_snoc by done. change (10 =? 10) with true. cbv beta iota zeta. rewrite length_app. cbn [length].
  rewrite Nat.add_sub, take_app_length, selected_behind by done. destruct (is_selected_for_restore n flags); [|done].
  rewrite (proj2 (Z.ltb_ge _ _)) by (unfold reference_text; cbn [fst snd]; rewrite !length_app, Hl; unfold HASH_LENGTH; cbn [length str]; lia).
  unfold reference_text. cbn [fst snd]. do 3 f_equal.
  - change (Z.to_nat HASH_LENGTH) with 32%nat. by rewrite <- Hl, take_app_length.
  - change (Z.to_nat (HASH_LENGTH + 2)) with (32 + 2)%nat. rewrite <- Hl, <- drop_drop, drop_app_length. done.
Qed.

(** ** The names that are looked at *)

Lemma read_names_all keep : forall ep i, 0 <= i -> i + zlen (List.filter keep ep) <= MAX_FILES_CHECKED ->
  read_names keep i ep = List.filter keep ep.
Proof.
  induction ep as [|d ep IH]; intros i Hi Hn; [done|]. cbn [read_names List.filter] in *.
  destruct (i <? MAX_FILES_CHECKED) eqn:E; bool_to_prop.
  - destruct (keep d); [|by apply IH]. f_equal. apply IH; [lia|]. cbn [length] in Hn. lia.
  - unfold MAX_FILES_CHECKED in *. destruct (keep d); [cbn [length] in Hn; lia|]. destruct (List.filter keep ep); [done|cbn [length] in Hn; lia].
Qed.

Lemma elem_filter (f : list Z -> bool) l x : x ∈ List.filter f l <-> x ∈ l /\ f x = true.
Proof. by rewrite !list_elem_of_In, filter_In. Qed.

Lemma missing_none names others : missing_from names others = [] <-> forall n, n ∈ names -> n ∈ others.
Proof.
  unfold missing_from. split.
  - intros E n Hn. destruct (decide (n ∈ others)) as [|Hno]; [done|]. exfalso. apply (not_elem_of_nil n). rewrite <- E.
    apply elem_filter. split; [done|]. by rewrite bool_decide_false.
  - intros H. destruct (List.filter _ names) as [|n l] eqn:E; [done|]. exfalso.
    assert (n ∈ n :: l) as Hin by left. rewrite <- E in Hin. apply elem_filter in Hin as [Hn Hb].
    by rewrite bool_decide_true in Hb by auto.
Qed.

Section Checksums.
  Context {Dev : Type} {DO : DirOrder} `{Md5Spec}.
  Context (use_ui : bool) (get_menu_selection : list (list Z) -> Z).
  Abbreviation world := (world tree Dev).
  Abbreviation check := (nandroid_restore_md5_check (Dev := Dev) use_ui get_menu_selection).

(** ** The MD5 of a file *)

(** What [calculate_md5] is to return. *)
Definition md5_text (d : list Z) : list Z := to_md5_hash (MD5 d).
Definition md5_of (fs : tree) (s : list Z) : option (list Z) :=
  match resolve true fs s with
  | Found p => i ← fs !! p; Some (md5_text (default [] (node_data i)))
  | _ => None
  end.

Lemma md5_loop_spec n : forall (f : rfile) chunks (w : world), calm w -> 0 <= r_pos f -> (length (unread (w_fs w) f) < n)%nat ->
  views (md5_loop n f (fold_left MD5_Update chunks MD5_Init)) w (fun c => MD5_Final c = MD5 (concat chunks ++ unread (w_fs w) f)).
Proof.
  induction n as [|n IH]; intros f chunks w Hc Hp Hn; [lia|]. cbn [md5_loop]. set (all := unread (w_fs w) f) in *.
  eapply (views_bind _ _ _ (fun r => r = (take 1024 all, mkR (r_node f) (r_pos f + zlen (take 1024 all))))).
  { unfold views, fread, take_input. repeat wp_step. cbv zeta. rewrite (proj2 (Z.ltb_ge _ 0)) by apply Hc. repeat wp_step. by split. }
  intros r w1 -> H1. cbn beta iota. destruct (0 <? zlen (take 1024 all)) eqn:E; bool_to_prop.
  - change (MD5_Update ?c ?b) with (fold_left MD5_Update [b] c). rewrite <- fold_left_app.
    assert (unread (w_fs w1) (mkR (r_node f) (r_pos f + zlen (take 1024 all))) = drop 1024 all) as Eu.
    { rewrite (proj1 H1). unfold all, unread in *. cbn [r_node r_pos]. destruct (w_fs w !! r_node f) as [i|]; [|done].
      rewrite Z2Nat.inj_add, Nat2Z.id by lia. rewrite <- drop_drop, length_take. generalize (drop (Z.to_nat (r_pos f)) (default [] (node_data i))). intros l.
      destruct (decide (1024 <= length l)%nat); [by rewrite Nat.min_l by done|]. rewrite Nat.min_r by lia. by rewrite !drop_ge by lia. }
    eapply wp_mono; [apply IH; [by eapply calm_still|cbn; lia|]|done|].
    { rewrite Eu, length_drop. rewrite length_take in E. lia. }
    intros c w2 [Hc2 H2]. split; [|by eapply still_trans]. rewrite Hc2, Eu, concat_app. cbn [concat]. by rewrite app_nil_r, <- app_assoc, take_drop.
  - apply views_ret. rewrite MD5_spec. f_equal. rewrite length_take in E. destruct all; [by rewrite app_nil_r|cbn [length] in E; lia].
Qed.

Lemma calculate_md5_spec s (w : world) : calm w -> looks (calculate_md5 s) w (md5_of (w_fs w) s).
Proof.
  intros Hc. unfold calculate_md5, md5_of.
  assert (forall r : rfile + Z, match resolve true (w_fs w) s with
    | Found p => match w_fs w !! p with Some _ => inl (mkR p 0) | None => inr ENOENT end
    | Absent _ _ => inr ENOENT | Err e => inr e end = r -> looks (fopen_r s) w r) as Ho.
  { intros r <-. apply looks_syscall; [done|]. intros w' _. apply looks_ret. }
  destruct (resolve true (w_fs w) s) as [p|d c|e].
  - destruct (w_fs w !! p) as [i|] eqn:Ei; eapply looks_bind; [by apply Ho| |by apply Ho|]; intros w1 H1; [|apply looks_ret].
    eapply (views_bind _ _ _ (fun fs => fs = w_fs w1)); [by apply wp_get_fs|]. intros fs w2 -> H2.
    assert (unread (w_fs w2) (mkR p 0) = default [] (node_data i)) as Eu.
    { rewrite (proj1 H2), (proj1 H1). unfold unread. cbn [r_node r_pos]. rewrite Ei. apply drop_0. }
    eapply views_bind; [apply (md5_loop_spec _ _ [])|].
    + by eapply calm_still, calm_still.
    + done.
    + rewrite <- (proj1 H2). lia.
    + intros c w3 Hc3 H3. apply views_ret. rewrite Hc3, Eu. done.
  - eapply looks_bind; [by apply Ho|]. intros w1 H1. apply looks_ret.
  - eapply looks_bind; [by apply Ho|]. intros w1 H1. apply looks_ret.
Qed.

(** ** The references *)

Definition selected (flags : Z) (n : list Z) : bool := is_selected_for_restore n flags.
Definition selected_refs (flags : Z) (rs : list (list Z * list Z)) : list (list Z * list Z) := List.filter (fun r => selected flags r.2) rs.

Lemma read_references_spec flags n : forall rs i (f : rfile) (w : world), calm w -> in_front (w_fs w) f (reference_text <$> rs) -> Forall reference_ok rs ->
  (length rs < n)%nat -> 0 <= i -> i + zlen (selected_refs flags rs) <= MAX_FILES_CHECKED ->
  looks (read_references n flags i f) w (selected_refs flags rs).
Proof.
  induction n as [|n IH]; intros rs i f w Hc Hf Hok Hn Hi Hmax; [lia|]. cbn [read_references]. destruct rs as [|r rs].
  { destruct (no_line w f Hc Hf) as (f' & Hl). eapply looks_bind; [exact Hl|]. intros w1 H1. apply looks_ret. }
  apply Forall_cons in Hok as [Hr Hok]. rewrite fmap_cons in Hf. destruct (next_line w f _ _ Hc Hf) as (f' & Hl & Hf' & _).
  eapply looks_bind; [exact Hl|]. intros w1 H1. cbn beta iota. unfold selected_refs in *. cbn [List.filter] in *. cbn [length] in Hn. unfold selected at 1 in Hmax.
  unfold selected at 1. assert (looks (wlift (read_reference flags (reference_text r ++ [10]))) w1
    (if is_selected_for_restore r.2 flags then Some r else None)) as Hread by (apply looks_lift; by apply reference_read).
  assert (calm w1) as Hc1 by (by eapply calm_still).
  destruct (i <? MAX_FILES_CHECKED) eqn:Ei; bool_to_prop.
  - eapply looks_bind; [exact Hread|]. intros w2 H2.
    assert (calm w2) as Hc2 by (by eapply calm_still). assert (w_fs w2 = w_fs w) as E2 by (rewrite (proj1 H2); apply H1).
    destruct (is_selected_for_restore r.2 flags).
    + eapply looks_bind; [apply (IH rs (i + 1) f')|]; [done|by rewrite E2|done|lia|lia|cbn [length] in Hmax; lia|].
      intros w3 H3. apply looks_ret.
    + apply IH; [done|by rewrite E2|done|lia..].
  - unfold MAX_FILES_CHECKED in *. destruct (is_selected_for_restore r.2 flags); [cbn [length] in Hmax; lia|].
    destruct (List.filter _ rs); [apply looks_ret|cbn [length] in Hmax; lia].
Qed.

Lemma read_md5_file_spec flags path rs p i (w : world) : calm w -> resolve true (w_fs w) (md5path path) = Found p -> w_fs w !! p = Some i ->
  node_data i = Some (lines_text (reference_text <$> rs)) -> Forall reference_ok rs -> zlen (selected_refs flags rs) <= MAX_FILES_CHECKED ->
  looks (read_md5_file flags path) w (selected_refs flags rs).
Proof.
  intros Hc Hr Hi Hd Hok Hmax. unfold read_md5_file. eapply looks_bind; [by eapply looks_fopen|]. intros w1 H1. cbn beta iota.
  eapply (views_bind _ _ _ (fun fs => fs = w_fs w1)); [by apply wp_get_fs|]. intros fs w2 -> H2.
  assert (unread (w_fs w2) (mkR p 0) = lines_text (reference_text <$> rs)) as Eu.
  { rewrite (proj1 H2), (proj1 H1). unfold unread. cbn [r_node r_pos]. by rewrite Hi, Hd. }
  apply read_references_spec; [by eapply calm_still, calm_still| |done| |done|done].
  - split_and!; [done|done|]. apply Forall_fmap. eapply Forall_impl; [exact Hok|]. intros [h n] (_ & Hh & Hn & Hl). split; [|done].
    unfold reference_text. cbn [fst snd]. rewrite !Forall_app. split_and!; [| by repeat constructor |].
    + eapply Forall_impl; [exact Hh|]. unfold is_hex. cbn. lia.
    + eapply Forall_impl; [exact Hn|]. cbn. tauto.
  - rewrite <- (proj1 H2), Eu. clear. unfold lines_text. induction rs as [|r rs IH]; [cbn; lia|]. rewrite fmap_cons, fmap_cons. cbn [concat length].
    rewrite !length_app. cbn [length]. lia.
Qed.

(** ** Comparing *)

Lemma compare_file_spec path name refs : forall (w : world), calm w ->
  views (compare_file path name refs) w (fun r => is_Some r <-> forall h, (h, name) ∈ refs -> md5_of (w_fs w) (file_path path name) = Some h).
Proof.
  induction refs as [|[h f] refs IH]; intros w Hc; cbn [compare_file].
  { apply views_ret. split; [|by eexists]. intros _ h Hin. by apply not_elem_of_nil in Hin. }
  case_bool_decide as En.
  - subst f. eapply views_bind; [by apply calculate_md5_spec|]. intros r w1 -> H1.
    destruct (md5_of (w_fs w) (file_path path name)) as [h'|] eqn:Em.
    + case_bool_decide as Eh.
      * subst h'. eapply views_bind; [apply IH; by eapply calm_still|]. intros r w2 Hr H2. apply views_ret. rewrite (proj1 H1), Em in Hr.
        rewrite fmap_is_Some, Hr. split; [|intros Ha h' Hin; apply Ha; by right]. intros Ha h' Hin. apply elem_of_cons in Hin as [E|Hin]; [congruence|by apply Ha].
      * apply views_ret. split; [by intros [? ?]|]. intros Ha. exfalso. apply Eh. specialize (Ha h ltac:(left)). congruence.
    + apply views_ret. split; [by intros [? ?]|]. intros Ha. by specialize (Ha h ltac:(left)).
  - eapply wp_mono; [by apply IH|done|]. intros r w' [Hr H1]. split; [|done]. rewrite Hr. split; intros Ha h' Hin.
    + apply elem_of_cons in Hin as [E|Hin]; [congruence|by apply Ha].
    + apply Ha. by right.
Qed.

Lemma compare_files_spec flags path refs filenames : forall (w : world), calm w -> Forall (fun n => selected flags n = true) filenames ->
  views (compare_files flags path filenames refs) w (fun r => is_Some r <->
    forall n h, n ∈ filenames -> (h, n) ∈ refs -> md5_of (w_fs w) (file_path path n) = Some h).
Proof.
  induction filenames as [|name filenames IH]; intros w Hc Hs; cbn [compare_files].
  { apply views_ret. split; [|by eexists]. intros _ n h Hin. by apply not_elem_of_nil in Hin. }
  apply Forall_cons in Hs as [Hn Hs]. unfold selected in Hn. rewrite Hn. cbn [negb].
  eapply views_bind; [by apply compare_file_spec|]. intros r w1 Hr H1. cbn beta in Hr. destruct r as [m|].
  - eapply views_bind; [apply IH; [by eapply calm_still|done]|]. intros r w2 Hr2 H2. apply views_ret. rewrite (proj1 H1) in Hr2.
    rewrite fmap_is_Some, Hr2. split.
    + intros Ha n h Hin Hh. apply elem_of_cons in Hin as [->|Hin]; [by apply Hr|by apply Ha].
    + intros Ha n h Hin Hh. apply Ha; [by right|done].
  - apply views_ret. split; [by intros [? ?]|]. intros Ha. apply Hr. intros h Hh. apply Ha; [left|done].
Qed.

(** ** The check *)

(** Every reference to a selected file has its file, every such file has a
    reference, and the hashes are right. *)
Record verified (fs : tree) (path : list Z) (dir : Posix.path) (flags : Z) (rs : list (list Z * list Z)) : Prop := {
  ve_some : exists n, n ∈ children fs dir /\ selected flags n = true;
  ve_there r : r ∈ rs -> selected flags r.2 = true -> r.2 ∈ children fs dir;
  ve_known n : n ∈ children fs dir -> selected flags n = true -> exists h, (h, n) ∈ rs;
  ve_same r : r ∈ rs -> selected flags r.2 = true -> md5_of fs (file_path path r.2) = Some r.1
}.

Lemma elem_selected flags rs r : r ∈ selected_refs flags rs <-> r ∈ rs /\ selected flags r.2 = true.
Proof. unfold selected_refs. by rewrite !list_elem_of_In, filter_In. Qed.

Lemma dots_not_selected flags : selected flags DOT = false /\ selected flags DOTDOT = false.
Proof. unfold selected, is_selected_for_restore. cbn. by rewrite !andb_false_r. Qed.

Lemma go_on_alone missing before after : use_ui = false -> go_on use_ui get_menu_selection missing before after = true <-> missing = [].
Proof. intros E. unfold go_on. rewrite E. case_bool_decide; by split. Qed.

Lemma filter_perm {A} (f : A -> bool) l l' : l ≡ₚ l' -> List.filter f l ≡ₚ List.filter f l'.
Proof.
  induction 1 as [|x l l' _ IH|x y l|l l1 l2 _ IH1 _ IH2]; cbn [List.filter]; [done| | |by etransitivity].
  - destruct (f x); [by constructor|done].
  - destruct (f x), (f y); [apply Permutation_swap|done..].
Qed.

(** What the steps of the check look at. *)
Lemma verified_steps fs path dir flags rs names : (forall n, n ∈ names <-> n ∈ children fs dir /\ selected flags n = true) ->
  verified fs path dir flags rs <-> names <> [] /\ missing_from (snd <$> selected_refs flags rs) names = [] /\
    missing_from (List.filter (selected flags) names) (snd <$> selected_refs flags rs) = [] /\
    forall n h, n ∈ names -> (h, n) ∈ selected_refs flags rs -> md5_of fs (file_path path n) = Some h.
Proof.
  intros Hnames. rewrite !missing_none.
  assert (forall n, n ∈ snd <$> selected_refs flags rs <-> exists h, (h, n) ∈ rs /\ selected flags n = true) as Hrefs.
  { intros n. rewrite list_elem_of_fmap. split.
    - intros ([h n'] & -> & Hr). apply elem_selected in Hr. by exists h.
    - intros (h & Hr). exists (h, n). by rewrite elem_selected. }
  split.
  - intros [(n & Hn) V2 V3 V4]. split_and!.
    + intros ->. apply Hnames in Hn. by apply not_elem_of_nil in Hn.
    + intros m Hm. apply Hrefs in Hm as (h & Hh & Hs). apply Hnames. split; [by apply (V2 (h, m))|done].
    + intros m Hm. apply elem_filter in Hm as [Hm Hs]. apply Hnames in Hm as [Hm _]. destruct (V3 m Hm Hs) as (h & Hh). apply Hrefs. by exists h.
    + intros m h _ Hin. apply elem_selected in Hin as [Hin Hs]. by apply (V4 (h, m)).
  - intros (N1 & N2 & N3 & N4). split.
    + destruct names as [|n l]; [done|]. exists n. apply Hnames. left.
    + intros [h n] Hr Hs. apply Hnames, N2, Hrefs. by exists h.
    + intros n Hn Hs. specialize (N3 n). rewrite elem_filter, Hnames, Hrefs in N3. destruct N3 as (h & Hh & _); [done|]. by exists h.
    + intros [h n] Hr Hs. cbn [snd] in Hs. apply N4; [|by apply elem_selected]. apply N2, Hrefs. by exists h.
Qed.

Lemma md5_check_spec bp path dir flags rs p i (w : world) : calm w -> use_ui = false -> empty_nandroid_bitmask flags = false ->
  backup_dir bp = Done path -> resolve true (w_fs w) path = Found dir -> isdir (w_fs w) dir ->
  resolve true (w_fs w) (md5path path) = Found p -> w_fs w !! p = Some i -> node_data i = Some (lines_text (reference_text <$> rs)) -> Forall reference_ok rs ->
  zlen (List.filter (selected flags) (children (w_fs w) dir)) <= MAX_FILES_CHECKED -> zlen (selected_refs flags rs) <= MAX_FILES_CHECKED ->
  views (check bp flags) w (fun r => (r = 0 \/ r = -1) /\ (r = 0 <-> verified (w_fs w) path dir flags rs)).
Proof.
  intros Hc Hui He Hbp Hdir Hisd Hp Hi Hd Hok Hmax Hmaxr. unfold nandroid_restore_md5_check. rewrite He.
  eapply views_bind; [by apply looks_lift|]. intros x w1 -> H1. pose proof (proj1 H1) as E1.
  eapply views_bind; [apply (looks_opendir _ _ dir); [by eapply calm_still|by rewrite E1|by rewrite E1]|]. intros x w2 -> H2. cbn beta iota zeta. rewrite E1.
  pose proof (proj1 H2) as E2. rewrite E1 in E2. set (cs := children (w_fs w) dir) in *.
  assert (read_names (selected flags) 0 (DOT :: DOTDOT :: dir_order cs) = List.filter (selected flags) (dir_order cs)) as En.
  { destruct (dots_not_selected flags) as [D1 D2]. rewrite read_names_all; [cbn [List.filter]; by rewrite D1, D2|done|].
    cbn [List.filter]. rewrite D1, D2. rewrite (filter_perm _ _ _ (dir_order_perm cs)). lia. }
  change (fun n : list Z => is_selected_for_restore n flags) with (selected flags). rewrite En. set (names := List.filter (selected flags) (dir_order cs)).
  assert (forall n, n ∈ names <-> n ∈ cs /\ selected flags n = true) as Hnames.
  { intros n. unfold names. rewrite elem_filter. by rewrite (dir_order_perm cs). }
  pose proof (verified_steps (w_fs w) path dir flags rs names Hnames) as V.
  assert (~ verified (w_fs w) path dir flags rs -> forall w', still w w' ->
    views (wret (-1)) w' (fun r => (r = 0 \/ r = -1) /\ (r = 0 <-> verified (w_fs w) path dir flags rs))) as Hno.
  { intros Hv w' _. apply views_ret. split; [by right|]. by split. }
  assert (still w w2) as H02 by (by eapply still_trans).
  destruct (zlen names =? 0) eqn:E0; bool_to_prop.
  { apply Hno; [|done]. rewrite V. intros [N _]. by destruct names. }
  eapply views_bind; [eapply (read_md5_file_spec flags path rs p i); [by eapply calm_still|by rewrite E2..|done|done|done]|].
  intros x w3 -> H3. pose proof (proj1 H3) as E3. rewrite E2 in E3. cbn beta iota zeta. assert (still w w3) as H03 by (by eapply still_trans).
  destruct (go_on _ _ (missing_from _ _) missing_before _) eqn:G1; cbn [negb].
  2: { apply Hno; [|done]. apply not_true_iff_false in G1. rewrite go_on_alone in G1 by done. tauto. }
  destruct (go_on _ _ (missing_from _ _) no_reference_before _) eqn:G2; cbn [negb].
  2: { apply Hno; [|done]. apply not_true_iff_false in G2. rewrite go_on_alone in G2 by done. tauto. }
  rewrite go_on_alone in G1, G2 by done.
  eapply views_bind; [apply compare_files_spec; [by eapply calm_still|]|].
  { apply Forall_forall. intros n Hn. by apply Hnames in Hn as [_ Hn]. }
  intros r w4 Hr H4. apply views_ret. split; [destruct r; auto|].
  transitivity (is_Some r); [destruct r; split; [by eexists|done|done|by intros [? ?]]|]. rewrite Hr, E3, V.
  split; [|tauto]. intros Ha. split_and!; [by intros ->; cbn in E0|done..].
Qed.

(** ** Backups *)

Definition MD5_NAME : name := str "nandroid.md5".

(** A directory of files under its path. *)
Record backup (fs : tree) (path : list Z) (dir : Posix.path) : Prop := {
  bk_path : components path = dir /\ dir <> [] /\ Forall good dir /\ zlen path <= 3800;
  bk_dir : dirs_to fs dir;
  bk_child n : n ∈ children fs dir -> good n /\ Forall (fun c => c <> 0 /\ c <> 10) n /\ zlen n <= 255 /\
    exists i d, fs !! (dir ++ [n]) = Some i /\ i_kind i = KFile d
}.

Definition contents (fs : tree) (dir : Posix.path) (n : name) : list Z := default [] (fs !! (dir ++ [n]) ≫= node_data).

Lemma components_names path dir : components path = dir -> Forall good dir -> names path = dir.
Proof.
  unfold components, names. intros <- Hg. destruct (last (pieces path)) as [[|c l]|]; [|by rewrite app_nil_r..].
  apply Forall_app in Hg as [_ Hg]. apply Forall_inv in Hg as (_ & Hg & _). done.
Qed.

Section Backup.
  Context (path : list Z) (dir : Posix.path).
  Abbreviation bk fs := (backup fs path dir).

Lemma md5_name_good : good MD5_NAME.
Proof. by_decide. Qed.

Lemma backup_resolves fs : bk fs -> resolve true fs path = Found dir.
Proof.
  intros [(Hc & Hne & Hg & Hl) Hd _]. destruct (exists_last Hne) as (d & c & E). pose proof (dirs_to_self _ _ Hd) as (i & Hi & Di).
  rewrite E in *. rewrite (resolve_plain _ _ _ d c); [|unfold PATH_MAX; lia|done|done|].
  - rewrite Hi. unfold is_link, is_dir in *. by destruct (i_kind i).
  - intros k Hk. specialize (Hd k). rewrite take_app_le in Hd by done. apply Hd. rewrite length_app. lia.
Qed.

(** Where the path of a file in the directory leads. *)
Lemma resolve_in fs n : bk fs -> good n -> zlen n <= 255 -> (forall i, fs !! (dir ++ [n]) = Some i -> is_link i = false) ->
  resolve true fs (file_path path n) = match fs !! (dir ++ [n]) with Some _ => Found (dir ++ [n]) | None => Absent dir n end.
Proof.
  intros [(Hc & Hne & Hg & Hl) Hd _] Hn Hln Hlk. unfold file_path.
  rewrite (resolve_plain _ _ _ dir n).
  - destruct (fs !! (dir ++ [n])) as [i|] eqn:Ei; [|done]. by rewrite (Hlk i).
  - rewrite length_app. cbn [length]. unfold PATH_MAX. lia.
  - rewrite components_snoc by done. by rewrite (components_names path dir).
  - apply Forall_app. split; [done|]. by constructor.
  - done.
Qed.

Lemma no_md5_link fs : bk fs -> forall i, fs !! (dir ++ [MD5_NAME]) = Some i -> is_dir i = false /\ is_link i = false /\ exists d, i_kind i = KFile d.
Proof.
  intros Hb i Hi. destruct (bk_child _ _ _ Hb MD5_NAME) as (_ & _ & _ & j & d & Hj & Kj); [apply elem_of_children; by exists i|].
  assert (i = j) as -> by congruence. unfold is_dir, is_link. rewrite Kj. eauto.
Qed.

Lemma md5_of_child fs n : bk fs -> n ∈ children fs dir -> md5_of fs (file_path path n) = Some (md5_text (contents fs dir n)).
Proof.
  intros Hb Hn. destruct (bk_child _ _ _ Hb n Hn) as (Hg & _ & Hl & i & d & Hi & Ki). unfold md5_of, contents.
  rewrite resolve_in, Hi; [cbn; by rewrite Hi|done|done|done|]. intros j Hj. rewrite Hi in Hj. injection Hj as <-. unfold is_link. by rewrite Ki.
Qed.

Lemma md5path_path fs : bk fs -> md5path path = file_path path MD5_NAME.
Proof.
  intros [(_ & _ & _ & Hl) _ _]. unfold md5path, snprintf_path. apply take_ge. unfold file_path, PATH_MAX. rewrite length_app.
  change (length (SLASH :: MD5_NAME)) with 13%nat. lia.
Qed.

(** ** The directory while nandroid.md5 is written *)

(** [F0] with some file nandroid.md5. *)
Definition with_md5 (F0 : tree) (d : list Z) (F : tree) : Prop :=
  exists j, i_kind j = KFile d /\ F = <[dir ++ [MD5_NAME] := bare j]> (bare <$> F0).

Lemma children_with F0 d F n : with_md5 F0 d F -> n ∈ children F dir <-> n = MD5_NAME \/ n ∈ children F0 dir.
Proof.
  intros (j & _ & ->). rewrite !elem_of_children. destruct (decide (n = MD5_NAME)) as [->|Hn].
  - rewrite lookup_insert_eq. split; [by left|by eexists].
  - rewrite lookup_insert_ne by (intros E; apply app_inv_head in E; congruence). rewrite lookup_fmap, fmap_is_Some. tauto.
Qed.

Lemma contents_with F0 d F n : with_md5 F0 d F -> n <> MD5_NAME -> contents F dir n = contents F0 dir n.
Proof.
  intros (j & _ & ->) Hn. unfold contents. rewrite lookup_insert_ne by (intros E; apply app_inv_head in E; congruence).
  rewrite lookup_fmap. by destruct (F0 !! _).
Qed.

Lemma backup_with F0 d F : bk F0 -> with_md5 F0 d F -> bk F.
Proof.
  intros Hb Hw. destruct Hb as [Hp Hd Hch]. pose proof Hw as (j & Kj & EF). split; [done| |].
  - intros k Hk. destruct (Hd k Hk) as (i & Hi & Di). exists (bare i). split; [|done]. rewrite EF, lookup_insert_ne.
    + by rewrite lookup_fmap, Hi.
    + intros E. apply (f_equal length) in E. rewrite length_app, length_take in E. cbn [length] in E. lia.
  - intros n Hn. apply (children_with F0 d F) in Hn; [|done]. destruct (decide (n = MD5_NAME)) as [->|Hne].
    + split; [by_decide|]. split; [by_decide|]. split; [by vm_compute|]. exists (bare j), d. by rewrite EF, lookup_insert_eq.
    + destruct Hn as [?|Hn]; [done|]. destruct (Hch n Hn) as (H1 & H2 & H3 & i & d' & Hi & Ki). split_and!; [done..|].
      exists (bare i), d'. split; [|done]. rewrite EF, lookup_insert_ne by (intros E; apply app_inv_head in E; congruence). by rewrite lookup_fmap, Hi.
Qed.

Lemma children_bare (F : tree) p n : n ∈ children (bare <$> F) p <-> n ∈ children F p.
Proof. by rewrite !elem_of_children, lookup_fmap, fmap_is_Some. Qed.

Lemma contents_bare (F : tree) n : contents (bare <$> F) dir n = contents F dir n.
Proof. unfold contents. rewrite lookup_fmap. by destruct (F !! _). Qed.

Lemma backup_bare (F : tree) : bk (bare <$> F) <-> bk F.
Proof.
  split.
  - intros [Hp Hd Hch]. split; [done|by apply dirs_bare|]. intros n Hn. destruct (Hch n) as (H1 & H2 & H3 & i & d & Hi & Ki); [by apply children_bare|].
    split_and!; [done..|]. apply bare_lookup in Hi as (j & Hj & ->). by exists j, d.
  - intros [Hp Hd Hch]. split; [done|by apply dirs_bare|]. intros n Hn. rewrite children_bare in Hn. destruct (Hch n Hn) as (H1 & H2 & H3 & i & d & Hi & Ki).
    split_and!; [done..|]. exists (bare i), d. by rewrite lookup_fmap, Hi.
Qed.

End Backup.

(** ** Writing nandroid.md5 *)

Section Generate.
  Context (path : list Z) (dir : Posix.path) (F0 : tree).
  Context (Hb : backup F0 path dir).
  Abbreviation p := (dir ++ [MD5_NAME]).
  Abbreviation now := (with_md5 dir F0).

Definition reference_of (n : name) : list Z * list Z := (md5_text (contents F0 dir n), n).

Lemma reference_of_ok n : n ∈ children F0 dir -> reference_ok (reference_of n).
Proof.
  intros Hn. destruct (bk_child _ _ _ Hb n Hn) as (_ & Hc & Hl & _). unfold reference_of, md5_text, to_md5_hash.
  assert (length (concat (hex_byte <$> MD5 (contents F0 dir n))) = 32%nat) as E by (by rewrite hex_length, MD5_length).
  split_and!; cbn [fst snd].
  - done.
  - apply hex_digits, MD5_bytes.
  - done.
  - unfold reference_text, PATH_MAX. cbn [fst snd]. rewrite !length_app, E. cbn [length str]. lia.
Qed.

Lemma md5_line_text n : n ∈ children F0 dir -> md5_line (reference_of n).1 n = reference_text (reference_of n) ++ [10].
Proof.
  intros Hn. destruct (reference_of_ok n Hn) as (_ & _ & _ & Hl). unfold md5_line, snprintf_path, reference_text in *. cbn [snd] in *.
  rewrite <- !app_assoc. apply take_ge. rewrite !length_app in *. unfold PATH_MAX in *. cbn [length] in *. lia.
Qed.

Lemma md5_of_bare (fs : tree) s : md5_of (bare <$> fs) s = md5_of fs s.
Proof. unfold md5_of. rewrite resolve_bare. destruct (resolve true fs s); [|done..]. rewrite lookup_fmap. by destruct (fs !! _). Qed.

(** The files have the checksums they had. *)
Lemma calculate_now d n (w : world) : calm w -> now d (bare <$> w_fs w) -> n ∈ children F0 dir -> n <> MD5_NAME ->
  looks (calculate_md5 (file_path path n)) w (Some (reference_of n).1).
Proof.
  intros Hc Hw Hn Hne. assert (Some (reference_of n).1 = md5_of (w_fs w) (file_path path n)) as ->; [|by apply calculate_md5_spec].
  rewrite <- md5_of_bare. rewrite (md5_of_child path dir); [|by eapply backup_with|apply (children_with dir F0 d); [done|by right]].
  by rewrite (contents_with dir F0 d).
Qed.

Lemma now_rewritten d F F' : now d F -> rewritten p KFile F F' -> exists d', now d' F'.
Proof. intros (j & _ & ->) (i & j' & d' & _ & Kj & ->). exists d', j'. split; [done|]. by rewrite insert_insert_eq. Qed.

Lemma write_references_spec names : forall t fd (w : world), roomy w -> holds p KFile [] fd t (bare <$> w_fs w) -> (exists d, now d (bare <$> w_fs w)) ->
  Forall (fun n => n ∈ children F0 dir /\ n <> MD5_NAME) names ->
  makes (write_references path names fd) w (fun fd' fs =>
    holds p KFile [] fd' (t ++ lines_text (reference_text <$> (reference_of <$> names))) (bare <$> fs) /\ exists d, now d (bare <$> fs)).
Proof.
  induction names as [|n names IH]; intros t fd w Hw Hh (d & Hn) Hall; cbn [write_references].
  { apply makes_ret. cbn. rewrite app_nil_r. split; [done|]. by exists d. }
  apply Forall_cons in Hall as [[Hin Hne] Hall].
  eapply makes_bind; [apply makes_views; by apply (calculate_now d); [apply roomy_calm|..]|]. intros r w1 [-> E1] Ha1. cbn beta iota.
  assert (roomy w1) as Hw1 by (by eapply roomy_same).
  eapply makes_bind; [apply (fwrite_spec p KFile []); [done|by left|by rewrite E1]|]. intros [ok fd'] w2 (_ & Hh2 & Hrw) Ha2. cbn beta iota. cbn [snd] in Hh2.
  rewrite E1 in Hrw. destruct (now_rewritten d _ _ Hn Hrw) as (d2 & Hn2).
  eapply makes_mono; [apply IH; [by eapply roomy_same|exact Hh2|by exists d2|done]|]. intros fd2 fs [H1 H2]. split; [|done].
  rewrite md5_line_text in H1 by done. unfold lines_text in *. rewrite !fmap_cons. cbn [concat]. by rewrite <- !app_assoc in *.
Qed.

(** [fopen] for writing a file that is not there, or is one. *)
Lemma open_md5 (w : world) : roomy w -> bare <$> w_fs w = bare <$> F0 ->
  makes (fopen_w (md5path path)) w (fun r fs => exists fd, r = inl fd /\ holds p KFile [] fd [] (bare <$> fs) /\ now [] (bare <$> fs)).
Proof.
  intros Hw E. assert (backup (w_fs w) path dir) as Hb' by (apply backup_bare; rewrite E; by apply backup_bare).
  rewrite (md5path_path _ _ _ Hb). unfold fopen_w.
  eapply (makes_bind _ _ _ (fun r fs => r = inl p /\ exists j, i_kind j = KFile [] /\ bare <$> fs = <[p := bare j]> (bare <$> F0))).
  - apply wp_syscall; [by intros []; apply roomy_calm|]. rewrite (resolve_in path dir); [|done|by_decide|by vm_compute|by intros i Hi; apply (no_md5_link path dir (w_fs w))].
    destruct (w_fs w !! p) as [i|] eqn:Ei.
    + rewrite Ei. destruct (no_md5_link path dir _ Hb' i Ei) as (_ & _ & d & ->). apply wp_bind, wp_set_fs; [done|]. apply wp_ret. split; [|done]. split; [done|].
      eexists. split; [|cbn; by rewrite fmap_insert, E]. done.
    + apply wp_bind, wp_set_fs; [done|]. apply wp_ret. split; [|done]. split; [done|]. eexists. split; [|cbn; by rewrite fmap_insert, E]. done.
  - intros r w1 (-> & j & Kj & E1) Ha1. apply makes_ret. eexists. split; [done|]. split; [|by exists j].
    split; [done|]. exists (bare j), []. rewrite E1, lookup_insert_eq. split_and!; [done|by cbn; rewrite Kj|done|done].
Qed.

End Generate.

Lemma selected_in_backup flags n : selected flags n = true -> in_backup n = true.
Proof.
  intros Hs. destruct (in_backup n) eqn:E; [done|exfalso]. unfold in_backup in E.
  assert (n = DOT \/ n = DOTDOT \/ n = str "recovery.log" \/ n = MD5_NAME) as Hn.
  { repeat (case_bool_decide; [by subst; tauto|]). done. }
  revert Hs. apply not_true_iff_false. unfold selected, is_selected_for_restore.
  destruct Hn as [-> | [-> | [-> | ->]]]; cbn; by rewrite !andb_false_r.
Qed.

(** The files of the backup, before and later, when nandroid.md5 is as it was
    written and the same files are there. *)
Record kept_files (F0 fs : tree) (path : list Z) (dir : Posix.path) (d : list Z) : Prop := {
  kf_backup : backup fs path dir;
  kf_md5 : contents fs dir MD5_NAME = d;
  kf_names n : n ∈ children fs dir <-> n = MD5_NAME \/ n ∈ children F0 dir
}.

Lemma backup_count F0 fs path dir d names flags : kept_files F0 fs path dir d -> names ≡ₚ List.filter in_backup (children F0 dir) ->
  zlen (List.filter (selected flags) (children fs dir)) <= zlen names.
Proof.
  intros K Hp. apply inj_le. rewrite Hp. apply NoDup_incl_length.
  - apply List.NoDup_filter, NoDup_ListNoDup, children_nodup.
  - intros n Hn. apply list_elem_of_In, elem_filter in Hn as [Hn Hs]. apply list_elem_of_In, elem_filter. apply (kf_names _ _ _ _ _ K) in Hn.
    split; [|by eapply selected_in_backup]. destruct Hn as [->|Hn]; [|done]. apply selected_in_backup in Hs. by vm_compute in Hs.
Qed.

Lemma md5_text_inj d d' : md5_text d = md5_text d' <-> MD5 d = MD5 d'.
Proof. unfold md5_text, to_md5_hash. split; [|by intros ->]. apply hex_inj; apply MD5_bytes. Qed.

(** The check of a backup that may have been changed. *)
Lemma check_kept bp path dir F0 names flags (w : world) : calm w -> use_ui = false -> empty_nandroid_bitmask flags = false ->
  backup_dir bp = Done path -> backup F0 path dir -> names ≡ₚ List.filter in_backup (children F0 dir) -> zlen names <= MAX_FILES_CHECKED ->
  kept_files F0 (w_fs w) path dir (lines_text (reference_text <$> (reference_of dir F0 <$> names))) ->
  views (check bp flags) w (fun r => (r = 0 \/ r = -1) /\
    (r = 0 <-> (exists n, n ∈ children F0 dir /\ selected flags n = true) /\
               forall n, n ∈ children F0 dir -> selected flags n = true -> MD5 (contents (w_fs w) dir n) = MD5 (contents F0 dir n))).
Proof.
  intros Hc Hui He Hbp Hb Hp Hmax K. pose proof (kf_backup _ _ _ _ _ K) as Hbk. set (rs := reference_of dir F0 <$> names) in *.
  assert (forall n, n ∈ names <-> n ∈ children F0 dir /\ in_backup n = true) as Hnames by (intros n; by rewrite Hp, elem_filter).
  destruct (bk_child _ _ _ Hbk MD5_NAME) as (_ & _ & _ & i & d & Hi & Ki); [apply (kf_names _ _ _ _ _ K); by left|].
  assert (node_data i = Some (lines_text (reference_text <$> rs))) as Hd.
  { pose proof (kf_md5 _ _ _ _ _ K) as E. unfold contents in E. rewrite Hi in E. cbn in E. unfold node_data in *. rewrite Ki in *. cbn in E. by f_equal. }
  eapply wp_mono; [apply (md5_check_spec bp path dir flags rs (dir ++ [MD5_NAME]) i); try done|done|].
  - by apply (backup_resolves path dir).
  - by apply dirs_to_self, (bk_dir _ _ _ Hbk).
  - rewrite (md5path_path _ _ _ Hbk), (resolve_in path dir), Hi; [done|done|by_decide|by vm_compute|by intros j Hj; apply (no_md5_link path dir (w_fs w))].
  - apply Forall_fmap, Forall_forall. intros n Hn. apply (reference_of_ok path); [done|]. by apply Hnames.
  - etransitivity; [by eapply backup_count|done].
  - etransitivity; [|exact Hmax]. apply inj_le. rewrite <- (length_fmap (reference_of dir F0) names). apply filter_length_le.
  - cbn beta. intros r w' [[Hr1 Hr2] H1]. split; [|done]. split; [done|]. rewrite Hr2.
    assert (forall n, selected flags n = true -> n ∈ children (w_fs w) dir <-> n ∈ children F0 dir) as Hch.
    { intros n Hs. rewrite (kf_names _ _ _ _ _ K). split; [|by right]. intros [->|?]; [|done]. apply selected_in_backup in Hs. by vm_compute in Hs. }
    assert (forall n h, (h, n) ∈ rs <-> h = md5_text (contents F0 dir n) /\ n ∈ names) as Hrs.
    { intros n h. unfold rs. rewrite list_elem_of_fmap. split; [by intros (m & [= -> ->] & Hm)|intros [-> Hm]; by exists n]. }
    split.
    + intros [(n & Hn & Hs) _ V3 V4]. split; [exists n; split; [by apply Hch|done]|]. intros m Hm Hms. destruct (V3 m) as (h & Hh); [by apply Hch|done|].
      specialize (V4 _ Hh Hms). cbn [fst snd] in V4. rewrite (md5_of_child path dir) in V4 by (done || by apply Hch). apply Hrs in Hh as [-> _].
      injection V4 as V4. by apply md5_text_inj.
    + intros [(n & Hn & Hs) Ha]. split.
      * exists n. split; [by apply Hch|done].
      * intros [h m] Hr Hs'. apply Hrs in Hr as [_ Hm]. apply Hch; [done|]. by apply Hnames.
      * intros m Hm Hs'. apply Hch in Hm; [|done]. eexists. apply Hrs. split; [done|]. apply Hnames. split; [done|]. by eapply selected_in_backup.
      * intros [h m] Hr Hs'. apply Hrs in Hr as [-> Hm]. cbn [fst snd] in *. apply Hnames in Hm as [Hm _].
        rewrite (md5_of_child path dir) by (done || by apply Hch). f_equal. apply md5_text_inj. by apply Ha.
Qed.

(** [C14] A backup's checksums hold exactly as long as its files do: in a run in
    which every write is done, [nandroid_backup_md5_gen] of a directory of 1 to 20
    files returns 0, and from then on, on any disk where nandroid.md5 and the
    names of the files are the same, [nandroid_restore_md5_check] without a user
    to ask returns 0 or -1, and 0 exactly when a file is selected and every
    selected file has the MD5 it had. *)
Theorem md5_check_after_gen bp path dir (w : world) : roomy w -> use_ui = false -> backup_dir bp = Done path -> backup (w_fs w) path dir ->
  0 < zlen (List.filter in_backup (children (w_fs w) dir)) <= MAX_FILES_CHECKED ->
  makes (nandroid_backup_md5_gen bp) w (fun r fs => r = 0 /\ forall flags (w2 : world), calm w2 -> empty_nandroid_bitmask flags = false ->
    kept_files (w_fs w) (w_fs w2) path dir (contents fs dir MD5_NAME) ->
    views (check bp flags) w2 (fun c => (c = 0 \/ c = -1) /\
      (c = 0 <-> (exists n, n ∈ children (w_fs w) dir /\ selected flags n = true) /\
                 forall n, n ∈ children (w_fs w) dir -> selected flags n = true -> MD5 (contents (w_fs w2) dir n) = MD5 (contents (w_fs w) dir n)))).
Proof.
  intros Hw Hui Hbp Hb Hcount. unfold nandroid_backup_md5_gen.
  eapply makes_bind; [by apply makes_lift|]. intros x w1 [-> E1] Ha1. assert (roomy w1) as Hw1 by (by eapply roomy_same).
  eapply makes_bind; [apply makes_views, (looks_opendir _ _ dir); [by apply roomy_calm|rewrite E1; by apply (backup_resolves path dir)|
    rewrite E1; by apply dirs_to_self, (bk_dir _ _ _ Hb)]|].
  intros x w2 [-> E2] Ha2. assert (roomy w2) as Hw2 by (by eapply roomy_same). cbn beta iota zeta. rewrite E1 in *.
  set (cs := children (w_fs w) dir) in *. set (names := read_names in_backup 0 (DOT :: DOTDOT :: dir_order cs)).
  assert (names = List.filter in_backup (dir_order cs)) as En.
  { unfold names. rewrite read_names_all; [done|done|]. cbn [List.filter]. change (in_backup DOT) with false. change (in_backup DOTDOT) with false. cbn iota.
    rewrite (filter_perm _ _ _ (dir_order_perm cs)). lia. }
  assert (names ≡ₚ List.filter in_backup cs) as Hp by (rewrite En; apply filter_perm, dir_order_perm).
  assert (zlen names = zlen (List.filter in_backup cs)) as El by (by rewrite Hp). rewrite (proj2 (Z.eqb_neq _ _)) by lia.
  eapply makes_bind; [apply (open_md5 path dir (w_fs w) Hb); [done|by rewrite E2]|]. intros x w3 (fd & -> & Hh & Hn) Ha3. cbn beta iota.
  assert (roomy w3) as Hw3 by (by eapply roomy_same).
  eapply makes_bind; [apply (write_references_spec path dir (w_fs w) Hb names [] fd); [done|done|by eexists|]|].
  { apply Forall_forall. intros n. rewrite Hp, elem_filter. intros [H1 H2]. split; [done|]. by intros ->. }
  intros fd' w4 [Hh4 (d4 & Hn4)] Ha4. assert (roomy w4) as Hw4 by (by eapply roomy_same).
  eapply makes_bind; [apply (fclose_spec (dir ++ [MD5_NAME]) KFile []); [done|by left|exact Hh4]|]. intros x w5 (j & Kj & E5) Ha5. apply makes_ret.
  split; [done|]. intros flags w6 Hc6 He K. apply (check_kept _ path _ _ names); try done; [lia|].
  assert (contents (w_fs w5) dir MD5_NAME = lines_text (reference_text <$> (reference_of dir (w_fs w) <$> names))) as <-; [|done].
  rewrite <- (contents_bare dir). unfold contents. rewrite E5, lookup_insert_eq. cbn. unfold node_data. cbn. by rewrite Kj, over_nil.
Qed.

End Checksums.

(** ** Some backups *)

(** A digest that is good enough to tell short files apart. *)
Definition demo_md5 (d : list Z) : list Z := take 16 (((fun b => b mod 256) <$> d) ++ replicate 16 0).

#[export] Instance demo_Md5 : Md5 := {| MD5_CTX := list Z; MD5_Init := []; MD5_Update c d := c ++ d; MD5_Final := demo_md5 |}.

#[export] Instance demo_Md5Spec : Md5Spec.
Proof.
  refine {| MD5 := demo_md5 |}.
  - intros chunks. cbn. f_equal. assert (forall c, fold_left (fun c d => c ++ d) chunks c = c ++ concat chunks) as E; [|by rewrite E].
    induction chunks as [|d chunks IH]; intros c; cbn; [by rewrite app_nil_r|]. by rewrite IH, app_assoc.
  - intros d. unfold demo_md5. rewrite length_take, length_app, length_replicate. lia.
  - intros d. unfold demo_md5. apply Forall_take, Forall_app. split.
    + apply Forall_fmap, Forall_forall. intros b _. cbn. apply Z.mod_pos_bound. lia.
    + apply Forall_replicate. lia.
Defined.

Definition demo_file (d : string) : inode := mkInode (KFile (str d)) 420 0 0 None.
Definition demo_backup (files : list (name * string)) : tree :=
  foldr (fun '(n, d) fs => <[[str "b"; n] := demo_file d]> fs)
    (<[[] := mkInode KDir 493 0 0 None]> {[ [str "b"] := mkInode KDir 511 0 0 None ]}) files.
Definition demo_backup_world (files : list (name * string)) : Run.world tree unit :=
  mkWorld (demo_backup files) tt (fun _ => 4096) 0 [].

(** Making the checksums, a change of a file, and the check. *)
Definition gen_change_check (n : name) (d : string) (flags : Z) : Run.W tree unit (Z * Z) :=
  let! r := @nandroid_backup_md5_gen unit tree_order demo_Md5 (str "/b/") in
  let! fs := get_fs in
  let! _ := set_fs (<[[str "b"; n] := demo_file d]> fs) in
  let! c := @nandroid_restore_md5_check unit tree_order demo_Md5 false (fun _ => 0) (str "/b/") flags in
  wret (r, c).

Abbreviation two_images := [(str "boot.img", "kernel"%string); (str "data.ext4.tar", "files"%string)].

Lemma demo_backup_ok : backup (demo_backup two_images) (str "/b") [str "b"].
Proof.
  split; [split_and!; by_decide| |].
  { intros k Hk. cbn in Hk. assert (k = 0 \/ k = 1)%nat as [-> | ->] by lia; by_decide. }
  intros n Hn. apply elem_of_children in Hn as [i Hi].
  assert (map_Forall (fun q (j : inode) => forall c, q = [str "b"; c] -> good c /\ Forall (fun c => c <> 0 /\ c <> 10) c /\ zlen c <= 255 /\ exists d, i_kind j = KFile d)
    (demo_backup two_images)) as H.
  { apply map_Forall_lookup_2. intros q j Hj. apply elem_of_map_to_list in Hj.
    assert (forall e, e ∈ map_to_list (demo_backup two_images) -> e ∈ [([str "b"; str "boot.img"], demo_file "kernel"); ([str "b"; str "data.ext4.tar"], demo_file "files");
      ([], mkInode KDir 493 0 0 None); ([str "b"], mkInode KDir 511 0 0 None)]) as Hall by (apply Forall_forall; by_decide).
    apply Hall in Hj. repeat (apply elem_of_cons in Hj as [Hj|Hj]; [injection Hj as -> ->; intros c Hc; injection Hc as <- || discriminate Hc|]);
      [..|by apply not_elem_of_nil in Hj]; (split; [by_decide|split; [by_decide|split; [by vm_compute|by eexists]]]). }
  destruct (H _ _ Hi n eq_refl) as (H1 & H2 & H3 & d & H4). split_and!; [done..|]. by exists i, d.
Qed.

(** The backup is good as it is and when a file that is not selected changes,
    and not when one that is selected does. *)
Lemma md5_check_after_gen_witness :
  makes (@nandroid_backup_md5_gen unit tree_order demo_Md5 (str "/b/")) (demo_backup_world two_images) (fun r _ => r = 0) /\
  (gen_change_check (str "boot.img") "kernel" 5 (demo_backup_world two_images)).1 = Done (0, 0) /\
  (gen_change_check (str "boot.img") "virus" 4 (demo_backup_world two_images)).1 = Done (0, 0) /\
  (gen_change_check (str "boot.img") "virus" 5 (demo_backup_world two_images)).1 = Done (0, -1).
Proof.
  split; [|split_and!; by vm_compute].
  eapply makes_mono; [apply (@md5_check_after_gen unit tree_order demo_Md5 demo_Md5Spec false (fun _ => 0) (str "/b/") (str "/b") [str "b"])|].
  - intros n. cbn. lia.
  - done.
  - by vm_compute.
  - apply demo_backup_ok.
  - by vm_compute.
  - by intros a fs [-> _].
Defined.

(** With 21 files one is neither recorded nor looked at. *)
Definition many_images : list (name * string) := (fun k => (str "data.tar." ++ [97 + Z.of_nat k], "x"%string)) <$> List.seq 0 21.

Definition unread_image : name := Eval vm_compute in
  default [] (last (List.filter (fun n => negb (bool_decide (n = DOT))) (children (demo_backup many_images) [str "b"]))).

Lemma image_not_checked : (gen_change_check unread_image "virus" 4 (demo_backup_world many_images)).1 = Done (0, 0).
Proof. by vm_compute. Qed.

(** A line that is too short for a hash and the name of a selected file. *)
Lemma short_reference : read_reference 1 (str "boot.img" ++ [10]) = Undef.
Proof. by vm_compute. Qed.
