(* ===== verification/Nandroid.v ===== *)
(** * Backups of a whole device ([nandroid.c])

    A backup is a directory with an image or an archive of each partition;
    restoring checks the files, formats the partitions and unpacks them.  The work
    is done by shell commands, so the functions are programs of calls.  What is
    shown on the screen is left out. *)
From stdpp Require Import pretty.
From S2P Require Import Prelude.
From S2P Require Import Cbuf.
From S2P Require Import Posix.
From S2P Require Import Numerals.
From S2P Require Import Stdio.
From S2P Require Import Bootloader.
From S2P Require Import Calls.
From S2P Require Import Mounts.
From S2P Require Import Roots.
From S2P Require Import Formats.
From S2P Require Import NandroidMd5.
Local Open Scope string_scope.
Local Open Scope Z_scope.
Local Open Scope list_scope.

(** ** [dirname] and [basename] *)

Definition is_slash (c : Z) : bool := c =? SLASH.

(** Without the slashes at the end; up to the last slash; behind it. *)
Definition strip_slashes (s : list Z) : list Z := rev (skip_while is_slash (rev s)).2.
Definition upto_slash (s : list Z) : list Z := rev (skip_while (fun c => negb (is_slash c)) (rev s)).2.
Definition behind_slash (s : list Z) : list Z := rev (skip_while (fun c => negb (is_slash c)) (rev s)).1.

Definition dirname (s : list Z) : list Z :=
  match s with
  | [] => DOT
  | _ =>
      match strip_slashes s with
      | [] => [SLASH]
      | t =>
          match upto_slash t with
          | [] => DOT
          | u => match strip_slashes u with [] => [SLASH] | v => v end
          end
      end
  end.

Definition basename (s : list Z) : list Z :=
  match s with
  | [] => DOT
  | _ => match strip_slashes s with [] => [SLASH] | t => behind_slash t end
  end.

(** ** State *)

Definition NANDROID_FIELD_DEDUPE_CLEARED_SPACE : Z := 1.
Definition NANDROID_ERROR_GENERAL : Z := 1.
Definition NANDROID_BACKUP_FORMAT_TAR : Z := 0.
Definition NANDROID_BACKUP_FORMAT_DUP : Z := 1.
Definition NANDROID_BACKUP_FORMAT_TGZ : Z := 2.
Definition NANDROID_HIDE_PROGRESS_FILE : list Z := str "clockworkmod/.hidenandroidprogress".
Definition NANDROID_BACKUP_FORMAT_FILE : list Z := str "clockworkmod/.default_backup_format".

(** The functions [nandroid_backup_handler] and [nandroid_restore_handler] point
    to. *)
Inductive nandroid_backup_handler :=
  mkyaffs2image_wrapper | tar_compress_wrapper | tar_gzip_compress_wrapper | tar_dump_wrapper | dedupe_compress_wrapper.
Inductive nandroid_restore_handler :=
  unyaffs_wrapper | tar_gzip_extract_wrapper | tar_extract_wrapper | dedupe_extract_wrapper | tar_undump_wrapper.

Record NState := mkN {
  nandroid_backup_bitfield : Z;
  nandroid_files_total : Z;
  nandroid_files_count : Z;
  default_backup_handler : nandroid_backup_handler;
  forced_backup_format : list Z
}.

Definition initial_nandroid : NState := mkN 0 0 0 tar_compress_wrapper [].

Abbreviation N := (M (Globals * NState)).

(** The functions of [roots.c] leave the variables of [nandroid.c] alone. *)
Definition roots {A} (m : G A) : N A := fun '(g, n) => pbind (m g) (fun '(a, g) => Ret (a, (g, n))).
Definition getn : N NState := let* s := getg in mret s.2.
Definition putn (n : NState) : N unit := let* s := getg in putg (s.1, n).

Definition set_bitfield (v : Z) : N unit :=
  let* n := getn in putn (mkN v (nandroid_files_total n) (nandroid_files_count n) (default_backup_handler n) (forced_backup_format n)).
Definition set_total (v : Z) : N unit :=
  let* n := getn in putn (mkN (nandroid_backup_bitfield n) v (nandroid_files_count n) (default_backup_handler n) (forced_backup_format n)).
Definition set_count (v : Z) : N unit :=
  let* n := getn in putn (mkN (nandroid_backup_bitfield n) (nandroid_files_total n) v (default_backup_handler n) (forced_backup_format n)).
Definition set_handler (v : nandroid_backup_handler) : N unit :=
  let* n := getn in putn (mkN (nandroid_backup_bitfield n) (nandroid_files_total n) (nandroid_files_count n) v (forced_backup_format n)).
Definition set_forced (v : list Z) : N unit :=
  let* n := getn in putn (mkN (nandroid_backup_bitfield n) (nandroid_files_total n) (nandroid_files_count n) (default_backup_handler n) v).

(** [sprintf] into a buffer of [PATH_MAX] bytes, and [__system] of it. *)
Definition sprintf (s : list Z) : N (list Z) := roots (sprintf_path s).
Definition system (s : list Z) : N Z := let* cmd := sprintf s in invoke (CSystem cmd).
Definition other (name : string) (args : list (list Z)) : N unit := let* _ := invoke (COther (str name) args) in mret tt.

Section Nandroid.
  Context `{FsMgr} `{VoldCodes}.
  (** As in [Formats]. *)
  Context (BOARD_BML_BOOT : list Z) (use_f2fs : bool).

(** ** Helpers *)

Definition nandroid_generate_timestamp_path : N (list Z) :=
  let* tmp := invoke CLocalTime in
  let* primary := roots get_primary_storage_path in
  match tmp with
  | None =>
      let* sec := invoke (COther (str "gettimeofday") []) in
      mret (snprintf_path (primary ++ str "/clockworkmod/backup/" ++ str (pretty sec)))
  | Some time => mret (snprintf_path (primary ++ str "/" ++ snprintf_path (str "clockworkmod/backup/" ++ time)))
  end.

Definition ensure_directory (dir : list Z) : N unit :=
  let* _ := system (str "mkdir -p " ++ dir ++ str " && chmod 777 " ++ dir) in mret tt.

(** [tmp[strlen(tmp) - 1]] of an empty string is outside of [tmp]. *)
Definition nandroid_callback (filename : list Z) : N unit :=
  match cstr (filename ++ [0]) with
  | [] => fun _ => Undefined
  | _ =>
      let* n := getn in
      if nandroid_files_total n =? 0 then mret tt else set_count (wrap 32 (nandroid_files_count n + 1))
  end.

(** [strcmp(path, "/data") == 0 && is_data_media() ? yes : ""]. *)
Definition if_data_media (path : list Z) (yes : string) : N (list Z) :=
  if bool_decide (path = str "/data") then
    let* m := roots is_data_media in mret (if m : bool then str yes else [])
  else mret [].

Definition compute_directory_stats (directory : list Z) : N unit :=
  let* _ := set_count 0 in
  let* _ := set_total 0 in
  let* grep := if_data_media directory "grep -v /data/media |" in
  let* _ := system (str "find " ++ directory ++ str " | " ++ grep ++ str " wc -l > /tmp/dircount") in
  let* f := invoke (CReadFile (str "/tmp/dircount")) in
  match f with
  | None => mret tt
  | Some text =>
      match cstr (line_of 99 text ++ [0]), line_of 99 text with
      | _, [] => mret tt
      | [], _ => fun _ => Undefined
      | count_text, _ => set_total (wrap 32 (atoi count_text))
      end
  end.

(** [while (fgets(tmp, PATH_MAX, fp) != NULL)] over what a program prints. *)
Fixpoint read_lines (n : nat) (callback : bool) (text : list Z) : N unit :=
  match n with
  | O => fun _ => Loop
  | S n =>
      match line_of 4095 text with
      | [] => mret tt
      | tmp =>
          let* _ := if callback then nandroid_callback tmp else mret tt in
          read_lines n callback (drop (length tmp) text)
      end
  end.

(** Runs a command, and [after] before its status is asked for. *)
Definition popen_lines (command : list Z) (callback : bool) (after : N unit) : N Z :=
  let* fp := invoke (CPopen command) in
  match fp with
  | None => let* _ := after in mret (-1)
  | Some text =>
      let* _ := read_lines (S (length text)) callback text in
      let* _ := after in
      invoke (CPclose command)
  end.

(** In [recovery.c]. *)
Definition set_perf_mode (on : bool) : N unit :=
  other "property_set" [str "recovery.perf.mode"; if on then str "1" else str "0"].

Definition do_tar_compress (command : list Z) (callback : bool) : N Z :=
  let* _ := set_perf_mode true in popen_lines command callback (set_perf_mode false).
Definition do_tar_extract (command : list Z) (callback : bool) : N Z :=
  let* _ := set_perf_mode true in popen_lines command callback (set_perf_mode false).

(** ** Ways to back up *)

Definition EXCLUDES : list Z := str "--exclude=data/data/com.google.android.music/files/* ".

Definition nandroid_dedupe_gc (blob_dir : list Z) : N unit :=
  let* backup_dir := sprintf (dirname blob_dir ++ str "/backup") in
  let* _ := system (str "dedupe gc " ++ blob_dir ++ str " $(find " ++ backup_dir ++ str " -name '*.dup')") in
  mret tt.

(** The directory of the blobs, next to that of the backups. *)
Definition blobs_of (image : list Z) : list Z := dirname (dirname (dirname image)) ++ str "/blobs".

(** The commands; [media] excludes /data/media where that is asked for. *)
Definition mkyaffs2image_command (backup_path image : list Z) : list Z :=
  str "cd " ++ backup_path ++ str " ; mkyaffs2image . " ++ image ++ str ".img ; exit $?".
Definition tar_compress_command (backup_path image media : list Z) : list Z :=
  str "cd $(dirname " ++ backup_path ++ str ") ; touch " ++ image ++ str ".tar ; set -o pipefail ; (tar -cpv " ++ EXCLUDES ++ media ++
  str " $(basename " ++ backup_path ++ str ") | split -a 1 -b 1000000000 /proc/self/fd/0 " ++ image ++ str ".tar.) 2> /proc/self/fd/1 ; exit $?".
Definition tar_gzip_compress_command (backup_path image media : list Z) : list Z :=
  str "cd $(dirname " ++ backup_path ++ str ") ; touch " ++ image ++ str ".tar.gz ; set -o pipefail ; (tar -cpv " ++ EXCLUDES ++ media ++
  str " $(basename " ++ backup_path ++ str ") | pigz -c | split -a 1 -b 1000000000 /proc/self/fd/0 " ++ image ++ str ".tar.gz.) 2> /proc/self/fd/1 ; exit $?".
Definition tar_dump_command (backup_path media : list Z) : list Z :=
  str "cd $(dirname " ++ backup_path ++ str "); set -o pipefail ; tar -cpv " ++ EXCLUDES ++ media ++
  str " $(basename " ++ backup_path ++ str ") 2> /dev/null | cat".
Definition dedupe_compress_command (backup_path image media : list Z) : list Z :=
  str "dedupe c " ++ backup_path ++ str " " ++ blobs_of image ++ str " " ++ image ++ str ".dup " ++ media.

Definition mkyaffs2image (backup_path image : list Z) (callback : bool) : N Z :=
  let* tmp := sprintf (mkyaffs2image_command backup_path image) in
  popen_lines tmp callback (mret tt).

Definition tar_compress (backup_path image : list Z) (callback : bool) : N Z :=
  let* media := if_data_media backup_path "--exclude=data/media" in
  let* tmp := sprintf (tar_compress_command backup_path image media) in
  do_tar_compress tmp callback.

Definition tar_gzip_compress (backup_path image : list Z) (callback : bool) : N Z :=
  let* media := if_data_media backup_path "--exclude=data/media" in
  let* tmp := sprintf (tar_gzip_compress_command backup_path image media) in
  do_tar_compress tmp callback.

Definition tar_dump (backup_path : list Z) : N Z :=
  let* media := if_data_media backup_path "--exclude=data/media" in
  system (tar_dump_command backup_path media).

Definition dedupe_compress (backup_path image : list Z) (callback : bool) : N Z :=
  let* blob_dir := sprintf (blobs_of image) in
  let* _ := ensure_directory blob_dir in
  let* n := getn in
  let* _ := if (nandroid_backup_bitfield n .& NANDROID_FIELD_DEDUPE_CLEARED_SPACE) =? 0 then
      let* _ := set_bitfield (nandroid_backup_bitfield n .| NANDROID_FIELD_DEDUPE_CLEARED_SPACE) in nandroid_dedupe_gc blob_dir
    else mret tt in
  let* media := if_data_media backup_path "./media" in
  let* tmp := sprintf (dedupe_compress_command backup_path image media) in
  popen_lines tmp callback (mret tt).

(** The call through the pointer. *)
Definition backup_handler (h : nandroid_backup_handler) (backup_path image : list Z) (callback : bool) : N Z :=
  match h with
  | mkyaffs2image_wrapper => mkyaffs2image backup_path image callback
  | tar_compress_wrapper => tar_compress backup_path image callback
  | tar_gzip_compress_wrapper => tar_gzip_compress backup_path image callback
  | tar_dump_wrapper => tar_dump backup_path
  | dedupe_compress_wrapper => dedupe_compress backup_path image callback
  end.

Definition build_configuration_path (file : list Z) : N (list Z) :=
  let* primary := roots get_primary_storage_path in
  let* m := roots is_data_media in
  sprintf (primary ++ (if m : bool then str "/0/" else str "/") ++ file).

(** [strcpy] into five bytes. *)
Definition nandroid_force_backup_format (fmt : list Z) : N unit :=
  if zlen fmt <? 5 then set_forced fmt else fun _ => Undefined.

(** The bytes [strcmp] looks at of the file's first five; with less than three in
    the file it may look at what was never set. *)
Definition format_read (text : list Z) : N (list Z) :=
  let fmt := take 5 text in
  if (zlen fmt <? 3) && existsb (starts_with fmt) [str "dup"; str "tgz"; str "tar"] then fun _ => Undefined
  else mret (take 3 fmt).

Definition handler_of (fmt : list Z) : nandroid_backup_handler :=
  if bool_decide (fmt = str "dup") then dedupe_compress_wrapper
  else if bool_decide (fmt = str "tgz") then tar_gzip_compress_wrapper
  else if bool_decide (fmt = str "tar") then tar_compress_wrapper
  else tar_compress_wrapper.

Definition refresh_default_backup_handler : N unit :=
  let* n := getn in
  if 0 <? zlen (forced_backup_format n) then set_handler (handler_of (take 3 (forced_backup_format n)))
  else
    let* path := build_configuration_path NANDROID_BACKUP_FORMAT_FILE in
    let* _ := roots (ensure_path_mounted path) in
    let* f := invoke (CReadFile path) in
    match f with
    | None => set_handler tar_compress_wrapper
    | Some text => let* fmt := format_read text in set_handler (handler_of fmt)
    end.

Definition nandroid_get_default_backup_format : N Z :=
  let* _ := refresh_default_backup_handler in
  let* n := getn in
  mret match default_backup_handler n with
       | dedupe_compress_wrapper => NANDROID_BACKUP_FORMAT_DUP
       | tar_gzip_compress_wrapper => NANDROID_BACKUP_FORMAT_TGZ
       | _ => NANDROID_BACKUP_FORMAT_TAR
       end.

(** The file system that is mounted on a volume. *)
Definition mounted_filesystem (v : Volume) : N (option (list Z)) :=
  let* s := getg in
  mret (i ← find_mounted_volume_by_mount_point (str (mount_point v)) (mounts_state s.1); mv_filesystem <$> entry (mounts_state s.1) i).

(** [property_get(name, value, otherwise)]. *)
Definition property_get (name otherwise : string) : N (list Z) :=
  let* value := invoke (CProperty (str name)) in mret (default (str otherwise) value).

Definition get_backup_handler (backup_path : list Z) : N (option nandroid_backup_handler) :=
  let* v := roots (volume_for_path backup_path) in
  match v with
  | None => mret None
  | Some v =>
      let* mv := mounted_filesystem v in
      match mv with
      | None => mret None
      | Some filesystem =>
          let* n := getn in
          let* media := if bool_decide (backup_path = str "/data") then roots is_data_media else mret false in
          if media : bool then mret (Some (default_backup_handler n))
          else if 0 <? zlen (forced_backup_format n) then mret (Some (default_backup_handler n))
          else
            let* prefer_tar := property_get "ro.cwm.prefer_tar" "false" in
            if bool_decide (str "yaffs2" = filesystem) && bool_decide (str "false" = prefer_tar) then mret (Some mkyaffs2image_wrapper)
            else mret (Some (default_backup_handler n))
      end
  end.

(** ** Backing up *)

(** [callback]: whether there is no file that hides the progress. *)
Definition shows_progress : N bool :=
  let* tmp := build_configuration_path NANDROID_HIDE_PROGRESS_FILE in
  let* _ := roots (ensure_path_mounted tmp) in
  let* st := invoke (CStat tmp) in
  mret (negb (st =? 0)).

Definition nandroid_backup_partition_extended (backup_path mount_point : list Z) (umount_when_finished : bool) : N Z :=
  let name := basename mount_point in
  let* callback := shows_progress in
  let* m := roots (ensure_path_mounted mount_point) in
  if negb (m =? 0) then mret 1
  else
    let* _ := compute_directory_stats mount_point in
    let* _ := roots scan_mounts_now in
    let* v := roots (volume_for_path mount_point) in
    let* mv := match v with Some v => mounted_filesystem v | None => mret None end in
    let* tmp :=
      if bool_decide (backup_path = str "-") then mret (str "/proc/self/fd/1")
      else sprintf (backup_path ++ str "/" ++ name ++ str "." ++ default (str "auto") mv) in
    let* handler := get_backup_handler mount_point in
    match handler with
    | None => mret (-2)
    | Some h =>
        let* ret := backup_handler h mount_point tmp callback in
        let* _ := if umount_when_finished then let* _ := roots (ensure_path_unmounted mount_point) in mret tt else mret tt in
        mret ret
    end.

(** File systems that are images. *)
Definition is_raw (fs_type : list Z) : bool :=
  bool_decide (fs_type = str "mtd") || bool_decide (fs_type = str "bml") || bool_decide (fs_type = str "emmc").

Definition nandroid_backup_partition (backup_path root : list Z) : N Z :=
  let* vol := roots (volume_for_path root) in
  match vol with
  | None => mret 0
  | Some vol =>
      if is_raw (str (fs_type vol)) then
        let* tmp :=
          if bool_decide (backup_path = str "-") then mret (str "/proc/self/fd/1")
          else sprintf (backup_path ++ str "/" ++ basename root ++ str ".img") in
        roots (backup_raw_partition BOARD_BML_BOOT (Some (str (fs_type vol))) (str (blk_device vol)) tmp)
      else nandroid_backup_partition_extended backup_path root true
  end.

(** [if (0 != (ret = m)) return ret;] *)
Definition or_return (m : N Z) (k : N Z) : N Z := let* ret := m in if negb (ret =? 0) then mret ret else k.

(** In [extendedcommands.c]. *)
Definition has_datadata : N bool := let* vol := roots (volume_for_path (str "/datadata")) in mret (bool_decide (is_Some vol)).

(** Whether the device of a volume is there. *)
Definition device_there (root : string) : N (option Volume) :=
  let* vol := roots (volume_for_path (str root)) in
  match vol with
  | None => mret None
  | Some vol => let* st := invoke (CStat (str (blk_device vol))) in mret (if st =? 0 then Some vol else None)
  end.

Definition backup_wimax (backup_path : list Z) : N Z :=
  let* vol := device_there "/wimax" in
  match vol with
  | None => mret 0
  | Some vol =>
      let* serialno := property_get "ro.serialno" "" in
      let* tmp := sprintf (backup_path ++ str "/wimax." ++ serialno ++ str ".img") in
      let* ret := roots (backup_raw_partition BOARD_BML_BOOT (Some (str (fs_type vol))) (str (blk_device vol)) tmp) in
      mret (if ret =? 0 then 0 else NANDROID_ERROR_GENERAL)
  end.

Definition backup_android_secure (backup_path : list Z) : N Z :=
  let* m := roots is_data_media in
  if m : bool then mret 0
  else
    let* secure := roots get_android_secure_path in
    let* st := invoke (CStat secure) in
    if negb (st =? 0) then mret 0 else nandroid_backup_partition_extended backup_path secure false.

Definition backup_sdext (backup_path : list Z) : N Z :=
  let* vol := device_there "/sd-ext" in
  match vol with
  | None => mret 0
  | Some _ =>
      let* m := roots (ensure_path_mounted (str "/sd-ext")) in
      if negb (m =? 0) then mret 0 else nandroid_backup_partition backup_path (str "/sd-ext")
  end.

(** What is done when all is backed up. *)
Definition finish_backup (backup_path : list Z) : N Z :=
  let* _ := system (str "cp /tmp/recovery.log " ++ backup_path ++ str "/recovery.log") in
  let base_dir := dirname (dirname backup_path) in
  let* _ := system (str "chmod -R 777 " ++ backup_path ++ str " ; chmod -R u+r,u+w,g+r,g+w,o+r,o+w " ++ base_dir ++
    str " ; chmod u+x,g+x,o+x " ++ base_dir ++ str "/backup") in
  let* _ := system (str "if [ -d " ++ base_dir ++ str "/blobs ]; then chmod u+x,g+x,o+x " ++ base_dir ++ str "/blobs; fi") in
  let* _ := other "sync" [] in
  mret 0.

Definition backup_partitions (backup_path : list Z) : N Z :=
  or_return (nandroid_backup_partition backup_path (str "/boot")) (
  or_return (nandroid_backup_partition backup_path (str "/recovery")) (
  or_return (backup_wimax backup_path) (
  or_return (nandroid_backup_partition backup_path (str "/system")) (
  or_return (nandroid_backup_partition backup_path (str "/data")) (
  or_return (let* d := has_datadata in if d : bool then nandroid_backup_partition backup_path (str "/datadata") else mret 0) (
  or_return (backup_android_secure backup_path) (
  or_return (nandroid_backup_partition_extended backup_path (str "/cache") false) (
  or_return (backup_sdext backup_path) (
  or_return (invoke (CMd5Gen backup_path)) (
  finish_backup backup_path)))))))))).

Definition nandroid_backup (backup_path : list Z) : N Z :=
  let* _ := set_bitfield 0 in
  let* _ := refresh_default_backup_handler in
  let* m := roots (ensure_path_mounted backup_path) in
  if negb (m =? 0) then mret NANDROID_ERROR_GENERAL
  else
    let* media := roots (is_data_media_volume_path backup_path) in
    let* volume := roots (volume_for_path (if media : bool then str "/data" else backup_path)) in
    match volume with
    | None => mret NANDROID_ERROR_GENERAL
    | Some volume =>
        or_return (invoke (COther (str "statfs") [str (mount_point volume)])) (
        let* _ := ensure_directory backup_path in
        backup_partitions backup_path)
    end.

Definition nandroid_dump (partition : list Z) : N Z :=
  let* _ := set_bitfield 0 in
  let* _ := refresh_default_backup_handler in
  let* _ := set_handler tar_dump_wrapper in
  if bool_decide (partition = str "boot") then
    let* vol := roots (volume_for_path (str "/boot")) in
    match vol with None => mret 1 | Some vol => system (str "cat " ++ str (blk_device vol)) end
  else if bool_decide (partition = str "recovery") then
    invoke (CSystem (str "set -o pipefail ; dump_image recovery /proc/self/fd/1 | cat"))
  else if bool_decide (partition = str "data") then nandroid_backup_partition (str "-") (str "/data")
  else if bool_decide (partition = str "system") then nandroid_backup_partition (str "-") (str "/system")
  else mret 1.

(** ** Ways to restore *)

Definition unyaffs_command (image backup_path : list Z) : list Z :=
  str "cd " ++ backup_path ++ str " ; unyaffs " ++ image ++ str " ; exit $?".
Definition tar_gzip_extract_command (image backup_path : list Z) : list Z :=
  str "cd $(dirname " ++ backup_path ++ str ") ; set -o pipefail ; cat " ++ image ++ str "* | pigz -d -c | tar -xpv ; exit $?".
Definition tar_extract_command (image backup_path : list Z) : list Z :=
  str "cd $(dirname " ++ backup_path ++ str ") ; set -o pipefail ; cat " ++ image ++ str "* | tar -xpv ; exit $?".
Definition dedupe_extract_command (image backup_path : list Z) : list Z :=
  str "dedupe x " ++ image ++ str " " ++ blobs_of image ++ str " " ++ backup_path ++ str "; exit $?".

Definition unyaffs (image backup_path : list Z) (callback : bool) : N Z :=
  let* tmp := sprintf (unyaffs_command image backup_path) in popen_lines tmp callback (mret tt).

Definition tar_gzip_extract (image backup_path : list Z) (callback : bool) : N Z :=
  let* tmp := sprintf (tar_gzip_extract_command image backup_path) in do_tar_extract tmp callback.

Definition tar_extract (image backup_path : list Z) (callback : bool) : N Z :=
  let* tmp := sprintf (tar_extract_command image backup_path) in do_tar_extract tmp callback.

Definition dedupe_extract (image backup_path : list Z) (callback : bool) : N Z :=
  let* tmp := sprintf (dedupe_extract_command image backup_path) in popen_lines tmp callback (mret tt).

Definition tar_undump (backup_path : list Z) : N Z := system (str "cd $(dirname " ++ backup_path ++ str ") ; tar -xpv ").

Definition restore_handler (h : nandroid_restore_handler) (image backup_path : list Z) (callback : bool) : N Z :=
  match h with
  | unyaffs_wrapper => unyaffs image backup_path callback
  | tar_gzip_extract_wrapper => tar_gzip_extract image backup_path callback
  | tar_extract_wrapper => tar_extract image backup_path callback
  | dedupe_extract_wrapper => dedupe_extract image backup_path callback
  | tar_undump_wrapper => tar_undump backup_path
  end.

Definition get_restore_handler (backup_path : list Z) : N (option nandroid_restore_handler) :=
  let* v := roots (volume_for_path backup_path) in
  match v with
  | None => mret None
  | Some v =>
      let* _ := roots scan_mounts_now in
      let* mv := mounted_filesystem v in
      match mv with
      | None => mret None
      | Some filesystem =>
          let* media := if bool_decide (backup_path = str "/data") then roots is_data_media else mret false in
          if media : bool then mret (Some tar_extract_wrapper)
          else
            let* prefer_tar := property_get "ro.cwm.prefer_tar" "false" in
            if bool_decide (str "yaffs2" = filesystem) && bool_decide (str "false" = prefer_tar) then mret (Some unyaffs_wrapper)
            else mret (Some tar_extract_wrapper)
      end
  end.

(** ** Restoring *)

Definition filesystems : list (list Z) := [str "yaffs2"; str "ext2"; str "ext3"; str "ext4"; str "vfat"; str "rfs"; str "f2fs"].

(** The ends of the names of images of one file system, and what they are. *)
Definition image_kinds : list (list Z * nandroid_restore_handler) :=
  [(str ".img", unyaffs_wrapper); (str ".tar", tar_extract_wrapper); (str ".tar.gz", tar_gzip_extract_wrapper); (str ".dup", dedupe_extract_wrapper)].

Fixpoint find_kind (prefix : list Z) (kinds : list (list Z * nandroid_restore_handler)) : N (option (list Z * nandroid_restore_handler)) :=
  match kinds with
  | [] => mret None
  | (suffix, handler) :: kinds =>
      let* tmp := sprintf (prefix ++ suffix) in
      let* st := invoke (CStat tmp) in
      if st =? 0 then mret (Some (tmp, handler)) else find_kind prefix kinds
  end.

(** The first image that is there, its file system and its handler. *)
Fixpoint find_image (backup_path name : list Z) (fss : list (list Z)) : N (option (list Z * list Z * nandroid_restore_handler)) :=
  match fss with
  | [] => mret None
  | filesystem :: fss =>
      let* r := find_kind (backup_path ++ str "/" ++ name ++ str "." ++ filesystem) image_kinds in
      match r with
      | Some (tmp, handler) => mret (Some (tmp, filesystem, handler))
      | None => find_image backup_path name fss
      end
  end.

(** What is restored from: the image, its file system and its handler, when they
    are known; [None] if there is nothing. *)
Definition restore_source (backup_path name : list Z) (vol : option Volume) :
    N (option (list Z * option (list Z) * option nandroid_restore_handler)) :=
  let* tmp := sprintf (backup_path ++ str "/" ++ name ++ str ".img") in
  if bool_decide (backup_path = str "-") then
    mret (Some (str "/proc/self/fd/0", str ∘ fs_type <$> vol, Some tar_extract_wrapper))
  else
    let* st := invoke (CStat tmp) in
    if st =? 0 then mret (Some (tmp, None, None))
    else
      let* r := find_image backup_path name filesystems in
      mret match r with Some (tmp, fs, handler) => Some (tmp, Some fs, Some handler) | None => None end.

(** Whether the files are to be removed instead of formatting. *)
Definition removes_files (vol : option Volume) : N bool :=
  match vol with
  | None => mret true
  | Some vol =>
      if String.eqb (fs_type vol) "auto" then mret true
      else if String.eqb (mount_point vol) "/data" then roots is_data_media
      else mret false
  end.

Definition nandroid_restore_partition_extended (backup_path mount_point : list Z) (umount_when_finished : bool) : N Z :=
  let name := basename mount_point in
  let* vol := roots (volume_for_path mount_point) in
  let* source := restore_source backup_path name vol in
  match source with
  | None => mret 0
  | Some (tmp, backup_filesystem, handler) =>
      let* removes := removes_files vol in
      let backup_filesystem := if removes : bool then None else backup_filesystem in
      let* _ := ensure_directory mount_point in
      let* callback := shows_progress in
      or_return (match backup_filesystem with
                 | None => roots (format_volume BOARD_BML_BOOT use_f2fs mount_point)
                 | Some fs => let* vol := roots (deref vol) in roots (format_device BOARD_BML_BOOT use_f2fs (str (blk_device vol)) mount_point fs)
                 end) (
      or_return (roots (ensure_path_mounted mount_point)) (
      let* handler := match handler with Some h => mret (Some h) | None => get_restore_handler mount_point end in
      let handler := if bool_decide (backup_path = str "-") then Some tar_undump_wrapper else handler in
      match handler with
      | None => mret (-2)
      | Some h =>
          or_return (restore_handler h tmp mount_point callback) (
          let* _ := if umount_when_finished then let* _ := roots (ensure_path_unmounted mount_point) in mret tt else mret tt in
          mret 0)
      end))
  end.

Definition nandroid_restore_partition (backup_path root : list Z) : N Z :=
  let* vol := roots (volume_for_path root) in
  match vol with
  | None => mret 0
  | Some vol =>
      if is_raw (str (fs_type vol)) then
        or_return (roots (format_volume BOARD_BML_BOOT use_f2fs root)) (
        let* tmp := if bool_decide (backup_path = str "-") then mret backup_path else sprintf (backup_path ++ root ++ str ".img") in
        roots (restore_raw_partition BOARD_BML_BOOT (Some (str (fs_type vol))) (str (blk_device vol)) tmp))
      else nandroid_restore_partition_extended backup_path root true
  end.

Definition restore_wimax (backup_path : list Z) : N Z :=
  let* vol := device_there "/wimax" in
  match vol with
  | None => mret 0
  | Some vol =>
      let* serialno := property_get "ro.serialno" "" in
      let* tmp := sprintf (backup_path ++ str "/wimax." ++ serialno ++ str ".img") in
      let* st := invoke (CStat tmp) in
      if negb (st =? 0) then mret 0
      else
        let* ret := roots (format_volume BOARD_BML_BOOT use_f2fs (str "/wimax")) in
        if negb (ret =? 0) then mret NANDROID_ERROR_GENERAL
        else roots (restore_raw_partition BOARD_BML_BOOT (Some (str (fs_type vol))) (str (blk_device vol)) tmp)
  end.

(** [if (flag && 0 != (ret = m)) return ret;] *)
Definition when (flag : bool) (m : N Z) : N Z := if flag then m else mret 0.

Definition nandroid_restore (backup_path : list Z) (flags : Z) : N Z :=
  let* _ := set_total 0 in
  let restore_boot := has_flag flags NANDROID_BOOT in
  let restore_system := has_flag flags NANDROID_SYSTEM in
  let restore_data := has_flag flags NANDROID_DATA in
  let restore_cache := has_flag flags NANDROID_CACHE in
  let restore_sdext := has_flag flags NANDROID_SDEXT in
  let restore_wimax_ := has_flag flags NANDROID_WIMAX in
  let* m := roots (ensure_path_mounted backup_path) in
  if negb (m =? 0) then mret NANDROID_ERROR_GENERAL
  else
    or_return (invoke (CMd5Check backup_path flags)) (
    or_return (when restore_boot (
      let* vol := roots (volume_for_path (str "/boot")) in
      match vol with None => mret 0 | Some _ => nandroid_restore_partition backup_path (str "/boot") end)) (
    or_return (when restore_wimax_ (restore_wimax backup_path)) (
    or_return (when restore_system (nandroid_restore_partition backup_path (str "/system"))) (
    or_return (when restore_data (nandroid_restore_partition backup_path (str "/data"))) (
    or_return (let* d := has_datadata in
      if d : bool then when restore_data (nandroid_restore_partition backup_path (str "/datadata")) else mret 0) (
    or_return (when restore_data (
      let* secure := roots get_android_secure_path in nandroid_restore_partition_extended backup_path secure false)) (
    or_return (when restore_cache (nandroid_restore_partition_extended backup_path (str "/cache") false)) (
    or_return (when restore_sdext (nandroid_restore_partition backup_path (str "/sd-ext"))) (
    let* _ := other "sync" [] in
    mret 0))))))))).

Definition nandroid_undump (partition : list Z) : N Z :=
  let* _ := set_total 0 in
  if bool_decide (partition = str "boot") then
    let* vol := roots (volume_for_path (str "/boot")) in
    match vol with None => mret 1 | Some vol => system (str "cat /proc/self/fd/0 > " ++ str (blk_device vol)) end
  else
    or_return (when (bool_decide (partition = str "recovery")) (nandroid_restore_partition (str "-") (str "/recovery"))) (
    or_return (when (bool_decide (partition = str "system")) (nandroid_restore_partition (str "-") (str "/system"))) (
    or_return (when (bool_decide (partition = str "data")) (nandroid_restore_partition (str "-") (str "/data"))) (
    let* _ := other "sync" [] in
    mret 0))).

(** ** The programs *)

Definition nandroid_usage : N Z := mret 1.
Definition bu_usage : N Z := mret 1.

(** [dup2(fd, target); close(fd);] unless they are the same. *)
Definition use_descriptor (fd target : Z) : N unit :=
  if fd =? target then mret tt
  else
    let* _ := other "dup2" [[fd]; [target]] in
    other "close" [[fd]].

Definition bu_restore : N Z :=
  let* f := invoke (CReadFile (str "/tmp/ro.bu.restore")) in
  match f with
  | None => bu_usage
  | Some text =>
      match line_of 99 text, cstr (line_of 99 text ++ [0]) with
      | [], _ => bu_usage
      | _, [] => fun _ => Undefined
      | _, partition => nandroid_undump (if bool_decide (last partition = Some 10) then take (length partition - 1) partition else partition)
      end
  end.

Definition bu_main (argv : list (list Z)) : N Z :=
  let* _ := roots load_volume_table in
  match argv with
  | _ :: fd :: command :: rest =>
      if bool_decide (command = str "backup") then
        match rest with
        | [partition] =>
            let* _ := use_descriptor (atoi fd) 1 in
            let* ret := nandroid_dump partition in
            let* _ := other "sleep" [] in
            mret ret
        | _ => bu_usage
        end
      else if bool_decide (command = str "restore") then
        match rest with
        | [] => let* _ := use_descriptor (atoi fd) 0 in bu_restore
        | _ => bu_usage
        end
      else bu_usage
  | _ => fun _ => Undefined
  end.

Definition nandroid_main (argv : list (list Z)) : N Z :=
  let* _ := roots load_volume_table in
  let* _ := other "vold_init" [] in
  match argv with
  | [_; command] =>
      if bool_decide (str "backup" = command) then
        let* backup_path := nandroid_generate_timestamp_path in nandroid_backup backup_path
      else nandroid_usage
  | [_; command; arg] =>
      if bool_decide (str "backup" = command) then nandroid_usage
      else if bool_decide (str "restore" = command) then
        nandroid_restore arg (NANDROID_BOOT .| NANDROID_SYSTEM .| NANDROID_DATA .| NANDROID_CACHE .| NANDROID_SDEXT)
      else if bool_decide (str "dump" = command) then nandroid_dump arg
      else if bool_decide (str "undump" = command) then nandroid_undump arg
      else nandroid_usage
  | _ => nandroid_usage
  end.

End Nandroid.
