(* ===== verification/NandroidFacts.v ===== *)
(** * What backing up and restoring a device means

    Proofs about the runs of [nandroid.c], whatever the commands it starts
    answer. *)
From S2P Require Import Prelude.
From S2P Require Import Posix.
From S2P Require Import Bootloader.
From S2P Require Import Calls.
From S2P Require Import Mounts.
From S2P Require Import Roots.
From S2P Require Import Formats.
From S2P Require Import RootsFacts.
From S2P Require Import FormatFacts.
From S2P Require Import NandroidMd5.
From S2P Require Import Nandroid.
Local Open Scope string_scope.
Local Open Scope Z_scope.
Local Open Scope list_scope.

(** ** Programs that keep an invariant *)

Section Steady.
  Context {S : Type} (I : S -> Prop) (can : call -> Prop).

(** [m] keeps [I] and makes calls in [can] only. *)
Definition steady {A} (m : M S A) : Prop := forall h s, I s -> always (fun _ c => can c) (fun _ r => I r.2) h (m s).

Lemma steady_bind {A B} (m : M S A) (k : A -> M S B) : steady m -> (forall a, steady (k a)) -> steady (mbind_ m k).
Proof.
  intros Hm Hk h s Hs. apply always_bind. eapply always_mono; [| |by apply Hm]; [done|]. intros h' [a s'] H'. by apply Hk.
Qed.

Lemma steady_ret {A} (a : A) : steady (mret a).
Proof. by intros h s Hs. Qed.
Lemma steady_undefined {A} : steady (fun _ => @Undefined (A * S)).
Proof. by intros h s Hs. Qed.
Lemma steady_loop {A} : steady (fun _ => @Loop (A * S)).
Proof. by intros h s Hs. Qed.
Lemma steady_getg : steady getg.
Proof. by intros h s Hs. Qed.
Lemma steady_putg s : I s -> steady (putg s).
Proof. by intros Hs h s' _. Qed.
Lemma steady_getg_bind {B} (k : S -> M S B) : (forall s, I s -> steady (k s)) -> steady (mbind_ getg k).
Proof. intros Hk h s Hs. by apply (Hk s Hs h s). Qed.
Lemma steady_invoke c : can c -> steady (invoke c).
Proof. intros Hc h s Hs. by split. Qed.
Lemma steady_outcome {A} (o : outcome A) : steady (moutcome o).
Proof. intros h s Hs. by destruct o. Qed.
End Steady.

Create HintDb steady.
#[export] Hint Resolve steady_ret steady_undefined steady_loop steady_getg steady_outcome : steady.

(** Goes through a program call by call. *)
Ltac steady_tac :=
  repeat lazymatch goal with
    | |- steady _ _ (mbind_ getg _) => apply steady_getg_bind; intros ? ?
    | |- steady _ _ (mbind_ _ _) => first [by auto with steady|apply steady_bind; [|intros ?]]
    | |- steady _ _ (invoke ?c) => apply (steady_invoke _ _ c); auto
    | |- steady _ _ (putg _) => apply steady_putg; done
    | |- steady _ _ (match ?x with _ => _ end) => destruct x
    | |- steady _ _ (let _ := _ in _) => cbv zeta
    | |- steady _ _ _ => auto with steady; fail
    end.

(** ** The functions of [roots.c] *)

(** Calls that mount, and look. *)
Definition mounting (c : call) : bool :=
  match c with
  | CProcMounts | CMalloc | CMount _ _ _ | CMkdir _ _ | CRmdir _ | CSymlink _ _ | CStat _ | CVoldMount _ | CMtdFind _ | CMtdMount _ _ _ => true
  | CSystem cmd => starts_with (str "mount ") cmd
  | _ => false
  end.

Section Roots.
  Context `{FM : FsMgr} `{VC : VoldCodes} (BOARD_BML_BOOT : list Z) (use_f2fs : bool).
  Context (t : list Volume).

Definition has_table (g : Globals) : Prop := fstab g = Some t.

Section Mounting.
  Context (can : call -> Prop) (Hcan : forall c, mounting c = true -> can c).
  Abbreviation steady := (steady has_table can).

Lemma steady_deref {A} (o : option A) : steady (deref o).
Proof. by destruct o; intros h s Hs. Qed.

Lemma steady_sprintf s : steady (sprintf_path s).
Proof. unfold sprintf_path. intros h g Hg. by destruct (_ <=? _). Qed.

#[local] Hint Resolve steady_deref steady_sprintf : steady.

Lemma steady_volume p : steady (volume_for_path p).
Proof. unfold volume_for_path. steady_tac. Qed.
Lemma steady_volumes : steady get_device_volumes.
Proof. unfold get_device_volumes. steady_tac. Qed.
#[local] Hint Resolve steady_volume steady_volumes : steady.

Lemma steady_data_media : steady is_data_media.
Proof. unfold is_data_media. steady_tac. Qed.
#[local] Hint Resolve steady_data_media : steady.
Lemma steady_media_path p : steady (is_data_media_volume_path p).
Proof. unfold is_data_media_volume_path. steady_tac. Qed.
Lemma steady_primary : steady get_primary_storage_path.
Proof. unfold get_primary_storage_path. steady_tac. Qed.
#[local] Hint Resolve steady_media_path steady_primary : steady.
Lemma steady_secure : steady get_android_secure_path.
Proof. unfold get_android_secure_path. steady_tac. Qed.
Lemma steady_setup_media : steady setup_data_media.
Proof. unfold setup_data_media. steady_tac. Qed.
Lemma steady_scan : steady scan_mounts_now.
Proof. unfold scan_mounts_now. steady_tac. Qed.
#[local] Hint Resolve steady_secure steady_setup_media steady_scan : steady.

Lemma steady_system_mount (s : list Z) : steady (let* cmd := sprintf_path (str "mount " ++ s) in invoke (CSystem cmd)).
Proof. intros h g Hg. unfold sprintf_path, mbind_. destruct (_ <=? _); cbn; [done|]. split; [by apply Hcan|]. done. Qed.

Lemma steady_try_mount d m f o : steady (try_mount d m f o).
Proof.
  unfold try_mount. destruct d as [d|], m as [m|], f as [f|]; [|by apply steady_ret..]. destruct o as [o|]; [|steady_tac].
  apply (steady_system_mount (str "-t " ++ f ++ str " -o" ++ o ++ str " " ++ d ++ str " " ++ m)).
Qed.
#[local] Hint Resolve steady_try_mount steady_system_mount : steady.

Lemma steady_mount_volume v p : steady (mount_volume v p).
Proof. unfold mount_volume. steady_tac. Qed.
#[local] Hint Resolve steady_mount_volume : steady.

Lemma steady_ensure_volume p a : steady (ensure_volume_mounted p a).
Proof. unfold ensure_volume_mounted. steady_tac. Qed.
#[local] Hint Resolve steady_ensure_volume : steady.

Lemma steady_ensure_mounted d : forall p a, steady (ensure_mounted d p a).
Proof. induction d as [|d IH]; intros p a; cbn [ensure_mounted]; steady_tac. Qed.

Lemma steady_mounted p : steady (ensure_path_mounted p).
Proof. apply steady_ensure_mounted. Qed.
End Mounting.

(** What formats keeps the table too. *)
Abbreviation steady := (steady has_table (fun _ => True)).

Lemma any_call (c : call) : mounting c = true -> True.
Proof. done. Qed.

#[local] Hint Resolve any_call steady_deref steady_sprintf steady_volume steady_volumes steady_data_media steady_media_path steady_scan steady_mounted : steady.

Lemma steady_kept p : steady (data_media_kept p).
Proof. unfold data_media_kept, is_data_media_preserved. steady_tac. Qed.
Lemma steady_unmount_now mv : steady (unmount_now mv).
Proof. unfold unmount_now. apply steady_getg_bind. intros g Hg. apply steady_bind; [by apply steady_invoke|]. intros r.
  destruct (unmount_mounted_volume _ _ _) as [ret m]. apply steady_bind; [by apply steady_putg|]. intros _. apply steady_ret. Qed.
#[local] Hint Resolve steady_kept steady_unmount_now : steady.
Lemma steady_ensure_volume_unmounted p : steady (ensure_volume_unmounted p).
Proof. unfold ensure_volume_unmounted. steady_tac. Qed.
#[local] Hint Resolve steady_ensure_volume_unmounted : steady.
Lemma steady_ensure_unmounted d : forall p, steady (ensure_unmounted d p).
Proof. induction d as [|d IH]; intros p; cbn [ensure_unmounted]; steady_tac. Qed.
Lemma steady_unmounted p : steady (ensure_path_unmounted p).
Proof. apply steady_ensure_unmounted. Qed.
#[local] Hint Resolve steady_unmounted : steady.

Lemma steady_flash_type : steady (device_flash_type BOARD_BML_BOOT).
Proof. unfold device_flash_type. steady_tac. Qed.
#[local] Hint Resolve steady_flash_type : steady.
Lemma steady_detect a b : steady (detect_partition BOARD_BML_BOOT a b).
Proof. unfold detect_partition. steady_tac. Qed.
Lemma steady_flash_command a b c : steady (flash_command a b c).
Proof. unfold flash_command. steady_tac. Qed.
#[local] Hint Resolve steady_detect steady_flash_command : steady.
Lemma steady_raw a b c : steady (restore_raw_partition BOARD_BML_BOOT a b c) /\ steady (backup_raw_partition BOARD_BML_BOOT a b c) /\
  steady (erase_raw_partition BOARD_BML_BOOT a b).
Proof. unfold restore_raw_partition, backup_raw_partition, erase_raw_partition. split_and!; steady_tac. Qed.
Lemma steady_erase a b : steady (erase_raw_partition BOARD_BML_BOOT a b).
Proof. apply (steady_raw a b []). Qed.
#[local] Hint Resolve steady_erase : steady.

Lemma steady_remove_files p : steady (remove_files p).
Proof. unfold remove_files. steady_tac. Qed.
#[local] Hint Resolve steady_remove_files : steady.
Lemma steady_format_unknown a b c : steady (format_unknown_device BOARD_BML_BOOT a b c).
Proof. unfold format_unknown_device, sd_ext_missing, format_unmounted, format_by_removing. steady_tac. Qed.
Lemma steady_format_mtd n : steady (format_mtd n).
Proof. unfold format_mtd. steady_tac. Qed.
#[local] Hint Resolve steady_format_unknown steady_format_mtd : steady.
Lemma steady_format v : steady (format_volume BOARD_BML_BOOT use_f2fs v).
Proof. unfold format_volume, format_table_volume, made. steady_tac. Qed.
Lemma steady_format_device a b c : steady (format_device BOARD_BML_BOOT use_f2fs a b c).
Proof. unfold format_device, format_table_device, made. steady_tac. Qed.

End Roots.

(** ** Runs step by step *)

(** What stays true when more calls are made. *)
Class Lasting (P : list event -> Prop) := lasting h h' : P h -> P (h ++ h').

#[export] Instance lasting_const (P : Prop) : Lasting (fun _ => P).
Proof. by intros h h'. Qed.
#[export] Instance lasting_in e : Lasting (fun h => e ∈ h).
Proof. intros h h' H. apply elem_of_app. by left. Qed.
#[export] Instance lasting_and P Q : Lasting P -> Lasting Q -> Lasting (fun h => P h /\ Q h).
Proof. intros HP HQ h h' [H1 H2]. split; by apply lasting. Qed.
#[export] Instance lasting_ex {A} (P : A -> list event -> Prop) : (forall a, Lasting (P a)) -> Lasting (fun h => exists a, P a h).
Proof. intros HP h h' [a H]. exists a. by apply HP. Qed.
#[export] Instance lasting_all {A} (P : A -> list event -> Prop) : (forall a, Lasting (P a)) -> Lasting (fun h => forall a, P a h).
Proof. intros HP h h' H a. by apply HP. Qed.
#[export] Instance lasting_if (P : Prop) Q : Lasting Q -> Lasting (fun h => P -> Q h).
Proof. intros HQ h h' H HP. by apply HQ, H. Qed.

Lemma always_lasting {A} ok (Q : list event -> A -> Prop) P `{!Lasting P} (p : prog A) : forall h, P h -> always ok Q h p ->
  always ok (fun h a => P h /\ Q h a) h p.
Proof.
  induction p as [a| | |c k IH]; intros h HP; cbn; [done|done|done|]. intros [Hc Hk]. split; [done|]. intros r. apply IH; [by apply lasting|done].
Qed.

Lemma always_allowed {A} (ok : list event -> call -> Prop) can (Q : list event -> A -> Prop) P `{!Lasting P} (p : prog A) : forall h, P h ->
  (forall h c, P h -> can c -> ok h c) -> always (fun _ c => can c) Q h p -> always ok Q h p.
Proof.
  induction p as [a| | |c k IH]; intros h HP Hok; cbn; [done|done|done|]. intros [Hc Hk]. split; [by apply Hok|].
  intros r. apply IH; [by apply lasting|done|done].
Qed.

Section Runs.
  Context `{FM : FsMgr} `{VC : VoldCodes} (BOARD_BML_BOOT : list Z) (use_f2fs : bool).
  Context (t : list Volume) (backing_up : bool).

(** The volume table is loaded, and backups are not dumped. *)
Definition archives (n : NState) : Prop := backing_up = true -> default_backup_handler n <> tar_dump_wrapper.
Definition ready (s : Globals * NState) : Prop := has_table t s.1 /\ archives s.2.

Abbreviation still := (steady ready (fun _ => True)).
Abbreviation mounts := (steady ready (fun c => mounting c = true)).

Lemma steady_roots {A} can (m : G A) : steady (has_table t) can m -> steady ready can (roots m).
Proof.
  intros Hm h [g n] [Hg Hn]. unfold roots. apply always_bind. eapply always_mono; [| |by apply Hm]; [done|]. intros h' [a g'] Hg'. by split.
Qed.

Section Rules.
  Context (ok : list event -> call -> Prop).

(** From calls in [P], [m] makes calls that are [ok] and ends in [Q]. *)
Definition does {A} (P : list event -> Prop) (m : N A) (Q : list event -> A -> Prop) : Prop :=
  forall h s, ready s -> P h -> always ok (fun h r => ready r.2 /\ Q h r.1) h (m s).

Lemma does_bind {A B} P (m : N A) (k : A -> N B) Q R : does P m Q -> (forall a, does (fun h => Q h a) (k a) R) -> does P (mbind_ m k) R.
Proof.
  intros Hm Hk h s Hs HP. apply always_bind. eapply always_mono; [| |by apply Hm]; [done|]. intros h' [a s'] [Hs' HQ]. by apply Hk.
Qed.

Lemma does_mono {A} (P P' : list event -> Prop) (m : N A) (Q Q' : list event -> A -> Prop) :
  does P m Q -> (forall h, P' h -> P h) -> (forall h a, Q h a -> Q' h a) -> does P' m Q'.
Proof.
  intros Hm HP HQ h s Hs H'. eapply always_mono; [| |by apply Hm, HP]; [done|]. intros h' r [Hr Hq]. split; [done|by apply HQ].
Qed.

Lemma does_ret {A} (a : A) P Q : (forall h, P h -> Q h a) -> does P (mret a) Q.
Proof. intros H h s Hs HP. split; [done|by apply H]. Qed.

Lemma does_undefined {A} P (Q : list event -> A -> Prop) : does P (fun _ => Undefined) Q.
Proof. by intros h s Hs HP. Qed.

Lemma does_invoke c P (Q : list event -> answer c -> Prop) : (forall h, P h -> ok h c) -> (forall h r, P h -> Q (h ++ [answered c r]) r) -> does P (invoke c) Q.
Proof. intros Hok HQ h s Hs HP. split; [by apply Hok|]. intros r. split; [done|by apply HQ]. Qed.

(** A program that keeps the invariant. *)
Lemma does_steady {A} can (m : N A) P `{!Lasting P} : steady ready can m -> (forall h c, P h -> can c -> ok h c) -> does P m (fun h _ => P h).
Proof.
  intros Hm Hok h s Hs HP. eapply (always_allowed _ can); [done|exact HP|done|]. eapply always_mono; [| |eapply always_lasting; [done|exact HP|by apply Hm]]; [done|].
  by intros h' r [HP' Hr].
Qed.

Lemma does_keep {A} P (m : N A) Q P' `{!Lasting P'} : does P m Q -> does (fun h => P h /\ P' h) m (fun h a => Q h a /\ P' h).
Proof.
  intros Hm h s Hs [HP HP']. eapply always_mono; [| |eapply (always_lasting _ _ P'); [exact HP'|by apply Hm]]; [done|]. by intros h' r (? & ? & ?).
Qed.

(** [if (0 != (ret = m)) return ret;] *)
Lemma does_or_return P m k (Q R : list event -> Z -> Prop) : does P m Q -> (forall h r, r <> 0 -> Q h r -> R h r) -> does (fun h => Q h 0) k R ->
  does P (or_return m k) R.
Proof.
  intros Hm HQ Hk. unfold or_return. eapply does_bind; [exact Hm|]. intros r. destruct (r =? 0) eqn:E; cbn [negb]; bool_to_prop.
  - by subst r.
  - apply does_ret. intros h. by apply HQ.
Qed.

End Rules.

(** ** Steps of [nandroid.c] that keep the invariant *)

Lemma still_getn_bind {A} (k : NState -> N A) : (forall n, archives n -> still (k n)) -> still (mbind_ getn k).
Proof. intros Hk h s Hs. apply (Hk s.2 (proj2 Hs) h s Hs). Qed.

Lemma still_getn : still getn.
Proof. by intros h s Hs. Qed.

Lemma still_putn n : archives n -> still (putn n).
Proof. intros Hn h s Hs. split; [apply Hs|done]. Qed.

Lemma still_set_count v : still (set_count v).
Proof. unfold set_count. apply still_getn_bind. intros n Hn. apply still_putn. exact Hn. Qed.
Lemma still_set_total v : still (set_total v).
Proof. unfold set_total. apply still_getn_bind. intros n Hn. apply still_putn. exact Hn. Qed.
Lemma still_set_bitfield v : still (set_bitfield v).
Proof. unfold set_bitfield. apply still_getn_bind. intros n Hn. apply still_putn. exact Hn. Qed.
Lemma still_set_handler v : v <> tar_dump_wrapper -> still (set_handler v).
Proof. intros Hv. unfold set_handler. apply still_getn_bind. intros n Hn. apply still_putn. by intros _. Qed.

Lemma still_roots {A} (m : G A) : steady (has_table t) (fun _ => True) m -> still (roots m).
Proof. apply steady_roots. Qed.

Lemma still_sprintf s : still (sprintf s).
Proof. apply still_roots, steady_sprintf. Qed.
#[local] Hint Resolve still_getn still_set_count still_set_total still_set_bitfield still_sprintf : steady.
Lemma still_system s : still (system s).
Proof. unfold system. steady_tac. Qed.
Lemma still_other a b : still (other a b).
Proof. unfold other. steady_tac. Qed.
#[local] Hint Resolve still_system still_other : steady.

Lemma still_callback f : still (nandroid_callback f).
Proof. unfold nandroid_callback. steady_tac. Qed.
#[local] Hint Resolve still_callback : steady.
Lemma still_read_lines n cb : forall text, still (read_lines n cb text).
Proof. induction n as [|n IH]; intros text; cbn [read_lines]; steady_tac. Qed.
Lemma still_data_media : still (roots is_data_media).
Proof. apply still_roots, steady_data_media. Qed.
#[local] Hint Resolve still_read_lines still_data_media : steady.
Lemma still_if_media p y : still (if_data_media p y).
Proof. unfold if_data_media. steady_tac. Qed.
Lemma still_ensure_directory p : still (ensure_directory p).
Proof. unfold ensure_directory. steady_tac. Qed.
Lemma still_perf on : still (set_perf_mode on).
Proof. apply still_other. Qed.
#[local] Hint Resolve still_if_media still_ensure_directory still_perf : steady.
Lemma still_stats p : still (compute_directory_stats p).
Proof. unfold compute_directory_stats. steady_tac. Qed.
Lemma still_gc p : still (nandroid_dedupe_gc p).
Proof. unfold nandroid_dedupe_gc. steady_tac. Qed.
Lemma still_mounted p : still (roots (ensure_path_mounted p)).
Proof. apply still_roots, steady_mounted. done. Qed.
Lemma still_primary : still (roots get_primary_storage_path).
Proof. apply still_roots, steady_primary. Qed.
Lemma still_volume p : still (roots (volume_for_path p)).
Proof. apply still_roots, steady_volume. Qed.
#[local] Hint Resolve still_stats still_gc still_mounted still_primary still_volume : steady.
Lemma still_configuration f : still (build_configuration_path f).
Proof. unfold build_configuration_path. steady_tac. Qed.
#[local] Hint Resolve still_configuration : steady.
Lemma still_progress : still shows_progress.
Proof. unfold shows_progress. steady_tac. Qed.
Lemma still_mounted_fs v : still (mounted_filesystem v).
Proof. unfold mounted_filesystem. steady_tac. Qed.
Lemma still_property a b : still (property_get a b).
Proof. unfold property_get. steady_tac. Qed.
#[local] Hint Resolve still_progress still_mounted_fs still_property : steady.
Lemma handler_of_ok fmt : handler_of fmt <> tar_dump_wrapper.
Proof. unfold handler_of. by repeat case_bool_decide. Qed.
Lemma still_set_format fmt : still (set_handler (handler_of fmt)).
Proof. apply still_set_handler, handler_of_ok. Qed.
Lemma still_format_read x : still (format_read x).
Proof. unfold format_read. steady_tac. Qed.
Lemma still_set_tar : still (set_handler tar_compress_wrapper).
Proof. by apply still_set_handler. Qed.
#[local] Hint Resolve still_set_format still_format_read still_set_tar : steady.

Lemma still_refresh : still refresh_default_backup_handler.
Proof. unfold refresh_default_backup_handler. steady_tac. Qed.
Lemma still_unmounted p : still (roots (ensure_path_unmounted p)).
Proof. apply still_roots, steady_unmounted. Qed.
Lemma still_scan : still (roots scan_mounts_now).
Proof. apply still_roots, steady_scan. done. Qed.
Lemma still_secure : still (roots get_android_secure_path).
Proof. apply still_roots, steady_secure. Qed.
#[local] Hint Resolve still_refresh still_unmounted still_scan still_secure : steady.

(** ** What is backed up *)

Context (Hbacking : backing_up = true).

Definition any (_ : list event) (_ : call) : Prop := True.

(** A program whose calls do not matter, in front of another one. *)
Lemma does_skip {A B} P (m : N A) (k : A -> N B) R `{!Lasting P} : still m -> (forall a, does any P (k a) R) -> does any P (mbind_ m k) R.
Proof. intros Hm Hk. eapply does_bind; [by eapply does_steady|]. intros a. cbn beta. apply Hk. Qed.

Lemma does_getn {A} ok P (k : NState -> N A) R : (forall n, archives n -> does ok P (k n) R) -> does ok P (mbind_ getn k) R.
Proof. intros Hk h s Hs HP. apply (Hk s.2 (proj2 Hs) h s Hs HP). Qed.

Lemma does_volume {A} ok P p (k : option Volume -> N A) R : does ok P (k (fs_mgr_get_entry_for_mount_point t p)) R ->
  does ok P (mbind_ (roots (volume_for_path p)) k) R.
Proof. intros Hk h [g n] Hs HP. pose proof (proj1 Hs) as E. cbn in E. cbn. rewrite E. by apply Hk. Qed.

Definition backup_command (h : nandroid_backup_handler) (path image media : list Z) : list Z :=
  match h with
  | mkyaffs2image_wrapper => mkyaffs2image_command path image
  | tar_compress_wrapper => tar_compress_command path image media
  | tar_gzip_compress_wrapper => tar_gzip_compress_command path image media
  | tar_dump_wrapper => tar_dump_command path media
  | dedupe_compress_wrapper => dedupe_compress_command path image media
  end.

(** A command that makes an archive of [path] in the backup ended with 0. *)
Definition archived (bp path : list Z) (h : list event) : Prop :=
  exists handler fs media, handler <> tar_dump_wrapper /\
    answered (CPclose (backup_command handler path (bp ++ str "/" ++ basename path ++ str "." ++ fs) media)) 0 ∈ h.

(** The image of a raw partition was made. *)
Definition dumped (bp root : list Z) (v : Volume) (h : list event) : Prop :=
  answered (CRaw (str "backup_raw_partition") (get_flash_type (str (fs_type v)))
    [str (blk_device v); bp ++ str "/" ++ basename root ++ str ".img"]) 0 ∈ h.

Definition saved (bp root : list Z) (v : Volume) (h : list event) : Prop :=
  if is_raw (str (fs_type v)) then dumped bp root v h else archived bp root h.

#[local] Instance lasting_archived bp p : Lasting (archived bp p).
Proof. intros h h' (hd & fs & m & Hn & Hin). exists hd, fs, m. split; [done|]. by apply (lasting_in _ h h'). Qed.
#[local] Instance lasting_saved bp p v : Lasting (saved bp p v).
Proof. unfold saved, dumped. destruct (is_raw _); [apply lasting_in|apply lasting_archived]. Qed.

(** The status of the command is what is returned. *)
Lemma popen_does cmd cb after : still after -> does any (fun _ => True) (popen_lines cmd cb after) (fun h r => r = 0 -> answered (CPclose cmd) 0 ∈ h).
Proof.
  intros Ha. unfold popen_lines. eapply does_bind; [by apply (does_invoke any (CPopen cmd) _ (fun _ _ => True))|]. intros fp. cbn beta. destruct fp as [text|].
  - apply does_skip; [apply _|apply still_read_lines|]. intros _. apply does_skip; [apply _|done|]. intros _.
    apply (does_invoke any (CPclose cmd)); [done|]. intros h r _ ->. apply elem_of_app. right. by left.
  - apply does_skip; [apply _|done|]. intros _. by apply does_ret.
Qed.

(** [sprintf] returns what is printed. *)
Lemma does_sprintf {A} ok P s (k : list Z -> N A) R : does ok P (k s) R -> does ok P (mbind_ (sprintf s) k) R.
Proof. intros Hk h [g n] Hs HP. unfold sprintf, sprintf_path, roots, mbind_. cbn. destruct (_ <=? _); [done|]. by apply Hk. Qed.

Lemma backup_handler_does hd path image cb : hd <> tar_dump_wrapper ->
  does any (fun _ => True) (backup_handler hd path image cb) (fun h r => r = 0 -> exists media, answered (CPclose (backup_command hd path image media)) 0 ∈ h).
Proof.
  intros Hhd.
  assert (forall cmd after, still after -> (exists media, cmd = backup_command hd path image media) -> does any (fun _ => True) (popen_lines cmd cb after)
    (fun h r => r = 0 -> exists media, answered (CPclose (backup_command hd path image media)) 0 ∈ h)) as Hp.
  { intros cmd after Ha (media & ->). eapply does_mono; [by apply popen_does|done|]. cbn. eauto. }
  destruct hd; [| | |done|]; cbn [backup_handler].
  - unfold mkyaffs2image. apply does_sprintf, Hp; [steady_tac|]. by exists [].
  - unfold tar_compress, do_tar_compress. apply does_skip; [apply _|steady_tac|]. intros media. apply does_sprintf.
    apply does_skip; [apply _|steady_tac|]. intros _. apply Hp; [steady_tac|]. by exists media.
  - unfold tar_gzip_compress, do_tar_compress. apply does_skip; [apply _|steady_tac|]. intros media. apply does_sprintf.
    apply does_skip; [apply _|steady_tac|]. intros _. apply Hp; [steady_tac|]. by exists media.
  - unfold dedupe_compress. apply does_sprintf. apply does_skip; [apply _|steady_tac|]. intros _. apply does_skip; [apply _|steady_tac|]. intros n.
    apply does_skip; [apply _|steady_tac|]. intros _. apply does_skip; [apply _|steady_tac|]. intros media. apply does_sprintf, Hp; [steady_tac|]. by exists media.
Qed.

Lemma get_backup_handler_does p : does any (fun _ => True) (get_backup_handler p) (fun _ r => forall hd, r = Some hd -> hd <> tar_dump_wrapper).
Proof.
  unfold get_backup_handler. apply does_volume. destruct (fs_mgr_get_entry_for_mount_point t p) as [v|]; [|by apply does_ret].
  apply does_skip; [apply _|steady_tac|]. intros [fs|]; [|by apply does_ret]. apply does_getn. intros n Hn. specialize (Hn Hbacking).
  apply does_skip; [apply _|steady_tac|]. intros [|]; [apply does_ret; by intros h _ hd [= <-]|].
  destruct (0 <? _); [apply does_ret; by intros h _ hd [= <-]|]. apply does_skip; [apply _|steady_tac|]. intros x.
  destruct (_ && _); apply does_ret; by intros h _ hd [= <-].
Qed.

Lemma extended_does bp mp u : bp <> str "-" ->
  does any (fun _ => True) (nandroid_backup_partition_extended bp mp u) (fun h r => r = 0 -> archived bp mp h).
Proof.
  intros Hbp. unfold nandroid_backup_partition_extended. cbv zeta. apply does_skip; [apply _|steady_tac|]. intros cb.
  apply does_skip; [apply _|steady_tac|]. intros m. destruct (negb (m =? 0)); [by apply does_ret|].
  apply does_skip; [apply _|steady_tac|]. intros _. apply does_skip; [apply _|steady_tac|]. intros _. apply does_skip; [apply _|steady_tac|]. intros v.
  apply does_skip; [apply _|steady_tac|]. intros mv. rewrite bool_decide_false by done. apply does_sprintf.
  eapply does_bind; [apply get_backup_handler_does|]. intros [hd|]; cbn beta; [|by apply does_ret].
  eapply (does_bind _ _ _ _ (fun h r => r = 0 -> archived bp mp h)).
  - intros h s Hs Hhd. eapply always_mono; [| |apply (backup_handler_does hd); [by apply Hhd|exact Hs|done]]; [done|].
    intros h' [r s'] [Hr Hq]. split; [done|]. intros E. destruct (Hq E) as (media & Hm). exists hd, (default (str "auto") mv), media. split; [by apply Hhd|done].
  - intros r. apply does_skip; [apply _|steady_tac|]. intros _. by apply does_ret.
Qed.

Lemma raw_does v root bp : is_raw (str (fs_type v)) = true ->
  does any (fun _ => True) (roots (backup_raw_partition BOARD_BML_BOOT (Some (str (fs_type v))) (str (blk_device v)) (bp ++ str "/" ++ basename root ++ str ".img")))
    (fun h r => r = 0 -> dumped bp root v h).
Proof.
  intros Hraw h [g n] [Hg Hn] _. unfold roots, backup_raw_partition, detect_partition. apply always_bind. unfold mbind_ at 1.
  apply always_bind. unfold mbind_ at 1. apply always_bind.
  eapply always_mono; [| |apply (steady_flash_type BOARD_BML_BOOT t h g Hg)]; [done|]. intros h' [ty g'] Hg'. cbn [mret always].
  unfold flash_command, dumped. set (ft := get_flash_type (str (fs_type v))).
  assert ((ft =? MTD) || (ft =? MMC) || (ft =? BML) = true) as ->.
  { unfold is_raw in Hraw. unfold ft, get_flash_type. repeat case_bool_decide; done. }
  split; [done|]. intros r. split; [done|]. cbn. intros ->. apply elem_of_app. right. by left.
Qed.

Lemma partition_does bp root : bp <> str "-" ->
  does any (fun _ => True) (nandroid_backup_partition BOARD_BML_BOOT bp root)
    (fun h r => r = 0 -> forall v, fs_mgr_get_entry_for_mount_point t root = Some v -> saved bp root v h).
Proof.
  intros Hbp. unfold nandroid_backup_partition. apply does_volume. destruct (fs_mgr_get_entry_for_mount_point t root) as [v|]; [|by apply does_ret].
  unfold saved. destruct (is_raw (str (fs_type v))) eqn:Er.
  - rewrite bool_decide_false by done. apply does_sprintf. eapply does_mono; [by apply raw_does|done|]. intros h r H Hr v' [= <-]. rewrite Er. by apply H.
  - eapply does_mono; [by apply extended_does|done|]. intros h r H Hr v' [= <-]. rewrite Er. by apply H.
Qed.

(** One step after another, up to the first that fails. *)
Lemma does_chain P E m k (R : list event -> Prop) `{!Lasting P} : does any (fun _ => True) m (fun h r => r = 0 -> E h) ->
  does any (fun h => P h /\ E h) k (fun h r => r = 0 -> R h) -> does any P (or_return m k) (fun h r => r = 0 -> R h).
Proof.
  intros Hm Hk. eapply (does_or_return _ _ _ _ (fun h r => (r = 0 -> E h) /\ P h)).
  - eapply does_mono; [by eapply (does_keep _ _ _ _ P)|done|done].
  - by intros h r Hr _ Hr'.
  - eapply does_mono; [exact Hk| |done]. intros h [H1 H2]. auto.
Qed.

(** The same for a step that does not matter. *)
Lemma does_chain_skip P m k (R : list event -> Prop) `{!Lasting P} : still m ->
  does any P k (fun h r => r = 0 -> R h) -> does any P (or_return m k) (fun h r => r = 0 -> R h).
Proof.
  intros Hm Hk. apply (does_chain P (fun _ => True)); [done| |eapply does_mono; [exact Hk|by intros h [? _]|done]].
  eapply (does_mono any (fun _ => True) _ _ (fun _ _ => True)); [by eapply does_steady|done|done].
Qed.

Lemma still_backup_extended bp p u : still (nandroid_backup_partition_extended bp p u).
Proof.
  assert (forall hd a b c, still (backup_handler hd a b c)) as Hh.
  { intros hd a b c. unfold backup_handler, mkyaffs2image, tar_compress, tar_gzip_compress, tar_dump, dedupe_compress, do_tar_compress, popen_lines. steady_tac. }
  assert (forall p, still (get_backup_handler p)) as Hg by (intros q; unfold get_backup_handler; steady_tac).
  unfold nandroid_backup_partition_extended. steady_tac.
Qed.

Lemma still_backup_raw a b c : still (roots (backup_raw_partition BOARD_BML_BOOT a b c)).
Proof. apply still_roots, steady_raw. Qed.
#[local] Hint Resolve still_backup_extended still_backup_raw : steady.

Lemma still_backup_partition bp p : still (nandroid_backup_partition BOARD_BML_BOOT bp p).
Proof. unfold nandroid_backup_partition. steady_tac. Qed.
#[local] Hint Resolve still_backup_partition : steady.

(** What the backup of the partitions has done when it returns 0. *)
Definition all_saved (bp : list Z) (h : list event) : Prop :=
  (forall root v, root ∈ [str "/boot"; str "/recovery"; str "/system"; str "/data"; str "/datadata"] ->
     fs_mgr_get_entry_for_mount_point t root = Some v -> saved bp root v h) /\ archived bp (str "/cache") h.

Definition complete (bp : list Z) (h : list event) : Prop := exists h1 h2, h = h1 ++ answered (CMd5Gen bp) 0 :: h2 /\ all_saved bp h1.

Definition root_saved (bp root : list Z) (h : list event) : Prop :=
  forall v, fs_mgr_get_entry_for_mount_point t root = Some v -> saved bp root v h.

#[local] Instance lasting_root bp root : Lasting (root_saved bp root).
Proof. intros h h' H v Hv. by apply lasting, H. Qed.

#[local] Instance lasting_complete bp : Lasting (complete bp).
Proof. intros h h' (h1 & h2 & -> & H). exists h1, (h2 ++ h'). by rewrite <- app_assoc. Qed.

Lemma partitions_does bp : bp <> str "-" -> does any (fun _ => True) (backup_partitions BOARD_BML_BOOT bp) (fun h r => r = 0 -> complete bp h).
Proof.
  intros Hbp. pose proof (fun root => partition_does bp root Hbp) as Hp.
  assert (does any (fun _ => True) (let* d := has_datadata in if d : bool then nandroid_backup_partition BOARD_BML_BOOT bp (str "/datadata") else mret 0)
    (fun h r => r = 0 -> root_saved bp (str "/datadata") h)) as Hdd.
  { apply (does_bind _ _ _ _ (fun _ b => b = false -> fs_mgr_get_entry_for_mount_point t (str "/datadata") = None)).
    - unfold has_datadata. apply does_volume, does_ret. intros _ _ Hb. apply bool_decide_eq_false in Hb.
      by destruct (fs_mgr_get_entry_for_mount_point _ _); [exfalso; apply Hb|].
    - intros [|]; [eapply does_mono; [apply Hp|done|done]|]. apply does_ret. intros h Hb _ v Hv. by rewrite Hb in Hv. }
  unfold backup_partitions.
  eapply (does_chain _ (root_saved bp (str "/boot"))); [apply _|apply Hp|]. eapply (does_chain _ (root_saved bp (str "/recovery"))); [apply _|apply Hp|].
  apply does_chain_skip; [apply _|unfold backup_wimax, device_there; steady_tac|].
  eapply (does_chain _ (root_saved bp (str "/system"))); [apply _|apply Hp|]. eapply (does_chain _ (root_saved bp (str "/data"))); [apply _|apply Hp|].
  eapply (does_chain _ (root_saved bp (str "/datadata"))); [apply _|exact Hdd|].
  apply does_chain_skip; [apply _|unfold backup_android_secure; steady_tac|].
  eapply (does_chain _ (archived bp (str "/cache"))); [apply _|by apply extended_does|].
  apply does_chain_skip; [apply _|unfold backup_sdext, device_there; steady_tac|].
  eapply (does_or_return _ _ _ _ (fun h r => r = 0 -> complete bp h)); [|done|].
  - apply (does_invoke any (CMd5Gen bp)); [done|]. intros h r ((((((_ & H1) & H2) & H3) & H4) & H5) & H6) ->. exists h, []. split; [done|]. split; [|done].
    intros root v Hin Hv. repeat (apply elem_of_cons in Hin as [->|Hin]; [by auto|]). by apply not_elem_of_nil in Hin.
  - eapply does_mono; [eapply (does_steady any _ _ (complete bp)); [unfold finish_backup; steady_tac|done]|auto|auto].
Qed.

End Runs.

(** ** What is restored *)

Section Restore.
  Context `{FM : FsMgr} `{VC : VoldCodes} (BOARD_BML_BOOT : list Z) (use_f2fs : bool).
  Context (t : list Volume).
  Abbreviation does := (does t false).
  Abbreviation still := (steady (ready t false) (fun _ => True)).

(** From where on every call is fine. *)
Lemma does_any_ok {A} ok P (m : N A) Q `{!Lasting P} : (forall h c, P h -> ok h c) -> does any (fun _ => True) m Q ->
  does ok P m (fun h a => Q h a /\ P h).
Proof.
  intros Hok Hm h s Hs HP. eapply (always_allowed _ (fun _ => True)); [done|exact HP|by intros h' c HP' _; apply Hok|].
  eapply always_mono; [| |eapply (always_lasting any _ P); [exact HP|by apply Hm]]; [done|]. by intros h' r (? & ? & ?).
Qed.

(** Only looked and mounted so far. *)
Definition untouched (h : list event) : Prop := Forall (fun e => mounting (projT1 e) = true) h.

(** The names under which the image of [name] is looked for. *)
Definition images (bp name : list Z) : list (list Z) :=
  (bp ++ str "/" ++ name ++ str ".img") ::
  flat_map (fun fs => map (fun k => (bp ++ str "/" ++ name ++ str "." ++ fs) ++ fst k) image_kinds) filesystems.

Definition found_image (bp name : list Z) (img : list Z) (h : list event) : Prop := img ∈ images bp name /\ answered (CStat img) 0 ∈ h.

#[global] Instance lasting_found bp name img : Lasting (found_image bp name img).
Proof. intros h h' [H1 H2]. split; [done|]. by apply (lasting_in _ h h'). Qed.

Definition restore_command (h : nandroid_restore_handler) (image path : list Z) : list Z :=
  match h with
  | unyaffs_wrapper => unyaffs_command image path
  | tar_gzip_extract_wrapper => tar_gzip_extract_command image path
  | tar_extract_wrapper | tar_undump_wrapper => tar_extract_command image path
  | dedupe_extract_wrapper => dedupe_extract_command image path
  end.

(** A command that unpacks [img] into [mp] ended with 0. *)
Definition unpacked (img mp : list Z) (h : list event) : Prop := exists handler, answered (CPclose (restore_command handler img mp)) 0 ∈ h.

Definition guarded (bp name : list Z) (h : list event) (c : call) : Prop := mounting c = false -> exists img, found_image bp name img h.

Lemma stat_untouched bp name path (P : list event -> Prop) : (forall h, P h -> untouched h) ->
  does (guarded bp name) P (invoke (CStat path)) (fun h r => untouched h /\ (r = 0 -> answered (CStat path) 0 ∈ h)).
Proof.
  intros HP. apply (does_invoke _ _ _ (CStat path)); [by intros h _ Hm|]. intros h r Hh. split.
  - apply Forall_app. split; [by apply HP|]. by repeat constructor.
  - intros ->. apply elem_of_app. right. by left.
Qed.

Lemma find_kind_does bp name prefix kinds : does (guarded bp name) untouched (find_kind prefix kinds) (fun h r =>
  match r with None => untouched h | Some (tmp, hd) => answered (CStat tmp) 0 ∈ h /\ exists k, k ∈ kinds /\ tmp = prefix ++ k.1 /\ hd = k.2 end).
Proof.
  induction kinds as [|[suffix hd] kinds IH]; cbn [find_kind]; [by apply does_ret|]. apply does_sprintf.
  eapply does_bind; [by apply stat_untouched|]. intros st. cbn beta. destruct (st =? 0) eqn:E; bool_to_prop.
  - apply does_ret. intros h [_ H]. split; [by apply H|]. exists (suffix, hd). split; [left|done].
  - eapply does_mono; [exact IH|by intros h [? _]|]. intros h [[tmp hd']|]; [|done]. intros (H & k & Hk & ?). split; [done|]. exists k. split; [by right|done].
Qed.

Lemma find_image_does bp name fss : fss ⊆ filesystems -> does (guarded bp name) untouched (find_image bp name fss) (fun h r =>
  match r with None => untouched h | Some (tmp, fs, hd) => found_image bp name tmp h /\ hd <> tar_undump_wrapper end).
Proof.
  induction fss as [|fs fss IH]; intros Hfs; cbn [find_image]; [by apply does_ret|].
  eapply does_bind; [apply find_kind_does|]. intros [[tmp hd]|]; cbn beta iota.
  - apply does_ret. intros h (H & k & Hk & -> & ->). split.
    + split; [|done]. unfold images. right. apply list_elem_of_In, in_flat_map. exists fs. split; [apply list_elem_of_In, Hfs; left|].
      apply in_map_iff. exists k. split; [done|]. by apply list_elem_of_In.
    + clear -Hk. repeat (apply elem_of_cons in Hk as [->|Hk]; [done|]). by apply not_elem_of_nil in Hk.
  - apply IH. intros x Hx. apply Hfs. by right.
Qed.

Lemma restore_source_does bp name vol : bp <> str "-" -> does (guarded bp name) untouched (restore_source bp name vol) (fun h r =>
  match r with None => untouched h | Some (tmp, fs, hd) => found_image bp name tmp h /\ hd <> Some tar_undump_wrapper end).
Proof.
  intros Hbp. unfold restore_source. apply does_sprintf. rewrite bool_decide_false by done.
  eapply does_bind; [by apply stat_untouched|]. intros st. cbn beta. destruct (st =? 0) eqn:E; bool_to_prop.
  - apply does_ret. intros h [_ H]. split; [|done]. split; [left|by apply H].
  - eapply does_bind; [eapply does_mono; [apply find_image_does; done|by intros h [? _]|intros h r H; exact H]|].
    intros [[[tmp fs] hd]|]; cbn beta iota; apply does_ret; [|done]. intros h [H1 H2]. split; [done|]. congruence.
Qed.

Lemma restore_handler_does hd img mp cb : hd <> tar_undump_wrapper ->
  does any (fun _ => True) (restore_handler hd img mp cb) (fun h r => r = 0 -> unpacked img mp h).
Proof.
  intros Hhd. assert (forall cmd after, still after -> cmd = restore_command hd img mp -> does any (fun _ => True) (popen_lines cmd cb after)
    (fun h r => r = 0 -> unpacked img mp h)) as Hp.
  { intros cmd after Ha ->. eapply does_mono; [by apply popen_does|done|]. intros h r H Hr. exists hd. by apply H. }
  destruct hd; [| | | |done]; cbn [restore_handler]; unfold unyaffs, tar_gzip_extract, tar_extract, dedupe_extract, do_tar_extract; apply does_sprintf.
  - apply Hp; [apply steady_ret|done].
  - apply does_skip; [apply _|apply still_perf|]. intros _. apply Hp; [apply still_perf|done].
  - apply does_skip; [apply _|apply still_perf|]. intros _. apply Hp; [apply still_perf|done].
  - apply Hp; [apply steady_ret|done].
Qed.

Lemma get_restore_handler_does p : does any (fun _ => True) (get_restore_handler p) (fun _ r => r <> Some tar_undump_wrapper).
Proof.
  unfold get_restore_handler. apply does_volume. destruct (fs_mgr_get_entry_for_mount_point t p) as [v|]; [|by apply does_ret].
  apply does_skip; [apply _|apply still_scan|]. intros _. apply does_skip; [apply _|apply still_mounted_fs|]. intros [fs|]; [|by apply does_ret].
  apply does_skip; [apply _|case_bool_decide; [apply still_data_media|apply steady_ret]|]. intros [|]; [by apply does_ret|].
  apply does_skip; [apply _|apply still_property|]. intros x. by destruct (_ && _); apply does_ret.
Qed.

(** What is done with an image that was found. *)
Lemma restore_rest_does bp mp img bfs hd vol u : bp <> str "-" -> hd <> Some tar_undump_wrapper ->
  does any (fun _ => True) (
    let* removes := removes_files vol in
    let bfs := if removes : bool then None else bfs in
    let* _ := ensure_directory mp in
    let* callback := shows_progress in
    or_return (match bfs with
               | None => roots (format_volume BOARD_BML_BOOT use_f2fs mp)
               | Some fs => let* vol := roots (deref vol) in roots (format_device BOARD_BML_BOOT use_f2fs (str (blk_device vol)) mp fs)
               end) (
    or_return (roots (ensure_path_mounted mp)) (
    let* handler := match hd with Some h => mret (Some h) | None => get_restore_handler mp end in
    let handler := if bool_decide (bp = str "-") then Some tar_undump_wrapper else handler in
    match handler with
    | None => mret (-2)
    | Some h =>
        or_return (restore_handler h img mp callback) (
        let* _ := if u : bool then let* _ := roots (ensure_path_unmounted mp) in mret tt else mret tt in
        mret 0)
    end))) (fun h r => r = 0 -> unpacked img mp h).
Proof.
  intros Hbp Hhd. apply does_skip; [apply _|unfold removes_files; destruct vol; steady_tac; apply still_data_media|]. intros rm. cbv zeta.
  apply does_skip; [apply _|apply still_ensure_directory|]. intros _. apply does_skip; [apply _|apply still_progress|]. intros cb.
  apply does_chain_skip; [apply _|destruct (if rm then None else bfs); [|apply still_roots, steady_format]|].
  { apply steady_bind; [apply still_roots, steady_deref|]. intros v. apply still_roots, steady_format_device. }
  apply does_chain_skip; [apply _|apply still_mounted|]. rewrite bool_decide_false by done.
  eapply (does_bind _ _ _ _ _ _ (fun _ r => r <> Some tar_undump_wrapper)).
  { destruct hd; [by apply does_ret|apply get_restore_handler_does]. }
  intros [hd'|]; cbn beta; [|by apply does_ret].
  eapply (does_or_return _ _ _ _ _ _ (fun h r => r = 0 -> unpacked img mp h)); [|done|].
  - intros h s Hs Hne. apply (restore_handler_does hd'); [congruence|done|done].
  - eapply does_mono; [eapply (does_steady _ _ any _ _ (unpacked img mp)); [|done]|auto|auto].
    apply steady_bind; [destruct u; [apply steady_bind; [apply still_unmounted|intros _; apply steady_ret]|apply steady_ret]|]. intros _. apply steady_ret.
Qed.

End Restore.

Section Theorems.
  Context `{FM : FsMgr} `{VC : VoldCodes} (BOARD_BML_BOOT : list Z) (use_f2fs : bool).

(** [C12] A backup that reports success is complete: in every run of
    [nandroid_backup] to a directory (the path is not "-", the standard output),
    with a default format other than the tar dump, that returns 0, whatever the
    commands answered, the partitions for /boot, /recovery, /system, /data and
    /datadata that the volume table has, and /cache, were saved by commands that
    ended with 0, as images or archives of the backup directory, and only then
    were the checksums made, successfully. Nothing is said of /wimax, /sd-ext and
    .android_secure, which are skipped when their device or directory is not
    found. *)
Theorem nandroid_backup_complete t bp g n h s : fstab g = Some t -> default_backup_handler n <> tar_dump_wrapper -> bp <> str "-" ->
  runs (nandroid_backup BOARD_BML_BOOT bp (g, n)) h (Some (0, s)) -> complete t bp h.
Proof.
  intros Hg Hn Hbp Hr. assert (does t true any (fun _ => True) (nandroid_backup BOARD_BML_BOOT bp) (fun h r => r = 0 -> complete t bp h)) as Hd.
  { unfold nandroid_backup. apply does_skip; [apply _|apply still_set_bitfield|]. intros _. apply does_skip; [apply _|apply still_refresh|]. intros _.
    apply does_skip; [apply _|apply still_mounted|]. intros m. destruct (negb (m =? 0)); [by apply does_ret|].
    apply does_skip; [apply _|apply still_roots, steady_media_path|]. intros media. apply does_skip; [apply _|apply still_volume|].
    intros [v|]; [|by apply does_ret]. apply does_chain_skip; [apply _|by apply (steady_invoke _ _ (COther _ _))|].
    apply does_skip; [apply _|apply still_ensure_directory|]. intros _. by apply partitions_does. }
  by eapply (proj2 (always_runs _ _ _ [] _ _ (Hd [] (g, n) (conj Hg (fun _ => Hn)) I) Hr)).
Qed.

(** [C13] Nothing is restored before the backup was checked: in every run of
    [nandroid_restore], whatever is answered, each call that is not part of
    mounting the backup or the check itself comes after the check of the backup
    was answered with 0, and 0 is returned only if it was. *)
Theorem nandroid_restore_checks_first t bp flags g n h x : fstab g = Some t -> runs (nandroid_restore BOARD_BML_BOOT use_f2fs bp flags (g, n)) h x ->
  (forall h1 c r h2, h = h1 ++ answered c r :: h2 -> mounting c = false -> c <> CMd5Check bp flags -> answered (CMd5Check bp flags) 0 ∈ h1) /\
  (forall s, x = Some (0, s) -> answered (CMd5Check bp flags) 0 ∈ h).
Proof.
  intros Hg Hr. set (e := answered (CMd5Check bp flags) 0). set (ok := fun (h : list event) (c : call) => mounting c = false -> c <> CMd5Check bp flags -> e ∈ h).
  assert (forall (p : prog (Z * (Globals * NState))) h0, e ∈ h0 -> always ok (fun h' r => r.1 = 0 -> e ∈ h') h0 p) as Hlater.
  { induction p as [a| | |c k IH]; intros h0 He; cbn; [done..|]. split; [by intros _ _|]. intros r. apply IH. by apply (lasting_in e h0). }
  assert (always ok (fun h' r => r.1 = 0 -> e ∈ h') [] (nandroid_restore BOARD_BML_BOOT use_f2fs bp flags (g, n))) as Hok.
  { assert (forall m : N unit, steady (ready t false) (fun c => mounting c = true) m -> forall (k : unit -> N Z) h0 s0, ready t false s0 ->
      (forall h' s', ready t false s' -> always ok (fun h' r => r.1 = 0 -> e ∈ h') h' (k tt s')) -> always ok (fun h' r => r.1 = 0 -> e ∈ h') h0 (mbind_ m k s0)) as Hstep.
    { intros m Hm k h0 s0 Hs0 Hk. unfold mbind_. apply always_bind. eapply always_mono; [| |by apply Hm]; [by intros h' c Hc Hm'; congruence|].
      intros h' [[] s'] Hs'. by apply Hk. }
    unfold nandroid_restore. apply Hstep; [by intros h' s' Hs'; split; [apply Hs'|]|by split|]. intros h' s' Hs'. cbv zeta. unfold mbind_ at 1. apply always_bind.
    eapply always_mono; [| |apply (steady_roots t false _ (ensure_path_mounted bp) (steady_mounted t _ (fun c Hc => Hc) bp)); exact Hs'];
      [by intros h2 c Hc Hm'; congruence|]. intros h2 [m s2] Hs2. destruct (negb (m =? 0)); [by cbn|].
    unfold or_return at 1, mbind_ at 1, invoke. cbn [pbind always]. split; [by intros _ Hne|]. intros r. destruct (r =? 0) eqn:Er; cbn [negb]; bool_to_prop; [|by cbn].
    subst r. apply Hlater. apply elem_of_app. right. by left. }
  destruct (always_runs _ _ _ [] _ _ Hok Hr) as [H1 H2]. split; [|intros s' E; by apply (H2 _ E)].
  intros h1 c r h2 E Hm Hc. by apply (H1 _ _ _ _ E).
Qed.

(** [C24] A partition is wiped only for an image that is there: in every run of
    [nandroid_restore_partition_extended] from a backup directory, each call that
    does more than look and mount comes after the image was found under one of
    its names, and when 0 is returned either nothing was done at all or a command
    that unpacks the image that was found ended with 0. *)
Theorem nandroid_restore_needs_image t bp mp u g n h x : fstab g = Some t -> bp <> str "-" ->
  runs (nandroid_restore_partition_extended BOARD_BML_BOOT use_f2fs bp mp u (g, n)) h x ->
  (forall h1 c r h2, h = h1 ++ answered c r :: h2 -> mounting c = false -> exists img, found_image bp (basename mp) img h1) /\
  (forall s, x = Some (0, s) -> untouched h \/ exists img, found_image bp (basename mp) img h /\ unpacked img mp h).
Proof.
  intros Hg Hbp Hr. assert (does t false (guarded bp (basename mp)) untouched (nandroid_restore_partition_extended BOARD_BML_BOOT use_f2fs bp mp u)
    (fun h r => r = 0 -> untouched h \/ exists img, found_image bp (basename mp) img h /\ unpacked img mp h)) as Hd.
  { unfold nandroid_restore_partition_extended. cbv zeta. apply does_volume. eapply does_bind; [by apply restore_source_does|].
    intros [[[img bfs] hd]|]; cbn beta iota; [|apply does_ret; by left].
    intros h0 s0 Hs0 [Hf Hhd]. eapply always_mono; [| |eapply (does_any_ok t (guarded bp (basename mp)) (found_image bp (basename mp) img));
      [apply _|by intros h' c Hf' _; exists img|by apply (restore_rest_does BOARD_BML_BOOT use_f2fs t bp)|exact Hs0|exact Hf]]; [done|].
    intros h' [r s'] (Hs' & H1 & H2). split; [done|]. intros E. right. exists img. split; [done|by apply H1]. }
  assert (ready t false (g, n)) as Hs by (by split).
  destruct (always_runs _ _ _ [] _ _ (Hd [] (g, n) Hs (Forall_nil_2 _)) Hr) as [H1 H2]. split.
  - intros h1 c r h2 E Hm. by apply (H1 _ _ _ _ E).
  - intros s E. destruct (H2 _ E) as [_ H]. by apply H.
Qed.

End Theorems.

(** ** Some runs *)

Definition phone_table : list Volume :=
  [simple_volume "/boot" "emmc" "/dev/boot"; simple_volume "/recovery" "emmc" "/dev/rec"; simple_volume "/system" "ext4" "/dev/sys";
   simple_volume "/data" "ext4" "/dev/d"; simple_volume "/cache" "ext4" "/dev/c"; simple_volume "/sdcard" "vfat" "/dev/sd"].
Definition phone : Globals * NState := (with_fstab (Some phone_table) initial_globals, initial_nandroid).

(** Commands succeed, and everything is mounted; some files are there. *)
Definition phone_answers (there : list string) (c : call) : answer c :=
  match c with
  | CProcMounts => Some (mounts_text (sample_entry <$> [str "/system"; str "/data"; str "/cache"; str "/sdcard"]))
  | CPopen _ => Some []
  | CReadFile _ | CProperty _ | CLocalTime => None
  | CMalloc | CMtdFind _ | CMtdOpen _ => 1
  | CStat p => if bool_decide (p ∈ str <$> there) then 0 else -1
  | _ => 0
  end.

(** The run ends with 0. *)
Definition succeeds {A B} (x : list A * option (Z * B)) : bool := match x.2 with Some (r, _) => r =? 0 | None => false end.

Lemma succeeds_spec {A B} (x : list A * option (Z * B)) : succeeds x = true -> exists s, x.2 = Some (0, s).
Proof. unfold succeeds. destruct x.2 as [[r s]|]; [|done]. intros E. bool_to_prop. subst r. by exists s. Qed.

Definition backup_run := run_with (phone_answers []) (nandroid_backup [] (str "/sdcard/b") phone).

(** The kernel was saved as an image. *)
Lemma nandroid_backup_complete_witness : exists h s, runs (nandroid_backup [] (str "/sdcard/b") phone) h (Some (0, s)) /\
  complete phone_table (str "/sdcard/b") h /\ answered (CRaw (str "backup_raw_partition") MMC [str "/dev/boot"; str "/sdcard/b/boot.img"]) 0 ∈ h.
Proof.
  pose proof (runs_with (phone_answers []) (nandroid_backup [] (str "/sdcard/b") phone) : runs _ backup_run.1 backup_run.2) as Hr.
  destruct (succeeds_spec backup_run ltac:(vm_compute; reflexivity)) as [s Es]. rewrite Es in Hr.
  exists backup_run.1, s. split; [exact Hr|]. pose proof (nandroid_backup_complete [] phone_table (str "/sdcard/b") phone.1 phone.2 _ _ eq_refl ltac:(discriminate) ltac:(discriminate) Hr) as Hc.
  split; [exact Hc|]. destruct Hc as (h1 & h2 & -> & Hall & _). apply elem_of_app. left.
  apply (Hall (str "/boot") (simple_volume "/boot" "emmc" "/dev/boot")); [left|by vm_compute].
Defined.

Definition restore_run := run_with (phone_answers ["/sdcard/b/cache.ext4.tar"]) (nandroid_restore [] true (str "/sdcard/b") NANDROID_CACHE phone).

Fixpoint before_format (h : list event) : list event :=
  match h with
  | [] => []
  | e :: h => match projT1 e with CMakeExt4 _ _ _ => [] | _ => e :: before_format h end
  end.

(** The cache is formatted in this run, and so the check was answered before. *)
Lemma nandroid_restore_checks_first_witness : exists h1 r h2,
  runs (nandroid_restore [] true (str "/sdcard/b") NANDROID_CACHE phone) (h1 ++ answered (CMakeExt4 (str "/dev/c") 0 (str "/cache")) r :: h2) restore_run.2 /\
  answered (CMd5Check (str "/sdcard/b") NANDROID_CACHE) 0 ∈ h1.
Proof.
  pose proof (runs_with (phone_answers ["/sdcard/b/cache.ext4.tar"]) (nandroid_restore [] true (str "/sdcard/b") NANDROID_CACHE phone) : runs _ restore_run.1 restore_run.2) as Hr.
  assert (exists h1 r h2, restore_run.1 = h1 ++ answered (CMakeExt4 (str "/dev/c") 0 (str "/cache")) r :: h2) as (h1 & r & h2 & E).
  { exists (before_format restore_run.1), 0, (drop (S (length (before_format restore_run.1))) restore_run.1). vm_compute. reflexivity. }
  rewrite E in Hr. exists h1, r, h2. split; [exact Hr|].
  apply (proj1 (nandroid_restore_checks_first [] true phone_table _ _ phone.1 phone.2 _ _ eq_refl Hr) h1 _ r h2 eq_refl); done.
Defined.

Definition restore_cache_run := run_with (phone_answers ["/sdcard/b/cache.ext4.tar"]) (nandroid_restore_partition_extended [] true (str "/sdcard/b") (str "/cache") false phone).

Lemma nandroid_restore_needs_image_witness : exists s,
  runs (nandroid_restore_partition_extended [] true (str "/sdcard/b") (str "/cache") false phone) restore_cache_run.1 (Some (0, s)) /\
  exists img, found_image (str "/sdcard/b") (basename (str "/cache")) img restore_cache_run.1 /\ unpacked img (str "/cache") restore_cache_run.1.
Proof.
  pose proof (runs_with (phone_answers ["/sdcard/b/cache.ext4.tar"]) (nandroid_restore_partition_extended [] true (str "/sdcard/b") (str "/cache") false phone) : runs _ restore_cache_run.1 restore_cache_run.2)
    as Hr. destruct (succeeds_spec restore_cache_run ltac:(vm_compute; reflexivity)) as [s Es]. rewrite Es in Hr.
  exists s. split; [exact Hr|].
  destruct (nandroid_restore_needs_image [] true phone_table (str "/sdcard/b") (str "/cache") false phone.1 phone.2 restore_cache_run.1 (Some (0, s))
    eq_refl ltac:(discriminate) Hr) as [_ Hx]. destruct (Hx s eq_refl) as [Hu|H]; [|exact H].
  exfalso. assert (existsb (fun e => negb (mounting (projT1 e))) restore_cache_run.1 = true) as Hy by (vm_compute; reflexivity).
  apply existsb_exists in Hy as (e & Hin & He). unfold untouched in Hu. rewrite Forall_forall in Hu. apply list_elem_of_In, Hu in Hin. by rewrite Hin in He.
Defined.

(** ** Flaws *)

(** A raw partition is erased before anyone looks whether there is an image for
    it: it stays empty when there is none. *)
Lemma raw_restore_erases_first :
  (calls_of (fun c => match c with CRaw _ _ _ => -1 | c => phone_answers [] c end)
    (nandroid_restore_partition [] true (str "/sdcard/b") (str "/boot")
      (with_fstab (Some [simple_volume "/boot" "mtd" "boot"; simple_volume "/sdcard" "vfat" "/dev/sd"]) initial_globals, initial_nandroid))).1 =
  [CMalloc; CProcMounts; CMtdFind (str "boot"); CMtdOpen (str "boot"); CMtdErase (str "boot"); CMtdClose (str "boot"); CAccess [];
   CRaw (str "restore_raw_partition") MTD [str "boot"; str "/sdcard/b/boot.img"]].
Proof. vm_compute. reflexivity. Qed.

(** Restoring a partition nobody knows succeeds. *)
Lemma undump_unknown `{FM : FsMgr} `{VC : VoldCodes} g n partition : partition ∉ [str "boot"; str "recovery"; str "system"; str "data"] ->
  (calls_of (phone_answers []) (nandroid_undump [] true partition (g, n))).1 = [COther (str "sync") []] /\
  exists s, (calls_of (phone_answers []) (nandroid_undump [] true partition (g, n))).2 = Some (0, s).
Proof.
  intros Hp. assert (forall x, x ∈ [str "boot"; str "recovery"; str "system"; str "data"] -> bool_decide (partition = x) = false) as E.
  { intros x Hx. apply bool_decide_eq_false. by intros ->. }
  unfold nandroid_undump. cbn [set_total]. rewrite !E by by_decide. split; [done|by eexists].
Qed.

(** A file with the format of backups that is too short is not read as one. *)
Lemma short_format : format_read (str "du") phone = Undefined.
Proof. by vm_compute. Qed.
