(* ===== verification/Mmcutils.v ===== *)
(** * eMMC partitions ([mmcutils/mmcutils.c])

    The partition table of the device: four entries in the first sector, and a
    chain of sectors with one logical partition each when the last of the four is
    an extended one.  Partitions are found by name or device, and read and written
    as a whole.  The state of the library is passed on explicitly; programs and
    [mount] are parameters, and what is printed is left out. *)
From stdpp Require Import pretty.
From S2P Require Import Prelude.
From S2P Require Import Posix.
From S2P Require Import Stdio.
Local Open Scope string_scope.
Local Open Scope Z_scope.
Local Open Scope list_scope.

Definition TABLE_ENTRY_0 : Z := 446.
Definition TABLE_ENTRY_1 : Z := 462.
Definition TABLE_SIGNATURE : Z := 510.
Definition TABLE_ENTRY_SIZE : Z := 16.
Definition OFFSET_STATUS : Z := 0.
Definition OFFSET_TYPE : Z := 4.
Definition OFFSET_FIRST_SEC : Z := 8.
Definition OFFSET_SIZE : Z := 12.
Definition MMC_BOOT_TYPE : Z := 72.
Definition MMC_RECOVERY_TYPE : Z := 113.
Definition MMC_EXT3_TYPE : Z := 131.
Definition MMC_VFAT_TYPE : Z := 12.
Definition MAX_PARTITIONS : Z := 64.

Definition ext3_partitions : list (list Z) := [str "system"; str "userdata"; str "cache"; str "NONE"].
Definition vfat_partitions : list (list Z) := [str "modem"; str "NONE"].
Definition MMC_DEVICENAME : list Z := str "/dev/block/mmcblk0".

(** [None] stands for NULL. *)
Record MmcPartition := mkMmc {
  device_index : option (list Z);
  filesystem : option (list Z);
  name : option (list Z);
  dstatus : Z;
  dtype : Z;
  dfirstsec : Z;
  dsize : Z
}.

(** [partitions_allocd] is the length of the array. *)
Record MmcState := mkMmcState { partitions : option (list MmcPartition); partition_count : Z }.

Definition g_mmc_state : MmcState := mkMmcState None (-1).

Definition no_partition : MmcPartition := mkMmc None None None 0 0 0 0.

(** [ext3_count] and [vfat_count]. *)
Record counts := mkCounts { ext3_count : nat; vfat_count : nat }.

(** [mmc_partition_name]: the name and the file system a type stands for. *)
Definition mmc_partition_name (mbr : MmcPartition) (type : Z) (c : counts) : outcome (MmcPartition * counts) :=
  let named n p := mkMmc (device_index p) (filesystem p) (Some n) (dstatus p) (dtype p) (dfirstsec p) (dsize p) in
  let typed t p := mkMmc (device_index p) (Some t) (name p) (dstatus p) (dtype p) (dfirstsec p) (dsize p) in
  if type =? MMC_BOOT_TYPE then Done (named (str "boot") mbr, c)
  else if type =? MMC_RECOVERY_TYPE then Done (named (str "recovery") mbr, c)
  else if type =? MMC_EXT3_TYPE then
    n ← access (ext3_partitions !! ext3_count c);
    if bool_decide (n = str "NONE") then Done (typed (str "ext3") mbr, c)
    else Done (typed (str "ext3") (named n mbr), mkCounts (S (ext3_count c)) (vfat_count c))
  else if type =? MMC_VFAT_TYPE then
    n ← access (vfat_partitions !! vfat_count c);
    if bool_decide (n = str "NONE") then Done (typed (str "vfat") mbr, c)
    else Done (typed (str "vfat") (named n mbr), mkCounts (ext3_count c) (S (vfat_count c)))
  else Done (mbr, c).

(** [GET_LWORD_FROM_BYTE(&buffer[x])], an [unsigned]. *)
Definition GET_LWORD_FROM_BYTE (buffer : list Z) (x : Z) : option Z :=
  b0 ← buf_get buffer x; b1 ← buf_get buffer (x + 1); b2 ← buf_get buffer (x + 2); b3 ← buf_get buffer (x + 3);
  Some (wrap 32 (b0 .| (b1 <<< 8) .| (b2 <<< 16) .| (b3 <<< 24))).

(** [sprintf(device_index, "%sp%d", ...)] into 128 bytes. *)
Definition device_name (device : list Z) (n : Z) : outcome (list Z) :=
  let s := device ++ str ("p" +:+ pretty n) in if zlen s <? 128 then Done s else Undef.

(** The entry at [idx] of the sector, for a table that starts at [base], into
    [mbr[count]].  What is not overwritten stays. *)
Definition read_table_entry (device buffer : list Z) (idx base : Z) (mbr : list MmcPartition) (count : nat) (c : counts) :
    outcome (list MmcPartition * counts) :=
  old ← access (mbr !! count);
  status ← access (buf_get buffer (idx + OFFSET_STATUS));
  type ← access (buf_get buffer (idx + OFFSET_TYPE));
  first ← access (GET_LWORD_FROM_BYTE buffer (idx + OFFSET_FIRST_SEC));
  size ← access (GET_LWORD_FROM_BYTE buffer (idx + OFFSET_SIZE));
  '(p, c) ← mmc_partition_name (mkMmc (device_index old) (filesystem old) (name old) status type (wrap 32 (first + base)) size) type c;
  device_index ← device_name device (Z.of_nat count + 1);
  Done (<[count := mkMmc (Some device_index) (filesystem p) (name p) (dstatus p) (dtype p) (dfirstsec p) (dsize p)]> mbr, c).

(** The loop over the four entries. *)
Fixpoint read_primary (n : nat) (device buffer : list Z) (i : Z) (mbr : list MmcPartition) (count : nat) (c : counts) :
    outcome (list MmcPartition * nat * counts) :=
  match n with
  | O => Done (mbr, count, c)
  | S n =>
      '(mbr, c) ← read_table_entry device buffer (TABLE_ENTRY_0 + i * TABLE_ENTRY_SIZE) 0 mbr count c;
      if Z.of_nat (S count) =? MAX_PARTITIONS then Done (mbr, S count, c) else read_primary n device buffer (i + 1) mbr (S count) c
  end.

Definition has_signature (buffer : list Z) : outcome bool :=
  a ← access (buf_get buffer TABLE_SIGNATURE); b ← access (buf_get buffer (TABLE_SIGNATURE + 1));
  Done ((a =? 85) && (b =? 170)).

Section Mmc.
  Context {Dev : Type} (fuel : nat).
  Abbreviation W := (W tree Dev).
  (** [fork], [execv] and [waitpid]: the exit status, [None] for a program that did
      not exit; [mount]. *)
  Context (execute : list (list Z) -> W (option Z)) (mount : list Z -> list Z -> list Z -> Z -> W Z).

(** ** The partition table *)

(** [fseek(fd, sector * 512, SEEK_SET)]: the product is an [unsigned], the offset
    a [long]; a negative one is refused. *)
Definition seek_sector (sector : Z) (f : rfile) : rfile :=
  let offset := swrap 32 (wrap 32 (sector * 512)) in if offset <? 0 then f else mkR (r_node f) offset.

(** [fread(buffer, 512, 1, fd)]: [None] unless it is 1. *)
Definition read_sector (f : rfile) : W (option (list Z) * rfile) :=
  let! (buffer, f) := fread 512 f in wret (if zlen buffer =? 512 then Some buffer else None, f).

(** The loop over the chain; the result is that of [mmc_read_mbr]. *)
Fixpoint read_ebr (n : nat) (device buffer : list Z) (f : rfile) (EBR_first_sec EBR_current_sec : Z) (mbr : list MmcPartition)
    (count : nat) (c : counts) : W (Z * list MmcPartition) :=
  match n with
  | O => wlift Diverge
  | S n =>
      let! sig := wlift (has_signature buffer) in
      if negb sig then wret (Z.of_nat count, mbr)
      else
        let! (mbr, c) := wlift (read_table_entry device buffer TABLE_ENTRY_0 EBR_current_sec mbr count c) in
        let count := S count in
        if Z.of_nat count =? MAX_PARTITIONS then wret (Z.of_nat count, mbr)
        else
          let! dfirstsec := wlift (access (GET_LWORD_FROM_BYTE buffer (TABLE_ENTRY_1 + OFFSET_FIRST_SEC))) in
          if dfirstsec =? 0 then wret (Z.of_nat count, mbr)
          else
            let next := wrap 32 (EBR_first_sec + dfirstsec) in
            let! (buffer, f) := read_sector (seek_sector next f) in
            match buffer with
            | None => wret (-1, mbr)
            | Some buffer => read_ebr n device buffer f EBR_first_sec next mbr count c
            end
  end.

Definition mmc_read_mbr (device : list Z) (mbr : list MmcPartition) : W (Z * list MmcPartition) :=
  let! fd := fopen_r device in
  match fd with
  | inr _ => wret (-1, mbr)
  | inl fd =>
      let! (buffer, fd) := read_sector fd in
      match buffer with
      | None => wret (-1, mbr)
      | Some buffer =>
          let! sig := wlift (has_signature buffer) in
          if negb sig then wret (-1, mbr)
          else
            let! (mbr, count, c) := wlift (read_primary 4 device buffer 0 mbr 0 (mkCounts 0 0)) in
            if Z.of_nat count =? MAX_PARTITIONS then wret (Z.of_nat count, mbr)
            else
              let! last := wlift (access (mbr !! (count - 1)%nat)) in
              if negb (dtype last =? 5) then wret (Z.of_nat count, mbr)
              else
                let! (buffer, fd) := read_sector (seek_sector (dfirstsec last) fd) in
                match buffer with
                | None => wret (-1, mbr)
                | Some buffer => read_ebr fuel device buffer fd (dfirstsec last) (dfirstsec last) mbr count c
                end
      end
  end.

Definition mmc_scan_partitions (g : MmcState) : W (Z * MmcState) :=
  let scan ps :=
    let ps := (fun p => mkMmc None None None (dstatus p) (dtype p) (dfirstsec p) (dsize p)) <$> ps in
    let! (n, ps) := mmc_read_mbr MMC_DEVICENAME ps in
    wret (n, mkMmcState (Some ps) n) in
  match partitions g with
  | Some ps => scan ps
  | None =>
      let! a := ask in
      if a <? 0 then wret (-1, g) else scan (replicate (Z.to_nat MAX_PARTITIONS) no_partition)
  end.

(** ** Finding partitions *)

(** The first one with a device and a name for which [test] is true. *)
Fixpoint find_partition (test : list Z -> list Z -> bool) (ps : list MmcPartition) : option MmcPartition :=
  match ps with
  | [] => None
  | p :: ps =>
      match device_index p, name p with
      | Some d, Some n => if test d n then Some p else find_partition test ps
      | _, _ => find_partition test ps
      end
  end.

Definition mmc_find_partition_by_device_index (device_index : list Z) (g : MmcState) : option MmcPartition :=
  ps ← partitions g; find_partition (fun d _ => bool_decide (d = device_index)) ps.

Definition mmc_find_partition_by_name (name : list Z) (g : MmcState) : option MmcPartition :=
  if bool_decide (head name = Some SLASH) then mmc_find_partition_by_device_index name g
  else ps ← partitions g; find_partition (fun _ n => bool_decide (n = name)) ps.

(** ** Programs *)

Definition MKE2FS_BIN : list Z := str "/sbin/mke2fs".
Definition TUNE2FS_BIN : list Z := str "/sbin/tune2fs".
Definition E2FSCK_BIN : list Z := str "/sbin/e2fsck".

Definition run_exec_process (argv : list (list Z)) : W Z :=
  let! status := execute argv in wret (if bool_decide (status = Some 0) then 0 else 1).

Fixpoint run_all (programs : list (list (list Z))) : W Z :=
  match programs with
  | [] => wret 0
  | argv :: programs => let! r := run_exec_process argv in if negb (r =? 0) then wret (-1) else run_all programs
  end.

Definition format_ext3_device (device : list Z) : W Z :=
  run_all [[MKE2FS_BIN; str "-j"; str "-q"; device]; [TUNE2FS_BIN; str "-C"; str "1"; device]; [E2FSCK_BIN; str "-fy"; device]].

Definition format_ext2_device (device : list Z) : W Z :=
  run_all [[MKE2FS_BIN; device]; [TUNE2FS_BIN; str "-C"; str "1"; device]; [E2FSCK_BIN; str "-fy"; device]].

(** [strcpy] of the device into 128 bytes. *)
Definition device_of (p : MmcPartition) : outcome (list Z) :=
  d ← access (device_index p); if zlen d <? 128 then Done d else Undef.

Definition mmc_format_ext3 (partition : MmcPartition) : W Z :=
  let! device := wlift (device_of partition) in format_ext3_device device.

(** [MS_NOATIME | MS_NODEV | MS_NODIRATIME] and [MS_RDONLY]. *)
Definition MOUNT_FLAGS : Z := 3076.
Definition MS_RDONLY : Z := 1.

Definition mmc_mount_partition (partition : MmcPartition) (mount_point : list Z) (read_only : bool) : W Z :=
  let! devname := wlift (device_of partition) in
  match filesystem partition with
  | None => wret (-1)
  | Some filesystem =>
      let! rv := if read_only then wret (-1) else mount devname mount_point filesystem MOUNT_FLAGS in
      if read_only || (rv <? 0) then mount devname mount_point filesystem (MOUNT_FLAGS .| MS_RDONLY) else wret rv
  end.

(** ** Contents *)

(** [fopen(s, "w")]: a device is opened as it is. *)
Definition fopen_out (s : list Z) : W (wfile + Z) :=
  let! fs := get_fs in
  match resolve true fs s with
  | Found p => match i_kind <$> fs !! p with
      | Some (KBlock _) => fopen_rplus s
      | _ => fopen_w s
      end
  | _ => fopen_w s
  end.

(** [fseek(in, 0, SEEK_END)] and [ftell(in)], into an [unsigned]; a [long] cannot
    hold more than 2 GiB. *)
Definition stream_size (f : rfile) : W Z :=
  let! fs := get_fs in
  let n := zlen (unread fs (mkR (r_node f) 0)) in
  wret (if n <? 2 ^ 31 then n else wrap 32 (-1)).

(** [while ((ch = fgetc(in)) != EOF) fputc(ch, out);] *)
Fixpoint copy_bytes (n : nat) (in_ : rfile) (out : wfile) : W wfile :=
  match n with
  | O => wlift Diverge
  | S n =>
      let! (ch, in_) := fread 1 in_ in
      match ch with
      | [] => wret out
      | _ => let! (_, out) := fwrite ch out in copy_bytes n in_ out
      end
  end.

(** The loop over [sz / 512] blocks. *)
Fixpoint copy_blocks (n : nat) (in_ : rfile) (out : wfile) : W (bool * wfile) :=
  match n with
  | O => wret (true, out)
  | S n =>
      let! (buf, in_) := read_sector in_ in
      match buf with
      | None => wret (false, out)
      | Some buf =>
          let! (ok, out) := fwrite buf out in
          if ok : bool then copy_blocks n in_ out else wret (false, out)
      end
  end.

(** The argument of [fsync] is the stream and not its descriptor, so it does
    nothing. *)
Definition mmc_raw_dump_internal (in_file out_file : list Z) : W Z :=
  let! in_ := fopen_r in_file in
  match in_ with
  | inr _ => wret (-1)
  | inl in_ =>
      let! out := fopen_out out_file in
      match out with
      | inr _ => wret (-1)
      | inl out =>
          let! sz := stream_size in_ in
          let! (ok, out) :=
            if negb (sz mod 512 =? 0) then let! out := copy_bytes fuel in_ out in wret (true, out)
            else copy_blocks (Z.to_nat (sz / 512)) in_ out in
          let! _ := fclose out in
          wret (if ok : bool then 0 else -1)
      end
  end.

(** The same with the two files swapped. *)
Definition mmc_raw_copy (partition : MmcPartition) (in_file : list Z) : W Z :=
  let! out_file := wlift (access (device_index partition)) in mmc_raw_dump_internal in_file out_file.

Definition mmc_raw_dump (partition : MmcPartition) (out_file : list Z) : W Z :=
  let! in_file := wlift (access (device_index partition)) in mmc_raw_dump_internal in_file out_file.

(** What was not read of [data] stays as it was. *)
Definition mmc_raw_read (partition : MmcPartition) (data : list Z) : W (Z * list Z) :=
  let! in_file := wlift (access (device_index partition)) in
  let! in_ := fopen_r in_file in
  match in_ with
  | inr _ => wret (-1, data)
  | inl in_ => let! (got, _) := fread (zlen data) in_ in wret (0, got ++ drop (length got) data)
  end.

Definition mmc_raw_write (partition : MmcPartition) (data : list Z) : W Z :=
  let! out_file := wlift (access (device_index partition)) in
  let! out := fopen_out out_file in
  match out with
  | inr _ => wret (-1)
  | inl out =>
      let! (_, out) := fwrite data out in
      let! _ := fclose out in
      wret 0
  end.

(** ** Commands *)

(** Scans the device again and goes on with the partition of the name. *)
Definition with_partition {A} (partition : list Z) (missing : A) (k : MmcPartition -> W A) (g : MmcState) : W (A * MmcState) :=
  let! (_, g) := mmc_scan_partitions g in
  match mmc_find_partition_by_name partition g with
  | None => wret (missing, g)
  | Some p => let! r := k p in wret (r, g)
  end.

Definition cmd_mmc_restore_raw_partition (partition filename : list Z) (g : MmcState) : W (Z * MmcState) :=
  if bool_decide (head partition = Some SLASH) then let! r := mmc_raw_dump_internal filename partition in wret (r, g)
  else with_partition partition (-1) (fun p => mmc_raw_copy p filename) g.

Definition cmd_mmc_backup_raw_partition (partition filename : list Z) (g : MmcState) : W (Z * MmcState) :=
  if bool_decide (head partition = Some SLASH) then let! r := mmc_raw_dump_internal partition filename in wret (r, g)
  else with_partition partition (-1) (fun p => mmc_raw_dump p filename) g.

Definition cmd_mmc_erase_raw_partition (partition : list Z) : W Z := wret 0.

Definition cmd_mmc_erase_partition (partition : list Z) : MmcState -> W (Z * MmcState) :=
  with_partition partition (-1) mmc_format_ext3.

Definition cmd_mmc_mount_partition (partition mount_point : list Z) (read_only : bool) : MmcState -> W (Z * MmcState) :=
  with_partition partition (-1) (fun p => mmc_mount_partition p mount_point read_only).

(** The device, into a buffer of [n] bytes of the caller. *)
Definition cmd_mmc_get_partition_device (partition : list Z) (n : Z) : MmcState -> W (Z * option (list Z) * MmcState) :=
  with_partition partition (-1, None) (fun p =>
    let! d := wlift (access (device_index p)) in
    if zlen d <? n then wret (0, Some d) else wlift Undef).

End Mmc.
