(* ===== verification/MmcFacts.v ===== *)
(** * The partition table of an eMMC device

    Scanning ends whatever the device holds, and finds the partitions of a device
    that was laid out as the format says. *)
From stdpp Require Import pretty.
From S2P Require Import Prelude.
From S2P Require Import Posix.
From S2P Require Import PosixFacts.
From S2P Require Import Stdio.
From S2P Require Import Views.
From S2P Require Import Mmcutils.
Local Open Scope string_scope.
Local Open Scope Z_scope.
Local Open Scope list_scope.

(** ** The format *)

(** An entry, with the fields that nobody reads. *)
Record entry := mkEntry { t_status : Z; t_chs1 : list Z; t_type : Z; t_chs2 : list Z; t_first : Z; t_size : Z }.

Definition entry_bytes (e : entry) : list Z :=
  [t_status e] ++ t_chs1 e ++ [t_type e] ++ t_chs2 e ++ le_encode 4 (t_first e) ++ le_encode 4 (t_size e).

Record entry_ok (e : entry) : Prop := {
  en_chs1 : length (t_chs1 e) = 3%nat;
  en_chs2 : length (t_chs2 e) = 3%nat;
  en_first : in_u 32 (t_first e);
  en_size : in_u 32 (t_size e)
}.

(** A sector with a table. *)
Definition table_sector (code : list Z) (es : list entry) : list Z := code ++ concat (entry_bytes <$> es) ++ [85; 170].

Lemma entry_bytes_length e : entry_ok e -> length (entry_bytes e) = 16%nat.
Proof. intros [H1 H2 _ _]. unfold entry_bytes. rewrite !length_app, !le_encode_length, H1, H2. done. Qed.

Lemma table_length code es : length code = 446%nat -> length es = 4%nat -> Forall entry_ok es -> length (table_sector code es) = 512%nat.
Proof.
  intros Hc Hl Hes. unfold table_sector. rewrite !length_app, Hc.
  assert (length (concat (entry_bytes <$> es)) = (16 * length es)%nat) as ->; [|rewrite Hl; done].
  clear Hl. induction Hes as [|e es He Hes IH]; [done|]. rewrite fmap_cons. cbn [concat length]. rewrite length_app, entry_bytes_length, IH by done. lia.
Qed.

(** ** What an entry reads as *)

Lemma lword_bytes buffer x v : in_u 32 v -> buf_slice buffer x 4 = Some (le_encode 4 v) -> GET_LWORD_FROM_BYTE buffer x = Some v.
Proof.
  intros Hv Hs. pose proof (buf_slice_inv _ _ _ _ Hs) as (Hx & _ & Hl & _). rewrite buf_slice_some in Hs by lia. apply (inj Some) in Hs.
  assert (forall k, 0 <= k < 4 -> buf_get buffer (x + k) = le_encode 4 v !! Z.to_nat k) as Hg.
  { intros k Hk. rewrite buf_get_drop, <- Hs, lookup_take_lt by lia. done. }
  pose proof (Hg 0 ltac:(lia)) as H0. rewrite Z.add_0_r in H0. pose proof (Hg 1 ltac:(lia)) as H1.
  pose proof (Hg 2 ltac:(lia)) as H2. pose proof (Hg 3 ltac:(lia)) as H3. unfold GET_LWORD_FROM_BYTE. rewrite H0, H1, H2, H3.
  change (Some (wrap 32 ((v mod 256) .| (((v / 256) mod 256) <<< 8) .| (((v / 256 / 256) mod 256) <<< 16) .| (((v / 256 / 256 / 256) mod 256) <<< 24))) = Some v).
  f_equal.
  pose proof (Z.mod_pos_bound v 256 ltac:(lia)). pose proof (Z.mod_pos_bound (v / 256) 256 ltac:(lia)).
  pose proof (Z.mod_pos_bound (v / 256 / 256) 256 ltac:(lia)). pose proof (Z.mod_pos_bound (v / 256 / 256 / 256) 256 ltac:(lia)).
  rewrite (lor_shiftl_add _ _ 8) by lia. rewrite (lor_shiftl_add _ _ 16) by lia. rewrite (lor_shiftl_add _ _ 24) by lia.
  rewrite wrap_small; unfold in_u in *; Z.div_mod_to_equations; lia.
Qed.

(** The entry at a place of a sector. *)
Definition reads_as (buffer : list Z) (idx : Z) (e : entry) : Prop :=
  buf_get buffer (idx + OFFSET_STATUS) = Some (t_status e) /\ buf_get buffer (idx + OFFSET_TYPE) = Some (t_type e) /\
  GET_LWORD_FROM_BYTE buffer (idx + OFFSET_FIRST_SEC) = Some (t_first e) /\ GET_LWORD_FROM_BYTE buffer (idx + OFFSET_SIZE) = Some (t_size e).

Lemma bytes_read_as a e b idx : entry_ok e -> idx = zlen a -> reads_as (a ++ entry_bytes e ++ b) idx e.
Proof.
  intros [H1 H2 H3 H4] ->. unfold reads_as, OFFSET_STATUS, OFFSET_TYPE, OFFSET_FIRST_SEC, OFFSET_SIZE, entry_bytes. split_and!.
  - rewrite buf_get_drop by lia. rewrite Nat2Z.id, drop_app_length. done.
  - rewrite buf_get_drop by lia. rewrite Nat2Z.id, drop_app_length. change (Z.to_nat 4) with 4%nat. rewrite <- !app_assoc.
    rewrite (lookup_app_r [t_status e]), lookup_app_r by (cbn [length]; lia). rewrite H1. done.
  - apply lword_bytes; [done|]. replace (a ++ _) with ((a ++ [t_status e] ++ t_chs1 e ++ [t_type e] ++ t_chs2 e) ++ le_encode 4 (t_first e) ++ (le_encode 4 (t_size e) ++ b)) by (by rewrite <- !app_assoc).
    apply buf_slice_mid; [|by rewrite le_encode_length]. rewrite !length_app, H1, H2. cbn. lia.
  - apply lword_bytes; [done|]. replace (a ++ _) with ((a ++ [t_status e] ++ t_chs1 e ++ [t_type e] ++ t_chs2 e ++ le_encode 4 (t_first e)) ++ le_encode 4 (t_size e) ++ b) by (by rewrite <- !app_assoc).
    apply buf_slice_mid; [|by rewrite le_encode_length]. rewrite !length_app, H1, H2, le_encode_length. cbn. lia.
Qed.

(** The [k]th entry of a table. *)
Lemma table_entry code es k e : length code = 446%nat -> Forall entry_ok es -> es !! k = Some e ->
  reads_as (table_sector code es) (TABLE_ENTRY_0 + Z.of_nat k * TABLE_ENTRY_SIZE) e.
Proof.
  intros Hc Hes Hk. unfold table_sector. apply list_elem_of_split_length in Hk as (l1 & l2 & -> & ->).
  apply Forall_app in Hes as [H1 H2]. apply Forall_cons in H2 as [He _].
  rewrite fmap_app, concat_app, fmap_cons. cbn [concat]. rewrite <- !app_assoc, app_assoc. apply bytes_read_as; [done|].
  rewrite length_app, Hc. assert (length (concat (entry_bytes <$> l1)) = (16 * length l1)%nat) as ->.
  { clear He. induction H1 as [|e1 l1 He1 Hl IH]; [done|]. rewrite fmap_cons. cbn [concat length]. rewrite length_app, entry_bytes_length, IH by done. lia. }
  unfold TABLE_ENTRY_0, TABLE_ENTRY_SIZE. lia.
Qed.

Lemma table_signed code es : length code = 446%nat -> length es = 4%nat -> Forall entry_ok es -> has_signature (table_sector code es) = Done true.
Proof.
  intros Hc Hl Hes. pose proof (table_length code es Hc Hl Hes) as Hlen. unfold has_signature, table_sector in *. rewrite app_assoc in *.
  rewrite length_app in Hlen. cbn [length] in Hlen.
  assert (forall k, (k < 2)%nat -> buf_get ((code ++ concat (entry_bytes <$> es)) ++ [85; 170]) (TABLE_SIGNATURE + Z.of_nat k) = [85; 170] !! k) as H.
  { intros k Hk. unfold buf_get, TABLE_SIGNATURE. rewrite (proj2 (Z.leb_le _ _)) by lia. rewrite lookup_app_r by lia. f_equal. lia. }
  pose proof (H 0%nat ltac:(lia)) as H0. pose proof (H 1%nat ltac:(lia)) as H1. cbn in H0, H1. rewrite Z.add_0_r in H0. change (Z.of_nat 1) with 1 in H1.
  by rewrite H0, H1.
Qed.

(** ** Names *)

(** How many of the types are [t]. *)
Definition count_type (t : Z) (ts : list Z) : nat := length (filter (fun x => x = t) ts).

(** The name and the file system of a partition of type [t] behind those of the
    types [before]: the first three of the one type and the first of the other
    have names. *)
Definition type_name (before : list Z) (t : Z) : option (list Z) :=
  if t =? MMC_BOOT_TYPE then Some (str "boot")
  else if t =? MMC_RECOVERY_TYPE then Some (str "recovery")
  else if t =? MMC_EXT3_TYPE then [str "system"; str "userdata"; str "cache"] !! count_type t before
  else if t =? MMC_VFAT_TYPE then [str "modem"] !! count_type t before
  else None.

Definition type_system (t : Z) : option (list Z) :=
  if t =? MMC_EXT3_TYPE then Some (str "ext3") else if t =? MMC_VFAT_TYPE then Some (str "vfat") else None.

Definition seen (before : list Z) : counts := mkCounts (Nat.min 3 (count_type MMC_EXT3_TYPE before)) (Nat.min 1 (count_type MMC_VFAT_TYPE before)).

Definition device (k : nat) : list Z := MMC_DEVICENAME ++ str ("p" +:+ pretty (Z.of_nat k + 1)).

(** The entry [e] of a table at the sector [base], as the [k]th partition. *)
Definition partition_of (before : list Z) (k : nat) (base : Z) (e : entry) : MmcPartition :=
  mkMmc (Some (device k)) (type_system (t_type e)) (type_name before (t_type e)) (t_status e) (t_type e) (wrap 32 (t_first e + base)) (t_size e).

Lemma count_type_snoc t before x : count_type t (before ++ [x]) = (count_type t before + if (x =? t)%Z then 1 else 0)%nat.
Proof.
  unfold count_type. rewrite filter_app, length_app. f_equal. rewrite filter_cons, filter_nil. destruct (Z.eqb_spec x t); [by rewrite decide_True|by rewrite decide_False].
Qed.

Lemma lookup_stop {A} (l : list A) x k : (l ++ [x]) !! Nat.min (length l) k = Some (default x (l !! k)).
Proof.
  destruct (decide (k < length l)%nat) as [H|H].
  - rewrite Nat.min_r, lookup_app_l by lia. destruct (lookup_lt_is_Some_2 l k H) as [y ->]. done.
  - rewrite Nat.min_l, lookup_app_r, Nat.sub_diag by lia. by rewrite (lookup_ge_None_2 l k) by lia.
Qed.

(** The counters lead to the names. *)
Lemma partition_name_done d s t f z before type : mmc_partition_name (mkMmc d None None s t f z) type (seen before) =
  Done (mkMmc d (type_system type) (type_name before type) s t f z, seen (before ++ [type])).
Proof.
  unfold mmc_partition_name, type_name, type_system, seen. rewrite !count_type_snoc. cbn [ext3_count vfat_count].
  destruct (Z.eqb_spec type MMC_BOOT_TYPE) as [->|H1]; [cbn; by rewrite !Nat.add_0_r|].
  destruct (Z.eqb_spec type MMC_RECOVERY_TYPE) as [->|H2]; [cbn; by rewrite !Nat.add_0_r|].
  destruct (Z.eqb_spec type MMC_EXT3_TYPE) as [->|H3].
  { pose proof (lookup_stop [str "system"; str "userdata"; str "cache"] (str "NONE") (count_type MMC_EXT3_TYPE before)) as E.
    change ([str "system"; str "userdata"; str "cache"] ++ [str "NONE"]) with ext3_partitions in E. cbn [length] in E. rewrite E. cbn [access mbind outcome_bind].
    change (MMC_EXT3_TYPE =? MMC_VFAT_TYPE) with false. cbn iota. rewrite Nat.add_0_r.
    destruct (count_type MMC_EXT3_TYPE before) as [|[|[|n]]]; cbn; do 3 f_equal. }
  destruct (Z.eqb_spec type MMC_VFAT_TYPE) as [->|H4]; [|cbn; by rewrite !Nat.add_0_r].
  pose proof (lookup_stop [str "modem"] (str "NONE") (count_type MMC_VFAT_TYPE before)) as E.
  change ([str "modem"] ++ [str "NONE"]) with vfat_partitions in E. cbn [length] in E. rewrite E. cbn [access mbind outcome_bind]. rewrite Nat.add_0_r.
  destruct (count_type MMC_VFAT_TYPE before) as [|n]; cbn; do 3 f_equal.
Qed.

Lemma device_short : forallb (fun k => zlen (device k) <? 128) (seq 0 64) = true.
Proof. by vm_compute. Qed.

Lemma device_bound k : (k < 64)%nat -> zlen (device k) < 128.
Proof.
  intros Hk. pose proof device_short as H. rewrite forallb_forall in H. apply Z.ltb_lt, H, list_elem_of_In, elem_of_seq. lia.
Qed.

Lemma device_name_done k : (k < 64)%nat -> device_name MMC_DEVICENAME (Z.of_nat k + 1) = Done (device k).
Proof.
  intros Hk. unfold device_name. fold (device k). by rewrite (proj2 (Z.ltb_lt _ _)) by by apply device_bound.
Qed.

(** Reading an entry into a place of the array that was cleared. *)
Definition cleared (p : MmcPartition) : Prop := device_index p = None /\ filesystem p = None /\ name p = None.

Lemma read_entry_done buffer idx base mbr k before e old : reads_as buffer idx e -> mbr !! k = Some old -> cleared old -> (k < 64)%nat ->
  read_table_entry MMC_DEVICENAME buffer idx base mbr k (seen before) =
  Done (<[k := partition_of before k base e]> mbr, seen (before ++ [t_type e])).
Proof.
  intros (H1 & H2 & H3 & H4) Hk (C1 & C2 & C3) Hlt. unfold read_table_entry. rewrite Hk, H1, H2, H3, H4. cbn [access mbind outcome_bind].
  rewrite C2, C3, (partition_name_done (device_index old)). cbn [mbind outcome_bind]. rewrite device_name_done by done. done.
Qed.

(** Whatever a sector holds, it reads as something. *)
Lemma reads_something buffer idx : length buffer = 512%nat -> 0 <= idx <= 496 -> exists e, reads_as buffer idx e.
Proof.
  intros Hl Hi. unfold reads_as, GET_LWORD_FROM_BYTE, OFFSET_STATUS, OFFSET_TYPE, OFFSET_FIRST_SEC, OFFSET_SIZE.
  assert (forall k, 0 <= k < 16 -> exists v, buf_get buffer (idx + k) = Some v) as H by (intros k Hk; apply buf_get_some; lia).
  assert (forall k, 0 <= k <= 12 -> exists v, GET_LWORD_FROM_BYTE buffer (idx + k) = Some v) as HL.
  { intros k Hk. unfold GET_LWORD_FROM_BYTE. rewrite <- !Z.add_assoc.
    destruct (H k ltac:(lia)) as [? ->], (H (k + 1) ltac:(lia)) as [? ->], (H (k + 2) ltac:(lia)) as [? ->], (H (k + 3) ltac:(lia)) as [? ->]. by eexists. }
  destruct (H 0 ltac:(lia)) as [s Hs], (H 4 ltac:(lia)) as [t Ht], (HL 8 ltac:(lia)) as [f Hf], (HL 12 ltac:(lia)) as [z Hz].
  exists (mkEntry s [] t [] f z). done.
Qed.

(** ** The array while it is filled *)

Definition types (all : list (Z * entry)) : list Z := (fun x => t_type x.2) <$> all.

Fixpoint parts_from (before : list Z) (k : nat) (all : list (Z * entry)) : list MmcPartition :=
  match all with
  | [] => []
  | (base, e) :: all => partition_of before k base e :: parts_from (before ++ [t_type e]) (S k) all
  end.

(** The partitions of the entries, each with the sector its table is in. *)
Definition parts (all : list (Z * entry)) : list MmcPartition := parts_from [] 0 all.

Lemma parts_from_snoc all base e : forall before k,
  parts_from before k (all ++ [(base, e)]) = parts_from before k all ++ [partition_of (before ++ types all) (k + length all) base e].
Proof.
  induction all as [|[b x] all IH]; intros before k; cbn [app parts_from].
  - by rewrite app_nil_r, Nat.add_0_r.
  - rewrite IH. unfold types. rewrite (fmap_cons _ (b, x)). cbn [snd length]. by rewrite <- app_assoc, <- Nat.add_succ_comm.
Qed.

Lemma parts_snoc all base e : parts (all ++ [(base, e)]) = parts all ++ [partition_of (types all) (length all) base e].
Proof. apply parts_from_snoc. Qed.

Lemma parts_length all : length (parts all) = length all.
Proof. unfold parts. generalize (@nil Z), 0%nat. induction all as [|[b e] all IH]; intros before k; cbn; [done|by rewrite IH]. Qed.

(** What was found is in front of what is still cleared. *)
Record filled (all : list (Z * entry)) (mbr : list MmcPartition) : Prop := {
  fi_split : exists rest, mbr = parts all ++ rest /\ Forall cleared rest;
  fi_length : length mbr = 64%nat
}.

Lemma read_entry_filled buffer idx base all mbr e : reads_as buffer idx e -> filled all mbr -> (length all < 64)%nat ->
  exists mbr', read_table_entry MMC_DEVICENAME buffer idx base mbr (length all) (seen (types all)) = Done (mbr', seen (types (all ++ [(base, e)]))) /\
    filled (all ++ [(base, e)]) mbr'.
Proof.
  intros He [(rest & -> & Hr) Hl] Hk. rewrite length_app, parts_length in Hl.
  destruct rest as [|old rest]; [cbn in Hl; lia|]. apply Forall_cons in Hr as [Ho Hr].
  eexists. split.
  - unfold types at 2. rewrite fmap_app. cbn [fmap list_fmap snd]. apply read_entry_done with old; [done| |done|done].
    rewrite lookup_app_r, parts_length, Nat.sub_diag by (rewrite parts_length; lia). done.
  - split.
    + exists rest. split; [|done]. rewrite insert_app_r_alt by (rewrite parts_length; lia). rewrite parts_length, Nat.sub_diag. cbn [insert list_insert].
      by rewrite parts_snoc, <- app_assoc.
    + rewrite length_insert, length_app, parts_length. cbn in *. lia.
Qed.

(** The four entries of a sector, as far as they are read. *)
Lemma read_primary_filled buffer es : forall all mbr, (length all + length es = 4)%nat -> filled all mbr ->
  (forall k e, es !! k = Some e -> reads_as buffer (TABLE_ENTRY_0 + (Z.of_nat (length all + k)) * TABLE_ENTRY_SIZE) e) ->
  exists mbr', read_primary (length es) MMC_DEVICENAME buffer (Z.of_nat (length all)) mbr (length all) (seen (types all)) =
    Done (mbr', (length all + length es)%nat, seen (types (all ++ ((0,.) <$> es)))) /\ filled (all ++ ((0,.) <$> es)) mbr'.
Proof.
  induction es as [|e es IH]; intros all mbr Hlen Hf He; cbn [length read_primary].
  { exists mbr. rewrite app_nil_r, Nat.add_0_r. done. }
  pose proof (He 0%nat e eq_refl) as H0. rewrite Nat.add_0_r in H0.
  destruct (read_entry_filled _ _ 0 all mbr e H0 Hf) as (mbr1 & E1 & Hf1); [lia|]. rewrite E1. cbn [mbind outcome_bind]. cbn in Hlen.
  rewrite (proj2 (Z.eqb_neq _ MAX_PARTITIONS)) by (unfold MAX_PARTITIONS; lia).
  destruct (IH (all ++ [(0, e)]) mbr1) as (mbr2 & E2 & Hf2); [rewrite length_app; cbn; lia|done| |].
  { intros k e' Hk. specialize (He (S k) e' Hk). rewrite length_app. cbn [length]. by replace (length all + 1 + k)%nat with (length all + S k)%nat by lia. }
  exists mbr2. change ((0,.) <$> e :: es) with ([(0, e)] ++ ((0,.) <$> es)). rewrite app_assoc. split; [|done].
  rewrite length_app in E2. cbn [length] in E2. replace (Z.of_nat (length all) + 1) with (Z.of_nat (length all + 1)) by lia.
  replace (S (length all)) with (length all + 1)%nat by lia. rewrite E2. do 3 f_equal. lia.
Qed.

(** ** Scanning any device *)

Section Scan.
  Context {Dev : Type} (fuel : nat).
  Abbreviation world := (world tree Dev).

(** What a scan leaves behind. *)
Definition scanned (r : Z * list MmcPartition) : Prop :=
  exists all, filled all r.2 /\ (length all <= 64)%nat /\ (r.1 = -1 \/ r.1 = zlen all /\ (4 <= length all)%nat).

Lemma read_sector_views f (w : world) : views (read_sector f) w (fun r => forall b, r.1 = Some b -> length b = 512%nat).
Proof.
  unfold read_sector. eapply (views_bind _ _ _ (fun _ => True)); [unfold fread, take_input, views; by repeat wp_step|].
  intros [b f'] w1 _ _. apply views_ret. cbn [fst]. intros b'. destruct (Z.eqb_spec (zlen b) 512); [intros [= <-]; lia|done].
Qed.

Lemma signature_some buffer : length buffer = 512%nat -> exists b, has_signature buffer = Done b.
Proof.
  intros Hl. unfold has_signature. destruct (buf_get_some buffer TABLE_SIGNATURE) as [x ->]; [unfold TABLE_SIGNATURE; lia|].
  destruct (buf_get_some buffer (TABLE_SIGNATURE + 1)) as [y ->]; [unfold TABLE_SIGNATURE; lia|]. by eexists.
Qed.

Lemma read_ebr_scanned n : forall buffer f first cur all mbr (w : world), length buffer = 512%nat -> filled all mbr ->
  (4 <= length all < 64)%nat -> (64 <= length all + n)%nat ->
  views (read_ebr n MMC_DEVICENAME buffer f first cur mbr (length all) (seen (types all))) w scanned.
Proof.
  induction n as [|n IH]; intros buffer f first cur all mbr w Hb Hf Hl Hn; [lia|]. cbn [read_ebr].
  destruct (signature_some buffer Hb) as [sig Es]. eapply views_bind; [by eapply (views_lift _ sig _ (fun x => x = sig))|]. intros x w1 -> _.
  destruct sig; cbn [negb]; [|apply views_ret; exists all; split_and!; [done|lia|right; split; [done|lia]]].
  destruct (reads_something buffer TABLE_ENTRY_0 Hb) as [e He]; [unfold TABLE_ENTRY_0; lia|].
  destruct (read_entry_filled _ _ cur all mbr e He Hf) as (mbr1 & E1 & Hf1); [lia|].
  eapply views_bind; [eapply (views_lift _ _ _ (fun x => x = (mbr1, seen (types (all ++ [(cur, e)]))))); [exact E1|done]|].
  intros x w2 -> _. cbn beta iota zeta. assert (length (all ++ [(cur, e)]) = S (length all)) as El by (rewrite length_app; cbn; lia).
  destruct (Z.eqb_spec (Z.of_nat (S (length all))) MAX_PARTITIONS) as [Hm|Hm]; unfold MAX_PARTITIONS in Hm.
  { apply views_ret. exists (all ++ [(cur, e)]). rewrite El. split_and!; [done|lia|right; split; [done|lia]]. }
  destruct (reads_something buffer TABLE_ENTRY_1 Hb) as [l Hl1]; [unfold TABLE_ENTRY_1; lia|]. destruct Hl1 as (_ & _ & Hl1 & _).
  eapply views_bind; [eapply (views_lift _ (t_first l) _ (fun x => x = t_first l)); [by rewrite Hl1|done]|]. intros x w3 -> _.
  destruct (t_first l =? 0). { apply views_ret. exists (all ++ [(cur, e)]). rewrite El. split_and!; [done|lia|right; split; [done|lia]]. }
  eapply views_bind; [apply read_sector_views|]. intros [[b|] f'] w4 Hb' _; cbn [fst] in Hb'.
  - rewrite <- El. apply IH; [by apply Hb'|done|rewrite El; lia|rewrite El; lia].
  - apply views_ret. exists (all ++ [(cur, e)]). rewrite El. split_and!; [done|lia|by left].
Qed.

Lemma filled_none mbr : Forall cleared mbr -> length mbr = 64%nat -> filled [] mbr.
Proof. intros Hc Hl. split; [|done]. by exists mbr. Qed.

Lemma mmc_read_mbr_scanned mbr (w : world) : (60 <= fuel)%nat -> Forall cleared mbr -> length mbr = 64%nat ->
  views (mmc_read_mbr fuel MMC_DEVICENAME mbr) w scanned.
Proof.
  intros Hfuel Hc Hl. pose proof (filled_none mbr Hc Hl) as Hf. assert (scanned (-1, mbr)) as H0 by (exists []; split_and!; [done|cbn; lia|by left]).
  unfold mmc_read_mbr. eapply (views_bind _ _ _ (fun _ => True)).
  { unfold fopen_r, syscall, views. repeat wp_step; done. }
  intros [fd|e0] w1 _ _; [|by apply views_ret]. eapply views_bind; [apply read_sector_views|]. intros [[buffer|] fd1] w2 Hb _; [|by apply views_ret].
  specialize (Hb _ eq_refl). destruct (signature_some buffer Hb) as [sig Es]. eapply views_bind; [by eapply (views_lift _ sig _ (fun x => x = sig))|].
  intros x w3 -> _. destruct sig; cbn [negb]; [|by apply views_ret].
  assert (exists es, length es = 4%nat /\ forall k e, es !! k = Some e -> reads_as buffer (TABLE_ENTRY_0 + Z.of_nat (0 + k) * TABLE_ENTRY_SIZE) e) as (es & Hes & Hread).
  { assert (forall k, (k < 4)%nat -> exists e, reads_as buffer (TABLE_ENTRY_0 + Z.of_nat k * TABLE_ENTRY_SIZE) e) as H.
    { intros k Hk. apply reads_something; [done|]. unfold TABLE_ENTRY_0, TABLE_ENTRY_SIZE. lia. }
    destruct (H 0%nat), (H 1%nat), (H 2%nat), (H 3%nat); try lia. eexists [_; _; _; _]. split; [done|].
    intros [|[|[|[|k]]]] e [= <-]; done. }
  destruct (read_primary_filled buffer es [] mbr) as (mbr1 & E1 & Hf1); [cbn; lia|done|exact Hread|]. rewrite Hes in E1. cbn [length Nat.add] in E1. rewrite app_nil_l in E1, Hf1.
  eapply views_bind; [eapply (views_lift _ _ _ (fun x => x = (mbr1, 4%nat, seen (types ((0,.) <$> es))))); [exact E1|done]|].
  intros x w4 -> _. cbn beta iota. change (Z.of_nat 4 =? MAX_PARTITIONS) with false. cbn iota.
  assert (length ((0,.) <$> es) = 4%nat) as Hl4 by (by rewrite length_fmap).
  assert (scanned (4, mbr1)) as H1 by (exists ((0,.) <$> es); rewrite Hl4; split_and!; [done|lia|right; split; [done|lia]]).
  assert (is_Some (mbr1 !! (4 - 1)%nat)) as [last Hlast] by (apply lookup_lt_is_Some_2; rewrite (fi_length _ _ Hf1); lia).
  eapply views_bind; [eapply (views_lift _ last _ (fun x => x = last)); [by rewrite Hlast|done]|]. intros x w5 -> _.
  destruct (dtype last =? 5); cbn [negb]; [|by apply views_ret].
  eapply views_bind; [apply read_sector_views|]. intros [[b|] f'] w6 Hb' _; cbn [fst] in Hb'.
  - rewrite <- Hl4 at 1. apply read_ebr_scanned; [by apply Hb'|done|rewrite Hl4; lia|rewrite Hl4; lia].
  - apply views_ret. exists ((0,.) <$> es). rewrite Hl4. split_and!; [done|lia|by left].
Qed.

(** The array, once there is one, has its 64 entries. *)
Definition table_ok (g : MmcState) : Prop := forall ps, partitions g = Some ps -> length ps = 64%nat.

Lemma scan_views g (w : world) : (60 <= fuel)%nat -> table_ok g ->
  views (mmc_scan_partitions fuel g) w (fun r => r = (-1, g) /\ partitions g = None \/
    exists ps, scanned (r.1, ps) /\ r.2 = mkMmcState (Some ps) r.1).
Proof.
  intros Hfuel Hg. unfold mmc_scan_partitions.
  assert (forall ps (w : world), length ps = 64%nat -> views (let! (n, ps) := mmc_read_mbr fuel MMC_DEVICENAME
      ((fun p => mkMmc None None None (dstatus p) (dtype p) (dfirstsec p) (dsize p)) <$> ps) in wret (n, mkMmcState (Some ps) n)) w
    (fun r => r = (-1, g) /\ partitions g = None \/ exists ps, scanned (r.1, ps) /\ r.2 = mkMmcState (Some ps) r.1)) as Hscan.
  { intros ps w1 Hl. eapply views_bind; [apply mmc_read_mbr_scanned; [done| |by rewrite length_fmap]|].
    - apply Forall_fmap, Forall_forall. intros p _. done.
    - intros [n ps'] w2 Hs _. apply views_ret. right. by exists ps'. }
  destruct (partitions g) as [ps|] eqn:Ep; [apply Hscan, (Hg ps Ep)|].
  eapply (views_bind _ _ _ (fun _ => True)); [by apply wp_ask|]. intros a w1 _ _. destruct (a <? 0); [apply views_ret; by left|].
  apply Hscan. by rewrite length_replicate.
Qed.

Lemma find_partition_some test ps p : find_partition test ps = Some p ->
  exists k d n, ps !! k = Some p /\ device_index p = Some d /\ name p = Some n /\ test d n = true.
Proof.
  induction ps as [|q ps IH]; [done|]. cbn [find_partition]. intros H.
  assert (find_partition test ps = Some p \/ exists d n, q = p /\ device_index q = Some d /\ name q = Some n /\ test d n = true) as [H'|(d & n & -> & H')].
  { destruct (device_index q) as [d|], (name q) as [n|]; [|by left..]. destruct (test d n) eqn:E; [right|by left]. injection H as ->. by exists d, n. }
  - destruct (IH H') as (k & d & n & Hk & H2). by exists (S k), d, n.
  - by exists 0%nat, d, n.
Qed.

Lemma parts_device all : forall before k i p, parts_from before k all !! i = Some p -> device_index p = Some (device (k + i)).
Proof.
  induction all as [|[b e] all IH]; intros before k i p; [done|]. destruct i as [|i]; cbn [parts_from].
  - intros [= <-]. by rewrite Nat.add_0_r.
  - intros H. apply IH in H. by rewrite <- Nat.add_succ_comm.
Qed.

End Scan.

(** [C28] Scanning ends on a device of any contents, a chain of tables that leads
    back to itself included, and whatever reads fail: the device is left alone,
    nothing outside of the array of 64 entries is touched, the result is -1 or
    the number of partitions, and a partition that is found afterwards by a name
    or a device has that name or device and is one of the 64. *)
Theorem mmc_scan_ends {Dev : Type} (fuel : nat) (g : MmcState) (w : world tree Dev) : (60 <= fuel)%nat -> table_ok g ->
  exists n g' w', mmc_scan_partitions fuel g w = (Done (n, g'), w') /\ w_fs w' = w_fs w /\ table_ok g' /\ (n = -1 \/ 4 <= n <= 64) /\
    forall s p, mmc_find_partition_by_name s g' = Some p ->
      exists k, (k < 64)%nat /\ device_index p = Some (device k) /\ (name p = Some s \/ s = device k).
Proof.
  intros Hfuel Hg. destruct (scan_views fuel g w Hfuel Hg) as ([n g'] & w' & l & E & _ & _ & H & Hs & _).
  exists n, g', w'. split; [exact E|]. split; [exact Hs|]. destruct H as [[E' Hn]|(ps & (all & Hf & Hl & Hr) & Eg)]; cbn [fst snd] in *.
  - injection E' as -> ->. split_and!; [done|by left|]. intros s p. unfold mmc_find_partition_by_name, mmc_find_partition_by_device_index. rewrite Hn. by case_bool_decide.
  - subst g'. cbn [partitions]. split_and!; [by intros ps' [= <-]; apply Hf|lia|]. intros s p Hp.
    destruct (fi_split _ _ Hf) as (rest & Eps & Hrest).
    assert (exists k d m, ps !! k = Some p /\ device_index p = Some d /\ name p = Some m /\ (m = s \/ d = s)) as (k & d & m & Hk & Hd & Hm & Hs').
    { unfold mmc_find_partition_by_name, mmc_find_partition_by_device_index in Hp. cbn [partitions mbind option_bind] in Hp.
      case_bool_decide; apply find_partition_some in Hp as (k & d & m & H1 & H2 & H3 & H4); apply bool_decide_eq_true in H4; exists k, d, m; auto. }
    rewrite Eps in Hk. assert (k < length all)%nat as Hlt.
    { apply lookup_app_Some in Hk as [Hk|[_ Hk]]; [apply lookup_lt_Some in Hk; by rewrite parts_length in Hk|].
      rewrite Forall_forall in Hrest. destruct (Hrest p) as (Hc & _); [by eapply list_elem_of_lookup_2|congruence]. }
    rewrite lookup_app_l in Hk by (by rewrite parts_length). apply parts_device in Hk. cbn [Nat.add] in Hk. rewrite Hd in Hk. injection Hk as ->.
    exists k. split_and!; [lia|done|]. destruct Hs' as [-> | <-]; [by left|by right].
Qed.

(** A device whose chain of tables leads back to itself. *)
Definition plain_entry (type first size : Z) : entry := mkEntry 0 [0; 0; 0] type [0; 0; 0] first size.

Definition demo_code : list Z := replicate 446 0.

Definition demo_loop : list Z :=
  let none := plain_entry 0 0 0 in
  table_sector demo_code [plain_entry 72 3 1; none; none; plain_entry 5 1 2] ++
  table_sector demo_code [plain_entry 131 1 1; plain_entry 5 1 1; none; none] ++
  table_sector demo_code [plain_entry 12 1 1; plain_entry 5 1 1; none; none].

Definition demo_device (d : list Z) : Run.world tree unit :=
  let dir := mkInode KDir 493 0 0 None in
  Run.mkWorld {[ [] := dir; [str "dev"] := dir; [str "dev"; str "block"] := dir;
                 [str "dev"; str "block"; str "mmcblk0"] := mkInode (KBlock d) 384 0 0 None ]} tt (fun _ => 0) 0 [].

Lemma mmc_scan_ends_witness :
  exists n g' w', mmc_scan_partitions 60 g_mmc_state (demo_device demo_loop) = (Done (n, g'), w') /\ n = 64 /\ (n = -1 \/ 4 <= n <= 64).
Proof.
  destruct (mmc_scan_ends 60 g_mmc_state (demo_device demo_loop)) as (n & g' & w' & E & _ & _ & Hn & _); [lia|done|].
  assert (match (mmc_scan_partitions 60 g_mmc_state (demo_device demo_loop)).1 with Done r => r.1 =? 64 | _ => false end = true) as H
    by (vm_compute; reflexivity).
  rewrite E in H. apply Z.eqb_eq in H. exists n, g', w'. split; [exact E|]. split; [exact H|exact Hn].
Defined.

(** Tables behind 2 GiB are looked for where the last read ended, and those behind
    4 GiB at the start of the device again. *)
Lemma seek_wraps f : seek_sector (2 ^ 22) f = f /\ seek_sector (2 ^ 23) f = mkR (r_node f) 0.
Proof. by destruct f. Qed.

(** ** Scanning a device that was laid out as the format says *)

(** The sector [s] of [d] holds a table. *)
Record at_sector (d : list Z) (s : Z) (code : list Z) (es : list entry) : Prop := {
  as_code : length code = 446%nat;
  as_len : length es = 4%nat;
  as_ok : Forall entry_ok es;
  as_data : take 512 (drop (Z.to_nat (s * 512)) d) = table_sector code es;
  as_low : 0 <= s * 512 < 2 ^ 31
}.

(** The logical partitions: every table of the chain has one and leads to the next
    table, which is counted from the start of the chain. *)
Inductive chain (d : list Z) (first : Z) : Z -> list (Z * entry) -> Prop :=
  | chain_last cur code e link x y : at_sector d cur code [e; link; x; y] -> t_first link = 0 -> chain d first cur [(cur, e)]
  | chain_more cur code e link x y all : at_sector d cur code [e; link; x; y] -> t_first link <> 0 ->
      chain d first (first + t_first link) all -> chain d first cur ((cur, e) :: all).

Definition laid_out (d : list Z) (all : list (Z * entry)) : Prop :=
  exists code e0 e1 e2 e3 logical, at_sector d 0 code [e0; e1; e2; e3] /\ all = ((0,.) <$> [e0; e1; e2; e3]) ++ logical /\
    (if t_type e3 =? 5 then chain d (t_first e3) (t_first e3) logical else logical = []).

(** The names of the partitions, in their order. *)
Fixpoint names_from (before ts : list Z) : list (option (list Z)) :=
  match ts with
  | [] => []
  | t :: ts => type_name before t :: names_from (before ++ [t]) ts
  end.

(** The first partition of a name. *)
Definition owner (all : list (Z * entry)) (s : list Z) : option nat := fst <$> list_find (fun n => n = Some s) (names_from [] (types all)).

Section Layout.
  Context {Dev : Type} (fuel : nat) (p : path) (d : list Z).
  Abbreviation world := (world tree Dev).

Definition mmc_at (w : world) : Prop := calm w /\ exists i, w_fs w !! p = Some i /\ node_data i = Some d.

Lemma mmc_still w w' : still w w' -> mmc_at w -> mmc_at w'.
Proof. intros Hs [Hc (i & Hi & Hd)]. split; [by eapply calm_still|]. exists i. by rewrite (proj1 Hs). Qed.

Lemma read_sector_at s code es f (w : world) : mmc_at w -> at_sector d s code es -> r_node f = p ->
  exists f', r_node f' = p /\ looks (read_sector (seek_sector s f)) w (Some (table_sector code es), f').
Proof.
  intros [Hc (i & Hi & Hd)] [H1 H2 H3 H4 H5] Hf. exists (mkR p (s * 512 + 512)). split; [done|].
  assert (seek_sector s f = mkR p (s * 512)) as ->.
  { unfold seek_sector. rewrite wrap_small by (unfold in_u; lia). rewrite swrap_small by (try done; unfold in_s; lia).
    rewrite (proj2 (Z.ltb_ge _ _)) by lia. by rewrite Hf. }
  pose proof (table_length code es H1 H2 H3) as Hl.
  assert (fread 512 (mkR p (s * 512)) = take_input (take 512) (mkR p (s * 512)) :> W tree Dev _) as E by done.
  unfold read_sector, looks, views. rewrite E. unfold take_input. repeat wp_step. cbn [fst snd w_fs asked r_node r_pos].
  rewrite (proj2 (Z.ltb_ge _ 0)) by apply Hc. unfold unread. cbn [r_node r_pos]. rewrite Hi, Hd. cbn [default from_option id]. rewrite H4, Hl. done.
Qed.

Lemma table_link code e link x y : length code = 446%nat -> Forall entry_ok [e; link; x; y] ->
  reads_as (table_sector code [e; link; x; y]) TABLE_ENTRY_0 e /\ reads_as (table_sector code [e; link; x; y]) TABLE_ENTRY_1 link.
Proof.
  intros Hc Hes. split.
  - apply (table_entry code [e; link; x; y] 0 e Hc Hes eq_refl).
  - apply (table_entry code [e; link; x; y] 1 link Hc Hes eq_refl).
Qed.

Lemma read_ebr_chain first logical : forall cur, chain d first cur logical -> in_u 32 first ->
  forall n code es f all mbr (w : world), mmc_at w -> at_sector d cur code es -> r_node f = p -> filled all mbr ->
  (4 <= length all)%nat -> (length all + length logical <= 64)%nat -> (64 <= length all + n)%nat ->
  views (read_ebr n MMC_DEVICENAME (table_sector code es) f first cur mbr (length all) (seen (types all))) w (fun r =>
    r.1 = zlen (all ++ logical) /\ filled (all ++ logical) r.2).
Proof.
  intros cur Hch Hfirst. induction Hch as [cur code0 e link x y Hat Hz|cur code0 e link x y logical Hat Hnz Hch IH];
    intros n code es f all mbr w Hw Hat' Hf Hfi H4 Hle Hn.
  all: assert (table_sector code es = table_sector code0 [e; link; x; y]) as -> by (rewrite <- (as_data _ _ _ _ Hat), <- (as_data _ _ _ _ Hat'); done).
  all: destruct n as [|n]; [cbn [length] in Hle; lia|]; cbn [read_ebr]; pose proof Hat as [A1 A2 A3 A4 A5].
  all: eapply views_bind; [by eapply (views_lift _ true _ (fun b => b = true)); [apply table_signed|]|]; intros b w1 -> Hs1; cbn [negb].
  all: destruct (table_link code0 e link x y A1 A3) as [He Hl].
  all: destruct (read_entry_filled _ _ cur all mbr e He Hfi) as (mbr1 & E1 & Hf1); [cbn [length] in Hle; lia|].
  all: eapply views_bind; [eapply (views_lift _ _ _ (fun x => x = (mbr1, seen (types (all ++ [(cur, e)]))))); [exact E1|done]|].
  all: intros x0 w2 -> Hs2; cbn beta iota zeta; destruct Hl as (_ & _ & Hl & _).
  - destruct (_ =? MAX_PARTITIONS); [apply views_ret; split; [rewrite length_app; cbn; lia|done]|].
    eapply views_bind; [eapply (views_lift _ 0 _ (fun x => x = 0)); [by rewrite Hl, Hz|done]|]. intros x1 w3 -> Hs3. cbn [Z.eqb].
    apply views_ret. split; [rewrite length_app; cbn; lia|done].
  - assert (logical <> []) as Hne by (by inversion Hch). assert (1 <= length logical)%nat by (destruct logical; [done|cbn; lia]).
    cbn [length] in Hle. rewrite (proj2 (Z.eqb_neq _ MAX_PARTITIONS)) by (unfold MAX_PARTITIONS; lia).
    eapply views_bind; [eapply (views_lift _ (t_first link) _ (fun x => x = t_first link)); [by rewrite Hl|done]|]. intros x1 w3 -> Hs3.
    rewrite (proj2 (Z.eqb_neq _ 0)) by done. apply Forall_cons in A3 as [_ A3]. apply Forall_cons in A3 as [Hlink _]. pose proof (en_first _ Hlink) as Hlf.
    assert (exists code' es', at_sector d (first + t_first link) code' es') as (code' & es' & Hat2) by (inversion Hch; subst; eauto).
    assert (wrap 32 (first + t_first link) = first + t_first link) as ->.
    { apply wrap_small. unfold in_u in *. pose proof (as_low _ _ _ _ Hat2). lia. }
    destruct (read_sector_at _ _ _ f w3 ltac:(eapply mmc_still, Hw; by do 2 (eapply still_trans; [eassumption|])) Hat2 Hf) as (f' & Hf' & Hlook).
    eapply views_bind; [exact Hlook|]. intros x2 w4 -> Hs4. cbn beta iota.
    assert (length (all ++ [(cur, e)]) = S (length all)) as El by (rewrite length_app; cbn; lia).
    change ((cur, e) :: logical) with ([(cur, e)] ++ logical). rewrite app_assoc, <- El. apply IH; [|done|done|done|rewrite El; lia..].
    eapply mmc_still, Hw. by do 3 (eapply still_trans; [eassumption|]).
Qed.

Lemma mmc_read_mbr_layout all mbr (w : world) : mmc_at w -> resolve true (w_fs w) MMC_DEVICENAME = Found p -> laid_out d all ->
  (length all <= 64)%nat -> (60 <= fuel)%nat -> Forall cleared mbr -> length mbr = 64%nat ->
  views (mmc_read_mbr fuel MMC_DEVICENAME mbr) w (fun r => r.1 = zlen all /\ filled all r.2).
Proof.
  intros Hw Hp (code & e0 & e1 & e2 & e3 & logical & Hat & -> & Hch) Hle Hfuel Hc Hl. pose proof (filled_none mbr Hc Hl) as Hf.
  pose proof Hat as [A1 A2 A3 A4 A5]. unfold mmc_read_mbr. pose proof Hw as [Hcalm (i & Hi & Hd)].
  eapply views_bind; [by eapply looks_fopen|]. intros x w1 -> Hs1. cbn beta iota.
  pose proof (mmc_still _ _ Hs1 Hw) as Hw1. destruct (read_sector_at 0 code [e0; e1; e2; e3] (mkR p 0) w1 Hw1 Hat eq_refl) as (f1 & Hf1 & Hlook).
  change (seek_sector 0 (mkR p 0)) with (mkR p 0) in Hlook. eapply views_bind; [exact Hlook|]. intros x w2 -> Hs2. cbn beta iota.
  pose proof (mmc_still _ _ Hs2 Hw1) as Hw2.
  eapply views_bind; [by eapply (views_lift _ true _ (fun b => b = true)); [apply table_signed|]|]. intros b w3 -> Hs3. cbn [negb].
  pose proof (mmc_still _ _ Hs3 Hw2) as Hw3.
  destruct (read_primary_filled (table_sector code [e0; e1; e2; e3]) [e0; e1; e2; e3] [] mbr) as (mbr1 & E1 & Hfi); [done|done| |].
  { intros k e Hk. by apply table_entry. }
  rewrite app_nil_l in E1, Hfi. set (prim := (0,.) <$> [e0; e1; e2; e3]) in *.
  eapply views_bind; [eapply (views_lift _ _ _ (fun x => x = (mbr1, 4%nat, seen (types prim)))); [exact E1|done]|]. intros x w4 -> Hs4. cbn beta iota.
  pose proof (mmc_still _ _ Hs4 Hw3) as Hw4. change (Z.of_nat 4 =? MAX_PARTITIONS) with false. cbn iota.
  destruct (fi_split _ _ Hfi) as (rest & Em & _).
  assert (mbr1 !! (4 - 1)%nat = Some (partition_of (types ((0,.) <$> [e0; e1; e2])) 3 0 e3)) as Hlast by (by rewrite Em).
  eapply views_bind; [eapply (views_lift _ _ _ (fun x => x = partition_of (types ((0,.) <$> [e0; e1; e2])) 3 0 e3)); [by rewrite Hlast|done]|].
  intros x w5 -> Hs5. pose proof (mmc_still _ _ Hs5 Hw4) as Hw5. cbn [partition_of dtype dfirstsec].
  destruct (t_type e3 =? 5); cbn [negb]; [|subst logical; rewrite app_nil_r; by apply views_ret].
  assert (in_u 32 (t_first e3)) as Hfirst by (do 3 (apply Forall_cons in A3 as [_ A3]); by apply Forall_inv in A3 as [_ _ H _]).
  rewrite Z.add_0_r, wrap_small by done.
  assert (exists code' es', at_sector d (t_first e3) code' es') as (code' & es' & Hat2) by (inversion Hch; subst; eauto).
  destruct (read_sector_at _ _ _ f1 w5 Hw5 Hat2 Hf1) as (f' & Hf' & Hlook2).
  eapply views_bind; [exact Hlook2|]. intros x w6 -> Hs6. cbn beta iota.
  apply (read_ebr_chain _ _ _ Hch Hfirst fuel code' es' f' prim mbr1); [by eapply mmc_still|done|done|done|cbn; lia|by rewrite length_app in Hle|cbn; lia].
Qed.

(** Looking for a name in the array. *)
Lemma find_in_parts s all : forall before k rest, Forall cleared rest ->
  device_index <$> find_partition (fun _ n => bool_decide (n = s)) (parts_from before k all ++ rest) =
  (fun i => Some (device (k + i))) <$> (fst <$> list_find (fun n => n = Some s) (names_from before (types all))).
Proof.
  induction all as [|[b e] all IH]; intros before k rest Hr; cbn [parts_from names_from].
  - change (types []) with (@nil Z). cbn [names_from list_find app fmap option_fmap option_map]. rewrite <- (app_nil_l rest).
    induction Hr as [|q rest (C1 & C2 & C3) Hr IHr]; [done|]. cbn [app find_partition]. by rewrite C1.
  - unfold types. rewrite fmap_cons. cbn [snd app names_from find_partition partition_of device_index name]. fold (types all). cbn [list_find].
    destruct (type_name before (t_type e)) as [n|] eqn:En.
    + destruct (decide (n = s)) as [->|Hn].
      * rewrite bool_decide_true, decide_True by done. cbn. by rewrite Nat.add_0_r.
      * rewrite bool_decide_false, decide_False by congruence. rewrite IH by done.
        destruct (list_find _ _) as [[i x]|]; [|done]. cbn. by rewrite Nat.add_succ_r.
    + rewrite decide_False by congruence. rewrite IH by done. destruct (list_find _ _) as [[i x]|]; [|done]. cbn. by rewrite Nat.add_succ_r.
Qed.

Lemma scan_layout all g (w : world) : mmc_at w -> resolve true (w_fs w) MMC_DEVICENAME = Found p -> laid_out d all ->
  (length all <= 64)%nat -> (60 <= fuel)%nat -> table_ok g ->
  views (mmc_scan_partitions fuel g) w (fun r => exists ps, r.2 = mkMmcState (Some ps) (zlen all) /\ filled all ps).
Proof.
  intros Hw Hp Hlay Hle Hfuel Hg. unfold mmc_scan_partitions.
  assert (forall ps w1, still w w1 -> length ps = 64%nat -> views (let! (n, ps) := mmc_read_mbr fuel MMC_DEVICENAME
    ((fun p => mkMmc None None None (dstatus p) (dtype p) (dfirstsec p) (dsize p)) <$> ps) in wret (n, mkMmcState (Some ps) n)) w1
    (fun r => exists ps, r.2 = mkMmcState (Some ps) (zlen all) /\ filled all ps)) as H.
  { intros ps w1 Hst Hl. eapply views_bind.
    - apply (mmc_read_mbr_layout all); [by eapply mmc_still|by rewrite (proj1 Hst)|done|done|done| |by rewrite length_fmap].
      apply Forall_fmap, Forall_forall. intros q _. done.
    - intros [k ps'] w2 [Ek Hf] _. cbn [fst snd] in *. subst k. apply views_ret. by exists ps'. }
  destruct (partitions g) as [ps|] eqn:Ep; [by apply H; [|apply (Hg ps Ep)]|].
  eapply (views_bind _ _ _ (fun a => 0 <= a)); [apply wp_ask; split; [apply Hw|done]|]. intros a w1 Ha Hst.
  rewrite (proj2 (Z.ltb_ge _ _)) by done. apply H; [done|]. by rewrite length_replicate.
Qed.

Lemma owner_lt all s k : owner all s = Some k -> (k < length all)%nat.
Proof.
  unfold owner. intros H. apply fmap_Some in H as ([i x] & Hf & ->). apply list_find_Some in Hf as (Hk & _ & _). apply lookup_lt_Some in Hk.
  assert (length (names_from [] (types all)) = length all) as El; [|cbn; lia].
  unfold types. generalize (@nil Z). clear. induction all as [|x all IH]; intros before; cbn; [done|]. by rewrite IH.
Qed.

End Layout.

(** [C27] On a device that was laid out as the format says, with primary and
    logical partitions, at most 64 of them, [cmd_mmc_get_partition_device] of a
    name gives the device of the first partition that has the name by its type and
    those before it, and -1 if there is none; it changes nothing. No call fails,
    and all partition tables, also those in front of the logical partitions, are
    in the first 2 GiB of the device: the offset of others wraps ([seek_wraps]).
    *)
Theorem mmc_partition_found {Dev : Type} (fuel : nat) (p : path) (d : list Z) (all : list (Z * entry)) (s : list Z) (n : Z) (g : MmcState)
    (w : world tree Dev) :
  calm w -> resolve true (w_fs w) MMC_DEVICENAME = Found p -> (exists i, w_fs w !! p = Some i /\ node_data i = Some d) ->
  laid_out d all -> (length all <= 64)%nat -> (60 <= fuel)%nat -> table_ok g -> head s <> Some SLASH -> 128 <= n ->
  exists g' w', cmd_mmc_get_partition_device fuel s n g w =
    (Done (match owner all s with Some k => (0, Some (device k)) | None => (-1, None) end, g'), w') /\
    w_fs w' = w_fs w /\ partition_count g' = zlen all.
Proof.
  intros Hc Hp Hd Hlay Hle Hfuel Hg Hs Hn.
  assert (views (cmd_mmc_get_partition_device fuel s n g) w (fun r => exists g', r =
    (match owner all s with Some k => (0, Some (device k)) | None => (-1, None) end, g') /\ partition_count g' = zlen all)) as H.
  { unfold cmd_mmc_get_partition_device, with_partition. eapply views_bind; [by apply (scan_layout fuel p d all g w)|].
    intros [k g'] w1 (ps & Eg & Hf) _. cbn [snd] in Eg. subst g'.
    unfold mmc_find_partition_by_name. rewrite bool_decide_false by done. cbn [partitions mbind option_bind].
    destruct (fi_split _ _ Hf) as (rest & -> & Hr). pose proof (find_in_parts s all [] 0 rest Hr) as E. fold (parts all) (owner all s) in E.
    destruct (find_partition _ _) as [q|] eqn:Eq; cbn [fmap option_fmap option_map] in E.
    - destruct (owner all s) as [k'|] eqn:Ef; [|done]. injection E as E.
      eapply (views_bind _ _ _ (fun r => r = (0, Some (device k')))); [|intros r w2 -> _; apply views_ret; by eexists].
      eapply views_bind; [eapply (views_lift _ _ _ (fun x => x = device k')); [by rewrite E|done]|]. intros dd w2 -> _.
      apply owner_lt in Ef. pose proof (device_bound k' ltac:(lia)). rewrite (proj2 (Z.ltb_lt _ _)) by lia. by apply views_ret.
    - destruct (owner all s); [done|]. apply views_ret. by eexists. }
  destruct H as (r & w' & l & E & _ & _ & (g' & -> & Hcount) & Hst & _). by exists g', w'.
Qed.

Definition demo_layout : list Z :=
  let none := plain_entry 0 0 0 in
  table_sector demo_code [plain_entry 72 9 1; plain_entry 131 10 4; plain_entry 12 14 2; plain_entry 5 1 8] ++
  table_sector demo_code [plain_entry 131 1 1; plain_entry 5 1 4; none; none] ++
  table_sector demo_code [plain_entry 113 1 2; none; none; none].

(** The second partition of its type, which is the first of the chain. *)
Lemma mmc_partition_found_witness :
  exists g' w', cmd_mmc_get_partition_device 60 (str "userdata") 128 g_mmc_state (demo_device demo_layout) =
    (Done (0, Some (str "/dev/block/mmcblk0p5"), g'), w') /\ w_fs w' = w_fs (demo_device demo_layout) /\ partition_count g' = 6.
Proof.
  set (all := ((0,.) <$> [plain_entry 72 9 1; plain_entry 131 10 4; plain_entry 12 14 2; plain_entry 5 1 8]) ++
    [(1, plain_entry 131 1 1); (2, plain_entry 113 1 2)]).
  assert (match owner all (str "userdata") with Some k => (0, Some (device k)) | None => (-1, None) end = (0, Some (str "/dev/block/mmcblk0p5"))) as <-
    by (vm_compute; reflexivity).
  apply (mmc_partition_found 60 [str "dev"; str "block"; str "mmcblk0"] demo_layout all (str "userdata") 128 g_mmc_state (demo_device demo_layout)).
  - intros n. vm_compute. congruence.
  - by vm_compute.
  - eexists. split; by vm_compute.
  - assert (forall type first size, in_u 32 first -> in_u 32 size -> entry_ok (plain_entry type first size)) as Hok by (by split).
    assert (forall s es, length es = 4%nat -> Forall entry_ok es -> take 512 (drop (Z.to_nat (s * 512)) demo_layout) = table_sector demo_code es ->
      0 <= s * 512 < 2 ^ 31 -> at_sector demo_layout s demo_code es) as Hat by (by split).
    assert (forall a b c e, entry_ok a -> entry_ok b -> entry_ok c -> entry_ok e -> Forall entry_ok [a; b; c; e]) as H4 by (intros; by do 3 (apply Forall_cons_2; [done|]); apply Forall_singleton).
    eexists demo_code, _, _, _, _, _. split; [|split; [reflexivity|]].
    + apply Hat; [done|apply H4; by apply Hok|by vm_compute|lia].
    + change (t_type (plain_entry 5 1 8) =? 5) with true. cbn iota.
      apply (chain_more _ _ _ demo_code (plain_entry 131 1 1) (plain_entry 5 1 4) (plain_entry 0 0 0) (plain_entry 0 0 0)).
      * apply Hat; [done|apply H4; by apply Hok|by vm_compute|cbn; lia].
      * done.
      * apply (chain_last _ _ _ demo_code (plain_entry 113 1 2) (plain_entry 0 0 0) (plain_entry 0 0 0) (plain_entry 0 0 0)); [|done].
        apply Hat; [done|apply H4; by apply Hok|by vm_compute|cbn; lia].
  - cbn. lia.
  - lia.
  - done.
  - done.
  - lia.
Defined.
