(* ===== verification/MmcCopy.v ===== *)
(** * The contents of eMMC partitions

    Writing an image to a partition and reading the partition back, block by block
    or byte by byte. *)
From S2P Require Import Prelude.
From S2P Require Import Posix.
From S2P Require Import PosixFacts.
From S2P Require Import Stdio.
From S2P Require Import Views.
From S2P Require Import Streams.
From S2P Require Import Mmcutils.
Local Open Scope string_scope.
Local Open Scope Z_scope.
Local Open Scope list_scope.

Section Copying.
  Context {Dev : Type} (pi po : path) (mk : list Z -> kind) (old d : list Z).
  Abbreviation world := (world tree Dev).
  Context (Hne : pi <> po) (Hroom : room mk old d).

(** The file that is read, and the stream that is written, when [t] of it was. *)
Definition reading (F : tree) : Prop := exists i, F !! pi = Some i /\ node_data i = Some d.
Definition copying (t : list Z) (m : wfile) (F F' : tree) : Prop :=
  reading F' /\ holds po mk old m t F' /\ exists j, F' = <[po := j]> F.

Lemma reading_bare (fs : tree) : reading (bare <$> fs) -> reading fs.
Proof. intros (i & Hi & Hd). apply bare_lookup in Hi as (j & Hj & ->). by exists j. Qed.

Lemma fread_at n pos (w : world) : calm w -> reading (w_fs w) -> (pos <= length d)%nat ->
  looks (fread (Z.of_nat n) (mkR pi (Z.of_nat pos))) w (take n (drop pos d), mkR pi (Z.of_nat (pos + length (take n (drop pos d))))).
Proof.
  intros Hc (i & Hi & Hd) Hpos. unfold looks, views, fread, take_input. repeat wp_step. cbn [w_fs asked r_node r_pos].
  rewrite (proj2 (Z.ltb_ge _ 0)) by apply Hc. unfold unread. cbn [r_node r_pos]. rewrite Hi, Hd. cbn [default from_option id].
  rewrite !Nat2Z.id. split; [|done]. do 3 f_equal. lia.
Qed.

(** One more piece. *)
Lemma fwrite_copying n pos m F (w : world) : roomy w -> copying (take pos d) m F (bare <$> w_fs w) ->
  makes (fwrite (take n (drop pos d)) m) w (fun r fs => r.1 = true /\ copying (take (pos + n) d) r.2 F (bare <$> fs)).
Proof.
  intros Hw ((i & Hi & Hd) & Hm & j & EF). rewrite <- take_take_drop.
  eapply makes_mono; [apply (fwrite_spec po mk old); [done| |exact Hm]|].
  { rewrite take_take_drop. destruct Hroom as [?|[? Hl]]; [by left|right]. split; [done|]. rewrite length_take. lia. }
  intros r fs (H1 & H2 & (i' & j' & d' & _ & _ & E')). split; [done|]. split; [|split; [exact H2|]].
  - exists i. split; [|done]. rewrite E', lookup_insert_ne; [done|congruence].
  - exists (bare j'). by rewrite E', EF, insert_insert_eq.
Qed.

Lemma copy_blocks_spec k : forall pos m F (w : world), roomy w -> copying (take pos d) m F (bare <$> w_fs w) -> length d = (pos + 512 * k)%nat ->
  makes (copy_blocks k (mkR pi (Z.of_nat pos)) m) w (fun r fs => r.1 = true /\ copying d r.2 F (bare <$> fs)).
Proof.
  induction k as [|k IH]; intros pos m F w Hw Hm Hl; cbn [copy_blocks].
  { apply makes_ret. rewrite take_ge in Hm by lia. done. }
  assert (length (take 512 (drop pos d)) = 512%nat) as Hlen by (rewrite length_take, length_drop; lia).
  eapply (makes_bind _ _ _ (fun r fs => r = (Some (take 512 (drop pos d)), mkR pi (Z.of_nat (pos + 512))) /\ fs = w_fs w)).
  { unfold read_sector. apply makes_views. eapply views_bind; [apply (fread_at 512 pos); [by apply roomy_calm|apply reading_bare, Hm|lia]|].
    intros x w1 -> _. cbn beta iota. rewrite Hlen. by apply views_ret. }
  intros x w1 [-> E1] Ha1. cbn beta iota.
  eapply makes_bind; [apply (fwrite_copying 512 pos m F); [by eapply roomy_same|by rewrite E1]|].
  intros [ok m1] w2 [Hok Hm1] Ha2. cbn [fst snd] in *. subst ok. cbn beta iota. apply IH; [|done|lia].
  eapply roomy_same; [|exact Hw]. congruence.
Qed.

Lemma copy_bytes_spec n : forall pos m F (w : world), roomy w -> copying (take pos d) m F (bare <$> w_fs w) -> (pos <= length d)%nat ->
  (length d - pos < n)%nat -> makes (copy_bytes n (mkR pi (Z.of_nat pos)) m) w (fun r fs => copying d r F (bare <$> fs)).
Proof.
  induction n as [|n IH]; intros pos m F w Hw Hm Hpos Hn; [lia|]. cbn [copy_bytes].
  eapply makes_bind; [apply makes_views, (fread_at 1 pos); [by apply roomy_calm|apply reading_bare, Hm|done]|].
  intros x w1 [-> E1] Ha1. cbn beta iota. destruct (take 1 (drop pos d)) as [|c l] eqn:Ec.
  { apply makes_ret. rewrite E1. assert (length d <= pos)%nat by (apply (f_equal length) in Ec; rewrite length_take, length_drop in Ec; cbn [length] in Ec; lia).
    rewrite take_ge in Hm by lia. done. }
  assert (pos < length d)%nat as Hlt by (apply (f_equal length) in Ec; rewrite length_take, length_drop in Ec; cbn [length] in Ec; lia).
  rewrite <- Ec. assert (length (take 1 (drop pos d)) = 1%nat) as Hlen by (rewrite length_take, length_drop; lia). rewrite Hlen.
  eapply makes_bind; [apply (fwrite_copying 1 pos m F); [by eapply roomy_same|by rewrite E1]|].
  intros [ok m1] w2 [Hok Hm1] Ha2. cbn [fst snd] in *. cbn beta iota. apply IH; [|done|lia|lia].
  eapply roomy_same; [|exact Hw]. congruence.
Qed.

End Copying.

Section Dump.
  Context {Dev : Type} (fuel : nat).
  Abbreviation world := (world tree Dev).

(** From a file or device to a stream that was just opened. *)
Lemma dump_spec in_file out_file pi po mk old d m (F1 : tree) (w : world) : roomy w -> pi <> po -> room mk old d ->
  zlen d < 2 ^ 31 -> (length d < fuel)%nat -> resolve true (w_fs w) in_file = Found pi -> reading pi d (bare <$> w_fs w) ->
  (forall w1 : world, roomy w1 -> w_fs w1 = w_fs w ->
    makes (fopen_out out_file) w1 (fun x fs => x = inl m /\ bare <$> fs = F1)) ->
  reading pi d F1 -> holds po mk old m [] F1 ->
  makes (mmc_raw_dump_internal fuel in_file out_file) w (fun r fs => r = 0 /\
    exists j, i_kind j = mk (over old d) /\ bare <$> fs = <[po := bare j]> F1).
Proof.
  intros Hw Hne Hroom Hlong Hfuel Hr Hin Hopen Hin1 Hm. destruct (reading_bare _ _ _ Hin) as (i & Hi & Hd). unfold mmc_raw_dump_internal.
  eapply makes_bind; [eapply makes_views, looks_fopen; [by apply roomy_calm|exact Hr|exact Hi]|]. intros x w1 [-> E1] Ha1. cbn beta iota.
  eapply makes_bind; [apply Hopen; [by eapply roomy_same|done]|]. intros x w2 [-> E2] Ha2. cbn beta iota.
  assert (roomy w2) as Hw2 by (eapply roomy_same; [|exact Hw]; congruence).
  eapply (makes_bind _ _ _ (fun sz fs => sz = zlen d /\ fs = w_fs w2)).
  { apply makes_views. unfold stream_size, views. repeat wp_step. split; [|done]. rewrite <- unread_bare, E2. unfold unread. cbn [r_node r_pos].
    destruct Hin1 as (i1 & -> & ->). cbn [default from_option id Z.to_nat drop]. by rewrite (proj2 (Z.ltb_lt _ _)). }
  intros sz w3 [-> E3] Ha3. assert (roomy w3) as Hw3 by (by eapply roomy_same).
  assert (copying pi po mk old d (take 0 d) m F1 (bare <$> w_fs w3)) as Hc.
  { rewrite E3, E2. split; [done|]. split; [done|]. destruct Hm as (_ & i0 & d0 & Hi0 & _). exists i0. symmetry. by apply insert_id. }
  eapply (makes_bind _ _ _ (fun r fs => r.1 = true /\ copying pi po mk old d d r.2 F1 (bare <$> fs))).
  { destruct (Z.eqb_spec (zlen d mod 512) 0) as [E|E]; cbn [negb].
    - apply (copy_blocks_spec pi po mk old d Hne Hroom _ 0); [done|exact Hc|]. Z.div_mod_to_equations; lia.
    - eapply makes_bind; [apply (copy_bytes_spec pi po mk old d Hne Hroom fuel 0); [done|exact Hc|lia|lia]|]. intros x w4 Hx _. by apply makes_ret. }
  intros [ok m4] w4 [Hok (_ & Hm4 & j4 & E4)] Ha4. cbn [fst snd] in *. subst ok. cbn beta iota.
  eapply makes_bind; [apply (fclose_spec po mk old m4 d); [by eapply roomy_same|done|done]|]. intros x w5 (j & Kj & E5) _. apply makes_ret.
  split; [done|]. exists j. split; [done|]. by rewrite E5, E4, insert_insert_eq.
Qed.

(** [fopen] of a device, and of a file that is not there yet. *)
Lemma fopen_device s po i old (w : world) : calm w -> resolve true (w_fs w) s = Found po -> w_fs w !! po = Some i -> i_kind i = KBlock old ->
  makes (fopen_out s) w (fun x fs => x = inl (mkF po (Some 0) [] false) /\ fs = w_fs w).
Proof.
  intros Hc Hr Hi Hk. unfold fopen_out. eapply (makes_bind _ _ _ (fun x fs => x = w_fs w /\ fs = w_fs w)); [by apply wp_get_fs|].
  intros x w1 [-> E1] Ha1. rewrite Hr, Hi. cbn [fmap option_fmap option_map]. rewrite Hk.
  apply wp_syscall; [intros []; by eapply calm_same|]. rewrite E1, Hr, Hi. unfold is_dir. rewrite Hk. apply wp_ret. cbn. by rewrite E1.
Qed.

Lemma fopen_new s dir c (w : world) : calm w -> resolve true (w_fs w) s = Absent dir c ->
  makes (fopen_out s) w (fun x fs => x = inl (mkF (dir ++ [c]) (Some 0) [] false) /\ fs = <[dir ++ [c] := new_inode (KFile []) 438]> (w_fs w)).
Proof.
  intros Hc Hr. unfold fopen_out. eapply (makes_bind _ _ _ (fun x fs => x = w_fs w /\ fs = w_fs w)); [by apply wp_get_fs|].
  intros x w1 [-> E1] Ha1. rewrite Hr. unfold fopen_w.
  eapply (makes_bind _ _ _ (fun x fs => x = inl (dir ++ [c]) /\ fs = <[dir ++ [c] := new_inode (KFile []) 438]> (w_fs w))).
  { apply wp_syscall; [intros []; by eapply calm_same|]. rewrite E1, Hr. apply wp_bind, wp_set_fs; [done|]. by apply wp_ret. }
  intros x w2 [-> E2] _. apply makes_ret. by rewrite E2.
Qed.

(** To a device that has room, and to a new file. *)
Lemma dump_to_device in_file out_file pi pd dev d old (w : world) : roomy w -> pi <> pd -> (length d <= length old)%nat ->
  zlen d < 2 ^ 31 -> (length d < fuel)%nat -> resolve true (w_fs w) in_file = Found pi -> reading pi d (bare <$> w_fs w) ->
  resolve true (w_fs w) out_file = Found pd -> w_fs w !! pd = Some dev -> i_kind dev = KBlock old ->
  makes (mmc_raw_dump_internal fuel in_file out_file) w (fun r fs => r = 0 /\
    exists j, i_kind j = KBlock (over old d) /\ bare <$> fs = <[pd := bare j]> (bare <$> w_fs w)).
Proof.
  intros Hw Hne Hle Hlong Hfuel Hri Hin Hrd Hdev Kd. apply (dump_spec in_file out_file pi pd KBlock old d (mkF pd (Some 0) [] false));
    [done|done|by right|done|done|done|done| |done|].
  - intros w1 Hw1 E1. eapply makes_mono; [eapply fopen_device; [by apply roomy_calm|by rewrite E1|by rewrite E1|done]|].
    intros x fs [-> ->]. by rewrite E1.
  - split; [done|]. exists (bare dev), []. by rewrite lookup_fmap, Hdev.
Qed.

Lemma dump_to_file in_file out_file pi dir c d (w : world) : roomy w -> zlen d < 2 ^ 31 -> (length d < fuel)%nat ->
  resolve true (w_fs w) in_file = Found pi -> reading pi d (bare <$> w_fs w) -> resolve true (w_fs w) out_file = Absent dir c ->
  makes (mmc_raw_dump_internal fuel in_file out_file) w (fun r fs => r = 0 /\
    exists b, i_kind b = KFile d /\ bare <$> fs = <[dir ++ [c] := bare b]> (bare <$> w_fs w)).
Proof.
  intros Hw Hlong Hfuel Hri Hin Hro. pose proof Hin as (i & Hi & Hd).
  assert (w_fs w !! (dir ++ [c]) = None) as Hnone.
  { unfold resolve in Hro. destruct (_ <=? _); [done|]. destruct out_file; [done|]. by apply walk_absent in Hro as (_ & Hro & _). }
  assert (pi <> dir ++ [c]) as Hne by (intros ->; rewrite lookup_fmap, Hnone in Hi; done).
  eapply makes_mono; [apply (dump_spec in_file out_file pi (dir ++ [c]) KFile [] d (mkF (dir ++ [c]) (Some 0) [] false)
    (<[dir ++ [c] := new_inode (KFile []) 438]> (bare <$> w_fs w))); [done|done|by left|done|done|done|done| | |]|].
  - intros w1 Hw1 E1. eapply makes_mono; [eapply (fopen_new _ dir c); [by apply roomy_calm|by rewrite E1]|].
    intros x fs [-> ->]. by rewrite E1, fmap_insert.
  - exists i. by rewrite lookup_insert_ne.
  - split; [done|]. eexists _, []. by rewrite lookup_insert_eq.
  - intros r fs (-> & b & Kb & Eb). split; [done|]. exists b. rewrite over_nil in Kb. by rewrite Eb, insert_insert_eq.
Qed.

End Dump.

(** [C22] An image that is written to a partition, given by its device, is at the
    start of what is read back from it, the partition keeps what was behind the
    image, both commands return 0, and nothing else changes. The image is not
    longer than the partition (a longer one is cut, see
    [oversized_image_succeeds]), the partition is below 2 GiB, no call fails; the
    sizes need not be multiples of the block size. *)
Theorem mmc_restore_backup_roundtrip {Dev : Type} (fuel : nat) (partition image backup : list Z) (pi pd dir : path) (c : list Z)
    (i dev : inode) (d old : list Z) (g : MmcState) (w : world tree Dev) :
  roomy w -> head partition = Some SLASH ->
  resolve true (w_fs w) image = Found pi -> w_fs w !! pi = Some i -> i_kind i = KFile d ->
  resolve true (w_fs w) partition = Found pd -> w_fs w !! pd = Some dev -> i_kind dev = KBlock old ->
  resolve true (w_fs w) backup = Absent dir c ->
  (length d <= length old)%nat -> zlen old < 2 ^ 31 -> (length old < fuel)%nat ->
  makes (let! (r, g) := cmd_mmc_restore_raw_partition fuel partition image g in
         let! (r', g) := cmd_mmc_backup_raw_partition fuel partition backup g in wret (r, r')) w
    (fun rr fs => rr = (0, 0) /\ exists back dev', i_kind back = KFile (d ++ drop (length d) old) /\ i_kind dev' = KBlock (d ++ drop (length d) old) /\
      bare <$> fs = <[dir ++ [c] := bare back]> (<[pd := bare dev']> (bare <$> w_fs w))).
Proof.
  intros Hw Hs Hri Hi Ki Hrd Hdev Kd Hrb Hle Hlong Hfuel. assert (pi <> pd) as Hne by (intros ->; congruence).
  unfold cmd_mmc_restore_raw_partition, cmd_mmc_backup_raw_partition. rewrite !bool_decide_true by done.
  assert (reading pi d (bare <$> w_fs w)) as Hin.
  { exists (bare i). unfold node_data. rewrite lookup_fmap, Hi. cbn. by rewrite Ki. }
  eapply makes_bind; [eapply makes_bind; [by eapply (dump_to_device fuel image partition pi pd dev d old); [..|lia|lia| | | | |]|]|].
  { intros r w1 [-> (j & Hj)] _. apply (makes_ret (0, g) w1 (fun x fs => x = (0, g) /\ exists j, i_kind j = KBlock (over old d) /\
      bare <$> fs = <[pd := bare j]> (bare <$> w_fs w))). by split; [|exists j]. }
  intros x w1 [-> (j & Kj & E1)] Ha1. cbn beta iota.
  assert (forall follow s, resolve follow (w_fs w1) s = resolve follow (w_fs w) s) as Hres.
  { intros follow s. rewrite <- resolve_bare, E1, <- (resolve_bare follow (w_fs w)).
    apply (resolve_leaf _ _ _ (bare dev)); unfold is_dir, is_link; cbn [bare i_kind]; rewrite ?lookup_fmap, ?Hdev, ?Kd, ?Kj; done. }
  assert (length (over old d) = length old) as El by (unfold over; rewrite length_app, length_drop; lia).
  eapply makes_bind; [eapply makes_bind; [apply (dump_to_file fuel partition backup pd dir c (over old d))|]|].
  - by eapply roomy_same.
  - lia.
  - lia.
  - by rewrite Hres.
  - exists (bare j). rewrite E1, lookup_insert_eq. unfold node_data. cbn [bare i_kind]. by rewrite Kj.
  - by rewrite Hres.
  - intros r w2 [-> (b & Hb)] _. apply (makes_ret (0, g) w2 (fun x fs => x = (0, g) /\ exists b, i_kind b = KFile (over old d) /\
      bare <$> fs = <[dir ++ [c] := bare b]> (bare <$> w_fs w1))). by split; [|exists b].
  - intros x w2 [-> (b & Kb & E2)] _. apply makes_ret. split; [done|]. exists b, j. rewrite E2, E1. done.
Qed.

(** An image of three bytes on a device of five. *)
Definition demo_mmc : Run.world tree unit :=
  let dir := mkInode KDir 493 0 0 None in
  Run.mkWorld {[ [] := dir; [str "img"] := mkInode (KFile [1; 2; 3]) 420 0 0 None; [str "p1"] := mkInode (KBlock [9; 9; 9; 9; 9]) 384 0 0 None ]}
    tt (fun _ => 4096) 0 [].

Lemma mmc_restore_backup_roundtrip_witness :
  exists w', (let! (r, g) := cmd_mmc_restore_raw_partition 10 (str "/p1") (str "/img") g_mmc_state in
    let! (r', g) := cmd_mmc_backup_raw_partition 10 (str "/p1") (str "/back") g in wret (r, r')) demo_mmc = (Done (0, 0), w') /\
    i_kind <$> w_fs w' !! [str "back"] = Some (KFile [1; 2; 3; 9; 9]).
Proof.
  destruct (mmc_restore_backup_roundtrip 10 (str "/p1") (str "/img") (str "/back") [str "img"] [str "p1"] [] (str "back")
    (mkInode (KFile [1; 2; 3]) 420 0 0 None) (mkInode (KBlock [9; 9; 9; 9; 9]) 384 0 0 None) [1; 2; 3] [9; 9; 9; 9; 9] g_mmc_state demo_mmc)
    as (rr & w' & l & E & _ & _ & (-> & b & j & Kb & _ & E2) & _).
  - intros n. vm_compute. congruence.
  - done.
  - by vm_compute.
  - by vm_compute.
  - done.
  - by vm_compute.
  - by vm_compute.
  - done.
  - by vm_compute.
  - cbn. lia.
  - cbn. lia.
  - cbn. lia.
  - exists w'. split; [exact E|]. assert ((bare <$> w_fs w') !! [str "back"] = Some (bare b)) as Hb by (rewrite E2; apply lookup_insert_eq).
    apply bare_lookup in Hb as (b' & Hb' & Eb). rewrite Hb'. cbn [fmap option_fmap option_map]. f_equal.
    change (i_kind (bare b') = KFile [1; 2; 3; 9; 9]). rewrite <- Eb. exact Kb.
Defined.

(** An image that does not fit is cut, and the command succeeds. *)
Lemma oversized_image_succeeds :
  let w := Run.mkWorld (<[[str "p1"] := mkInode (KBlock [9; 9]) 384 0 0 None]> (w_fs demo_mmc)) tt (fun _ => 4096) 0 [] in
  let r := cmd_mmc_restore_raw_partition 10 (str "/p1") (str "/img") g_mmc_state w in
  r.1 = Done (0, g_mmc_state) /\ i_kind <$> w_fs r.2 !! [str "p1"] = Some (KBlock [1; 2]).
Proof. split; by vm_compute. Qed.
