(* ===== verification/Applypatch.v ===== *)
(** * Applying patches to files and partitions ([applypatch/applypatch.c],
      [applypatch/freecache.c])

    Programs over the file system of [World].  SHA-1 is the parameter [sha1]
    (mincrypt is not part of this repository): an SHA context is the bytes it
    was given.  An eMMC partition is the file of its device node; MTD
    partitions are read and written through [Mtdutils].  A [FileContents] that
    was never filled in has whatever size was on the stack, [garbage]. *)
From S2P Require Import Prelude Cstring Utils Bspatch Retouch Edify Mtdutils MtdScan Imgpatch World.
From stdpp Require Import sorting.
From Stdlib Require Import Ascii.
Open Scope string_scope.
Open Scope Z_scope.

Definition ENOENT : Z := 2.
Definition SHA_DIGEST_SIZE : nat := 20.
Definition CACHE_TEMP_SOURCE : string := "/cache/saved.file".

Record FileContents := mkFC {
  fc_sha1 : list Z;
  fc_data : option (list Z);
  fc_size : Z;
  fc_st : Z * Z * Z
}.

(** [strncmp(filename, "MTD:", 4) == 0 || strncmp(filename, "EMMC:", 5) == 0]. *)
Definition is_partition (filename : string) : bool :=
  has_prefix "MTD:" filename || has_prefix "EMMC:" filename.

Inductive PartitionType := MTD | EMMC.

(** ** SHA-1 digests in text *)

(** One hexadecimal digit of [ParseSha1]. *)
Definition sha_digit (c : ascii) : option Z :=
  let n := Z.of_N (N_of_ascii c) in
  if (48 <=? n) && (n <=? 57) then Some (n - 48)
  else if (97 <=? n) && (n <=? 102) then Some (n - 97 + 10)
  else if (65 <=? n) && (n <=? 70) then Some (n - 65 + 10)
  else None.

(** [n] bytes of two digits each: the bytes and the rest of the string. *)
Fixpoint parse_digits (n : nat) (s : string) : option (list Z * string) :=
  match n with
  | O => Some ([], s)
  | S n =>
      match s with
      | String c1 (String c2 s) =>
          d1 ← sha_digit c1; d2 ← sha_digit c2;
          '(ds, rest) ← parse_digits n s;
          Some ((d1 <<< 4) .| d2 :: ds, rest)
      | _ => None
      end
  end.

(** [ParseSha1(str, digest)]: [None] is -1. *)
Definition ParseSha1 (str : string) : option (list Z) :=
  '(ds, rest) ← parse_digits SHA_DIGEST_SIZE str;
  if bool_decide (rest = "") then Some ds else None.

(** [FindMatchingPatch]: [None] is -1. *)
Fixpoint FindMatchingPatch (sha1 : list Z) (patch_sha1_str : list string) : option nat :=
  match patch_sha1_str with
  | [] => None
  | str :: rest =>
      if bool_decide (ParseSha1 str = Some sha1) then Some O
      else S <$> FindMatchingPatch sha1 rest
  end.

(** In bionic's stdio.h. *)
Definition FILENAME_MAX : Z := 1024.

Section Applypatch.
  Context {B : BzLib} {Zl : ZLib} {D : MtdDriver}.
  Context (malloc_ok : Z -> bool).
  Context (sha1 : list Z -> list Z).
  (** What [mtd_scan_partitions] finds. *)
  Context (mtd_table : MtdState).
  (** The names in a directory, in the order of [readdir]; what is in /proc: the
      names and, of processes, the descriptors in their directory fd, with what
      the links say. *)
  Context (readdir : disk -> string -> list string) (proc : list (string * list (string * string))).
  Context (garbage : Z).
  Context (fuel : nat).

Abbreviation M := (W dev).

(** ** Free space *)

(** [FreeSpaceForFile]: [sf.f_bsize * sf.f_bfree] is the oracle's answer; -1 on
    an error, as a [size_t]. *)
Definition FreeSpaceForFile (filename : string) : M Z :=
  let! a := ask in wret (if a <? 0 then 2 ^ 32 - 1 else wrap 32 a).

(** The loop of [FindExpendableFiles] over one directory. *)
Fixpoint expendable_in (dir : string) (names : list string) : M (list string) :=
  match names with
  | [] => wret []
  | name :: names =>
      let path := dir ++ "/" ++ name in
      if bool_decide (path = CACHE_TEMP_SOURCE) then expendable_in dir names
      else
        let! st := sys_stat path in
        let! rest := expendable_in dir names in
        match st with inl _ => wret (path :: rest) | inr _ => wret rest end
  end.

(** [for (i = 0; de->d_name[i] != 0 && isdigit(de->d_name[i]); ++i)], and the
    name has ended. *)
Fixpoint is_numeric (name : string) : bool :=
  match name with
  | EmptyString => true
  | String c name => match digit_value c with Some _ => is_numeric name | None => false end
  end.

(** [files[j] = NULL] for the files of a name. *)
Definition strike (link : string) (files : list (option string)) : list (option string) :=
  map (fun f => if bool_decide (f = Some link) then None else f) files.

(** The loop over the descriptors of a process; [readlink] may fail and fills at
    most [FILENAME_MAX - 1] bytes. *)
Fixpoint eliminate_fds (fds : list (string * string)) (files : list (option string)) : M (list (option string)) :=
  match fds with
  | [] => wret files
  | (_, target) :: fds =>
      let! count := ask in
      if count <? 0 then eliminate_fds fds files
      else
        let link := String.substring 0 (Z.to_nat (FILENAME_MAX - 1)) target in
        eliminate_fds fds (if has_prefix "/cache/" link then strike link files else files)
  end.

(** The loop over /proc; [opendir] of a directory fd may fail. *)
Fixpoint eliminate_in (entries : list (string * list (string * string))) (files : list (option string)) : M (list (option string)) :=
  match entries with
  | [] => wret files
  | (name, fds) :: entries =>
      if negb (is_numeric name) then eliminate_in entries files
      else
        let! fdd := ask in
        if fdd <? 0 then eliminate_in entries files
        else let! files := eliminate_fds fds files in eliminate_in entries files
  end.

(** [None] is the error return when /proc cannot be opened. *)
Definition EliminateOpenFiles (names : list string) : M (option (list (option string))) :=
  let! d := ask in
  if d <? 0 then wret None
  else let! files := eliminate_in proc (Some <$> names) in wret (Some files).

Definition FindExpendableFiles : M (option (list (option string))) :=
  let! fs := get_fs in
  let! l1 := expendable_in "/cache" (readdir fs "/cache") in
  let! l2 := expendable_in "/cache/recovery/otatest" (readdir fs "/cache/recovery/otatest") in
  EliminateOpenFiles (l1 ++ l2)%list.

(** [for (i = 0; i < entries && free_now < bytes_needed; ++i)]. *)
Fixpoint delete_loop (names : list (option string)) (free_now bytes_needed : Z) : M Z :=
  match names with
  | [] => wret free_now
  | name :: names =>
      if free_now <? bytes_needed then
        match name with
        | Some name =>
            let! _ := sys_unlink name in
            let! free_now := FreeSpaceForFile "/cache" in
            delete_loop names free_now bytes_needed
        | None => delete_loop names free_now bytes_needed
        end
      else wret free_now
  end.

Definition MakeFreeSpaceOnCache (bytes_needed : Z) : M Z :=
  let bytes_needed := wrap 32 bytes_needed in
  let! free_now := FreeSpaceForFile "/cache" in
  if bytes_needed <=? free_now then wret 0
  else
    let! names := FindExpendableFiles in
    match names with
    | None | Some [] => wret (-1)
    | Some names =>
        let! free_now := delete_loop names free_now bytes_needed in
        wret (if bytes_needed <=? free_now then 0 else -1)
    end.

Definition CacheSizeCheck (bytes : Z) : M Z :=
  let! r := MakeFreeSpaceOnCache bytes in wret (if r <? 0 then 1 else 0).

(** ** Loading *)

(** The (size, sha1) pairs of a partition name, from where [strtok] is. *)
Fixpoint parse_pairs (pairs : nat) (toks : string) : outcome (option (list (Z * option string))) :=
  match pairs with
  | O => Done (Some [])
  | S pairs =>
      match strtok ":" toks with
      | (None, _) => Undef
      | (Some size_str, toks) =>
          let size := wrap 32 (strtol size_str).1 in
          if size =? 0 then Done None
          else
            let '(sha, toks) := strtok ":" toks in
            r ← parse_pairs pairs toks;
            Done (option_map (fun l => (size, sha) :: l) r)
      end
  end.

Definition size_le (a b : Z * option string) : Prop := a.1 <= b.1.

#[export] Instance size_le_dec : RelDecision size_le.
Proof. intros a b. unfold size_le. apply _. Defined.

(** Where the bytes of a partition come from. *)
Inductive part_source :=
  | SrcMtd (ctx : MtdReadContext)
  | SrcEmmc (data : list Z) (pos : Z).

(** [mtd_read_data(ctx, p, next)] or [fread(p, 1, next, dev)]. *)
Definition part_read (src : part_source) (next : Z) : M (option (list Z) * part_source) :=
  match src with
  | SrcMtd ctx =>
      let! d := get_dev in
      let! r := wlift (mtd_read_data fuel ctx next d) in
      let '(got, ctx, d) := r in
      let! _ := set_dev d in wret (got, SrcMtd ctx)
  | SrcEmmc data pos =>
      let! got := sys_fread data pos next in
      wret (Some got, SrcEmmc data (pos + zlen got))
  end.

(** The loop over the pairs in order of increasing size: the bytes that match,
    or [None] with how many were read. *)
Fixpoint load_pairs (pairs : list (Z * option string)) (src : part_source) (acc : list Z)
  : M (option (list Z) * Z) :=
  match pairs with
  | [] => wret (None, zlen acc)
  | (size, sha) :: pairs =>
      let next := size - zlen acc in
      let! r := (if 0 <? next then
                   let! r := part_read src next in
                   let '(got, src) := r in
                   match got with
                   | Some got => if zlen got =? next then wret (Some (acc ++ got)%list, src)
                                 else wret (None, src)
                   | None => wret (None, src)
                   end
                 else wret (Some acc, src)) in
      let '(acc', src) := r in
      match acc' with
      | None => wret (None, zlen acc)
      | Some acc =>
          match sha with
          | None => wlift Undef
          | Some sha =>
              match ParseSha1 sha with
              | None => wret (None, zlen acc)
              | Some parsed_sha =>
                  if bool_decide (sha1 acc = parsed_sha) then wret (Some acc, zlen acc)
                  else load_pairs pairs src acc
              end
          end
      end
  end.

(** [LoadPartitionContents]: the return value and [*file]. *)
Definition LoadPartitionContents (filename : string) (file : FileContents) : M (Z * FileContents) :=
  let failed := (-1, mkFC (fc_sha1 file) None (fc_size file) (fc_st file)) in
  let '(magic, toks) := strtok ":" filename in
  match magic with
  | None => wlift Undef
  | Some magic =>
      let type := if bool_decide (magic = "MTD") then Some MTD
                  else if bool_decide (magic = "EMMC") then Some EMMC else None in
      match type with
      | None => wret failed
      | Some type =>
          let '(partition, toks) := strtok ":" toks in
          let pairs := Z.quot (count_char ":" filename - 1) 2 in
          let! ps := wlift (parse_pairs (Z.to_nat pairs) toks) in
          match ps with
          | None => wret failed
          | Some ps =>
              match partition with
              | None => wlift Undef
              | Some partition =>
                  let! src :=
                    (match type with
                     | MTD =>
                         let! d := get_dev in
                         wret (p ← mtd_find_partition_by_name partition mtd_table;
                               SrcMtd <$> mtd_read_partition malloc_ok d p)
                     | EMMC =>
                         let! f := sys_fopen partition in
                         wret ((fun data => SrcEmmc data 0) <$> f)
                     end) in
                  match src with
                  | None => wret failed
                  | Some src =>
                      match ps with
                      | [] => wlift Undef
                      | _ =>
                          let! r := load_pairs (merge_sort size_le ps) src [] in
                          match r with
                          | (Some data, _) => wret (0, mkFC (sha1 data) (Some data) (zlen data) (420, 0, 0))
                          | (None, n) => wret (-1, mkFC (fc_sha1 file) None n (fc_st file))
                          end
                      end
                  end
              end
          end
      end
  end.

(** [LoadFileContents(filename, file, RETOUCH_DO_MASK)]. *)
Definition LoadFileContents (filename : string) (file : FileContents) : M (Z * FileContents) :=
  if is_partition filename then
    LoadPartitionContents filename (mkFC (fc_sha1 file) None (fc_size file) (fc_st file))
  else
    let! st := sys_stat filename in
    match st with
    | inr enoent => wret (if enoent : bool then - ENOENT else -1,
                          mkFC (fc_sha1 file) None (fc_size file) (fc_st file))
    | inl f =>
        let size := zlen (f_data f) in
        let stat := (f_mode f, f_uid f, f_gid f) in
        let failed := (-1, mkFC (fc_sha1 file) None size stat) in
        let! data := sys_fopen filename in
        match data with
        | None => wret failed
        | Some data =>
            let! got := sys_fread data 0 size in
            if negb (zlen got =? size) then wret failed
            else
              let! r := wlift (retouch_mask_data fuel got (Some 0)) in
              let '(status, got, _) := r in
              if negb (status =? RETOUCH_DATA_MATCHED) then wret failed
              else wret (0, mkFC (sha1 got) (Some got) size stat)
        end
    end.

(** ** Saving *)

(** [FileSink(data, len, &fd)]: the loop, by the bytes still to write. *)
Fixpoint file_sink (n : nat) (path : string) (data : option (list Z)) (len done : Z) : M Z :=
  if done <? len then
    match n with
    | O => wlift Diverge
    | S n =>
        let! wrote := sys_append path (drop (Z.to_nat done) <$> data) in
        if wrote <=? 0 then wret done else file_sink n path data len (done + wrote)
    end
  else wret done.

Definition FileSink (path : string) (data : option (list Z)) (len : Z) : M Z :=
  file_sink (Z.to_nat len) path data len 0.

Definition SaveFileContents (filename : string) (file : FileContents) : M Z :=
  let! opened := sys_creat filename in
  if negb opened then wret (-1)
  else
    let! bytes_written := FileSink filename (fc_data file) (fc_size file) in
    if negb (bytes_written =? fc_size file) then wret (-1)
    else
      let '(mode, uid, gid) := fc_st file in
      let! ok := sys_chmod filename mode in
      if negb ok then wret (-1)
      else
        let! ok := sys_chown filename uid gid in
        if negb ok then wret (-1) else wret 0.

(** ** Writing a partition *)

(** [write(fd, data, n)] on a device node at [start], in place: the return
    value.  The device does not grow: at its end the write fails. *)
Definition sys_pwrite (path : string) (start : Z) (data : list Z) : M Z :=
  let! a := ask in
  if a <? 0 then wret a
  else
    let! fs := get_fs in
    match fs !! path with
    | None => wret (-1)
    | Some f =>
        if zlen (f_data f) <=? start then wret (-1) else
        let n := Z.min a (Z.min (zlen data) (zlen (f_data f) - start)) in
        let part := take (Z.to_nat n) data in
        let! _ := set_fs (<[path := mkFile (take (Z.to_nat start) (f_data f) ++ part ++
                                             drop (Z.to_nat start + length part) (f_data f))%list
                                     (f_mode f) (f_uid f) (f_gid f)]> fs) in
        wret n
    end.

(** [while (start < len)]: at most 1 MiB at a time; a failed write is EINTR if
    the oracle's next answer is not negative, and is then repeated. *)
Fixpoint emmc_write (n : nat) (path : string) (data : list Z) (start : Z) : M bool :=
  if start <? zlen data then
    match n with
    | O => wlift Diverge
    | S n =>
        let to_write := Z.min (zlen data - start) (2 ^ 20) in
        let! written := sys_pwrite path start
                          (take (Z.to_nat to_write) (drop (Z.to_nat start) data)) in
        if written <? 0 then
          let! eintr := ask in
          if eintr <? 0 then wret false else emmc_write n path data start
        else emmc_write n path data (start + written)
    end
  else wret true.

(** [while (so_far < to_read)]: what was read of the device at [p], or [None]
    on a read error. *)
Fixpoint emmc_read (n : nat) (path : string) (p to_read : Z) (acc : list Z) : M (option (list Z)) :=
  if zlen acc <? to_read then
    match n with
    | O => wlift Diverge
    | S n =>
        let! a := ask in
        if a <? 0 then
          let! eintr := ask in
          if eintr <? 0 then wret None else emmc_read n path p to_read acc
        else
          let! fs := get_fs in
          let data := default [] (f_data <$> fs !! path) in
          let got := take (Z.to_nat (Z.min a (to_read - zlen acc)))
                       (drop (Z.to_nat (p + zlen acc)) data) in
          emmc_read n path p to_read (acc ++ got)
    end
  else wret (Some acc).

(** The verification loop in blocks of 4096 bytes: [Some start] where the
    device differs or [len], [None] on a read error. *)
Fixpoint emmc_verify (n : nat) (path : string) (data : list Z) (p : Z) : M (option Z) :=
  if p <? zlen data then
    match n with
    | O => wlift Diverge
    | S n =>
        let to_read := Z.min (zlen data - p) 4096 in
        let! got := emmc_read fuel path p to_read [] in
        match got with
        | None => wret None
        | Some buffer =>
            if bool_decide (buffer = take (Z.to_nat to_read) (drop (Z.to_nat p) data))
            then emmc_verify n path data (p + 4096) else wret (Some p)
        end
    end
  else wret (Some (zlen data)).

(** [for (attempt = 0; attempt < 2; ++attempt)]: [Some true] is success. *)
Fixpoint emmc_attempts (attempts : nat) (path : string) (data : list Z) (start : Z) : M (option bool) :=
  match attempts with
  | O => wret (Some false)
  | S attempts =>
      let! ok := emmc_write fuel path data start in
      if negb ok then wret None
      else
        let! v := emmc_verify fuel path data 0 in
        match v with
        | None => wret None
        | Some start =>
            if start =? zlen data then wret (Some true) else emmc_attempts attempts path data start
        end
  end.

(** The MTD branch: write everything, erase the rest, close. *)
Definition mtd_write_all (p : MtdPartition) (data : list Z) : M Z :=
  let! d := get_dev in
  match mtd_write_partition malloc_ok d p with
  | None => wret (-1)
  | Some ctx =>
      let! r := wlift (mtd_write_data malloc_ok fuel ctx data d) in
      let '(written, ctx, d) := r in
      let! _ := set_dev d in
      if negb (written =? zlen data) then
        let! c := wlift (mtd_write_close malloc_ok fuel ctx d) in
        let! _ := set_dev c.2 in wret (-1)
      else
        let! r := wlift (mtd_erase_blocks malloc_ok fuel ctx (-1) d) in
        let '(pos, ctx, d) := r in
        let! _ := set_dev d in
        let! c := wlift (mtd_write_close malloc_ok fuel ctx d) in
        let! _ := set_dev c.2 in
        if pos <? 0 then wret (-1) else wret (if c.1 =? 0 then 0 else -1)
  end.

(** [WriteToPartition(data, len, target)]. *)
Definition WriteToPartition (data : list Z) (target : string) : M Z :=
  let '(magic, toks) := strtok ":" target in
  match magic with
  | None => wlift Undef
  | Some magic =>
      let type := if bool_decide (magic = "MTD") then Some MTD
                  else if bool_decide (magic = "EMMC") then Some EMMC else None in
      match type with
      | None => wret (-1)
      | Some type =>
          let '(partition, _) := strtok ":" toks in
          match partition with
          | None => wret (-1)
          | Some partition =>
              match type with
              | MTD =>
                  match mtd_find_partition_by_name partition mtd_table with
                  | None => wret (-1)
                  | Some p => mtd_write_all p data
                  end
              | EMMC =>
                  let! opened := sys_fopen partition in
                  match opened with
                  | None => wret (-1)
                  | Some _ =>
                      let! r := emmc_attempts 2 partition data 0 in
                      match r with
                      | Some true =>
                          let! closed := ask in wret (if closed <? 0 then -1 else 0)
                      | _ => wret (-1)
                      end
                  end
              end
          end
      end
  end.

(** ** Patching *)

(** "BSDIFF40" and "IMGDIFF2". *)
Definition patch_magic (patch : list Z) : list Z := take 8 patch.

(** The world as the token of the file sink. *)
Definition file_sink_fn (path : string) (data : list Z) (w : world dev) : Z * world dev :=
  match FileSink path (Some data) (zlen data) w with
  | (Done n, w) => (n, w)
  | (_, w) => (0, w)
  end.

(** Applying the patch to a file, [None] when its format is not known: the
    result and the bytes in the SHA context. *)
Definition patch_to_file (outname : string) (source patch : list Z) (bonus : option (list Z))
  : M (option (Z * list Z)) := fun w =>
  if (8 <=? zlen patch) && bool_decide (patch_magic patch = bsdiff_magic) then
    match ApplyBSDiffPatch malloc_ok fuel source (zlen source) patch 0 (file_sink_fn outname) w (Some []) with
    | Done (r, w, ctx) => (Done (Some (r, default [] ctx)), w)
    | Fail c => (Fail c, w) | Undef => (Undef, w) | Diverge => (Diverge, w)
    end
  else if (8 <=? zlen patch) && bool_decide (patch_magic patch = imgdiff_magic) then
    match ApplyImagePatch malloc_ok (file_sink_fn outname) fuel source patch w [] bonus with
    | Done (r, w, ctx) => (Done (Some (r, ctx)), w)
    | Fail c => (Fail c, w) | Undef => (Undef, w) | Diverge => (Diverge, w)
    end
  else (Done None, w).

(** The same into memory. *)
Definition patch_to_memory (target_size : Z) (source patch : list Z) (bonus : option (list Z))
  : outcome (option (Z * list Z * list Z)) :=
  let msi := mkMsi [] target_size in
  if (8 <=? zlen patch) && bool_decide (patch_magic patch = bsdiff_magic) then
    '(r, msi, ctx) ← ApplyBSDiffPatch malloc_ok fuel source (zlen source) patch 0 MemorySink msi (Some []);
    Done (Some (r, default [] ctx, msi_buffer msi))
  else if (8 <=? zlen patch) && bool_decide (patch_magic patch = imgdiff_magic) then
    '(r, msi, ctx) ← ApplyImagePatch malloc_ok MemorySink fuel source patch msi [] bonus;
    Done (Some (r, ctx, msi_buffer msi))
  else Done None.

(** What the loop of [GenerateTarget] leaves: the bytes in the SHA context, the
    memory buffer of a partition target and [made_copy]; or its return value. *)
Definition gen_result : Type := (list Z * list Z * bool) + Z.

(** Backing the source up and, with [remove], deleting it. *)
Definition back_up (source_file : FileContents) (source_filename : string) (remove : bool) : M bool :=
  let! r := MakeFreeSpaceOnCache (fc_size source_file) in
  if r <? 0 then wret false
  else
    let! r := SaveFileContents CACHE_TEMP_SOURCE source_file in
    if r <? 0 then wret false
    else if remove then let! _ := sys_unlink source_filename in wret true
    else wret true.

(** The part of an iteration before the patch is applied: [None] is the error
    return, else [retry] and [made_copy]. *)
Definition gen_prepare (source_file : FileContents) (use_source : bool)
    (source_filename target_filename : string) (target_size : Z) (retry : nat) (made_copy : bool)
  : M (option (nat * bool)) :=
  if is_partition target_filename then
    let! ok := back_up source_file source_filename false in
    wret (if ok : bool then Some (O, true) else None)
  else
    let! enough :=
      (match retry with
       | O => wret false
       | S _ =>
           let! free_space := FreeSpaceForFile target_filename in
           wret ((256 * 2 ^ 10 <? free_space) && (wrap 32 (target_size * 3) / 2 <? free_space))
       end) in
    let retry := if enough : bool then retry else O in
    if negb enough && use_source then
      if is_partition source_filename then wret None
      else
        let! ok := back_up source_file source_filename true in
        wret (if ok : bool then Some (retry, true) else None)
    else wret (Some (retry, made_copy)).

Definition patch_suffix : string := ".patch".

(** The bytes of a patch; one of size -1 is shorter than any header. *)
Definition patch_bytes (patch : Value) : option (list Z) :=
  match patch with VAL_STRING _ => None | VAL_BLOB d => Some d | VAL_NULL_BLOB => Some [] end.

(** One iteration of the [do] loop, [retry] counting what is left. *)
Fixpoint gen_loop (retry : nat) (source_file : FileContents) (use_source : bool)
    (source_to_use : list Z) (patch : Value) (source_filename target_filename : string)
    (target_size : Z) (bonus : option (list Z)) (made_copy : bool) : M gen_result :=
  let! prep := gen_prepare source_file use_source source_filename target_filename target_size
                 retry made_copy in
  match prep with
  | None => wret (inr 1)
  | Some (retry', made_copy) =>
      match patch_bytes patch with
      | None => wret (inr 1)
      | Some patch_data =>
          if is_partition target_filename then
            if negb (malloc_ok target_size) then wret (inr 1)
            else
              let! r := wlift (patch_to_memory target_size source_to_use patch_data bonus) in
              match r with
              | None => wret (inr 1)
              | Some (0, ctx, buffer) => wret (inl (ctx, buffer, made_copy))
              | Some _ => wret (inr 1)
              end
          else
            let outname := target_filename ++ patch_suffix in
            let! opened := sys_creat outname in
            if negb opened then wret (inr 1)
            else
              let! r := patch_to_file outname source_to_use patch_data bonus in
              match r with
              | None => wret (inr 1)
              | Some (result, ctx) =>
                  if result =? 0 then wret (inl (ctx, [], made_copy))
                  else
                    match retry', retry with
                    | S _, S retry =>
                        let! _ := sys_unlink outname in
                        gen_loop retry source_file use_source source_to_use (VAL_BLOB patch_data)
                          source_filename target_filename target_size bonus made_copy
                    | _, _ => wret (inr 1)
                    end
              end
      end
  end.

(** [GenerateTarget]; [use_source] is [source_patch_value != NULL]. *)
Definition GenerateTarget (source_file : FileContents) (use_source : bool)
    (source_to_use : FileContents) (patch : Value) (source_filename target_filename : string)
    (target_sha1 : list Z) (target_size : Z) (bonus : option (list Z)) : M Z :=
  match fc_data source_to_use with
  | None => wlift Undef
  | Some source_data =>
      let! r := gen_loop 1 source_file use_source source_data patch source_filename target_filename
                  target_size bonus false in
      match r with
      | inr code => wret code
      | inl (ctx, buffer, made_copy) =>
          if negb (bool_decide (sha1 ctx = target_sha1)) then wret 1
          else
            let! failed :=
              (if is_partition target_filename then
                 let! r := WriteToPartition buffer target_filename in wret (negb (r =? 0))
               else
                 let outname := target_filename ++ patch_suffix in
                 let '(mode, uid, gid) := fc_st source_to_use in
                 let! ok := sys_chmod outname mode in
                 if negb ok then wret true
                 else
                   let! ok := sys_chown outname uid gid in
                   if negb ok then wret true
                   else
                     let! ok := sys_rename outname target_filename in
                     wret (negb ok)) in
            if failed : bool then wret 1
            else
              let! _ := (if made_copy : bool then sys_unlink CACHE_TEMP_SOURCE else wret true) in
              wret 0
      end
  end.

(** [applypatch]. *)
Definition applypatch (source_filename target_filename target_sha1_str : string) (target_size : Z)
    (patch_sha1_str : list string) (patch_data : list Value) (bonus : option (list Z)) : M Z :=
  let same := bool_decide (target_filename = "-") in
  let target_filename := if same then source_filename else target_filename in
  match ParseSha1 target_sha1_str with
  | None => wret 1
  | Some target_sha1 =>
      let empty := mkFC [] None garbage (0, 0, 0) in
      let! r := LoadFileContents target_filename empty in
      let '(ret, source_file) := r in
      if (ret =? 0) && bool_decide (fc_sha1 source_file = target_sha1) then wret 0
      else
        let! source_file :=
          (if bool_decide (fc_data source_file = None) ||
              negb (bool_decide (target_filename = source_filename)) then
             let! r := LoadFileContents source_filename
                         (mkFC (fc_sha1 source_file) None (fc_size source_file) (fc_st source_file)) in
             wret r.2
           else wret source_file) in
        let source_patch :=
          (match fc_data source_file with
           | None => None
           | Some _ => FindMatchingPatch (fc_sha1 source_file) patch_sha1_str
           end) in
        match source_patch with
        | Some to_use =>
            let! patch := wlift (access (patch_data !! to_use)) in
            GenerateTarget source_file true source_file patch source_filename target_filename
              target_sha1 target_size bonus
        | None =>
            let source_file := mkFC (fc_sha1 source_file) None (fc_size source_file) (fc_st source_file) in
            let! r := LoadFileContents CACHE_TEMP_SOURCE empty in
            let '(ret, copy_file) := r in
            if ret <? 0 then wret 1
            else
              match FindMatchingPatch (fc_sha1 copy_file) patch_sha1_str with
              | None => wret 1
              | Some to_use =>
                  let! patch := wlift (access (patch_data !! to_use)) in
                  GenerateTarget source_file false copy_file patch source_filename target_filename
                    target_sha1 target_size bonus
              end
        end
  end.

(** [applypatch_check]. *)
Definition applypatch_check (filename : string) (patch_sha1_str : list string) : M Z :=
  let! r := LoadFileContents filename (mkFC [] None garbage (0, 0, 0)) in
  let '(filestate, file) := r in
  if filestate =? - ENOENT then wret (- ENOENT)
  else if negb (filestate =? 0) ||
          (negb (bool_decide (patch_sha1_str = [])) &&
           bool_decide (FindMatchingPatch (fc_sha1 file) patch_sha1_str = None)) then
    let! r := LoadFileContents CACHE_TEMP_SOURCE file in
    if negb (r.1 =? 0) then wret 1
    else if bool_decide (FindMatchingPatch (fc_sha1 r.2) patch_sha1_str = None) then wret 1
    else wret 0
  else wret 0.

End Applypatch.
