(* ===== verification/ApplypatchSafety.v ===== *)
(** * applypatch is safe to interrupt

    The crash invariant of [applypatch] on regular files, proved with the
    program logic of [World]: at every moment the disk has the source, a
    complete copy of it in /cache/saved.file, or the finished target. *)
From S2P Require Import Prelude Cstring Utils Bspatch Retouch Edify Mtdutils MtdScan Imgpatch World.
From S2P Require Import Applypatch.
Open Scope string_scope.
Open Scope Z_scope.

(** ** Rules for the calls *)

Section Rules.
  Context {Dev : Type} {I : disk -> Prop}.
  Implicit Types (pre : disk -> Prop).

Lemma triple_call {A B} pre (m : W Dev A) (k : A -> W Dev B) post :
  readonly m -> (forall a, triple I pre (k a) post) -> triple I pre (wbind m k) post.
Proof. intros Hm Hk. eapply triple_bind; [by apply triple_readonly|done]. Qed.

(** A fact of the precondition that does not mention the disk. *)
Lemma triple_pure {A} pre (P : Prop) (m : W Dev A) post :
  (P -> triple I pre m post) -> triple I (fun fs => pre fs /\ P) m post.
Proof. intros H w [Hw HP]. by apply (H HP w). Qed.

Lemma triple_get_fs {B} pre (k : disk -> W Dev B) post :
  (forall fs0, triple I (fun fs => pre fs /\ fs = fs0) (k fs0) post) -> triple I pre (wbind get_fs k) post.
Proof.
  intros Hk w Hw. apply (Hk (w_fs w) w). done.
Qed.

(** Changing one file; [post] is what holds after the change. *)
Lemma triple_change {A} pre (fs' : disk -> disk) (a : A) (post : A -> disk -> Prop) fs0 :
  (pre fs0 -> I (fs' fs0) /\ post a (fs' fs0)) ->
  triple I (fun fs => pre fs /\ fs = fs0) (wbind (Dev := Dev) (set_fs (fs' fs0)) (fun _ => wret a)) post.
Proof.
  intros H. eapply triple_bind; [apply (triple_set_fs _ _ (fun _ => post a))|].
  - intros fs [Hpre ->]. auto.
  - intros []. by apply triple_ret.
Qed.

Lemma triple_creat pre path (post : bool -> disk -> Prop) :
  (forall fs, pre fs -> post false fs) ->
  (forall fs f, pre fs -> f_data f = [] -> I (<[path := f]> fs) /\ post true (<[path := f]> fs)) ->
  triple I pre (sys_creat (Dev := Dev) path) post.
Proof.
  intros Hf Ht. unfold sys_creat. apply triple_call; [apply readonly_ask|]. intros a.
  destruct (a <? 0); [by apply triple_ret|]. apply triple_get_fs. intros fs0.
  apply (triple_change pre (fun fs => <[path := _]> fs)). intros Hpre. apply Ht; [done|].
  by destruct (fs0 !! path).
Qed.

Lemma triple_append pre path data (post : Z -> disk -> Prop) :
  (forall fs a, pre fs -> a <= 0 -> post a fs) ->
  (forall fs n f, pre fs -> fs !! path = Some f -> 0 < n <= zlen (default [] data) \/ n = 0 ->
     let f' := mkFile (f_data f ++ take (Z.to_nat n) (default [] data)) (f_mode f) (f_uid f) (f_gid f) in
     I (<[path := f']> fs) /\ post n (<[path := f']> fs)) ->
  (forall fs n, pre fs -> fs !! path = None -> post n fs) ->
  triple I pre (sys_append (Dev := Dev) path data) post.
Proof.
  intros Hf Ht Hn. unfold sys_append. apply triple_call; [apply readonly_ask|]. intros a.
  destruct data as [data|]; [|apply triple_ret; intros; apply Hf; [done|lia]].
  destruct (Z.leb_spec a 0); [apply triple_ret; intros; by apply Hf|].
  apply triple_get_fs. intros fs0. destruct (fs0 !! path) as [f|] eqn:E.
  - apply (triple_change pre (fun fs => <[path := _]> fs)). intros Hpre. apply Ht; [done..|].
    cbn. lia.
  - apply triple_ret. intros fs [Hpre ->]. by apply Hn.
Qed.

Lemma triple_update pre path g (post : bool -> disk -> Prop) :
  (forall fs, pre fs -> post false fs) ->
  (forall fs f, pre fs -> fs !! path = Some f ->
     I (<[path := g f]> fs) /\ post true (<[path := g f]> fs)) ->
  triple I pre (sys_update (Dev := Dev) path g) post.
Proof.
  intros Hf Ht. unfold sys_update. apply triple_call; [apply readonly_ask|]. intros a.
  apply triple_get_fs. intros fs0. destruct (fs0 !! path) as [f|] eqn:E.
  - destruct (a <? 0); [apply triple_ret; intros fs [Hpre _]; auto|].
    apply (triple_change pre (fun fs => <[path := g f]> fs)). auto.
  - apply triple_ret. intros fs [Hpre _]. auto.
Qed.

Lemma triple_unlink pre path (post : bool -> disk -> Prop) :
  (forall fs, pre fs -> post false fs) ->
  (forall fs, pre fs -> I (delete path fs) /\ post true (delete path fs)) ->
  triple I pre (sys_unlink (Dev := Dev) path) post.
Proof.
  intros Hf Ht. unfold sys_unlink. apply triple_call; [apply readonly_ask|]. intros a.
  destruct (a <? 0); [by apply triple_ret|]. apply triple_get_fs. intros fs0.
  apply (triple_change pre (delete path)). auto.
Qed.

Lemma triple_rename pre from to (post : bool -> disk -> Prop) :
  (forall fs, pre fs -> post false fs) ->
  (forall fs f, pre fs -> fs !! from = Some f ->
     I (<[to := f]> (delete from fs)) /\ post true (<[to := f]> (delete from fs))) ->
  triple I pre (sys_rename (Dev := Dev) from to) post.
Proof.
  intros Hf Ht. unfold sys_rename. apply triple_call; [apply readonly_ask|]. intros a.
  apply triple_get_fs. intros fs0. destruct (fs0 !! from) as [f|] eqn:E.
  - destruct (a <? 0); [apply triple_ret; intros fs [Hpre _]; auto|].
    apply (triple_change pre (fun fs => <[to := f]> (delete from fs))). auto.
  - apply triple_ret. intros fs [Hpre _]. auto.
Qed.

End Rules.

Lemma stat_readonly {Dev : Type} path : readonly (sys_stat (Dev := Dev) path).
Proof.
  unfold sys_stat. apply readonly_bind; [apply readonly_ask|]. intros a.
  apply readonly_bind; [apply readonly_get_fs|]. intros fs. repeat case_match; apply readonly_ret.
Qed.

(** ** Making space *)

(** A path that [MakeFreeSpaceOnCache] never deletes. *)
Definition protected (path : string) : Prop := path = CACHE_TEMP_SOURCE \/ has_prefix "/cache/" path = false.

(** /proc shows the file as open in a process. *)
Definition opened (proc : list (string * list (string * string))) (path : string) : Prop :=
  exists pid fds fd, (pid, fds) ∈ proc /\ is_numeric pid = true /\ (fd, path) ∈ fds.

Section MakeSpace.
  Context {D : MtdDriver} {I : disk -> Prop}.
  Context (readdir : disk -> string -> list string) (proc : list (string * list (string * string))).
  Context (keep : string) (f : option file).
  Context (HI : forall fs, fs !! keep = f -> I fs).

Abbreviation kept := (fun fs : disk => fs !! keep = f).

Lemma free_space_readonly path : readonly (FreeSpaceForFile (D := D) path).
Proof. apply readonly_bind; [apply readonly_ask|]. intros a. apply readonly_ret. Qed.

Lemma triple_expendable dir names (pre : disk -> Prop) :
  triple I pre (expendable_in (D := D) dir names)
    (fun l fs => pre fs /\ Forall (fun p => p ≠ CACHE_TEMP_SOURCE /\ exists n, p = dir ++ "/" ++ n) l).
Proof.
  induction names as [|n names IH]; cbn [expendable_in]; [by apply triple_ret|].
  case_bool_decide; [done|]. apply triple_call; [apply stat_readonly|]. intros st.
  eapply triple_bind; [exact IH|]. intros l. destruct st; apply triple_ret; intros fs [Hp Hl]; [|done].
  split; [done|]. constructor; eauto.
Qed.

Lemma strike_incl link files (n : string) : Some n ∈ strike link files -> Some n ∈ files /\ n <> link.
Proof.
  intros (x & Hx & Hin)%list_elem_of_fmap. case_bool_decide; [done|]. subst x. split; [done|]. congruence.
Qed.

Lemma fds_readonly fds : forall files, readonly (eliminate_fds (D := D) fds files).
Proof.
  induction fds as [|[fd target] fds IH]; intros files; cbn [eliminate_fds]; [apply readonly_ret|].
  apply readonly_bind; [apply readonly_ask|]. intros a. destruct (a <? 0); apply IH.
Qed.

Lemma in_readonly entries : forall files, readonly (eliminate_in (D := D) entries files).
Proof.
  induction entries as [|[name fds] entries IH]; intros files; cbn [eliminate_in]; [apply readonly_ret|].
  destruct (negb _); [apply IH|]. apply readonly_bind; [apply readonly_ask|]. intros a. destruct (a <? 0); [apply IH|].
  apply readonly_bind; [apply fds_readonly|]. intros files'. apply IH.
Qed.

Lemma expendable_readonly dir names : readonly (expendable_in (D := D) dir names).
Proof.
  induction names as [|n names IH]; cbn [expendable_in]; [apply readonly_ret|]. case_bool_decide; [done|].
  apply readonly_bind; [apply stat_readonly|]. intros st. apply readonly_bind; [done|]. intros rest. destruct st; apply readonly_ret.
Qed.

Lemma find_readonly : readonly (FindExpendableFiles (D := D) readdir proc).
Proof.
  unfold FindExpendableFiles, EliminateOpenFiles. apply readonly_bind; [apply readonly_get_fs|]. intros fs.
  apply readonly_bind; [apply expendable_readonly|]. intros l1. apply readonly_bind; [apply expendable_readonly|]. intros l2.
  apply readonly_bind; [apply readonly_ask|]. intros a. destruct (a <? 0); [apply readonly_ret|].
  apply readonly_bind; [apply in_readonly|]. intros files. apply readonly_ret.
Qed.

(** Names are only taken out. *)
Lemma post_fds fds : forall files w, post (eliminate_fds (D := D) fds files) w (fun l _ => forall n : string, Some n ∈ l -> Some n ∈ files).
Proof.
  induction fds as [|[fd target] fds IH]; intros files w; cbn [eliminate_fds]; [by apply post_ret|].
  apply post_bind. intros a w1 _. destruct (a <? 0); [apply IH|]. cbv zeta. intros l w2 E n Hn. specialize (IH _ _ _ _ E n Hn).
  destruct (has_prefix _ _); [|done]. by apply strike_incl in IH as [? _].
Qed.

Lemma post_in entries : forall files w, post (eliminate_in (D := D) entries files) w (fun l _ => forall n : string, Some n ∈ l -> Some n ∈ files).
Proof.
  induction entries as [|[name fds] entries IH]; intros files w; cbn [eliminate_in]; [by apply post_ret|].
  destruct (negb _); [apply IH|]. apply post_bind. intros a w1 _. destruct (a <? 0); [apply IH|].
  apply post_bind. intros files' w2 E2 l w3 E3 n Hn. apply (post_fds _ _ _ _ _ E2). by apply (IH _ _ _ _ E3).
Qed.

Lemma triple_find_expendable (pre : disk -> Prop) : protected keep ->
  triple I pre (FindExpendableFiles (D := D) readdir proc)
    (fun l fs => pre fs /\ Forall (fun p => p ≠ Some keep) (default [] l)).
Proof.
  intros Hkeep. unfold FindExpendableFiles. apply triple_call; [apply readonly_get_fs|]. intros fs0.
  eapply triple_bind; [apply triple_expendable|]. intros l1. cbv beta.
  eapply triple_bind; [apply (triple_expendable _ _ (fun fs => pre fs /\ _))|]. intros l2. cbv beta.
  unfold EliminateOpenFiles. apply triple_call; [apply readonly_ask|]. intros a.
  destruct (a <? 0); [apply triple_ret; intros fs [[Hp _] _]; by split|].
  intros w [[Hp H1] H2]. unfold wbind. pose proof (in_readonly proc (Some <$> (l1 ++ l2)%list) w) as [Hf Hl].
  destruct (eliminate_in proc (Some <$> (l1 ++ l2)%list) w) as [o w1] eqn:E. cbn [fst snd] in *.
  destruct o as [l|c| |]; cbn [fst snd]; (split; [exists []; by rewrite app_nil_r|]); try done.
  intros a' [= <-]. cbn [wret snd]. rewrite Hf. split; [done|]. cbn. apply Forall_forall. intros p Hp' ->.
  apply (post_in _ _ _ _ _ E), list_elem_of_fmap in Hp' as (n & [= <-] & Hp').
  rewrite Forall_forall in H1, H2. destruct Hkeep as [Ek | Hpre].
  - apply elem_of_app in Hp' as [Hin|Hin]; [apply H1 in Hin|apply H2 in Hin]; by destruct Hin as [Hne _].
  - apply elem_of_app in Hp' as [Hin|Hin]; [apply H1 in Hin|apply H2 in Hin];
      destruct Hin as [_ [n En]]; rewrite En in Hpre; by vm_compute in Hpre.
Qed.

Lemma triple_delete_loop names free_now needed :
  Forall (fun p => p ≠ Some keep) names ->
  triple I kept (delete_loop (D := D) names free_now needed) (fun _ => kept).
Proof.
  intros H. revert free_now. induction H as [|p names Hp Hn IH]; intros free_now; cbn [delete_loop].
  { by apply triple_ret. }
  destruct (_ <? _); [|by apply triple_ret]. destruct p as [p|]; [|apply IH].
  eapply (triple_bind _ _ (fun _ => kept)).
  - apply triple_unlink; [done|]. intros fs Hk. rewrite lookup_delete_ne by congruence.
    split; [|done]. apply HI. by rewrite lookup_delete_ne by congruence.
  - intros _. apply triple_call; [apply free_space_readonly|]. intros x. apply IH.
Qed.

Lemma triple_make_space n : protected keep ->
  triple I kept (MakeFreeSpaceOnCache (D := D) readdir proc n) (fun _ => kept).
Proof.
  intros Hkeep. unfold MakeFreeSpaceOnCache. apply triple_call; [apply free_space_readonly|]. intros x.
  destruct (_ <=? _); [by apply triple_ret|].
  eapply triple_bind; [by apply triple_find_expendable|]. intros l. apply triple_pure. intros Hl.
  destruct l as [[|p l]|]; [by apply triple_ret| |by apply triple_ret].
  eapply triple_bind; [by apply triple_delete_loop|]. intros y. by apply triple_ret.
Qed.
End MakeSpace.

(** ** Writing a file *)

Lemma file_sink_returns {D : MtdDriver} n path data len done w :
  len - done <= Z.of_nat n -> exists r, (file_sink (D := D) n path data len done w).1 = Done r.
Proof.
  revert done w. induction n as [|n IH]; intros done w Hn; cbn [file_sink];
    (destruct (Z.ltb_spec done len); [|cbn; eauto]); [lia|].
  assert (exists a w', sys_append path (drop (Z.to_nat done) <$> data) w = (Done a, w')) as (a & w' & E).
  { unfold sys_append, ask, get_fs, set_fs, wbind, wret. cbn. destruct data; cbn; [|eauto].
    case_match; [eauto|]. cbn. case_match; cbn; eauto. }
  unfold wbind. rewrite E. destruct (Z.leb_spec a 0); [cbn; eauto|]. apply IH. lia.
Qed.

Lemma FileSink_returns {D : MtdDriver} path data len w :
  exists r, (FileSink (D := D) path data len w).1 = Done r.
Proof. apply file_sink_returns. lia. Qed.

Section Saving.
  Context {D : MtdDriver} {I : disk -> Prop}.
  Context (path : string) (R : disk -> Prop).
  Context (Hstable : forall fs g, R fs -> R (<[path := g]> fs)) (HI : forall fs, R fs -> I fs).

(** The file holds [data], and [R] holds. *)
Definition holding (data : list Z) (fs : disk) : Prop :=
  R fs /\ exists f, fs !! path = Some f /\ f_data f = data.

Lemma holding_I data fs : holding data fs -> I fs.
Proof. intros [H _]. auto. Qed.

Lemma triple_file_sink n base data done :
  0 <= done <= zlen data ->
  triple I (holding (base ++ take (Z.to_nat done) data))
    (file_sink (D := D) n path (Some data) (zlen data) done)
    (fun r fs => holding (base ++ take (Z.to_nat r) data) fs /\ 0 <= r <= zlen data).
Proof.
  revert done. induction n as [|n IH]; intros done Hd; cbn [file_sink];
    (destruct (Z.ltb_spec done (zlen data)); [|by apply triple_ret]).
  { apply triple_weaken with (pre' := fun _ => True) (post' := fun _ _ => False); [|done..].
    intros w _. split; [exists []; by rewrite app_nil_r|]. done. }
  eapply (triple_bind _ _ (fun r fs => holding (base ++ take (Z.to_nat (done + Z.max 0 r)) data) fs /\
    r <= zlen data - done)).
  - apply triple_append; cbn [default fmap option_fmap option_map].
    + intros fs a Hh Ha. rewrite Z.max_l, Z.add_0_r by lia. split; [done|lia].
    + intros fs k f [HR (f' & Hf & Hdata)] Hf' Hk. rewrite Hf in Hf'. injection Hf' as <-. cbn in *.
      rewrite length_drop in Hk.
      assert (holding (base ++ take (Z.to_nat (done + Z.max 0 k)) data)
        (<[path:=mkFile (f_data f' ++ take (Z.to_nat k) (drop (Z.to_nat done) data)) (f_mode f')
           (f_uid f') (f_gid f')]> fs)) as Hh.
      { split; [auto|]. rewrite lookup_insert_eq. eexists. split; [done|]. cbn. rewrite Hdata, <- app_assoc.
        rewrite take_take_drop. do 2 f_equal. lia. }
      split; [by eapply holding_I|]. split; [done|]. lia.
    + intros fs k [_ (f' & Hf & _)] Hn. congruence.
  - intros r. apply triple_pure. intros Hr. destruct (Z.leb_spec r 0).
    + apply triple_ret. intros fs. rewrite Z.max_l, Z.add_0_r by lia. done.
    + rewrite Z.max_r by lia. apply IH. lia.
Qed.

Lemma triple_FileSink base data :
  triple I (holding base) (FileSink (D := D) path (Some data) (zlen data))
    (fun r fs => holding (base ++ take (Z.to_nat r) data) fs /\ 0 <= r <= zlen data).
Proof.
  unfold FileSink. eapply triple_weaken; [apply (triple_file_sink _ base data 0); lia| |done].
  intros fs. cbn [Z.to_nat take]. by rewrite app_nil_r.
Qed.

Lemma triple_meta g data :
  (forall f, f_data (g f) = f_data f) ->
  triple I (holding data) (sys_update (Dev := dev) path g) (fun _ => holding data).
Proof.
  intros Hg. apply triple_update; [done|]. intros fs f [HR (f' & Hf & Hd)] Hf'.
  assert (holding data (<[path := g f]> fs)) as Hh.
  { split; [auto|]. rewrite lookup_insert_eq. eexists. split; [done|]. rewrite Hg. congruence. }
  split; [by eapply holding_I|done].
Qed.

(** [SaveFileContents] of a loaded file. *)
Lemma triple_save file data :
  fc_data file = Some data -> fc_size file = zlen data ->
  triple I R (SaveFileContents (D := D) path file) (fun r fs => R fs /\ (0 <= r -> holding data fs)).
Proof.
  intros Hd Hs. unfold SaveFileContents. rewrite Hd, Hs.
  assert (forall pre, (forall fs, pre fs -> R fs) ->
    triple I pre (wret (Dev := dev) (-1)) (fun r fs => R fs /\ (0 <= r -> holding data fs))) as Hbad
    by (intros pre Hp; apply triple_ret; intros fs Hfs; split; [auto|lia]).
  eapply (triple_bind _ _ (fun b fs => R fs /\ (b = true -> holding [] fs))).
  { apply triple_creat; [done|]. intros fs f HR Hf.
    assert (holding [] (<[path := f]> fs)) by (split; [auto|]; rewrite lookup_insert_eq; eauto).
    split; [by eapply holding_I|]. split; [auto|done]. }
  intros [|]; cbn [negb]; [|by apply Hbad; intros fs [H _]].
  eapply triple_bind; [eapply triple_weaken; [apply (triple_FileSink [] data)| |done]; intros fs [_ H]; auto|].
  intros r. apply triple_pure. intros Hr. destruct (Z.eqb_spec r (zlen data)) as [->|]; cbn [negb];
    [|by apply Hbad; intros fs [H _]].
  rewrite Nat2Z.id, firstn_all. cbn [app]. destruct (fc_st file) as [[mode uid] gid].
  eapply triple_bind; [by apply triple_meta|]. intros [|]; cbn [negb]; [|by apply Hbad; intros fs [H _]].
  eapply triple_bind; [by apply triple_meta|]. intros [|]; cbn [negb]; [|by apply Hbad; intros fs [H _]].
  apply triple_ret. intros fs H. split; [apply H|done].
Qed.
End Saving.

Section Safety.
  Context {B : BzLib} {Zl : ZLib} {D : MtdDriver}.
  Context (malloc_ok : Z -> bool) (sha1 : list Z -> list Z) (mtd_table : MtdState).
  Context (readdir : disk -> string -> list string) (proc : list (string * list (string * string))).
  Context (garbage : Z) (fuel : nat).
  Context (src tgt : string) (target_sha1 : list Z) (patch_sha1_str : list string).

Abbreviation out := (tgt ++ patch_suffix).

(** Contents that some patch of the list applies to, after masking. *)
Definition usable (data : list Z) : Prop :=
  exists masked o, retouch_mask_data fuel data (Some 0) = Done (RETOUCH_DATA_MATCHED, masked, o) /\
    is_Some (FindMatchingPatch (sha1 masked) patch_sha1_str).

(** Contents with the target's digest, as they are or after masking. *)
Definition finished (data : list Z) : Prop :=
  exists data' o, (data' = data \/
    retouch_mask_data fuel data (Some 0) = Done (RETOUCH_DATA_MATCHED, data', o)) /\
    sha1 data' = target_sha1.

(** The disk from which a later run of [applypatch] can go on. *)
Definition recoverable (fs : disk) : Prop :=
  (exists f, fs !! src = Some f /\ usable (f_data f)) \/
  (exists f, fs !! CACHE_TEMP_SOURCE = Some f /\ usable (f_data f)) \/
  (exists f, fs !! tgt = Some f /\ finished (f_data f)).

Abbreviation T := (triple (Dev := dev) recoverable).

Context (Hsrc : is_partition src = false) (Htgt : is_partition tgt = false).
Context (Hsc : src ≠ CACHE_TEMP_SOURCE) (Htc : tgt ≠ CACHE_TEMP_SOURCE).
Context (Hos : out ≠ src) (Hoc : out ≠ CACHE_TEMP_SOURCE).
Context (Hcache : has_prefix "/cache/" src = false).

Lemma out_tgt : out ≠ tgt.
Proof.
  assert (forall s, (s ++ patch_suffix)%string ≠ s) as H.
  { induction s as [|c s IH]; [done|]. rewrite append_cons. intros [= E]. done. }
  apply H.
Qed.

(** Only the output file changes. *)
Lemma recoverable_out fs f : recoverable fs -> recoverable (<[out := f]> fs).
Proof. unfold recoverable. pose proof out_tgt. by rewrite !lookup_insert_ne by done. Qed.

Lemma recoverable_delete_out fs : recoverable fs -> recoverable (delete out fs).
Proof. unfold recoverable. pose proof out_tgt. by rewrite !lookup_delete_ne by done. Qed.

(** ** Loading *)

(** What a successful load of a regular file tells about the disk. *)
Definition loaded (name : string) (file : FileContents) (fs : disk) : Prop :=
  forall data, fc_data file = Some data ->
    exists f o, fs !! name = Some f /\ fc_sha1 file = sha1 data /\ fc_size file = zlen data /\
      retouch_mask_data fuel (f_data f) (Some 0) = Done (RETOUCH_DATA_MATCHED, data, o).

Lemma load_file pre name file :
  is_partition name = false ->
  T pre (LoadFileContents malloc_ok sha1 mtd_table fuel name file)
    (fun r fs => pre fs /\ loaded name r.2 fs /\ r.1 <= 0 /\ (r.1 = 0 -> is_Some (fc_data r.2))).
Proof.
  intros Hp w Hw. unfold LoadFileContents. rewrite Hp.
  assert (forall r (fc : FileContents), fc_data fc = None -> r < 0 ->
    (exists l, w_log w = (w_log w ++ l)%list /\ Forall recoverable l) /\
    (forall a, Done (r, fc) = Done a ->
      pre (w_fs w) /\ loaded name a.2 (w_fs w) /\ a.1 <= 0 /\
      (a.1 = 0 -> is_Some (fc_data a.2)))) as Hno.
  { intros r fc Hn Hr. split; [exists []; by rewrite app_nil_r|]. intros a [= <-]. split; [done|].
    split; [|cbn; lia]. intros data. cbn. by rewrite Hn. }
  unfold sys_stat, sys_fopen, sys_fread, ask, get_fs, wbind, wret, wlift. cbn.
  destruct (w_fs w !! name) as [f|] eqn:Ef; [|by apply Hno].
  destruct (_ <? 0); [by apply Hno|]. cbn. rewrite Ef.
  destruct (_ <? 0); [by apply Hno|]. cbn.
  destruct (negb _) eqn:El; [by apply Hno|].
  set (got := if _ <? 0 then _ else _) in *.
  assert (got = f_data f) as ->.
  { bool_to_prop. subst got. rewrite drop_0, Nat2Z.id, firstn_all in *. destruct (_ <? 0); [|done].
    rewrite length_take in El. destruct (f_data f); [done|]. cbn in El. lia. }
  destruct (retouch_mask_data fuel (f_data f) (Some 0)) as [[[st masked] o]|c| |] eqn:Em; cbn;
    try (split; [exists []; by rewrite app_nil_r|done]).
  destruct (negb (st =? RETOUCH_DATA_MATCHED)) eqn:Est; [by apply Hno|].
  split; [exists []; by rewrite app_nil_r|]. intros a [= <-]. cbn. split; [done|].
  split; [|split; [lia|eauto]]. intros data [= <-]. exists f, o.
  pose proof (retouch_mask_data_length _ _ _ _ _ _ Em). bool_to_prop. subst st. cbn.
  split_and!; auto; lia.
Qed.

(** ** The loop of [GenerateTarget] *)

(** The source was loaded from [src]: its file, its masked contents, and that
    masking them again changes nothing. *)
Record source_loaded (fc : FileContents) (f : file) (data : list Z) : Prop := {
  sl_data : fc_data fc = Some data;
  sl_size : fc_size fc = zlen data;
  sl_mask : exists o, retouch_mask_data fuel (f_data f) (Some 0) = Done (RETOUCH_DATA_MATCHED, data, o);
  sl_again : exists o, retouch_mask_data fuel data (Some 0) = Done (RETOUCH_DATA_MATCHED, data, o);
  sl_match : is_Some (FindMatchingPatch (sha1 data) patch_sha1_str)
}.

Abbreviation at_source f := (fun fs : disk => fs !! src = Some f).

Lemma source_recoverable fc f data fs :
  source_loaded fc f data -> fs !! src = Some f -> recoverable fs.
Proof. intros [_ _ [o Ho] _ Hm] Hf. left. exists f. split; [done|]. by exists data, o. Qed.

Lemma copy_recoverable fc f data fs (R : disk -> Prop) :
  source_loaded fc f data -> holding CACHE_TEMP_SOURCE R data fs -> recoverable fs.
Proof.
  intros [_ _ _ [o Ho] Hm] [_ (c & Hc & <-)]. right. left. exists c. split; [done|]. by exists (f_data c), o.
Qed.

Lemma triple_back_up fc f data :
  source_loaded fc f data ->
  T (at_source f) (back_up (D := D) readdir proc fc src true) (fun _ => recoverable).
Proof.
  intros Hl. unfold back_up.
  assert (forall fs, fs !! src = Some f -> recoverable fs) as HI by (intros; by eapply source_recoverable).
  eapply triple_bind; [apply (triple_make_space readdir proc src (Some f)); [done|]; by right|].
  intros r. destruct (r <? 0); [apply triple_ret; auto|].
  eapply triple_bind; [eapply (triple_save CACHE_TEMP_SOURCE (at_source f))|].
  - intros fs g Hf. by rewrite lookup_insert_ne.
  - done.
  - apply Hl.
  - apply Hl.
  - intros r'. destruct (Z.ltb_spec r' 0); [apply triple_ret; intros fs [Hf _]; auto|].
    eapply (triple_bind _ _ (fun _ => recoverable)); [|intros; by apply triple_ret].
    apply triple_unlink; intros fs [Hf Hh]; [auto|].
    assert (recoverable (delete src fs)); [|done].
    eapply (copy_recoverable _ _ _ _ (fun _ => True)); [exact Hl|]. split; [done|].
    destruct (Hh H) as [_ (c & Hc & Hd)]. exists c. by rewrite lookup_delete_ne.
Qed.

(** [P] is what holds when the loop is entered: the source is there, or
    something to recover from is and the source is not used. *)
Definition loop_pre (fc : FileContents) (use_source : bool) (P : disk -> Prop) : Prop :=
  (forall fs, P fs -> recoverable fs) /\
  (use_source = true -> exists f data, source_loaded fc f data /\ P = at_source f).

Lemma triple_prepare fc use_source P target_size retry made :
  loop_pre fc use_source P ->
  T P (gen_prepare (D := D) readdir proc fc use_source src tgt target_size retry made)
    (fun r fs => recoverable fs /\ match r with Some (S _, _) => P fs | _ => True end).
Proof.
  intros [HP Huse]. unfold gen_prepare. rewrite Htgt.
  eapply (triple_bind _ _ (fun _ => P)).
  { destruct retry; [by apply triple_ret|]. apply triple_call; [apply free_space_readonly|].
    intros x. by apply triple_ret. }
  intros enough. destruct enough; cbn [negb andb].
  { apply triple_ret. intros fs Hfs. split; [auto|]. by destruct retry. }
  destruct use_source; [|apply triple_ret; auto].
  rewrite Hsrc. destruct (Huse eq_refl) as (f & data & Hl & ->).
  eapply triple_bind; [by eapply triple_back_up|]. intros [|]; by apply triple_ret.
Qed.

(** Facts about the disk that the output file has no part in. *)
Definition out_free (R : disk -> Prop) : Prop :=
  (forall fs, R fs -> recoverable fs) /\ (forall fs g, R fs -> R (<[out := g]> fs)) /\
  (forall fs, R fs -> R (delete out fs)).

Section Output.
  Context (R : disk -> Prop) (HR : out_free R).

(** The sink as a function on worlds does what the program does. *)
Lemma file_sink_fn_holds base data w :
  holding out R base (w_fs w) ->
  let '(r, w') := file_sink_fn (D := D) out data w in
  (exists l, w_log w' = (w_log w ++ l)%list /\ Forall recoverable l) /\
  0 <= r <= zlen data /\ holding out R (base ++ take (Z.to_nat r) data) (w_fs w').
Proof.
  intros Hh. unfold file_sink_fn. destruct HR as (HI & Hst & _).
  destruct (triple_FileSink (D := D) (I := recoverable) out R Hst HI base data w Hh) as [Hlog Hpost].
  destruct (FileSink_returns (D := D) out (Some data) (zlen data) w) as [r Hr].
  destruct (FileSink out (Some data) (zlen data) w) as [o w']. cbn [fst snd] in *. rewrite Hr.
  destruct (Hpost r Hr) as [Hh' Hr']. split; [exact Hlog|]. split; [exact Hr'|exact Hh'].
Qed.

(** Applying a BSDIFF40 patch to the output file. *)
Lemma triple_patch_to_file source patch bonus :
  take 8 patch = bsdiff_magic ->
  T (holding out R []) (patch_to_file malloc_ok fuel out source patch bonus)
    (fun r fs => R fs /\ forall ctx, r = Some (0, ctx) -> holding out R ctx fs).
Proof.
  intros Hm w Hh. unfold patch_to_file.
  assert ((8 <=? zlen patch) && bool_decide (patch_magic patch = bsdiff_magic) = true) as ->.
  { unfold patch_magic. assert (length (take 8 patch) = 8%nat) as Hl by by rewrite Hm.
    rewrite length_take in Hl. rewrite Hm, bool_decide_eq_true_2, andb_true_r by done.
    apply Z.leb_le. lia. }
  assert (R (w_fs w)) as Hrec by apply Hh.
  assert (exists l, w_log w = (w_log w ++ l)%list /\ Forall recoverable l) as Hnil
    by (exists []; by rewrite app_nil_r).
  unfold ApplyBSDiffPatch.
  destruct (ApplyBSDiffPatchMem _ _ _ _ _ _) as [new|c| |]; cbn;
    try (split; [done|]; intros a Ha; try discriminate; injection Ha as <-; by split).
  pose proof (file_sink_fn_holds [] new w Hh) as Hs.
  destruct (file_sink_fn out new w) as [r w']. destruct Hs as (Hlog & Hr & Hh').
  destruct (Z.ltb_spec r (zlen new)); cbn; (split; [done|]); intros a Ha; injection Ha as <-;
    (split; [apply Hh'|]); intros ctx [= <-].
  assert (r = zlen new) as -> by lia. by rewrite Nat2Z.id, firstn_all in Hh'.
Qed.

Lemma triple_open_out :
  T R (sys_creat (Dev := dev) out) (fun b fs => R fs /\ (b = true -> holding out R [] fs)).
Proof.
  destruct HR as (HI & Hst & _).
  apply triple_creat; [by split|]. intros fs f Hfs Hf.
  assert (holding out R [] (<[out := f]> fs)) as Hh.
  { split; [auto|]. rewrite lookup_insert_eq. eauto. }
  split; [by apply HI, Hh|]. split; [apply Hh|done].
Qed.

Lemma triple_unlink_out : T R (sys_unlink (Dev := dev) out) (fun _ => R).
Proof. destruct HR as (HI & _ & Hd). apply triple_unlink; [done|]. intros fs Hfs. split; auto. Qed.
End Output.

(** What holds between the iterations. *)
Definition mid (P : disk -> Prop) (retry : nat) (fs : disk) : Prop :=
  recoverable fs /\ match retry with S _ => P fs | O => True end.

Lemma mid_out_free P retry : out_free P -> out_free (mid P retry).
Proof.
  intros (H1 & H2 & H3). unfold mid. split; [by intros fs [H _]|].
  split; [intros fs g [Hr HP]|intros fs [Hr HP]]; (split; [|destruct retry; auto]);
    auto using recoverable_out, recoverable_delete_out.
Qed.

Lemma triple_gen_loop retry fc use_source P source patch target_size bonus made :
  take 8 patch = bsdiff_magic -> loop_pre fc use_source P -> out_free P ->
  T P (gen_loop (D := D) malloc_ok readdir proc fuel retry fc use_source source (VAL_BLOB patch)
         src tgt target_size bonus made)
    (fun r fs => match r with inl (ctx, _, _) => holding out recoverable ctx fs
                            | inr code => recoverable fs /\ code ≠ 0 end).
Proof.
  intros Hm HP Hout. revert made. induction retry as [|retry IH]; intros made; cbn [gen_loop];
    (eapply triple_bind; [by apply triple_prepare|]); intros [[retry' made']|];
    (try by apply triple_ret; intros fs [H _]); rewrite Htgt;
    pose proof (mid_out_free P retry' Hout) as Hmid;
    (eapply triple_bind; [by apply (triple_open_out (mid P retry'))|]); intros [|]; cbn [negb];
    (try by apply triple_ret; intros fs [[H _] _]).
  all: eapply triple_bind; [eapply triple_weaken;
    [by apply (triple_patch_to_file (mid P retry') Hmid)|intros fs H; by apply H|done]|].
  all: intros [[result ctx]|]; [|by apply triple_ret; intros fs [[H _] _]].
  all: destruct (Z.eqb_spec result 0) as [->|];
    [apply triple_ret; intros fs [[H1 _] H2]; by destruct (H2 ctx eq_refl)|].
  - destruct retry'; by apply triple_ret; intros fs [[H _] _].
  - destruct retry' as [|retry']; [by apply triple_ret; intros fs [[H _] _]|].
    eapply triple_bind; [eapply triple_weaken; [by apply triple_unlink_out| |]|].
    + intros fs [H _]. exact H.
    + intros b fs H. exact H.
    + intros b. eapply triple_weaken; [apply IH| |done]. intros fs [_ H]. exact H.
Qed.

(** The target is there with the right contents. *)
Definition target_done (fs : disk) : Prop := exists f, fs !! tgt = Some f /\ finished (f_data f).

Lemma done_recoverable fs : target_done fs -> recoverable fs.
Proof. intros H. right. by right. Qed.

Lemma triple_GenerateTarget fc use_source P copy patch target_size bonus :
  take 8 patch = bsdiff_magic -> loop_pre fc use_source P -> out_free P -> is_Some (fc_data copy) ->
  T P (GenerateTarget (D := D) malloc_ok sha1 mtd_table readdir proc fuel fc use_source copy
         (VAL_BLOB patch) src tgt target_sha1 target_size bonus)
    (fun r fs => r = 0 -> target_done fs).
Proof.
  intros Hm HP Hout [source Hs]. unfold GenerateTarget. rewrite Hs.
  assert (forall pre code, code ≠ 0 -> T pre (wret code) (fun r fs => r = 0 -> target_done fs)) as Hbad
    by (intros; by apply triple_ret).
  eapply triple_bind; [by apply triple_gen_loop|]. intros [[[ctx buffer] made]|code]; cycle 1.
  { intros w [Hr Hc]. by apply (Hbad (fun _ => True)). }
  case_bool_decide as Hsha; cbn [negb]; [|by apply Hbad]. rewrite Htgt.
  destruct (fc_st copy) as [[mode uid] gid].
  assert (forall fs g, recoverable fs -> recoverable (<[out := g]> fs)) as Hst by auto using recoverable_out.
  eapply (triple_bind _ _ (fun failed fs => failed = false -> target_done fs)).
  - eapply triple_bind; [by apply (triple_meta out recoverable)|]. intros [|]; cbn [negb]; [|by apply triple_ret].
    eapply triple_bind; [by apply (triple_meta out recoverable)|]. intros [|]; cbn [negb]; [|by apply triple_ret].
    eapply (triple_bind _ _ (fun ok fs => ok = true -> target_done fs)).
    + apply triple_rename; [done|]. intros fs f [_ (f' & Hf & Hd)] Hf'.
      assert (target_done (<[tgt := f]> (delete out fs))) as Hdone.
      { exists f. split; [by rewrite lookup_insert_eq|]. exists (f_data f), 0. split; [by left|].
        assert (f = f') as -> by congruence. by rewrite Hd. }
      split; [by apply done_recoverable|done].
    + intros [|]; apply triple_ret; cbn; auto.
  - intros [|]; [by apply Hbad|].
    eapply (triple_bind _ _ (fun _ => target_done)); [|intros; by apply triple_ret].
    destruct made; [|apply triple_ret; auto]. apply triple_unlink; [auto|].
    intros fs Hd. destruct (Hd eq_refl) as (f & Hf & Hfin).
    assert (target_done (delete CACHE_TEMP_SOURCE fs)) as Hdone
      by (exists f; by rewrite lookup_delete_ne).
    split; [by apply done_recoverable|done].
Qed.

(** Masking what masking the source gives changes nothing. *)
Definition mask_stable (fs : disk) : Prop := forall f masked o,
  fs !! src = Some f ->
  retouch_mask_data fuel (f_data f) (Some 0) = Done (RETOUCH_DATA_MATCHED, masked, o) ->
  exists o', retouch_mask_data fuel masked (Some 0) = Done (RETOUCH_DATA_MATCHED, masked, o').

Definition startable (fs : disk) : Prop := recoverable fs /\ mask_stable fs.

Lemma triple_applypatch target_sha1_str target_size patch_data bonus :
  ParseSha1 target_sha1_str = Some target_sha1 -> src ≠ "-" -> tgt ≠ "-" ->
  Forall (fun v => exists patch, v = VAL_BLOB patch /\ take 8 patch = bsdiff_magic) patch_data ->
  T startable (applypatch (D := D) malloc_ok sha1 mtd_table readdir proc garbage fuel
      src tgt target_sha1_str target_size patch_sha1_str patch_data bonus)
    (fun r fs => r = 0 -> target_done fs).
Proof.
  intros Hsha Hsd Htd Hpatch. unfold applypatch.
  rewrite (bool_decide_eq_false_2 (tgt = "-")) by done. rewrite Hsha.
  eapply triple_bind; [by apply load_file|]. intros [ret f1]. cbn [fst snd].
  destruct ((ret =? 0) && bool_decide (fc_sha1 f1 = target_sha1)) eqn:Ealready.
  { bool_to_prop. apply bool_decide_eq_true in H0. subst ret.
    apply triple_ret. intros fs (_ & Hl & _ & Hd) _. destruct (Hd eq_refl) as [data E].
    destruct (Hl data E) as (f & o & Hf & Hs & _ & Hm). exists f. split; [done|].
    exists data, o. split; [by right|]. congruence. }
  eapply (triple_bind _ _ (fun f2 fs => startable fs /\ loaded src f2 fs)).
  { destruct (_ || _) eqn:E.
    - eapply triple_bind; [eapply triple_weaken; [by apply (load_file startable)|by intros fs [H _]|done]|].
      intros [ret2 f2]. apply triple_ret. cbn. by intros fs (H1 & H2 & _).
    - bool_to_prop. apply bool_decide_eq_true in H0. apply triple_ret. rewrite <- H0.
      by intros fs (H1 & H2 & _). }
  intros f2.
  assert (forall k fc use_source P copy, loop_pre fc use_source P -> out_free P -> is_Some (fc_data copy) ->
    T P (let! patch := wlift (access (patch_data !! k)) in
         GenerateTarget malloc_ok sha1 mtd_table readdir proc fuel fc use_source copy patch
           src tgt target_sha1 target_size bonus) (fun r fs => r = 0 -> target_done fs)) as Hgen.
  { intros k fc use P copy Hpre Hout Hd. destruct (patch_data !! k) as [v|] eqn:Ev.
    - rewrite Forall_forall in Hpatch.
      destruct (Hpatch v) as (patch & -> & Hm); [by eapply list_elem_of_lookup_2|].
      by apply (triple_GenerateTarget fc use P copy patch target_size bonus Hm Hpre Hout Hd).
    - intros w _. split; [exists []; by rewrite app_nil_r|]. done. }
  destruct (match fc_data f2 with None => None | Some _ => _ end) as [k|] eqn:Ek.
  - destruct (fc_data f2) as [data|] eqn:Ed; [|done].
    intros w [[_ Hmask] Hl]. destruct (Hl data Ed) as (f & o & Hf & Hs & Hz & Hm).
    assert (source_loaded f2 f data) as Hsl by (constructor; eauto; rewrite <- Hs; eauto).
    apply (Hgen k f2 true (at_source f) f2); [| | by eauto|exact Hf].
    + split; [intros fs Hfs; by eapply source_recoverable|]. by exists f, data.
    + split_and!; [intros fs Hfs; by eapply source_recoverable|intros fs g; by rewrite lookup_insert_ne|
        intros fs; by rewrite lookup_delete_ne].
  - eapply triple_bind; [eapply triple_weaken; [by apply (load_file recoverable)|by intros fs [[H _] _]|done]|].
    intros [ret3 copy]. cbn [fst snd]. destruct (Z.ltb_spec ret3 0); [by apply triple_ret|].
    clear Ek. destruct (FindMatchingPatch (fc_sha1 copy) patch_sha1_str) as [k|]; [|by apply triple_ret].
    intros w (Hrec & _ & Hle & Hd). revert w Hrec. apply Hgen; [by split| |apply Hd; lia].
    split_and!; auto using recoverable_out, recoverable_delete_out.
Qed.
End Safety.

(** ** Properties *)


(** A digest for examples: the first twenty bytes. *)
Definition toy_sha1 (data : list Z) : list Z := take 20 (data ++ replicate 20 0).

Definition toy_patch : list Z :=
  patch_file (frame (encode_ctrls [(2, 1, -1)])) (frame [1; 255]) (frame [9]) 3.

Definition toy_world (answers : nat -> Z) : world (@dev (nand_driver 4 (fun _ => false))) :=
  mkWorld {[ "/system/a" := mkFile [10; 20] 420 0 0 ]} (∅ : gmap Z (list Z)) answers 0 [].

Definition toy_apply (answers : nat -> Z) :=
  applypatch (B := framed_bz) (D := nand_driver 4 (fun _ => false)) (fun _ => true) toy_sha1
    (mkMtdState [] 0) (fun _ _ => []) [] 7 40 "/system/a" "/system/b"
    "0b13090000000000000000000000000000000000" 3
    ["0a14000000000000000000000000000000000000"] [VAL_BLOB toy_patch] None (toy_world answers).

(** With space, and without: then the source goes through /cache. *)
Example toy_apply_runs :
  (toy_apply (fun _ => 2 ^ 30)).1 = Done 0 /\ (toy_apply (fun _ => 1000)).1 = Done 0 /\
  map (fun fs => (fs !! "/system/a", fs !! CACHE_TEMP_SOURCE, f_data <$> fs !! "/system/b"))
    (w_log (toy_apply (fun _ => 1000)).2) !! 4%nat =
    Some (None, Some (mkFile [10; 20] 420 0 0), None).
Proof. vm_compute. repeat split. Qed.


(** *** Open files *)

Section OpenFiles.
  Context {D : MtdDriver}.
  Context (readdir : disk -> string -> list string) (proc : list (string * list (string * string))).
  Context (path : string) (Hcache : has_prefix "/cache/" path = true) (Hlen : Z.of_nat (String.length path) < FILENAME_MAX).

Lemma substring_whole (s : string) n : (String.length s <= n)%nat -> String.substring 0 n s = s.
Proof. revert n. induction s as [|c s IH]; intros [|n] Hn; cbn in *; [done|done|lia|]. f_equal. apply IH. lia. Qed.

(** What was struck out stays out, and a descriptor of the file strikes it out. *)
Lemma returns_fds fds : forall files w, calm w -> exists l, returns (eliminate_fds (D := D) fds files) w l /\
  (forall n : string, Some n ∈ l -> Some n ∈ files) /\ ((exists fd, (fd, path) ∈ fds) -> Some path ∉ l).
Proof using Hcache Hlen.
  induction fds as [|[fd target] fds IH]; intros files w Hc; cbn [eliminate_fds].
  { exists files. split_and!; [by apply returns_ret|done|]. by intros (fd & ?%not_elem_of_nil). }
  destruct (returns_ask w Hc) as (a & Ha & w1 & E & Hf & Hc1).
  set (link := String.substring 0 (Z.to_nat (FILENAME_MAX - 1)) target).
  destruct (IH (if has_prefix "/cache/" link then strike link files else files) w1 Hc1) as (l & (w2 & E2 & Hf2 & Hc2) & Hin & Hout).
  exists l. split_and!.
  - exists w2. unfold wbind. rewrite E, (proj2 (Z.ltb_ge a 0)) by lia. split_and!; [done|congruence|done].
  - intros n Hn. specialize (Hin n Hn). destruct (has_prefix "/cache/" link); [by apply strike_incl in Hin as [? _]|done].
  - intros (fd' & [E'|Hfd]%elem_of_cons); [|apply Hout; by exists fd']. injection E' as -> <-. intros Hp. apply Hin in Hp.
    assert (link = path) as El by (apply substring_whole; lia). rewrite El, Hcache in Hp. by apply strike_incl in Hp as [_ ?].
Qed.

Lemma returns_in entries : forall files w, calm w -> exists l, returns (eliminate_in (D := D) entries files) w l /\
  (forall n : string, Some n ∈ l -> Some n ∈ files) /\ (opened entries path -> Some path ∉ l).
Proof using Hcache Hlen.
  induction entries as [|[name fds] entries IH]; intros files w Hc; cbn [eliminate_in].
  { exists files. split_and!; [by apply returns_ret|done|]. by intros (? & ? & ? & ?%not_elem_of_nil & _). }
  destruct (is_numeric name) eqn:En; cbn [negb].
  - destruct (returns_ask w Hc) as (a & Ha & w1 & E & Hf & Hc1).
    destruct (returns_fds fds files w1 Hc1) as (l1 & (w2 & E2 & Hf2 & Hc2) & Hin1 & Hout1).
    destruct (IH l1 w2 Hc2) as (l & (w3 & E3 & Hf3 & Hc3) & Hin & Hout). exists l. split_and!.
    + exists w3. unfold wbind. rewrite E, (proj2 (Z.ltb_ge a 0)) by lia. rewrite E2. split_and!; [done|congruence|done].
    + auto.
    + intros (pid & fs & fd & [E'|Hp]%elem_of_cons & Hn & Hfd); [|apply Hout; by exists pid, fs, fd].
      injection E' as -> ->. intros Hl. apply Hin in Hl. revert Hl. apply Hout1. by exists fd.
  - destruct (IH files w Hc) as (l & Hr & Hin & Hout). exists l. split_and!; [done|done|].
    intros (pid & fs & fd & [E'|Hp]%elem_of_cons & Hn & Hfd); [congruence|apply Hout; by exists pid, fs, fd].
Qed.

Lemma calm_expendable dir names : forall w, calm w -> exists l w', expendable_in (D := D) dir names w = (Done l, w') /\ calm w'.
Proof.
  induction names as [|n names IH]; intros w Hc; cbn [expendable_in]; [by exists [], w|]. case_bool_decide; [by apply IH|].
  assert (exists st w1, sys_stat (Dev := dev) (dir ++ "/" ++ n) w = (Done st, w1) /\ calm w1) as (st & w1 & E & Hc1).
  { unfold sys_stat, ask, get_fs, wbind, wret. cbn. destruct (w_fs w !! _); [destruct (_ <? 0)|]; by eexists _, _. }
  destruct (IH w1 Hc1) as (l & w2 & E2 & Hc2). unfold wbind. rewrite E, E2. destruct st; by eexists _, w2.
Qed.

(** When /proc can be read, the file is not among those that may be deleted. *)
Lemma find_spares_open w : calm w -> opened proc path -> exists l w', FindExpendableFiles (D := D) readdir proc w = (Done l, w') /\
  Forall (fun p => p ≠ Some path) (default [] l).
Proof using Hcache Hlen.
  intros Hc Ho. unfold FindExpendableFiles, get_fs. unfold wbind at 1.
  destruct (calm_expendable "/cache" (readdir (w_fs w) "/cache") w Hc) as (l1 & w1 & E1 & Hc1). unfold wbind at 1. rewrite E1.
  destruct (calm_expendable "/cache/recovery/otatest" (readdir (w_fs w) "/cache/recovery/otatest") w1 Hc1) as (l2 & w2 & E2 & Hc2).
  unfold wbind at 1. rewrite E2. unfold EliminateOpenFiles. destruct (returns_ask w2 Hc2) as (a & Ha & w3 & E3 & _ & Hc3).
  unfold wbind at 1. rewrite E3, (proj2 (Z.ltb_ge a 0)) by lia.
  destruct (returns_in proc (Some <$> (l1 ++ l2)%list) w3 Hc3) as (l & (w4 & E4 & _) & _ & Hout). unfold wbind. rewrite E4.
  eexists _, w4. split; [done|]. cbn. apply Forall_forall. intros p Hp ->. by apply Hout.
Qed.

(** The rest of a program after a call that changed nothing. *)
Lemma after_readonly {A B} (I : disk -> Prop) (m : W dev A) (k : A -> W dev B) w a w1 : readonly m -> m w = (Done a, w1) ->
  (w_fs w1 = w_fs w -> (exists l, w_log (k a w1).2 = (w_log w1 ++ l)%list /\ Forall I l) /\
    (forall b, (k a w1).1 = Done b -> I (w_fs (k a w1).2))) ->
  (exists l, w_log (wbind m k w).2 = (w_log w ++ l)%list /\ Forall I l) /\ (forall b, (wbind m k w).1 = Done b -> I (w_fs (wbind m k w).2)).
Proof. intros Hm E Hk. destruct (Hm w) as [Hf Hl]. unfold wbind. rewrite E in *. cbn [snd] in *. rewrite <- Hl. by apply Hk. Qed.

Lemma make_space_spares_open bytes w : calm w -> opened proc path ->
  let r := MakeFreeSpaceOnCache (D := D) readdir proc bytes w in
  (exists l, w_log r.2 = (w_log w ++ l)%list /\ Forall (fun fs => fs !! path = w_fs w !! path) l) /\
  (forall code, r.1 = Done code -> w_fs r.2 !! path = w_fs w !! path).
Proof using Hcache Hlen.
  intros Hc Ho. cbv zeta. unfold MakeFreeSpaceOnCache. set (I := fun fs : disk => fs !! path = w_fs w !! path).
  assert (exists x w1, FreeSpaceForFile (D := D) "/cache" w = (Done x, w1) /\ calm w1) as (x & w1 & E1 & Hc1) by (by eexists _, _).
  apply (after_readonly I _ _ w x w1); [apply free_space_readonly|done|]. intros Hf1.
  destruct (_ <=? _); [apply (triple_ret (I := I) 0 I (fun _ => I)); [done|]; unfold I; by rewrite Hf1|].
  destruct (find_spares_open w1 Hc1 Ho) as (l & w2 & E2 & Hl).
  apply (after_readonly I _ _ w1 l w2); [apply find_readonly|done|]. intros Hf2.
  assert (I (w_fs w2)) as HI by (unfold I; by rewrite Hf2, Hf1).
  destruct l as [[|p l]|]; [by apply (triple_ret (I := I) (-1) I (fun _ => I))| |by apply (triple_ret (I := I) (-1) I (fun _ => I))].
  revert HI. apply (triple_bind (I := I) I _ (fun _ => I) _ (fun _ => I)).
  - by apply (triple_delete_loop path (w_fs w !! path)).
  - intros y. by apply triple_ret.
Qed.

End OpenFiles.

(** [C40] [MakeFreeSpaceOnCache] never deletes the saved source or anything outside
    /cache, whatever the directories contain and however the calls answer; and
    when the directories and links of /proc can be read, it does not delete a file
    in /cache that one of the processes there has open, if the path of the file is
    shorter than [FILENAME_MAX].  (Where they cannot be read, open files are
    deleted like others.) *)
Theorem MakeFreeSpaceOnCache_safe {D : MtdDriver} readdir proc bytes (w : world dev) path
    (Hp : protected path \/ calm w /\ opened proc path /\ Z.of_nat (String.length path) < FILENAME_MAX) :
  let '(r, w') := MakeFreeSpaceOnCache readdir proc bytes w in
  (exists l, w_log w' = (w_log w ++ l)%list /\ Forall (fun fs => fs !! path = w_fs w !! path) l) /\
  (forall code, r = Done code -> w_fs w' !! path = w_fs w !! path).
Proof.
  destruct (decide (has_prefix "/cache/" path = false)) as [Hpre|Hcache%not_false_is_true].
  - pose proof (triple_make_space (I := fun fs => fs !! path = w_fs w !! path) readdir proc path
      (w_fs w !! path) (fun fs H => H) bytes (or_intror Hpre) w eq_refl) as [Hl Hpost].
    destruct (MakeFreeSpaceOnCache readdir proc bytes w) as [r w']. by split.
  - destruct Hp as [Hp|(Hc & Ho & Hlen)].
    + pose proof (triple_make_space (I := fun fs => fs !! path = w_fs w !! path) readdir proc path
        (w_fs w !! path) (fun fs H => H) bytes Hp w eq_refl) as [Hl Hpost].
      destruct (MakeFreeSpaceOnCache readdir proc bytes w) as [r w']. by split.
    + pose proof (make_space_spares_open readdir proc path Hcache Hlen bytes w Hc Ho) as [Hl Hpost].
      destruct (MakeFreeSpaceOnCache readdir proc bytes w) as [r w']. by split.
Qed.

(** A full cache with the saved source, an open file and an old one. *)
Definition full_cache (answers : nat -> Z) : world (@dev (nand_driver 4 (fun _ => false))) :=
  mkWorld {[ CACHE_TEMP_SOURCE := mkFile [1] 420 0 0; "/cache/open" := mkFile [2] 420 0 0;
             "/cache/old" := mkFile [3] 420 0 0 ]} (∅ : gmap Z (list Z)) answers 0 [].

Definition full_cache_readdir (fs : disk) (dir : string) : list string :=
  if bool_decide (dir = "/cache") then ["saved.file"; "open"; "old"] else [].

Definition full_cache_proc : list (string * list (string * string)) :=
  [("version", []); ("1", [("0", "/dev/null")]); ("42", [("0", "/dev/null"); ("3", "/cache/open")])].

(** The oracle until space has been made. *)
Definition filling (n : nat) : Z := if (n <? 10)%nat then 10 else 1000.

Example full_cache_run :
  let '(r, w') := MakeFreeSpaceOnCache (D := nand_driver 4 (fun _ => false)) full_cache_readdir full_cache_proc 500 (full_cache filling) in
  r = Done 0 /\ w_fs w' !! "/cache/old" = None /\ is_Some (w_fs w' !! "/cache/open").
Proof. vm_compute. split; [reflexivity|]. split; [reflexivity|]. by eexists. Qed.

(** When the descriptors of the process cannot be read, its file is deleted. *)
Example unreadable_process :
  let '(r, w') := MakeFreeSpaceOnCache (D := nand_driver 4 (fun _ => false)) full_cache_readdir full_cache_proc 500
                    (full_cache (fun n => if (n =? 6)%nat then -1 else if (n <? 8)%nat then 10 else 1000)) in
  r = Done 0 /\ w_fs w' !! "/cache/open" = None.
Proof. vm_compute. split; reflexivity. Qed.

Lemma MakeFreeSpaceOnCache_safe_witness :
  let '(r, w') := MakeFreeSpaceOnCache (D := nand_driver 4 (fun _ => false)) full_cache_readdir full_cache_proc 500 (full_cache filling) in
  (exists l, w_log w' = (w_log (full_cache filling) ++ l)%list /\
     Forall (fun fs => fs !! "/cache/open" = w_fs (full_cache filling) !! "/cache/open") l) /\
  (forall code, r = Done code -> w_fs w' !! "/cache/open" = w_fs (full_cache filling) !! "/cache/open").
Proof.
  apply (MakeFreeSpaceOnCache_safe (D := nand_driver 4 (fun _ => false)) full_cache_readdir full_cache_proc 500 (full_cache filling) "/cache/open").
  right. split_and!.
  - intros n. cbn. unfold filling. by destruct (n <? 10)%nat.
  - exists "42", [("0", "/dev/null"); ("3", "/cache/open")], "3". split_and!; by_decide.
  - vm_compute. reflexivity.
Defined.
