(* ===== verification/ApplypatchFacts.v ===== *)
(** * Further facts about applypatch

    Digests in text, loading a partition by (size, sha1) pairs, verified
    writes to eMMC partitions, and what happens to the saved source when a
    partition patch is resumed. *)
From S2P Require Import Prelude Cstring Scanf Utils Bspatch Retouch Edify Mtdutils MtdScan Imgpatch World.
From S2P Require Import Applypatch ApplypatchSafety.
From stdpp Require Import sorting.
From Stdlib Require Import Ascii.
Open Scope string_scope.
Open Scope Z_scope.

(** ** Digests *)

(** A byte as two lower-case hexadecimal digits, and a digest. *)
Definition byte_hex (b : Z) : string := String (hex_char (b / 16)) (String (hex_char (b mod 16)) "").

Fixpoint digest_string (ds : list Z) : string :=
  match ds with [] => "" | b :: ds => byte_hex b ++ digest_string ds end.

Lemma sha_digit_hex d : 0 <= d < 16 -> sha_digit (hex_char d) = Some d.
Proof.
  intros Hd. assert (Forall (fun d => sha_digit (hex_char d) = Some d) (seqZ 0 16)) as Hall.
  { apply (bool_decide_unpack _). vm_compute. exact I. }
  rewrite Forall_forall in Hall. apply Hall, elem_of_seqZ. lia.
Qed.

Lemma sha_digit_range c d : sha_digit c = Some d -> 0 <= d < 16.
Proof. unfold sha_digit. case_bools; intros [= <-]; bool_to_prop; lia. Qed.

Lemma nibbles d1 d2 : 0 <= d1 -> 0 <= d2 < 16 -> (d1 <<< 4) .| d2 = d1 * 16 + d2.
Proof. intros. rewrite Z.lor_comm, lor_shiftl_add by lia. lia. Qed.

Lemma parse_digits_digest ds rest :
  bytes ds -> parse_digits (length ds) (digest_string ds ++ rest) = Some (ds, rest).
Proof.
  induction 1 as [|b ds Hb _ IH]; [done|]. unfold is_byte in Hb.
  cbn [length digest_string parse_digits]. unfold byte_hex. str_norm.
  pose proof (Z.mod_pos_bound b 16 ltac:(lia)). pose proof (Z.div_mod b 16 ltac:(lia)).
  rewrite !sha_digit_hex by lia. cbn [mbind option_bind]. rewrite IH. cbn [mbind option_bind].
  rewrite nibbles by lia. do 3 f_equal. lia.
Qed.

Lemma parse_digits_shape n s ds rest :
  parse_digits n s = Some (ds, rest) ->
  length ds = n /\ bytes ds /\ String.length s = (2 * n + String.length rest)%nat.
Proof.
  revert s ds. induction n as [|n IH]; intros s ds; cbn [parse_digits];
    [intros [= <- <-]; split_and!; [done|constructor|lia]|].
  destruct s as [|c1 [|c2 s]]; try discriminate.
  destruct (sha_digit c1) as [d1|] eqn:E1; [|discriminate].
  destruct (sha_digit c2) as [d2|] eqn:E2; [|discriminate]. cbn [mbind option_bind].
  destruct (parse_digits n s) as [[ds' rest']|] eqn:E; [|discriminate]. intros [= <- <-].
  destruct (IH _ _ E) as (Hl & Hb & Hs). apply sha_digit_range in E1, E2.
  cbn [length String.length]. split_and!; [lia| |lia].
  constructor; [|done]. unfold is_byte. rewrite nibbles by lia. lia.
Qed.

(** [ParseSha1] reads back every digest printed as forty hexadecimal
    digits, gives twenty bytes only for strings of exactly forty characters,
    and so rejects a digest that is followed by ":" and anything, although the
    comment above it allows that form. *)
Theorem ParseSha1_correct (digest : list Z) (Hb : bytes digest) (Hl : length digest = SHA_DIGEST_SIZE) :
  ParseSha1 (digest_string digest) = Some digest /\
  (forall str d, ParseSha1 str = Some d -> length d = SHA_DIGEST_SIZE /\ bytes d /\ String.length str = 40%nat) /\
  (forall anything, ParseSha1 (digest_string digest ++ ":" ++ anything) = None).
Proof.
  unfold ParseSha1. split_and!.
  - pose proof (parse_digits_digest digest "" Hb) as H. rewrite Hl in H.
    assert (forall s, s ++ "" = s) as Hn
      by (induction s as [|c s IH]; [done|]; rewrite append_cons; by rewrite IH).
    rewrite Hn in H. rewrite H. done.
  - intros str d H. destruct (parse_digits _ str) as [[ds rest]|] eqn:E; [|discriminate].
    cbn [mbind option_bind] in H. case_bool_decide; [|discriminate]. injection H as <-. subst rest.
    apply parse_digits_shape in E. destruct E as (H1 & H2 & H3). split_and!; auto.
  - intros anything. pose proof (parse_digits_digest digest (":" ++ anything) Hb) as H.
    rewrite Hl in H. rewrite H. done.
Qed.

Lemma ParseSha1_correct_witness :
  ParseSha1 "000102030405060708090a0b0c0d0e0f10111213" = Some (seqZ 0 20) /\
  (forall str d, ParseSha1 str = Some d -> length d = SHA_DIGEST_SIZE /\ bytes d /\ String.length str = 40%nat) /\
  (forall anything, ParseSha1 ("000102030405060708090a0b0c0d0e0f10111213" ++ ":" ++ anything) = None).
Proof. apply (ParseSha1_correct (seqZ 0 20)); by_decide. Defined.

(** ** Writing an eMMC partition *)

(** A prefix of [c] followed by the next bytes of [c] is a prefix. *)
Lemma prefix_extend (acc got : list Z) m (c : list Z) :
  acc = take (length acc) c -> got = take m (drop (length acc) c) ->
  (acc ++ got)%list = take (length (acc ++ got)) c.
Proof.
  intros Ha Hg. assert ((acc ++ got)%list = take (length acc + m) c) as E.
  { rewrite Ha at 1. rewrite Hg. apply take_take_drop. }
  rewrite E at 2. rewrite E, length_take.
  destruct (Nat.le_ge_cases (length acc + m) (length c)); [by rewrite Nat.min_l by done|].
  by rewrite Nat.min_r, !take_ge by lia.
Qed.

Section Emmc.
  Context {B : BzLib} {Zl : ZLib} {D : MtdDriver} (malloc_ok : Z -> bool) (mtd_table : MtdState).
  Context (fuel : nat) (path : string).

Definition device (w : world dev) : list Z := default [] (f_data <$> w_fs w !! path).

Lemma emmc_read_done n p to_read : forall acc w r w',
  0 <= p -> zlen acc <= to_read -> acc = take (length acc) (drop (Z.to_nat p) (device w)) ->
  emmc_read (D := D) n path p to_read acc w = (Done (Some r), w') ->
  w_fs w' = w_fs w /\ zlen r = to_read /\ r = take (Z.to_nat to_read) (drop (Z.to_nat p) (device w)).
Proof.
  induction n as [|n IH]; intros acc w r w' Hp Hle Hacc; cbn [emmc_read];
    (destruct (Z.ltb_spec (zlen acc) to_read);
      [|intros [= <- <-]; assert (zlen acc = to_read) by lia; split_and!; auto;
        rewrite Hacc at 1; f_equal; lia]); [discriminate|].
  unfold ask, get_fs, wbind, wret. cbn. set (a := w_answers w (w_asked w)).
  destruct (Z.ltb_spec a 0).
  - destruct (_ <? 0); [discriminate|]. intros Hr. by apply IH in Hr.
  - set (got := take _ (drop _ _)). intros Hr. apply IH in Hr; [done|done| |].
    + rewrite length_app. subst got. rewrite length_take, length_drop. lia.
    + apply (prefix_extend acc got (Z.to_nat (Z.min a (to_read - zlen acc)))); [done|].
      subst got. rewrite drop_drop. do 2 f_equal. lia.
Qed.

Lemma emmc_verify_done data n : forall p w r w',
  0 <= p -> emmc_verify (D := D) fuel n path data p w = (Done (Some r), w') ->
  w_fs w' = w_fs w /\
  (r = zlen data -> take (length data - Z.to_nat p) (drop (Z.to_nat p) (device w)) = drop (Z.to_nat p) data).
Proof.
  induction n as [|n IH]; intros p w r w' Hp; cbn [emmc_verify];
    (destruct (Z.ltb_spec p (zlen data));
      [|intros [= <- <-]; split; [done|]; intros _;
        replace (length data - Z.to_nat p)%nat with 0%nat by lia; by rewrite (drop_ge data) by lia]); [discriminate|].
  unfold wbind. destruct (emmc_read _ _ _ _ _ w) as [o w1] eqn:E.
  destruct o as [[buffer|]|c| |]; try discriminate. apply emmc_read_done in E; [|lia|cbn; lia|done].
  destruct E as (Hfs & Hlen & Hbuf). case_bool_decide as Hcmp.
  - intros Hr. apply IH in Hr as [Hfs' Hrest]; [|lia]. split; [congruence|]. intros ->.
    specialize (Hrest eq_refl). unfold device in *. rewrite Hfs in Hrest.
    set (c := default [] _) in *.
    rewrite <- (take_drop (Z.to_nat (Z.min (zlen data - p) 4096)) (drop (Z.to_nat p) data)), <- Hcmp, Hbuf.
    rewrite drop_drop. destruct (Z.le_gt_cases (zlen data - p) 4096).
    + rewrite (drop_ge data), app_nil_r by lia. f_equal. lia.
    + rewrite Z.min_r by lia. replace (Z.to_nat p + Z.to_nat 4096)%nat with (Z.to_nat (p + 4096)) by lia.
      rewrite <- Hrest. replace (length data - Z.to_nat p)%nat
        with (Z.to_nat 4096 + (length data - Z.to_nat (p + 4096)))%nat by lia.
      rewrite <- take_take_drop, drop_drop. do 3 f_equal. lia.
  - intros [= <- <-]. split; [done|]. intros ->. lia.
Qed.

Lemma emmc_attempts_done data attempts : forall start w w',
  emmc_attempts (D := D) fuel attempts path data start w = (Done (Some true), w') ->
  take (length data) (device w') = data.
Proof.
  induction attempts as [|attempts IH]; intros start w w'; cbn [emmc_attempts]; [discriminate|].
  unfold wbind. destruct (emmc_write _ _ _ _ w) as [o w1]. destruct o as [[|]|c| |]; try discriminate.
  cbn [negb]. destruct (emmc_verify _ _ _ _ _ w1) as [o w2] eqn:E.
  destruct o as [[v|]|c| |]; try discriminate. apply emmc_verify_done in E as [Hfs Hv]; [|lia].
  destruct (Z.eqb_spec v (zlen data)) as [->|]; [|apply IH].
  intros [= <-]. specialize (Hv eq_refl). unfold device in *. rewrite Hfs. cbn [Z.to_nat] in Hv.
  by rewrite Nat.sub_0_r, !drop_0 in Hv.
Qed.
End Emmc.

(** When [WriteToPartition] reports success for an eMMC partition, the
    device begins with exactly the data - whatever short writes, interrupted
    calls or retries happened on the way. *)
Theorem WriteToPartition_verified {D : MtdDriver} malloc_ok mtd_table fuel data target toks path rest
    (w w' : world dev)
    (Hmagic : strtok ":" target = (Some "EMMC", toks)) (Hpath : strtok ":" toks = (Some path, rest))
    (Hrun : WriteToPartition malloc_ok mtd_table fuel data target w = (Done 0, w')) :
  take (length data) (device path w') = data.
Proof.
  revert Hrun. unfold WriteToPartition. rewrite Hmagic.
  rewrite (bool_decide_eq_false_2 ("EMMC" = "MTD")), (bool_decide_eq_true_2 ("EMMC" = "EMMC")) by done.
  rewrite Hpath. unfold wbind at 1. destruct (sys_fopen path w) as [o w1].
  destruct o as [[opened|]|c| |]; try discriminate. unfold wbind at 1.
  destruct (emmc_attempts _ _ _ _ _ w1) as [o w2] eqn:E.
  destruct o as [[[|]|]|c| |]; try discriminate. apply emmc_attempts_done in E.
  unfold wbind, ask, wret. cbn. intros [= _ <-]. done.
Qed.

Definition emmc_world (answers : nat -> Z) : world (@dev (nand_driver 4 (fun _ => false))) :=
  mkWorld {[ "/dev/boot" := mkFile [0; 0; 0; 0; 7] 420 0 0 ]} (∅ : gmap Z (list Z)) answers 0 [].

Definition emmc_run :=
  WriteToPartition (D := nand_driver 4 (fun _ => false)) (fun _ => true) (mkMtdState [] 0) 40
    [1; 2; 3] "EMMC:/dev/boot:3:00" (emmc_world (fun n => if (n =? 2)%nat then -1 else 2)).

(** An interrupted write in between. *)
Lemma WriteToPartition_verified_witness :
  emmc_run.1 = Done 0 /\ take 3 (device "/dev/boot" emmc_run.2) = [1; 2; 3].
Proof.
  split; [vm_compute; reflexivity|].
  apply (WriteToPartition_verified (fun _ => true) (mkMtdState [] 0) 40 [1; 2; 3] "EMMC:/dev/boot:3:00"
    "/dev/boot:3:00" "/dev/boot" "3:00" (emmc_world (fun n => if (n =? 2)%nat then -1 else 2)) emmc_run.2);
    vm_compute; reflexivity.
Defined.

(** ** Resuming a partition patch *)

(** Resuming an interrupted partition patch destroys the saved source.
    Saving a [FileContents] without data but with a size truncates the file and
    fails; and that is what a run does when the partition matches no digest and
    the source is taken from /cache/saved.file: it returns 1 and the backup is
    empty, so neither the source nor the target can be recovered. *)
Theorem resumed_partition_patch_loses_backup :
  (forall {D : MtdDriver} fc (w : world dev),
     fc_data fc = None -> 0 < fc_size fc -> 0 <= w_answers w (w_asked w) ->
     let '(r, w') := SaveFileContents CACHE_TEMP_SOURCE fc w in
     r = Done (-1) /\ f_data <$> w_fs w' !! CACHE_TEMP_SOURCE = Some []) /\
  (let source := "EMMC:/dev/boot:2:0a14000000000000000000000000000000000000:3:0b13090000000000000000000000000000000000" in
   let w := mkWorld {[ "/dev/boot" := mkFile [99; 99; 99; 99] 420 0 0;
                       CACHE_TEMP_SOURCE := mkFile [10; 20] 420 0 0 ]}
              (∅ : @dev (nand_driver 4 (fun _ => false))) (fun _ => 2 ^ 30) 0 [] in
   let '(r, w') := applypatch (B := framed_bz) (D := nand_driver 4 (fun _ => false)) (fun _ => true)
     toy_sha1 (mkMtdState [] 0) (fun _ _ => []) [] 0 40 source "-"
     "0b13090000000000000000000000000000000000" 3
     ["0a14000000000000000000000000000000000000"] [VAL_BLOB toy_patch] None w in
   r = Done 1 /\ f_data <$> w_fs w' !! CACHE_TEMP_SOURCE = Some [] /\
   f_data <$> w_fs w' !! "/dev/boot" = Some [99; 99; 99; 99]).
Proof.
  split; [|vm_compute; repeat split].
  intros D fc w Hd Hs Ha. unfold SaveFileContents, sys_creat, FileSink, ask, get_fs, set_fs, wbind, wret.
  rewrite (proj2 (Z.ltb_ge _ _) Ha), Hd. cbn.
  destruct (Z.to_nat (fc_size fc)) as [|n] eqn:En; [lia|]. cbn [file_sink].
  rewrite (proj2 (Z.ltb_lt _ _) Hs). unfold sys_append, ask, wbind, wret. cbn -[Z.eqb].
  rewrite (proj2 (Z.eqb_neq 0 _)) by lia. cbn.
  rewrite lookup_insert_eq. cbn. split; [done|]. by destruct (w_fs w !! CACHE_TEMP_SOURCE).
Qed.

(** ** Loading a partition by its digests *)

Section LoadPairs.
  Context {D : MtdDriver} (sha1 : list Z -> list Z) (fuel : nat) (data : list Z).

(** A pair whose prefix of the partition has its digest. *)
Definition pair_matches (p : Z * option string) : bool :=
  bool_decide (p.2 ≫= ParseSha1 = Some (sha1 (take (Z.to_nat p.1) data))).

Definition pair_ok (p : Z * option string) : Prop :=
  0 < p.1 <= zlen data /\ is_Some (p.2 ≫= ParseSha1).

Lemma load_pairs_run ps : forall k (w : world dev),
  (forall n, 0 <= w_answers w n) -> (k <= length data)%nat ->
  Forall pair_ok ps -> Forall (fun p => Z.of_nat k <= p.1) ps -> StronglySorted size_le ps ->
  (load_pairs sha1 fuel ps (SrcEmmc data (Z.of_nat k)) (take k data) w).1 =
    Done (match find pair_matches ps with
          | Some p => (Some (take (Z.to_nat p.1) data), p.1)
          | None => (None, default (Z.of_nat k) (fst <$> last ps))
          end).
Proof.
  induction ps as [|[size sha] ps IH]; intros k w Hw Hk Hok Hge Hs; cbn [load_pairs].
  { cbn. rewrite length_take. do 2 f_equal. lia. }
  apply Forall_cons in Hok as [[Hsz [parsed Hp]] Hok]. apply Forall_cons in Hge as [Hge _].
  apply StronglySorted_inv in Hs as [Hs Hall]. cbn [fst snd] in *.
  destruct sha as [sha|]; [|discriminate]. cbn [mbind option_bind] in Hp.
  set (step := (if 0 <? size - zlen (take k data) then _ else _) : W dev _).
  assert (exists w', step w = (Done (Some (take (Z.to_nat size) data), SrcEmmc data size), w') /\
    forall n, 0 <= w_answers w' n) as (w' & Hstep & Hw').
  { subst step. rewrite length_take, Nat.min_l by done.
    destruct (Z.ltb_spec 0 (size - Z.of_nat k)).
    - unfold part_read, sys_fread, ask, wbind, wret. cbn.
      rewrite (proj2 (Z.ltb_ge _ 0)) by apply Hw. cbn.
      rewrite Nat2Z.id, length_take, length_drop.
      replace (Z.of_nat (Z.to_nat (size - Z.of_nat k) `min` (length data - k))) with (size - Z.of_nat k) by lia.
      rewrite Z.eqb_refl, take_take_drop.
      replace (k + Z.to_nat (size - Z.of_nat k))%nat with (Z.to_nat size) by lia.
      replace (Z.of_nat k + (size - Z.of_nat k)) with size by lia. eexists. split; [done|]. apply Hw.
    - assert (size = Z.of_nat k) as -> by lia. rewrite Nat2Z.id. eexists. by split. }
  unfold wbind at 1. rewrite Hstep. rewrite Hp. cbn [find]. unfold pair_matches at 1. cbn [fst snd].
  cbn [mbind option_bind]. rewrite Hp.
  destruct (decide (sha1 (take (Z.to_nat size) data) = parsed)) as [->|Hne].
  - rewrite !bool_decide_eq_true_2 by done. cbn. rewrite length_take. do 2 f_equal. lia.
  - rewrite !bool_decide_eq_false_2 by congruence.
    replace size with (Z.of_nat (Z.to_nat size)) at 1 by lia. rewrite IH; auto; [|lia|].
    + destruct (find pair_matches ps); [done|]. do 2 f_equal. rewrite Z2Nat.id by lia.
      destruct ps as [|p ps]; [done|]. by destruct (last_is_Some (p :: ps)) as [_ Hl];
        destruct (Hl ltac:(done)) as [q Hq]; rewrite last_cons_cons, Hq.
    + rewrite Z2Nat.id by lia. eapply Forall_impl; [exact Hall|]. by unfold size_le.
Qed.
End LoadPairs.

(** The first hit in a sorted list is below every other hit. *)
Lemma find_sorted_first f (l : list (Z * option string)) p q :
  StronglySorted size_le l -> find f l = Some p -> q ∈ l -> f q = true -> p.1 <= q.1.
Proof.
  induction 1 as [|a l Hs IH Hall]; cbn [find]; [discriminate|].
  intros Hf Hq Hfq. destruct (f a) eqn:Ea.
  - injection Hf as <-. apply elem_of_cons in Hq as [->|Hq]; [lia|].
    rewrite Forall_forall in Hall. by apply Hall.
  - apply elem_of_cons in Hq as [->|Hq]; [congruence|]. auto.
Qed.

(** Loading a partition named with (size, sha1) pairs picks the smallest
    size for which that prefix of the partition has the corresponding digest,
    whatever the order of the pairs in the name, and fails only if no pair
    matches. *)
Theorem load_pairs_smallest {D : MtdDriver} (sha1 : list Z -> list Z) fuel data ps (w : world dev)
    (Hw : forall n, 0 <= w_answers w n) (Hok : Forall (pair_ok data) ps) :
  match (load_pairs sha1 fuel (merge_sort size_le ps) (SrcEmmc data 0) [] w).1 with
  | Done (Some got, size) =>
      (exists p, p ∈ ps /\ p.1 = size /\ pair_matches sha1 data p = true) /\
      got = take (Z.to_nat size) data /\
      (forall p, p ∈ ps -> pair_matches sha1 data p = true -> size <= p.1)
  | Done (None, _) => forall p, p ∈ ps -> pair_matches sha1 data p = false
  | _ => False
  end.
Proof.
  assert (Transitive size_le) by (intros a b c; unfold size_le; lia).
  assert (Total size_le) by (intros a b; unfold size_le; lia).
  pose proof (StronglySorted_merge_sort size_le ps) as Hs.
  pose proof (merge_sort_Permutation size_le ps) as Hperm.
  change (SrcEmmc data 0) with (SrcEmmc data (Z.of_nat 0)). change [] with (take 0 data) at 1.
  rewrite load_pairs_run; auto; [|lia|by rewrite Hperm|].
  2: { rewrite Hperm. eapply Forall_impl; [exact Hok|]. intros p [Hp _]. lia. }
  destruct (find (pair_matches sha1 data) (merge_sort size_le ps)) as [p|] eqn:E.
  - split; [|split; [done|]].
    + apply find_some in E as [Hin Hm]. exists p. split_and!; auto. rewrite <- Hperm. by apply list_elem_of_In.
    + intros q Hq Hm. apply (find_sorted_first _ _ _ _ Hs E); [|done]. by rewrite Hperm.
  - intros p Hp. rewrite <- Hperm in Hp. apply list_elem_of_In in Hp. by eapply find_none in E.
Qed.

Definition demo_pairs : list (Z * option string) :=
  [(3, Some "0a141e0000000000000000000000000000000000"); (2, Some "0a14000000000000000000000000000000000000")].

Lemma load_pairs_smallest_witness :
  let r := (load_pairs toy_sha1 40 (merge_sort size_le demo_pairs) (SrcEmmc [10; 20; 30; 40] 0) []
              (emmc_world (fun _ => 5))).1 in
  r = Done (Some [10; 20], 2) /\
  match r with
  | Done (Some got, size) =>
      (exists p, p ∈ demo_pairs /\ p.1 = size /\ pair_matches toy_sha1 [10; 20; 30; 40] p = true) /\
      got = take (Z.to_nat size) [10; 20; 30; 40] /\
      (forall p, p ∈ demo_pairs -> pair_matches toy_sha1 [10; 20; 30; 40] p = true -> size <= p.1)
  | Done (None, _) => forall p, p ∈ demo_pairs -> pair_matches toy_sha1 [10; 20; 30; 40] p = false
  | _ => False
  end.
Proof.
  split; [vm_compute; reflexivity|].
  apply (load_pairs_smallest toy_sha1 40 [10; 20; 30; 40] demo_pairs (emmc_world (fun _ => 5))).
  - cbn. lia.
  - repeat constructor; cbn; try lia; eexists; vm_compute; reflexivity.
Defined.

(** ** An undisturbed run *)

Section Undisturbed.
  Context {B : BzLib} {Zl : ZLib} {D : MtdDriver}.
  Context (malloc_ok : Z -> bool) (sha1 : list Z -> list Z) (mtd_table : MtdState).
  Context (readdir : disk -> string -> list string) (proc : list (string * list (string * string))).
  Context (garbage : Z) (fuel : nat).

(** Every call works in full; there is a gigabyte free. *)
Definition undisturbed (w : world dev) : Prop := forall n, w_answers w n = 2 ^ 30.

(** [m] runs from [w] to a world with disk [fs], still undisturbed. *)
Definition runs {A} (m : W dev A) (w : world dev) (a : A) (fs : disk) : Prop :=
  exists w', m w = (Done a, w') /\ w_fs w' = fs /\ undisturbed w'.

Lemma runs_bind {A C} (m : W dev A) (k : A -> W dev C) w a fs c fs' :
  runs m w a fs -> (forall w', w_fs w' = fs -> undisturbed w' -> runs (k a) w' c fs') ->
  runs (wbind m k) w c fs'.
Proof.
  intros (w1 & E & Hfs & Hu) Hk. destruct (Hk w1 Hfs Hu) as (w2 & E2 & H2). exists w2.
  unfold wbind. by rewrite E.
Qed.

Lemma runs_ret {A} (a : A) w : undisturbed w -> runs (wret a) w a (w_fs w).
Proof. intros H. by exists w. Qed.

Lemma runs_ret_at {A} (a : A) w fs : undisturbed w -> w_fs w = fs -> runs (wret a) w a fs.
Proof. intros H <-. by exists w. Qed.

(** The calls. *)
Ltac run_call Hu :=
  intros; unfold runs, sys_stat, sys_fopen, sys_fread, sys_creat, sys_append, sys_update, sys_rename,
    FreeSpaceForFile, ask, get_fs, set_fs, wbind, wret; cbn;
  rewrite ?Hu by assumption;
  change (2 ^ 30 <? 0) with false; change (2 ^ 30 <=? 0) with false; cbn;
  repeat match goal with H : w_fs _ !! _ = _ |- _ => rewrite H; cbn end;
  eexists; split; [reflexivity|]; split; [reflexivity|assumption].

Section Steps.
  Context (w : world dev) (Hu : undisturbed w).

Lemma run_stat path f : w_fs w !! path = Some f -> runs (sys_stat path) w (inl f) (w_fs w).
Proof. run_call Hu. Qed.

Lemma run_stat_none path : w_fs w !! path = None -> runs (sys_stat path) w (inr true) (w_fs w).
Proof. run_call Hu. Qed.

Lemma run_fopen path f : w_fs w !! path = Some f -> runs (sys_fopen path) w (Some (f_data f)) (w_fs w).
Proof. run_call Hu. Qed.

Lemma run_fread data n :
  runs (sys_fread data 0 n) w (take (Z.to_nat n) data) (w_fs w).
Proof. run_call Hu. Qed.

Lemma run_creat path : exists f, f_data f = [] /\ runs (sys_creat path) w true (<[path := f]> (w_fs w)).
Proof.
  exists (match w_fs w !! path with
          | Some f => mkFile [] (f_mode f) (f_uid f) (f_gid f) | None => mkFile [] 384 0 0 end).
  split; [by destruct (w_fs w !! path)|]. run_call Hu.
Qed.

Lemma run_update path g f : w_fs w !! path = Some f ->
  runs (sys_update path g) w true (<[path := g f]> (w_fs w)).
Proof. run_call Hu. Qed.

Lemma run_rename from to f : w_fs w !! from = Some f ->
  runs (sys_rename from to) w true (<[to := f]> (delete from (w_fs w))).
Proof. run_call Hu. Qed.

Lemma run_free path : runs (FreeSpaceForFile path) w (2 ^ 30) (w_fs w).
Proof. run_call Hu. Qed.

(** The sink writes everything in one call. *)
Lemma run_sink path f data : w_fs w !! path = Some f -> f_data f = [] -> zlen data <= 2 ^ 30 ->
  exists f', f_data f' = data /\ runs (FileSink path (Some data) (zlen data)) w (zlen data) (<[path := f']> (w_fs w)).
Proof.
  intros Hf Hd Hl. unfold FileSink, runs.
  destruct data as [|b data].
  { exists f. split; [done|]. exists w. split; [done|]. split; [|done]. by rewrite insert_id. }
  set (l := b :: data) in *. assert (0 < zlen l) by (subst l; cbn; lia).
  rewrite Nat2Z.id. destruct (length l) as [|n] eqn:El; [lia|]. cbn [file_sink].
  rewrite <- El in *. rewrite (proj2 (Z.ltb_lt _ _)) by lia.
  exists (mkFile l (f_mode f) (f_uid f) (f_gid f)). split; [done|].
  unfold wbind at 1. unfold sys_append, ask, get_fs, set_fs, wbind, wret. cbn -[file_sink].
  rewrite Hu. change (2 ^ 30 <=? 0) with false. cbn -[file_sink]. rewrite Hf. cbn -[file_sink].
  rewrite ?drop_0, Z.min_r, Hd, Nat2Z.id, firstn_all by lia. cbn [app].
  rewrite (proj2 (Z.leb_gt _ _)) by lia. rewrite Z.add_0_l.
  assert (forall m w0, file_sink (D := D) m path (Some l) (zlen l) (zlen l) w0 = (Done (zlen l), w0)) as Hend
    by (intros [|m] w0; cbn [file_sink]; by rewrite Z.ltb_irrefl).
  rewrite Hend. eexists. split; [reflexivity|]. by split.
Qed.
End Steps.

(** What [LoadFileContents] gives for the file of that name. *)
Definition load_result (fs : disk) (name : string) (fc : FileContents) : Z * FileContents :=
  match fs !! name with
  | None => (- ENOENT, mkFC (fc_sha1 fc) None (fc_size fc) (fc_st fc))
  | Some f =>
      let st := (f_mode f, f_uid f, f_gid f) in
      match retouch_mask_data fuel (f_data f) (Some 0) with
      | Done (status, data, _) =>
          if status =? RETOUCH_DATA_MATCHED then (0, mkFC (sha1 data) (Some data) (zlen (f_data f)) st)
          else (-1, mkFC (fc_sha1 fc) None (zlen (f_data f)) st)
      | _ => (-1, fc)
      end
  end.

(** A disk whose files [retouch_mask_data] can look at. *)
Definition small_files (fs : disk) : Prop :=
  map_Forall (fun _ f => zlen (f_data f) < 2 ^ 31 /\ (length (f_data f) <= fuel)%nat) fs.

Lemma run_load name fc w fs :
  is_partition name = false -> undisturbed w -> w_fs w = fs -> small_files fs ->
  runs (LoadFileContents malloc_ok sha1 mtd_table fuel name fc) w (load_result fs name fc) fs.
Proof.
  intros Hp Hu <- Hs. unfold LoadFileContents, load_result. rewrite Hp.
  destruct (w_fs w !! name) as [f|] eqn:Ef.
  2: { eapply runs_bind; [by apply run_stat_none|]. intros w' <- Hu'. by apply runs_ret. }
  eapply runs_bind; [by apply run_stat|]. intros w1 Hf1 Hu1. cbv zeta.
  eapply runs_bind; [apply run_fopen; [done|by rewrite Hf1]|]. intros w2 Hf2 Hu2.
  eapply runs_bind; [by apply run_fread|]. intros w3 Hf3 Hu3. rewrite Nat2Z.id, firstn_all, Z.eqb_refl. cbn [negb].
  destruct (Hs _ _ Ef) as [Hlt Hf].
  destruct (retouch_mask_data_returns (f_data f) (Some 0) fuel Hlt) as (st & b & o & -> & _);
    [unfold desired_ok, in_s; lia|done|].
  assert (w_fs w = w_fs w3) as -> by congruence.
  exists w3. unfold wbind, wlift, wret. destruct (st =? RETOUCH_DATA_MATCHED); by split_and!.
Qed.

(** The source data that a run takes: the first usable one. *)
Definition patch_works (data : list Z) (patch_sha1_str : list string) (patch_data : list Value)
    (target_sha1 : list Z) : Prop :=
  exists k patch new, FindMatchingPatch (sha1 data) patch_sha1_str = Some k /\
    patch_data !! k = Some (VAL_BLOB patch) /\ take 8 patch = bsdiff_magic /\
    ApplyBSDiffPatchMem malloc_ok fuel data (zlen data) patch 0 = Done new /\
    sha1 new = target_sha1 /\ zlen new <= 2 ^ 30.

Section Generate.
  Context (src tgt : string) (target_sha1 : list Z) (target_size : Z) (bonus : option (list Z)).
  Context (Htgt : is_partition tgt = false) (Hsize : 0 <= target_size < 2 ^ 28).

Lemma run_patch_to_file out source patch new w f :
  undisturbed w -> w_fs w !! out = Some f -> f_data f = [] -> take 8 patch = bsdiff_magic ->
  ApplyBSDiffPatchMem malloc_ok fuel source (zlen source) patch 0 = Done new -> zlen new <= 2 ^ 30 ->
  exists f', f_data f' = new /\
    runs (patch_to_file malloc_ok fuel out source patch bonus) w (Some (0, new)) (<[out := f']> (w_fs w)).
Proof.
  intros Hu Hf Hd Hm Hp Hl. destruct (run_sink w Hu out f new Hf Hd Hl) as (f' & Hf' & w' & E & Hw').
  exists f'. split; [done|]. exists w'. split; [|done]. unfold patch_to_file.
  assert ((8 <=? zlen patch) && bool_decide (patch_magic patch = bsdiff_magic) = true) as ->.
  { unfold patch_magic. assert (length (take 8 patch) = 8%nat) as Hl8 by by rewrite Hm.
    rewrite length_take in Hl8. rewrite Hm, bool_decide_eq_true_2, andb_true_r by done.
    apply Z.leb_le. lia. }
  unfold ApplyBSDiffPatch. rewrite Hp. unfold file_sink_fn. rewrite E, Z.ltb_irrefl. done.
Qed.

Lemma run_gen_loop fc use source patch new w :
  undisturbed w -> take 8 patch = bsdiff_magic ->
  ApplyBSDiffPatchMem malloc_ok fuel source (zlen source) patch 0 = Done new -> zlen new <= 2 ^ 30 ->
  exists f', f_data f' = new /\
    runs (gen_loop malloc_ok readdir proc fuel 1 fc use source (VAL_BLOB patch) src tgt target_size bonus false)
      w (inl (new, [], false)) (<[tgt ++ patch_suffix := f']> (w_fs w)).
Proof.
  intros Hu Hm Hp Hl. cbn [gen_loop].
  assert (runs (gen_prepare readdir proc fc use src tgt target_size 1 false) w (Some (1%nat, false)) (w_fs w)) as Hprep.
  { unfold gen_prepare. rewrite Htgt. eapply (runs_bind _ _ w true (w_fs w)).
    - eapply runs_bind; [by apply run_free|]. intros w' <- Hu'.
      assert ((256 * 2 ^ 10 <? 2 ^ 30) && (wrap 32 (target_size * 3) / 2 <? 2 ^ 30) = true) as ->.
      { rewrite wrap_small by (unfold in_u; lia). apply andb_true_iff. split; [done|]. apply Z.ltb_lt.
        apply Z.div_lt_upper_bound; lia. }
      by apply runs_ret.
    - intros w' <- Hu'. cbn [negb andb]. by apply runs_ret. }
  destruct Hprep as (w1 & E1 & Hf1 & Hu1).
  destruct (run_creat w1 Hu1 (tgt ++ patch_suffix)) as (f & Hf & w2 & E2 & Hf2 & Hu2).
  destruct (run_patch_to_file (tgt ++ patch_suffix) source patch new w2 f Hu2) as (f' & Hf' & w3 & E3 & Hf3 & Hu3);
    [rewrite Hf2; apply lookup_insert_eq|done..|].
  exists f'. split; [done|]. exists w3. split.
  - unfold wbind at 1. rewrite E1. cbn [patch_bytes]. rewrite Htgt. unfold wbind at 1. rewrite E2. cbn [negb].
    unfold wbind at 1. by rewrite E3.
  - split; [|done]. rewrite Hf3, Hf2, Hf1. by rewrite insert_insert_eq.
Qed.

Lemma run_GenerateTarget fc use copy source patch new w :
  undisturbed w -> fc_data copy = Some source -> take 8 patch = bsdiff_magic ->
  ApplyBSDiffPatchMem malloc_ok fuel source (zlen source) patch 0 = Done new -> zlen new <= 2 ^ 30 ->
  sha1 new = target_sha1 ->
  exists f' fs', f_data f' = new /\ fs' !! tgt = Some f' /\
    runs (GenerateTarget malloc_ok sha1 mtd_table readdir proc fuel fc use copy (VAL_BLOB patch) src tgt
            target_sha1 target_size bonus) w 0 fs'.
Proof.
  intros Hu Hc Hm Hp Hl Hs. unfold GenerateTarget. rewrite Hc.
  destruct (run_gen_loop fc use source patch new w Hu Hm Hp Hl) as (f & Hf & w1 & E1 & Hf1 & Hu1).
  destruct (fc_st copy) as [[mode uid] gid].
  destruct (run_update w1 Hu1 (tgt ++ patch_suffix) (fun f => mkFile (f_data f) mode (f_uid f) (f_gid f)) f)
    as (w2 & E2 & Hf2 & Hu2); [by rewrite Hf1, lookup_insert_eq|].
  set (g := mkFile (f_data f) mode (f_uid f) (f_gid f)) in *.
  destruct (run_update w2 Hu2 (tgt ++ patch_suffix) (fun f => mkFile (f_data f) (f_mode f) uid gid) g)
    as (w3 & E3 & Hf3 & Hu3); [by rewrite Hf2, lookup_insert_eq|].
  set (h := mkFile (f_data g) (f_mode g) uid gid) in *.
  destruct (run_rename w3 Hu3 (tgt ++ patch_suffix) tgt h) as (w4 & E4 & Hf4 & Hu4);
    [by rewrite Hf3, lookup_insert_eq|].
  exists h, (w_fs w4). split; [done|]. split; [by rewrite Hf4, lookup_insert_eq|].
  exists w4. split; [|done]. unfold wbind at 1. rewrite E1, bool_decide_eq_true_2, Htgt by done.
  cbn [negb]. unfold sys_chmod, sys_chown, wbind, wret. rewrite E2. cbn [negb]. rewrite E3. cbn [negb].
  rewrite E4. done.
Qed.
End Generate.
End Undisturbed.

(** What a load tells about the file. *)
Definition masks_to (fuel : nat) (fs : disk) (name : string) (data : list Z) : Prop :=
  exists f o, fs !! name = Some f /\
    retouch_mask_data fuel (f_data f) (Some 0) = Done (RETOUCH_DATA_MATCHED, data, o).

Lemma load_result_cases sha1 fuel fs name fc :
  small_files fuel fs ->
  (exists data, masks_to fuel fs name data /\ (load_result sha1 fuel fs name fc).1 = 0 /\
     fc_data (load_result sha1 fuel fs name fc).2 = Some data /\
     fc_sha1 (load_result sha1 fuel fs name fc).2 = sha1 data) \/
  ((forall data, ~ masks_to fuel fs name data) /\ (load_result sha1 fuel fs name fc).1 < 0 /\
     fc_data (load_result sha1 fuel fs name fc).2 = None).
Proof.
  intros Hs. unfold load_result, masks_to. destruct (fs !! name) as [f|] eqn:Ef.
  2: { right. split; [|done]. intros data (f & o & ? & _). done. }
  destruct (Hs _ _ Ef) as [Hlt Hf].
  destruct (retouch_mask_data_returns (f_data f) (Some 0) fuel Hlt) as (st & b & o & E & _);
    [unfold desired_ok, in_s; lia|done|]. rewrite E.
  destruct (Z.eqb_spec st RETOUCH_DATA_MATCHED) as [->|Hne].
  - left. exists b. split_and!; auto. by exists f, o.
  - right. split; [|done]. intros data (f' & o' & [= <-] & E'). congruence.
Qed.

Lemma masks_to_unique fuel fs name d d' : masks_to fuel fs name d -> masks_to fuel fs name d' -> d = d'.
Proof. intros (f & o & Hf & Hm) (f' & o' & Hf' & Hm'). simplify_eq. congruence. Qed.

(** A loaded source, or the knowledge that there is none. *)
Definition source_view (sha1 : list Z -> list Z) (fuel : nat) (fs : disk) (name : string)
    (fc : FileContents) : Prop :=
  (exists data, masks_to fuel fs name data /\ fc_data fc = Some data /\ fc_sha1 fc = sha1 data) \/
  ((forall data, ~ masks_to fuel fs name data) /\ fc_data fc = None).

Lemma load_source_view sha1 fuel fs name fc :
  small_files fuel fs -> source_view sha1 fuel fs name (load_result sha1 fuel fs name fc).2.
Proof.
  intros Hs. destruct (load_result_cases sha1 fuel fs name fc Hs) as [(d & H1 & _ & H2)|(H1 & _ & H2)];
    [left; eauto|by right].
Qed.

(** Using the patch that is listed for the contents. *)
Lemma run_use_patch {B : BzLib} {Zl : ZLib} {D : MtdDriver} malloc_ok sha1 mtd_table readdir proc fuel
    src tgt target_sha1 target_size bonus patch_sha1_str patch_data fc use copy data k (w : world dev) :
  is_partition tgt = false -> 0 <= target_size < 2 ^ 28 -> undisturbed w -> fc_data copy = Some data ->
  FindMatchingPatch (sha1 data) patch_sha1_str = Some k ->
  patch_works malloc_ok sha1 fuel data patch_sha1_str patch_data target_sha1 ->
  exists fs', runs (let! patch := wlift (access (patch_data !! k)) in
      GenerateTarget malloc_ok sha1 mtd_table readdir proc fuel fc use copy patch src tgt
        target_sha1 target_size bonus) w 0 fs' /\ target_done sha1 fuel tgt target_sha1 fs'.
Proof.
  intros Htgt Hsize Hu Hd Hk (k' & patch & new & Hk' & Hp & Hmg & Hb & Hn & Hl).
  assert (k' = k) as -> by congruence.
  destruct (run_GenerateTarget malloc_ok sha1 mtd_table readdir proc fuel src tgt target_sha1
    target_size bonus Htgt Hsize fc use copy data patch new w Hu Hd Hmg Hb Hl Hn)
    as (f' & fs' & Hf' & Ht' & Hrun).
  exists fs'. rewrite Hp. split; [exact Hrun|]. exists f'. split; [done|].
  exists (f_data f'), 0. split; [by left|congruence].
Qed.


(** The world in which the source was deleted after it was saved. *)
Definition interrupted_world : world (@dev (nand_driver 4 (fun _ => false))) :=
  mkWorld {[ CACHE_TEMP_SOURCE := mkFile [10; 20] 420 0 0 ]} (∅ : gmap Z (list Z)) (fun _ => 2 ^ 30) 0 [].

